(* ===== verification/_CoqProject ===== *)
-Q . S2P
Prelude.v
CString.v
CNum.v
CMem.v
QSort.v
Namespace.v
Kernel.v
Sched.v
SchedInv.v
SchedOps.v
SchedEvents.v
SchedSteps.v
MsgPush.v
Msg.v
Timer.v
Mutex.v
Interrupts.v
Aes.v
AesCbc.v
RingBuf.v
BlockCache.v
NetIO.v
MemServer.v
NetMem.v
RemoteMem.v
Pager.v
Book.v
Pmem.v
Adler32.v
Inet.v
CrcTable.v
Crc32.v
Reserve.v
PageTable.v
Vmem.v
VmemBook.v
VmemCommit.v
VmemRange.v
VmemSpec.v
Mmap.v
MmapList.v
MmapClaims.v
MmapTree.v
MmapInv.v
MmapSplit.v
MmapPush.v
MmapCut.v
MmapTake.v
MmapRequest.v
MmapVisit.v
MmapBoot.v
MmapNano.v
MmapSpec.v
Sha256.v
Sha256Mips.v
Sha256Riscv.v
