(* ===== verification/Prelude.v ===== *)
(** * CheriOS with disaggregated memory: a verification library

    The repository holds CheriOS, a microkernel system for CHERI processors,
    and a prototype of disaggregated memory that keeps pages on another
    machine.  This library translates parts of both into Rocq functions and
    proves what makes them correct.  All paths below are under src/.

    ** The program and how its parts interact

    At the bottom the nanokernel (boot/nanokernel, assembly) owns physical
    memory, page tables and the capabilities the rest of the system works
    with; the kernel (cherios/kernel) cannot forge any of them.  The kernel
    schedules activations and passes messages and interrupts between them.
    Above it run activations: the namespace service and the memory manager
    (cherios/core), the block cache and its AES (cherios/system), and the
    libraries they link: libcrt's C library, SHA-256, zlib's and lwIP's
    checksums.  The memory manager drives the nanokernel's page book.  The
    disaggregated-memory prototype (ECS251_Disaggregated_Memory) is a server
    of pages, a client, and a pager that turns faults into client calls.

    ** Conventions of the model

    A machine integer is a [Z] kept in range by [wrap]; signed readings are
    [signed].  Arrays and buffers are lists reached by [zget] and [zput],
    which are [None] out of range: on CHERI such an access traps.  An
    operation that can stop (trap, failed assertion, panic) has an [option]
    result; one that returns an error code returns it as the source does.
    Code that is not in the repository (the socket layer, the disk driver,
    the capability compression of the processor) is an argument of the
    definitions that use it, as a list of outcomes, a function, or a class
    that states what is relied on.  Definitions keep the names of the source.

    ** Disaggregated memory (ECS251_Disaggregated_Memory/disaggregatedMemory)

    - NetIO: [read_full]/[write_full] of both sides and the header of the page
      protocol, over a socket whose [recv] and [send] fragment, are interrupted
      and fail as a list of outcomes says.
    - MemServer: memsrv_page.c.  The state is the list of regions; the step is
      one request.  [handle_client_safe]: every request leaves a well-formed
      store; [server_refines_store]: the sparse page lists refine a map from
      region and page to contents.
    - NetMem: netmem_page.c, verified against the class [PageServer].
    - RemoteMem: the server, with outcomes for its end of the connection that
      differ from exchange to exchange, is an instance of [PageServer];
      [remote_region_roundtrip] is the end-to-end statement.
    - Pager: disagg_pager.c.  [flush_writes_back] for pages that are dirty;
      [first_touch_never_returns] for the handler that faults on its own copy
      (the handler and the copy recurse through each other, and the theorem
      holds for every amount of fuel).

    ** Nanokernel (boot/nanokernel/src/platform/riscv/nano_kernel.S)

    - Book: the physical page book: one entry per page; a chunk is described
      by its first entry.  Splitting, merging, zeroing and handing out chunks,
      one definition per call, and stores through the physical capabilities
      that were handed out ([run_acts]).  [book_ok b F] says that the book [b] lays out
      the flat assignment [F] of a status to each page; the class
      [StatusBound] says which statuses the client allows.
    - PageTable: creation of tables and mappings, and the walk of the
      processor ([translate], Sv39, reserved entries included).
      [memory_isolation]: in every state that calls with page numbers below 2^63
      and no empty split reach from boot, the pages software reaches are never
      tables or pages the nanokernel keeps;
      [mapping_translates]: a mapping that was created translates to the
      pages given.
    - Reserve: reservations.  [reservation_safety]: memory is handed out once;
      as long as no store-conditional of [rescap_parent] fails;
      [reservation_answers]: the calls' results; [parent_store_lost]: what comes
      of one that fails.  Store-conditionals succeed as a list of bools says.

    ** Memory manager (cherios/core/memmgt)

    - Pmem: pmem.c, the searches over the book, on the calls of Book.
      [page_book_invariant] for every sequence of calls, with the restrictions
      of [args_ok], and stores through capabilities,
      [find_page_type_correct], [physical_capability_correct],
      [dirty_pages_cleaned], and [split_unchecked] for a check that is missing.
    - Vmem: the commit of a page and of a range in vmem.c, on Pmem and
      PageTable; the state is the book and the memory, the steps are commits,
      turns of the cleaner and stores.  VmemBook has the lemmas on the book
      (boundaries of chunks, a single chunk of unused pages), VmemCommit the
      invariant [mm_ok] and the commit of one page, VmemRange the loops of a
      range.  VmemSpec has the specification, a map from virtual pages to
      their words, and the refinement from boot on
      ([virtual_memory_refined]); [dma_contiguous] for ranges given to
      devices.  Both say that the calls go through while there are pages, with
      the number of pages each call needs.
    - Mmap: mmap.c, the directory of ranges of virtual pages and their owners,
      in a state monad over the heap of descriptors, the mops and the world of
      the nanokernel (class [Nano]).  The lists through the descriptors are in
      MmapList (pools) and MmapClaims (claims, accounts), the tables in
      MmapTree.  MmapInv has the invariant [ok], with the ranges by their first
      page beside it, and what is asked of the nanokernel ([NanoLaws]).  Then
      one file per operation: MmapSplit, MmapPush and MmapCut for the split of
      a range and [size_node], MmapTake for claims on a range, MmapRequest for
      [mem_request], MmapVisit for the loop of [mem_claim] and [mem_release],
      MmapBoot for [init_dir].  MmapNano shows that the reservations of Reserve
      keep [NanoLaws].  MmapSpec has the specification on pages:
      [directory_refined] for every sequence of calls from boot that are
      [ready] (small requests with no base; claims, releases and mops that begin
      where a range starts; a holder left on each page), [grants_apart],
      [range_sized], and [soft_index_astray] for the lookup of a page inside a
      range, which can go wrong.

    ** Kernel (cherios/kernel)

    - Kernel (activation records), Sched, SchedInv, SchedOps, SchedEvents,
      SchedSteps: sched.c and the sleep array of timer.c.  [wf] is the
      invariant; [sched_invariant] says that every sequence of critical
      sections on any cores keeps it; [reschedule_progress] and
      [notify_never_lost] are its liveness consequences; [queue_index_race] is
      about an index read before the lock of its queue is taken.
    - MsgPush: the lock-free push of msg.c as a step relation over
      interleavings of producers ([push_delivers], for runs that are [orderly];
      [stale_start_overwrites] without this).  Msg: the queue as a FIFO
      ([msg_queue_fifo]), sync tokens, calls and replies ([sync_call_reply]).
    - Timer, for the MIPS qemu build ([timer_reload_exact]: when the reload loop
      ends), Mutex ([mutex_no_exclusion]), Interrupts ([interrupt_masks], with
      the one case that leaves the masks out of step).

    ** Services and libraries

    - Namespace: cherios/core/namespace.  A port is bound once.
    - Aes, AesCbc: aes.c of the block cache: each step is that of FIPS 197,
      decryption inverts encryption, also in CBC mode and in place.
    - RingBuf: include/ringbuffers.h, as a bounded queue.  BlockCache:
      block_cache/src/main.c: while its rings have room, a session reads and
      writes as the disk would ([block_cache_is_disk]).
    - Sha256 is FIPS 180-4, with its constants computed from the primes;
      Sha256Mips: sha256/src/platform/mips/sha256.S computes it on every
      message; Sha256Riscv: the RISC-V version yields half of the digest.
    - Adler32, CrcTable, Crc32 (zlib), Inet (lwip/src/core/inet_chksum.c):
      the deferred reductions, the word-at-a-time loops, and the combination
      of two checksums equal the definition, within machine words; with lwIP's
      pseudo header on big-endian machines, and on little-endian ones for the
      lengths [inet_checksum_correct] names.
    - CString, CNum, CMem, QSort: libcrt/libc and libuser/src/ctype.c.

    ** Fuel and bounds

    A C loop that is not structural is a [Fixpoint] on fuel.  The wrapper that
    the rest of the model calls fixes the fuel from its arguments (the length
    of the buffer, the pages of the book, the bytes still to transfer), and
    the theorems state that the result is there, so the fuel is enough.  In
    mmap.c the tables have three levels, a search of the pools sees each
    descriptor once, and the loop over ranges moves on by a page or more.
    Loops that wait for another party (store-conditional, driver, socket)
    consume a list of its outcomes and are [None] when it ends.  Where the
    code does not terminate, the theorem says so for every fuel.

    ** Not modelled

    - The entry and exit paths of the nanokernel (register spill code around
      each call, context switch, exceptions) and the hardware's capability
      checks: an access the checks refuse is a trap in the model.
    - The MIPS nanokernel: a second implementation of the calls of the RISC-V
      one, for another page-table format.
    - Activation creation, syscall dispatch and exception handling of the
      kernel, process manager, ELF loader, dynamic linking, deduplication,
      and sockets: they work on capabilities to shared objects and call each
      other across protection domains; no part is left when these are taken
      away.
    - Of the memory manager, the unmapping of pages (on RISC-V the nanokernel
      call it ends in, [free_mapping], is a loop without an exit), the reclaim
      of a mop with its children, and the dumps.  The freeing, merging and
      revocation of ranges in mmap.c are defined in Mmap, but a release by the
      last holder is outside the theorems, as it calls the unmapping; so are
      requests for a fixed base, for 64 MB or more, or with a commit flag.
    - FatFs, UFS, lwIP, zlib's compressor and newlib parts are third-party
      programs in the tree; only the checksums are translated.
    - Drivers, boot code, tests, benchmarks and attack samples: input and
      output, or programs without a specification.
    - Timing, caches, memory ordering beyond load-linked and
      store-conditional, and failure of the hardware. *)

From Stdlib Require Export ZArith Lia Bool.
From stdpp Require Export prelude gmap.

Declare Scope c_scope.
Delimit Scope c_scope with C.

#[global] Open Scope Z_scope.

(** ** Machine integers

    A [w]-bit unsigned value is a [Z]; every C operation that can leave the
    range is followed by one of these wraps. *)

Definition wrap (w z : Z) : Z := z mod 2 ^ w.

Abbreviation u8 := (wrap 8).
Abbreviation u16 := (wrap 16).
Abbreviation u32 := (wrap 32).
Abbreviation u64 := (wrap 64).

Definition in_range (w z : Z) : Prop := 0 <= z < 2 ^ w.

(** The two's complement reading of a [w]-bit value. *)
Definition signed (w z : Z) : Z :=
  if wrap w z <? 2 ^ (w - 1) then wrap w z else wrap w z - 2 ^ w.

(** ** Arrays indexed by C integers

    CHERI traps on an out-of-bounds access, so both operations are partial. *)

Definition zget {A} (l : list A) (i : Z) : option A :=
  if 0 <=? i then l !! Z.to_nat i else None.

Definition zput {A} (l : list A) (i : Z) (x : A) : option (list A) :=
  if (0 <=? i) && (i <? Z.of_nat (length l))
  then Some (<[Z.to_nat i := x]> l) else None.

(** C truth values. *)
Definition c_bool (b : bool) : Z := if b then 1 else 0.

(** ** Automation *)

Create HintDb cheri.

Ltac destruct_if :=
  match goal with
  | |- context [if ?b then _ else _] => let E := fresh "E" in destruct b eqn:E
  | H : context [if ?b then _ else _] |- _ => let E := fresh "E" in destruct b eqn:E
  end.

(** Turn boolean tests of the context into propositions. *)
Ltac zbool :=
  repeat match goal with
  | H : (_ && _) = true |- _ => apply andb_true_iff in H; destruct H
  | H : (_ || _) = false |- _ => apply orb_false_iff in H; destruct H
  | H : (_ && _) = false |- _ => apply andb_false_iff in H
  | H : (_ || _) = true |- _ => apply orb_true_iff in H
  | H : negb _ = true |- _ => apply negb_true_iff in H
  | H : negb _ = false |- _ => apply negb_false_iff in H
  | H : (_ =? _)%Z = true |- _ => apply Z.eqb_eq in H
  | H : (_ =? _)%Z = false |- _ => apply Z.eqb_neq in H
  | H : (_ <? _)%Z = true |- _ => apply Z.ltb_lt in H
  | H : (_ <? _)%Z = false |- _ => apply Z.ltb_ge in H
  | H : (_ <=? _)%Z = true |- _ => apply Z.leb_le in H
  | H : (_ <=? _)%Z = false |- _ => apply Z.leb_gt in H
  end.

(** ** Lemmas on machine integers *)

Lemma wrap_range w z : 0 <= w -> in_range w (wrap w z).
Proof. intros; apply Z.mod_pos_bound, Z.pow_pos_nonneg; lia. Qed.

Lemma wrap_small w z : in_range w z -> wrap w z = z.
Proof. intros; apply Z.mod_small; assumption. Qed.

Lemma wrap_wrap w z : 0 <= w -> wrap w (wrap w z) = wrap w z.
Proof. intros; apply wrap_small, wrap_range; assumption. Qed.

Lemma wrap_add_l w a b : 0 <= w -> wrap w (wrap w a + b) = wrap w (a + b).
Proof. intros; unfold wrap; apply Z.add_mod_idemp_l, Z.pow_nonzero; lia. Qed.

Lemma wrap_sub_l w a b : 0 <= w -> wrap w (wrap w a - b) = wrap w (a - b).
Proof. intros; unfold wrap; apply Zminus_mod_idemp_l. Qed.

Lemma wrap_sub_r w a b : wrap w (a - wrap w b) = wrap w (a - b).
Proof. unfold wrap; apply Zminus_mod_idemp_r. Qed.

#[export] Hint Resolve wrap_range wrap_small : cheri.

(** A property of bytes by trying all of them. *)
Lemma all_bytes (P : Z -> bool) :
  forallb P (seqZ 0 256) = true -> forall b, in_range 8 b -> P b = true.
Proof. intros H b Hb; rewrite forallb_forall in H; apply H, list_elem_of_In, elem_of_seqZ; unfold in_range in Hb; lia. Qed.

(** ** Lemmas on arrays *)

Section arrays.
Context {A : Type}.
Implicit Types (l : list A) (i j : Z) (x : A).

Lemma zget_Some_range l i x :
  zget l i = Some x -> 0 <= i < Z.of_nat (length l).
Proof.
  unfold zget; destruct_if; [|discriminate]; intros H; zbool.
  apply lookup_lt_Some in H; lia.
Qed.

Lemma zget_is_Some l i :
  0 <= i < Z.of_nat (length l) -> exists x, zget l i = Some x.
Proof.
  intros H; unfold zget; rewrite (proj2 (Z.leb_le 0 i)) by lia.
  apply lookup_lt_is_Some_2; lia.
Qed.

Lemma zput_Some l i x l' :
  zput l i x = Some l' ->
  0 <= i < Z.of_nat (length l) /\ l' = <[Z.to_nat i := x]> l.
Proof. unfold zput; destruct_if; [|discriminate]; intros [= <-]; zbool; split; [lia|done]. Qed.

Lemma zput_is_Some l i x :
  0 <= i < Z.of_nat (length l) -> zput l i x = Some (<[Z.to_nat i := x]> l).
Proof.
  intros H; unfold zput.
  by rewrite (proj2 (Z.leb_le 0 i)), (proj2 (Z.ltb_lt i _)) by lia.
Qed.

Lemma zput_length l i x l' : zput l i x = Some l' -> length l' = length l.
Proof. intros [_ ->]%zput_Some; apply length_insert. Qed.

Lemma zget_zput_eq l i x l' : zput l i x = Some l' -> zget l' i = Some x.
Proof.
  intros [H ->]%zput_Some; unfold zget; rewrite (proj2 (Z.leb_le 0 i)) by lia.
  apply list_lookup_insert_eq; lia.
Qed.

Lemma zget_zput_ne l i j x l' :
  zput l i x = Some l' -> i <> j -> zget l' j = zget l j.
Proof.
  intros [H ->]%zput_Some Hij; unfold zget; destruct_if; [|done]; zbool.
  apply list_lookup_insert_ne; lia.
Qed.
Lemma zget_app_r (a : list A) x b i : i = Z.of_nat (length a) -> zget (a ++ x :: b) i = Some x.
Proof.
  intros ->; unfold zget; rewrite (proj2 (Z.leb_le _ _)) by lia.
  by rewrite Nat2Z.id, list_lookup_middle.
Qed.

Lemma zput_same l i x : zget l i = Some x -> zput l i x = Some l.
Proof.
  intros H; pose proof (zget_Some_range _ _ _ H) as Hr; rewrite zput_is_Some by done; f_equal.
  apply list_insert_id; unfold zget in H; rewrite (proj2 (Z.leb_le 0 i)) in H by lia; done.
Qed.

Lemma zput_zput l i x y l' : zput l i x = Some l' -> zput l' i y = zput l i y.
Proof.
  intros [Hr ->]%zput_Some; rewrite !zput_is_Some by (rewrite ?length_insert; done).
  by rewrite list_insert_insert_eq.
Qed.

Lemma zput_app_r (a : list A) x y b i :
  i = Z.of_nat (length a) -> zput (a ++ x :: b) i y = Some (a ++ y :: b).
Proof.
  intros ->; rewrite zput_is_Some by (rewrite length_app; cbn; lia).
  by rewrite Nat2Z.id, <- (Nat.add_0_r (length a)), insert_app_r.
Qed.

End arrays.

(** ** Lists of bytes *)

Definition byte_list (l : list Z) : Prop := Forall (fun b => 0 <= b < 256) l.

(** Induction that takes two elements at a time. *)
Lemma list_pair_ind {A} (P : list A -> Prop) :
  P [] -> (forall x, P [x]) -> (forall x y l, P l -> P (x :: y :: l)) -> forall l, P l.
Proof.
  intros H0 H1 H2 l; assert (P l /\ forall x, P (x :: l)) as [H _]; [|done].
  induction l as [|y l [IH IH']]; split; auto.
Qed.

(** ** Power-of-two alignment *)

Lemma land_shiftl a b n : 0 <= n -> 0 <= a < 2 ^ n -> Z.land a (Z.shiftl b n) = 0.
Proof.
  intros Hn Ha; destruct (decide (a = 0)) as [->|]; [apply Z.land_0_l|].
  apply Z.bits_inj'; intros i Hi; rewrite Z.land_spec, Z.bits_0; destruct (decide (i < n)).
  - rewrite (Z.shiftl_spec_low b n i) by lia; apply andb_false_r.
  - rewrite (Z.bits_above_log2 a i); [done|lia|].
    apply Z.log2_lt_pow2; [lia|]; assert (2 ^ n <= 2 ^ i) by (apply Z.pow_le_mono_r; lia); lia.
Qed.

Lemma lxor_shiftl a b n : 0 <= n -> 0 <= a < 2 ^ n -> Z.lxor a (Z.shiftl b n) = a + b * 2 ^ n.
Proof. intros Hn Ha; by rewrite <- Z.add_nocarry_lxor, Z.shiftl_mul_pow2 by (done || by apply land_shiftl). Qed.

Lemma lor_shiftl a b n : 0 <= n -> 0 <= a < 2 ^ n -> Z.lor a (Z.shiftl b n) = a + b * 2 ^ n.
Proof. intros Hn Ha; by rewrite <- Z.lxor_lor, lxor_shiftl by (done || by apply land_shiftl). Qed.

Lemma lxor_range w a b : 0 <= w -> in_range w a -> in_range w b -> in_range w (Z.lxor a b).
Proof.
  intros Hw Ha Hb; unfold in_range in *; assert (Z.lxor a b = Z.lxor a b mod 2 ^ w) as ->.
  { rewrite <- Z.land_ones, <- (Z.mod_small a (2 ^ w)), <- (Z.mod_small b (2 ^ w)), <- !Z.land_ones by lia.
    apply Z.bits_inj'; intros i Hi; rewrite !Z.land_spec, !Z.lxor_spec, !Z.land_spec.
    by destruct (Z.testbit a i), (Z.testbit b i), (Z.testbit (Z.ones w) i). }
  apply Z.mod_pos_bound; apply Z.pow_pos_nonneg; lia.
Qed.

Lemma land_lnot_ones x n : 0 <= n -> Z.land x (Z.lnot (2 ^ n - 1)) = x - x mod 2 ^ n.
Proof.
  intros Hn; replace (2 ^ n - 1) with (Z.ones n) by (rewrite Z.ones_equiv; lia).
  rewrite <- Z.ldiff_land, Z.ldiff_ones_r, Z.shiftl_mul_pow2, Z.shiftr_div_pow2 by done.
  pose proof (Z.pow_pos_nonneg 2 n ltac:(lia) Hn); rewrite (Z.div_mod x (2 ^ n)) at 2 by lia; lia.
Qed.
