(* ===== verification/CString.v ===== *)
(** * The C library's string functions (libcrt/libc)

    A [char *] is the list of characters from the pointer to the end of the
    capability that bounds it; reading or writing past that end traps, and the
    function gives [None].  Characters are the values of [char] on the target,
    signed or not; [u8] is the cast to [unsigned char].  A pointer into a
    string is returned as its offset, [Some None] being [NULL]. *)

From S2P Require Import Prelude.

(** ** Reading *)

(** The same pointer seen from one character earlier. *)
Definition adv (r : option (option nat)) : option (option nat) :=
  match r with Some (Some k) => Some (Some (S k)) | _ => r end.

Fixpoint strlen (s : list Z) : option nat :=
  match s with
  | [] => None
  | x :: s => if x =? 0 then Some O else S <$> strlen s
  end.

(** The loop stops at [c] or at the terminator; a terminator is [NULL] even
    when it is what was asked for. *)
Fixpoint strchr (s : list Z) (c : Z) : option (option nat) :=
  match s with
  | [] => None
  | x :: s =>
      if negb (x =? 0) && negb (x =? c) then adv (strchr s c)
      else Some (if x =? 0 then None else Some O)
  end.

Fixpoint strrchr_loop (p : list Z) (ch : Z) (i : nat) (save : option nat)
  : option (option nat) :=
  match p with
  | [] => None
  | x :: p =>
      let save := if x =? ch then Some i else save in
      if x =? 0 then Some save else strrchr_loop p ch (S i) save
  end.

Definition strrchr (cp : list Z) (ch : Z) : option (option nat) :=
  strrchr_loop cp ch O None.

Fixpoint strcmp (s1 s2 : list Z) : option Z :=
  match s1, s2 with
  | a :: s1, b :: s2 =>
      if a =? b then if a =? 0 then Some 0 else strcmp s1 s2
      else Some (u8 a - u8 b)
  | _, _ => None
  end.

(** [count] is a [size_t]: the decrement wraps. *)
Fixpoint strncmp (cs ct : list Z) (count : Z) : option Z :=
  match cs, ct with
  | a :: cs, b :: ct =>
      if a =? b then
        if (a =? 0) || (u64 (count - 1) =? 0) then Some 0
        else strncmp cs ct (u64 (count - 1))
      else Some (u8 a - u8 b)
  | _, _ => None
  end.

(** The body runs before the count is tested. *)
Fixpoint memcmp (p1 p2 : list Z) (num : Z) : option Z :=
  match p1, p2 with
  | a :: p1, b :: p2 =>
      let res := a - b in
      if negb (u64 (num - 1) =? 0) && (res =? 0) then memcmp p1 p2 (u64 (num - 1))
      else Some res
  | _, _ => None
  end.

Fixpoint memchr (s : list Z) (c : Z) (n : nat) {struct n} : option (option nat) :=
  match n with
  | O => Some None
  | S n =>
      match s with
      | [] => None
      | x :: s => if u8 x =? u8 c then Some (Some O) else adv (memchr s c n)
      end
  end.

(** The inner loop of [strpbrk]: is [c] in the string [s2]? *)
Fixpoint scan_set (c : Z) (s2 : list Z) : option bool :=
  match s2 with
  | [] => None
  | sc :: s2 => if sc =? 0 then Some false else if sc =? c then Some true else scan_set c s2
  end.

Fixpoint strpbrk (s1 s2 : list Z) : option (option nat) :=
  match s1 with
  | [] => None
  | c :: s1 =>
      if c =? 0 then Some None
      else match scan_set c s2 with
           | None => None
           | Some true => Some (Some O)
           | Some false => adv (strpbrk s1 s2)
           end
  end.

(** ** Writing: the result is the destination afterwards *)

Fixpoint strcpy (to from : list Z) : option (list Z) :=
  match to, from with
  | _ :: to, x :: from => if x =? 0 then Some (0 :: to) else cons x <$> strcpy to from
  | _, _ => None
  end.

Fixpoint strcat (s append : list Z) : option (list Z) :=
  match s with
  | [] => None
  | x :: s' => if x =? 0 then strcpy s append else cons x <$> strcat s' append
  end.

(** [while (--n != 0) *d++ = 0]. *)
Fixpoint nul_pad (d : list Z) (n : nat) {struct n} : option (list Z) :=
  match n with
  | O => Some d
  | S n => match d with [] => None | _ :: d => cons 0 <$> nul_pad d n end
  end.

Fixpoint strncpy (dst src : list Z) (n : nat) {struct n} : option (list Z) :=
  match n with
  | O => Some dst
  | S n =>
      match dst, src with
      | _ :: dst, x :: src =>
          if x =? 0 then cons 0 <$> nul_pad dst n else cons x <$> strncpy dst src n
      | _, _ => None
      end
  end.

(** The [do] loop of [strncat] and the terminator after it. *)
Fixpoint strncat_tail (d src : list Z) (n : nat) {struct n} : option (list Z) :=
  match n, d with
  | _, [] => None
  | O, _ :: d => Some (0 :: d)
  | S n, _ :: d =>
      match src with
      | [] => None
      | x :: src => if x =? 0 then Some (0 :: d) else cons x <$> strncat_tail d src n
      end
  end.

Fixpoint strncat_end (dst src : list Z) (n : nat) : option (list Z) :=
  match dst with
  | [] => None
  | x :: d => if x =? 0 then strncat_tail dst src n else cons x <$> strncat_end d src n
  end.

Definition strncat (dst src : list Z) (n : nat) : option (list Z) :=
  if (n =? 0)%nat then Some dst else strncat_end dst src n.

(** [strdup]: [malloc] gives a block of exactly the size asked for.  The copy
    runs over [size] characters; it traps when the allocation failed. *)
Definition strdup (malloc_ok : bool) (str1 : list Z) : option (list Z) :=
  size ← S <$> strlen str1;
  if malloc_ok then Some (take size str1) else None.

(** ** Sets of characters: a 256-bit table of four words *)

Definition IDX (c : Z) : Z := u8 c / 64.
Definition BIT (c : Z) : Z := Z.shiftl 1 (u8 c mod 64).

Fixpoint fill_table (tbl charset : list Z) : option (list Z) :=
  match charset with
  | [] => None
  | c :: charset =>
      if c =? 0 then Some tbl
      else
        w ← zget tbl (IDX c);
        tbl ← zput tbl (IDX c) (Z.lor w (BIT c));
        fill_table tbl charset
  end.

(** The scan of [strcspn] ([stop = true]) and of [strspn] ([stop = false]). *)
Fixpoint scan_table (stop : bool) (tbl s : list Z) : option nat :=
  match s with
  | [] => None
  | c :: s =>
      w ← zget tbl (IDX c);
      if eqb (negb (Z.land w (BIT c) =? 0)) stop then Some O
      else S <$> scan_table stop tbl s
  end.

Definition strcspn (s charset : list Z) : option nat :=
  x ← head s;
  if x =? 0 then Some O
  else tbl ← fill_table [1; 0; 0; 0] charset; scan_table true tbl s.

Definition strspn (s charset : list Z) : option nat :=
  x ← head s;
  if x =? 0 then Some O
  else tbl ← fill_table [0; 0; 0; 0] charset; scan_table false tbl s.

(** ** Substrings *)

(** [s] is what follows the pointer, [i] its offset. *)
Fixpoint strstr_loop (s : list Z) (c : Z) (find : list Z) (len : Z) (i : nat)
  : option (option nat) :=
  match s with
  | [] => None
  | sc :: s =>
      if sc =? 0 then Some None
      else if negb (sc =? c) then strstr_loop s c find len (S i)
      else
        r ← strncmp s find len;
        if negb (r =? 0) then strstr_loop s c find len (S i) else Some (Some i)
  end.

Definition strstr (s find : list Z) : option (option nat) :=
  match find with
  | [] => None
  | c :: find =>
      if c =? 0 then Some (Some O)
      else len ← strlen find; strstr_loop s c find (Z.of_nat len) O
  end.

(** ** Strings and buffers *)

(** The string a buffer holds, up to its terminator. *)
Fixpoint cstr (b : list Z) : list Z :=
  match b with
  | [] => []
  | x :: b => if x =? 0 then [] else x :: cstr b
  end.

Definition c_string (s : list Z) : Prop := Forall (fun x => x <> 0) s.
Definition terminated (b : list Z) : Prop := 0 ∈ b.

Lemma cstr_c_string b : c_string (cstr b).
Proof.
  unfold c_string; induction b as [|x b IH]; cbn; [constructor|].
  destruct (Z.eqb_spec x 0); constructor; auto.
Qed.

Lemma cstr_split b : terminated b -> exists r, b = cstr b ++ 0 :: r.
Proof.
  unfold terminated; induction b as [|x b IH]; cbn; [set_solver|]; intros H.
  destruct (Z.eqb_spec x 0) as [->|Hx]; [by exists b|].
  destruct IH as [r Hr]; [set_solver|]; exists r; cbn; by f_equal.
Qed.

Lemma cstr_app s r : c_string s -> cstr (s ++ 0 :: r) = s.
Proof.
  unfold c_string; induction 1 as [|x s Hx Hs IH]; cbn; [done|].
  by rewrite (proj2 (Z.eqb_neq x 0) Hx), IH.
Qed.

Lemma cstr_id s : c_string s -> cstr s = s.
Proof.
  unfold c_string; induction 1 as [|x s Hx Hs IH]; cbn; [done|].
  by rewrite (proj2 (Z.eqb_neq x 0) Hx), IH.
Qed.

Lemma terminated_app s r : terminated (s ++ 0 :: r).
Proof. unfold terminated; set_solver. Qed.

(** Every terminated buffer is a string, a terminator and a rest. *)
Ltac as_cstring b H :=
  let r := fresh "r" in let Hc := fresh "Hc" in let E := fresh "E" in
  destruct (cstr_split b H) as [r E]; pose proof (cstr_c_string b) as Hc;
  rewrite E; rewrite ?(cstr_app _ r Hc); clear E H; revert Hc; generalize (cstr b);
  clear b; intros b Hc.

Lemma c_string_cons x s : c_string (x :: s) <-> x <> 0 /\ c_string s.
Proof. unfold c_string; by rewrite Forall_cons. Qed.

Lemma eqb_nz x : x <> 0 -> (x =? 0) = false.
Proof. apply Z.eqb_neq. Qed.

(** ** Reading *)

Lemma strlen_spec b : terminated b -> strlen b = Some (length (cstr b)).
Proof.
  intros H; as_cstring b H; induction b as [|x b IH]; cbn; [done|].
  apply c_string_cons in Hc as [Hx Hc]; by rewrite eqb_nz, IH.
Qed.

Lemma strlen_None b : ~ terminated b -> strlen b = None.
Proof.
  unfold terminated; induction b as [|x b IH]; intros H; cbn; [done|].
  destruct (Z.eqb_spec x 0) as [->|]; [set_solver|]; rewrite IH; [done|set_solver].
Qed.

(** Offset of the first occurrence. *)
Fixpoint index_of (c : Z) (s : list Z) : option nat :=
  match s with
  | [] => None
  | x :: s => if x =? c then Some O else S <$> index_of c s
  end.

(** Offset of the last occurrence. *)
Fixpoint last_index_of (c : Z) (s : list Z) : option nat :=
  match s with
  | [] => None
  | x :: s =>
      match last_index_of c s with
      | Some k => Some (S k)
      | None => if x =? c then Some O else None
      end
  end.

Lemma index_of_None c s : index_of c s = None <-> c ∉ s.
Proof.
  induction s as [|x s IH]; cbn; [set_solver|].
  destruct (Z.eqb_spec x c) as [->|Hne]; [split; [done|set_solver]|].
  destruct (index_of c s) as [j|]; cbn; split; try done; set_solver.
Qed.

Lemma index_of_app c s t : c ∉ s -> index_of c (s ++ c :: t) = Some (length s).
Proof.
  intros Hs; induction s as [|x s IH]; cbn; [by rewrite Z.eqb_refl|].
  destruct (Z.eqb_spec x c); [set_solver|]; rewrite IH by set_solver; done.
Qed.

Lemma last_index_of_None c s : last_index_of c s = None <-> c ∉ s.
Proof.
  induction s as [|x s IH]; cbn; [set_solver|].
  destruct (last_index_of c s) as [k|]; [split; [done|set_solver]|].
  destruct (Z.eqb_spec x c) as [->|Hne]; split; try done; set_solver.
Qed.

Lemma last_index_of_app c s t : c ∉ t -> last_index_of c (s ++ c :: t) = Some (length s).
Proof.
  intros Ht; induction s as [|x s IH]; cbn.
  - by rewrite (proj2 (last_index_of_None c t)), Z.eqb_refl.
  - by rewrite IH.
Qed.

Lemma strchr_spec b c : terminated b -> strchr b c = Some (index_of c (cstr b)).
Proof.
  intros H; as_cstring b H; induction b as [|x b IH]; cbn; [done|].
  apply c_string_cons in Hc as [Hx Hc]; rewrite eqb_nz by done; cbn.
  destruct (Z.eqb_spec x c); cbn; [done|]; rewrite IH by done; by destruct (index_of c b).
Qed.

Lemma strrchr_spec b c :
  terminated b -> c <> 0 -> strrchr b c = Some (last_index_of c (cstr b)).
Proof.
  intros H Hc0; as_cstring b H; unfold strrchr.
  cut (forall i save, strrchr_loop (b ++ 0 :: r) c i save =
    Some (match last_index_of c b with Some k => Some (i + k)%nat | None => save end)).
  { intros ->; by destruct (last_index_of c b). }
  induction b as [|x b IH]; intros i save; cbn -[Z.eqb].
  - by rewrite (proj2 (Z.eqb_neq 0 c)) by lia.
  - apply c_string_cons in Hc as [Hx Hc]; rewrite eqb_nz, IH by done.
    destruct (last_index_of c b) as [k|]; [by rewrite Nat.add_succ_r|].
    destruct (Z.eqb_spec x c); [by rewrite Nat.add_0_r|done].
Qed.

Lemma scan_set_spec c b : terminated b -> scan_set c b = Some (bool_decide (c ∈ cstr b)).
Proof.
  intros H; as_cstring b H; induction b as [|x b IH]; cbn.
  - by rewrite bool_decide_false by set_solver.
  - apply c_string_cons in Hc as [Hx Hc]; rewrite eqb_nz by done.
    destruct (Z.eqb_spec x c) as [->|Hne]; [by rewrite bool_decide_true by set_solver|].
    rewrite IH by done; f_equal; apply bool_decide_ext; set_solver.
Qed.

(** ** Comparing *)

(** Two strings of characters compare like their bytes. *)
Fixpoint lex_lt (s1 s2 : list Z) : bool :=
  match s1, s2 with
  | _, [] => false
  | [], _ :: _ => true
  | a :: s1, b :: s2 => if a =? b then lex_lt s1 s2 else u8 a <? u8 b
  end.

(** [char] is signed ([lo = -128]) or not ([lo = 0]). *)
Definition char_in (lo x : Z) : Prop := (lo = -128 \/ lo = 0) /\ lo <= x < lo + 256.

Lemma u8_inj lo x y : char_in lo x -> char_in lo y -> u8 x = u8 y -> x = y.
Proof. unfold char_in, wrap; intros [[-> | ->] Hx] [_ Hy]; Z.div_mod_to_equations; lia. Qed.

Lemma u8_pos lo x : char_in lo x -> x <> 0 -> 0 < u8 x.
Proof. unfold char_in, wrap; intros [[-> | ->] Hx]; Z.div_mod_to_equations; lia. Qed.

Lemma strcmp_spec lo b1 b2 :
  terminated b1 -> terminated b2 ->
  Forall (char_in lo) (cstr b1) -> Forall (char_in lo) (cstr b2) ->
  exists v, strcmp b1 b2 = Some v /\ (v = 0 <-> cstr b1 = cstr b2) /\
    (v < 0 <-> lex_lt (cstr b1) (cstr b2) = true).
Proof.
  intros H1 H2; as_cstring b1 H1; as_cstring b2 H2.
  revert b2 Hc0; induction b1 as [|x b1 IH]; intros [|y b2] Hc0; cbn [app strcmp lex_lt].
  - intros _ _; by exists 0.
  - intros _ [Hy _]%Forall_cons; apply c_string_cons in Hc0 as [Hy0 _].
    rewrite (proj2 (Z.eqb_neq 0 y)) by lia; eexists; split; [done|].
    pose proof (u8_pos lo y Hy Hy0); change (u8 0) with 0; split; split; try done; lia.
  - intros [Hy _]%Forall_cons _; apply c_string_cons in Hc as [Hy0 _].
    rewrite eqb_nz by done; eexists; split; [done|].
    pose proof (u8_pos lo x Hy Hy0); change (u8 0) with 0; split; split; try done; lia.
  - intros [Hx Hs1]%Forall_cons [Hy Hs2]%Forall_cons.
    apply c_string_cons in Hc as [Hx0 Hc]; apply c_string_cons in Hc0 as [Hy0 Hc0].
    destruct (Z.eqb_spec x y) as [<-|Hxy].
    + rewrite eqb_nz by done; destruct (IH Hc b2 Hc0 Hs1 Hs2) as (v & -> & E1 & E2).
      exists v; split; [done|]; split; [|done]; rewrite E1; split; [by intros ->|by intros [= ->]].
    + eexists; split; [done|]; pose proof (u8_inj lo x y Hx Hy); rewrite Z.ltb_lt.
      split; [|lia]; split; [intros; assert (x = y) by (apply u8_inj with lo; auto; lia); done|by intros [= ->]].
Qed.

(** A buffer from which [n] characters, or a string, can be read. *)
Definition readable (b : list Z) (n : nat) : Prop := (n <= length b)%nat \/ terminated b.

Lemma readable_tail x b n : x <> 0 -> readable (x :: b) (S n) -> readable b n.
Proof. unfold readable, terminated; cbn; intros Hx [H|H]; [left; lia|right; set_solver]. Qed.

(** [strncmp] is [strcmp] of the strings cut to [n] characters. *)
Lemma strncmp_strcmp n b1 b2 :
  (0 < n)%nat -> Z.of_nat n < 2 ^ 64 -> readable b1 n -> readable b2 n ->
  strncmp b1 b2 (Z.of_nat n) = strcmp (take n b1 ++ [0]) (take n b2 ++ [0]).
Proof.
  revert b1 b2; induction n as [|n IH]; intros b1 b2 Hn Hlt H1 H2; [lia|].
  destruct b1 as [|a b1]; [destruct H1 as [H1|H1]; [cbn in H1; lia|set_solver]|].
  destruct b2 as [|b b2]; [destruct H2 as [H2|H2]; [cbn in H2; lia|set_solver]|].
  cbn [strncmp take app strcmp]; destruct (Z.eqb_spec a b) as [<-|]; [|done].
  destruct (Z.eqb_spec a 0) as [->|Ha]; [done|]; cbn [orb].
  rewrite (wrap_small 64) by (unfold in_range; lia).
  replace (Z.of_nat (S n) - 1) with (Z.of_nat n) by lia.
  destruct (Z.eqb_spec (Z.of_nat n) 0) as [E|E].
  - replace n with O by lia; by rewrite !take_0.
  - apply IH; [lia|lia|eauto using readable_tail..].
Qed.

Lemma cstr_take n s r : c_string s -> cstr (take n (s ++ 0 :: r) ++ [0]) = take n s.
Proof.
  intros Hs; revert n; induction s as [|x s IH]; intros [|n]; cbn; try done.
  apply c_string_cons in Hs as [Hx Hs]; rewrite eqb_nz by done; by rewrite IH.
Qed.

Lemma cstr_take_full n s : c_string s -> cstr (take n s ++ [0]) = take n s.
Proof. intros Hs; apply (cstr_app _ []), Forall_take, Hs. Qed.

Lemma terminated_snoc s : terminated (s ++ [0]).
Proof. apply (terminated_app s []). Qed.

(** Cutting a buffer cuts its string. *)
Lemma cstr_take_buf n b :
  readable b n -> cstr (take n b ++ [0]) = take n (cstr b).
Proof.
  revert n; induction b as [|x b IH]; intros [|n] H; cbn [take app cstr]; try done.
  destruct (Z.eqb_spec x 0); [done|]; rewrite IH by (eauto using readable_tail); done.
Qed.

Lemma strncmp_spec lo n b1 b2 :
  (0 < n)%nat -> Z.of_nat n < 2 ^ 64 -> readable b1 n -> readable b2 n ->
  Forall (char_in lo) (cstr b1) -> Forall (char_in lo) (cstr b2) ->
  exists v, strncmp b1 b2 (Z.of_nat n) = Some v /\
    (v = 0 <-> take n (cstr b1) = take n (cstr b2)) /\
    (v < 0 <-> lex_lt (take n (cstr b1)) (take n (cstr b2)) = true).
Proof.
  intros Hn Hlt H1 H2 Hc1 Hc2; rewrite strncmp_strcmp by done.
  rewrite <- (cstr_take_buf n b1), <- (cstr_take_buf n b2) by done.
  apply (strcmp_spec lo); try apply terminated_snoc; rewrite cstr_take_buf by done;
    by apply Forall_take.
Qed.

(** ** Copying *)

Lemma ltb_SS m n : (S m <? S n)%nat = (m <? n)%nat.
Proof. done. Qed.

Lemma strcpy_spec to from :
  terminated from ->
  strcpy to from =
    if (length (cstr from) <? length to)%nat
    then Some (cstr from ++ 0 :: drop (S (length (cstr from))) to) else None.
Proof.
  intros H; as_cstring from H; revert to; induction from as [|x from IH]; intros [|y to];
    cbn [strcpy app length].
  - done.
  - cbn; by rewrite drop_0.
  - done.
  - apply c_string_cons in Hc as [Hx Hc]; rewrite eqb_nz, IH by done.
    rewrite ltb_SS.
    by destruct_if.
Qed.

Lemma strcat_spec s append :
  terminated s -> terminated append ->
  strcat s append =
    if (length (cstr s) + length (cstr append) <? length s)%nat
    then Some (cstr s ++ cstr append ++ 0 :: drop (S (length (cstr s) + length (cstr append))) s)
    else None.
Proof.
  intros H Ha; as_cstring s H; induction s as [|x s IH].
  - cbn [strcat app Z.eqb]; by rewrite strcpy_spec.
  - apply c_string_cons in Hc as [Hx Hc]; cbn [strcat app length]; rewrite eqb_nz, IH by done.
    cbn [Nat.add]; rewrite ltb_SS.
    by destruct_if.
Qed.

Lemma nul_pad_spec d n :
  nul_pad d n = if (n <=? length d)%nat then Some (replicate n 0 ++ drop n d) else None.
Proof.
  revert d; induction n as [|n IH]; intros [|y d]; cbn [nul_pad]; try done.
  rewrite IH; change (S n <=? length (y :: d))%nat with (n <=? length d)%nat; by destruct_if.
Qed.

Lemma strncpy_spec dst src n :
  readable src n ->
  strncpy dst src n =
    if (n <=? length dst)%nat
    then Some (take n (cstr src) ++ replicate (n - length (cstr src)) 0 ++ drop n dst) else None.
Proof.
  revert dst src; induction n as [|n IH]; intros dst src H; cbn [strncpy].
  { by rewrite take_0, drop_0. }
  destruct dst as [|y dst]; [done|].
  destruct src as [|x src]; [destruct H as [H|H]; [cbn in H; lia|set_solver]|].
  change (S n <=? length (y :: dst))%nat with (n <=? length dst)%nat.
  destruct (Z.eqb_spec x 0) as [->|Hx]; cbn [cstr Z.eqb].
  - rewrite nul_pad_spec; by destruct_if.
  - rewrite IH, eqb_nz by (done || eauto using readable_tail); by destruct_if.
Qed.

Lemma strncat_tail_spec d src n :
  readable src n ->
  strncat_tail d src n =
    if (Nat.min n (length (cstr src)) <? length d)%nat
    then Some (take n (cstr src) ++ 0 :: drop (S (Nat.min n (length (cstr src)))) d) else None.
Proof.
  revert d src; induction n as [|n IH]; intros [|y d] src H; cbn [strncat_tail].
  1: done. 1: by cbn; rewrite drop_0. 1: done.
  destruct src as [|x src]; [destruct H as [H|H]; [cbn in H; lia|set_solver]|].
  destruct (Z.eqb_spec x 0) as [->|Hx]; cbn [cstr Z.eqb].
  - cbn; by rewrite drop_0.
  - rewrite IH, eqb_nz by (done || eauto using readable_tail); cbn [length Nat.min].
    rewrite ltb_SS.
    by destruct_if.
Qed.

Lemma strncat_spec s src n :
  terminated s -> readable src n -> (0 < n)%nat ->
  strncat s src n =
    let k := Nat.min n (length (cstr src)) in
    if (length (cstr s) + k <? length s)%nat
    then Some (cstr s ++ take n (cstr src) ++ 0 :: drop (S (length (cstr s) + k)) s)
    else None.
Proof.
  intros H Hr Hn; unfold strncat; destruct (Nat.eqb_spec n 0); [lia|]; cbn zeta.
  as_cstring s H; induction s as [|x s IH].
  - cbn [strncat_end app Z.eqb]; by rewrite strncat_tail_spec.
  - apply c_string_cons in Hc as [Hx Hc]; cbn [strncat_end app length]; rewrite eqb_nz, IH by done.
    cbn [Nat.add]; rewrite ltb_SS.
    by destruct_if.
Qed.

(** ** Spans *)

Definition tbl_mem (tbl : list Z) (c : Z) : bool :=
  match zget tbl (IDX c) with
  | Some w => Z.testbit w (u8 c mod 64)
  | None => false
  end.

(** Is the byte of [c] that of a character of [set]? *)
Definition in_set (set : list Z) (c : Z) : bool := existsb (fun x => u8 x =? u8 c) set.

(** Length of the longest prefix of characters that satisfy [P]. *)
Fixpoint prefix_len (P : Z -> bool) (s : list Z) : nat :=
  match s with
  | [] => O
  | x :: s => if P x then S (prefix_len P s) else O
  end.

Lemma IDX_range c : 0 <= IDX c < 4.
Proof. unfold IDX; pose proof (wrap_range 8 c ltac:(lia)); unfold in_range in *; Z.div_mod_to_equations; lia. Qed.

Lemma zget_table (tbl : list Z) c : length tbl = 4%nat -> exists w, zget tbl (IDX c) = Some w.
Proof. intros H; apply zget_is_Some; pose proof (IDX_range c); lia. Qed.

Lemma testbit_BIT c d :
  Z.testbit (BIT c) (u8 d mod 64) = (u8 c mod 64 =? u8 d mod 64).
Proof.
  unfold BIT; pose proof (Z.mod_pos_bound (u8 c) 64 ltac:(lia)).
  pose proof (Z.mod_pos_bound (u8 d) 64 ltac:(lia)).
  rewrite Z.shiftl_1_l, Z.pow2_bits_eqb by lia; done.
Qed.

Lemma land_BIT w c : negb (Z.land w (BIT c) =? 0) = Z.testbit w (u8 c mod 64).
Proof.
  pose proof (Z.mod_pos_bound (u8 c) 64 ltac:(lia)).
  destruct (Z.eqb_spec (Z.land w (BIT c)) 0) as [E|E]; cbn.
  - assert (Z.testbit (Z.land w (BIT c)) (u8 c mod 64) = false) as Ht by (by rewrite E, Z.bits_0).
    rewrite Z.land_spec, testbit_BIT, Z.eqb_refl, andb_true_r in Ht; done.
  - destruct (Z.testbit w (u8 c mod 64)) eqn:Ht; [done|]; exfalso; apply E.
    apply Z.bits_inj'; intros k Hk; rewrite Z.land_spec, Z.bits_0; unfold BIT.
    rewrite Z.shiftl_1_l, Z.pow2_bits_eqb by lia.
    destruct (Z.eqb_spec (u8 c mod 64) k) as [<-|]; [by rewrite Ht|apply andb_false_r].
Qed.

Lemma same_byte c d : (u8 c =? u8 d) = ((IDX c =? IDX d) && (u8 c mod 64 =? u8 d mod 64)).
Proof.
  unfold IDX; apply eq_true_iff_eq; rewrite andb_true_iff, !Z.eqb_eq.
  split; [by intros ->|]; intros [H1 H2].
  rewrite (Z.div_mod (u8 c) 64), (Z.div_mod (u8 d) 64) by lia; by rewrite H1, H2.
Qed.

Lemma fill_table_spec tbl b :
  length tbl = 4%nat -> terminated b ->
  exists tbl', fill_table tbl b = Some tbl' /\ length tbl' = 4%nat /\
    forall d, tbl_mem tbl' d = tbl_mem tbl d || in_set (cstr b) d.
Proof.
  intros Hl H; as_cstring b H; revert tbl Hl; induction b as [|c b IH]; intros tbl Hl; cbn.
  { exists tbl; split_and!; [done..|]; intros; by rewrite orb_false_r. }
  apply c_string_cons in Hc as [Hx Hc]; rewrite eqb_nz by done.
  destruct (zget_table tbl c Hl) as [w Hw]; rewrite Hw; cbn.
  pose proof (zput_is_Some tbl (IDX c) (Z.lor w (BIT c))) as Ht1.
  rewrite Hl in Ht1; specialize (Ht1 (IDX_range c)); set (t1 := <[_ := _]> tbl) in Ht1.
  rewrite Ht1; cbn; pose proof (zput_length _ _ _ _ Ht1) as Hl1.
  destruct (IH Hc t1 ltac:(lia)) as (t2 & E2 & Hl2 & Hm2); exists t2; split_and!; [done..|].
  intros d; rewrite Hm2, orb_assoc; f_equal; unfold tbl_mem; rewrite same_byte.
  destruct (Z.eqb_spec (IDX c) (IDX d)) as [Hi|Hi]; cbn.
  - rewrite <- Hi, (zget_zput_eq _ _ _ _ Ht1), Hw, Z.lor_spec, testbit_BIT; done.
  - by rewrite (zget_zput_ne _ _ _ _ _ Ht1), orb_false_r by done.
Qed.

Lemma scan_table_spec stop tbl s r :
  length tbl = 4%nat -> tbl_mem tbl 0 = stop ->
  scan_table stop tbl (s ++ 0 :: r) = Some (prefix_len (fun c => negb (eqb (tbl_mem tbl c) stop)) s).
Proof.
  intros Hl H0; induction s as [|c s IH]; cbn [app scan_table prefix_len].
  - destruct (zget_table tbl 0 Hl) as [w Hw]; rewrite Hw; cbn [mbind option_bind].
    rewrite land_BIT; revert H0; unfold tbl_mem; rewrite Hw; intros ->; by rewrite eqb_reflx.
  - destruct (zget_table tbl c Hl) as [w Hw]; rewrite Hw; cbn [mbind option_bind].
    rewrite land_BIT; unfold tbl_mem at 1; rewrite Hw; destruct_if; cbn; [done|by rewrite IH].
Qed.

Lemma prefix_len_ext P Q s :
  Forall (fun c => P c = Q c) s -> prefix_len P s = prefix_len Q s.
Proof. induction 1 as [|x s Hx Hs IH]; cbn; [done|]; by rewrite Hx, IH. Qed.

Lemma table0_mem d : tbl_mem [0; 0; 0; 0] d = false.
Proof.
  unfold tbl_mem; destruct (zget_table [0; 0; 0; 0] d eq_refl) as [w Hw]; rewrite Hw.
  unfold zget in Hw; destruct_if; [|done]; apply list_elem_of_lookup_2 in Hw.
  assert (w = 0) as -> by set_solver; apply Z.bits_0.
Qed.

Lemma table1_mem d : tbl_mem [1; 0; 0; 0] d = (u8 d =? 0).
Proof.
  destruct (Z.eqb_spec (IDX d) 0) as [E|E].
  - unfold tbl_mem; rewrite E; change (zget [1; 0; 0; 0] 0) with (Some (BIT 0)); cbv iota beta.
    rewrite testbit_BIT; change (u8 0 mod 64) with 0; unfold IDX in E.
    apply eq_true_iff_eq; rewrite !Z.eqb_eq.
    pose proof (wrap_range 8 d ltac:(lia)); unfold in_range in *; Z.div_mod_to_equations; lia.
  - rewrite (proj2 (Z.eqb_neq (u8 d) 0)) by (unfold IDX in E; intros H; rewrite H in E; done).
    rewrite <- (table0_mem d); unfold tbl_mem.
    assert (zget [1; 0; 0; 0] (IDX d) = zget [0; 0; 0; 0] (IDX d)) as ->; [|done].
    symmetry; apply (zget_zput_ne [1; 0; 0; 0] 0 (IDX d) 0); [done|by apply not_eq_sym].
Qed.

Lemma cstr_head b x t : b = x :: t -> x <> 0 -> cstr b = x :: cstr t.
Proof. intros -> H; cbn; by rewrite eqb_nz. Qed.

(** Both spans stop at the terminator: the empty string is the early return. *)
Lemma head_cstr b : terminated b -> exists x, head b = Some x /\ (x = 0 <-> cstr b = []).
Proof.
  intros H; destruct b as [|x b]; [set_solver|]; exists x; split; [done|]; cbn.
  destruct (Z.eqb_spec x 0); split; done.
Qed.

Lemma in_set_nul lo set : c_string set -> Forall (char_in lo) set -> in_set set 0 = false.
Proof.
  unfold c_string, in_set; induction 1 as [|x s Hx Hs IH]; cbn; [done|].
  intros [Hc Hcs]%Forall_cons; pose proof (u8_pos lo x Hc Hx); rewrite IH by done.
  change (u8 0) with 0; by rewrite (proj2 (Z.eqb_neq (u8 x) 0)) by lia.
Qed.

Lemma strcspn_spec lo b set :
  terminated b -> terminated set -> Forall (char_in lo) (cstr b) ->
  strcspn b set = Some (prefix_len (fun c => negb (in_set (cstr set) c)) (cstr b)).
Proof.
  intros Hb Hs Hc; unfold strcspn.
  destruct (head_cstr b Hb) as (x & Hx & Hx0); rewrite Hx; cbn [mbind option_bind].
  destruct (Z.eqb_spec x 0) as [E|E]; [by rewrite (proj1 Hx0 E)|].
  destruct (fill_table_spec [1; 0; 0; 0] set eq_refl Hs) as (tbl & -> & Hl & Hm).
  cbn [mbind option_bind]; destruct (cstr_split b Hb) as [r Er]; rewrite Er at 1.
  rewrite scan_table_spec by (done || by rewrite Hm, table1_mem); f_equal.
  apply prefix_len_ext; apply Forall_forall; intros c Hin; rewrite Hm, table1_mem.
  rewrite Forall_forall in Hc; pose proof (cstr_c_string b) as Hnz.
  unfold c_string in Hnz; rewrite Forall_forall in Hnz.
  pose proof (u8_pos lo c (Hc c Hin) (Hnz c Hin)).
  rewrite (proj2 (Z.eqb_neq (u8 c) 0)) by lia; cbn; by destruct (in_set _ c).
Qed.

Lemma strspn_spec lo b set :
  terminated b -> terminated set -> Forall (char_in lo) (cstr set) ->
  strspn b set = Some (prefix_len (in_set (cstr set)) (cstr b)).
Proof.
  intros Hb Hs Hc; unfold strspn.
  destruct (head_cstr b Hb) as (x & Hx & Hx0); rewrite Hx; cbn [mbind option_bind].
  destruct (Z.eqb_spec x 0) as [E|E]; [by rewrite (proj1 Hx0 E)|].
  destruct (fill_table_spec [0; 0; 0; 0] set eq_refl Hs) as (tbl & -> & Hl & Hm).
  cbn [mbind option_bind]; destruct (cstr_split b Hb) as [r Er]; rewrite Er at 1.
  rewrite scan_table_spec
    by (done || by rewrite Hm, table0_mem, (in_set_nul lo) by (done || apply cstr_c_string)).
  f_equal; apply prefix_len_ext; apply Forall_forall; intros c _; rewrite Hm, table0_mem.
  by destruct (in_set _ c).
Qed.

(** ** Substrings *)

(** First position at which [pat] occurs, by trying them all. *)
Fixpoint first_occ (pat s : list Z) : option nat :=
  match s with
  | [] => None
  | x :: s' =>
      if bool_decide (take (length pat) s = pat) then Some O else S <$> first_occ pat s'
  end.

Lemma strstr_loop_spec lo c f b r rf i :
  c_string (c :: f) -> f <> [] -> c_string b -> Z.of_nat (length f) < 2 ^ 64 ->
  Forall (char_in lo) b -> Forall (char_in lo) f ->
  strstr_loop (b ++ 0 :: r) c (f ++ 0 :: rf) (Z.of_nat (length f)) i =
    Some ((fun k => (i + k)%nat) <$> first_occ (c :: f) b).
Proof.
  intros [Hc0 Hf]%c_string_cons Hne Hb Hlen Hcb Hcf; revert i.
  induction b as [|x b IH]; intros i; cbn [app strstr_loop first_occ]; [done|].
  apply c_string_cons in Hb as [Hx Hb]; apply Forall_cons in Hcb as [Hcx Hcb].
  rewrite eqb_nz by done; cbn [length take].
  destruct (Z.eqb_spec x c) as [->|Hxc]; cbn [negb].
  2: { rewrite IH by done; rewrite bool_decide_false by congruence.
       destruct (first_occ _ b); cbn; [by rewrite Nat.add_succ_r|done]. }
  destruct (strncmp_spec lo (length f) (b ++ 0 :: r) (f ++ 0 :: rf)) as (v & -> & Hv & _);
    rewrite ?cstr_app by done; try done.
  { destruct f; [done|cbn; lia]. }
  { right; apply terminated_app. }
  { right; apply terminated_app. }
  cbn [mbind option_bind]; rewrite !cstr_app, (take_ge f) in Hv by done.
  destruct (Z.eqb_spec v 0) as [E|E]; cbn [negb].
  - rewrite bool_decide_true by (f_equal; by apply Hv); cbn; by rewrite Nat.add_0_r.
  - rewrite IH by done; rewrite bool_decide_false by (intros [= H]; by apply E, Hv).
    destruct (first_occ _ b); cbn; [by rewrite Nat.add_succ_r|done].
Qed.

(** With an empty tail the comparison runs with a count of zero: it only
    succeeds at the end of the string. *)
Lemma strstr_loop_single lo c b r rf i :
  c <> 0 -> c_string b -> Forall (char_in lo) b ->
  strstr_loop (b ++ 0 :: r) c (0 :: rf) 0 i =
    Some (if bool_decide (last b = Some c) then Some (i + (length b - 1))%nat else None).
Proof.
  intros Hc Hb Hcb; revert i; induction b as [|x b IH]; intros i; cbn [app strstr_loop].
  { by rewrite bool_decide_false. }
  apply c_string_cons in Hb as [Hx Hb]; apply Forall_cons in Hcb as [Hcx Hcb].
  rewrite eqb_nz by done; destruct b as [|y b].
  - destruct (Z.eqb_spec x c) as [->|Hxc]; cbn.
    + rewrite bool_decide_true by done; by rewrite Nat.add_0_r.
    + rewrite bool_decide_false by congruence; done.
  - pose proof (IH Hb Hcb (S i)) as IH'; change (last (x :: y :: b)) with (last (y :: b)).
    replace (i + (length (x :: y :: b) - 1))%nat with (S i + (length (y :: b) - 1))%nat by (cbn; lia).
    destruct (x =? c) eqn:Exc; cbn [negb]; [|done].
    apply c_string_cons in Hb as [Hy Hb]; apply Forall_cons in Hcb as [Hcy Hcb].
    cbn [app strncmp] in *; rewrite (eqb_nz y) by done; cbn [mbind option_bind].
    pose proof (u8_pos lo y Hcy Hy); change (u8 0) with 0.
    by rewrite (proj2 (Z.eqb_neq (u8 y - 0) 0)) by lia.
Qed.

Lemma memcmp_spec n p1 p2 :
  (0 < n)%nat -> Z.of_nat n < 2 ^ 64 -> (n <= length p1)%nat -> (n <= length p2)%nat ->
  exists v, memcmp p1 p2 (Z.of_nat n) = Some v /\ (v = 0 <-> take n p1 = take n p2).
Proof.
  revert p1 p2; induction n as [|n IH]; intros p1 p2 Hn Hlt H1 H2; [lia|].
  destruct p1 as [|a p1]; [cbn in H1; lia|]; destruct p2 as [|b p2]; [cbn in H2; lia|].
  cbn [memcmp take length] in *; rewrite (wrap_small 64) by (unfold in_range; lia).
  replace (Z.of_nat (S n) - 1) with (Z.of_nat n) by lia.
  destruct (Z.eqb_spec (Z.of_nat n) 0) as [E|E], (Z.eqb_spec (a - b) 0) as [Hab|Hab]; cbn [negb andb].
  1,2,4: eexists; split; [done|]; split; [|intros [= ->]; lia].
  - intros _; replace n with O by lia; rewrite !take_0; f_equal; lia.
  - done.
  - done.
  - destruct (IH p1 p2) as (v & -> & Hv); [lia..|]; exists v; split; [done|].
    rewrite Hv; split; [intros ->; f_equal; lia|by intros [= _ ->]].
Qed.

(** With a count of zero the loop compares on until a difference: two equal
    blocks are read past their ends. *)
Lemma memcmp_zero_traps p : Z.of_nat (length p) < 2 ^ 64 -> memcmp p p 0 = None.
Proof.
  intros Hp.
  assert (forall q n, 0 <= n -> Z.of_nat (length q) < u64 (n - 1) + 1 -> n < 2 ^ 64 ->
            memcmp q q n = None) as Hgen.
  { induction q as [|a q IH]; intros n Hn Hlt Hn'; cbn [memcmp length] in *; [done|].
    destruct (Z.eqb_spec (u64 (n - 1)) 0) as [E|E]; [lia|].
    rewrite Z.sub_diag, Z.eqb_refl; cbn [negb andb].
    pose proof (wrap_range 64 (n - 1) ltac:(lia)) as Hr; unfold in_range in Hr.
    apply IH; [lia| |lia]; rewrite (wrap_small 64 (u64 (n - 1) - 1)) by (unfold in_range; lia); lia. }
  assert (u64 (0 - 1) = 2 ^ 64 - 1) as E by (by vm_compute).
  apply Hgen; [lia|rewrite E; lia|lia].
Qed.

(** ** Properties *)

(** The copying functions are exact.  Each one writes the string it
    promises into the destination, leaves the rest of the destination alone,
    and traps exactly when the result does not fit. *)
Theorem string_copies_exact dst src n :
  terminated src -> terminated dst -> (0 < n)%nat ->
  let k := Nat.min n (length (cstr src)) in
  strcpy dst src =
    (if (length (cstr src) <? length dst)%nat
     then Some (cstr src ++ 0 :: drop (S (length (cstr src))) dst) else None) /\
  strcat dst src =
    (if (length (cstr dst) + length (cstr src) <? length dst)%nat
     then Some (cstr dst ++ cstr src ++ 0 :: drop (S (length (cstr dst) + length (cstr src))) dst)
     else None) /\
  strncpy dst src n =
    (if (n <=? length dst)%nat
     then Some (take n (cstr src) ++ replicate (n - length (cstr src)) 0 ++ drop n dst) else None) /\
  strncat dst src n =
    (if (length (cstr dst) + k <? length dst)%nat
     then Some (cstr dst ++ take n (cstr src) ++ 0 :: drop (S (length (cstr dst) + k)) dst)
     else None).
Proof.
  intros Hs Hd Hn k; split_and!; [by apply strcpy_spec|by apply strcat_spec| |].
  - apply strncpy_spec; by right.
  - apply strncat_spec; [done|by right|done].
Qed.

Lemma string_copies_exact_witness :
  strncpy [9; 9; 0; 9] [97; 98; 0] 3 = Some [97; 98; 0; 9] /\ strcpy [9; 0] [97; 98; 0] = None.
Proof.
  destruct (string_copies_exact [9; 9; 0; 9] [97; 98; 0] 3) as (_ & _ & H & _);
    [unfold terminated; set_solver..|lia|].
  destruct (string_copies_exact [9; 0] [97; 98; 0] 1) as (H' & _);
    [unfold terminated; set_solver..|lia|].
  split; [exact H|exact H'].
Defined.

(** The comparisons order strings by their bytes.  [strcmp] is zero
    exactly on equal strings and negative exactly below in the byte order,
    whether or not [char] is signed; [strncmp] with a positive count does the
    same on the strings cut to that many characters, even when a full buffer
    has no terminator; [memcmp] is zero exactly on equal blocks. *)
Theorem string_compares lo b1 b2 n :
  (0 < n)%nat -> Z.of_nat n < 2 ^ 64 -> readable b1 n -> readable b2 n ->
  Forall (char_in lo) (cstr b1) -> Forall (char_in lo) (cstr b2) ->
  (terminated b1 -> terminated b2 ->
   exists v, strcmp b1 b2 = Some v /\ (v = 0 <-> cstr b1 = cstr b2) /\
     (v < 0 <-> lex_lt (cstr b1) (cstr b2) = true)) /\
  (exists v, strncmp b1 b2 (Z.of_nat n) = Some v /\
     (v = 0 <-> take n (cstr b1) = take n (cstr b2)) /\
     (v < 0 <-> lex_lt (take n (cstr b1)) (take n (cstr b2)) = true)) /\
  ((n <= length b1)%nat -> (n <= length b2)%nat ->
   exists v, memcmp b1 b2 (Z.of_nat n) = Some v /\ (v = 0 <-> take n b1 = take n b2)).
Proof.
  intros Hn Hlt H1 H2 Hc1 Hc2; split_and!.
  - intros T1 T2; by apply (strcmp_spec lo).
  - by apply (strncmp_spec lo).
  - by apply memcmp_spec.
Qed.

Lemma string_compares_witness :
  exists v, strncmp [97; 98; 99] [97; 98; 0; 7] 3 = Some v /\
    (v = 0 <-> [97; 98; 99] = [97; 98]) /\ (v < 0 <-> lex_lt [97; 98; 99] [97; 98] = true).
Proof.
  apply (string_compares 0 [97; 98; 99] [97; 98; 0; 7] 3); try lia.
  - left; cbn; lia.
  - left; cbn; lia.
  - repeat constructor; lia.
  - repeat constructor; lia.
Defined.

(** The spans computed with the 256-bit table are the longest prefix
    free of, or made of, the characters of the set. *)
Theorem spans_exact lo b set :
  terminated b -> terminated set -> Forall (char_in lo) (cstr b) -> Forall (char_in lo) (cstr set) ->
  strcspn b set = Some (prefix_len (fun c => negb (in_set (cstr set) c)) (cstr b)) /\
  strspn b set = Some (prefix_len (in_set (cstr set)) (cstr b)).
Proof. intros Hb Hs Hc1 Hc2; split; [by apply (strcspn_spec lo)|by apply (strspn_spec lo)]. Qed.

Lemma spans_exact_witness :
  strcspn [-1; 98; 46; 99; 0] [46; 47; 0] = Some 2%nat /\ strspn [-1; 98; 46; 99; 0] [98; -1; 0] = Some 2%nat.
Proof.
  split.
  - apply (spans_exact (-128) [-1; 98; 46; 99; 0] [46; 47; 0]); unfold terminated;
      try set_solver; repeat constructor; lia.
  - apply (spans_exact (-128) [-1; 98; 46; 99; 0] [98; -1; 0]); unfold terminated;
      try set_solver; repeat constructor; lia.
Defined.

(** [strstr] finds the first occurrence of a pattern of two or more
    characters, and reports a miss only when there is none.  A one-character
    pattern is found only as the last character of the string: the
    comparison of the empty tail runs with a count of zero. *)
Theorem strstr_behaviour lo b c f r :
  terminated b -> c_string (c :: f) -> Z.of_nat (length f) < 2 ^ 64 ->
  Forall (char_in lo) (cstr b) -> Forall (char_in lo) f ->
  strstr b (c :: f ++ 0 :: r) =
    Some (if bool_decide (f = [])
          then if bool_decide (last (cstr b) = Some c) then Some (length (cstr b) - 1)%nat else None
          else first_occ (c :: f) (cstr b)).
Proof.
  intros Hb Hp Hlen Hc1 Hc2; pose proof Hp as [Hc Hf]%c_string_cons; unfold strstr.
  rewrite eqb_nz, strlen_spec by (done || apply terminated_app).
  cbn [mbind option_bind]; rewrite cstr_app by done.
  destruct (cstr_split b Hb) as [rb Eb]; rewrite Eb at 1; pose proof (cstr_c_string b).
  destruct (decide (f = [])) as [->|Hne].
  - rewrite bool_decide_true by done; by apply (strstr_loop_single lo).
  - rewrite bool_decide_false by done; rewrite (strstr_loop_spec lo) by done.
    by destruct (first_occ _ _).
Qed.

Lemma strstr_behaviour_witness :
  strstr [97; 98; 99; 98; 99; 0] [98; 99; 0] = Some (Some 1%nat) /\
  strstr [97; 98; 99; 98; 99; 0] [98; 0] = Some None.
Proof.
  split.
  - apply (strstr_behaviour 0 [97; 98; 99; 98; 99; 0] 98 [99] []); unfold terminated;
      try set_solver; repeat constructor; lia.
  - apply (strstr_behaviour 0 [97; 98; 99; 98; 99; 0] 98 [] []); unfold terminated;
      try set_solver; repeat constructor; lia.
Defined.
