(* ===== verification/CNum.v ===== *)
(** * Character classes and number conversion

    The classes of libuser/src/ctype.c, [itoa] and [atoi] of libcrt/libc/atoi.c,
    [strtol] of libcrt/libc/freebsd_ports/strtol.c.  Buffers are those of
    CString.v; a read or write past the end gives [None]. *)

From S2P Require Import Prelude CString.

(** ** ctype.c

    Arguments are [int] values.  A shift of a 32-bit (64-bit) value by [k]
    takes [k] modulo 32 (64), which is what the shift instructions of both
    targets do. *)

Definition isupper (c : Z) : bool := (65 <=? c) && (c <=? 90).
Definition islower (c : Z) : bool := (97 <=? c) && (c <=? 122).
Definition isascii (c : Z) : bool := Z.shiftr c 7 =? 0.
Definition isalpha (c : Z) : bool := isupper c || islower c.

(** [(char)c], for a signed or unsigned [char] of the same byte. *)
Definition isdigit (c : Z) : bool :=
  let c := signed 8 c in (48 <=? c) && (c <=? 57).

Definition isalnum (c : Z) : bool := isdigit c || isalpha c.

Definition space_set : Z :=
  Z.lor (Z.shiftl 1 32) (Z.lor (Z.shiftl 1 10) (Z.lor (Z.shiftl 1 9)
    (Z.lor (Z.shiftl 1 11) (Z.lor (Z.shiftl 1 12) (Z.shiftl 1 13))))).

(** [1 << c] is an [int], sign-extended for the 64-bit conjunction. *)
Definition isspace (c : Z) : bool :=
  negb (Z.land space_set (u64 (signed 32 (Z.shiftl 1 (c mod 32)))) =? 0).

Definition isblank (c : Z) : bool := (c =? 32) || (c =? 9).
Definition iscntrl (c : Z) : bool := (u32 c <=? 31) || (c =? 127).
Definition isgraph (c : Z) : bool := (33 <=? c) && (c <=? 126).
Definition isprint (c : Z) : bool := isgraph c || isspace c.

(** [SET_OF] joins its items with [||], so the set is the truth value 1. *)
Definition punct_set : Z := 1.

Definition ispunct (c : Z) : bool :=
  ((33 <? c) && negb (Z.land (u64 (Z.shiftl 1 ((c - 33) mod 64))) punct_set =? 0))
  || ((123 <=? c) && (c <=? 125)).

Definition isxdigit (c : Z) : bool :=
  isdigit c || ((97 <=? c) && (c <=? 102)) || ((65 <=? c) && (c <=? 70)).

Definition toupper (c : Z) : Z := if islower c then c + (65 - 97) else c.
Definition tolower (c : Z) : Z := if isupper c then c + (97 - 65) else c.

Fixpoint strtoupper (s : list Z) : option (list Z) :=
  match s with
  | [] => None
  | x :: s => if x =? 0 then Some (0 :: s) else cons (toupper x) <$> strtoupper s
  end.

(** ** itoa and atoi *)

Definition is_power_2 (x : Z) : bool := Z.land x (u64 (x - 1)) =? 0.

Definition base_chars : list Z :=
  [48; 49; 50; 51; 52; 53; 54; 55; 56; 57; 65; 66; 67; 68; 69; 70].
Definition log_2 : list Z := [0; 0; 1; 0; 2; 0; 0; 0; 3; 0; 0; 0; 0; 0; 0; 0; 4].

(** The [do] loops write the digits from the lowest, then the terminator;
    [str] is what is left of the buffer.  The result is the buffer and the
    number of digits. *)
Fixpoint itoa_p2 (value : Z) (str : list Z) (base : Z) : option (list Z * nat) :=
  match str with
  | [] => None
  | _ :: str =>
      shift ← zget log_2 base;
      ch ← zget base_chars (Z.land (u64 value) (base - 1));
      let value := Z.shiftr value shift in
      if value =? 0 then
        match str with [] => None | _ :: rest => Some (ch :: 0 :: rest, 1%nat) end
      else
        '(str, n) ← itoa_p2 value str base; Some (ch :: str, S n)
  end.

(** [%] and [/] truncate; the digit is converted to [size_t]. *)
Fixpoint itoa_div (value : Z) (str : list Z) (base : Z) : option (list Z * nat) :=
  match str with
  | [] => None
  | _ :: str =>
      ch ← zget base_chars (u64 (Z.rem value base));
      let value := Z.quot value base in
      if value =? 0 then
        match str with [] => None | _ :: rest => Some (ch :: 0 :: rest, 1%nat) end
      else
        '(str, n) ← itoa_div value str base; Some (ch :: str, S n)
  end.

(** The reversal loop: [k] rounds from index [i]. *)
Fixpoint reverse_loop (k : nat) (i : Z) (n : Z) (str : list Z) : option (list Z) :=
  match k with
  | O => Some str
  | S k =>
      c1 ← zget str i;
      c2 ← zget str (n - 1 - i);
      str ← zput str i c2;
      str ← zput str (n - 1 - i) c1;
      reverse_loop k (i + 1) n str
  end.

(** [Some None] is the [NULL] returned for an unsupported base. *)
Definition itoa (value : Z) (str : list Z) (base : Z) : option (option (list Z)) :=
  if (base <? 2) || (16 <? base) then Some None
  else
    '(str, n) ← (if is_power_2 base then itoa_p2 value str base else itoa_div value str base);
    Some <$> reverse_loop (n / 2) 0 (Z.of_nat n) str.

(** The first character that is neither a blank nor a tab, and what follows. *)
Fixpoint atoi_skip (s : list Z) : option (Z * list Z) :=
  match s with
  | [] => None
  | c :: s => if (u8 c =? 32) || (u8 c =? 9) then atoi_skip s else Some (u8 c, s)
  end.

(** [c] is the character in hand minus ['0'], as an [unsigned char]. *)
Fixpoint atoi_loop (s : list Z) (c result : Z) : option Z :=
  if c <? 10 then
    match s with
    | [] => None
    | x :: s => atoi_loop s (u8 (u8 x - 48)) (result * 10 + c)
    end
  else Some result.

(** Signed overflow is undefined: the result is only meaningful in range. *)
Definition atoi (str : list Z) : option Z :=
  '(c, s) ← atoi_skip str;
  if (c =? 45) || (c =? 43) then
    x ← head s;
    r ← atoi_loop (tail s) (u8 (u8 x - 48)) 0;
    Some (r * (if c =? 45 then -1 else 1))
  else r ← atoi_loop s (u8 (c - 48)) 0; Some (r * 1).

(** ** strtol *)

(** [do c = *s++; while (isspace(c))]: the character, the rest, its offset. *)
Fixpoint skip_space (s : list Z) (pos : nat) : option (Z * list Z * nat) :=
  match s with
  | [] => None
  | c :: s => if isspace (u8 c) then skip_space s (S pos) else Some (u8 c, s, S pos)
  end.

(** The digit value of a character in [base], or the loop's [break]. *)
Definition digit_of (base c : Z) : option Z :=
  if negb (isascii c) then None
  else
    d ← (if isdigit c then Some (u8 (c - 48))
         else if isalpha c then Some (u8 (c - (if isupper c then 55 else 87)))
         else None);
    if base <=? d then None else Some d.

(** One digit of the accumulation: [any] is -1 after an overflow. *)
Definition strtol_step (base cutoff cutlim acc any d : Z) : Z * Z :=
  if (any <? 0) || (cutoff <? acc) || ((acc =? cutoff) && (cutlim <? d)) then (acc, -1)
  else (u64 (u64 (acc * base) + d), 1).

(** [s] is at offset [pos]; the character before it is [c]. *)
Fixpoint strtol_loop (s : list Z) (c : Z) (pos : nat) (base cutoff cutlim acc any : Z)
  : option (Z * Z * nat) :=
  match digit_of base c with
  | None => Some (acc, any, pos)
  | Some d =>
      let '(acc, any) := strtol_step base cutoff cutlim acc any d in
      match s with
      | [] => None
      | x :: s => strtol_loop s (u8 x) (S pos) base cutoff cutlim acc any
      end
  end.

Definition LONG_MAX : Z := 2 ^ 63 - 1.
Definition LONG_MIN : Z := - 2 ^ 63.

(** The sign: [neg], and the next character. *)
Definition strtol_sign (c : Z) (s : list Z) (pos : nat) : option (bool * Z * list Z * nat) :=
  if (c =? 45) || (c =? 43) then
    match s with [] => None | x :: s => Some (c =? 45, u8 x, s, S pos) end
  else Some (false, c, s, pos).

(** The prefix: the base, and the next character. *)
Definition strtol_base (base c : Z) (s : list Z) (pos : nat) : option (Z * Z * list Z * nat) :=
  hex ← (if ((base =? 0) || (base =? 16)) && (c =? 48)
         then x ← head s; Some ((x =? 120) || (x =? 88)) else Some false);
  '(base, c, s, pos) ←
    (if (hex : bool) then
       match s with _ :: x :: s => Some (16, u8 x, s, S (S pos)) | _ => None end
     else Some (base, c, s, pos));
  Some (if base =? 0 then if c =? 48 then 8 else 10 else base, c, s, pos).

(** The value and the offset stored through [endptr]. *)
Definition strtol (nptr : list Z) (base : Z) : option (Z * nat) :=
  '(c, s, pos) ← skip_space nptr 0;
  '(neg, c, s, pos) ← strtol_sign c s pos;
  '(base, c, s, pos) ← strtol_base base c s pos;
  let cutoff := if (neg : bool) then 2 ^ 63 else LONG_MAX in
  '(acc, any, pos) ← strtol_loop s c pos base (cutoff / base) (cutoff mod base) 0 0;
  let acc := if any <? 0 then (if neg then LONG_MIN else LONG_MAX)
             else if neg then u64 (- acc) else acc in
  Some (signed 64 acc, if any =? 0 then O else pred pos).

(** ** Values of digit strings *)

Definition digits_value (base : Z) (v : Z) (ds : list Z) : Z :=
  fold_left (fun v d => v * base + d) ds v.

(** Value of digits written from the lowest. *)
Fixpoint digits_le (base : Z) (ds : list Z) : Z :=
  match ds with [] => 0 | d :: ds => d + base * digits_le base ds end.

Lemma digits_value_reverse base ds : digits_value base 0 (reverse ds) = digits_le base ds.
Proof.
  induction ds as [|d ds IH]; [done|].
  unfold digits_value in *; rewrite reverse_cons, fold_left_app; cbn [fold_left digits_le].
  rewrite IH; lia.
Qed.

Lemma digit_of_range base c d : digit_of base c = Some d -> 0 <= d < base.
Proof.
  unfold digit_of; destruct (negb (isascii c)); [done|].
  intros H; apply bind_Some in H as (d' & Hd & H'); destruct_if; [done|].
  injection H' as <-; zbool; split; [|lia].
  assert (exists x, d' = u8 x) as [x ->].
  { repeat case_match; simplify_eq; eauto. }
  pose proof (wrap_range 8 x ltac:(lia)); unfold in_range in *; lia.
Qed.

(** The accumulator holds the value while it is within the limit. *)
Definition acc_ok (L v acc any : Z) : Prop :=
  0 <= v /\ if v <=? L then acc = v /\ 0 <= any <= 1 else any = -1.

Lemma strtol_step_ok base L v acc any d :
  2 <= base -> 0 <= d < base -> 0 < L < 2 ^ 64 ->
  acc_ok L v acc any ->
  let '(acc', any') := strtol_step base (L / base) (L mod base) acc any d in
  acc_ok L (v * base + d) acc' any' /\ any' <> 0.
Proof.
  intros Hb Hd HL [Hv Hacc]; unfold strtol_step, acc_ok.
  pose proof (Z.div_mod L base ltac:(lia)) as Hdm; pose proof (Z.mod_pos_bound L base ltac:(lia)) as Hm.
  destruct (Z.leb_spec v L) as [Hle|Hgt].
  - destruct Hacc as [-> Hany]; destruct (Z.ltb_spec any 0); [lia|]; cbn [orb].
    destruct (Z.ltb_spec (L / base) v) as [H1|H1]; cbn [orb].
    { destruct (Z.leb_spec (v * base + d) L); [nia|]; split; [split; [nia|done]|done]. }
    destruct (Z.eqb_spec v (L / base)) as [H2|H2], (Z.ltb_spec (L mod base) d) as [H3|H3]; cbn [andb].
    { destruct (Z.leb_spec (v * base + d) L); [nia|]; split; [split; [nia|done]|done]. }
    all: destruct (Z.leb_spec (v * base + d) L); [|nia].
    all: rewrite (wrap_small 64 (v * base)) by (unfold in_range; nia).
    all: rewrite (wrap_small 64) by (unfold in_range; nia); split; [split; [nia|lia]|lia].
  - subst any; cbn; destruct (Z.leb_spec (v * base + d) L); [nia|]; split; [split; [nia|done]|done].
Qed.

Lemma strtol_loop_ok base L cs ds x s t r pos v acc any :
  2 <= base -> 0 < L < 2 ^ 64 -> x :: s = cs ++ t :: r ->
  Forall2 (fun c d => digit_of base (u8 c) = Some d) cs ds -> digit_of base (u8 t) = None ->
  acc_ok L v acc any ->
  exists acc' any',
    strtol_loop s (u8 x) pos base (L / base) (L mod base) acc any =
      Some (acc', any', (pos + length cs)%nat) /\
    acc_ok L (digits_value base v ds) acc' any' /\ (any' = 0 <-> cs = [] /\ any = 0).
Proof.
  intros Hb HL Hs Hds Ht; revert x s pos v acc any Hs.
  induction Hds as [|c d cs ds Hc Hds IH]; intros x s pos v acc any [= -> ->] Hok.
  - exists acc, any; destruct r; cbn [strtol_loop]; rewrite Ht, Nat.add_0_r; split_and!; try done;
      split; try done; by intros [_ ?].
  - destruct (cs ++ t :: r) as [|x s] eqn:E; [by destruct cs|].
    cbn [strtol_loop]; rewrite Hc; pose proof (digit_of_range _ _ _ Hc) as Hd.
    pose proof (strtol_step_ok base L v acc any d Hb Hd HL Hok) as Hstep.
    destruct (strtol_step _ _ _ _ _ _) as [acc1 any1]; destruct Hstep as [Hok1 Hany1].
    destruct (IH x s (S pos) _ _ _ ltac:(done) Hok1) as (acc' & any' & -> & Hok' & Hz).
    exists acc', any'; split_and!; [by rewrite Nat.add_succ_comm|done|].
    split; [intros H; by apply Hz in H as [_ ?]|by intros [? _]].
Qed.

Lemma skip_space_ok sp c s pos :
  Forall (fun c => isspace (u8 c) = true) sp -> isspace (u8 c) = false ->
  skip_space (sp ++ c :: s) pos = Some (u8 c, s, (pos + length sp + 1)%nat).
Proof.
  intros Hsp Hc; revert pos; induction Hsp as [|x sp Hx Hsp IH]; intros pos; cbn.
  - rewrite Hc; by rewrite Nat.add_0_r, Nat.add_1_r.
  - rewrite Hx, IH; do 2 f_equal; lia.
Qed.

Lemma signed64_small z : 0 <= z < 2 ^ 63 -> signed 64 z = z.
Proof.
  intros H; unfold signed; rewrite wrap_small by (unfold in_range; lia).
  by rewrite (proj2 (Z.ltb_lt _ _)) by lia.
Qed.

(** A run of digits after white space. *)
Lemma strtol_digits sp cs ds t r base :
  2 <= base <= 36 -> Forall (fun c => isspace (u8 c) = true) sp ->
  Forall2 (fun c d => digit_of base (u8 c) = Some d) cs ds -> digit_of base (u8 t) = None ->
  (exists c, head cs = Some c /\ isspace (u8 c) = false /\ u8 c <> 45 /\ u8 c <> 43) ->
  (base = 16 -> t <> 120 /\ t <> 88) -> (base = 16 -> Forall (fun c => c <> 120 /\ c <> 88) cs) ->
  strtol (sp ++ cs ++ t :: r) base =
    Some (Z.min (digits_value base 0 ds) LONG_MAX, (length sp + length cs)%nat).
Proof.
  intros Hb Hsp Hds Ht (c & Hhd & Hnsp & Hm & Hp) Hx Hxs; destruct cs as [|c' cs]; [done|].
  injection Hhd as ->; unfold strtol; cbn [app].
  rewrite (skip_space_ok sp c _ 0 Hsp Hnsp); cbn [mbind option_bind]; unfold strtol_sign.
  rewrite (proj2 (Z.eqb_neq _ _) Hm), (proj2 (Z.eqb_neq _ _) Hp); cbn [orb mbind option_bind].
  assert (strtol_base base (u8 c) (cs ++ t :: r) (0 + length sp + 1) =
          Some (base, u8 c, cs ++ t :: r, (0 + length sp + 1)%nat)) as ->.
  { assert ((base =? 0) = false) as E0 by (apply Z.eqb_neq; lia).
    unfold strtol_base; rewrite E0; cbn [orb].
    destruct (Z.eqb_spec base 16) as [E|E]; cbn [andb]; [|cbn; by rewrite E0].
    destruct (u8 c =? 48); [|cbn; by rewrite E0]; specialize (Hx E); specialize (Hxs E).
    apply Forall_cons in Hxs as [_ Hxs].
    assert (exists y, head (cs ++ t :: r) = Some y /\ y <> 120 /\ y <> 88) as (y & -> & Hy & Hy').
    { destruct cs; cbn; [eauto|]; apply Forall_cons in Hxs as [? _]; eauto. }
    cbn [mbind option_bind]; rewrite (proj2 (Z.eqb_neq _ _) Hy), (proj2 (Z.eqb_neq _ _) Hy').
    cbn; by rewrite E0. }
  cbn [mbind option_bind].
  destruct (strtol_loop_ok base LONG_MAX (c :: cs) ds c (cs ++ t :: r) t r (0 + length sp + 1) 0 0 0)
    as (acc & any & -> & [Hv Hok] & Hz); try done; try (unfold LONG_MAX; lia).
  cbn [mbind option_bind]; destruct (Z.eqb_spec any 0) as [E|E]; [by apply Hz in E as [? _]|].
  do 2 f_equal; [|cbn; lia].
  destruct (Z.leb_spec (digits_value base 0 ds) LONG_MAX) as [Hle|Hgt].
  - destruct Hok as [-> Hany]; destruct (Z.ltb_spec any 0); [lia|].
    rewrite signed64_small by (unfold LONG_MAX in *; lia); lia.
  - subst any; cbn [Z.ltb Z.compare]; rewrite signed64_small by (unfold LONG_MAX; lia); lia.
Qed.

(** ** itoa *)

Definition digit_char (d : Z) : Z := if d <? 10 then 48 + d else 55 + d.

Ltac cases_upto H :=
  match type of H with
  | ?a <= ?x < ?b =>
      destruct (Z.eq_dec x a) as [->|?];
      [clear H | first [ exfalso; lia | let H' := fresh in assert (a + 1 <= x < b) as H' by lia;
                 clear H; cbn in H'; cases_upto H' ] ]
  end.

Lemma base_chars_get d : 0 <= d < 16 -> zget base_chars d = Some (digit_char d).
Proof. intros H; cases_upto H; done. Qed.

Lemma digit_char_nospace d : 0 <= d < 16 ->
  isspace (u8 (digit_char d)) = false /\ u8 (digit_char d) <> 45 /\ u8 (digit_char d) <> 43 /\
  digit_char d <> 120 /\ digit_char d <> 88 /\ digit_char d <> 0 /\ u8 (digit_char d) = digit_char d.
Proof. intros H; cases_upto H; done. Qed.

Lemma digit_of_char base d : 0 <= d < base -> base <= 16 -> digit_of base (u8 (digit_char d)) = Some d.
Proof.
  intros Hd Hb; assert (digit_of base (u8 (digit_char d)) = (if base <=? d then None else Some d)) as ->.
  { assert (0 <= d < 16) as H by lia; clear Hd Hb; cases_upto H; done. }
  by rewrite (proj2 (Z.leb_gt _ _)) by lia.
Qed.

Lemma digit_of_nul base : digit_of base (u8 0) = None.
Proof. done. Qed.

Lemma power_2_log base :
  2 <= base <= 16 -> is_power_2 base = true ->
  exists sh, zget log_2 base = Some sh /\ 0 <= sh /\ base = 2 ^ sh.
Proof.
  intros Hb; assert (2 <= base < 17) as H by lia; clear Hb; cases_upto H; try done.
  all: intros _; eexists; split; [done|]; lia.
Qed.

(** On powers of two the shifting loop is the dividing loop. *)
Lemma itoa_p2_div v str base :
  2 <= base <= 16 -> is_power_2 base = true -> 0 <= v < 2 ^ 64 ->
  itoa_p2 v str base = itoa_div v str base.
Proof.
  intros Hb Hp; destruct (power_2_log base Hb Hp) as (sh & Hsh & Hsh0 & Hpow).
  revert v; induction str as [|x str IH]; intros v Hv; cbn [itoa_p2 itoa_div]; [done|].
  rewrite Hsh; cbn [mbind option_bind].
  assert (Z.land (u64 v) (base - 1) = u64 (Z.rem v base)) as ->.
  { rewrite (wrap_small 64 v) by (unfold in_range; lia).
    rewrite Z.rem_mod_nonneg by lia; pose proof (Z.mod_pos_bound v base ltac:(lia)).
    rewrite (wrap_small 64) by (unfold in_range; lia); rewrite Hpow.
    replace (2 ^ sh - 1) with (Z.ones sh) by (rewrite Z.ones_equiv; lia).
    by rewrite Z.land_ones by lia. }
  assert (Z.shiftr v sh = Z.quot v base) as ->.
  { rewrite Z.shiftr_div_pow2, <- Hpow by lia; by rewrite Z.quot_div_nonneg by lia. }
  rewrite IH; [done|]; rewrite Z.quot_div_nonneg by lia; Z.div_mod_to_equations; nia.
Qed.

Lemma itoa_div_ok k v str base :
  2 <= base <= 16 -> 0 <= v < 2 ^ (Z.of_nat k + 1) -> (k < 63)%nat ->
  (k + 1 < length str)%nat ->
  exists ds, itoa_div v str base =
      Some ((digit_char <$> ds) ++ 0 :: drop (S (length ds)) str, length ds) /\
    (0 < length ds <= k + 1)%nat /\ Forall (fun d => 0 <= d < base) ds /\ digits_le base ds = v.
Proof.
  intros Hb; revert v str; induction k as [|k IH]; intros v [|x str] Hv Hk Hl; cbn in Hl; try lia;
    cbn [itoa_div].
  all: rewrite Z.rem_mod_nonneg, Z.quot_div_nonneg by lia.
  all: pose proof (Z.mod_pos_bound v base ltac:(lia)) as Hm.
  all: rewrite (wrap_small 64) by (unfold in_range; lia).
  all: rewrite base_chars_get by lia; cbn [mbind option_bind].
  all: destruct (Z.eqb_spec (v / base) 0) as [E|E].
  - destruct str as [|y str]; [cbn in Hl; lia|]; exists [v mod base]; cbn [length].
    split_and!; [done|lia|lia|by repeat constructor; lia|cbn; Z.div_mod_to_equations; lia].
  - exfalso; apply E; apply Z.div_small; cbn in Hv; lia.
  - destruct str as [|y str]; [cbn in Hl; lia|]; exists [v mod base]; cbn [length].
    split_and!; [done|lia|lia|by repeat constructor; lia|cbn; Z.div_mod_to_equations; lia].
  - destruct (IH (v / base) str) as (ds & -> & Hlen & Hds & Hval); [|lia|lia|].
    { replace (Z.of_nat (S k) + 1) with (Z.of_nat k + 1 + 1) in Hv by lia.
      rewrite Z.pow_add_r in Hv by lia; Z.div_mod_to_equations; nia. }
    exists (v mod base :: ds); cbn [mbind option_bind length].
    split_and!; [done|lia|lia|by constructor|].
    cbn [digits_le]; rewrite Hval; Z.div_mod_to_equations; lia.
Qed.

Lemma reverse_loop_ok k a m b rest :
  length a = length b -> k = (length m / 2)%nat ->
  reverse_loop k (Z.of_nat (length a)) (Z.of_nat (length (a ++ m ++ b))) (a ++ m ++ b ++ rest) =
    Some (a ++ reverse m ++ b ++ rest).
Proof.
  revert a m b; induction k as [|k IH]; intros a m b Hab Hk.
  { destruct m as [|x [|y m]]; [done|done|].
    exfalso; cbn [length] in Hk; rewrite <- (Nat.mul_1_l 2) in Hk at 1.
    pose proof (Nat.Div0.div_le_mono 2 (S (S (length m))) 2 ltac:(lia)); cbn in *; lia. }
  destruct m as [|x m]; [done|]; destruct m as [|y m _] using rev_ind; [done|].
  set (N := Z.of_nat (length (a ++ (x :: m ++ [y]) ++ b))).
  set (j := Z.of_nat (length (a ++ x :: m))).
  replace (a ++ (x :: m ++ [y]) ++ b ++ rest) with (a ++ x :: m ++ y :: b ++ rest)
    by (by cbn; rewrite <- !app_assoc).
  assert (N - 1 - Z.of_nat (length a) = j) as Hj
    by (unfold N, j; repeat (rewrite length_app || cbn [length]); lia).
  assert (zget (a ++ x :: m ++ y :: b ++ rest) j = Some y) as G2.
  { change (x :: m ++ ?l) with ((x :: m) ++ l); rewrite app_assoc; by apply zget_app_r. }
  assert (zput (a ++ y :: m ++ y :: b ++ rest) j x = Some (a ++ y :: m ++ x :: b ++ rest)) as P2.
  { change (y :: m ++ ?l) with ((y :: m) ++ l); rewrite !app_assoc; apply zput_app_r.
    unfold j; rewrite !length_app; done. }
  cbn [reverse_loop]; rewrite (zget_app_r a x _ (Z.of_nat (length a)) eq_refl); cbn [mbind option_bind].
  rewrite Hj, G2; cbn [mbind option_bind]; rewrite (zput_app_r a x y _ (Z.of_nat (length a)) eq_refl).
  cbn [mbind option_bind]; rewrite P2; cbn [mbind option_bind].
  replace (Z.of_nat (length a) + 1) with (Z.of_nat (length (a ++ [y])))
    by (rewrite length_app; cbn; lia).
  replace N with (Z.of_nat (length ((a ++ [y]) ++ m ++ x :: b)))
    by (unfold N; repeat (rewrite length_app || cbn [length]); lia).
  replace (a ++ y :: m ++ x :: b ++ rest) with ((a ++ [y]) ++ m ++ (x :: b) ++ rest)
    by (by rewrite <- app_assoc).
  rewrite IH; [|rewrite length_app; cbn; lia|].
  - f_equal; rewrite reverse_cons, reverse_snoc; cbn; by rewrite <- !app_assoc.
  - cbn [length] in Hk; rewrite length_app in Hk; cbn [length] in Hk.
    replace (S (length m + 1)) with (length m + 1 * 2)%nat in Hk by lia.
    rewrite Nat.div_add in Hk by lia; lia.
Qed.

Lemma itoa_ok v str base :
  2 <= base <= 16 -> 0 <= v < 2 ^ 31 -> (32 <= length str)%nat ->
  exists ds rest, itoa v str base = Some (Some ((digit_char <$> ds) ++ 0 :: rest)) /\
    ds <> [] /\ Forall (fun d => 0 <= d < base) ds /\ digits_value base 0 ds = v.
Proof.
  intros Hb Hv Hl; unfold itoa.
  rewrite (proj2 (Z.ltb_ge base 2)), (proj2 (Z.ltb_ge 16 base)) by lia; cbn [orb].
  assert ((if is_power_2 base then itoa_p2 v str base else itoa_div v str base) =
          itoa_div v str base) as ->.
  { destruct (is_power_2 base) eqn:E; [apply itoa_p2_div; [lia|done|lia]|done]. }
  destruct (itoa_div_ok 30 v str base) as (ds & -> & Hlen & Hds & Hval); [lia|cbn; lia|lia|lia|].
  cbn [mbind option_bind].
  pose proof (reverse_loop_ok (length ds / 2) [] (digit_char <$> ds) []
    (0 :: drop (S (length ds)) str) eq_refl) as Hrev.
  rewrite length_fmap in Hrev; specialize (Hrev eq_refl); cbn [app length] in Hrev.
  rewrite app_nil_r, length_fmap in Hrev; change (Z.of_nat 0) with 0 in Hrev; rewrite Hrev; cbn [fmap option_fmap option_map].
  exists (reverse ds), (drop (S (length ds)) str); split_and!.
  - by rewrite fmap_reverse.
  - intros H; apply (f_equal length) in H; rewrite length_reverse in H; cbn in H; lia.
  - by apply Forall_reverse.
  - by rewrite digits_value_reverse.
Qed.

Lemma atoi_loop_ok ds c s r v :
  c :: s = (digit_char <$> ds) ++ 0 :: r -> Forall (fun d => 0 <= d < 10) ds ->
  atoi_loop s (u8 (u8 c - 48)) v = Some (digits_value 10 v ds).
Proof.
  intros E Hds; revert c s v E; induction Hds as [|d ds Hd Hds IH]; intros c s v [= -> ->].
  { destruct r; done. }
  assert (u8 (u8 (digit_char d) - 48) = d) as -> by (cases_upto Hd; done).
  destruct ((digit_char <$> ds) ++ 0 :: r) as [|x s] eqn:E; [by destruct ds|].
  change (list_fmap Z Z digit_char ds) with (digit_char <$> ds); rewrite E; cbn [atoi_loop]; rewrite (proj2 (Z.ltb_lt d 10)) by lia; rewrite (IH x s _ eq_refl); done.
Qed.

Lemma atoi_ok ds r :
  ds <> [] -> Forall (fun d => 0 <= d < 10) ds ->
  atoi ((digit_char <$> ds) ++ 0 :: r) = Some (digits_value 10 0 ds).
Proof.
  intros Hne Hds; destruct ds as [|d ds]; [done|]; pose proof Hds as [Hd _]%Forall_cons.
  destruct (digit_char_nospace d ltac:(lia)) as (_ & H45 & H43 & _).
  assert (u8 (digit_char d) <> 32 /\ u8 (digit_char d) <> 9) as [H32 H9] by (cases_upto Hd; done).
  unfold atoi; cbn [fmap list_fmap app atoi_skip].
  rewrite (proj2 (Z.eqb_neq _ _) H32), (proj2 (Z.eqb_neq _ _) H9); cbn [orb mbind option_bind].
  rewrite (proj2 (Z.eqb_neq _ _) H45), (proj2 (Z.eqb_neq _ _) H43); cbn [orb].
  rewrite (atoi_loop_ok (d :: ds) (digit_char d) _ r 0) by done; cbn; f_equal; lia.
Qed.

(** A negative value never becomes zero under the shift, and has a negative
    remainder under the division: the conversion runs out of its buffer or
    of the digit table. *)
Lemma itoa_negative v str base : 2 <= base <= 16 -> - 2 ^ 31 <= v < 0 -> itoa v str base = None.
Proof.
  intros Hb Hv; unfold itoa.
  rewrite (proj2 (Z.ltb_ge base 2)), (proj2 (Z.ltb_ge 16 base)) by lia; cbn [orb].
  assert (itoa_p2 v str base = None /\ itoa_div v str base = None) as [-> ->];
    [|by destruct (is_power_2 base)].
  revert v Hv; induction str as [|x str IH]; intros v Hv; [done|]; cbn [itoa_p2 itoa_div]; split.
  - destruct (zget log_2 base) as [sh|] eqn:Hsh; [|done]; cbn [mbind option_bind].
    assert (0 <= sh) as Hsh0.
    { unfold zget in Hsh; destruct_if; [|done]; apply list_elem_of_lookup_2 in Hsh.
      unfold log_2 in Hsh; set_solver by lia. }
    destruct (zget base_chars _); [|done]; cbn [mbind option_bind].
    rewrite Z.shiftr_div_pow2 by lia; pose proof (Z.pow_pos_nonneg 2 sh ltac:(lia) Hsh0).
    assert (- 2 ^ 31 <= v / 2 ^ sh < 0) as Hq
      by (split; [apply Z.div_le_lower_bound; nia|apply Z.div_lt_upper_bound; lia]).
    destruct (Z.eqb_spec (v / 2 ^ sh) 0); [lia|]; by rewrite (proj1 (IH _ Hq)).
  - assert (Z.rem v base = - ((- v) mod base)) as Hrem.
    { rewrite <- (Z.opp_involutive v) at 1; rewrite Z.rem_opp_l, Z.rem_mod_nonneg by lia; done. }
    pose proof (Z.mod_pos_bound (- v) base ltac:(lia)) as Hr.
    pose proof (Z.quot_rem v base ltac:(lia)) as Hqr.
    destruct (Z.eq_dec (Z.rem v base) 0) as [E|E].
    + rewrite E; cbn [zget]; cbn [mbind option_bind].
      destruct (Z.eqb_spec (Z.quot v base) 0); [lia|].
      rewrite (proj2 (IH (Z.quot v base) ltac:(nia))); by destruct (zget _ _).
    + assert (zget base_chars (u64 (Z.rem v base)) = None) as ->; [|done].
      unfold wrap; rewrite <- (Z.mod_add _ 1), Z.mod_small by lia.
      unfold zget; destruct_if; [|done]; apply lookup_ge_None; cbn [length base_chars]; lia.
Qed.

(** ** Properties *)

(** Numbers survive printing and parsing.  For every non-negative [int]
    and supported base, [itoa] into 32 bytes gives a string that [strtol]
    reads back as the number, all of it, and that [atoi] reads back in base
    ten; a negative value traps. *)
Theorem itoa_roundtrip v str base :
  2 <= base <= 16 -> - 2 ^ 31 <= v < 2 ^ 31 -> (32 <= length str)%nat ->
  if v <? 0 then itoa v str base = None
  else exists out, itoa v str base = Some (Some out) /\
         strtol out base = Some (v, length (cstr out)) /\ (base = 10 -> atoi out = Some v).
Proof.
  intros Hb Hv Hl; destruct (Z.ltb_spec v 0) as [Hn|Hn]; [apply itoa_negative; lia|].
  destruct (itoa_ok v str base Hb ltac:(lia) Hl) as (ds & rest & E & Hne & Hds & Hval).
  eexists; split; [exact E|]; split; [|intros ->; rewrite <- Hval; by apply atoi_ok].
  assert (Forall (fun d => 0 <= d < 16) ds) as Hds16
    by (eapply Forall_impl; [exact Hds|cbn; lia]).
  rewrite cstr_app.
  2: { unfold c_string; rewrite Forall_fmap; eapply Forall_impl; [exact Hds16|].
       intros d Hd; by apply digit_char_nospace. }
  change ((digit_char <$> ds) ++ 0 :: rest) with ([] ++ (digit_char <$> ds) ++ 0 :: rest).
  rewrite (strtol_digits [] (digit_char <$> ds) ds 0 rest base); try done; try lia.
  - rewrite Hval; unfold LONG_MAX; do 2 f_equal; lia.
  - apply Forall2_fmap_l; eapply Forall_Forall2_diag, Forall_impl; [exact Hds|].
    intros d Hd; cbn beta in *; apply digit_of_char; lia.
  - destruct ds as [|d ds]; [done|]; apply Forall_cons in Hds16 as [Hd _].
    exists (digit_char d); split; [done|]; destruct (digit_char_nospace d Hd) as (? & ? & ? & _); done.
  - intros _; rewrite Forall_fmap; eapply Forall_impl; [exact Hds16|].
    intros d Hd; destruct (digit_char_nospace d Hd) as (_ & _ & _ & ? & ? & _); done.
Qed.

Lemma itoa_roundtrip_witness :
  exists out, itoa 48879 (replicate 32 7) 16 = Some (Some out) /\
    strtol out 16 = Some (48879, length (cstr out)) /\ (16 = 10 -> atoi out = Some 48879).
Proof.
  apply (itoa_roundtrip 48879 (replicate 32 7) 16); [lia|lia|rewrite length_replicate; lia].
Defined.

(** [strtol] on white space followed by digits gives their value, clamped
    to [LONG_MAX], and stops at the first character that is not a digit.
    White space is what [isspace] accepts: the tab and the line breaks, but
    not the space, and also the two sign characters, so that a minus is
    skipped and no result is negative. *)
Theorem strtol_value sp cs ds t r base :
  2 <= base <= 36 -> Forall (fun c => isspace (u8 c) = true) sp ->
  Forall2 (fun c d => digit_of base (u8 c) = Some d) cs ds -> digit_of base (u8 t) = None ->
  (exists c, head cs = Some c /\ isspace (u8 c) = false /\ u8 c <> 45 /\ u8 c <> 43) ->
  (base = 16 -> Forall (fun c => c <> 120 /\ c <> 88) (t :: cs)) ->
  strtol (sp ++ cs ++ t :: r) base =
    Some (Z.min (digits_value base 0 ds) LONG_MAX, (length sp + length cs)%nat) /\
  (isspace 45 && isspace 43 && isspace 9 && negb (isspace 32) = true).
Proof.
  intros Hb Hsp Hds Ht Hhd Hx; split; [|done]; apply strtol_digits; try done.
  - intros E; by apply Hx, Forall_cons in E as [? _].
  - intros E; by apply Hx, Forall_cons in E as [_ ?].
Qed.

Lemma strtol_value_witness : strtol ([45] ++ [52; 50] ++ 0 :: []) 10 = Some (42, 3%nat).
Proof.
  destruct (strtol_value [45] [52; 50] [4; 2] 0 [] 10) as [H _]; try done; try lia.
  - by repeat constructor.
  - by repeat constructor.
  - by exists 52.
Defined.

(** Two character classes are not what they are named for.  [isspace]
    tests a 32-bit shift, so it depends on the argument modulo 32: it rejects
    the space and accepts letters and punctuation; [ispunct] tests membership
    in the truth value of its set, so it accepts none of the punctuation from
    [!] to the back quote. *)
Theorem ctype_wrong_classes c :
  isspace c = isspace (c mod 32) /\ isspace 32 = false /\ isspace 105 = true /\
  (33 <= c <= 96 -> ispunct c = false) /\ ispunct 97 = true.
Proof.
  split_and!; try done.
  - unfold isspace; by rewrite Z.mod_mod.
  - intros Hc; assert (33 <= c < 97) as H by lia; clear Hc; cases_upto H; done.
Qed.

Lemma ctype_wrong_classes_witness : ispunct 44 = false.
Proof. apply (ctype_wrong_classes 44); lia. Defined.
