(* ===== verification/CMem.v ===== *)
(** * Filling and copying memory (libcrt/libc/freebsd_ports/memset.c)

    [memset_c] writes single bytes up to a word boundary, then words, then
    bytes.  A destination is the bytes from the pointer to the end of its
    capability, together with the address of the pointer; writing past the
    end gives [None]. *)

From S2P Require Import Prelude.

(** What the compilation decides: whether the preprocessor sees
    [UINT_MAX > 0xffff] (the file includes no header that defines it), and the
    byte order. *)
Record target := mk_target { uint_max_seen : bool; big_endian : bool }.

(** The bytes written so far and those still ahead. *)
Definition cursor : Type := (list Z * list Z)%type.

Definition emit (bs : list Z) (st : cursor) : option cursor :=
  let '(pre, rest) := st in
  if (length bs <=? length rest)%nat then Some (pre ++ bs, drop (length bs) rest) else None.

(** [while (length != 0)]. *)
Fixpoint fill_while (n : nat) (b : Z) (st : cursor) : option cursor :=
  match n with
  | O => Some st
  | S n => st ← emit [b] st; fill_while n b st
  end.

(** [do ... while (--t != 0)] on a [size_t]; every round writes at least one
    byte, so the bytes ahead bound the rounds. *)
Fixpoint fill_do (fuel : nat) (bs : list Z) (t : Z) (st : cursor) : option cursor :=
  match fuel with
  | O => None
  | S fuel =>
      st ← emit bs st;
      if u64 (t - 1) =? 0 then Some st else fill_do fuel bs (u64 (t - 1)) st
  end.

Definition do_fill (bs : list Z) (t : Z) (st : cursor) : option cursor :=
  fill_do (S (length (snd st))) bs t st.

Definition wsize : Z := 4.

(** The fill word: the byte doubled, and doubled again when [u_int] is known
    to be wider than 16 bits. *)
Definition fill_word (tg : target) (c0 : Z) : Z :=
  let c := u8 c0 in
  if c =? 0 then 0
  else
    let c := u32 (Z.lor (Z.shiftl c 8) c) in
    if uint_max_seen tg then u32 (Z.lor (Z.shiftl c 16) c) else c.

Definition word_bytes (tg : target) (c : Z) : list Z :=
  let be := [u8 (Z.shiftr c 24); u8 (Z.shiftr c 16); u8 (Z.shiftr c 8); u8 c] in
  if big_endian tg then be else reverse be.

Definition memset_c (tg : target) (addr : Z) (dst : list Z) (c0 : Z) (length : Z)
  : option (list Z) :=
  let b := u8 c0 in
  if length <? 3 * wsize then
    '(pre, rest) ← fill_while (Z.to_nat length) b ([], dst); Some (pre ++ rest)
  else
    let t := Z.land addr (wsize - 1) in
    '(length, st) ←
      (if negb (t =? 0)
       then st ← do_fill [b] (wsize - t) ([], dst); Some (length - (wsize - t), st)
       else Some (length, ([], dst)));
    st ← do_fill (word_bytes tg (fill_word tg c0)) (length / wsize) st;
    let t := Z.land length (wsize - 1) in
    '(pre, rest) ← (if negb (t =? 0) then do_fill [b] t st else Some st);
    Some (pre ++ rest).

Definition memset := memset_c.

Definition bzero (tg : target) (addr : Z) (b : list Z) (s : Z) : option (list Z) :=
  memset_c tg addr b 0 s.

(** [memcpy] of the RISC-V build.  A capability is 16 bytes; loading or
    storing one at another alignment traps. *)
Definition cap_size : Z := 16.

Definition copy_bytes (n : nat) (dst src : list Z) : option (list Z) :=
  if (n <=? length dst)%nat && (n <=? length src)%nat
  then Some (take n src ++ drop n dst) else None.

Definition memcpy (a1 a2 : Z) (dst src : list Z) (n : Z) : option (list Z) :=
  if (n mod cap_size =? 0) && (a1 mod cap_size =? 0) && (a1 mod cap_size =? 0) then
    if (0 <? n) && negb (a2 mod cap_size =? 0) then None
    else copy_bytes (Z.to_nat n) dst src
  else copy_bytes (Z.to_nat n) dst src.

(** ** Lemmas *)

Lemma emit_ok bs pre rest :
  (length bs <= length rest)%nat -> emit bs (pre, rest) = Some (pre ++ bs, drop (length bs) rest).
Proof. intros H; cbn; by rewrite (proj2 (Nat.leb_le _ _) H). Qed.

Lemma emit_fail bs pre rest : (length rest < length bs)%nat -> emit bs (pre, rest) = None.
Proof. intros H; cbn; by rewrite (proj2 (Nat.leb_gt _ _) H). Qed.

Lemma fill_while_ok n b pre rest :
  fill_while n b (pre, rest) =
    if (n <=? length rest)%nat then Some (pre ++ replicate n b, drop n rest) else None.
Proof.
  revert pre rest; induction n as [|n IH]; intros pre rest; cbn [fill_while].
  { by rewrite app_nil_r, drop_0. }
  destruct rest as [|x rest]; [done|]; rewrite emit_ok by (cbn; lia); cbn [mbind option_bind].
  rewrite IH; cbn [length drop]; rewrite drop_0.
  change (S n <=? S (length rest))%nat with (n <=? length rest)%nat.
  by rewrite <- app_assoc.
Qed.

(** [t] rounds of a block that fits. *)
Lemma fill_do_ok fuel bs t pre rest :
  (0 < t)%nat -> Z.of_nat t < 2 ^ 64 -> (t <= fuel)%nat -> (t * length bs <= length rest)%nat ->
  fill_do fuel bs (Z.of_nat t) (pre, rest) =
    Some (pre ++ concat (replicate t bs), drop (t * length bs) rest).
Proof.
  revert fuel pre rest; induction t as [|t IH]; intros [|fuel] pre rest Ht Hlt Hf Hl; try lia.
  cbn [fill_do]; rewrite emit_ok by (cbn in Hl; lia); cbn [mbind option_bind].
  replace (Z.of_nat (S t) - 1) with (Z.of_nat t) by lia.
  rewrite wrap_small by (unfold in_range; lia); destruct (Z.eqb_spec (Z.of_nat t) 0).
  - replace t with O by lia; cbn; by rewrite app_nil_r, Nat.add_0_r.
  - rewrite IH; [|lia|lia|lia|rewrite length_drop; cbn in Hl; lia].
    by rewrite drop_drop, <- app_assoc.
Qed.

Lemma fill_do_fail fuel bs t pre rest :
  (0 < t)%nat -> Z.of_nat t < 2 ^ 64 -> (length rest < t * length bs)%nat ->
  fill_do fuel bs (Z.of_nat t) (pre, rest) = None.
Proof.
  revert fuel pre rest; induction t as [|t IH]; intros [|fuel] pre rest Ht Hlt Hl; try lia; [done|].
  cbn [fill_do]; destruct (Nat.le_gt_cases (length bs) (length rest)).
  2: by rewrite emit_fail.
  rewrite emit_ok by done; cbn [mbind option_bind].
  replace (Z.of_nat (S t) - 1) with (Z.of_nat t) by lia.
  rewrite wrap_small by (unfold in_range; lia); destruct (Z.eqb_spec (Z.of_nat t) 0).
  - replace t with O in * by lia; cbn in Hl; lia.
  - apply IH; [lia|lia|rewrite length_drop; cbn in Hl; lia].
Qed.

Lemma do_fill_ok bs t pre rest :
  0 < t < 2 ^ 64 -> bs <> [] ->
  do_fill bs t (pre, rest) =
    if t * Z.of_nat (length bs) <=? Z.of_nat (length rest)
    then Some (pre ++ concat (replicate (Z.to_nat t) bs), drop (Z.to_nat t * length bs) rest) else None.
Proof.
  intros Ht Hbs; unfold do_fill; cbn [snd]; rewrite <- (Z2Nat.id t) at 1 by lia.
  assert (0 < length bs)%nat by (destruct bs; [done|cbn; lia]).
  destruct (Z.leb_spec (t * Z.of_nat (length bs)) (Z.of_nat (length rest))).
  - apply fill_do_ok; nia.
  - apply fill_do_fail; nia.
Qed.

Lemma concat_replicate_1 n (b : Z) : concat (replicate n [b]) = replicate n b.
Proof. induction n as [|n IH]; cbn; [done|]; by rewrite IH. Qed.

Lemma concat_replicate_same n k (b : Z) : concat (replicate n (replicate k b)) = replicate (n * k) b.
Proof. induction n as [|n IH]; cbn; [done|]; by rewrite IH, replicate_add. Qed.

Definition word_is (tg : target) (b : Z) (bs : list Z) : bool :=
  bool_decide (word_bytes tg (fill_word tg b) = bs).

Lemma fill_word_u8 tg c0 : fill_word tg (u8 c0) = fill_word tg c0.
Proof. unfold fill_word; by rewrite wrap_wrap by lia. Qed.

Lemma fill_word_wide tg c0 :
  uint_max_seen tg = true \/ u8 c0 = 0 ->
  word_bytes tg (fill_word tg c0) = replicate 4 (u8 c0).
Proof.
  destruct tg as [w e]; cbn [uint_max_seen]; intros H; rewrite <- fill_word_u8.
  pose proof (wrap_range 8 c0 ltac:(lia)) as Hr; revert Hr H; generalize (u8 c0); intros b Hr H.
  apply (bool_decide_unpack (word_bytes (mk_target w e) (fill_word (mk_target w e) b) = replicate 4 b)).
  apply Is_true_true; change (bool_decide (word_bytes ?t (fill_word ?t b) = ?r)) with (word_is t b r).
  destruct H as [->| ->]; [|by destruct w, e].
  revert b Hr; apply (all_bytes (fun b => word_is (mk_target true e) b (replicate 4 b))).
  by destruct e; vm_compute.
Qed.

(** Without the second doubling two bytes of every word are zero. *)
Lemma fill_word_narrow tg c0 :
  uint_max_seen tg = false -> 0 ∈ word_bytes tg (fill_word tg c0).
Proof.
  destruct tg as [w e]; cbn [uint_max_seen]; intros ->; rewrite <- fill_word_u8.
  pose proof (wrap_range 8 c0 ltac:(lia)) as Hr; revert Hr; generalize (u8 c0); intros b Hr.
  apply (bool_decide_unpack (0 ∈ word_bytes (mk_target false e) (fill_word (mk_target false e) b))).
  apply Is_true_true; revert b Hr.
  apply (all_bytes (fun b => bool_decide (0 ∈ word_bytes (mk_target false e) (fill_word (mk_target false e) b)))).
  by destruct e; vm_compute.
Qed.

Lemma word_bytes_length tg c : length (word_bytes tg c) = 4%nat.
Proof. by destruct tg as [w []]. Qed.

(** The result in three parts, for a block of three words or more: [k] bytes
    up to the boundary, [w] words, [m] bytes. *)
Lemma memset_parts tg addr dst c0 n :
  12 <= n < 2 ^ 63 ->
  exists k w m, (k + 4 * w + m = Z.to_nat n)%nat /\ (0 < w)%nat /\
    memset_c tg addr dst c0 n =
      if n <=? Z.of_nat (length dst)
      then Some (replicate k (u8 c0) ++ concat (replicate w (word_bytes tg (fill_word tg c0)))
                 ++ replicate m (u8 c0) ++ drop (Z.to_nat n) dst)
      else None.
Proof.
  intros Hn; unfold memset_c, wsize; rewrite (proj2 (Z.ltb_ge _ _)) by lia.
  change (4 - 1) with (Z.ones 2); rewrite !Z.land_ones by lia; change (2 ^ 2) with 4.
  pose proof (word_bytes_length tg (fill_word tg c0)) as Hwl.
  assert (word_bytes tg (fill_word tg c0) <> []) as Hwn by (intros E; rewrite E in Hwl; done).
  set (wb := word_bytes tg (fill_word tg c0)) in *; set (b := u8 c0).
  set (k := if negb (addr mod 4 =? 0) then 4 - addr mod 4 else 0).
  pose proof (Z.mod_pos_bound addr 4 ltac:(lia)) as Ha.
  assert (0 <= k < 4) as Hk by (unfold k; destruct (Z.eqb_spec (addr mod 4) 0); cbn; lia).
  assert ((if negb (addr mod 4 =? 0)
     then st ← do_fill [b] (4 - addr mod 4) ([], dst); Some (n - (4 - addr mod 4), st)
     else Some (n, ([], dst))) =
    if k <=? Z.of_nat (length dst) then Some (n - k, (replicate (Z.to_nat k) b, drop (Z.to_nat k) dst))
    else None) as ->.
  { unfold k; destruct (Z.eqb_spec (addr mod 4) 0); cbn [negb].
    - rewrite (proj2 (Z.leb_le _ _)) by lia; cbn; by rewrite drop_0, Z.sub_0_r.
    - rewrite do_fill_ok by (done || lia); cbn [length]; rewrite Z.mul_1_r, concat_replicate_1.
      destruct_if; cbn; [|done]; by rewrite Nat.mul_1_r. }
  set (w := (n - k) / 4); set (m := (n - k) mod 4).
  assert (n = k + 4 * w + m /\ 0 <= m < 4 /\ 2 <= w) as (Hsum & Hm & Hw)
    by (unfold w, m; Z.div_mod_to_equations; lia).
  exists (Z.to_nat k), (Z.to_nat w), (Z.to_nat m); split; [lia|]; split; [lia|].
  destruct (Z.leb_spec k (Z.of_nat (length dst))); cbn [mbind option_bind];
    [|by rewrite (proj2 (Z.leb_gt n _)) by lia].
  assert (Z.land (n - k) (Z.ones 2) = m) as -> by (by rewrite Z.land_ones by lia).
  fold w; rewrite do_fill_ok by (done || lia); rewrite Hwl, length_drop.
  destruct (Z.leb_spec (w * Z.of_nat 4) (Z.of_nat (length dst - Z.to_nat k))); cbn [mbind option_bind];
    [|by rewrite (proj2 (Z.leb_gt n _)) by lia].
  clearbody k w m; destruct (Z.eqb_spec m 0) as [Hm0|Hm0]; cbn [negb mbind option_bind].
  - rewrite (proj2 (Z.leb_le n _)) by lia; rewrite Hm0; change (replicate (Z.to_nat 0) b) with (@nil Z).
    cbn [app]; rewrite <- app_assoc, !drop_drop; do 4 f_equal; lia.
  - rewrite do_fill_ok by (done || lia); cbn [length]; rewrite !length_drop, Z.mul_1_r.
    rewrite concat_replicate_1, Nat.mul_1_r, !drop_drop.
    destruct (Z.leb_spec m (Z.of_nat (length dst - Z.to_nat k - Z.to_nat w * 4)));
      [rewrite (proj2 (Z.leb_le n _)) by lia|by rewrite (proj2 (Z.leb_gt n _)) by lia].
    cbn [mbind option_bind]; rewrite <- !app_assoc; do 5 f_equal; lia.
Qed.

(** ** Properties *)

(** [memset] fills.  When the fill word is the byte repeated four times,
    at any alignment exactly the first [n] bytes become the byte, and the
    call traps exactly when the block is smaller.  When [UINT_MAX] is not
    defined at the test in the source, every block of 12 bytes or more that
    is filled with a non-zero byte comes out wrong. *)
Theorem memset_fills tg addr dst c0 n :
  0 <= n < 2 ^ 63 ->
  (uint_max_seen tg = true \/ u8 c0 = 0 ->
   memset tg addr dst c0 n =
     if n <=? Z.of_nat (length dst)
     then Some (replicate (Z.to_nat n) (u8 c0) ++ drop (Z.to_nat n) dst) else None) /\
  (uint_max_seen tg = false -> u8 c0 <> 0 -> 12 <= n <= Z.of_nat (length dst) ->
   exists out, memset tg addr dst c0 n = Some out /\ 0 ∈ take (Z.to_nat n) out).
Proof.
  intros Hn; unfold memset; split.
  - intros Hw; destruct (Z.lt_ge_cases n 12) as [H|H].
    + unfold memset_c, wsize; rewrite (proj2 (Z.ltb_lt _ _)) by lia; rewrite fill_while_ok.
      destruct (Nat.leb_spec (Z.to_nat n) (length dst)), (Z.leb_spec n (Z.of_nat (length dst)));
        try lia; done.
    + destruct (memset_parts tg addr dst c0 n ltac:(lia)) as (k & w & m & Hsum & _ & ->).
      rewrite fill_word_wide, concat_replicate_same by done; destruct_if; [|done].
      rewrite !app_assoc, <- !replicate_add; do 4 f_equal; lia.
  - intros Hw Hc Hl; destruct (memset_parts tg addr dst c0 n ltac:(lia)) as (k & w & m & Hsum & Hw0 & ->).
    rewrite (proj2 (Z.leb_le _ _)) by lia; eexists; split; [done|].
    pose proof (fill_word_narrow tg c0 Hw) as Hz.
    rewrite take_app_ge by (rewrite length_replicate; lia); apply elem_of_app; right.
    rewrite length_replicate; destruct w as [|w]; [lia|]; cbn [replicate concat].
    rewrite <- app_assoc, take_app_ge by (rewrite word_bytes_length; lia); set_solver.
Qed.

Lemma memset_fills_witness :
  memset (mk_target true true) 4098 (replicate 20 0) 170 15 =
    Some (replicate 15 170 ++ replicate 5 0) /\
  exists out, memset (mk_target false true) 4096 (replicate 20 0) 170 16 = Some out /\
    0 ∈ take 16 out.
Proof.
  split.
  - apply (memset_fills (mk_target true true) 4098 (replicate 20 0) 170 15); [lia|by left].
  - apply (memset_fills (mk_target false true) 4096 (replicate 20 0) 170 16); [lia|done|done|cbn; lia].
Defined.

(** The word path tests the destination's alignment twice and the source's
    never: an unaligned source of a copy between them traps. *)
Lemma memcpy_unaligned_source a1 a2 dst src n :
  0 < n -> n mod cap_size = 0 -> a1 mod cap_size = 0 -> a2 mod cap_size <> 0 ->
  memcpy a1 a2 dst src n = None.
Proof.
  intros Hn H1 H2 H3; unfold memcpy; rewrite H1, H2; cbn [Z.eqb andb].
  by rewrite (proj2 (Z.ltb_lt 0 n)), (proj2 (Z.eqb_neq _ _) H3) by done.
Qed.
