(* ===== verification/QSort.v ===== *)
(** * qsort (libcrt/libc/freebsd_ports/qsort.c)

    The array is the list of its elements and [cmp] the caller's comparison.
    Pointers are element indices into the slice the call works on, so that
    [es] is one; an access outside the slice gives [None].  [swapfunc] swaps
    byte by byte: [vecswap] on a list of bytes is its loop, and [vecswap_bytes]
    shows that on elements of [es] bytes it swaps the elements.  That a byte
    store clears the tag of a capability is not modelled: the theorems are about
    elements without capabilities. *)

From stdpp Require Import sorting.
From S2P Require Import Prelude.

Section qsort.
Context {A : Type} (cmp : A -> A -> Z).

(** [swapfunc(a, b, es)] on two elements, and its turn on two bytes. *)
Definition swap (l : list A) (i j : Z) : option (list A) :=
  x ← zget l i;
  y ← zget l j;
  l ← zput l i y;
  zput l j x.

(** The loop of [swapfunc], over [n] bytes or elements; the macro [vecswap] is
    this for [n > 0]. *)
Fixpoint vecswap (n : nat) (l : list A) (i j : Z) : option (list A) :=
  match n with
  | O => Some l
  | S n => l ← swap l i j; vecswap n l (i + 1) (j + 1)
  end.

Definition cmp_at (l : list A) (i j : Z) : option Z :=
  x ← zget l i;
  y ← zget l j;
  Some (cmp x y).

Definition med3 (l : list A) (a b c : Z) : option Z :=
  ab ← cmp_at l a b;
  if ab <? 0 then
    bc ← cmp_at l b c;
    if bc <? 0 then Some b else ac ← cmp_at l a c; Some (if ac <? 0 then c else a)
  else
    bc ← cmp_at l b c;
    if 0 <? bc then Some b else ac ← cmp_at l a c; Some (if ac <? 0 then a else c).

(** ** Insertion sort *)

(** [pl] goes down while its predecessor is greater. *)
Fixpoint ins_down (pl : nat) (l : list A) : option (list A) :=
  match pl with
  | O => Some l
  | S k =>
      r ← cmp_at l (Z.of_nat k) (Z.of_nat pl);
      if 0 <? r then l ← swap l (Z.of_nat pl) (Z.of_nat k); ins_down k l
      else Some l
  end.

(** [k] rounds of the outer loop, [pm] going up. *)
Fixpoint ins_up (k pm : nat) (l : list A) : option (list A) :=
  match k with
  | O => Some l
  | S k => l ← ins_down pm l; ins_up k (S pm) l
  end.

Definition ins_sort (l : list A) : option (list A) := ins_up (length l - 1) 1 l.

(** ** Partition *)

Record pstate := mk_p { arr : list A; pa : Z; pb : Z; pc : Z; pd : Z; swap_cnt : bool }.

(** The first [while]; the distance from [pb] to [pc] bounds its rounds. *)
Fixpoint scan_left (fuel : nat) (s : pstate) : option pstate :=
  match fuel with
  | O => None
  | S fuel =>
      if pb s <=? pc s then
        r ← cmp_at (arr s) (pb s) 0;
        if r <=? 0 then
          s ← (if r =? 0
               then l ← swap (arr s) (pa s) (pb s);
                    Some (mk_p l (pa s + 1) (pb s) (pc s) (pd s) true)
               else Some s);
          scan_left fuel (mk_p (arr s) (pa s) (pb s + 1) (pc s) (pd s) (swap_cnt s))
        else Some s
      else Some s
  end.

Fixpoint scan_right (fuel : nat) (s : pstate) : option pstate :=
  match fuel with
  | O => None
  | S fuel =>
      if pb s <=? pc s then
        r ← cmp_at (arr s) (pc s) 0;
        if 0 <=? r then
          s ← (if r =? 0
               then l ← swap (arr s) (pc s) (pd s);
                    Some (mk_p l (pa s) (pb s) (pc s) (pd s - 1) true)
               else Some s);
          scan_right fuel (mk_p (arr s) (pa s) (pb s) (pc s - 1) (pd s) (swap_cnt s))
        else Some s
      else Some s
  end.

Fixpoint partition (fuel : nat) (s : pstate) : option pstate :=
  match fuel with
  | O => None
  | S fuel =>
      s ← scan_left (S (length (arr s))) s;
      s ← scan_right (S (length (arr s))) s;
      if pc s <? pb s then Some s
      else
        l ← swap (arr s) (pb s) (pc s);
        partition fuel (mk_p l (pa s) (pb s + 1) (pc s - 1) (pd s) true)
  end.

(** The index the pivot is taken from. *)
Definition pivot (l : list A) : option Z :=
  let n := Z.of_nat (length l) in
  let pm := n / 2 in
  if 7 <? n then
    '(pl, pm, pn) ←
      (if 40 <? n then
         let d := n / 8 in
         pl ← med3 l 0 d (2 * d);
         pm ← med3 l (pm - d) pm (pm + d);
         pn ← med3 l (n - 1 - 2 * d) (n - 1 - d) (n - 1);
         Some (pl, pm, pn)
       else Some (0, pm, n - 1));
    med3 l pl pm pn
  else Some pm.

(** Each call works on the slice [l]; the recursive call and the iteration
    work on its two ends.  The fuel is the length of the slice
    ([qsort_fuel]). *)
Fixpoint qsort (fuel : nat) (l : list A) : option (list A) :=
  match fuel with
  | O => None
  | S fuel =>
      let n := Z.of_nat (length l) in
      if n <? 7 then ins_sort l
      else
        pm ← pivot l;
        l ← swap l 0 pm;
        s ← partition (length l) (mk_p l 1 1 (n - 1) (n - 1) false);
        if negb (swap_cnt s) then ins_sort (arr s)
        else
          let d := Z.min (pa s) (pb s - pa s) in
          l ← vecswap (Z.to_nat d) (arr s) 0 (pb s - d);
          let d := Z.min (pd s - pc s) (n - pd s - 1) in
          l ← vecswap (Z.to_nat d) l (pb s) (n - d);
          let d1 := pb s - pa s in
          let d2 := pd s - pc s in
          let left l := if 1 <? d1
            then lo ← qsort fuel (take (Z.to_nat d1) l); Some (lo ++ drop (Z.to_nat d1) l)
            else Some l in
          let right l := if 1 <? d2
            then hi ← qsort fuel (drop (Z.to_nat (n - d2)) l);
                 Some (take (Z.to_nat (n - d2)) l ++ hi)
            else Some l in
          if d1 <=? d2 then l ← left l; right l else l ← right l; left l
  end.

(** ** Swaps *)

Lemma swap_mid a x b y c :
  let i := Z.of_nat (length a) in let j := Z.of_nat (length a + S (length b)) in
  swap (a ++ x :: b ++ y :: c) i j = Some (a ++ y :: b ++ x :: c) /\
  swap (a ++ x :: b ++ y :: c) j i = Some (a ++ y :: b ++ x :: c).
Proof.
  intros i j; unfold swap.
  assert (forall z c', zget (a ++ z :: b ++ y :: c') j = Some y) as G.
  { intros z c'; change (z :: b ++ ?l) with ((z :: b) ++ l); rewrite app_assoc.
    apply zget_app_r; unfold j; rewrite length_app; done. }
  assert (forall z w w', zput (a ++ z :: b ++ w :: c) j w' = Some (a ++ z :: b ++ w' :: c)) as P.
  { intros z w w'; change (z :: b ++ ?l) with ((z :: b) ++ l); rewrite !app_assoc.
    apply zput_app_r; unfold j; rewrite length_app; done. }
  assert (forall z w l, zput (a ++ z :: l) i w = Some (a ++ w :: l)) as P'
    by (intros; by apply zput_app_r).
  rewrite G, (zget_app_r a x _ i eq_refl); cbn [mbind option_bind]; rewrite P', P; cbn [mbind option_bind].
  by rewrite P, P'.
Qed.

Lemma swap_same a x c : swap (a ++ x :: c) (Z.of_nat (length a)) (Z.of_nat (length a)) = Some (a ++ x :: c).
Proof.
  unfold swap; rewrite (zget_app_r a x c) by done; cbn [mbind option_bind].
  rewrite (zput_app_r a x x c) by done; cbn [mbind option_bind]; by rewrite (zput_app_r a x x c).
Qed.

Lemma split_two (l : list A) i j : 0 <= i < j -> j < Z.of_nat (length l) ->
  exists a x b y c, l = a ++ x :: b ++ y :: c /\ i = Z.of_nat (length a) /\ j = Z.of_nat (length a + S (length b)).
Proof.
  intros Hi Hj; destruct (lookup_lt_is_Some_2 l (Z.to_nat i)) as [x Hx]; [lia|].
  apply list_elem_of_split_length in Hx as (a & l2 & -> & Ha); rewrite length_app in Hj; cbn in Hj.
  destruct (lookup_lt_is_Some_2 l2 (Z.to_nat (j - i - 1))) as [y Hy]; [lia|].
  apply list_elem_of_split_length in Hy as (b & c & -> & Hb); exists a, x, b, y, c; split; [done|]; lia.
Qed.

(** Every in-range swap succeeds and permutes. *)
Lemma swap_perm l i j :
  0 <= i < Z.of_nat (length l) -> 0 <= j < Z.of_nat (length l) ->
  exists l', swap l i j = Some l' /\ l' ≡ₚ l.
Proof.
  intros Hi Hj; pose proof (split_two l) as Hdec.
  assert (forall a (x : A) b y c, a ++ y :: b ++ x :: c ≡ₚ a ++ x :: b ++ y :: c) as Hperm.
  { intros a x b y c; apply Permutation_app_head.
    rewrite <- (Permutation_middle b c x), <- (Permutation_middle b c y); constructor. }
  destruct (Z.lt_trichotomy i j) as [H|[H|H]].
  - destruct (Hdec i j) as (a & x & b & y & c & -> & -> & ->); [lia..|].
    destruct (swap_mid a x b y c) as [E _]; eexists; split; [exact E|apply Hperm].
  - subst j; destruct (lookup_lt_is_Some_2 l (Z.to_nat i)) as [x Hx]; [lia|].
    apply list_elem_of_split_length in Hx as (a & c & -> & Ha).
    replace i with (Z.of_nat (length a)) by lia.
    rewrite swap_same; by eexists.
  - destruct (Hdec j i) as (a & x & b & y & c & -> & -> & ->); [lia..|].
    destruct (swap_mid a x b y c) as [_ E]; eexists; split; [exact E|apply Hperm].
Qed.

Lemma cmp_at_Some l i j :
  0 <= i < Z.of_nat (length l) -> 0 <= j < Z.of_nat (length l) -> exists r, cmp_at l i j = Some r.
Proof.
  intros Hi Hj; unfold cmp_at.
  destruct (zget_is_Some l i Hi) as [x ->], (zget_is_Some l j Hj) as [y ->]; by eexists.
Qed.

Lemma med3_ok l a b c :
  let ok i := 0 <= i < Z.of_nat (length l) in
  ok a -> ok b -> ok c -> exists m, med3 l a b c = Some m /\ ok m.
Proof.
  intros ok Ha Hb Hc; unfold med3.
  destruct (cmp_at_Some l a b Ha Hb) as [ab ->], (cmp_at_Some l b c Hb Hc) as [bc ->],
    (cmp_at_Some l a c Ha Hc) as [ac ->]; cbn [mbind option_bind].
  repeat destruct_if; eexists; split; done.
Qed.

Lemma pivot_ok l :
  (7 <= length l)%nat -> exists m, pivot l = Some m /\ 0 <= m < Z.of_nat (length l).
Proof.
  intros Hl; unfold pivot; set (n := Z.of_nat (length l)).
  assert (7 <= n) as Hn by lia.
  destruct (Z.ltb_spec 7 n); [|eexists; split; [done|]; Z.div_mod_to_equations; lia].
  destruct (Z.ltb_spec 40 n).
  - destruct (med3_ok l 0 (n / 8) (2 * (n / 8))) as (pl & -> & Hpl);
      [unfold n in *; Z.div_mod_to_equations; lia..|].
    destruct (med3_ok l (n / 2 - n / 8) (n / 2) (n / 2 + n / 8)) as (pm & -> & Hpm);
      [unfold n in *; Z.div_mod_to_equations; lia..|].
    destruct (med3_ok l (n - 1 - 2 * (n / 8)) (n - 1 - n / 8) (n - 1)) as (pn & -> & Hpn);
      [unfold n in *; Z.div_mod_to_equations; lia..|].
    cbn [mbind option_bind]; by apply med3_ok.
  - cbn [mbind option_bind]; apply med3_ok; unfold n in *; Z.div_mod_to_equations; lia.
Qed.

(** ** Correctness for a total preorder *)

Section preorder.
Context (cmp_anti : forall x y, cmp x y < 0 <-> 0 < cmp y x).
Context (cmp_trans : forall x y z, cmp x y <= 0 -> cmp y z <= 0 -> cmp x z <= 0).

Definition le (x y : A) : Prop := cmp x y <= 0.

Lemma cmp_swap x y : cmp x y = 0 -> cmp y x = 0.
Proof. pose proof (cmp_anti x y); pose proof (cmp_anti y x); lia. Qed.

Lemma ins_down_ok S0 x R :
  StronglySorted le S0 ->
  exists S1, ins_down (length S0) (S0 ++ x :: R) = Some (S1 ++ R) /\ S1 ≡ₚ x :: S0 /\
    StronglySorted le S1.
Proof.
  revert R; induction S0 as [|y S0 IH] using rev_ind; intros R Hs; cbn [length ins_down].
  { exists [x]; split_and!; [done..|]; by repeat constructor. }
  apply StronglySorted_app in Hs as (Hle & Hs & _).
  rewrite length_app; cbn [length]; rewrite Nat.add_1_r; cbn [ins_down].
  rewrite <- app_assoc; cbn [app]; unfold cmp_at.
  assert (forall z, zget (S0 ++ y :: z :: R) (Z.of_nat (S (length S0))) = Some z) as G.
  { intros z; change (y :: z :: R) with ([y] ++ z :: R); rewrite app_assoc; apply zget_app_r.
    rewrite length_app; cbn; lia. }
  rewrite (zget_app_r S0 y _ (Z.of_nat (length S0)) eq_refl); rewrite G; cbn [mbind option_bind].
  destruct (Z.ltb_spec 0 (cmp y x)) as [Hgt|Hle'].
  - destruct (swap_mid S0 y [] x R) as [_ E]; cbn [length app] in E.
    replace (length S0 + 1)%nat with (S (length S0)) in E by lia; rewrite E; cbn [mbind option_bind].
    destruct (IH (y :: R) Hs) as (S1 & -> & Hp & Hs1); exists (S1 ++ [y]); split_and!.
    + by rewrite <- app_assoc.
    + rewrite Hp, <- Permutation_cons_append; cbn; by rewrite <- Permutation_cons_append, (perm_swap x y).
    + apply StronglySorted_app; split_and!; [|done|by repeat constructor].
      intros z w Hz ->%list_elem_of_singleton; rewrite Hp in Hz.
      apply elem_of_cons in Hz as [->|Hz]; [unfold le; pose proof (proj2 (cmp_anti x y) Hgt); lia|].
      apply Hle; [done|set_solver].
  - exists (S0 ++ [y; x]); split_and!.
    + by rewrite <- app_assoc.
    + rewrite (app_assoc S0 [y] [x] : S0 ++ [y; x] = _); by rewrite <- Permutation_cons_append.
    + apply StronglySorted_app; split_and!; [|done|by repeat constructor].
      intros z w Hz Hw; assert (le z y) as Hzy by (apply Hle; [done|set_solver]).
      apply elem_of_cons in Hw as [-> | ->%list_elem_of_singleton]; [done|].
      by eapply cmp_trans.
Qed.

Lemma ins_up_ok k S0 R :
  k = length R -> StronglySorted le S0 ->
  exists l, ins_up k (length S0) (S0 ++ R) = Some l /\ l ≡ₚ S0 ++ R /\ StronglySorted le l.
Proof.
  revert S0 R; induction k as [|k IH]; intros S0 [|x R] Hk Hs; try done; cbn [ins_up].
  { exists (S0 ++ []); rewrite app_nil_r; done. }
  destruct (ins_down_ok S0 x R Hs) as (S1 & -> & Hp & Hs1); cbn [mbind option_bind].
  pose proof (Permutation_length Hp) as Hlen; cbn in Hlen; rewrite <- Hlen.
  destruct (IH S1 R ltac:(by injection Hk) Hs1) as (l & E & Hpl & Hsl).
  exists l; split_and!; [done| |done]; rewrite Hpl, Hp; exact (Permutation_middle S0 R x).
Qed.

Lemma ins_sort_ok l : exists l', ins_sort l = Some l' /\ l' ≡ₚ l /\ StronglySorted le l'.
Proof.
  unfold ins_sort; destruct l as [|x l].
  { exists []; split_and!; [done..|constructor]. }
  destruct (ins_up_ok (length l) [x] l eq_refl) as (l' & E & H); [by repeat constructor|].
  exists l'; cbn [length]; by rewrite Nat.sub_succ, Nat.sub_0_r.
Qed.

(** ** Partition *)

(** The array is the pivot, the elements found equal to it on the left, the
    smaller ones, those not looked at, the greater ones, the equal ones on
    the right. *)
Definition pinv (p : A) (s : pstate) (E1 L M G E2 : list A) : Prop :=
  arr s = p :: E1 ++ L ++ M ++ G ++ E2 /\
  pa s = Z.of_nat (1 + length E1) /\ pb s = Z.of_nat (1 + length E1 + length L) /\
  pc s = Z.of_nat (1 + length E1 + length L + length M) - 1 /\
  pd s = Z.of_nat (1 + length E1 + length L + length M + length G) - 1 /\
  Forall (fun x => cmp x p = 0) E1 /\ Forall (fun x => cmp x p < 0) L /\
  Forall (fun x => 0 < cmp x p) G /\ Forall (fun x => cmp x p = 0) E2.

Lemma pinv_scan p s E1 L M G E2 : pinv p s E1 L M G E2 -> (pb s <=? pc s) = bool_decide (M <> []).
Proof.
  intros (_ & _ & Hb & Hc & _); destruct M as [|x M].
  - rewrite bool_decide_false by (by intros []); apply Z.leb_gt; cbn in *; lia.
  - rewrite bool_decide_true by done; apply Z.leb_le; cbn in *; lia.
Qed.

(** An element met from the left that equals the pivot changes places with
    the first smaller one. *)
Lemma swap_left p E1 L x R :
  exists L', swap (p :: E1 ++ L ++ x :: R) (Z.of_nat (1 + length E1)) (Z.of_nat (1 + length E1 + length L)) =
    Some (p :: (E1 ++ [x]) ++ L' ++ R) /\ L' ≡ₚ L.
Proof.
  destruct L as [|y L].
  - exists []; split; [|done]; cbn [app length]; rewrite Nat.add_0_r, <- app_assoc.
    apply (swap_same (p :: E1) x R).
  - exists (L ++ [y]); split; [|by rewrite <- Permutation_cons_append].
    destruct (swap_mid (p :: E1) y L x R) as [E _]; cbn [app length] in *.
    etransitivity; [exact E|]; by rewrite <- !app_assoc.
Qed.

Lemma swap_right p Q x G E2 :
  exists G', swap (p :: Q ++ x :: G ++ E2) (Z.of_nat (1 + length Q)) (Z.of_nat (1 + length Q + length G)) =
    Some (p :: Q ++ G' ++ x :: E2) /\ G' ≡ₚ G.
Proof.
  destruct G as [|y G _] using rev_ind.
  - exists []; split; [|done]; cbn [app length]; rewrite Nat.add_0_r.
    apply (swap_same (p :: Q) x E2).
  - exists (y :: G); split; [|by rewrite <- Permutation_cons_append].
    destruct (swap_mid (p :: Q) x G y E2) as [E _]; cbn [app length] in *.
    rewrite length_app, <- !app_assoc; cbn [app length]; rewrite Nat.add_1_r; exact E.
Qed.

Lemma zget_pb (p : A) E1 L x R :
  zget (p :: E1 ++ L ++ x :: R) (Z.of_nat (1 + length E1 + length L)) = Some x.
Proof.
  change (p :: E1 ++ L ++ x :: R) with ((p :: E1) ++ L ++ x :: R); rewrite app_assoc.
  apply zget_app_r; rewrite length_app; done.
Qed.

Lemma scan_left_ok fuel p s E1 L M G E2 :
  pinv p s E1 L M G E2 -> (length M < fuel)%nat ->
  exists s' E1' L' M', scan_left fuel s = Some s' /\ pinv p s' E1' L' M' G E2 /\
    arr s' ≡ₚ arr s /\ (length M' <= length M)%nat /\
    (M' = [] \/ exists x M'', M' = x :: M'' /\ 0 < cmp x p).
Proof.
  revert s E1 L M; induction fuel as [|fuel IH]; intros s E1 L M Hinv Hf; [lia|].
  cbn [scan_left]; rewrite (pinv_scan _ _ _ _ _ _ _ Hinv).
  destruct M as [|x M].
  { rewrite bool_decide_false by (by intros []); exists s, E1, L, []; split_and!; auto. }
  rewrite bool_decide_true by done.
  pose proof Hinv as (Ha & Hpa & Hpb & Hpc & Hpd & HE1 & HL & HG & HE2).
  unfold cmp_at; rewrite Ha, Hpb; cbn [app]; rewrite zget_pb; cbn [mbind option_bind zget].
  change (zget (p :: ?l) 0) with (Some p); cbn [mbind option_bind].
  destruct (Z.leb_spec (cmp x p) 0) as [Hle|Hgt].
  2: { exists s, E1, L, (x :: M); split_and!; [done|done|by rewrite Ha|lia|eauto]. }
  destruct (Z.eqb_spec (cmp x p) 0) as [Heq|Hne].
  - destruct (swap_left p E1 L x (M ++ G ++ E2)) as (L' & E & HpL).
    rewrite Hpa, E; cbn [mbind option_bind arr pa pb pc pd swap_cnt].
    pose proof (Permutation_length HpL) as HlL.
    destruct (IH (mk_p (p :: (E1 ++ [x]) ++ L' ++ M ++ G ++ E2) (Z.of_nat (1 + length E1) + 1)
      (Z.of_nat (1 + length E1 + length L) + 1) (pc s) (pd s) true) (E1 ++ [x]) L' M)
      as (s' & E1' & L'' & M' & E' & Hinv' & Hp' & HM & Hend); [|cbn in Hf; lia|].
    { unfold pinv; cbn [arr pa pb pc pd]; rewrite Hpc, Hpd; cbn [length]; rewrite length_app; cbn [length].
      split_and!; try done; try lia; [by apply Forall_app; auto|by rewrite HpL]. }
    exists s', E1', L'', M'; split_and!; [done|done| |cbn; lia|done].
    rewrite Hp'; cbn [arr]; constructor; rewrite <- !app_assoc; apply Permutation_app_head.
    cbn [app]; rewrite HpL; by rewrite Permutation_middle.
  - cbn [mbind option_bind arr pa pb pc pd swap_cnt].
    destruct (IH (mk_p (arr s) (pa s) (pb s + 1) (pc s) (pd s) (swap_cnt s)) E1 (L ++ [x]) M)
      as (s' & E1' & L'' & M' & E' & Hinv' & Hp' & HM & Hend); [|cbn in Hf; lia|].
    { unfold pinv; cbn [arr pa pb pc pd]; rewrite Ha, Hpa, Hpb, Hpc, Hpd, length_app; cbn [length].
      rewrite <- !app_assoc; split_and!; try done; try lia.
      apply Forall_app; split; [done|]; constructor; [lia|constructor]. }
    exists s', E1', L'', M'; split_and!; [done|done|by rewrite Hp'; cbn [arr]; rewrite Ha|cbn; lia|done].
Qed.

Lemma scan_right_ok fuel p s E1 L M G E2 :
  pinv p s E1 L M G E2 -> (length M < fuel)%nat ->
  exists s' M' R G' E2', scan_right fuel s = Some s' /\ pinv p s' E1 L M' G' E2' /\
    arr s' ≡ₚ arr s /\ M = M' ++ R /\
    (M' = [] \/ exists x M'', M' = M'' ++ [x] /\ cmp x p < 0).
Proof.
  revert s M G E2; induction fuel as [|fuel IH]; intros s M G E2 Hinv Hf; [lia|].
  cbn [scan_right]; rewrite (pinv_scan _ _ _ _ _ _ _ Hinv).
  destruct M as [|x M _] using rev_ind.
  { rewrite bool_decide_false by (by intros []); exists s, [], [], G, E2; split_and!; auto. }
  rewrite bool_decide_true by (by destruct M).
  pose proof Hinv as (Ha & Hpa & Hpb & Hpc & Hpd & HE1 & HL & HG & HE2).
  rewrite length_app in Hpc, Hpd, Hf; cbn [length] in Hpc, Hpd, Hf.
  set (Q := E1 ++ L ++ M).
  assert (arr s = p :: Q ++ x :: G ++ E2) as Ha'
    by (rewrite Ha; unfold Q; by rewrite <- !app_assoc).
  assert (length Q = length E1 + length L + length M)%nat as HQ
    by (unfold Q; rewrite !length_app; lia).
  assert (pc s = Z.of_nat (1 + length Q)) as Hpc' by lia.
  assert (pd s = Z.of_nat (1 + length Q + length G)) as Hpd' by lia.
  unfold cmp_at; rewrite Ha', Hpc'.
  rewrite (zget_app_r (p :: Q) x (G ++ E2) (Z.of_nat (1 + length Q)) eq_refl
    : zget (p :: Q ++ x :: G ++ E2) _ = _); cbn [mbind option_bind].
  change (zget (p :: ?l) 0) with (Some p); cbn [mbind option_bind].
  destruct (Z.leb_spec 0 (cmp x p)) as [Hle|Hgt].
  2: { exists s, (M ++ [x]), [], G, E2; rewrite app_nil_r; split_and!; eauto; by rewrite Ha'. }
  destruct (Z.eqb_spec (cmp x p) 0) as [Heq|Hne].
  - destruct (swap_right p Q x G E2) as (G' & E & HpG).
    rewrite Hpd', E; cbn [mbind option_bind arr pa pb pc pd swap_cnt].
    pose proof (Permutation_length HpG) as HlG.
    destruct (IH (mk_p (p :: Q ++ G' ++ x :: E2) (pa s) (pb s) (Z.of_nat (1 + length Q) - 1)
      (Z.of_nat (1 + length Q + length G) - 1) true) M G' (x :: E2))
      as (s' & M' & R & G'' & E2' & E' & Hinv' & Hp' & HM & Hend); [|lia|].
    { unfold pinv; cbn [arr pa pb pc pd]; unfold Q at 1; rewrite <- !app_assoc.
      split_and!; try done; try lia; [by rewrite HpG|by constructor]. }
    exists s', M', (R ++ [x]), G'', E2'; split_and!; [done|done| |by rewrite HM, <- app_assoc|done].
    rewrite Hp'; cbn [arr]; constructor; apply Permutation_app_head.
    rewrite <- Permutation_middle, HpG; done.
  - cbn [mbind option_bind arr pa pb pc pd swap_cnt].
    destruct (IH (mk_p (arr s) (pa s) (pb s) (pc s - 1) (pd s) (swap_cnt s)) M (x :: G) E2)
      as (s' & M' & R & G'' & E2' & E' & Hinv' & Hp' & HM & Hend); [|lia|].
    { unfold pinv; cbn [arr pa pb pc pd length]; rewrite Ha'; unfold Q; rewrite <- !app_assoc.
      split_and!; try done; try lia; constructor; [lia|done]. }
    exists s', M', (R ++ [x]), G'', E2'.
    split_and!; [done|done|by rewrite Hp'; cbn [arr]; rewrite Ha'|by rewrite HM, <- app_assoc|done].
Qed.

(** The outer loop: a greater element on the left and a smaller one on the
    right change places. *)
Lemma partition_ok fuel p s E1 L M G E2 :
  pinv p s E1 L M G E2 -> (length M < fuel)%nat ->
  exists s' E1' L' G' E2', partition fuel s = Some s' /\ pinv p s' E1' L' [] G' E2' /\
    arr s' ≡ₚ arr s.
Proof.
  revert s E1 L M G E2; induction fuel as [|fuel IH]; intros s E1 L M G E2 Hinv Hf; [lia|].
  assert (forall p s E1 L M G E2, pinv p s E1 L M G E2 -> (length M < S (length (arr s)))%nat) as Hlen.
  { clear; intros p s E1 L M G E2 (-> & _); cbn; rewrite !length_app; lia. }
  cbn [partition].
  destruct (scan_left_ok _ _ _ _ _ _ _ _ Hinv (Hlen _ _ _ _ _ _ _ Hinv))
    as (s1 & E1a & La & Ma & -> & Hinv1 & Hp1 & HM1 & Hend1); cbn [mbind option_bind].
  destruct (scan_right_ok _ _ _ _ _ _ _ _ Hinv1 (Hlen _ _ _ _ _ _ _ Hinv1))
    as (s2 & Mb & R & Gb & E2b & -> & Hinv2 & Hp2 & HM2 & Hend2); cbn [mbind option_bind].
  rewrite Z.ltb_antisym, (pinv_scan _ _ _ _ _ _ _ Hinv2).
  destruct Hend2 as [->|(y & M2 & -> & Hy)].
  { rewrite bool_decide_false by (by intros []); cbn [negb].
    exists s2, E1a, La, Gb, E2b; split_and!; [done|done|by rewrite Hp2]. }
  rewrite bool_decide_true by (by destruct M2); cbn [negb].
  destruct Hend1 as [->|(x & M1 & -> & Hx)]; [by destruct M2|].
  destruct M2 as [|x' M2]; [injection HM2 as -> _; lia|]; injection HM2 as <- HM2.
  pose proof Hinv2 as (Ha & Hpa & Hpb & Hpc & Hpd & HE1 & HL & HG & HE2).
  cbn [length] in *; rewrite length_app in *; cbn [length] in *.
  destruct (swap_mid (p :: E1a ++ La) x M2 y (Gb ++ E2b)) as [Esw _].
  assert (arr s2 = (p :: E1a ++ La) ++ x :: M2 ++ y :: Gb ++ E2b) as Ha'
    by (rewrite Ha; cbn; by rewrite <- !app_assoc).
  cbn [length] in Esw; rewrite length_app in Esw.
  assert (swap (arr s2) (pb s2) (pc s2) = Some ((p :: E1a ++ La) ++ y :: M2 ++ x :: Gb ++ E2b)) as ->.
  { rewrite Ha', Hpb, Hpc; etransitivity; [|exact Esw]; f_equal; lia. }
  cbn [mbind option_bind].
  assert (length M1 = length M2 + 1 + length R)%nat as HlM
    by (rewrite HM2, !length_app; cbn; lia).
  edestruct (IH (mk_p ((p :: E1a ++ La) ++ y :: M2 ++ x :: Gb ++ E2b) (pa s2)
    (pb s2 + 1) (pc s2 - 1) (pd s2) true) E1a (La ++ [y]) M2 (x :: Gb) E2b)
    as (s' & E1' & L' & G' & E2' & E' & Hinv' & Hp'); [|lia|].
  { unfold pinv; cbn [arr pa pb pc pd length]; rewrite length_app; cbn [length app].
    rewrite <- !app_assoc; split_and!; try done; try lia;
      [apply Forall_app; split; [done|]; by repeat constructor|by constructor]. }
  exists s', E1', L', G', E2'; split_and!; [done|done|].
  rewrite Hp'; cbn [arr]; rewrite <- Hp1, <- Hp2, Ha'; apply Permutation_app_head.
  by rewrite <- !Permutation_middle, (perm_swap x y).
Qed.

Lemma vecswap_ok a X b Y c :
  length X = length Y ->
  vecswap (length X) (a ++ X ++ b ++ Y ++ c) (Z.of_nat (length a))
    (Z.of_nat (length a + length X + length b)) = Some (a ++ Y ++ b ++ X ++ c).
Proof.
  revert a b Y; induction X as [|x X IH]; intros a b [|y Y] Hl; try done; cbn [length vecswap].
  destruct (swap_mid a x (X ++ b) y (Y ++ c)) as [E _]; rewrite length_app in E.
  replace (length a + S (length X + length b))%nat with (length a + S (length X) + length b)%nat in E by lia.
  cbn [app]; rewrite <- app_assoc in E; rewrite E; cbn [mbind option_bind].
  specialize (IH (a ++ [y]) (b ++ [x]) Y ltac:(by injection Hl)).
  rewrite !length_app in IH; cbn [length] in IH; rewrite <- !app_assoc in IH; cbn [app] in IH.
  replace (Z.of_nat (length a) + 1) with (Z.of_nat (length a + 1)) by lia.
  replace (Z.of_nat (length a + S (length X) + length b) + 1)
    with (Z.of_nat (length a + 1 + length X + (length b + 1))) by lia.
  rewrite <- app_assoc; exact IH.
Qed.

(** Exchanging the shorter of two adjacent blocks with the far end of the
    other one exchanges the blocks. *)
Lemma center_ok a U V c :
  let d := Nat.min (length U) (length V) in
  exists U' V',
    vecswap d (a ++ U ++ V ++ c) (Z.of_nat (length a))
      (Z.of_nat (length a + length U + length V) - Z.of_nat d) = Some (a ++ V' ++ U' ++ c) /\
    V' ≡ₚ V /\ U' ≡ₚ U.
Proof.
  intros d; destruct (Nat.le_ge_cases (length U) (length V)) as [H|H].
  - set (k := (length V - length U)%nat).
    exists U, (drop k V ++ take k V); split_and!; [| |done].
    + pose proof (vecswap_ok a U (take k V) (drop k V) c) as E.
      rewrite length_drop, length_take in E; specialize (E ltac:(unfold k; lia)).
      rewrite (app_assoc (take k V)), take_drop in E.
      replace d with (length U) by (unfold d; lia).
      replace (Z.of_nat (length a + length U + length V) - Z.of_nat (length U))
        with (Z.of_nat (length a + length U + Nat.min k (length V))) by (unfold k; lia).
      rewrite E; by rewrite <- !app_assoc.
    + rewrite Permutation_app_comm; by rewrite take_drop.
  - set (k := length V).
    exists (drop k U ++ take k U), V; split_and!; [|done|].
    + pose proof (vecswap_ok a (take k U) (drop k U) V c) as E.
      rewrite length_drop, length_take in E; specialize (E ltac:(unfold k; lia)).
      rewrite (app_assoc (take k U)), take_drop in E.
      etransitivity; [|etransitivity; [exact E|by rewrite <- !app_assoc]].
      f_equal; unfold d, k; lia.
    + rewrite Permutation_app_comm; by rewrite take_drop.
Qed.

(** What a call on a slice promises. *)
Definition sorts (f : list A -> option (list A)) (l : list A) : Prop :=
  exists l', f l = Some l' /\ l' ≡ₚ l /\ StronglySorted le l'.

Lemma sorted_short l : (length l <= 1)%nat -> StronglySorted le l.
Proof. destruct l as [|x [|y l]]; cbn; intros; [constructor|by repeat constructor|lia]. Qed.

Lemma left_ok f lo rest d1 :
  d1 = Z.of_nat (length lo) -> sorts f lo ->
  exists lo', (if 1 <? d1
               then r ← f (take (Z.to_nat d1) (lo ++ rest)); Some (r ++ drop (Z.to_nat d1) (lo ++ rest))
               else Some (lo ++ rest)) = Some (lo' ++ rest) /\ lo' ≡ₚ lo /\ StronglySorted le lo'.
Proof.
  intros -> (lo' & E & Hp & Hs); destruct (Z.ltb_spec 1 (Z.of_nat (length lo))).
  - rewrite Nat2Z.id, take_app_length, drop_app_length, E; cbn; eauto.
  - exists lo; split_and!; [done..|]; apply sorted_short; lia.
Qed.

Lemma right_ok f front hi n d2 :
  d2 = Z.of_nat (length hi) -> n = Z.of_nat (length (front ++ hi)) -> sorts f hi ->
  exists hi', (if 1 <? d2
               then r ← f (drop (Z.to_nat (n - d2)) (front ++ hi));
                    Some (take (Z.to_nat (n - d2)) (front ++ hi) ++ r)
               else Some (front ++ hi)) = Some (front ++ hi') /\ hi' ≡ₚ hi /\ StronglySorted le hi'.
Proof.
  intros -> -> (hi' & E & Hp & Hs); destruct (Z.ltb_spec 1 (Z.of_nat (length hi))).
  - replace (Z.to_nat (Z.of_nat (length (front ++ hi)) - Z.of_nat (length hi))) with (length front)
      by (rewrite length_app; lia).
    rewrite take_app_length, drop_app_length, E; cbn; eauto.
  - exists hi; split_and!; [done..|]; apply sorted_short; lia.
Qed.

Lemma parts_sorted p lo mid hi :
  StronglySorted le lo -> StronglySorted le hi -> Forall (fun x => cmp x p < 0) lo ->
  Forall (fun x => cmp x p = 0) mid -> Forall (fun x => 0 < cmp x p) hi ->
  StronglySorted le (lo ++ mid ++ hi).
Proof.
  intros Hlo Hhi; rewrite !Forall_forall; intros Fl Fm Fh.
  assert (forall x y, cmp x p <= 0 -> 0 <= cmp y p -> le x y) as Hle.
  { intros x y Hx Hy; apply (cmp_trans x p y Hx).
    pose proof (cmp_anti p y); pose proof (cmp_anti y p); lia. }
  apply StronglySorted_app; split_and!; [|done|apply StronglySorted_app; split_and!; [| |done]].
  - intros x y Hx [Hy|Hy]%elem_of_app; apply Hle;
      [specialize (Fl x Hx)|specialize (Fm y Hy)|specialize (Fl x Hx)|specialize (Fh y Hy)]; cbn in *; lia.
  - intros x y Hx Hy; apply Hle; [specialize (Fm x Hx)|specialize (Fh y Hy)]; cbn in *; lia.
  - clear Fl Fh; induction mid as [|x mid IH]; [constructor|]; constructor.
    + apply IH; intros z Hz; apply Fm; by constructor.
    + apply Forall_forall; intros y Hy; apply Hle; [rewrite (Fm x)|rewrite (Fm y)]; try done;
        by constructor.
Qed.

(** The state after the partition: exchanging the blocks of equal elements
    towards the middle and sorting the two ends sorts the slice. *)
Lemma finish_ok f p s E1 L G E2 n :
  pinv p s E1 L [] G E2 -> n = Z.of_nat (length (arr s)) ->
  (forall l, l ≡ₚ L \/ l ≡ₚ G -> sorts f l) ->
  exists l',
    (let d := Z.min (pa s) (pb s - pa s) in
     l ← vecswap (Z.to_nat d) (arr s) 0 (pb s - d);
     let d := Z.min (pd s - pc s) (n - pd s - 1) in
     l ← vecswap (Z.to_nat d) l (pb s) (n - d);
     let d1 := pb s - pa s in
     let d2 := pd s - pc s in
     let left l := if 1 <? d1
       then lo ← f (take (Z.to_nat d1) l); Some (lo ++ drop (Z.to_nat d1) l) else Some l in
     let right l := if 1 <? d2
       then hi ← f (drop (Z.to_nat (n - d2)) l); Some (take (Z.to_nat (n - d2)) l ++ hi)
       else Some l in
     if d1 <=? d2 then l ← left l; right l else l ← right l; left l) = Some l' /\
    l' ≡ₚ arr s /\ StronglySorted le l'.
Proof.
  intros (Ha & Hpa & Hpb & Hpc & Hpd & HE1 & HL & HG & HE2) Hn Hsort.
  cbn [length app] in *; rewrite Nat.add_0_r in *; cbv zeta.
  assert (n = Z.of_nat (1 + length E1 + length L + length G + length E2)) as Hn'
    by (rewrite Hn, Ha; cbn; rewrite !length_app; lia).
  destruct (center_ok [] (p :: E1) L (G ++ E2)) as (P' & L' & Ec & HpL & HpP).
  cbn [length app] in Ec; assert (vecswap (Z.to_nat (Z.min (pa s) (pb s - pa s))) (arr s) 0
    (pb s - Z.min (pa s) (pb s - pa s)) = Some (L' ++ P' ++ G ++ E2)) as ->.
  { etransitivity; [|exact Ec]; rewrite Ha; f_equal; cbn [length]; lia. }
  cbn [mbind option_bind].
  pose proof (Permutation_length HpL) as HlL; pose proof (Permutation_length HpP) as HlP; cbn in HlP.
  destruct (center_ok (L' ++ P') G E2 []) as (G' & E2' & Ec2 & HpE & HpG).
  rewrite !app_nil_r, length_app, <- !app_assoc in Ec2.
  assert (vecswap (Z.to_nat (Z.min (pd s - pc s) (n - pd s - 1))) (L' ++ P' ++ G ++ E2) (pb s)
    (n - Z.min (pd s - pc s) (n - pd s - 1)) = Some (L' ++ (P' ++ E2') ++ G')) as ->.
  { etransitivity; [|etransitivity; [exact Ec2|by rewrite <- app_assoc]]; f_equal; lia. }
  cbn [mbind option_bind].
  pose proof (Permutation_length HpG) as HlG; pose proof (Permutation_length HpE) as HlE.
  assert (Forall (fun x => cmp x p = 0) (P' ++ E2')) as HM.
  { rewrite HpP, HpE; apply Forall_app; split; [constructor; [|done]|done].
    pose proof (cmp_anti p p); lia. }
  assert (sorts f L') as HsL by (apply Hsort; by left).
  assert (sorts f G') as HsG by (apply Hsort; by right).
  assert (forall lo hi, lo ≡ₚ L' -> hi ≡ₚ G' -> StronglySorted le lo -> StronglySorted le hi ->
    lo ++ (P' ++ E2') ++ hi ≡ₚ arr s /\ StronglySorted le (lo ++ (P' ++ E2') ++ hi)) as Hfin.
  { intros lo hi Hlo Hhi Slo Shi; split.
    - rewrite Hlo, Hhi, HpL, HpP, HpE, HpG, Ha; cbn [app].
      rewrite <- (Permutation_middle L); constructor.
      rewrite <- !app_assoc, (Permutation_app_comm E2 G), (app_assoc L), (Permutation_app_comm L E1).
      by rewrite <- !app_assoc.
    - apply (parts_sorted p); try done; [by rewrite Hlo, HpL|by rewrite Hhi, HpG]. }
  assert (pb s - pa s = Z.of_nat (length L')) as Ed1 by lia.
  assert (pd s - pc s = Z.of_nat (length G')) as Ed2 by lia.
  assert (forall lo hi, length lo = length L' -> length hi = length G' ->
    n = Z.of_nat (length ((lo ++ P' ++ E2') ++ hi))) as Hlen.
  { intros lo hi H1 H2; rewrite !length_app; lia. }
  destruct (pb s - pa s <=? pd s - pc s).
  - destruct (left_ok f L' ((P' ++ E2') ++ G') _ Ed1 HsL) as (lo & -> & Hlo & Slo); cbn [mbind option_bind].
    rewrite (app_assoc lo).
    destruct (right_ok f (lo ++ P' ++ E2') G' n _ Ed2) as (hi & -> & Hhi & Shi); [|done|].
    { apply Hlen; [by rewrite Hlo|done]. }
    rewrite <- app_assoc; eexists; split; [done|by apply Hfin].
  - rewrite (app_assoc L').
    destruct (right_ok f (L' ++ P' ++ E2') G' n _ Ed2) as (hi & -> & Hhi & Shi); [|done|].
    { by apply Hlen. }
    cbn [mbind option_bind]; rewrite <- (app_assoc L').
    destruct (left_ok f L' ((P' ++ E2') ++ hi) _ Ed1 HsL) as (lo & -> & Hlo & Slo).
    eexists; split; [done|by apply Hfin].
Qed.

Lemma qsort_fuel fuel l : (length l < fuel)%nat -> sorts (qsort fuel) l.
Proof.
  revert l; induction fuel as [|fuel IH]; intros l Hf; [lia|]; unfold sorts; cbn [qsort].
  destruct (Z.ltb_spec (Z.of_nat (length l)) 7) as [H7|H7].
  { destruct (ins_sort_ok l) as (l' & E & H); by exists l'. }
  destruct (pivot_ok l ltac:(lia)) as (m & -> & Hm); cbn [mbind option_bind].
  destruct (swap_perm l 0 m) as (l1 & -> & Hp1); [lia|lia|]; cbn [mbind option_bind].
  pose proof (Permutation_length Hp1) as Hl1; rewrite <- Hl1 in *.
  destruct l1 as [|p l1]; [cbn in *; lia|].
  destruct (partition_ok (length (p :: l1)) p
    (mk_p (p :: l1) 1 1 (Z.of_nat (length (p :: l1)) - 1) (Z.of_nat (length (p :: l1)) - 1) false)
    [] [] l1 [] []) as (s & E1 & L & G & E2 & -> & Hinv & Hp); [|cbn; lia|].
  { unfold pinv; cbn; rewrite !app_nil_r; split_and!; try done; try lia; constructor. }
  cbn [mbind option_bind arr] in *; destruct (swap_cnt s); cbn [negb].
  - pose proof (Permutation_length Hp) as Hl; cbn [length] in Hl.
    pose proof Hinv as (Ha & _); rewrite Ha in Hl; cbn in Hl; rewrite !length_app in Hl.
    destruct (finish_ok (qsort fuel) p s E1 L G E2 (Z.of_nat (length (p :: l1))) Hinv)
      as (l' & E & Hpl & Hsl); [by rewrite Hp| |].
    { intros l2 [Hl2|Hl2]; apply IH; rewrite Hl2; cbn in Hf; lia. }
    exists l'; split_and!; [exact E|by rewrite Hpl, Hp|done].
  - destruct (ins_sort_ok (arr s)) as (l' & E & Hpl & Hsl).
    exists l'; split_and!; [done|by rewrite Hpl, Hp|done].
Qed.

End preorder.
End qsort.

(** ** Swapping byte by byte *)

Section bytes.
Context {B : Type}.
Implicit Types a b c x y : list B.

Lemma vecswap_cells x : forall y a b c, length y = length x ->
  let i := Z.of_nat (length a) in let j := Z.of_nat (length a + (length x + length b)) in
  vecswap (length x) (a ++ x ++ b ++ y ++ c) i j = Some (a ++ y ++ b ++ x ++ c) /\
  vecswap (length x) (a ++ x ++ b ++ y ++ c) j i = Some (a ++ y ++ b ++ x ++ c).
Proof.
  induction x as [|x0 x IH]; intros [|y0 y] a b c Hl i j; try done; injection Hl as Hl; cbn [length vecswap].
  destruct (swap_mid a x0 (x ++ b) y0 (y ++ c)) as [E1 E2]; cbv zeta in E1, E2.
  destruct (IH y (a ++ [y0]) (b ++ [x0]) c Hl) as [F1 F2]; cbv zeta in F1, F2.
  rewrite !length_app in F1, F2; cbn [length] in F1, F2.
  replace (a ++ (x0 :: x) ++ b ++ (y0 :: y) ++ c) with (a ++ x0 :: (x ++ b) ++ y0 :: y ++ c) by (cbn; by rewrite <- app_assoc).
  replace (a ++ (y0 :: y) ++ b ++ (x0 :: x) ++ c) with ((a ++ [y0]) ++ y ++ (b ++ [x0]) ++ x ++ c) by (rewrite <- !app_assoc; done).
  replace j with (Z.of_nat (length a + S (length (x ++ b)))) by (unfold j; rewrite length_app; cbn; lia).
  unfold i; rewrite E1, E2; cbn [mbind option_bind].
  replace (a ++ y0 :: (x ++ b) ++ x0 :: y ++ c) with ((a ++ [y0]) ++ x ++ (b ++ [x0]) ++ y ++ c) by (rewrite <- !app_assoc; done).
  rewrite length_app; split; [rewrite <- F1|rewrite <- F2]; f_equal; lia.
Qed.

Lemma vecswap_self x : forall a c, vecswap (length x) (a ++ x ++ c) (Z.of_nat (length a)) (Z.of_nat (length a)) = Some (a ++ x ++ c).
Proof.
  induction x as [|x0 x IH]; intros a c; [done|]; cbn [length vecswap app]; rewrite swap_same; cbn [mbind option_bind].
  specialize (IH (a ++ [x0]) c); rewrite length_app, <- !app_assoc in IH; cbn in IH; rewrite <- IH; f_equal; lia.
Qed.

Context (es : nat).
Abbreviation sized l := (Forall (fun x => length x = es) l).

Lemma concat_sized (l : list (list B)) : sized l -> length (concat l) = (length l * es)%nat.
Proof. induction 1 as [|x l Hx _ IH]; cbn; [done|]; rewrite length_app; lia. Qed.

(** One element. *)
Lemma swap_bytes (l l' : list (list B)) i j : sized l -> swap l i j = Some l' ->
  sized l' /\ vecswap es (concat l) (i * Z.of_nat es) (j * Z.of_nat es) = Some (concat l').
Proof.
  intros Hs E; assert (0 <= i < Z.of_nat (length l) /\ 0 <= j < Z.of_nat (length l)) as [Hi Hj].
  { unfold swap in E; destruct (zget l i) eqn:Ei, (zget l j) eqn:Ej; try done; by split; eapply zget_Some_range. }
  assert (Hmid : forall (a : list (list B)) x (b : list (list B)) y (c : list (list B)), sized (a ++ x :: b ++ y :: c) ->
    sized (a ++ y :: b ++ x :: c) /\ forall i j, i = Z.of_nat (length a) -> j = Z.of_nat (length a + S (length b)) ->
    vecswap es (concat (a ++ x :: b ++ y :: c)) (i * Z.of_nat es) (j * Z.of_nat es) = Some (concat (a ++ y :: b ++ x :: c)) /\
    vecswap es (concat (a ++ x :: b ++ y :: c)) (j * Z.of_nat es) (i * Z.of_nat es) = Some (concat (a ++ y :: b ++ x :: c))).
  { intros a x b y c H; apply Forall_app in H as [Ha H]; apply Forall_cons in H as [Hx H]; apply Forall_app in H as [Hb H]; apply Forall_cons in H as [Hy Hc].
    split; [apply Forall_app; split; [done|]; apply Forall_cons; split; [done|]; apply Forall_app; split; [done|by apply Forall_cons]|].
    intros ? ? -> ->; destruct (vecswap_cells x y (concat a) (concat b) (concat c) ltac:(congruence)) as [E1 E2]; cbv zeta in E1, E2.
    rewrite Hx, !concat_sized in E1, E2 by done; rewrite !concat_app; cbn [concat]; rewrite !concat_app; cbn [concat].
    split; [rewrite <- E1|rewrite <- E2]; f_equal; lia. }
  destruct (Z.lt_trichotomy i j) as [H|[<-|H]].
  - destruct (split_two l i j) as (a & x & b & y & c & -> & -> & ->); [lia..|]; destruct (Hmid _ _ _ _ _ Hs) as [Hs' Hv].
    rewrite (proj1 (swap_mid a x b y c)) in E; injection E as <-; split; [done|]; exact (proj1 (Hv _ _ eq_refl eq_refl)).
  - destruct (lookup_lt_is_Some_2 l (Z.to_nat i)) as [x Hx]; [lia|]; apply list_elem_of_split_length in Hx as (a & c & -> & Ha).
    replace i with (Z.of_nat (length a)) in * by lia; rewrite swap_same in E; injection E as <-; split; [done|].
    apply Forall_app in Hs as [Hsa Hs]; apply Forall_cons in Hs as [Hx _]; rewrite concat_app; cbn [concat].
    pose proof (vecswap_self x (concat a) (concat c)) as E; rewrite concat_sized, Hx in E by done; rewrite <- E; f_equal; lia.
  - destruct (split_two l j i) as (a & x & b & y & c & -> & -> & ->); [lia..|]; destruct (Hmid _ _ _ _ _ Hs) as [Hs' Hv].
    rewrite (proj2 (swap_mid a x b y c)) in E; injection E as <-; split; [done|]; exact (proj2 (Hv _ _ eq_refl eq_refl)).
Qed.

Lemma vecswap_add {C} n m : forall (l : list C) i j, vecswap (n + m) l i j = l ← vecswap n l i j; vecswap m l (i + Z.of_nat n) (j + Z.of_nat n).
Proof.
  induction n as [|n IH]; intros l i j; cbn [Nat.add vecswap]; [cbn; by rewrite !Z.add_0_r|].
  destruct (swap l i j) as [l1|]; cbn [mbind option_bind]; [|done]; rewrite IH; destruct (vecswap n l1 _ _); cbn [mbind option_bind]; [|done]; f_equal; lia.
Qed.

(** The byte loop over [n] elements swaps the elements. *)
Lemma vecswap_bytes n : forall (l l' : list (list B)) i j, sized l -> vecswap n l i j = Some l' ->
  vecswap (n * es) (concat l) (i * Z.of_nat es) (j * Z.of_nat es) = Some (concat l').
Proof.
  induction n as [|n IH]; intros l l' i j Hs E; cbn [vecswap Nat.mul] in *; [by injection E as <-|].
  destruct (swap l i j) as [l1|] eqn:E1; cbn [mbind option_bind] in E; [|done]; destruct (swap_bytes l l1 i j Hs E1) as [Hs1 F].
  rewrite vecswap_add, F; cbn [mbind option_bind]; rewrite <- (IH l1 l' (i + 1) (j + 1) Hs1 E); f_equal; lia.
Qed.
End bytes.

(** ** Properties *)

(** C23: [qsort] sorts.  For every comparison that is a total preorder, the
    call returns, with no access outside the array, a permutation of the
    array in ascending order. *)
Theorem qsort_sorts {A} (cmp : A -> A -> Z) l :
  (forall x y, cmp x y < 0 <-> 0 < cmp y x) ->
  (forall x y z, cmp x y <= 0 -> cmp y z <= 0 -> cmp x z <= 0) ->
  exists l', qsort cmp (S (length l)) l = Some l' /\ l' ≡ₚ l /\
    StronglySorted (fun x y => cmp x y <= 0) l'.
Proof. intros Ha Ht; apply (qsort_fuel cmp Ha Ht); lia. Qed.

Lemma qsort_sorts_witness :
  exists l', qsort Z.sub 10 [5; 3; 9; 1; 5; 7; 2; 8; 5] = Some l' /\
    l' ≡ₚ [5; 3; 9; 1; 5; 7; 2; 8; 5] /\ StronglySorted (fun x y => x - y <= 0) l'.
Proof. apply (qsort_sorts Z.sub [5; 3; 9; 1; 5; 7; 2; 8; 5]); intros; lia. Defined.
