(* ===== verification/Namespace.v ===== *)
(** * The namespace service (cherios/core/namespace/src/namespace.c)

    Services are bound to port numbers, once; processes are bound to names,
    in order of arrival.  One message is handled at a time. *)

From S2P Require Import Prelude CString.

(** ** Capabilities as the service sees them *)

Record cap := mk_cap { c_tag : bool; c_sealed : bool; c_addr : Z }.

Definition NULL : cap := mk_cap false false 0.

(** [==] on capabilities compares addresses. *)
Definition is_null (c : cap) : bool := c_addr c =? 0.

(** ** State *)

Definition BIND_LEN : Z := 128.
Definition DYNAMIC_BINDS : Z := 16.
Definition MAX_NAME_LENGTH : nat := 48.

Record dynamic_bind_t := mk_dy { dy_ref : cap; dy_name : list Z }.

Record ns := mk_ns {
  bind : list cap;
  ids : list cap;
  count : Z;
  dy_count : Z;
  dy_binds : list dynamic_bind_t;
  mmap_act : cap              (** what [mmap_set_act] was last given *)
}.

Definition set_bind (st : ns) (b : list cap) (c : Z) (m : cap) : ns :=
  mk_ns b (ids st) c (dy_count st) (dy_binds st) m.

(** The state in which the loader leaves the globals, then [ns_init]. *)
Definition ns_zero : ns :=
  mk_ns (replicate 128 NULL) (replicate 128 NULL) 0 0
        (replicate 16 (mk_dy NULL (replicate MAX_NAME_LENGTH 0))) NULL.

Definition ns_init (st : ns) : ns := set_bind st (replicate 128 NULL) 0 (mmap_act st).

(** ** Ports *)

Definition validate_idx (nb : Z) : Z :=
  if nb <? 0 then -1 else if BIND_LEN <=? nb then -1 else 0.

Definition validate_act_caps (act_reference : cap) : Z :=
  if negb (c_tag act_reference) then -2
  else if negb (c_sealed act_reference) then -3 else 0.

(** [None] is an access outside an array: it is excluded by the checks
    ([ns_handle_total]). *)
Definition ns_get_reference (st : ns) (nb : Z) : option cap :=
  if negb (validate_idx nb =? 0) then Some NULL else zget (bind st) nb.

Definition namespace_num_memmgt : Z := 4.

Definition ns_register_core (st : ns) (nb : Z) (act_reference : cap) : option (Z * ns) :=
  old ← zget (bind st) nb;
  if negb (is_null old) then Some (-4, st)
  else
    b ← zput (bind st) nb act_reference;
    Some (0, set_bind st b (signed 32 (count st + 1))
               (if nb =? namespace_num_memmgt then act_reference else mmap_act st)).

Definition ns_register (st : ns) (nb : Z) (act_reference : cap) : option (Z * ns) :=
  let ret := validate_idx nb in
  if negb (ret =? 0) then Some (ret, st)
  else
    let ret := validate_act_caps act_reference in
    if negb (ret =? 0) then Some (ret, st) else ns_register_core st nb act_reference.

Definition ns_get_num_services (st : ns) : Z := count st.

(** [id] and [code] are what the nanokernel's [rescap_check_cert] gives for
    the certificate. *)
Definition ns_register_found_id (st : ns) (id : cap) (code : Z) : option (Z * ns) :=
  let nb := signed 32 code in
  if is_null id || negb (validate_idx nb =? 0) then Some (-1, st)
  else
    i ← zput (ids st) nb id;
    Some (0, mk_ns (bind st) i (count st) (dy_count st) (dy_binds st) (mmap_act st)).

Definition ns_get_found_id (st : ns) (nb : Z) : option cap :=
  if negb (validate_idx nb =? 0) then Some NULL else zget (ids st) nb.

(** ** Names *)

(** [tmp] is the caller's buffer of [MAX_NAME_LENGTH + 1] bytes. *)
Definition normalise_name (name tmp_buf : list Z) : option (list Z) :=
  e ← strrchr name 47;
  let name := match e with Some k => drop (S k) name | None => name end in
  ext ← strchr name 46;
  match ext with
  | Some k => tmp ← strncpy tmp_buf name k; zput tmp (Z.of_nat k) 0
  | None => Some name
  end.

Definition ns_register_name (st : ns) (tmp name : list Z) (ref : cap) : option (Z * ns) :=
  if dy_count st =? DYNAMIC_BINDS then Some (-1, st)
  else
    norm ← normalise_name name tmp;
    old ← zget (dy_binds st) (dy_count st);
    nm ← strncpy (dy_name old) norm MAX_NAME_LENGTH;
    bs ← zput (dy_binds st) (dy_count st) (mk_dy ref nm);
    Some (0, mk_ns (bind st) (ids st) (count st) (dy_count st + 1) bs (mmap_act st)).

(** [n] entries are left, from index [i]. *)
Fixpoint ns_search (n : nat) (i : Z) (bs : list dynamic_bind_t) (name : list Z) : option cap :=
  match n with
  | O => Some NULL
  | S n =>
      b ← zget bs i;
      r ← strncmp name (dy_name b) (Z.of_nat MAX_NAME_LENGTH);
      if r =? 0 then Some (dy_ref b) else ns_search n (i + 1) bs name
  end.

Definition ns_get_ref_by_name (st : ns) (tmp name : list Z) : option cap :=
  norm ← normalise_name name tmp;
  ns_search (Z.to_nat (dy_count st)) 0 (dy_binds st) norm.

(** ** Messages *)

Inductive ns_msg :=
| Register (nb : Z) (ref : cap)
| GetReference (nb : Z)
| GetNumServices
| GetFoundId (nb : Z)
| RegisterFoundId (id : cap) (code : Z)
| RegisterName (tmp name : list Z) (ref : cap)
| GetRefByName (tmp name : list Z).

Definition keep {A} (st : ns) (r : option A) : option ns := _ ← r; Some st.

(** The state after a message; [None] is a trap, which ends the service. *)
Definition ns_handle (st : ns) (m : ns_msg) : option ns :=
  match m with
  | Register nb ref => snd <$> ns_register st nb ref
  | GetReference nb => keep st (ns_get_reference st nb)
  | GetNumServices => Some st
  | GetFoundId nb => keep st (ns_get_found_id st nb)
  | RegisterFoundId id code => snd <$> ns_register_found_id st id code
  | RegisterName tmp name ref => snd <$> ns_register_name st tmp name ref
  | GetRefByName tmp name => keep st (ns_get_ref_by_name st tmp name)
  end.

Fixpoint ns_run (st : ns) (ms : list ns_msg) : option ns :=
  match ms with
  | [] => Some st
  | m :: ms => st ← ns_handle st m; ns_run st ms
  end.

(** ** Invariant *)

Definition bound (c : cap) : Prop := is_null c = false.

#[global] Instance bound_dec c : Decision (bound c) := _.

(** Names hold characters of the target's [char], see CString.v. *)
Definition dy_wf (lo : Z) (b : dynamic_bind_t) : Prop :=
  length (dy_name b) = MAX_NAME_LENGTH /\ Forall (char_in lo) (cstr (dy_name b)).

Definition ns_wf (lo : Z) (st : ns) : Prop :=
  length (bind st) = 128%nat /\ length (ids st) = 128%nat /\ length (dy_binds st) = 16%nat /\
  0 <= dy_count st <= DYNAMIC_BINDS /\ Forall (dy_wf lo) (dy_binds st) /\
  count st = Z.of_nat (length (filter bound (bind st))).

(** The part after the last slash, and its part before the first dot. *)
Definition after_slash (s : list Z) : list Z :=
  match last_index_of 47 s with Some k => drop (S k) s | None => s end.

Definition stem (s : list Z) : list Z :=
  match index_of 46 (after_slash s) with
  | Some k => take k (after_slash s)
  | None => after_slash s
  end.

(** A name whose stem, when it has an extension, fits the buffer. *)
Definition name_ok (lo : Z) (tmp name : list Z) : Prop :=
  terminated name /\ Forall (char_in lo) (cstr name) /\ length tmp = S MAX_NAME_LENGTH /\
  forall k, index_of 46 (after_slash (cstr name)) = Some k -> (k <= MAX_NAME_LENGTH)%nat.

Definition msg_ok (lo : Z) (m : ns_msg) : Prop :=
  match m with
  | Register _ ref => c_tag ref = true -> bound ref
  | RegisterName tmp name _ | GetRefByName tmp name => name_ok lo tmp name
  | _ => True
  end.

(** ** Names *)

Lemma index_of_lt c s k : index_of c s = Some k -> (k < length s)%nat.
Proof.
  revert k; induction s as [|x s IH]; intros k; cbn; [done|]; destruct_if; [intros [= <-]; lia|].
  destruct (index_of c s) as [j|]; [|done]; intros [= <-]; specialize (IH j eq_refl); lia.
Qed.

Lemma last_index_of_lt c s k : last_index_of c s = Some k -> (k < length s)%nat.
Proof.
  revert k; induction s as [|x s IH]; intros k; cbn; [done|].
  destruct (last_index_of c s) as [j|]; [intros [= <-]; specialize (IH j eq_refl); lia|].
  destruct_if; [intros [= <-]; lia|done].
Qed.

Lemma cstr_drop k b : terminated b -> (k <= length (cstr b))%nat ->
  terminated (drop k b) /\ cstr (drop k b) = drop k (cstr b).
Proof.
  intros Hb Hk; destruct (cstr_split b Hb) as [r E]; pose proof (cstr_c_string b) as Hc.
  rewrite E, drop_app_le by done; split; [apply terminated_app|].
  rewrite cstr_app by (by apply Forall_drop); by rewrite cstr_app.
Qed.

Lemma char_in_sub lo (s : list Z) : Forall (char_in lo) s -> Forall (char_in lo) (stem s).
Proof.
  intros H; unfold stem, after_slash.
  destruct (last_index_of 47 s); destruct (index_of 46 _); auto using Forall_take, Forall_drop.
Qed.

Lemma slash_part name :
  terminated name ->
  let nm := match last_index_of 47 (cstr name) with Some k => drop (S k) name | None => name end in
  terminated nm /\ cstr nm = after_slash (cstr name).
Proof.
  intros Ht; unfold after_slash; destruct (last_index_of 47 (cstr name)) as [k|] eqn:E; [|done].
  apply cstr_drop; [done|]; by apply last_index_of_lt in E.
Qed.

Lemma normalise_ok lo name tmp :
  name_ok lo tmp name ->
  exists out, normalise_name name tmp = Some out /\ terminated out /\ cstr out = stem (cstr name).
Proof.
  intros (Ht & Hc & Hl & Hk); unfold normalise_name.
  rewrite strrchr_spec by done; cbn [mbind option_bind].
  destruct (slash_part name Ht) as [Ht' Hnm].
  set (nm := match last_index_of 47 (cstr name) with Some k => drop (S k) name | None => name end) in *.
  rewrite strchr_spec by done; cbn [mbind option_bind]; rewrite Hnm; unfold stem.
  destruct (index_of 46 (after_slash (cstr name))) as [k|] eqn:E; [|by exists nm].
  specialize (Hk k eq_refl); pose proof (index_of_lt _ _ _ E) as Hlt.
  rewrite strncpy_spec by (by right); rewrite Hl, (proj2 (Nat.leb_le _ _)) by lia; rewrite Hnm.
  replace (k - length (after_slash (cstr name)))%nat with O by lia; cbn [replicate app mbind option_bind].
  destruct (drop k tmp) as [|x r] eqn:Ed.
  { apply (f_equal length) in Ed; rewrite length_drop, Hl in Ed; cbn in Ed; unfold MAX_NAME_LENGTH in *; lia. }
  rewrite (zput_app_r (take k (after_slash (cstr name))) x 0 r) by (rewrite length_take; lia).
  eexists; split; [done|]; split; [apply terminated_app|].
  apply cstr_app, Forall_take; rewrite <- Hnm; apply cstr_c_string.
Qed.

(** A stem of more than [MAX_NAME_LENGTH] characters before an extension
    overruns the buffer. *)
Lemma normalise_overflow name tmp k :
  terminated name -> length tmp = S MAX_NAME_LENGTH ->
  index_of 46 (after_slash (cstr name)) = Some k -> (MAX_NAME_LENGTH < k)%nat ->
  normalise_name name tmp = None.
Proof.
  intros Ht Hl E Hk; unfold normalise_name.
  rewrite strrchr_spec by done; cbn [mbind option_bind].
  destruct (slash_part name Ht) as [Ht' Hnm].
  set (nm := match last_index_of 47 (cstr name) with Some k => drop (S k) name | None => name end) in *.
  rewrite strchr_spec by done; cbn [mbind option_bind]; rewrite Hnm, E.
  rewrite strncpy_spec by (by right); destruct_if; [|done]; cbn [mbind option_bind].
  apply Nat.leb_le in E0; unfold zput; destruct_if; [|done]; zbool.
  pose proof (index_of_lt _ _ _ E) as Hlt.
  rewrite !length_app, length_take, length_replicate, length_drop, Hnm, Hl in *.
  unfold MAX_NAME_LENGTH in *; lia.
Qed.

(** The names in use, in order of registration. *)
Definition entries (st : ns) : list dynamic_bind_t := take (Z.to_nat (dy_count st)) (dy_binds st).

(** The reference of the first entry with the name [key]. *)
Fixpoint first_match (key : list Z) (es : list dynamic_bind_t) : cap :=
  match es with
  | [] => NULL
  | b :: es => if bool_decide (cstr (dy_name b) = key) then dy_ref b else first_match key es
  end.

Definition key_of (name : list Z) : list Z := take MAX_NAME_LENGTH (stem (cstr name)).

Lemma cstr_length b : (length (cstr b) <= length b)%nat.
Proof. induction b as [|x b IH]; cbn; [lia|]; destruct_if; cbn; lia. Qed.

Lemma ns_search_ok lo n pre es name :
  n = length es -> terminated name -> Forall (char_in lo) (cstr name) -> Forall (dy_wf lo) es ->
  forall post, ns_search n (Z.of_nat (length pre)) (pre ++ es ++ post) name =
    Some (first_match (take MAX_NAME_LENGTH (cstr name)) es).
Proof.
  intros -> Ht Hc Hes post; revert pre; induction Hes as [|b es [Hl Hcb] Hes IH]; intros pre; [done|].
  cbn [length ns_search app first_match].
  rewrite (zget_app_r pre b _ (Z.of_nat (length pre)) eq_refl); cbn [mbind option_bind].
  destruct (strncmp_spec lo MAX_NAME_LENGTH name (dy_name b)) as (v & -> & Hv & _);
    [unfold MAX_NAME_LENGTH; lia|done|by right|left; lia|done|done|]; cbn [mbind option_bind].
  rewrite (take_ge (cstr (dy_name b))) in Hv by (rewrite <- Hl; apply cstr_length).
  destruct (Z.eqb_spec v 0) as [E|E].
  - rewrite bool_decide_true by (symmetry; by apply Hv); done.
  - rewrite bool_decide_false by (intros H; by apply E, Hv).
    specialize (IH (pre ++ [b])); rewrite length_app, <- app_assoc in IH; cbn [length app] in IH.
    replace (Z.of_nat (length pre) + 1) with (Z.of_nat (length pre + 1)) by lia; exact IH.
Qed.

Lemma get_ref_by_name_ok lo st tmp name :
  ns_wf lo st -> name_ok lo tmp name ->
  ns_get_ref_by_name st tmp name = Some (first_match (key_of name) (entries st)).
Proof.
  intros (_ & _ & Hl & Hd & Hwf & _) Hn; unfold ns_get_ref_by_name.
  destruct (normalise_ok lo name tmp Hn) as (out & -> & Ht & Ho); cbn [mbind option_bind].
  rewrite <- (take_drop (Z.to_nat (dy_count st)) (dy_binds st)) at 1; unfold key_of; rewrite <- Ho.
  apply (ns_search_ok lo _ [] (entries st) out); [|done| |by apply Forall_take].
  - unfold entries; rewrite length_take, Hl; unfold DYNAMIC_BINDS in Hd; lia.
  - rewrite Ho; apply char_in_sub, Hn.
Qed.

Lemma register_name_ok lo st tmp name ref :
  ns_wf lo st -> name_ok lo tmp name ->
  if dy_count st =? DYNAMIC_BINDS then ns_register_name st tmp name ref = Some (-1, st)
  else exists st' b, ns_register_name st tmp name ref = Some (0, st') /\ ns_wf lo st' /\
         bind st' = bind st /\ count st' = count st /\
         entries st' = entries st ++ [b] /\ dy_ref b = ref /\ cstr (dy_name b) = key_of name.
Proof.
  intros (H1 & H2 & Hl & Hd & Hwf & Hc) Hn; unfold ns_register_name.
  destruct (Z.eqb_spec (dy_count st) DYNAMIC_BINDS) as [E|E]; [done|].
  destruct (normalise_ok lo name tmp Hn) as (out & -> & Ht & Ho); cbn [mbind option_bind].
  unfold DYNAMIC_BINDS in *.
  destruct (zget_is_Some (dy_binds st) (dy_count st)) as [old Hold]; [lia|]; rewrite Hold; cbn [mbind option_bind].
  assert (dy_wf lo old) as [Hlo _].
  { unfold zget in Hold; destruct_if; [|done]; by eapply (Forall_lookup_1 _ _ _ _ Hwf). }
  rewrite strncpy_spec, Hlo, Nat.leb_refl, (drop_ge (dy_name old)), app_nil_r by (first [lia|by right]).
  cbn [mbind option_bind]; set (nm := take _ _ ++ replicate _ _).
  rewrite zput_is_Some by lia; cbn [mbind option_bind].
  assert (cstr nm = key_of name) as Hk.
  { unfold nm, key_of; rewrite Ho.
    assert (c_string (take MAX_NAME_LENGTH (stem (cstr name)))) as Hs
      by (rewrite <- Ho; apply Forall_take, cstr_c_string).
    destruct (MAX_NAME_LENGTH - length (stem (cstr name)))%nat; cbn [replicate];
      [rewrite app_nil_r; by apply cstr_id|by apply cstr_app]. }
  assert (dy_wf lo (mk_dy ref nm)) as Hb.
  { split; cbn [dy_name]; [unfold nm; rewrite length_app, length_take, length_replicate; lia|].
    rewrite Hk; apply Forall_take, char_in_sub, Hn. }
  eexists _, (mk_dy ref nm); split; [done|]; split_and!; try done.
  - split_and!; cbn; unfold DYNAMIC_BINDS; try done; try lia; [by rewrite length_insert|by apply Forall_insert].
  - unfold entries; cbn [dy_count dy_binds].
    rewrite Z2Nat.inj_add, Nat.add_1_r by lia.
    erewrite take_S_r by (apply list_lookup_insert_eq; lia); by rewrite take_insert_ge.
Qed.

(** ** Ports *)

Lemma filter_insert_new {A} (P : A -> Prop) `{forall x, Decision (P x)} (l : list A) i x y :
  l !! i = Some x -> ~ P x -> P y -> length (filter P (<[i := y]> l)) = S (length (filter P l)).
Proof.
  intros Hi Hx Hy; apply list_elem_of_split_length in Hi as (a & b & -> & ->).
  rewrite <- (Nat.add_0_r (length a)), insert_app_r; cbn.
  rewrite !filter_app, !filter_cons, decide_True, decide_False by done.
  rewrite !length_app; cbn; lia.
Qed.

Lemma validate_idx_ok nb : (validate_idx nb =? 0) = (0 <=? nb) && (nb <? 128).
Proof.
  unfold validate_idx, BIND_LEN; destruct (Z.ltb_spec nb 0), (Z.leb_spec 128 nb); cbn;
    destruct (Z.leb_spec 0 nb), (Z.ltb_spec nb 128); cbn; done || lia.
Qed.

(** Every binding of [st] is still there in [st']. *)
Definition keeps (st st' : ns) : Prop :=
  forall nb c, zget (bind st) nb = Some c -> bound c -> zget (bind st') nb = Some c.

Lemma keeps_bind st st' : bind st' = bind st -> keeps st st'.
Proof. intros E nb c; by rewrite E. Qed.

Lemma register_ok lo st nb ref :
  ns_wf lo st -> (c_tag ref = true -> bound ref) ->
  exists r st', ns_register st nb ref = Some (r, st') /\ ns_wf lo st' /\ keeps st st' /\
    count st <= count st' /\
    (r = 0 -> zget (bind st) nb <> None /\ zget (bind st') nb = Some ref /\ bound ref /\
       count st' = count st + 1).
Proof.
  intros (Hl & H2 & H3 & Hd & Hwf & Hc) Href; unfold ns_register.
  destruct (validate_idx nb =? 0) eqn:Hv; cbn [negb].
  2: { exists (validate_idx nb), st; rewrite Z.eqb_neq in Hv.
       split_and!; try done; by apply keeps_bind. }
  rewrite validate_idx_ok in Hv; zbool.
  destruct (validate_act_caps ref =? 0) eqn:Hval; cbn [negb].
  2: { exists (validate_act_caps ref), st; rewrite Z.eqb_neq in Hval.
       split_and!; try done; by apply keeps_bind. }
  assert (bound ref) as Hb.
  { apply Href; revert Hval; unfold validate_act_caps; by destruct (c_tag ref). }
  unfold ns_register_core; destruct (zget_is_Some (bind st) nb) as [old Hold]; [lia|].
  rewrite Hold; cbn [mbind option_bind]; destruct (is_null old) eqn:Hn; cbn [negb].
  2: { exists (-4), st; split_and!; try done; by apply keeps_bind. }
  pose proof (zput_is_Some (bind st) nb ref ltac:(lia)) as Hp; rewrite Hp; cbn [mbind option_bind].
  assert (length (filter bound (<[Z.to_nat nb := ref]> (bind st))) =
          S (length (filter bound (bind st)))) as Hcnt.
  { apply (filter_insert_new _ _ _ old); [|by unfold bound; rewrite Hn|done].
    unfold zget in Hold; destruct_if; done. }
  pose proof (length_filter bound (<[Z.to_nat nb := ref]> (bind st))) as Hle.
  rewrite length_insert in Hle.
  assert (signed 32 (count st + 1) = count st + 1) as Hs.
  { unfold signed; rewrite wrap_small by (unfold in_range; lia).
    by rewrite (proj2 (Z.ltb_lt _ _)) by (cbn; lia). }
  do 2 eexists; split; [done|]; cbn [bind ids dy_count dy_binds count set_bind]; rewrite Hs.
  split_and!; try done.
  - split_and!; cbn [bind ids dy_count dy_binds count set_bind]; try done; [by rewrite length_insert|lia|lia|lia].
  - intros nb' c Hg Hbc; cbn [bind set_bind]; rewrite (zget_zput_ne _ _ _ _ _ Hp); [done|].
    intros <-; rewrite Hold in Hg; injection Hg as ->; unfold bound in Hbc; congruence.
  - lia.
  - intros _; split_and!; try done; first [by rewrite Hold|by apply (zget_zput_eq _ _ _ _ Hp)].
Qed.

Lemma handle_ok lo st m :
  ns_wf lo st -> msg_ok lo m ->
  exists st', ns_handle st m = Some st' /\ ns_wf lo st' /\ keeps st st' /\ count st <= count st'.
Proof.
  intros Hwf Hm; pose proof Hwf as (Hl & H2 & H3 & Hd & Hwf' & Hc).
  assert (forall A (r : option A), is_Some r ->
    exists st', keep st r = Some st' /\ ns_wf lo st' /\ keeps st st' /\ count st <= count st') as Hkeep.
  { intros A r [x ->]; exists st; split_and!; try done; by apply keeps_bind. }
  destruct m as [nb ref|nb| |nb|id code|tmp name ref|tmp name]; cbn [ns_handle].
  - destruct (register_ok lo st nb ref Hwf Hm) as (r & st' & -> & ? & ? & ? & _); by exists st'.
  - apply Hkeep; unfold ns_get_reference; rewrite validate_idx_ok; destruct_if; [by eexists|].
    apply negb_false_iff in E; zbool; destruct (zget_is_Some (bind st) nb); [lia|]; by eexists.
  - exists st; split_and!; try done; by apply keeps_bind.
  - apply Hkeep; unfold ns_get_found_id; rewrite validate_idx_ok; destruct_if; [by eexists|].
    apply negb_false_iff in E; zbool; destruct (zget_is_Some (ids st) nb); [lia|]; by eexists.
  - unfold ns_register_found_id; rewrite validate_idx_ok; destruct_if.
    { exists st; split_and!; try done; by apply keeps_bind. }
    apply orb_false_iff in E as [_ E]; apply negb_false_iff in E; zbool.
    rewrite zput_is_Some by lia; eexists; split; [done|].
    split_and!; [split_and!; try done; cbn; first [by rewrite length_insert|lia]|by apply keeps_bind|done].
  - pose proof (register_name_ok lo st tmp name ref Hwf Hm) as H; destruct_if.
    + rewrite H; exists st; split_and!; try done; by apply keeps_bind.
    + destruct H as (st' & b & -> & Hwf1 & Hb & Hcn & _); exists st'; split_and!; try done;
        [by apply keeps_bind|by rewrite Hcn].
  - apply Hkeep; rewrite (get_ref_by_name_ok lo) by done; by eexists.
Qed.

Lemma ns_zero_wf lo : ns_wf lo (ns_init ns_zero).
Proof.
  split_and!; try done.
  apply Forall_replicate; split; [done|]; constructor.
Qed.

Lemma run_ok lo ms st :
  ns_wf lo st -> Forall (msg_ok lo) ms ->
  exists st', ns_run st ms = Some st' /\ ns_wf lo st' /\ keeps st st' /\ count st <= count st'.
Proof.
  intros Hwf Hms; revert st Hwf; induction Hms as [|m ms Hm Hms IH]; intros st Hwf; cbn [ns_run].
  - exists st; split_and!; try done; by apply keeps_bind.
  - destruct (handle_ok lo st m Hwf Hm) as (st1 & -> & Hwf1 & Hk1 & Hc1); cbn [mbind option_bind].
    destruct (IH st1 Hwf1) as (st' & -> & Hwf2 & Hk2 & Hc2); exists st'; split_and!; try done; [|lia].
    intros nb c Hg Hb; apply Hk2; [by apply Hk1|done].
Qed.

(** ** Properties *)

(** C33: port bindings are permanent.  From the initial state, any sequence of
    messages that are [msg_ok] - a tagged reference that is registered is not
    null, and a name is terminated, of characters, and has at most 48 of them
    before an extension - is served without a trap; from then on a port that is
    bound answers every later query with the same reference, a second registration
    of it is refused with -4, and the number of services reported is the
    number of bound ports. *)
Theorem ns_bindings_permanent lo ms1 ms2 :
  Forall (msg_ok lo) ms1 -> Forall (msg_ok lo) ms2 ->
  exists st1 st2, ns_run (ns_init ns_zero) ms1 = Some st1 /\ ns_run st1 ms2 = Some st2 /\
    ns_get_num_services st2 = Z.of_nat (length (filter bound (bind st2))) /\
    ns_get_num_services st1 <= ns_get_num_services st2 <= 128 /\
    forall nb c, 0 <= nb < 128 -> ns_get_reference st1 nb = Some c -> bound c ->
      ns_get_reference st2 nb = Some c /\
      forall ref, validate_act_caps ref = 0 -> ns_register st2 nb ref = Some (-4, st2).
Proof.
  intros H1 H2; destruct (run_ok lo ms1 _ (ns_zero_wf lo) H1) as (st1 & E1 & Hwf1 & _ & _).
  destruct (run_ok lo ms2 st1 Hwf1 H2) as (st2 & E2 & Hwf2 & Hk & Hc).
  pose proof Hwf2 as (Hl2 & _ & _ & _ & _ & Hc2).
  pose proof (length_filter bound (bind st2)) as Hle.
  exists st1, st2; unfold ns_get_num_services; split_and!; try done; [lia|].
  intros nb c Hnb; assert (validate_idx nb = 0) as Hv
    by (apply Z.eqb_eq; rewrite validate_idx_ok; apply andb_true_iff; lia).
  unfold ns_get_reference; rewrite Hv; cbn [Z.eqb negb].
  intros Hg Hb; specialize (Hk nb c Hg Hb); split; [done|]; intros ref Hr.
  unfold ns_register; rewrite Hv, Hr; cbn [Z.eqb negb].
  unfold ns_register_core; rewrite Hk; cbn [mbind option_bind]; by rewrite Hb.
Qed.

Lemma ns_bindings_permanent_witness :
  exists st1 st2,
    ns_run (ns_init ns_zero) [Register 4 (mk_cap true true 4096)] = Some st1 /\
    ns_run st1 [Register 4 (mk_cap true true 8192); RegisterName (replicate 49 0) [97; 46; 98; 0] NULL;
                GetReference 200] = Some st2 /\
    ns_get_reference st2 4 = Some (mk_cap true true 4096).
Proof.
  destruct (ns_bindings_permanent 0 [Register 4 (mk_cap true true 4096)]
    [Register 4 (mk_cap true true 8192); RegisterName (replicate 49 0) [97; 46; 98; 0] NULL;
     GetReference 200]) as (st1 & st2 & E1 & E2 & _ & _ & H).
  - by repeat constructor.
  - apply Forall_cons; split; [done|]; apply Forall_cons; split; [|by repeat constructor].
    split_and!; [unfold terminated; set_solver|repeat constructor; lia|done|].
    intros k [= <-]; unfold MAX_NAME_LENGTH; lia.
  - exists st1, st2; split_and!; [done|done|]; apply (H 4); [lia| |done].
    vm_compute in E1; injection E1 as <-; done.
Defined.

(** Names resolve to the first registration.  A name stands for its last
    path component without extension, cut to 48 characters.  Looking one up
    gives the reference of the earliest registration of that key, or NULL; a
    registration is appended, and refused with -1 once 16 are in use. *)
Theorem ns_name_resolution lo st tmp name ref :
  ns_wf lo st -> name_ok lo tmp name ->
  ns_get_ref_by_name st tmp name = Some (first_match (key_of name) (entries st)) /\
  (dy_count st = DYNAMIC_BINDS -> ns_register_name st tmp name ref = Some (-1, st)) /\
  (dy_count st < DYNAMIC_BINDS ->
   exists st' b, ns_register_name st tmp name ref = Some (0, st') /\
     entries st' = entries st ++ [b] /\ dy_ref b = ref /\ cstr (dy_name b) = key_of name /\
     forall tmp' name', name_ok lo tmp' name' -> key_of name' = key_of name ->
       Forall (fun b => cstr (dy_name b) <> key_of name) (entries st) ->
       ns_get_ref_by_name st' tmp' name' = Some ref).
Proof.
  intros Hwf Hn; pose proof (register_name_ok lo st tmp name ref Hwf Hn) as H.
  split_and!; [by apply (get_ref_by_name_ok lo)|intros E; by rewrite E, Z.eqb_refl in H|].
  intros Hlt; rewrite (proj2 (Z.eqb_neq _ _)) in H by lia.
  destruct H as (st' & b & E & Hwf' & _ & _ & He & Hr & Hk); exists st', b; split_and!; try done.
  intros tmp' name' Hn' Hkey Hnew; rewrite (get_ref_by_name_ok lo) by done; rewrite He, Hkey; f_equal.
  clear -Hnew Hr Hk; induction Hnew as [|e es Hne _ IH]; cbn.
  - by rewrite bool_decide_true.
  - by rewrite bool_decide_false.
Qed.

Lemma ns_name_resolution_witness :
  ns_get_ref_by_name (ns_init ns_zero) (replicate 49 0) [47; 97; 46; 98; 0] = Some NULL.
Proof.
  apply (ns_name_resolution 0 (ns_init ns_zero) (replicate 49 0) [47; 97; 46; 98; 0] NULL).
  - apply ns_zero_wf.
  - split_and!; [unfold terminated; set_solver|repeat constructor; lia|done|].
    intros k [= <-]; unfold MAX_NAME_LENGTH; lia.
Defined.
