(* ===== verification/Kernel.v ===== *)
(** * The state of the CheriOS kernel (cherios/kernel)

    Activations are named by numbers; a pointer to one is such a number, and
    [NULL] is [None].  An operation is a state transformer that is [None] when
    the kernel stops: a failed [kernel_assert], a panic or a trap.  Spin locks
    are taken and released inside each operation, so operations are atomic
    and the locks themselves are left out. *)

From S2P Require Import Prelude.

(** ** Enumerations (include/sys/types.h) *)

Definition status_alive : Z := 0.
Definition status_revoked : Z := 1.
Definition status_terminated : Z := 2.

Definition sched_runnable : Z := 0.
Definition sched_running : Z := 1.
Definition sched_terminated : Z := 2.
Definition sched_waiting : Z := 16.
Definition sched_sync_block : Z := 32.
Definition sched_sem : Z := 64.
Definition sched_wait_notify : Z := 128.
Definition sched_wait_timeout : Z := 256.
Definition sched_wait_commit : Z := 512.
Definition sched_wait_fastpath : Z := 1024.

Definition PRIO_IDLE : Z := 0.
Definition PRIO_LOW : Z := 1.
Definition PRIO_MID : Z := 2.
Definition PRIO_HIGH : Z := 3.
Definition PRIO_IO : Z := 4.
Definition SCHED_PRIO_FACTOR : Z := 16.
Definition SCHED_PRIO_LEVELS : nat := 5.
Definition SCHED_QUEUE_LENGTH : Z := 31.
Definition MAX_WAITERS : nat := 16.

Definition LEVEL_TO_NDX (level : Z) : Z := if PRIO_IO <? level then PRIO_IO else level.

(** Flag tests. *)
Definition has (x m : Z) : bool := negb (Z.land x m =? 0).

(** ** Activations (cherios/kernel/include/activations.h) *)

Record ret_t := mk_ret { r_c3 : Z; r_v0 : Z; r_v1 : Z }.

Definition FAST_RES_TIME : Z := 1.
Definition FAST_RES_POP : Z := 2.

Record sched_part := mk_sched {
  priority : Z;
  sched_status : Z;
  woke_from : Z;
  pool_id : Z;
  queue_ndx : Z;
  early_notify : bool;
  commit_early_notify : bool;
  is_idle : bool;
  timeout_start : Z;
  timeout_length : Z;
  timeout_indx : Z
}.

(** A sync token: a sealed pointer to an indirection, which names the
    activation and an addend, at an offset that holds the rest of the
    sequence number. *)
Record token_t := mk_token { k_act : Z; k_add : Z; k_off : Z }.

Record msg_t := mk_msg { m_c : list Z; m_token : option token_t; m_a : list Z; m_v0 : Z }.

(** The message queue (include/queue.h): [start] is written by the owner,
    [msg_tsx] by the kernel; its top half is the head. *)
Record queue_part := mk_queue {
  q_start : Z;
  queue_mask : Z;
  msg_tsx : Z;
  q_msg : list msg_t
}.

(** [sync_add] is the addend of the current indirection; [alloc_block] tells
    whether there is a block for new ones and [next_block] is the length of
    the reservation after it. *)
Record sync_part := mk_sync {
  sync_token : Z;
  sync_condition : Z;
  sync_add : Z;
  alloc_block : bool;
  next_block : option Z;
  allocs_taken : Z;
  allocs_max : Z
}.

Definition set_condition (c : Z) (y : sync_part) : sync_part :=
  mk_sync (sync_token y) c (sync_add y) (alloc_block y) (next_block y) (allocs_taken y) (allocs_max y).
Definition set_token (t : Z) (y : sync_part) : sync_part :=
  mk_sync t (sync_condition y) (sync_add y) (alloc_block y) (next_block y) (allocs_taken y) (allocs_max y).

Record act_t := mk_act {
  status : Z;
  name_is_idle : bool;
  a_sched : sched_part;
  a_queue : queue_part;
  a_sync : sync_part;
  a_ret : ret_t;
  semaphore_next_waiter : option Z
}.

Definition with_sched (f : sched_part -> sched_part) (a : act_t) : act_t :=
  mk_act (status a) (name_is_idle a) (f (a_sched a)) (a_queue a) (a_sync a) (a_ret a)
         (semaphore_next_waiter a).
Definition with_queue (f : queue_part -> queue_part) (a : act_t) : act_t :=
  mk_act (status a) (name_is_idle a) (a_sched a) (f (a_queue a)) (a_sync a) (a_ret a)
         (semaphore_next_waiter a).
Definition with_sync (f : sync_part -> sync_part) (a : act_t) : act_t :=
  mk_act (status a) (name_is_idle a) (a_sched a) (a_queue a) (f (a_sync a)) (a_ret a)
         (semaphore_next_waiter a).
Definition with_ret (r : ret_t) (a : act_t) : act_t :=
  mk_act (status a) (name_is_idle a) (a_sched a) (a_queue a) (a_sync a) r
         (semaphore_next_waiter a).
Definition with_status (s : Z) (a : act_t) : act_t :=
  mk_act s (name_is_idle a) (a_sched a) (a_queue a) (a_sync a) (a_ret a)
         (semaphore_next_waiter a).
Definition with_next_waiter (w : option Z) (a : act_t) : act_t :=
  mk_act (status a) (name_is_idle a) (a_sched a) (a_queue a) (a_sync a) (a_ret a) w.

Definition set_v1 (v : Z) (a : act_t) : act_t :=
  with_ret (mk_ret (r_c3 (a_ret a)) (r_v0 (a_ret a)) v) a.

(** Updates of the scheduling part. *)
Definition set_queued (st ndx : Z) (s : sched_part) : sched_part :=
  mk_sched (priority s) st (woke_from s) (pool_id s) ndx (early_notify s)
    (commit_early_notify s) (is_idle s) (timeout_start s) (timeout_length s) (timeout_indx s).
Definition set_ndx (ndx : Z) (s : sched_part) : sched_part := set_queued (sched_status s) ndx s.
Definition set_sched_status (st : Z) (s : sched_part) : sched_part := set_queued st (queue_ndx s) s.
Definition set_priority (p : Z) (s : sched_part) : sched_part :=
  mk_sched p (sched_status s) (woke_from s) (pool_id s) (queue_ndx s) (early_notify s)
    (commit_early_notify s) (is_idle s) (timeout_start s) (timeout_length s) (timeout_indx s).
Definition set_woke (w : Z) (s : sched_part) : sched_part :=
  mk_sched (priority s) (sched_status s) w (pool_id s) (queue_ndx s) (early_notify s)
    (commit_early_notify s) (is_idle s) (timeout_start s) (timeout_length s) (timeout_indx s).
Definition set_notify (en ce : bool) (s : sched_part) : sched_part :=
  mk_sched (priority s) (sched_status s) (woke_from s) (pool_id s) (queue_ndx s) en
    ce (is_idle s) (timeout_start s) (timeout_length s) (timeout_indx s).
Definition set_timeout (start len indx : Z) (s : sched_part) : sched_part :=
  mk_sched (priority s) (sched_status s) (woke_from s) (pool_id s) (queue_ndx s) (early_notify s)
    (commit_early_notify s) (is_idle s) start len indx.
Definition set_home (pool prio : Z) (idle : bool) (s : sched_part) : sched_part :=
  mk_sched prio (sched_status s) (woke_from s) pool (queue_ndx s) (early_notify s)
    (commit_early_notify s) idle (timeout_start s) (timeout_length s) (timeout_indx s).

(** ** Scheduler pools (cherios/kernel/include/sched.h) *)

Record sched_q := mk_q {
  act_queue_current : Z;
  act_queue_end : Z;
  queue_ctr : Z;
  act_queue : list (option Z)
}.

Record sched_pool := mk_pool {
  idle_act : option Z;
  current_act : option Z;
  in_queues : Z;
  queues : list sched_q
}.

(** ** The kernel *)

Record interrupt_register := mk_int {
  i_target : option Z;
  i_v0 : Z;
  i_carg : Z;
  i_arg : Z
}.

(** [now] is what [get_high_res_time] gives, [cpu] the executing core;
    [hw_mask] is the state of the interrupt controller of each core. *)
Record kernel := mk_kernel {
  acts : gmap Z act_t;
  pools : list sched_pool;
  sleeps : list (option Z);
  idles_registered : Z;
  event_ref : option Z;
  now : Z;
  cpu : Z;
  int_child : list interrupt_register;
  masks : list Z;
  disabled : list bool;
  hw_mask : list Z
}.

Definition set_acts (k : kernel) (x : gmap Z act_t) : kernel :=
  mk_kernel x (pools k) (sleeps k) (idles_registered k) (event_ref k) (now k) (cpu k)
    (int_child k) (masks k) (disabled k) (hw_mask k).
Definition set_pools (k : kernel) (x : list sched_pool) : kernel :=
  mk_kernel (acts k) x (sleeps k) (idles_registered k) (event_ref k) (now k) (cpu k)
    (int_child k) (masks k) (disabled k) (hw_mask k).
Definition set_sleeps (k : kernel) (x : list (option Z)) : kernel :=
  mk_kernel (acts k) (pools k) x (idles_registered k) (event_ref k) (now k) (cpu k)
    (int_child k) (masks k) (disabled k) (hw_mask k).
Definition set_idles (k : kernel) (x : Z) : kernel :=
  mk_kernel (acts k) (pools k) (sleeps k) x (event_ref k) (now k) (cpu k)
    (int_child k) (masks k) (disabled k) (hw_mask k).
Definition set_ints (k : kernel) (x : list interrupt_register) (m : list Z) (d : list bool)
    (h : list Z) : kernel :=
  mk_kernel (acts k) (pools k) (sleeps k) (idles_registered k) (event_ref k) (now k) (cpu k)
    x m d h.

(** ** Operations that may stop the kernel *)

Definition K (A : Type) : Type := kernel -> option (A * kernel).

#[global] Instance K_ret : MRet K := fun A x k => Some (x, k).
#[global] Instance K_bind : MBind K :=
  fun A B f m k => match m k with Some (x, k) => f x k | None => None end.

Definition gets {A} (f : kernel -> A) : K A := fun k => Some (f k, k).
Definition modify (f : kernel -> kernel) : K unit := fun k => Some (tt, f k).
Definition lift {A} (x : option A) : K A := fun k => (fun x => (x, k)) <$> x.

(** [kernel_assert]. *)
Definition kassert (b : bool) : K unit := fun k => if b then Some (tt, k) else None.
Definition kpanic {A} : K A := fun k => None.

(** [a->...]: a dangling pointer traps. *)
Definition deref (a : Z) : K act_t := fun k => (fun x => (x, k)) <$> acts k !! a.
Definition upd (a : Z) (f : act_t -> act_t) : K unit :=
  fun k => (fun x => (tt, set_acts k (<[a := f x]> (acts k)))) <$> acts k !! a.
Definition upd_sched (a : Z) (f : sched_part -> sched_part) : K unit := upd a (with_sched f).

Definition sched_of (a : Z) : K sched_part := x ← deref a; mret (a_sched x).

Definition get_pool (p : Z) : K sched_pool := fun k => (fun x => (x, k)) <$> zget (pools k) p.
Definition put_pool (p : Z) (x : sched_pool) : K unit :=
  fun k => (fun ps => (tt, set_pools k ps)) <$> zput (pools k) p x.

(** Run when a condition holds. *)
Definition when (b : bool) (m : K unit) : K unit := if b then m else mret tt.

(** [msg_queue_empty]. *)
Definition TRANS_N (x : Z) : Z := Z.land x 65535.
Definition TRANS_F (x : Z) : Z := Z.land (Z.shiftr x 16) 65535.
Definition TRANS_HD (x : Z) : Z := Z.shiftr x 32.

Definition msg_queue_empty (a : act_t) : bool := q_start (a_queue a) =? TRANS_HD (msg_tsx (a_queue a)).
