(* ===== verification/Sched.v ===== *)
(** * The scheduler and the sleep queue (sched.c, timer.c)

    Each core has a pool of five priority queues.  An activation that can run
    sits in the queue of its pool and priority; one that is blocked is in
    none, and in a slot of the sleep array when it has a timeout. *)

From S2P Require Import Prelude Kernel.

(** ** Queues *)

Definition get_queue (pool : sched_pool) (l : Z) : K sched_q := lift (zget (queues pool) l).

Definition put_queue (p : Z) (pool : sched_pool) (l : Z) (q : sched_q) (inq : Z) : K unit :=
  qs ← lift (zput (queues pool) l q);
  put_pool p (mk_pool (idle_act pool) (current_act pool) inq qs).

Definition add_act_to_queue (p a set_to : Z) : K unit :=
  s ← sched_of a;
  pool ← get_pool p;
  q ← get_queue pool (LEVEL_TO_NDX (priority s));
  _ ← kassert (negb (act_queue_end q =? SCHED_QUEUE_LENGTH));
  _ ← kassert (negb (is_idle s));
  let index := act_queue_end q in
  arr ← lift (zput (act_queue q) index (Some a));
  _ ← put_queue p pool (LEVEL_TO_NDX (priority s))
        (mk_q (act_queue_current q) (u8 (index + 1)) (queue_ctr q) arr)
        (u64 (in_queues pool + 1));
  upd_sched a (set_queued set_to (u8 index)).

(** What is done under [queue_lock]: the last element takes the place of the
    one removed.  The queue and the index were read before the lock was taken. *)
Definition delete_locked (p a set_to level index : Z) : K unit :=
  pool ← get_pool p;
  q ← get_queue pool level;
  cur ← lift (zget (act_queue q) index);
  _ ← kassert (bool_decide (cur = Some a));
  let last := u8 (act_queue_end q - 1) in
  moved ← lift (zget (act_queue q) last);
  b ← lift moved;
  arr ← lift (zput (act_queue q) index moved);
  _ ← upd_sched b (set_ndx (u8 index));
  arr ← lift (zput arr last None);
  _ ← put_queue p pool level (mk_q (act_queue_current q) last (queue_ctr q) arr) (u64 (in_queues pool - 1));
  upd_sched a (set_queued set_to (u8 (-1))).

Definition delete_act_from_queue (p a set_to : Z) : K unit :=
  s ← sched_of a;
  _ ← kassert (negb (is_idle s));
  delete_locked p a set_to (LEVEL_TO_NDX (priority s)) (queue_ndx s).

(** ** Creation, deletion, priorities *)

Definition queue0 : sched_q := mk_q 0 0 0 (replicate 31 None).
Definition pool0 : sched_pool := mk_pool None None 0 (replicate SCHED_PRIO_LEVELS queue0).

(** The queue entries themselves are not cleared by [sched_init]: they start
    as zeroed globals. *)
Definition sched_init (k : kernel) : kernel := set_pools k (replicate (length (pools k)) pool0).

(** The part of [sched_create] for an activation named [idle.elf]; on cores
    other than the first the idle activation starts running at once. *)
Definition create_idle (a : Z) : K unit :=
  i ← gets idles_registered;
  pool ← get_pool i;
  _ ← upd_sched a (fun s => set_sched_status sched_runnable (set_home i PRIO_IDLE true s));
  _ ← put_pool i (mk_pool (Some a) (current_act pool) (in_queues pool) (queues pool));
  _ ← (if negb (i =? 0) then
         _ ← upd_sched a (set_sched_status sched_running);
         _ ← kassert (bool_decide (current_act pool = None));
         put_pool i (mk_pool (Some a) (Some a) (in_queues pool) (queues pool))
       else mret tt);
  modify (fun k => set_idles k (u8 (i + 1))).

Definition sched_create (p a prio : Z) : K unit :=
  _ ← upd_sched a (fun s => set_home (pool_id s) prio false s);
  x ← deref a;
  if status x =? status_alive then
    if name_is_idle x then create_idle a
    else
      _ ← upd_sched a (fun s => set_home p (priority s) (is_idle s) s);
      add_act_to_queue p a sched_runnable
  else upd_sched a (set_sched_status sched_terminated).

Definition sched_change_prio (a new_prio : Z) : K unit :=
  s ← sched_of a;
  if negb (priority s =? new_prio) then
    if sched_status s <=? sched_running then
      _ ← delete_act_from_queue (pool_id s) a (sched_status s);
      _ ← upd_sched a (set_priority new_prio);
      add_act_to_queue (pool_id s) a (sched_status s)
    else upd_sched a (set_priority new_prio)
  else mret tt.

(** ** Sleepers (timer.c) *)

Definition kernel_timer_start_count (a : Z) : K unit :=
  t ← gets now;
  upd_sched a (fun s => set_timeout t (timeout_length s) (timeout_indx s) s).

(** The first free slot from index [i]. *)
Fixpoint free_slot (sl : list (option Z)) (i : Z) : option Z :=
  match sl with
  | [] => None
  | None :: _ => Some i
  | Some _ :: sl => free_slot sl (i + 1)
  end.

Definition kernel_timer_subscribe (a timeout : Z) : K unit :=
  _ ← kernel_timer_start_count a;
  _ ← upd_sched a (fun s => set_timeout (timeout_start s) timeout (timeout_indx s) s);
  sl ← gets sleeps;
  i ← lift (free_slot sl 0);
  sl ← lift (zput sl i (Some a));
  _ ← modify (fun k => set_sleeps k sl);
  upd_sched a (fun s => set_timeout (timeout_start s) (timeout_length s) i s).

Definition kernel_timer_unsubscribe (a : Z) : K unit :=
  s ← sched_of a;
  sl ← gets sleeps;
  x ← lift (zget sl (timeout_indx s));
  _ ← kassert (bool_decide (x = Some a));
  sl ← lift (zput sl (timeout_indx s) None);
  modify (fun k => set_sleeps k sl).

(** ** Picking the next activation *)

(** The scan from the highest level: every sixteenth visit of a level that
    has activations passes on to the next lower one.  The counters of the
    visited levels advance. *)
Fixpoint pick_level (n : nat) (index found : Z) (qs : list sched_q) : option (Z * Z * list sched_q) :=
  match n with
  | O => None
  | S n =>
      if index =? LEVEL_TO_NDX PRIO_LOW then Some (index, found, qs)
      else
        q ← zget qs index;
        if act_queue_end q =? 0 then pick_level n (index - 1) found qs
        else
          qs' ← zput qs index (mk_q (act_queue_current q) (act_queue_end q)
                                 (u8 (queue_ctr q + 1)) (act_queue q));
          if Z.land (queue_ctr q) (SCHED_PRIO_FACTOR - 1) =? 0
          then pick_level n (index - 1) index qs'
          else Some (index, index, qs')
  end.

Definition sched_picknext (p : Z) : K (option Z) :=
  pool ← get_pool p;
  if in_queues pool =? 0 then mret (idle_act pool)
  else
    '(index, found, qs) ← lift (pick_level SCHED_PRIO_LEVELS (LEVEL_TO_NDX PRIO_IO)
                                  (LEVEL_TO_NDX PRIO_IDLE) (queues pool));
    q ← lift (zget qs index);
    let index := if act_queue_end q =? 0 then found else index in
    q ← lift (zget qs index);
    _ ← kassert (negb (act_queue_end q =? 0));
    let c := (act_queue_current q + 1) mod act_queue_end q in
    qs ← lift (zput qs index (mk_q c (act_queue_end q) (queue_ctr q) (act_queue q)));
    _ ← put_pool p (mk_pool (idle_act pool) (current_act pool) (in_queues pool) qs);
    e ← lift (zget (act_queue q) c);
    a ← lift e;
    s ← sched_of a;
    _ ← kassert (LEVEL_TO_NDX (priority s) =? index);
    _ ← kassert ((sched_status s =? sched_runnable) || (sched_status s =? sched_running));
    _ ← when (has (priority s) PRIO_IO)
          (_ ← delete_act_from_queue p a (sched_status s);
           _ ← upd_sched a (set_priority (Z.land (priority s) (Z.lnot PRIO_IO)));
           add_act_to_queue p a (sched_status s));
    mret (Some a).

(** ** Switching *)

Definition sched_deschedule (a : Z) : K unit :=
  s ← sched_of a;
  when (sched_status s =? sched_running) (upd_sched a (set_sched_status sched_runnable)).

Definition sched_schedule (p a : Z) : K unit :=
  s ← sched_of a;
  _ ← kassert (sched_status s =? sched_runnable);
  _ ← upd_sched a (set_sched_status sched_running);
  pool ← get_pool p;
  put_pool p (mk_pool (idle_act pool) (Some a) (in_queues pool) (queues pool)).

(** The hint is taken when it can run on this core. *)
Definition take_hint (p : Z) (hint : option Z) : K (option Z) :=
  match hint with
  | None => mret None
  | Some h =>
      s ← sched_of h;
      mret (if negb (pool_id s =? p) || negb (sched_status s =? sched_runnable) then None else Some h)
  end.

(** What the core does next: the context switch itself is the nanokernel's. *)
Definition sched_reschedule (hint : option Z) : K unit :=
  p ← gets cpu;
  pool ← get_pool p;
  h ← take_hint p hint;
  n ← match h with Some _ => mret h | None => sched_picknext p end;
  to ← lift n;
  if bool_decide (Some to = current_act pool) then mret tt
  else
    from ← lift (current_act pool);
    _ ← sched_deschedule from;
    sched_schedule p to.

Definition sched_got_int (a cpu_id : Z) : K unit :=
  s ← sched_of a;
  pool ← get_pool cpu_id;
  c ← lift (current_act pool);
  sc ← sched_of c;
  when ((pool_id s =? cpu_id) && negb (priority sc =? PRIO_IO) && (sched_status s =? sched_runnable))
    (sched_reschedule (Some a)).

Definition sched_delete (a : Z) : K unit :=
  p ← gets cpu;
  s ← sched_of a;
  let deleted_running := sched_status s =? sched_running in
  let own := pool_id s =? p in
  _ ← kassert (own || negb deleted_running);
  _ ← when ((sched_status s =? sched_runnable) || (sched_status s =? sched_running))
        (delete_act_from_queue (pool_id s) a sched_terminated);
  _ ← upd_sched a (set_sched_status sched_terminated);
  when (deleted_running && own) (sched_reschedule None).

(** ** Events *)

Definition sched_block (a st : Z) : K unit :=
  _ ← kassert (sched_waiting <=? st);
  s ← sched_of a;
  if (sched_status s =? sched_runnable) || (sched_status s =? sched_running)
  then delete_act_from_queue (pool_id s) a st
  else upd_sched a (set_sched_status st).

(** The result register of the fast path. *)
Definition fast_res (ev : Z) (x : act_t) : act_t :=
  if has ev (Z.lor sched_wait_notify sched_wait_timeout) then set_v1 FAST_RES_TIME x
  else if has ev sched_waiting then set_v1 FAST_RES_POP x else x.

Definition sched_receive_event (a events : Z) : K unit :=
  x ← deref a;
  let s := a_sched x in
  let events :=
    if has (Z.land (sched_status s) sched_waiting) events && msg_queue_empty x
    then Z.land events (Z.lnot sched_waiting) else events in
  _ ← when (has events sched_sync_block)
        (_ ← kassert (sync_condition (a_sync x) =? 1);
         upd a (with_sync (set_condition 0)));
  let cause := Z.land (sched_status s) events in
  if negb (cause =? 0) then
    _ ← upd a (fast_res cause);
    _ ← upd_sched a (set_woke cause);
    _ ← when (has (sched_status s) sched_wait_timeout) (kernel_timer_unsubscribe a);
    add_act_to_queue (pool_id s) a sched_runnable
  else
    upd_sched a (fun s => set_notify (early_notify s || has events sched_wait_notify)
                            (commit_early_notify s || has events sched_wait_commit) s).

(** Events already there when the activation asks to block. *)
Definition pending_events (x : act_t) (events : Z) : Z :=
  let s := a_sched x in
  Z.lor (if has events sched_sync_block && (sync_condition (a_sync x) =? 0) then sched_sync_block else 0)
  (Z.lor (if has events sched_waiting && negb (msg_queue_empty x) then sched_waiting else 0)
  (Z.lor (if has events sched_wait_commit && commit_early_notify s then sched_wait_commit else 0)
         (if has events sched_wait_notify && early_notify s then sched_wait_notify else 0))).

(** The critical section of [sched_block_until_event], under the lock of the
    activation: the events already there, or the activation is blocked. *)
Definition block_critical (act : option Z) (events timeout : Z) : K (Z * Z) :=
  p ← gets cpu;
  pool ← get_pool p;
  a ← lift (match act with Some _ => act | None => current_act pool end);
  let events := if 0 <? timeout then Z.lor events sched_wait_timeout else events in
  x ← deref a;
  let got := pending_events x events in
  _ ← when (has events sched_wait_notify && early_notify (a_sched x))
        (upd_sched a (fun s => set_notify false (commit_early_notify s) s));
  _ ← kassert (negb (has events sched_sem));
  _ ← when (got =? 0)
        (_ ← (if 0 <? timeout then kernel_timer_subscribe a timeout else kernel_timer_start_count a);
         _ ← sched_block a events;
         upd_sched a (fun s => set_priority (Z.lor (priority s) PRIO_IO) s));
  mret (a, got).

(** [true] when the activation blocked and the core went on to another. *)
Definition sched_block_until_event (act next_hint : option Z) (events timeout : Z) : K bool :=
  '(a, got) ← block_critical act events timeout;
  if got =? 0 then
    _ ← sched_reschedule next_hint;
    mret true
  else
    _ ← upd a (fast_res got);
    _ ← upd_sched a (set_woke got);
    mret false.

(** ** The timer interrupt *)

(** Wake the sleepers whose time is up; a sleeper that seems to have started
    in the future is left alone. *)
Fixpoint check_sleepers (n : nat) (i : Z) : K unit :=
  match n with
  | O => mret tt
  | S n =>
      sl ← gets sleeps;
      e ← lift (zget sl i);
      _ ← match e with
          | None => mret tt
          | Some a =>
              s ← sched_of a;
              t ← gets now;
              let waited := u64 (t - timeout_start s) in
              if signed 64 waited <? 0 then mret tt
              else when (timeout_length s <? waited) (sched_receive_event a sched_wait_timeout)
          end;
      check_sleepers n (i + 1)
  end.

Definition kernel_timer : K unit :=
  _ ← check_sleepers MAX_WAITERS 0;
  sched_reschedule None.
