(* ===== verification/SchedInv.v ===== *)
(** * The scheduler's invariant

    The queues hold exactly the activations that can run, each at the place
    its record names; a running activation is the current one of its pool;
    the sleep array holds exactly the activations with a timeout, and those
    that were terminated while they had one.  [wf ex sx] exempts the
    activation [ex] from being queued and [sx] from the sleep array, for the
    states inside an operation. *)

From S2P Require Import Prelude Kernel Sched.

(** ** Reasoning about operations that may stop *)

Lemma bindS {A B} (m : K A) (f : A -> K B) k x k' :
  m k = Some (x, k') -> (m ≫= f) k = f x k'.
Proof. intros E; unfold mbind, K_bind; by rewrite E. Qed.

Lemma bindN {A B} (m : K A) (f : A -> K B) k : m k = None -> (m ≫= f) k = None.
Proof. intros E; unfold mbind, K_bind; by rewrite E. Qed.

Lemma bind_inv {A B} (m : K A) (f : A -> K B) k r :
  (m ≫= f) k = Some r -> exists x k', m k = Some (x, k') /\ f x k' = Some r.
Proof.
  unfold mbind, K_bind; destruct (m k) as [[x k']|]; [|done]; intros H; by exists x, k'.
Qed.

(** Take the next step of an operation that does not stop. *)
Ltac kstep E := rewrite (bindS _ _ _ _ _ E).
Ltac kinv H := apply bind_inv in H as (? & ? & ? & H).

Lemma deref_ok k a x : acts k !! a = Some x -> deref a k = Some (x, k).
Proof. intros E; unfold deref; by rewrite E. Qed.

Lemma sched_of_ok k a x : acts k !! a = Some x -> sched_of a k = Some (a_sched x, k).
Proof. intros E; unfold sched_of; by rewrite (bindS _ _ _ _ _ (deref_ok k a x E)). Qed.

Lemma get_pool_ok k p pool : zget (pools k) p = Some pool -> get_pool p k = Some (pool, k).
Proof. intros E; unfold get_pool; by rewrite E. Qed.

Lemma lift_ok {A} (x : A) k : lift (Some x) k = Some (x, k).
Proof. done. Qed.

Lemma kassert_ok b k : b = true -> kassert b k = Some (tt, k).
Proof. by intros ->. Qed.

Lemma upd_ok k a x f : acts k !! a = Some x -> upd a f k = Some (tt, set_acts k (<[a := f x]> (acts k))).
Proof. intros E; unfold upd; by rewrite E. Qed.

Lemma put_pool_ok k p pool ps :
  zput (pools k) p pool = Some ps -> put_pool p pool k = Some (tt, set_pools k ps).
Proof. intros E; unfold put_pool; by rewrite E. Qed.

(** ** The invariant *)

Definition can_run (s : sched_part) : Prop :=
  sched_status s = sched_runnable \/ sched_status s = sched_running.

Definition queue_at (k : kernel) (p l : Z) : option sched_q :=
  pool ← zget (pools k) p; zget (queues pool) l.

Definition here (s : sched_part) (p l i : Z) : Prop :=
  pool_id s = p /\ LEVEL_TO_NDX (priority s) = l /\ queue_ndx s = i /\ can_run s /\ is_idle s = false.

Definition queued (k : kernel) (a : Z) (s : sched_part) : Prop :=
  exists q, queue_at k (pool_id s) (LEVEL_TO_NDX (priority s)) = Some q /\
    0 <= queue_ndx s < act_queue_end q /\ zget (act_queue q) (queue_ndx s) = Some (Some a).

Definition sum_ends (qs : list sched_q) : Z := foldr (fun q n => act_queue_end q + n) 0 qs.
#[global] Arguments sum_ends : simpl never.

Definition queue_wf (ex : option Z) (k : kernel) (p l : Z) (q : sched_q) : Prop :=
  length (act_queue q) = 31%nat /\ 0 <= act_queue_end q <= 31 /\
  forall i, 0 <= i < act_queue_end q ->
    exists a x, zget (act_queue q) i = Some (Some a) /\ acts k !! a = Some x /\
      here (a_sched x) p l i /\ Some a <> ex.

Definition pool_wf (k : kernel) (p : Z) (pool : sched_pool) : Prop :=
  length (queues pool) = 5%nat /\ in_queues pool = sum_ends (queues pool) /\
  (forall a, idle_act pool = Some a ->
     exists x, acts k !! a = Some x /\ is_idle (a_sched x) = true /\ pool_id (a_sched x) = p) /\
  (forall a, current_act pool = Some a ->
     exists x, acts k !! a = Some x /\ pool_id (a_sched x) = p).

Definition act_wf (ex : option Z) (k : kernel) (a : Z) (s : sched_part) : Prop :=
  (0 <= priority s < 8 /\ 0 <= sched_status s) /\
  (exists pool, zget (pools k) (pool_id s) = Some pool /\
     (sched_status s = sched_running -> current_act pool = Some a) /\
     (is_idle s = true -> idle_act pool = Some a)) /\
  (is_idle s = true -> can_run s /\ Some a <> ex) /\
  (can_run s -> is_idle s = false -> Some a <> ex -> queued k a s).

Definition sleeps_wf (sx : option Z) (k : kernel) : Prop :=
  length (sleeps k) = MAX_WAITERS /\
  (forall i a, zget (sleeps k) i = Some (Some a) ->
     exists x, acts k !! a = Some x /\ timeout_indx (a_sched x) = i /\
       (has (sched_status (a_sched x)) sched_wait_timeout = true \/
        sched_status (a_sched x) = sched_terminated \/ Some a = sx)) /\
  (forall a x, acts k !! a = Some x -> Some a <> sx ->
     has (sched_status (a_sched x)) sched_wait_timeout = true ->
     zget (sleeps k) (timeout_indx (a_sched x)) = Some (Some a)).

Record wf (ex sx : option Z) (k : kernel) : Prop := {
  wf_queue : forall p l q, queue_at k p l = Some q -> queue_wf ex k p l q;
  wf_pool : forall p pool, zget (pools k) p = Some pool -> pool_wf k p pool;
  wf_act : forall a x, acts k !! a = Some x -> act_wf ex k a (a_sched x);
  wf_sleeps : sleeps_wf sx k
}.

(** ** Generic facts *)

Lemma sum_ends_zput qs l q q' qs' :
  zget qs l = Some q -> zput qs l q' = Some qs' ->
  sum_ends qs' = sum_ends qs - act_queue_end q + act_queue_end q'.
Proof.
  intros Hg [Hl ->]%zput_Some; unfold zget in Hg; destruct_if; [|done].
  revert Hg; generalize (Z.to_nat l) as n; clear; induction qs as [|x qs IH]; intros [|n] Hg; try done.
  - injection Hg as ->; unfold sum_ends; cbn; lia.
  - specialize (IH n Hg); change (act_queue_end x + sum_ends (<[n:=q']> qs) =
      act_queue_end x + sum_ends qs - act_queue_end q + act_queue_end q'); lia.
Qed.

Lemma sum_ends_ge qs l q :
  Forall (fun q => 0 <= act_queue_end q) qs -> zget qs l = Some q ->
  0 <= act_queue_end q <= sum_ends qs.
Proof.
  intros Hf Hg; unfold zget in Hg; destruct_if; [|done].
  revert Hg; generalize (Z.to_nat l) as n; clear -Hf; induction Hf as [|x qs Hx Hqs IH]; intros [|n] Hg; try done;
    change (sum_ends (x :: qs)) with (act_queue_end x + sum_ends qs).
  - injection Hg as ->.
    assert (0 <= sum_ends qs) by (clear -Hqs; induction Hqs; [done|]; unfold sum_ends in *; cbn; lia); lia.
  - specialize (IH n Hg); lia.
Qed.

Lemma LEVEL_range p : 0 <= p < 8 -> 0 <= LEVEL_TO_NDX p < 5.
Proof. unfold LEVEL_TO_NDX, PRIO_IO; destruct (Z.ltb_spec 4 p); lia. Qed.

Lemma queue_at_pool k p l q :
  queue_at k p l = Some q <-> exists pool, zget (pools k) p = Some pool /\ zget (queues pool) l = Some q.
Proof. unfold queue_at; apply bind_Some. Qed.

Lemma zget_zput {A} (l : list A) i x l' j :
  zput l i x = Some l' -> zget l' j = if j =? i then Some x else zget l j.
Proof.
  intros H; destruct (Z.eqb_spec j i) as [->|Hne];
    [by apply zget_zput_eq in H|by apply (zget_zput_ne _ _ _ _ _ H), not_eq_sym].
Qed.

(** The queue of a well-formed activation exists. *)
Lemma queue_exists ex sx k a x :
  wf ex sx k -> acts k !! a = Some x ->
  exists pool q, zget (pools k) (pool_id (a_sched x)) = Some pool /\
    zget (queues pool) (LEVEL_TO_NDX (priority (a_sched x))) = Some q.
Proof.
  intros Hwf Ha; destruct (wf_act _ _ _ Hwf a x Ha) as ((Hp & _) & (pool & Hpool & _) & _).
  destruct (wf_pool _ _ _ Hwf _ _ Hpool) as (Hl & _).
  destruct (zget_is_Some (queues pool) (LEVEL_TO_NDX (priority (a_sched x)))) as [q Hq].
  { rewrite Hl; pose proof (LEVEL_range _ Hp); lia. }
  by exists pool, q.
Qed.

(** Changing only an exempt activation, in its record, keeps the rest. *)
Lemma wf_open ex sx k a x :
  wf ex sx k -> ex = None -> acts k !! a = Some x -> is_idle (a_sched x) = false ->
  ~ can_run (a_sched x) -> wf (Some a) sx k.
Proof.
  intros Hwf -> Ha Hi Hr; split; [| |intros b y Hb|apply (wf_sleeps _ _ _ Hwf)].
  - intros p l q Hq; destruct (wf_queue _ _ _ Hwf p l q Hq) as (Hl & He & Hent).
    split_and!; [done|lia|lia|]; intros i Hi'; destruct (Hent i Hi') as (b & y & Hg & Hb & Hh & _).
    exists b, y; split_and!; try done; intros [= ->].
    rewrite Ha in Hb; injection Hb as <-; by apply Hr, Hh.
  - apply (wf_pool _ _ _ Hwf).
  - destruct (wf_act _ _ _ Hwf b y Hb) as (H1 & H2 & H3 & H4); split_and!; try done; try lia.
    + intros Hidle; destruct (H3 Hidle) as [? _]; split; [done|]; intros [= ->]; congruence.
    + intros Hc Hidle _; by apply H4.
Qed.

Lemma wf_close sx k a x :
  wf (Some a) sx k -> acts k !! a = Some x -> ~ can_run (a_sched x) -> wf None sx k.
Proof.
  intros Hwf Ha Hr; split; [| |intros b y Hb|apply (wf_sleeps _ _ _ Hwf)].
  - intros p l q Hq; destruct (wf_queue _ _ _ Hwf p l q Hq) as (Hl & He & Hent).
    split_and!; [done|lia|lia|]; intros i Hi'; destruct (Hent i Hi') as (b & y & Hg & Hb & Hh & _).
    by exists b, y.
  - apply (wf_pool _ _ _ Hwf).
  - destruct (wf_act _ _ _ Hwf b y Hb) as (H1 & H2 & H3 & H4); split_and!; try done; try lia.
    + intros Hidle; destruct (H3 Hidle) as [? _]; done.
    + intros Hc Hidle _; apply H4; try done; intros [= ->]; congruence.
Qed.

(** Two kernels that differ only in queues and activations. *)
Record frame (k k' : kernel) : Prop := {
  fr_cores : forall p, (fun x => (idle_act x, current_act x)) <$> zget (pools k') p =
                       (fun x => (idle_act x, current_act x)) <$> zget (pools k) p;
  fr_sleeps : sleeps k' = sleeps k;
  fr_cpu : cpu k' = cpu k;
  fr_now : now k' = now k;
  fr_event : event_ref k' = event_ref k
}.

Lemma frame_refl k : frame k k.
Proof. by split. Qed.

Lemma frame_trans k1 k2 k3 : frame k1 k2 -> frame k2 k3 -> frame k1 k3.
Proof. intros [] []; split; [intros p|..]; etrans; eauto. Qed.

Lemma frame_pool k k' p pool :
  frame k k' -> zget (pools k) p = Some pool ->
  exists pool', zget (pools k') p = Some pool' /\ idle_act pool' = idle_act pool /\
    current_act pool' = current_act pool.
Proof.
  intros [Hc _ _ _ _] Hp; specialize (Hc p); rewrite Hp in Hc.
  destruct (zget (pools k') p) as [pool'|]; [|done]; cbn in Hc.
  exists pool'; by injection Hc.
Qed.

(** The core clause of [act_wf]. *)
Lemma core_frame k k' a s :
  frame k k' ->
  (exists pool, zget (pools k) (pool_id s) = Some pool /\
     (sched_status s = sched_running -> current_act pool = Some a) /\
     (is_idle s = true -> idle_act pool = Some a)) ->
  exists pool, zget (pools k') (pool_id s) = Some pool /\
     (sched_status s = sched_running -> current_act pool = Some a) /\
     (is_idle s = true -> idle_act pool = Some a).
Proof.
  intros Hf (pool & Hp & H1 & H2); destruct (frame_pool _ _ _ _ Hf Hp) as (pool' & Hp' & E1 & E2).
  exists pool'; by rewrite E1, E2.
Qed.

Lemma frame_acts k m : frame k (set_acts k m).
Proof. by split. Qed.

(** The records keep what places an activation on a core. *)
Definition same_home (m m' : gmap Z act_t) : Prop :=
  forall a x, m !! a = Some x -> exists x', m' !! a = Some x' /\
    is_idle (a_sched x') = is_idle (a_sched x) /\ pool_id (a_sched x') = pool_id (a_sched x).

Lemma same_home_insert m a x x' :
  m !! a = Some x -> is_idle (a_sched x') = is_idle (a_sched x) ->
  pool_id (a_sched x') = pool_id (a_sched x) -> same_home m (<[a := x']> m).
Proof.
  intros Ha H1 H2 b y Hb; destruct (decide (b = a)) as [->|Hne].
  - exists x'; rewrite lookup_insert_eq; rewrite Ha in Hb; by injection Hb as <-.
  - exists y; by rewrite lookup_insert_ne.
Qed.

Lemma same_home_trans m1 m2 m3 : same_home m1 m2 -> same_home m2 m3 -> same_home m1 m3.
Proof.
  intros H1 H2 a x Ha; destruct (H1 a x Ha) as (y & Hy & <- & <-); by apply H2.
Qed.

Section QueueUpdate.
Context (k : kernel) (p l : Z) (pool : sched_pool) (q q' : sched_q) (n : Z).
Context (qs : list sched_q) (ps : list sched_pool) (m : gmap Z act_t).
Context (Hpool : zget (pools k) p = Some pool) (Hq : zget (queues pool) l = Some q).
Context (Hqs : zput (queues pool) l q' = Some qs).
Context (Hps : zput (pools k) p (mk_pool (idle_act pool) (current_act pool) n qs) = Some ps).

Let k' : kernel := set_acts (set_pools k ps) m.

Lemma qu_pool p' :
  zget (pools k') p' =
  if p' =? p then Some (mk_pool (idle_act pool) (current_act pool) n qs) else zget (pools k) p'.
Proof. cbn; by apply zget_zput. Qed.

Lemma qu_queue_at p' l' :
  queue_at k' p' l' = if (p' =? p) && (l' =? l) then Some q' else queue_at k p' l'.
Proof.
  unfold queue_at; rewrite qu_pool; destruct (Z.eqb_spec p' p) as [->|]; [|done].
  rewrite Hpool; cbn; by apply zget_zput.
Qed.

Lemma qu_frame : frame k k'.
Proof.
  split; [|done..]; intros p'; rewrite qu_pool; destruct (Z.eqb_spec p' p) as [->|]; [|done].
  by rewrite Hpool.
Qed.

Lemma qu_wf_pool :
  (forall p' x, zget (pools k) p' = Some x -> pool_wf k p' x) ->
  n = in_queues pool - act_queue_end q + act_queue_end q' -> same_home (acts k) m ->
  forall p' x, zget (pools k') p' = Some x -> pool_wf k' p' x.
Proof.
  intros Hwf Hn Hh p' x; rewrite qu_pool; intros Hx.
  assert (Hkeep : forall p x, pool_wf k p x -> forall i c,
    (i = idle_act x) -> c = current_act x ->
    (forall a, i = Some a -> exists y, m !! a = Some y /\ is_idle (a_sched y) = true /\ pool_id (a_sched y) = p) /\
    (forall a, c = Some a -> exists y, m !! a = Some y /\ pool_id (a_sched y) = p)).
  { intros r y (_ & _ & H1 & H2) i c -> ->; split; intros a Ha.
    - destruct (H1 a Ha) as (z & Hz & <- & <-); by apply Hh.
    - destruct (H2 a Ha) as (z & Hz & <-); destruct (Hh a z Hz) as (z' & ? & _ & ?); eauto. }
  destruct (Z.eqb_spec p' p) as [->|].
  - injection Hx as <-; pose proof (Hwf p pool Hpool) as Hp.
    destruct (Hkeep _ _ Hp _ _ eq_refl eq_refl) as [H1 H2]; destruct Hp as (Hl & Hi & _).
    split_and!; cbn; try done; [by rewrite (zput_length _ _ _ _ Hqs)|].
    rewrite (sum_ends_zput _ _ _ _ _ Hq Hqs); lia.
  - pose proof (Hwf p' x Hx) as Hp; destruct (Hkeep _ _ Hp _ _ eq_refl eq_refl) as [H1 H2].
    by destruct Hp as (Hl & Hi & _).
Qed.
End QueueUpdate.

Lemma wf_queues_bound ex sx k p pool :
  wf ex sx k -> zget (pools k) p = Some pool -> Forall (fun q => 0 <= act_queue_end q <= 31) (queues pool).
Proof.
  intros Hwf Hp; apply Forall_lookup_2; intros i q Hq.
  assert (Hz : zget (queues pool) (Z.of_nat i) = Some q).
  { unfold zget; rewrite Nat2Z.id; by destruct (Z.leb_spec 0 (Z.of_nat i)); [|lia]. }
  destruct (wf_queue _ _ _ Hwf p (Z.of_nat i) q) as (_ & H & _); [|done].
  apply queue_at_pool; eauto.
Qed.

Lemma wf_in_queues ex sx k p pool :
  wf ex sx k -> zget (pools k) p = Some pool -> 0 <= in_queues pool <= 155.
Proof.
  intros Hwf Hp; pose proof (wf_queues_bound _ _ _ _ _ Hwf Hp) as Hb.
  destruct (wf_pool _ _ _ Hwf _ _ Hp) as (Hl & -> & _).
  assert (G : 0 <= sum_ends (queues pool) <= 31 * Z.of_nat (length (queues pool))); [|rewrite Hl in G; lia].
  clear Hl; induction Hb; unfold sum_ends in *; cbn [foldr length]; lia.
Qed.

(** Changing the record of one activation in the sleep array's view. *)
Definition asleep (k : kernel) (a : Z) : Prop := exists i, zget (sleeps k) i = Some (Some a).

Definition sleeps_change (sx : option Z) (k : kernel) (a : Z) (s s' : sched_part) : Prop :=
  (timeout_indx s' = timeout_indx s \/ ~ asleep k a) /\
  (sched_status s' = sched_status s \/ Some a = sx \/ sched_status s' = sched_terminated \/
   (has (sched_status s') sched_wait_timeout = false /\ ~ asleep k a)).

Lemma sleeps_upd sx k k' a x x' :
  sleeps_wf sx k -> acts k !! a = Some x -> acts k' = <[a := x']> (acts k) -> sleeps k' = sleeps k ->
  sleeps_change sx k a (a_sched x) (a_sched x') -> sleeps_wf sx k'.
Proof.
  intros (Hl & H1 & H2) Ha Hk Hs [Ht Hst]; unfold sleeps_wf; rewrite Hk, Hs; split_and!; [done| |].
  - intros i b Hb; destruct (H1 i b Hb) as (y & Hy & Hi & Hc).
    destruct (decide (b = a)) as [->|Hne]; [|exists y; by rewrite lookup_insert_ne].
    assert (Hasl : asleep k a) by (by exists i).
    rewrite Ha in Hy; injection Hy as <-; exists x'; rewrite lookup_insert_eq.
    destruct Ht as [-> |]; [|done]; split_and!; [done..|].
    destruct Hst as [->|[->|[->|[_ ?]]]]; [done|by right; right|by right; left|done].
  - intros b y Hb Hne Hh; destruct (decide (b = a)) as [->|Hba].
    + rewrite lookup_insert_eq in Hb; injection Hb as <-.
      destruct Hst as [E|[E|[E|[E _]]]]; [|congruence|by rewrite E in Hh|congruence].
      rewrite E in Hh; pose proof (H2 a x Ha Hne Hh) as Hz.
      destruct Ht as [-> |Hn]; [done|destruct Hn; by eexists].
    + rewrite lookup_insert_ne in Hb by done; by apply H2.
Qed.

Lemma not_asleep sx k a x :
  sleeps_wf sx k -> acts k !! a = Some x -> Some a <> sx -> can_run (a_sched x) ->
  ~ asleep k a.
Proof.
  intros (_ & H1 & _) Ha Hsx Hr [i Hi]; destruct (H1 i a Hi) as (y & Hy & _ & Hc).
  rewrite Ha in Hy; injection Hy as <-.
  destruct Hr as [E|E]; rewrite E in Hc; by destruct Hc as [Hc|[Hc|Hc]].
Qed.

(** ** Adding to a queue *)

Lemma put_queue_ok k p pool l q q' n :
  zget (pools k) p = Some pool -> zget (queues pool) l = Some q ->
  exists qs ps, zput (queues pool) l q' = Some qs /\
    zput (pools k) p (mk_pool (idle_act pool) (current_act pool) n qs) = Some ps /\
    put_queue p pool l q' n k = Some (tt, set_pools k ps).
Proof.
  intros Hp Hq; apply zget_Some_range in Hq.
  pose proof (zput_is_Some _ _ q' Hq) as Hqs; set (qs := <[_ := q']> (queues pool)) in Hqs.
  apply zget_Some_range in Hp.
  pose proof (zput_is_Some _ _ (mk_pool (idle_act pool) (current_act pool) n qs) Hp) as Hps.
  eexists qs, _; split_and!; [done..|]; unfold put_queue; rewrite Hqs; kstep (lift_ok qs k).
  by apply put_pool_ok.
Qed.

Lemma add_run k a x pool q st :
  acts k !! a = Some x -> is_idle (a_sched x) = false ->
  zget (pools k) (pool_id (a_sched x)) = Some pool ->
  zget (queues pool) (LEVEL_TO_NDX (priority (a_sched x))) = Some q ->
  length (act_queue q) = 31%nat -> 0 <= act_queue_end q < 31 -> 0 <= in_queues pool <= 155 ->
  exists arr qs ps, zput (act_queue q) (act_queue_end q) (Some a) = Some arr /\
    zput (queues pool) (LEVEL_TO_NDX (priority (a_sched x)))
      (mk_q (act_queue_current q) (act_queue_end q + 1) (queue_ctr q) arr) = Some qs /\
    zput (pools k) (pool_id (a_sched x))
      (mk_pool (idle_act pool) (current_act pool) (in_queues pool + 1) qs) = Some ps /\
    add_act_to_queue (pool_id (a_sched x)) a st k =
      Some (tt, set_acts (set_pools k ps) (<[a := with_sched (set_queued st (act_queue_end q)) x]> (acts k))).
Proof.
  intros Ha Hi Hp Hq Hlen Hend Hin.
  pose proof (zput_is_Some (act_queue q) (act_queue_end q) (Some a) ltac:(lia)) as Harr.
  destruct (put_queue_ok k _ _ _ _ (mk_q (act_queue_current q) (act_queue_end q + 1) (queue_ctr q)
    (<[Z.to_nat (act_queue_end q):=Some a]> (act_queue q))) (in_queues pool + 1) Hp Hq)
    as (qs & ps & Hqs & Hps & Hput).
  eexists _, qs, ps; split_and!; [done..|].
  unfold add_act_to_queue; kstep (sched_of_ok _ _ _ Ha); kstep (get_pool_ok _ _ _ Hp).
  unfold get_queue; rewrite Hq; kstep (lift_ok q k).
  rewrite (bindS _ _ k tt k) by (apply kassert_ok; unfold SCHED_QUEUE_LENGTH; zbool; lia).
  rewrite (bindS _ _ k tt k) by (by apply kassert_ok; rewrite Hi).
  rewrite Harr, !(wrap_small _ (act_queue_end q)), !(wrap_small _ (_ + 1)) by (unfold in_range; lia).
  kstep (lift_ok (<[Z.to_nat (act_queue_end q):=Some a]> (act_queue q)) k); kstep Hput.
  by apply (upd_ok (set_pools k ps)).
Qed.

Section AddQueue.
Context (sx : option Z) (k : kernel) (a : Z) (x : act_t) (pool : sched_pool) (q : sched_q) (st : Z).
Context (arr : list (option Z)) (qs : list sched_q) (ps : list sched_pool).
Notation p := (pool_id (a_sched x)).
Notation l := (LEVEL_TO_NDX (priority (a_sched x))).
Notation q' := (mk_q (act_queue_current q) (act_queue_end q + 1) (queue_ctr q) arr).
Notation m := (<[a := with_sched (set_queued st (act_queue_end q)) x]> (acts k)).
Notation k' := (set_acts (set_pools k ps) m).
Context (Hwf : wf (Some a) sx k) (Ha : acts k !! a = Some x) (Hi : is_idle (a_sched x) = false).
Context (Hp : zget (pools k) p = Some pool) (Hq : zget (queues pool) l = Some q).
Context (He : act_queue_end q < 31).
Context (Hst : st = sched_runnable \/ (st = sched_running /\ current_act pool = Some a)).
Context (Harr : zput (act_queue q) (act_queue_end q) (Some a) = Some arr).
Context (Hqs : zput (queues pool) l q' = Some qs).
Context (Hps : zput (pools k) p (mk_pool (idle_act pool) (current_act pool) (in_queues pool + 1) qs) = Some ps).

Let Hqa : queue_at k p l = Some q.
Proof. apply queue_at_pool; eauto. Qed.

Let Hqat := qu_queue_at k p l pool q' _ qs ps m Hp Hqs Hps.
Let Hfr := qu_frame k p pool _ qs ps m Hp Hps.

Lemma add_wf_queue p' l' q2 : queue_at k' p' l' = Some q2 -> queue_wf None k' p' l' q2.
Proof.
  rewrite Hqat; destruct_if.
  - intros [= <-]; assert (p' = p /\ l' = l) as [-> ->] by lia.
    destruct (wf_queue _ _ _ Hwf _ _ _ Hqa) as (Hlen & Hend & Hent).
    split_and!; cbn; [by rewrite (zput_length _ _ _ _ Harr)|lia..|]; intros i Hii.
    rewrite (zget_zput _ _ _ _ i Harr); destruct (Z.eqb_spec i (act_queue_end q)) as [->|Hne].
    + eexists a, _; split_and!; [done|apply lookup_insert_eq|..|done].
      split_and!; try done; destruct Hst as [->|[-> _]]; unfold can_run; cbn; auto.
    + destruct (Hent i ltac:(lia)) as (b & y & ? & ? & ? & Hb); exists b, y; split_and!; try done.
      rewrite lookup_insert_ne; congruence.
  - intros Hq'; destruct (wf_queue _ _ _ Hwf _ _ _ Hq') as (? & ? & Hent'); split_and!; [done|lia..|].
    intros i Hii; destruct (Hent' i Hii) as (b & y & ? & ? & ? & Hb); exists b, y; split_and!; try done.
    cbn; rewrite lookup_insert_ne; congruence.
Qed.

Lemma add_wf_self : act_wf None k' a (set_queued st (act_queue_end q) (a_sched x)).
Proof.
  destruct (wf_act _ _ _ Hwf a x Ha) as (H1 & H2 & H3 & H4); split_and!; cbn; try lia.
  - destruct Hst as [->|[-> _]]; done.
  - destruct H2 as (pool2 & Hp2 & _ & Hidle); rewrite Hp in Hp2; injection Hp2 as <-.
    destruct (frame_pool _ _ _ _ Hfr Hp) as (pool' & Hp' & E1 & E2).
    exists pool'; rewrite E1, E2; split_and!; [done|intros ->; by destruct Hst as [|[_ ?]]|done].
  - intros Hi'; congruence.
  - destruct (wf_queue _ _ _ Hwf _ _ _ Hqa) as (_ & Hend & _).
    intros _ _ _; unfold queued; cbn; rewrite Hqat, !Z.eqb_refl; eexists; split_and!; [done|cbn; lia..|].
    cbn; rewrite (zget_zput _ _ _ _ _ Harr), Z.eqb_refl; done.
Qed.

Lemma add_wf_other b y : b <> a -> acts k !! b = Some y -> act_wf None k' b (a_sched y).
Proof.
  intros Hne Hb; destruct (wf_act _ _ _ Hwf b y Hb) as (H1 & H2 & H3 & H4); split_and!; try lia.
  - by apply (core_frame _ _ _ _ Hfr).
  - intros Hib; by destruct (H3 Hib).
  - intros Hc Hib _; destruct (H4 Hc Hib ltac:(congruence)) as (qb & Hqb & Hnb & Hgb).
    unfold queued; rewrite Hqat; destruct_if; [|by exists qb].
    assert (pool_id (a_sched y) = p /\ LEVEL_TO_NDX (priority (a_sched y)) = l) as [E1 E2] by lia.
    rewrite E1, E2, Hqa in Hqb; injection Hqb as <-.
    eexists; split_and!; [done|cbn; lia..|].
    cbn; rewrite (zget_zput _ _ _ _ _ Harr); destruct_if; [lia|done].
Qed.

Lemma add_wf :
  sleeps_change sx k a (a_sched x) (set_queued st (act_queue_end q) (a_sched x)) -> wf None sx k'.
Proof.
  intros Hsl; split.
  - apply add_wf_queue.
  - apply (qu_wf_pool k _ _ _ _ _ _ _ _ m Hp Hq Hqs Hps); [apply (wf_pool _ _ _ Hwf)|cbn; lia|].
    by apply (same_home_insert _ _ _ _ Ha).
  - intros b y Hb; cbn in Hb; destruct (decide (b = a)) as [->|Hne].
    + rewrite lookup_insert_eq in Hb; injection Hb as <-; apply add_wf_self.
    + rewrite lookup_insert_ne in Hb by done; by apply add_wf_other.
  - by apply (sleeps_upd sx k _ a x (with_sched (set_queued st (act_queue_end q)) x) (wf_sleeps _ _ _ Hwf) Ha).
Qed.
End AddQueue.

Lemma add_ok sx k a x pool q st :
  wf (Some a) sx k -> acts k !! a = Some x -> is_idle (a_sched x) = false ->
  zget (pools k) (pool_id (a_sched x)) = Some pool ->
  zget (queues pool) (LEVEL_TO_NDX (priority (a_sched x))) = Some q ->
  act_queue_end q < 31 ->
  st = sched_runnable \/ (st = sched_running /\ current_act pool = Some a) ->
  sleeps_change sx k a (a_sched x) (set_queued st (act_queue_end q) (a_sched x)) ->
  exists k', add_act_to_queue (pool_id (a_sched x)) a st k = Some (tt, k') /\ wf None sx k' /\
    frame k k' /\ acts k' = <[a := with_sched (set_queued st (act_queue_end q)) x]> (acts k).
Proof.
  intros Hwf Ha Hi Hp Hq He Hst Hsl.
  destruct (wf_queue _ _ _ Hwf (pool_id (a_sched x)) (LEVEL_TO_NDX (priority (a_sched x))) q)
    as (Hlen & Hend & _); [apply queue_at_pool; eauto|].
  pose proof (wf_in_queues _ _ _ _ _ Hwf Hp) as Hin.
  destruct (add_run k a x pool q st) as (arr & qs & ps & Harr & Hqs & Hps & Hrun); try done; [lia|].
  eexists; split_and!; [exact Hrun|by apply (add_wf sx k a x pool q st arr qs ps)| |done].
  exact (qu_frame k _ _ _ _ _ _ Hp Hps).
Qed.

(** A full queue stops the kernel, as does an idle activation. *)
Lemma add_full k a x pool q st :
  acts k !! a = Some x -> zget (pools k) (pool_id (a_sched x)) = Some pool ->
  zget (queues pool) (LEVEL_TO_NDX (priority (a_sched x))) = Some q ->
  act_queue_end q = 31 \/ is_idle (a_sched x) = true ->
  add_act_to_queue (pool_id (a_sched x)) a st k = None.
Proof.
  intros Ha Hp Hq He; unfold add_act_to_queue; kstep (sched_of_ok _ _ _ Ha); kstep (get_pool_ok _ _ _ Hp).
  unfold get_queue; rewrite Hq; kstep (lift_ok q k).
  unfold kassert, mbind, K_bind, SCHED_QUEUE_LENGTH.
  destruct He as [->| ->]; [done|]; by destruct (negb _).
Qed.

(** ** Removing from a queue *)

(** What [wf] says of a queued activation: its place, and that of the last
    one of the queue. *)
Lemma queued_facts ex sx k a x :
  wf ex sx k -> acts k !! a = Some x -> is_idle (a_sched x) = false -> can_run (a_sched x) -> Some a <> ex ->
  exists pool q b y, zget (pools k) (pool_id (a_sched x)) = Some pool /\
    zget (queues pool) (LEVEL_TO_NDX (priority (a_sched x))) = Some q /\
    length (act_queue q) = 31%nat /\ 0 <= queue_ndx (a_sched x) < act_queue_end q /\ act_queue_end q <= 31 /\
    zget (act_queue q) (queue_ndx (a_sched x)) = Some (Some a) /\
    zget (act_queue q) (act_queue_end q - 1) = Some (Some b) /\ acts k !! b = Some y /\
    here (a_sched y) (pool_id (a_sched x)) (LEVEL_TO_NDX (priority (a_sched x))) (act_queue_end q - 1) /\
    1 <= in_queues pool <= 155 /\ Some b <> ex.
Proof.
  intros Hwf Ha Hi Hr Hex; destruct (wf_act _ _ _ Hwf a x Ha) as (_ & _ & _ & H4).
  destruct (H4 Hr Hi Hex) as (q & Hqa & Hn & Hg).
  destruct (wf_queue _ _ _ Hwf _ _ _ Hqa) as (Hlen & Hend & Hent).
  destruct (Hent (act_queue_end q - 1) ltac:(lia)) as (b & y & Hb & Hy & Hh & Hbx).
  apply queue_at_pool in Hqa as (pool & Hp & Hq); exists pool, q, b, y.
  pose proof (wf_in_queues _ _ _ _ _ Hwf Hp) as Hin.
  assert (act_queue_end q <= in_queues pool).
  { destruct (wf_pool _ _ _ Hwf _ _ Hp) as (_ & -> & _); eapply sum_ends_ge; [|done].
    eapply Forall_impl; [by eapply wf_queues_bound|]; cbn; lia. }
  split_and!; try done; lia.
Qed.

Lemma del_run k a x pool q b y st :
  acts k !! a = Some x -> is_idle (a_sched x) = false ->
  zget (pools k) (pool_id (a_sched x)) = Some pool ->
  zget (queues pool) (LEVEL_TO_NDX (priority (a_sched x))) = Some q ->
  length (act_queue q) = 31%nat -> 0 <= queue_ndx (a_sched x) < act_queue_end q -> act_queue_end q <= 31 ->
  zget (act_queue q) (queue_ndx (a_sched x)) = Some (Some a) ->
  zget (act_queue q) (act_queue_end q - 1) = Some (Some b) -> acts k !! b = Some y ->
  1 <= in_queues pool <= 155 ->
  exists arr arr' qs ps, zput (act_queue q) (queue_ndx (a_sched x)) (Some b) = Some arr /\
    zput arr (act_queue_end q - 1) None = Some arr' /\
    zput (queues pool) (LEVEL_TO_NDX (priority (a_sched x)))
      (mk_q (act_queue_current q) (act_queue_end q - 1) (queue_ctr q) arr') = Some qs /\
    zput (pools k) (pool_id (a_sched x))
      (mk_pool (idle_act pool) (current_act pool) (in_queues pool - 1) qs) = Some ps /\
    delete_act_from_queue (pool_id (a_sched x)) a st k =
      Some (tt, set_acts (set_pools k ps)
        (<[a := with_sched (set_queued st 255) x]>
          (<[b := with_sched (set_ndx (queue_ndx (a_sched x))) y]> (acts k)))).
Proof.
  intros Ha Hi Hp Hq Hlen Hn Hend Hga Hgb Hb Hin.
  pose proof (zput_is_Some (act_queue q) (queue_ndx (a_sched x)) (Some b) ltac:(lia)) as Harr.
  set (arr := <[_ := _]> (act_queue q)) in Harr.
  pose proof (zput_is_Some arr (act_queue_end q - 1) None
    ltac:(rewrite (zput_length _ _ _ _ Harr); lia)) as Harr'.
  set (k1 := set_acts k (<[b := with_sched (set_ndx (queue_ndx (a_sched x))) y]> (acts k))).
  destruct (put_queue_ok k1 _ _ _ _ (mk_q (act_queue_current q) (act_queue_end q - 1) (queue_ctr q)
    (<[Z.to_nat (act_queue_end q - 1):=None]> arr)) (in_queues pool - 1) Hp Hq)
    as (qs & ps & Hqs & Hps & Hput).
  eexists _, _, qs, ps; split_and!; [done..|].
  unfold delete_act_from_queue; kstep (sched_of_ok _ _ _ Ha).
  rewrite (bindS _ _ k tt k) by (by apply kassert_ok; rewrite Hi); unfold delete_locked; kstep (get_pool_ok _ _ _ Hp).
  unfold get_queue; rewrite Hq; kstep (lift_ok q k).
  rewrite Hga; kstep (lift_ok (Some a) k).
  rewrite (bindS _ _ k tt k) by (apply kassert_ok; by apply bool_decide_true).
  rewrite !(wrap_small _ (_ - 1)), !(wrap_small _ (queue_ndx _)), Hgb by (unfold in_range; lia).
  kstep (lift_ok (Some b) k); kstep (lift_ok b k); rewrite Harr; kstep (lift_ok arr k).
  unfold upd_sched at 1; kstep (upd_ok k b y (with_sched (set_ndx (queue_ndx (a_sched x)))) Hb); fold k1.
  rewrite Harr'; kstep (lift_ok (<[Z.to_nat (act_queue_end q - 1):=None]> arr) k1); kstep Hput.
  destruct (decide (a = b)) as [<-|Hne].
  - rewrite Ha in Hb; injection Hb as <-.
    unfold upd_sched; rewrite (upd_ok _ _ (with_sched (set_ndx (queue_ndx (a_sched x))) x)); [done|].
    apply lookup_insert_eq.
  - unfold upd_sched; rewrite (upd_ok _ _ x); [done|]; cbn; by rewrite lookup_insert_ne.
Qed.

Section DelQueue.
Context (sx : option Z) (k : kernel) (a b : Z) (x y : act_t) (pool : sched_pool) (q : sched_q) (st : Z).
Context (arr arr' : list (option Z)) (qs : list sched_q) (ps : list sched_pool).
Notation p := (pool_id (a_sched x)).
Notation l := (LEVEL_TO_NDX (priority (a_sched x))).
Notation ndx := (queue_ndx (a_sched x)).
Notation last := (act_queue_end q - 1).
Notation q' := (mk_q (act_queue_current q) last (queue_ctr q) arr').
Notation m := (<[a := with_sched (set_queued st 255) x]> (<[b := with_sched (set_ndx ndx) y]> (acts k))).
Notation k' := (set_acts (set_pools k ps) m).
Context (Hwf : wf None sx k) (Ha : acts k !! a = Some x) (Hi : is_idle (a_sched x) = false).
Context (Hp : zget (pools k) p = Some pool) (Hq : zget (queues pool) l = Some q).
Context (Hn : 0 <= ndx < act_queue_end q).
Context (Hga : zget (act_queue q) ndx = Some (Some a)) (Hgb : zget (act_queue q) last = Some (Some b)).
Context (Hb : acts k !! b = Some y) (Hh : here (a_sched y) p l last).
Context (Hst : st = sched_running -> sched_status (a_sched x) = sched_running) (Hst0 : 0 <= st).
Context (Harr : zput (act_queue q) ndx (Some b) = Some arr).
Context (Harr' : zput arr last None = Some arr').
Context (Hqs : zput (queues pool) l q' = Some qs).
Context (Hps : zput (pools k) p (mk_pool (idle_act pool) (current_act pool) (in_queues pool - 1) qs) = Some ps).

Let Hqa : queue_at k p l = Some q.
Proof. apply queue_at_pool; eauto. Qed.

Let Hqat := qu_queue_at k p l pool q' _ qs ps m Hp Hqs Hps.
Let Hfr := qu_frame k p pool _ qs ps m Hp Hps.

Lemma del_arr i : i < last -> zget arr' i = if i =? ndx then Some (Some b) else zget (act_queue q) i.
Proof.
  intros Hl; rewrite (zget_zput _ _ _ _ i Harr'), (zget_zput _ _ _ _ i Harr).
  destruct (Z.eqb_spec i last); [lia|done].
Qed.

(** The last one is the one removed exactly when it stands at the end. *)
Lemma del_last_same : a = b <-> ndx = last.
Proof.
  split; [intros <-|intros E; rewrite E in Hga; congruence].
  rewrite Ha in Hb; injection Hb as <-; symmetry; by destruct Hh as (_ & _ & -> & _).
Qed.

(** Other activations keep their records. *)
Lemma del_lookup c z : c <> a -> c <> b -> acts k !! c = Some z -> m !! c = Some z.
Proof. intros H1 H2 Hc; by rewrite !lookup_insert_ne. Qed.

Lemma del_wf_queue p' l' q2 : queue_at k' p' l' = Some q2 -> queue_wf (Some a) k' p' l' q2.
Proof.
  rewrite Hqat; destruct_if.
  - intros [= <-]; assert (p' = p /\ l' = l) as [-> ->] by lia.
    destruct (wf_queue _ _ _ Hwf _ _ _ Hqa) as (Hlen & Hend & Hent); split_and!; cbn; [|lia..|].
    { by rewrite (zput_length _ _ _ _ Harr'), (zput_length _ _ _ _ Harr). }
    intros i Hii; rewrite del_arr by lia; destruct (Z.eqb_spec i ndx) as [->|Hne].
    + assert (a <> b) by (rewrite del_last_same; lia).
      eexists b, _; split_and!; [done|rewrite lookup_insert_ne by done; apply lookup_insert_eq|..|congruence].
      by destruct Hh as (? & ? & _ & ? & ?).
    + destruct (Hent i ltac:(lia)) as (c & z & Hc & Hz & Hhc & _); exists c, z.
      assert (c <> a) by (intros ->; rewrite Ha in Hz; injection Hz as <-; by destruct Hhc as (_ & _ & ? & _)).
      assert (c <> b).
      { intros ->; rewrite Hb in Hz; injection Hz as <-; destruct Hhc as (_ & _ & ? & _), Hh as (_ & _ & ? & _); lia. }
      split_and!; try done; [by apply del_lookup|congruence].
  - intros Hq'; destruct (wf_queue _ _ _ Hwf _ _ _ Hq') as (? & ? & Hent'); split_and!; [done|lia..|].
    intros i Hii; destruct (Hent' i Hii) as (c & z & Hc & Hz & Hhc & _); exists c, z.
    assert (c <> a) by (intros ->; rewrite Ha in Hz; injection Hz as <-; destruct Hhc as (? & ? & _); lia).
    assert (c <> b).
    { intros ->; rewrite Hb in Hz; injection Hz as <-; destruct Hhc as (? & ? & _), Hh as (? & ? & _); lia. }
    split_and!; try done; [by apply del_lookup|congruence].
Qed.

Lemma del_wf_self : act_wf (Some a) k' a (set_queued st 255 (a_sched x)).
Proof.
  destruct (wf_act _ _ _ Hwf a x Ha) as (H1 & H2 & H3 & H4); split_and!; cbn; try lia; try done.
  - apply (core_frame k k' a (set_queued st 255 (a_sched x)) Hfr); destruct H2 as (pool2 & Hp2 & Hr & Hidle); exists pool2; split_and!; auto.
  - intros E; congruence.
Qed.

Lemma del_wf_moved : a <> b -> act_wf (Some a) k' b (set_ndx ndx (a_sched y)).
Proof.
  intros Hab; destruct (wf_act _ _ _ Hwf b y Hb) as (H1 & H2 & H3 & H4); split_and!; cbn; try lia.
  - apply (core_frame k k' b (set_ndx ndx (a_sched y)) Hfr); destruct H2 as (pool2 & Hp2 & Hr & Hidle); exists pool2; split_and!; auto.
  - intros Hib; destruct (H3 Hib); split; [done|congruence].
  - intros _ _ _; destruct Hh as (E1 & E2 & E3 & _); unfold queued; cbn.
    assert (ndx <> last) by (rewrite <- del_last_same; done).
    rewrite Hqat, E1, E2, !Z.eqb_refl; eexists; split_and!; [done|cbn; lia..|].
    cbn; rewrite del_arr by lia; by rewrite Z.eqb_refl.
Qed.

Lemma del_wf_other c z : c <> a -> c <> b -> acts k !! c = Some z -> act_wf (Some a) k' c (a_sched z).
Proof.
  intros Hca Hcb Hc; destruct (wf_act _ _ _ Hwf c z Hc) as (H1 & H2 & H3 & H4); split_and!; try lia.
  - by apply (core_frame _ _ _ _ Hfr).
  - intros Hib; destruct (H3 Hib); split; [done|congruence].
  - intros Hr Hic _; destruct (H4 Hr Hic ltac:(done)) as (qc & Hqc & Hnc & Hgc).
    unfold queued; rewrite Hqat; destruct_if; [|by exists qc].
    assert (pool_id (a_sched z) = p /\ LEVEL_TO_NDX (priority (a_sched z)) = l) as [E1 E2] by lia.
    rewrite E1, E2, Hqa in Hqc; injection Hqc as <-.
    assert (queue_ndx (a_sched z) <> ndx) by (intros En; rewrite En in Hgc; congruence).
    assert (queue_ndx (a_sched z) <> last) by (intros En; rewrite En in Hgc; congruence).
    eexists; split_and!; [done|cbn; lia..|].
    cbn; rewrite del_arr by lia; by destruct (Z.eqb_spec (queue_ndx (a_sched z)) ndx).
Qed.

Lemma del_wf_sleeps :
  Some a = sx \/ has st sched_wait_timeout = false -> can_run (a_sched x) -> sleeps_wf sx k'.
Proof.
  intros Hsl Hr; set (k1 := set_acts k (<[b := with_sched (set_ndx ndx) y]> (acts k))).
  assert (Hk1 : sleeps_wf sx k1).
  { apply (sleeps_upd sx k _ b y (with_sched (set_ndx ndx) y) (wf_sleeps _ _ _ Hwf) Hb); [done..|].
    split; by left. }
  assert (exists x1, acts k1 !! a = Some x1 /\ timeout_indx (a_sched x1) = timeout_indx (a_sched x) /\
    sched_status (a_sched x1) = sched_status (a_sched x)) as (x1 & Hx1 & E1 & E2).
  { destruct (decide (a = b)) as [<-|Hne]; [|by exists x; cbn; rewrite lookup_insert_ne].
    eexists; split_and!; [apply lookup_insert_eq|rewrite Ha in Hb; by injection Hb as <-..]. }
  apply (sleeps_upd sx k1 _ a x1 (with_sched (set_queued st 255) x) Hk1 Hx1); [done..|].
  split; [by left; rewrite E1|right]; destruct (decide (Some a = sx)) as [|Hsx]; [by left|right; right].
  split; [by destruct Hsl|]; apply (not_asleep sx k1 a x1 Hk1 Hx1 Hsx).
  unfold can_run; by rewrite E2.
Qed.

Lemma del_wf :
  Some a = sx \/ has st sched_wait_timeout = false ->
  can_run (a_sched x) -> wf (Some a) sx k'.
Proof.
  intros Hsl Hr; split.
  - apply del_wf_queue.
  - apply (qu_wf_pool k _ _ _ _ _ _ _ _ m Hp Hq Hqs Hps); [apply (wf_pool _ _ _ Hwf)|cbn; lia|].
    apply (same_home_trans _ (<[b := with_sched (set_ndx ndx) y]> (acts k))).
    + by apply (same_home_insert _ _ _ _ Hb).
    + destruct (decide (a = b)) as [<-|Hne].
      * apply (same_home_insert _ _ (with_sched (set_ndx ndx) y)); [apply lookup_insert_eq|..];
          rewrite Ha in Hb; by injection Hb as <-.
      * apply (same_home_insert _ _ x); [by rewrite lookup_insert_ne|done..].
  - intros c z Hc; cbn in Hc; destruct (decide (c = a)) as [->|Hca].
    + rewrite lookup_insert_eq in Hc; injection Hc as <-; apply del_wf_self.
    + rewrite lookup_insert_ne in Hc by done; destruct (decide (c = b)) as [->|Hcb].
      * rewrite lookup_insert_eq in Hc; injection Hc as <-; apply del_wf_moved; congruence.
      * rewrite lookup_insert_ne in Hc by done; by apply del_wf_other.
  - by apply del_wf_sleeps.
Qed.
End DelQueue.

Lemma del_ok sx k a x st :
  wf None sx k -> acts k !! a = Some x -> is_idle (a_sched x) = false -> can_run (a_sched x) ->
  (st = sched_running -> sched_status (a_sched x) = sched_running) -> 0 <= st ->
  Some a = sx \/ has st sched_wait_timeout = false ->
  exists k' b y, delete_act_from_queue (pool_id (a_sched x)) a st k = Some (tt, k') /\
    wf (Some a) sx k' /\ frame k k' /\ acts k !! b = Some y /\
    acts k' = <[a := with_sched (set_queued st 255) x]>
                (<[b := with_sched (set_ndx (queue_ndx (a_sched x))) y]> (acts k)) /\
    (forall p l q, queue_at k' p l = Some q ->
       exists q0, queue_at k p l = Some q0 /\ act_queue_end q <= act_queue_end q0).
Proof.
  intros Hwf Ha Hi Hr Hst Hst0 Hsl.
  destruct (queued_facts None sx k a x) as
    (pool & q & b & y & Hp & Hq & Hlen & Hn & He & Hga & Hgb & Hb & Hh & Hin & _); try done.
  destruct (del_run k a x pool q b y st) as (arr & arr' & qs & ps & Harr & Harr' & Hqs & Hps & Hrun); try done.
  eexists _, b, y; split_and!; [exact Hrun| |exact (qu_frame k _ _ _ _ _ _ Hp Hps)|done..|].
  2: { intros p l q2; rewrite (qu_queue_at k _ _ _ _ _ _ _ _ Hp Hqs Hps); destruct_if; [|by exists q2].
       intros [= <-]; exists q; cbn; split; [|lia]; apply queue_at_pool.
       exists pool; by assert (p = pool_id (a_sched x) /\ l = LEVEL_TO_NDX (priority (a_sched x))) as [-> ->] by lia. }
  by apply (del_wf sx k a b x y pool q st arr arr' qs ps).
Qed.

(** An idle activation is in no queue: removing it stops the kernel. *)
Lemma del_idle k a x p st :
  acts k !! a = Some x -> is_idle (a_sched x) = true -> delete_act_from_queue p a st k = None.
Proof.
  intros Ha Hi; unfold delete_act_from_queue; kstep (sched_of_ok _ _ _ Ha); by rewrite Hi.
Qed.
