(* ===== verification/SchedOps.v ===== *)
(** * The scheduler's operations keep its invariant

    Each operation of sched.c and timer.c either leaves a well-formed
    scheduler or stops the kernel for a reason named in its lemma.  From
    these follow: any sequence of operations keeps the invariant; a core
    always finds an activation to run; an event is never lost; the slot of a
    sleeper that is terminated is never given back. *)

From S2P Require Import Prelude Kernel Sched SchedInv.

(** What an operation does: it stops for a reason in [Stop], or ends in [Q]. *)
Definition outcome {A} (r : option (A * kernel)) (Stop : Prop) (Q : A -> kernel -> Prop) : Prop :=
  match r with Some (x, k') => Q x k' | None => Stop end.

Lemma outcome_mono {A} (r : option (A * kernel)) (S S' : Prop) (Q Q' : A -> kernel -> Prop) :
  outcome r S Q -> (S -> S') -> (forall x k, Q x k -> Q' x k) -> outcome r S' Q'.
Proof. destruct r as [[x k]|]; cbn; auto. Qed.

Lemma outcome_bind {A B} (m : K A) (f : A -> K B) k (S S' : Prop) (Q : A -> kernel -> Prop) (R : B -> kernel -> Prop) :
  outcome (m k) S Q -> (S -> S') -> (forall x k', Q x k' -> outcome (f x k') S' R) ->
  outcome ((m ≫= f) k) S' R.
Proof. unfold mbind, K_bind; destruct (m k) as [[x k']|]; cbn; auto. Qed.

(** ** Changes to one record *)

Record act_change (ex sx : option Z) (k : kernel) (a : Z) (s s' : sched_part) : Prop := {
  ac_prio : 0 <= priority s' < 8;
  ac_pool : pool_id s' = pool_id s;
  ac_idle : is_idle s' = is_idle s;
  ac_ndx : queue_ndx s' = queue_ndx s;
  ac_st0 : 0 <= sched_status s';
  ac_run : Some a <> ex -> (can_run s' <-> can_run s) /\
             (can_run s -> is_idle s = false -> LEVEL_TO_NDX (priority s') = LEVEL_TO_NDX (priority s));
  ac_cur : sched_status s' = sched_running ->
             sched_status s = sched_running \/
             exists pool, zget (pools k) (pool_id s) = Some pool /\ current_act pool = Some a;
  ac_sleep : sleeps_change sx k a s s'
}.

Section Change.
Context (ex sx : option Z) (k : kernel) (a : Z) (x x' : act_t).
Context (Hwf : wf ex sx k) (Ha : acts k !! a = Some x).
Context (Hc : act_change ex sx k a (a_sched x) (a_sched x')).
Notation k' := (set_acts k (<[a := x']> (acts k))).

Lemma change_queue p l q : queue_at k' p l = Some q -> queue_wf ex k' p l q.
Proof.
  intros Hq; destruct (wf_queue _ _ _ Hwf p l q Hq) as (H1 & H2 & H3); split_and!; [done|lia..|].
  intros i Hi; destruct (H3 i Hi) as (b & y & Hg & Hb & Hh & Hbx).
  destruct (decide (b = a)) as [->|Hne]; [|exists b, y; cbn; by rewrite lookup_insert_ne].
  rewrite Ha in Hb; injection Hb as <-; exists a, x'; cbn; rewrite lookup_insert_eq; split_and!; try done.
  destruct (ac_run _ _ _ _ _ _ Hc Hbx) as [Hr Hlv]; destruct Hh as (<- & <- & <- & Hrun & Hid).
  split_and!; [apply Hc|by apply Hlv|apply Hc|by apply Hr|by rewrite (ac_idle _ _ _ _ _ _ Hc)].
Qed.

Lemma change_self : act_wf ex k' a (a_sched x').
Proof.
  destruct (wf_act _ _ _ Hwf a x Ha) as (H1 & (pool & Hp & Hcur & Hidl) & H3 & H4).
  destruct Hc as [Cp Cpool Cidle Cndx C0 Crun Ccur _]; split_and!; try done; try lia.
  - exists pool; rewrite Cpool, Cidle; split_and!; try done; intros [E|(pool2 & Hp2 & E)]%Ccur; [auto|congruence].
  - rewrite Cidle; intros E; destruct (H3 E) as [Hr Hx]; split; [by apply Crun|done].
  - rewrite Cidle; intros Hr E Hx; destruct (Crun Hx) as [Hrr Hlv].
    destruct (H4 (proj1 Hrr Hr) E Hx) as (q & Hq & Hn); exists q; rewrite Cpool, Cndx, Hlv; try done; by apply Hrr.
Qed.

Lemma change_wf : wf ex sx k'.
Proof.
  split.
  - apply change_queue.
  - intros p pool Hp; destruct (wf_pool _ _ _ Hwf p pool Hp) as (H1 & H2 & H3 & H4).
    pose proof (same_home_insert _ _ _ x' Ha (ac_idle _ _ _ _ _ _ Hc) (ac_pool _ _ _ _ _ _ Hc)) as Hh.
    split_and!; try done; intros b Hb.
    + destruct (H3 b Hb) as (y & Hy & <- & <-); by apply Hh.
    + destruct (H4 b Hb) as (y & Hy & <-); destruct (Hh b y Hy) as (y' & ? & _ & ?); eauto.
  - intros b y Hb; cbn in Hb; destruct (decide (b = a)) as [->|Hne].
    + rewrite lookup_insert_eq in Hb; injection Hb as <-; apply change_self.
    + rewrite lookup_insert_ne in Hb by done; exact (wf_act _ _ _ Hwf b y Hb).
  - apply (sleeps_upd sx k _ a x x' (wf_sleeps _ _ _ Hwf) Ha); [done..|apply Hc].
Qed.
End Change.

(** A change to nothing the scheduler's structures depend on. *)
Definition quiet (s s' : sched_part) : Prop :=
  priority s' = priority s /\ pool_id s' = pool_id s /\ is_idle s' = is_idle s /\
  queue_ndx s' = queue_ndx s /\ sched_status s' = sched_status s /\ timeout_indx s' = timeout_indx s.

Lemma quiet_change ex sx k a x s' :
  wf ex sx k -> acts k !! a = Some x -> quiet (a_sched x) s' -> act_change ex sx k a (a_sched x) s'.
Proof.
  intros Hwf Ha (E1 & E2 & E3 & E4 & E5 & E6); destruct (wf_act _ _ _ Hwf a x Ha) as ((H1 & H2) & _).
  split; rewrite ?E1, ?E2, ?E3, ?E4, ?E5; try done; [|by left|split; by left].
  intros _; unfold can_run; by rewrite E5.
Qed.

Lemma quiet_wf ex sx k a x x' :
  wf ex sx k -> acts k !! a = Some x -> quiet (a_sched x) (a_sched x') ->
  wf ex sx (set_acts k (<[a := x']> (acts k))).
Proof. intros Hwf Ha Hq; by apply (change_wf _ _ _ _ x), quiet_change. Qed.

(** The other activations, up to their place in a queue. *)
Definition moved (a : Z) (m m' : gmap Z act_t) : Prop :=
  forall c z, c <> a -> m !! c = Some z -> exists n, m' !! c = Some (with_sched (set_ndx n) z).

Lemma set_ndx_same z : with_sched (set_ndx (queue_ndx (a_sched z))) z = z.
Proof. by destruct z as [? ? []]. Qed.

Lemma moved_refl a m : moved a m m.
Proof. intros c z _ Hc; exists (queue_ndx (a_sched z)); by rewrite set_ndx_same. Qed.

Lemma moved_trans a m1 m2 m3 : moved a m1 m2 -> moved a m2 m3 -> moved a m1 m3.
Proof.
  intros H1 H2 c z Hne Hc; destruct (H1 c z Hne Hc) as [n Hn]; destruct (H2 _ _ Hne Hn) as [n' Hn'].
  by exists n'.
Qed.

Lemma moved_insert a m x : moved a m (<[a := x]> m).
Proof. intros c z Hne Hc; rewrite lookup_insert_ne by done; by apply (moved_refl a). Qed.

(** ** Moving between queues *)

Lemma del_moved k a b x y st n :
  acts k !! b = Some y ->
  moved a (acts k) (<[a := with_sched (set_queued st 255) x]> (<[b := with_sched (set_ndx n) y]> (acts k))).
Proof.
  intros Hb c z Hne Hc; rewrite lookup_insert_ne by done; destruct (decide (c = b)) as [->|Hcb].
  - rewrite lookup_insert_eq; rewrite Hb in Hc; injection Hc as <-; by exists n.
  - rewrite lookup_insert_ne by done; by apply (moved_refl a).
Qed.

(** A change to the exempt activation that keeps its status. *)
Lemma exempt_prio sx k a x np :
  wf (Some a) sx k -> acts k !! a = Some x -> 0 <= np < 8 ->
  wf (Some a) sx (set_acts k (<[a := with_sched (set_priority np) x]> (acts k))).
Proof.
  intros Hwf Ha Hnp; apply (change_wf _ _ _ _ x); [done..|].
  destruct (wf_act _ _ _ Hwf a x Ha) as ((H1 & H2) & _); split; cbn; try done; [by left|].
  split; by left.
Qed.

Lemma current_of ex sx k a x :
  wf ex sx k -> acts k !! a = Some x ->
  exists pool, zget (pools k) (pool_id (a_sched x)) = Some pool /\
    (sched_status (a_sched x) = sched_running -> current_act pool = Some a).
Proof. intros Hwf Ha; destruct (wf_act _ _ _ Hwf a x Ha) as (_ & (pool & Hp & Hc & _) & _); eauto. Qed.

(** Adding stops only at a full queue. *)
Lemma add_outcome sx k a x st :
  wf (Some a) sx k -> acts k !! a = Some x -> is_idle (a_sched x) = false ->
  (st = sched_runnable \/ st = sched_running /\ sched_status (a_sched x) = sched_running) ->
  (forall n, sleeps_change sx k a (a_sched x) (set_queued st n (a_sched x))) ->
  outcome (add_act_to_queue (pool_id (a_sched x)) a st k)
    (exists q, queue_at k (pool_id (a_sched x)) (LEVEL_TO_NDX (priority (a_sched x))) = Some q /\ act_queue_end q = 31)
    (fun _ k' => wf None sx k' /\ frame k k' /\ moved a (acts k) (acts k') /\
       exists n, acts k' !! a = Some (with_sched (set_queued st n) x)).
Proof.
  intros Hwf Ha Hi Hst Hsl; destruct (queue_exists _ _ _ _ _ Hwf Ha) as (pool & q & Hp & Hq).
  assert (Hqa : queue_at k (pool_id (a_sched x)) (LEVEL_TO_NDX (priority (a_sched x))) = Some q)
    by (apply queue_at_pool; eauto).
  destruct (wf_queue _ _ _ Hwf _ _ _ Hqa) as (_ & Hend & _).
  destruct (decide (act_queue_end q = 31)) as [He|He].
  { rewrite (add_full k a x pool q st) by eauto; cbn; eauto. }
  destruct (add_ok sx k a x pool q st) as (k' & -> & Hwf' & Hfr & Hacts); try done; [lia| |].
  { destruct Hst as [?|[? Hr]]; [by left|right]; split; [done|].
    destruct (current_of _ _ _ _ _ Hwf Ha) as (pool2 & Hp2 & Hc); rewrite Hp in Hp2; injection Hp2 as <-; auto. }
  cbn; rewrite Hacts; split_and!; try done; [apply moved_insert|].
  exists (act_queue_end q); apply lookup_insert_eq.
Qed.

Lemma move_outcome k a x np :
  wf None None k -> acts k !! a = Some x -> can_run (a_sched x) -> 0 <= np < 8 ->
  outcome ((_ ← delete_act_from_queue (pool_id (a_sched x)) a (sched_status (a_sched x));
            _ ← upd_sched a (set_priority np);
            add_act_to_queue (pool_id (a_sched x)) a (sched_status (a_sched x))) k)
    (is_idle (a_sched x) = true \/
     exists q, queue_at k (pool_id (a_sched x)) (LEVEL_TO_NDX np) = Some q /\ act_queue_end q = 31)
    (fun _ k' => wf None None k' /\ frame k k' /\ moved a (acts k) (acts k') /\
       exists n, acts k' !! a = Some (with_sched (fun s => set_ndx n (set_priority np s)) x)).
Proof.
  intros Hwf Ha Hr Hnp; destruct (is_idle (a_sched x)) eqn:Hi.
  { rewrite bindN; [by left|]; by apply (del_idle _ _ x). }
  destruct (del_ok None k a x (sched_status (a_sched x))) as (k1 & b & y & E1 & Hwf1 & Hf1 & Hb & Hk1 & Hle); try done.
  { by destruct Hr as [->| ->]. }
  { right; by destruct Hr as [->| ->]. }
  rewrite (bindS _ _ _ _ _ E1).
  set (x1 := with_sched (set_queued (sched_status (a_sched x)) 255) x) in *.
  assert (Hx1 : acts k1 !! a = Some x1) by (rewrite Hk1; apply lookup_insert_eq).
  rewrite (bindS _ _ _ _ _ (upd_ok _ _ _ (with_sched (set_priority np)) Hx1)).
  set (x2 := with_sched (set_priority np) x1); set (k2 := set_acts k1 _).
  assert (Hwf2 : wf (Some a) None k2) by (by apply exempt_prio).
  assert (Hx2 : acts k2 !! a = Some x2) by apply lookup_insert_eq.
  eapply outcome_mono; [apply (add_outcome None k2 a x2 (sched_status (a_sched x)) Hwf2 Hx2)|..]; try done.
  - destruct Hr as [E|E]; [by left|by right].
  - intros n; split; by left.
  - intros (q & Hq & He); right; destruct (Hle _ _ _ Hq) as (q0 & Hq0 & Hle0).
    exists q0; split; [done|]; destruct (wf_queue _ _ _ Hwf _ _ _ Hq0) as (_ & ? & _); lia.
  - intros [] k' (Hw & Hf & Hm & n & Hn); split_and!; try done.
    + apply (frame_trans _ k1 _ Hf1), (frame_trans _ k2 _ (frame_acts _ _) Hf).
    + apply (moved_trans _ _ (acts k1)); [rewrite Hk1; by apply del_moved|].
      apply (moved_trans _ _ (acts k2)); [apply moved_insert|done].
    + by exists n.
Qed.

Lemma change_prio_outcome k a x np :
  wf None None k -> acts k !! a = Some x -> 0 <= np < 8 ->
  outcome (sched_change_prio a np k)
    (is_idle (a_sched x) = true \/
     exists q, queue_at k (pool_id (a_sched x)) (LEVEL_TO_NDX np) = Some q /\ act_queue_end q = 31)
    (fun _ k' => wf None None k' /\ frame k k' /\ moved a (acts k) (acts k') /\
       exists n, acts k' !! a = Some (with_sched (fun s => set_ndx n (set_priority np s)) x)).
Proof.
  intros Hwf Ha Hnp; unfold sched_change_prio; rewrite (bindS _ _ _ _ _ (sched_of_ok _ _ _ Ha)).
  destruct (Z.eqb_spec (priority (a_sched x)) np) as [E|E]; cbn [negb].
  { split_and!; [done|apply frame_refl|apply moved_refl|exists (queue_ndx (a_sched x))].
    rewrite Ha, <- E; f_equal; by destruct x as [? ? []]. }
  destruct (wf_act _ _ _ Hwf a x Ha) as ((H1 & H2) & _ & H3 & _).
  destruct (Z.leb_spec (sched_status (a_sched x)) sched_running) as [Hs|Hs]; unfold sched_running in Hs.
  { apply move_outcome; try done; unfold can_run, sched_runnable, sched_running; lia. }
  unfold upd_sched; rewrite (upd_ok _ _ _ _ Ha); cbn.
  assert (Hr : ~ can_run (a_sched x)) by (unfold can_run, sched_runnable, sched_running; lia).
  split_and!; [|apply frame_acts|apply moved_insert|eexists; rewrite lookup_insert_eq; f_equal; by destruct x as [? ? []]].
  apply (change_wf _ _ _ _ x); [done..|]; split; cbn; try done; [by left|split; by left].
Qed.

(** ** Picking a level *)

Definition q_eq (q q' : sched_q) : Prop :=
  act_queue q' = act_queue q /\ act_queue_end q' = act_queue_end q.

#[global] Instance q_eq_equiv : Equivalence q_eq.
Proof.
  split; [by intros q|intros q q' []; by split|intros q1 q2 q3 [] []; split; congruence].
Qed.

Lemma Forall2_zget {A} (R : A -> A -> Prop) l l' i x :
  Forall2 R l l' -> zget l i = Some x -> exists x', zget l' i = Some x' /\ R x x'.
Proof.
  intros Hf; unfold zget; destruct_if; [|done]; intros Hx.
  eapply Forall2_lookup_l; eauto.
Qed.

Lemma Forall2_zput {A} (R : A -> A -> Prop) `{!Reflexive R} `{!Transitive R} l l' i x x' l2 :
  Forall2 R l l' -> zget l i = Some x -> R x x' -> zput l' i x' = Some l2 -> Forall2 R l l2.
Proof.
  intros Hf Hx HR [Hi ->]%zput_Some; apply zget_Some_range in Hx as Hi'; unfold zget in Hx; destruct_if; [|done].
  rewrite <- (list_insert_id l (Z.to_nat i) x Hx); by apply Forall2_insert.
Qed.

(** The scan ends, changes only the counters, and the level it settles on has
    activations when any level has. *)
Definition level_picked (qs : list sched_q) (r : Z * Z * list sched_q) : Prop :=
  let '(index, found, qs') := r in
  Forall2 q_eq qs qs' /\
  exists q, zget qs index = Some q /\
    let c := if act_queue_end q =? 0 then found else index in
    exists qc, zget qs c = Some qc /\
      (act_queue_end qc = 0 -> forall i qi, 0 <= i -> zget qs i = Some qi -> act_queue_end qi = 0).

(** The level remembered during the scan. *)
Definition found_ok (qs : list sched_q) (index found : Z) : Prop :=
  exists qf, zget qs found = Some qf /\
    ((found = 0 /\ forall i qi, index < i -> zget qs i = Some qi -> act_queue_end qi = 0) \/
     act_queue_end qf <> 0).

Lemma pick_level_scan n qs0 qs index found :
  1 <= index <= 4 -> index <= Z.of_nat n -> length qs0 = 5%nat -> Forall2 q_eq qs0 qs ->
  found_ok qs0 index found ->
  exists r, pick_level n index found qs = Some r /\ level_picked qs0 r.
Proof.
  revert index found qs; induction n as [|n IH]; intros index found qs Hi Hn Hl Hf Hfo; [lia|].
  destruct (zget_is_Some qs0 index) as [q Hq]; [lia|].
  cbn [pick_level]; change (LEVEL_TO_NDX PRIO_LOW) with 1.
  destruct (Z.eqb_spec index 1) as [->|Hnp].
  { eexists; split; [done|]; split; [done|]; exists q; split; [done|]; cbn.
    destruct Hfo as (qf & Hqf & Hfo); destruct (Z.eqb_spec (act_queue_end q) 0) as [E|E]; [|by exists q].
    exists qf; split; [done|]; intros E0 i qi Hi0 Hqi; destruct Hfo as [[-> Hhi]|?]; [|done].
    destruct (decide (i = 0)) as [->|]; [congruence|]; destruct (decide (i = 1)) as [->|]; [congruence|].
    apply (Hhi i); [lia|done]. }
  destruct (Forall2_zget _ _ _ _ _ Hf Hq) as (q' & Hq' & [Eq Ee]); rewrite Hq'; cbn; rewrite Ee.
  destruct (Z.eqb_spec (act_queue_end q) 0) as [E|E].
  { apply IH; try done; try lia; destruct Hfo as (qf & Hqf & Hfo); exists qf; split; [done|].
    destruct Hfo as [[-> Hhi]|?]; [left; split; [done|]|by right]; intros i qi Hii Hqi.
    destruct (decide (i = index)) as [->|]; [congruence|]; apply (Hhi i); [lia|done]. }
  pose proof (zget_Some_range _ _ _ Hq') as Hr'.
  set (q2 := mk_q _ _ _ _); rewrite (zput_is_Some qs index q2 Hr'); cbn.
  assert (Hf2 : Forall2 q_eq qs0 (<[Z.to_nat index := q2]> qs)).
  { refine (Forall2_zput q_eq _ _ index q q2 _ Hf Hq _ (zput_is_Some qs index q2 Hr')).
    by split; [apply Eq|]. }
  destruct_if.
  - apply IH; try done; try lia; exists q; split; [done|by right].
  - eexists; split; [done|]; split; [done|]; exists q; split; [done|].
    destruct (Z.eqb_spec (act_queue_end q) 0); [done|]; by exists q.
Qed.

Lemma pick_level_ok qs :
  length qs = 5%nat ->
  exists r, pick_level SCHED_PRIO_LEVELS (LEVEL_TO_NDX PRIO_IO) (LEVEL_TO_NDX PRIO_IDLE) qs = Some r /\
    level_picked qs r.
Proof.
  intros Hl; apply pick_level_scan; try done.
  destruct (zget_is_Some qs 0) as [q0 Hq0]; [lia|]; exists q0; split; [done|]; left; split; [done|].
  intros i qi Hi Hqi; apply zget_Some_range in Hqi; unfold LEVEL_TO_NDX, PRIO_IO in Hi; cbn in Hi; lia.
Qed.

(** Replacing the queues of a pool by ones with the same activations. *)
Lemma requeue_wf ex sx k p pool qs ps :
  wf ex sx k -> zget (pools k) p = Some pool -> Forall2 q_eq (queues pool) qs ->
  zput (pools k) p (mk_pool (idle_act pool) (current_act pool) (in_queues pool) qs) = Some ps ->
  wf ex sx (set_pools k ps) /\ frame k (set_pools k ps) /\
  forall p' l' q', queue_at (set_pools k ps) p' l' = Some q' ->
    exists q, queue_at k p' l' = Some q /\ q_eq q q'.
Proof.
  intros Hwf Hp Hf Hps; pose proof (fun j => zget_zput _ _ _ _ j Hps) as Hget.
  assert (Hback : forall p' l' q', queue_at (set_pools k ps) p' l' = Some q' ->
    exists q, queue_at k p' l' = Some q /\ q_eq q q').
  { intros p' l' q'; unfold queue_at; cbn; rewrite Hget; destruct (Z.eqb_spec p' p) as [->|]; [|by exists q'].
    cbn; rewrite Hp; cbn; intros Hq'; by eapply (Forall2_zget (flip q_eq)); [apply Forall2_flip|]. }
  assert (Hforw : forall p' l' q, queue_at k p' l' = Some q ->
    exists q', queue_at (set_pools k ps) p' l' = Some q' /\ q_eq q q').
  { intros p' l' q; unfold queue_at; cbn; rewrite Hget; destruct (Z.eqb_spec p' p) as [->|]; [|by exists q].
    rewrite Hp; cbn; by apply Forall2_zget. }
  assert (Hfr : frame k (set_pools k ps)).
  { split; [|done..]; intros p'; cbn; rewrite Hget; destruct (Z.eqb_spec p' p) as [->|]; [by rewrite Hp|done]. }
  split_and!; [|done..]; split.
  - intros p' l' q' Hq'; destruct (Hback _ _ _ Hq') as (q & Hq & [E1 E2]).
    unfold queue_wf; rewrite E1, E2; exact (wf_queue _ _ _ Hwf _ _ _ Hq).
  - intros p' pool'; cbn; rewrite Hget; destruct (Z.eqb_spec p' p) as [->|]; [|apply Hwf].
    intros [= <-]; destruct (wf_pool _ _ _ Hwf p pool Hp) as (H1 & H2 & H3); unfold pool_wf; cbn.
    split_and!; [by rewrite <- (Forall2_length _ _ _ Hf)|rewrite H2|apply H3..].
    clear -Hf; induction Hf as [|? ? ? ? [_ E]]; [done|]; unfold sum_ends in *; cbn; lia.
  - intros a x Ha; destruct (wf_act _ _ _ Hwf a x Ha) as (H1 & H2 & H3 & H4); split_and!; try apply H1; try done.
    + by apply (core_frame k).
    + intros Hr Hi Hx; destruct (H4 Hr Hi Hx) as (q & Hq & Hn & Hg).
      destruct (Hforw _ _ _ Hq) as (q' & Hq' & [E1 E2]); exists q'; by rewrite E1, E2.
  - apply Hwf.
Qed.

(** Activations change at most their priority and their place. *)
Definition replaced (m m' : gmap Z act_t) : Prop :=
  forall c z, m !! c = Some z ->
    exists n np, m' !! c = Some (with_sched (fun s => set_ndx n (set_priority np s)) z).

Lemma replaced_refl m : replaced m m.
Proof.
  intros c z Hc; exists (queue_ndx (a_sched z)), (priority (a_sched z)); rewrite Hc; f_equal.
  by destruct z as [? ? []].
Qed.

Lemma replaced_trans m1 m2 m3 : replaced m1 m2 -> replaced m2 m3 -> replaced m1 m3.
Proof.
  intros H1 H2 c z Hc; destruct (H1 c z Hc) as (n & np & Hn); destruct (H2 _ _ Hn) as (n' & np' & Hn').
  by exists n', np'.
Qed.

Lemma moved_replaced a m m' x n np :
  moved a m m' -> m !! a = Some x -> m' !! a = Some (with_sched (fun s => set_ndx n (set_priority np s)) x) ->
  replaced m m'.
Proof.
  intros Hm Ha Ha' c z Hc; destruct (decide (c = a)) as [->|Hne].
  - rewrite Ha in Hc; injection Hc as <-; eauto.
  - destruct (Hm c z Hne Hc) as [n' Hn']; by exists n', (priority (a_sched z)).
Qed.

(** ** Picking an activation *)

(** The part of [sched_picknext] after the level is chosen. *)
Definition pick_in (p : Z) (pool : sched_pool) (index : Z) (qs : list sched_q) : K (option Z) :=
  q ← lift (zget qs index);
  _ ← kassert (negb (act_queue_end q =? 0));
  let c := (act_queue_current q + 1) mod act_queue_end q in
  qs ← lift (zput qs index (mk_q c (act_queue_end q) (queue_ctr q) (act_queue q)));
  _ ← put_pool p (mk_pool (idle_act pool) (current_act pool) (in_queues pool) qs);
  e ← lift (zget (act_queue q) c);
  a ← lift e;
  s ← sched_of a;
  _ ← kassert (LEVEL_TO_NDX (priority s) =? index);
  _ ← kassert ((sched_status s =? sched_runnable) || (sched_status s =? sched_running));
  _ ← when (has (priority s) PRIO_IO)
        (_ ← delete_act_from_queue p a (sched_status s);
         _ ← upd_sched a (set_priority (Z.land (priority s) (Z.lnot PRIO_IO)));
         add_act_to_queue p a (sched_status s));
  mret (Some a).

Definition picked (p : Z) (k : kernel) (r : option Z) (k' : kernel) : Prop :=
  wf None None k' /\ frame k k' /\ replaced (acts k) (acts k') /\
  exists a x, r = Some a /\ acts k' !! a = Some x /\ can_run (a_sched x) /\
    pool_id (a_sched x) = p /\ is_idle (a_sched x) = false.

Definition some_full (k : kernel) (p : Z) : Prop :=
  exists l q, queue_at k p l = Some q /\ act_queue_end q = 31.

Lemma prio_io_range pr : 0 <= pr < 8 -> 0 <= Z.land pr (Z.lnot PRIO_IO) < 8.
Proof.
  intros H; assert (pr = 0 \/ pr = 1 \/ pr = 2 \/ pr = 3 \/ pr = 4 \/ pr = 5 \/ pr = 6 \/ pr = 7) as E by lia.
  by destruct E as [->|[->|[->|[->|[->|[->|[->| ->]]]]]]].
Qed.

Lemma io_outcome k a x :
  wf None None k -> acts k !! a = Some x -> can_run (a_sched x) -> is_idle (a_sched x) = false ->
  outcome ((_ ← when (has (priority (a_sched x)) PRIO_IO)
     (_ ← delete_act_from_queue (pool_id (a_sched x)) a (sched_status (a_sched x));
      _ ← upd_sched a (set_priority (Z.land (priority (a_sched x)) (Z.lnot PRIO_IO)));
      add_act_to_queue (pool_id (a_sched x)) a (sched_status (a_sched x))); mret (Some a)) k)
    (some_full k (pool_id (a_sched x))) (picked (pool_id (a_sched x)) k).
Proof.
  intros Hwf Ha Hr Hi; destruct (has (priority (a_sched x)) PRIO_IO); cbn [when].
  2: { split_and!; [done|apply frame_refl|apply replaced_refl|eauto 10]. }
  destruct (wf_act _ _ _ Hwf a x Ha) as ((H1 & H2) & _).
  eapply outcome_bind; [apply (move_outcome k a x); try done; by apply prio_io_range|..].
  - intros [E|(q & Hq & He)]; [congruence|]; by eexists _, q.
  - intros [] k' (Hwf' & Hf & Hm & n & Hn); split_and!; [done..|by eapply moved_replaced|].
    eexists a, _; split_and!; [done|exact Hn|exact Hr|done..].
Qed.

Lemma pick_in_outcome k p pool index q0 qs :
  wf None None k -> zget (pools k) p = Some pool -> zget (queues pool) index = Some q0 ->
  act_queue_end q0 <> 0 -> Forall2 q_eq (queues pool) qs ->
  outcome (pick_in p pool index qs k) (some_full k p) (picked p k).
Proof.
  intros Hwf Hp Hq0 He Hf; destruct (Forall2_zget _ _ _ _ _ Hf Hq0) as (q & Hq & [Ea Ee]).
  destruct (wf_queue _ _ _ Hwf p index q0) as (Hlen & Hend & Hent); [apply queue_at_pool; eauto|].
  unfold pick_in; rewrite Hq, (bindS _ _ _ _ _ (lift_ok q k)), Ee.
  rewrite (bindS _ _ k tt k) by (apply kassert_ok; by apply negb_true_iff, Z.eqb_neq); cbn zeta.
  set (c := (act_queue_current q + 1) mod act_queue_end q0).
  assert (Hc : 0 <= c < act_queue_end q0) by (apply Z.mod_pos_bound; lia).
  set (q2 := mk_q c _ _ _); pose proof (zput_is_Some qs index q2 (zget_Some_range _ _ _ Hq)) as Hqs2.
  set (qs2 := <[Z.to_nat index := q2]> qs) in Hqs2; rewrite Hqs2, (bindS _ _ _ _ _ (lift_ok qs2 k)).
  assert (Hf2 : Forall2 q_eq (queues pool) qs2) by (refine (Forall2_zput q_eq _ _ _ _ q2 _ Hf Hq0 _ Hqs2); by split).
  pose proof (zput_is_Some (pools k) p (mk_pool (idle_act pool) (current_act pool) (in_queues pool) qs2)
    (zget_Some_range _ _ _ Hp)) as Hps.
  destruct (requeue_wf None None k p pool qs2 _ Hwf Hp Hf2 Hps) as (Hwf2 & Hfr & Hback).
  rewrite (bindS _ _ _ _ _ (put_pool_ok _ _ _ _ Hps)), Ea; clear Hps; set (k2 := set_pools k _) in *.
  destruct (Hent c Hc) as (a & x & Hga & Hxa & (Hpid & Hlv & _ & Hr & Hi) & _).
  rewrite Hga, (bindS _ _ _ _ _ (lift_ok (Some a) k2)), (bindS _ _ _ _ _ (lift_ok a k2)).
  rewrite (bindS _ _ _ _ _ (sched_of_ok k2 a x Hxa)).
  rewrite (bindS _ _ k2 tt k2) by (by apply kassert_ok, Z.eqb_eq).
  rewrite (bindS _ _ k2 tt k2) by (apply kassert_ok; by destruct Hr as [->| ->]).
  rewrite <- Hpid; eapply outcome_mono; [by apply (io_outcome k2 a x)|..].
  - rewrite Hpid; intros (l & q' & Hq' & E); destruct (Hback _ _ _ Hq') as (q'' & Hq'' & [_ E2]).
    exists l, q''; split; [done|lia].
  - rewrite Hpid; intros r k' (H1 & H2 & H3 & H4); split_and!; try done; by apply (frame_trans _ k2).
Qed.

Lemma picknext_outcome k p pool :
  wf None None k -> zget (pools k) p = Some pool ->
  outcome (sched_picknext p k) (some_full k p)
    (fun r k' => if in_queues pool =? 0 then r = idle_act pool /\ k' = k else picked p k r k').
Proof.
  intros Hwf Hp; unfold sched_picknext; rewrite (bindS _ _ _ _ _ (get_pool_ok _ _ _ Hp)).
  destruct (wf_pool _ _ _ Hwf p pool Hp) as (Hl & Hsum & _).
  destruct (Z.eqb_spec (in_queues pool) 0) as [E|E]; [done|].
  destruct (pick_level_ok (queues pool) Hl) as ([[index found] qs] & -> & Hf & q & Hq & qc & Hqc & Hne).
  rewrite (bindS _ _ _ _ _ (lift_ok (index, found, qs) k)).
  destruct (Forall2_zget _ _ _ _ _ Hf Hq) as (q' & Hq' & [_ Ee]); rewrite Hq', (bindS _ _ _ _ _ (lift_ok q' k)), Ee.
  eapply (pick_in_outcome k p pool _ qc qs); try done; intros E0; apply E; rewrite Hsum.
  specialize (Hne E0); clear -Hne; revert Hne; induction (queues pool) as [|x l IH]; intros Hne; [done|].
  assert (act_queue_end x = 0) by (by apply (Hne 0)).
  assert (sum_ends l = 0); [|unfold sum_ends in *; cbn; lia].
  apply IH; intros i qi Hi Hqi; apply (Hne (i + 1)); [lia|].
  unfold zget in *; destruct (Z.leb_spec 0 i); [|done]; destruct (Z.leb_spec 0 (i + 1)); [|lia].
  by replace (Z.to_nat (i + 1)) with (S (Z.to_nat i)) by lia.
Qed.

(** ** Switching *)

Lemma set_cores_wf ex sx k p pool idle cur ps :
  wf ex sx k -> zget (pools k) p = Some pool ->
  (forall b, idle = Some b -> exists y, acts k !! b = Some y /\ is_idle (a_sched y) = true /\ pool_id (a_sched y) = p) ->
  (forall b, cur = Some b -> exists y, acts k !! b = Some y /\ pool_id (a_sched y) = p) ->
  (forall b y, acts k !! b = Some y -> pool_id (a_sched y) = p ->
     (sched_status (a_sched y) = sched_running -> cur = Some b) /\ (is_idle (a_sched y) = true -> idle = Some b)) ->
  zput (pools k) p (mk_pool idle cur (in_queues pool) (queues pool)) = Some ps ->
  wf ex sx (set_pools k ps).
Proof.
  intros Hwf Hp Hidle Hcur Hall Hps; pose proof (fun j => zget_zput _ _ _ _ j Hps) as Hget.
  assert (Hq : forall p' l', queue_at (set_pools k ps) p' l' = queue_at k p' l').
  { intros p' l'; unfold queue_at; cbn; rewrite Hget; destruct (Z.eqb_spec p' p) as [->|]; by rewrite ?Hp. }
  split.
  - intros p' l' q'; rewrite Hq; apply Hwf.
  - intros p' pool'; cbn; rewrite Hget; destruct (Z.eqb_spec p' p) as [->|]; [|apply Hwf].
    intros [= <-]; destruct (wf_pool _ _ _ Hwf p pool Hp) as (H1 & H2 & _); by split_and!.
  - intros a x Ha; destruct (wf_act _ _ _ Hwf a x Ha) as (H1 & H2 & H3 & H4); split_and!; try apply H1; try done.
    + cbn; rewrite Hget; destruct (Z.eqb_spec (pool_id (a_sched x)) p) as [E|]; [|done].
      eexists; split; [done|]; by apply Hall.
    + intros Hr Hi Hx; destruct (H4 Hr Hi Hx) as (q & Hqa & Hn); exists q; by rewrite Hq.
  - apply Hwf.
Qed.

Lemma deschedule_ok k p pool from :
  wf None None k -> zget (pools k) p = Some pool -> current_act pool = Some from ->
  exists x m, acts k !! from = Some x /\ sched_deschedule from k = Some (tt, set_acts k m) /\
    wf None None (set_acts k m) /\
    (m = acts k \/ can_run (a_sched x) /\ m = <[from := with_sched (set_sched_status sched_runnable) x]> (acts k)) /\
    forall b y, m !! b = Some y -> pool_id (a_sched y) = p -> sched_status (a_sched y) <> sched_running.
Proof.
  intros Hwf Hp Hcur; destruct (wf_pool _ _ _ Hwf p pool Hp) as (_ & _ & _ & H4).
  destruct (H4 from Hcur) as (x & Hx & Hpid); exists x.
  assert (Hothers : forall b y, acts k !! b = Some y -> pool_id (a_sched y) = p ->
    sched_status (a_sched y) = sched_running -> b = from).
  { intros b y Hb <- Hs; destruct (current_of _ _ _ _ _ Hwf Hb) as (pool2 & Hp2 & Hc); specialize (Hc Hs); congruence. }
  unfold sched_deschedule; rewrite (bindS _ _ _ _ _ (sched_of_ok _ _ _ Hx)).
  destruct (Z.eqb_spec (sched_status (a_sched x)) sched_running) as [E|E]; cbn [when].
  - eexists; split_and!; [done|by apply upd_ok| |by right; split; [right|]|].
    + apply (change_wf _ _ _ _ x); [done..|]; destruct (wf_act _ _ _ Hwf from x Hx) as ((H1 & H2) & _).
      split; cbn; try done.
      * intros _; split; [|done]; unfold can_run; rewrite E; cbn; tauto.
      * split; [by left|]; right; right; right; split; [done|].
        apply (not_asleep None k from x); try apply Hwf; try done; by right.
    + intros b y Hb; destruct (decide (b = from)) as [->|Hne].
      * rewrite lookup_insert_eq in Hb; by injection Hb as <-.
      * rewrite lookup_insert_ne in Hb by done; intros Hpb Hs; by apply Hne, (Hothers b y).
  - exists (acts k); split_and!; [done|by destruct k|by destruct k|by left|].
    intros b y Hb Hpb Hs; pose proof (Hothers b y Hb Hpb Hs); congruence.
Qed.

(** What a switch may change: places, priorities, and running against
    runnable. *)
Definition switched (m m' : gmap Z act_t) : Prop :=
  forall c z, m !! c = Some z ->
    exists n np st, m' !! c = Some (with_sched (fun s => set_queued st n (set_priority np s)) z) /\
      (st = sched_status (a_sched z) \/
       can_run (a_sched z) /\ (st = sched_runnable \/ st = sched_running)).

Record settled (k k' : kernel) : Prop := {
  sd_idle : forall p, idle_act <$> zget (pools k') p = idle_act <$> zget (pools k) p;
  sd_sleeps : sleeps k' = sleeps k;
  sd_cpu : cpu k' = cpu k;
  sd_now : now k' = now k;
  sd_acts : switched (acts k) (acts k')
}.

Lemma switched_trans m1 m2 m3 : switched m1 m2 -> switched m2 m3 -> switched m1 m3.
Proof.
  intros H1 H2 c z Hc; destruct (H1 c z Hc) as (n & np & st & Hn & Hst).
  destruct (H2 _ _ Hn) as (n' & np' & st' & Hn' & Hst'); exists n', np', st'; split; [done|].
  unfold can_run in *; cbn in Hst'; destruct Hst as [->|[? ?]], Hst' as [->|[? ?]]; tauto.
Qed.

Lemma replaced_switched m m' : replaced m m' -> switched m m'.
Proof. intros H c z Hc; destruct (H c z Hc) as (n & np & Hn); exists n, np, (sched_status (a_sched z)); auto. Qed.

Lemma switched_status m a x st :
  m !! a = Some x -> can_run (a_sched x) -> st = sched_runnable \/ st = sched_running ->
  switched m (<[a := with_sched (set_sched_status st) x]> m).
Proof.
  intros Ha Hr Hst c z Hc; destruct (decide (c = a)) as [->|Hne].
  - rewrite Ha in Hc; injection Hc as <-; rewrite lookup_insert_eq.
    exists (queue_ndx (a_sched x)), (priority (a_sched x)), st; split; [by destruct x as [? ? []]|auto].
  - rewrite lookup_insert_ne by done; exact (replaced_switched m m (replaced_refl m) c z Hc).
Qed.

Lemma settled_trans k1 k2 k3 : settled k1 k2 -> settled k2 k3 -> settled k1 k3.
Proof.
  intros [] []; split; [intros p|..]; try (etrans; eauto); by eapply switched_trans.
Qed.

Lemma frame_settled k k' : frame k k' -> replaced (acts k) (acts k') -> settled k k'.
Proof.
  intros [Hc ? ? ? ?] Hr; split; try done; [|by apply replaced_switched].
  intros p; specialize (Hc p); destruct (zget (pools k') p), (zget (pools k) p); cbn in *; congruence.
Qed.

Lemma settled_refl k : settled k k.
Proof. apply frame_settled; [apply frame_refl|apply replaced_refl]. Qed.

(** With nothing running on a core, any of its activations may become current. *)
Lemma set_current_wf k p pool to x ps :
  wf None None k -> zget (pools k) p = Some pool -> acts k !! to = Some x -> pool_id (a_sched x) = p ->
  (forall b y, acts k !! b = Some y -> pool_id (a_sched y) = p -> sched_status (a_sched y) <> sched_running) ->
  zput (pools k) p (mk_pool (idle_act pool) (Some to) (in_queues pool) (queues pool)) = Some ps ->
  wf None None (set_pools k ps).
Proof.
  intros Hwf Hp Hx Hpid Hnone Hps; eapply (set_cores_wf None None k p pool); try done.
  - destruct (wf_pool _ _ _ Hwf p pool Hp) as (_ & _ & H & _); exact H.
  - intros b [= <-]; eauto.
  - intros b z Hb Hpb; split; [intros Hrun; by destruct (Hnone b z Hb Hpb)|intros Hib].
    destruct (wf_act _ _ _ Hwf b z Hb) as (_ & (pool2 & Hp2 & _ & Hi2) & _).
    rewrite Hpb, Hp in Hp2; injection Hp2 as <-; auto.
Qed.

Lemma schedule_ok k p pool to x :
  wf None None k -> zget (pools k) p = Some pool -> acts k !! to = Some x -> pool_id (a_sched x) = p ->
  sched_status (a_sched x) = sched_runnable ->
  (forall b y, acts k !! b = Some y -> pool_id (a_sched y) = p -> sched_status (a_sched y) <> sched_running) ->
  exists k', sched_schedule p to k = Some (tt, k') /\ wf None None k' /\ settled k k' /\
    zget (pools k') p = Some (mk_pool (idle_act pool) (Some to) (in_queues pool) (queues pool)) /\
    acts k' !! to = Some (with_sched (set_sched_status sched_running) x).
Proof.
  intros Hwf Hp Hx Hpid Hs Hnone.
  unfold sched_schedule; rewrite (bindS _ _ _ _ _ (sched_of_ok _ _ _ Hx)).
  rewrite (bindS _ _ k tt k) by (by apply kassert_ok, Z.eqb_eq).
  unfold upd_sched; rewrite (bindS _ _ _ _ _ (upd_ok _ _ _ _ Hx)).
  set (k2 := set_acts k _); rewrite (bindS _ _ _ _ _ (get_pool_ok k2 p pool Hp)).
  pose proof (zput_is_Some (pools k) p (mk_pool (idle_act pool) (Some to) (in_queues pool) (queues pool))
    (zget_Some_range _ _ _ Hp)) as Hps; set (ps := <[_ := _]> (pools k)) in Hps.
  rewrite (put_pool_ok k2 p _ ps Hps).
  assert (Hwf2 : wf None None (set_pools k ps)) by (by apply (set_current_wf k p pool to x)).
  assert (Hpool' : zget (pools (set_pools k2 ps)) p = Some (mk_pool (idle_act pool) (Some to) (in_queues pool) (queues pool)))
    by (cbn; by apply (zget_zput_eq _ _ _ _ Hps)).
  eexists; split_and!; [done| | |exact Hpool'|apply lookup_insert_eq].
  - apply (change_wf None None (set_pools k ps) to x _ Hwf2 Hx).
    destruct (wf_act _ _ _ Hwf to x Hx) as ((H1 & H2) & _); split; cbn; try done.
    + intros _; split; [|done]; unfold can_run; cbn; rewrite Hs; tauto.
    + intros _; right; rewrite Hpid; eexists; split; [exact Hpool'|done].
    + split; [by left|]; right; right; right; split; [done|].
      apply (not_asleep None k to x (wf_sleeps _ _ _ Hwf) Hx); [done|by left].
  - split; try done; [|apply switched_status; auto; by left].
    intros p'; cbn; rewrite (zget_zput _ _ _ _ p' Hps); destruct (Z.eqb_spec p' p) as [->|]; [by rewrite Hp|done].
Qed.

Lemma switch_ok k p pool from to x :
  wf None None k -> zget (pools k) p = Some pool -> current_act pool = Some from ->
  acts k !! to = Some x -> pool_id (a_sched x) = p -> can_run (a_sched x) -> to <> from ->
  exists k' pool', (_ ← sched_deschedule from; sched_schedule p to) k = Some (tt, k') /\
    wf None None k' /\ settled k k' /\
    zget (pools k') p = Some pool' /\ current_act pool' = Some to /\
    acts k' !! to = Some (with_sched (set_sched_status sched_running) x).
Proof.
  intros Hwf Hp Hcur Hx Hpid Hr Hne.
  destruct (deschedule_ok k p pool from Hwf Hp Hcur) as (y & m & Hy & E1 & Hwf1 & Hm & Hnone).
  rewrite (bindS _ _ _ _ _ E1); set (k1 := set_acts k m) in *.
  assert (Hx1 : acts k1 !! to = Some x) by (destruct Hm as [-> | [_ ->]]; cbn; by rewrite ?lookup_insert_ne).
  assert (Hs : sched_status (a_sched x) = sched_runnable) by (destruct Hr; [done|by destruct (Hnone to x Hx1 Hpid)]).
  destruct (schedule_ok k1 p pool to x) as (k' & E2 & Hwf2 & Hs2 & Hp2 & Hx2); try done.
  eexists _, _; split_and!; [exact E2|done| |done..].
  apply (settled_trans _ k1); [|done]; split; try done; cbn.
  destruct Hm as [-> | [Hry ->]]; [apply replaced_switched, replaced_refl|].
  apply switched_status; auto.
Qed.

(** Why a core cannot go on. *)
Definition stuck (k : kernel) (hint : option Z) (pool : sched_pool) : Prop :=
  (exists h, hint = Some h /\ acts k !! h = None) \/ some_full k (cpu k) \/
  (in_queues pool = 0 /\ idle_act pool = None) \/ current_act pool = None.

(** The activation chosen for the core is current; it is running if it was
    not already current, and it is the idle one only if nothing is queued or
    the hint says so. *)
Definition rescheduled (hint : option Z) (pool : sched_pool) (k k' : kernel) : Prop :=
  wf None None k' /\ settled k k' /\
  exists pool' to x, zget (pools k') (cpu k) = Some pool' /\ current_act pool' = Some to /\
    acts k' !! to = Some x /\ can_run (a_sched x) /\ pool_id (a_sched x) = cpu k /\
    (current_act pool <> Some to -> sched_status (a_sched x) = sched_running) /\
    (is_idle (a_sched x) = true -> in_queues pool = 0 \/ hint = Some to).

(** Which activation is next. *)
Definition chosen (hint : option Z) (pool : sched_pool) (k : kernel) (n : option Z) (k' : kernel) : Prop :=
  wf None None k' /\ frame k k' /\ replaced (acts k) (acts k') /\
  (n = None -> in_queues pool = 0 /\ idle_act pool = None) /\
  forall to, n = Some to -> exists x, acts k' !! to = Some x /\ can_run (a_sched x) /\
    pool_id (a_sched x) = cpu k /\ (is_idle (a_sched x) = true -> in_queues pool = 0 \/ hint = Some to).

Lemma choose_outcome k pool hint :
  wf None None k -> zget (pools k) (cpu k) = Some pool ->
  outcome ((h ← take_hint (cpu k) hint;
            match h with Some _ => mret h | None => sched_picknext (cpu k) end) k)
    (stuck k hint pool) (chosen hint pool k).
Proof.
  intros Hwf Hp.
  assert (Hpick : outcome (sched_picknext (cpu k) k) (stuck k hint pool) (chosen hint pool k)).
  { eapply outcome_mono; [by apply picknext_outcome|by right; left|]; intros r k'; cbn.
    destruct (Z.eqb_spec (in_queues pool) 0) as [E|E].
    - intros [-> ->]; split_and!; [done|apply frame_refl|apply replaced_refl|done|]; intros to Hto.
      destruct (wf_pool _ _ _ Hwf _ _ Hp) as (_ & _ & H3 & _); destruct (H3 to Hto) as (x & Hx & Hi & Hpid).
      destruct (wf_act _ _ _ Hwf to x Hx) as (_ & _ & Hr & _); exists x; split_and!; try done; [by apply Hr|by left].
    - intros (H1 & H2 & H3 & a & x & -> & Hx & Hr & Hpid & Hi); split_and!; try done.
      intros to [= <-]; exists x; split_and!; try done; congruence. }
  destruct hint as [h|]; [|exact Hpick]; cbn [take_hint].
  destruct (acts k !! h) as [x|] eqn:Hx.
  2: { rewrite bindN; [left; eauto|]; unfold sched_of, deref, mbind, K_bind; by rewrite Hx. }
  erewrite bindS; [|rewrite (bindS _ _ _ _ _ (sched_of_ok _ _ _ Hx)); done].
  destruct (negb (pool_id (a_sched x) =? cpu k) || negb (sched_status (a_sched x) =? sched_runnable)) eqn:E; [exact Hpick|].
  apply orb_false_iff in E as [E1%negb_false_iff%Z.eqb_eq E2%negb_false_iff%Z.eqb_eq].
  split_and!; [done|apply frame_refl|apply replaced_refl|done|]; intros to [= <-].
  exists x; split_and!; try done; [by left|by right].
Qed.

Lemma bind_assoc {A B C} (m : K A) (f : A -> K B) (g : B -> K C) k :
  ((m ≫= f) ≫= g) k = (m ≫= fun x => f x ≫= g) k.
Proof. unfold mbind, K_bind; by destruct (m k) as [[]|]. Qed.

(** A core that has something to run or an idle activation goes on. *)
Lemma reschedule_outcome k pool hint :
  wf None None k -> zget (pools k) (cpu k) = Some pool ->
  outcome (sched_reschedule hint k) (stuck k hint pool) (fun _ k' => rescheduled hint pool k k').
Proof.
  intros Hwf Hp; unfold sched_reschedule; rewrite (bindS (gets cpu) _ k (cpu k) k eq_refl).
  rewrite (bindS _ _ _ _ _ (get_pool_ok _ _ _ Hp)), <- bind_assoc.
  eapply outcome_bind; [by apply choose_outcome|done|]; intros n k1 (Hwf1 & Hf1 & Hr1 & Hnone & Hsome).
  destruct n as [to|]; [|rewrite bindN by done; right; right; left; auto].
  destruct (Hsome to eq_refl) as (x & Hx & Hr & Hpid & Hid); clear Hnone Hsome.
  rewrite (bindS _ _ _ _ _ (lift_ok to k1)).
  destruct (frame_pool _ _ _ _ Hf1 Hp) as (pool1 & Hp1 & Ei & Ec).
  destruct (bool_decide (Some to = current_act pool)) eqn:E; [apply bool_decide_eq_true in E|apply bool_decide_eq_false in E].
  { split_and!; [done|by apply frame_settled|]; exists pool1, to, x; split_and!; try done; congruence. }
  destruct (current_act pool) as [from|] eqn:Ecur; [|rewrite bindN by done; by right; right; right].
  rewrite (bindS _ _ _ _ _ (lift_ok from k1)).
  destruct (switch_ok k1 (cpu k) pool1 from to x) as (k' & pool' & -> & Hwf' & Hs & Hp' & Hc' & Hx');
    try done; [congruence..|].
  split_and!; [done|by apply (settled_trans _ k1 _ (frame_settled _ _ Hf1 Hr1))|].
  eexists pool', to, _; split_and!; [done|done|exact Hx'|by right|done|done|exact Hid].
Qed.
