(* ===== verification/SchedEvents.v ===== *)
(** * Sleeping, blocking and waking

    Blocking moves the current activation out of its queue, and into the
    sleep array when it has a timeout; an event moves it back.  Any sequence
    of the scheduler's critical sections keeps the invariant. *)

From S2P Require Import Prelude Kernel Sched SchedInv SchedOps.

(** ** The sleep array *)

Lemma free_slot_spec sl i :
  match free_slot sl i with
  | Some j => i <= j < i + Z.of_nat (length sl) /\ sl !! Z.to_nat (j - i) = Some None
  | None => forall x, x ∈ sl -> x <> None
  end.
Proof.
  revert i; induction sl as [|[a|] sl IH]; intros i; cbn [free_slot length].
  - by intros x Hx%elem_of_nil.
  - specialize (IH (i + 1)); destruct (free_slot sl (i + 1)) as [j|].
    + destruct IH as [H1 H2]; split; [lia|].
      by replace (Z.to_nat (j - i)) with (S (Z.to_nat (j - (i + 1)))) by lia.
    + intros x [->|Hx]%elem_of_cons; [done|by apply IH].
  - split; [lia|]; by rewrite Z.sub_diag.
Qed.

Lemma free_slot_zget sl j : free_slot sl 0 = Some j -> zget sl j = Some None.
Proof.
  intros E; pose proof (free_slot_spec sl 0) as H; rewrite E in H; destruct H as [H1 H2].
  rewrite Z.sub_0_r in H2; unfold zget; by destruct (Z.leb_spec 0 j); [|lia].
Qed.

Lemma subscribe_run k a x t :
  acts k !! a = Some x ->
  kernel_timer_subscribe a t k =
  (i ← free_slot (sleeps k) 0;
   sl ← zput (sleeps k) i (Some a);
   Some (tt, set_acts (set_sleeps k sl) (<[a := with_sched (set_timeout (now k) t i) x]> (acts k)))).
Proof.
  intros Ha; unfold kernel_timer_subscribe, kernel_timer_start_count, upd_sched.
  rewrite bind_assoc, (bindS (gets now) _ k (now k) k eq_refl).
  rewrite (bindS _ _ _ _ _ (upd_ok _ _ _ _ Ha)); set (k1 := set_acts k _).
  assert (H1 : acts k1 !! a = Some (with_sched (fun s => set_timeout (now k) (timeout_length s) (timeout_indx s) s) x))
    by apply lookup_insert_eq.
  rewrite (bindS _ _ _ _ _ (upd_ok _ _ _ _ H1)); set (k2 := set_acts k1 _).
  rewrite (bindS (gets sleeps) _ k2 (sleeps k) k2 eq_refl).
  destruct (free_slot (sleeps k) 0) as [i|]; [|done]; rewrite (bindS _ _ _ _ _ (lift_ok i k2)); cbn [mbind option_bind].
  destruct (zput (sleeps k) i (Some a)) as [sl|]; [|done]; rewrite (bindS _ _ _ _ _ (lift_ok sl k2)).
  rewrite (bindS (modify _) _ k2 tt (set_sleeps k2 sl) eq_refl).
  erewrite upd_ok; [|apply lookup_insert_eq]; f_equal; f_equal; cbn.
  by rewrite !insert_insert_eq.
Qed.

Lemma wf_exempt_sleep ex k a : wf ex None k -> wf ex (Some a) k.
Proof.
  intros [H1 H2 H3 (H4 & H5 & H6)]; split; try done; split_and!; try done.
  - intros i b Hb; destruct (H5 i b Hb) as (x & Hx & Ht & [?|[?|?]]); exists x; split_and!; auto; done.
  - intros b x Hb _; by apply H6.
Qed.

Lemma wf_close_sleep ex k a x :
  wf ex (Some a) k -> acts k !! a = Some x ->
  (if has (sched_status (a_sched x)) sched_wait_timeout
   then zget (sleeps k) (timeout_indx (a_sched x)) = Some (Some a)
   else asleep k a -> sched_status (a_sched x) = sched_terminated) ->
  wf ex None k.
Proof.
  intros [H1 H2 H3 (H4 & H5 & H6)] Ha Hc; split; try done; split_and!; try done.
  - intros i b Hb; destruct (H5 i b Hb) as (y & Hy & Ht & Hs); exists y; split_and!; try done.
    destruct Hs as [?|[?|[= ->]]]; [by left|by right; left|]; rewrite Ha in Hy; injection Hy as <-.
    destruct (has _ _); [by left|right; left; apply Hc; by eexists].
  - intros b y Hb _ Hh; destruct (decide (b = a)) as [->|Hne].
    + rewrite Ha in Hb; injection Hb as <-; by rewrite Hh in Hc.
    + apply H6; [done| |done]; congruence.
Qed.

Lemma wf_set_sleeps ex sx sx' k sl :
  wf ex sx k -> sleeps_wf sx' (set_sleeps k sl) -> wf ex sx' (set_sleeps k sl).
Proof. by intros [H1 H2 H3 _] H. Qed.

Lemma sleeps_put sx k a x i sl :
  sleeps_wf sx k -> acts k !! a = Some x -> zget (sleeps k) i = Some None ->
  timeout_indx (a_sched x) = i -> zput (sleeps k) i (Some a) = Some sl -> sx = Some a ->
  sleeps_wf sx (set_sleeps k sl).
Proof.
  intros (H1 & H2 & H3) Ha Hi Hti Hsl ->; unfold sleeps_wf; cbn; split_and!.
  - by rewrite (zput_length _ _ _ _ Hsl).
  - intros j b; rewrite (zget_zput _ _ _ _ j Hsl); destruct (Z.eqb_spec j i) as [->|]; [|apply H2].
    intros [= <-]; exists x; auto.
  - intros b y Hb Hne Hh; pose proof (H3 b y Hb Hne Hh) as Hz; rewrite (zget_zput _ _ _ _ _ Hsl).
    destruct (Z.eqb_spec (timeout_indx (a_sched y)) i); [congruence|done].
Qed.

Lemma sleeps_clear k a x i sl :
  sleeps_wf None k -> acts k !! a = Some x -> timeout_indx (a_sched x) = i ->
  zget (sleeps k) i = Some (Some a) -> zput (sleeps k) i None = Some sl ->
  sleeps_wf (Some a) (set_sleeps k sl) /\ ~ asleep (set_sleeps k sl) a.
Proof.
  intros (H1 & H2 & H3) Ha Hti Hi Hsl; unfold sleeps_wf, asleep; cbn; split_and!.
  - by rewrite (zput_length _ _ _ _ Hsl).
  - intros j b; rewrite (zget_zput _ _ _ _ j Hsl); destruct (Z.eqb_spec j i) as [->|]; [done|].
    intros Hj; destruct (H2 j b Hj) as (y & Hy & Ht & [?|[?|?]]); exists y; auto; done.
  - intros b y Hb Hne Hh; pose proof (H3 b y Hb ltac:(done) Hh) as Hz; rewrite (zget_zput _ _ _ _ _ Hsl).
    destruct (Z.eqb_spec (timeout_indx (a_sched y)) i) as [E|]; [congruence|done].
  - intros [j]; rewrite (zget_zput _ _ _ _ j Hsl) in H; destruct (Z.eqb_spec j i); [done|].
    destruct (H2 j a H) as (y & Hy & Ht & _); rewrite Ha in Hy; injection Hy as <-; congruence.
Qed.

Lemma subscribe_outcome k a x t :
  wf None None k -> acts k !! a = Some x -> can_run (a_sched x) ->
  outcome (kernel_timer_subscribe a t k) (forall y, y ∈ sleeps k -> y <> None)
    (fun _ k' => wf None (Some a) k' /\ exists i sl, pools k' = pools k /\ cpu k' = cpu k /\ now k' = now k /\
       zget (sleeps k) i = Some None /\ zput (sleeps k) i (Some a) = Some sl /\ sleeps k' = sl /\
       acts k' = <[a := with_sched (set_timeout (now k) t i) x]> (acts k)).
Proof.
  intros Hwf Ha Hr; rewrite (subscribe_run k a x t Ha).
  destruct (free_slot (sleeps k) 0) as [i|] eqn:E; cbn [mbind option_bind outcome].
  2: { pose proof (free_slot_spec (sleeps k) 0) as H; by rewrite E in H. }
  apply free_slot_zget in E; rewrite (zput_is_Some _ _ (Some a) (zget_Some_range _ _ _ E)); cbn.
  set (sl := <[_ := _]> (sleeps k)); set (x' := with_sched _ x).
  assert (Hsl : zput (sleeps k) i (Some a) = Some sl) by (apply zput_is_Some, (zget_Some_range _ _ _ E)).
  pose proof (not_asleep _ _ _ _ (wf_sleeps _ _ _ Hwf) Ha ltac:(done) Hr) as Hna.
  assert (Hwf1 : wf None (Some a) (set_acts k (<[a := x']> (acts k)))).
  { apply (change_wf _ _ _ _ x); [by apply wf_exempt_sleep|done|].
    destruct (wf_act _ _ _ Hwf a x Ha) as ((H1 & H2) & _).
    split; cbn; try done; [by left|split; [by right|by left]]. }
  split; [|by exists i, sl].
  apply (wf_set_sleeps None (Some a) (Some a) (set_acts k (<[a := x']> (acts k))) sl Hwf1).
  by apply (sleeps_put _ _ a x' i); try apply Hwf1; [apply lookup_insert_eq|..].
Qed.

Lemma unsubscribe_ok ex k a x :
  wf ex None k -> acts k !! a = Some x -> has (sched_status (a_sched x)) sched_wait_timeout = true ->
  exists sl, kernel_timer_unsubscribe a k = Some (tt, set_sleeps k sl) /\
    wf ex (Some a) (set_sleeps k sl) /\ ~ asleep (set_sleeps k sl) a /\
    zput (sleeps k) (timeout_indx (a_sched x)) None = Some sl.
Proof.
  intros Hwf Ha Hh; destruct (wf_sleeps _ _ _ Hwf) as (_ & _ & H3).
  pose proof (H3 a x Ha ltac:(done) Hh) as Hz.
  pose proof (zput_is_Some _ _ None (zget_Some_range _ _ _ Hz)) as Hsl; set (sl := <[_ := _]> (sleeps k)) in Hsl.
  destruct (sleeps_clear k a x _ sl (wf_sleeps _ _ _ Hwf) Ha eq_refl Hz Hsl) as [Hs Hna].
  exists sl; split_and!; try done; [|by apply (wf_set_sleeps ex None)].
  unfold kernel_timer_unsubscribe; rewrite (bindS _ _ _ _ _ (sched_of_ok _ _ _ Ha)).
  rewrite (bindS (gets sleeps) _ k (sleeps k) k eq_refl), Hz, (bindS _ _ _ _ _ (lift_ok (Some a) k)).
  rewrite (bindS _ _ k tt k) by (by apply kassert_ok, bool_decide_true).
  by rewrite Hsl, (bindS _ _ _ _ _ (lift_ok sl k)).
Qed.

(** ** Blocking *)

(** The record of an activation that has just blocked on [ev]. *)
Definition blocked_as (ev : Z) (s : sched_part) : sched_part :=
  set_priority (Z.lor (priority s) PRIO_IO) (set_queued ev 255 s).

Lemma prio_or_range pr : 0 <= pr < 8 -> 0 <= Z.lor pr PRIO_IO < 8.
Proof.
  intros H; assert (pr = 0 \/ pr = 1 \/ pr = 2 \/ pr = 3 \/ pr = 4 \/ pr = 5 \/ pr = 6 \/ pr = 7) as E by lia.
  by destruct E as [->|[->|[->|[->|[->|[->|[->| ->]]]]]]].
Qed.

Lemma waits_not_run st : sched_waiting <= st -> st <> sched_runnable /\ st <> sched_running /\ st <> sched_terminated.
Proof. unfold sched_waiting, sched_runnable, sched_running, sched_terminated; lia. Qed.

Lemma block_outcome k a x ev :
  wf None (Some a) k -> acts k !! a = Some x -> can_run (a_sched x) ->
  (if has ev sched_wait_timeout then zget (sleeps k) (timeout_indx (a_sched x)) = Some (Some a)
   else ~ asleep k a) ->
  outcome ((_ ← sched_block a ev; upd_sched a (fun s => set_priority (Z.lor (priority s) PRIO_IO) s)) k)
    (is_idle (a_sched x) = true \/ ev < sched_waiting)
    (fun _ k' => wf None None k' /\ frame k k' /\ moved a (acts k) (acts k') /\
       acts k' !! a = Some (with_sched (blocked_as ev) x)).
Proof.
  intros Hwf Ha Hr Hsl; unfold sched_block.
  destruct (Z.leb_spec sched_waiting ev) as [Hev|Hev]; [|by right].
  rewrite bind_assoc; rewrite (bindS _ _ k tt k) by done; rewrite bind_assoc, (bindS _ _ _ _ _ (sched_of_ok _ _ _ Ha)).
  assert ((sched_status (a_sched x) =? sched_runnable) || (sched_status (a_sched x) =? sched_running) = true) as ->
    by (by destruct Hr as [->| ->]).
  destruct (waits_not_run ev Hev) as (Hn1 & Hn2 & Hn3).
  destruct (is_idle (a_sched x)) eqn:Hi; [rewrite bindN; [by left|by apply (del_idle _ _ x)]|].
  destruct (del_ok (Some a) k a x ev) as (k1 & b & y & E1 & Hwf1 & Hf1 & Hb & Hk1 & _); try done.
  { unfold sched_waiting in Hev; lia. }
  { by left. }
  rewrite (bindS _ _ _ _ _ E1).
  assert (Hx1 : acts k1 !! a = Some (with_sched (set_queued ev 255) x)) by (rewrite Hk1; apply lookup_insert_eq).
  unfold upd_sched; rewrite (upd_ok _ _ _ _ Hx1); cbn [outcome]; set (k2 := set_acts k1 _).
  assert (Hx2 : acts k2 !! a = Some (with_sched (blocked_as ev) x)) by apply lookup_insert_eq.
  destruct (wf_act _ _ _ Hwf a x Ha) as ((Hp & _) & _).
  assert (Hwf2 : wf (Some a) (Some a) k2).
  { apply (exempt_prio (Some a) k1 a (with_sched (set_queued ev 255) x) _ Hwf1 Hx1); by apply prio_or_range. }
  split_and!.
  - apply (wf_close_sleep None k2 a _ (wf_close (Some a) k2 a _ Hwf2 Hx2 ltac:(by intros [])) Hx2); cbn.
    rewrite (fr_sleeps _ _ Hf1); unfold asleep in *; cbn; rewrite (fr_sleeps _ _ Hf1).
    destruct (has ev sched_wait_timeout); [done|]; intros Has; by destruct Hsl.
  - apply (frame_trans _ k1 _ Hf1), frame_acts.
  - apply (moved_trans _ _ (acts k1)); [rewrite Hk1; by apply del_moved|apply moved_insert].
  - done.
Qed.

Lemma has_lor x m : m <> 0 -> has (Z.lor x m) m = true.
Proof.
  intros Hm; unfold has; apply negb_true_iff, Z.eqb_neq; intros E; apply Hm, Z.bits_inj'; intros n Hn.
  pose proof (f_equal (fun z => Z.testbit z n) E) as H; cbn in H.
  rewrite Z.land_spec, Z.lor_spec, Z.bits_0 in H; rewrite Z.bits_0; by destruct (Z.testbit x n), (Z.testbit m n).
Qed.

Definition wait_events (events timeout : Z) : Z :=
  if 0 <? timeout then Z.lor events sched_wait_timeout else events.

(** Two records of one activation that agree on all but the timeout. *)
Definition same_but_timeout (x x' : act_t) : Prop :=
  exists st len i, x' = with_sched (set_timeout st len i) x.

(** The sleepers of [k] other than [e] are still in their slots. *)
Definition keep_sleepers (e : option Z) (k k' : kernel) : Prop :=
  forall b i, Some b <> e -> zget (sleeps k) i = Some (Some b) -> zget (sleeps k') i = Some (Some b).

Lemma keep_sleepers_eq e k k' : sleeps k' = sleeps k -> keep_sleepers e k k'.
Proof. by intros E b i _; rewrite E. Qed.

Lemma wait_outcome k a x events timeout :
  wf None None k -> acts k !! a = Some x -> can_run (a_sched x) -> has events sched_wait_timeout = false ->
  outcome ((_ ← (if 0 <? timeout then kernel_timer_subscribe a timeout else kernel_timer_start_count a);
            _ ← sched_block a (wait_events events timeout);
            upd_sched a (fun s => set_priority (Z.lor (priority s) PRIO_IO) s)) k)
    (is_idle (a_sched x) = true \/ wait_events events timeout < sched_waiting \/
     (0 < timeout /\ forall y, y ∈ sleeps k -> y <> None))
    (fun _ k' => wf None None k' /\ cpu k' = cpu k /\ moved a (acts k) (acts k') /\ keep_sleepers None k k' /\
       exists x', same_but_timeout x x' /\ acts k' !! a = Some (with_sched (blocked_as (wait_events events timeout)) x')).
Proof.
  intros Hwf Ha Hr Hev; unfold wait_events; destruct (Z.ltb_spec 0 timeout) as [Ht|Ht].
  - eapply outcome_bind; [by apply (subscribe_outcome k a x)|auto|]; cbn beta.
    intros [] k1 (Hwf1 & i & sl & Hp & Hc & Hn & Hz & Hsl & Es & Hk1).
    set (x1 := with_sched _ x) in Hk1.
    assert (Hx1 : acts k1 !! a = Some x1) by (rewrite Hk1; apply lookup_insert_eq).
    eapply outcome_mono; [apply (block_outcome k1 a x1 _ Hwf1 Hx1)| |]; try done.
    + rewrite has_lor by done; rewrite Es; cbn; rewrite (zget_zput _ _ _ _ _ Hsl); by rewrite Z.eqb_refl.
    + intros [?|?]; auto.
    + intros [] k' (H1 & H2 & H3 & H4); split_and!; [done|by rewrite (fr_cpu _ _ H2)| | |].
      * apply (moved_trans _ _ (acts k1)); [rewrite Hk1; apply moved_insert|done].
      * intros b j _ Hj; rewrite (fr_sleeps _ _ H2), Es, (zget_zput _ _ _ _ _ Hsl).
        destruct (Z.eqb_spec j i) as [->|]; [congruence|done].
      * exists x1; split; [by eexists _, _, _|done].
  - unfold kernel_timer_start_count, upd_sched.
    rewrite bind_assoc, (bindS (gets now) _ k (now k) k eq_refl), (bindS _ _ _ _ _ (upd_ok _ _ _ _ Ha)).
    set (x1 := with_sched _ x); set (k1 := set_acts k _).
    assert (Hx1 : acts k1 !! a = Some x1) by apply lookup_insert_eq.
    assert (Hwf1 : wf None None k1) by (by apply (quiet_wf _ _ _ _ x)).
    eapply outcome_mono; [apply (block_outcome k1 a x1 _ (wf_exempt_sleep _ _ _ Hwf1) Hx1)| |]; try done.
    + rewrite Hev; by apply (not_asleep None k1 a x1); [apply Hwf1|..].
    + intros [?|?]; auto.
    + intros [] k' (H1 & H2 & H3 & H4); split_and!; [done|by rewrite (fr_cpu _ _ H2)| | |].
      * apply (moved_trans _ _ (acts k1)); [apply moved_insert|done].
      * apply keep_sleepers_eq, (fr_sleeps _ _ H2).
      * exists x1; split; [by eexists _, _, _|done].
Qed.

(** Clearing the flag of an early notification that is being consumed. *)
Definition consume (ev : Z) (x : act_t) : act_t :=
  if has ev sched_wait_notify && early_notify (a_sched x)
  then with_sched (fun s => set_notify false (commit_early_notify s) s) x else x.

Definition block_post (k : kernel) (a : Z) (x : act_t) (ev : Z) (r : Z * Z) (k' : kernel) : Prop :=
  wf None None k' /\ cpu k' = cpu k /\ moved a (acts k) (acts k') /\ keep_sleepers None k k' /\
  r = (a, pending_events x ev) /\
  if pending_events x ev =? 0
  then exists x', same_but_timeout (consume ev x) x' /\ acts k' !! a = Some (with_sched (blocked_as ev) x')
  else acts k' = <[a := consume ev x]> (acts k).

Definition block_stop (k : kernel) (x : act_t) (events timeout : Z) : Prop :=
  (pending_events x (wait_events events timeout) = 0 /\
   (is_idle (a_sched x) = true \/ wait_events events timeout < sched_waiting \/
    (0 < timeout /\ forall y, y ∈ sleeps k -> y <> None))) \/
  has (wait_events events timeout) sched_sem = true.

Lemma block_critical_outcome k pool act a x events timeout :
  wf None None k -> zget (pools k) (cpu k) = Some pool ->
  act = Some a \/ (act = None /\ current_act pool = Some a) ->
  acts k !! a = Some x -> can_run (a_sched x) -> has events sched_wait_timeout = false ->
  outcome (block_critical act events timeout k) (block_stop k x events timeout)
    (block_post k a x (wait_events events timeout)).
Proof.
  intros Hwf Hp Hact Ha Hr Hev; unfold block_critical.
  rewrite (bindS (gets cpu) _ k (cpu k) k eq_refl), (bindS _ _ _ _ _ (get_pool_ok _ _ _ Hp)).
  replace (match act with Some _ => act | None => current_act pool end) with (Some a) by (by destruct Hact as [->|[-> ->]]).
  rewrite (bindS _ _ _ _ _ (lift_ok a k)), (bindS _ _ _ _ _ (deref_ok _ _ _ Ha)).
  fold (wait_events events timeout); set (ev := wait_events events timeout).
  set (k1 := set_acts k (<[a := consume ev x]> (acts k))).
  rewrite (bindS _ _ k tt k1).
  2: { unfold consume in k1; destruct (has ev sched_wait_notify && early_notify (a_sched x)); cbn [when].
       - by apply upd_ok. - unfold k1; rewrite insert_id by done; by destruct k. }
  destruct (has ev sched_sem) eqn:Hsem; [rewrite bindN by done; by right|].
  rewrite (bindS _ _ k1 tt k1) by done.
  assert (Hx1 : acts k1 !! a = Some (consume ev x)) by apply lookup_insert_eq.
  assert (Hq : quiet (a_sched x) (a_sched (consume ev x)) /\ is_idle (a_sched (consume ev x)) = is_idle (a_sched x) /\
    sched_status (a_sched (consume ev x)) = sched_status (a_sched x)) by (unfold consume; by destruct (_ && _)).
  destruct Hq as (Hq & Ei & Es); assert (Hwf1 : wf None None k1) by (by apply (quiet_wf _ _ _ _ x)).
  destruct (pending_events x ev =? 0) eqn:Eg; cbn [when].
  - eapply outcome_bind; [apply (wait_outcome k1 a (consume ev x) events timeout); try done; unfold can_run; by rewrite Es|..].
    + rewrite Ei; apply Z.eqb_eq in Eg; unfold block_stop; tauto.
    + intros [] k' (H1 & H2 & H3 & H4 & H5); split_and!; [done|done| |exact H4|done|by rewrite Eg].
      apply (moved_trans _ _ (acts k1)); [apply moved_insert|done].
  - split_and!; [done|done|apply moved_insert|by apply keep_sleepers_eq|done|by rewrite Eg].
Qed.

(** ** Events *)

(** The events that count: a message event only with a message there. *)
Definition effective (x : act_t) (events : Z) : Z :=
  if has (Z.land (sched_status (a_sched x)) sched_waiting) events && msg_queue_empty x
  then Z.land events (Z.lnot sched_waiting) else events.

Lemma land_low_zero st ev : 0 <= st <= 3 -> Z.land ev 3 = 0 -> Z.land st ev = 0.
Proof.
  intros Hst Hev.
  assert (E : Z.land st 3 = st) by (change 3 with (Z.ones 2); rewrite Z.land_ones by done; apply Z.mod_small; cbn; lia).
  by rewrite <- E, <- Z.land_assoc, (Z.land_comm 3), Hev, Z.land_0_r.
Qed.

Lemma effective_low x ev : Z.land ev 3 = 0 -> Z.land (effective x ev) 3 = 0.
Proof.
  intros H; unfold effective; destruct (_ && _); [|done].
  by rewrite <- Z.land_assoc; change (Z.land (Z.lnot sched_waiting) 3) with 3.
Qed.

(** An activation an event can wake is blocked. *)
Lemma woken_was_blocked k a x ev :
  wf None None k -> acts k !! a = Some x -> Z.land ev 3 = 0 ->
  Z.land (sched_status (a_sched x)) (effective x ev) <> 0 ->
  ~ can_run (a_sched x) /\ is_idle (a_sched x) = false /\ sched_status (a_sched x) <> sched_terminated.
Proof.
  intros Hwf Ha Hev Hc; pose proof (effective_low x ev Hev) as He.
  assert (Hr : ~ can_run (a_sched x)).
  { intros [E|E]; apply Hc; rewrite E; apply land_low_zero; try done; cbn; lia. }
  split_and!; [done| |].
  - destruct (is_idle (a_sched x)) eqn:Hi; [|done].
    destruct (wf_act _ _ _ Hwf a x Ha) as (_ & _ & H3 & _); by destruct Hr, (H3 Hi).
  - intros E; apply Hc; rewrite E; apply land_low_zero; try done; cbn; lia.
Qed.

(** Leaving the sleep array, when in it. *)
Lemma leave_sleep k a x :
  wf (Some a) None k -> acts k !! a = Some x -> sched_status (a_sched x) <> sched_terminated ->
  exists k', when (has (sched_status (a_sched x)) sched_wait_timeout) (kernel_timer_unsubscribe a) k = Some (tt, k') /\
    wf (Some a) (Some a) k' /\ ~ asleep k' a /\ acts k' = acts k /\ pools k' = pools k /\ cpu k' = cpu k /\
    keep_sleepers (Some a) k k'.
Proof.
  intros Hwf Ha Ht; destruct (has (sched_status (a_sched x)) sched_wait_timeout) eqn:E; cbn [when].
  - destruct (unsubscribe_ok (Some a) k a x Hwf Ha E) as (sl & -> & Hwf1 & Hna & Hsl).
    eexists; split_and!; try done; intros b i Hne Hz; cbn; rewrite (zget_zput _ _ _ _ i Hsl).
    destruct (Z.eqb_spec i (timeout_indx (a_sched x))) as [->|]; [|done].
    destruct (wf_sleeps _ _ _ Hwf) as (_ & _ & H3); pose proof (H3 a x Ha ltac:(done) E); congruence.
  - exists k; split_and!; try done; [by apply wf_exempt_sleep| |by apply keep_sleepers_eq]; intros [i Hi].
    destruct (wf_sleeps _ _ _ Hwf) as (_ & H2 & _); destruct (H2 i a Hi) as (y & Hy & _ & Hs).
    rewrite Ha in Hy; injection Hy as <-; destruct Hs as [?|[?|?]]; congruence.
Qed.

(** The same idle and current activations. *)
Definition same_cores (k k' : kernel) : Prop :=
  forall p, (fun x => (idle_act x, current_act x)) <$> zget (pools k') p =
            (fun x => (idle_act x, current_act x)) <$> zget (pools k) p.

(** Activation [a], whose record was [x], runnable and queued again because
    of [cause]. *)
Definition woken (a : Z) (x : act_t) (cause : Z) (k' : kernel) : Prop :=
  ~ asleep k' a /\
  exists x' n, acts k' !! a = Some x' /\
    x' = with_sched (fun s => set_queued sched_runnable n (set_woke cause s)) (fast_res cause x) /\
    queued k' a (a_sched x').

Lemma wake_outcome k a x cause :
  wf None None k -> acts k !! a = Some x -> ~ can_run (a_sched x) -> is_idle (a_sched x) = false ->
  sched_status (a_sched x) <> sched_terminated ->
  outcome ((_ ← upd a (fast_res cause);
            _ ← upd_sched a (set_woke cause);
            _ ← when (has (sched_status (a_sched x)) sched_wait_timeout) (kernel_timer_unsubscribe a);
            add_act_to_queue (pool_id (a_sched x)) a sched_runnable) k)
    (some_full k (pool_id (a_sched x)))
    (fun _ k' => wf None None k' /\ cpu k' = cpu k /\ moved a (acts k) (acts k') /\ woken a x cause k' /\
       keep_sleepers (Some a) k k' /\ same_cores k k').
Proof.
  intros Hwf Ha Hr Hi Ht; rewrite (bindS _ _ _ _ _ (upd_ok _ _ _ _ Ha)); set (x1 := fast_res cause x); set (k1 := set_acts k _).
  assert (E1 : a_sched x1 = a_sched x) by (unfold x1, fast_res; by repeat case_match).
  assert (Hx1 : acts k1 !! a = Some x1) by apply lookup_insert_eq.
  unfold upd_sched; rewrite (bindS _ _ _ _ _ (upd_ok _ _ _ _ Hx1)); set (x2 := with_sched (set_woke cause) x1); set (k2 := set_acts k1 _).
  assert (Hx2 : acts k2 !! a = Some x2) by apply lookup_insert_eq.
  assert (E2 : a_sched x2 = set_woke cause (a_sched x)) by (cbn; by rewrite E1).
  assert (Hk2 : k2 = set_acts k (<[a := x2]> (acts k))) by (unfold k2, k1; cbn; by rewrite insert_insert_eq).
  assert (Hwf2 : wf None None k2) by (rewrite Hk2; apply (quiet_wf _ _ _ _ x); try done; by rewrite E2).
  assert (Hop : wf (Some a) None k2).
  { apply (wf_open None None k2 a x2); try done; rewrite E2; done. }
  destruct (leave_sleep k2 a x2 Hop Hx2) as (k3 & E3 & Hwf3 & Hna & Ha3 & Hp3 & Hc3 & Hs3); [by rewrite E2|].
  rewrite E2 in E3; cbn in E3; rewrite (bindS _ _ _ _ _ E3).
  assert (Hx3 : acts k3 !! a = Some x2) by (by rewrite Ha3).
  replace (pool_id (a_sched x)) with (pool_id (a_sched x2)) by (by rewrite E2).
  eapply outcome_mono; [apply (add_outcome (Some a) k3 a x2 sched_runnable Hwf3 Hx3)| |].
  - by rewrite E2.
  - by left.
  - intros n; split; [by left|by right; left].
  - intros (q & Hq & He); unfold queue_at in Hq; rewrite Hp3 in Hq; by eexists _, q.
  - intros [] k' (Hwf' & Hf & Hm & n & Hn).
    assert (Hna' : ~ asleep k' a) by (unfold asleep; by rewrite (fr_sleeps _ _ Hf)).
    assert (Hw : wf None None k') by (apply (wf_close_sleep None k' a _ Hwf' Hn); cbn; by intros ?).
    split_and!; [done|rewrite (fr_cpu _ _ Hf), Hc3; done| | | |].
    + apply (moved_trans _ _ (acts k3)); [rewrite Ha3, Hk2; apply moved_insert|done].
    + split; [done|]; eexists _, n; split_and!; [exact Hn|done|].
      destruct (wf_act _ _ _ Hw a _ Hn) as (_ & _ & _ & H4); apply H4; [by left| |done]; cbn; by rewrite E1.
    + intros b i Hne Hz; rewrite (fr_sleeps _ _ Hf); by apply Hs3.
    + intros p; rewrite (fr_cores _ _ Hf), Hp3; done.
Qed.

(** What an event does to an activation that it does not wake. *)
Definition noted (ev : Z) (x : act_t) : act_t :=
  with_sched (fun s => set_notify (early_notify s || has ev sched_wait_notify)
                         (commit_early_notify s || has ev sched_wait_commit) s) x.

Definition sync_cleared (ev : Z) (x : act_t) : act_t :=
  if has ev sched_sync_block
  then with_sync (set_condition 0) x else x.

Definition event_post (k : kernel) (a : Z) (x : act_t) (ev : Z) (k' : kernel) : Prop :=
  wf None None k' /\ cpu k' = cpu k /\ moved a (acts k) (acts k') /\ keep_sleepers (Some a) k k' /\ same_cores k k' /\
  let cause := Z.land (sched_status (a_sched x)) ev in
  if cause =? 0
  then sleeps k' = sleeps k /\ pools k' = pools k /\ acts k' = <[a := noted ev (sync_cleared ev x)]> (acts k)
  else woken a (sync_cleared ev x) cause k'.

Lemma receive_outcome k a x events :
  wf None None k -> acts k !! a = Some x -> Z.land events 3 = 0 ->
  outcome (sched_receive_event a events k)
    ((has (effective x events) sched_sync_block = true /\ sync_condition (a_sync x) <> 1) \/
     (Z.land (sched_status (a_sched x)) (effective x events) <> 0 /\ some_full k (pool_id (a_sched x))))
    (fun _ k' => event_post k a x (effective x events) k').
Proof.
  intros Hwf Ha Hev; unfold sched_receive_event; rewrite (bindS _ _ _ _ _ (deref_ok _ _ _ Ha)).
  fold (effective x events); pose proof (woken_was_blocked k a x events Hwf Ha Hev) as Hwb.
  set (ev := effective x events) in *; set (k1 := set_acts k (<[a := sync_cleared ev x]> (acts k))).
  eapply (outcome_bind _ _ _ (has ev sched_sync_block = true /\ sync_condition (a_sync x) <> 1) _ (fun _ k' => k' = k1)).
  { unfold sync_cleared in k1; destruct (has ev sched_sync_block); cbn [when].
    - destruct (Z.eqb_spec (sync_condition (a_sync x)) 1); [|done].
      rewrite (bindS _ _ k tt k) by done; by rewrite (upd_ok _ _ _ _ Ha).
    - cbn; unfold k1; rewrite insert_id by done; by destruct k. }
  { by left. }
  intros [] k' ->; assert (Hx1 : acts k1 !! a = Some (sync_cleared ev x)) by apply lookup_insert_eq.
  assert (E1 : a_sched (sync_cleared ev x) = a_sched x) by (unfold sync_cleared; by case_match).
  assert (Hwf1 : wf None None k1) by (apply (quiet_wf _ _ _ _ x); try done; by rewrite E1).
  unfold event_post; destruct (Z.eqb_spec (Z.land (sched_status (a_sched x)) ev) 0) as [E|E]; cbn [negb].
  - unfold upd_sched; rewrite (upd_ok _ _ _ _ Hx1); cbn; split_and!; try done; rewrite ?insert_insert_eq; try done.
    + apply (quiet_wf None None k a x (noted ev (sync_cleared ev x)) Hwf Ha); cbn; by rewrite E1.
    + apply moved_insert.
    + by apply keep_sleepers_eq.
  - destruct (Hwb E) as (Hnr & Hni & Hnt); rewrite <- E1.
    eapply outcome_mono; [apply (wake_outcome k1 a (sync_cleared ev x)); rewrite ?E1; done|by right; split; [rewrite E1|]|].
    intros [] k' (H1 & H2 & H3 & H4 & H5 & H6); split_and!; [done|done| |exact H5|exact H6|exact H4].
    apply (moved_trans _ _ (acts k1)); [apply moved_insert|done].
Qed.

Lemma has_lor_l x y m : has x m = true -> has (Z.lor x y) m = true.
Proof.
  unfold has; rewrite !negb_true_iff, !Z.eqb_neq; intros H E; apply H, Z.bits_inj'; intros n Hn.
  pose proof (f_equal (fun z => Z.testbit z n) E) as Hb; cbn in Hb.
  rewrite Z.land_spec, Z.lor_spec, Z.bits_0 in Hb; rewrite Z.land_spec, Z.bits_0.
  by destruct (Z.testbit x n), (Z.testbit m n).
Qed.

Lemma has_land_zero x m n : Z.land m n = 0 -> has (Z.land x m) n = false.
Proof. intros E; unfold has; by rewrite <- Z.land_assoc, E, Z.land_0_r. Qed.

Lemma pending_notify x ev :
  has ev sched_wait_notify = true -> early_notify (a_sched x) = true ->
  has (pending_events x ev) sched_wait_notify = true.
Proof. intros H1 H2; unfold pending_events; rewrite H1, H2, !Z.lor_assoc; by apply has_lor. Qed.

Lemma effective_notify x : effective x sched_wait_notify = sched_wait_notify.
Proof. unfold effective; by rewrite has_land_zero. Qed.

Lemma has_lor_false x y m : has x m = false -> has y m = false -> has (Z.lor x y) m = false.
Proof.
  unfold has; rewrite !negb_false_iff, !Z.eqb_eq; intros E1 E2.
  by rewrite Z.land_lor_distr_l, E1, E2.
Qed.

Lemma wait_events_has events timeout m :
  has events m = true -> has (wait_events events timeout) m = true.
Proof. intros H; unfold wait_events; destruct (0 <? timeout); [by apply has_lor_l|done]. Qed.

Lemma wait_events_not events timeout m :
  has events m = false -> has sched_wait_timeout m = false -> has (wait_events events timeout) m = false.
Proof. intros H1 H2; unfold wait_events; destruct (0 <? timeout); [by apply has_lor_false|done]. Qed.

Lemma has_bit x m : has x m = true -> m = 2 ^ Z.log2 m -> Z.land x m = m.
Proof.
  unfold has; rewrite negb_true_iff, Z.eqb_neq; intros H Hm.
  assert (0 <= Z.log2 m) by apply Z.log2_nonneg; rewrite Hm in H |- *; apply Z.bits_inj'; intros n Hn.
  rewrite Z.land_spec, Z.pow2_bits_eqb by done; destruct (Z.eqb_spec (Z.log2 m) n) as [<-|]; [|by rewrite andb_false_r].
  rewrite andb_true_r; destruct (Z.testbit x (Z.log2 m)) eqn:E; [done|exfalso; apply H].
  apply Z.bits_inj'; intros n' Hn'; rewrite Z.land_spec, Z.bits_0, Z.pow2_bits_eqb by done.
  destruct (Z.eqb_spec (Z.log2 m) n') as [<-|]; [by rewrite E|by rewrite andb_false_r].
Qed.
