(* ===== verification/SchedSteps.v ===== *)
(** * Sequences of scheduler operations

    The critical sections of the scheduler as steps on the kernel's state, in
    any order and on any core.  A section is one step: it holds the lock of its
    activation, and the lock of a queue while it changes it.  Two reads of a
    queue come before its lock is taken, the test for a full queue in
    [add_act_to_queue] and the index in [delete_act_from_queue]; what becomes of
    the second on two cores is the last theorem. *)

From S2P Require Import Prelude Kernel Sched SchedInv SchedOps SchedEvents.

(** A sleep slot held by a terminated activation. *)
Definition leaked (k : kernel) (i a : Z) : Prop :=
  zget (sleeps k) i = Some (Some a) /\
  exists x, acts k !! a = Some x /\ sched_status (a_sched x) = sched_terminated.

Definition keeps (k k' : kernel) : Prop := forall i a, leaked k i a -> leaked k' i a.

(** A step that either stops or leaves a well-formed scheduler, giving no
    leaked slot back. *)
Definition good {A} (r : option (A * kernel)) (k : kernel) : Prop :=
  outcome r True (fun _ k' => wf None None k' /\ keeps k k').

Lemma keeps_refl k : keeps k k.
Proof. by intros i a. Qed.

Lemma keeps_trans k1 k2 k3 : keeps k1 k2 -> keeps k2 k3 -> keeps k1 k3.
Proof. intros H1 H2 i a H; by apply H2, H1. Qed.

Lemma moved_keeps a k k' :
  moved a (acts k) (acts k') -> keep_sleepers (Some a) k k' ->
  (forall i, leaked k i a -> leaked k' i a) -> keeps k k'.
Proof.
  intros Hm Hs Ha i b Hl; destruct (decide (b = a)) as [->|Hne]; [by apply Ha|].
  destruct Hl as [Hz (x & Hx & Ht)]; split; [apply Hs; [congruence|done]|].
  destruct (Hm b x Hne Hx) as [n Hn]; by eexists.
Qed.

Lemma settled_keeps k k' : settled k k' -> keeps k k'.
Proof.
  intros [_ Hs _ _ Ha] i a [Hz (x & Hx & Ht)]; split; [by rewrite Hs|].
  destruct (Ha a x Hx) as (n & np & st & Hn & Hst); eexists; split; [exact Hn|].
  destruct Hst as [->|[[E|E] _]]; [done|rewrite Ht in E; done..].
Qed.

(** A step whose record of [a] keeps its status. *)
Lemma same_status_keeps a k k' x x' :
  moved a (acts k) (acts k') -> sleeps k' = sleeps k -> acts k !! a = Some x -> acts k' !! a = Some x' ->
  sched_status (a_sched x') = sched_status (a_sched x) -> keeps k k'.
Proof.
  intros Hm Hs Ha Ha' E; apply (moved_keeps a); [done|by apply keep_sleepers_eq|].
  intros i [Hz (y & Hy & Ht)]; rewrite Ha in Hy; injection Hy as <-.
  split; [by rewrite Hs|]; eexists; split; [done|congruence].
Qed.

Lemma good_resched k pool hint :
  wf None None k -> zget (pools k) (cpu k) = Some pool -> good (sched_reschedule hint k) k.
Proof.
  intros Hwf Hp; eapply outcome_mono; [by apply reschedule_outcome|done|].
  intros [] k' (H1 & H2 & _); split; [done|by apply settled_keeps].
Qed.

Lemma good_reschedule k hint : wf None None k -> good (sched_reschedule hint k) k.
Proof.
  intros Hwf; destruct (zget (pools k) (cpu k)) as [pool|] eqn:Hp; [by apply (good_resched k pool)|].
  unfold sched_reschedule; rewrite (bindS (gets cpu) _ k (cpu k) k eq_refl), bindN; [done|].
  unfold get_pool; by rewrite Hp.
Qed.

Lemma good_change_prio k a x np :
  wf None None k -> acts k !! a = Some x -> 0 <= np < 8 -> good (sched_change_prio a np k) k.
Proof.
  intros Hwf Ha Hnp; eapply outcome_mono; [by apply (change_prio_outcome k a x)|done|].
  intros [] k' (H1 & H2 & H3 & n & Hn); split; [done|].
  by apply (same_status_keeps a k k' x _ H3 (fr_sleeps _ _ H2) Ha Hn).
Qed.

Lemma good_event k a x ev :
  wf None None k -> acts k !! a = Some x -> Z.land ev 3 = 0 -> good (sched_receive_event a ev k) k.
Proof.
  intros Hwf Ha Hev; eapply outcome_mono; [by apply (receive_outcome k a x)|done|].
  intros [] k' (H1 & _ & H3 & H4 & _ & H5); split; [done|].
  apply (moved_keeps a); [done..|]; intros i [Hz (y & Hy & Ht)]; rewrite Ha in Hy; injection Hy as <-.
  cbv zeta in H5; destruct (Z.eqb_spec (Z.land (sched_status (a_sched x)) (effective x ev)) 0) as [E|E].
  - destruct H5 as (Hs & _ & Hk); split; [by rewrite Hs|]; rewrite Hk, lookup_insert_eq; eexists; split; [done|].
    unfold noted, sync_cleared; cbn; by case_match.
  - by destruct (woken_was_blocked k a x ev Hwf Ha Hev E) as (_ & _ & ?).
Qed.

Lemma good_block k pool act a x events timeout :
  wf None None k -> zget (pools k) (cpu k) = Some pool ->
  act = Some a \/ (act = None /\ current_act pool = Some a) ->
  acts k !! a = Some x -> can_run (a_sched x) -> has events sched_wait_timeout = false ->
  good (block_critical act events timeout k) k.
Proof.
  intros Hwf Hp Hact Ha Hr Hev; eapply outcome_mono; [by apply (block_critical_outcome k pool act a x)|done|].
  intros r k' (H1 & _ & H3 & H4 & _); split; [done|].
  apply (moved_keeps a); [done|intros b i _; by apply H4|].
  intros i [_ (y & Hy & Ht)]; rewrite Ha in Hy; injection Hy as <-.
  destruct Hr as [E|E]; rewrite Ht in E; done.
Qed.

Lemma good_bind {A B} (m : K A) (f : A -> K B) k :
  good (m k) k -> (forall x k', wf None None k' -> keeps k k' -> good (f x k') k') -> good ((m ≫= f) k) k.
Proof.
  intros Hm Hf; eapply outcome_bind; [exact Hm|done|]; intros x k' [H1 H2].
  eapply outcome_mono; [by apply Hf|done|]; intros y k'' [H3 H4]; split; [done|by eapply keeps_trans].
Qed.

Lemma good_ret {A} (x : A) k : wf None None k -> good ((mret x : K A) k) k.
Proof. intros H; split; [done|apply keeps_refl]. Qed.

(** ** Deletion *)

Lemma terminate_outcome k a x :
  wf None None k -> acts k !! a = Some x ->
  outcome ((_ ← when ((sched_status (a_sched x) =? sched_runnable) || (sched_status (a_sched x) =? sched_running))
                  (delete_act_from_queue (pool_id (a_sched x)) a sched_terminated);
            upd_sched a (set_sched_status sched_terminated)) k)
    (is_idle (a_sched x) = true)
    (fun _ k' => wf None None k' /\ frame k k' /\ moved a (acts k) (acts k') /\
       exists n, acts k' !! a = Some (with_sched (set_queued sched_terminated n) x)).
Proof.
  intros Hwf Ha; destruct (_ || _) eqn:E; cbn [when].
  - apply orb_true_iff in E; rewrite !Z.eqb_eq in E; change (can_run (a_sched x)) in E.
    destruct (is_idle (a_sched x)) eqn:Hi; [by rewrite bindN; [|apply (del_idle _ _ x)]|].
    destruct (del_ok None k a x sched_terminated) as (k1 & b & y & E1 & Hwf1 & Hf1 & Hb & Hk1 & _); try done; [by right|].
    rewrite (bindS _ _ _ _ _ E1).
    assert (Hx1 : acts k1 !! a = Some (with_sched (set_queued sched_terminated 255) x)) by (rewrite Hk1; apply lookup_insert_eq).
    unfold upd_sched; rewrite (upd_ok _ _ _ _ Hx1); cbn [outcome].
    rewrite insert_id by done; replace (set_acts k1 (acts k1)) with k1 by (by destruct k1).
    split_and!; [|done| |by exists 255].
    + by apply (wf_close None k1 a _ Hwf1 Hx1); intros [].
    + rewrite Hk1; by apply del_moved.
  - apply orb_false_iff in E; rewrite !Z.eqb_neq in E.
    rewrite (bindS (mret tt : K unit) _ k tt k eq_refl); unfold upd_sched; rewrite (upd_ok _ _ _ _ Ha); cbn [outcome].
    split_and!; [|apply frame_acts|apply moved_insert|eexists; apply lookup_insert_eq].
    assert (Hnr : ~ can_run (a_sched x)) by (unfold can_run; tauto).
    destruct (wf_act _ _ _ Hwf a x Ha) as ((H1 & H2) & _ & H3 & _); apply (change_wf _ _ _ _ x); [done..|].
    split; cbn; try done; [|by split; [left|right; right; left]].
    intros _; split; [|done]; unfold can_run in *; cbn; split; intros []; tauto || done.
Qed.

(** The activation is terminated first; what follows is a switch. *)
Lemma delete_outcome k a x :
  wf None None k -> acts k !! a = Some x ->
  outcome (sched_delete a k) True (fun _ k' => wf None None k' /\
    exists k1 n, frame k k1 /\ moved a (acts k) (acts k1) /\
      acts k1 !! a = Some (with_sched (set_queued sched_terminated n) x) /\ keeps k1 k').
Proof.
  intros Hwf Ha; unfold sched_delete.
  rewrite (bindS (gets cpu) _ k (cpu k) k eq_refl), (bindS _ _ _ _ _ (sched_of_ok _ _ _ Ha)).
  destruct ((pool_id (a_sched x) =? cpu k) || negb (sched_status (a_sched x) =? sched_running)); [|by rewrite bindN].
  rewrite (bindS _ _ k tt k), <- bind_assoc by done.
  eapply outcome_bind; [by apply (terminate_outcome k a x)|done|]; intros [] k1 (H1 & H2 & H3 & n & Hn).
  destruct (_ && _); cbn [when].
  - eapply outcome_mono; [apply (good_reschedule k1 None H1)|done|].
    intros [] k2 [H5 H6]; split; [done|]; by exists k1, n.
  - split; [done|]; exists k1, n; split_and!; try done; apply keeps_refl.
Qed.

Lemma good_delete k a x :
  wf None None k -> acts k !! a = Some x -> good (sched_delete a k) k.
Proof.
  intros Hwf Ha; eapply outcome_mono; [by apply (delete_outcome k a x)|done|].
  intros [] k' (H1 & k1 & n & H2 & H3 & Hn & Hk); split; [done|]; apply (keeps_trans _ k1); [|done].
  apply (moved_keeps a); [done|apply keep_sleepers_eq, (fr_sleeps _ _ H2)|].
  intros i [Hz _]; split; [by rewrite (fr_sleeps _ _ H2)|by eexists].
Qed.

(** ** Creation *)

Lemma fresh_ne {k : kernel} {a b y} : acts k !! a = None -> acts k !! b = Some y -> b <> a.
Proof. congruence. Qed.

(** A new activation is in no structure of the scheduler. *)
Lemma fresh_sleeps k k' a x :
  sleeps_wf None k -> acts k !! a = None -> acts k' = <[a := x]> (acts k) -> sleeps k' = sleeps k ->
  has (sched_status (a_sched x)) sched_wait_timeout = false -> sleeps_wf None k'.
Proof.
  intros (H1 & H2 & H3) Ha Hk Hs Ht; unfold sleeps_wf; rewrite Hk, Hs; split_and!; [done| |].
  - intros i b Hb; destruct (H2 i b Hb) as (y & Hy & H); exists y.
    by rewrite lookup_insert_ne by (symmetry; apply (fresh_ne Ha Hy)).
  - intros b y Hb; destruct (decide (b = a)) as [->|Hne].
    + rewrite lookup_insert_eq in Hb; injection Hb as <-; congruence.
    + rewrite lookup_insert_ne in Hb by done; by apply H3.
Qed.

Lemma fresh_wf k a x pool :
  wf None None k -> acts k !! a = None -> 0 <= priority (a_sched x) < 8 ->
  zget (pools k) (pool_id (a_sched x)) = Some pool -> is_idle (a_sched x) = false ->
  sched_status (a_sched x) = sched_runnable \/ sched_status (a_sched x) = sched_terminated ->
  wf (Some a) None (set_acts k (<[a := x]> (acts k))).
Proof.
  intros Hwf Ha Hpr Hp Hi Hst.
  assert (Hl : forall b y, acts k !! b = Some y -> <[a := x]> (acts k) !! b = Some y)
    by (intros b y Hb; rewrite lookup_insert_ne; [done|symmetry; apply (fresh_ne Ha Hb)]).
  split.
  - intros p l q Hq; destruct (wf_queue _ _ _ Hwf p l q Hq) as (H1 & H2 & H3); split_and!; [done|lia..|].
    intros i Hii; destruct (H3 i Hii) as (b & y & Hg & Hb & Hh & _); exists b, y; split_and!; try done; [by apply Hl|].
    intros [= ->]; congruence.
  - intros p pl Hpl; destruct (wf_pool _ _ _ Hwf p pl Hpl) as (H1 & H2 & H3 & H4); split_and!; try done.
    + intros b Hb; destruct (H3 b Hb) as (y & Hy & H); exists y; split; [by apply Hl|done].
    + intros b Hb; destruct (H4 b Hb) as (y & Hy & H); exists y; split; [by apply Hl|done].
  - intros b y Hb; cbn in Hb; destruct (decide (b = a)) as [->|Hne].
    + rewrite lookup_insert_eq in Hb; injection Hb as <-; split_and!; try lia; try congruence.
      * by destruct Hst as [->| ->].
      * exists pool; split_and!; [done|intros E; rewrite E in Hst; by destruct Hst|congruence].
    + rewrite lookup_insert_ne in Hb by done; destruct (wf_act _ _ _ Hwf b y Hb) as (H1 & H2 & H3 & H4).
      split_and!; try apply H1; try done; [intros Hib; split; [by apply H3|congruence]|].
      intros Hr Hib _; by apply H4.
  - apply (fresh_sleeps k _ a x); try done; [apply Hwf|by destruct Hst as [->| ->]].
Qed.

Lemma idle_wf k a x pool cur ps :
  wf None None k -> acts k !! a = None -> 0 <= priority (a_sched x) < 8 ->
  zget (pools k) (pool_id (a_sched x)) = Some pool -> idle_act pool = None -> is_idle (a_sched x) = true ->
  (sched_status (a_sched x) = sched_runnable /\ cur = current_act pool \/
   sched_status (a_sched x) = sched_running /\ cur = Some a /\ current_act pool = None) ->
  zput (pools k) (pool_id (a_sched x)) (mk_pool (Some a) cur (in_queues pool) (queues pool)) = Some ps ->
  wf None None (set_acts (set_pools k ps) (<[a := x]> (acts k))).
Proof.
  intros Hwf Ha Hpr Hp Hid Hi Hst Hps; pose proof (fun j => zget_zput _ _ _ _ j Hps) as Hget.
  assert (Hl : forall b y, acts k !! b = Some y -> <[a := x]> (acts k) !! b = Some y)
    by (intros b y Hb; rewrite lookup_insert_ne; [done|symmetry; apply (fresh_ne Ha Hb)]).
  set (k' := set_acts _ _).
  assert (Hq : forall p' l', queue_at k' p' l' = queue_at k p' l').
  { intros p' l'; unfold queue_at; cbn; rewrite Hget.
    destruct (Z.eqb_spec p' (pool_id (a_sched x))) as [->|]; by rewrite ?Hp. }
  split.
  - intros p l q; rewrite Hq; intros Hq0; destruct (wf_queue _ _ _ Hwf p l q Hq0) as (H1 & H2 & H3); split_and!; [done|lia..|].
    intros i Hii; destruct (H3 i Hii) as (b & y & Hg & Hb & Hh & _); exists b, y; split_and!; try done; by apply Hl.
  - intros p pl; cbn; rewrite Hget; destruct (Z.eqb_spec p (pool_id (a_sched x))) as [->|].
    + intros [= <-]; destruct (wf_pool _ _ _ Hwf _ _ Hp) as (H1 & H2 & _ & H4); split_and!; try done; cbn.
      * intros b [= <-]; exists x; by rewrite lookup_insert_eq.
      * intros b Hb; destruct Hst as [[_ ->]|(_ & -> & _)].
        -- destruct (H4 b Hb) as (y & Hy & H); exists y; split; [by apply Hl|done].
        -- injection Hb as <-; exists x; by rewrite lookup_insert_eq.
    + intros Hpl; destruct (wf_pool _ _ _ Hwf p pl Hpl) as (H1 & H2 & H3 & H4); split_and!; try done; intros b Hb.
      * destruct (H3 b Hb) as (y & Hy & H); exists y; split; [by apply Hl|done].
      * destruct (H4 b Hb) as (y & Hy & H); exists y; split; [by apply Hl|done].
  - intros b y Hb; cbn in Hb; destruct (decide (b = a)) as [->|Hne].
    + rewrite lookup_insert_eq in Hb; injection Hb as <-; split_and!; try lia; try congruence.
      * destruct Hst as [[E _]|[E _]]; rewrite E; done.
      * cbn; rewrite Hget, Z.eqb_refl; eexists; split_and!; [done| |done]; cbn.
        intros E; destruct Hst as [[E' _]|(_ & -> & _)]; [rewrite E in E'; done|done].
      * intros _; split; [|done]; destruct Hst as [[E _]|[E _]]; [by left|by right].
    + rewrite lookup_insert_ne in Hb by done; destruct (wf_act _ _ _ Hwf b y Hb) as (H1 & H2 & H3 & H4).
      split_and!; try apply H1; try done.
      * cbn; rewrite Hget; destruct (Z.eqb_spec (pool_id (a_sched y)) (pool_id (a_sched x))) as [E|]; [|done].
        destruct H2 as (pool2 & Hp2 & Hc2 & Hi2); rewrite E, Hp in Hp2; injection Hp2 as <-.
        eexists; split_and!; [done| |]; cbn.
        -- intros Hr; specialize (Hc2 Hr); by destruct Hst as [[_ ->]|(_ & _ & E')]; [|congruence].
        -- intros Hib; specialize (Hi2 Hib); congruence.
      * intros Hr Hib _; destruct (H4 Hr Hib ltac:(done)) as (q & Hqa & Hn); exists q; by rewrite Hq.
  - apply (fresh_sleeps k _ a x); try done; [apply Hwf|]; destruct Hst as [[-> _]|[-> _]]; done.
Qed.

(** A new activation's memory is zeroed. *)
Definition sched0 : sched_part := mk_sched 0 0 0 0 0 false false false 0 0 0.

Definition create (p a prio : Z) (x : act_t) : K unit :=
  _ ← modify (fun k => set_acts k (<[a := x]> (acts k)));
  sched_create p a prio.

Lemma fresh_keeps k k' a :
  acts k !! a = None -> moved a (acts k) (acts k') -> sleeps k' = sleeps k -> keeps k k'.
Proof.
  intros Ha Hm Hs; apply (moved_keeps a); [done|by apply keep_sleepers_eq|].
  intros i [_ (x & Hx & _)]; congruence.
Qed.

Lemma create_idle_good k a x :
  wf None None k -> acts k !! a = None -> a_sched x = set_home 0 (priority (a_sched x)) false sched0 ->
  (forall pool, zget (pools k) (idles_registered k) = Some pool -> idle_act pool = None) ->
  outcome (create_idle a (set_acts k (<[a := x]> (acts k)))) True (fun _ k' => wf None None k' /\ keeps k k').
Proof.
  intros Hwf Ha Hs Hid; unfold create_idle; set (k1 := set_acts k _); set (i := idles_registered k).
  rewrite (bindS (gets idles_registered) _ k1 i k1 eq_refl).
  destruct (zget (pools k) i) as [pool|] eqn:Hp.
  2: { rewrite bindN; [done|]; unfold get_pool; cbn; by rewrite Hp. }
  rewrite (bindS _ _ _ _ _ (get_pool_ok k1 i pool Hp)); specialize (Hid pool Hp).
  assert (Hx1 : acts k1 !! a = Some x) by apply lookup_insert_eq.
  unfold upd_sched; rewrite (bindS _ _ _ _ _ (upd_ok _ _ _ _ Hx1)); set (x2 := with_sched _ x); set (k2 := set_acts k1 _).
  assert (Hk2 : k2 = set_acts k (<[a := x2]> (acts k))) by (unfold k2, k1; cbn; by rewrite insert_insert_eq).
  pose proof (zget_Some_range _ _ _ Hp) as Hr.
  pose proof (zput_is_Some (pools k) i (mk_pool (Some a) (current_act pool) (in_queues pool) (queues pool)) Hr) as Hps.
  set (ps := <[_ := _]> (pools k)) in Hps.
  rewrite (bindS _ _ _ _ _ (put_pool_ok k2 i _ ps Hps)), Hk2.
  destruct (Z.eqb_spec i 0) as [Ei|Ei]; cbn [negb].
  - cbn; split; [|by apply (fresh_keeps _ _ a Ha); [apply moved_insert|]].
    assert (H : wf None None (set_acts (set_pools k ps) (<[a := x2]> (acts k)))) by (refine (idle_wf k a x2 pool (current_act pool) ps Hwf Ha _ Hp Hid _ _ Hps); [done|done|by left]).
    by destruct H.
  - set (k3 := set_pools _ ps); assert (Hx3 : acts k3 !! a = Some x2) by apply lookup_insert_eq.
    rewrite bind_assoc, (bindS _ _ _ _ _ (upd_ok _ _ _ _ Hx3)), bind_assoc; set (x4 := with_sched _ x2); set (k4 := set_acts k3 _).
    destruct (bool_decide (current_act pool = None)) eqn:Ec; [apply bool_decide_eq_true in Ec|by rewrite bindN].
    rewrite (bindS _ _ k4 tt k4) by done.
    pose proof (zput_is_Some (pools k) i (mk_pool (Some a) (Some a) (in_queues pool) (queues pool)) Hr) as Hps2.
    assert (Hps3 : zput ps i (mk_pool (Some a) (Some a) (in_queues pool) (queues pool)) =
      Some (<[Z.to_nat i := mk_pool (Some a) (Some a) (in_queues pool) (queues pool)]> (pools k))).
    { unfold ps; rewrite zput_is_Some by (by rewrite length_insert); by rewrite list_insert_insert_eq. }
    rewrite (bindS _ _ _ _ _ (put_pool_ok k4 i _ _ Hps3)); unfold k4, k3; cbn; rewrite insert_insert_eq.
    split; [|by apply (fresh_keeps _ _ a Ha); [apply moved_insert|]].
    assert (H : wf None None (set_acts (set_pools k (<[Z.to_nat i := mk_pool (Some a) (Some a) (in_queues pool) (queues pool)]> (pools k)))
      (<[a := x4]> (acts k)))) by (refine (idle_wf k a x4 pool (Some a) _ Hwf Ha _ Hp Hid _ _ Hps2); [done|done|by right]).
    by destruct H.
Qed.

Definition create_ok (k : kernel) (p a prio : Z) (x : act_t) : Prop :=
  acts k !! a = None /\ a_sched x = sched0 /\ 0 <= prio < 8 /\
  (exists pool, zget (pools k) p = Some pool) /\ (exists pool, zget (pools k) 0 = Some pool) /\
  (status x = status_alive -> name_is_idle x = true ->
     forall pool, zget (pools k) (idles_registered k) = Some pool -> idle_act pool = None).

Lemma good_create k p a prio x :
  wf None None k -> create_ok k p a prio x -> good (create p a prio x k) k.
Proof.
  intros Hwf (Ha & Hs & Hpr & (pool & Hp) & (pool0 & Hp0) & Hidle); unfold create, sched_create.
  rewrite (bindS (modify _) _ k tt (set_acts k (<[a := x]> (acts k))) eq_refl); set (k1 := set_acts k _).
  assert (Hx1 : acts k1 !! a = Some x) by apply lookup_insert_eq.
  unfold upd_sched; rewrite (bindS _ _ _ _ _ (upd_ok _ _ _ _ Hx1)); set (x2 := with_sched _ x).
  replace (set_acts k1 (<[a := x2]> (acts k1))) with (set_acts k (<[a := x2]> (acts k)))
    by (unfold k1; cbn; by rewrite insert_insert_eq).
  clear Hx1 k1; set (k2 := set_acts k _); assert (Hx2 : acts k2 !! a = Some x2) by apply lookup_insert_eq.
  assert (Es : a_sched x2 = set_home 0 prio false sched0) by (cbn; by rewrite Hs).
  rewrite (bindS _ _ _ _ _ (deref_ok _ _ _ Hx2)); change (status x2) with (status x); change (name_is_idle x2) with (name_is_idle x).
  destruct (Z.eqb_spec (status x) status_alive) as [Est|Est].
  - destruct (name_is_idle x) eqn:En.
    { refine (create_idle_good k a x2 Hwf Ha _ _); [by rewrite Es|auto]. }
    unfold upd_sched; rewrite (bindS _ _ _ _ _ (upd_ok _ _ _ _ Hx2)); set (x3 := with_sched _ x2); set (k3 := set_acts k2 _).
    assert (Hx3 : acts k3 !! a = Some x3) by apply lookup_insert_eq.
    assert (Hk3 : k3 = set_acts k (<[a := x3]> (acts k))) by (unfold k3, k2; cbn; by rewrite insert_insert_eq).
    assert (E3 : a_sched x3 = set_home p prio false sched0) by (cbn; by rewrite Hs).
    assert (Hwf3 : wf (Some a) None k3) by (rewrite Hk3; eapply fresh_wf; rewrite ?E3; eauto).
    replace p with (pool_id (a_sched x3)) by (by rewrite E3).
    eapply outcome_mono; [apply (add_outcome None k3 a x3 sched_runnable Hwf3 Hx3)|done|].
    + by rewrite E3.
    + by left.
    + intros n; split; [by left|left; cbn; by rewrite Hs].
    + intros [] k' (H1 & H2 & H3 & _); split; [done|]; apply (fresh_keeps _ _ a Ha).
      * apply (moved_trans _ _ (acts k3)); [rewrite Hk3; apply moved_insert|done].
      * by rewrite (fr_sleeps _ _ H2), Hk3.
  - unfold upd_sched; rewrite (upd_ok _ _ _ _ Hx2); set (x3 := with_sched _ x2); unfold k2; cbn; rewrite insert_insert_eq.
    split; [|by apply (fresh_keeps _ _ a Ha); [apply moved_insert|]].
    apply (wf_close None _ a x3); [|apply lookup_insert_eq|by intros []].
    eapply (fresh_wf k a x3 pool0); cbn; rewrite ?Hs; eauto.
Qed.

(** ** The timer *)

Lemma missing_act {A} k a (f : sched_part -> K A) : acts k !! a = None -> (sched_of a ≫= f) k = None.
Proof. intros E; rewrite bindN; [done|]; unfold sched_of, deref, mbind, K_bind; by rewrite E. Qed.

Lemma good_sleepers n i k : wf None None k -> good (check_sleepers n i k) k.
Proof.
  revert i k; induction n as [|n IH]; intros i k Hwf; [by apply good_ret|]; cbn [check_sleepers].
  rewrite (bindS (gets sleeps) _ k (sleeps k) k eq_refl).
  destruct (zget (sleeps k) i) as [e|] eqn:He; [|by rewrite bindN].
  rewrite (bindS _ _ _ _ _ (lift_ok e k)); apply good_bind; [|auto].
  destruct e as [a|]; [|by apply good_ret].
  destruct (wf_sleeps _ _ _ Hwf) as (_ & H2 & _); destruct (H2 i a He) as (x & Hx & _).
  rewrite (bindS _ _ _ _ _ (sched_of_ok _ _ _ Hx)), (bindS (gets now) _ k (now k) k eq_refl).
  destruct (_ <? 0); [by apply good_ret|]; destruct (_ <? _); cbn [when]; [|by apply good_ret].
  by apply (good_event k a x).
Qed.

Lemma good_timer k : wf None None k -> good (kernel_timer k) k.
Proof.
  intros Hwf; unfold kernel_timer; apply good_bind; [by apply good_sleepers|].
  intros _ k' Hwf' _; by apply good_reschedule.
Qed.

Lemma good_got_int k a c : wf None None k -> good (sched_got_int a c k) k.
Proof.
  intros Hwf; unfold sched_got_int; destruct (acts k !! a) as [x|] eqn:Ha; [|by rewrite missing_act].
  rewrite (bindS _ _ _ _ _ (sched_of_ok _ _ _ Ha)).
  destruct (zget (pools k) c) as [pool|] eqn:Hp; [|rewrite bindN; [done|]; unfold get_pool; by rewrite Hp].
  rewrite (bindS _ _ _ _ _ (get_pool_ok _ _ _ Hp)).
  destruct (current_act pool) as [c'|] eqn:Hc; [|by rewrite bindN].
  rewrite (bindS _ _ _ _ _ (lift_ok c' k)); destruct (acts k !! c') as [y|] eqn:Hy; [|by rewrite missing_act].
  rewrite (bindS _ _ _ _ _ (sched_of_ok _ _ _ Hy)).
  destruct (_ && _); cbn [when]; [by apply good_reschedule|by apply good_ret].
Qed.

(** ** Steps *)

Definition set_env (k : kernel) (t c : Z) : kernel :=
  mk_kernel (acts k) (pools k) (sleeps k) (idles_registered k) (event_ref k) t c
    (int_child k) (masks k) (disabled k) (hw_mask k).

(** The critical sections; [OpRecord] stands for those of other components,
    which do not touch the scheduling part of an activation, and [OpEnv] for
    the clock and for the core that takes the next step. *)
Inductive sched_op :=
| OpCreate (p a prio : Z) (x : act_t)
| OpStart (a : Z)
| OpPrio (a np : Z)
| OpDelete (a : Z)
| OpEvent (a events : Z)
| OpBlock (act : option Z) (events timeout : Z)
| OpWoke (a got : Z)
| OpReschedule (hint : option Z)
| OpInterrupt (a : Z)
| OpTimer
| OpCancel (a : Z)
| OpRecord (a : Z) (f : act_t -> act_t)
| OpEnv (t c : Z).

Definition sched_exec (op : sched_op) : K unit :=
  match op with
  | OpCreate p a prio x => create p a prio x
  | OpStart a => sched_schedule 0 a
  | OpPrio a np => sched_change_prio a np
  | OpDelete a => sched_delete a
  | OpEvent a events => sched_receive_event a events
  | OpBlock act events timeout => _ ← block_critical act events timeout; mret tt
  | OpWoke a got => _ ← upd a (fast_res got); upd_sched a (set_woke got)
  | OpReschedule hint => sched_reschedule hint
  | OpInterrupt a => c ← gets cpu; sched_got_int a c
  | OpTimer => kernel_timer
  | OpCancel a => upd_sched a (fun s => set_notify false (commit_early_notify s) s)
  | OpRecord a f => upd a f
  | OpEnv t c => modify (fun k => set_env k t c)
  end.

Definition op_ok (k : kernel) (op : sched_op) : Prop :=
  match op with
  | OpCreate p a prio x => create_ok k p a prio x
  | OpStart a => exists pool, zget (pools k) 0 = Some pool /\ current_act pool = None /\
                   forall x, acts k !! a = Some x -> pool_id (a_sched x) = 0
  | OpPrio _ np => 0 <= np < 8
  | OpEvent _ events => Z.land events 3 = 0
  | OpBlock act events _ => has events sched_wait_timeout = false /\
      exists pool a x, zget (pools k) (cpu k) = Some pool /\ current_act pool = Some a /\
        (act = Some a \/ act = None) /\ acts k !! a = Some x /\ can_run (a_sched x)
  | OpRecord a f => forall x, acts k !! a = Some x -> a_sched (f x) = a_sched x
  | _ => True
  end.

Inductive sched_steps : kernel -> kernel -> Prop :=
| steps_refl k : sched_steps k k
| steps_more k k1 k2 op : sched_steps k k1 -> op_ok k1 op -> sched_exec op k1 = Some (tt, k2) -> sched_steps k k2.

Lemma good_quiet k a f :
  wf None None k -> (forall x, acts k !! a = Some x -> quiet (a_sched x) (a_sched (f x))) -> good (upd a f k) k.
Proof.
  intros Hwf Hf; destruct (acts k !! a) as [x|] eqn:Ha; [|unfold upd; by rewrite Ha].
  specialize (Hf x eq_refl); rewrite (upd_ok _ _ _ _ Ha); split; [by apply (quiet_wf _ _ _ _ x)|].
  apply (same_status_keeps a k _ x (f x)); try done; [apply moved_insert|apply lookup_insert_eq|apply Hf].
Qed.

Lemma good_start k a : wf None None k -> op_ok k (OpStart a) -> good (sched_schedule 0 a k) k.
Proof.
  intros Hwf (pool & Hp & Hc & Hx); destruct (acts k !! a) as [x|] eqn:Ha; [|unfold sched_schedule; by rewrite missing_act].
  specialize (Hx x eq_refl); destruct (decide (sched_status (a_sched x) = sched_runnable)) as [Hs|Hs].
  - destruct (schedule_ok k 0 pool a x) as (k' & -> & H1 & H2 & _); try done; [|split; [done|by apply settled_keeps]].
    intros b y Hb Hpb Hr; destruct (current_of _ _ _ _ _ Hwf Hb) as (pool2 & Hp2 & Hc2).
    rewrite Hpb, Hp in Hp2; injection Hp2 as <-; rewrite Hc in Hc2; by specialize (Hc2 Hr).
  - unfold sched_schedule; rewrite (bindS _ _ _ _ _ (sched_of_ok _ _ _ Ha)), bindN; [done|].
    by apply Z.eqb_neq in Hs as ->.
Qed.

Lemma step_good k op : wf None None k -> op_ok k op -> good (sched_exec op k) k.
Proof.
  intros Hwf Hok; destruct op as [p a prio x|a|a np|a|a ev|act ev t|a got|hint|a| |a|a f|t c]; cbn [sched_exec op_ok] in *.
  - by apply good_create.
  - by apply good_start.
  - destruct (acts k !! a) as [x|] eqn:Ha; [by apply (good_change_prio k a x)|]; unfold sched_change_prio; by rewrite missing_act.
  - destruct (acts k !! a) as [x|] eqn:Ha; [by apply (good_delete k a x)|].
    unfold sched_delete; rewrite (bindS (gets cpu) _ k (cpu k) k eq_refl); by rewrite missing_act.
  - destruct (acts k !! a) as [x|] eqn:Ha; [by apply (good_event k a x)|].
    unfold sched_receive_event; rewrite bindN; [done|]; unfold deref; by rewrite Ha.
  - destruct Hok as (Hev & pool & a & x & Hp & Hc & Hact & Ha & Hr); apply good_bind; [|intros; by apply good_ret].
    apply (good_block k pool act a x); try done; destruct Hact as [->| ->]; auto.
  - apply good_bind; [apply good_quiet; [done|]|intros; apply good_quiet; [done|]].
    + intros x _; unfold fast_res; by repeat case_match.
    + done.
  - by apply good_reschedule.
  - rewrite (bindS (gets cpu) _ k (cpu k) k eq_refl); by apply good_got_int.
  - by apply good_timer.
  - by apply good_quiet.
  - apply good_quiet; [done|]; intros x Hx; by rewrite (Hok x Hx).
  - split; [by destruct Hwf|by intros i b].
Qed.

Lemma steps_good k k' : wf None None k -> sched_steps k k' -> wf None None k' /\ keeps k k'.
Proof.
  intros Hwf Hs; induction Hs as [k|k k1 k2 op _ IH Hok He]; [split; [done|apply keeps_refl]|].
  destruct (IH Hwf) as [Hw Hk]; pose proof (step_good k1 op Hw Hok) as Hg; rewrite He in Hg.
  destruct Hg as [Hw2 Hk2]; split; [done|by eapply keeps_trans].
Qed.

(** ** Boot *)

Definition boot (n : nat) : kernel :=
  sched_init (mk_kernel ∅ (replicate n pool0) (replicate MAX_WAITERS None) 0 None 0 0 [] [] [] []).

Lemma zget_replicate {A} (x : A) n i y : zget (replicate n x) i = Some y -> y = x.
Proof. unfold zget; destruct_if; [|done]; intros H; by apply lookup_replicate in H as [-> _]. Qed.

Lemma boot_wf n : wf None None (boot n).
Proof.
  split.
  - intros p l q Hq; apply queue_at_pool in Hq as (pool & Hp & Hq); cbn in Hp; apply zget_replicate in Hp as ->.
    apply (zget_replicate queue0 5) in Hq as ->; split_and!; [done|cbn; lia..|]; cbn; lia.
  - intros p pool Hp; cbn in Hp; apply zget_replicate in Hp as ->; by split_and!.
  - intros a x Ha; change (acts (boot n)) with (∅ : gmap Z act_t) in Ha; by rewrite lookup_empty in Ha.
  - split_and!; [done| |intros a x Ha; change (acts (boot n)) with (∅ : gmap Z act_t) in Ha; by rewrite lookup_empty in Ha].
    intros i a Hi; by apply (zget_replicate None 16) in Hi.
Qed.

(** A small system: the idle activation [1], the boot activation [2], which
    runs, and another one, [3]. *)
Definition fresh (st : Z) (idle : bool) : act_t :=
  mk_act st idle sched0 (mk_queue 0 3 0 []) (mk_sync 0 0 0 false None 0 0) (mk_ret 0 0 0) None.

Definition exec_ops (ops : list sched_op) (k : kernel) : kernel :=
  foldl (fun k op => match sched_exec op k with Some (_, k') => k' | None => k end) k ops.

Definition demo_ops : list sched_op :=
  [OpCreate 0 1 PRIO_MID (fresh status_alive true); OpCreate 0 2 PRIO_MID (fresh status_alive false);
   OpStart 2; OpCreate 0 3 PRIO_MID (fresh status_alive false)].

Definition demo : kernel := exec_ops demo_ops (boot 1).

Definition demo1 : kernel := exec_ops (take 1 demo_ops) (boot 1).
Definition demo2 : kernel := exec_ops (take 2 demo_ops) (boot 1).
Definition demo3 : kernel := exec_ops (take 3 demo_ops) (boot 1).

Lemma demo3_steps : sched_steps (boot 1) demo3.
Proof.
  apply (steps_more _ demo2 _ (OpStart 2)); [|vm_compute|by vm_compute].
  2: { eexists; split_and!; [reflexivity|reflexivity|]; intros x [= <-]; reflexivity. }
  apply (steps_more _ demo1 _ (OpCreate 0 2 PRIO_MID (fresh status_alive false))); [|vm_compute; naive_solver lia|by vm_compute].
  apply (steps_more _ (boot 1) _ (OpCreate 0 1 PRIO_MID (fresh status_alive true))); [|vm_compute; naive_solver lia|by vm_compute].
  apply steps_refl.
Qed.

Lemma demo_steps : sched_steps (boot 1) demo.
Proof.
  apply (steps_more _ demo3 _ (OpCreate 0 3 PRIO_MID (fresh status_alive false)));
    [apply demo3_steps|vm_compute; naive_solver lia|by vm_compute].
Qed.

(** ** The properties *)

(** C24: From boot, after any sequence of the scheduler's critical sections,
    taken by any cores in any order (creation, start, priority changes,
    deletion, events, blocking, rescheduling, interrupts, timer ticks), the
    scheduler is well formed: each queue holds exactly the activations of its
    core and level that can run, each at the index its record names; the
    number queued is the sum of the queues; a running activation is its
    core's current one; the sleep array holds exactly the activations with a
    timeout, and those terminated while they had one. *)
Theorem sched_invariant n k : sched_steps (boot n) k -> wf None None k.
Proof. intros Hs; by destruct (steps_good (boot n) k (boot_wf n) Hs). Qed.

Lemma sched_invariant_witness : sched_steps (boot 1) demo /\ wf None None demo.
Proof. split; [exact demo_steps|exact (sched_invariant 1 demo demo_steps)]. Defined.

(** C25: On a core with an idle activation and a current one, no full queue
    and a hint that is an activation, [sched_reschedule] always completes: no
    assertion of it or of [sched_picknext] fails.  The activation that is
    then current can run, belongs to the core, is running if it was switched
    to, and is the idle one only if nothing was queued or the hint named it;
    the structures stay well formed. *)
Theorem reschedule_progress k pool hint i c :
  wf None None k -> zget (pools k) (cpu k) = Some pool -> idle_act pool = Some i -> current_act pool = Some c ->
  (forall l q, queue_at k (cpu k) l = Some q -> act_queue_end q < 31) ->
  (forall h, hint = Some h -> acts k !! h <> None) ->
  exists k', sched_reschedule hint k = Some (tt, k') /\ rescheduled hint pool k k'.
Proof.
  intros Hwf Hp Hi Hc Hfull Hh; pose proof (reschedule_outcome k pool hint Hwf Hp) as H.
  destruct (sched_reschedule hint k) as [[[] k']|]; [by exists k'|exfalso].
  destruct H as [(h & E & Hn)|[(l & q & Hq & E)|[[_ E]|E]]]; [by apply (Hh h)|apply Hfull in Hq; lia|congruence..].
Qed.

Lemma demo_wf : wf None None demo.
Proof. by destruct (steps_good (boot 1) demo (boot_wf 1) demo_steps). Qed.

Definition demo_pool : sched_pool := default pool0 (zget (pools demo) 0).

Lemma demo_not_full : forall l q, queue_at demo (cpu demo) l = Some q -> act_queue_end q < 31.
Proof.
  intros l q Hq; apply queue_at_pool in Hq as (pool & Hp & Hq).
  assert (Hd : zget (pools demo) (cpu demo) = Some demo_pool) by reflexivity.
  rewrite Hd in Hp; injection Hp as <-.
  apply zget_Some_range in Hq as Hr; change (length (queues demo_pool)) with 5%nat in Hr.
  assert (l = 0 \/ l = 1 \/ l = 2 \/ l = 3 \/ l = 4) as [->|[->|[->|[->| ->]]]] by lia;
    vm_compute in Hq; injection Hq as <-; reflexivity.
Qed.

Lemma reschedule_progress_witness :
  exists k', sched_reschedule (Some 3) demo = Some (tt, k') /\ rescheduled (Some 3) demo_pool demo k'.
Proof.
  apply (reschedule_progress demo demo_pool (Some 3) 1 2); [exact demo_wf|reflexivity..| |].
  - exact demo_not_full.
  - intros h [= <-]; by vm_compute.
Defined.

Lemma notified_then_waits k pool a x events timeout :
  wf None None k -> zget (pools k) (cpu k) = Some pool -> current_act pool = Some a ->
  acts k !! a = Some x -> can_run (a_sched x) -> early_notify (a_sched x) = true ->
  has events sched_wait_notify = true -> has events sched_wait_timeout = false -> has events sched_sem = false ->
  exists k2 got x2, block_critical None events timeout k = Some ((a, got), k2) /\
    has got sched_wait_notify = true /\
    acts k2 !! a = Some x2 /\ can_run (a_sched x2) /\ early_notify (a_sched x2) = false.
Proof.
  intros Hwf Hp Hc Ha Hr He Hn Ht Hsem.
  pose proof (wait_events_has events timeout _ Hn) as Hn'.
  pose proof (wait_events_not events timeout sched_sem Hsem eq_refl) as Hs'.
  pose proof (pending_notify x _ Hn' He) as Hpend.
  assert (Hne : pending_events x (wait_events events timeout) <> 0) by (intros E; by rewrite E in Hpend).
  pose proof (block_critical_outcome k pool None a x events timeout Hwf Hp (or_intror (conj eq_refl Hc)) Ha Hr Ht) as H.
  destruct (block_critical None events timeout k) as [[r k2]|]; [|by destruct H as [[? _]|?]; [|congruence]].
  destruct H as (_ & _ & _ & _ & -> & H); apply Z.eqb_neq in Hne; rewrite Hne in H.
  eexists k2, _, _; split_and!; [done|done|rewrite H; apply lookup_insert_eq|..];
    unfold consume; rewrite Hn', He; done.
Qed.

Lemma waits_then_notified k pool a x events timeout k1 :
  wf None None k -> zget (pools k) (cpu k) = Some pool -> current_act pool = Some a ->
  acts k !! a = Some x -> can_run (a_sched x) ->
  has events sched_wait_notify = true -> has events sched_wait_timeout = false ->
  block_critical None events timeout k = Some ((a, 0), k1) ->
  exists x1, acts k1 !! a = Some x1 /\ ~ can_run (a_sched x1) /\
     outcome (sched_receive_event a sched_wait_notify k1) (some_full k1 (pool_id (a_sched x1)))
       (fun _ k2 => woken a x1 sched_wait_notify k2).
Proof.
  intros Hwf Hp Hc Ha Hr Hn Ht Hb; pose proof (wait_events_has events timeout _ Hn) as Hn'.
  pose proof (block_critical_outcome k pool None a x events timeout Hwf Hp (or_intror (conj eq_refl Hc)) Ha Hr Ht) as H.
  rewrite Hb in H; destruct H as (Hwf1 & _ & _ & _ & [= Hpend] & H); rewrite <- Hpend in H; cbn in H.
  destruct H as (x' & _ & Hx1); eexists; split; [exact Hx1|].
  set (x1 := with_sched _ x') in *; pose proof (receive_outcome k1 a x1 sched_wait_notify Hwf1 Hx1 eq_refl) as H.
  rewrite effective_notify in H; change (sched_status (a_sched x1)) with (wait_events events timeout) in H.
  assert (Hcause : Z.land (wait_events events timeout) sched_wait_notify = sched_wait_notify).
  { apply has_bit; [done|by vm_compute]. }
  assert (Hnr : ~ can_run (a_sched x1)).
  { intros E; change (can_run (set_queued (wait_events events timeout) 0 (a_sched x'))) in E.
    unfold can_run in E; cbn in E; destruct E as [E|E]; rewrite E in Hn'; done. }
  split; [done|]; eapply outcome_mono; [exact H|by intros [[? _]|[_ ?]]|].
  intros [] k2 (_ & _ & _ & _ & _ & H2); cbv zeta in H2.
  change (sched_status (a_sched x1)) with (wait_events events timeout) in H2; by rewrite Hcause in H2.
Qed.

(** C26: A notification is never lost, whichever comes first.  If it arrives
    before the running activation waits for notifications, the wait returns at
    once with the notification, which is consumed, and the activation can
    still run.  If the activation has blocked first, the notification makes it
    runnable and queues it again, out of the sleep array. *)
Theorem notify_never_lost k pool a x events timeout :
  wf None None k -> zget (pools k) (cpu k) = Some pool -> current_act pool = Some a ->
  acts k !! a = Some x -> can_run (a_sched x) ->
  has events sched_wait_notify = true -> has events sched_wait_timeout = false -> has events sched_sem = false ->
  (exists k1 k2 got x2, sched_receive_event a sched_wait_notify k = Some (tt, k1) /\
     block_critical None events timeout k1 = Some ((a, got), k2) /\ has got sched_wait_notify = true /\
     acts k2 !! a = Some x2 /\ can_run (a_sched x2) /\ early_notify (a_sched x2) = false) /\
  (forall k1, block_critical None events timeout k = Some ((a, 0), k1) ->
     exists x1, acts k1 !! a = Some x1 /\ ~ can_run (a_sched x1) /\
     outcome (sched_receive_event a sched_wait_notify k1) (some_full k1 (pool_id (a_sched x1)))
       (fun _ k2 => woken a x1 sched_wait_notify k2)).
Proof.
  intros Hwf Hp Hc Ha Hr Hn Ht Hsem; split; [|intros k1; by apply (waits_then_notified k pool a x)].
  pose proof (receive_outcome k a x sched_wait_notify Hwf Ha eq_refl) as H; rewrite effective_notify in H.
  assert (Hz : Z.land (sched_status (a_sched x)) sched_wait_notify = 0) by (by destruct Hr as [->| ->]).
  destruct (sched_receive_event a sched_wait_notify k) as [[[] k1]|]; [|by destruct H as [[? _]|[? _]]].
  destruct H as (Hwf1 & Hcpu1 & _ & _ & Hcores & H); rewrite Hz in H; destruct H as (_ & _ & Hk1).
  set (x1 := noted _ _) in Hk1.
  assert (Hx1 : acts k1 !! a = Some x1) by (rewrite Hk1; apply lookup_insert_eq).
  specialize (Hcores (cpu k)); rewrite Hp in Hcores; destruct (zget (pools k1) (cpu k)) as [pool1|] eqn:Hp1; [|done].
  injection Hcores as _ Hc1; rewrite Hc in Hc1; rewrite <- Hcpu1 in Hp1.
  destruct (notified_then_waits k1 pool1 a x1 events timeout) as (k2 & got & x2 & ? & ? & ? & ? & ?); try done.
  { apply orb_true_r. }
  exists k1, k2, got, x2; by split_and!.
Qed.

Lemma notify_never_lost_witness :
  (exists k1 k2 got x2, sched_receive_event 2 sched_wait_notify demo = Some (tt, k1) /\
     block_critical None sched_wait_notify 5 k1 = Some ((2, got), k2) /\ has got sched_wait_notify = true /\
     acts k2 !! 2 = Some x2 /\ can_run (a_sched x2) /\ early_notify (a_sched x2) = false) /\
  (forall k1, block_critical None sched_wait_notify 5 demo = Some ((2, 0), k1) ->
     exists x1, acts k1 !! 2 = Some x1 /\ ~ can_run (a_sched x1) /\
     outcome (sched_receive_event 2 sched_wait_notify k1) (some_full k1 (pool_id (a_sched x1)))
       (fun _ k2 => woken 2 x1 sched_wait_notify k2)).
Proof.
  exact (notify_never_lost demo demo_pool 2 (default (fresh 0 false) (acts demo !! 2)) sched_wait_notify 5
    demo_wf eq_refl eq_refl eq_refl (or_intror eq_refl) eq_refl eq_refl eq_refl).
Defined.

(** Deleting an activation that sleeps with a timeout does not give its
    slot of the sleep array back, and nothing ever does: after any further
    steps of the scheduler the slot still holds the terminated activation.
    Once every slot is taken, [kernel_timer_subscribe] stops the kernel
    whoever calls it. *)
Theorem terminated_sleeper_leaks k a x i k' k'' :
  wf None None k -> acts k !! a = Some x -> zget (sleeps k) i = Some (Some a) ->
  sched_delete a k = Some (tt, k') -> sched_steps k' k'' ->
  zget (sleeps k'') i = Some (Some a) /\
  ((forall j, zget (sleeps k'') j <> Some None) -> forall b t, kernel_timer_subscribe b t k'' = None).
Proof.
  intros Hwf Ha Hi Hd Hs; pose proof (delete_outcome k a x Hwf Ha) as H; rewrite Hd in H.
  destruct H as (Hwf' & k1 & n & H2 & _ & Hn & Hk).
  destruct (steps_good k' k'' Hwf' Hs) as [_ Hk2]; split.
  - apply (Hk2 i a), (Hk i a); split; [by rewrite (fr_sleeps _ _ H2)|by eexists].
  - intros Hfull b t; destruct (acts k'' !! b) as [y|] eqn:Hb.
    + rewrite (subscribe_run k'' b y t Hb); destruct (free_slot (sleeps k'') 0) as [j|] eqn:E; [|done].
      by apply free_slot_zget, Hfull in E.
    + unfold kernel_timer_subscribe, kernel_timer_start_count, upd_sched; rewrite bind_assoc.
      rewrite (bindS (gets now) _ k'' (now k'') k'' eq_refl), bindN; [done|]; unfold upd; by rewrite Hb.
Qed.

(** Activation [2] sleeps, the core switches to [3]. *)
Definition demo_sleep : kernel := exec_ops [OpBlock None sched_wait_notify 5; OpReschedule None] demo.
Definition demo_deleted : kernel := exec_ops [OpDelete 2] demo_sleep.

Lemma demo_sleep_wf : wf None None demo_sleep.
Proof.
  apply (steps_good demo demo_sleep demo_wf).
  apply (steps_more _ (exec_ops [OpBlock None sched_wait_notify 5] demo) _ (OpReschedule None)); [|done|by vm_compute].
  apply (steps_more _ demo _ (OpBlock None sched_wait_notify 5)); [apply steps_refl| |by vm_compute].
  split; [done|]; eexists demo_pool, 2, _; split_and!; [reflexivity|reflexivity|by right|reflexivity|by right].
Qed.

Lemma terminated_sleeper_leaks_witness :
  zget (sleeps demo_deleted) 0 = Some (Some 2) /\
  ((forall j, zget (sleeps demo_deleted) j <> Some None) -> forall b t, kernel_timer_subscribe b t demo_deleted = None).
Proof.
  apply (terminated_sleeper_leaks demo_sleep 2 (default (fresh 0 false) (acts demo_sleep !! 2)) 0 demo_deleted demo_deleted);
    [exact demo_sleep_wf|by vm_compute|by vm_compute|by vm_compute|apply steps_refl].
Defined.

(** Between the critical section that blocks an activation and the switch
    away from it, the event may already arrive.  The switch then finds the
    activation still current and leaves it runnable, not running, while it
    executes; [sched_delete] of itself then does not switch away: a
    terminated activation stays the current one of its core. *)
Theorem woken_before_switch :
  exists k0 k k' pool pool' x x', sched_steps (boot 1) k0 /\ sched_reschedule None k0 = Some (tt, k) /\
    zget (pools k) (cpu k) = Some pool /\ current_act pool = Some 2 /\
    acts k !! 2 = Some x /\ sched_status (a_sched x) = sched_runnable /\
    sched_delete 2 k = Some (tt, k') /\
    zget (pools k') (cpu k') = Some pool' /\ current_act pool' = Some 2 /\
    acts k' !! 2 = Some x' /\ sched_status (a_sched x') = sched_terminated.
Proof.
  set (msg := with_queue (fun q => mk_queue (q_start q) (queue_mask q) (2 ^ 32) (q_msg q))).
  set (d4 := exec_ops [OpBlock None sched_waiting 0] demo3).
  set (d5 := exec_ops [OpRecord 2 msg] d4).
  exists (exec_ops [OpEvent 2 sched_waiting] d5); do 6 eexists; split_and!.
  - apply (steps_more _ d5 _ (OpEvent 2 sched_waiting)); [|done|by vm_compute].
    apply (steps_more _ d4 _ (OpRecord 2 msg)); [|by intros|by vm_compute].
    apply (steps_more _ demo3 _ (OpBlock None sched_waiting 0)); [apply demo3_steps| |by vm_compute].
    split; [done|]; do 3 eexists; split_and!; [by vm_compute|reflexivity|by right|by vm_compute|by right].
  - by vm_compute.
  - by vm_compute.
  - by vm_compute.
  - by vm_compute.
  - by vm_compute.
  - by vm_compute.
  - by vm_compute.
  - by vm_compute.
  - by vm_compute.
  - by vm_compute.
Qed.

(** ** Two cores at one queue *)

(** Removing [b] empties the last place of its queue. *)
Lemma del_last k b y pool q l z st :
  acts k !! b = Some y -> is_idle (a_sched y) = false -> zget (pools k) (pool_id (a_sched y)) = Some pool ->
  zget (queues pool) (LEVEL_TO_NDX (priority (a_sched y))) = Some q ->
  length (act_queue q) = 31%nat -> 0 <= queue_ndx (a_sched y) < act_queue_end q -> act_queue_end q <= 31 ->
  zget (act_queue q) (queue_ndx (a_sched y)) = Some (Some b) ->
  zget (act_queue q) (act_queue_end q - 1) = Some (Some l) -> acts k !! l = Some z -> 1 <= in_queues pool <= 155 ->
  exists k', delete_act_from_queue (pool_id (a_sched y)) b st k = Some (tt, k') /\
    forall a st', delete_locked (pool_id (a_sched y)) a st' (LEVEL_TO_NDX (priority (a_sched y))) (act_queue_end q - 1) k' = None.
Proof.
  intros Hb Hi Hp Hq Hlen Hn He Hgb Hgl Hl Hin.
  destruct (del_run k b y pool q l z st) as (arr & arr' & qs & ps & Harr & Harr' & Hqs & Hps & Hrun); try done.
  eexists; split; [exact Hrun|]; intros a st'; unfold delete_locked.
  set (k1 := set_acts (set_pools k ps) _); assert (Hp1 : zget (pools k1) (pool_id (a_sched y)) = Some (mk_pool (idle_act pool) (current_act pool) (in_queues pool - 1) qs))
    by exact (zget_zput_eq _ _ _ _ Hps).
  rewrite (bindS _ _ _ _ _ (get_pool_ok _ _ _ Hp1)); unfold get_queue; cbn [queues].
  rewrite (zget_zput_eq _ _ _ _ Hqs), (bindS _ _ _ _ _ (lift_ok _ _)); cbn [act_queue].
  rewrite (zget_zput_eq _ _ _ _ Harr'), (bindS _ _ _ _ _ (lift_ok _ _)); by rewrite bindN.
Qed.

(** C40: [delete_act_from_queue] reads the index of the activation before it
    takes the lock of the queue.  In every reachable state, for two activations
    of one core and level that can run, the first of them last in the queue:
    either can be removed; but when one core has read the index of the first and
    another removes the second before the lock is taken, the assertion on the
    slot fails and the kernel stops, whatever else the first core meant to do. *)
Theorem queue_index_race n k a b x y pool q st :
  sched_steps (boot n) k -> acts k !! a = Some x -> acts k !! b = Some y -> a <> b ->
  is_idle (a_sched x) = false -> is_idle (a_sched y) = false -> can_run (a_sched x) -> can_run (a_sched y) ->
  pool_id (a_sched y) = pool_id (a_sched x) -> LEVEL_TO_NDX (priority (a_sched y)) = LEVEL_TO_NDX (priority (a_sched x)) ->
  zget (pools k) (pool_id (a_sched x)) = Some pool -> zget (queues pool) (LEVEL_TO_NDX (priority (a_sched x))) = Some q ->
  queue_ndx (a_sched x) = act_queue_end q - 1 ->
  is_Some (delete_act_from_queue (pool_id (a_sched x)) a st k) /\
  exists k', delete_act_from_queue (pool_id (a_sched x)) b st k = Some (tt, k') /\
    delete_locked (pool_id (a_sched x)) a st (LEVEL_TO_NDX (priority (a_sched x))) (queue_ndx (a_sched x)) k' = None.
Proof.
  intros Hs Ha Hb Hab Hia Hib Hra Hrb Ep El Hp Hq Hx; destruct (steps_good (boot n) k (boot_wf n) Hs) as [Hwf _].
  destruct (queued_facts None None k a x) as (pa & qa & la & ya & Hpa & Hqa & Hlen & Hn & He & Hga & Hgl & Hl & _ & Hin & _); try done.
  rewrite Hp in Hpa; injection Hpa as <-; rewrite Hq in Hqa; injection Hqa as <-.
  destruct (queued_facts None None k b y) as (pb & qb & lb & yb & Hpb & Hqb & _ & Hnb & _ & Hgb & _); try done.
  rewrite Ep, Hp in Hpb; injection Hpb as <-; rewrite El, Hq in Hqb; injection Hqb as <-; split.
  - destruct (del_run k a x pool q la ya st) as (? & ? & ? & ? & _ & _ & _ & _ & ->); try done.
  - rewrite Hx, <- El, <- Ep; destruct (del_last k b y pool q la ya st) as (k' & E & H); [by rewrite ?Ep, ?El..|by exists k'].
Qed.

(** Activations 2 and 3 are in one queue; 3 is the last of it. *)
Lemma queue_index_race_witness :
  is_Some (delete_act_from_queue 0 3 sched_terminated demo) /\
  exists k', delete_act_from_queue 0 2 sched_terminated demo = Some (tt, k') /\
    delete_locked 0 3 sched_terminated (LEVEL_TO_NDX PRIO_MID) 1 k' = None.
Proof.
  assert (exists x y pool q, acts demo !! 3 = Some x /\ acts demo !! 2 = Some y /\ zget (pools demo) 0 = Some pool /\
    zget (queues pool) (LEVEL_TO_NDX PRIO_MID) = Some q /\ queue_ndx (a_sched x) = 1 /\ act_queue_end q = 2 /\
    pool_id (a_sched x) = 0 /\ pool_id (a_sched y) = 0 /\ priority (a_sched x) = PRIO_MID /\ priority (a_sched y) = PRIO_MID /\
    is_idle (a_sched x) = false /\ is_idle (a_sched y) = false /\
    sched_status (a_sched x) = sched_runnable /\ sched_status (a_sched y) = sched_running)
    as (x & y & pool & q & E1 & E2 & E3 & E4 & E5 & E6 & E7 & E8 & E9 & E10 & E11 & E12 & E13 & E14)
    by (do 4 eexists; vm_compute; repeat split; reflexivity).
  pose proof (queue_index_race 1 demo 3 2 x y pool q sched_terminated demo_steps E1 E2 ltac:(lia) E11 E12) as H.
  rewrite E7, E8, E9, E10, E5, E6 in H; apply H; try done; unfold can_run; auto.
Defined.
