(* ===== verification/MsgPush.v ===== *)
(** * The non-blocking message push (cherios/kernel/src/msg.c, msg_push)

    Producers share a queue with its owner through a 64-bit word [msg_tsx]
    that holds the head, the number [f] of the last finished push and the
    number [n] of the last started one.  A producer claims the queue by
    advancing [n], guards each store into the slot with a load-link,
    store-conditional pair around a look at [msg_tsx], and commits by
    advancing the head.  Another producer may claim at any time, which makes
    the first one start again.

    The steps below are the loads and stores of [msg_push], of any number of
    threads in any interleaving, and the owner's [pop_msg] (libuser/src/msg.c).
    A store-conditional succeeds only if its location was not stored to since
    the load-link, which a version number per location records; it may also
    fail for no reason.  The back-off counter only delays claims, so a claim
    is possible whenever the queue is not full.  What the code needs and does not
    enforce is in [orderly], a condition on runs. *)

From S2P Require Import Prelude Kernel.

(** ** The transaction word *)

Definition N_TOP_BIT : Z := Z.shiftl 1 15.

(** Increment [n] without a carry into [f]. *)
Definition claim_tsx (tsx : Z) : Z :=
  let add_msk := Z.land tsx N_TOP_BIT in
  Z.lxor (u64 (Z.lxor add_msk tsx + 1)) add_msk.

Definition commit_tsx (head our : Z) : Z :=
  let n := TRANS_N our in
  u64 (Z.lor (Z.shiftl (Z.lor (Z.shiftl (head + 1) 16) n) 16) n).

Definition enc (hd f n : Z) : Z := hd * 2 ^ 32 + f * 2 ^ 16 + n.

Definition half (z : Z) : Prop := 0 <= z < 2 ^ 16.

Lemma half_mod z : half (z mod 2 ^ 16).
Proof. unfold half; apply Z.mod_pos_bound; lia. Qed.

Lemma TRANS_enc hd f n : half f -> half n ->
  TRANS_N (enc hd f n) = n /\ TRANS_F (enc hd f n) = f /\ TRANS_HD (enc hd f n) = hd.
Proof.
  unfold half, enc, TRANS_N, TRANS_F, TRANS_HD; intros Hf Hn.
  change 65535 with (Z.ones 16); rewrite !Z.land_ones, !Z.shiftr_div_pow2 by done; split_and!.
  - symmetry; apply (Z.mod_unique_pos _ _ (hd * 2 ^ 16 + f)); lia.
  - replace ((hd * 2 ^ 32 + f * 2 ^ 16 + n) / 2 ^ 16) with (hd * 2 ^ 16 + f)
      by (apply (Z.div_unique_pos _ _ _ n); lia).
    symmetry; apply (Z.mod_unique_pos _ _ hd); lia.
  - symmetry; apply (Z.div_unique_pos _ _ _ (f * 2 ^ 16 + n)); lia.
Qed.

Lemma enc_inj hd f n hd' f' n' :
  half f -> half n -> half f' -> half n' -> enc hd f n = enc hd' f' n' -> hd = hd' /\ f = f' /\ n = n'.
Proof.
  intros Hf Hn Hf' Hn' E; destruct (TRANS_enc hd f n Hf Hn) as (E1 & E2 & E3).
  destruct (TRANS_enc hd' f' n' Hf' Hn') as (E1' & E2' & E3'); rewrite E in E1, E2, E3; lia.
Qed.

Lemma lxor_bit15 x : 0 <= x ->
  Z.lxor x (2 ^ 15) = if Z.testbit x 15 then x - 2 ^ 15 else x + 2 ^ 15.
Proof.
  intros Hx; destruct (Z.testbit x 15) eqn:E.
  - assert (H : Z.lor (Z.lxor x (2 ^ 15)) (2 ^ 15) = x).
    { apply Z.bits_inj'; intros i Hi; rewrite Z.lor_spec, Z.lxor_spec, Z.pow2_bits_eqb by lia.
      destruct (Z.eqb_spec 15 i) as [<-|]; [by rewrite E|by rewrite xorb_false_r, orb_false_r]. }
    assert (Hd : Z.land (Z.lxor x (2 ^ 15)) (2 ^ 15) = 0).
    { apply Z.bits_inj'; intros i Hi; rewrite Z.land_spec, Z.lxor_spec, Z.pow2_bits_eqb, Z.bits_0 by lia.
      destruct (Z.eqb_spec 15 i) as [<-|]; [by rewrite E|by rewrite andb_false_r]. }
    pose proof (Z.add_lor_land (Z.lxor x (2 ^ 15)) (2 ^ 15)); lia.
  - assert (Hd : Z.land x (2 ^ 15) = 0).
    { apply Z.bits_inj'; intros i Hi; rewrite Z.land_spec, Z.pow2_bits_eqb, Z.bits_0 by lia.
      destruct (Z.eqb_spec 15 i) as [<-|]; [by rewrite E|by rewrite andb_false_r]. }
    by rewrite Z.add_nocarry_lxor.
Qed.

Lemma land_bit15 x : Z.land x N_TOP_BIT = if Z.testbit x 15 then 2 ^ 15 else 0.
Proof.
  change N_TOP_BIT with (2 ^ 15); apply Z.bits_inj'; intros i Hi; rewrite Z.land_spec, Z.pow2_bits_eqb by lia.
  destruct (Z.eqb_spec 15 i) as [<-|Hne]; destruct (Z.testbit x 15);
    rewrite ?andb_true_r, ?andb_false_r, ?Z.bits_0, ?Z.pow2_bits_eqb by lia; try done.
  symmetry; by apply Z.eqb_neq.
Qed.

Lemma bit15 n : 0 <= n < 2 ^ 16 -> Z.testbit n 15 = (2 ^ 15 <=? n).
Proof.
  intros Hn; destruct (Z.leb_spec (2 ^ 15) n).
  - apply Z.testbit_true; [done|]; replace (n / 2 ^ 15) with 1; [done|].
    apply (Z.div_unique_pos _ _ _ (n - 2 ^ 15)); lia.
  - apply Z.testbit_false; [done|]; by rewrite Z.div_small by lia.
Qed.

Lemma enc_bit15 hd f n : half f -> half n -> Z.testbit (enc hd f n) 15 = Z.testbit n 15.
Proof.
  intros Hf Hn; destruct (TRANS_enc hd f n Hf Hn) as (E & _); unfold TRANS_N in E.
  rewrite <- E at 2; change 65535 with (Z.ones 16); rewrite Z.land_spec.
  by rewrite Z.ones_spec_low, andb_true_r by lia.
Qed.

Lemma claim_enc hd f n :
  0 <= hd < 2 ^ 32 -> half f -> half n -> claim_tsx (enc hd f n) = enc hd f ((n + 1) mod 2 ^ 16).
Proof.
  intros Hhd Hf Hn; unfold claim_tsx; rewrite land_bit15, enc_bit15, bit15 by done.
  unfold half in *; destruct (Z.leb_spec (2 ^ 15) n) as [Hb|Hb].
  - rewrite (Z.lxor_comm (2 ^ 15) (enc hd f n)), (lxor_bit15 (enc hd f n)), enc_bit15, bit15 by (unfold enc; unfold half; lia).
    destruct (Z.leb_spec (2 ^ 15) n); [|lia].
    replace (enc hd f n - 2 ^ 15 + 1) with (enc hd f (n - 2 ^ 15 + 1)) by (unfold enc; lia).
    rewrite wrap_small by (unfold in_range, enc; lia).
    rewrite lxor_bit15, enc_bit15, bit15 by (unfold enc, half; lia).
    destruct (Z.leb_spec (2 ^ 15) (n - 2 ^ 15 + 1)); unfold enc.
    + assert (n = 65535) as -> by lia; change ((65535 + 1) mod 2 ^ 16) with 0; lia.
    + rewrite Z.mod_small by lia; lia.
  - rewrite Z.lxor_0_l, Z.lxor_0_r; rewrite wrap_small by (unfold in_range, enc; lia).
    rewrite Z.mod_small by lia; unfold enc; lia.
Qed.

Lemma lor_shift a b : 0 <= a -> half b -> Z.lor (Z.shiftl a 16) b = a * 2 ^ 16 + b.
Proof. unfold half; intros Ha Hb; rewrite Z.lor_comm, lor_shiftl by lia; lia. Qed.

Lemma commit_enc hd f n :
  0 <= hd -> hd + 1 < 2 ^ 32 -> half f -> half n -> commit_tsx hd (enc hd f n) = enc (hd + 1) n n.
Proof.
  intros H1 H2 Hf Hn; unfold commit_tsx; destruct (TRANS_enc hd f n Hf Hn) as (-> & _ & _).
  unfold half in *; rewrite (lor_shift (hd + 1) n) by (unfold half; lia).
  rewrite lor_shift by (unfold half; lia); rewrite wrap_small; unfold in_range, enc; lia.
Qed.

(** ** Threads and memory *)

(** A message as its words in the order of the stores: c3 to c6, the sync
    token, a0 to a3, v0. *)
Definition FIELDS : Z := 10.
Definition word (m : list Z) (j : Z) : Z := nth (Z.to_nat j) m 0.

(** Where a thread is in [msg_push]; [v], [fv] are the versions its links
    remember. *)
Inductive thread :=
| Idle
| Start (m : list Z)                             (* at the top of the loop *)
| Got (m : list Z) (start : Z)                   (* header.start read *)
| Linked (m : list Z) (tsx v : Z)                (* msg_tsx linked, not full *)
| Claimed (m : list Z) (our i : Z)               (* in the block, before store i *)
| FLinked (m : list Z) (our i fv : Z)            (* field i linked *)
| FChecked (m : list Z) (our i fv : Z)           (* and msg_tsx seen unchanged *)
| FinLinked (m : list Z) (our v : Z)             (* msg_tsx linked for the commit *)
| Done
| Full.

(** [log] and [out] record the messages committed and those the owner read. *)
Record push_state := mk_push {
  p_start : Z;
  p_tsx : Z;
  p_tsx_v : Z;
  p_slot : Z -> Z -> Z;
  p_slot_v : Z -> Z -> Z;
  p_thr : Z -> thread;
  p_claims : Z;
  p_log : list (list Z);
  p_out : list (list Z)
}.

Definition upd1 {A} (f : Z -> A) (i : Z) (x : A) : Z -> A := fun j => if j =? i then x else f j.
Definition upd2 {A} (f : Z -> Z -> A) (i j : Z) (x : A) : Z -> Z -> A := upd1 f i (upd1 (f i) j x).

Definition set_thr (s : push_state) (t : Z) (x : thread) : push_state :=
  mk_push (p_start s) (p_tsx s) (p_tsx_v s) (p_slot s) (p_slot_v s) (upd1 (p_thr s) t x)
    (p_claims s) (p_log s) (p_out s).

(** A store to [msg_tsx]. *)
Definition set_tsx (s : push_state) (tsx : Z) (claims : Z) (log : list (list Z)) : push_state :=
  mk_push (p_start s) tsx (p_tsx_v s + 1) (p_slot s) (p_slot_v s) (p_thr s) claims log (p_out s).

(** A store to a field of a slot. *)
Definition set_field (s : push_state) (i j x : Z) : push_state :=
  mk_push (p_start s) (p_tsx s) (p_tsx_v s) (upd2 (p_slot s) i j x)
    (upd2 (p_slot_v s) i j (p_slot_v s i j + 1)) (p_thr s) (p_claims s) (p_log s) (p_out s).

(** The fields of a slot. *)
Definition slot_words (s : push_state) (i : Z) : list Z := (fun j => p_slot s i (Z.of_nat j)) <$> seq 0 10.

Section Push.
Context (qmask : Z).

Definition slot_of (our : Z) : Z := Z.land (TRANS_HD our) qmask.

Inductive push_step (s : push_state) : push_state -> Prop :=
| st_call t m : p_thr s t = Idle -> length m = 10%nat -> push_step s (set_thr s t (Start m))
| st_start t m : p_thr s t = Start m -> push_step s (set_thr s t (Got m (p_start s)))
| st_link t m start :
    p_thr s t = Got m start ->
    push_step s (set_thr s t (if TRANS_HD (p_tsx s) =? start + qmask then Full
                              else Linked m (p_tsx s) (p_tsx_v s)))
| st_again t m tsx v : p_thr s t = Linked m tsx v -> push_step s (set_thr s t (Start m))
| st_claim t m tsx :
    p_thr s t = Linked m tsx (p_tsx_v s) ->
    push_step s (set_thr (set_tsx s (claim_tsx tsx) (p_claims s + 1) (p_log s)) t (Claimed m (claim_tsx tsx) 0))
| st_field t m our i :
    p_thr s t = Claimed m our i -> i < FIELDS ->
    push_step s (set_thr s t (FLinked m our i (p_slot_v s (slot_of our) i)))
| st_check t m our i fv :
    p_thr s t = FLinked m our i fv ->
    push_step s (set_thr s t (if p_tsx s =? our then FChecked m our i fv else Start m))
| st_store t m our i :
    p_thr s t = FChecked m our i (p_slot_v s (slot_of our) i) ->
    push_step s (set_thr (set_field s (slot_of our) i (word m i)) t (Claimed m our (i + 1)))
| st_store_fails t m our i fv : p_thr s t = FChecked m our i fv -> push_step s (set_thr s t (Claimed m our i))
| st_finish t m our :
    p_thr s t = Claimed m our FIELDS ->
    push_step s (set_thr s t (if p_tsx s =? our then FinLinked m our (p_tsx_v s) else Start m))
| st_commit t m our :
    p_thr s t = FinLinked m our (p_tsx_v s) ->
    push_step s (set_thr (set_tsx s (commit_tsx (TRANS_HD our) our) 0 (p_log s ++ [m])) t Done)
| st_commit_fails t m our v : p_thr s t = FinLinked m our v -> push_step s (set_thr s t (Claimed m our FIELDS))
| st_pop :
    p_start s <> TRANS_HD (p_tsx s) ->
    push_step s (mk_push (p_start s + 1) (p_tsx s) (p_tsx_v s) (p_slot s) (p_slot_v s) (p_thr s)
      (p_claims s) (p_log s) (p_out s ++ [slot_words s (Z.land (p_start s) qmask)])).

(** What an empty queue gets to by steps that are all [ok]. *)
Inductive push_reach (ok : push_state -> push_state -> Prop) : push_state -> Prop :=
| reach_init sl : push_reach ok (mk_push 0 0 0 sl (fun _ _ => 0) (fun _ => Idle) 0 [] [])
| reach_step s s' : push_reach ok s -> push_step s s' -> ok s s' -> push_reach ok s'.
End Push.

(** The code is correct under three conditions it does not enforce.  A thread
    that loads [msg_tsx] has a [start] the owner has not moved since; fewer than
    2^16 claims contend for one message, so that [n] does not come around; fewer
    than 2^32 messages are sent, so that the head does not. *)
Record orderly (s s' : push_state) : Prop := mk_orderly {
  o_fresh : forall t m start, p_thr s t = Got m start -> p_thr s' t <> Got m start -> start = p_start s;
  o_claims : p_claims s' < 2 ^ 16;
  o_count : Z.of_nat (length (p_log s')) < 2 ^ 32
}.

(** ** The invariant *)

Definition our_of (x : thread) : option Z :=
  match x with
  | Claimed _ our _ | FLinked _ our _ _ | FChecked _ our _ _ | FinLinked _ our _ => Some our
  | _ => None
  end.

(** The stores a thread has done. *)
Definition prog (x : thread) : Z :=
  match x with
  | Claimed _ _ i | FLinked _ _ i _ | FChecked _ _ i _ => i
  | FinLinked _ _ _ => FIELDS
  | _ => 0
  end.

Definition msg_of (x : thread) : list Z :=
  match x with
  | Start m | Got m _ | Linked m _ _ | Claimed m _ _ | FLinked m _ _ _ | FChecked m _ _ _ | FinLinked m _ _ => m
  | _ => []
  end.

Section Inv.
Context (qmask b : Z) (Hb : 0 <= b) (Hq : qmask = 2 ^ b - 1).

Notation hd s := (TRANS_HD (p_tsx s)).
Notation slot := (slot_of qmask).

Record base (s : push_state) : Prop := {
  b_f : half (TRANS_F (p_tsx s));
  b_tsx : p_tsx s = enc (hd s) (TRANS_F (p_tsx s)) ((TRANS_F (p_tsx s) + p_claims s) mod 2 ^ 16);
  b_claims : 0 <= p_claims s < 2 ^ 16;
  b_hd : hd s = Z.of_nat (length (p_log s));
  b_hd32 : hd s < 2 ^ 32;
  b_start : p_start s = Z.of_nat (length (p_out s));
  b_order : p_start s <= hd s <= p_start s + qmask;
  b_len : Forall (fun m => length m = 10%nat) (p_log s);
  b_out : p_out s = take (length (p_out s)) (p_log s);
  b_slots : forall k m, p_start s <= k < hd s -> p_log s !! Z.to_nat k = Some m ->
    forall j, 0 <= j < FIELDS -> p_slot s (Z.land k qmask) j = word m j
}.

(** What [our_tsx] of a thread in the block can be. *)
Definition blk (s : push_state) (our : Z) : Prop :=
  exists h f n, our = enc h f n /\ half f /\ half n /\ 0 <= h <= hd s /\ h < p_start s + qmask /\
    (h = hd s -> f = TRANS_F (p_tsx s) /\ exists c, 1 <= c <= p_claims s /\ n = (f + c) mod 2 ^ 16).

Definition written (s : push_state) (x : thread) : Prop :=
  our_of x = Some (p_tsx s) ->
  forall j, 0 <= j < prog x -> p_slot s (slot (p_tsx s)) j = word (msg_of x) j.

Definition links_ok (s : push_state) (x : thread) : Prop :=
  match x with
  | Linked _ tsx v => v <= p_tsx_v s /\ (v = p_tsx_v s -> tsx = p_tsx s /\ hd s < p_start s + qmask)
  | FinLinked _ our v => v <= p_tsx_v s /\ (v = p_tsx_v s -> our = p_tsx s)
  | FLinked _ our i fv => i < FIELDS /\ fv <= p_slot_v s (slot our) i
  | FChecked _ our i fv => i < FIELDS /\ fv <= p_slot_v s (slot our) i /\
      (TRANS_HD our < hd s -> fv < p_slot_v s (slot our) i)
  | _ => True
  end.

Record thread_ok (s : push_state) (x : thread) : Prop := {
  t_blk : forall our, our_of x = Some our -> blk s our;
  t_prog : 0 <= prog x <= FIELDS;
  t_len : x <> Idle -> x <> Done -> x <> Full -> length (msg_of x) = 10%nat;
  t_written : written s x;
  t_links : links_ok s x
}.

(** Two threads in the block have different words; a link to a field the
    owner of the block has stored is broken. *)
Definition pair_ok (s : push_state) (x y : thread) : Prop :=
  (forall our, our_of x = Some our -> our_of y <> Some our) /\
  (our_of x = Some (p_tsx s) -> forall m our j fv, y = FChecked m our j fv ->
     j < prog x -> slot our = slot (p_tsx s) -> fv < p_slot_v s (slot our) j).

Record inv (s : push_state) : Prop := {
  i_base : base s;
  i_thr : forall t, thread_ok s (p_thr s t);
  i_pair : forall t u, t <> u -> pair_ok s (p_thr s t) (p_thr s u)
}.

Lemma upd1_eq {A} (f : Z -> A) i x : upd1 f i x i = x.
Proof. unfold upd1; by rewrite Z.eqb_refl. Qed.

Lemma upd1_ne {A} (f : Z -> A) i j x : j <> i -> upd1 f i x j = f j.
Proof. intros H; unfold upd1; by apply Z.eqb_neq in H as ->. Qed.

(** The invariant for a thread's new place from that of the others. *)
Lemma inv_set s t x :
  base s -> (forall u, u <> t -> thread_ok s (p_thr s u)) ->
  (forall u v, u <> t -> v <> t -> u <> v -> pair_ok s (p_thr s u) (p_thr s v)) ->
  thread_ok s x ->
  (forall u, u <> t -> pair_ok s x (p_thr s u) /\ pair_ok s (p_thr s u) x) ->
  inv (set_thr s t x).
Proof.
  intros Hbase Ht Hp Hx Hxp; split.
  - by destruct Hbase.
  - intros u; cbn; destruct (decide (u = t)) as [->|Hne]; [rewrite upd1_eq|rewrite upd1_ne by done].
    + by destruct Hx.
    + by destruct (Ht u Hne).
  - intros u v Huv; cbn; destruct (decide (u = t)) as [->|Hu]; [rewrite upd1_eq, upd1_ne by done|rewrite (upd1_ne _ _ u) by done].
    + by apply Hxp.
    + destruct (decide (v = t)) as [->|Hv]; [rewrite upd1_eq; by apply Hxp|rewrite upd1_ne by done; by apply Hp].
Qed.

Lemma inv_local s t x :
  inv s -> thread_ok s x ->
  (forall u, u <> t -> pair_ok s x (p_thr s u) /\ pair_ok s (p_thr s u) x) ->
  inv (set_thr s t x).
Proof. intros [Hbase Ht Hp] Hx Hxp; apply inv_set; auto. Qed.

(** Leaving the block, or being outside it. *)
Lemma pair_outside s x y : our_of x = None -> pair_ok s x y /\ pair_ok s y x.
Proof.
  intros E; split; (split; [intros our; by rewrite E|]).
  - by rewrite E.
  - by intros _ m our j fv ->.
Qed.

(** Going on inside the block without a link that is checked. *)
Lemma pair_inside s x x' y :
  our_of x' = our_of x -> prog x' <= prog x -> (forall m our j fv, x' <> FChecked m our j fv) ->
  pair_ok s x y -> pair_ok s y x -> pair_ok s x' y /\ pair_ok s y x'.
Proof.
  intros Eo Ep Hn [H1 H2] [H3 H4]; split; (split; [intros our; by rewrite Eo; auto|]).
  - rewrite Eo; intros Ho m our j fv Hy Hj; apply (H2 Ho m); [done|lia].
  - intros Ho m our j fv Hy; by destruct (Hn m our j fv).
Qed.

Lemma outside_inv s t x :
  inv s -> our_of x = None -> (x <> Done -> x <> Full -> length (msg_of x) = 10%nat) -> links_ok s x ->
  inv (set_thr s t x).
Proof.
  intros Hi Ho Hl Hlk; apply inv_local; [done| |intros u _; by apply pair_outside].
  split; [by rewrite Ho|destruct x; cbn; unfold FIELDS; try lia; done|auto|unfold written; by rewrite Ho|done].
Qed.

Lemma inside_inv s t x' :
  inv s -> our_of x' = our_of (p_thr s t) -> prog x' = prog (p_thr s t) -> msg_of x' = msg_of (p_thr s t) ->
  our_of x' <> None -> links_ok s x' ->
  (forall m our j fv, x' = FChecked m our j fv -> our = p_tsx s) ->
  inv (set_thr s t x').
Proof.
  intros Hi Eo Ep Em Hn Hlk Hc; apply inv_local; [done| |].
  - destruct (i_thr _ Hi t) as [H1 H2 H3 H4 H5]; split; try done.
    + by rewrite Eo.
    + by rewrite Ep.
    + intros _ _ _; rewrite Em; apply H3; intros E; rewrite E in Eo; by destruct x'.
    + unfold written; by rewrite Eo, Ep, Em.
  - intros u Hu; destruct (i_pair _ Hi t u (not_eq_sym Hu)) as [H1 H2], (i_pair _ Hi u t Hu) as [H3 H4].
    split; (split; [intros our; rewrite Eo; auto|]); [rewrite Eo, Ep; exact H2|].
    intros Ho m our j fv Hx Hj; pose proof (Hc m our j fv Hx) as ->; subst x'; cbn in Eo.
    by destruct (H3 (p_tsx s) Ho).
Qed.

Lemma land_mask k : Z.land k qmask = k mod 2 ^ b.
Proof. rewrite <- Z.land_ones by done; f_equal; rewrite Z.ones_equiv; lia. Qed.

(** The slot of the head is free while the queue is not full. *)
Lemma head_slot_free h k : k < h < k + 2 ^ b -> Z.land h qmask <> Z.land k qmask.
Proof.
  intros H E; rewrite !land_mask in E.
  assert ((h - k) mod 2 ^ b = 0) by (rewrite Zminus_mod, E, Z.sub_diag; by apply Z.mod_0_l; lia).
  rewrite Z.mod_small in H0 by lia; lia.
Qed.

Lemma our_hd s our : inv s -> (exists t, our_of (p_thr s t) = Some our) ->
  TRANS_HD our <= hd s /\ TRANS_HD our < p_start s + qmask.
Proof.
  intros Hi [t Ht]; destruct (t_blk _ _ (i_thr _ Hi t) our Ht) as (h & f & n & -> & Hf & Hn & Hh & Hs & _).
  destruct (TRANS_enc h f n Hf Hn) as (_ & _ & ->); lia.
Qed.

(** ** Storing a field *)

Lemma upd2_eq {A} (f : Z -> Z -> A) i j x : upd2 f i j x i j = x.
Proof. unfold upd2; by rewrite !upd1_eq. Qed.

Lemma upd2_ne {A} (f : Z -> Z -> A) i j x i' j' : i' <> i \/ j' <> j -> upd2 f i j x i' j' = f i' j'.
Proof.
  intros H; unfold upd2; destruct (decide (i' = i)) as [->|Hi]; [|by rewrite upd1_ne].
  rewrite upd1_eq, upd1_ne; [done|tauto].
Qed.

(** Versions only grow. *)
Lemma version_grows s i j x i' j' : p_slot_v s i' j' <= p_slot_v (set_field s i j x) i' j'.
Proof.
  cbn; destruct (decide (i' = i /\ j' = j)) as [[-> ->]|Hne]; [rewrite upd2_eq; lia|].
  rewrite upd2_ne; [lia|]; destruct (decide (i' = i)); [right|by left]; tauto.
Qed.

Section Store.
Context (s : push_state) (t : Z) (m : list Z) (our i : Z).
Context (Hi : inv s) (Ht : p_thr s t = FChecked m our i (p_slot_v s (slot our) i)).
Notation s1 := (set_field s (slot our) i (word m i)).

(** A thread whose store succeeds works on the slot of the head. *)
Lemma store_at_head : TRANS_HD our = hd s /\ hd s < p_start s + qmask /\ 0 <= i < FIELDS.
Proof.
  pose proof (i_thr _ Hi t) as Hok; rewrite Ht in Hok; destruct Hok as [_ Hprog _ _ [Hi10 [_ Hst]]]; cbn in Hprog.
  destruct (our_hd s our Hi) as [Hle Hlt]; [exists t; by rewrite Ht|].
  destruct (decide (TRANS_HD our < hd s)) as [H|]; [specialize (Hst H)|]; lia.
Qed.

Lemma store_base : base s1.
Proof.
  destruct store_at_head as (Hh & Hfree & _); destruct (i_base _ Hi) as [H1 H2 H3 H4 H5 H6 H7 H8 H9 H10].
  split; try done; intros k m' Hk Hm j Hj; cbn; rewrite upd2_ne; [by apply (H10 k m')|left].
  unfold slot_of; rewrite Hh; apply not_eq_sym, head_slot_free; cbn in Hk; lia.
Qed.

Lemma store_other u : u <> t -> thread_ok s1 (p_thr s u).
Proof.
  intros Hu; destruct (i_thr _ Hi u) as [H1 H2 H3 H4 H5]; split; try done.
  - intros Ho j Hj; cbn in Ho |- *; rewrite upd2_ne; [by apply H4|].
    destruct (decide (slot (p_tsx s) = slot our)) as [E|]; [right; intros ->|by left].
    destruct (i_pair _ Hi u t Hu) as [_ Hg]; specialize (Hg Ho _ _ _ _ Ht (proj2 Hj) (eq_sym E)); lia.
  - destruct (p_thr s u) as [| | | | |m' o j fv|m' o j fv| | |]; try done; cbn [links_ok] in *;
      pose proof (version_grows s (slot our) i (word m i) (slot o) j).
    + split; [apply H5|]; lia.
    + destruct H5 as (H5 & H6 & H7); split_and!; [done|lia|]; cbn in H7 |- *; intros H8; specialize (H7 H8).
      cbn in H; lia.
Qed.

Lemma store_self : thread_ok s1 (Claimed m our (i + 1)).
Proof.
  pose proof (i_thr _ Hi t) as Hok; rewrite Ht in Hok; destruct Hok as [H1 H2 H3 H4 H5].
  destruct store_at_head as (_ & _ & Hr); split; try done; cbn [prog]; [lia|by intros _ _ _; apply H3|].
  intros Ho j Hj; cbn in Ho, Hj |- *; injection Ho as Ho; rewrite <- Ho.
  destruct (decide (j = i)) as [->|]; [by rewrite upd2_eq|rewrite upd2_ne by auto].
  rewrite Ho; apply H4; [by rewrite <- Ho|cbn; lia].
Qed.

Lemma store_pair u v : u <> v -> pair_ok s1 (p_thr s u) (p_thr s v).
Proof.
  intros Huv; destruct (i_pair _ Hi u v Huv) as [H1 H2]; split; [done|].
  intros Ho m' o j fv Hv Hj Hs; specialize (H2 Ho m' o j fv Hv Hj Hs).
  pose proof (version_grows s (slot our) i (word m i) (slot o) j); lia.
Qed.

Lemma store_inv : inv (set_thr s1 t (Claimed m our (i + 1))).
Proof.
  apply inv_set; [apply store_base|apply store_other|intros u v _ _; apply store_pair|apply store_self|].
  intros u Hu; destruct (i_pair _ Hi t u (not_eq_sym Hu)) as [H1 H2], (i_pair _ Hi u t Hu) as [H3 _].
  rewrite Ht in H1, H2, H3; cbn in H1, H2, H3; split; (split; [done|]); [|done].
  intros Ho m' o j fv Hy Hj Hs; cbn in Hy, Ho, Hj, Hs |- *; injection Ho as Ho.
  pose proof (version_grows s (slot our) i (word m i) (slot o) j) as Hv; cbn in Hv.
  destruct (decide (j = i)) as [->|].
  - rewrite Hs, Ho, upd2_eq; pose proof (t_links _ _ (i_thr _ Hi u)) as Hl; rewrite Hy in Hl.
    destruct Hl as (_ & Hl & _); rewrite Hs in Hl; lia.
  - assert (fv < p_slot_v s (slot o) j); [|lia]; apply (H2 ltac:(by rewrite Ho) m' o j fv Hy); [lia|done].
Qed.
End Store.

(** ** Claiming *)

Section Claim.
Context (s : push_state) (t : Z) (m : list Z).
Context (Hi : inv s) (Ht : p_thr s t = Linked m (p_tsx s) (p_tsx_v s)) (Hc : p_claims s + 1 < 2 ^ 16).
Notation f := (TRANS_F (p_tsx s)).
Notation n' := ((f + (p_claims s + 1)) mod 2 ^ 16).
Notation s1 := (set_tsx s (claim_tsx (p_tsx s)) (p_claims s + 1) (p_log s)).

Lemma claim_value : claim_tsx (p_tsx s) = enc (hd s) f n'.
Proof.
  destruct (i_base _ Hi) as [H1 H2 H3 H4 H5 _ _ _ _ _]; rewrite H2 at 1.
  rewrite claim_enc by (unfold half; try apply Z.mod_pos_bound; lia || done).
  f_equal; rewrite Zplus_mod_idemp_l; f_equal; lia.
Qed.

Lemma claim_parts : TRANS_HD (p_tsx s1) = hd s /\ TRANS_F (p_tsx s1) = f /\ half f.
Proof.
  cbn; rewrite claim_value; destruct (i_base _ Hi) as [H1 _ _ _ _ _ _ _ _ _].
  by destruct (TRANS_enc (hd s) f n' H1 (half_mod _)) as (_ & -> & ->).
Qed.

(** The new word differs from every earlier one for this message. *)
Lemma claim_new u our : our_of (p_thr s u) = Some our -> our <> claim_tsx (p_tsx s).
Proof.
  intros Ho E; destruct (t_blk _ _ (i_thr _ Hi u) our Ho) as (h & f' & n & -> & Hf & Hn & _ & _ & Hsame).
  rewrite claim_value in E; destruct claim_parts as (_ & _ & H1).
  apply enc_inj in E as (-> & -> & En); [|done|done|done|apply half_mod].
  destruct (Hsame eq_refl) as (_ & c & Hcc & ->).
  assert (((f + (p_claims s + 1)) - (f + c)) mod 2 ^ 16 = 0) by (rewrite Zminus_mod, En, Z.sub_diag; done).
  rewrite Z.mod_small in H by lia; lia.
Qed.

Lemma claim_other u : thread_ok s1 (p_thr s u).
Proof.
  destruct claim_parts as (P1 & P2 & P3); destruct (i_thr _ Hi u) as [H1 H2 H3 H4 H5]; split; try done.
  - intros our Ho; destruct (H1 our Ho) as (h & f' & n & -> & Hf & Hn & Hh & Hs & Hsame).
    exists h, f', n; rewrite P1, P2; split_and!; try done; try lia; intros E; destruct (Hsame E) as (-> & c & Hcc & ->).
    split; [done|]; exists c; split; [cbn; lia|done].
  - intros Ho; by destruct (claim_new u _ Ho).
  - destruct (p_thr s u) as [| | |m' v lv| |m' o j fv|m' o j fv|m' o lv| |]; try done; cbn [links_ok] in *.
    + cbn [p_tsx_v set_tsx]; split; lia.
    + split_and!; try apply H5; rewrite P1; apply H5.
    + cbn [p_tsx_v set_tsx]; split; lia.
Qed.

Lemma claim_inv : inv (set_thr s1 t (Claimed m (claim_tsx (p_tsx s)) 0)).
Proof.
  destruct claim_parts as (P1 & P2 & P3); pose proof claim_value as V.
  pose proof (i_thr _ Hi t) as Hok; rewrite Ht in Hok; destruct Hok as [_ _ Hlen _ [_ Hlk]].
  destruct (Hlk eq_refl) as [_ Hfree]; apply inv_set.
  - destruct (i_base _ Hi) as [H1 H2 H3 H4 H5 H6 H7 H8 H9 H10]; split; rewrite ?P1, ?P2; try done; cbn; lia.
  - intros u _; apply claim_other.
  - intros u v _ _ Huv; destruct (i_pair _ Hi u v Huv) as [H1 _]; split; [done|].
    intros Ho; by destruct (claim_new u _ Ho).
  - split; cbn [our_of prog msg_of]; [|unfold FIELDS; lia|by intros _ _ _; apply Hlen| |done].
    + intros our [= <-]; exists (hd s), f, n'; rewrite P1, P2; split_and!; try done; [apply half_mod|..].
      * destruct (i_base _ Hi) as [_ _ _ H4 _ _ _ _ _ _]; lia.
      * intros _; split; [done|]; exists (p_claims s + 1); split; [|done].
        destruct (i_base _ Hi) as [_ _ H3 _ _ _ _ _ _ _]; cbn; lia.
    + intros _ j Hj; cbn in Hj; lia.
  - intros u _; split; split; cbn [our_of prog].
    + intros our [= <-] Ho; by destruct (claim_new u _ Ho).
    + intros _ m' our j fv Hy Hj; pose proof (t_prog _ _ (i_thr _ Hi u)) as Hp; cbn in Hy; rewrite Hy in Hp; cbn in Hp; lia.
    + intros our Ho [= <-]; by destruct (claim_new u _ Ho).
    + done.
Qed.
End Claim.

(** ** Committing *)

Section Commit.
Context (s : push_state) (t : Z) (m : list Z).
Context (Hi : inv s) (Ht : p_thr s t = FinLinked m (p_tsx s) (p_tsx_v s)) (Hh : hd s + 1 < 2 ^ 32).
Notation f := (TRANS_F (p_tsx s)).
Notation n := ((f + p_claims s) mod 2 ^ 16).
Notation s1 := (set_tsx s (commit_tsx (hd s) (p_tsx s)) 0 (p_log s ++ [m])).

Lemma commit_parts : p_tsx s1 = enc (hd s + 1) n n /\ TRANS_HD (p_tsx s1) = hd s + 1 /\ TRANS_F (p_tsx s1) = n /\
  0 <= hd s /\ half f.
Proof.
  destruct (i_base _ Hi) as [H1 H2 H3 H4 H5 _ _ _ _ _]; cbn.
  assert (E : commit_tsx (hd s) (p_tsx s) = enc (hd s + 1) n n).
  { rewrite H2 at 2; apply commit_enc; try done; [lia|apply half_mod]. }
  rewrite E; destruct (TRANS_enc (hd s + 1) n n (half_mod _) (half_mod _)) as (_ & -> & ->); split_and!; try done; lia.
Qed.

Lemma commit_free : hd s < p_start s + qmask /\ length m = 10%nat /\
  (forall j, 0 <= j < FIELDS -> p_slot s (slot (p_tsx s)) j = word m j).
Proof.
  destruct (our_hd s (p_tsx s) Hi) as [_ Hf]; [exists t; by rewrite Ht|].
  pose proof (i_thr _ Hi t) as Hok; rewrite Ht in Hok; destruct Hok as [_ _ Hlen Hw _]; split_and!; [done|by apply Hlen|].
  by apply Hw.
Qed.

Lemma commit_base : base s1.
Proof.
  destruct commit_parts as (E & P1 & P2 & P3 & P4), commit_free as (Hf & Hl & Hw).
  destruct (i_base _ Hi) as [H1 H2 H3 H4 H5 H6 H7 H8 H9 H10]; split; rewrite ?P1, ?P2; cbn [p_claims p_log p_start p_out set_tsx].
  - apply half_mod.
  - rewrite E; f_equal; rewrite Z.add_0_r, Z.mod_mod by done; done.
  - lia.
  - rewrite length_app; cbn; lia.
  - lia.
  - done.
  - lia.
  - apply Forall_app; split; [done|by constructor].
  - rewrite take_app_le; [done|]; lia.
  - intros k m' Hk Hm j Hj; destruct (decide (k = hd s)) as [->|].
    + rewrite H4, Nat2Z.id, list_lookup_middle in Hm by done; injection Hm as <-; by apply Hw.
    + rewrite lookup_app_l in Hm by lia; apply (H10 k m'); try done; lia.
Qed.

(** No other thread holds the new word. *)
Lemma commit_new u our : our_of (p_thr s u) = Some our -> our <> p_tsx s1.
Proof.
  intros Ho E; destruct (our_hd s our Hi) as [Hle _]; [by exists u|].
  destruct commit_parts as (_ & P1 & _); rewrite E, P1 in Hle; lia.
Qed.

Lemma commit_other u : u <> t -> thread_ok s1 (p_thr s u).
Proof.
  intros Hu; destruct commit_parts as (E & P1 & P2 & P3 & P4); destruct (i_thr _ Hi u) as [H1 H2 H3 H4 H5]; split; try done.
  - intros our Ho; destruct (H1 our Ho) as (h & f' & n' & -> & Hf & Hn & Hh' & Hs & _).
    exists h, f', n'; rewrite P1; split_and!; try done; lia.
  - intros Ho; by destruct (commit_new u _ Ho).
  - pose proof (i_pair _ Hi t u (not_eq_sym Hu)) as [_ Hg]; rewrite Ht in Hg; cbn in Hg; specialize (Hg eq_refl).
    assert (Hle : forall our, our_of (p_thr s u) = Some our -> TRANS_HD our <= hd s)
      by (intros our Ho; destruct (our_hd s our Hi) as [? _]; [by exists u|done]).
    destruct (p_thr s u) as [| | |m' v lv| |m' o j fv|m' o j fv|m' o lv| |]; try done; cbn [links_ok] in *.
    + cbn [p_tsx_v set_tsx]; split; lia.
    + destruct H5 as (H5 & H6 & H7); split_and!; [done|done|]; rewrite P1; intros H8; specialize (Hle o eq_refl).
      destruct (decide (TRANS_HD o = hd s)) as [Eh|]; [|apply H7; lia].
      apply (Hg m' o j fv eq_refl); [done|]; unfold slot_of; by rewrite Eh.
    + cbn [p_tsx_v set_tsx]; split; lia.
Qed.

Lemma commit_inv : inv (set_thr s1 t Done).
Proof.
  apply inv_set; [apply commit_base|apply commit_other| | |intros u _; by apply pair_outside].
  - intros u v _ _ Huv; destruct (i_pair _ Hi u v Huv) as [H1 _]; split; [done|].
    intros Ho; by destruct (commit_new u _ Ho).
  - split; cbn; try done; unfold FIELDS; lia.
Qed.
End Commit.

(** ** The owner's read *)

Lemma words_eq s i m :
  length m = 10%nat -> (forall j, 0 <= j < FIELDS -> p_slot s i j = word m j) -> slot_words s i = m.
Proof.
  clear Hq Hb; intros Hl Hw; unfold slot_words.
  destruct m as [|m0 [|m1 [|m2 [|m3 [|m4 [|m5 [|m6 [|m7 [|m8 [|m9 [|]]]]]]]]]]]; try done.
  unfold FIELDS in Hw; cbn; rewrite !Hw by lia; done.
Qed.

Lemma pop_inv s :
  inv s -> p_start s <> hd s ->
  inv (mk_push (p_start s + 1) (p_tsx s) (p_tsx_v s) (p_slot s) (p_slot_v s) (p_thr s)
    (p_claims s) (p_log s) (p_out s ++ [slot_words s (Z.land (p_start s) qmask)])).
Proof.
  intros [Hbase Ht Hp] Hne; set (s1 := mk_push _ _ _ _ _ _ _ _ _); split.
  - destruct Hbase as [H1 H2 H3 H4 H5 H6 H7 H8 H9 H10].
    assert (Hlt : (Z.to_nat (p_start s) < length (p_log s))%nat) by lia.
    destruct (lookup_lt_is_Some_2 _ _ Hlt) as [m Hm].
    assert (Hw : slot_words s (Z.land (p_start s) qmask) = m).
    { apply words_eq; [by eapply (Forall_lookup_1 _ _ _ _ H8)|]; apply (H10 (p_start s) m); [lia|done]. }
    split; try done; cbn [p_start p_out s1]; rewrite ?length_app; cbn; try lia.
    + cbn in *; rewrite Hw; replace (length (p_out s) + 1)%nat with (S (length (p_out s))) by lia.
      rewrite (take_S_r _ _ m), <- H9; [done|]; rewrite <- Hm; f_equal; lia.
    + intros k m' Hk; apply H10; cbn in Hk; lia.
  - intros t; change (thread_ok s1 (p_thr s t)); destruct (Ht t) as [H1 H2 H3 H4 H5]; split; try done.
    + intros our Ho; destruct (H1 our Ho) as (h & f & n & ? & ? & ? & ? & ? & ?); exists h, f, n; split_and!; try done; cbn; lia.
    + destruct (p_thr s t) as [| | |m v lv| | | | | |]; try exact H5; destruct H5 as [H5 H6].
      cbn; split; [done|]; intros E; destruct (H6 E); split; [done|lia].
  - done.
Qed.

Lemma step_inv s s' : inv s -> push_step qmask s s' -> orderly s s' -> inv s'.
Proof.
  intros Hi Hs [Hf Hc Hh]; pose proof (i_thr _ Hi) as Hthr; destruct Hs as
    [t m Ht Hm|t m Ht|t m start Ht|t m tsx v Ht|t m tsx Ht|t m our i Ht Hlt|t m our i fv Ht
    |t m our i Ht|t m our i fv Ht|t m our Ht|t m our Ht|t m our v Ht|Hne];
    try (pose proof (Hthr t) as Hok; rewrite Ht in Hok); try (pose proof (t_len _ _ Hok) as Hl; cbn in Hl).
  - by apply outside_inv.
  - apply outside_inv; [done|done|by intros _ _; apply Hl|done].
  - rewrite (Hf t m start Ht) by (cbn; rewrite upd1_eq; by destruct (_ =? _)); destruct (Z.eqb_spec (hd s) (p_start s + qmask)); [by apply outside_inv|].
    apply outside_inv; [done|done|by intros _ _; apply Hl|]; cbn; split; [done|]; intros _; split; [done|].
    pose proof (b_order _ (i_base _ Hi)); lia.
  - apply outside_inv; [done|done|by intros _ _; apply Hl|done].
  - destruct (t_links _ _ Hok) as [_ H]; destruct (H eq_refl) as [-> _]; by apply claim_inv.
  - apply inside_inv; by rewrite ?Ht.
  - destruct (Z.eqb_spec (p_tsx s) our) as [E|]; [|apply outside_inv; [done|done|by intros _ _; apply Hl|done]].
    destruct (t_links _ _ Hok) as [H1 H2]; apply inside_inv; rewrite ?Ht; try done; cbn; [|by intros ? ? ? ? [= <- <-]].
    rewrite E; split_and!; [done|done|lia].
  - by apply store_inv.
  - apply inside_inv; by rewrite ?Ht.
  - destruct (Z.eqb_spec (p_tsx s) our) as [E|]; [|apply outside_inv; [done|done|by intros _ _; apply Hl|done]].
    apply inside_inv; by rewrite ?Ht.
  - destruct (t_links _ _ Hok) as [_ H]; specialize (H eq_refl) as ->; apply commit_inv; [done|done|].
    rewrite (b_hd _ (i_base _ Hi)); cbn in Hh; rewrite length_app in Hh; cbn in Hh; lia.
  - apply inside_inv; by rewrite ?Ht.
  - by apply pop_inv.
Qed.

Lemma reach_inv s : push_reach qmask orderly s -> inv s.
Proof.
  induction 1 as [sl|s s' _ IH Hs Ho]; [|by eapply step_inv].
  split; [|intros t; split; try done; unfold FIELDS; cbn; lia|by split].
  split; try done; cbn; try lia; change (TRANS_HD 0) with 0.
  pose proof (Z.pow_pos_nonneg 2 b); lia.
Qed.
End Inv.

(** ** Running the steps *)

Inductive action := ACall (t : Z) (m : list Z) | ARun (t : Z) | APop.

(** The next step of a thread, with every store-conditional that can
    succeed succeeding. *)
Definition push_exec (qmask : Z) (s : push_state) (a : action) : option push_state :=
  match a with
  | ACall t m =>
      match p_thr s t with
      | Idle => if Nat.eqb (length m) 10 then Some (set_thr s t (Start m)) else None
      | _ => None
      end
  | APop =>
      if p_start s =? TRANS_HD (p_tsx s) then None
      else Some (mk_push (p_start s + 1) (p_tsx s) (p_tsx_v s) (p_slot s) (p_slot_v s) (p_thr s)
             (p_claims s) (p_log s) (p_out s ++ [slot_words s (Z.land (p_start s) qmask)]))
  | ARun t =>
      match p_thr s t with
      | Start m => Some (set_thr s t (Got m (p_start s)))
      | Got m start =>
          Some (set_thr s t (if TRANS_HD (p_tsx s) =? start + qmask then Full else Linked m (p_tsx s) (p_tsx_v s)))
      | Linked m tsx v =>
          if v =? p_tsx_v s
          then Some (set_thr (set_tsx s (claim_tsx tsx) (p_claims s + 1) (p_log s)) t (Claimed m (claim_tsx tsx) 0))
          else Some (set_thr s t (Start m))
      | Claimed m our i =>
          if i <? FIELDS then Some (set_thr s t (FLinked m our i (p_slot_v s (slot_of qmask our) i)))
          else if i =? FIELDS
          then Some (set_thr s t (if p_tsx s =? our then FinLinked m our (p_tsx_v s) else Start m))
          else None
      | FLinked m our i fv => Some (set_thr s t (if p_tsx s =? our then FChecked m our i fv else Start m))
      | FChecked m our i fv =>
          if fv =? p_slot_v s (slot_of qmask our) i
          then Some (set_thr (set_field s (slot_of qmask our) i (word m i)) t (Claimed m our (i + 1)))
          else Some (set_thr s t (Claimed m our i))
      | FinLinked m our v =>
          if v =? p_tsx_v s
          then Some (set_thr (set_tsx s (commit_tsx (TRANS_HD our) our) 0 (p_log s ++ [m])) t Done)
          else Some (set_thr s t (Claimed m our FIELDS))
      | _ => None
      end
  end.

Lemma push_exec_step qmask s a s' : push_exec qmask s a = Some s' -> push_step qmask s s'.
Proof.
  destruct a as [t m|t|]; cbn [push_exec].
  - destruct (p_thr s t) eqn:E; try done; destruct (Nat.eqb_spec (length m) 10); [|done]; intros <-%(inj Some).
    exact (st_call _ s t m E e).
  - destruct (p_thr s t) as [|m|m st|m tsx v|m our i|m our i fv|m our i fv|m our v| |] eqn:E; try done.
    + intros <-%(inj Some); exact (st_start _ s t m E).
    + intros <-%(inj Some); exact (st_link _ s t m st E).
    + destruct (Z.eqb_spec v (p_tsx_v s)) as [->|]; intros <-%(inj Some); [exact (st_claim _ s t m tsx E)|exact (st_again _ s t m tsx v E)].
    + destruct (Z.ltb_spec i FIELDS) as [Hi|Hi].
      * intros <-%(inj Some); exact (st_field _ s t m our i E Hi).
      * destruct (Z.eqb_spec i FIELDS) as [->|]; [|done]; intros <-%(inj Some); exact (st_finish _ s t m our E).
    + intros <-%(inj Some); exact (st_check _ s t m our i fv E).
    + destruct (Z.eqb_spec fv (p_slot_v s (slot_of qmask our) i)) as [->|]; intros <-%(inj Some).
      * exact (st_store _ s t m our i E).
      * exact (st_store_fails _ s t m our i fv E).
    + destruct (Z.eqb_spec v (p_tsx_v s)) as [->|]; intros <-%(inj Some); [exact (st_commit _ s t m our E)|exact (st_commit_fails _ s t m our v E)].
  - destruct (Z.eqb_spec (p_start s) (TRANS_HD (p_tsx s))) as [|Hne]; [done|]; intros <-%(inj Some).
    exact (st_pop _ s Hne).
Qed.

(** [orderly] for a step that is run. *)
Definition is_orderly (s : push_state) (a : action) (s' : push_state) : bool :=
  match a with ARun t => match p_thr s t with Got _ start => start =? p_start s | _ => true end | _ => true end &&
  (p_claims s' <? 2 ^ 16) && (Z.of_nat (length (p_log s')) <? 2 ^ 32).

Lemma push_exec_others qmask s a s' u : push_exec qmask s a = Some s' -> match a with ACall t _ | ARun t => u <> t | APop => True end -> p_thr s' u = p_thr s u.
Proof.
  destruct a as [t m|t|]; cbn [push_exec]; intros E Hu; [..|by destruct (_ =? _); [|injection E as <-]].
  - destruct (p_thr s t); try done; destruct (Nat.eqb _ _); [|done]; injection E as <-; cbn; by rewrite upd1_ne.
  - destruct (p_thr s t); try done; repeat (destruct (_ =? _) || destruct (_ <? _)); try done; injection E as <-; cbn; by rewrite upd1_ne.
Qed.

Lemma is_orderly_ok qmask s a s' : push_exec qmask s a = Some s' -> is_orderly s a s' = true -> orderly s s'.
Proof.
  intros E; pose proof (push_exec_others qmask s a s') as Ho; unfold is_orderly; rewrite !andb_true_iff, !Z.ltb_lt; intros [[Hf Hc] Hl]; split; [|done|done].
  intros u m start Hg Hn; destruct a as [t m'|t|].
  - destruct (decide (u = t)) as [->|Hu]; [cbn in E; by rewrite Hg in E|rewrite (Ho u) in Hn by done; done].
  - destruct (decide (u = t)) as [->|Hu]; [rewrite Hg in Hf; by apply Z.eqb_eq|rewrite (Ho u) in Hn by done; done].
  - rewrite (Ho u) in Hn by done; done.
Qed.

Definition push_init : push_state := mk_push 0 0 0 (fun _ _ => 0) (fun _ _ => 0) (fun _ => Idle) 0 [] [].

(** The actions in order; with [chk], only as long as they are orderly. *)
Definition push_run (qmask : Z) (chk : bool) (l : list action) : option push_state :=
  foldl (fun o a => s ← o; s' ← push_exec qmask s a; if negb chk || is_orderly s a s' then Some s' else None) (Some push_init) l.

Lemma push_run_reach qmask chk l s : push_run qmask chk l = Some s -> push_reach qmask (if chk then orderly else fun _ _ => True) s.
Proof.
  unfold push_run; assert (H : push_reach qmask (if chk then orderly else fun _ _ => True) push_init) by apply reach_init.
  revert H; generalize push_init; induction l as [|a l IH]; intros s0 H; cbn; [by intros [= <-]|].
  destruct (push_exec qmask s0 a) as [s1|] eqn:E; cbn; [|clear; by induction l].
  destruct (negb chk || is_orderly s0 a s1) eqn:Eo; [|clear; by induction l].
  apply IH; eapply reach_step; [exact H|by apply push_exec_step in E|]; destruct chk; [|done]; by apply (is_orderly_ok qmask s0 a).
Qed.

(** ** The properties *)

(** C27: In every interleaving of any number of producers and the owner in
    which the steps are [orderly] - the owner does not move between a producer's
    loads of [start] and of [msg_tsx], fewer than 2^16 claims contend for one
    message, fewer than 2^32 messages are sent - the protocol is correct, with
    claims pre-empting each other at any point: the owner
    reads exactly the committed messages, whole and in the order of their
    commits; every message committed and not yet read is intact in its slot;
    the queue never holds more than [qmask] messages. *)
Theorem push_delivers b s :
  0 <= b -> push_reach (2 ^ b - 1) orderly s ->
  p_out s = take (length (p_out s)) (p_log s) /\
  p_start s = Z.of_nat (length (p_out s)) /\ TRANS_HD (p_tsx s) = Z.of_nat (length (p_log s)) /\
  p_start s <= TRANS_HD (p_tsx s) <= p_start s + (2 ^ b - 1) /\
  forall k m, p_start s <= k -> p_log s !! Z.to_nat k = Some m ->
    slot_words s (Z.land k (2 ^ b - 1)) = m.
Proof.
  intros Hb Hr; destruct (i_base _ _ (reach_inv (2 ^ b - 1) b Hb eq_refl s Hr)) as [_ _ _ H4 _ H6 H7 H8 H9 H10].
  split_and!; try done; try lia; intros k m Hk Hm; apply words_eq; [by eapply (Forall_lookup_1 _ _ _ _ H8)|].
  intros j Hj; apply (H10 k m); try done; apply lookup_lt_Some in Hm; lia.
Qed.

Definition demo_msg (x : Z) : list Z := x :: replicate 9 0.

(** A producer alone: call, claim, ten guarded stores, commit. *)
Definition whole_push (t x : Z) : list action := ACall t (demo_msg x) :: replicate 35 (ARun t).

(** Thread 1 claims and stores two fields; thread 2 claims over it and
    commits; thread 1 starts again. *)
Definition contended : list action :=
  ACall 1 (demo_msg 11) :: replicate 9 (ARun 1) ++ whole_push 2 22 ++ replicate 37 (ARun 1) ++ [APop].

Definition contended_end : push_state := default push_init (push_run 3 true contended).

Lemma push_delivers_witness :
  p_out contended_end = take (length (p_out contended_end)) (p_log contended_end) /\
  p_start contended_end = Z.of_nat (length (p_out contended_end)) /\
  TRANS_HD (p_tsx contended_end) = Z.of_nat (length (p_log contended_end)) /\
  p_start contended_end <= TRANS_HD (p_tsx contended_end) <= p_start contended_end + (2 ^ 2 - 1) /\
  forall k m, p_start contended_end <= k -> p_log contended_end !! Z.to_nat k = Some m ->
    slot_words contended_end (Z.land k (2 ^ 2 - 1)) = m.
Proof.
  apply (push_delivers 2 contended_end); [lia|].
  apply (push_run_reach 3 true contended); vm_compute; reflexivity.
Defined.

(** Both messages of that run are committed and one is read. *)
Example contended_log : p_log contended_end = [demo_msg 22; demo_msg 11] /\ p_out contended_end = [demo_msg 22].
Proof. vm_compute; split; reflexivity. Qed.

(** Queue of two slots.  Thread 3 loads [start]; the owner reads message 1 and
    thread 2 fills the queue again; thread 3 then compares the head with its
    old [start], does not see that the queue is full, and thread 4 overwrites
    message 2. *)
Definition stale_start : list action :=
  whole_push 1 1 ++ [ACall 3 (demo_msg 3); ARun 3; APop] ++ whole_push 2 2 ++ replicate 34 (ARun 3) ++
  whole_push 4 4 ++ [APop].

(** Without the first condition messages are lost: [msg_push] tests for a full
    queue by equality with a [start] it loaded before [msg_tsx], so a
    producer that is delayed between the two loads passes the test on a full
    queue, and from then on the head has overtaken the value the test looks
    for.  In this run the owner reads message 4 where message 2 was sent:
    message 2 is overwritten before it is read. *)
Theorem stale_start_overwrites :
  exists s, push_reach (2 ^ 1 - 1) (fun _ _ => True) s /\
    p_log s = [demo_msg 1; demo_msg 2; demo_msg 3; demo_msg 4] /\ p_out s = [demo_msg 1; demo_msg 4].
Proof.
  exists (default push_init (push_run 1 false stale_start)); split; [|vm_compute; split; reflexivity].
  apply (push_run_reach 1 false stale_start); vm_compute; reflexivity.
Qed.
