(* ===== verification/Msg.v ===== *)
(** * Messages between activations (cherios/kernel/src/msg.c, libuser/src/msg.c)

    Queues as their owner and the kernel see them when one producer runs at a
    time (MsgPush has the concurrent protocol), sync tokens, and the send and
    reply paths. *)

From S2P Require Import Prelude CNum Kernel Sched SchedInv SchedOps SchedEvents SchedSteps MsgPush.

(** ** Queues *)

Definition backoff_threshold : Z := 4096.

(** The loop of [msg_push] with nobody else at the queue: [Some None] is a
    full queue, otherwise the claimed word.  A push that was abandoned
    half-way ([n] is not [f]) is waited for, then taken over. *)
Fixpoint push_loop (fuel : nat) (q : queue_part) (last ctr : Z) : option (option Z) :=
  match fuel with
  | O => None
  | S fuel =>
      let tsx := msg_tsx q in
      if TRANS_HD tsx =? q_start q + queue_mask q then Some None
      else if (TRANS_N tsx =? TRANS_F tsx) || (backoff_threshold =? ctr) then Some (Some (claim_tsx tsx))
      else if last =? tsx then push_loop fuel q last (u32 (ctr + 1))
      else push_loop fuel q tsx 0
  end.

Definition push_rec (m : msg_t) (q : queue_part) : option (option queue_part) :=
  r ← push_loop (Z.to_nat (backoff_threshold + 2)) q (msg_tsx q) 0;
  match r with
  | None => Some None
  | Some our =>
      let head := TRANS_HD (msg_tsx q) in
      arr ← zput (q_msg q) (Z.land head (queue_mask q)) m;
      Some (Some (mk_queue (q_start q) (queue_mask q) (commit_tsx head our) arr))
  end.

Definition msg_push (dest : Z) (m : msg_t) : K Z :=
  x ← deref dest;
  r ← lift (push_rec m (a_queue x));
  match r with
  | None => mret (-1)
  | Some q =>
      _ ← upd dest (with_queue (fun _ => q));
      _ ← sched_receive_event dest sched_waiting;
      mret 0
  end.

Definition HEADER_SIZE : Z := 32.
Definition MSG_SIZE : Z := 128.

(** The queue's memory, [total] bytes of it, is the activation's. *)
Definition msg_queue_init (total : Z) (mem : list msg_t) : option queue_part :=
  if total <=? HEADER_SIZE then None
  else
    let len := u32 ((total - HEADER_SIZE) / MSG_SIZE) in
    if negb (is_power_2 len) || (len =? 0) then None
    else Some (mk_queue 0 (len - 1) 0 mem).

(** The owner's side. *)
Definition next_msg (q : queue_part) : queue_part :=
  mk_queue (u32 (q_start q + 1)) (queue_mask q) (msg_tsx q) (q_msg q).

Definition queue_empty (q : queue_part) : bool := q_start q =? TRANS_HD (msg_tsx q).

Definition get_message (q : queue_part) : option msg_t :=
  zget (q_msg q) (Z.land (q_start q) (queue_mask q)).

(** [None] on an empty queue, where the owner waits first. *)
Definition pop_msg (q : queue_part) : option (msg_t * queue_part) :=
  if queue_empty q then None else m ← get_message q; Some (m, next_msg q).

(** ** Sync tokens *)

Definition MIN_OFFSET : Z := 0.
Definition MAX_OFFSET : Z := 4096.
Definition MAX_SEQ_NS : Z := MAX_OFFSET - MIN_OFFSET.
Definition SI_SIZE : Z := 32.
Definition RES_SUBFIELD_BITMAP_BITS : Z := 64.

Inductive ccall_selector := SEND | SEND_SWITCH | SYNC_CALL.

Section Tokens.
(** [rescap_split res n] of the nanokernel: the length of what is left after
    the first [n] bytes. *)
Context (split_rest : Z -> Z -> Z).

(** Gives the new state and the number of sequence numbers it is good for. *)
Definition next_indir_block (y : sync_part) : sync_part * Z :=
  match next_block y with
  | None => (y, 0)
  | Some len =>
      if len <? SI_SIZE then (y, 0)
      else
        let max_allos := len / SI_SIZE in
        let big := RES_SUBFIELD_BITMAP_BITS <? max_allos in
        (mk_sync (sync_token y) (sync_condition y) (sync_add y) true
           (if big then Some (split_rest len (RES_SUBFIELD_BITMAP_BITS * SI_SIZE)) else None)
           0 (if big then RES_SUBFIELD_BITMAP_BITS else max_allos),
         u64 (max_allos * MAX_SEQ_NS))
  end.

Definition alloc_new_indir (y : sync_part) : option sync_part :=
  y ← (if negb (alloc_block y) || (allocs_taken y =? allocs_max y)
       then let '(y, more) := next_indir_block y in if more =? 0 then None else Some y
       else Some y);
  if negb (alloc_block y) || (allocs_taken y =? allocs_max y) then None
  else Some (mk_sync (sync_token y) (sync_condition y) (sync_token y) (alloc_block y) (next_block y)
               (allocs_taken y + 1) (allocs_max y)).

Definition get_and_set_sealed_sync_token (a : Z) : K token_t :=
  x ← deref a;
  let y := a_sync x in
  _ ← kassert (sync_condition y =? 0);
  let sn := sync_token y in
  y ← lift (if u64 (sn - sync_add y) =? MAX_SEQ_NS then alloc_new_indir y else Some y);
  let sn := u64 (sn - sync_add y) in
  _ ← kassert (sn <? MAX_SEQ_NS);
  _ ← upd a (with_sync (fun _ => set_condition 1 y));
  mret (mk_token a (sync_add y) (sn + MIN_OFFSET)).
(** The caller hands over a reservation of [len] bytes; splitting it at zero
    leaves all of it and takes the user's own handle away. *)
Definition kernel_syscall_provide_sync (caller len : Z) : K Z :=
  x ← deref caller;
  let y := a_sync x in
  let '(y, n) := next_indir_block (mk_sync (sync_token y) (sync_condition y) (sync_add y) (alloc_block y)
                                     (Some (split_rest len 0)) (allocs_taken y) (allocs_max y)) in
  _ ← upd caller (with_sync (fun _ => y));
  mret n.
End Tokens.

(** The compare-and-swap makes each sequence number good for one return. *)
Definition token_expected (t : token_t) : K (option Z) :=
  let got := u64 (u64 (k_off t - MIN_OFFSET) + k_add t) in
  x ← deref (k_act t);
  if sync_token (a_sync x) =? got then
    _ ← upd (k_act t) (with_sync (set_token (u64 (got + 1))));
    mret (Some (k_act t))
  else mret None.

(** ** Sending *)

Definition NULL_RET : ret_t := mk_ret 0 0 0.

(** The checks before the push; [None] when the target is revoked. *)
Definition send_begin (split_rest : Z -> Z -> Z) (src tgt : Z) (selector : ccall_selector) :
    K (option (option token_t)) :=
  t ← deref tgt;
  if negb (status t =? status_alive) then
    _ ← upd src (with_ret (mk_ret 0 (u64 (-1)) (u64 (-1))));
    mret None
  else
    match selector with
    | SYNC_CALL => tok ← get_and_set_sealed_sync_token split_rest src; mret (Some (Some tok))
    | _ => mret (Some None)
    end.

(** Push until there is room, giving the core to the target each time;
    [others] is what runs until the sender is scheduled again.  [false] when
    there was no room in [n] attempts. *)
Fixpoint send_loop (others : nat -> K unit) (n : nat) (tgt : Z) (m : msg_t) : K bool :=
  match n with
  | O => mret false
  | S n =>
      res ← msg_push tgt m;
      if res =? 0 then mret true
      else _ ← sched_reschedule (Some tgt); _ ← others n; send_loop others n tgt m
  end.

Definition send_end (src tgt : Z) (selector : ccall_selector) : K unit :=
  match selector with
  | SYNC_CALL => _ ← sched_block_until_event (Some src) (Some tgt) sched_sync_block 0; mret tt
  | SEND_SWITCH =>
      s ← sched_of src;
      t ← sched_of tgt;
      _ ← when (pool_id s =? pool_id t) (sched_reschedule (Some tgt));
      upd src (with_ret NULL_RET)
  | SEND => upd src (with_ret NULL_RET)
  end.

Definition kernel_message_send_ret (split_rest : Z -> Z -> Z) (others : nat -> K unit) (n : nat)
    (src tgt : Z) (selector : ccall_selector) (c a : list Z) (v0 : Z) : K bool :=
  tok ← send_begin split_rest src tgt selector;
  match tok with
  | None => mret true
  | Some tok =>
      sent ← send_loop others n tgt (mk_msg c tok a v0);
      if sent : bool then _ ← send_end src tgt selector; mret true else mret false
  end.

(** ** Replying *)

(** A missing or a wrong token freezes the kernel. *)
Definition set_message_reply (c3 v0 v1 : Z) (tok : option token_t) : K Z :=
  t ← lift tok;
  r ← token_expected t;
  a ← lift r;
  _ ← upd a (with_ret (mk_ret c3 v0 v1));
  _ ← sched_receive_event a sched_sync_block;
  mret a.

Definition kernel_message_reply (c3 v0 v1 : Z) (tok : option token_t) (hint_switch : bool) : K Z :=
  a ← set_message_reply c3 v0 v1 tok;
  _ ← when hint_switch (sched_reschedule (Some a));
  mret 0.

(** Reply if there is a token, then wait; what [v1] says after the wait is
    read when the caller runs again. *)
Definition fastpath_bailout (caller c3 v0 v1 : Z) (tok : option token_t) (timeout : Z)
    (notify_is_timeout : bool) : K bool :=
  ret_to ← (match tok with
            | None => mret None
            | Some _ => a ← set_message_reply c3 v0 v1 tok; mret (Some a)
            end : K (option Z));
  let events := if notify_is_timeout then Z.lor sched_waiting sched_wait_notify else sched_waiting in
  sched_block_until_event (Some caller) ret_to events (u64 timeout).

(** ** The queue as a list *)

Definition filled (q : queue_part) : Z := (TRANS_HD (msg_tsx q) - q_start q) mod 2 ^ 32.

Definition pending (q : queue_part) : list (option msg_t) :=
  (fun i => zget (q_msg q) (Z.land (q_start q + Z.of_nat i) (queue_mask q))) <$> seq 0 (Z.to_nat (filled q)).

Record queue_ok (b : Z) (q : queue_part) : Prop := {
  qo_b : 0 <= b < 32;
  qo_mask : queue_mask q = 2 ^ b - 1;
  qo_len : Z.of_nat (length (q_msg q)) = 2 ^ b;
  qo_start : 0 <= q_start q < 2 ^ 32;
  qo_hd : 0 <= TRANS_HD (msg_tsx q) < 2 ^ 32;
  qo_tsx : msg_tsx q = enc (TRANS_HD (msg_tsx q)) (TRANS_F (msg_tsx q)) (TRANS_N (msg_tsx q))
}.

Lemma TRANS_half x : half (TRANS_N x) /\ half (TRANS_F x).
Proof.
  unfold half, TRANS_N, TRANS_F; change 65535 with (Z.ones 16); rewrite !Z.land_ones by done.
  split; apply Z.mod_pos_bound; lia.
Qed.

(** The loop ends: at once, or after the back-off. *)
Lemma push_loop_wait q n c :
  0 <= c <= backoff_threshold -> backoff_threshold - c < Z.of_nat n ->
  push_loop n q (msg_tsx q) c =
  if TRANS_HD (msg_tsx q) =? q_start q + queue_mask q then Some None else Some (Some (claim_tsx (msg_tsx q))).
Proof.
  revert c; induction n as [|n IH]; intros c Hc Hn; [lia|]; cbn [push_loop].
  destruct (TRANS_HD (msg_tsx q) =? q_start q + queue_mask q) eqn:Ef; [done|].
  destruct (TRANS_N (msg_tsx q) =? TRANS_F (msg_tsx q)); [done|]; cbn [orb].
  destruct (Z.eqb_spec backoff_threshold c) as [|Hne]; [done|]; rewrite Z.eqb_refl.
  unfold backoff_threshold in *; rewrite wrap_small by (unfold in_range; lia); apply IH; lia.
Qed.

Lemma push_rec_eq m q :
  push_rec m q =
  if TRANS_HD (msg_tsx q) =? q_start q + queue_mask q then Some None
  else
    arr ← zput (q_msg q) (Z.land (TRANS_HD (msg_tsx q)) (queue_mask q)) m;
    Some (Some (mk_queue (q_start q) (queue_mask q) (commit_tsx (TRANS_HD (msg_tsx q)) (claim_tsx (msg_tsx q))) arr)).
Proof.
  unfold push_rec; rewrite push_loop_wait by (unfold backoff_threshold; lia).
  by destruct (_ =? _).
Qed.

Lemma commit_claimed tsx :
  0 <= TRANS_HD tsx < 2 ^ 32 -> tsx = enc (TRANS_HD tsx) (TRANS_F tsx) (TRANS_N tsx) ->
  exists n, half n /\ commit_tsx (TRANS_HD tsx) (claim_tsx tsx) = enc ((TRANS_HD tsx + 1) mod 2 ^ 32) n n.
Proof.
  intros Hh E; destruct (TRANS_half tsx) as [Hn Hf]; set (hd := TRANS_HD tsx) in *.
  rewrite E, claim_enc by done; set (n := (TRANS_N tsx + 1) mod 2 ^ 16).
  assert (Hn' : half n) by apply half_mod; exists n; split; [done|].
  unfold commit_tsx; destruct (TRANS_enc hd (TRANS_F tsx) n Hf Hn') as (-> & _ & _).
  rewrite (lor_shift (hd + 1) n) by (done || lia); rewrite lor_shift by (done || unfold half in *; lia).
  unfold enc, wrap; unfold half in *.
  symmetry; apply (Z.mod_unique_pos _ _ ((hd + 1) / 2 ^ 32));
    pose proof (Z.div_mod (hd + 1) (2 ^ 32)); pose proof (Z.mod_pos_bound (hd + 1) (2 ^ 32)); lia.
Qed.

Lemma land_index b k : 0 <= b -> 0 <= Z.land k (2 ^ b - 1) < 2 ^ b.
Proof.
  intros Hb; rewrite (land_mask (2 ^ b - 1) b) by done; apply Z.mod_pos_bound, Z.pow_pos_nonneg; lia.
Qed.

Lemma push_room b q m :
  queue_ok b q -> TRANS_HD (msg_tsx q) <> q_start q + queue_mask q ->
  exists q', push_rec m q = Some (Some q') /\ queue_ok b q' /\ q_start q' = q_start q /\
    queue_mask q' = queue_mask q /\
    TRANS_HD (msg_tsx q') = (TRANS_HD (msg_tsx q) + 1) mod 2 ^ 32 /\
    zput (q_msg q) (Z.land (TRANS_HD (msg_tsx q)) (queue_mask q)) m = Some (q_msg q').
Proof.
  intros [H1 H2 H3 H4 H5 H6] Hne; rewrite push_rec_eq; apply Z.eqb_neq in Hne as ->.
  pose proof (land_index b (TRANS_HD (msg_tsx q)) ltac:(lia)) as Hi; rewrite <- H2, <- H3 in Hi.
  pose proof (zput_is_Some _ _ m Hi) as Hz; rewrite Hz; cbn [mbind option_bind].
  destruct (commit_claimed _ H5 H6) as (n & Hn & E); rewrite E.
  pose proof (Z.mod_pos_bound (TRANS_HD (msg_tsx q) + 1) (2 ^ 32)) as Hm.
  destruct (TRANS_enc ((TRANS_HD (msg_tsx q) + 1) mod 2 ^ 32) n n Hn Hn) as (E1 & E2 & E3).
  eexists; split_and!; [done| |done|done|exact E3|done].
  split; cbn [queue_mask q_msg q_start msg_tsx]; rewrite ?E1, ?E2, ?E3; try done; [|lia].
  by rewrite (zput_length _ _ _ _ Hz).
Qed.

(** Away from the wrap-around of the counters, the head is the start plus the
    number of messages. *)
Lemma head_eq b q :
  queue_ok b q -> filled q <= queue_mask q -> q_start q + queue_mask q < 2 ^ 32 ->
  TRANS_HD (msg_tsx q) = q_start q + filled q.
Proof.
  intros [H1 H2 H3 H4 H5 H6] Hf Hw; unfold filled in *; set (hd := TRANS_HD (msg_tsx q)) in *.
  destruct (Z.leb_spec (q_start q) hd).
  - rewrite Z.mod_small by lia; lia.
  - replace (hd - q_start q) with (hd - q_start q + 2 ^ 32 + (-1) * 2 ^ 32) in Hf |- * by lia.
    rewrite Z.mod_add, Z.mod_small in Hf |- * by lia; lia.
Qed.

Lemma pending_length q : length (pending q) = Z.to_nat (filled q).
Proof. unfold pending; by rewrite length_fmap, length_seq. Qed.

Lemma pending_push b q q' m :
  queue_ok b q -> queue_ok b q' -> filled q < queue_mask q -> q_start q + queue_mask q < 2 ^ 32 ->
  q_start q' = q_start q -> queue_mask q' = queue_mask q ->
  TRANS_HD (msg_tsx q') = (TRANS_HD (msg_tsx q) + 1) mod 2 ^ 32 ->
  zput (q_msg q) (Z.land (TRANS_HD (msg_tsx q)) (queue_mask q)) m = Some (q_msg q') ->
  pending q' = pending q ++ [Some m] /\ filled q' = filled q + 1.
Proof.
  intros Hok Hok' Hf Hw Es Em Eh Hz; pose proof (head_eq b q Hok ltac:(lia) Hw) as Hh.
  assert (Hf0 : 0 <= filled q) by (apply Z.mod_pos_bound; lia).
  destruct Hok as [H1 H2 H3 H4 H5 H6].
  assert (Ef : filled q' = filled q + 1).
  { unfold filled at 1; rewrite Eh, Es, Hh, (Z.mod_small (q_start q + filled q + 1)) by lia.
    rewrite Z.mod_small by lia; lia. }
  split; [|done]; unfold pending; rewrite Ef, Es, Em.
  replace (Z.to_nat (filled q + 1)) with (S (Z.to_nat (filled q))) by lia.
  rewrite seq_S, fmap_app; f_equal; [|cbn; f_equal; rewrite (zget_zput _ _ _ _ _ Hz)].
  - apply list_fmap_ext; intros i0 i Hi; apply lookup_seq in Hi as [-> Hi]; cbn.
    rewrite (zget_zput _ _ _ _ _ Hz); destruct (Z.eqb_spec (Z.land (q_start q + Z.of_nat i0) (queue_mask q))
      (Z.land (TRANS_HD (msg_tsx q)) (queue_mask q))) as [E|]; [exfalso|done].
    symmetry in E; revert E; rewrite H2; apply (head_slot_free (2 ^ b - 1) b); lia.
  - rewrite Hh; replace (Z.of_nat (Z.to_nat (filled q))) with (filled q) by lia; by rewrite Z.eqb_refl.
Qed.

Lemma pending_pop b q :
  queue_ok b q -> filled q <= queue_mask q -> q_start q + queue_mask q < 2 ^ 32 ->
  match pending q with
  | [] => pop_msg q = None
  | e :: rest => exists m, e = Some m /\ pop_msg q = Some (m, next_msg q) /\ pending (next_msg q) = rest /\
                   queue_ok b (next_msg q) /\ filled (next_msg q) = filled q - 1
  end.
Proof.
  intros Hok Hf Hw; pose proof (head_eq b q Hok Hf Hw) as Hh.
  assert (Hf0 : 0 <= filled q) by (apply Z.mod_pos_bound; lia).
  destruct Hok as [H1 H2 H3 H4 H5 H6]; unfold pop_msg, queue_empty; rewrite Hh.
  unfold pending at 1; destruct (Z.to_nat (filled q)) as [|n] eqn:En; cbn [seq fmap list_fmap].
  { by rewrite (proj2 (Z.eqb_eq _ _)) by lia. }
  rewrite (proj2 (Z.eqb_neq _ _)) by lia; rewrite Z.add_0_r.
  pose proof (land_index b (q_start q) ltac:(lia)) as Hi; rewrite <- H2, <- H3 in Hi.
  destruct (zget_is_Some _ _ Hi) as [m Hm]; exists m; unfold get_message; rewrite Hm; cbn [mbind option_bind].
  assert (Hs1 : u32 (q_start q + 1) = q_start q + 1) by (apply wrap_small; unfold in_range; lia).
  assert (Ef : filled (next_msg q) = filled q - 1).
  { unfold filled at 1; cbn [next_msg q_start msg_tsx]; rewrite Hs1, Hh, Z.mod_small by lia; lia. }
  split_and!; try done.
  - unfold pending; rewrite Ef; replace (Z.to_nat (filled q - 1)) with n by lia.
    cbn [next_msg q_start q_msg queue_mask]; rewrite Hs1, <- (fmap_S_seq 0), <- list_fmap_compose.
    apply list_fmap_ext; intros _ i _; cbn; f_equal; f_equal; lia.
  - split; cbn [next_msg q_start q_msg queue_mask msg_tsx]; try done; rewrite Hs1; lia.
Qed.

(** At the wrap-around of the counters the test for a full queue compares the
    32-bit head with a sum that is no longer 32-bit, and never holds. *)
Lemma push_wrapped b q m m2 :
  queue_ok b q -> filled q = queue_mask q -> 2 ^ 32 <= q_start q + queue_mask q ->
  exists q1 q2, push_rec m q = Some (Some q1) /\ push_rec m2 q1 = Some (Some q2) /\
    q_start q2 = q_start q /\ get_message q2 = Some m2.
Proof.
  intros Hok Hf Hw; destruct (push_room b q m Hok) as (q1 & E1 & Hok1 & S1 & M1 & T1 & _).
  { destruct Hok; lia. }
  destruct (push_room b q1 m2 Hok1) as (q2 & E2 & Hok2 & S2 & M2 & T2 & Z2).
  { rewrite S1, M1; destruct Hok1; lia. }
  exists q1, q2; split_and!; [done|done|congruence|].
  unfold get_message; rewrite S2, M2, S1, M1; rewrite (zget_zput _ _ _ _ _ Z2), T1, M1.
  destruct Hok as [H1 H2 H3 H4 H5 H6]; unfold filled in Hf; set (hd := TRANS_HD (msg_tsx q)) in *.
  assert (Hlt : hd < q_start q).
  { destruct (Z.ltb_spec hd (q_start q)); [done|]; rewrite Z.mod_small in Hf by lia; lia. }
  replace (hd - q_start q) with (hd - q_start q + 2 ^ 32 + (-1) * 2 ^ 32) in Hf by lia.
  rewrite Z.mod_add, Z.mod_small in Hf by lia; rewrite Z.mod_small by lia.
  rewrite H2, !(land_mask (2 ^ b - 1) b) by (done || lia).
  replace (hd + 1) with (q_start q + (1 - 2 ^ (32 - b)) * 2 ^ b).
  - rewrite Z.mod_add by (pose proof (Z.pow_pos_nonneg 2 b); lia); by rewrite Z.eqb_refl.
  - rewrite Z.mul_sub_distr_r, <- Z.pow_add_r, Z.sub_add by lia; lia.
Qed.

(** C28: With one producer at a time, a message queue is a first-in first-out
    queue of [qmask] messages: a push appends unless the queue is full, when
    it changes nothing; the owner's [pop_msg] gives the oldest message and
    removes it, and finds nothing exactly when the queue is empty.  This
    holds away from the wrap-around of the 32-bit counters only: once
    [start + qmask] passes 2^32 a full queue is not recognised, and the second
    push into it overwrites the message that the owner reads next. *)
Theorem msg_queue_fifo b q m m2 :
  queue_ok b q -> filled q <= queue_mask q ->
  (q_start q + queue_mask q < 2 ^ 32 ->
     (if filled q =? queue_mask q then push_rec m q = Some None
      else exists q', push_rec m q = Some (Some q') /\ pending q' = pending q ++ [Some m] /\ queue_ok b q' /\
             filled q' = filled q + 1) /\
     match pending q with
     | [] => pop_msg q = None
     | e :: rest => exists m', e = Some m' /\ pop_msg q = Some (m', next_msg q) /\ pending (next_msg q) = rest /\
                      queue_ok b (next_msg q) /\ filled (next_msg q) = filled q - 1
     end) /\
  (2 ^ 32 <= q_start q + queue_mask q -> filled q = queue_mask q ->
     exists q1 q2, push_rec m q = Some (Some q1) /\ push_rec m2 q1 = Some (Some q2) /\
       q_start q2 = q_start q /\ get_message q2 = Some m2).
Proof.
  intros Hok Hf; split; [|intros Hw Hff; by apply (push_wrapped b)].
  intros Hw; split; [|by apply pending_pop]; pose proof (head_eq b q Hok Hf Hw) as Hh.
  destruct (Z.eqb_spec (filled q) (queue_mask q)) as [E|E].
  - rewrite push_rec_eq, Hh, E; by rewrite Z.eqb_refl.
  - destruct (push_room b q m Hok) as (q' & E1 & Hok1 & S1 & M1 & T1 & Z1); [lia|].
    destruct (pending_push b q q' m) as [P1 P2]; try done; [lia|]; by exists q'.
Qed.

Definition demo_m (x : Z) : msg_t := mk_msg [] None [] x.

(** Two slots, one message pending; and the same at the wrap-around. *)
Definition demo_q (start : Z) : queue_part :=
  mk_queue start 1 (enc ((start + 1) mod 2 ^ 32) 5 5) [demo_m 1; demo_m 2].

Lemma demo_q_ok start : 0 <= start < 2 ^ 32 -> queue_ok 1 (demo_q start) /\ filled (demo_q start) = 1.
Proof.
  intros Hs; pose proof (Z.mod_pos_bound (start + 1) (2 ^ 32)) as Hm.
  destruct (TRANS_enc ((start + 1) mod 2 ^ 32) 5 5) as (E1 & E2 & E3); [unfold half; lia..|].
  split; [split; cbn [demo_q queue_mask q_msg q_start msg_tsx]; rewrite ?E1, ?E2, ?E3; try done; lia|].
  unfold filled; cbn [demo_q q_start msg_tsx]; rewrite E3.
  rewrite Zminus_mod_idemp_l; by replace (start + 1 - start) with 1 by lia.
Qed.

Lemma msg_queue_fifo_witness :
  (q_start (demo_q 6) + queue_mask (demo_q 6) < 2 ^ 32 ->
     (if filled (demo_q 6) =? queue_mask (demo_q 6) then push_rec (demo_m 7) (demo_q 6) = Some None
      else exists q', push_rec (demo_m 7) (demo_q 6) = Some (Some q') /\
             pending q' = pending (demo_q 6) ++ [Some (demo_m 7)] /\ queue_ok 1 q' /\
             filled q' = filled (demo_q 6) + 1) /\
     match pending (demo_q 6) with
     | [] => pop_msg (demo_q 6) = None
     | e :: rest => exists m', e = Some m' /\ pop_msg (demo_q 6) = Some (m', next_msg (demo_q 6)) /\
                      pending (next_msg (demo_q 6)) = rest /\
                      queue_ok 1 (next_msg (demo_q 6)) /\ filled (next_msg (demo_q 6)) = filled (demo_q 6) - 1
     end) /\
  (2 ^ 32 <= q_start (demo_q 6) + queue_mask (demo_q 6) -> filled (demo_q 6) = queue_mask (demo_q 6) ->
     exists q1 q2, push_rec (demo_m 7) (demo_q 6) = Some (Some q1) /\ push_rec (demo_m 8) q1 = Some (Some q2) /\
       q_start q2 = q_start (demo_q 6) /\ get_message q2 = Some (demo_m 8)).
Proof.
  destruct (demo_q_ok 6) as [H1 H2]; [lia|].
  apply (msg_queue_fifo 1 (demo_q 6) (demo_m 7) (demo_m 8) H1); rewrite H2; cbn; lia.
Defined.

(** The second part at a concrete queue. *)
Example wrapped_queue_overwrites :
  exists q1 q2, push_rec (demo_m 7) (demo_q (2 ^ 32 - 1)) = Some (Some q1) /\ push_rec (demo_m 8) q1 = Some (Some q2) /\
    q_start q2 = 2 ^ 32 - 1 /\ get_message q2 = Some (demo_m 8).
Proof.
  destruct (demo_q_ok (2 ^ 32 - 1)) as [H1 H2]; [lia|].
  apply (push_wrapped 1 (demo_q (2 ^ 32 - 1))); [done|by rewrite H2|cbn; lia].
Qed.

(** ** Replies *)

Definition token_seq (t : token_t) : Z := u64 (u64 (k_off t - MIN_OFFSET) + k_add t).

Lemma token_expected_eq k t x :
  acts k !! k_act t = Some x ->
  token_expected t k =
  if sync_token (a_sync x) =? token_seq t
  then Some (Some (k_act t), set_acts k (<[k_act t := with_sync (set_token (u64 (token_seq t + 1))) x]> (acts k)))
  else Some (None, k).
Proof.
  intros Ha; unfold token_expected; rewrite (bindS _ _ _ _ _ (deref_ok _ _ _ Ha)); fold (token_seq t).
  destruct (_ =? _); [|done]; by rewrite (bindS _ _ _ _ _ (upd_ok _ _ _ _ Ha)).
Qed.

(** The record after a reply, before the scheduler hears of it. *)
Definition replied (r : ret_t) (x : act_t) : act_t :=
  with_ret r (with_sync (set_token (sync_token (a_sync x) + 1)) x).

Lemma reply_run k t x c3 v0 v1 :
  acts k !! k_act t = Some x -> token_seq t = sync_token (a_sync x) -> 0 <= sync_token (a_sync x) < 2 ^ 64 - 1 ->
  set_message_reply c3 v0 v1 (Some t) k =
  (_ ← sched_receive_event (k_act t) sched_sync_block; mret (k_act t))
    (set_acts k (<[k_act t := replied (mk_ret c3 v0 v1) x]> (acts k))).
Proof.
  intros Ha Ht Hr; unfold set_message_reply; rewrite (bindS _ _ _ _ _ (lift_ok t k)).
  rewrite (bindS _ _ _ _ _ (eq_trans (token_expected_eq k t x Ha) ltac:(by rewrite Ht, Z.eqb_refl))).
  rewrite (wrap_small 64 (_ + 1)) by (unfold in_range; lia); set (k1 := set_acts k _).
  rewrite (bindS _ _ _ _ _ (lift_ok (k_act t) k1)).
  assert (Hx1 : acts k1 !! k_act t = Some (with_sync (set_token (sync_token (a_sync x) + 1)) x)) by apply lookup_insert_eq.
  rewrite (bindS _ _ _ _ _ (upd_ok _ _ _ _ Hx1)).
  by replace (set_acts k1 _) with (set_acts k (<[k_act t := replied (mk_ret c3 v0 v1) x]> (acts k)))
    by (unfold k1; cbn; by rewrite insert_insert_eq).
Qed.

Lemma effective_sync x : effective x sched_sync_block = sched_sync_block.
Proof. unfold effective; by rewrite has_land_zero. Qed.

(** What the caller finds after the reply. *)
Definition reply_post (t : token_t) (x : act_t) (r : ret_t) (k' : kernel) : Prop :=
  wf None None k' /\
  (exists x', acts k' !! k_act t = Some x' /\ a_ret x' = r /\ sync_condition (a_sync x') = 0 /\
     sync_token (a_sync x') = sync_token (a_sync x) + 1 /\
     (if has (sched_status (a_sched x)) sched_sync_block
      then sched_status (a_sched x') = sched_runnable /\ queued k' (k_act t) (a_sched x')
      else sched_status (a_sched x') = sched_status (a_sched x) /\
           has (pending_events x' sched_sync_block) sched_sync_block = true)) /\
  token_expected t k' = Some (None, k').

Lemma reply_event k t x c3 v0 v1 :
  wf None None k -> acts k !! k_act t = Some x -> token_seq t = sync_token (a_sync x) ->
  0 <= sync_token (a_sync x) < 2 ^ 64 - 1 -> sync_condition (a_sync x) = 1 ->
  outcome (sched_receive_event (k_act t) sched_sync_block
             (set_acts k (<[k_act t := replied (mk_ret c3 v0 v1) x]> (acts k))))
    (some_full k (pool_id (a_sched x))) (fun _ k' => reply_post t x (mk_ret c3 v0 v1) k').
Proof.
  intros Hwf Ha Ht Hr Hc; set (r := mk_ret c3 v0 v1); set (x1 := replied r x); set (k1 := set_acts k _).
  assert (Hx1 : acts k1 !! k_act t = Some x1) by apply lookup_insert_eq.
  assert (Hwf1 : wf None None k1) by (by apply (quiet_wf _ _ _ _ x)).
  eapply outcome_mono; [exact (receive_outcome k1 (k_act t) x1 sched_sync_block Hwf1 Hx1 eq_refl)|..].
  - intros [[_ H]|[_ H]]; [by destruct H|exact H].
  - rewrite effective_sync; intros [] k' (H1 & _ & _ & _ & _ & H2); cbv zeta in H2.
    change (a_sched x1) with (a_sched x) in H2.
    assert (Hend : forall x', acts k' !! k_act t = Some x' -> sync_token (a_sync x') = sync_token (a_sync x) + 1 ->
      token_expected t k' = Some (None, k')).
    { intros x' Hx' E; rewrite (token_expected_eq k' t x' Hx'), E, Ht.
      by destruct (Z.eqb_spec (sync_token (a_sync x) + 1) (sync_token (a_sync x))); [lia|]. }
    unfold reply_post, has; destruct (Z.eqb_spec (Z.land (sched_status (a_sched x)) sched_sync_block) 0) as [E|E]; cbn [negb].
    + destruct H2 as (_ & _ & Hk); assert (Hx' : acts k' !! k_act t = Some (noted sched_sync_block (sync_cleared sched_sync_block x1)))
        by (rewrite Hk; apply lookup_insert_eq).
      split_and!; [done| |by apply (Hend _ Hx')]; eexists; split_and!; [exact Hx'|done..].
    + destruct H2 as (_ & x' & n & Hx' & -> & Hqd).
      assert (Hcause : fast_res (Z.land (sched_status (a_sched x)) sched_sync_block) (sync_cleared sched_sync_block x1) =
        sync_cleared sched_sync_block x1).
      { unfold fast_res; by rewrite !has_land_zero. }
      rewrite Hcause in Hx', Hqd.
      split_and!; [done| |by apply (Hend _ Hx')]; eexists; split_and!; [exact Hx'|done..].
Qed.

Lemma get_token_ok split k a x :
  acts k !! a = Some x -> sync_condition (a_sync x) = 0 ->
  0 <= sync_add (a_sync x) <= sync_token (a_sync x) -> sync_token (a_sync x) < 2 ^ 64 ->
  sync_token (a_sync x) - sync_add (a_sync x) < MAX_SEQ_NS ->
  exists t, get_and_set_sealed_sync_token split a k =
      Some (t, set_acts k (<[a := with_sync (set_condition 1) x]> (acts k))) /\
    k_act t = a /\ token_seq t = sync_token (a_sync x).
Proof.
  intros Ha Hc Hadd H64 Hm; unfold get_and_set_sealed_sync_token; rewrite (bindS _ _ _ _ _ (deref_ok _ _ _ Ha)), Hc.
  rewrite (bindS _ _ k tt k) by done; unfold MAX_SEQ_NS, MAX_OFFSET, MIN_OFFSET in *.
  rewrite (wrap_small 64 (_ - _)) by (unfold in_range; lia).
  rewrite (proj2 (Z.eqb_neq _ _)) by lia; rewrite (bindS _ _ _ _ _ (lift_ok (a_sync x) k)).
  rewrite (wrap_small 64 (_ - _)) by (unfold in_range; lia).
  rewrite (bindS _ _ k tt k) by (apply kassert_ok, Z.ltb_lt; lia).
  rewrite (bindS _ _ _ _ _ (upd_ok _ _ _ _ Ha)).
  eexists; split_and!; [done|done|]; unfold token_seq, MIN_OFFSET; cbn.
  rewrite !(wrap_small 64) by (unfold in_range; lia || rewrite wrap_small; unfold in_range; lia); lia.
Qed.

(** C29: A synchronous call gets a token that is good for exactly one reply.
    When the reply comes, whether the caller has already blocked on it or is
    still on its way to block, the results are in its return registers, the
    call is no longer outstanding, and the caller is runnable and queued, or
    finds the reply when it asks to block and does not block.  The same token
    is refused from then on.  A second call before the reply stops the
    kernel. *)
Theorem sync_call_reply split k a x c3 v0 v1 :
  acts k !! a = Some x -> sync_condition (a_sync x) = 0 ->
  0 <= sync_add (a_sync x) <= sync_token (a_sync x) -> sync_token (a_sync x) < 2 ^ 64 - 1 ->
  sync_token (a_sync x) - sync_add (a_sync x) < MAX_SEQ_NS ->
  exists t k1, get_and_set_sealed_sync_token split a k = Some (t, k1) /\
    get_and_set_sealed_sync_token split a k1 = None /\
    forall k2 x1 x2, wf None None k2 -> acts k1 !! a = Some x1 -> acts k2 !! a = Some x2 ->
      a_sync x2 = a_sync x1 ->
      outcome (set_message_reply c3 v0 v1 (Some t) k2) (some_full k2 (pool_id (a_sched x2)))
        (fun r k' => r = a /\ reply_post t x2 (mk_ret c3 v0 v1) k').
Proof.
  intros Ha Hc Hadd H64 Hm; destruct (get_token_ok split k a x Ha Hc Hadd ltac:(lia) Hm) as (t & E & <- & Hs).
  exists t; eexists; split_and!; [exact E| |].
  - unfold get_and_set_sealed_sync_token.
    rewrite (bindS _ _ _ _ _ (deref_ok _ _ (with_sync (set_condition 1) x) (lookup_insert_eq _ _ _))); done.
  - intros k2 x1 x2 Hwf2 Hx1 Hx2 Hsync; cbn in Hx1; rewrite lookup_insert_eq in Hx1; injection Hx1 as <-; cbn in Hsync.
    assert (Etok : sync_token (a_sync x2) = sync_token (a_sync x)) by (by rewrite Hsync).
    rewrite (reply_run k2 t x2 c3 v0 v1) by (try done; rewrite ?Etok; try done; lia).
    eapply outcome_bind; [apply (reply_event k2 t x2 c3 v0 v1); try done; rewrite ?Etok; try done; [lia|by rewrite Hsync]|done|].
    by intros [] k' H.
Qed.

Definition demo_act : act_t := default (fresh 0 false) (acts demo !! 2).

Lemma sync_call_reply_witness :
  exists t k1, get_and_set_sealed_sync_token (fun _ _ => 0) 2 demo = Some (t, k1) /\
    get_and_set_sealed_sync_token (fun _ _ => 0) 2 k1 = None /\
    forall k2 x1 x2, wf None None k2 -> acts k1 !! 2 = Some x1 -> acts k2 !! 2 = Some x2 ->
      a_sync x2 = a_sync x1 ->
      outcome (set_message_reply 5 6 7 (Some t) k2) (some_full k2 (pool_id (a_sched x2)))
        (fun r k' => r = 2 /\ reply_post t x2 (mk_ret 5 6 7) k').
Proof.
  apply (sync_call_reply (fun _ _ => 0) demo 2 demo_act 5 6 7); [by vm_compute|by vm_compute|by vm_compute|by vm_compute|by vm_compute].
Defined.
