(* ===== verification/Timer.v ===== *)
(** * Time in the kernel (cherios/kernel/src/timer.c)

    On MIPS the hardware count has 32 bits.  The kernel extends it to 64 bits
    with the value the last timer interrupt stored, and programs the next
    interrupt with 32-bit arithmetic.  The sleep array is in Sched. *)

From S2P Require Import Prelude.

(** The qemu build (cherios/kernel/include/kernel.h). *)
Definition TIMER_INTERVAL : Z := 400000.
Definition TIMER_INTERVAL_MIN : Z := 200000.

(** The value computed from the stored time and the count, between the two
    reads of which nothing was stored. *)
Definition get_high_res_time (old low_res : Z) : Z :=
  let new := Z.lor (Z.shiftl (Z.shiftr old 32) 32) low_res in
  if new <? old then
    if u64 (old - new) <? 2147483648 then old else u64 (new + 4294967296)
  else new.

(** [kernel_timer_init]: the stored time, the last programmed interrupt. *)
Definition kernel_timer_init (count : Z) : Z * Z := (count, u32 (count + TIMER_INTERVAL)).

(** One round of the loop that looks for the next interrupt: [None] when
    [next] is far enough from [cur]. *)
Definition reload_step (cur next : Z) : option Z :=
  if next - cur <? TIMER_INTERVAL_MIN then Some (u32 (next + TIMER_INTERVAL)) else None.

(** [None] when [n] rounds were not enough. *)
Fixpoint reload (n : nat) (cur next : Z) : option Z :=
  match n with
  | O => None
  | S n =>
      match reload_step cur next with
      | None => Some next
      | Some next => reload n cur next
      end
  end.

Definition next_timer (n : nat) (last cur : Z) : option Z := reload n cur (u32 (last + TIMER_INTERVAL)).

(** [diff = (uint64_t)(next_timer - sanity)], read as an [int64_t]: the
    difference of two [uint32_t] is unsigned before it is widened. *)
Definition sanity_diff (next sanity : Z) : Z := signed 64 (u64 (u32 (next - sanity))).

(** The tail of [kernel_timer], from [restart] on: each turn reads the count
    before the loop and after the comparison register is set.  The result is
    the new [kernel_last_timer]. *)
Fixpoint kernel_timer_tail (n : nat) (last : Z) (reads : list (Z * Z)) : option Z :=
  match reads with
  | [] => None
  | (cur, sanity) :: reads =>
      next ← next_timer n last cur;
      if sanity_diff next sanity <? 0 then kernel_timer_tail n last reads else Some next
  end.

(** ** Lemmas *)

Lemma high_bits old low :
  0 <= old -> 0 <= low < 2 ^ 32 -> Z.lor (Z.shiftl (Z.shiftr old 32) 32) low = old / 2 ^ 32 * 2 ^ 32 + low.
Proof.
  intros Ho Hl; rewrite Z.shiftr_div_pow2, <- (Z.shiftl_mul_pow2 _ 32) by lia.
  rewrite <- Z.lxor_lor, <- Z.add_nocarry_lxor; [done|..];
    (apply Z.bits_inj'; intros i Hi; rewrite Z.land_spec, Z.bits_0;
     destruct (Z.ltb_spec i 32); [rewrite Z.shiftl_spec_low by done; done|];
     replace low with (low mod 2 ^ 32) by (by apply Z.mod_small);
     rewrite Z.mod_pow2_bits_high by lia; by rewrite andb_false_r).
Qed.

(** The interval is a multiple of 128, and so is 2^32: the loop stays in its
    residue class. *)
Lemma step_class z : u32 (z + TIMER_INTERVAL) mod 128 = z mod 128.
Proof.
  unfold wrap; rewrite <- (Znumtheory.Zmod_div_mod 128 (2 ^ 32)) by (lia || (exists (2 ^ 25); lia)).
  change TIMER_INTERVAL with (3125 * 128); by rewrite Z.mod_add.
Qed.

(** The greatest count of the class. *)
Definition class_top (z : Z) : Z := 2 ^ 32 - 128 + z mod 128.

Lemma class_top_max z z' : 0 <= z < 2 ^ 32 -> z mod 128 = z' mod 128 -> z <= class_top z'.
Proof. intros Hz E; unfold class_top; pose proof (Z.div_mod z 128); assert (z / 128 < 2 ^ 25) by (apply Z.div_lt_upper_bound; lia); lia. Qed.

Lemma reload_stuck n cur z : class_top z < cur + TIMER_INTERVAL_MIN -> forall next, 0 <= next < 2 ^ 32 -> next mod 128 = z mod 128 -> reload n cur next = None.
Proof.
  intros Hc; induction n as [|n IH]; intros next Hn E; [done|]; cbn [reload]; unfold reload_step; pose proof (class_top_max next z Hn E).
  rewrite (proj2 (Z.ltb_lt _ _)) by lia; apply IH; [apply (wrap_range 32); done|by rewrite step_class].
Qed.

(** If the [k]-th value is far enough, the loop stops there or before. *)
Lemma reload_by k cur : forall next, 0 <= next < 2 ^ 32 -> cur + TIMER_INTERVAL_MIN <= u32 (next + Z.of_nat k * TIMER_INTERVAL) ->
  exists r, reload (S k) cur next = Some r /\ cur + TIMER_INTERVAL_MIN <= r < 2 ^ 32 /\ r mod 128 = next mod 128.
Proof.
  induction k as [|k IH]; intros next Hn Hk.
  - exists next; rewrite Z.mul_0_l, Z.add_0_r, wrap_small in Hk by (unfold in_range; lia); split; [|lia]; cbn; unfold reload_step; by rewrite (proj2 (Z.ltb_ge _ _)) by lia.
  - cbn [reload]; unfold reload_step at 1; destruct (Z.ltb_spec (next - cur) TIMER_INTERVAL_MIN) as [Hlt|Hge]; [|exists next; split; [done|lia]].
    destruct (IH (u32 (next + TIMER_INTERVAL))) as (r & E & Hr & Hm); [apply (wrap_range 32); done| |].
    + rewrite wrap_add_l by lia; by replace (next + TIMER_INTERVAL + Z.of_nat k * TIMER_INTERVAL) with (next + Z.of_nat (S k) * TIMER_INTERVAL) by lia.
    + exists r; split; [exact E|split; [done|]]; by rewrite Hm, step_class.
Qed.

(** 3125 is invertible modulo 2^25, so the loop comes to every count of its
    class. *)
Lemma class_reached next t : 0 <= t < 2 ^ 32 -> t mod 128 = next mod 128 -> exists k, u32 (next + Z.of_nat k * TIMER_INTERVAL) = t.
Proof.
  intros Ht E; set (q := (t - next) / 128); assert (Eq : t - next = 128 * q).
  { apply Z.div_exact; [done|]; rewrite Zminus_mod, E, Z.sub_diag; done. }
  exists (Z.to_nat ((30139933 * q) mod 2 ^ 25)); rewrite Z2Nat.id by (apply Z.mod_pos_bound; lia); change TIMER_INTERVAL with (128 * 3125).
  set (x := 30139933 * q); rewrite <- (Z.mod_small t (2 ^ 32)) by lia; unfold wrap.
  replace (next + x mod 2 ^ 25 * (128 * 3125)) with (t + (2807 * q - x / 2 ^ 25 * 3125) * 2 ^ 32); [by rewrite Z.mod_add|].
  pose proof (Z.div_mod x (2 ^ 25)); subst x; lia.
Qed.

Lemma reload_ends cur next : 0 <= next < 2 ^ 32 -> cur + TIMER_INTERVAL_MIN <= class_top next ->
  exists n r, reload n cur next = Some r /\ cur + TIMER_INTERVAL_MIN <= r < 2 ^ 32 /\ r mod 128 = next mod 128.
Proof.
  intros Hn Hc; pose proof (Z.mod_pos_bound next 128 ltac:(done)); destruct (class_reached next (class_top next)) as [k Ek]; [unfold class_top; lia| |].
  - unfold class_top; replace (2 ^ 32 - 128 + next mod 128) with (next mod 128 + (2 ^ 25 - 1) * 128) by lia; rewrite Z.mod_add, Z.mod_mod by done; done.
  - destruct (reload_by k cur next Hn) as (r & E & H'); [by rewrite Ek|]; by exists (S k), r.
Qed.

(** The check for a jump of the count never restarts. *)
Lemma sanity_passes n last cur sanity reads : kernel_timer_tail n last ((cur, sanity) :: reads) = next_timer n last cur.
Proof.
  cbn [kernel_timer_tail]; destruct (next_timer n last cur) as [next|]; [|done]; cbn [mbind option_bind]; assert (H : 0 <= sanity_diff next sanity); [|by rewrite (proj2 (Z.ltb_ge _ _)) by lia].
  unfold sanity_diff; pose proof (wrap_range 32 (next - sanity) ltac:(lia)) as Hr; unfold in_range in Hr; rewrite (wrap_small 64) by (unfold in_range; lia).
  unfold signed; rewrite wrap_small by (unfold in_range; lia); case_match; lia.
Qed.

(** Without a wrap-around the loop takes as many rounds as intervals were
    missed. *)
Lemma reload_ok n cur next :
  0 <= next -> next <= cur + TIMER_INTERVAL_MIN + TIMER_INTERVAL -> cur + TIMER_INTERVAL_MIN + TIMER_INTERVAL < 2 ^ 32 ->
  cur + TIMER_INTERVAL_MIN - next <= (Z.of_nat n - 1) * TIMER_INTERVAL -> (0 < n)%nat ->
  exists r, reload n cur next = Some r /\
    cur + TIMER_INTERVAL_MIN <= r <= cur + TIMER_INTERVAL_MIN + TIMER_INTERVAL /\
    (r - next) mod TIMER_INTERVAL = 0.
Proof.
  revert next; induction n as [|n IH]; intros next H0 H1 H2 H3 Hn; [lia|]; cbn [reload]; unfold reload_step.
  unfold TIMER_INTERVAL, TIMER_INTERVAL_MIN in *.
  destruct (Z.ltb_spec (next - cur) 200000).
  - rewrite wrap_small by (unfold in_range; lia).
    destruct n as [|n]; [lia|].
    destruct (IH (next + 400000) ltac:(lia) ltac:(lia) H2 ltac:(lia) ltac:(lia)) as (r & E & Hr & Hm); exists r; split_and!; [done|lia..|].
    replace (r - next) with ((r - (next + 400000)) + 1 * 400000) by lia; by rewrite Z.mod_add.
  - exists next; split_and!; [done|lia..|]; by rewrite Z.sub_diag.
Qed.

Lemma reload_last last cur : 0 <= last -> last <= cur -> cur + TIMER_INTERVAL_MIN + TIMER_INTERVAL < 2 ^ 32 ->
  exists n r, reload n cur (u32 (last + TIMER_INTERVAL)) = Some r /\ cur + TIMER_INTERVAL_MIN <= r <= cur + TIMER_INTERVAL_MIN + TIMER_INTERVAL /\ (r - last) mod TIMER_INTERVAL = 0.
Proof.
  intros H0 Hlc Hw; pose proof Hw as Hw'; unfold TIMER_INTERVAL, TIMER_INTERVAL_MIN in Hw'; rewrite (wrap_small 32) by (unfold in_range, TIMER_INTERVAL; lia).
  destruct (reload_ok (Z.to_nat (cur + 3)) cur (last + TIMER_INTERVAL)) as (r & E & Hr & Hm); try (unfold TIMER_INTERVAL, TIMER_INTERVAL_MIN; lia).
  exists (Z.to_nat (cur + 3)), r; split_and!; [done|lia..|]; replace (r - last) with (r - (last + TIMER_INTERVAL) + 1 * TIMER_INTERVAL) by lia; by rewrite Z.mod_add.
Qed.

(** The extended time is exact as long as at most 2^31 ticks passed since
    the stored value: it is the true 64-bit count, across a wrap-around of the
    hardware counter too, so time never goes backwards.  If more than 2^31
    ticks passed and the counter wrapped, the kernel takes it for a step back
    and time stands still. *)
Theorem high_res_time_exact old now :
  0 <= old <= now -> now < 2 ^ 64 -> now - old < 2 ^ 32 ->
  get_high_res_time old (now mod 2 ^ 32) =
  if (2 ^ 31 <? now - old) && (old / 2 ^ 32 <? now / 2 ^ 32) then old else now.
Proof.
  intros Ho H64 Hd; pose proof (Z.mod_pos_bound now (2 ^ 32) ltac:(lia)) as Hm.
  pose proof (Z.div_mod now (2 ^ 32) ltac:(lia)) as En; pose proof (Z.div_mod old (2 ^ 32) ltac:(lia)) as Eo.
  pose proof (Z.mod_pos_bound old (2 ^ 32) ltac:(lia)) as Hmo.
  unfold get_high_res_time; rewrite high_bits by lia.
  assert (Hq : now / 2 ^ 32 = old / 2 ^ 32 \/ now / 2 ^ 32 = old / 2 ^ 32 + 1) by lia.
  set (h := old / 2 ^ 32) in *; destruct Hq as [E|E]; rewrite E in *.
  - destruct (Z.ltb_spec (h * 2 ^ 32 + now mod 2 ^ 32) old); [lia|].
    rewrite Z.ltb_irrefl, andb_false_r; lia.
  - destruct (Z.ltb_spec (h * 2 ^ 32 + now mod 2 ^ 32) old); [|lia].
    rewrite (wrap_small 64 (old - _)) by (unfold in_range; lia).
    destruct (Z.ltb_spec h (h + 1)); [|lia]; rewrite andb_true_r.
    destruct (Z.ltb_spec (old - (h * 2 ^ 32 + now mod 2 ^ 32)) 2147483648), (Z.ltb_spec (2 ^ 31) (now - old)); try lia.
    rewrite wrap_small by (unfold in_range; lia); lia.
Qed.

Lemma high_res_time_exact_witness :
  get_high_res_time (2 ^ 32 - 10) ((2 ^ 32 + 5) mod 2 ^ 32) =
  if (2 ^ 31 <? 2 ^ 32 + 5 - (2 ^ 32 - 10)) && ((2 ^ 32 - 10) / 2 ^ 32 <? (2 ^ 32 + 5) / 2 ^ 32)
  then 2 ^ 32 - 10 else 2 ^ 32 + 5.
Proof. apply (high_res_time_exact (2 ^ 32 - 10) (2 ^ 32 + 5)); lia. Defined.

(** C37: when the loop of [kernel_timer] ends, in the MIPS qemu build.  The
    values it tries are the counts that are congruent to the last interrupt
    modulo 128.  If the greatest of these is [TIMER_INTERVAL_MIN] ticks or more
    ahead of the count, the loop ends with one that is; far from the
    wrap-around of the count it is the first whole number of intervals after
    the last interrupt.  If not - in the last 200127 ticks or fewer of each
    period of the count - the loop never ends, and the kernel hangs in the
    interrupt handler.  The check for a jump of the count behind the loop never
    restarts it. *)
Theorem timer_reload_exact last cur sanity reads :
  0 <= last < 2 ^ 32 -> 0 <= cur < 2 ^ 32 ->
  let tail n := kernel_timer_tail n last ((cur, sanity) :: reads) in
  (cur + TIMER_INTERVAL_MIN <= class_top last ->
   exists n r, tail n = Some r /\ cur + TIMER_INTERVAL_MIN <= r < 2 ^ 32 /\ r mod 128 = last mod 128 /\
     (last <= cur -> cur + TIMER_INTERVAL_MIN + TIMER_INTERVAL < 2 ^ 32 -> r <= cur + TIMER_INTERVAL_MIN + TIMER_INTERVAL /\ (r - last) mod TIMER_INTERVAL = 0)) /\
  (class_top last < cur + TIMER_INTERVAL_MIN -> forall n, tail n = None).
Proof.
  intros Hl Hc tail; assert (Et : forall n, tail n = reload n cur (u32 (last + TIMER_INTERVAL))) by (intros n; apply sanity_passes).
  pose proof (wrap_range 32 (last + TIMER_INTERVAL) ltac:(done)) as Hn; unfold in_range in Hn; pose proof (step_class last) as Ec; split.
  - intros Htop; destruct (decide (last <= cur /\ cur + TIMER_INTERVAL_MIN + TIMER_INTERVAL < 2 ^ 32)) as [[Hlc Hw]|Hno].
    + destruct (reload_last last cur ltac:(lia) Hlc Hw) as (n & r & E & Hr & Hm); exists n, r; rewrite Et; split; [done|split; [unfold TIMER_INTERVAL, TIMER_INTERVAL_MIN in *; lia|split; [|intros _ _; split; [lia|done]]]].
      rewrite Z.mod_divide in Hm by done; destruct Hm as [k Hk]; replace r with (last + (k * 3125) * 128) by (unfold TIMER_INTERVAL in Hk; lia); by rewrite Z.mod_add.
    + destruct (reload_ends cur (u32 (last + TIMER_INTERVAL)) Hn) as (n & r & E & Hr & Hm); [unfold class_top in *; by rewrite Ec|]; exists n, r; rewrite Et; split; [done|split; [done|split; [by rewrite Hm|]]]; intros; by destruct Hno.
  - intros Htop n; rewrite Et; by apply (reload_stuck n cur last).
Qed.

Lemma timer_reload_exact_witness :
  (exists n r, kernel_timer_tail n 5 [(1000000, 1000100)] = Some r /\ 1200000 <= r <= 1600000) /\ forall n, kernel_timer_tail n 5 [(2 ^ 32 - 200001, 3)] = None.
Proof.
  split.
  - destruct (proj1 (timer_reload_exact 5 1000000 1000100 [] ltac:(lia) ltac:(lia)) ltac:(by vm_compute)) as (n & r & E & H1 & _ & H2); exists n, r; split; [exact E|].
    destruct (H2 ltac:(lia) ltac:(by vm_compute)); unfold TIMER_INTERVAL, TIMER_INTERVAL_MIN in *; lia.
  - exact (proj2 (timer_reload_exact 5 (2 ^ 32 - 200001) 3 [] ltac:(lia) ltac:(lia)) ltac:(by vm_compute)).
Defined.
