(* ===== verification/Mutex.v ===== *)
(** * Kernel semaphores and mutexes (cherios/kernel/src/mutex.c)

    A semaphore is threaded through the operations beside the kernel. *)

From S2P Require Import Prelude Kernel Sched SchedInv SchedOps SchedEvents SchedSteps.

Record semaphore_t := mk_sem { first_waiter : option Z; last_waiter : option Z; level : Z }.
Record mutex_t := mk_mutex { owner : option Z; sem : semaphore_t; recursions : Z }.

Definition semaphore_init : semaphore_t := mk_sem None None 0.

Definition semaphore_signal (s : semaphore_t) : K semaphore_t :=
  match first_waiter s with
  | Some w =>
      x ← deref w;
      let next := semaphore_next_waiter x in
      _ ← sched_receive_event w sched_sem;
      mret (mk_sem next (match next with None => None | Some _ => last_waiter s end) (level s))
  | None => mret (mk_sem None (last_waiter s) (signed 32 (level s + 1)))
  end.

Definition semaphore_wait (s : semaphore_t) (waiter : Z) : K semaphore_t :=
  if level s <? 0 then
    _ ← upd waiter (with_next_waiter None);
    _ ← match last_waiter s with
        | None => mret tt
        | Some l => upd l (with_next_waiter (Some waiter))
        end;
    _ ← sched_receive_event waiter sched_sem;
    _ ← sched_reschedule None;
    mret (mk_sem (first_waiter s) (Some waiter) (level s))
  else mret (mk_sem (first_waiter s) (last_waiter s) (level s - 1)).

Definition semaphore_try_wait (s : semaphore_t) : bool * semaphore_t :=
  if level s <? 0 then (false, s) else (true, mk_sem (first_waiter s) (last_waiter s) (level s - 1)).

Definition mutex_init : mutex_t := mk_mutex None semaphore_init 0.

Definition mutex_release (mu : mutex_t) (a : Z) : K mutex_t :=
  if negb (bool_decide (owner mu = Some a)) then mret mu
  else if 0 <? recursions mu then mret (mk_mutex (owner mu) (sem mu) (recursions mu - 1))
  else s ← semaphore_signal (sem mu); mret (mk_mutex None s (recursions mu)).

Definition mutex_acquire (mu : mutex_t) (a : Z) : K mutex_t :=
  if bool_decide (owner mu = Some a) then mret (mk_mutex (owner mu) (sem mu) (u64 (recursions mu + 1)))
  else s ← semaphore_wait (sem mu) a; mret (mk_mutex (Some a) s (recursions mu)).

Definition mutex_try_acquire (mu : mutex_t) (a : Z) : bool * mutex_t :=
  if bool_decide (owner mu = Some a) then (true, mk_mutex (owner mu) (sem mu) (u64 (recursions mu + 1)))
  else
    let '(res, s) := semaphore_try_wait (sem mu) in
    if res then (true, mk_mutex (Some a) s (recursions mu)) else (false, mk_mutex (owner mu) s (recursions mu)).

(** ** What they do *)

(** Nothing ever becomes the first waiter, so a signal never wakes one. *)
Lemma first_waiter_never s w k s' k' :
  first_waiter s = None -> semaphore_wait s w k = Some (s', k') -> first_waiter s' = None.
Proof.
  intros H; unfold semaphore_wait; destruct (level s <? 0); intros E; [|by injection E as <- _].
  kinv E; kinv E; kinv E; kinv E; by injection E as <- _.
Qed.

(** The wait of an activation that can run leaves it able to run. *)
Lemma wait_returns k pool i c s a x :
  wf None None k -> zget (pools k) (cpu k) = Some pool -> idle_act pool = Some i -> current_act pool = Some c ->
  (forall l q, queue_at k (cpu k) l = Some q -> act_queue_end q < 31) ->
  acts k !! a = Some x -> can_run (a_sched x) -> last_waiter s = None ->
  exists s' k' x', semaphore_wait s a k = Some (s', k') /\ first_waiter s' = first_waiter s /\
    acts k' !! a = Some x' /\ can_run (a_sched x').
Proof.
  intros Hwf Hp Hi Hc Hfull Ha Hr Hl; unfold semaphore_wait; destruct (level s <? 0); [|by eexists _, k, x].
  rewrite (bindS _ _ _ _ _ (upd_ok _ _ _ _ Ha)), Hl; set (x1 := with_next_waiter None x); set (k1 := set_acts k _).
  assert (Hx1 : acts k1 !! a = Some x1) by apply lookup_insert_eq.
  assert (Hwf1 : wf None None k1) by (by apply (quiet_wf _ _ _ _ x)).
  rewrite (bindS (mret tt : K unit) _ k1 tt k1 eq_refl).
  pose proof (receive_outcome k1 a x1 sched_sem Hwf1 Hx1 eq_refl) as H.
  assert (He : effective x1 sched_sem = sched_sem) by (unfold effective; by rewrite has_land_zero).
  assert (Hz : Z.land (sched_status (a_sched x1)) sched_sem = 0) by (cbn; by destruct Hr as [->| ->]).
  rewrite He in H; destruct (sched_receive_event a sched_sem k1) as [[[] k2]|] eqn:E2.
  2: { destruct H as [[H _]|[H _]]; done. }
  rewrite (bindS _ _ _ _ _ E2); destruct H as (Hwf2 & Hcpu & _ & _ & Hcores & H); rewrite Hz in H; destruct H as (_ & Hpools & Hk2).
  assert (Hp2 : zget (pools k2) (cpu k2) = Some pool) by (by rewrite Hpools, Hcpu).
  pose proof (reschedule_outcome k2 pool None Hwf2 Hp2) as H.
  destruct (sched_reschedule None k2) as [[[] k3]|] eqn:E3.
  2: { destruct H as [(h & ? & _)|[(l & q & Hq & E)|[[_ E]|E]]]; [done| |congruence..].
       unfold queue_at in Hq; rewrite Hpools, Hcpu in Hq; apply Hfull in Hq; lia. }
  rewrite (bindS _ _ _ _ _ E3); destruct H as (_ & [_ _ _ _ Hsw] & _).
  destruct (Hsw a (noted sched_sem (sync_cleared sched_sem x1))) as (n & np & st & Hx3 & Hst);
    [rewrite Hk2; apply lookup_insert_eq|].
  eexists _, k3, _; split_and!; [done|done|exact Hx3|].
  unfold can_run in *; cbn in *; destruct Hst as [-> |[_ ?]]; [done|done].
Qed.

(** C38: The kernel's mutex does not exclude.  An activation that can run and
    asks for a mutex another one holds gets it at once: [semaphore_wait] puts
    it at the end of a list, sends it an event instead of blocking it, and
    returns after giving up the core once.  The list has no first element, so
    a release only counts up and wakes nobody. *)
Theorem mutex_no_exclusion k pool i c a b x :
  wf None None k -> zget (pools k) (cpu k) = Some pool -> idle_act pool = Some i -> current_act pool = Some c ->
  (forall l q, queue_at k (cpu k) l = Some q -> act_queue_end q < 31) ->
  a <> b -> acts k !! b = Some x -> can_run (a_sched x) ->
  exists mu1 mu2 k2 x2, mutex_acquire mutex_init a k = Some (mu1, k) /\ owner mu1 = Some a /\
    mutex_acquire mu1 b k = Some (mu2, k2) /\ owner mu2 = Some b /\
    acts k2 !! b = Some x2 /\ can_run (a_sched x2) /\
    mutex_release mu2 b k2 =
      Some (mk_mutex None (mk_sem None (last_waiter (sem mu2)) (signed 32 (level (sem mu2) + 1))) (recursions mu2), k2).
Proof.
  intros Hwf Hp Hi Hc Hfull Hab Hb Hr; set (s1 := mk_sem None None (-1)).
  destruct (wait_returns k pool i c s1 b x) as (s' & k' & x' & E & Hf & Hx' & Hr'); try done.
  exists (mk_mutex (Some a) s1 0), (mk_mutex (Some b) s' 0), k', x'; split_and!; [done|done| |done|done|done|].
  - unfold mutex_acquire; cbn [owner sem recursions]; rewrite bool_decide_eq_false_2 by congruence.
    rewrite (bindS _ _ _ _ _ E); done.
  - unfold mutex_release; cbn [owner sem recursions]; rewrite bool_decide_eq_true_2 by done; cbn [negb Z.ltb Z.compare].
    unfold semaphore_signal; rewrite Hf; done.
Qed.

Lemma mutex_no_exclusion_witness :
  exists mu1 mu2 k2 x2, mutex_acquire mutex_init 3 demo = Some (mu1, demo) /\ owner mu1 = Some 3 /\
    mutex_acquire mu1 2 demo = Some (mu2, k2) /\ owner mu2 = Some 2 /\
    acts k2 !! 2 = Some x2 /\ can_run (a_sched x2) /\
    mutex_release mu2 2 k2 =
      Some (mk_mutex None (mk_sem None (last_waiter (sem mu2)) (signed 32 (level (sem mu2) + 1))) (recursions mu2), k2).
Proof.
  apply (mutex_no_exclusion demo demo_pool 1 2 3 2 (default (fresh 0 false) (acts demo !! 2)));
    [exact demo_wf|reflexivity..|exact demo_not_full|done|by vm_compute|by right; vm_compute].
Defined.
