(* ===== verification/Interrupts.v ===== *)
(** * Interrupts (cherios/kernel/src/interrupts.c)

    Each core has a table of the activations registered for its interrupts
    and a mask of those enabled; the controller's own mask is set through the
    nanokernel ([hw_mask]).  A pending interrupt is masked and turned into a
    message to its activation. *)

From S2P Require Import Prelude Kernel Sched SchedInv SchedSteps MsgPush Msg.

(** The qemu build. *)
Definition INTERRUPTS_N : Z := 5.

Definition GET_REG (core id : Z) : Z := id + core * INTERRUPTS_N.

Definition validate_number (number : Z) : Z :=
  if (number <? 0) || (INTERRUPTS_N <=? number) then -1 else number.

Definition bit (i : Z) : Z := Z.shiftl 1 i.
Definition put_bit (m i : Z) (on : bool) : Z := if on then Z.lor m (bit i) else Z.land m (Z.lnot (bit i)).

Definition get_reg (core id : Z) : K interrupt_register :=
  l ← gets int_child; lift (zget l (GET_REG core id)).
Definition put_reg (core id : Z) (r : interrupt_register) : K unit :=
  l ← gets int_child;
  l ← lift (zput l (GET_REG core id) r);
  modify (fun k => set_ints k l (masks k) (disabled k) (hw_mask k)).

Definition get_mask (core : Z) : K Z := l ← gets masks; lift (zget l core).
Definition put_mask (core m : Z) : K unit :=
  l ← gets masks;
  l ← lift (zput l core m);
  modify (fun k => set_ints k (int_child k) l (disabled k) (hw_mask k)).

Definition put_disabled (core : Z) (b : bool) : K unit :=
  l ← gets disabled;
  l ← lift (zput l core b);
  modify (fun k => set_ints k (int_child k) (masks k) l (hw_mask k)).

(** [interrupts_mask] of the nanokernel. *)
Definition interrupts_mask (core i : Z) (on : bool) : K unit :=
  l ← gets hw_mask;
  m ← lift (zget l core);
  l ← lift (zput l core (put_bit m i on));
  modify (fun k => set_ints k (int_child k) (masks k) (disabled k) l).

(** Deliver the pending interrupts from number [i] on. *)
Fixpoint kernel_interrupt_others (n : nat) (i pending cpu_id : Z) : K unit :=
  match n with
  | O => mret tt
  | S n =>
      _ ← when (has pending (bit i))
            (r ← get_reg cpu_id i;
             match i_target r with
             | None => mret tt
             | Some t =>
                 _ ← interrupts_mask cpu_id i false;
                 m ← get_mask cpu_id;
                 _ ← put_mask cpu_id (Z.land m (Z.lnot (bit i)));
                 _ ← msg_push t (mk_msg [i_carg r; 0; 0; 0] None [i_arg r; i; 0; 0] (i_v0 r));
                 sched_got_int t cpu_id
             end);
      kernel_interrupt_others n (i + 1) pending cpu_id
  end.

(** Set the controller's mask again, bit by bit. *)
Fixpoint remask (n : nat) (cpu_id i mask : Z) : K unit :=
  match n with
  | O => mret tt
  | S n => _ ← interrupts_mask cpu_id i (has mask (bit i)); remask n cpu_id (i + 1) mask
  end.

Definition kernel_interrupt (handle_time : bool) (ipending cpu_id : Z) : K unit :=
  mask ← get_mask cpu_id;
  let toprocess := Z.land ipending mask in
  _ ← when (negb (handle_time || negb (toprocess =? 0))) (remask (Z.to_nat INTERRUPTS_N) cpu_id 0 mask);
  _ ← when handle_time kernel_timer;
  when (negb (toprocess =? 0)) (kernel_interrupt_others (Z.to_nat INTERRUPTS_N) 0 toprocess cpu_id).

(** Turn the enabled interrupts of a core on or off at the controller: the
    loop shifts the mask until it is zero. *)
Fixpoint mask_bits (n : nat) (cpu_id i mask : Z) (on : bool) : K unit :=
  if mask =? 0 then mret tt
  else
    match n with
    | O => kpanic
    | S n =>
        _ ← when (has mask 1) (interrupts_mask cpu_id i on);
        mask_bits n cpu_id (i + 1) (Z.shiftr mask 1) on
    end.

Definition kernel_interrupts_off : K Z :=
  c ← gets cpu;
  _ ← put_disabled c true;
  m ← get_mask c;
  _ ← mask_bits 64 c 0 m false;
  mret 0.

Definition kernel_interrupts_on : K Z :=
  c ← gets cpu;
  _ ← put_disabled c false;
  m ← get_mask c;
  _ ← mask_bits 64 c 0 m true;
  mret 0.

Definition kernel_interrupt_enable (number ctrl : Z) : K Z :=
  let number := validate_number number in
  if number <? 0 then mret (-1)
  else
    c ← gets cpu;
    r ← get_reg c number;
    if negb (bool_decide (i_target r = Some ctrl)) then mret (-1)
    else
      m ← get_mask c;
      _ ← put_mask c (Z.lor m (bit number));
      d ← gets disabled;
      d ← lift (zget d c);
      _ ← when (negb d) (interrupts_mask c number true);
      mret 0.

Definition kernel_interrupt_register (number ctrl v0 arg carg : Z) : K Z :=
  let number := validate_number number in
  if number <? 0 then mret (-1)
  else
    c ← gets cpu;
    r ← get_reg c number;
    if negb (bool_decide (i_target r = None)) && negb (bool_decide (i_target r = Some ctrl)) then mret (-1)
    else
      _ ← put_reg c number (mk_int (Some ctrl) v0 carg arg);
      mret 0.

(** ** Operations that leave the interrupt state alone *)

Definition ints_of (k : kernel) : list interrupt_register * list Z * list bool * list Z * Z :=
  (int_child k, masks k, disabled k, hw_mask k, cpu k).

Class KeepsInts {A} (m : K A) : Prop :=
  keeps_ints : forall k x k', m k = Some (x, k') -> ints_of k' = ints_of k.

#[global] Hint Mode KeepsInts - ! : typeclass_instances.

#[global] Instance ki_ret {A} (x : A) : KeepsInts (mret x : K A).
Proof. by intros k y k' [= _ <-]. Qed.

#[global] Instance ki_bind {A B} (m : K A) (f : A -> K B) :
  KeepsInts m -> (forall x, KeepsInts (f x)) -> KeepsInts (m ≫= f).
Proof.
  intros Hm Hf k y k' E; unfold mbind, K_bind in E; destruct (m k) as [[x k1]|] eqn:E1; [|done].
  rewrite (Hf x _ _ _ E); by apply (Hm _ x).
Qed.

#[global] Instance ki_gets {A} (f : kernel -> A) : KeepsInts (gets f).
Proof. by intros k y k' [= _ <-]. Qed.

#[global] Instance ki_lift {A} (o : option A) : KeepsInts (lift o).
Proof. intros k y k' E; destruct o; [by injection E as _ <-|done]. Qed.

#[global] Instance ki_kassert b : KeepsInts (kassert b).
Proof. intros k y k' E; destruct b; [by injection E as _ <-|done]. Qed.

#[global] Instance ki_deref a : KeepsInts (deref a).
Proof. intros k y k' E; unfold deref in E; destruct (acts k !! a); [by injection E as _ <-|done]. Qed.

#[global] Instance ki_upd a f : KeepsInts (upd a f).
Proof. intros k y k' E; unfold upd in E; destruct (acts k !! a); [by injection E as _ <-|done]. Qed.

#[global] Instance ki_get_pool p : KeepsInts (get_pool p).
Proof. intros k y k' E; unfold get_pool in E; destruct (zget (pools k) p); [by injection E as _ <-|done]. Qed.

#[global] Instance ki_put_pool p x : KeepsInts (put_pool p x).
Proof. intros k y k' E; unfold put_pool in E; destruct (zput (pools k) p x); [by injection E as _ <-|done]. Qed.

#[global] Instance ki_sleeps sl : KeepsInts (modify (fun k => set_sleeps k sl)).
Proof. by intros k y k' [= _ <-]. Qed.

#[global] Instance ki_when b m : KeepsInts m -> KeepsInts (when b m).
Proof. intros H; destruct b; [done|apply _]. Qed.

(** Unfold, split the cases, and let instance search do the rest. *)
Ltac keeps :=
  repeat first [apply _ | apply ki_bind; [|intros ?] | case_match].

#[global] Instance ki_delete p a st : KeepsInts (delete_act_from_queue p a st).
Proof. unfold delete_act_from_queue, delete_locked, sched_of, get_queue, put_queue, upd_sched; keeps. Qed.

#[global] Instance ki_add p a st : KeepsInts (add_act_to_queue p a st).
Proof. unfold add_act_to_queue, sched_of, get_queue, put_queue, upd_sched; keeps. Qed.

#[global] Instance ki_picknext p : KeepsInts (sched_picknext p).
Proof. unfold sched_picknext, sched_of, upd_sched; keeps. Qed.

#[global] Instance ki_reschedule hint : KeepsInts (sched_reschedule hint).
Proof. unfold sched_reschedule, take_hint, sched_deschedule, sched_schedule, sched_of, upd_sched; keeps. Qed.

#[global] Instance ki_got_int a c : KeepsInts (sched_got_int a c).
Proof. unfold sched_got_int, sched_of; keeps. Qed.

#[global] Instance ki_receive a ev : KeepsInts (sched_receive_event a ev).
Proof. unfold sched_receive_event, kernel_timer_unsubscribe, sched_of, upd_sched; keeps. Qed.

#[global] Instance ki_push d m : KeepsInts (msg_push d m).
Proof. unfold msg_push; keeps. Qed.

#[global] Instance ki_sleepers n i : KeepsInts (check_sleepers n i).
Proof. revert i; induction n as [|n IH]; intros i; cbn [check_sleepers]; unfold sched_of; keeps; apply IH. Qed.

#[global] Instance ki_timer : KeepsInts kernel_timer.
Proof. unfold kernel_timer; keeps. Qed.

(** ** The masks *)

(** What is enabled at the controller is what is enabled in the kernel's mask,
    unless the core has its interrupts off; what is enabled is registered. *)
Record core_ok (k : kernel) (c m : Z) (d : bool) (h : Z) : Prop := {
  co_range : 0 <= m < 2 ^ INTERRUPTS_N;
  co_hw : h = if d then 0 else m;
  co_reg : forall i, 0 <= i < INTERRUPTS_N -> Z.testbit m i = true ->
    exists r t, zget (int_child k) (GET_REG c i) = Some r /\ i_target r = Some t
}.

Record ints_ok (n : Z) (k : kernel) : Prop := {
  io_child : Z.of_nat (length (int_child k)) = n * INTERRUPTS_N;
  io_masks : Z.of_nat (length (masks k)) = n;
  io_disabled : Z.of_nat (length (disabled k)) = n;
  io_hw : Z.of_nat (length (hw_mask k)) = n;
  io_core : forall c m d h, zget (masks k) c = Some m -> zget (disabled k) c = Some d ->
    zget (hw_mask k) c = Some h -> core_ok k c m d h
}.

Lemma ints_ok_eq n k k' : ints_of k' = ints_of k -> ints_ok n k -> ints_ok n k'.
Proof.
  unfold ints_of; intros [= E1 E2 E3 E4 E5] [H1 H2 H3 H4 H5]; split; rewrite ?E1, ?E2, ?E3, ?E4; try done.
  intros c m d h Hm Hd Hh; destruct (H5 c m d h Hm Hd Hh) as [G1 G2 G3]; split; rewrite ?E1; done.
Qed.

Lemma bit_spec i j : 0 <= i -> 0 <= j -> Z.testbit (bit i) j = (i =? j).
Proof. intros Hi Hj; unfold bit; rewrite Z.shiftl_1_l; by apply Z.pow2_bits_eqb. Qed.

Lemma put_bit_spec m i on j : 0 <= i -> 0 <= j -> Z.testbit (put_bit m i on) j = if i =? j then on else Z.testbit m j.
Proof.
  intros Hi Hj; unfold put_bit; destruct on; rewrite ?Z.lor_spec, ?Z.land_spec, ?Z.lnot_spec, bit_spec by done;
    destruct (i =? j); by rewrite ?orb_true_r, ?orb_false_r, ?andb_false_r, ?andb_true_r.
Qed.

Lemma has_bit_test m i : 0 <= i -> has m (bit i) = Z.testbit m i.
Proof.
  intros Hi; unfold has; destruct (Z.testbit m i) eqn:E.
  - apply negb_true_iff, Z.eqb_neq; intros H; pose proof (f_equal (fun z => Z.testbit z i) H) as G; cbn in G.
    rewrite Z.land_spec, bit_spec, Z.bits_0, E, Z.eqb_refl in G by done; done.
  - apply negb_false_iff, Z.eqb_eq, Z.bits_inj'; intros j Hj; rewrite Z.land_spec, bit_spec, Z.bits_0 by done.
    destruct (Z.eqb_spec i j) as [<-|]; [by rewrite E|by rewrite andb_false_r].
Qed.

Lemma put_bit_same m i : 0 <= i -> put_bit m i (Z.testbit m i) = m.
Proof. intros Hi; apply Z.bits_inj'; intros j Hj; rewrite put_bit_spec by done; by destruct (Z.eqb_spec i j) as [->|]. Qed.

(** A number below 2^w from its bits. *)
Lemma small_bits w m : 0 <= w -> 0 <= m -> (0 <= m < 2 ^ w <-> forall i, w <= i -> Z.testbit m i = false).
Proof.
  intros Hw Hm; split.
  - intros Hr i Hi; rewrite <- (Z.mod_small m (2 ^ w)) by done; by apply Z.mod_pow2_bits_high.
  - intros H; split; [done|]; destruct (Z.ltb_spec m (2 ^ w)) as [|Hge]; [done|].
    assert (Hlog : w <= Z.log2 m) by (by apply Z.log2_le_pow2; [pose proof (Z.pow_pos_nonneg 2 w); lia|]).
    specialize (H _ Hlog); rewrite Z.bit_log2 in H; [done|]; pose proof (Z.pow_pos_nonneg 2 w); lia.
Qed.

Lemma put_bit_range m i on :
  0 <= m < 2 ^ INTERRUPTS_N -> 0 <= i < INTERRUPTS_N -> 0 <= put_bit m i on < 2 ^ INTERRUPTS_N.
Proof.
  intros Hm Hi; assert (H0 : 0 <= put_bit m i on).
  { unfold put_bit, bit; rewrite Z.shiftl_1_l; pose proof (Z.pow_pos_nonneg 2 i).
    destruct on; [apply Z.lor_nonneg; lia|apply Z.land_nonneg; lia]. }
  apply small_bits; [done|done|]; intros j Hj; rewrite put_bit_spec by (unfold INTERRUPTS_N in *; lia).
  destruct (Z.eqb_spec i j); [lia|]; apply (proj1 (small_bits INTERRUPTS_N m ltac:(done) ltac:(lia)) Hm j Hj).
Qed.

(** The controller's mask as a function of the state. *)
Definition set_hw (k : kernel) (l : list Z) : kernel := set_ints k (int_child k) (masks k) (disabled k) l.

Lemma interrupts_mask_ok k c h i on :
  zget (hw_mask k) c = Some h ->
  exists l, zput (hw_mask k) c (put_bit h i on) = Some l /\ interrupts_mask c i on k = Some (tt, set_hw k l).
Proof.
  intros Hh; pose proof (zput_is_Some _ _ (put_bit h i on) (zget_Some_range _ _ _ Hh)) as Hz.
  eexists; split; [exact Hz|]; unfold interrupts_mask, gets, lift, mbind, K_bind; by rewrite Hh; cbn; rewrite Hz.
Qed.

Lemma shift_bits i j m (on y : bool) : 0 <= i -> 0 <= j ->
  (if (i + 1 <=? j) && Z.testbit (Z.shiftr m 1) (j - (i + 1)) then on
   else if i =? j then (if Z.testbit m 0 then on else y) else y) =
  if (i <=? j) && Z.testbit m (j - i) then on else y.
Proof.
  intros Hi Hj; destruct (Z.eqb_spec i j) as [->|Hij].
  { by rewrite (proj2 (Z.leb_gt (j + 1) j)), Z.leb_refl, Z.sub_diag by lia. }
  destruct (Z.leb_spec (i + 1) j); [|by rewrite (proj2 (Z.leb_gt i j)) by lia].
  rewrite (proj2 (Z.leb_le i j)), Z.shiftr_spec by lia; by replace (j - (i + 1) + 1) with (j - i) by lia.
Qed.

Lemma mask_bits_ok n k c i m on h :
  zget (hw_mask k) c = Some h -> 0 <= m < 2 ^ Z.of_nat n -> 0 <= i ->
  exists l h', mask_bits n c i m on k = Some (tt, set_hw k l) /\ zput (hw_mask k) c h' = Some l /\
    forall j, 0 <= j -> Z.testbit h' j = if (i <=? j) && Z.testbit m (j - i) then on else Z.testbit h j.
Proof.
  revert k i m h; induction n as [|n IH]; intros k i m h Hh Hm Hi.
  { assert (m = 0) as -> by (cbn in Hm; lia); exists (hw_mask k), h; split; [by destruct k|].
    split; [by apply zput_same|]; intros j _; by rewrite Z.bits_0, andb_false_r. }
  cbn [mask_bits]; destruct (Z.eqb_spec m 0) as [->|Hm0].
  { exists (hw_mask k), h; split; [by destruct k|].
    split; [by apply zput_same|]; intros j _; by rewrite Z.bits_0, andb_false_r. }
  assert (Hs : 0 <= Z.shiftr m 1 < 2 ^ Z.of_nat n).
  { rewrite Z.shiftr_div_pow2, Nat2Z.inj_succ, Z.pow_succ_r in * by lia; split; [apply Z.div_pos; lia|].
    apply Z.div_lt_upper_bound; lia. }
  assert (E0 : has m 1 = Z.testbit m 0) by exact (has_bit_test m 0 ltac:(done)); rewrite E0.
  destruct (Z.testbit m 0) eqn:Hm1; cbn [when].
  - destruct (interrupts_mask_ok k c h i on Hh) as (l0 & Hl0 & E1); rewrite (bindS _ _ _ _ _ E1).
    destruct (IH (set_hw k l0) (i + 1) (Z.shiftr m 1) _ (zget_zput_eq _ _ _ _ Hl0) Hs ltac:(lia)) as (l & h' & E & Hl & Hb).
    exists l, h'; split; [by rewrite E|]; split; [by rewrite <- (zput_zput _ _ _ _ _ Hl0)|].
    intros j Hj; rewrite Hb, put_bit_spec, <- (shift_bits i j m on (Z.testbit h j)), Hm1 by lia; done.
  - rewrite (bindS _ _ _ _ _ (eq_refl : (mret tt : K unit) k = Some (tt, k))).
    destruct (IH k (i + 1) (Z.shiftr m 1) h Hh Hs ltac:(lia)) as (l & h' & E & Hl & Hb).
    exists l, h'; split; [done|]; split; [done|].
    intros j Hj; rewrite Hb, <- (shift_bits i j m on (Z.testbit h j)), Hm1 by lia; by destruct (i =? j).
Qed.

(** [k'] is [k] with the masks of core [c] set. *)
Record core_set (c m : Z) (d : bool) (h : Z) (k k' : kernel) : Prop := {
  cs_child : int_child k' = int_child k;
  cs_cpu : cpu k' = cpu k;
  cs_masks : masks k' = <[Z.to_nat c := m]> (masks k);
  cs_disabled : disabled k' = <[Z.to_nat c := d]> (disabled k);
  cs_hw : hw_mask k' = <[Z.to_nat c := h]> (hw_mask k)
}.

Lemma zget_insert {A} (l : list A) c c' x y :
  0 <= c -> zget (<[Z.to_nat c := x]> l) c' = Some y -> c = c' /\ y = x \/ c <> c' /\ zget l c' = Some y.
Proof.
  intros Hc H; destruct (Z.eq_dec c c') as [<-|Hne].
  - left; split; [done|]; pose proof (zget_Some_range _ _ _ H) as Hr; rewrite length_insert in Hr.
    unfold zget in H; rewrite (proj2 (Z.leb_le 0 c)), list_lookup_insert_eq in H by lia; congruence.
  - right; split; [done|]; revert H; unfold zget; destruct_if; [|done]; zbool.
    by rewrite list_lookup_insert_ne by lia.
Qed.

Lemma core_set_ok n c m d h k k' :
  ints_ok n k -> 0 <= c -> core_set c m d h k k' -> core_ok k c m d h -> ints_ok n k'.
Proof.
  intros Hok Hc [E1 _ E2 E3 E4] Hcore; split; rewrite ?E1, ?E2, ?E3, ?E4, ?length_insert; try apply Hok.
  intros c' m' d' h' Hm Hd Hh.
  assert (Hk : core_ok k c' m' d' h') by
    (apply zget_insert in Hm, Hd, Hh; [|done..];
     destruct Hm as [[<- ->]|[? Hm]], Hd as [[? ->]|[? Hd]], Hh as [[? ->]|[? Hh]]; try done; by apply (io_core n k)).
  destruct Hk as [G1 G2 G3]; split; rewrite ?E1; done.
Qed.

Section core.
Context (n : Z) (k : kernel) (Hok : ints_ok n k).

Lemma core_at c : 0 <= c < n -> exists m d h,
  zget (masks k) c = Some m /\ zget (disabled k) c = Some d /\ zget (hw_mask k) c = Some h /\ core_ok k c m d h.
Proof.
  intros Hc; destruct Hok as [_ H1 H2 H3 H4].
  destruct (zget_is_Some (masks k) c ltac:(lia)) as [m Hm], (zget_is_Some (disabled k) c ltac:(lia)) as [d Hd],
    (zget_is_Some (hw_mask k) c ltac:(lia)) as [h Hh]; exists m, d, h; repeat split; try done; by apply (H4 c m d h).
Qed.

Lemma reg_at c i : 0 <= c < n -> 0 <= i < INTERRUPTS_N -> exists r, zget (int_child k) (GET_REG c i) = Some r.
Proof. intros Hc Hi; apply zget_is_Some; destruct Hok as [H _ _ _ _]; unfold GET_REG, INTERRUPTS_N in *; nia. Qed.

End core.

Lemma get_mask_ok k c m : zget (masks k) c = Some m -> get_mask c k = Some (m, k).
Proof. intros H; unfold get_mask, gets, lift, mbind, K_bind; by rewrite H. Qed.

Lemma get_reg_ok k c i r : zget (int_child k) (GET_REG c i) = Some r -> get_reg c i k = Some (r, k).
Proof. intros H; unfold get_reg, gets, lift, mbind, K_bind; by rewrite H. Qed.

Lemma put_mask_ok k c m x : zget (masks k) c = Some x ->
  put_mask c m k = Some (tt, set_ints k (int_child k) (<[Z.to_nat c := m]> (masks k)) (disabled k) (hw_mask k)).
Proof.
  intros H; pose proof (zput_is_Some _ _ m (zget_Some_range _ _ _ H)) as E.
  unfold put_mask, gets, lift, mbind, K_bind; by rewrite E.
Qed.

Lemma put_disabled_ok k c b x : zget (disabled k) c = Some x ->
  put_disabled c b k = Some (tt, set_ints k (int_child k) (masks k) (<[Z.to_nat c := b]> (disabled k)) (hw_mask k)).
Proof.
  intros H; pose proof (zput_is_Some _ _ b (zget_Some_range _ _ _ H)) as E.
  unfold put_disabled, gets, lift, mbind, K_bind; by rewrite E.
Qed.

Lemma zget_insert_id {A} (l : list A) c x : zget l c = Some x -> <[Z.to_nat c := x]> l = l.
Proof. intros H; pose proof (zput_same _ _ _ H) as E; apply zput_Some in E as [_ E]; by symmetry. Qed.

Lemma interrupts_mask_set k c m d h i on :
  zget (masks k) c = Some m -> zget (disabled k) c = Some d -> zget (hw_mask k) c = Some h ->
  exists k', interrupts_mask c i on k = Some (tt, k') /\ core_set c m d (put_bit h i on) k k'.
Proof.
  intros Hm Hd Hh; destruct (interrupts_mask_ok k c h i on Hh) as (l & Hl & E); eexists; split; [exact E|].
  apply zput_Some in Hl as [_ ->]; split; cbn; first [done | by rewrite zget_insert_id].
Qed.

Lemma mask_bits_set k c m d h on :
  zget (masks k) c = Some m -> zget (disabled k) c = Some d -> zget (hw_mask k) c = Some h ->
  0 <= m < 2 ^ INTERRUPTS_N -> h = 0 \/ h = m ->
  exists k', mask_bits 64 c 0 m on k = Some (tt, k') /\ core_set c m d (if on then m else 0) k k'.
Proof.
  intros Hm Hd Hh Hr H0.
  destruct (mask_bits_ok 64 k c 0 m on h Hh) as (l & h' & E & Hl & Hb);
    [split; [lia|]; transitivity (2 ^ INTERRUPTS_N); [apply Hr|done]|done|].
  eexists; split; [exact E|].
  replace (if on then m else 0) with h'.
  { apply zput_Some in Hl as [_ ->]; split; cbn; first [done | by rewrite zget_insert_id]. }
  apply Z.bits_inj'; intros j Hj; rewrite Hb, Z.sub_0_r by done; rewrite (proj2 (Z.leb_le 0 j)) by done; cbn [andb].
  destruct H0 as [-> | ->], on; rewrite ?Z.bits_0; by destruct (Z.testbit m j).
Qed.

Lemma core_set_trans c m d h m' d' h' k k1 k2 :
  core_set c m d h k k1 -> core_set c m' d' h' k1 k2 -> core_set c m' d' h' k k2.
Proof.
  intros [E1 E2 E3 E4 E5] [F1 F2 F3 F4 F5]; split; [congruence..| | |].
  - by rewrite F3, E3, list_insert_insert_eq.
  - by rewrite F4, E4, list_insert_insert_eq.
  - by rewrite F5, E5, list_insert_insert_eq.
Qed.

Lemma core_set_get c m d h k k' x y z :
  zget (masks k) c = Some x -> zget (disabled k) c = Some y -> zget (hw_mask k) c = Some z ->
  core_set c m d h k k' ->
  zget (masks k') c = Some m /\ zget (disabled k') c = Some d /\ zget (hw_mask k') c = Some h.
Proof.
  intros Hx Hy Hz [_ _ -> -> ->]; apply zget_Some_range in Hx, Hy, Hz.
  repeat split; eapply zget_zput_eq; by apply zput_is_Some.
Qed.

Lemma put_mask_set k c m d h m' :
  zget (masks k) c = Some m -> zget (disabled k) c = Some d -> zget (hw_mask k) c = Some h ->
  exists k', put_mask c m' k = Some (tt, k') /\ core_set c m' d h k k'.
Proof.
  intros Hm Hd Hh; eexists; split; [by eapply put_mask_ok|]; split; cbn; first [done | by rewrite zget_insert_id].
Qed.

Lemma put_disabled_set k c m d h d' :
  zget (masks k) c = Some m -> zget (disabled k) c = Some d -> zget (hw_mask k) c = Some h ->
  exists k', put_disabled c d' k = Some (tt, k') /\ core_set c m d' h k k'.
Proof.
  intros Hm Hd Hh; eexists; split; [by eapply put_disabled_ok|]; split; cbn; first [done | by rewrite zget_insert_id].
Qed.

(** ** The operations *)

Definition interrupts_switch (on : bool) : K Z := if on then kernel_interrupts_on else kernel_interrupts_off.

(** Whatever was enabled before, the controller's mask is the kernel's after
    [kernel_interrupts_on] and empty after [kernel_interrupts_off]. *)
Lemma interrupts_switch_set n k on : ints_ok n k -> 0 <= cpu k < n ->
  exists m k', zget (masks k) (cpu k) = Some m /\ interrupts_switch on k = Some (0, k') /\
    core_set (cpu k) m (negb on) (if on then m else 0) k k' /\ ints_ok n k'.
Proof.
  intros Hok Hc; destruct (core_at n k Hok _ Hc) as (m & d & h & Hm & Hd & Hh & [Hr Hhw Hreg]).
  destruct (put_disabled_set k (cpu k) m d h (negb on) Hm Hd Hh) as (k1 & E1 & S1).
  destruct (core_set_get _ _ _ _ _ _ _ _ _ Hm Hd Hh S1) as (Hm1 & Hd1 & Hh1).
  destruct (mask_bits_set k1 (cpu k) m (negb on) h on Hm1 Hd1 Hh1 Hr) as (k2 & E2 & S2); [destruct d; auto|].
  pose proof (core_set_trans _ _ _ _ _ _ _ _ _ _ S1 S2) as S.
  exists m, k2; split; [done|]; split.
  - unfold interrupts_switch, kernel_interrupts_on, kernel_interrupts_off; destruct on;
      rewrite (bindS (gets cpu) _ k (cpu k) k eq_refl), (bindS _ _ _ _ _ E1), (bindS _ _ _ _ _ (get_mask_ok _ _ _ Hm1)),
        (bindS _ _ _ _ _ E2); done.
  - split; [done|]; apply (core_set_ok n (cpu k) m (negb on) (if on then m else 0) k k2 Hok); [lia|done|].
    split; [done|by destruct on|done].
Qed.

Lemma validate_ok i : 0 <= i < INTERRUPTS_N -> validate_number i = i.
Proof. unfold validate_number, INTERRUPTS_N; intros Hi; rewrite (proj2 (Z.ltb_ge i 0)), (proj2 (Z.leb_gt 5 i)) by lia; done. Qed.

Lemma validate_bad i : ~ 0 <= i < INTERRUPTS_N -> validate_number i = -1.
Proof.
  unfold validate_number, INTERRUPTS_N; intros Hi; destruct (Z.ltb_spec i 0); [done|].
  by rewrite (proj2 (Z.leb_le 5 i)) by lia.
Qed.

(** Only the activation that registered an interrupt may enable it. *)
Lemma enable_set n k i ctrl : ints_ok n k -> 0 <= cpu k < n -> 0 <= i < INTERRUPTS_N ->
  exists r, zget (int_child k) (GET_REG (cpu k) i) = Some r /\
    (i_target r <> Some ctrl -> kernel_interrupt_enable i ctrl k = Some (-1, k)) /\
    (i_target r = Some ctrl -> exists m d h k',
       zget (masks k) (cpu k) = Some m /\ kernel_interrupt_enable i ctrl k = Some (0, k') /\
       core_set (cpu k) (put_bit m i true) d h k k' /\ ints_ok n k').
Proof.
  intros Hok Hc Hi; destruct (reg_at n k Hok _ _ Hc Hi) as [r Hr]; exists r; split; [done|].
  assert (Hneg : (i <? 0) = false) by (apply Z.ltb_ge; lia).
  assert (Hrun : kernel_interrupt_enable i ctrl k = _) by
    (unfold kernel_interrupt_enable; rewrite validate_ok, Hneg by done;
     rewrite (bindS (gets cpu) _ k (cpu k) k eq_refl), (bindS _ _ _ _ _ (get_reg_ok _ _ _ _ Hr)); reflexivity).
  rewrite Hrun; clear Hrun; split; intros Ht; [by rewrite bool_decide_eq_false_2|].
  rewrite bool_decide_eq_true_2 by done; cbn [negb].
  destruct (core_at n k Hok _ Hc) as (m & d & h & Hm & Hd & Hh & [Hrg Hhw Hreg]).
  rewrite (bindS _ _ _ _ _ (get_mask_ok _ _ _ Hm)).
  destruct (put_mask_set k (cpu k) m d h (put_bit m i true) Hm Hd Hh) as (k1 & E1 & S1); rewrite (bindS _ _ _ _ _ E1).
  destruct (core_set_get _ _ _ _ _ _ _ _ _ Hm Hd Hh S1) as (Hm1 & Hd1 & Hh1).
  rewrite (bindS (gets disabled) _ k1 (disabled k1) k1 eq_refl), (bindS (lift _) _ k1 d k1) by (unfold lift; by rewrite Hd1).
  assert (Hc2 : core_ok k (cpu k) (put_bit m i true) d (if d then h else put_bit h i true)).
  { split; [by apply put_bit_range|by destruct d; subst h|].
    intros j Hj; rewrite put_bit_spec by lia; destruct (Z.eqb_spec i j) as [<-|]; [by exists r, ctrl|by apply Hreg]. }
  exists m, d, (if d then h else put_bit h i true); destruct d; cbn [negb when].
  - exists k1; do 3 (split; [done|]); apply (core_set_ok n (cpu k) _ _ _ k k1 Hok ltac:(lia) S1 Hc2).
  - destruct (interrupts_mask_set k1 (cpu k) _ _ _ i true Hm1 Hd1 Hh1) as (k2 & E2 & S2); rewrite (bindS _ _ _ _ _ E2).
    pose proof (core_set_trans _ _ _ _ _ _ _ _ _ _ S1 S2) as S.
    exists k2; do 3 (split; [done|]); apply (core_set_ok n (cpu k) _ _ _ k k2 Hok ltac:(lia) S Hc2).
Qed.

Lemma put_reg_ok n k c i r : ints_ok n k -> 0 <= c < n -> 0 <= i < INTERRUPTS_N -> i_target r <> None ->
  exists k', put_reg c i r k = Some (tt, k') /\ zget (int_child k') (GET_REG c i) = Some r /\ ints_ok n k' /\
    (masks k', disabled k', hw_mask k', cpu k') = (masks k, disabled k, hw_mask k, cpu k).
Proof.
  intros Hok Hc Hi Ht; destruct (reg_at n k Hok c i Hc Hi) as [r0 Hr].
  pose proof (zput_is_Some _ _ r (zget_Some_range _ _ _ Hr)) as Hz.
  eexists; split; [unfold put_reg, gets, lift, mbind, K_bind; by rewrite Hz|]; cbn.
  split; [by apply (zget_zput_eq _ _ _ _ Hz)|]; split; [|done].
  destruct Hok as [H1 H2 H3 H4 H5]; split; cbn; rewrite ?length_insert; try done.
  intros c' m d h Hm Hd Hh; destruct (H5 c' m d h Hm Hd Hh) as [G1 G2 G3]; split; try done; cbn.
  intros j Hj Hb; destruct (decide (GET_REG c i = GET_REG c' j)) as [<-|Hne].
  - destruct (i_target r) as [t|] eqn:Et; [|done]; exists r, t; by rewrite (zget_zput_eq _ _ _ _ Hz).
  - rewrite (zget_zput_ne _ _ _ _ _ Hz Hne); by apply G3.
Qed.

(** A registered interrupt is never taken over by another activation. *)
Lemma register_set n k i ctrl v0 arg carg : ints_ok n k -> 0 <= cpu k < n -> 0 <= i < INTERRUPTS_N ->
  exists r, zget (int_child k) (GET_REG (cpu k) i) = Some r /\
    ((exists t, i_target r = Some t /\ t <> ctrl) -> kernel_interrupt_register i ctrl v0 arg carg k = Some (-1, k)) /\
    (i_target r = None \/ i_target r = Some ctrl -> exists k',
       kernel_interrupt_register i ctrl v0 arg carg k = Some (0, k') /\
       zget (int_child k') (GET_REG (cpu k) i) = Some (mk_int (Some ctrl) v0 carg arg) /\ ints_ok n k').
Proof.
  intros Hok Hc Hi; destruct (reg_at n k Hok _ _ Hc Hi) as [r Hr]; exists r; split; [done|].
  assert (Hneg : (i <? 0) = false) by (apply Z.ltb_ge; lia).
  assert (Hrun : kernel_interrupt_register i ctrl v0 arg carg k = _) by
    (unfold kernel_interrupt_register; rewrite validate_ok, Hneg by done;
     rewrite (bindS (gets cpu) _ k (cpu k) k eq_refl), (bindS _ _ _ _ _ (get_reg_ok _ _ _ _ Hr)); reflexivity).
  rewrite Hrun; clear Hrun; split.
  - intros (t & -> & Ht); rewrite !bool_decide_eq_false_2 by congruence; done.
  - intros Ht; destruct (put_reg_ok n k (cpu k) i (mk_int (Some ctrl) v0 carg arg) Hok Hc Hi ltac:(done)) as (k' & E & Hg & Hk & _).
    exists k'; split; [|done].
    replace (negb _ && negb _) with false by (destruct Ht as [-> | ->]; repeat case_bool_decide; done).
    by rewrite (bindS _ _ _ _ _ E).
Qed.

(** The pending bits from [i] on, taken out of a mask. *)
Definition served (m m' i pending : Z) : Prop :=
  forall j, 0 <= j -> Z.testbit m' j = Z.testbit m j && negb ((i <=? j) && (j <? INTERRUPTS_N) && Z.testbit pending j).

Lemma ints_core_set k k' c m d h :
  zget (masks k) c = Some m -> zget (disabled k) c = Some d -> zget (hw_mask k) c = Some h ->
  ints_of k' = ints_of k -> core_set c m d h k k'.
Proof. unfold ints_of; intros Hm Hd Hh [= E1 E2 E3 E4 E5]; split; try congruence; rewrite zget_insert_id; done. Qed.

(** Mask one interrupt and hand it to its activation. *)
Lemma serve_one k c m d h i r t k' (u : unit) :
  zget (masks k) c = Some m -> zget (disabled k) c = Some d -> zget (hw_mask k) c = Some h ->
  (_ ← interrupts_mask c i false;
   m ← get_mask c;
   _ ← put_mask c (Z.land m (Z.lnot (bit i)));
   _ ← msg_push t (mk_msg [i_carg r; 0; 0; 0] None [i_arg r; i; 0; 0] (i_v0 r));
   sched_got_int t c) k = Some (u, k') ->
  core_set c (put_bit m i false) d (put_bit h i false) k k'.
Proof.
  intros Hm Hd Hh E.
  destruct (interrupts_mask_set k c m d h i false Hm Hd Hh) as (k1 & E1 & S1); rewrite (bindS _ _ _ _ _ E1) in E.
  destruct (core_set_get _ _ _ _ _ _ _ _ _ Hm Hd Hh S1) as (Hm1 & Hd1 & Hh1).
  rewrite (bindS _ _ _ _ _ (get_mask_ok _ _ _ Hm1)) in E.
  destruct (put_mask_set k1 c _ _ _ (put_bit m i false) Hm1 Hd1 Hh1) as (k2 & E2 & S2).
  rewrite (bindS _ _ _ _ _ E2) in E.
  destruct (core_set_get _ _ _ _ _ _ _ _ _ Hm1 Hd1 Hh1 S2) as (Hm2 & Hd2 & Hh2).
  apply (core_set_trans _ _ _ _ _ _ _ _ k1 _ S1), (core_set_trans _ _ _ _ _ _ _ _ k2 _ S2).
  apply (ints_core_set k2 k' c); try done.
  assert (Hk : KeepsInts (_ ← msg_push t (mk_msg [i_carg r; 0; 0; 0] None [i_arg r; i; 0; 0] (i_v0 r)); sched_got_int t c))
    by apply _.
  exact (Hk k2 u k' E).
Qed.

Lemma core_set_id c m d h k :
  zget (masks k) c = Some m -> zget (disabled k) c = Some d -> zget (hw_mask k) c = Some h -> core_set c m d h k k.
Proof. intros; by apply ints_core_set. Qed.

(** One round of the loop on a mask. *)
Definition serve (m i pending : Z) : Z := if Z.testbit pending i then put_bit m i false else m.

Lemma served_step m m' i pending : 0 <= i < INTERRUPTS_N ->
  served (serve m i pending) m' (i + 1) pending -> served m m' i pending.
Proof.
  intros Hi H j Hj; rewrite H by done; unfold serve.
  assert (E : Z.testbit (if Z.testbit pending i then put_bit m i false else m) j =
    Z.testbit m j && negb ((i =? j) && Z.testbit pending i)).
  { destruct (Z.testbit pending i); rewrite ?put_bit_spec by lia; destruct (Z.eqb_spec i j) as [->|];
      by rewrite ?andb_true_r, ?andb_false_r. }
  rewrite E, <- andb_assoc, <- negb_orb; do 2 f_equal.
  destruct (Z.eqb_spec i j) as [->|Hne].
  - rewrite (proj2 (Z.leb_gt (j + 1) j)), Z.leb_refl, (proj2 (Z.ltb_lt j INTERRUPTS_N)) by lia; cbn; by rewrite orb_false_r.
  - cbn [andb orb]; f_equal; f_equal; destruct (Z.leb_spec i j); [apply Z.leb_le|apply Z.leb_gt]; lia.
Qed.

Lemma others_set n k c m d h i pending k' (u : unit) :
  zget (masks k) c = Some m -> zget (disabled k) c = Some d -> zget (hw_mask k) c = Some h ->
  0 <= i -> i + Z.of_nat n = INTERRUPTS_N ->
  (forall j, i <= j < INTERRUPTS_N -> Z.testbit pending j = true ->
     exists r t, zget (int_child k) (GET_REG c j) = Some r /\ i_target r = Some t) ->
  kernel_interrupt_others n i pending c k = Some (u, k') ->
  exists m' h', core_set c m' d h' k k' /\ served m m' i pending /\ served h h' i pending.
Proof.
  revert k m h i; induction n as [|n IH]; intros k m h i Hm Hd Hh Hi Hn Hreg E.
  { injection E as _ <-; exists m, h; split; [by apply core_set_id|].
    split; intros j Hj; destruct (Z.leb_spec i j), (Z.ltb_spec j INTERRUPTS_N); try lia; by rewrite ?andb_true_r. }
  cbn [kernel_interrupt_others] in E; rewrite has_bit_test in E by done.
  apply bind_inv in E as ([] & k1 & E1 & E).
  assert (S1 : core_set c (serve m i pending) d (serve h i pending) k k1).
  { unfold serve; destruct (Z.testbit pending i) eqn:Hp; cbn [when] in E1; [|injection E1 as <-; by apply core_set_id].
    destruct (Hreg i ltac:(lia) Hp) as (r & t & Hr & Ht); rewrite (bindS _ _ _ _ _ (get_reg_ok _ _ _ _ Hr)), Ht in E1.
    by apply (serve_one k c m d h i r t k1 tt). }
  destruct (core_set_get _ _ _ _ _ _ _ _ _ Hm Hd Hh S1) as (Hm1 & Hd1 & Hh1).
  destruct (IH k1 _ _ (i + 1) Hm1 Hd1 Hh1 ltac:(lia) ltac:(lia)) as (m' & h' & S2 & Hsm & Hsh); [|done|].
  { intros j Hj; rewrite (cs_child _ _ _ _ _ _ S1); apply Hreg; lia. }
  exists m', h'; split; [by apply (core_set_trans _ _ _ _ _ _ _ _ _ _ S1)|].
  split; by apply served_step; [lia|].
Qed.

(** The loop that sets the controller's mask again never fails, and leaves the
    kernel's mask at the controller whatever was there. *)
Lemma remask_bits n k c m d h i :
  zget (masks k) c = Some m -> zget (disabled k) c = Some d -> zget (hw_mask k) c = Some h -> 0 <= i ->
  exists k' h', remask n c i m k = Some (tt, k') /\ core_set c m d h' k k' /\
    forall j, 0 <= j -> Z.testbit h' j = if (i <=? j) && (j <? i + Z.of_nat n) then Z.testbit m j else Z.testbit h j.
Proof.
  revert k h i; induction n as [|n IH]; intros k h i Hm Hd Hh Hi; cbn [remask].
  { exists k, h; split; [done|]; split; [by apply core_set_id|]; intros j Hj.
    by destruct (Z.leb_spec i j), (Z.ltb_spec j (i + Z.of_nat 0)); try lia. }
  rewrite has_bit_test by done; destruct (interrupts_mask_set k c m d h i (Z.testbit m i) Hm Hd Hh) as (k1 & E1 & S1).
  destruct (core_set_get _ _ _ _ _ _ _ _ _ Hm Hd Hh S1) as (Hm1 & Hd1 & Hh1).
  destruct (IH k1 _ (i + 1) Hm1 Hd1 Hh1 ltac:(lia)) as (k' & h' & E & S2 & Hb); exists k', h'.
  rewrite (bindS _ _ _ _ _ E1); split; [done|]; split; [by apply (core_set_trans _ _ _ _ _ _ _ _ _ _ S1)|].
  intros j Hj; rewrite Hb, put_bit_spec by lia; destruct (Z.eqb_spec i j) as [->|].
  - rewrite (proj2 (Z.leb_gt (j + 1) j)), Z.leb_refl, (proj2 (Z.ltb_lt j (j + Z.of_nat (S n)))) by lia; done.
  - destruct (Z.leb_spec (i + 1) j), (Z.leb_spec i j); try lia; cbn [andb]; try done.
    destruct (Z.ltb_spec j (i + 1 + Z.of_nat n)), (Z.ltb_spec j (i + Z.of_nat (S n))); lia || done.
Qed.

Lemma remask_set k c m d h :
  zget (masks k) c = Some m -> zget (disabled k) c = Some d -> zget (hw_mask k) c = Some h ->
  0 <= m < 2 ^ INTERRUPTS_N -> 0 <= h < 2 ^ INTERRUPTS_N ->
  exists k', remask (Z.to_nat INTERRUPTS_N) c 0 m k = Some (tt, k') /\ core_set c m d m k k'.
Proof.
  intros Hm Hd Hh Rm Rh; destruct (remask_bits (Z.to_nat INTERRUPTS_N) k c m d h 0 Hm Hd Hh ltac:(lia)) as (k' & h' & E & S & Hb).
  assert (h' = m) as ->; [|by exists k'].
  apply Z.bits_inj'; intros j Hj; rewrite Hb, (proj2 (Z.leb_le 0 j)) by done; destruct (Z.ltb_spec j (0 + Z.of_nat (Z.to_nat INTERRUPTS_N))) as [|Hge]; [done|].
  change (0 + Z.of_nat (Z.to_nat INTERRUPTS_N)) with INTERRUPTS_N in Hge.
  by rewrite (proj1 (small_bits INTERRUPTS_N m ltac:(done) ltac:(lia)) Rm j Hge), (proj1 (small_bits INTERRUPTS_N h ltac:(done) ltac:(lia)) Rh j Hge).
Qed.

Lemma served_range m m' i pending :
  0 <= m < 2 ^ INTERRUPTS_N -> served m m' i pending -> 0 <= m' < 2 ^ INTERRUPTS_N.
Proof.
  intros Hm Hs.
  assert (Hb : forall j, INTERRUPTS_N <= j -> Z.testbit m' j = false).
  { intros j Hj; rewrite Hs by (unfold INTERRUPTS_N in *; lia).
    by rewrite (proj1 (small_bits INTERRUPTS_N m ltac:(done) ltac:(lia)) Hm j Hj). }
  assert (0 <= m') by (apply Z.bits_iff_nonneg_ex; exists INTERRUPTS_N; intros j Hj; apply Hb; lia).
  by apply small_bits.
Qed.

Lemma served_ldiff m m' pending :
  0 <= m < 2 ^ INTERRUPTS_N -> served m m' 0 (Z.land pending m) -> m' = Z.ldiff m pending.
Proof.
  intros Hm Hs; apply Z.bits_inj'; intros j Hj; rewrite Hs, Z.ldiff_spec, Z.land_spec by done.
  rewrite (proj2 (Z.leb_le 0 j)) by done; destruct (Z.ltb_spec j INTERRUPTS_N) as [|Hge].
  - by destruct (Z.testbit m j), (Z.testbit pending j).
  - by rewrite (proj1 (small_bits INTERRUPTS_N m ltac:(done) ltac:(lia)) Hm j Hge).
Qed.

(** An exception with no timer interrupt and nothing enabled pending. *)
Definition spurious (time : bool) (pending m : Z) : bool := negb time && (Z.land pending m =? 0).

(** What the controller's mask is after the exception. *)
Definition hw_after (time : bool) (pending m : Z) (d : bool) : Z :=
  if d then if spurious time pending m then m else 0 else Z.ldiff m pending.

Lemma served_hw time pending m m' h' (d : bool) : 0 <= m < 2 ^ INTERRUPTS_N -> served m m' 0 (Z.land pending m) ->
  served (if d then if spurious time pending m then m else 0 else m) h' 0 (Z.land pending m) -> h' = hw_after time pending m d.
Proof.
  intros Hm Hsm Hsh; unfold hw_after, spurious in *; destruct d; [|by apply served_ldiff].
  destruct (negb time && _) eqn:E.
  - apply andb_true_iff in E as [_ E%Z.eqb_eq]; apply Z.bits_inj'; intros j Hj; rewrite Hsh, E, Z.bits_0, andb_false_r by done; by rewrite andb_true_r.
  - apply Z.bits_inj'; intros j Hj; rewrite Hsh by done; by rewrite Z.bits_0.
Qed.

(** All the pending interrupts that were enabled are disabled after the
    exception; the others keep their setting.  The controller is in step unless
    the exception was spurious and the interrupts are off. *)
Lemma interrupt_set n k time pending k' (u : unit) :
  ints_ok n k -> 0 <= cpu k < n -> kernel_interrupt time pending (cpu k) k = Some (u, k') ->
  exists m d, zget (masks k) (cpu k) = Some m /\ zget (disabled k) (cpu k) = Some d /\
    core_set (cpu k) (Z.ldiff m pending) d (hw_after time pending m d) k k' /\
    (ints_ok n k' <-> d && spurious time pending m && negb (m =? 0) = false).
Proof.
  intros Hok Hc E; destruct (core_at n k Hok _ Hc) as (m & d & h & Hm & Hd & Hh & [Hr Hhw Hreg]).
  unfold kernel_interrupt in E; rewrite (bindS _ _ _ _ _ (get_mask_ok _ _ _ Hm)) in E; cbv zeta in E.
  apply bind_inv in E as ([] & k1 & E1 & E); apply bind_inv in E as ([] & k2 & E2 & E).
  set (h1 := if d then if spurious time pending m then m else 0 else m).
  assert (S1 : core_set (cpu k) m d h1 k k1).
  { unfold h1, spurious; rewrite negb_orb, negb_involutive in E1; destruct (negb time && _); [|injection E1 as <-; rewrite <- Hhw; by apply core_set_id].
    destruct (remask_set k (cpu k) m d h Hm Hd Hh Hr) as (k1' & E1' & S); [subst h; destruct d; done|].
    assert (k1' = k1) as -> by (cbn [when] in E1; congruence); by destruct d. }
  destruct (core_set_get _ _ _ _ _ _ _ _ _ Hm Hd Hh S1) as (Hm1 & Hd1 & Hh1).
  assert (S2 : core_set (cpu k) m d h1 k k2).
  { apply (core_set_trans _ _ _ _ _ _ _ _ k1 _ S1), ints_core_set; try done.
    by apply (keeps_ints (m := when time kernel_timer) k1 tt k2). }
  destruct (core_set_get _ _ _ _ _ _ _ _ _ Hm Hd Hh S2) as (Hm2 & Hd2 & Hh2).
  assert (Hs : exists m' h', core_set (cpu k) m' d h' k2 k' /\ served m m' 0 (Z.land pending m) /\ served h1 h' 0 (Z.land pending m)).
  { destruct (Z.eqb_spec (Z.land pending m) 0) as [E0|_]; cbn [negb when] in E.
    - injection E as _ <-; rewrite E0; exists m, h1; split; [by apply core_set_id|].
      split; intros j _; by rewrite Z.bits_0, andb_false_r, andb_true_r.
    - apply (others_set (Z.to_nat INTERRUPTS_N) k2 (cpu k) m d h1 0 _ k' u); try done.
      intros j Hj; rewrite Z.land_spec, (cs_child _ _ _ _ _ _ S2); intros [_ Hb]%andb_true_iff; by apply Hreg. }
  destruct Hs as (m' & h' & S3 & Hsm & Hsh); pose proof (core_set_trans _ _ _ _ _ _ _ _ _ _ S2 S3) as S.
  rewrite (served_hw time pending m m' h' d Hr Hsm Hsh) in S.
  exists m, d; rewrite <- (served_ldiff m m' pending Hr Hsm); split; [done|]; split; [done|]; split; [done|]; split.
  - intros Hok'; destruct (core_set_get _ _ _ _ _ _ _ _ _ Hm Hd Hh S) as (G1 & G2 & G3).
    destruct (io_core n k' Hok' _ _ _ _ G1 G2 G3) as [_ Hw _]; unfold hw_after in Hw; destruct d; [|done].
    destruct (spurious time pending m); [|done]; rewrite Hw; done.
  - intros Hn; apply (core_set_ok n (cpu k) m' d _ k k' Hok ltac:(lia) S); split; [by apply (served_range m m' 0 (Z.land pending m))| |].
    + unfold hw_after; destruct d; [|by rewrite (served_ldiff m m' pending Hr Hsm)]; destruct (spurious time pending m); [|done].
      cbn in Hn; by apply negb_false_iff, Z.eqb_eq in Hn.
    + intros i Hi; rewrite Hsm by lia; intros [Hb _]%andb_true_iff; by apply Hreg.
Qed.

(** A spurious exception always returns. *)
Lemma interrupt_spurious n k pending m : ints_ok n k -> 0 <= cpu k < n -> zget (masks k) (cpu k) = Some m -> Z.land pending m = 0 ->
  exists k', kernel_interrupt false pending (cpu k) k = Some (tt, k').
Proof.
  intros Hok Hc Hm0 E; destruct (core_at n k Hok _ Hc) as (m' & d & h & Hm & Hd & Hh & [Hr Hhw _]); assert (m' = m) as -> by congruence.
  destruct (remask_set k (cpu k) m d h Hm Hd Hh Hr) as (k' & E' & _); [subst h; destruct d; done|]; exists k'.
  unfold kernel_interrupt; rewrite (bindS _ _ _ _ _ (get_mask_ok _ _ _ Hm)); cbv zeta; rewrite E; cbn [Z.eqb negb orb when].
  by rewrite (bindS _ _ _ _ _ E').
Qed.

(** C30: The interrupt masks.  When the kernel's mask and the controller's
    agree on every core and every enabled interrupt has a handler:
    switching interrupts on (off) always succeeds and leaves exactly the
    enabled ones (none) unmasked at the controller; an out-of-range number is
    refused; an activation enables exactly the interrupts registered to it,
    and registers exactly those nobody else holds; and an interrupt exception
    that is handled disables precisely the pending interrupts.  Each of them
    keeps masks, controller and registrations consistent, with one exception:
    a spurious exception, which always returns, sets the controller's mask to
    the kernel's, also while the core has its interrupts off, and then turns the
    enabled interrupts on. *)
Theorem interrupt_masks n k : ints_ok n k -> 0 <= cpu k < n ->
  (forall on, exists m k', zget (masks k) (cpu k) = Some m /\ interrupts_switch on k = Some (0, k') /\
     core_set (cpu k) m (negb on) (if on then m else 0) k k' /\ ints_ok n k') /\
  (forall i ctrl v0 arg carg, ~ 0 <= i < INTERRUPTS_N ->
     kernel_interrupt_enable i ctrl k = Some (-1, k) /\ kernel_interrupt_register i ctrl v0 arg carg k = Some (-1, k)) /\
  (forall i ctrl, 0 <= i < INTERRUPTS_N -> exists r, zget (int_child k) (GET_REG (cpu k) i) = Some r /\
     (i_target r <> Some ctrl -> kernel_interrupt_enable i ctrl k = Some (-1, k)) /\
     (i_target r = Some ctrl -> exists m d h k',
        zget (masks k) (cpu k) = Some m /\ kernel_interrupt_enable i ctrl k = Some (0, k') /\
        core_set (cpu k) (put_bit m i true) d h k k' /\ ints_ok n k')) /\
  (forall i ctrl v0 arg carg, 0 <= i < INTERRUPTS_N -> exists r, zget (int_child k) (GET_REG (cpu k) i) = Some r /\
     ((exists t, i_target r = Some t /\ t <> ctrl) -> kernel_interrupt_register i ctrl v0 arg carg k = Some (-1, k)) /\
     (i_target r = None \/ i_target r = Some ctrl -> exists k',
        kernel_interrupt_register i ctrl v0 arg carg k = Some (0, k') /\
        zget (int_child k') (GET_REG (cpu k) i) = Some (mk_int (Some ctrl) v0 carg arg) /\ ints_ok n k')) /\
  (forall time pending k' u, kernel_interrupt time pending (cpu k) k = Some (u, k') ->
     exists m d, zget (masks k) (cpu k) = Some m /\ zget (disabled k) (cpu k) = Some d /\
       core_set (cpu k) (Z.ldiff m pending) d (hw_after time pending m d) k k' /\
       (ints_ok n k' <-> d && spurious time pending m && negb (m =? 0) = false)) /\
  (forall pending m, zget (masks k) (cpu k) = Some m -> Z.land pending m = 0 ->
     exists k', kernel_interrupt false pending (cpu k) k = Some (tt, k')).
Proof.
  intros Hok Hc; split; [by intros; apply interrupts_switch_set|]; split.
  { intros i ctrl v0 arg carg Hi; unfold kernel_interrupt_enable, kernel_interrupt_register; by rewrite validate_bad. }
  split; [by intros; apply enable_set|]; split; [by intros; apply register_set|]; split.
  - intros time pending k' u; by apply interrupt_set.
  - intros pending m; by apply (interrupt_spurious n).
Qed.

(** The state after boot, and with the third interrupt registered and
    enabled by the activation [3]. *)
Definition with_int_tables (n : nat) (k : kernel) : kernel :=
  set_ints k (replicate (n * 5) (mk_int None 0 0 0)) (replicate n 0) (replicate n false) (replicate n 0).

Lemma int_tables_ok n k : ints_ok (Z.of_nat n) (with_int_tables n k).
Proof.
  split; cbn; rewrite ?length_replicate; [unfold INTERRUPTS_N; lia|done..|].
  intros c m d h Hm%zget_replicate Hd%zget_replicate Hh%zget_replicate; subst; split; [done..|].
  intros i _; by rewrite Z.bits_0.
Qed.

Definition demo_int0 : kernel :=
  with_int_tables 1 (set_acts demo (alter (with_queue (fun _ => mk_queue 0 1 0 [demo_m 0; demo_m 0])) 3 (acts demo))).

Definition run (m : K Z) (k : kernel) : kernel := match m k with Some (_, k') => k' | None => k end.
Definition demo_int1 : kernel := run (kernel_interrupt_register 2 3 7 8 9) demo_int0.
Definition demo_int : kernel := run (kernel_interrupt_enable 2 3) demo_int1.

Lemma demo_int0_ok : ints_ok 1 demo_int0.
Proof. apply (int_tables_ok 1). Qed.

Lemma demo_int1_ok : ints_ok 1 demo_int1.
Proof.
  destruct (register_set 1 demo_int0 2 3 7 8 9 demo_int0_ok ltac:(vm_compute; split; congruence) ltac:(done)) as (r & Hr & _ & H).
  vm_compute in Hr; injection Hr as <-; destruct (H (or_introl eq_refl)) as (k' & E & _ & Hk).
  unfold demo_int1, run; by rewrite E.
Qed.

Lemma demo_int_ok : ints_ok 1 demo_int.
Proof.
  destruct (enable_set 1 demo_int1 2 3 demo_int1_ok ltac:(vm_compute; split; congruence) ltac:(done)) as (r & Hr & _ & H).
  vm_compute in Hr; injection Hr as <-; destruct (H eq_refl) as (m & d & h & k' & _ & E & _ & Hk).
  unfold demo_int, run; by rewrite E.
Qed.

(** The same with the interrupts of the core off. *)
Definition demo_off : kernel := run kernel_interrupts_off demo_int.

Lemma demo_off_ok : ints_ok 1 demo_off.
Proof.
  destruct (interrupts_switch_set 1 demo_int false demo_int_ok ltac:(vm_compute; split; congruence)) as (m & k' & _ & E & _ & Hk).
  unfold demo_off, run; cbn [interrupts_switch] in E; by rewrite E.
Qed.

(** Interrupt 2 is delivered; a spurious exception while interrupts are off
    leaves it enabled at the controller. *)
Lemma interrupt_masks_witness :
  (exists k', kernel_interrupt false 6 (cpu demo_int) demo_int = Some (tt, k') /\ zget (masks demo_int) (cpu demo_int) = Some 4 /\ ints_ok 1 k') /\
  exists k', kernel_interrupt false 0 (cpu demo_off) demo_off = Some (tt, k') /\ zget (disabled k') (cpu demo_off) = Some true /\
    zget (hw_mask k') (cpu demo_off) = Some 4 /\ ~ ints_ok 1 k'.
Proof.
  split.
  - destruct (kernel_interrupt false 6 (cpu demo_int) demo_int) as [[[] k']|] eqn:E; [|vm_compute in E; discriminate E].
    exists k'; split; [reflexivity|]; split; [vm_compute; reflexivity|].
    destruct (interrupt_masks 1 demo_int demo_int_ok ltac:(vm_compute; split; congruence)) as (_ & _ & _ & _ & H & _).
    destruct (H false 6 k' tt E) as (m & d & Em & Ed & _ & Hk); vm_compute in Em, Ed; injection Em as <-; injection Ed as <-.
    apply Hk; reflexivity.
  - destruct (interrupt_masks 1 demo_off demo_off_ok ltac:(vm_compute; split; congruence)) as (_ & _ & _ & _ & H & Hsp).
    destruct (Hsp 0 4 ltac:(vm_compute; reflexivity) eq_refl) as (k' & E); exists k'; split; [exact E|].
    destruct (H false 0 k' tt E) as (m & d & Em & Ed & Hs & Hk); vm_compute in Em, Ed; injection Em as <-; injection Ed as <-.
    destruct Hs as [_ _ _ Hd Hh]; rewrite Hd, Hh; split; [vm_compute; reflexivity|split; [vm_compute; reflexivity|]].
    intros Hok; apply Hk in Hok; discriminate Hok.
Defined.
