(* ===== verification/Aes.v ===== *)
(** * AES (cherios/system/block_cache/src/aes.c)

    AES-128 in CBC mode, the build of aes.h.  A state is an array of sixteen
    bytes, [state[i][j]] at [4 * i + j], changed in place; an access outside
    an array is [None]. *)

From S2P Require Import Prelude.
From Stdlib Require Import Btauto.

Definition Nb : Z := 4.
Definition Nk : Z := 4.
Definition Nr : Z := 10.
Definition AES_BLOCKLEN : Z := 16.
Definition AES_keyExpSize : Z := 176.

Definition sbox : list Z :=
  [0x63; 0x7c; 0x77; 0x7b; 0xf2; 0x6b; 0x6f; 0xc5; 0x30; 0x01; 0x67; 0x2b; 0xfe; 0xd7; 0xab; 0x76;
   0xca; 0x82; 0xc9; 0x7d; 0xfa; 0x59; 0x47; 0xf0; 0xad; 0xd4; 0xa2; 0xaf; 0x9c; 0xa4; 0x72; 0xc0;
   0xb7; 0xfd; 0x93; 0x26; 0x36; 0x3f; 0xf7; 0xcc; 0x34; 0xa5; 0xe5; 0xf1; 0x71; 0xd8; 0x31; 0x15;
   0x04; 0xc7; 0x23; 0xc3; 0x18; 0x96; 0x05; 0x9a; 0x07; 0x12; 0x80; 0xe2; 0xeb; 0x27; 0xb2; 0x75;
   0x09; 0x83; 0x2c; 0x1a; 0x1b; 0x6e; 0x5a; 0xa0; 0x52; 0x3b; 0xd6; 0xb3; 0x29; 0xe3; 0x2f; 0x84;
   0x53; 0xd1; 0x00; 0xed; 0x20; 0xfc; 0xb1; 0x5b; 0x6a; 0xcb; 0xbe; 0x39; 0x4a; 0x4c; 0x58; 0xcf;
   0xd0; 0xef; 0xaa; 0xfb; 0x43; 0x4d; 0x33; 0x85; 0x45; 0xf9; 0x02; 0x7f; 0x50; 0x3c; 0x9f; 0xa8;
   0x51; 0xa3; 0x40; 0x8f; 0x92; 0x9d; 0x38; 0xf5; 0xbc; 0xb6; 0xda; 0x21; 0x10; 0xff; 0xf3; 0xd2;
   0xcd; 0x0c; 0x13; 0xec; 0x5f; 0x97; 0x44; 0x17; 0xc4; 0xa7; 0x7e; 0x3d; 0x64; 0x5d; 0x19; 0x73;
   0x60; 0x81; 0x4f; 0xdc; 0x22; 0x2a; 0x90; 0x88; 0x46; 0xee; 0xb8; 0x14; 0xde; 0x5e; 0x0b; 0xdb;
   0xe0; 0x32; 0x3a; 0x0a; 0x49; 0x06; 0x24; 0x5c; 0xc2; 0xd3; 0xac; 0x62; 0x91; 0x95; 0xe4; 0x79;
   0xe7; 0xc8; 0x37; 0x6d; 0x8d; 0xd5; 0x4e; 0xa9; 0x6c; 0x56; 0xf4; 0xea; 0x65; 0x7a; 0xae; 0x08;
   0xba; 0x78; 0x25; 0x2e; 0x1c; 0xa6; 0xb4; 0xc6; 0xe8; 0xdd; 0x74; 0x1f; 0x4b; 0xbd; 0x8b; 0x8a;
   0x70; 0x3e; 0xb5; 0x66; 0x48; 0x03; 0xf6; 0x0e; 0x61; 0x35; 0x57; 0xb9; 0x86; 0xc1; 0x1d; 0x9e;
   0xe1; 0xf8; 0x98; 0x11; 0x69; 0xd9; 0x8e; 0x94; 0x9b; 0x1e; 0x87; 0xe9; 0xce; 0x55; 0x28; 0xdf;
   0x8c; 0xa1; 0x89; 0x0d; 0xbf; 0xe6; 0x42; 0x68; 0x41; 0x99; 0x2d; 0x0f; 0xb0; 0x54; 0xbb; 0x16].

Definition rsbox : list Z :=
  [0x52; 0x09; 0x6a; 0xd5; 0x30; 0x36; 0xa5; 0x38; 0xbf; 0x40; 0xa3; 0x9e; 0x81; 0xf3; 0xd7; 0xfb;
   0x7c; 0xe3; 0x39; 0x82; 0x9b; 0x2f; 0xff; 0x87; 0x34; 0x8e; 0x43; 0x44; 0xc4; 0xde; 0xe9; 0xcb;
   0x54; 0x7b; 0x94; 0x32; 0xa6; 0xc2; 0x23; 0x3d; 0xee; 0x4c; 0x95; 0x0b; 0x42; 0xfa; 0xc3; 0x4e;
   0x08; 0x2e; 0xa1; 0x66; 0x28; 0xd9; 0x24; 0xb2; 0x76; 0x5b; 0xa2; 0x49; 0x6d; 0x8b; 0xd1; 0x25;
   0x72; 0xf8; 0xf6; 0x64; 0x86; 0x68; 0x98; 0x16; 0xd4; 0xa4; 0x5c; 0xcc; 0x5d; 0x65; 0xb6; 0x92;
   0x6c; 0x70; 0x48; 0x50; 0xfd; 0xed; 0xb9; 0xda; 0x5e; 0x15; 0x46; 0x57; 0xa7; 0x8d; 0x9d; 0x84;
   0x90; 0xd8; 0xab; 0x00; 0x8c; 0xbc; 0xd3; 0x0a; 0xf7; 0xe4; 0x58; 0x05; 0xb8; 0xb3; 0x45; 0x06;
   0xd0; 0x2c; 0x1e; 0x8f; 0xca; 0x3f; 0x0f; 0x02; 0xc1; 0xaf; 0xbd; 0x03; 0x01; 0x13; 0x8a; 0x6b;
   0x3a; 0x91; 0x11; 0x41; 0x4f; 0x67; 0xdc; 0xea; 0x97; 0xf2; 0xcf; 0xce; 0xf0; 0xb4; 0xe6; 0x73;
   0x96; 0xac; 0x74; 0x22; 0xe7; 0xad; 0x35; 0x85; 0xe2; 0xf9; 0x37; 0xe8; 0x1c; 0x75; 0xdf; 0x6e;
   0x47; 0xf1; 0x1a; 0x71; 0x1d; 0x29; 0xc5; 0x89; 0x6f; 0xb7; 0x62; 0x0e; 0xaa; 0x18; 0xbe; 0x1b;
   0xfc; 0x56; 0x3e; 0x4b; 0xc6; 0xd2; 0x79; 0x20; 0x9a; 0xdb; 0xc0; 0xfe; 0x78; 0xcd; 0x5a; 0xf4;
   0x1f; 0xdd; 0xa8; 0x33; 0x88; 0x07; 0xc7; 0x31; 0xb1; 0x12; 0x10; 0x59; 0x27; 0x80; 0xec; 0x5f;
   0x60; 0x51; 0x7f; 0xa9; 0x19; 0xb5; 0x4a; 0x0d; 0x2d; 0xe5; 0x7a; 0x9f; 0x93; 0xc9; 0x9c; 0xef;
   0xa0; 0xe0; 0x3b; 0x4d; 0xae; 0x2a; 0xf5; 0xb0; 0xc8; 0xeb; 0xbb; 0x3c; 0x83; 0x53; 0x99; 0x61;
   0x17; 0x2b; 0x04; 0x7e; 0xba; 0x77; 0xd6; 0x26; 0xe1; 0x69; 0x14; 0x63; 0x55; 0x21; 0x0c; 0x7d].

Definition Rcon : list Z :=
  [0x8d; 0x01; 0x02; 0x04; 0x08; 0x10; 0x20; 0x40; 0x80; 0x1b; 0x36].

Definition getSBoxValue (num : Z) : option Z := zget sbox num.
Definition getSBoxInvert (num : Z) : option Z := zget rsbox num.

(** ** Programs on one array *)

Definition M (A : Type) : Type := list Z -> option (A * list Z).

#[global] Instance M_ret : MRet M := fun A x s => Some (x, s).
#[global] Instance M_bind : MBind M :=
  fun A B f m s => match m s with Some (x, s) => f x s | None => None end.

Definition get (i : Z) : M Z := fun s => (fun x => (x, s)) <$> zget s i.
Definition put (i x : Z) : M unit := fun s => (fun s => (tt, s)) <$> zput s i x.
Definition lift {A} (o : option A) : M A := fun s => (fun x => (x, s)) <$> o.
Definition look (l : list Z) (i : Z) : M Z := lift (zget l i).

Definition ld (i j : Z) : M Z := get (4 * i + j).
Definition st (i j x : Z) : M unit := put (4 * i + j) x.

(** [for (i = from; i < from + n; ++i)]. *)
Fixpoint for_up (n : nat) (i : Z) (f : Z -> M unit) : M unit :=
  match n with
  | O => mret tt
  | S n => _ ← f i; for_up n (i + 1) f
  end.

(** [for (i = from; i > from - n; --i)]. *)
Fixpoint for_down (n : nat) (i : Z) (f : Z -> M unit) : M unit :=
  match n with
  | O => mret tt
  | S n => _ ← f i; for_down n (i - 1) f
  end.

(** ** The key schedule *)

(** The four bytes of word [i - 1], rotated, substituted and combined with
    the round constant when [i] is a multiple of [Nk]. *)
Definition schedule_word (i : Z) : M (Z * Z * Z * Z) :=
  let k := (i - 1) * 4 in
  t0 ← get (k + 0);
  t1 ← get (k + 1);
  t2 ← get (k + 2);
  t3 ← get (k + 3);
  if i mod Nk =? 0 then
    let '(t0, t1, t2, t3) := (t1, t2, t3, t0) in
    t0 ← lift (getSBoxValue t0);
    t1 ← lift (getSBoxValue t1);
    t2 ← lift (getSBoxValue t2);
    t3 ← lift (getSBoxValue t3);
    rc ← look Rcon (i / Nk);
    mret (Z.lxor t0 rc, t1, t2, t3)
  else mret (t0, t1, t2, t3).

Definition xor_word (j k off t : Z) : M unit := x ← get (k + off); put (j + off) (Z.lxor x t).

Definition KeyExpansion (Key : list Z) : M unit :=
  _ ← for_up (Z.to_nat Nk) 0 (fun i =>
        x ← look Key (i * 4 + 0); _ ← put (i * 4 + 0) x;
        x ← look Key (i * 4 + 1); _ ← put (i * 4 + 1) x;
        x ← look Key (i * 4 + 2); _ ← put (i * 4 + 2) x;
        x ← look Key (i * 4 + 3); put (i * 4 + 3) x);
  for_up (Z.to_nat (Nb * (Nr + 1) - Nk)) Nk (fun i =>
    '(t0, t1, t2, t3) ← schedule_word i;
    let j := i * 4 in
    let k := (i - Nk) * 4 in
    _ ← xor_word j k 0 t0;
    _ ← xor_word j k 1 t1;
    _ ← xor_word j k 2 t2;
    xor_word j k 3 t3).

(** ** Rounds *)

Definition AddRoundKey (round : Z) (RoundKey : list Z) : M unit :=
  for_up 4 0 (fun i => for_up 4 0 (fun j =>
    k ← look RoundKey (round * Nb * 4 + i * Nb + j);
    x ← ld i j;
    st i j (Z.lxor x k))).

Definition SubBytes : M unit :=
  for_up 4 0 (fun i => for_up 4 0 (fun j => x ← ld j i; y ← lift (getSBoxValue x); st j i y)).

Definition ShiftRows : M unit :=
  temp ← ld 0 1;
  x ← ld 1 1; _ ← st 0 1 x;
  x ← ld 2 1; _ ← st 1 1 x;
  x ← ld 3 1; _ ← st 2 1 x;
  _ ← st 3 1 temp;
  temp ← ld 0 2;
  x ← ld 2 2; _ ← st 0 2 x;
  _ ← st 2 2 temp;
  temp ← ld 1 2;
  x ← ld 3 2; _ ← st 1 2 x;
  _ ← st 3 2 temp;
  temp ← ld 0 3;
  x ← ld 3 3; _ ← st 0 3 x;
  x ← ld 2 3; _ ← st 3 3 x;
  x ← ld 1 3; _ ← st 2 3 x;
  st 1 3 temp.

Definition xtime (x : Z) : Z := u8 (Z.lxor (Z.shiftl x 1) (Z.land (Z.shiftr x 7) 1 * 0x1b)).

Definition MixColumns : M unit :=
  for_up 4 0 (fun i =>
    t ← ld i 0;
    x0 ← ld i 0; x1 ← ld i 1; x2 ← ld i 2; x3 ← ld i 3;
    let Tmp := Z.lxor (Z.lxor (Z.lxor x0 x1) x2) x3 in
    x ← ld i 0; y ← ld i 1; let Tm := xtime (Z.lxor x y) in _ ← st i 0 (Z.lxor x (Z.lxor Tm Tmp));
    x ← ld i 1; y ← ld i 2; let Tm := xtime (Z.lxor x y) in _ ← st i 1 (Z.lxor x (Z.lxor Tm Tmp));
    x ← ld i 2; y ← ld i 3; let Tm := xtime (Z.lxor x y) in _ ← st i 2 (Z.lxor x (Z.lxor Tm Tmp));
    x ← ld i 3; let Tm := xtime (Z.lxor x t) in st i 3 (Z.lxor x (Z.lxor Tm Tmp))).

(** The macro. *)
Definition Multiply (x y : Z) : Z :=
  Z.lxor (Z.lxor (Z.lxor (Z.lxor
    (Z.land y 1 * x)
    (Z.land (Z.shiftr y 1) 1 * xtime x))
    (Z.land (Z.shiftr y 2) 1 * xtime (xtime x)))
    (Z.land (Z.shiftr y 3) 1 * xtime (xtime (xtime x))))
    (Z.land (Z.shiftr y 4) 1 * xtime (xtime (xtime (xtime x)))).

Definition mul4 (a b c d ka kb kc kd : Z) : Z :=
  Z.lxor (Z.lxor (Z.lxor (Multiply a ka) (Multiply b kb)) (Multiply c kc)) (Multiply d kd).

Definition InvMixColumns : M unit :=
  for_up 4 0 (fun i =>
    a ← ld i 0; b ← ld i 1; c ← ld i 2; d ← ld i 3;
    _ ← st i 0 (mul4 a b c d 0x0e 0x0b 0x0d 0x09);
    _ ← st i 1 (mul4 a b c d 0x09 0x0e 0x0b 0x0d);
    _ ← st i 2 (mul4 a b c d 0x0d 0x09 0x0e 0x0b);
    st i 3 (mul4 a b c d 0x0b 0x0d 0x09 0x0e)).

Definition InvSubBytes : M unit :=
  for_up 4 0 (fun i => for_up 4 0 (fun j => x ← ld j i; y ← lift (getSBoxInvert x); st j i y)).

Definition InvShiftRows : M unit :=
  temp ← ld 3 1;
  x ← ld 2 1; _ ← st 3 1 x;
  x ← ld 1 1; _ ← st 2 1 x;
  x ← ld 0 1; _ ← st 1 1 x;
  _ ← st 0 1 temp;
  temp ← ld 0 2;
  x ← ld 2 2; _ ← st 0 2 x;
  _ ← st 2 2 temp;
  temp ← ld 1 2;
  x ← ld 3 2; _ ← st 1 2 x;
  _ ← st 3 2 temp;
  temp ← ld 0 3;
  x ← ld 1 3; _ ← st 0 3 x;
  x ← ld 2 3; _ ← st 1 3 x;
  x ← ld 3 3; _ ← st 2 3 x;
  st 3 3 temp.

Definition Cipher (RoundKey : list Z) : M unit :=
  _ ← AddRoundKey 0 RoundKey;
  _ ← for_up (Z.to_nat (Nr - 1)) 1 (fun round =>
        _ ← SubBytes;
        _ ← ShiftRows;
        _ ← MixColumns;
        AddRoundKey round RoundKey);
  _ ← SubBytes;
  _ ← ShiftRows;
  AddRoundKey Nr RoundKey.

Definition InvCipher (RoundKey : list Z) : M unit :=
  _ ← AddRoundKey Nr RoundKey;
  _ ← for_down (Z.to_nat (Nr - 1)) (Nr - 1) (fun round =>
        _ ← InvShiftRows;
        _ ← InvSubBytes;
        _ ← AddRoundKey round RoundKey;
        InvMixColumns);
  _ ← InvShiftRows;
  _ ← InvSubBytes;
  AddRoundKey 0 RoundKey.

(** ** Bytes and blocks *)

Abbreviation byte := (in_range 8).

Record block (s : list Z) : Prop := {
  block_length : length s = 16%nat;
  block_bytes : Forall byte s
}.

Lemma lxor_byte x y : byte x -> byte y -> byte (Z.lxor x y).
Proof. apply (lxor_range 8); lia. Qed.

Lemma lxor_cancel x y : Z.lxor (Z.lxor x y) y = x.
Proof. by rewrite Z.lxor_assoc, Z.lxor_nilpotent, Z.lxor_0_r. Qed.

(** [xtime] is linear. *)
Lemma xtime_bit x j : 0 <= j ->
  Z.testbit (xtime x) j = (j <? 8) && xorb (Z.testbit x (j - 1)) (Z.testbit x 7 && Z.testbit 0x1b j).
Proof.
  intros Hj; unfold xtime, wrap; rewrite <- Z.land_ones, Z.land_spec, Z.lxor_spec by lia.
  rewrite Z.testbit_ones_nonneg, Z.shiftl_spec, andb_comm by lia; f_equal; f_equal.
  assert (E : Z.land (Z.shiftr x 7) 1 = Z.b2z (Z.testbit x 7)).
  { rewrite Z.land_ones with (n := 1) by lia; by rewrite <- Z.bit0_mod, Z.shiftr_spec by lia. }
  rewrite E; by destruct (Z.testbit x 7); [rewrite Z.mul_1_l|rewrite Z.mul_0_l, Z.bits_0].
Qed.

Lemma xtime_lxor x y : xtime (Z.lxor x y) = Z.lxor (xtime x) (xtime y).
Proof.
  apply Z.bits_inj'; intros j Hj; rewrite Z.lxor_spec, !xtime_bit, !Z.lxor_spec by done; btauto.
Qed.

Lemma xtime_byte x : byte (xtime x).
Proof. by apply wrap_range. Qed.

#[export] Hint Resolve lxor_byte xtime_byte : cheri.

(** Multiplication by a constant. *)
Ltac mul_const :=
  unfold Multiply;
  repeat match goal with
  | |- context [Z.land ?a 1] => let v := eval vm_compute in (Z.land a 1) in change (Z.land a 1) with v
  end;
  rewrite ?Z.mul_0_l, ?Z.mul_1_l, ?Z.lxor_0_l, ?Z.lxor_0_r.

(** Equations between sums of images under [xtime]. *)
Ltac xor_solve :=
  rewrite ?xtime_lxor; apply Z.bits_inj'; intros ? ?; rewrite !Z.lxor_spec; btauto.

Definition mix (a b c d : Z) : Z * Z * Z * Z :=
  let t := Z.lxor (Z.lxor (Z.lxor a b) c) d in
  (Z.lxor a (Z.lxor (xtime (Z.lxor a b)) t), Z.lxor b (Z.lxor (xtime (Z.lxor b c)) t),
   Z.lxor c (Z.lxor (xtime (Z.lxor c d)) t), Z.lxor d (Z.lxor (xtime (Z.lxor d a)) t)).

Definition unmix (a b c d : Z) : Z * Z * Z * Z :=
  (mul4 a b c d 0x0e 0x0b 0x0d 0x09, mul4 a b c d 0x09 0x0e 0x0b 0x0d,
   mul4 a b c d 0x0d 0x09 0x0e 0x0b, mul4 a b c d 0x0b 0x0d 0x09 0x0e).

Lemma unmix_mix a b c d : (let '(e, f, g, h) := mix a b c d in unmix e f g h) = (a, b, c, d).
Proof. unfold mix, unmix, mul4; mul_const; repeat f_equal; xor_solve. Qed.

(** ** What each step computes *)

Definition sub (x : Z) : Z := default 0 (getSBoxValue x).
Definition unsub (x : Z) : Z := default 0 (getSBoxInvert x).

Lemma sub_ok x : byte x -> getSBoxValue x = Some (sub x) /\ byte (sub x) /\ unsub (sub x) = x.
Proof.
  intros Hx.
  pose proof (all_bytes (fun x => match getSBoxValue x with
    | Some y => (0 <=? y) && (y <? 256) && match getSBoxInvert y with Some z => z =? x | None => false end
    | None => false end) eq_refl x Hx) as H; cbv beta in H.
  unfold sub, unsub, in_range; destruct (getSBoxValue x) as [y|]; [cbn [default]|done].
  destruct (getSBoxInvert y) as [z|] eqn:Ez; [|by rewrite andb_false_r in H].
  zbool; subst; unfold id; rewrite Ez; repeat split; cbn; lia.
Qed.

Lemma unsub_ok x : byte x -> getSBoxInvert x = Some (unsub x) /\ byte (unsub x).
Proof.
  intros Hx.
  pose proof (all_bytes (fun x => match getSBoxInvert x with
    | Some y => (0 <=? y) && (y <? 256) | None => false end) eq_refl x Hx) as H; cbv beta in H.
  unfold unsub, in_range; destruct (getSBoxInvert x) as [y|]; [cbn|done]; zbool; repeat split; lia.
Qed.

(** Name the sixteen bytes of a block. *)
Ltac block_vars s H :=
  let Hl := fresh "Hl" in let Hb := fresh "Hb" in
  destruct H as [Hl Hb]; do 16 (destruct s as [|? s]; [discriminate Hl|]); destruct s; [|discriminate Hl];
  clear Hl; rewrite !Forall_cons in Hb; destruct_and! Hb.

Ltac bytes := repeat (apply Forall_cons_2; [auto 10 with cheri|]); apply Forall_nil_2.

Ltac run := lazy -[getSBoxValue getSBoxInvert Z.lxor xtime mul4 sub unsub].

Definition sub_block (s : list Z) : list Z := sub <$> s.
Definition unsub_block (s : list Z) : list Z := unsub <$> s.

Lemma SubBytes_spec s : block s -> SubBytes s = Some (tt, sub_block s).
Proof.
  intros H; block_vars s H.
  repeat match goal with Hx : byte ?x |- _ => destruct (sub_ok x Hx) as [? _]; clear Hx end.
  run; repeat (match goal with Hx : getSBoxValue ?x = _ |- context [getSBoxValue ?x] => rewrite Hx end; run); reflexivity.
Qed.

Lemma InvSubBytes_spec s : block s -> InvSubBytes s = Some (tt, unsub_block s).
Proof.
  intros H; block_vars s H.
  repeat match goal with Hx : byte ?x |- _ => destruct (unsub_ok x Hx) as [? _]; clear Hx end.
  run; repeat (match goal with Hx : getSBoxInvert ?x = _ |- context [getSBoxInvert ?x] => rewrite Hx end; run); reflexivity.
Qed.

Lemma sub_block_ok s : block s -> block (sub_block s) /\ unsub_block (sub_block s) = s.
Proof.
  intros [Hl Hb]; split.
  - split; [by unfold sub_block; rewrite length_fmap|]; unfold sub_block; rewrite Forall_fmap.
    eapply Forall_impl; [exact Hb|]; intros x Hx; by apply sub_ok.
  - unfold sub_block, unsub_block; clear Hl; induction Hb as [|x l Hx _ IH]; [done|].
    cbn; rewrite IH; f_equal; by apply sub_ok.
Qed.

(** The rows as lists of columns. *)
Definition shift_block (s : list Z) : list Z :=
  match s with
  | [a0; a1; a2; a3; b0; b1; b2; b3; c0; c1; c2; c3; d0; d1; d2; d3] =>
      [a0; b1; c2; d3; b0; c1; d2; a3; c0; d1; a2; b3; d0; a1; b2; c3]
  | _ => s
  end.

Definition columns (f : Z -> Z -> Z -> Z -> Z * Z * Z * Z) : list Z -> list Z :=
  fix go s := match s with
  | a :: b :: c :: d :: s => let '(e, f, g, h) := f a b c d in e :: f :: g :: h :: go s
  | _ => s
  end.

Definition add_block (k s : list Z) : list Z := zip_with Z.lxor s k.

Lemma ShiftRows_spec s : block s -> ShiftRows s = Some (tt, shift_block s) /\ block (shift_block s).
Proof. intros H; block_vars s H; split; [reflexivity|split; [done|cbn; bytes]]. Qed.

Lemma InvShiftRows_spec s : block s -> InvShiftRows (shift_block s) = Some (tt, s).
Proof. intros H; block_vars s H; reflexivity. Qed.

Lemma MixColumns_spec s : block s -> MixColumns s = Some (tt, columns mix s) /\ block (columns mix s).
Proof.
  intros H; block_vars s H; split; [reflexivity|split; [done|cbn]].
  bytes.
Qed.

Lemma InvMixColumns_run s : block s -> InvMixColumns s = Some (tt, columns unmix s).
Proof. intros H; block_vars s H; reflexivity. Qed.

Lemma columns_unmix s : columns unmix (columns mix s) = s.
Proof.
  cut (forall n s, (length s <= n)%nat -> columns unmix (columns mix s) = s); [eauto|].
  clear s; intros n; induction n as [|n IH]; intros [|a [|b [|c [|d s]]]] Hn; cbn in Hn; try done; try lia.
  assert (E : columns unmix (columns mix (a :: b :: c :: d :: s)) =
    let '(e, f, g, h) := (let '(e, f, g, h) := mix a b c d in unmix e f g h) in
    e :: f :: g :: h :: columns unmix (columns mix s)) by reflexivity.
  rewrite E, unmix_mix, IH by lia; done.
Qed.

Lemma InvMixColumns_spec s : block s -> InvMixColumns (columns mix s) = Some (tt, s).
Proof. intros H; rewrite InvMixColumns_run by (by apply MixColumns_spec); by rewrite columns_unmix. Qed.

(** ** Round keys *)

Lemma for_up_ext n i f g s :
  (forall j s, i <= j < i + Z.of_nat n -> f j s = g j s) -> for_up n i f s = for_up n i g s.
Proof.
  revert i s; induction n as [|n IH]; intros i s H; [done|]; cbn [for_up]; unfold mbind, M_bind.
  rewrite (H i s) by lia; destruct (g i s) as [[[] s']|]; [|done]; apply IH; intros; apply H; lia.
Qed.

(** An expanded key. *)
Record keys (rk : list Z) : Prop := {
  keys_length : Z.of_nat (length rk) = AES_keyExpSize;
  keys_bytes : Forall byte rk
}.

Definition round_key (rk : list Z) (r : Z) : list Z := take 16 (drop (Z.to_nat (16 * r)) rk).

Lemma round_key_block rk r : keys rk -> 0 <= r <= Nr -> block (round_key rk r).
Proof.
  unfold Nr; intros [Hl Hb] Hr; unfold round_key, AES_keyExpSize in *; split.
  - rewrite length_take, length_drop; lia.
  - by apply Forall_take, Forall_drop.
Qed.

Lemma round_key_get rk r p : 0 <= r -> 0 <= p < 16 -> zget rk (16 * r + p) = zget (round_key rk r) p.
Proof.
  intros Hr Hp; unfold zget, round_key; rewrite !(proj2 (Z.leb_le 0 _)) by lia.
  rewrite lookup_take_lt, lookup_drop by lia; f_equal; lia.
Qed.

Lemma AddRoundKey_spec rk r s : keys rk -> 0 <= r <= Nr -> block s ->
  AddRoundKey r rk s = Some (tt, add_block (round_key rk r) s) /\ block (add_block (round_key rk r) s).
Proof.
  intros Hk Hr Hs; pose proof (round_key_block rk r Hk Hr) as Hb.
  assert (E : AddRoundKey r rk s = AddRoundKey 0 (round_key rk r) s).
  { apply for_up_ext; intros i s1 Hi; apply for_up_ext; intros j s2 Hj; unfold look, Nb.
    replace (r * 4 * 4 + i * 4 + j) with (16 * r + (i * 4 + j)) by lia.
    by rewrite round_key_get by lia. }
  rewrite E; clear E; destruct Hk as [_ _]; revert Hb; generalize (round_key rk r); intros k Hb.
  block_vars s Hs; block_vars k Hb; split; [reflexivity|split; [done|cbn; bytes]].
Qed.

Lemma add_block_cancel k s : block k -> block s -> add_block k (add_block k s) = s.
Proof. intros Hk Hs; block_vars s Hs; block_vars k Hk; cbn; by rewrite !lxor_cancel. Qed.

(** ** Encryption and decryption *)

Definition enc_round (rk : list Z) (r : Z) (s : list Z) : list Z :=
  add_block (round_key rk r) (columns mix (shift_block (sub_block s))).

Fixpoint enc_rounds (n : nat) (rk : list Z) (r : Z) (s : list Z) : list Z :=
  match n with O => s | S n => enc_rounds n rk (r + 1) (enc_round rk r s) end.

(** Half of a round, which [InvCipher] starts with. *)
Definition half_round (s : list Z) : list Z := shift_block (sub_block s).

Definition cipher (rk s : list Z) : list Z :=
  add_block (round_key rk Nr)
    (half_round (enc_rounds (Z.to_nat (Nr - 1)) rk 1 (add_block (round_key rk 0) s))).

Lemma bindM {A B} (m : M A) (f : A -> M B) s x s' : m s = Some (x, s') -> (m ≫= f) s = f x s'.
Proof. unfold mbind, M_bind; by intros ->. Qed.

Lemma half_round_block s : block s -> block (half_round s).
Proof. intros H; by apply ShiftRows_spec, sub_block_ok. Qed.

Lemma for_down_snoc n i f s :
  for_down (S n) i f s = (_ ← for_down n i f; f (i - Z.of_nat n)) s.
Proof.
  revert i s; induction n as [|n IH]; intros i s.
  - cbn [for_down]; rewrite Z.sub_0_r; unfold mbind, M_bind; cbn; by destruct (f i s) as [[[] ?]|].
  - transitivity ((_ ← f i; for_down (S n) (i - 1) f) s); [done|].
    cbn [for_down]; unfold mbind, M_bind in *; destruct (f i s) as [[[] s1]|]; [|done].
    specialize (IH (i - 1) s1); cbn [for_down] in IH; unfold mbind, M_bind in IH; rewrite IH.
    by replace (i - Z.of_nat (S n)) with (i - 1 - Z.of_nat n) by lia.
Qed.

Section cipher.
Context (rk : list Z) (Hrk : keys rk).

Definition enc_body (round : Z) : M unit := _ ← SubBytes; _ ← ShiftRows; _ ← MixColumns; AddRoundKey round rk.
Definition dec_body (round : Z) : M unit :=
  _ ← InvShiftRows; _ ← InvSubBytes; _ ← AddRoundKey round rk; InvMixColumns.

Lemma enc_body_spec r s : 0 <= r <= Nr -> block s -> enc_body r s = Some (tt, enc_round rk r s) /\ block (enc_round rk r s).
Proof.
  intros Hr Hs; destruct (sub_block_ok s Hs) as [H1 _]; destruct (ShiftRows_spec _ H1) as [E2 H2].
  destruct (MixColumns_spec _ H2) as [E3 H3]; destruct (AddRoundKey_spec rk r _ Hrk Hr H3) as [E4 H4].
  split; [|done]; unfold enc_body.
  by rewrite (bindM _ _ _ _ _ (SubBytes_spec s Hs)), (bindM _ _ _ _ _ E2), (bindM _ _ _ _ _ E3).
Qed.

Lemma dec_half s (f : M unit) : block s -> (_ ← InvShiftRows; _ ← InvSubBytes; f) (half_round s) = f s.
Proof.
  intros Hs; destruct (sub_block_ok s Hs) as [H1 H2].
  rewrite (bindM _ _ _ _ _ (InvShiftRows_spec _ H1)), (bindM _ _ _ _ _ (InvSubBytes_spec _ H1)); by rewrite H2.
Qed.

Lemma AddRoundKey_undo r s : 0 <= r <= Nr -> block s -> AddRoundKey r rk (add_block (round_key rk r) s) = Some (tt, s).
Proof.
  intros Hr Hs; destruct (AddRoundKey_spec rk r s Hrk Hr Hs) as [_ H].
  destruct (AddRoundKey_spec rk r _ Hrk Hr H) as [E _]; rewrite E.
  by rewrite add_block_cancel by (done || by apply round_key_block).
Qed.

Lemma dec_body_spec r s : 0 <= r <= Nr -> block s -> dec_body r (half_round (enc_round rk r s)) = Some (tt, half_round s).
Proof.
  intros Hr Hs; unfold dec_body; rewrite dec_half by (by apply enc_body_spec); pose proof (half_round_block s Hs) as Hh.
  unfold enc_round; fold (half_round s).
  rewrite (bindM _ _ _ _ _ (AddRoundKey_undo r _ Hr (proj2 (MixColumns_spec _ Hh)))); by apply InvMixColumns_spec.
Qed.

Lemma enc_loop n r s : 0 <= r -> r + Z.of_nat n <= Nr -> block s ->
  for_up n r enc_body s = Some (tt, enc_rounds n rk r s) /\ block (enc_rounds n rk r s).
Proof.
  revert r s; induction n as [|n IH]; intros r s Hr Hn Hs; [done|].
  destruct (enc_body_spec r s ltac:(lia) Hs) as [E Hb]; cbn [for_up enc_rounds].
  rewrite (bindM _ _ _ _ _ E); apply IH; [lia..|done].
Qed.

Lemma dec_loop n r s : 0 <= r -> r + Z.of_nat n <= Nr -> block s ->
  for_down n (r + Z.of_nat n - 1) dec_body (half_round (enc_rounds n rk r s)) = Some (tt, half_round s).
Proof.
  revert r s; induction n as [|n IH]; intros r s Hr Hn Hs; [done|].
  destruct (enc_body_spec r s ltac:(lia) Hs) as [_ Hb].
  rewrite for_down_snoc; cbn [enc_rounds].
  replace (r + Z.of_nat (S n) - 1) with (r + 1 + Z.of_nat n - 1) by lia.
  rewrite (bindM _ _ _ _ _ (IH (r + 1) _ ltac:(lia) ltac:(lia) Hb)).
  replace (r + 1 + Z.of_nat n - 1 - Z.of_nat n) with r by lia; apply dec_body_spec; [lia|done].
Qed.

Lemma cipher_mid s : block s ->
  block (add_block (round_key rk 0) s) /\
  block (enc_rounds (Z.to_nat (Nr - 1)) rk 1 (add_block (round_key rk 0) s)).
Proof.
  intros Hs; destruct (AddRoundKey_spec rk 0 s Hrk ltac:(done) Hs) as [_ H]; split; [done|].
  by apply enc_loop.
Qed.

Lemma Cipher_spec s : block s -> Cipher rk s = Some (tt, cipher rk s) /\ block (cipher rk s).
Proof.
  intros Hs; destruct (AddRoundKey_spec rk 0 s Hrk ltac:(done) Hs) as [E0 H0].
  destruct (enc_loop (Z.to_nat (Nr - 1)) 1 _ ltac:(done) ltac:(done) H0) as [E1 H1].
  destruct (sub_block_ok _ H1) as [H2 _]; destruct (ShiftRows_spec _ H2) as [E3 H3].
  destruct (AddRoundKey_spec rk Nr _ Hrk ltac:(done) H3) as [E4 H4]; split; [|done].
  unfold Cipher; rewrite (bindM _ _ _ _ _ E0); fold enc_body.
  by rewrite (bindM _ _ _ _ _ E1), (bindM _ _ _ _ _ (SubBytes_spec _ H1)), (bindM _ _ _ _ _ E3).
Qed.

Lemma InvCipher_spec s : block s -> InvCipher rk (cipher rk s) = Some (tt, s).
Proof.
  intros Hs; destruct (cipher_mid s Hs) as [H0 H1]; unfold InvCipher, cipher.
  rewrite (bindM _ _ _ _ _ (AddRoundKey_undo Nr _ ltac:(done) (half_round_block _ H1))); fold dec_body.
  rewrite (bindM _ _ _ _ _ (dec_loop (Z.to_nat (Nr - 1)) 1 _ ltac:(done) ltac:(done) H0)).
  rewrite dec_half by done; by apply AddRoundKey_undo.
Qed.

End cipher.

(** ** The key schedule *)

Definition at_ (s : list Z) (p : Z) : Z := default 0 (zget s p).

(** The byte the schedule adds at [p] (FIPS 197, section 5.2). *)
Definition temp_byte (s : list Z) (p : Z) : Z :=
  if (p / 4) mod 4 =? 0 then
    Z.lxor (sub (at_ s (4 * (p / 4 - 1) + (p mod 4 + 1) mod 4)))
           (if p mod 4 =? 0 then at_ Rcon (p / 16) else 0)
  else at_ s (p - 4).

(** The first [n] bytes are the expansion of the key. *)
Record expanded (key : list Z) (n : Z) (s : list Z) : Prop := {
  ex_length : Z.of_nat (length s) = AES_keyExpSize;
  ex_key : forall p, 0 <= p < Z.min n 16 -> zget s p = Some (at_ key p);
  ex_rest : forall p, 16 <= p < n -> zget s p = Some (Z.lxor (at_ s (p - 16)) (temp_byte s p));
  ex_bytes : forall p, 0 <= p < n -> byte (at_ s p)
}.

Lemma get_at s p : 0 <= p < Z.of_nat (length s) -> get p s = Some (at_ s p, s).
Proof. intros Hp; unfold get, at_; by destruct (zget_is_Some s p Hp) as [x ->]. Qed.

Lemma at_insert s n x p : 0 <= n < Z.of_nat (length s) -> at_ (<[Z.to_nat n := x]> s) p = if p =? n then x else at_ s p.
Proof.
  intros Hn; pose proof (zput_is_Some s n x Hn) as E; unfold at_; destruct (Z.eqb_spec p n) as [->|Hne].
  - by rewrite (zget_zput_eq _ _ _ _ E).
  - by rewrite (zget_zput_ne _ _ _ _ _ E) by done.
Qed.

Lemma temp_byte_insert s n x p : 16 <= p -> 4 * (p / 4) <= n < Z.of_nat (length s) -> temp_byte (<[Z.to_nat n := x]> s) p = temp_byte s p.
Proof.
  intros Hp Hn; unfold temp_byte; pose proof (Z.div_mod p 4); assert (4 <= p / 4) by (apply Z.div_le_lower_bound; lia); pose proof (Z.mod_pos_bound p 4).
  pose proof (Z.mod_pos_bound (p mod 4 + 1) 4).
  rewrite !at_insert by lia; do 2 (rewrite (proj2 (Z.eqb_neq _ n)) by lia); done.
Qed.

(** Writing the next byte. *)
Lemma put_expanded key n s x :
  expanded key n s -> 0 <= n < AES_keyExpSize -> byte x ->
  (n < 16 -> x = at_ key n) -> (16 <= n -> x = Z.lxor (at_ s (n - 16)) (temp_byte s n)) ->
  put n x s = Some (tt, <[Z.to_nat n := x]> s) /\ expanded key (n + 1) (<[Z.to_nat n := x]> s).
Proof.
  intros [Hl Hk Hr Hb] Hn Hx H1 H2; pose proof (zput_is_Some s n x ltac:(lia)) as E.
  split; [unfold put; by rewrite E|].
  assert (Hz : forall p, zget (<[Z.to_nat n := x]> s) p = if p =? n then Some x else zget s p).
  { intros p; destruct (Z.eqb_spec p n) as [->|Hne]; [apply (zget_zput_eq _ _ _ _ E)|].
    by apply (zget_zput_ne _ _ _ _ _ E). }
  split.
  - by rewrite length_insert.
  - intros p Hp; rewrite Hz; destruct (Z.eqb_spec p n) as [->|]; [f_equal; apply H1; lia|apply Hk; lia].
  - intros p Hp; rewrite Hz, at_insert, (proj2 (Z.eqb_neq (p - 16) n)) by lia.
    rewrite temp_byte_insert by (pose proof (Z.mul_div_le p 4); lia).
    destruct (Z.eqb_spec p n) as [->|]; [f_equal; apply H2; lia|apply Hr; lia].
  - intros p Hp; rewrite at_insert by lia; destruct (Z.eqb_spec p n) as [->|]; [done|apply Hb; lia].
Qed.

Lemma for_up_inv n i f (I : Z -> list Z -> Prop) s :
  I i s ->
  (forall j s, i <= j < i + Z.of_nat n -> I j s -> exists s', f j s = Some (tt, s') /\ I (j + 1) s') ->
  exists s', for_up n i f s = Some (tt, s') /\ I (i + Z.of_nat n) s'.
Proof.
  revert i s; induction n as [|n IH]; intros i s Hi Hf; [exists s; by rewrite Z.add_0_r|].
  destruct (Hf i s ltac:(lia) Hi) as (s1 & E1 & H1); cbn [for_up]; rewrite (bindM _ _ _ _ _ E1).
  destruct (IH (i + 1) s1 H1) as (s2 & E2 & H2); [intros; apply Hf; [lia|done]|].
  exists s2; split; [done|]; by replace (i + Z.of_nat (S n)) with (i + 1 + Z.of_nat n) by lia.
Qed.

Section schedule.
Context (key : list Z) (Hkey : block key).

Lemma key_look p : 0 <= p < 16 -> zget key p = Some (at_ key p) /\ byte (at_ key p).
Proof.
  intros Hp; destruct Hkey as [Hl Hb]; destruct (zget_is_Some key p ltac:(lia)) as [x Hx]; unfold at_; rewrite Hx.
  split; [done|]; unfold zget in Hx; rewrite (proj2 (Z.leb_le 0 p)) in Hx by lia; by apply (Forall_lookup_1 _ _ _ _ Hb Hx).
Qed.

Lemma copy_key_step n s : expanded key n s -> 0 <= n < 16 ->
  exists s', expanded key (n + 1) s' /\ (x ← look key n; put n x) s = Some (tt, s') /\
    forall f : unit -> M unit, (x ← look key n; put n x ≫= f) s = f tt s'.
Proof.
  intros He Hn; destruct (key_look n Hn) as [Hk Hb].
  destruct (put_expanded key n s (at_ key n) He ltac:(unfold AES_keyExpSize; lia) Hb ltac:(done) ltac:(lia)) as [E Hs].
  assert (Hlk : look key n s = Some (at_ key n, s)) by (unfold look, lift; by rewrite Hk).
  exists (<[Z.to_nat n := at_ key n]> s); split; [done|]; split; [by rewrite (bindM _ _ _ _ _ Hlk)|].
  intros f; by rewrite (bindM _ _ _ _ _ Hlk), (bindM _ _ _ _ _ E).
Qed.

Lemma Rcon_byte i : 1 <= i <= 10 -> byte (at_ Rcon i) /\ zget Rcon i = Some (at_ Rcon i).
Proof.
  intros Hi; assert (H : forallb (fun i => match zget Rcon i with Some x => (0 <=? x) && (x <? 256) | None => false end) (seqZ 1 10) = true)
    by reflexivity.
  rewrite forallb_forall in H; specialize (H i); rewrite <- list_elem_of_In, elem_of_seqZ in H; specialize (H ltac:(lia)).
  unfold at_, in_range; destruct (zget Rcon i) as [x|]; [cbn|done]; zbool; repeat split; lia.
Qed.

Lemma temp_byte_range n s p : expanded key n s -> 16 <= p < AES_keyExpSize -> 4 * (p / 4) <= n -> byte (temp_byte s p).
Proof.
  unfold AES_keyExpSize; intros [_ _ _ Hb] Hp Hn; unfold temp_byte.
  pose proof (Z.div_mod p 4); pose proof (Z.mod_pos_bound p 4); pose proof (Z.mod_pos_bound (p mod 4 + 1) 4).
  assert (4 <= p / 4) by (apply Z.div_le_lower_bound; lia).
  destruct (_ =? 0); [|apply Hb; lia].
  apply lxor_byte; [apply sub_ok, Hb; lia|]; destruct (p mod 4 =? 0); [|done].
  apply Rcon_byte; split; [apply Z.div_le_lower_bound; lia|apply Z.lt_succ_r, Z.div_lt_upper_bound; lia].
Qed.

Lemma temp_byte_word s i b : 0 <= b < 4 -> temp_byte s (4 * i + b) =
  if i mod 4 =? 0 then Z.lxor (sub (at_ s (4 * (i - 1) + (b + 1) mod 4))) (if b =? 0 then at_ Rcon (i / 4) else 0)
  else at_ s (4 * i + b - 4).
Proof.
  intros Hb; unfold temp_byte.
  assert (E1 : (4 * i + b) / 4 = i) by (symmetry; apply (Z.div_unique _ _ _ b); lia).
  assert (E2 : (4 * i + b) mod 4 = b) by (symmetry; apply (Z.mod_unique _ _ i); lia).
  rewrite E1, E2; destruct (Z.eqb_spec b 0) as [->|]; [|done].
  replace ((4 * i + 0) / 16) with (i / 4); [done|].
  rewrite Z.add_0_r; change 16 with (4 * 4); by rewrite Z.div_mul_cancel_l.
Qed.

Lemma schedule_word_spec s i : expanded key (4 * i) s -> 4 <= i < 44 ->
  schedule_word i s =
    Some (temp_byte s (4 * i + 0), temp_byte s (4 * i + 1), temp_byte s (4 * i + 2), temp_byte s (4 * i + 3), s).
Proof.
  intros [Hl _ _ Hb] Hi; unfold AES_keyExpSize in Hl; unfold schedule_word; cbv zeta.
  rewrite !(fun p f H => bindM (get p) f s _ s (get_at s p H)) by lia.
  rewrite !temp_byte_word by lia; unfold Nk.
  replace ((i - 1) * 4) with (4 * (i - 1)) by lia.
  destruct (i mod 4 =? 0); [|unfold mret, M_ret; repeat f_equal; lia].
  assert (Hs : forall p (f : Z -> M (Z * Z * Z * Z)), 0 <= p < 4 * i ->
    (lift (getSBoxValue (at_ s p)) ≫= f) s = f (sub (at_ s p)) s).
  { intros p f Hp; apply bindM; unfold lift; by rewrite (proj1 (sub_ok _ (Hb p Hp))). }
  rewrite !Hs by lia.
  assert (Hr : 1 <= i / 4 <= 10)
    by (split; [apply Z.div_le_lower_bound; lia|apply Z.lt_succ_r, Z.div_lt_upper_bound; lia]).
  rewrite (bindM (look Rcon (i / 4)) _ s (at_ Rcon (i / 4)) s) by (unfold look, lift; by rewrite (proj2 (Rcon_byte _ Hr))).
  cbn [Z.eqb]; by rewrite !Z.lxor_0_r.
Qed.

Lemma word_div i p : 4 * i <= p < 4 * i + 4 -> p / 4 = i.
Proof. intros H; symmetry; apply (Z.div_unique _ _ _ (p - 4 * i)); lia. Qed.

Lemma xor_word_step i off s t : 4 <= i < 44 -> 0 <= off < 4 -> expanded key (4 * i + off) s -> t = temp_byte s (4 * i + off) ->
  exists s', xor_word (i * 4) ((i - Nk) * 4) off t s = Some (tt, s') /\ expanded key (4 * i + (off + 1)) s' /\
    forall p, 4 * i <= p < 4 * i + 4 -> temp_byte s' p = temp_byte s p.
Proof.
  intros Hi Ho He ->; pose proof (ex_length _ _ _ He) as Hl; unfold AES_keyExpSize in Hl.
  unfold xor_word, Nk; replace ((i - 4) * 4 + off) with (4 * i + off - 16) by lia.
  rewrite (bindM _ _ s _ s (get_at s (4 * i + off - 16) ltac:(lia))); replace (i * 4 + off) with (4 * i + off) by lia.
  destruct (put_expanded key (4 * i + off) s (Z.lxor (at_ s (4 * i + off - 16)) (temp_byte s (4 * i + off))) He)
    as [E Hs]; [unfold AES_keyExpSize; lia| |lia|done|].
  - apply lxor_byte; [apply (ex_bytes _ _ _ He); lia|].
    apply (temp_byte_range (4 * i + off)); [done|unfold AES_keyExpSize; lia|]; rewrite (word_div i) by lia; lia.
  - eexists; split; [exact E|]; split; [by rewrite Z.add_assoc|].
    intros p Hp; apply temp_byte_insert; [lia|]; rewrite (word_div i) by lia; lia.
Qed.

Lemma schedule_step s i : 4 <= i < 44 -> expanded key (4 * i) s ->
  exists s', ('(t0, t1, t2, t3) ← schedule_word i;
    let j := i * 4 in
    let k := (i - Nk) * 4 in
    _ ← xor_word j k 0 t0;
    _ ← xor_word j k 1 t1;
    _ ← xor_word j k 2 t2;
    xor_word j k 3 t3) s = Some (tt, s') /\ expanded key (4 * (i + 1)) s'.
Proof.
  intros Hi He; rewrite (bindM _ _ _ _ _ (schedule_word_spec s i He Hi)); cbv zeta.
  rewrite <- (Z.add_0_r (4 * i)) in He.
  destruct (xor_word_step i 0 s _ Hi ltac:(lia) He eq_refl) as (s1 & E1 & H1 & T1).
  destruct (xor_word_step i 1 s1 (temp_byte s (4 * i + 1)) Hi ltac:(lia) H1) as (s2 & E2 & H2 & T2);
    [by rewrite T1 by lia|].
  destruct (xor_word_step i 2 s2 (temp_byte s (4 * i + 2)) Hi ltac:(lia) H2) as (s3 & E3 & H3 & T3);
    [by rewrite T2, T1 by lia|].
  destruct (xor_word_step i 3 s3 (temp_byte s (4 * i + 3)) Hi ltac:(lia) H3) as (s4 & E4 & H4 & T4);
    [by rewrite T3, T2, T1 by lia|].
  exists s4; rewrite (bindM _ _ _ _ _ E1), (bindM _ _ _ _ _ E2), (bindM _ _ _ _ _ E3).
  split; [done|]; by replace (4 * (i + 1)) with (4 * i + (3 + 1)) by lia.
Qed.

Lemma copy_step s i : 0 <= i < 4 -> expanded key (4 * i) s ->
  exists s', (x ← look key (i * 4 + 0); _ ← put (i * 4 + 0) x;
    x ← look key (i * 4 + 1); _ ← put (i * 4 + 1) x;
    x ← look key (i * 4 + 2); _ ← put (i * 4 + 2) x;
    x ← look key (i * 4 + 3); put (i * 4 + 3) x) s = Some (tt, s') /\ expanded key (4 * (i + 1)) s'.
Proof.
  intros Hi He; replace (4 * i) with (i * 4 + 0) in He by lia.
  destruct (copy_key_step _ s He ltac:(lia)) as (s1 & H1 & _ & E1); rewrite E1.
  replace (i * 4 + 0 + 1) with (i * 4 + 1) in H1 by lia.
  destruct (copy_key_step _ s1 H1 ltac:(lia)) as (s2 & H2 & _ & E2); rewrite E2.
  replace (i * 4 + 1 + 1) with (i * 4 + 2) in H2 by lia.
  destruct (copy_key_step _ s2 H2 ltac:(lia)) as (s3 & H3 & _ & E3); rewrite E3.
  replace (i * 4 + 2 + 1) with (i * 4 + 3) in H3 by lia.
  destruct (copy_key_step _ s3 H3 ltac:(lia)) as (s4 & H4 & E4 & _); exists s4; split; [done|].
  by replace (4 * (i + 1)) with (i * 4 + 3 + 1) by lia.
Qed.

Lemma KeyExpansion_spec s : Z.of_nat (length s) = AES_keyExpSize ->
  exists rk, KeyExpansion key s = Some (tt, rk) /\ expanded key AES_keyExpSize rk.
Proof.
  intros Hl; assert (H0 : expanded key (4 * 0) s) by (split; [done|intros; lia..]).
  destruct (for_up_inv (Z.to_nat Nk) 0 _ (fun i => expanded key (4 * i)) s H0 (fun j s Hj => copy_step s j Hj)) as (s1 & E1 & H1).
  destruct (for_up_inv (Z.to_nat (Nb * (Nr + 1) - Nk)) Nk _ (fun i => expanded key (4 * i)) s1 H1
    (fun j s Hj => schedule_step s j Hj)) as (s2 & E2 & H2).
  exists s2; split; [|done]; unfold KeyExpansion; by rewrite (bindM _ _ _ _ _ E1).
Qed.

End schedule.

Lemma expanded_keys key rk : expanded key AES_keyExpSize rk -> keys rk.
Proof.
  intros [Hl _ _ Hb]; split; [done|]; apply Forall_lookup_2; intros p x Hp.
  pose proof (lookup_lt_Some _ _ _ Hp); specialize (Hb (Z.of_nat p) ltac:(unfold AES_keyExpSize in *; lia)).
  unfold at_, zget in Hb; rewrite (proj2 (Z.leb_le 0 _)), Nat2Z.id, Hp in Hb by lia; done.
Qed.

(** ** FIPS 197 *)

(** Multiplication in GF(2^8): a carry-less product, reduced by the
    polynomial 0x11b. *)
Definition clmul (a b : Z) : Z :=
  foldr (fun i r => if Z.testbit b i then Z.lxor r (Z.shiftl a i) else r) 0 (seqZ 0 8).
Definition reduce (x : Z) : Z :=
  foldl (fun x i => if Z.testbit x i then Z.lxor x (Z.shiftl 0x11b (i - 8)) else x) x [15; 14; 13; 12; 11; 10; 9; 8].
Definition gmul (a b : Z) : Z := reduce (clmul a b).

Definition ginv (x : Z) : Z := Nat.iter 254 (gmul x) 1.

Definition rotl8 (x n : Z) : Z := u8 (Z.lor (Z.shiftl x n) (Z.shiftr x (8 - n))).
Definition affine (b : Z) : Z :=
  Z.lxor 0x63 (Z.lxor b (Z.lxor (rotl8 b 1) (Z.lxor (rotl8 b 2) (Z.lxor (rotl8 b 3) (rotl8 b 4))))).

Definition fips_row (a b c d x y z w : Z) : Z :=
  Z.lxor (gmul x a) (Z.lxor (gmul y b) (Z.lxor (gmul z c) (gmul w d))).
Definition fips_mix (a b c d : Z) : Z * Z * Z * Z :=
  (fips_row a b c d 2 3 1 1, fips_row a b c d 1 2 3 1, fips_row a b c d 1 1 2 3, fips_row a b c d 3 1 1 2).
Definition fips_unmix (a b c d : Z) : Z * Z * Z * Z :=
  (fips_row a b c d 14 11 13 9, fips_row a b c d 9 14 11 13, fips_row a b c d 13 9 14 11, fips_row a b c d 11 13 9 14).

Lemma sub_fips x : byte x -> sub x = affine (ginv x) /\ gmul x (ginv x) = (if x =? 0 then 0 else 1).
Proof.
  intros Hx; pose proof (all_bytes (fun x => (sub x =? affine (ginv x)) && (gmul x (ginv x) =? if x =? 0 then 0 else 1))
    ltac:(vm_compute; reflexivity) x Hx) as H; cbv beta in H; zbool; done.
Qed.

Lemma Multiply_fips x y : byte x -> 0 <= y < 32 -> Multiply x y = gmul y x.
Proof.
  intros Hx Hy; pose proof (all_bytes (fun x => forallb (fun y => Multiply x y =? gmul y x) (seqZ 0 32))
    ltac:(vm_compute; reflexivity) x Hx) as H; cbv beta in H; rewrite forallb_forall in H.
  apply Z.eqb_eq, H, list_elem_of_In, elem_of_seqZ; lia.
Qed.

Ltac gmul_const :=
  repeat match goal with
  | |- context [gmul ?k ?x] => rewrite <- (Multiply_fips x k) by (done || (unfold in_range; lia))
  end; mul_const.

Lemma mix_fips a b c d : byte a -> byte b -> byte c -> byte d -> mix a b c d = fips_mix a b c d.
Proof. intros Ha Hb Hc Hd; unfold mix, fips_mix, fips_row; gmul_const; do 3 (apply f_equal2; [|xor_solve]); xor_solve. Qed.

Lemma unmix_fips a b c d : byte a -> byte b -> byte c -> byte d -> unmix a b c d = fips_unmix a b c d.
Proof. intros Ha Hb Hc Hd; unfold unmix, mul4, fips_unmix, fips_row; gmul_const; do 3 (apply f_equal2; [|xor_solve]); xor_solve. Qed.

Lemma columns_ext f g s : Forall byte s ->
  (forall a b c d, byte a -> byte b -> byte c -> byte d -> f a b c d = g a b c d) -> columns f s = columns g s.
Proof.
  intros Hs H; cut (forall n s, (length s <= n)%nat -> Forall byte s -> columns f s = columns g s); [eauto|].
  clear s Hs; intros n; induction n as [|n IH]; intros [|a [|b [|c [|d s]]]] Hn Hs; cbn in Hn; try done; try lia.
  rewrite !Forall_cons in Hs; destruct Hs as (Ha & Hb & Hc & Hd & Hs).
  cbn [columns]; rewrite H by done; destruct (g a b c d) as [[[? ?] ?] ?]; do 4 f_equal; apply IH; [lia|done].
Qed.

Lemma Rcon_fips i : 1 <= i <= 10 -> at_ Rcon i = Nat.iter (Z.to_nat (i - 1)) (gmul 2) 1.
Proof.
  intros Hi; assert (H : forallb (fun i => at_ Rcon i =? Nat.iter (Z.to_nat (i - 1)) (gmul 2) 1) (seqZ 1 10) = true)
    by (vm_compute; reflexivity).
  rewrite forallb_forall in H; apply Z.eqb_eq, H, list_elem_of_In, elem_of_seqZ; lia.
Qed.

(** ** The properties *)

(** C15: The steps are those of FIPS 197.  For every key and every block,
    [KeyExpansion] terminates with all 176 bytes determined by the recurrence
    of the standard (whatever the array held), its round constants are the
    powers of x, the S-box is the affine image of the inverse in GF(2^8), and
    [MixColumns] and [InvMixColumns], which only use shifts and exclusive or,
    are the products with the standard's matrices over that field. *)
Theorem aes_steps_fips197 key rk0 s :
  block key -> Z.of_nat (length rk0) = AES_keyExpSize -> block s ->
  (exists rk, KeyExpansion key rk0 = Some (tt, rk) /\ expanded key AES_keyExpSize rk) /\
  (forall i, 1 <= i <= 10 -> zget Rcon i = Some (Nat.iter (Z.to_nat (i - 1)) (gmul 2) 1)) /\
  SubBytes s = Some (tt, (fun x => affine (ginv x)) <$> s) /\
  MixColumns s = Some (tt, columns fips_mix s) /\
  InvMixColumns s = Some (tt, columns fips_unmix s) /\
  (forall x, byte x -> gmul x (ginv x) = if x =? 0 then 0 else 1).
Proof.
  intros Hkey Hl Hs; split; [by apply KeyExpansion_spec|]; split.
  { intros i Hi; rewrite <- Rcon_fips by done; by apply Rcon_byte. }
  split.
  { rewrite SubBytes_spec by done; do 2 f_equal; unfold sub_block; destruct Hs as [_ Hb].
    apply list_fmap_ext; intros i x Hx; by apply sub_fips, (Forall_lookup_1 _ _ _ _ Hb Hx). }
  rewrite (proj1 (MixColumns_spec s Hs)), (InvMixColumns_run s Hs).
  rewrite (columns_ext mix fips_mix), (columns_ext unmix fips_unmix); auto using mix_fips, unmix_fips; try apply Hs.
  do 2 (split; [done|]); intros x Hx; by apply sub_fips.
Qed.

(** C14: Decryption undoes encryption.  For every key and every block of
    sixteen bytes the key expansion, [Cipher] and [InvCipher] run to the end
    without an access outside their arrays, [Cipher] gives a block, and
    [InvCipher] gives back the block encrypted. *)
Theorem aes_inverse key rk0 s :
  block key -> Z.of_nat (length rk0) = AES_keyExpSize -> block s ->
  exists rk c, KeyExpansion key rk0 = Some (tt, rk) /\ Cipher rk s = Some (tt, c) /\ block c /\
    InvCipher rk c = Some (tt, s).
Proof.
  intros Hkey Hl Hs; destruct (KeyExpansion_spec key Hkey rk0 Hl) as (rk & E & Hx); pose proof (expanded_keys key rk Hx) as Hk.
  destruct (Cipher_spec rk Hk s Hs) as [Ec Hc].
  exists rk, (cipher rk s); split_and!; try done; by apply InvCipher_spec.
Qed.

(** The first vector of NIST SP 800-38A, which the source cites. *)
Definition nist_key : list Z :=
  [0x2b; 0x7e; 0x15; 0x16; 0x28; 0xae; 0xd2; 0xa6; 0xab; 0xf7; 0x15; 0x88; 0x09; 0xcf; 0x4f; 0x3c].
Definition nist_plain : list Z :=
  [0x6b; 0xc1; 0xbe; 0xe2; 0x2e; 0x40; 0x9f; 0x96; 0xe9; 0x3d; 0x7e; 0x11; 0x73; 0x93; 0x17; 0x2a].
Definition nist_cipher : list Z :=
  [0x3a; 0xd7; 0x7b; 0xb4; 0x0d; 0x7a; 0x36; 0x60; 0xa8; 0x9e; 0xca; 0xf3; 0x24; 0x66; 0xef; 0x97].

Lemma block_dec s : (length s =? 16)%nat && forallb (fun x => (0 <=? x) && (x <? 256)) s = true -> block s.
Proof.
  intros [Hl Hb]%andb_true_iff; apply Nat.eqb_eq in Hl; split; [done|].
  rewrite forallb_forall in Hb; apply Forall_forall; intros x Hx; apply list_elem_of_In, Hb in Hx; unfold in_range; zbool; lia.
Qed.

Lemma nist_blocks : block nist_key /\ block nist_plain.
Proof. split; apply block_dec; reflexivity. Qed.

Lemma nist_run : match KeyExpansion nist_key (replicate 176 0) with
  | Some (_, rk) => Cipher rk nist_plain | None => None end = Some (tt, nist_cipher).
Proof. vm_compute; reflexivity. Qed.

Lemma aes_steps_fips197_witness : exists rk, KeyExpansion nist_key (replicate 176 0) = Some (tt, rk) /\
  expanded nist_key AES_keyExpSize rk.
Proof. exact (proj1 (aes_steps_fips197 nist_key (replicate 176 0) nist_plain (proj1 nist_blocks) eq_refl (proj2 nist_blocks))). Defined.

Lemma aes_inverse_witness : exists rk, KeyExpansion nist_key (replicate 176 0) = Some (tt, rk) /\
  Cipher rk nist_plain = Some (tt, nist_cipher) /\ InvCipher rk nist_cipher = Some (tt, nist_plain).
Proof.
  destruct (aes_inverse nist_key (replicate 176 0) nist_plain (proj1 nist_blocks) eq_refl (proj2 nist_blocks))
    as (rk & c & E1 & E2 & _ & E3).
  pose proof nist_run as H; rewrite E1, E2 in H; injection H as ->; exists rk; split_and!; assumption.
Defined.
