(* ===== verification/AesCbc.v ===== *)
(** * AES in CBC mode (cherios/system/block_cache/src/aes.c)

    The context, encryption and decryption of a buffer in place.  The
    encryption's pointer to the previous cipher block points into the buffer
    it is writing. *)

From S2P Require Import Prelude Aes.

Record AES_ctx := mk_ctx { RoundKey : list Z; Iv : list Z }.

(** [memcpy (dst, src, AES_BLOCKLEN)] of a whole array. *)
Definition copy_block (src : list Z) : option (list Z) :=
  if Z.of_nat (length src) <? AES_BLOCKLEN then None else Some (take 16 src).

Definition AES_init_ctx (ctx : AES_ctx) (key : list Z) : option AES_ctx :=
  '(_, rk) ← KeyExpansion key (RoundKey ctx);
  Some (mk_ctx rk (Iv ctx)).

Definition AES_ctx_set_iv (ctx : AES_ctx) (iv : list Z) : option AES_ctx :=
  v ← copy_block iv;
  Some (mk_ctx (RoundKey ctx) v).

Definition AES_init_ctx_iv (ctx : AES_ctx) (key iv : list Z) : option AES_ctx :=
  ctx ← AES_init_ctx ctx key;
  AES_ctx_set_iv ctx iv.

(** The block at [pos] of a buffer, as a [state_t *] sees it, and a program
    run on it in place. *)
Definition block_at (buf : list Z) (pos : Z) : option (list Z) :=
  if (0 <=? pos) && (pos + AES_BLOCKLEN <=? Z.of_nat (length buf)) then Some (take 16 (drop (Z.to_nat pos) buf)) else None.

Definition set_block (buf : list Z) (pos : Z) (b : list Z) : list Z :=
  take (Z.to_nat pos) buf ++ b ++ drop (Z.to_nat pos + 16) buf.

Definition on_block (m : M unit) (buf : list Z) (pos : Z) : option (list Z) :=
  b ← block_at buf pos;
  '(_, b) ← m b;
  Some (set_block buf pos b).

Definition XorWithIv (iv : list Z) : M unit :=
  for_up 16 0 (fun i => x ← get i; y ← look iv i; put i (Z.lxor x y)).

(** What the local pointer [Iv] of the encryption points to: the array of
    the context or the block of the buffer just written. *)
Inductive iv_ptr := IvCtx | IvBuf (pos : Z).

Definition read_iv (ctx : AES_ctx) (buf : list Z) (p : iv_ptr) : option (list Z) :=
  match p with IvCtx => copy_block (Iv ctx) | IvBuf pos => block_at buf pos end.

(** The loop over [i], with [buf] at [pos]; the fuel is the number of blocks. *)
Fixpoint cbc_encrypt_loop (n : nat) (ctx : AES_ctx) (iv : iv_ptr) (buf : list Z) (pos i length : Z) :
    option (iv_ptr * list Z) :=
  if i <? length then
    match n with
    | O => None
    | S n =>
        v ← read_iv ctx buf iv;
        buf ← on_block (XorWithIv v) buf pos;
        buf ← on_block (Cipher (RoundKey ctx)) buf pos;
        cbc_encrypt_loop n ctx (IvBuf pos) buf (pos + AES_BLOCKLEN) (i + AES_BLOCKLEN) length
    end
  else Some (iv, buf).

Definition blocks (len : Z) : nat := Z.to_nat ((len + 15) / 16).

(** The length is a [uint32_t]. *)
Definition AES_CBC_encrypt_buffer (ctx : AES_ctx) (buf : list Z) (len : Z) : option (AES_ctx * list Z) :=
  let len := u32 len in
  '(iv, buf) ← cbc_encrypt_loop (blocks len) ctx IvCtx buf 0 0 len;
  v ← read_iv ctx buf iv;
  Some (mk_ctx (RoundKey ctx) v, buf).

Fixpoint cbc_decrypt_loop (n : nat) (ctx : AES_ctx) (buf : list Z) (pos i length : Z) :
    option (AES_ctx * list Z) :=
  if i <? length then
    match n with
    | O => None
    | S n =>
        storeNextIv ← block_at buf pos;
        buf ← on_block (InvCipher (RoundKey ctx)) buf pos;
        buf ← on_block (XorWithIv (Iv ctx)) buf pos;
        cbc_decrypt_loop n (mk_ctx (RoundKey ctx) storeNextIv) buf (pos + AES_BLOCKLEN) (i + AES_BLOCKLEN) length
    end
  else Some (ctx, buf).

Definition AES_CBC_decrypt_buffer (ctx : AES_ctx) (buf : list Z) (len : Z) : option (AES_ctx * list Z) :=
  let len := u32 len in
  cbc_decrypt_loop (blocks len) ctx buf 0 0 len.

(** ** One block of a buffer *)

Lemma block_at_app pre b post : length b = 16%nat -> block_at (pre ++ b ++ post) (Z.of_nat (length pre)) = Some b.
Proof.
  intros Hb; unfold block_at, AES_BLOCKLEN; rewrite !length_app, Hb, (proj2 (Z.leb_le 0 _)) by lia.
  rewrite (proj2 (Z.leb_le _ _)) by lia; cbn [andb]; f_equal; rewrite Nat2Z.id, drop_app_length, take_app_le, take_ge by lia; done.
Qed.

Lemma on_block_app m pre b b' post : length b = 16%nat -> m b = Some (tt, b') ->
  on_block m (pre ++ b ++ post) (Z.of_nat (length pre)) = Some (pre ++ b' ++ post).
Proof.
  intros Hb E; unfold on_block; rewrite block_at_app by done; cbn; rewrite E; cbn; unfold set_block.
  rewrite Nat2Z.id, take_app_length; do 3 f_equal.
  by rewrite <- drop_drop, drop_app_length, <- Hb, drop_app_length.
Qed.

Lemma copy_block_ok v : block v -> copy_block v = Some v.
Proof. intros [Hl _]; unfold copy_block, AES_BLOCKLEN; rewrite Hl; cbn; f_equal; apply take_ge; lia. Qed.

Lemma XorWithIv_spec v s : block v -> block s -> XorWithIv v s = Some (tt, add_block v s) /\ block (add_block v s).
Proof. intros Hv Hs; block_vars s Hs; block_vars v Hv; split; [run; reflexivity|split; [done|cbn; bytes]]. Qed.

(** ** CBC on lists of blocks *)

Fixpoint cbc_enc (rk iv : list Z) (bs : list (list Z)) {struct bs} : list (list Z) :=
  match bs with
  | [] => []
  | b :: bs => let c := cipher rk (add_block iv b) in c :: cbc_enc rk c bs
  end.

Definition last_block (iv : list Z) (cs : list (list Z)) : list Z := default iv (last cs).

Lemma last_block_cons iv c cs : last_block iv (c :: cs) = last_block c cs.
Proof. unfold last_block; rewrite last_cons; by destruct (last cs). Qed.

Lemma last_block_ok iv cs : block iv -> Forall block cs -> block (last_block iv cs).
Proof.
  intros Hiv Hcs; unfold last_block; destruct (last cs) as [c|] eqn:E; [|done].
  apply last_Some in E as [l ->]; apply Forall_app in Hcs as [_ Hc]; by apply Forall_cons_1 in Hc as [? _].
Qed.

#[global] Arguments cipher : simpl never.
#[global] Arguments add_block : simpl never.

Section cbc.
Context (rk : list Z) (Hrk : keys rk).

Lemma cbc_enc_blocks iv bs : block iv -> Forall block bs -> Forall block (cbc_enc rk iv bs) /\ length (cbc_enc rk iv bs) = length bs.
Proof.
  intros Hiv Hbs; revert iv Hiv; induction Hbs as [|b bs Hb _ IH]; intros iv Hiv; [done|]; cbn [cbc_enc].
  pose proof (proj2 (Cipher_spec rk Hrk _ (proj2 (XorWithIv_spec iv b Hiv Hb)))) as Hc.
  destruct (IH _ Hc) as [H1 H2]; split; [by constructor|cbn [length]; by rewrite H2].
Qed.

(** What the pointer designates stays in place while later blocks change. *)
Definition points (civ pre : list Z) (p : iv_ptr) (v : list Z) : Prop :=
  forall post, read_iv (mk_ctx rk civ) (pre ++ post) p = Some v.

Lemma points_ctx civ pre : block civ -> points civ pre IvCtx civ.
Proof. intros H post; cbn; by apply copy_block_ok. Qed.

Lemma points_buf civ pre b : length b = 16%nat -> points civ (pre ++ b) (IvBuf (Z.of_nat (length pre))) b.
Proof. intros H post; cbn [read_iv]; rewrite <- app_assoc; by apply block_at_app. Qed.

Lemma encrypt_loop civ bs pre p v pos i len n :
  Forall block bs -> block v -> points civ pre p v -> pos = Z.of_nat (length pre) ->
  len = i + 16 * Z.of_nat (length bs) -> (length bs <= n)%nat ->
  exists q, cbc_encrypt_loop n (mk_ctx rk civ) p (pre ++ concat bs) pos i len = Some (q, pre ++ concat (cbc_enc rk v bs)) /\
    points civ (pre ++ concat (cbc_enc rk v bs)) q (last_block v (cbc_enc rk v bs)).
Proof.
  intros Hbs; revert pre p v pos i n; induction Hbs as [|b bs Hb _ IH]; intros pre p v pos i n Hv Hp -> -> Hn.
  { exists p; cbn [concat cbc_enc]; rewrite app_nil_r; split; [|done].
    destruct n; cbn [cbc_encrypt_loop length]; by rewrite (proj2 (Z.ltb_ge _ _)) by lia. }
  destruct n as [|n]; [cbn in Hn; lia|]; cbn [cbc_encrypt_loop concat cbc_enc].
  rewrite (proj2 (Z.ltb_lt _ _)) by (cbn; lia); rewrite (Hp (b ++ concat bs)); cbn [mbind option_bind].
  destruct (XorWithIv_spec v b Hv Hb) as [E1 H1]; destruct (Cipher_spec rk Hrk _ H1) as [E2 H2].
  rewrite (on_block_app _ _ _ _ _ (block_length _ Hb) E1); cbn [mbind option_bind].
  rewrite (on_block_app _ _ _ _ _ (block_length _ H1) E2); cbn [mbind option_bind].
  destruct (IH (pre ++ cipher rk (add_block v b)) (IvBuf (Z.of_nat (length pre))) (cipher rk (add_block v b))
    (Z.of_nat (length pre) + AES_BLOCKLEN) (i + AES_BLOCKLEN) n) as (q & E & Hq).
  - done.
  - apply points_buf, H2.
  - rewrite length_app, (block_length _ H2); unfold AES_BLOCKLEN; lia.
  - unfold AES_BLOCKLEN; cbn [length]; lia.
  - cbn in Hn; lia.
  - exists q; rewrite last_block_cons, !app_assoc; split; [|done].
    rewrite <- E; f_equal; cbn [length]; unfold AES_BLOCKLEN; lia.
Qed.

(** What decryption with the vector [w] makes of blocks encrypted with [v]. *)
Definition first_wrong (w v : list Z) (bs : list (list Z)) : list (list Z) :=
  match bs with [] => [] | b :: bs => add_block w (add_block v b) :: bs end.

Lemma first_right v bs : block v -> Forall block bs -> first_wrong v v bs = bs.
Proof. intros Hv [|b bs' Hb _]; [done|]; cbn [first_wrong]; by rewrite add_block_cancel. Qed.

Lemma decrypt_loop bs pre w v pos i len n :
  Forall block bs -> block v -> block w -> pos = Z.of_nat (length pre) ->
  len = i + 16 * Z.of_nat (length bs) -> (length bs <= n)%nat ->
  cbc_decrypt_loop n (mk_ctx rk w) (pre ++ concat (cbc_enc rk v bs)) pos i len =
    Some (mk_ctx rk (last_block w (cbc_enc rk v bs)), pre ++ concat (first_wrong w v bs)).
Proof.
  intros Hbs; revert pre w v pos i n; induction Hbs as [|b bs Hb Hbs IH]; intros pre w v pos i n Hv Hw -> -> Hn.
  { destruct n; cbn [cbc_decrypt_loop length]; by rewrite (proj2 (Z.ltb_ge _ _)) by lia. }
  destruct n as [|n]; [cbn in Hn; lia|]; cbn [cbc_decrypt_loop concat cbc_enc first_wrong].
  destruct (XorWithIv_spec v b Hv Hb) as [_ H1]; destruct (Cipher_spec rk Hrk _ H1) as [_ H2].
  rewrite (proj2 (Z.ltb_lt _ _)) by (cbn; lia); rewrite block_at_app by apply H2; cbn [mbind option_bind].
  rewrite (on_block_app _ _ _ _ _ (block_length _ H2) (InvCipher_spec rk Hrk _ H1)); cbn [mbind option_bind].
  destruct (XorWithIv_spec w _ Hw H1) as [E3 H3].
  rewrite (on_block_app _ _ _ _ _ (block_length _ H1) E3); cbn [mbind option_bind RoundKey].
  rewrite last_block_cons, !app_assoc, (IH _ _ (cipher rk (add_block v b))); [by rewrite first_right|done..| | |cbn in Hn; lia].
  - rewrite length_app, (block_length _ H3); unfold AES_BLOCKLEN; lia.
  - unfold AES_BLOCKLEN; cbn [length]; lia.
Qed.
End cbc.

Lemma concat_length bs : Forall block bs -> Z.of_nat (length (concat bs)) = 16 * Z.of_nat (length bs).
Proof. induction 1 as [|b bs Hb _ IH]; [done|]; cbn [concat length]; rewrite length_app, (block_length _ Hb); lia. Qed.

Lemma blocks_enough (bs : list (list Z)) len : len = 16 * Z.of_nat (length bs) -> (length bs <= blocks len)%nat.
Proof.
  intros ->; unfold blocks; replace (16 * Z.of_nat (length bs) + 15) with (15 + Z.of_nat (length bs) * 16) by lia.
  rewrite Z.div_add by lia; change (15 / 16) with 0; lia.
Qed.

Lemma cbc_enc_app rk iv bs bs' :
  cbc_enc rk iv (bs ++ bs') = cbc_enc rk iv bs ++ cbc_enc rk (last_block iv (cbc_enc rk iv bs)) bs'.
Proof.
  revert iv; induction bs as [|b bs IH]; intros iv; [done|].
  cbn [cbc_enc app]; by rewrite last_block_cons, IH.
Qed.

Section buffers.
Context (rk iv : list Z) (Hrk : keys rk) (Hiv : block iv).

Lemma encrypt_buffer bs : 16 * Z.of_nat (length bs) < 2 ^ 32 -> Forall block bs ->
  AES_CBC_encrypt_buffer (mk_ctx rk iv) (concat bs) (16 * Z.of_nat (length bs)) =
    Some (mk_ctx rk (last_block iv (cbc_enc rk iv bs)), concat (cbc_enc rk iv bs)).
Proof.
  intros HL Hbs; unfold AES_CBC_encrypt_buffer; rewrite wrap_small by (unfold in_range; lia); cbv zeta.
  destruct (encrypt_loop rk Hrk iv bs [] IvCtx iv 0 0 (16 * Z.of_nat (length bs)) (blocks (16 * Z.of_nat (length bs))))
    as (q & E & Hq); [done|done|by apply points_ctx|done|lia|by apply blocks_enough|].
  cbn [app] in E, Hq; rewrite E; cbn [mbind option_bind]; specialize (Hq []); rewrite app_nil_r in Hq; by rewrite Hq.
Qed.

Lemma decrypt_buffer w bs : 16 * Z.of_nat (length bs) < 2 ^ 32 -> block w -> Forall block bs ->
  AES_CBC_decrypt_buffer (mk_ctx rk w) (concat (cbc_enc rk iv bs)) (16 * Z.of_nat (length bs)) =
    Some (mk_ctx rk (last_block w (cbc_enc rk iv bs)), concat (first_wrong w iv bs)).
Proof.
  intros HL Hw Hbs; unfold AES_CBC_decrypt_buffer; rewrite wrap_small by (unfold in_range; lia); cbv zeta.
  apply (decrypt_loop rk Hrk bs [] w iv); try done; by apply blocks_enough.
Qed.

End buffers.

Lemma init_ctx_ok ctx0 key iv :
  block key -> block iv -> Z.of_nat (length (RoundKey ctx0)) = AES_keyExpSize ->
  exists rk, AES_init_ctx_iv ctx0 key iv = Some (mk_ctx rk iv) /\ expanded key AES_keyExpSize rk.
Proof.
  intros Hkey Hiv Hl; destruct (KeyExpansion_spec key Hkey _ Hl) as (rk & E & Hx); exists rk; split; [|done].
  unfold AES_init_ctx_iv, AES_init_ctx, AES_ctx_set_iv; rewrite E; cbn [mbind option_bind]; by rewrite copy_block_ok.
Qed.

(** C16: CBC.  A context made from any key and vector encrypts any sequence of
    blocks shorter than 4 GiB in all in place, without a trap; encrypting it in two calls is the same
    as in one; decrypting the result with a fresh context gives the blocks
    back and leaves the context as the encryption left it.  Decrypted with a
    context whose vector has moved on (as the block cache does when it reads
    back what it wrote) the first block comes out masked with both vectors
    and the others are right. *)
Theorem cbc_roundtrip ctx0 key iv bs bs' w :
  block key -> block iv -> block w -> Z.of_nat (length (RoundKey ctx0)) = AES_keyExpSize ->
  Forall block bs -> Forall block bs' -> 16 * Z.of_nat (length (bs ++ bs')) < 2 ^ 32 ->
  exists ctx ctx1 ctx2 c c',
    AES_init_ctx_iv ctx0 key iv = Some ctx /\
    AES_CBC_encrypt_buffer ctx (concat bs) (16 * Z.of_nat (length bs)) = Some (ctx1, c) /\
    AES_CBC_encrypt_buffer ctx1 (concat bs') (16 * Z.of_nat (length bs')) = Some (ctx2, c') /\
    AES_CBC_encrypt_buffer ctx (concat (bs ++ bs')) (16 * Z.of_nat (length (bs ++ bs'))) = Some (ctx2, c ++ c') /\
    AES_CBC_decrypt_buffer ctx c (16 * Z.of_nat (length bs)) = Some (ctx1, concat bs) /\
    AES_CBC_decrypt_buffer (mk_ctx (RoundKey ctx) w) c (16 * Z.of_nat (length bs)) =
      Some (mk_ctx (RoundKey ctx) (last_block w (cbc_enc (RoundKey ctx) iv bs)), concat (first_wrong w iv bs)).
Proof.
  intros Hkey Hiv Hw Hl Hbs Hbs' HL; pose proof HL as HL'; rewrite length_app in HL'; destruct (init_ctx_ok ctx0 key iv Hkey Hiv Hl) as (rk & E & Hx).
  pose proof (expanded_keys key rk Hx) as Hrk; destruct (cbc_enc_blocks rk Hrk iv bs Hiv Hbs) as [Hcs _].
  set (v := last_block iv (cbc_enc rk iv bs)).
  assert (Hv : block v) by (by apply last_block_ok).
  eexists (mk_ctx rk iv), (mk_ctx rk v), (mk_ctx rk (last_block v (cbc_enc rk v bs'))), (concat (cbc_enc rk iv bs)), (concat (cbc_enc rk v bs')).
  split; [done|]; split; [apply encrypt_buffer; done || lia|]; split; [apply encrypt_buffer; done || lia|].
  split; [|split; [|apply decrypt_buffer; done || lia]].
  - rewrite encrypt_buffer, cbc_enc_app, concat_app by (done || by apply Forall_app_2); fold v.
    unfold last_block at 1; rewrite last_app; unfold last_block; by destruct (last (cbc_enc rk v bs')).
  - rewrite decrypt_buffer, first_right by (done || lia); done.
Qed.

Lemma cbc_roundtrip_witness : exists ctx ctx1 c,
  AES_init_ctx_iv (mk_ctx (replicate 176 0) []) nist_key nist_cipher = Some ctx /\
  AES_CBC_encrypt_buffer ctx (concat [nist_plain; nist_key]) 32 = Some (ctx1, c) /\
  AES_CBC_decrypt_buffer ctx c 32 = Some (ctx1, concat [nist_plain; nist_key]).
Proof.
  destruct (cbc_roundtrip (mk_ctx (replicate 176 0) []) nist_key nist_cipher [nist_plain; nist_key] [] nist_key
    (proj1 nist_blocks) (block_dec nist_cipher eq_refl) (proj1 nist_blocks) eq_refl
    (Forall_cons_2 _ _ _ (proj2 nist_blocks) (Forall_cons_2 _ _ _ (proj1 nist_blocks) (Forall_nil_2 _))) (Forall_nil_2 _) eq_refl)
    as (ctx & ctx1 & _ & c & _ & E1 & E2 & _ & _ & E3 & _).
  exists ctx, ctx1, c; split; [exact E1|]; split; [exact E2|exact E3].
Defined.
