(* ===== verification/RingBuf.v ===== *)
(** * Ring buffers (include/ringbuffers.h)

    The macros generate a buffer, a head and a tail of a chosen index type.
    The indices run freely and wrap at the width of that type; a slot is the
    index masked with the size.  Index types narrower than [int] are promoted
    before the subtraction in [RINGBUF_FILL], so it does not wrap. *)

From S2P Require Import Prelude.

Record ring (A : Type) := mk_ring { rb_hd : Z; rb_tl : Z; rb_buf : list A }.
Arguments mk_ring {A} _ _ _.
Arguments rb_hd {A} _.
Arguments rb_tl {A} _.
Arguments rb_buf {A} _.

Section ring.
Context {A : Type} (w : Z).
Implicit Type r : ring A.

Definition RINGBUF_SZ r : Z := Z.of_nat (length (rb_buf r)).

Definition RINGBUF_SLOT r (n : Z) : Z := Z.land n (RINGBUF_SZ r - 1).
Definition RINGBUF_EL r (n : Z) : option A := zget (rb_buf r) (RINGBUF_SLOT r n).

Definition RINGBUF_FILL r : Z :=
  if w <? 32 then rb_tl r - rb_hd r else wrap w (rb_tl r - rb_hd r).

Definition RINGBUF_EMPTY r : bool := rb_tl r =? rb_hd r.
Definition RINGBUF_FULL r : bool := RINGBUF_SZ r =? RINGBUF_FILL r.

(** [*RINGBUF_PUSH(...) = x]; [Some None] is the null pointer. *)
Definition RINGBUF_PUSH r (x : A) : option (option (ring A)) :=
  if RINGBUF_FULL r then Some None
  else
    buf ← zput (rb_buf r) (RINGBUF_SLOT r (rb_tl r)) x;
    Some (Some (mk_ring (rb_hd r) (wrap w (rb_tl r + 1)) buf)).

Definition RINGBUF_NEXT r : ring A := mk_ring (wrap w (rb_hd r + 1)) (rb_tl r) (rb_buf r).

Definition RINGBUF_POP r : option (A * ring A) :=
  x ← RINGBUF_EL r (rb_hd r);
  Some (x, RINGBUF_NEXT r).

(** ** The queue a ring holds *)

Definition count r : Z := wrap w (rb_tl r - rb_hd r).

Record ring_ok r : Prop := {
  rk_width : 0 < w;
  rk_hd : in_range w (rb_hd r);
  rk_tl : in_range w (rb_tl r);
  rk_size : exists b, 0 <= b < w /\ RINGBUF_SZ r = 2 ^ b;
  rk_count : count r <= RINGBUF_SZ r
}.

Definition contents r : list A :=
  omap (fun i => RINGBUF_EL r (rb_hd r + Z.of_nat i)) (seq 0 (Z.to_nat (count r))).

(** ** Slots *)

Lemma slot_mod r b n : 0 <= b -> RINGBUF_SZ r = 2 ^ b -> RINGBUF_SLOT r n = n mod 2 ^ b.
Proof.
  intros Hb Hs; unfold RINGBUF_SLOT; rewrite Hs; replace (2 ^ b - 1) with (Z.ones b) by (rewrite Z.ones_equiv; lia).
  by apply Z.land_ones.
Qed.

Lemma mod_wrap b n : 0 <= b < w -> wrap w n mod 2 ^ b = n mod 2 ^ b.
Proof.
  intros Hb; unfold wrap; rewrite <- (Znumtheory.Zmod_div_mod (2 ^ b) (2 ^ w)); [done|apply Z.pow_pos_nonneg; lia..|].
  exists (2 ^ (w - b)); rewrite <- Z.pow_add_r by lia; f_equal; lia.
Qed.

Lemma el_mod r n n' : ring_ok r -> wrap w n = wrap w n' -> RINGBUF_EL r n = RINGBUF_EL r n'.
Proof.
  intros [_ _ _ (b & Hb & Hs) _] E; unfold RINGBUF_EL; rewrite !(slot_mod r b) by (done || lia).
  by rewrite <- (mod_wrap b n), E, mod_wrap.
Qed.

Lemma el_total r n : ring_ok r -> exists x, RINGBUF_EL r n = Some x.
Proof.
  intros [_ _ _ (b & Hb & Hs) _]; apply zget_is_Some; rewrite (slot_mod r b) by (done || lia).
  unfold RINGBUF_SZ in Hs; rewrite Hs; apply Z.mod_pos_bound, Z.pow_pos_nonneg; lia.
Qed.

Lemma count_range r : ring_ok r -> 0 <= count r < 2 ^ w.
Proof. intros [Hw _ _ _ _]; apply wrap_range; lia. Qed.

Lemma size_range r : ring_ok r -> 0 < RINGBUF_SZ r < 2 ^ w.
Proof. intros [_ _ _ (b & Hb & ->) _]; split; [apply Z.pow_pos_nonneg; lia|apply Z.pow_lt_mono_r; lia]. Qed.

(** The tail is the head and the number of elements. *)
Lemma tl_count r : ring_ok r -> wrap w (rb_hd r + count r) = rb_tl r.
Proof.
  intros [Hw _ Ht _ _]; unfold count; rewrite Z.add_comm, wrap_add_l by lia.
  rewrite Z.sub_add; by apply wrap_small.
Qed.

Lemma slots_differ r i j : ring_ok r -> 0 <= i < RINGBUF_SZ r -> 0 <= j < RINGBUF_SZ r -> i <> j ->
  RINGBUF_SLOT r (rb_hd r + i) <> RINGBUF_SLOT r (rb_hd r + j).
Proof.
  intros [_ _ _ (b & Hb & Hs) _]; rewrite !(slot_mod r b), Hs by (done || lia); intros Hi Hj Hne E; apply Hne.
  assert (E' : (rb_hd r + i - rb_hd r) mod 2 ^ b = (rb_hd r + j - rb_hd r) mod 2 ^ b)
    by (by rewrite <- (Zminus_mod_idemp_l (_ + i)), E, Zminus_mod_idemp_l).
  rewrite !Z.add_simpl_l, !Z.mod_small in E' by lia; done.
Qed.

(** The test for a full ring, when it is not. *)
Lemma not_full r : ring_ok r -> count r < RINGBUF_SZ r -> RINGBUF_FULL r = false.
Proof.
  intros Hr Hc; pose proof (size_range r Hr); apply Z.eqb_neq; unfold RINGBUF_FILL; intros E.
  destruct (w <? 32); [|unfold count in Hc; lia].
  unfold count in Hc; rewrite <- E, wrap_small in Hc by (unfold in_range; lia); lia.
Qed.

(** ... and when it is. *)
Lemma full_test r : ring_ok r -> count r = RINGBUF_SZ r -> RINGBUF_FULL r = negb ((w <? 32) && (rb_tl r <? rb_hd r)).
Proof.
  intros Hr Hc; destruct (w <? 32) eqn:Ew.
  - unfold RINGBUF_FULL, RINGBUF_FILL; rewrite Ew; cbn [andb]; pose proof (size_range r Hr).
    destruct Hr as [Hw Hh Ht _ _]; unfold in_range in *; destruct (Z.ltb_spec (rb_tl r) (rb_hd r)) as [Hlt|Hge]; cbn [negb].
    + apply Z.eqb_neq; lia.
    + apply Z.eqb_eq; rewrite <- Hc; apply wrap_small; unfold in_range; lia.
  - unfold RINGBUF_FULL, RINGBUF_FILL; rewrite Ew; cbn [andb negb]; apply Z.eqb_eq; by rewrite <- Hc.
Qed.

(** Writing at the tail. *)
Lemma push_write r x : ring_ok r -> RINGBUF_FULL r = false -> exists buf,
  zput (rb_buf r) (RINGBUF_SLOT r (rb_tl r)) x = Some buf /\
  RINGBUF_PUSH r x = Some (Some (mk_ring (rb_hd r) (wrap w (rb_tl r + 1)) buf)).
Proof.
  intros Hr Hf; destruct (el_total r (rb_tl r) Hr) as [y Hy].
  pose proof (zput_is_Some _ _ x (zget_Some_range _ _ _ Hy)) as Hp; eexists; split; [exact Hp|].
  unfold RINGBUF_PUSH; by rewrite Hf, Hp.
Qed.

Lemma count_succ r : ring_ok r -> count r + 1 < 2 ^ w ->
  wrap w (wrap w (rb_tl r + 1) - rb_hd r) = count r + 1.
Proof.
  intros Hr Hc; pose proof (count_range r Hr); destruct Hr as [Hw _ _ _ _].
  rewrite wrap_sub_l by lia; replace (rb_tl r + 1 - rb_hd r) with (rb_tl r - rb_hd r + 1) by lia.
  rewrite <- wrap_add_l by lia; apply wrap_small; unfold in_range, count in *; lia.
Qed.

Lemma slot_tl r : ring_ok r -> RINGBUF_SLOT r (rb_tl r) = RINGBUF_SLOT r (rb_hd r + count r).
Proof.
  intros Hr; pose proof (tl_count r Hr) as E; destruct Hr as [_ _ _ (b & Hb & Hs) _].
  rewrite !(slot_mod r b) by (done || lia); by rewrite <- E, mod_wrap.
Qed.

Lemma omap_seq_ext (f g : nat -> option A) n m :
  (forall i, (n <= i < n + m)%nat -> f i = g i) -> omap f (seq n m) = omap g (seq n m).
Proof.
  revert n; induction m as [|m IH]; intros n H; [done|]; cbn; rewrite (H n) by lia.
  rewrite (IH (S n)) by (intros; apply H; lia); done.
Qed.

Lemma omap_seq_shift (f g : nat -> option A) n m :
  (forall i, (n <= i < n + m)%nat -> f (S i) = g i) -> omap f (seq (S n) m) = omap g (seq n m).
Proof.
  revert n; induction m as [|m IH]; intros n H; [done|]; cbn; rewrite (H n) by lia.
  rewrite (IH (S n)) by (intros; apply H; lia); done.
Qed.

Lemma push_ok r x : ring_ok r -> count r < RINGBUF_SZ r ->
  exists r', RINGBUF_PUSH r x = Some (Some r') /\ ring_ok r' /\ rb_hd r' = rb_hd r /\
    RINGBUF_SZ r' = RINGBUF_SZ r /\ count r' = count r + 1 /\ contents r' = contents r ++ [x].
Proof.
  intros Hr Hc; destruct (push_write r x Hr (not_full r Hr Hc)) as (buf & Hb & E).
  pose proof (count_range r Hr); pose proof (size_range r Hr).
  exists (mk_ring (rb_hd r) (wrap w (rb_tl r + 1)) buf); split; [done|].
  set (r' := mk_ring (rb_hd r) (wrap w (rb_tl r + 1)) buf).
  assert (Hsz : RINGBUF_SZ r' = RINGBUF_SZ r) by (unfold RINGBUF_SZ; cbn; by rewrite (zput_length _ _ _ _ Hb)).
  assert (Hcn : count r' = count r + 1) by (apply (count_succ r); [done|lia]).
  assert (Hel : forall i, 0 <= i <= count r ->
    RINGBUF_EL r' (rb_hd r + i) = if i =? count r then Some x else RINGBUF_EL r (rb_hd r + i)).
  { intros i Hi; unfold RINGBUF_EL, RINGBUF_SLOT; rewrite Hsz; fold (RINGBUF_SLOT r (rb_hd r + i)).
    rewrite (slot_tl r Hr) in Hb; destruct (Z.eqb_spec i (count r)) as [->|Hne]; [by apply (zget_zput_eq _ _ _ _ Hb)|].
    apply (zget_zput_ne _ _ _ _ _ Hb), slots_differ; [done|lia..]. }
  split.
  { destruct Hr as [Hw Hh Ht Hs Hcr]; split; try done; [apply wrap_range; lia|by rewrite Hsz|rewrite Hsz, Hcn; lia]. }
  do 3 (split; [done|]); unfold contents; rewrite Hcn; cbn [rb_hd].
  replace (Z.to_nat (count r + 1)) with (S (Z.to_nat (count r))) by lia; rewrite seq_S, omap_app; f_equal.
  - apply omap_seq_ext; intros i Hi; rewrite Hel, (proj2 (Z.eqb_neq _ _)) by lia; done.
  - cbn; rewrite Hel, (proj2 (Z.eqb_eq _ _)) by lia; done.
Qed.

Lemma pop_ok r : ring_ok r -> 0 < count r ->
  exists x r', RINGBUF_POP r = Some (x, r') /\ r' = RINGBUF_NEXT r /\ ring_ok r' /\
    RINGBUF_SZ r' = RINGBUF_SZ r /\ count r' = count r - 1 /\ contents r = x :: contents r' /\ RINGBUF_EL r (rb_hd r) = Some x.
Proof.
  intros Hr Hc; destruct (el_total r (rb_hd r) Hr) as [x Hx]; pose proof (count_range r Hr); pose proof (rk_width _ Hr).
  exists x, (RINGBUF_NEXT r); split; [unfold RINGBUF_POP; by rewrite Hx|]; split; [done|].
  assert (Hcn : count (RINGBUF_NEXT r) = count r - 1).
  { unfold count, RINGBUF_NEXT; cbn; rewrite wrap_sub_r.
    replace (rb_tl r - (rb_hd r + 1)) with (rb_tl r - rb_hd r - 1) by lia; rewrite <- wrap_sub_l by lia.
    apply wrap_small; unfold in_range, count in *; lia. }
  assert (Hok : ring_ok (RINGBUF_NEXT r)).
  { destruct Hr as [Hw Hh Ht Hs Hcr]; split; try done; [apply wrap_range; lia|].
    rewrite Hcn; change (RINGBUF_SZ (RINGBUF_NEXT r)) with (RINGBUF_SZ r); lia. }
  do 2 (split; [done|]); split; [done|]; split; [|done].
  unfold contents; rewrite Hcn; replace (Z.to_nat (count r)) with (S (Z.to_nat (count r - 1))) by lia.
  cbn [seq omap list_omap]; rewrite Z.add_0_r, Hx; f_equal; apply omap_seq_shift; intros i Hi.
  transitivity (RINGBUF_EL r (rb_hd (RINGBUF_NEXT r) + Z.of_nat i)); [|done].
  apply el_mod; [done|]; unfold RINGBUF_NEXT; cbn [rb_hd]; rewrite wrap_add_l by lia; f_equal; lia.
Qed.

Lemma length_contents r : ring_ok r -> Z.of_nat (length (contents r)) = count r.
Proof.
  intros Hr; unfold contents; pose proof (count_range r Hr).
  cut (forall n m, length (omap (fun i => RINGBUF_EL r (rb_hd r + Z.of_nat i)) (seq n m)) = m); [intros ->; lia|].
  intros n m; revert n; induction m as [|m IH]; intros n; [done|]; cbn.
  destruct (el_total r (rb_hd r + Z.of_nat n) Hr) as [x ->]; cbn; by rewrite IH.
Qed.

(** A push onto a full ring whose tail has wrapped and whose head has not. *)
Lemma push_overwrites r x : ring_ok r -> w < 32 -> count r = RINGBUF_SZ r -> rb_tl r < rb_hd r ->
  exists r', RINGBUF_PUSH r x = Some (Some r') /\ RINGBUF_EL r' (rb_hd r') = Some x.
Proof.
  intros Hr Hw Hc Ht; destruct (push_write r x Hr) as (buf & Hb & E).
  { rewrite full_test by done; by rewrite (proj2 (Z.ltb_lt w 32)), (proj2 (Z.ltb_lt (rb_tl r) _)) by done. }
  eexists; split; [exact E|]; unfold RINGBUF_EL; cbn [rb_hd rb_buf].
  assert (Hs : RINGBUF_SLOT r (rb_tl r) = RINGBUF_SLOT r (rb_hd r)).
  { rewrite (slot_tl r Hr), Hc; destruct Hr as [_ _ _ (b & Hb' & Hs) _]; rewrite !(slot_mod r b), Hs by (done || lia).
    rewrite <- (Z.mul_1_l (2 ^ b)) at 1; apply Z_mod_plus_full. }
  rewrite Hs in Hb; unfold RINGBUF_SLOT, RINGBUF_SZ in *; cbn; rewrite (zput_length _ _ _ _ Hb); by apply (zget_zput_eq _ _ _ _ Hb).
Qed.
End ring.

(** C34: A ring buffer of any power-of-two size below the range of its index
    type is a bounded queue: while it is not full a push succeeds and appends,
    and a pop takes the oldest element; the indices may wrap.  A full ring
    refuses a push unless the index type is narrower than [int] and the tail
    has wrapped but the head has not: then the test for full fails, since the
    promoted difference is negative, and the push overwrites the oldest
    element. *)
Theorem ring_is_queue {A} (w : Z) (r : ring A) (x : A) : ring_ok w r ->
  (count w r < RINGBUF_SZ r -> exists r', RINGBUF_PUSH w r x = Some (Some r') /\ ring_ok w r' /\
     contents w r' = contents w r ++ [x]) /\
  (0 < count w r -> exists y r', RINGBUF_POP w r = Some (y, r') /\ ring_ok w r' /\ contents w r = y :: contents w r') /\
  (RINGBUF_EMPTY r = true <-> contents w r = []) /\
  (count w r = RINGBUF_SZ r -> w < 32 /\ rb_tl r < rb_hd r ->
     exists r', RINGBUF_PUSH w r x = Some (Some r') /\ RINGBUF_EL r' (rb_hd r') = Some x) /\
  (count w r = RINGBUF_SZ r -> ~ (w < 32 /\ rb_tl r < rb_hd r) -> RINGBUF_PUSH w r x = Some None).
Proof.
  intros Hr; split_and!.
  - intros Hc; destruct (push_ok w r x Hr Hc) as (r' & E & Hr' & _ & _ & _ & H); by exists r'.
  - intros Hc; destruct (pop_ok w r Hr Hc) as (y & r' & E & _ & Hr' & _ & _ & H & _); by exists y, r'.
  - pose proof (length_contents w r Hr) as Hl; unfold RINGBUF_EMPTY; rewrite Z.eqb_eq; split.
    + intros E; apply length_zero_iff_nil; unfold count in Hl; rewrite E, Z.sub_diag in Hl; change (wrap w 0) with 0 in Hl; lia.
    + intros E; rewrite E in Hl; rewrite <- (tl_count w r Hr), <- Hl; cbn; rewrite Z.add_0_r; apply wrap_small, Hr.
  - intros Hc [Hw Ht]; by apply push_overwrites.
  - intros Hc Hn; unfold RINGBUF_PUSH; rewrite full_test by done.
    destruct (Z.ltb_spec w 32), (Z.ltb_spec (rb_tl r) (rb_hd r)); try done; lia.
Qed.

(** Full at the wrap-around of a byte index. *)
Definition wrapped_ring : ring Z := mk_ring 254 2 [10; 11; 12; 13].

Lemma wrapped_ring_ok : ring_ok 8 wrapped_ring.
Proof. split; [done..| |done]; by exists 2. Qed.

Lemma ring_is_queue_witness :
  contents 8 wrapped_ring = [12; 13; 10; 11] /\ RINGBUF_FULL 8 wrapped_ring = false /\
  exists r', RINGBUF_PUSH 8 wrapped_ring 7 = Some (Some r') /\ RINGBUF_EL r' (rb_hd r') = Some 7.
Proof.
  split; [reflexivity|]; split; [reflexivity|].
  destruct (ring_is_queue 8 wrapped_ring 7 wrapped_ring_ok) as (_ & _ & _ & H & _).
  apply H; [reflexivity|split; reflexivity].
Defined.
