(* ===== verification/BlockCache.v ===== *)
(** * The block cache (cherios/system/block_cache/src/main.c)

    One session: the map of cached blocks, the ring of reads sent to the
    driver and the ring of requests that wait for a block.  The driver is the
    environment: it fills the oldest block asked for and raises the
    acknowledgement counter.  Client buffers are named by numbers.  The block
    size is a parameter of the model; the source has 2^20 bytes. *)

From S2P Require Import Prelude Aes AesCbc RingBuf.

Definition SECTOR_SIZE : Z := 512.
Definition RB_SIZE : nat := 32.
Abbreviation RB := 8.

Record io_callback_t := mk_cb { cb_sector : Z; cb_is_write : bool; cb_sync_ret : Z; cb_buf : Z }.

Record block_cache_ent_t := mk_ent { data : list Z; is_complete : bool }.

Record session_t := mk_session {
  should_poll : bool;
  callbacks : ring io_callback_t;
  blockreads : ring Z;
  blockreads_ack : Z;
  block_cache : list (option block_cache_ent_t)
}.

(** The session, the requests the driver has not served, the buffers of the
    clients and the callers answered, oldest first. *)
Record world := mk_world {
  ses : session_t;
  reads : list Z;
  bufs : gmap Z (list Z);
  answered : list Z
}.

Definition set_ses (w : world) (s : session_t) : world := mk_world s (reads w) (bufs w) (answered w).

Definition set_cache (w : world) (c : list (option block_cache_ent_t)) : world :=
  let s := ses w in
  set_ses w (mk_session (should_poll s) (callbacks s) (blockreads s) (blockreads_ack s) c).

(** ** Copying *)

(** [n] bytes of [l] at [off], and [l] with them replaced; a range outside
    the array traps. *)
Definition slice (l : list Z) (off n : Z) : option (list Z) :=
  if (0 <=? off) && (0 <=? n) && (off + n <=? Z.of_nat (length l))
  then Some (take (Z.to_nat n) (drop (Z.to_nat off) l)) else None.

Definition splice (l : list Z) (off : Z) (b : list Z) : option (list Z) :=
  if (0 <=? off) && (off + Z.of_nat (length b) <=? Z.of_nat (length l))
  then Some (take (Z.to_nat off) l ++ b ++ drop (Z.to_nat off + length b) l) else None.

(** [cpy] between a client buffer and a block at [off]: the new buffer and
    the new block. *)
Definition cpy (buf block : list Z) (off : Z) (is_write : bool) (to_copy : Z) : option (list Z * list Z) :=
  if is_write then
    b ← slice buf 0 to_copy;
    block ← splice block off b;
    Some (buf, block)
  else
    b ← slice block off to_copy;
    buf ← splice buf 0 b;
    Some (buf, block).

Section cache.
Context (BLOCK_BITS : Z).

Definition BLOCK_SIZE : Z := Z.shiftl 1 BLOCK_BITS.

Definition map_index (addr : Z) : Z := Z.shiftr addr BLOCK_BITS.
Definition map_offset (addr : Z) : Z := Z.land addr (BLOCK_SIZE - 1).

(** A fresh block is zeroed memory. *)
Definition new_ent : block_cache_ent_t := mk_ent (replicate (Z.to_nat BLOCK_SIZE) 0) false.

(** Waits until the driver's ring has room, then asks for the block; a full
    ring of reads is a null pointer written through. *)
Definition new_block (w : world) (index : Z) : option world :=
  c ← zput (block_cache (ses w)) index (Some new_ent);
  r ← RINGBUF_PUSH RB (blockreads (ses w)) index;
  rd ← r;
  Some (mk_world (mk_session true (callbacks (ses w)) rd (blockreads_ack (ses w)) c)
                 (reads w ++ [index]) (bufs w) (answered w)).

Inductive result := Done (code : Z) | Delayed.

(** Copy a sector of a complete block and answer. *)
Definition do_copy (w : world) (index : Z) (ent : block_cache_ent_t) (off buf : Z) (is_write : bool) : option world :=
  b ← bufs w !! buf;
  '(b, d) ← cpy b (data ent) off is_write SECTOR_SIZE;
  c ← zput (block_cache (ses w)) index (Some (mk_ent d (is_complete ent)));
  let w := set_cache w c in
  Some (mk_world (ses w) (reads w) (<[buf := b]> (bufs w)) (answered w)).

Definition answer (w : world) (caller : Z) : world :=
  mk_world (ses w) (reads w) (bufs w) (answered w ++ [caller]).

Definition push_callback (w : world) (cb : io_callback_t) : option (option world) :=
  r ← RINGBUF_PUSH RB (callbacks (ses w)) cb;
  match r with
  | None => Some None
  | Some cbs =>
      let s := ses w in
      Some (Some (set_ses w (mk_session (should_poll s) cbs (blockreads s) (blockreads_ack s) (block_cache s))))
  end.

Definition rw_sector (w : world) (caller sector buf : Z) (is_write : bool) : option (world * result) :=
  let addr := u64 (sector * SECTOR_SIZE) in
  ent ← zget (block_cache (ses w)) (map_index addr);
  if match ent with Some e => negb (is_complete e) | None => true end then
    w ← match ent with None => new_block w (map_index addr) | Some _ => Some w end;
    r ← push_callback w (mk_cb sector is_write caller buf);
    match r with
    | None => Some (w, Done (-1))
    | Some w => Some (w, Delayed)
    end
  else
    e ← ent;
    w ← do_copy w (map_index addr) e (map_offset addr) buf is_write;
    Some (answer w caller, Done 0).

(** Mark the blocks the driver has acknowledged. *)
Fixpoint ack_reads (n : nat) (w : world) : option world :=
  let s := ses w in
  if rb_hd (blockreads s) =? wrap RB (blockreads_ack s) then Some w
  else
    match n with
    | O => None
    | S n =>
        if RINGBUF_EMPTY (blockreads s) then None
        else
          '(i, rd) ← RINGBUF_POP RB (blockreads s);
          e ← zget (block_cache s) i;
          e ← e;
          c ← zput (block_cache s) i (Some (mk_ent (data e) true));
          ack_reads n (set_ses w (mk_session (should_poll s) (callbacks s) rd (blockreads_ack s) c))
    end.

(** Serve the waiting requests up to the first whose block is not there. *)
Fixpoint run_callbacks (n : nat) (w : world) : option world :=
  let s := ses w in
  if RINGBUF_EMPTY (callbacks s) then Some w
  else
    match n with
    | O => None
    | S n =>
        cb ← RINGBUF_EL (callbacks s) (rb_hd (callbacks s));
        let addr := u64 (cb_sector cb * SECTOR_SIZE) in
        e ← zget (block_cache s) (map_index addr);
        e ← e;
        if negb (is_complete e) then Some w
        else
          w ← do_copy w (map_index addr) e (map_offset addr) (cb_buf cb) (cb_is_write cb);
          let w := answer w (cb_sync_ret cb) in
          let s := ses w in
          run_callbacks n (set_ses w (mk_session (should_poll s) (RINGBUF_NEXT RB (callbacks s)) (blockreads s)
                                        (blockreads_ack s) (block_cache s)))
    end.

Definition handle_callbacks (w : world) : option world :=
  w ← ack_reads 256 w;
  let s := ses w in
  let poll := if RINGBUF_EMPTY (blockreads s) then false else should_poll s in
  run_callbacks 256 (set_ses w (mk_session poll (callbacks s) (blockreads s) (blockreads_ack s) (block_cache s))).

(** The driver finishes the oldest read of block [i], whose bytes are
    [disk i]. *)
Definition driver_read (disk : Z -> list Z) (w : world) : option world :=
  match reads w with
  | [] => None
  | i :: rest =>
      let s := ses w in
      e ← zget (block_cache s) i;
      e ← e;
      c ← zput (block_cache s) i (Some (mk_ent (disk i) (is_complete e)));
      Some (mk_world (mk_session (should_poll s) (callbacks s) (blockreads s) (u64 (blockreads_ack s + 1)) c)
                     rest (bufs w) (answered w))
  end.

(** ** Sockets *)

(** A socket of a session: the address it is at, its direction, the block it
    waits for and the context of its key. *)
Record session_sock := mk_ss {
  addr : Z;
  user_write : bool;
  blocked : option Z;
  aes_ctx : option AES_ctx
}.

Definition set_ent (w : world) (i : Z) (d : list Z) : option world :=
  c ← zput (block_cache (ses w)) i (Some (mk_ent d true));
  Some (set_cache w c).

(** The block of an address, asked for when it is not cached; [None] in the
    second place when it is not complete. *)
Definition find_block (w : world) (i : Z) : option (world * option (list Z)) :=
  e ← zget (block_cache (ses w)) i;
  w ← match e with None => new_block w i | Some _ => Some w end;
  e ← zget (block_cache (ses w)) i;
  e ← e;
  Some (w, if is_complete e then Some (data e) else None).

(** Encrypt what a write put into the block, or decrypt what a read copied. *)
Definition ff_aes (ctx : option AES_ctx) (is_user_write : bool) (buf d : list Z) (off to_copy : Z) :
    option (option AES_ctx * list Z * list Z) :=
  match ctx with
  | None => Some (None, buf, d)
  | Some ctx =>
      if negb (Z.land to_copy (AES_BLOCKLEN - 1) =? 0) then None
      else if is_user_write then
        tail ← slice d off (Z.of_nat (length d) - off);
        '(ctx, tail) ← AES_CBC_encrypt_buffer ctx tail (u32 to_copy);
        d ← splice d off tail;
        Some (Some ctx, buf, d)
      else
        '(ctx, buf) ← AES_CBC_decrypt_buffer ctx buf (u32 to_copy);
        Some (Some ctx, buf, d)
  end.

(** The buffer is not advanced from one block to the next. *)
Fixpoint ff_loop (n : nat) (w : world) (ss : session_sock) (buf : list Z) (length copied : Z) :
    option (world * session_sock * list Z * Z) :=
  if length =? 0 then Some (w, ss, buf, copied)
  else
    match n with
    | O => None
    | S n =>
        let i := map_index (addr ss) in
        '(w, d) ← find_block w i;
        match d with
        | None => Some (w, mk_ss (addr ss) (user_write ss) (Some i) (aes_ctx ss), buf, copied)
        | Some d =>
            let off := map_offset (addr ss) in
            let biggest_copy := BLOCK_SIZE - off in
            let to_copy := if biggest_copy <? length then biggest_copy else length in
            '(buf, d) ← cpy buf d off (user_write ss) to_copy;
            '(ctx, buf, d) ← ff_aes (aes_ctx ss) (user_write ss) buf d off to_copy;
            w ← set_ent w i d;
            ff_loop n w (mk_ss (u64 (addr ss + to_copy)) (user_write ss) (blocked ss) ctx) buf
              (length - to_copy) (copied + to_copy)
        end
    end.

Definition ff (w : world) (ss : session_sock) (buf : list Z) (length : Z) :
    option (world * session_sock * list Z * Z) :=
  ff_loop (Z.to_nat (length / BLOCK_SIZE + 2)) w ss buf length 0.

(** Hands out a part of the cached block itself: its block, offset and
    length, decrypted in place; length zero when it has to wait. *)
Definition ff_sub (w : world) (ss : session_sock) (length : Z) :
    option (world * session_sock * (Z * Z * Z)) :=
  let i := map_index (addr ss) in
  let off := map_offset (addr ss) in
  '(w, d) ← find_block w i;
  match d with
  | None => Some (w, mk_ss (addr ss) (user_write ss) (Some i) (aes_ctx ss), (i, off, 0))
  | Some d =>
      let biggest_copy := BLOCK_SIZE - off in
      let to_copy := if biggest_copy <? length then biggest_copy else length in
      '(ctx, d) ← match aes_ctx ss with
                  | None => Some (None, d)
                  | Some ctx =>
                      if negb (Z.land to_copy (AES_BLOCKLEN - 1) =? 0) then None
                      else
                        tail ← slice d off (Z.of_nat (List.length d) - off);
                        '(ctx, tail) ← AES_CBC_decrypt_buffer ctx tail (u32 to_copy);
                        d ← splice d off tail;
                        Some (Some ctx, d)
                  end;
      w ← set_ent w i d;
      Some (w, mk_ss (u64 (addr ss + to_copy)) (user_write ss) (blocked ss) ctx, (i, off, to_copy))
  end.

Inductive whence := SEEK_SET | SEEK_CUR | SEEK_END.

(** The out-of-band requests: a seek, a new key (already unlocked, with its
    context), or none of these; [Some None] is the error. *)
Inductive oob := ReqSeek (offset : Z) (wh : whence) | ReqSetKey (key : option AES_ctx) | ReqFlush | ReqOther.

Definition oobff (ss : session_sock) (r : oob) : option (option session_sock) :=
  match r with
  | ReqSeek o SEEK_CUR => Some (Some (mk_ss (u64 (o + addr ss)) (user_write ss) (blocked ss) (aes_ctx ss)))
  | ReqSeek o SEEK_SET =>
      if o <? 0 then Some None else Some (Some (mk_ss o (user_write ss) (blocked ss) (aes_ctx ss)))
  | ReqSeek o SEEK_END => Some None
  | ReqSetKey k => Some (Some (mk_ss (addr ss) (user_write ss) (blocked ss) k))
  | ReqFlush => None
  | ReqOther => Some None
  end.

(** ** Writing back *)

(** The writes sent to the driver: the sector and the bytes of each complete
    block from index [i]. *)
Fixpoint writeback_from (i : Z) (c : list (option block_cache_ent_t)) : list (Z * list Z) :=
  match c with
  | [] => []
  | e :: c =>
      match e with
      | Some e => if is_complete e then [(Z.shiftl i BLOCK_BITS / SECTOR_SIZE, data e)] else []
      | None => []
      end ++ writeback_from (i + 1) c
  end.

Definition writeback_all (w : world) : list (Z * list Z) := writeback_from 0 (block_cache (ses w)).

Definition vblk_size (size : Z) : Z := size / SECTOR_SIZE.
End cache.

(** ** Slices *)

Lemma slice_ok l off n : 0 <= off -> 0 <= n -> off + n <= Z.of_nat (length l) ->
  slice l off n = Some (take (Z.to_nat n) (drop (Z.to_nat off) l)).
Proof. intros H1 H2 H3; unfold slice; by rewrite !(proj2 (Z.leb_le _ _)) by lia. Qed.

Lemma slice_length l off n b : slice l off n = Some b -> Z.of_nat (length b) = n.
Proof.
  unfold slice; destruct_if; [|done]; intros [= <-]; zbool; rewrite length_take, length_drop; lia.
Qed.

Lemma splice_ok l off b : 0 <= off -> off + Z.of_nat (length b) <= Z.of_nat (length l) ->
  exists l', splice l off b = Some l' /\ length l' = length l.
Proof.
  intros H1 H2; unfold splice; rewrite !(proj2 (Z.leb_le _ _)) by lia; eexists; split; [done|].
  rewrite !length_app, length_take, length_drop; lia.
Qed.

Lemma lookup_splice l off b l' i : splice l off b = Some l' ->
  l' !! i = if (Z.to_nat off <=? i)%nat && (i <? Z.to_nat off + length b)%nat then b !! (i - Z.to_nat off)%nat else l !! i.
Proof.
  unfold splice; destruct_if; [|done]; intros [= <-]; zbool.
  assert (Ho : length (take (Z.to_nat off) l) = Z.to_nat off) by (rewrite length_take; lia).
  destruct (Nat.leb_spec (Z.to_nat off) i) as [Hle|Hlt]; cbn [andb].
  - rewrite lookup_app_r, Ho by lia; destruct (Nat.ltb_spec i (Z.to_nat off + length b)).
    + by rewrite lookup_app_l by lia.
    + rewrite lookup_app_r, lookup_drop by lia; f_equal; lia.
  - rewrite lookup_app_l, lookup_take_lt by lia; done.
Qed.

Lemma slice_lookup l off n b i : slice l off n = Some b -> (i < Z.to_nat n)%nat -> b !! i = l !! (Z.to_nat off + i)%nat.
Proof. unfold slice; destruct_if; [|done]; intros [= <-] Hi; by rewrite lookup_take_lt, lookup_drop. Qed.

(** Reading back what was written, and what lies beside it. *)
Lemma slice_ext l l' off n : length l = length l' ->
  (forall i, (Z.to_nat off <= i < Z.to_nat off + Z.to_nat n)%nat -> l !! i = l' !! i) -> slice l off n = slice l' off n.
Proof.
  intros Hl H; unfold slice; rewrite Hl; destruct_if; [|done]; f_equal; apply list_eq; intros i.
  destruct (Nat.ltb_spec i (Z.to_nat n)); [|rewrite !lookup_take_ge by lia; done].
  rewrite !lookup_take_lt, !lookup_drop by lia; apply H; lia.
Qed.

Lemma slice_splice_ne l off b l' off' n : splice l off b = Some l' -> 0 <= off -> 0 <= off' ->
  off' + n <= off \/ off + Z.of_nat (length b) <= off' -> slice l' off' n = slice l off' n.
Proof.
  intros Hs H0 H1 Hd; assert (Hr : off + Z.of_nat (length b) <= Z.of_nat (length l))
    by (unfold splice in Hs; destruct_if; [zbool; lia|done]).
  destruct (splice_ok l off b H0 Hr) as (l2 & E & Hl); assert (l2 = l') as -> by congruence.
  apply slice_ext; [done|]; intros i Hi; rewrite (lookup_splice _ _ _ _ _ Hs).
  destruct (Nat.leb_spec (Z.to_nat off) i), (Nat.ltb_spec i (Z.to_nat off + length b)); cbn [andb]; try done; lia.
Qed.

Lemma slice_splice_eq l off b l' : splice l off b = Some l' -> 0 <= off -> slice l' off (Z.of_nat (length b)) = Some b.
Proof.
  intros Hs H0; assert (Hr : off + Z.of_nat (length b) <= Z.of_nat (length l))
    by (unfold splice in Hs; destruct_if; [zbool; lia|done]).
  destruct (splice_ok l off b H0 Hr) as (l2 & E & Hl); assert (l2 = l') as -> by congruence.
  rewrite slice_ok by lia; f_equal; apply list_eq; intros i; rewrite Nat2Z.id.
  destruct (Nat.ltb_spec i (length b)); [|rewrite lookup_take_ge, lookup_ge_None_2 by lia; done].
  rewrite lookup_take_lt, lookup_drop, (lookup_splice _ _ _ _ _ Hs) by lia.
  rewrite (proj2 (Nat.leb_le _ _)), (proj2 (Nat.ltb_lt _ _)) by lia; cbn [andb]; f_equal; lia.
Qed.


(** ** The disk behind the cache *)

Section disk.
Context (BITS : Z) (HB : 9 <= BITS) (nblocks : Z) (disk : Z -> list Z).
Context (Hsize : 0 <= nblocks /\ nblocks * 2 ^ BITS <= 2 ^ 64).
Context (Hdisk : forall i, 0 <= i < nblocks -> Z.of_nat (length (disk i)) = 2 ^ BITS).

Definition per_block : Z := 2 ^ (BITS - 9).
Definition nsectors : Z := nblocks * per_block.

Lemma per_block_pos : 0 < per_block.
Proof. apply Z.pow_pos_nonneg; lia. Qed.

Lemma block_size_eq : BLOCK_SIZE BITS = 2 ^ BITS /\ 2 ^ BITS = 512 * per_block.
Proof.
  unfold BLOCK_SIZE, per_block; rewrite Z.shiftl_1_l; split; [done|]; change 512 with (2 ^ 9).
  rewrite <- Z.pow_add_r by lia; f_equal; lia.
Qed.

Lemma sector_addr s : 0 <= s < nsectors -> u64 (s * SECTOR_SIZE) = 512 * s.
Proof.
  pose proof block_size_eq as [_ E]; pose proof per_block_pos; unfold nsectors, SECTOR_SIZE; intros Hs.
  rewrite wrap_small; [lia|]; unfold in_range; nia.
Qed.

Lemma sector_index s : 0 <= s -> map_index BITS (512 * s) = s / per_block.
Proof.
  intros Hs; unfold map_index; rewrite Z.shiftr_div_pow2 by lia; rewrite (proj2 block_size_eq).
  by rewrite Z.div_mul_cancel_l by (pose proof per_block_pos; lia).
Qed.

Lemma sector_offset s : 0 <= s -> map_offset BITS (512 * s) = 512 * (s mod per_block).
Proof.
  intros Hs; unfold map_offset; rewrite (proj1 block_size_eq).
  replace (2 ^ BITS - 1) with (Z.ones BITS) by (rewrite Z.ones_equiv; lia).
  rewrite Z.land_ones, (proj2 block_size_eq) by lia; apply Z.mul_mod_distr_l; pose proof per_block_pos; lia.
Qed.

Lemma index_range s : 0 <= s < nsectors -> 0 <= s / per_block < nblocks.
Proof.
  unfold nsectors; pose proof per_block_pos; intros Hs; split; [apply Z.div_pos; lia|].
  apply Z.div_lt_upper_bound; lia.
Qed.

Lemma offset_range s : 0 <= s -> 0 <= 512 * (s mod per_block) /\ 512 * (s mod per_block) + 512 <= 2 ^ BITS.
Proof. intros Hs; pose proof (Z.mod_pos_bound s per_block per_block_pos); rewrite (proj2 block_size_eq); lia. Qed.

(** The bytes of block [i], of a sector, and the disk as a list of sectors. *)
Definition block_of (w : world) (i : Z) : list Z :=
  match zget (block_cache (ses w)) i with
  | Some (Some e) => if is_complete e then data e else disk i
  | _ => disk i
  end.

Definition sector_of (w : world) (s : Z) : list Z :=
  default [] (slice (block_of w (s / per_block)) (512 * (s mod per_block)) 512).

Definition image (w : world) : list (list Z) := sector_of w <$> seqZ 0 nsectors.

(** A request on the disk and the buffers of the clients. *)
Definition spec_rw (sector buf : Z) (is_write : bool) (st : list (list Z) * gmap Z (list Z)) :
    list (list Z) * gmap Z (list Z) :=
  let '(img, bs) := st in
  let b := default [] (bs !! buf) in
  if is_write then (<[Z.to_nat sector := take 512 b]> img, bs)
  else (img, <[buf := default [] (img !! Z.to_nat sector) ++ drop 512 b]> bs).

Record request_ok (w : world) (sector buf : Z) : Prop := {
  ro_sector : 0 <= sector < nsectors;
  ro_buf : exists b, bufs w !! buf = Some b /\ (512 <= length b)%nat
}.

Record cache_ok (w : world) : Prop := {
  ck_length : Z.of_nat (length (block_cache (ses w))) = nblocks;
  ck_data : forall i e, zget (block_cache (ses w)) i = Some (Some e) -> Z.of_nat (length (data e)) = 2 ^ BITS;
  ck_rd : ring_ok RB (blockreads (ses w));
  ck_cb : ring_ok RB (callbacks (ses w));
  ck_pending : exists done, contents RB (blockreads (ses w)) = done ++ reads w /\
    wrap RB (blockreads_ack (ses w) - rb_hd (blockreads (ses w))) = Z.of_nat (length done) /\
    forall i e, i ∈ done -> zget (block_cache (ses w)) i = Some (Some e) -> data e = disk i;
  ck_nodup : NoDup (contents RB (blockreads (ses w)));
  ck_complete : forall i e, zget (block_cache (ses w)) i = Some (Some e) ->
    (is_complete e = false <-> i ∈ contents RB (blockreads (ses w)));
  ck_cached : forall i, i ∈ contents RB (blockreads (ses w)) -> exists e, zget (block_cache (ses w)) i = Some (Some e);
  ck_callbacks : forall cb, cb ∈ contents RB (callbacks (ses w)) ->
    request_ok w (cb_sector cb) (cb_buf cb) /\
    exists e, zget (block_cache (ses w)) (cb_sector cb / per_block) = Some (Some e)
}.

Lemma image_lookup w s : 0 <= s < nsectors -> image w !! Z.to_nat s = Some (sector_of w s).
Proof.
  intros Hs; unfold image; rewrite list_lookup_fmap, lookup_seqZ_lt by lia; cbn; f_equal; f_equal; lia.
Qed.

Lemma image_ext w w' : (forall s, 0 <= s < nsectors -> sector_of w' s = sector_of w s) -> image w' = image w.
Proof.
  intros H; apply list_fmap_ext; intros i s Hs; apply H.
  apply list_elem_of_lookup_2, elem_of_seqZ in Hs; lia.
Qed.

Lemma block_len w i : cache_ok w -> 0 <= i < nblocks -> Z.of_nat (length (block_of w i)) = 2 ^ BITS.
Proof.
  intros Hw Hi; unfold block_of; destruct (zget (block_cache (ses w)) i) as [[e|]|] eqn:E; [|by apply Hdisk..].
  destruct (is_complete e); [by apply (ck_data w Hw i)|by apply Hdisk].
Qed.

Lemma sector_slice w s : cache_ok w -> 0 <= s < nsectors ->
  slice (block_of w (s / per_block)) (512 * (s mod per_block)) 512 = Some (sector_of w s).
Proof.
  intros Hw Hs; pose proof (offset_range s ltac:(lia)); pose proof (block_len w _ Hw (index_range s Hs)).
  unfold sector_of; by rewrite slice_ok by lia.
Qed.

(** [w'] is [w] with the complete block [i] changed. *)
Record block_changed (w w' : world) (i : Z) (d : list Z) : Prop := {
  bc_cache : forall j, zget (block_cache (ses w')) j = if j =? i then Some (Some (mk_ent d true)) else zget (block_cache (ses w)) j;
  bc_length : length (block_cache (ses w')) = length (block_cache (ses w));
  bc_rings : (callbacks (ses w'), blockreads (ses w'), blockreads_ack (ses w'), reads w') =
             (callbacks (ses w), blockreads (ses w), blockreads_ack (ses w), reads w);
  bc_bufs : forall b x, bufs w !! b = Some x -> exists x', bufs w' !! b = Some x' /\ length x' = length x
}.

Lemma block_changed_ok w w' i d e :
  cache_ok w -> zget (block_cache (ses w)) i = Some (Some e) -> is_complete e = true ->
  Z.of_nat (length d) = 2 ^ BITS -> block_changed w w' i d -> cache_ok w'.
Proof.
  intros Hw He Hc Hd [Hz Hl Hr Hb]; injection Hr as Hr1 Hr2 Hr3 Hr4.
  assert (Hni : i ∉ contents RB (blockreads (ses w))) by (rewrite <- (ck_complete w Hw i e He), Hc; done).
  split; rewrite ?Hr1, ?Hr2, ?Hr3, ?Hr4, ?Hl; try apply Hw.
  - intros j e'; rewrite Hz; destruct (j =? i); [by intros [= <-]|apply Hw].
  - destruct (ck_pending w Hw) as (dn & E1 & E2 & E3); exists dn; split; [done|]; split; [done|].
    intros j e' Hj; rewrite Hz; destruct (Z.eqb_spec j i) as [->|]; [|by apply E3].
    destruct Hni; rewrite E1; by apply elem_of_app; left.
  - intros j e'; rewrite Hz; destruct (Z.eqb_spec j i) as [->|]; [|apply Hw].
    intros [= <-]; cbn; split; [done|]; intros; by destruct Hni.
  - intros j Hj; rewrite Hz; destruct (j =? i); [by eexists|by apply Hw].
  - intros cb Hcb; destruct (ck_callbacks w Hw cb Hcb) as [[Hs (b & Hb1 & Hb2)] (e' & He')]; split.
    + split; [done|]; destruct (Hb _ _ Hb1) as (x & Hx & Hlx); exists x; split; [done|lia].
    + rewrite Hz; destruct (_ =? i); [by eexists|by exists e'].
Qed.

Lemma sector_inj s s' : 0 <= s -> 0 <= s' -> s / per_block = s' / per_block -> s mod per_block = s' mod per_block -> s = s'.
Proof.
  intros Hs Hs' Hd Hm; pose proof per_block_pos; rewrite (Z.div_mod s per_block), (Z.div_mod s' per_block) by lia; congruence.
Qed.

Lemma sector_changed w w' i d s : block_changed w w' i d ->
  sector_of w' s = if s / per_block =? i then default [] (slice d (512 * (s mod per_block)) 512) else sector_of w s.
Proof. intros [Hz _ _ _]; unfold sector_of, block_of; rewrite Hz; by destruct (_ =? i). Qed.

Lemma copy_world w i e d buf b b0 :
  zget (block_cache (ses w)) i = Some (Some e) -> is_complete e = true -> bufs w !! buf = Some b0 -> length b = length b0 ->
  exists c w', zput (block_cache (ses w)) i (Some (mk_ent d (is_complete e))) = Some c /\
    w' = mk_world (ses (set_cache w c)) (reads w) (<[buf := b]> (bufs w)) (answered w) /\ block_changed w w' i d.
Proof.
  intros He Hc Hb Hl; pose proof (zput_is_Some _ _ (Some (mk_ent d (is_complete e))) (zget_Some_range _ _ _ He)) as Hp.
  eexists; eexists; split; [exact Hp|]; split; [reflexivity|]; split; cbn.
  - intros j; rewrite Hc in Hp; rewrite Hc; destruct (Z.eqb_spec j i) as [->|Hne]; [apply (zget_zput_eq _ _ _ _ Hp)|].
    by apply (zget_zput_ne _ _ _ _ _ Hp).
  - by rewrite length_insert.
  - done.
  - intros b' x Hx; destruct (decide (buf = b')) as [->|Hne].
    + rewrite lookup_insert_eq; exists b; split; [done|]; congruence.
    + rewrite lookup_insert_ne by done; by exists x.
Qed.

Lemma image_write w w' s d b : cache_ok w -> 0 <= s < nsectors -> length b = 512%nat ->
  splice (block_of w (s / per_block)) (512 * (s mod per_block)) b = Some d -> block_changed w w' (s / per_block) d ->
  image w' = <[Z.to_nat s := b]> (image w).
Proof.
  intros Hw Hs Hb Hd Hch; pose proof (offset_range s ltac:(lia)) as Ho; apply list_eq; intros j.
  destruct (Z.ltb_spec (Z.of_nat j) nsectors) as [Hj|Hj].
  2: { rewrite !lookup_ge_None_2; rewrite ?length_insert; unfold image; rewrite ?length_fmap, ?length_seqZ; lia || done. }
  rewrite <- (Nat2Z.id j), image_lookup by lia; destruct (Z.eq_dec (Z.of_nat j) s) as [->|Hne].
  - rewrite list_lookup_insert_eq by (unfold image; rewrite length_fmap, length_seqZ; lia).
    rewrite (sector_changed _ _ _ _ _ Hch), Z.eqb_refl; f_equal.
    pose proof (slice_splice_eq _ _ _ _ Hd ltac:(lia)) as E; rewrite Hb in E; change (Z.of_nat 512) with 512 in E; by rewrite E.
  - rewrite list_lookup_insert_ne, image_lookup by lia; f_equal; rewrite (sector_changed _ _ _ _ _ Hch).
    destruct (Z.eqb_spec (Z.of_nat j / per_block) (s / per_block)) as [E|]; [|done].
    unfold sector_of; rewrite E; f_equal; pose proof (offset_range (Z.of_nat j) ltac:(lia)).
    apply (slice_splice_ne _ _ _ _ _ _ Hd); [lia..|]; rewrite Hb.
    assert (Hm : Z.of_nat j mod per_block <> s mod per_block) by (intros E'; apply Hne, sector_inj; [lia..|done|done]).
    lia.
Qed.

Lemma image_same w w' i d : block_changed w w' i d -> block_of w i = d -> image w' = image w.
Proof.
  intros Hch Hd; apply image_ext; intros s Hs; rewrite (sector_changed _ _ _ _ _ Hch).
  destruct (Z.eqb_spec (s / per_block) i) as [<-|]; [|done]; unfold sector_of; by rewrite Hd.
Qed.

Lemma do_copy_spec w e s buf wr :
  cache_ok w -> request_ok w s buf -> zget (block_cache (ses w)) (s / per_block) = Some (Some e) -> is_complete e = true ->
  exists w' d, do_copy w (s / per_block) e (512 * (s mod per_block)) buf wr = Some w' /\
    block_changed w w' (s / per_block) d /\ Z.of_nat (length d) = 2 ^ BITS /\ answered w' = answered w /\
    (image w', bufs w') = spec_rw s buf wr (image w, bufs w).
Proof.
  intros Hw [Hs (b & Hb & Hbl)] He Hc; pose proof (offset_range s ltac:(lia)) as Ho.
  pose proof (ck_data w Hw _ _ He) as Hdl.
  assert (Hblk : block_of w (s / per_block) = data e) by (unfold block_of; by rewrite He, Hc).
  unfold do_copy; rewrite Hb; cbn [mbind option_bind]; unfold cpy, SECTOR_SIZE, spec_rw; rewrite Hb; cbn [default]; destruct wr.
  - rewrite slice_ok by lia; cbn [mbind option_bind]; change (Z.to_nat 0) with 0%nat; rewrite drop_0.
    assert (Ht : length (take (Z.to_nat 512) b) = 512%nat) by (rewrite length_take; lia).
    destruct (splice_ok (data e) (512 * (s mod per_block)) (take (Z.to_nat 512) b)) as (d & Ed & Hd); [lia..|].
    rewrite Ed; cbn [mbind option_bind]; destruct (copy_world w _ e d buf b b He Hc Hb eq_refl) as (c & w' & Ep & -> & Hch).
    rewrite Ep; cbn [mbind option_bind]; eexists _, d; split; [reflexivity|]; split; [done|]; split; [lia|]; split; [done|].
    rewrite <- Hblk in Ed; f_equal; [by apply (image_write w _ s d)|]; cbn; by rewrite insert_id.
  - pose proof (sector_slice w s Hw Hs) as Hsl; rewrite Hblk in Hsl; rewrite Hsl; cbn [mbind option_bind].
    pose proof (slice_length _ _ _ _ Hsl) as Hsn.
    destruct (splice_ok b 0 (sector_of w s)) as (b' & Eb & Hb'); [lia..|]; rewrite Eb; cbn [mbind option_bind].
    destruct (copy_world w _ e (data e) buf b' b He Hc Hb Hb') as (c & w' & Ep & -> & Hch).
    rewrite Ep; cbn [mbind option_bind]; eexists _, (data e); split; [reflexivity|]; split; [done|]; split; [done|]; split; [done|].
    f_equal; [by apply (image_same w _ _ _ Hch)|]; cbn; rewrite image_lookup by done; cbn [default]; f_equal.
    unfold splice in Eb; destruct_if; [|done]; injection Eb as <-; cbn; do 2 f_equal; lia.
Qed.

Lemma request_bufs w w' s buf : bufs w' = bufs w -> request_ok w s buf -> request_ok w' s buf.
Proof. intros E [H1 H2]; split; [done|by rewrite E]. Qed.

Lemma answer_ok w c : cache_ok w -> cache_ok (answer w c).
Proof.
  intros Hw; split; cbn; try apply Hw; intros cb Hcb; destruct (ck_callbacks w Hw cb Hcb) as [? ?]; split; [|done].
  by apply (request_bufs w).
Qed.

Lemma new_block_ok w i : cache_ok w -> zget (block_cache (ses w)) i = Some None ->
  count RB (blockreads (ses w)) < RINGBUF_SZ (blockreads (ses w)) ->
  exists w', new_block BITS w i = Some w' /\ cache_ok w' /\ image w' = image w /\ bufs w' = bufs w /\
    answered w' = answered w /\ callbacks (ses w') = callbacks (ses w) /\
    zget (block_cache (ses w')) i = Some (Some (new_ent BITS)).
Proof.
  intros Hw Hi Hc; pose proof (zput_is_Some _ _ (Some (new_ent BITS)) (zget_Some_range _ _ _ Hi)) as Hp.
  destruct (push_ok RB _ i (ck_rd w Hw) Hc) as (rd & Er & Hrd & Hhd & _ & _ & Hco).
  unfold new_block; rewrite Hp; cbn [mbind option_bind]; rewrite Er; cbn [mbind option_bind].
  eexists; split; [reflexivity|].
  set (c := <[Z.to_nat i := Some (new_ent BITS)]> (block_cache (ses w))) in *.
  assert (Hz : forall j, zget c j = if j =? i then Some (Some (new_ent BITS)) else zget (block_cache (ses w)) j).
  { intros j; destruct (Z.eqb_spec j i) as [->|]; [apply (zget_zput_eq _ _ _ _ Hp)|by apply (zget_zput_ne _ _ _ _ _ Hp)]. }
  assert (Hni : i ∉ contents RB (blockreads (ses w))) by (intros H; apply (ck_cached w Hw) in H as [e E]; congruence).
  split; [|split; [|cbn; split_and!; try done; by rewrite Hz, Z.eqb_refl]].
  - split; cbn; rewrite ?Hco; try apply Hw; [| |done| | | | |].
    + unfold c; rewrite length_insert; apply Hw.
    + intros j e; rewrite Hz; destruct (j =? i); [|apply Hw]; intros [= <-]; cbn; rewrite length_replicate, (proj1 block_size_eq).
      pose proof (Z.pow_nonneg 2 BITS); lia.
    + destruct (ck_pending w Hw) as (dn & E1 & E2 & E3); exists dn; rewrite Hhd, E1, app_assoc; split; [done|]; split; [done|].
      intros j e Hj; rewrite Hz; destruct (Z.eqb_spec j i) as [->|]; [|by apply E3].
      destruct Hni; rewrite E1; by apply elem_of_app; left.
    + apply NoDup_app; split; [apply Hw|]; split; [|apply NoDup_singleton]; intros j Hj ->%list_elem_of_singleton; done.
    + intros j e; rewrite Hz, elem_of_app, list_elem_of_singleton; destruct (Z.eqb_spec j i) as [->|Hne].
      * intros [= <-]; cbn; split; [by right|done].
      * intros He; rewrite (ck_complete w Hw j e He); naive_solver.
    + intros j; rewrite Hz, elem_of_app, list_elem_of_singleton; destruct (Z.eqb_spec j i); [by eexists|].
      intros [Hj|]; [by apply Hw|done].
    + intros cb Hcb; destruct (ck_callbacks w Hw cb Hcb) as [H1 (e & He)]; split; [by apply (request_bufs w)|].
      rewrite Hz; destruct (_ =? i); [by eexists|by exists e].
  - apply image_ext; intros s Hs; unfold sector_of, block_of; cbn; rewrite Hz.
    destruct (Z.eqb_spec (s / per_block) i) as [->|]; [by rewrite Hi|done].
Qed.

Lemma push_callback_ok w cb e : cache_ok w -> request_ok w (cb_sector cb) (cb_buf cb) ->
  zget (block_cache (ses w)) (cb_sector cb / per_block) = Some (Some e) ->
  count RB (callbacks (ses w)) < RINGBUF_SZ (callbacks (ses w)) ->
  exists w', push_callback w cb = Some (Some w') /\ cache_ok w' /\ image w' = image w /\ bufs w' = bufs w /\
    answered w' = answered w /\ contents RB (callbacks (ses w')) = contents RB (callbacks (ses w)) ++ [cb].
Proof.
  intros Hw Hr He Hc; destruct (push_ok RB _ cb (ck_cb w Hw) Hc) as (cbs & E & Hcb & _ & _ & _ & Hco).
  unfold push_callback; rewrite E; cbn [mbind option_bind]; eexists; split; [reflexivity|].
  split; [|cbn; split_and!; try done; by apply image_ext].
  split; cbn; try apply Hw; [done|]; intros cb'; rewrite Hco, elem_of_app, list_elem_of_singleton; intros [H| ->].
  - destruct (ck_callbacks w Hw cb' H) as [? ?]; split; [by apply (request_bufs w)|done].
  - split; [by apply (request_bufs w)|by exists e].
Qed.

(** What a request does: it is served at once, or it waits and the disk and
    the buffers stay as they are. *)
Lemma rw_sector_spec w caller s buf wr :
  cache_ok w -> request_ok w s buf ->
  count RB (callbacks (ses w)) < RINGBUF_SZ (callbacks (ses w)) ->
  count RB (blockreads (ses w)) < RINGBUF_SZ (blockreads (ses w)) ->
  exists w' r, rw_sector BITS w caller s buf wr = Some (w', r) /\ cache_ok w' /\
    (r = Done 0 /\ (image w', bufs w') = spec_rw s buf wr (image w, bufs w) /\ answered w' = answered w ++ [caller] /\
       callbacks (ses w') = callbacks (ses w) \/
     r = Delayed /\ (image w', bufs w') = (image w, bufs w) /\ answered w' = answered w /\
       contents RB (callbacks (ses w')) = contents RB (callbacks (ses w)) ++ [mk_cb s wr caller buf]).
Proof.
  intros Hw Hr Hcc Hcr; pose proof (ro_sector _ _ _ Hr) as Hs; pose proof (index_range s Hs) as Hix.
  unfold rw_sector; rewrite sector_addr, sector_index, sector_offset by lia.
  destruct (zget_is_Some (block_cache (ses w)) (s / per_block)) as [ent Hent]; [rewrite (ck_length w Hw); lia|].
  rewrite Hent; cbn [mbind option_bind]; destruct ent as [e|]; [destruct (is_complete e) eqn:Hcm|]; cbn [negb].
  - destruct (do_copy_spec w e s buf wr Hw Hr Hent Hcm) as (w' & d & E & Hch & Hd & Ha & Hi).
    cbn [mbind option_bind]; rewrite E; cbn [mbind option_bind]; eexists _, _; split; [reflexivity|].
    pose proof (block_changed_ok w w' _ d e Hw Hent Hcm Hd Hch) as Hw'.
    split; [by apply answer_ok|]; left; split; [done|]; split; [done|]; cbn; rewrite Ha; split; [done|].
    pose proof (bc_rings _ _ _ _ Hch); congruence.
  - destruct (push_callback_ok w (mk_cb s wr caller buf) e Hw Hr Hent Hcc) as (w' & E & Hw' & H1 & H2 & H3 & H4).
    cbn [mbind option_bind]; rewrite E; cbn [mbind option_bind]; eexists _, _; split; [reflexivity|]; split; [done|].
    right; rewrite H1, H2; done.
  - destruct (new_block_ok w _ Hw Hent Hcr) as (w1 & E1 & Hw1 & I1 & B1 & A1 & C1 & Z1).
    assert (Hr1 : request_ok w1 s buf) by (by apply (request_bufs w)).
    destruct (push_callback_ok w1 (mk_cb s wr caller buf) _ Hw1 Hr1 Z1) as (w' & E & Hw' & H1 & H2 & H3 & H4); [by rewrite C1|].
    rewrite E1; cbn [mbind option_bind]; rewrite E; cbn [mbind option_bind]; eexists _, _; split; [reflexivity|]; split; [done|].
    right; rewrite H1, H2, H3, H4, I1, B1, A1, C1; done.
Qed.

Lemma contents_small {A} (r : ring A) : ring_ok RB r -> Z.of_nat (length (contents RB r)) <= 128.
Proof.
  intros Hr; rewrite (length_contents RB r Hr); destruct Hr as [_ _ _ (b & Hb & Hs) Hc]; rewrite Hs in Hc.
  pose proof (Z.pow_le_mono_r 2 b 7 ltac:(lia) ltac:(lia)); lia.
Qed.

Lemma ack_wrap a hd : wrap RB (u64 a - hd) = wrap RB (a - hd).
Proof.
  rewrite <- (wrap_sub_l RB (u64 a)), <- (wrap_sub_l RB a) by lia; f_equal; f_equal.
  unfold wrap; symmetry; apply Znumtheory.Zmod_div_mod; [done..|]; by exists (2 ^ 56).
Qed.

(** The driver's answer does not change what a reader sees. *)
Lemma driver_read_spec w i rest : cache_ok w -> reads w = i :: rest ->
  exists w', driver_read disk w = Some w' /\ cache_ok w' /\ image w' = image w /\ bufs w' = bufs w /\
    answered w' = answered w /\ callbacks (ses w') = callbacks (ses w) /\ reads w' = rest.
Proof.
  intros Hw Hrd; destruct (ck_pending w Hw) as (dn & E1 & E2 & E3); rewrite Hrd in E1.
  assert (Hin : i ∈ contents RB (blockreads (ses w))) by (rewrite E1; apply elem_of_app; right; by left).
  destruct (ck_cached w Hw i Hin) as [e He]; pose proof (proj2 (ck_complete w Hw i e He) Hin) as Hc.
  pose proof (zget_Some_range _ _ _ He) as Hir; pose proof (ck_length w Hw) as Hlen.
  pose proof (zput_is_Some _ _ (Some (mk_ent (disk i) (is_complete e))) Hir) as Hp.
  unfold driver_read; rewrite Hrd, He; cbn [mbind option_bind]; rewrite Hp; cbn [mbind option_bind].
  eexists; split; [reflexivity|].
  set (c := <[Z.to_nat i := Some (mk_ent (disk i) (is_complete e))]> (block_cache (ses w))) in *.
  assert (Hz : forall j, zget c j = if j =? i then Some (Some (mk_ent (disk i) (is_complete e))) else zget (block_cache (ses w)) j).
  { intros j; destruct (Z.eqb_spec j i) as [->|]; [apply (zget_zput_eq _ _ _ _ Hp)|by apply (zget_zput_ne _ _ _ _ _ Hp)]. }
  split; [|cbn; split_and!; try done; apply image_ext; intros s Hs; unfold sector_of, block_of; cbn; rewrite Hz;
           destruct (Z.eqb_spec (s / per_block) i) as [->|]; [by rewrite He, Hc|done]].
  split; cbn; try apply Hw.
  - unfold c; by rewrite length_insert.
  - intros j e'; rewrite Hz; destruct (j =? i); [intros [= <-]; apply Hdisk; lia|apply Hw].
  - exists (dn ++ [i]); split; [by rewrite E1, <- app_assoc|]; split.
    + pose proof (contents_small _ (ck_rd w Hw)) as Hsm; rewrite E1 in Hsm; rewrite length_app in Hsm |- *; cbn [length] in *.
      rewrite ack_wrap; replace (blockreads_ack (ses w) + 1 - rb_hd (blockreads (ses w)))
        with (blockreads_ack (ses w) - rb_hd (blockreads (ses w)) + 1) by lia.
      rewrite <- wrap_add_l, E2, wrap_small by (unfold in_range; lia); lia.
    + intros j e'; rewrite Hz, elem_of_app, list_elem_of_singleton; destruct (Z.eqb_spec j i) as [->|]; [by intros _ [= <-]|].
      intros [H|]; [by apply E3|done].
  - intros j e'; rewrite Hz; destruct (Z.eqb_spec j i) as [->|]; [intros [= <-]; cbn; by rewrite Hc|apply Hw].
  - intros j Hj; rewrite Hz; destruct (j =? i); [by eexists|by apply Hw].
  - intros cb Hcb; destruct (ck_callbacks w Hw cb Hcb) as [H1 (e' & He')]; split; [by apply (request_bufs w)|].
    rewrite Hz; destruct (_ =? i); [by eexists|by exists e'].
Qed.

Lemma hd_ack w : cache_ok w ->
  (rb_hd (blockreads (ses w)) =? wrap RB (blockreads_ack (ses w))) =
  (wrap RB (blockreads_ack (ses w) - rb_hd (blockreads (ses w))) =? 0).
Proof.
  intros Hw; destruct (rk_hd _ _ (ck_rd w Hw)) as [H1 H2]; set (h := rb_hd _) in *; set (a := blockreads_ack _).
  rewrite <- (wrap_sub_l RB a) by lia; pose proof (wrap_range RB a ltac:(lia)) as [H3 H4].
  destruct (Z.eqb_spec h (wrap RB a)) as [->|Hne]; [by rewrite Z.sub_diag|symmetry; apply Z.eqb_neq].
  unfold wrap in *; intros E; apply Z.mod_divide in E as [q E]; [|done]; assert (q = 0) by lia; lia.
Qed.

(** One acknowledged block. *)
Lemma ack_one w i dn e rd c : cache_ok w -> contents RB (blockreads (ses w)) = i :: dn ++ reads w ->
  wrap RB (blockreads_ack (ses w) - rb_hd (blockreads (ses w))) = Z.of_nat (S (length dn)) ->
  (forall j e, j ∈ i :: dn -> zget (block_cache (ses w)) j = Some (Some e) -> data e = disk j) ->
  zget (block_cache (ses w)) i = Some (Some e) -> zput (block_cache (ses w)) i (Some (mk_ent (data e) true)) = Some c ->
  ring_ok RB rd -> rd = RINGBUF_NEXT RB (blockreads (ses w)) -> contents RB rd = dn ++ reads w ->
  let w' := set_ses w (mk_session (should_poll (ses w)) (callbacks (ses w)) rd (blockreads_ack (ses w)) c) in
  cache_ok w' /\ image w' = image w /\ wrap RB (blockreads_ack (ses w') - rb_hd rd) = Z.of_nat (length dn) /\
  (forall j e, j ∈ dn -> zget c j = Some (Some e) -> data e = disk j).
Proof.
  intros Hw E1 E2 E3 He Hp Hrok Hrd Hco w'.
  assert (Hz : forall j, zget c j = if j =? i then Some (Some (mk_ent (data e) true)) else zget (block_cache (ses w)) j).
  { intros j; destruct (Z.eqb_spec j i) as [->|]; [apply (zget_zput_eq _ _ _ _ Hp)|by apply (zget_zput_ne _ _ _ _ _ Hp)]. }
  pose proof (ck_nodup w Hw) as Hnd; rewrite E1 in Hnd; apply NoDup_cons in Hnd as [Hni Hnd].
  assert (Hdi : data e = disk i) by (apply E3; [by left|done]).
  assert (Hin : is_complete e = false) by (apply (ck_complete w Hw i e He); rewrite E1; by left).
  assert (H3 : forall j e, j ∈ dn -> zget c j = Some (Some e) -> data e = disk j).
  { intros j e' Hj; rewrite Hz; destruct (Z.eqb_spec j i) as [->|]; [by intros [= <-]|apply E3; by right]. }
  assert (H2 : wrap RB (blockreads_ack (ses w) - rb_hd rd) = Z.of_nat (length dn)).
  { rewrite Hrd; cbn [RINGBUF_NEXT rb_hd]; rewrite wrap_sub_r.
    replace (blockreads_ack (ses w) - (rb_hd (blockreads (ses w)) + 1)) with (blockreads_ack (ses w) - rb_hd (blockreads (ses w)) - 1) by lia.
    rewrite <- wrap_sub_l, E2 by lia; pose proof (contents_small _ (ck_rd w Hw)) as Hs; rewrite E1 in Hs; cbn in Hs.
    rewrite length_app in Hs; rewrite wrap_small by (unfold in_range; lia); lia. }
  split_and!; try done.
  - split; cbn; rewrite ?Hco; try apply Hw; try done.
    + by rewrite (zput_length _ _ _ _ Hp), (ck_length w Hw).
    + intros j e'; rewrite Hz; destruct (j =? i); [intros [= <-]; exact (ck_data w Hw i e He)|apply Hw].
    + by exists dn.
    + intros j e'; rewrite Hz; destruct (Z.eqb_spec j i) as [->|Hne]; [intros [= <-]; cbn; by split|].
      intros He'; rewrite (ck_complete w Hw j e' He'), E1, elem_of_cons; naive_solver.
    + intros j Hj; rewrite Hz; destruct (j =? i); [by eexists|]; apply (ck_cached w Hw); rewrite E1; by right.
    + intros cb Hcb; destruct (ck_callbacks w Hw cb Hcb) as [H (e' & He')]; split; [by apply (request_bufs w)|].
      rewrite Hz; destruct (_ =? i); [by eexists|by exists e'].
  - apply image_ext; intros s Hs; unfold sector_of, block_of; cbn; rewrite Hz.
    destruct (Z.eqb_spec (s / per_block) i) as [->|]; [by rewrite He, Hin, Hdi|done].
Qed.

Lemma ack_reads_spec n w dn : cache_ok w -> contents RB (blockreads (ses w)) = dn ++ reads w ->
  wrap RB (blockreads_ack (ses w) - rb_hd (blockreads (ses w))) = Z.of_nat (length dn) ->
  (forall j e, j ∈ dn -> zget (block_cache (ses w)) j = Some (Some e) -> data e = disk j) -> (length dn <= n)%nat ->
  exists w', ack_reads n w = Some w' /\ cache_ok w' /\ image w' = image w /\ bufs w' = bufs w /\
    answered w' = answered w /\ callbacks (ses w') = callbacks (ses w) /\ reads w' = reads w /\
    contents RB (blockreads (ses w')) = reads w.
Proof.
  revert n w; induction dn as [|i dn IH]; intros n w Hw E1 E2 E3 Hn.
  { exists w; split; [|by split_and!]; destruct n; cbn [ack_reads]; by rewrite hd_ack, E2. }
  destruct n as [|n]; [cbn in Hn; lia|]; cbn [ack_reads]; rewrite hd_ack, E2 by done; cbn [length Z.of_nat Z.eqb].
  pose proof (length_contents RB _ (ck_rd w Hw)) as Hl; rewrite E1 in Hl; cbn in Hl.
  destruct (pop_ok RB _ (ck_rd w Hw) ltac:(lia)) as (x & rd & Ep & Hrd & Hrok & _ & Hcn & Hco & _).
  rewrite E1 in Hco; cbn [app] in E1, Hco; injection Hco as <- Hco.
  assert (Hne : RINGBUF_EMPTY (blockreads (ses w)) = false).
  { apply Z.eqb_neq; intros E; unfold count in Hl; rewrite E, Z.sub_diag in Hl; change (wrap RB 0) with 0 in Hl; lia. }
  destruct (ck_cached w Hw i) as [e He]; [rewrite E1; by left|].
  pose proof (zput_is_Some _ _ (Some (mk_ent (data e) true)) (zget_Some_range _ _ _ He)) as Hp.
  rewrite Hne, Ep; cbn [mbind option_bind]; rewrite He; cbn [mbind option_bind]; rewrite Hp; cbn [mbind option_bind].
  destruct (ack_one w i dn e rd _ Hw E1 E2 E3 He Hp Hrok Hrd (eq_sym Hco)) as (Hw1 & Hi1 & H2 & H3).
  destruct (IH n _ Hw1 (eq_sym Hco) H2 H3) as (w' & E & H & Hi & Hrest); [cbn in Hn; lia|].
  exists w'; split; [done|]; split; [done|]; split; [by rewrite Hi, Hi1|done].
Qed.

(** Serving requests in order. *)
Definition spec_cb (st : list (list Z) * gmap Z (list Z)) (cb : io_callback_t) : list (list Z) * gmap Z (list Z) :=
  spec_rw (cb_sector cb) (cb_buf cb) (cb_is_write cb) st.

(** The first request left waits for a block the driver has not delivered. *)
Definition waits (w : world) (rest : list io_callback_t) : Prop :=
  match rest with
  | [] => True
  | cb :: _ => cb_sector cb / per_block ∈ contents RB (blockreads (ses w))
  end.

Lemma next_callback_ok w cb rest : cache_ok w -> contents RB (callbacks (ses w)) = cb :: rest ->
  let w' := set_ses w (mk_session (should_poll (ses w)) (RINGBUF_NEXT RB (callbacks (ses w))) (blockreads (ses w))
                         (blockreads_ack (ses w)) (block_cache (ses w))) in
  cache_ok w' /\ contents RB (callbacks (ses w')) = rest.
Proof.
  intros Hw E; pose proof (length_contents RB _ (ck_cb w Hw)) as Hl; rewrite E in Hl; cbn in Hl.
  destruct (pop_ok RB _ (ck_cb w Hw) ltac:(lia)) as (x & r & _ & -> & Hrok & _ & _ & Hco & _).
  rewrite E in Hco; injection Hco as <- Hco; cbn; split; [|done].
  split; cbn; try apply Hw; [done|]; intros cb' Hcb'; rewrite <- Hco in Hcb'.
  destruct (ck_callbacks w Hw cb') as [? ?]; [rewrite E; by right|]; split; [by apply (request_bufs w)|done].
Qed.

Lemma run_callbacks_spec n w cbs : cache_ok w -> contents RB (callbacks (ses w)) = cbs -> (length cbs <= n)%nat ->
  exists w' served rest, run_callbacks BITS n w = Some w' /\ cache_ok w' /\ cbs = served ++ rest /\
    contents RB (callbacks (ses w')) = rest /\ (image w', bufs w') = foldl spec_cb (image w, bufs w) served /\
    answered w' = answered w ++ (cb_sync_ret <$> served) /\ waits w' rest /\
    (blockreads (ses w'), reads w') = (blockreads (ses w), reads w).
Proof.
  revert n w; induction cbs as [|cb cbs IH]; intros n w Hw Hc Hn.
  { exists w, [], []; pose proof (length_contents RB _ (ck_cb w Hw)) as Hl; rewrite Hc in Hl; cbn in Hl.
    split; [|split_and!; try done; by rewrite app_nil_r]; assert (E : RINGBUF_EMPTY (callbacks (ses w)) = true).
    { apply Z.eqb_eq; rewrite <- (tl_count RB _ (ck_cb w Hw)), <- Hl, Z.add_0_r; apply wrap_small, (ck_cb w Hw). }
    destruct n; cbn [run_callbacks]; by rewrite E. }
  destruct n as [|n]; [cbn in Hn; lia|]; pose proof (length_contents RB _ (ck_cb w Hw)) as Hl; rewrite Hc in Hl; cbn in Hl.
  destruct (pop_ok RB _ (ck_cb w Hw) ltac:(lia)) as (x & r & _ & _ & _ & _ & _ & Hco & Hel).
  rewrite Hc in Hco; injection Hco as <- _.
  destruct (ck_callbacks w Hw cb) as [Hr (e & He)]; [rewrite Hc; by left|]; pose proof (ro_sector _ _ _ Hr) as Hs.
  cbn [run_callbacks]; assert (E : RINGBUF_EMPTY (callbacks (ses w)) = false).
  { apply Z.eqb_neq; intros E; unfold count in Hl; rewrite E, Z.sub_diag in Hl; change (wrap RB 0) with 0 in Hl; lia. }
  rewrite E, Hel; cbn [mbind option_bind]; rewrite sector_addr, sector_index, sector_offset, He by lia; cbn [mbind option_bind].
  destruct (is_complete e) eqn:Hcm; cbn [negb].
  - destruct (do_copy_spec w e _ _ (cb_is_write cb) Hw Hr He Hcm) as (w1 & d & E1 & Hch & Hd & Ha & Hi).
    pose proof (answer_ok w1 (cb_sync_ret cb) (block_changed_ok w w1 _ d e Hw He Hcm Hd Hch)) as Hw1.
    pose proof (bc_rings _ _ _ _ Hch) as Hrg; injection Hrg as R1 R2 R3 R4.
    destruct (next_callback_ok _ cb cbs Hw1) as [Hw2 Hc2]; [by cbn; rewrite R1|].
    rewrite E1; cbn [mbind option_bind].
    destruct (IH n _ Hw2 Hc2) as (w' & served & rest & Er & Hw' & -> & Hc' & Hi' & Ha' & Hwt & Hb'); [cbn in Hn; lia|].
    exists w', (cb :: served), rest; split; [done|]; split; [done|]; split; [done|]; split; [done|]; split.
    { rewrite Hi'; cbn [foldl]; f_equal; unfold spec_cb; rewrite <- Hi; done. }
    split; [rewrite Ha'; cbn; rewrite Ha; by rewrite <- app_assoc|]; split; [done|]; rewrite Hb'; cbn; congruence.
  - exists w, [], (cb :: cbs); split; [done|]; split_and!; try done; [by rewrite app_nil_r|]; cbn.
    by apply (ck_complete w Hw _ e He).
Qed.

Lemma poll_ok w b : cache_ok w ->
  cache_ok (set_ses w (mk_session b (callbacks (ses w)) (blockreads (ses w)) (blockreads_ack (ses w)) (block_cache (ses w)))).
Proof.
  intros Hw; split; cbn; try apply Hw; intros cb Hcb; destruct (ck_callbacks w Hw cb Hcb) as [? ?]; split; [|done].
  by apply (request_bufs w).
Qed.

Lemma handle_callbacks_spec w : cache_ok w ->
  exists w' served rest, handle_callbacks BITS w = Some w' /\ cache_ok w' /\
    contents RB (callbacks (ses w)) = served ++ rest /\ contents RB (callbacks (ses w')) = rest /\
    (image w', bufs w') = foldl spec_cb (image w, bufs w) served /\
    answered w' = answered w ++ (cb_sync_ret <$> served) /\ reads w' = reads w /\
    match rest with [] => True | cb :: _ => cb_sector cb / per_block ∈ reads w end.
Proof.
  intros Hw; destruct (ck_pending w Hw) as (dn & E1 & E2 & E3).
  pose proof (contents_small _ (ck_rd w Hw)) as Hs; rewrite E1, length_app in Hs.
  destruct (ack_reads_spec 256 w dn Hw E1 E2 E3 ltac:(lia)) as (w1 & Ea & Hw1 & I1 & B1 & A1 & C1 & R1 & K1).
  unfold handle_callbacks; rewrite Ea; cbn [mbind option_bind].
  pose proof (poll_ok w1 (if RINGBUF_EMPTY (blockreads (ses w1)) then false else should_poll (ses w1)) Hw1) as Hw2.
  pose proof (contents_small _ (ck_cb w1 Hw1)) as Hs1.
  destruct (run_callbacks_spec 256 _ _ Hw2 eq_refl) as (w' & served & rest & Er & Hw' & Hc & Hc' & Hi & Ha & Hwt & Hb); [cbn; lia|].
  cbn in Hc, Hi, Ha, Hb; rewrite C1 in Hc; injection Hb as Hb1 Hb2; exists w', served, rest; split; [done|].
  split; [done|]; split; [done|]; split; [done|]; split.
  { rewrite Hi; f_equal; rewrite <- I1, <- B1; done. }
  split; [by rewrite Ha, A1|]; split; [congruence|]; destruct rest as [|cb rest]; [done|]; cbn in Hwt; rewrite Hb1, K1 in Hwt; done.
Qed.
End disk.

(** ** Sockets *)

Section sockets.
Context (BITS : Z) (HB : 0 <= BITS).

Definition cached (w : world) (i : Z) (d : list Z) : Prop :=
  zget (block_cache (ses w)) i = Some (Some (mk_ent d true)) /\ Z.of_nat (length d) = 2 ^ BITS.

Lemma find_cached w i d : cached w i d -> find_block BITS w i = Some (w, Some d).
Proof. intros [H _]; unfold find_block; rewrite H; cbn [mbind option_bind]; by rewrite H. Qed.

Lemma set_ent_ok w i d d' : cached w i d -> Z.of_nat (length d') = 2 ^ BITS ->
  exists w', set_ent w i d' = Some w' /\ cached w' i d' /\ forall j x, j <> i -> cached w j x -> cached w' j x.
Proof.
  intros [H _] Hl; pose proof (zput_is_Some _ _ (Some (mk_ent d' true)) (zget_Some_range _ _ _ H)) as Hp.
  unfold set_ent; rewrite Hp; eexists; split; [reflexivity|]; split; [split; [apply (zget_zput_eq _ _ _ _ Hp)|done]|].
  intros j x Hj [Hx Hlx]; split; [cbn; rewrite (zget_zput_ne _ _ _ _ _ Hp); done|done].
Qed.

(** One round: [n] bytes at offset [off] of block [i], from or to the start
    of the buffer. *)
Lemma ff_round fuel w a wr bl buf d copied len off n :
  cached w (map_index BITS a) d -> off = map_offset BITS a -> 0 < len -> 0 <= off < 2 ^ BITS ->
  n = Z.min (2 ^ BITS - off) len -> n <= Z.of_nat (length buf) ->
  exists w' buf' d', ff_loop BITS (S fuel) w (mk_ss a wr bl None) buf len copied =
      ff_loop BITS fuel w' (mk_ss (u64 (a + n)) wr bl None) buf' (len - n) (copied + n) /\
    cpy buf d off wr n = Some (buf', d') /\ length buf' = length buf /\ cached w' (map_index BITS a) d' /\
    forall j x, j <> map_index BITS a -> cached w j x -> cached w' j x.
Proof.
  intros Hc -> Hlen Hoff Hn Hb; pose proof (find_cached _ _ _ Hc) as Hf; pose proof (proj2 Hc) as Hd.
  assert (Hcpy : exists buf' d', cpy buf d (map_offset BITS a) wr n = Some (buf', d') /\ length buf' = length buf /\ length d' = length d).
  { unfold cpy; destruct wr.
    - rewrite slice_ok by lia; cbn [mbind option_bind].
      destruct (splice_ok d (map_offset BITS a) (take (Z.to_nat n) (drop (Z.to_nat 0) buf))) as (d' & E & Hl);
        [lia|rewrite length_take, length_drop; lia|].
      rewrite E; cbn [mbind option_bind]; by exists buf, d'.
    - rewrite slice_ok by lia; cbn [mbind option_bind].
      destruct (splice_ok buf 0 (take (Z.to_nat n) (drop (Z.to_nat (map_offset BITS a)) d))) as (b' & E & Hl);
        [lia|rewrite length_take, length_drop; lia|].
      rewrite E; cbn [mbind option_bind]; by exists b', d. }
  destruct Hcpy as (buf' & d' & Ec & Hbl & Hdl).
  destruct (set_ent_ok w (map_index BITS a) d d' Hc ltac:(lia)) as (w' & Ew & Hc' & Hoth).
  exists w', buf', d'; split; [|done]; cbn [ff_loop addr user_write blocked aes_ctx].
  rewrite (proj2 (Z.eqb_neq len 0)) by lia; rewrite Hf; cbn [mbind option_bind].
  assert (Hn' : (if BLOCK_SIZE BITS - map_offset BITS a <? len then BLOCK_SIZE BITS - map_offset BITS a else len) = n).
  { unfold BLOCK_SIZE; rewrite Z.shiftl_1_l; destruct (Z.ltb_spec (2 ^ BITS - map_offset BITS a) len); lia. }
  rewrite Hn', Ec; cbn [mbind option_bind ff_aes]; by rewrite Ew.
Qed.

Lemma map_at i o : 0 <= i -> 0 <= o < 2 ^ BITS -> map_index BITS (i * 2 ^ BITS + o) = i /\ map_offset BITS (i * 2 ^ BITS + o) = o.
Proof.
  intros Hi Ho; unfold map_index, map_offset, BLOCK_SIZE; rewrite Z.shiftl_1_l, Z.shiftr_div_pow2 by lia.
  replace (2 ^ BITS - 1) with (Z.ones BITS) by (rewrite Z.ones_equiv; lia); rewrite Z.land_ones by lia.
  rewrite Z.add_comm, Z.div_add, Z.mod_add, Z.div_small, Z.mod_small by lia; done.
Qed.

Lemma ff_within w i o wr bl buf d len :
  cached w i d -> 0 <= i -> 0 <= o -> 0 < len -> o + len <= 2 ^ BITS -> (i + 1) * 2 ^ BITS <= 2 ^ 64 -> len <= Z.of_nat (length buf) ->
  exists w' buf' d', ff BITS w (mk_ss (i * 2 ^ BITS + o) wr bl None) buf len =
      Some (w', mk_ss (u64 (i * 2 ^ BITS + o + len)) wr bl None, buf', len) /\
    cpy buf d o wr len = Some (buf', d') /\ cached w' i d'.
Proof.
  intros Hc Hi Ho Hlen Hol Hmax Hb; destruct (map_at i o Hi ltac:(lia)) as [E1 E2].
  unfold ff; assert (Hf : exists f, Z.to_nat (len / BLOCK_SIZE BITS + 2) = S (S f)).
  { exists (Z.to_nat (len / BLOCK_SIZE BITS)); pose proof (Z.div_pos len (BLOCK_SIZE BITS)) as H.
    unfold BLOCK_SIZE in *; rewrite Z.shiftl_1_l in *; specialize (H ltac:(lia) ltac:(apply Z.pow_pos_nonneg; lia)); lia. }
  destruct Hf as [f ->].
  destruct (ff_round (S f) w (i * 2 ^ BITS + o) wr bl buf d 0 len o len) as (w' & buf' & d' & E & Ec & _ & Hc' & _);
    [by rewrite E1|done|done|lia|lia|done|].
  exists w', buf', d'; rewrite E1 in Hc'; split; [|done]; rewrite E, Z.sub_diag; cbn [ff_loop Z.eqb]; done.
Qed.

Lemma ff_two_blocks w i bl buf d0 d1 :
  cached w i d0 -> cached w (i + 1) d1 -> 0 <= i -> (i + 2) * 2 ^ BITS < 2 ^ 64 -> 2 * 2 ^ BITS <= Z.of_nat (length buf) ->
  exists w', ff BITS w (mk_ss (i * 2 ^ BITS) true bl None) buf (2 * 2 ^ BITS) =
      Some (w', mk_ss ((i + 2) * 2 ^ BITS) true bl None, buf, 2 * 2 ^ BITS) /\
    cached w' i (take (Z.to_nat (2 ^ BITS)) buf) /\ cached w' (i + 1) (take (Z.to_nat (2 ^ BITS)) buf).
Proof.
  intros H0 H1 Hi Hmax Hb; pose proof (Z.pow_pos_nonneg 2 BITS ltac:(lia) HB) as Hp.
  destruct (map_at i 0 Hi ltac:(lia)) as [E1 E2]; destruct (map_at (i + 1) 0 ltac:(lia) ltac:(lia)) as [E3 E4].
  rewrite Z.add_0_r in E1, E2, E3, E4.
  unfold ff; replace (Z.to_nat (2 * 2 ^ BITS / BLOCK_SIZE BITS + 2)) with 4%nat
    by (unfold BLOCK_SIZE; rewrite Z.shiftl_1_l, Z.div_mul by lia; done).
  assert (Hfull : forall d b', Z.of_nat (length d) = 2 ^ BITS -> forall d', cpy buf d 0 true (2 ^ BITS) = Some (b', d') ->
    b' = buf /\ d' = take (Z.to_nat (2 ^ BITS)) buf).
  { intros d b' Hd d'; unfold cpy; rewrite slice_ok by lia; cbn [mbind option_bind]; change (Z.to_nat 0) with 0%nat; rewrite drop_0.
    unfold splice; destruct_if; [|done]; cbn [mbind option_bind]; intros [= <- <-]; split; [done|]; cbn.
    rewrite drop_ge, app_nil_r; [done|]; rewrite length_take; lia. }
  destruct (ff_round 3 w (i * 2 ^ BITS) true bl buf d0 0 (2 * 2 ^ BITS) 0 (2 ^ BITS)) as (w1 & b1 & d0' & R1 & C1 & _ & K1 & O1);
    [by rewrite E1|done|lia..|].
  destruct (Hfull _ _ (proj2 H0) _ C1) as [-> ->]; rewrite R1; rewrite E1 in K1, O1.
  replace (u64 (i * 2 ^ BITS + 2 ^ BITS)) with ((i + 1) * 2 ^ BITS) by (rewrite wrap_small by (unfold in_range; lia); lia).
  destruct (ff_round 2 w1 ((i + 1) * 2 ^ BITS) true bl buf d1 (0 + 2 ^ BITS) (2 * 2 ^ BITS - 2 ^ BITS) 0 (2 ^ BITS))
    as (w2 & b2 & d1' & R2 & C2 & _ & K2 & O2); [rewrite E3; apply O1; [lia|done]|done|lia..|].
  destruct (Hfull _ _ (proj2 H1) _ C2) as [-> ->]; rewrite R2; rewrite E3 in K2, O2.
  exists w2; split; [|split; [apply O2; [lia|done]|done]].
  replace (2 * 2 ^ BITS - 2 ^ BITS - 2 ^ BITS) with 0 by lia; cbn [ff_loop Z.eqb].
  rewrite wrap_small by (unfold in_range; lia); do 4 f_equal; [f_equal|]; lia.
Qed.
End sockets.

(** ** The properties *)

(** A session just made: nothing cached, nothing asked for. *)
Definition fresh_world (nblocks : Z) (b : gmap Z (list Z)) : world :=
  mk_world (mk_session false (mk_ring 0 0 (replicate RB_SIZE (mk_cb 0 false 0 0))) (mk_ring 0 0 (replicate RB_SIZE 0)) 0
              (replicate (Z.to_nat nblocks) None)) [] b [].

Lemma fresh_ok BITS nblocks disk b : 0 <= nblocks -> cache_ok BITS nblocks disk (fresh_world nblocks b).
Proof.
  intros Hn; assert (Hz : forall i e, zget (replicate (Z.to_nat nblocks) (None : option block_cache_ent_t)) i <> Some (Some e)).
  { intros i e H; unfold zget in H; destruct_if; [|done]; apply lookup_replicate in H as [H _]; done. }
  split; cbn; try done; try (intros i e H; by apply Hz in H).
  - rewrite length_replicate; lia.
  - split; cbn; try done; by exists 5.
  - split; cbn; try done; by exists 5.
  - exists []; split_and!; try done; intros i e H; by apply elem_of_nil in H.
  - apply NoDup_nil_2.
  - intros i H; by apply elem_of_nil in H.
  - intros cb H; by apply elem_of_nil in H.
Qed.

(** C17: The block cache is a disk of 512-byte sectors.  Seen through its
    blocks, cached or still on the device, a session is a list of sectors:
    a request on a cached block is served at once, atomically; any other
    waits without changing anything; the driver's answers change nothing a
    client can see; and [handle_callbacks], which always completes, serves a
    prefix of the waiting requests in order, each atomically when it is
    answered, stopping only at one whose block the driver still owes, so that
    nothing is left waiting once the driver has answered everything.  A request
    is made for a sector of the disk with a buffer of a sector or more, while
    the two rings have room: with 32 requests waiting the test for a full ring
    of 8-bit indices can fail. *)
Theorem block_cache_is_disk BITS nblocks disk w :
  9 <= BITS -> 0 <= nblocks /\ nblocks * 2 ^ BITS <= 2 ^ 64 ->
  (forall i, 0 <= i < nblocks -> Z.of_nat (length (disk i)) = 2 ^ BITS) ->
  cache_ok BITS nblocks disk w ->
  (forall caller s buf wr, request_ok BITS nblocks w s buf ->
     count RB (callbacks (ses w)) < RINGBUF_SZ (callbacks (ses w)) ->
     count RB (blockreads (ses w)) < RINGBUF_SZ (blockreads (ses w)) ->
     exists w' r, rw_sector BITS w caller s buf wr = Some (w', r) /\ cache_ok BITS nblocks disk w' /\
       (r = Done 0 /\ (image BITS nblocks disk w', bufs w') = spec_rw s buf wr (image BITS nblocks disk w, bufs w) /\
          answered w' = answered w ++ [caller] /\ callbacks (ses w') = callbacks (ses w) \/
        r = Delayed /\ (image BITS nblocks disk w', bufs w') = (image BITS nblocks disk w, bufs w) /\ answered w' = answered w /\
          contents RB (callbacks (ses w')) = contents RB (callbacks (ses w)) ++ [mk_cb s wr caller buf])) /\
  (forall i rest, reads w = i :: rest ->
     exists w', driver_read disk w = Some w' /\ cache_ok BITS nblocks disk w' /\
       (image BITS nblocks disk w', bufs w') = (image BITS nblocks disk w, bufs w) /\
       callbacks (ses w') = callbacks (ses w) /\ reads w' = rest) /\
  (exists w' served rest, handle_callbacks BITS w = Some w' /\ cache_ok BITS nblocks disk w' /\
     contents RB (callbacks (ses w)) = served ++ rest /\ contents RB (callbacks (ses w')) = rest /\
     (image BITS nblocks disk w', bufs w') = foldl spec_cb (image BITS nblocks disk w, bufs w) served /\
     answered w' = answered w ++ (cb_sync_ret <$> served) /\ reads w' = reads w /\
     match rest with [] => True | cb :: _ => cb_sector cb / per_block BITS ∈ reads w end).
Proof.
  intros HB Hn Hd Hw; split; [|split].
  - intros; by apply rw_sector_spec.
  - intros i rest Hr; destruct (driver_read_spec BITS HB nblocks disk Hd w i rest Hw Hr) as (w' & E & Hw' & H1 & H2 & H3 & H4 & H5).
    exists w'; by rewrite H1, H2.
  - by apply handle_callbacks_spec.
Qed.

(** A write through a socket that crosses a block boundary stores the
    wrong bytes.  Within one cached block [ff] copies exactly the bytes asked
    for; but it does not advance the buffer between blocks, so a write of two
    whole blocks reports full success and stores the first half of the
    buffer in both. *)
Theorem ff_straddle_wrong BITS w i bl d0 d1 :
  0 <= BITS -> cached BITS w i d0 -> cached BITS w (i + 1) d1 -> 0 <= i -> (i + 2) * 2 ^ BITS < 2 ^ 64 ->
  (forall o wr buf len, 0 <= o -> 0 < len -> o + len <= 2 ^ BITS -> len <= Z.of_nat (length buf) ->
     exists w' buf' d', ff BITS w (mk_ss (i * 2 ^ BITS + o) wr bl None) buf len =
         Some (w', mk_ss (u64 (i * 2 ^ BITS + o + len)) wr bl None, buf', len) /\
       cpy buf d0 o wr len = Some (buf', d') /\ cached BITS w' i d') /\
  (forall lo hi, Z.of_nat (length lo) = 2 ^ BITS -> Z.of_nat (length hi) = 2 ^ BITS ->
     exists w', ff BITS w (mk_ss (i * 2 ^ BITS) true bl None) (lo ++ hi) (2 * 2 ^ BITS) =
         Some (w', mk_ss ((i + 2) * 2 ^ BITS) true bl None, lo ++ hi, 2 * 2 ^ BITS) /\
       cached BITS w' i lo /\ cached BITS w' (i + 1) lo).
Proof.
  intros HB H0 H1 Hi Hmax; pose proof (Z.pow_pos_nonneg 2 BITS ltac:(lia) HB) as Hp; split.
  - intros o wr buf len Ho Hlen Hol Hb; apply ff_within; try done; nia.
  - intros lo hi Hlo Hhi.
    destruct (ff_two_blocks BITS HB w i bl (lo ++ hi) d0 d1 H0 H1 Hi Hmax) as (w' & E & C0 & C1); [rewrite length_app; lia|].
    rewrite take_app_le, take_ge in C0, C1 by lia; by exists w'.
Qed.

(** Two blocks of two sectors: a write to sector 3 waits for its block, is
    served after the driver has answered, and a read then finds the bytes at
    once. *)
Definition demo_disk (i : Z) : list Z := replicate 1024 i.
Definition demo_w0 : world := fresh_world 2 {[ 1 := replicate 512 9; 2 := replicate 600 0 ]}.
Definition demo_w1 : world := match rw_sector 10 demo_w0 42 3 1 true with Some (w, _) => w | None => demo_w0 end.
Definition demo_w2 : world := default demo_w1 (driver_read demo_disk demo_w1).
Definition demo_w3 : world := default demo_w2 (handle_callbacks 10 demo_w2).

Lemma block_cache_is_disk_witness :
  rw_sector 10 demo_w0 42 3 1 true = Some (demo_w1, Delayed) /\ driver_read demo_disk demo_w1 = Some demo_w2 /\
  handle_callbacks 10 demo_w2 = Some demo_w3 /\ contents RB (callbacks (ses demo_w2)) = [mk_cb 3 true 42 1] /\
  answered demo_w3 = [42] /\ contents RB (callbacks (ses demo_w3)) = [] /\
  (image 10 2 demo_disk demo_w3, bufs demo_w3) = spec_rw 3 1 true (image 10 2 demo_disk demo_w0, bufs demo_w0) /\
  exists w4, rw_sector 10 demo_w3 43 3 2 false = Some (w4, Done 0) /\ cache_ok 10 2 demo_disk w4 /\ bufs w4 !! 2 = Some (replicate 512 9 ++ replicate 88 0).
Proof.
  assert (Hd : forall i, 0 <= i < 2 -> Z.of_nat (length (demo_disk i)) = 2 ^ 10) by (intros; reflexivity).
  assert (Hn : 0 <= 2 /\ 2 * 2 ^ 10 <= 2 ^ 64) by (split; vm_compute; congruence).
  assert (E1 : rw_sector 10 demo_w0 42 3 1 true = Some (demo_w1, Delayed)) by (vm_compute; reflexivity).
  assert (E2 : driver_read demo_disk demo_w1 = Some demo_w2) by (vm_compute; reflexivity).
  assert (E3 : handle_callbacks 10 demo_w2 = Some demo_w3) by (vm_compute; reflexivity).
  assert (E4 : contents RB (callbacks (ses demo_w2)) = [mk_cb 3 true 42 1]) by (vm_compute; reflexivity).
  assert (Er : reads demo_w1 = [1] /\ reads demo_w2 = [] /\ answered demo_w2 = []) by (vm_compute; split; [reflexivity|split; reflexivity]); destruct Er as (Er1 & Er2 & Ea).
  destruct (block_cache_is_disk 10 2 demo_disk demo_w0 ltac:(lia) Hn Hd (fresh_ok 10 2 demo_disk _ ltac:(lia))) as (H0 & _ & _).
  destruct (H0 42 3 1 true) as (w1 & r1 & F1 & Hw1 & H01); [split; [vm_compute; split; congruence|eexists; split; [reflexivity|vm_compute; lia]]|reflexivity|reflexivity|].
  rewrite E1 in F1; injection F1 as <- <-; destruct H01 as [[H01 _]|(_ & Hi1 & _)]; [discriminate H01|].
  destruct (block_cache_is_disk 10 2 demo_disk demo_w1 ltac:(lia) Hn Hd Hw1) as (_ & H1 & _).
  destruct (H1 1 [] Er1) as (w2 & F2 & Hw2 & Hi2 & _); rewrite E2 in F2; injection F2 as <-.
  destruct (block_cache_is_disk 10 2 demo_disk demo_w2 ltac:(lia) Hn Hd Hw2) as (_ & _ & w3 & served & rest & F3 & Hw3 & Hc & Hr & Hi3 & Ha & _ & Hm).
  rewrite E3 in F3; injection F3 as <-; destruct rest as [|cb rest]; [|rewrite Er2 in Hm; apply elem_of_nil in Hm as []].
  rewrite app_nil_r, E4 in Hc; subst served; rewrite Ea in Ha; cbn [foldl] in Hi3; unfold spec_cb in Hi3; rewrite Hi2, Hi1 in Hi3.
  destruct (block_cache_is_disk 10 2 demo_disk demo_w3 ltac:(lia) Hn Hd Hw3) as (H3 & _ & _).
  destruct (H3 43 3 2 false) as (w4 & r4 & F4 & Hw4 & _); [split; [vm_compute; split; congruence|eexists; split; [vm_compute; reflexivity|vm_compute; lia]]|reflexivity|reflexivity|].
  assert (E5 : (fun x => (x.2, bufs x.1 !! 2)) <$> rw_sector 10 demo_w3 43 3 2 false = Some (Done 0, Some (replicate 512 9 ++ replicate 88 0))) by (vm_compute; reflexivity).
  rewrite F4 in E5; cbn in E5; injection E5 as -> E5.
  split; [exact E1|split; [exact E2|split; [exact E3|split; [exact E4|split; [exact Ha|split; [exact Hr|split; [exact Hi3|exists w4; split; [exact F4|split; [exact Hw4|exact E5]]]]]]]]].
Defined.

Definition straddle_world : world :=
  mk_world (mk_session false (mk_ring 0 0 []) (mk_ring 0 0 []) 0
              [Some (mk_ent [0; 0] true); Some (mk_ent [0; 0] true)]) [] ∅ [].

Lemma ff_straddle_wrong_witness :
  exists w', ff 1 straddle_world (mk_ss 0 true None None) [1; 2; 3; 4] 4 = Some (w', mk_ss 4 true None None, [1; 2; 3; 4], 4) /\
    cached 1 w' 1 [1; 2].
Proof.
  destruct (ff_straddle_wrong 1 straddle_world 0 None [0; 0] [0; 0]) as [_ H]; [lia|split; reflexivity|split; reflexivity|lia|reflexivity|].
  destruct (H [1; 2] [3; 4] eq_refl eq_refl) as (w' & E & _ & C); exists w'; split; [exact E|exact C].
Defined.

