(* ===== verification/NetIO.v ===== *)
(** * Sockets, full reads and writes, and the page-protocol header

    [recv] and [send] of the two sides of the disaggregated-memory protocol
    (netmem_page.c, memsrv_page.c) may transfer fewer bytes than asked, be
    interrupted, or fail.  A [sock] carries, next to the bytes, the list of
    outcomes the kernel will give; once the list is used up every call
    transfers all it can. *)

From S2P Require Import Prelude.

(** ** The socket *)

Inductive recv_ev :=
| RecvUpTo (k : nat)   (** at most [S k] bytes *)
| RecvEintr
| RecvErr.

Inductive send_ev :=
| SendUpTo (k : nat)
| SendEintr
| SendErr.

(** [rx] is everything the peer sends before it closes its side; [tx] what has
    been handed to the kernel. *)
Record sock := mk_sock {
  rx : list Z;
  rx_evs : list recv_ev;
  tx : list Z;
  tx_evs : list send_ev
}.

Definition set_rx (s : sock) (bs : list Z) (evs : list recv_ev) : sock :=
  mk_sock bs evs (tx s) (tx_evs s).

Definition set_tx (s : sock) (bs : list Z) (evs : list send_ev) : sock :=
  mk_sock (rx s) (rx_evs s) bs evs.

Inductive io_res := IoBytes (bs : list Z) | IoClosed | IoEintr | IoError.

Definition recv (n : nat) (s : sock) : io_res * sock :=
  match rx_evs s with
  | RecvEintr :: evs => (IoEintr, set_rx s (rx s) evs)
  | RecvErr :: evs => (IoError, set_rx s (rx s) evs)
  | RecvUpTo k :: evs =>
      match rx s with
      | [] => (IoClosed, set_rx s [] evs)
      | _ => let m := Nat.min n (S k) in
             (IoBytes (take m (rx s)), set_rx s (drop m (rx s)) evs)
      end
  | [] =>
      match rx s with
      | [] => (IoClosed, s)
      | _ => (IoBytes (take n (rx s)), set_rx s (drop n (rx s)) [])
      end
  end.

Definition send (bs : list Z) (s : sock) : io_res * sock :=
  match tx_evs s with
  | SendEintr :: evs => (IoEintr, set_tx s (tx s) evs)
  | SendErr :: evs => (IoError, set_tx s (tx s) evs)
  | SendUpTo k :: evs =>
      let m := take (S k) bs in (IoBytes m, set_tx s (tx s ++ m) evs)
  | [] => (IoBytes bs, set_tx s (tx s ++ bs) [])
  end.

(** ** [read_full] and [write_full]

    The loops run on fuel; [read_full] and [write_full] give them one unit per
    event and per byte, which [read_loop_total] and [write_loop_total] show
    is enough.  [buf] is the part of the caller's buffer written so far. *)

Fixpoint read_loop (fuel : nat) (n : nat) (buf : list Z) (s : sock)
  : option (Z * list Z * sock) :=
  if (length buf <? n)%nat then
    match fuel with
    | O => None
    | S fuel =>
        match recv (n - length buf) s with
        | (IoClosed, s) => Some (0, buf, s)
        | (IoEintr, s) => read_loop fuel n buf s
        | (IoError, s) => Some (-1, buf, s)
        | (IoBytes bs, s) => read_loop fuel n (buf ++ bs) s
        end
    end
  else Some (Z.of_nat (length buf), buf, s).

Definition read_full (n : nat) (s : sock) : Z * list Z * sock :=
  default (-1, [], s) (read_loop (length (rx_evs s) + S n) n [] s).

Fixpoint write_loop (fuel : nat) (bs : list Z) (sent : nat) (s : sock)
  : option (Z * sock) :=
  if (sent <? length bs)%nat then
    match fuel with
    | O => None
    | S fuel =>
        match send (drop sent bs) s with
        | (IoEintr, s) => write_loop fuel bs sent s
        | (IoBytes w, s) => write_loop fuel bs (sent + length w) s
        | (_, s) => Some (-1, s)
        end
    end
  else Some (Z.of_nat sent, s).

Definition write_full (bs : list Z) (s : sock) : Z * sock :=
  default (-1, s) (write_loop (length (tx_evs s) + S (length bs)) bs 0 s).

(** ** The header

    Four 32-bit fields in network byte order. *)

Record MsgHdr := mk_hdr { op : Z; region : Z; page : Z; len : Z }.

Definition htonl (x : Z) : list Z :=
  [u8 (Z.shiftr x 24); u8 (Z.shiftr x 16); u8 (Z.shiftr x 8); u8 x].

Definition ntohl (bs : list Z) : Z :=
  match bs with
  | [a; b; c; d] => a * 2 ^ 24 + b * 2 ^ 16 + c * 2 ^ 8 + d
  | _ => 0
  end.

Definition encode_hdr (h : MsgHdr) : list Z :=
  htonl (op h) ++ htonl (region h) ++ htonl (page h) ++ htonl (len h).

Definition decode_hdr (bs : list Z) : MsgHdr :=
  mk_hdr (ntohl (take 4 bs)) (ntohl (take 4 (drop 4 bs)))
         (ntohl (take 4 (drop 8 bs))) (ntohl (take 4 (drop 12 bs))).

Definition HDR_SZ : nat := 16.
Definition OP_ALLOC_REGION : Z := 1.
Definition OP_READ_PAGE : Z := 2.
Definition OP_WRITE_PAGE : Z := 3.
Definition PAGE_SZ : Z := 4096.

(** A page no one has written. *)
Definition zero_page : list Z := replicate (Z.to_nat PAGE_SZ) 0.

Definition hdr_wf (h : MsgHdr) : Prop :=
  in_range 32 (op h) /\ in_range 32 (region h) /\
  in_range 32 (page h) /\ in_range 32 (len h).

(** ** What the loops do *)

(** No hard error is pending; interruptions and short transfers are. *)
Definition rx_ok (s : sock) : Prop := RecvErr ∉ rx_evs s.
Definition tx_ok (s : sock) : Prop := SendErr ∉ tx_evs s.

Lemma zero_page_length : length zero_page = Z.to_nat PAGE_SZ.
Proof. apply length_replicate. Qed.

#[global] Opaque zero_page.

Lemma htonl_length x : length (htonl x) = 4%nat.
Proof. done. Qed.

Lemma encode_hdr_length h : length (encode_hdr h) = HDR_SZ.
Proof. done. Qed.

Lemma ntohl_htonl x : in_range 32 x -> ntohl (htonl x) = x.
Proof.
  unfold in_range, htonl, ntohl, wrap; intros H.
  rewrite !Z.shiftr_div_pow2 by lia.
  change (2 ^ 24) with (2 ^ 8 * 2 ^ 8 * 2 ^ 8); change (2 ^ 16) with (2 ^ 8 * 2 ^ 8).
  rewrite <- !Z.div_div by lia.
  change (2 ^ 32) with 4294967296 in H; change (2 ^ 8) with 256.
  Z.div_mod_to_equations; lia.
Qed.

Lemma ntohl_range a b c d :
  in_range 8 a -> in_range 8 b -> in_range 8 c -> in_range 8 d ->
  in_range 32 (ntohl [a; b; c; d]).
Proof. unfold in_range, ntohl; lia. Qed.

Lemma decode_encode_hdr h : hdr_wf h -> decode_hdr (encode_hdr h) = h.
Proof.
  destruct h as [o r p l]; unfold hdr_wf; cbn [op region page len].
  intros (Ho & Hr & Hp & Hl).
  change (decode_hdr (encode_hdr (mk_hdr o r p l))) with
    (mk_hdr (ntohl (htonl o)) (ntohl (htonl r)) (ntohl (htonl p)) (ntohl (htonl l))).
  by rewrite !ntohl_htonl.
Qed.

(** The number of kernel calls still to come is bounded. *)
Lemma read_loop_total fuel n buf s :
  (length (rx_evs s) + (n - length buf) < fuel)%nat ->
  is_Some (read_loop fuel n buf s).
Proof.
  revert buf s; induction fuel as [|fuel IH]; intros buf s Hf; [lia|].
  cbn [read_loop]; destruct (Nat.ltb_spec (length buf) n); [|eauto].
  unfold recv; destruct (rx_evs s) as [|[k| |] evs] eqn:Ee; cbn [length] in Hf.
  - destruct (rx s) as [|b bs] eqn:Er; [eauto|].
    apply IH; cbn [set_rx rx_evs length]; rewrite length_app, length_take; cbn [length]; lia.
  - destruct (rx s) as [|b bs] eqn:Er; [eauto|].
    apply IH; cbn [set_rx rx_evs]; rewrite length_app, length_take; cbn [length]; lia.
  - apply IH; cbn [set_rx rx_evs]; lia.
  - eauto.
Qed.

Lemma write_loop_total fuel bs sent s :
  (length (tx_evs s) + (length bs - sent) < fuel)%nat ->
  is_Some (write_loop fuel bs sent s).
Proof.
  revert sent s; induction fuel as [|fuel IH]; intros sent s Hf; [lia|].
  cbn [write_loop]; destruct (Nat.ltb_spec sent (length bs)); [|eauto].
  unfold send; destruct (tx_evs s) as [|[k| |] evs] eqn:Ee; cbn [length] in Hf.
  - apply IH; cbn [set_tx tx_evs length]; rewrite length_drop; lia.
  - apply IH; cbn [set_tx tx_evs]; rewrite length_take, length_drop; lia.
  - apply IH; cbn [set_tx tx_evs]; lia.
  - eauto.
Qed.

(** One step of [recv] without a hard error. *)
Lemma recv_cases n s :
  rx_ok s ->
  (exists evs, recv n s = (IoEintr, set_rx s (rx s) evs) /\
     rx_ok (set_rx s (rx s) evs) /\ (length evs < length (rx_evs s))%nat) \/
  (rx s = [] /\ exists evs, recv n s = (IoClosed, set_rx s [] evs) /\
     rx_ok (set_rx s [] evs)) \/
  (rx s <> [] /\ exists m evs, recv n s = (IoBytes (take m (rx s)), set_rx s (drop m (rx s)) evs) /\
     (m <= n)%nat /\ ((0 < n)%nat -> (0 < m)%nat) /\ rx_ok (set_rx s (drop m (rx s)) evs)).
Proof.
  intros Hok; unfold rx_ok, recv in *; destruct s as [bs [|[k| |] evs] t te]; cbn in *.
  - right; destruct bs as [|b bs]; [left|right]; (split; [done|]); unfold set_rx; cbn.
    + exists []; split; [done|set_solver].
    + exists n, []; repeat split; auto; set_solver.
  - right; destruct bs as [|b bs]; [left|right]; (split; [done|]); unfold set_rx; cbn.
    + exists evs; split; [done|set_solver].
    + exists (Nat.min n (S k)), evs; repeat split; auto; try lia; set_solver.
  - left; exists evs; repeat split; auto; set_solver.
  - set_solver.
Qed.

(** Whatever the fragmentation, the loop reads exactly the next bytes of the
    stream, or finds the stream closed after handing over what was left. *)
Lemma read_loop_spec fuel n buf s r :
  rx_ok s -> (length buf <= n)%nat ->
  read_loop fuel n buf s = Some r ->
  exists evs, (RecvErr ∉ evs) /\
    let k := (n - length buf)%nat in
    if (k <=? length (rx s))%nat
    then r = (Z.of_nat n, buf ++ take k (rx s), set_rx s (drop k (rx s)) evs)
    else r = (0, buf ++ rx s, set_rx s [] evs).
Proof.
  revert buf s; induction fuel as [|fuel IH]; intros buf s Hok Hle;
    cbn [read_loop]; destruct (Nat.ltb_spec (length buf) n) as [Hlt|Hge].
  - done.
  - intros [= <-]; exists (rx_evs s); split; [done|].
    replace (n - length buf)%nat with O by lia; cbn.
    rewrite drop_0, app_nil_r; replace (length buf) with n by lia; by destruct s.
  - destruct (recv_cases (n - length buf) s Hok)
      as [(evs & -> & Hok' & _)|[(Hnil & evs & -> & Hok')|(Hne & m & evs & -> & Hm & Hm0 & Hok')]].
    + intros H; destruct (IH _ _ Hok' Hle H) as (evs' & He & Hr); exists evs'; split; done.
    + intros [= <-]; exists evs; split; [exact Hok'|].
      rewrite Hnil, app_nil_r; cbn [length].
      destruct (Nat.leb_spec (n - length buf) 0); [lia|done].
    + intros H; apply IH in H; [|exact Hok'|rewrite length_app, length_take; lia].
      destruct H as (evs' & He & Hr); exists evs'; split; [done|].
      cbn [rx set_rx] in Hr; rewrite length_app, length_take, length_drop in Hr.
      specialize (Hm0 ltac:(lia)).
      destruct (Nat.leb_spec (n - length buf) (length (rx s))) as [Hk|Hk];
        destruct (Nat.leb_spec (n - (length buf + Nat.min m (length (rx s)))) (length (rx s) - m));
        try lia; subst r; unfold set_rx; cbn [tx tx_evs]; rewrite <- app_assoc.
      * rewrite Nat.min_l, take_take_drop, drop_drop by lia.
        by replace (m + (n - (length buf + m)))%nat with (n - length buf)%nat by lia.
      * by rewrite take_drop.
  - intros [= <-]; exists (rx_evs s); split; [done|].
    replace (n - length buf)%nat with O by lia; cbn.
    rewrite drop_0, app_nil_r; replace (length buf) with n by lia; by destruct s.
Qed.

Lemma read_full_eq n s :
  read_loop (length (rx_evs s) + S n) n [] s = Some (read_full n s).
Proof.
  unfold read_full.
  destruct (read_loop_total (length (rx_evs s) + S n) n [] s) as [r ->]; [cbn; lia|done].
Qed.

Lemma read_full_ok n s :
  rx_ok s -> (n <= length (rx s))%nat ->
  exists evs, (RecvErr ∉ evs) /\
    read_full n s = (Z.of_nat n, take n (rx s), set_rx s (drop n (rx s)) evs).
Proof.
  intros Hok Hn.
  destruct (read_loop_spec _ n [] s _ Hok (Nat.le_0_l n) (read_full_eq n s)) as (evs & He & Hr).
  exists evs; split; [done|]; revert Hr; cbn; rewrite Nat.sub_0_r.
  by rewrite (proj2 (Nat.leb_le _ _) Hn).
Qed.

Lemma read_full_closed n s :
  rx_ok s -> (length (rx s) < n)%nat ->
  exists evs, (RecvErr ∉ evs) /\ read_full n s = (0, rx s, set_rx s [] evs).
Proof.
  intros Hok Hn.
  destruct (read_loop_spec _ n [] s _ Hok (Nat.le_0_l n) (read_full_eq n s)) as (evs & He & Hr).
  exists evs; split; [done|]; revert Hr; cbn; rewrite Nat.sub_0_r.
  by rewrite (proj2 (Nat.leb_gt _ _) Hn).
Qed.

Lemma send_cases bs s :
  tx_ok s ->
  (exists evs, send bs s = (IoEintr, set_tx s (tx s) evs) /\ (SendErr ∉ evs)) \/
  (exists m evs, send bs s = (IoBytes (take m bs), set_tx s (tx s ++ take m bs) evs) /\
     (SendErr ∉ evs)).
Proof.
  intros Hok; unfold tx_ok, send in *; destruct s as [r re t [|[k| |] evs]]; cbn in *.
  - right; exists (length bs), []; rewrite take_ge by done; split; [done|set_solver].
  - right; exists (S k), evs; split; [done|set_solver].
  - left; exists evs; split; [done|set_solver].
  - set_solver.
Qed.

Lemma write_loop_spec fuel bs sent s r :
  tx_ok s -> (sent <= length bs)%nat ->
  write_loop fuel bs sent s = Some r ->
  exists evs, (SendErr ∉ evs) /\
    r = (Z.of_nat (length bs), set_tx s (tx s ++ drop sent bs) evs).
Proof.
  revert sent s; induction fuel as [|fuel IH]; intros sent s Hok Hle;
    cbn [write_loop]; destruct (Nat.ltb_spec sent (length bs)) as [Hlt|Hge]; [done| | |].
  1,3: intros [= <-]; exists (tx_evs s); split; [done|];
       rewrite drop_ge, app_nil_r by lia; replace sent with (length bs) by lia; by destruct s.
  destruct (send_cases (drop sent bs) s Hok) as [(evs & -> & He)|(m & evs & -> & He)].
  - intros H; apply IH in H; [|exact He|lia].
    destruct H as (evs' & He' & ->); exists evs'; split; done.
  - intros H; apply IH in H; [|exact He|rewrite length_take, length_drop; lia].
    destruct H as (evs' & He' & ->); exists evs'; split; [done|].
    cbn [set_tx tx rx rx_evs]; rewrite <- app_assoc.
    f_equal; unfold set_tx; cbn; f_equal; f_equal.
    rewrite length_take, length_drop.
    destruct (Nat.le_gt_cases m (length bs - sent)).
    + rewrite Nat.min_l by lia; rewrite <- drop_drop; apply take_drop.
    + rewrite Nat.min_r by lia; rewrite take_ge by (rewrite length_drop; lia).
      rewrite (drop_ge bs (sent + _)) by lia; apply app_nil_r.
Qed.

Lemma write_full_eq bs s :
  write_loop (length (tx_evs s) + S (length bs)) bs 0 s = Some (write_full bs s).
Proof.
  unfold write_full.
  destruct (write_loop_total (length (tx_evs s) + S (length bs)) bs 0 s) as [r ->];
    [lia|done].
Qed.

Lemma write_full_ok bs s :
  tx_ok s ->
  exists evs, (SendErr ∉ evs) /\
    write_full bs s = (Z.of_nat (length bs), set_tx s (tx s ++ bs) evs).
Proof.
  intros Hok.
  destruct (write_loop_spec _ bs 0 s _ Hok (Nat.le_0_l _) (write_full_eq bs s))
    as (evs & He & Hr); exists evs; rewrite drop_0 in Hr; done.
Qed.

(** What [read_full] does on any schedule, hard errors included: it moves a
    prefix of the stream into the buffer and leaves the send side alone. *)
Lemma recv_any n s r s' :
  recv n s = (r, s') ->
  exists k evs, s' = set_rx s (drop k (rx s)) evs /\ (k <= n)%nat /\
    match r with IoBytes bs => bs = take k (rx s) | _ => k = O end.
Proof.
  unfold recv; destruct s as [bs [|[m| |] evs] t te]; cbn.
  - destruct bs as [|b bs]; intros [= <- <-]; [exists O, []|exists n, []];
      repeat split; try lia; done.
  - destruct bs as [|b bs]; intros [= <- <-]; [exists O, evs|exists (Nat.min n (S m)), evs];
      repeat split; try lia; done.
  - intros [= <- <-]; exists O, evs; repeat split; lia.
  - intros [= <- <-]; exists O, evs; repeat split; lia.
Qed.

Lemma read_loop_any fuel n buf s r bs s' :
  (length buf <= n)%nat ->
  read_loop fuel n buf s = Some (r, bs, s') ->
  exists k evs, bs = buf ++ take k (rx s) /\ s' = set_rx s (drop k (rx s)) evs /\
    (length bs <= n)%nat /\ (0 < r -> length bs = n).
Proof.
  revert buf s; induction fuel as [|fuel IH]; intros buf s Hle;
    cbn [read_loop]; destruct (Nat.ltb_spec (length buf) n) as [Hlt|Hge]; [done| | |].
  1,3: intros [= <- <- <-]; exists O, (rx_evs s);
       rewrite take_0, drop_0, app_nil_r; repeat split; try lia; by destruct s.
  destruct (recv (n - length buf) s) as [[b1| | |] s1] eqn:E;
    destruct (recv_any _ _ _ _ E) as (k & evs & -> & Hk & Hb).
  - intros H; apply IH in H; [|subst b1; rewrite length_app, length_take; lia].
    destruct H as (k' & evs' & -> & -> & ? & ?); subst b1.
    exists (k + k')%nat, evs'; cbn [set_rx rx tx tx_evs] in *.
    rewrite <- app_assoc, take_take_drop, drop_drop in *; done.
  - intros [= <- <- <-]; subst k; exists O, evs.
    rewrite take_0, app_nil_r; repeat split; lia || done.
  - subst k; intros H; apply IH in H; [|done].
    destruct H as (k' & evs' & -> & -> & ? & ?); exists k', evs'; done.
  - intros [= <- <- <-]; subst k; exists O, evs.
    rewrite take_0, app_nil_r; repeat split; lia || done.
Qed.

Lemma read_full_any n s r bs s' :
  read_full n s = (r, bs, s') ->
  exists k evs, bs = take k (rx s) /\ s' = set_rx s (drop k (rx s)) evs /\
    (length bs <= n)%nat /\ (0 < r -> length bs = n).
Proof.
  intros H; pose proof (read_full_eq n s) as E; rewrite H in E.
  apply (read_loop_any _ n [] s) in E; [done|cbn; lia].
Qed.

Lemma send_any bs s r s' :
  send bs s = (r, s') -> rx s' = rx s /\ rx_evs s' = rx_evs s.
Proof. unfold send; destruct (tx_evs s) as [|[]]; by intros [= <- <-]. Qed.

Lemma write_full_any bs s r s' :
  write_full bs s = (r, s') -> rx s' = rx s /\ rx_evs s' = rx_evs s.
Proof.
  intros H; pose proof (write_full_eq bs s) as E; rewrite H in E; clear H.
  revert E; generalize (length (tx_evs s) + S (length bs))%nat as fuel.
  generalize O as sent; intros sent fuel; revert sent s.
  induction fuel as [|fuel IH]; intros sent s; cbn [write_loop]; destruct_if; try done;
    try (by intros [= _ ->]).
  destruct (send (drop sent bs) s) as [[w| | |] s1] eqn:Es;
    destruct (send_any _ _ _ _ Es) as [<- <-]; try (by intros [= _ <-]); apply IH.
Qed.

(** Consuming [i] from and emitting [o] to a connection without hard errors. *)
Definition xfer (s s' : sock) (i o : list Z) : Prop :=
  rx s = i ++ rx s' /\ tx s' = tx s ++ o /\ rx_ok s' /\ tx_ok s'.

Lemma xfer_trans s1 s2 s3 i1 i2 o1 o2 :
  xfer s1 s2 i1 o1 -> xfer s2 s3 i2 o2 -> xfer s1 s3 (i1 ++ i2) (o1 ++ o2).
Proof.
  intros (H1 & H2 & _ & _) (H3 & H4 & ? & ?); unfold xfer.
  by rewrite H1, H3, H4, H2, !app_assoc.
Qed.

Lemma write_full_xfer bs s :
  rx_ok s -> tx_ok s -> xfer s (write_full bs s).2 [] bs.
Proof.
  intros Hr Ht; destruct (write_full_ok bs s Ht) as (evs & He & ->); done.
Qed.

Lemma read_full_xfer s i rest :
  rx_ok s -> tx_ok s -> rx s = i ++ rest ->
  exists s', read_full (length i) s = (Z.of_nat (length i), i, s') /\ xfer s s' i [] /\ rx s' = rest.
Proof.
  intros Hr Ht Hrx.
  destruct (read_full_ok (length i) s Hr) as (evs & He & ->).
  { rewrite Hrx, length_app; lia. }
  rewrite Hrx, take_app_length, drop_app_length; eexists; split_and!; [done| |done].
  split_and!; try done; cbn; by rewrite ?app_nil_r.
Qed.

(** ** Properties *)

(** Full reads and writes hide fragmentation.  Short and interrupted
    transfers change nothing: a read returns exactly the next [n] bytes, or 0
    with all that was left when the peer closed first, and leaves the rest of
    the stream; a write hands over the whole buffer. *)
Theorem full_transfers n bs s :
  rx_ok s -> tx_ok s ->
  (exists s', write_full bs s = (Z.of_nat (length bs), s') /\ xfer s s' [] bs) /\
  exists s', xfer s s' (take n (rx s)) [] /\
    read_full n s = (if (n <=? length (rx s))%nat then Z.of_nat n else 0, take n (rx s), s').
Proof.
  intros Hr Ht; split.
  - destruct (write_full_ok bs s Ht) as (evs & He & E).
    eexists; split; [exact E|]; by unfold xfer.
  - destruct (Nat.leb_spec n (length (rx s))) as [Hn|Hn].
    + destruct (read_full_ok n s Hr Hn) as (evs & He & ->); eexists; split; [|done].
      unfold xfer; cbn; by rewrite take_drop, app_nil_r.
    + destruct (read_full_closed n s Hr Hn) as (evs & He & ->).
      rewrite take_ge by lia; eexists; split; [|done].
      unfold xfer; cbn; by rewrite !app_nil_r.
Qed.

Lemma full_transfers_witness :
  exists s', xfer (mk_sock [1; 2; 3; 4; 5] [RecvEintr; RecvUpTo 0] [] [SendEintr]) s' [1; 2; 3; 4] [] /\
    read_full 4 (mk_sock [1; 2; 3; 4; 5] [RecvEintr; RecvUpTo 0] [] [SendEintr]) = (4, [1; 2; 3; 4], s').
Proof.
  apply (full_transfers 4 [] (mk_sock [1; 2; 3; 4; 5] [RecvEintr; RecvUpTo 0] [] [SendEintr]));
    unfold rx_ok, tx_ok; set_solver.
Defined.

(** The header survives the wire: decoding the sixteen big-endian bytes of
    a header gives it back. *)
Theorem header_roundtrip h : hdr_wf h -> decode_hdr (encode_hdr h) = h /\ length (encode_hdr h) = HDR_SZ.
Proof. intros H; split; [by apply decode_encode_hdr|apply encode_hdr_length]. Qed.

Lemma header_roundtrip_witness :
  decode_hdr (encode_hdr (mk_hdr 3 4294967295 70000 4096)) = mk_hdr 3 4294967295 70000 4096.
Proof.
  apply (header_roundtrip (mk_hdr 3 4294967295 70000 4096)); unfold hdr_wf, in_range; cbn; lia.
Defined.
