(* ===== verification/MemServer.v ===== *)
(** * The remote page store (memsrv_page.c)

    Regions are allocated by clients; each is a sparse list of 4096-byte
    pages.  The server answers one connection at a time from a fixed-size
    header, and replies before it drains the payload of a request it
    refuses. *)

From S2P Require Import Prelude NetIO.

(** ** State *)

Record PageNode := mk_page { page_idx : Z; pdata : list Z }.

Record Region := mk_region {
  rid : Z;
  rbytes : Z;
  num_pages : Z;
  pages : list PageNode
}.

(** [calloc_ok] lists the outcomes of the coming [calloc] calls; when it is
    used up they all succeed. *)
Record server := mk_server {
  g_regions : list Region;
  g_next_region : Z;
  calloc_ok : list bool
}.

Definition server_init : server := mk_server [] 1 [].

Definition calloc (st : server) : bool * server :=
  match calloc_ok st with
  | [] => (true, st)
  | b :: bs => (b, mk_server (g_regions st) (g_next_region st) bs)
  end.

(** ** Lookups *)

Fixpoint find_region (rs : list Region) (id : Z) : option Region :=
  match rs with
  | [] => None
  | r :: rs => if rid r =? id then Some r else find_region rs id
  end.

Fixpoint find_page (ps : list PageNode) (idx : Z) : option PageNode :=
  match ps with
  | [] => None
  | p :: ps => if page_idx p =? idx then Some p else find_page ps idx
  end.

(** Writes through the pointers the lookups return: the first match is
    updated in place. *)
Fixpoint update_region (rs : list Region) (id : Z) (f : Region -> Region) : list Region :=
  match rs with
  | [] => []
  | r :: rs => if rid r =? id then f r :: rs else r :: update_region rs id f
  end.

Fixpoint update_page (ps : list PageNode) (idx : Z) (f : PageNode -> PageNode) : list PageNode :=
  match ps with
  | [] => []
  | p :: ps => if page_idx p =? idx then f p :: ps else p :: update_page ps idx f
  end.

Definition set_pages (r : Region) (ps : list PageNode) : Region :=
  mk_region (rid r) (rbytes r) (num_pages r) ps.

Definition set_regions (st : server) (rs : list Region) : server :=
  mk_server rs (g_next_region st) (calloc_ok st).

(** [get_or_create_page] on the region with id [id]: the node is linked in
    front, zeroed; false when [calloc] fails. *)
Definition get_or_create_page (st : server) (r : Region) (idx : Z) : bool * server :=
  match find_page (pages r) idx with
  | Some _ => (true, st)
  | None =>
      let '(ok, st) := calloc st in
      if ok then
        (true, set_regions st
           (update_region (g_regions st) (rid r)
              (fun r => set_pages r (mk_page idx zero_page :: pages r))))
      else (false, st)
  end.

(** [read_full(cfd, p->data, PAGE_SZ)]: the bytes received overwrite the front
    of the page. *)
Definition fill_page (st : server) (id idx : Z) (bs : list Z) : server :=
  set_regions st
    (update_region (g_regions st) id (fun r =>
       set_pages r (update_page (pages r) idx (fun p =>
         mk_page (page_idx p) (bs ++ drop (length bs) (pdata p)))))).

(** ** The connection loop *)

Definition send_hdr (s : sock) (o r p l : Z) : sock :=
  snd (write_full (encode_hdr (mk_hdr o r p l)) s).

(** Drain a refused payload in chunks of at most 512 bytes.  Every successful
    round takes at least one byte off the stream, so one unit of fuel per
    pending byte is enough ([drain_xfer]). *)
Fixpoint drain_loop (fuel : nat) (remain : Z) (s : sock) : sock :=
  match fuel with
  | O => s
  | S fuel =>
      if remain =? 0 then s else
      let chunk := if 512 <? remain then 512 else remain in
      let '(r, _, s) := read_full (Z.to_nat chunk) s in
      if r <=? 0 then s else drain_loop fuel (remain - chunk) s
  end.

Definition drain (remain : Z) (s : sock) : sock :=
  drain_loop (S (length (rx s))) remain s.

(** One turn of the [for (;;)]: [Stop] is the return from [handle_client]. *)
Inductive turn := Stop (st : server) (s : sock) | Cont (st : server) (s : sock).

Definition refuse (st : server) (s : sock) (h : MsgHdr) : turn :=
  let s := send_hdr s (op h) 0 0 0 in
  if (op h =? OP_WRITE_PAGE) && (0 <? len h) then Cont st (drain (len h) s) else Cont st s.

Definition alloc_region (st : server) (s : sock) (h : MsgHdr) : turn :=
  let bytes := if len h =? 0 then PAGE_SZ else len h in
  let '(ok, st) := calloc st in
  if ok then
    let reg := mk_region (g_next_region st) bytes (u32 ((bytes + PAGE_SZ - 1) / PAGE_SZ)) [] in
    Cont (mk_server (reg :: g_regions st) (u32 (g_next_region st + 1)) (calloc_ok st))
         (send_hdr s OP_ALLOC_REGION (rid reg) 0 0)
  else Cont st (send_hdr s (op h) 0 0 0).

Definition read_page (st : server) (s : sock) (h : MsgHdr) (reg : Region) : turn :=
  if negb (len h =? PAGE_SZ) then Cont st (send_hdr s (op h) 0 0 0)
  else
    let s := send_hdr s OP_READ_PAGE (rid reg) (page h) PAGE_SZ in
    match find_page (pages reg) (page h) with
    | Some p => Cont st (snd (write_full (pdata p) s))
    | None => Cont st (snd (write_full zero_page s))
    end.

Definition write_page (st : server) (s : sock) (h : MsgHdr) (reg : Region) : turn :=
  if negb (len h =? PAGE_SZ) then
    let s := send_hdr s (op h) 0 0 0 in Cont st (drain (len h) s)
  else
    let '(ok, st) := get_or_create_page st reg (page h) in
    if ok then
      let '(r, bs, s) := read_full (Z.to_nat PAGE_SZ) s in
      let st := fill_page st (rid reg) (page h) bs in
      if r <=? 0 then Stop st s
      else Cont st (send_hdr s OP_WRITE_PAGE (rid reg) (page h) 0)
    else Cont st (send_hdr s (op h) 0 0 0).

Definition handle_request (st : server) (s : sock) (h : MsgHdr) : turn :=
  if op h =? OP_ALLOC_REGION then alloc_region st s h
  else
    match find_region (g_regions st) (region h) with
    | None => refuse st s h
    | Some reg =>
        if num_pages reg <=? page h then refuse st s h
        else if op h =? OP_READ_PAGE then read_page st s h reg
        else if op h =? OP_WRITE_PAGE then write_page st s h reg
        else Cont st (send_hdr s (op h) 0 0 0)
    end.

Definition handle_turn (st : server) (s : sock) : turn :=
  let '(r, bs, s) := read_full HDR_SZ s in
  if r <=? 0 then Stop st s else handle_request st s (decode_hdr bs).

(** Every turn that continues has consumed a header, so the stream bounds the
    number of turns ([client_loop_fuel]). *)
Fixpoint client_loop (fuel : nat) (st : server) (s : sock) : option (server * sock) :=
  match fuel with
  | O => None
  | S fuel =>
      match handle_turn st s with
      | Stop st s => Some (st, s)
      | Cont st s => client_loop fuel st s
      end
  end.

Definition handle_client (st : server) (s : sock) : server * sock :=
  default (st, s) (client_loop (S (length (rx s))) st s).

(** The accept loop of [main]: clients are served one after the other. *)
Fixpoint serve (st : server) (clients : list sock) : server * list sock :=
  match clients with
  | [] => (st, [])
  | c :: cs =>
      let '(st, c) := handle_client st c in
      let '(st, cs) := serve st cs in (st, c :: cs)
  end.

(** ** The invariant *)

Definition page_wf (np : Z) (p : PageNode) : Prop :=
  0 <= page_idx p < np /\ length (pdata p) = Z.to_nat PAGE_SZ.

Definition region_wf (r : Region) : Prop :=
  0 < rbytes r < 2 ^ 32 /\ num_pages r = (rbytes r + PAGE_SZ - 1) / PAGE_SZ /\
  Forall (page_wf (num_pages r)) (pages r) /\ NoDup (page_idx <$> pages r).

Definition server_wf (st : server) : Prop := Forall region_wf (g_regions st).

(** Region ids are live names while the 32-bit counter has not wrapped. *)
Definition ids_wf (st : server) : Prop :=
  NoDup (rid <$> g_regions st) /\
  Forall (fun i => 0 < i < g_next_region st) (rid <$> g_regions st) /\
  0 < g_next_region st < 2 ^ 32.

(** ** Lookups and updates *)

Lemma find_region_id rs id r : find_region rs id = Some r -> rid r = id /\ r ∈ rs.
Proof.
  induction rs as [|r' rs IH]; cbn; [done|]; destruct_if; zbool.
  - intros [= <-]; set_solver.
  - intros H; destruct (IH H); set_solver.
Qed.

Lemma find_page_idx ps idx p : find_page ps idx = Some p -> page_idx p = idx /\ p ∈ ps.
Proof.
  induction ps as [|p' ps IH]; cbn; [done|]; destruct_if; zbool.
  - intros [= <-]; set_solver.
  - intros H; destruct (IH H); set_solver.
Qed.

Lemma find_page_None ps idx : find_page ps idx = None -> idx ∉ page_idx <$> ps.
Proof.
  induction ps as [|p' ps IH]; cbn; [set_solver|]; destruct_if; zbool; [done|].
  intros H; apply IH in H; set_solver.
Qed.

Lemma find_update_region rs id f id' :
  (forall r, rid (f r) = rid r) ->
  find_region (update_region rs id f) id' =
  if id' =? id then f <$> find_region rs id else find_region rs id'.
Proof.
  intros Hf; induction rs as [|r rs IH]; cbn; [by destruct_if|].
  destruct (Z.eqb_spec (rid r) id) as [Hr|Hr]; cbn; rewrite ?Hf.
  - destruct (Z.eqb_spec (rid r) id'), (Z.eqb_spec id' id); try congruence; done.
  - rewrite IH; destruct (Z.eqb_spec (rid r) id'), (Z.eqb_spec id' id); congruence.
Qed.

Lemma find_update_page ps idx f idx' :
  (forall p, page_idx (f p) = page_idx p) ->
  find_page (update_page ps idx f) idx' =
  if idx' =? idx then f <$> find_page ps idx else find_page ps idx'.
Proof.
  intros Hf; induction ps as [|p ps IH]; cbn; [by destruct_if|].
  destruct (Z.eqb_spec (page_idx p) idx) as [Hr|Hr]; cbn; rewrite ?Hf.
  - destruct (Z.eqb_spec (page_idx p) idx'), (Z.eqb_spec idx' idx); try congruence; done.
  - rewrite IH; destruct (Z.eqb_spec (page_idx p) idx'), (Z.eqb_spec idx' idx); congruence.
Qed.

Lemma update_region_Forall (P : Region -> Prop) rs id f :
  (forall r, P r -> P (f r)) -> Forall P rs -> Forall P (update_region rs id f).
Proof.
  intros Hf; induction 1 as [|r rs Hr Hrs IH]; cbn; [constructor|]; destruct_if; auto.
Qed.

Lemma update_region_ids rs id f :
  (forall r, rid (f r) = rid r) -> rid <$> update_region rs id f = rid <$> rs.
Proof. intros Hf; induction rs; cbn; [done|]; destruct_if; cbn; f_equal; auto. Qed.

Lemma update_page_Forall (P : PageNode -> Prop) ps idx f :
  (forall p, P p -> P (f p)) -> Forall P ps -> Forall P (update_page ps idx f).
Proof.
  intros Hf; induction 1 as [|r rs Hr Hrs IH]; cbn; [constructor|]; destruct_if; auto.
Qed.

Lemma update_page_idxs ps idx f :
  (forall p, page_idx (f p) = page_idx p) -> page_idx <$> update_page ps idx f = page_idx <$> ps.
Proof. intros Hf; induction ps; cbn; [done|]; destruct_if; cbn; f_equal; auto. Qed.

(** ** Every operation preserves the invariant *)

Definition turn_st (t : turn) : server := match t with Stop st _ | Cont st _ => st end.
Definition turn_sk (t : turn) : sock := match t with Stop _ s | Cont _ s => s end.

Lemma calloc_spec st :
  g_regions (calloc st).2 = g_regions st /\ g_next_region (calloc st).2 = g_next_region st.
Proof. unfold calloc; destruct (calloc_ok st); done. Qed.

Lemma get_or_create_page_wf st r idx :
  server_wf st -> find_region (g_regions st) (rid r) = Some r -> 0 <= idx < num_pages r ->
  server_wf (get_or_create_page st r idx).2 /\
  rid <$> g_regions (get_or_create_page st r idx).2 = rid <$> g_regions st /\
  g_next_region (get_or_create_page st r idx).2 = g_next_region st.
Proof.
  intros Hwf Hr Hidx; unfold get_or_create_page.
  destruct (find_page (pages r) idx) as [p|] eqn:Hp; [done|].
  destruct (calloc_spec st) as [Hg Hn]; destruct (calloc st) as [[] st'] eqn:E; cbn in *;
    [|unfold server_wf; by rewrite Hg, Hn].
  rewrite Hg; split_and!; [|by apply update_region_ids|done].
  unfold server_wf; cbn; clear E Hn Hg.
  destruct (find_region_id _ _ _ Hr) as [_ _].
  revert Hr; unfold server_wf in Hwf; induction Hwf as [|r' rs Hr' Hrs IH]; cbn; [done|].
  destruct_if; zbool; [intros [= ->]; constructor; [|done]|intros H; constructor; auto].
  destruct Hr' as (H1 & H2 & H3 & H4); split_and!; cbn; try done; try lia.
  - constructor; [|done]; split; cbn; [lia|apply zero_page_length].
  - apply NoDup_cons_2; [by apply find_page_None|done].
Qed.

Lemma fill_page_wf st id idx bs :
  server_wf st -> (length bs <= Z.to_nat PAGE_SZ)%nat ->
  server_wf (fill_page st id idx bs) /\
  rid <$> g_regions (fill_page st id idx bs) = rid <$> g_regions st /\
  g_next_region (fill_page st id idx bs) = g_next_region st.
Proof.
  intros Hwf Hbs; split_and!; [|by apply update_region_ids|done].
  apply update_region_Forall; [|done]; intros r (H1 & H2 & H3 & H4).
  split_and!; cbn; try done; try lia; [|by rewrite update_page_idxs].
  apply update_page_Forall; [|done]; intros p [Hp Hl]; split; [done|cbn].
  rewrite length_app, length_drop; lia.
Qed.

Lemma alloc_region_wf st s h :
  server_wf st -> in_range 32 (len h) ->
  server_wf (turn_st (alloc_region st s h)) /\
  (ids_wf st -> g_next_region st + 1 < 2 ^ 32 -> ids_wf (turn_st (alloc_region st s h))).
Proof.
  intros Hwf Hlen; unfold alloc_region.
  destruct (calloc_spec st) as [Hg Hn]; destruct (calloc st) as [[] st'] eqn:E; cbn in *;
    unfold server_wf, ids_wf; cbn; rewrite ?Hg, ?Hn; [|by split].
  assert (0 < (if len h =? 0 then PAGE_SZ else len h) < 2 ^ 32) as Hb.
  { unfold in_range, PAGE_SZ in *; destruct_if; zbool; lia. }
  split.
  - constructor; [|done]; split_and!; cbn; try constructor; try lia.
    unfold wrap, PAGE_SZ in *; apply Z.mod_small; Z.div_mod_to_equations; lia.
  - intros (Hnd & Hr & Hpos) Hlt; unfold wrap; rewrite Z.mod_small by lia; split_and!; try lia.
    + apply NoDup_cons_2; [|done].
      intros Hin; rewrite Forall_forall in Hr; specialize (Hr _ Hin); lia.
    + constructor; cbn; [lia|]; eapply Forall_impl; [exact Hr|cbn; lia].
Qed.

Lemma handle_request_wf st s h :
  server_wf st -> hdr_wf h ->
  server_wf (turn_st (handle_request st s h)) /\
  (ids_wf st -> g_next_region st + 1 < 2 ^ 32 -> ids_wf (turn_st (handle_request st s h))).
Proof.
  intros Hwf (_ & _ & Hp & Hl); unfold handle_request.
  destruct_if; [by apply alloc_region_wf|].
  destruct (find_region (g_regions st) (region h)) as [r|] eqn:Hr;
    [|unfold refuse; destruct_if; done].
  destruct (find_region_id _ _ _ Hr) as [Hid _].
  destruct_if; [unfold refuse; destruct_if; done|]; zbool; destruct_if.
  { unfold read_page; destruct_if; [done|]; by destruct (find_page _ _). }
  destruct_if; [|done].
  unfold write_page; destruct_if; [done|].
  rewrite <- Hid in Hr.
  destruct (get_or_create_page_wf st r (page h) Hwf Hr ltac:(unfold in_range in Hp; lia))
    as (Hwf1 & Hids1 & Hn1).
  destruct (get_or_create_page st r (page h)) as [[] st1]; cbn in *.
  2: { split; [done|]; unfold ids_wf; by rewrite Hn1, Hids1. }
  destruct (read_full (Z.to_nat PAGE_SZ) s) as [[ret bs] s1] eqn:Erf.
  destruct (read_full_any _ _ _ _ _ Erf) as (_ & _ & _ & _ & Hbs & _).
  destruct (fill_page_wf st1 (rid r) (page h) bs Hwf1 Hbs) as (Hwf2 & Hids2 & Hn2).
  assert (ids_wf st -> ids_wf (fill_page st1 (rid r) (page h) bs)) as Hi.
  { unfold ids_wf; by rewrite Hn2, Hn1, Hids2, Hids1. }
  destruct_if; cbn; auto.
Qed.

(** ** Progress: every turn consumes the stream *)

Lemma send_hdr_rx s o r p l :
  rx (send_hdr s o r p l) = rx s /\ rx_evs (send_hdr s o r p l) = rx_evs s.
Proof.
  unfold send_hdr; destruct (write_full _ s) as [ret s'] eqn:E.
  by apply write_full_any in E.
Qed.

Lemma drain_rx remain s : exists k, rx (drain remain s) = drop k (rx s).
Proof.
  unfold drain; generalize (S (length (rx s))) as fuel; intros fuel.
  revert remain s; induction fuel as [|fuel IH]; intros remain s; cbn [drain_loop].
  { by exists O. }
  destruct (remain =? 0); [by exists O|].
  destruct (read_full _ s) as [[r bs] s'] eqn:E.
  destruct (read_full_any _ _ _ _ _ E) as (k & evs & _ & -> & _).
  destruct (r <=? 0); [by exists k|].
  edestruct IH as [k' ->]; exists (k + k')%nat; cbn [set_rx rx]; by rewrite drop_drop.
Qed.

Lemma handle_request_rx st s h :
  exists k, rx (turn_sk (handle_request st s h)) = drop k (rx s).
Proof.
  assert (forall st' o r p l, exists k, rx (turn_sk (Cont st' (send_hdr s o r p l))) = drop k (rx s))
    as Hsend by (intros; exists O; apply send_hdr_rx).
  assert (exists k, rx (turn_sk (refuse st s h)) = drop k (rx s)) as Hrefuse.
  { unfold refuse; destruct_if; [|apply Hsend]; cbn [turn_sk].
    destruct (drain_rx (len h) (send_hdr s (op h) 0 0 0)) as [k ->]; exists k.
    f_equal; apply send_hdr_rx. }
  unfold handle_request; destruct_if.
  { unfold alloc_region; destruct (calloc st) as [[] ?]; apply Hsend. }
  destruct (find_region _ _) as [r|]; [|done]; destruct_if; [done|]; destruct_if.
  { unfold read_page; destruct_if; [apply Hsend|].
    destruct (find_page _ _); cbn [turn_sk]; exists O; rewrite drop_0;
      destruct (write_full _ _) as [ret s'] eqn:Ew; apply write_full_any in Ew as [Ew _];
      cbn [snd]; rewrite Ew; apply send_hdr_rx. }
  destruct_if; [|apply Hsend].
  unfold write_page; destruct_if.
  { cbn [turn_sk]; destruct (drain_rx (len h) (send_hdr s (op h) 0 0 0)) as [k ->]; exists k.
    f_equal; apply send_hdr_rx. }
  destruct (get_or_create_page _ _ _) as [[] st1]; [|apply Hsend].
  destruct (read_full _ s) as [[ret bs] s1] eqn:Erf.
  destruct (read_full_any _ _ _ _ _ Erf) as (k & evs & _ & -> & _).
  destruct_if; cbn [turn_sk]; exists k; [done|]; by destruct (send_hdr_rx (set_rx s (drop k (rx s)) evs)
    OP_WRITE_PAGE (rid r) (page h) 0) as [-> _].
Qed.

(** A turn that goes on has read a whole header. *)
Lemma handle_turn_rx st s :
  exists k, rx (turn_sk (handle_turn st s)) = drop k (rx s) /\
    match handle_turn st s with
    | Cont _ _ => (HDR_SZ <= k)%nat /\ (HDR_SZ <= length (rx s))%nat
    | Stop _ _ => True
    end.
Proof.
  unfold handle_turn; destruct (read_full HDR_SZ s) as [[r bs] s1] eqn:Erf.
  destruct (read_full_any _ _ _ _ _ Erf) as (k & evs & -> & -> & Hle & Hfull).
  destruct_if; [by exists k|]; zbool.
  specialize (Hfull E); rewrite length_take in Hfull.
  destruct (handle_request_rx st (set_rx s (drop k (rx s)) evs) (decode_hdr (take k (rx s))))
    as [k' Hk']; exists (k + k')%nat.
  rewrite Hk'; cbn [set_rx rx]; rewrite drop_drop; split; [done|].
  destruct (handle_request _ _ _); [done|]; lia.
Qed.

Lemma client_loop_fuel fuel st s :
  (length (rx s) < fuel)%nat -> is_Some (client_loop fuel st s).
Proof.
  revert st s; induction fuel as [|fuel IH]; intros st s Hf; [lia|]; cbn [client_loop].
  pose proof (handle_turn_rx st s) as (k & Hrx & Hk).
  destruct (handle_turn st s) as [st' s'|st' s']; [eauto|].
  apply IH; cbn [turn_sk] in Hrx; rewrite Hrx, length_drop; unfold HDR_SZ in *; lia.
Qed.

Lemma handle_client_eq st s :
  client_loop (S (length (rx s))) st s = Some (handle_client st s).
Proof.
  unfold handle_client.
  destruct (client_loop_fuel (S (length (rx s))) st s) as [r Hr]; [lia|]; by rewrite Hr.
Qed.

Definition bytes_ok (bs : list Z) : Prop := Forall (in_range 8) bs.

Lemma bytes_ok_take_drop bs k : bytes_ok bs -> bytes_ok (take k bs) /\ bytes_ok (drop k bs).
Proof. intros H; split; [by apply Forall_take|by apply Forall_drop]. Qed.

Lemma decode_hdr_wf bs :
  bytes_ok bs -> length bs = HDR_SZ -> hdr_wf (decode_hdr bs).
Proof.
  intros Hb Hl.
  do 16 (destruct bs as [|? bs]; [discriminate|]); destruct bs; [|discriminate].
  unfold bytes_ok in Hb; rewrite !Forall_cons in Hb; destruct_and! Hb.
  unfold hdr_wf, decode_hdr; cbn [op region page len take drop].
  split_and!; apply ntohl_range; done.
Qed.

Lemma handle_turn_wf st s :
  server_wf st -> bytes_ok (rx s) ->
  server_wf (turn_st (handle_turn st s)) /\
  bytes_ok (rx (turn_sk (handle_turn st s))) /\
  (ids_wf st -> g_next_region st + 1 < 2 ^ 32 -> ids_wf (turn_st (handle_turn st s))).
Proof.
  intros Hwf Hb.
  assert (bytes_ok (rx (turn_sk (handle_turn st s)))) as Hb'.
  { destruct (handle_turn_rx st s) as (k & -> & _); by apply bytes_ok_take_drop. }
  split_and!; [|done|]; clear Hb'; unfold handle_turn;
    destruct (read_full HDR_SZ s) as [[r bs] s1] eqn:Erf;
    destruct (read_full_any _ _ _ _ _ Erf) as (k & evs & -> & -> & Hle & Hfull);
    destruct_if; auto; zbool; apply handle_request_wf; auto;
    apply decode_hdr_wf; auto; by apply bytes_ok_take_drop.
Qed.

Lemma handle_turn_next st s :
  g_next_region (turn_st (handle_turn st s)) = g_next_region st \/
  g_next_region (turn_st (handle_turn st s)) = u32 (g_next_region st + 1).
Proof.
  destruct (calloc_spec st) as [_ Hn].
  unfold handle_turn; destruct (read_full HDR_SZ s) as [[r bs] s1]; destruct_if; [by left|].
  unfold handle_request; destruct_if.
  { unfold alloc_region; destruct (calloc st) as [[] ?]; cbn in *; rewrite Hn; auto. }
  left; destruct (find_region _ _) as [reg|]; [|unfold refuse; by destruct_if].
  destruct_if; [unfold refuse; by destruct_if|]; destruct_if.
  { unfold read_page; destruct_if; [done|]; by destruct (find_page _ _). }
  destruct_if; [|done]; unfold write_page; destruct_if; [done|].
  unfold get_or_create_page; destruct (find_page _ _), (calloc st) as [[] ?]; cbn in *;
    try done; destruct (read_full _ s1) as [[? ?] ?]; by destruct_if.
Qed.

Lemma client_loop_wf fuel st s st' s' :
  server_wf st -> bytes_ok (rx s) ->
  client_loop fuel st s = Some (st', s') ->
  server_wf st' /\
  (ids_wf st -> g_next_region st + Z.of_nat (length (rx s)) + 1 < 2 ^ 32 -> ids_wf st').
Proof.
  revert st s; induction fuel as [|fuel IH]; intros st s Hwf Hb; [done|]; cbn [client_loop].
  destruct (handle_turn_wf st s Hwf Hb) as (Hwf1 & Hb1 & Hids).
  pose proof (handle_turn_next st s) as Hn; pose proof (handle_turn_rx st s) as (k & Hrx & Hk).
  destruct (handle_turn st s) as [st1 s1|st1 s1]; cbn [turn_st turn_sk] in *.
  - intros [= <- <-]; split; [done|]; intros; apply Hids; [done|lia].
  - intros H; destruct (IH st1 s1 Hwf1 Hb1 H) as [Hwf2 Hids2]; split; [done|].
    intros Hi Hlt; apply Hids2; [apply Hids; [done|lia]|].
    destruct Hi as (_ & _ & Hi).
    rewrite Hrx, length_drop; unfold HDR_SZ, wrap in *.
    destruct Hn as [->| ->]; [lia|]; rewrite Z.mod_small by lia; lia.
Qed.

(** ** The abstract store

    What clients may rely on: a map from region ids to a page count and the
    pages written so far, every other page reading as zeros. *)

Record store := mk_store { next : Z; regs : gmap Z (Z * gmap Z (list Z)) }.

(** A request is a header and the payload that follows it on the wire. *)
Definition request : Type := (MsgHdr * list Z)%type.

Definition wire (q : request) : list Z := encode_hdr q.1 ++ q.2.

Definition request_wf (q : request) : Prop :=
  hdr_wf q.1 /\
  length q.2 = (if op q.1 =? OP_WRITE_PAGE then Z.to_nat (len q.1) else O).

Definition err_reply (h : MsgHdr) : list Z := encode_hdr (mk_hdr (op h) 0 0 0).

Definition spec_step (sg : store) (q : request) : store * list Z :=
  let '(h, data) := q in
  if op h =? OP_ALLOC_REGION then
    let bytes := if len h =? 0 then PAGE_SZ else len h in
    (mk_store (u32 (next sg + 1))
       (<[next sg := ((bytes + PAGE_SZ - 1) / PAGE_SZ, ∅)]> (regs sg)),
     encode_hdr (mk_hdr OP_ALLOC_REGION (next sg) 0 0))
  else
    match regs sg !! region h with
    | None => (sg, err_reply h)
    | Some (np, m) =>
        if np <=? page h then (sg, err_reply h)
        else if (op h =? OP_READ_PAGE) && (len h =? PAGE_SZ) then
          (sg, encode_hdr (mk_hdr OP_READ_PAGE (region h) (page h) PAGE_SZ)
               ++ default zero_page (m !! page h))
        else if (op h =? OP_WRITE_PAGE) && (len h =? PAGE_SZ) then
          (mk_store (next sg) (<[region h := (np, <[page h := data]> m)]> (regs sg)),
           encode_hdr (mk_hdr OP_WRITE_PAGE (region h) (page h) 0))
        else (sg, err_reply h)
    end.

Fixpoint spec_run (sg : store) (qs : list request) : store * list Z :=
  match qs with
  | [] => (sg, [])
  | q :: qs =>
      let '(sg, out) := spec_step sg q in
      let '(sg, out') := spec_run sg qs in (sg, out ++ out')
  end.

(** The server implements the store, allocation failures aside. *)
Definition region_refines (r : option Region) (a : option (Z * gmap Z (list Z))) : Prop :=
  match r, a with
  | Some r, Some (np, m) =>
      num_pages r = np /\ forall idx, m !! idx = pdata <$> find_page (pages r) idx
  | None, None => True
  | _, _ => False
  end.

Definition refines (st : server) (sg : store) : Prop :=
  server_wf st /\ calloc_ok st = [] /\ g_next_region st = next sg /\
  forall id, region_refines (find_region (g_regions st) id) (regs sg !! id).

Lemma send_hdr_xfer s o r p l :
  rx_ok s -> tx_ok s -> xfer s (send_hdr s o r p l) [] (encode_hdr (mk_hdr o r p l)).
Proof. apply write_full_xfer. Qed.

Lemma drain_xfer i s rest :
  rx_ok s -> tx_ok s -> rx s = i ++ rest ->
  xfer s (drain (Z.of_nat (length i)) s) i [] /\ rx (drain (Z.of_nat (length i)) s) = rest.
Proof.
  unfold drain; intros Hr Ht Hrx.
  assert (length i < S (length (rx s)))%nat as Hf by (rewrite Hrx, length_app; lia).
  revert Hf; generalize (S (length (rx s))) as fuel; intros fuel Hf.
  revert i s Hr Ht Hrx Hf; induction fuel as [|fuel IH]; intros i s Hr Ht Hrx Hf; [lia|]; cbn [drain_loop].
  destruct (Z.eqb_spec (Z.of_nat (length i)) 0) as [H0|H0].
  { destruct i; [|done]; cbn in Hrx; unfold xfer; by rewrite Hrx, app_nil_r. }
  set (c := if 512 <? Z.of_nat (length i) then 512 else Z.of_nat (length i)).
  assert (0 < c <= Z.of_nat (length i)) as Hc by (unfold c; destruct_if; zbool; lia).
  destruct (read_full_xfer s (take (Z.to_nat c) i) (drop (Z.to_nat c) i ++ rest) Hr Ht)
    as (s1 & Hrd & Hx & Hrest).
  { by rewrite app_assoc, take_drop. }
  rewrite length_take, Nat.min_l in Hrd by lia; rewrite Hrd.
  destruct (Z.leb_spec (Z.of_nat (Z.to_nat c)) 0); [lia|].
  pose proof Hx as (_ & _ & Hr1 & Ht1).
  destruct (IH (drop (Z.to_nat c) i) s1 Hr1 Ht1 Hrest) as [Hx' Hrest'].
  { rewrite length_drop; lia. }
  rewrite length_drop in Hx', Hrest'.
  replace (Z.of_nat (length i - Z.to_nat c)) with (Z.of_nat (length i) - c) in * by lia.
  split; [|done]; rewrite <- (take_drop (Z.to_nat c) i) at 2; by apply (xfer_trans _ s1 _ _ _ [] []).
Qed.

(** One turn of the server is one step of the store. *)
Lemma refines_alloc st sg s h :
  refines st sg -> hdr_wf h -> rx_ok s -> tx_ok s -> op h = OP_ALLOC_REGION ->
  exists st' s', alloc_region st s h = Cont st' s' /\
    refines st' (spec_step sg (h, [])).1 /\ xfer s s' [] (spec_step sg (h, [])).2.
Proof.
  intros (Hwf & Hc & Hn & Href) (_ & _ & _ & Hl) Hr Ht Hop.
  destruct (alloc_region_wf st s h Hwf Hl) as [Hwf' _].
  unfold spec_step; rewrite Hop; cbn; revert Hwf'; unfold alloc_region, calloc; rewrite Hc; cbn.
  intros Hwf'; do 2 eexists; split_and!; [done| |].
  - split_and!; cbn; try done; [by rewrite Hn|].
    intros id; rewrite <- Hn; destruct (Z.eqb_spec (g_next_region st) id) as [->|Hne].
    + rewrite lookup_insert_eq; cbn; split; [|done].
      unfold wrap, in_range, PAGE_SZ in *; apply Z.mod_small.
      destruct_if; zbool; Z.div_mod_to_equations; lia.
    + rewrite lookup_insert_ne by done; apply Href.
  - rewrite <- Hn; by apply send_hdr_xfer.
Qed.

Lemma refuse_spec st s h data rest :
  request_wf (h, data) -> rx_ok s -> tx_ok s -> rx s = data ++ rest ->
  exists s', refuse st s h = Cont st s' /\ xfer s s' data (err_reply h) /\ rx s' = rest.
Proof.
  intros [(_ & _ & _ & Hl) Hd] Hr Ht Hrx; cbn [fst snd] in *; unfold refuse.
  pose proof (send_hdr_xfer s (op h) 0 0 0 Hr Ht) as Hx.
  pose proof Hx as (Hrx1 & _ & Hr1 & Ht1); cbn [app] in Hrx1.
  destruct_if; zbool.
  - destruct (drain_xfer data (send_hdr s (op h) 0 0 0) rest Hr1 Ht1) as [Hx' Hrest]; [congruence|].
    rewrite H, Z.eqb_refl in Hd; replace (Z.of_nat (length data)) with (len h) in * by lia.
    eexists; split_and!; [done| |done]; rewrite <- (app_nil_r (err_reply h)).
    eapply (xfer_trans _ _ _ [] data); [exact Hx|exact Hx'].
  - assert (data = []) as ->.
    { apply length_zero_iff_nil; rewrite Hd; unfold in_range in Hl.
      destruct_if; [|done]; destruct E; zbool; lia. }
    cbn in Hrx; eexists; split_and!; [done|done|]; congruence.
Qed.

Lemma find_page_wf st id r idx p :
  server_wf st -> find_region (g_regions st) id = Some r -> find_page (pages r) idx = Some p ->
  length (pdata p) = Z.to_nat PAGE_SZ.
Proof.
  intros Hwf Hr Hp; destruct (find_region_id _ _ _ Hr) as [_ Hin].
  unfold server_wf in Hwf; rewrite Forall_forall in Hwf; destruct (Hwf r Hin) as (_ & _ & HF & _).
  destruct (find_page_idx _ _ _ Hp) as [_ Hpin]; rewrite Forall_forall in HF; apply (HF p Hpin).
Qed.

Lemma refines_read st sg s h r np m :
  refines st sg -> rx_ok s -> tx_ok s ->
  find_region (g_regions st) (region h) = Some r -> regs sg !! region h = Some (np, m) ->
  len h = PAGE_SZ ->
  exists s', read_page st s h r = Cont st s' /\
    xfer s s' [] (encode_hdr (mk_hdr OP_READ_PAGE (region h) (page h) PAGE_SZ)
                  ++ default zero_page (m !! page h)).
Proof.
  intros (Hwf & _ & _ & Href) Hr Ht Hreg Hsg Hlen.
  specialize (Href (region h)); rewrite Hreg, Hsg in Href; destruct Href as [_ Hm].
  destruct (find_region_id _ _ _ Hreg) as [Hid _].
  unfold read_page; rewrite Hlen, Z.eqb_refl, Hid; cbn [negb]; rewrite Hm.
  pose proof (send_hdr_xfer s OP_READ_PAGE (region h) (page h) PAGE_SZ Hr Ht) as Hx.
  pose proof Hx as (_ & _ & Hr1 & Ht1).
  destruct (find_page (pages r) (page h)) as [p|]; eexists; (split; [done|]);
    eapply (xfer_trans _ _ _ [] []); [exact Hx| |exact Hx|]; by apply write_full_xfer.
Qed.

(** The page a write request leaves behind. *)
Lemma write_page_contents st r idx data id' idx' :
  server_wf st -> find_region (g_regions st) (rid r) = Some r -> calloc_ok st = [] ->
  length data = Z.to_nat PAGE_SZ ->
  (forall st', (get_or_create_page st r idx).2 = st' ->
   match find_region (g_regions (fill_page st' (rid r) idx data)) id' with
   | Some r' => exists r0, find_region (g_regions st) id' = Some r0 /\
       num_pages r' = num_pages r0 /\
       pdata <$> find_page (pages r') idx' =
         (if (id' =? rid r) && (idx' =? idx) then Some data else pdata <$> find_page (pages r0) idx')
   | None => find_region (g_regions st) id' = None
   end).
Proof.
  intros Hwf Hr Hc Hd st' <-.
  unfold get_or_create_page, calloc; rewrite Hc.
  destruct (find_page (pages r) idx) as [p|] eqn:Hp; cbn;
    rewrite !find_update_region by done.
  - destruct (Z.eqb_spec id' (rid r)) as [->|Hne]; cbn.
    2: { destruct (find_region _ id') as [r0|]; [by exists r0|done]. }
    rewrite Hr; cbn; exists r; split_and!; try done.
    rewrite find_update_page by done; destruct (Z.eqb_spec idx' idx) as [->|]; [|done].
    rewrite Hp; cbn; rewrite drop_ge, app_nil_r; [done|].
    rewrite (find_page_wf st (rid r) r idx p) by done; lia.
  - destruct (Z.eqb_spec id' (rid r)) as [->|Hne]; cbn.
    2: { destruct (find_region _ id') as [r0|]; [by exists r0|done]. }
    rewrite Hr, Z.eqb_refl; cbn; exists r; split_and!; try done.
    rewrite Z.eqb_refl; cbn; rewrite (Z.eqb_sym idx').
    destruct (idx =? idx'); cbn; [|done].
    rewrite drop_ge, app_nil_r; [done|]; rewrite zero_page_length, Hd; done.
Qed.

Lemma get_or_create_page_calloc st r idx :
  calloc_ok st = [] ->
  (get_or_create_page st r idx).1 = true /\ calloc_ok (get_or_create_page st r idx).2 = [].
Proof.
  intros Hc; unfold get_or_create_page, calloc; rewrite Hc; by destruct (find_page _ _).
Qed.

Lemma refines_write st sg s h data rest r np m :
  refines st sg -> rx_ok s -> tx_ok s ->
  find_region (g_regions st) (region h) = Some r -> regs sg !! region h = Some (np, m) ->
  len h = PAGE_SZ -> in_range 32 (page h) -> page h < np ->
  length data = Z.to_nat PAGE_SZ -> rx s = data ++ rest ->
  exists st' s', write_page st s h r = Cont st' s' /\
    refines st' (mk_store (next sg) (<[region h := (np, <[page h := data]> m)]> (regs sg))) /\
    xfer s s' data (encode_hdr (mk_hdr OP_WRITE_PAGE (region h) (page h) 0)) /\ rx s' = rest.
Proof.
  intros (Hwf & Hc & Hn & Href) Hr Ht Hreg Hsg Hlen Hpr Hpg Hd Hrx.
  destruct (find_region_id _ _ _ Hreg) as [Hid _].
  pose proof (Href (region h)) as Hh; rewrite Hreg, Hsg in Hh; destruct Hh as [Hnp Hm].
  assert (Hreg' : find_region (g_regions st) (rid r) = Some r) by (by rewrite Hid).
  unfold write_page; rewrite Hlen, Z.eqb_refl; cbn [negb].
  destruct (get_or_create_page_calloc st r (page h) Hc) as [Hok Hc1].
  destruct (get_or_create_page_wf st r (page h) Hwf Hreg') as (Hwf1 & _ & Hn1);
    [unfold in_range in Hpr; lia|].
  pose proof (fun id' idx' => write_page_contents st r (page h) data id' idx' Hwf Hreg' Hc Hd _ eq_refl)
    as Hcont.
  destruct (get_or_create_page st r (page h)) as [ok st1]; cbn [fst snd] in Hok, Hc1, Hwf1, Hn1, Hcont; subst ok.
  destruct (read_full_xfer s data rest Hr Ht Hrx) as (s1 & Hrd & Hx & Hrest).
  rewrite <- Hd, Hrd; destruct (Z.leb_spec (Z.of_nat (length data)) 0); [rewrite Hd in *; done|].
  pose proof Hx as (_ & _ & Hr1 & Ht1).
  pose proof (send_hdr_xfer s1 OP_WRITE_PAGE (rid r) (page h) 0 Hr1 Ht1) as Hx2.
  destruct (fill_page_wf st1 (rid r) (page h) data Hwf1) as (Hwf2 & _ & _); [lia|].
  do 2 eexists; split_and!; [done| | |].
  - split_and!; [done|done|cbn; congruence|]; intros id; cbn [regs].
    destruct (Z.eqb_spec id (region h)) as [->|Hne].
    + rewrite lookup_insert_eq; pose proof (Hcont (region h)) as Hci; revert Hci.
      destruct (find_region (g_regions (fill_page _ _ _ _)) _) as [r'|]; cbn; [|intros Hci; specialize (Hci 0); congruence].
      intros Hci; split; [destruct (Hci 0) as (r0 & ? & ? & _); congruence|].
      intros idx; destruct (Hci idx) as (r0 & Hr0 & _ & ->).
      rewrite Hid, Z.eqb_refl; cbn; rewrite lookup_insert.
      destruct (Z.eqb_spec idx (page h)); [by rewrite decide_True|].
      rewrite decide_False by done; rewrite Hm; congruence.
    + rewrite lookup_insert_ne by done; pose proof (Hcont id) as Hci; specialize (Href id); revert Hci.
      destruct (find_region (g_regions (fill_page _ _ _ _)) id) as [r'|].
      2: { intros Hci; specialize (Hci 0); by rewrite Hci in Href. }
      intros Hci; destruct (Hci 0) as (r0 & Hr0 & Hnp0 & _); rewrite Hr0 in Href.
      destruct (regs sg !! id) as [[np' m']|]; [|done]; destruct Href as [Hnp' Hm'].
      split; [congruence|]; intros idx; destruct (Hci idx) as (r0' & Hr0' & _ & ->).
      rewrite Hid; destruct (Z.eqb_spec id (region h)); [done|]; cbn; rewrite Hm'; congruence.
  - rewrite <- Hid, <- (app_nil_r data); by apply (xfer_trans _ s1 _ data [] []).
  - destruct Hx2 as (Hrx2 & _); cbn in Hrx2; congruence.
Qed.

Lemma refines_bad_len st sg s h data rest r np m :
  refines st sg -> request_wf (h, data) -> rx_ok s -> tx_ok s -> rx s = data ++ rest ->
  find_region (g_regions st) (region h) = Some r -> regs sg !! region h = Some (np, m) ->
  (op h = OP_READ_PAGE /\ len h <> PAGE_SZ ->
     exists s', read_page st s h r = Cont st s' /\ xfer s s' data (err_reply h) /\ rx s' = rest) /\
  (op h = OP_WRITE_PAGE /\ len h <> PAGE_SZ ->
     exists s', write_page st s h r = Cont st s' /\ xfer s s' data (err_reply h) /\ rx s' = rest).
Proof.
  intros _ Hq Hr Ht Hrx _ _.
  destruct (refuse_spec st s h data rest Hq Hr Ht Hrx) as (s' & Href & Hx & Hrest).
  destruct Hq as [(_ & _ & _ & Hl) Hd]; cbn [fst snd] in *; unfold in_range in Hl.
  revert Href; unfold refuse, read_page, write_page; split; intros [Hop Hlen];
    rewrite Hop in *; cbn in Href; exists s'; (split; [|done]);
    destruct (Z.eqb_spec (len h) PAGE_SZ); try done; cbn [negb].
  destruct (Z.ltb_spec 0 (len h)); [done|].
  replace (len h) with 0 in * by lia; rewrite <- Href; f_equal.
Qed.

Lemma refines_turn st sg s q rest :
  refines st sg -> request_wf q -> rx_ok s -> tx_ok s -> rx s = wire q ++ rest ->
  exists st' s', handle_turn st s = Cont st' s' /\
    refines st' (spec_step sg q).1 /\ xfer s s' (wire q) (spec_step sg q).2 /\ rx s' = rest.
Proof.
  destruct q as [h data]; unfold wire; cbn [fst snd]; rewrite <- app_assoc.
  intros Href Hq Hr Ht Hrx; pose proof Hq as [Hh Hd]; cbn [fst snd] in Hh, Hd.
  destruct (read_full_xfer s (encode_hdr h) (data ++ rest) Hr Ht Hrx) as (s1 & Hrd & Hx1 & Hrx1).
  unfold handle_turn; rewrite encode_hdr_length in Hrd; rewrite Hrd.
  rewrite (decode_encode_hdr h Hh); cbn [Z.of_nat HDR_SZ Z.leb Z.compare].
  pose proof Hx1 as (_ & _ & Hr1 & Ht1).
  enough (exists st' s', handle_request st s1 h = Cont st' s' /\
    refines st' (spec_step sg (h, data)).1 /\ xfer s1 s' data (spec_step sg (h, data)).2 /\ rx s' = rest)
    as (st' & s' & E & Hst & Hx & Hrest).
  { exists st', s'; split_and!; try done; by apply (xfer_trans _ s1 _ _ _ []). }
  unfold handle_request, spec_step.
  destruct (Z.eqb_spec (op h) OP_ALLOC_REGION) as [Hop|Hop].
  { rewrite Hop in Hd; destruct data; [|done].
    destruct (refines_alloc st sg s1 h Href Hh Hr1 Ht1 Hop) as (st' & s' & E & Hst & Hx).
    unfold spec_step in *; rewrite Hop in *; cbn in Hst, Hx; exists st', s'; split_and!; try done.
    destruct Hx as (Hx & _); cbn in Hx, Hrx1; congruence. }
  pose proof Href as (_ & _ & _ & Hreg); specialize (Hreg (region h)).
  destruct (refuse_spec st s1 h data rest Hq Hr1 Ht1 Hrx1) as (sr & Er & Hxr & Hrr).
  destruct (find_region (g_regions st) (region h)) as [r|] eqn:Hf,
    (regs sg !! region h) as [[np m]|] eqn:Hs; try done.
  2: { exists st, sr; done. }
  destruct Hreg as [Hnp _]; rewrite Hnp.
  destruct (Z.leb_spec np (page h)); [by exists st, sr|].
  destruct (refines_bad_len st sg s1 h data rest r np m Href Hq Hr1 Ht1 Hrx1 Hf Hs) as [Hbr Hbw].
  destruct (Z.eqb_spec (op h) OP_READ_PAGE) as [Ho|Ho].
  { rewrite Ho in *; destruct (Z.eqb_spec (len h) PAGE_SZ) as [Hl|Hl]; cbn [andb Z.eqb OP_READ_PAGE OP_WRITE_PAGE Pos.eqb].
    - destruct (refines_read st sg s1 h r np m Href Hr1 Ht1 Hf Hs Hl) as (s' & -> & Hx).
      destruct data; [|done]; exists st, s'; split_and!; try done.
      destruct Hx as (Hx & _); cbn in Hx, Hrx1; congruence.
    - destruct Hbr as (s' & -> & Hx); [done|]; by exists st, s'. }
  destruct (Z.eqb_spec (op h) OP_WRITE_PAGE) as [Ho'|Ho']; cbn [andb].
  - destruct (Z.eqb_spec (len h) PAGE_SZ) as [Hl|Hl].
    + rewrite Hl in Hd; destruct (refines_write st sg s1 h data rest r np m) as (st' & s' & -> & ?);
        try done; [apply Hh|by exists st', s'].
    + destruct Hbw as (s' & -> & Hx); [done|]; by exists st, s'.
  - destruct data; [|done].
    pose proof (send_hdr_xfer s1 (op h) 0 0 0 Hr1 Ht1) as Hx; do 2 eexists; split_and!; try done.
    destruct Hx as (Hx & _); cbn in Hx, Hrx1; congruence.
Qed.

Lemma refines_run qs fuel st sg s r :
  refines st sg -> Forall request_wf qs -> rx_ok s -> tx_ok s -> rx s = concat (wire <$> qs) ->
  client_loop fuel st s = Some r ->
  refines r.1 (spec_run sg qs).1 /\ tx r.2 = tx s ++ (spec_run sg qs).2.
Proof.
  revert fuel st sg s; induction qs as [|q qs IH]; intros [|fuel] st sg s Href Hq Hr Ht Hrx;
    cbn [client_loop]; try done.
  - unfold handle_turn; destruct (read_full_closed HDR_SZ s Hr) as (evs & _ & ->);
      [rewrite Hrx; cbn; unfold HDR_SZ; lia|]; cbn; intros [= <-]; cbn; by rewrite app_nil_r.
  - apply Forall_cons in Hq as [Hq Hqs]; cbn in Hrx.
    destruct (refines_turn st sg s q _ Href Hq Hr Ht Hrx) as (st' & s' & -> & Href' & Hx & Hrx').
    intros E; pose proof Hx as (_ & Htx & Hr' & Ht').
    destruct (IH fuel st' _ s' Href' Hqs Hr' Ht' Hrx' E) as [IH1 IH2].
    cbn [spec_run]; destruct (spec_step sg q) as [sg1 o1]; cbn [fst snd] in *.
    destruct (spec_run sg1 qs) as [sg2 o2]; cbn [fst snd] in *.
    split; [done|]; rewrite IH2, Htx; by rewrite app_assoc.
Qed.

(** ** Properties *)

(** C2: a client session refines the abstract page store.  For every sequence
    of well-formed requests, however the kernel fragments or interrupts the
    transfers, serving the session leaves the server in the state the
    abstract store reaches and sends exactly the replies it gives, in
    order. *)
Theorem server_refines_store qs st sg s :
  refines st sg -> Forall request_wf qs -> rx_ok s -> tx_ok s -> rx s = concat (wire <$> qs) ->
  refines (handle_client st s).1 (spec_run sg qs).1 /\
  tx (handle_client st s).2 = tx s ++ (spec_run sg qs).2.
Proof.
  intros Href Hq Hr Ht Hrx.
  exact (refines_run qs _ st sg s _ Href Hq Hr Ht Hrx (handle_client_eq st s)).
Qed.

(** A session: allocate two pages, then ask for one past them. *)
Definition demo_requests : list request :=
  [(mk_hdr OP_ALLOC_REGION 0 0 5000, []); (mk_hdr OP_READ_PAGE 1 7 PAGE_SZ, [])].

Definition demo_session : sock :=
  mk_sock (concat (wire <$> demo_requests)) [RecvUpTo 2; RecvEintr] [] [SendUpTo 0].

Lemma server_refines_store_witness :
  refines (handle_client server_init demo_session).1 (spec_run (mk_store 1 ∅) demo_requests).1 /\
  tx (handle_client server_init demo_session).2 =
    tx demo_session ++ (spec_run (mk_store 1 ∅) demo_requests).2.
Proof.
  apply (server_refines_store demo_requests server_init (mk_store 1 ∅) demo_session).
  - split_and!; [constructor|done|done|intros id; cbn; by rewrite lookup_empty].
  - repeat constructor; cbn; unfold in_range; try done; lia.
  - unfold rx_ok; set_solver.
  - unfold tx_ok; set_solver.
  - done.
Defined.

(** C3: no client can break the server.  Whatever bytes arrive, and whichever
    transfers and allocations fail, serving a client ends, every region keeps
    its pages distinct, inside its bounds and of the page size, and the
    region ids stay distinct while the counter does not wrap. *)
Theorem handle_client_safe st s :
  server_wf st -> bytes_ok (rx s) ->
  client_loop (S (length (rx s))) st s = Some (handle_client st s) /\
  server_wf (handle_client st s).1 /\
  (ids_wf st -> g_next_region st + Z.of_nat (length (rx s)) + 1 < 2 ^ 32 ->
   ids_wf (handle_client st s).1).
Proof.
  intros Hwf Hb; pose proof (handle_client_eq st s) as E; split; [done|].
  destruct (handle_client st s) as [st' s']; exact (client_loop_wf _ st s st' s' Hwf Hb E).
Qed.

Lemma handle_client_safe_witness :
  server_wf (handle_client (mk_server [] 1 [true; false])
    (mk_sock (replicate 100 1) [RecvUpTo 30; RecvErr] [] [SendErr])).1.
Proof.
  apply (handle_client_safe (mk_server [] 1 [true; false])
           (mk_sock (replicate 100 1) [RecvUpTo 30; RecvErr] [] [SendErr])).
  - constructor.
  - apply Forall_replicate; unfold in_range; lia.
Defined.
