(* ===== verification/NetMem.v ===== *)
(** * The client of the page store (netmem_page.c)

    [PageServer] is the contract between the client and whatever answers it;
    the client is verified against it, and RemoteMem.v discharges it with the
    server of MemServer.v. *)

From S2P Require Import Prelude NetIO.

(** ** What the client relies on *)

(** [ps_serve p bs] is the peer's state and answer once it has received [bs].
    [ps_page p r i] is the contents of page [i] of region [r]; [ps_room p]
    says another region can be named. *)
Class PageServer (SV : Type) := {
  ps_serve : SV -> list Z -> SV * list Z;
  ps_inv : SV -> Prop;
  ps_room : SV -> Prop;
  ps_page : SV -> Z -> Z -> option (list Z);
  ps_idle p : ps_serve p [] = (p, []);
  ps_page_length p r i data :
    ps_inv p -> ps_page p r i = Some data ->
    length data = Z.to_nat PAGE_SZ /\ 0 < r < 2 ^ 32;
  ps_alloc p bytes :
    ps_inv p -> ps_room p -> 0 < bytes < 2 ^ 32 ->
    exists p' r,
      ps_serve p (encode_hdr (mk_hdr OP_ALLOC_REGION 0 0 bytes)) =
        (p', encode_hdr (mk_hdr OP_ALLOC_REGION r 0 0)) /\
      ps_inv p' /\ 0 < r < 2 ^ 32 /\ (forall i, ps_page p r i = None) /\
      (forall i, 0 <= i -> ps_page p' r i =
         if i <? (bytes + PAGE_SZ - 1) / PAGE_SZ then Some zero_page else None) /\
      (forall r' i, r' <> r -> ps_page p' r' i = ps_page p r' i);
  ps_read p r i data :
    ps_inv p -> in_range 32 i -> ps_page p r i = Some data ->
    exists p', ps_serve p (encode_hdr (mk_hdr OP_READ_PAGE r i PAGE_SZ)) =
        (p', encode_hdr (mk_hdr OP_READ_PAGE r i PAGE_SZ) ++ data) /\
      ps_inv p' /\ (forall r' i', ps_page p' r' i' = ps_page p r' i');
  ps_write p r i data old :
    ps_inv p -> in_range 32 i -> ps_page p r i = Some old ->
    length data = Z.to_nat PAGE_SZ ->
    exists p', ps_serve p (encode_hdr (mk_hdr OP_WRITE_PAGE r i PAGE_SZ) ++ data) =
        (p', encode_hdr (mk_hdr OP_WRITE_PAGE r i 0)) /\
      ps_inv p' /\
      (forall r' i', ps_page p' r' i' =
         if (r' =? r) && (i' =? i) then Some data else ps_page p r' i')
}.

(** ** State *)

Record netmem_t := mk_netmem {
  nm_fd : Z;
  nm_region_id : Z;
  nm_region_bytes : Z;
  nm_num_pages : Z
}.

Section client.
Context {SV : Type} `{PageServer SV}.

(** The client's end of the connection and the peer behind it. *)
Record world := mk_world { w_peer : SV; w_sock : sock }.

(** By the time the client blocks in [recv] the peer has read all that was
    sent and answered. *)
Definition exchange (w : world) : world :=
  let s := w_sock w in
  let '(p, out) := ps_serve (w_peer w) (tx s) in
  mk_world p (mk_sock (rx s ++ out) (rx_evs s) [] (tx_evs s)).

Definition w_write (bs : list Z) (w : world) : Z * world :=
  let '(r, s) := write_full bs (w_sock w) in (r, mk_world (w_peer w) s).

Definition w_read (n : nat) (w : world) : Z * list Z * world :=
  let w := exchange w in
  let '(r, bs, s) := read_full n (w_sock w) in (r, bs, mk_world (w_peer w) s).

(** ** Operations *)

(** The results of [socket], [inet_pton] and [connect]. *)
Definition netmem_connect (fd pton conn : Z) : Z * netmem_t :=
  let nm := mk_netmem fd 0 0 0 in
  if fd <? 0 then (-1, nm)
  else if negb (pton =? 1) then (-1, nm)
  else if conn <? 0 then (-1, nm) else (0, nm).

Definition netmem_alloc_region (nm : netmem_t) (region_bytes : Z) (w : world)
  : Z * netmem_t * world :=
  let region_bytes := if region_bytes =? 0 then PAGE_SZ else region_bytes in
  if 4294967295 <? region_bytes then (-1, nm, w)
  else
    let '(r, w) := w_write (encode_hdr (mk_hdr OP_ALLOC_REGION 0 0 (u32 region_bytes))) w in
    if r <? 0 then (-1, nm, w) else
    let '(r, bs, w) := w_read HDR_SZ w in
    if r <=? 0 then (-1, nm, w) else
    let rep := decode_hdr bs in
    if negb (op rep =? OP_ALLOC_REGION) || (region rep =? 0) then (-1, nm, w)
    else (0, mk_netmem (nm_fd nm) (region rep) region_bytes
                       (u32 ((region_bytes + PAGE_SZ - 1) / PAGE_SZ)), w).

(** The guards of [netmem_read_page] and [netmem_write_page]. *)
Definition nm_ready (nm : netmem_t) (page_idx : Z) : bool :=
  (0 <? nm_fd nm) && negb (nm_region_id nm =? 0) && (page_idx <? nm_num_pages nm).

(** The page is returned next to the result; it is [out_4096], untouched
    ([None]) on the paths that return before the last [read_full]. *)
Definition netmem_read_page (nm : netmem_t) (page_idx : Z) (w : world)
  : Z * option (list Z) * world :=
  if negb (nm_ready nm page_idx) then (-1, None, w)
  else
    let '(r, w) := w_write
      (encode_hdr (mk_hdr OP_READ_PAGE (nm_region_id nm) page_idx PAGE_SZ)) w in
    if r <? 0 then (-1, None, w) else
    let '(r, bs, w) := w_read HDR_SZ w in
    if r <=? 0 then (-1, None, w) else
    let rep := decode_hdr bs in
    if negb (op rep =? OP_READ_PAGE) || negb (region rep =? nm_region_id nm) ||
       negb (page rep =? page_idx) || negb (len rep =? PAGE_SZ)
    then (-1, None, w)
    else
      let '(r, out, w) := w_read (Z.to_nat PAGE_SZ) w in
      if r <=? 0 then (-1, Some out, w) else (0, Some out, w).

Definition netmem_write_page (nm : netmem_t) (page_idx : Z) (data : list Z) (w : world)
  : Z * world :=
  if negb (nm_ready nm page_idx) then (-1, w)
  else
    let '(r, w) := w_write
      (encode_hdr (mk_hdr OP_WRITE_PAGE (nm_region_id nm) page_idx PAGE_SZ)) w in
    if r <? 0 then (-1, w) else
    let '(r, w) := w_write data w in
    if r <? 0 then (-1, w) else
    let '(r, bs, w) := w_read HDR_SZ w in
    if r <=? 0 then (-1, w) else
    let rep := decode_hdr bs in
    if negb (op rep =? OP_WRITE_PAGE) || negb (region rep =? nm_region_id nm) ||
       negb (page rep =? page_idx)
    then (-1, w) else (0, w).

(** [close] is called when the descriptor is positive. *)
Definition netmem_close (nm : netmem_t) : netmem_t * bool :=
  (mk_netmem (-1) 0 (nm_region_bytes nm) (nm_num_pages nm), 0 <? nm_fd nm).

(** ** Correctness against the contract *)

(** Nothing is in flight and no hard error is coming. *)
Definition quiet (w : world) : Prop :=
  rx (w_sock w) = [] /\ tx (w_sock w) = [] /\ rx_ok (w_sock w) /\ tx_ok (w_sock w) /\
  ps_inv (w_peer w).

Definition same_pages (w w' : world) : Prop :=
  forall r i, ps_page (w_peer w') r i = ps_page (w_peer w) r i.

(** [k] bytes of [bs] have been sent, nothing answered yet. *)
Lemma w_write_ok bs w :
  tx_ok (w_sock w) ->
  exists w', w_write bs w = (Z.of_nat (length bs), w') /\ w_peer w' = w_peer w /\
    rx (w_sock w') = rx (w_sock w) /\ tx (w_sock w') = tx (w_sock w) ++ bs /\
    (rx_ok (w_sock w) -> rx_ok (w_sock w')) /\ tx_ok (w_sock w').
Proof.
  intros Ht; unfold w_write; destruct (write_full_ok bs (w_sock w) Ht) as (evs & He & ->).
  eexists; split_and!; done.
Qed.

Lemma w_read_ok n w p' out :
  rx_ok (w_sock w) -> tx_ok (w_sock w) ->
  ps_serve (w_peer w) (tx (w_sock w)) = (p', out) ->
  (n <= length (rx (w_sock w) ++ out))%nat ->
  exists w', w_read n w = (Z.of_nat n, take n (rx (w_sock w) ++ out), w') /\
    w_peer w' = p' /\ rx (w_sock w') = drop n (rx (w_sock w) ++ out) /\
    tx (w_sock w') = [] /\ rx_ok (w_sock w') /\ tx_ok (w_sock w').
Proof.
  intros Hr Ht Hs Hn; unfold w_read, exchange; rewrite Hs.
  destruct (read_full_ok n (mk_sock (rx (w_sock w) ++ out) (rx_evs (w_sock w)) [] (tx_evs (w_sock w)))
              Hr Hn) as (evs & He & Hrd).
  cbn [w_sock w_peer]; rewrite Hrd; eexists; split_and!; done.
Qed.

(** The id and size of the open region, and which pages it has. *)
Definition nm_open (nm : netmem_t) (w : world) : Prop :=
  0 < nm_fd nm /\ 0 < nm_region_id nm < 2 ^ 32 /\ 0 < nm_num_pages nm < 2 ^ 32 /\
  forall i, 0 <= i < nm_num_pages nm -> is_Some (ps_page (w_peer w) (nm_region_id nm) i).

Lemma nm_open_ready nm w i : nm_open nm w -> i < nm_num_pages nm -> nm_ready nm i = true.
Proof.
  intros (? & ? & _ & _) ?; unfold nm_ready.
  rewrite !andb_true_iff, negb_true_iff, !Z.ltb_lt, Z.eqb_neq; lia.
Qed.

Lemma read_page_ok nm i data w :
  quiet w -> nm_open nm w -> 0 <= i < nm_num_pages nm ->
  ps_page (w_peer w) (nm_region_id nm) i = Some data ->
  exists w', netmem_read_page nm i w = (0, Some data, w') /\ quiet w' /\ same_pages w w'.
Proof.
  intros (Hrx & Htx & Hr & Ht & Hinv) Hnm Hi Hpg; unfold netmem_read_page.
  pose proof Hnm as (_ & Hrid & Hnp & _); unfold in_range in *.
  assert (hdr_wf (mk_hdr OP_READ_PAGE (nm_region_id nm) i PAGE_SZ)) as Hwf
    by (unfold hdr_wf, in_range, OP_READ_PAGE, PAGE_SZ; cbn [op region page len]; lia).
  rewrite (nm_open_ready nm w i Hnm) by lia; cbn [negb].
  set (h := mk_hdr OP_READ_PAGE (nm_region_id nm) i PAGE_SZ) in *.
  destruct (w_write_ok (encode_hdr h) w Ht) as (w1 & -> & Hp1 & Hrx1 & Htx1 & Hr1 & Ht1).
  rewrite encode_hdr_length; cbn [Z.of_nat HDR_SZ Z.ltb Z.compare].
  destruct (ps_read (w_peer w) (nm_region_id nm) i data Hinv) as (p' & Hs & Hinv' & Hpg');
    [unfold in_range; lia|done|].
  rewrite Htx in Htx1; cbn in Htx1; rewrite Hrx in Hrx1.
  destruct (w_read_ok HDR_SZ w1 p' (encode_hdr h ++ data)) as (w2 & -> & Hp2 & Hrx2 & Htx2 & Hr2 & Ht2);
    [auto|done|by rewrite Hp1, Htx1|rewrite Hrx1; cbn; unfold HDR_SZ; lia|].
  rewrite Hrx1 in *; cbn [app] in *; change HDR_SZ with (length (encode_hdr h)) in *.
  rewrite take_app_length, drop_app_length in *; rewrite decode_encode_hdr by done.
  cbn [Z.of_nat length encode_hdr htonl app Z.leb Z.compare Pos.of_succ_nat].
  cbn [op region page len h]; rewrite !Z.eqb_refl; cbn [negb orb].
  destruct (ps_page_length _ _ _ _ Hinv Hpg) as [Hlen _].
  destruct (w_read_ok (Z.to_nat PAGE_SZ) w2 p' []) as (w3 & -> & Hp3 & Hrx3 & Htx3 & Hr3 & Ht3);
    [done|done|rewrite Hp2, Htx2; apply ps_idle|rewrite Hrx2, app_nil_r, Hlen; lia|].
  rewrite Hrx2, app_nil_r, <- Hlen, firstn_all in *; rewrite drop_all in Hrx3.
  destruct (Z.leb_spec (Z.of_nat (length data)) 0); [rewrite Hlen in *; done|].
  exists w3; split_and!; [done| |].
  - unfold quiet; by rewrite Hp3.
  - intros r j; by rewrite Hp3, Hpg'.
Qed.

Lemma write_page_ok nm i data w :
  quiet w -> nm_open nm w -> 0 <= i < nm_num_pages nm ->
  length data = Z.to_nat PAGE_SZ ->
  exists w', netmem_write_page nm i data w = (0, w') /\ quiet w' /\
    forall r j, ps_page (w_peer w') r j =
      if (r =? nm_region_id nm) && (j =? i) then Some data else ps_page (w_peer w) r j.
Proof.
  intros (Hrx & Htx & Hr & Ht & Hinv) Hnm Hi Hlen; unfold netmem_write_page.
  pose proof Hnm as (_ & Hrid & Hnp & Hpages); destruct (Hpages i Hi) as [old Hold].
  rewrite (nm_open_ready nm w i Hnm) by lia; cbn [negb].
  set (h := mk_hdr OP_WRITE_PAGE (nm_region_id nm) i PAGE_SZ) in *.
  set (h' := mk_hdr OP_WRITE_PAGE (nm_region_id nm) i 0).
  assert (hdr_wf h') as Hwf
    by (unfold h', hdr_wf, in_range, OP_WRITE_PAGE; cbn [op region page len]; lia).
  destruct (w_write_ok (encode_hdr h) w Ht) as (w1 & -> & Hp1 & Hrx1 & Htx1 & Hr1 & Ht1).
  rewrite encode_hdr_length; cbn [Z.of_nat HDR_SZ Z.ltb Z.compare].
  destruct (w_write_ok data w1 Ht1) as (w2 & -> & Hp2 & Hrx2 & Htx2 & Hr2 & Ht2).
  destruct (Z.ltb_spec (Z.of_nat (length data)) 0); [lia|].
  destruct (ps_write (w_peer w) (nm_region_id nm) i data old Hinv) as (p' & Hs & Hinv' & Hpg');
    [unfold in_range; lia|done|done|].
  destruct (w_read_ok HDR_SZ w2 p' (encode_hdr h')) as (w3 & -> & Hp3 & Hrx3 & Htx3 & Hr3 & Ht3);
    [auto|done|by rewrite Hp2, Hp1, Htx2, Htx1, Htx|
     rewrite length_app, encode_hdr_length; lia|].
  rewrite Hrx2, Hrx1, Hrx in *; cbn [app] in *; change HDR_SZ with (length (encode_hdr h')) in *.
  rewrite firstn_all, drop_all in *; rewrite decode_encode_hdr by done.
  cbn [Z.of_nat length encode_hdr htonl app Z.leb Z.compare Pos.of_succ_nat].
  cbn [op region page h']; rewrite !Z.eqb_refl; cbn [negb orb].
  exists w3; split_and!; [done| |intros; by rewrite Hp3, Hpg'].
  unfold quiet; by rewrite Hp3.
Qed.

Lemma alloc_region_ok nm bytes w :
  quiet w -> ps_room (w_peer w) -> 0 < nm_fd nm -> 0 <= bytes < 2 ^ 32 ->
  exists nm' w', netmem_alloc_region nm bytes w = (0, nm', w') /\ quiet w' /\ nm_open nm' w' /\
    nm_region_bytes nm' = (if bytes =? 0 then PAGE_SZ else bytes) /\
    nm_num_pages nm' = (nm_region_bytes nm' + PAGE_SZ - 1) / PAGE_SZ /\
    (forall i, ps_page (w_peer w) (nm_region_id nm') i = None) /\
    (forall i, 0 <= i < nm_num_pages nm' ->
       ps_page (w_peer w') (nm_region_id nm') i = Some zero_page) /\
    (forall r i, r <> nm_region_id nm' -> ps_page (w_peer w') r i = ps_page (w_peer w) r i).
Proof.
  intros (Hrx & Htx & Hr & Ht & Hinv) Hroom Hfd Hb; unfold netmem_alloc_region.
  set (b := if bytes =? 0 then PAGE_SZ else bytes).
  assert (0 < b < 2 ^ 32) as Hb' by (unfold b, PAGE_SZ; destruct_if; zbool; lia).
  destruct (Z.ltb_spec 4294967295 b); [lia|].
  rewrite (wrap_small 32 b) by (unfold in_range; lia).
  set (h := mk_hdr OP_ALLOC_REGION 0 0 b).
  destruct (w_write_ok (encode_hdr h) w Ht) as (w1 & -> & Hp1 & Hrx1 & Htx1 & Hr1 & Ht1).
  rewrite encode_hdr_length; cbn [Z.of_nat HDR_SZ Z.ltb Z.compare].
  destruct (ps_alloc (w_peer w) b Hinv Hroom Hb')
    as (p' & rid & Hs & Hinv' & Hrid & Hfresh & Hpages & Hother).
  set (h' := mk_hdr OP_ALLOC_REGION rid 0 0) in *.
  assert (hdr_wf h') as Hwf
    by (unfold h', hdr_wf, in_range, OP_ALLOC_REGION; cbn [op region page len]; lia).
  destruct (w_read_ok HDR_SZ w1 p' (encode_hdr h')) as (w2 & -> & Hp2 & Hrx2 & Htx2 & Hr2 & Ht2);
    [auto|done|by rewrite Hp1, Htx1, Htx|rewrite length_app, encode_hdr_length; lia|].
  rewrite Hrx1, Hrx in *; cbn [app] in *; change HDR_SZ with (length (encode_hdr h')) in *.
  rewrite firstn_all, drop_all in *; rewrite decode_encode_hdr by done.
  cbn [Z.of_nat length encode_hdr htonl app Z.leb Z.compare Pos.of_succ_nat].
  cbn [op region h']; rewrite Z.eqb_refl; destruct (Z.eqb_spec rid 0); [lia|]; cbn [negb orb].
  assert (0 < (b + PAGE_SZ - 1) / PAGE_SZ < 2 ^ 32) as Hnp
    by (unfold PAGE_SZ in *; Z.div_mod_to_equations; lia).
  rewrite (wrap_small 32 ((b + PAGE_SZ - 1) / PAGE_SZ)) by (unfold in_range; lia).
  assert (forall i, 0 <= i < (b + PAGE_SZ - 1) / PAGE_SZ -> ps_page p' rid i = Some zero_page) as Hz.
  { intros i Hi; rewrite Hpages by lia; by rewrite (proj2 (Z.ltb_lt _ _)) by lia. }
  do 2 eexists; split; [done|]; unfold quiet, nm_open; cbn; rewrite Hp2; split_and!; try done.
  all: try lia; intros i Hi; rewrite Hz by done; eauto.
Qed.

(** ** Refusals *)

(** A page outside the region, or a handle that is not open, is refused
    without touching the connection. *)
Lemma not_ready_refused nm i data w :
  nm_ready nm i = false ->
  netmem_read_page nm i w = (-1, None, w) /\ netmem_write_page nm i data w = (-1, w).
Proof. intros E; unfold netmem_read_page, netmem_write_page; by rewrite E. Qed.

Lemma alloc_too_big nm bytes w :
  2 ^ 32 <= bytes -> netmem_alloc_region nm bytes w = (-1, nm, w).
Proof.
  intros Hb; unfold netmem_alloc_region.
  destruct (Z.eqb_spec bytes 0); [lia|]; by rewrite (proj2 (Z.ltb_lt _ _)) by lia.
Qed.

End client.

Arguments world SV : clear implicits.
