(* ===== verification/RemoteMem.v ===== *)
(** * Client and server together

    The server of MemServer.v, under any fragmentation of its side of the
    connection, keeps the contract [PageServer]; the end-to-end behaviour of
    a remote region follows. *)

From S2P Require Import Prelude NetIO MemServer NetMem.

(** ** The contract is kept *)

Section server_instance.
(** The schedule of the server's end of the connection, without hard errors. *)
Context (revs : list recv_ev) (sevs : list send_ev).
Context (Hrevs : RecvErr ∉ revs) (Hsevs : SendErr ∉ sevs).

Definition srv_serve (st : server) (bs : list Z) : server * list Z :=
  let '(st, s) := handle_client st (mk_sock bs revs [] sevs) in (st, tx s).

Definition srv_inv (st : server) : Prop :=
  server_wf st /\ calloc_ok st = [] /\
  forall id r, find_region (g_regions st) id = Some r -> 0 < id < 2 ^ 32.

(** The next id is unused and not the error value 0. *)
Definition srv_room (st : server) : Prop :=
  0 < g_next_region st < 2 ^ 32 /\ find_region (g_regions st) (g_next_region st) = None.

Definition srv_page (st : server) (r i : Z) : option (list Z) :=
  match find_region (g_regions st) r with
  | Some reg =>
      if (0 <=? i) && (i <? num_pages reg)
      then Some (default zero_page (pdata <$> find_page (pages reg) i)) else None
  | None => None
  end.

(** The store a server state stands for. *)
Definition pages_map (ps : list PageNode) : gmap Z (list Z) :=
  foldr (fun p m => <[page_idx p := pdata p]> m) ∅ ps.

Definition regions_map (rs : list Region) : gmap Z (Z * gmap Z (list Z)) :=
  foldr (fun r m => <[rid r := (num_pages r, pages_map (pages r))]> m) ∅ rs.

Definition store_of (st : server) : store :=
  mk_store (g_next_region st) (regions_map (g_regions st)).

Lemma pages_map_lookup ps i : pages_map ps !! i = pdata <$> find_page ps i.
Proof.
  induction ps as [|p ps IH]; cbn; [apply lookup_empty|]; rewrite lookup_insert.
  destruct (Z.eqb_spec (page_idx p) i); [by rewrite decide_True|by rewrite decide_False].
Qed.

Lemma regions_map_lookup rs id :
  regions_map rs !! id = (fun r => (num_pages r, pages_map (pages r))) <$> find_region rs id.
Proof.
  induction rs as [|r rs IH]; cbn; [apply lookup_empty|]; rewrite lookup_insert.
  destruct (Z.eqb_spec (rid r) id); [by rewrite decide_True|by rewrite decide_False].
Qed.

Lemma refines_store_of st :
  server_wf st -> calloc_ok st = [] -> refines st (store_of st).
Proof.
  intros Hwf Hc; split_and!; try done; intros id; cbn; rewrite regions_map_lookup.
  destruct (find_region _ _) as [r|]; [|done]; cbn; split; [done|apply pages_map_lookup].
Qed.

(** One well-formed request: the answer and the new state are the store's. *)
Lemma srv_serve_one st q :
  server_wf st -> calloc_ok st = [] -> request_wf q ->
  exists st', srv_serve st (wire q) = (st', (spec_step (store_of st) q).2) /\
    refines st' (spec_step (store_of st) q).1.
Proof.
  intros Hwf Hc Hq; unfold srv_serve.
  set (s := mk_sock (wire q) revs [] sevs).
  pose proof (handle_client_eq st s) as E.
  apply (refines_run [q] _ st (store_of st) s) in E as [H1 H2]; try done;
    [|by apply refines_store_of|by apply Forall_singleton|cbn; by rewrite app_nil_r].
  destruct (handle_client st s) as [st' s']; cbn [fst snd] in *.
  cbn [spec_run] in *; destruct (spec_step (store_of st) q) as [sg o]; cbn [fst snd] in *.
  exists st'; by rewrite H2, app_nil_r.
Qed.

Lemma refines_page st sg r i :
  refines st sg ->
  srv_page st r i =
    match regs sg !! r with
    | Some (np, m) =>
        if (0 <=? i) && (i <? np) then Some (default zero_page (m !! i)) else None
    | None => None
    end.
Proof.
  intros (_ & _ & _ & Href); specialize (Href r); unfold srv_page.
  destruct (find_region _ r), (regs sg !! r) as [[np m]|]; try done.
  destruct Href as [-> Hm]; by rewrite Hm.
Qed.

Lemma refines_known st sg id r :
  refines st sg -> find_region (g_regions st) id = Some r -> is_Some (regs sg !! id).
Proof.
  intros (_ & _ & _ & Href) Hf; specialize (Href id); rewrite Hf in Href.
  destruct (regs sg !! id); [eauto|done].
Qed.

Lemma known_refines st sg id :
  refines st sg -> is_Some (regs sg !! id) -> exists r, find_region (g_regions st) id = Some r.
Proof.
  intros (_ & _ & _ & Href) [x Hx]; specialize (Href id); rewrite Hx in Href.
  destruct (find_region _ _) as [r|]; [by exists r|done].
Qed.

Lemma refines_inv st sg :
  refines st sg -> (forall id, is_Some (regs sg !! id) -> 0 < id < 2 ^ 32) -> srv_inv st.
Proof.
  intros Href Hid; pose proof Href as (Hwf & Hc & _); split_and!; [done|done|].
  intros id r Hf; apply Hid; by eapply refines_known.
Qed.

Lemma inv_store_ids st id : srv_inv st -> is_Some (regs (store_of st) !! id) -> 0 < id < 2 ^ 32.
Proof.
  intros (Hwf & Hc & Hids) Hs.
  destruct (known_refines st (store_of st) id (refines_store_of st Hwf Hc) Hs); eauto.
Qed.

Lemma srv_page_length st r i data :
  srv_inv st -> srv_page st r i = Some data ->
  length data = Z.to_nat PAGE_SZ /\ 0 < r < 2 ^ 32.
Proof.
  intros (Hwf & _ & Hids) Hp; unfold srv_page in Hp.
  destruct (find_region (g_regions st) r) as [reg|] eqn:Hr; [|done].
  split; [|by eapply Hids]; destruct_if; [|done]; injection Hp as <-.
  destruct (find_page (pages reg) i) as [p|] eqn:Hpg; cbn; [|apply zero_page_length].
  by eapply find_page_wf.
Qed.

(** A region that answers has its id and page in range for the header. *)
Lemma srv_page_hdr st r i data o l :
  srv_inv st -> in_range 32 i -> srv_page st r i = Some data ->
  0 <= o < 2 ^ 32 -> 0 <= l < 2 ^ 32 -> hdr_wf (mk_hdr o r i l).
Proof.
  intros Hinv Hi Hp Ho Hl; destruct (srv_page_length _ _ _ _ Hinv Hp) as [_ Hr].
  unfold hdr_wf, in_range in *; cbn [op region page len]; lia.
Qed.

(** The store entry behind a page that answers. *)
Lemma srv_page_store st r i data :
  srv_inv st -> srv_page st r i = Some data ->
  exists np m, regs (store_of st) !! r = Some (np, m) /\ 0 <= i < np /\
    data = default zero_page (m !! i).
Proof.
  intros (Hwf & Hc & _) Hp.
  rewrite (refines_page st (store_of st)) in Hp by (by apply refines_store_of).
  destruct (regs _ !! r) as [[np m]|]; [|done]; destruct_if; [|done]; zbool.
  exists np, m; split_and!; try lia; congruence.
Qed.

Lemma srv_alloc_law st bytes :
  srv_inv st -> srv_room st -> 0 < bytes < 2 ^ 32 ->
  exists st' r,
    srv_serve st (encode_hdr (mk_hdr OP_ALLOC_REGION 0 0 bytes)) =
      (st', encode_hdr (mk_hdr OP_ALLOC_REGION r 0 0)) /\
    srv_inv st' /\ 0 < r < 2 ^ 32 /\ (forall i, srv_page st r i = None) /\
    (forall i, 0 <= i -> srv_page st' r i =
       if i <? (bytes + PAGE_SZ - 1) / PAGE_SZ then Some zero_page else None) /\
    (forall r' i, r' <> r -> srv_page st' r' i = srv_page st r' i).
Proof.
  intros Hinv [Hnext Hfresh] Hb; pose proof Hinv as (Hwf & Hc & _).
  set (h := mk_hdr OP_ALLOC_REGION 0 0 bytes).
  assert (request_wf (h, [])) as Hq.
  { split; [|done]; unfold h, hdr_wf, in_range, OP_ALLOC_REGION; cbn [fst op region page len]; lia. }
  destruct (srv_serve_one st (h, []) Hwf Hc Hq) as (st' & Hs & Href).
  pose proof (refines_store_of st Hwf Hc) as Href0.
  unfold wire in Hs; cbn [fst snd] in Hs; rewrite app_nil_r in Hs.
  unfold spec_step, h in Hs, Href; cbn [op len Z.eqb Pos.eqb OP_ALLOC_REGION fst snd] in Hs, Href.
  destruct (Z.eqb_spec bytes 0); [lia|].
  exists st', (g_next_region st); split_and!; try done; try lia.
  - apply (refines_inv _ _ Href); intros id; cbn [regs].
    destruct (decide (id = g_next_region st)) as [->|Hne]; [done|].
    rewrite lookup_insert_ne by done; by apply inv_store_ids.
  - intros i; unfold srv_page; by rewrite Hfresh.
  - intros i Hi; rewrite (refines_page _ _ _ _ Href); cbn [regs]; rewrite lookup_insert_eq.
    rewrite (proj2 (Z.leb_le 0 i)) by lia; cbn [andb]; by rewrite lookup_empty.
  - intros r' i Hne; rewrite (refines_page _ _ _ _ Href), (refines_page _ _ _ _ Href0); cbn [regs].
    by rewrite lookup_insert_ne by done.
Qed.

Lemma srv_read_law st r i data :
  srv_inv st -> in_range 32 i -> srv_page st r i = Some data ->
  exists st', srv_serve st (encode_hdr (mk_hdr OP_READ_PAGE r i PAGE_SZ)) =
      (st', encode_hdr (mk_hdr OP_READ_PAGE r i PAGE_SZ) ++ data) /\
    srv_inv st' /\ (forall r' i', srv_page st' r' i' = srv_page st r' i').
Proof.
  intros Hinv Hi Hp; pose proof Hinv as (Hwf & Hc & Hids).
  set (h := mk_hdr OP_READ_PAGE r i PAGE_SZ).
  assert (request_wf (h, [])) as Hq by (by split; [eapply srv_page_hdr|]).
  destruct (srv_serve_one st (h, []) Hwf Hc Hq) as (st' & Hs & Href).
  destruct (srv_page_store st r i data Hinv Hp) as (np & m & Hm & Hnp & ->).
  pose proof (refines_store_of st Hwf Hc) as Href0.
  unfold wire in Hs; cbn [fst snd] in Hs; rewrite app_nil_r in Hs.
  unfold spec_step, h in Hs, Href; cbn [op region page len Z.eqb Pos.eqb OP_ALLOC_REGION OP_READ_PAGE] in Hs, Href.
  rewrite Hm in Hs, Href; destruct (Z.leb_spec np i); [lia|].
  rewrite Z.eqb_refl in Hs, Href; cbn [andb fst snd] in Hs, Href.
  exists st'; split_and!; try done.
  - apply (refines_inv _ _ Href); intros id; by apply inv_store_ids.
  - intros; by rewrite (refines_page _ _ _ _ Href), (refines_page _ _ _ _ Href0).
Qed.

Lemma srv_write_law st r i data old :
  srv_inv st -> in_range 32 i -> srv_page st r i = Some old ->
  length data = Z.to_nat PAGE_SZ ->
  exists st', srv_serve st (encode_hdr (mk_hdr OP_WRITE_PAGE r i PAGE_SZ) ++ data) =
      (st', encode_hdr (mk_hdr OP_WRITE_PAGE r i 0)) /\
    srv_inv st' /\
    (forall r' i', srv_page st' r' i' =
       if (r' =? r) && (i' =? i) then Some data else srv_page st r' i').
Proof.
  intros Hinv Hi Hp Hlen; pose proof Hinv as (Hwf & Hc & Hids).
  set (h := mk_hdr OP_WRITE_PAGE r i PAGE_SZ).
  assert (request_wf (h, data)) as Hq by (by split; [eapply srv_page_hdr|]).
  destruct (srv_serve_one st (h, data) Hwf Hc Hq) as (st' & Hs & Href).
  destruct (srv_page_store st r i old Hinv Hp) as (np & m & Hm & Hnp & ->).
  pose proof (refines_store_of st Hwf Hc) as Href0.
  unfold wire in Hs; cbn [fst snd] in Hs.
  unfold spec_step, h in Hs, Href; cbn [op region page len Z.eqb Pos.eqb OP_ALLOC_REGION OP_READ_PAGE OP_WRITE_PAGE] in Hs, Href.
  rewrite Hm in Hs, Href; destruct (Z.leb_spec np i); [lia|].
  rewrite Z.eqb_refl in Hs, Href; cbn [andb fst snd] in Hs, Href.
  exists st'; split_and!; try done.
  - apply (refines_inv _ _ Href); intros id; cbn [regs].
    destruct (decide (id = r)) as [->|Hne]; [by destruct (srv_page_length _ _ _ _ Hinv Hp)|].
    rewrite lookup_insert_ne by done; by apply inv_store_ids.
  - intros r' i'; rewrite (refines_page _ _ _ _ Href), (refines_page _ _ _ _ Href0); cbn [regs].
    destruct (Z.eqb_spec r' r) as [->|Hne]; cbn [andb]; [|by rewrite lookup_insert_ne by done].
    rewrite lookup_insert_eq, Hm, lookup_insert; destruct (Z.eqb_spec i' i) as [->|Hne].
    + rewrite decide_True by done.
      by rewrite (proj2 (Z.leb_le 0 i)), (proj2 (Z.ltb_lt i np)) by lia.
    + by rewrite decide_False.
Qed.

Lemma srv_idle_law st : srv_serve st [] = (st, []).
Proof.
  unfold srv_serve, handle_client; cbn [rx length client_loop].
  unfold handle_turn; destruct (read_full_closed HDR_SZ (mk_sock [] revs [] sevs) Hrevs)
    as (evs & _ & ->); [cbn; unfold HDR_SZ; lia|done].
Qed.

End server_instance.

(** ** The server with a schedule for every exchange

    The outcomes of the calls on the server's end differ from exchange to
    exchange; an exchange without bytes is none. *)

Record peer := mk_peer { p_server : server; p_turn : nat }.

Section peer.
Context (sched : nat -> list recv_ev * list send_ev).
Context (Hrevs : forall k, RecvErr ∉ (sched k).1) (Hsevs : forall k, SendErr ∉ (sched k).2).

Definition peer_serve (p : peer) (bs : list Z) : peer * list Z :=
  let '(st, out) := srv_serve (sched (p_turn p)).1 (sched (p_turn p)).2 (p_server p) bs in
  (mk_peer st (match bs with [] => p_turn p | _ => S (p_turn p) end), out).

Definition peer_inv (p : peer) : Prop := srv_inv (p_server p).
Definition peer_room (p : peer) : Prop := srv_room (p_server p).
Definition peer_page (p : peer) : Z -> Z -> option (list Z) := srv_page (p_server p).

Lemma peer_serve_eq p bs st' out : srv_serve (sched (p_turn p)).1 (sched (p_turn p)).2 (p_server p) bs = (st', out) ->
  exists p', peer_serve p bs = (p', out) /\ p_server p' = st'.
Proof. intros E; unfold peer_serve; rewrite E; by eexists. Qed.

Lemma peer_idle_law p : peer_serve p [] = (p, []).
Proof. unfold peer_serve; rewrite srv_idle_law by done; by destruct p. Qed.

Lemma peer_alloc_law p bytes :
  peer_inv p -> peer_room p -> 0 < bytes < 2 ^ 32 ->
  exists p' r,
    peer_serve p (encode_hdr (mk_hdr OP_ALLOC_REGION 0 0 bytes)) =
      (p', encode_hdr (mk_hdr OP_ALLOC_REGION r 0 0)) /\
    peer_inv p' /\ 0 < r < 2 ^ 32 /\ (forall i, peer_page p r i = None) /\
    (forall i, 0 <= i -> peer_page p' r i =
       if i <? (bytes + PAGE_SZ - 1) / PAGE_SZ then Some zero_page else None) /\
    (forall r' i, r' <> r -> peer_page p' r' i = peer_page p r' i).
Proof.
  intros Hi Hr Hb; destruct (srv_alloc_law _ _ (Hrevs (p_turn p)) (Hsevs (p_turn p)) _ _ Hi Hr Hb) as (st' & r & E & H).
  destruct (peer_serve_eq _ _ _ _ E) as (p' & E' & <-); by exists p', r.
Qed.

Lemma peer_read_law p r i data :
  peer_inv p -> in_range 32 i -> peer_page p r i = Some data ->
  exists p', peer_serve p (encode_hdr (mk_hdr OP_READ_PAGE r i PAGE_SZ)) =
      (p', encode_hdr (mk_hdr OP_READ_PAGE r i PAGE_SZ) ++ data) /\
    peer_inv p' /\ (forall r' i', peer_page p' r' i' = peer_page p r' i').
Proof.
  intros Hi Hr Hp; destruct (srv_read_law _ _ (Hrevs (p_turn p)) (Hsevs (p_turn p)) _ _ _ _ Hi Hr Hp) as (st' & E & H).
  destruct (peer_serve_eq _ _ _ _ E) as (p' & E' & <-); by exists p'.
Qed.

Lemma peer_write_law p r i data old :
  peer_inv p -> in_range 32 i -> peer_page p r i = Some old ->
  length data = Z.to_nat PAGE_SZ ->
  exists p', peer_serve p (encode_hdr (mk_hdr OP_WRITE_PAGE r i PAGE_SZ) ++ data) =
      (p', encode_hdr (mk_hdr OP_WRITE_PAGE r i 0)) /\
    peer_inv p' /\
    (forall r' i', peer_page p' r' i' =
       if (r' =? r) && (i' =? i) then Some data else peer_page p r' i').
Proof.
  intros Hi Hr Hp Hl; destruct (srv_write_law _ _ (Hrevs (p_turn p)) (Hsevs (p_turn p)) _ _ _ _ _ Hi Hr Hp Hl) as (st' & E & H).
  destruct (peer_serve_eq _ _ _ _ E) as (p' & E' & <-); by exists p'.
Qed.

#[export] Instance page_server : PageServer peer := {|
  ps_serve := peer_serve;
  ps_inv := peer_inv;
  ps_room := peer_room;
  ps_page := peer_page;
  ps_idle := peer_idle_law;
  ps_page_length p := srv_page_length (p_server p);
  ps_alloc := peer_alloc_law;
  ps_read := peer_read_law;
  ps_write := peer_write_law
|}.

(** ** Properties *)

(** C1: a remote region is a memory.  However both ends fragment their
    traffic, in each exchange anew, a region of the requested size can be opened, a page written to
    it reads back as written, and every page not written reads as zeros. *)
Theorem remote_region_roundtrip nm bytes w i data :
  quiet w -> srv_room (p_server (w_peer w)) -> 0 < nm_fd nm -> 0 < bytes < 2 ^ 32 ->
  0 <= i < (bytes + PAGE_SZ - 1) / PAGE_SZ -> length data = Z.to_nat PAGE_SZ ->
  exists nm' w1 w2 w3,
    netmem_alloc_region nm bytes w = (0, nm', w1) /\
    netmem_write_page nm' i data w1 = (0, w2) /\
    netmem_read_page nm' i w2 = (0, Some data, w3) /\
    (forall j, 0 <= j < (bytes + PAGE_SZ - 1) / PAGE_SZ -> j <> i ->
       exists w4, netmem_read_page nm' j w3 = (0, Some zero_page, w4)).
Proof.
  intros Hq Hroom Hfd Hb Hi Hlen.
  destruct (alloc_region_ok nm bytes w Hq Hroom Hfd ltac:(lia))
    as (nm' & w1 & E1 & Hq1 & Ho1 & Hby & Hnp & _ & Hz & _).
  destruct (Z.eqb_spec bytes 0); [lia|]; rewrite Hby in Hnp.
  destruct (write_page_ok nm' i data w1 Hq1 Ho1) as (w2 & E2 & Hq2 & Hp2); [lia|done|].
  assert (nm_open nm' w2) as Ho2.
  { destruct Ho1 as (? & ? & ? & Hs); split_and!; try lia.
    intros k Hk; rewrite Hp2; destruct_if; eauto. }
  destruct (read_page_ok nm' i data w2 Hq2 Ho2) as (w3 & E3 & Hq3 & Hsame); [lia| |].
  { by rewrite Hp2, !Z.eqb_refl. }
  exists nm', w1, w2, w3; split_and!; try done; intros j Hj Hne.
  assert (nm_open nm' w3) as Ho3.
  { destruct Ho2 as (? & ? & ? & Hs); split_and!; try lia.
    intros k Hk; rewrite Hsame; eauto. }
  destruct (read_page_ok nm' j zero_page w3 Hq3 Ho3) as (w4 & E4 & _); [lia| |by exists w4].
  rewrite Hsame, Hp2, (proj2 (Z.eqb_neq j i) Hne), andb_false_r; apply Hz; lia.
Qed.

End peer.

(** A server whose connection delivers four bytes, is interrupted, and sends
    two bytes at first; in later exchanges it delivers ever more at once. *)
Section demo.

Definition demo_sched (k : nat) : list recv_ev * list send_ev := ([RecvUpTo (3 + k); RecvEintr], [SendUpTo (1 + 2 * k)]).

Lemma demo_recv_evs k : RecvErr ∉ (demo_sched k).1.
Proof. set_solver. Qed.

Lemma demo_send_evs k : SendErr ∉ (demo_sched k).2.
Proof. set_solver. Qed.

#[local] Instance demo_server : PageServer peer := page_server _ demo_recv_evs demo_send_evs.

Lemma remote_region_roundtrip_witness :
  exists nm' w1 w2 w3,
    netmem_alloc_region (mk_netmem 5 0 0 0) 10000
       (mk_world (mk_peer server_init 0) (mk_sock [] [RecvUpTo 0; RecvEintr] [] [SendEintr])) = (0, nm', w1) /\
    netmem_write_page nm' 2 (replicate (Z.to_nat PAGE_SZ) 9) w1 = (0, w2) /\
    netmem_read_page nm' 2 w2 = (0, Some (replicate (Z.to_nat PAGE_SZ) 9), w3).
Proof.
  destruct (remote_region_roundtrip _ demo_recv_evs demo_send_evs (mk_netmem 5 0 0 0) 10000
    (mk_world (mk_peer server_init 0) (mk_sock [] [RecvUpTo 0; RecvEintr] [] [SendEintr]))
    2 (replicate (Z.to_nat PAGE_SZ) 9)) as (nm' & w1 & w2 & w3 & E1 & E2 & E3 & _).
  - unfold quiet, rx_ok, tx_ok; cbn; split_and!; try done; [set_solver..|].
    unfold peer_inv, srv_inv; split_and!; try done; constructor.
  - split; [cbn; lia|done].
  - cbn; lia.
  - lia.
  - by vm_compute.
  - apply length_replicate.
  - exists nm', w1, w2, w3; done.
Defined.
End demo.
