(* ===== verification/Pager.v ===== *)
(** * The SIGSEGV pager (disagg_pager.c)

    A region is mapped with no access; a touched page is fetched by the fault
    handler, a first write marks it dirty, and [disagg_flush] writes dirty
    pages back.  The handler runs with SA_NODEFER, so a fault it causes itself
    re-enters it: [segv_handler] and the page copy are mutually recursive and
    run on fuel. *)

From S2P Require Import Prelude NetIO MemServer NetMem RemoteMem.

(** ** State *)

Record page_meta := mk_meta { resident : bool; dirty : bool; writable : bool }.

Definition meta0 : page_meta := mk_meta false false false.

Inductive prot := PROT_NONE | PROT_READ | PROT_RW.

(** A page of the mapping: its protection and contents. *)
Record vpage := mk_vpage { v_prot : prot; v_data : list Z }.

(** The SIGSEGV disposition saved by [disagg_open]. *)
Inductive old_segv := OldSiginfo (set : bool) | OldDfl | OldIgn | OldFun.

Record disagg_pager := mk_pager {
  p_nm : netmem_t;
  p_base : Z;
  p_bytes : Z;
  p_num_pages : Z;
  p_meta : list page_meta;
  p_old : old_segv
}.

Definition set_meta (p : disagg_pager) (m : list page_meta) : disagg_pager :=
  mk_pager (p_nm p) (p_base p) (p_bytes p) (p_num_pages p) m (p_old p).

Definition align_down (x a : Z) : Z := Z.land x (Z.lnot (a - 1)).

Section pager.
Context {SV : Type} `{PageServer SV}.

(** The process: the pager, its mapping, the outcomes of coming [mprotect]
    calls (all succeed once the list is used up) and the connection. *)
Record proc := mk_proc {
  g_pager : option disagg_pager;
  vmem : list vpage;
  mprotect_ok : list bool;
  net : world SV
}.

Definition set_pager (st : proc) (p : disagg_pager) : proc :=
  mk_proc (Some p) (vmem st) (mprotect_ok st) (net st).
Definition set_vmem (st : proc) (m : list vpage) : proc :=
  mk_proc (g_pager st) m (mprotect_ok st) (net st).
Definition set_net (st : proc) (w : world SV) : proc :=
  mk_proc (g_pager st) (vmem st) (mprotect_ok st) w.

(** [mprotect] of one page. *)
Definition mprotect (st : proc) (idx : Z) (pr : prot) : option proc :=
  let '(ok, rest) := match mprotect_ok st with [] => (true, []) | b :: r => (b, r) end in
  if ok then
    pg ← zget (vmem st) idx;
    m ← zput (vmem st) idx (mk_vpage pr (v_data pg));
    Some (mk_proc (g_pager st) m rest (net st))
  else None.

(** How a SIGSEGV ends: the handler returns and the access is retried, the
    process exits or is killed, the signal is passed on or ignored, or the
    fuel ran out. *)
Inductive outcome :=
| Resume (st : proc)
| Exit127
| Killed
| Delegated
| Ignored
| NoFuel.

Definition chain (st : proc) : outcome :=
  match g_pager st with
  | None => Killed
  | Some p =>
      match p_old p with
      | OldSiginfo true => Delegated
      | OldSiginfo false => Ignored
      | OldDfl => Killed
      | OldIgn => Ignored
      | OldFun => Delegated
      end
  end.

Definition page_of_addr (p : disagg_pager) (addr : Z) : Z :=
  u32 (align_down (addr - p_base p) PAGE_SZ / PAGE_SZ).

(** [m->resident = 1; m->writable = 0;] on the current metadata. *)
Definition mark_resident (st : proc) (idx : Z) : outcome :=
  match g_pager st with
  | None => Killed
  | Some p =>
      match zget (p_meta p) idx with
      | None => Killed
      | Some m =>
          match zput (p_meta p) idx (mk_meta true (dirty m) false) with
          | Some ms => Resume (set_pager st (set_meta p ms))
          | None => Killed
          end
      end
  end.

Fixpoint segv_handler (fuel : nat) (st : proc) (addr : Z) : outcome :=
  match fuel with
  | O => NoFuel
  | S fuel =>
      match g_pager st with
      | None => chain st
      | Some p =>
          if addr =? 0 then chain st
          else if negb ((p_base p <=? addr) && (addr <? p_base p + p_bytes p)) then chain st
          else
            let page_off := align_down (addr - p_base p) PAGE_SZ in
            let idx := page_of_addr p addr in
            match zget (p_meta p) idx with
            | None => Exit127
            | Some m =>
                if negb (resident m) then
                  let '(r, buf, w) := netmem_read_page (p_nm p) idx (net st) in
                  let st := set_net st w in
                  if negb (r =? 0) then Exit127
                  else
                    match mprotect st idx PROT_READ with
                    | None => Exit127
                    | Some st =>
                        match memcpy_page fuel st idx (p_base p + page_off) (default [] buf) with
                        | Resume st => mark_resident st idx
                        | o => o
                        end
                    end
                else if negb (writable m) then
                  match mprotect st idx PROT_RW with
                  | None => Exit127
                  | Some st =>
                      match zput (p_meta p) idx (mk_meta (resident m) true true) with
                      | Some ms => Resume (set_pager st (set_meta p ms))
                      | None => Exit127
                      end
                  end
                else chain st
            end
      end
  end
(** [memcpy(page_addr, buf, NETMEM_PAGE_SZ)]: a store to a page without write
    permission raises SIGSEGV at [addr] and is retried if the handler returns. *)
with memcpy_page (fuel : nat) (st : proc) (idx addr : Z) (buf : list Z) : outcome :=
  match fuel with
  | O => NoFuel
  | S fuel =>
      match zget (vmem st) idx with
      | None => Killed
      | Some pg =>
          match v_prot pg with
          | PROT_RW =>
              match zput (vmem st) idx (mk_vpage PROT_RW (buf ++ drop (length buf) (v_data pg))) with
              | Some m => Resume (set_vmem st m)
              | None => Killed
              end
          | _ =>
              match segv_handler fuel st addr with
              | Resume st => memcpy_page fuel st idx addr buf
              | o => o
              end
          end
      end
  end.

(** ** Opening, flushing, closing *)

(** [nm_res] is the result of [netmem_connect], [calloc1]/[calloc2],
    [mmap_res] and [sigaction_ok] the results of the other calls, [old] the
    disposition [sigaction] returns.  On success the mapping is fresh: no
    access, zero contents. *)
Definition disagg_open (calloc1 : bool) (conn : Z * netmem_t) (region_bytes : Z)
    (calloc2 : bool) (mmap_res : option Z) (sigaction_ok : bool) (old : old_segv)
    (st : proc) : option Z * proc :=
  if negb calloc1 then (None, st) else
  let '(r, nm) := conn in
  if negb (r =? 0) then (None, st) else
  let '(r, nm, w) := netmem_alloc_region nm region_bytes (net st) in
  let st := set_net st w in
  if negb (r =? 0) then (None, st) else
  if negb calloc2 then (None, st) else
  match mmap_res with
  | None => (None, st)
  | Some base =>
      let p := mk_pager nm base (nm_region_bytes nm) (nm_num_pages nm)
                 (replicate (Z.to_nat (nm_num_pages nm)) meta0) old in
      if sigaction_ok then
        (Some base,
         mk_proc (Some p)
           (replicate (Z.to_nat (nm_num_pages nm)) (mk_vpage PROT_NONE zero_page))
           (mprotect_ok st) (net st))
      else (None, mk_proc None (vmem st) (mprotect_ok st) (net st))
  end.

(** The loop of [disagg_flush] over pages [i], [i+1], ... *)
Fixpoint flush_loop (n : nat) (i : Z) (st : proc) (p : disagg_pager) : Z * proc * disagg_pager :=
  match n with
  | O => (0, st, p)
  | S n =>
      match zget (p_meta p) i, zget (vmem st) i with
      | Some m, Some pg =>
          if resident m && dirty m then
            let '(r, w) := netmem_write_page (p_nm p) i (v_data pg) (net st) in
            let st := set_net st w in
            if negb (r =? 0) then (-1, st, p)
            else
              match zput (p_meta p) i (mk_meta (resident m) false (writable m)) with
              | Some ms => flush_loop n (i + 1) st (set_meta p ms)
              | None => (-1, st, p)
              end
          else flush_loop n (i + 1) st p
      | _, _ => (-1, st, p)
      end
  end.

Definition disagg_flush (st : proc) : Z * proc :=
  match g_pager st with
  | None => (-1, st)
  | Some p =>
      let '(r, st, p) := flush_loop (Z.to_nat (p_num_pages p)) 0 st p in
      (r, set_pager st p)
  end.

(** The pager is the global one; its handler is removed, the mapping and the
    connection go away. *)
Definition disagg_close (st : proc) : Z * proc * option old_segv :=
  match g_pager st with
  | None => (-1, st, None)
  | Some p =>
      let '(_, st) := disagg_flush st in
      (0, mk_proc None [] (mprotect_ok st) (net st), Some (p_old p))
  end.

(** ** Accesses of the program *)

(** One access to the byte at [addr]; [store] is the byte stored, if any.
    [inl] is the byte loaded (or stored) and the new process. *)
Definition byte_of (pg : vpage) (off : Z) : option Z := zget (v_data pg) off.

Fixpoint access (fuel : nat) (st : proc) (p : disagg_pager) (addr : Z) (store : option Z)
  : (Z * proc) + outcome :=
  match fuel with
  | O => inr NoFuel
  | S fuel =>
      let off := addr - p_base p in
      match zget (vmem st) (off / PAGE_SZ) with
      | None => inr Killed
      | Some pg =>
          let allowed := match v_prot pg, store with
                         | PROT_RW, _ => true
                         | PROT_READ, None => true
                         | _, _ => false
                         end in
          if allowed then
            match byte_of pg (off mod PAGE_SZ), store with
            | Some b, None => inl (b, st)
            | Some _, Some b =>
                match zput (v_data pg) (off mod PAGE_SZ) b with
                | Some d =>
                    match zput (vmem st) (off / PAGE_SZ) (mk_vpage (v_prot pg) d) with
                    | Some m => inl (b, set_vmem st m)
                    | None => inr Killed
                    end
                | None => inr Killed
                end
            | None, _ => inr Killed
            end
          else
            match segv_handler fuel st addr with
            | Resume st => access fuel st p addr store
            | o => inr o
            end
      end
  end.

(** ** Well-formed processes *)

Definition pager_ok (st : proc) (p : disagg_pager) : Prop :=
  quiet (net st) /\ nm_open (p_nm p) (net st) /\
  nm_num_pages (p_nm p) = p_num_pages p /\
  length (p_meta p) = Z.to_nat (p_num_pages p) /\ length (vmem st) = Z.to_nat (p_num_pages p) /\
  Forall (fun pg => length (v_data pg) = Z.to_nat PAGE_SZ) (vmem st) /\
  0 < p_base p /\ 0 < p_bytes p <= p_num_pages p * PAGE_SZ /\
  mprotect_ok st = [].

Definition pager_wf (st : proc) (p : disagg_pager) : Prop :=
  g_pager st = Some p /\ pager_ok st p.

Definition in_region (p : disagg_pager) (addr : Z) : Prop :=
  p_base p <= addr < p_base p + p_bytes p.

Lemma align_down_page x : align_down x PAGE_SZ = x - x mod PAGE_SZ.
Proof. exact (land_lnot_ones x 12 ltac:(lia)). Qed.

Lemma page_of_addr_eq st p addr :
  pager_ok st p -> in_region p addr ->
  page_of_addr p addr = (addr - p_base p) / PAGE_SZ /\
  0 <= (addr - p_base p) / PAGE_SZ < p_num_pages p.
Proof.
  intros (_ & (_ & _ & Hnp & _) & Hn & _ & _ & _ & _ & Hb & _) Ha; unfold in_region in Ha.
  unfold page_of_addr; rewrite align_down_page, Hn in *.
  assert (0 <= (addr - p_base p) / PAGE_SZ < p_num_pages p) as Hr
    by (unfold PAGE_SZ in *; Z.div_mod_to_equations; lia).
  split; [|done].
  replace ((addr - p_base p - (addr - p_base p) mod PAGE_SZ) / PAGE_SZ)
    with ((addr - p_base p) / PAGE_SZ) by (unfold PAGE_SZ; Z.div_mod_to_equations; lia).
  apply wrap_small; unfold in_range; lia.
Qed.

(** The address the handler copies to lies in the same page. *)
Lemma page_addr_same st p addr :
  pager_ok st p -> in_region p addr ->
  let a := p_base p + align_down (addr - p_base p) PAGE_SZ in
  in_region p a /\ page_of_addr p a = page_of_addr p addr.
Proof.
  intros Hwf Ha a; assert (in_region p a) as Hin.
  { unfold a, in_region in *; rewrite align_down_page; unfold PAGE_SZ in *.
    Z.div_mod_to_equations; lia. }
  split; [done|].
  destruct (page_of_addr_eq st p addr Hwf Ha) as [-> _].
  destruct (page_of_addr_eq st p a Hwf Hin) as [-> _].
  unfold a; rewrite align_down_page; unfold PAGE_SZ; Z.div_mod_to_equations; lia.
Qed.

Lemma pager_ok_meta st p i :
  pager_ok st p -> 0 <= i < p_num_pages p ->
  (exists m, zget (p_meta p) i = Some m) /\ (exists pg, zget (vmem st) i = Some pg).
Proof.
  intros (_ & _ & _ & Hm & Hv & _) Hi; split; apply zget_is_Some; lia.
Qed.

Lemma mprotect_spec st p i pr pg :
  pager_wf st p -> zget (vmem st) i = Some pg ->
  exists st', mprotect st i pr = Some st' /\ pager_wf st' p /\ net st' = net st /\
    zput (vmem st) i (mk_vpage pr (v_data pg)) = Some (vmem st').
Proof.
  intros (Hg & Hq & Ho & Hn & Hm & Hv & HF & Hb & Hby & Hok) Hpg; unfold mprotect.
  rewrite Hok, Hpg; cbn.
  pose proof (zget_Some_range _ _ _ Hpg) as Hr.
  rewrite (zput_is_Some _ _ _ Hr); cbn; eexists; split_and!; [done| |done|done].
  unfold pager_wf, pager_ok; cbn [g_pager net vmem mprotect_ok]; rewrite length_insert; split_and!; try done; try lia.
  apply Forall_insert; [done|cbn].
  unfold zget in Hpg; destruct_if; [|done]; rewrite Forall_lookup in HF; by eapply HF.
Qed.

Lemma pager_ok_net st p w :
  pager_ok st p -> quiet w ->
  (forall i, is_Some (ps_page (w_peer (net st)) (nm_region_id (p_nm p)) i) ->
             is_Some (ps_page (w_peer w) (nm_region_id (p_nm p)) i)) ->
  pager_ok (set_net st w) p.
Proof.
  intros (Hq & (H1 & H2 & H3 & H4) & Hn & Hm & Hv & HF & Hb & Hby & Hok) Hq' Hs.
  unfold pager_ok, nm_open; cbn; split_and!; try done; try lia; auto.
Qed.

Lemma pager_ok_set_meta st p i m ms :
  pager_ok st p -> zput (p_meta p) i m = Some ms -> pager_ok st (set_meta p ms).
Proof.
  intros (? & ? & ? & ? & ? & ? & ? & ? & ?) Hp.
  unfold pager_ok; cbn; rewrite (zput_length _ _ _ _ Hp); split_and!; try done; lia.
Qed.

(** The fetch path: the page is made read-only before it is filled, the copy
    faults, and the nested handler finds the page still not resident. *)
Lemma first_touch_nofuel fuel st p addr m :
  pager_wf st p -> in_region p addr -> addr <> 0 ->
  zget (p_meta p) (page_of_addr p addr) = Some m -> resident m = false ->
  segv_handler fuel st addr = NoFuel.
Proof.
  revert st addr; induction fuel as [fuel IH] using lt_wf_ind; intros st addr Hwf Ha H0 Hm Hres.
  destruct fuel as [|[|fuel]]; [done| |]; cbn [segv_handler];
    pose proof Hwf as (Hg & Hok); pose proof Hok as (Hq & Ho & Hn & _); rewrite Hg;
    destruct (Z.eqb_spec addr 0); try lia; unfold in_region in Ha;
    rewrite (proj2 (Z.leb_le (p_base p) addr)), (proj2 (Z.ltb_lt addr _)) by lia;
    cbn [andb negb]; rewrite Hm, Hres; cbn [negb];
    destruct (page_of_addr_eq st p addr Hok Ha) as [Hidx Hidxr]; rewrite <- Hidx in Hidxr;
    pose proof Ho as (_ & _ & _ & Hpages);
    destruct (Hpages (page_of_addr p addr)) as [data Hdata]; try (rewrite Hn; lia);
    destruct (read_page_ok (p_nm p) (page_of_addr p addr) data (net st)) as (w' & -> & Hq' & Hsame);
    try done; try (rewrite Hn; lia); cbn [Z.eqb negb];
    assert (pager_wf (set_net st w') p) as Hwf1
      by (split; [done|]; apply pager_ok_net; [done|done|]; intros i; by rewrite Hsame);
    destruct (pager_ok_meta _ _ _ (proj2 Hwf1) Hidxr) as [_ [pg Hpg]];
    destruct (mprotect_spec _ _ _ PROT_READ _ Hwf1 Hpg) as (st2 & -> & Hwf2 & _ & Hv2);
    cbn [memcpy_page]; [done|].
  rewrite (zget_zput_eq _ _ _ _ Hv2); cbn [v_prot].
  destruct (page_addr_same st p addr Hok Ha) as [Hina Hpa].
  rewrite IH; [done|lia|done|done| |by rewrite Hpa|done].
  destruct Hok as (_ & _ & _ & _ & _ & _ & Hb & _); unfold in_region in Hina; lia.
Qed.

(** The write path of a resident page. *)
Lemma write_fault_resume fuel st p addr m pg :
  pager_wf st p -> in_region p addr -> addr <> 0 ->
  zget (p_meta p) (page_of_addr p addr) = Some m -> resident m = true -> writable m = false ->
  zget (vmem st) (page_of_addr p addr) = Some pg ->
  exists st' ms, segv_handler (S fuel) st addr = Resume st' /\
    zput (p_meta p) (page_of_addr p addr) (mk_meta true true true) = Some ms /\
    pager_wf st' (set_meta p ms) /\ net st' = net st /\
    zput (vmem st) (page_of_addr p addr) (mk_vpage PROT_RW (v_data pg)) = Some (vmem st').
Proof.
  intros Hwf Ha H0 Hm Hres Hwr Hpg; cbn [segv_handler].
  pose proof Hwf as (Hg & _); rewrite Hg; destruct (Z.eqb_spec addr 0); [lia|].
  unfold in_region in Ha.
  rewrite (proj2 (Z.leb_le (p_base p) addr)), (proj2 (Z.ltb_lt addr _)) by lia.
  cbn [andb negb]; rewrite Hm, Hres, Hwr; cbn [negb].
  destruct (mprotect_spec _ _ _ PROT_RW _ Hwf Hpg) as (st2 & -> & Hwf2 & Hn2 & Hv2).
  pose proof (zget_Some_range _ _ _ Hm) as Hr.
  pose proof (zput_is_Some _ _ (mk_meta true true true) Hr) as Hms; rewrite Hms.
  do 2 eexists; split_and!; try done.
  split; [done|]; apply (pager_ok_set_meta _ _ _ _ _ (proj2 Hwf2) Hms).
Qed.

(** ** Flushing *)

(** What a completed flush of the pages from [i] on leaves behind. *)
Definition flushed (i : Z) (st st' : proc) (p p' : disagg_pager) : Prop :=
  vmem st' = vmem st /\ p' = set_meta p (p_meta p') /\
  (forall r j, ps_page (w_peer (net st')) r j =
     match zget (p_meta p) j, zget (vmem st) j with
     | Some m, Some pg =>
         if (r =? nm_region_id (p_nm p)) && (i <=? j) && resident m && dirty m
         then Some (v_data pg) else ps_page (w_peer (net st)) r j
     | _, _ => ps_page (w_peer (net st)) r j
     end) /\
  (forall j, zget (p_meta p') j =
     (fun m => if i <=? j then mk_meta (resident m) (dirty m && negb (resident m)) (writable m) else m)
       <$> zget (p_meta p) j).

Lemma leb_succ_ne i j : i <> j -> (i + 1 <=? j) = (i <=? j).
Proof. intros; destruct (Z.leb_spec (i + 1) j), (Z.leb_spec i j); lia || done. Qed.

Lemma flush_loop_ok n i st p :
  pager_ok st p -> 0 <= i -> i + Z.of_nat n = p_num_pages p ->
  exists st' p', flush_loop n i st p = (0, st', p') /\ pager_ok st' p' /\ flushed i st st' p p'.
Proof.
  revert i st p; induction n as [|n IH]; intros i st p Hok Hi Hn; cbn [flush_loop].
  { exists st, p; split_and!; [done|done|]; unfold flushed; split_and!; [done|by destruct p| |].
    - intros r j; destruct (zget (p_meta p) j) eqn:Ej, (zget (vmem st) j); try done.
      apply zget_Some_range in Ej; destruct Hok as (_ & _ & _ & Hl & _).
      destruct (Z.leb_spec i j); [lia|]; by rewrite andb_false_r.
    - intros j; destruct (zget (p_meta p) j) eqn:Ej; [|done]; cbn.
      apply zget_Some_range in Ej; destruct Hok as (_ & _ & _ & Hl & _).
      by destruct (Z.leb_spec i j); [lia|]. }
  destruct (pager_ok_meta st p i Hok ltac:(lia)) as [[m Hm] [pg Hpg]].
  rewrite Hm, Hpg; destruct (resident m && dirty m) eqn:Erd.
  - assert (length (v_data pg) = Z.to_nat PAGE_SZ) as Hlen.
    { destruct Hok as (_ & _ & _ & _ & _ & HF & _); unfold zget in Hpg; destruct_if; [|done].
      rewrite Forall_lookup in HF; by eapply HF. }
    pose proof Hok as (Hq & Ho & Hnn & _).
    destruct (write_page_ok (p_nm p) i (v_data pg) (net st)) as (w' & -> & Hq' & Hpg');
      try done; [rewrite Hnn; lia|]; cbn [Z.eqb negb].
    pose proof (zput_is_Some _ _ (mk_meta (resident m) false (writable m))
      (zget_Some_range _ _ _ Hm)) as Ems; rewrite Ems.
    set (ms := <[Z.to_nat i:=_]> (p_meta p)) in *.
    assert (pager_ok (set_net st w') (set_meta p ms)) as Hok1.
    { eapply pager_ok_set_meta; [|exact Ems]; apply pager_ok_net; [done|done|].
      intros j [x Hx]; rewrite Hpg'; destruct_if; eauto. }
    destruct (IH (i + 1) (set_net st w') (set_meta p ms)) as (st' & p' & E & Hok' & Hf1 & Hf2 & Hf3 & Hf4);
      [done|lia|cbn; lia|]; exists st', p'; split_and!; [done|done|].
    unfold flushed; split_and!; [done|done| |].
    + intros r j; rewrite Hf3; cbn [p_meta set_meta vmem set_net net p_nm].
      destruct (decide (i = j)) as [<-|Hne].
      * rewrite (zget_zput_eq _ _ _ _ Ems), Hm, Hpg, Hpg', Z.leb_refl, Z.eqb_refl, !andb_true_r.
        apply andb_true_iff in Erd as [-> ->]; cbn [resident dirty]; by rewrite !andb_false_r, !andb_true_r.
      * rewrite (zget_zput_ne _ _ _ _ _ Ems Hne), Hpg'.
        destruct (Z.eqb_spec j i); [lia|]; rewrite andb_false_r.
        destruct (zget (p_meta p) j), (zget (vmem st) j); try done.
        by rewrite (leb_succ_ne i j Hne).
    + intros j; rewrite Hf4; cbn [p_meta set_meta].
      destruct (decide (i = j)) as [<-|Hne].
      * rewrite (zget_zput_eq _ _ _ _ Ems), Hm; cbn.
        apply andb_true_iff in Erd as [Er Ed].
        rewrite (proj2 (Z.leb_gt _ _)), Z.leb_refl by lia; by rewrite Er, Ed.
      * rewrite (zget_zput_ne _ _ _ _ _ Ems Hne).
        by rewrite (leb_succ_ne i j Hne).
  - destruct (IH (i + 1) st p) as (st' & p' & E & Hok' & Hf1 & Hf2 & Hf3 & Hf4);
      [done|lia|cbn; lia|]; exists st', p'; split_and!; [done|done|].
    unfold flushed; split_and!; [done|done| |].
    + intros r j; rewrite Hf3; destruct (decide (i = j)) as [<-|Hne].
      * rewrite Hm, Hpg, <- !andb_assoc, Erd; by rewrite !andb_false_r.
      * destruct (zget (p_meta p) j), (zget (vmem st) j); try done.
        by rewrite (leb_succ_ne i j Hne).
    + intros j; rewrite Hf4; destruct (decide (i = j)) as [<-|Hne].
      * rewrite Hm; cbn; rewrite (proj2 (Z.leb_gt _ _)), Z.leb_refl by lia.
        by destruct m as [[] [] ?].
      * by rewrite (leb_succ_ne i j Hne).
Qed.

Lemma flush_ok st p :
  pager_wf st p ->
  exists st' p', disagg_flush st = (0, st') /\ pager_wf st' p' /\ flushed 0 st st' p p'.
Proof.
  intros [Hg Hok]; unfold disagg_flush; rewrite Hg.
  pose proof Hok as (_ & (_ & _ & Hnp & _) & Hn & _).
  destruct (flush_loop_ok (Z.to_nat (p_num_pages p)) 0 st p Hok) as (st' & p' & -> & Hok' & Hf); [lia..|].
  exists (set_pager st' p'), p'; done.
Qed.

(** A store to a page mapped read-write goes through without a fault. *)
Lemma store_rw fuel st p addr b pg :
  pager_wf st p -> in_region p addr ->
  zget (vmem st) (page_of_addr p addr) = Some pg -> v_prot pg = PROT_RW ->
  exists st' d, access (S fuel) st p addr (Some b) = inl (b, st') /\ pager_wf st' p /\
    net st' = net st /\ zput (v_data pg) ((addr - p_base p) mod PAGE_SZ) b = Some d /\
    zput (vmem st) (page_of_addr p addr) (mk_vpage PROT_RW d) = Some (vmem st').
Proof.
  intros [Hg Hok] Ha Hpg Hrw; cbn [access].
  destruct (page_of_addr_eq st p addr Hok Ha) as [Hidx Hr]; rewrite Hidx in *.
  rewrite Hpg, Hrw; pose proof Hok as (Hq & Ho & Hn & Hm & Hv & HF & Hb & Hby & Hmp).
  assert (length (v_data pg) = Z.to_nat PAGE_SZ) as Hlen.
  { unfold zget in Hpg; destruct_if; [|done]; rewrite Forall_lookup in HF; by eapply HF. }
  assert (0 <= (addr - p_base p) mod PAGE_SZ < Z.of_nat (length (v_data pg))) as Hoff.
  { rewrite Hlen; unfold PAGE_SZ; pose proof (Z.mod_pos_bound (addr - p_base p) 4096); lia. }
  unfold byte_of; destruct (zget_is_Some _ _ Hoff) as [x ->].
  rewrite (zput_is_Some _ _ b Hoff), (zput_is_Some _ _ _ (zget_Some_range _ _ _ Hpg)).
  do 2 eexists; split_and!; try done.
  - split; [done|]; unfold pager_ok; cbn; rewrite length_insert; split_and!; try done; try lia.
    apply Forall_insert; [done|cbn]; by rewrite length_insert.
  - apply zput_is_Some, (zget_Some_range _ _ _ Hpg).
Qed.

(** ** Properties *)

(** C13: a flush writes every resident dirty page back.  With the connection
    quiet it returns 0; afterwards the server holds the mapped contents of
    exactly those pages and is unchanged elsewhere, the mapping is unchanged,
    and no resident page is dirty. *)
Theorem flush_writes_back st p :
  pager_wf st p ->
  exists st' p', disagg_flush st = (0, st') /\ g_pager st' = Some p' /\ vmem st' = vmem st /\
    (forall j m pg, zget (p_meta p) j = Some m -> zget (vmem st) j = Some pg ->
       ps_page (w_peer (net st')) (nm_region_id (p_nm p)) j =
         (if resident m && dirty m then Some (v_data pg)
          else ps_page (w_peer (net st)) (nm_region_id (p_nm p)) j) /\
       exists m', zget (p_meta p') j = Some m' /\ resident m' = resident m /\
         writable m' = writable m /\ resident m' && dirty m' = false) /\
    (forall r j, r <> nm_region_id (p_nm p) ->
       ps_page (w_peer (net st')) r j = ps_page (w_peer (net st)) r j).
Proof.
  intros Hwf; destruct (flush_ok st p Hwf) as (st' & p' & E & [Hg _] & Hv & _ & Hpg & Hm).
  exists st', p'; split_and!; try done.
  - intros j m pg Hj Hpgj; rewrite Hpg, Hm, Hj, Hpgj, Z.eqb_refl.
    destruct (zget_Some_range _ _ _ Hj) as [Hj0 _]; rewrite (proj2 (Z.leb_le 0 j) Hj0); cbn.
    split; [done|]; eexists; split_and!; [done..|]; by destruct m as [[] [] ?].
  - intros r j Hne; rewrite Hpg; destruct (zget (p_meta p) j), (zget (vmem st) j); try done.
    by rewrite (proj2 (Z.eqb_neq _ _) Hne).
Qed.

(** C35: the first touch of a page never completes.  The handler makes the
    page read-only before copying into it, the copy faults, and the nested
    handler, finding the page still not resident, does the same again: no
    amount of fuel lets it return, for any access to any page not resident. *)
Theorem first_touch_never_returns st p addr m fuel :
  pager_wf st p -> in_region p addr -> addr <> 0 ->
  zget (p_meta p) (page_of_addr p addr) = Some m -> resident m = false ->
  segv_handler fuel st addr = NoFuel.
Proof. apply first_touch_nofuel. Qed.

(** The handler's other two paths.  A write fault on a resident page
    makes that page writable and dirty and changes nothing else; an address
    outside the region is passed to the saved disposition. *)
Theorem handler_write_fault_and_chain st p addr fuel :
  pager_wf st p -> addr <> 0 ->
  (in_region p addr -> forall m pg,
     zget (p_meta p) (page_of_addr p addr) = Some m -> resident m = true -> writable m = false ->
     zget (vmem st) (page_of_addr p addr) = Some pg ->
     exists st' p', segv_handler (S fuel) st addr = Resume st' /\ g_pager st' = Some p' /\
       net st' = net st /\
       zget (vmem st') (page_of_addr p addr) = Some (mk_vpage PROT_RW (v_data pg)) /\
       zget (p_meta p') (page_of_addr p addr) = Some (mk_meta true true true) /\
       (forall j, j <> page_of_addr p addr ->
          zget (vmem st') j = zget (vmem st) j /\ zget (p_meta p') j = zget (p_meta p) j)) /\
  (~ in_region p addr -> segv_handler (S fuel) st addr = chain st).
Proof.
  intros Hwf H0; split.
  - intros Ha m pg Hm Hr Hw Hpg.
    destruct (write_fault_resume fuel st p addr m pg Hwf Ha H0 Hm Hr Hw Hpg)
      as (st' & ms & E & Hms & [Hg _] & Hn & Hv).
    exists st', (set_meta p ms); split_and!; try done; [by eapply zget_zput_eq..|].
    intros j Hj; split; [by eapply zget_zput_ne|]; by apply (zget_zput_ne _ _ _ _ _ Hms).
  - intros Hout; destruct Hwf as [Hg _]; cbn [segv_handler]; rewrite Hg.
    destruct (Z.eqb_spec addr 0); [done|]; unfold in_region in Hout.
    destruct (Z.leb_spec (p_base p) addr), (Z.ltb_spec addr (p_base p + p_bytes p)); cbn; done || lia.
Qed.

(** A store after a flush is lost.  A flush clears the dirty bit of a
    page but leaves it writable, so a later store raises no fault, and the
    next flush does not send the page: the server keeps the bytes of the
    first flush. *)
Theorem store_after_flush_lost st p addr b m pg fuel :
  pager_wf st p -> in_region p addr ->
  zget (p_meta p) (page_of_addr p addr) = Some m ->
  resident m = true -> dirty m = true -> writable m = true ->
  zget (vmem st) (page_of_addr p addr) = Some pg -> v_prot pg = PROT_RW ->
  exists st1 p1 st2 st3,
    disagg_flush st = (0, st1) /\ g_pager st1 = Some p1 /\
    access (S fuel) st1 p1 addr (Some b) = inl (b, st2) /\
    disagg_flush st2 = (0, st3) /\
    ps_page (w_peer (net st3)) (nm_region_id (p_nm p)) (page_of_addr p addr) = Some (v_data pg) /\
    (exists d, zput (v_data pg) ((addr - p_base p) mod PAGE_SZ) b = Some d /\
       zget (vmem st3) (page_of_addr p addr) = Some (mk_vpage PROT_RW d)).
Proof.
  intros Hwf Ha Hm Hr Hd Hw Hpg Hrw.
  destruct (flush_ok st p Hwf) as (st1 & p1 & E1 & Hwf1 & Hv1 & Hp1 & Hpg1 & Hm1).
  assert (page_of_addr p1 addr = page_of_addr p addr /\ in_region p1 addr /\ p_nm p1 = p_nm p /\
          p_base p1 = p_base p) as (Hpa & Ha1 & Hnm & Hbase) by (by rewrite Hp1).
  destruct (store_rw fuel st1 p1 addr b pg Hwf1 Ha1) as (st2 & d & E2 & Hwf2 & Hn2 & Hd2 & Hv2);
    [by rewrite Hpa, Hv1|done|].
  destruct (flush_ok st2 p1 Hwf2) as (st3 & p3 & E3 & _ & Hv3 & _ & Hpg3 & _).
  exists st1, p1, st2, st3; rewrite Hpa, Hbase in *; split_and!; try done; [by destruct Hwf1| |].
  - rewrite Hpg3, Hm1, Hm, (zget_zput_eq _ _ _ _ Hv2); cbn.
    destruct (page_of_addr_eq st p addr (proj2 Hwf) Ha) as [Hidx [Hidx0 _]]; rewrite <- Hidx in Hidx0.
    rewrite (proj2 (Z.leb_le _ _) Hidx0), Hr; cbn; rewrite !andb_false_r.
    rewrite Hn2, Hpg1, Hm, Hpg, Z.eqb_refl, (proj2 (Z.leb_le _ _) Hidx0), Hr, Hd; done.
  - exists d; split; [done|]; rewrite Hv3; by eapply zget_zput_eq.
Qed.

End pager.

Arguments proc SV : clear implicits.
Arguments outcome SV : clear implicits.

(** ** A concrete process

    One region of two pages on a server that fragments its traffic, mapped at
    0x10000. *)

Section demo.

Definition demo_traffic (k : nat) : list recv_ev * list send_ev := ([RecvUpTo (4 + k); RecvEintr; RecvUpTo 100], [SendUpTo 3; SendEintr]).

Lemma demo_revs k : RecvErr ∉ (demo_traffic k).1.
Proof. set_solver. Qed.

Lemma demo_sevs k : SendErr ∉ (demo_traffic k).2.
Proof. set_solver. Qed.

#[local] Instance demo_ps : PageServer peer := page_server _ demo_revs demo_sevs.

Definition demo_srv : server := mk_server [mk_region 1 8192 2 []] 2 [].

Definition demo_pager (m0 : page_meta) : disagg_pager :=
  mk_pager (mk_netmem 3 1 8192 2) 65536 8192 2 [m0; meta0] OldDfl.

Definition demo_proc (m0 : page_meta) (pr : prot) : proc peer :=
  mk_proc (Some (demo_pager m0)) [mk_vpage pr zero_page; mk_vpage PROT_NONE zero_page] []
    (mk_world (mk_peer demo_srv 0) (mk_sock [] [RecvUpTo 7; RecvEintr] [] [SendUpTo 1])).

Lemma demo_pager_wf m0 pr : pager_wf (demo_proc m0 pr) (demo_pager m0).
Proof.
  split; [done|]; unfold pager_ok, demo_proc, demo_pager, PAGE_SZ; cbn [net vmem mprotect_ok p_nm
    p_base p_bytes p_num_pages p_meta nm_num_pages length].
  split_and!; try done; try lia.
  - unfold quiet, rx_ok, tx_ok; cbn; split_and!; try done; [set_solver..|].
    unfold peer_inv, srv_inv; split_and!; try done.
    + repeat constructor; cbn; lia.
    + intros id r Hf; change (find_region [mk_region 1 8192 2 []] id = Some r) in Hf; cbn [find_region rid] in Hf.
      destruct (Z.eqb_spec 1 id); [lia|done].
  - unfold nm_open; cbn [nm_fd nm_region_id nm_num_pages]; split_and!; try lia.
    intros i Hi; cbn; unfold peer_page, srv_page; cbn.
    rewrite (proj2 (Z.leb_le 0 i)), (proj2 (Z.ltb_lt i 2)) by lia; eauto.
  - repeat constructor; apply zero_page_length.
Qed.

Lemma flush_writes_back_witness :
  exists st', disagg_flush (demo_proc (mk_meta true true true) PROT_RW) = (0, st').
Proof.
  destruct (flush_writes_back _ _ (demo_pager_wf (mk_meta true true true) PROT_RW)) as (st' & p' & E & _).
  exact (ex_intro _ st' E).
Defined.

Lemma first_touch_never_returns_witness :
  segv_handler 100 (demo_proc meta0 PROT_NONE) 65540 = NoFuel.
Proof.
  apply (first_touch_never_returns _ (demo_pager meta0) 65540 meta0 100 (demo_pager_wf _ _));
    [unfold in_region; cbn; lia|lia|done|done].
Defined.

Lemma handler_write_fault_and_chain_witness :
  segv_handler 1 (demo_proc (mk_meta true false false) PROT_READ) 12 =
    chain (demo_proc (mk_meta true false false) PROT_READ) /\
  exists st', segv_handler 1 (demo_proc (mk_meta true false false) PROT_READ) 65541 = Resume st'.
Proof.
  pose proof (handler_write_fault_and_chain _ (demo_pager (mk_meta true false false)) 12 0
    (demo_pager_wf _ PROT_READ) ltac:(lia)) as [_ H1].
  pose proof (handler_write_fault_and_chain _ (demo_pager (mk_meta true false false)) 65541 0
    (demo_pager_wf _ PROT_READ) ltac:(lia)) as [H2 _].
  split; [apply H1; unfold in_region; cbn; lia|].
  destruct (H2 ltac:(unfold in_region; cbn; lia) _ _ eq_refl eq_refl eq_refl eq_refl)
    as (st' & p' & E & _); exact (ex_intro _ st' E).
Defined.

Lemma store_after_flush_lost_witness :
  exists st1 p1 st2 st3,
    disagg_flush (demo_proc (mk_meta true true true) PROT_RW) = (0, st1) /\
    access 1 st1 p1 65541 (Some 255) = inl (255, st2) /\
    disagg_flush st2 = (0, st3) /\
    ps_page (w_peer (net st3)) 1 0 = Some zero_page.
Proof.
  destruct (store_after_flush_lost _ (demo_pager (mk_meta true true true)) 65541 255
    (mk_meta true true true) (mk_vpage PROT_RW zero_page) 0 (demo_pager_wf _ PROT_RW)
    ltac:(unfold in_region; cbn; lia) eq_refl eq_refl eq_refl eq_refl eq_refl eq_refl)
    as (st1 & p1 & st2 & st3 & H1 & _ & H2 & H3 & H4 & _).
  exists st1, p1, st2, st3; exact (conj H1 (conj H2 (conj H3 H4))).
Defined.
End demo.
