(* ===== verification/Book.v ===== *)
(** * The physical page book of the nanokernel
      (boot/nanokernel/src/platform/riscv/nano_kernel.S, include/nano/nanotypes.h)

    The book has one entry per physical page and a sentinel.  The entry of the
    first page of a chunk holds the status and the length of the chunk and the
    start of the chunk before it; the other entries of a chunk are empty.  The
    nanokernel calls that split, merge, zero and hand out chunks are translated
    from the RISC-V assembly, one definition per call, with the signed and
    unsigned comparisons of its branches.  A store outside of the book is the
    result [None].  A call runs alone: its lock, the status [page_transaction],
    is taken and released inside of it.

    The abstract state of the book is the list of the statuses of the pages. *)

From S2P Require Import Prelude.

(** ** Constants *)

Definition PHY_PAGE_SIZE_BITS : Z := 12.
Definition PHY_RAM_SIZE : Z := 2 ^ 30.
Definition IO_SIZE : Z := 0x80000000.
Definition NANO_SIZE : Z := 0x04000000.
Definition TOTAL_PHY_PAGES : Z := Z.shiftr (PHY_RAM_SIZE + IO_SIZE) PHY_PAGE_SIZE_BITS.
Definition BOOK_END : Z := TOTAL_PHY_PAGES.
Definition PHY_MEM_START_CACHED : Z := 0xfffffff000000000.
Definition PHY_MEM_START_UNCACHED : Z := 0xffffffe000000000.
Definition CAP_SIZE : Z := 16.
Definition UNROLL_FACTOR : Z := 16.

Definition page_unused : Z := 0.
Definition page_nano_owned : Z := 1.
Definition page_system_owned : Z := 2.
Definition page_mapped : Z := 3.
Definition page_ptable : Z := 4.
Definition page_ptable_free : Z := 5.
Definition page_io_unused : Z := 6.
Definition page_io_system : Z := 7.
Definition page_io_mapped : Z := 8.
Definition page_dirty : Z := 9.
Definition page_transaction : Z := 10.
Definition page_screwed_the_pooch : Z := 12.

(** ** The book *)

Record page_t := mk_page_t { status : Z; len : Z; prev : Z; spare : Z }.

Definition set_status (x : Z) (e : page_t) : page_t := mk_page_t x (len e) (prev e) (spare e).
Definition set_len (x : Z) (e : page_t) : page_t := mk_page_t (status e) x (prev e) (spare e).
Definition set_prev (x : Z) (e : page_t) : page_t := mk_page_t (status e) (len e) x (spare e).

(** Entries never written are zero. *)
Abbreviation book_t := (gmap Z page_t).

Definition ent (b : book_t) (i : Z) : page_t := default (mk_page_t 0 0 0 0) (b !! i).

Definition in_book (i : Z) : bool := (0 <=? i) && (i <=? TOTAL_PHY_PAGES).

Definition bget (b : book_t) (i : Z) : option page_t := if in_book i then Some (ent b i) else None.

Definition upd (b : book_t) (i : Z) (f : page_t -> page_t) : book_t := <[i := f (ent b i)]> b.

Definition bput (b : book_t) (i : Z) (f : page_t -> page_t) : option book_t :=
  if in_book i then Some (upd b i f) else None.

(** The entry an offset of [n] entries names: offsets are 64-bit numbers of
    bytes and an entry has 32 of them. *)
Definition slot (n : Z) : Z := n mod 2 ^ 59.

Definition sge (a b : Z) : bool := signed 64 b <=? signed 64 a.

(** [camomaxu.w] of [page_transaction]: the book and the old status. *)
Definition lock_entry (b : book_t) (i : Z) : option (book_t * Z) :=
  e ← bget b i;
  b ← bput b i (set_status (Z.max (status e) page_transaction));
  Some (b, status e).

(** ** Boot *)

(** The entries written by [nano_kernel_init]; [a0] is the number of bytes of
    the unmanaged space. *)
Definition init_book (a0 : Z) : book_t :=
  let io := Z.shiftr IO_SIZE PHY_PAGE_SIZE_BITS in
  let nano := Z.shiftr NANO_SIZE PHY_PAGE_SIZE_BITS in
  let sys := Z.shiftr a0 PHY_PAGE_SIZE_BITS in
  let free := u64 (Z.shiftr (PHY_RAM_SIZE - NANO_SIZE) PHY_PAGE_SIZE_BITS - sys) in
  let chunk i st l p b := upd b i (fun e => set_len l (set_status st (set_prev p e))) in
  let b := chunk 0 page_io_unused io 0 ∅ in
  let b := chunk io page_nano_owned nano 0 b in
  let b := chunk (io + nano) page_system_owned sys io b in
  let b := chunk (io + nano + sys) page_dirty free (io + nano) b in
  chunk (io + nano + sys + free) page_nano_owned 1 (io + nano + sys) b.

(** ** Splitting and merging *)

Definition split_phy_page_range (b : book_t) (pagen new_len : Z) : option book_t :=
  if sge pagen TOTAL_PHY_PAGES then Some b
  else
    '(b, st) ← lock_entry b (slot pagen);
    if page_transaction <=? signed 32 st then Some b
    else
      e ← bget b (slot pagen);
      b ← (if sge new_len (len e) then Some b
           else
             let new := slot (pagen + new_len) in
             let next := slot (pagen + len e) in
             b ← bput b new (set_status st);
             b ← bput b new (set_len (u64 (len e - new_len)));
             b ← bput b new (set_prev pagen);
             b ← bput b (slot pagen) (set_len new_len);
             bput b next (set_prev (u64 (pagen + new_len))));
      bput b (slot pagen) (set_status st).

Definition merge_phy_page_range (b : book_t) (pagen : Z) : option book_t :=
  if sge pagen TOTAL_PHY_PAGES then Some b
  else
    '(b, st) ← lock_entry b (slot pagen);
    if page_transaction <=? signed 32 st then Some b
    else
      e ← bget b (slot pagen);
      b ← (if len e =? 0 then Some b
           else
             let next := slot (pagen + len e) in
             '(b, st2) ← lock_entry b next;
             if page_transaction <=? signed 32 st then Some b
             else if negb (st2 =? st) then bput b next (set_status st2)
             else
               e2 ← bget b next;
               let after := slot (pagen + len e + len e2) in
               b ← bput b (slot pagen) (set_len (u64 (len e2 + len e)));
               b ← bput b after (set_prev pagen);
               b ← bput b next (set_len 0);
               b ← bput b next (set_prev 0);
               bput b next (set_status 0));
      bput b (slot pagen) (set_status st).

(** ** Handing out pages *)

Record phy_cap := mk_cap { cap_base : Z; cap_length : Z; cap_io : bool }.

(** What the call leaves in [out]: nothing, the pair of capabilities, or an
    exception of [csetboundsexact] when the bounds have no representation. *)
Inductive phy_result : Type := NoCap | Cap (c : phy_cap) | BoundsFault.

Definition status_mask (io : bool) : Z :=
  if io then Z.lor (Z.shiftl 1 page_io_unused) (Z.shiftl 1 page_io_system)
  else Z.lor (Z.shiftl 1 page_unused) (Z.shiftl 1 page_system_owned).

Definition get_phy_page (representable : Z -> Z -> bool) (b : book_t) (page_n : Z) (cached : bool)
    (npages : Z) (io : bool) : option (book_t * phy_result) :=
  if npages =? 0 then Some (b, NoCap)
  else if sge page_n TOTAL_PHY_PAGES then Some (b, NoCap)
  else
    e ← bget b (slot page_n);
    if Z.land (Z.shiftl 1 (Z.land (status e) 63)) (status_mask io) =? 0 then Some (b, NoCap)
    else if negb (len e =? npages) then Some (b, NoCap)
    else
      b ← bput b (slot page_n) (set_status (if io then page_io_system else page_system_owned));
      let start := if cached then PHY_MEM_START_UNCACHED + (PHY_MEM_START_CACHED - PHY_MEM_START_UNCACHED)
                   else PHY_MEM_START_UNCACHED in
      let base := u64 (u64 (Z.shiftl page_n PHY_PAGE_SIZE_BITS) + start) in
      let length := u64 (Z.shiftl npages PHY_PAGE_SIZE_BITS) in
      Some (b, if representable base length then Cap (mk_cap base length io) else BoundsFault).

(** ** Zeroing *)

(** Physical memory by capability-sized words; words that hold zero are
    absent. *)
Abbreviation mem_t := (gmap Z Z).

Definition store_zeros (m : mem_t) (a : Z) : mem_t :=
  fold_left (fun m i => delete (a / CAP_SIZE + i) m) (seqZ 0 UNROLL_FACTOR) m.

(** The addresses [a6] and [a7] are those of the cached window. *)
Fixpoint do_zero_page (n : nat) (m : mem_t) (a6 a7 : Z) : option mem_t :=
  match n with
  | O => None
  | S n =>
      let m := store_zeros m (u64 (a6 - PHY_MEM_START_CACHED)) in
      let a6 := u64 (a6 + CAP_SIZE * UNROLL_FACTOR) in
      if negb (a6 =? a7) then do_zero_page n m a6 a7 else Some m
  end.

Record phys := mk_phys { the_book : book_t; memory : mem_t }.

Definition zero_page_range (s : phys) (pagen : Z) : option phys :=
  if sge pagen TOTAL_PHY_PAGES then Some s
  else
    '(b, st) ← lock_entry (the_book s) (slot pagen);
    if page_transaction <=? signed 32 st then Some (mk_phys b (memory s))
    else if negb (st =? page_dirty) then
      b ← bput b (slot pagen) (set_status st);
      Some (mk_phys b (memory s))
    else
      e ← bget b (slot pagen);
      let a6 := u64 (PHY_MEM_START_CACHED + u64 (Z.shiftl pagen PHY_PAGE_SIZE_BITS)) in
      let a7 := u64 (a6 + u64 (Z.shiftl (len e) PHY_PAGE_SIZE_BITS)) in
      m ← do_zero_page (Z.to_nat (len e * 16)) (memory s) a6 a7;
      b ← bput b (slot pagen) (set_status page_unused);
      Some (mk_phys b m).

(** ** Entries *)

Lemma total_val : TOTAL_PHY_PAGES = 786432. Proof. reflexivity. Qed.

Lemma ent_upd b i j f : ent (upd b i f) j = if decide (i = j) then f (ent b i) else ent b j.
Proof.
  unfold ent, upd; case_decide as E; [subst; by rewrite lookup_insert_eq|by rewrite lookup_insert_ne].
Qed.

Lemma ent_upd_eq b i f : ent (upd b i f) i = f (ent b i).
Proof. by rewrite ent_upd, decide_True. Qed.

Lemma ent_upd_ne b i j f : i <> j -> ent (upd b i f) j = ent b j.
Proof. intros; by rewrite ent_upd, decide_False. Qed.

Lemma bget_in b i : 0 <= i <= TOTAL_PHY_PAGES -> bget b i = Some (ent b i).
Proof. intros; unfold bget, in_book; by rewrite !(proj2 (Z.leb_le _ _)) by lia. Qed.

Lemma bput_in b i f : 0 <= i <= TOTAL_PHY_PAGES -> bput b i f = Some (upd b i f).
Proof. intros; unfold bput, in_book; by rewrite !(proj2 (Z.leb_le _ _)) by lia. Qed.

Lemma slot_in n : 0 <= n <= TOTAL_PHY_PAGES -> slot n = n.
Proof. rewrite total_val; intros; unfold slot; rewrite Z.mod_small; lia. Qed.

Lemma signed_small w z : 0 < w -> 0 <= z < 2 ^ (w - 1) -> signed w z = z.
Proof.
  intros Hw Hz; unfold signed.
  assert (2 ^ w = 2 * 2 ^ (w - 1)) by (rewrite <- Z.pow_succ_r by lia; f_equal; lia).
  rewrite wrap_small by (unfold in_range; lia); by rewrite (proj2 (Z.ltb_lt _ _)) by lia.
Qed.

Lemma sge_small a b : 0 <= a < 2 ^ 63 -> 0 <= b < 2 ^ 63 -> sge a b = (b <=? a).
Proof. intros; unfold sge; by rewrite !signed_small by lia. Qed.

Ltac bk :=
  repeat (rewrite ?bget_in, ?bput_in by lia; rewrite ?slot_in by lia; cbn [mbind option_bind]).

Ltac ents := repeat (rewrite ent_upd; case_decide; try (exfalso; lia)); cbn [status len prev set_status set_len set_prev].

(** ** Layout: the book as a list of chunks *)

Abbreviation chunk := (Z * Z)%type.

(** A chunk may be live, with a status below [page_transaction], or one that a
    call left locked or given up.  How far the statuses of a layout go: only
    live chunks, or any status. *)
Class StatusBound := { top_status : Z; top_ok : page_transaction <= top_status <= page_screwed_the_pooch + 1 }.

Section Layout.

Context {SB : StatusBound}.

Lemma live_top st : 0 <= st < page_transaction -> 0 <= st < top_status.
Proof. pose proof top_ok; lia. Qed.

Definition chunk_at (b : book_t) (p s : Z) (c : chunk) : Prop :=
  0 < c.1 /\ 0 <= c.2 < top_status /\
  status (ent b s) = c.2 /\ len (ent b s) = c.1 /\ prev (ent b s) = p /\
  (forall i, s < i < s + c.1 -> len (ent b i) = 0 /\ status (ent b i) = page_unused).

(** The chunks [cs] are laid out from page [s] on; [p] is the chunk before. *)
Fixpoint seg (b : book_t) (p s : Z) (cs : list chunk) : Prop :=
  match cs with
  | [] => True
  | c :: cs => chunk_at b p s c /\ seg b s (s + c.1) cs
  end.

Fixpoint pos (s : Z) (cs : list chunk) : Z := match cs with [] => s | c :: cs => pos (s + c.1) cs end.

Fixpoint lastp (p s : Z) (cs : list chunk) : Z := match cs with [] => p | c :: cs => lastp s (s + c.1) cs end.

Definition sentinel (e : page_t) (p : Z) : Prop := status e = page_nano_owned /\ len e = 1 /\ prev e = p.

Definition tail (b : book_t) (p s : Z) (cs : list chunk) : Prop :=
  seg b p s cs /\ pos s cs = TOTAL_PHY_PAGES /\ sentinel (ent b TOTAL_PHY_PAGES) (lastp p s cs).

Definition laid (b : book_t) (cs : list chunk) : Prop := tail b 0 0 cs.

(** The statuses of the pages, one by one. *)
Definition flat (cs : list chunk) : list Z := mjoin ((fun c : chunk => replicate (Z.to_nat c.1) c.2) <$> cs).

(** ** Layout lemmas *)

Lemma seg_app b p s A C : seg b p s (A ++ C) <-> seg b p s A /\ seg b (lastp p s A) (pos s A) C.
Proof. revert p s; induction A as [|c A IH]; intros; cbn; [tauto|]; rewrite IH; tauto. Qed.

Lemma pos_app s A C : pos s (A ++ C) = pos (pos s A) C.
Proof. revert s; induction A; intros; cbn; auto. Qed.

Lemma lastp_app p s A C : lastp p s (A ++ C) = lastp (lastp p s A) (pos s A) C.
Proof. revert p s; induction A; intros; cbn; auto. Qed.

Lemma tail_app b p s A C : tail b p s (A ++ C) <-> seg b p s A /\ tail b (lastp p s A) (pos s A) C.
Proof. unfold tail; rewrite seg_app, pos_app, lastp_app; tauto. Qed.

Lemma seg_pos b p s A : seg b p s A -> s <= pos s A.
Proof.
  revert p s; induction A as [|c A IH]; cbn; intros p s H; [lia|].
  destruct H as [(Hl & _) H]; specialize (IH _ _ H); lia.
Qed.

Lemma tail_le b p s C : tail b p s C -> s <= TOTAL_PHY_PAGES.
Proof. intros (H & <- & _); by eapply seg_pos. Qed.

Lemma chunk_at_frame b b' p s c : (forall i, s <= i < s + c.1 -> ent b' i = ent b i) ->
  chunk_at b p s c -> chunk_at b' p s c.
Proof.
  intros Hf (Hl & Hs & H1 & H2 & H3 & H); unfold chunk_at; rewrite (Hf s) by lia; split_and!; try done; try lia.
  - intros i Hi; rewrite Hf by lia; auto.
Qed.

Lemma seg_frame b b' p s A : (forall i, s <= i < pos s A -> ent b' i = ent b i) -> seg b p s A -> seg b' p s A.
Proof.
  revert p s; induction A as [|c A IH]; cbn; intros p s Hf; [done|].
  intros [Hc H]; pose proof (seg_pos _ _ _ _ H); split.
  - eapply chunk_at_frame, Hc; intros; apply Hf; lia.
  - apply IH, H; intros; apply Hf; destruct Hc; lia.
Qed.

Lemma tail_frame b b' p s C : (forall i, s <= i <= TOTAL_PHY_PAGES -> ent b' i = ent b i) -> tail b p s C -> tail b' p s C.
Proof.
  intros Hf H; pose proof (tail_le _ _ _ _ H); destruct H as (H & Hp & Hs); split_and!; try done.
  - eapply seg_frame, H; intros; apply Hf; lia.
  - by rewrite Hf by lia.
Qed.

(** Changing the back pointer of the first entry of a tail. *)
Lemma tail_relink b b' p p' s C :
  (forall i, s < i <= TOTAL_PHY_PAGES -> ent b' i = ent b i) -> ent b' s = set_prev p' (ent b s) ->
  tail b p s C -> tail b' p' s C.
Proof.
  intros Hf Hs H; destruct C as [|c C].
  - destruct H as (_ & Hp & H1 & H2 & H3); cbn in *; subst s; split_and!; cbn; try done.
    unfold sentinel; by rewrite Hs.
  - destruct H as ([Hc H] & Hp & Hsen); cbn in *; destruct Hc as (Hl & Hst & H1 & H2 & H3 & Hi).
    pose proof (seg_pos _ _ _ _ H); unfold tail; cbn; split_and!; cbn.
    + unfold chunk_at; rewrite Hs; cbn; split_and!; try done; try lia.
      intros i Hi'; rewrite Hf by lia; auto.
    + eapply seg_frame, H; intros; apply Hf; lia.
    + done.
    + by rewrite Hf by lia.
Qed.

(** ** The calls on a laid-out book *)

Lemma chunk_bounds b cs A c B : laid b cs -> cs = A ++ c :: B ->
  0 <= pos 0 A /\ 0 < c.1 /\ pos 0 A + c.1 <= TOTAL_PHY_PAGES /\ 0 <= c.2 < top_status /\
  status (ent b (pos 0 A)) = c.2 /\ len (ent b (pos 0 A)) = c.1 /\ prev (ent b (pos 0 A)) = lastp 0 0 A.
Proof.
  intros H ->; apply tail_app in H as [HA H]; pose proof (seg_pos _ _ _ _ HA).
  pose proof H as [[(Hl & Hst & H1 & H2 & H3 & _) Hs] _]; cbn in *.
  assert (tail b (pos 0 A) (pos 0 A + c.1) B) as Ht by (destruct H as (? & ? & ?); split_and!; cbn in *; tauto).
  pose proof (tail_le _ _ _ _ Ht); split_and!; try done; lia.
Qed.

Lemma lock_entry_in b i : 0 <= i <= TOTAL_PHY_PAGES ->
  lock_entry b i = Some (upd b i (set_status (Z.max (status (ent b i)) page_transaction)), status (ent b i)).
Proof. intros; unfold lock_entry; by bk. Qed.

Lemma page_t_eta e : mk_page_t (status e) (len e) (prev e) (spare e) = e.
Proof. by destruct e. Qed.

Lemma u64_in z : 0 <= z <= TOTAL_PHY_PAGES -> u64 z = z.
Proof. rewrite total_val; intros; apply wrap_small; unfold in_range; lia. Qed.

Lemma status_small st : 0 <= st < page_transaction -> (page_transaction <=? signed 32 st) = false.
Proof. unfold page_transaction; intros; rewrite signed_small by lia; apply Z.leb_gt; lia. Qed.

Lemma split_laid b A l st B n : laid b (A ++ (l, st) :: B) -> st < page_transaction -> 0 < n < l ->
  exists b', split_phy_page_range b (pos 0 A) n = Some b' /\ laid b' (A ++ (n, st) :: (l - n, st) :: B).
Proof.
  intros H Hlive Hn; pose proof (chunk_bounds _ _ _ _ _ H eq_refl) as (Hp & Hl & Ht & Hst & E1 & E2 & E3); cbn in *.
  set (s := pos 0 A) in *; pose proof total_val as TV.
  unfold split_phy_page_range; rewrite sge_small by lia; rewrite (proj2 (Z.leb_gt _ _)) by lia.
  rewrite slot_in, lock_entry_in by lia; cbn [mbind option_bind]; rewrite E1, status_small by lia.
  bk; rewrite ent_upd_eq; cbn [len set_status]; rewrite E2, sge_small, (proj2 (Z.leb_gt _ _)) by lia.
  bk; eexists; split; [reflexivity|].
  rewrite !u64_in by lia; apply tail_app in H as [HA H]; apply tail_app; split.
  - eapply seg_frame, HA; intros i Hi; fold s in Hi; by ents.
  - fold s in H |- *; destruct H as ([Hc HB] & Hpos & Hsen); cbn in *; destruct Hc as (_ & _ & _ & _ & _ & Hi); cbn in Hi.
    match goal with |- tail ?b' _ _ _ => assert (tail b' (s + n) (s + l) B) as HT end.
    { eapply (tail_relink b _ s); [..|by split_and!]; [intros i Hi'; by ents|].
      ents; by destruct (ent b (s + l)). }
    destruct HT as (HT1 & HT2 & HT3); unfold tail; cbn.
    replace (s + n + (l - n)) with (s + l) by lia; split_and!; try done.
    + unfold chunk_at; cbn; split_and!; try done; try lia; try (by ents).
      intros i Hi'; ents; by apply Hi; lia.
    + unfold chunk_at; cbn; split_and!; try done; try lia; try (by ents).
      intros i Hi'; ents; by apply Hi; lia.
Qed.

Lemma merge_laid b A l1 l2 st B : laid b (A ++ (l1, st) :: (l2, st) :: B) -> st < page_transaction ->
  exists b', merge_phy_page_range b (pos 0 A) = Some b' /\ laid b' (A ++ (l1 + l2, st) :: B).
Proof.
  intros H Hlive; pose proof (chunk_bounds _ _ _ _ _ H eq_refl) as (Hp & Hl & Ht & Hst & E1 & E2 & E3); cbn in *.
  assert (laid b ((A ++ [(l1, st)]) ++ (l2, st) :: B)) as H' by (by rewrite <- app_assoc).
  pose proof (chunk_bounds _ _ _ _ _ H' eq_refl) as (_ & Hl2 & Ht2 & _ & F1 & F2 & F3); clear H'.
  rewrite pos_app in *; cbn in *; set (s := pos 0 A) in *; pose proof total_val as TV.
  unfold merge_phy_page_range; rewrite sge_small by lia; rewrite (proj2 (Z.leb_gt _ _)) by lia.
  rewrite slot_in, lock_entry_in by lia; cbn [mbind option_bind]; rewrite E1, status_small by lia.
  bk; rewrite ent_upd_eq; cbn [len set_status]; rewrite E2, (proj2 (Z.eqb_neq l1 0)) by lia.
  bk; rewrite lock_entry_in by lia; cbn [mbind option_bind]; rewrite ent_upd_ne, F1, Z.eqb_refl by lia; cbn [negb].
  bk; rewrite ent_upd_eq, ent_upd_ne by lia; cbn [len set_status]; rewrite F2.
  bk; eexists; split; [reflexivity|].
  rewrite !u64_in by lia; apply tail_app in H as [HA H]; apply tail_app; split.
  - eapply seg_frame, HA; intros i Hi; fold s in Hi; by ents.
  - fold s in H |- *; destruct H as ([Hc [Hd HB]] & Hpos & Hsen); cbn in *.
    destruct Hc as (_ & _ & _ & _ & _ & Hi), Hd as (_ & _ & _ & _ & _ & Hj); cbn in *.
    match goal with |- tail ?b' _ _ _ => assert (tail b' s (s + l1 + l2) B) as HT end.
    { eapply (tail_relink b _ (s + l1)); [..|by split_and!]; [intros i Hi'; by ents|].
      ents; by destruct (ent b (s + l1 + l2)). }
    destruct HT as (HT1 & HT2 & HT3); unfold tail; cbn.
    replace (s + (l1 + l2)) with (s + l1 + l2) by lia; split_and!; try done.
    unfold chunk_at; cbn; split_and!; try done; try lia; try (by ents; lia).
    intros i Hi'; destruct (Z.lt_trichotomy i (s + l1)) as [?|[->|?]]; ents; try done; auto with lia.
Qed.

(** *** Calls that do nothing *)

Definition same (b b' : book_t) : Prop := forall i, ent b' i = ent b i.

Lemma laid_same b b' cs : same b b' -> laid b cs -> laid b' cs.
Proof. intros H; apply tail_frame; auto. Qed.

Lemma page_cases_seg b p s cs i : seg b p s cs -> s <= i < pos s cs ->
  (exists A c B, cs = A ++ c :: B /\ pos s A = i) \/ (len (ent b i) = 0 /\ status (ent b i) = page_unused).
Proof.
  revert p s; induction cs as [|c cs IH]; cbn; intros p s H Hi; [lia|].
  destruct H as [Hc H]; destruct (Z.eq_dec i s) as [->|Hne]; [left; by exists [], c, cs|].
  destruct (decide (i < s + c.1)).
  - right; destruct Hc as (_ & _ & _ & _ & _ & Hh); apply Hh; lia.
  - destruct (IH _ _ H) as [(A & d & B & -> & <-)|]; [lia| |by right].
    left; by exists (c :: A), d, B.
Qed.

Lemma page_cases b cs i : laid b cs -> 0 <= i < TOTAL_PHY_PAGES ->
  (exists A c B, cs = A ++ c :: B /\ pos 0 A = i) \/ (len (ent b i) = 0 /\ status (ent b i) = page_unused).
Proof. intros (H & <- & _); by eapply page_cases_seg. Qed.

Lemma lock_unlock b i j x st : status (ent b i) = st -> ent (upd (upd b i (set_status x)) i (set_status st)) j = ent b j.
Proof.
  intros <-; rewrite !ent_upd; repeat case_decide; subst; try done; by destruct (ent b j).
Qed.

Lemma status_range b cs i : laid b cs -> 0 <= i < TOTAL_PHY_PAGES -> 0 <= status (ent b i) < top_status.
Proof.
  intros H Hi; destruct (page_cases _ _ _ H Hi) as [(A & c & B & -> & <-)|[_ ->]]; [|by apply live_top].
  by destruct (chunk_bounds _ _ _ _ _ H eq_refl) as (_ & _ & _ & ? & -> & _).
Qed.

(** A chunk that is locked or given up stays as it is. *)
Lemma stuck_entry b i : page_transaction <= status (ent b i) ->
  same b (upd b i (set_status (Z.max (status (ent b i)) page_transaction))).
Proof. intros H j; rewrite Z.max_l by lia; rewrite ent_upd; case_decide; subst; [by destruct (ent b j)|done]. Qed.

Lemma stuck_status st : page_transaction <= st < top_status -> (page_transaction <=? signed 32 st) = true.
Proof. pose proof top_ok; unfold page_transaction, page_screwed_the_pooch in *; intros; rewrite signed_small by lia; apply Z.leb_le; lia. Qed.

Lemma stuck_split b i n : 0 <= i < TOTAL_PHY_PAGES -> page_transaction <= status (ent b i) < top_status ->
  exists b', split_phy_page_range b i n = Some b' /\ same b b'.
Proof.
  intros Hi Hs; pose proof total_val; unfold split_phy_page_range; rewrite sge_small, (proj2 (Z.leb_gt _ _)), slot_in, lock_entry_in by lia.
  cbn [mbind option_bind]; rewrite stuck_status by done; eexists; split; [reflexivity|]; apply stuck_entry; lia.
Qed.

Lemma stuck_merge b i : 0 <= i < TOTAL_PHY_PAGES -> page_transaction <= status (ent b i) < top_status ->
  exists b', merge_phy_page_range b i = Some b' /\ same b b'.
Proof.
  intros Hi Hs; pose proof total_val; unfold merge_phy_page_range; rewrite sge_small, (proj2 (Z.leb_gt _ _)), slot_in, lock_entry_in by lia.
  cbn [mbind option_bind]; rewrite stuck_status by done; eexists; split; [reflexivity|]; apply stuck_entry; lia.
Qed.

Lemma stuck_zero s i : 0 <= i < TOTAL_PHY_PAGES -> page_transaction <= status (ent (the_book s) i) < top_status ->
  exists s', zero_page_range s i = Some s' /\ same (the_book s) (the_book s') /\ memory s' = memory s.
Proof.
  intros Hi Hs; pose proof total_val; unfold zero_page_range; rewrite sge_small, (proj2 (Z.leb_gt _ _)), slot_in, lock_entry_in by lia.
  cbn [mbind option_bind]; rewrite stuck_status by done; eexists; split; [reflexivity|]; split; [apply stuck_entry; cbn; lia|done].
Qed.

Lemma split_noop b cs i n : laid b cs -> 0 <= i < TOTAL_PHY_PAGES -> 0 <= n < 2 ^ 63 -> len (ent b i) <= n ->
  exists b', split_phy_page_range b i n = Some b' /\ same b b'.
Proof.
  intros H Hi Hn Hl; pose proof total_val as TV; pose proof (status_range _ _ _ H Hi) as Hst.
  destruct (decide (page_transaction <= status (ent b i))) as [Hk|Hk]; [apply stuck_split; lia|].
  assert (0 <= len (ent b i)) as Hl0.
  { destruct (page_cases _ _ _ H Hi) as [(A & c & B & -> & <-)|[-> _]]; [|done].
    destruct (chunk_bounds _ _ _ _ _ H eq_refl) as (_ & ? & _ & _ & _ & -> & _); lia. }
  unfold split_phy_page_range; rewrite sge_small by lia; rewrite (proj2 (Z.leb_gt _ _)) by lia.
  rewrite slot_in, lock_entry_in by lia; cbn [mbind option_bind]; rewrite status_small by lia.
  bk; rewrite ent_upd_eq; cbn [len set_status]; rewrite sge_small, (proj2 (Z.leb_le _ _)) by lia.
  bk; eexists; split; [reflexivity|]; intros j; by apply lock_unlock.
Qed.

(** The entry after a chunk: the next chunk, or the sentinel. *)
Lemma next_status b A c B : laid b (A ++ c :: B) ->
  status (ent b (pos 0 A + c.1)) = match B with [] => page_nano_owned | d :: _ => d.2 end.
Proof.
  intros H; apply tail_app in H as [_ H]; destruct H as ([_ H] & Hp & Hs & _); cbn in *.
  destruct B as [|d B]; cbn in *; [by rewrite Hp|]; by destruct H as [(_ & _ & ? & _) _].
Qed.

Lemma merge_hole b cs i : laid b cs -> 0 <= i < TOTAL_PHY_PAGES -> len (ent b i) = 0 ->
  exists b', merge_phy_page_range b i = Some b' /\ same b b'.
Proof.
  intros H Hi Hl; pose proof total_val as TV; pose proof (status_range _ _ _ H Hi) as Hst.
  destruct (decide (page_transaction <= status (ent b i))) as [Hk|Hk]; [apply stuck_merge; lia|].
  unfold merge_phy_page_range; rewrite sge_small by lia; rewrite (proj2 (Z.leb_gt _ _)) by lia.
  rewrite slot_in, lock_entry_in by lia; cbn [mbind option_bind]; rewrite status_small by lia.
  bk; rewrite ent_upd_eq; cbn [len set_status]; rewrite Hl; cbn [Z.eqb]; bk.
  eexists; split; [reflexivity|]; intros j; by apply lock_unlock.
Qed.

Lemma merge_differ b A c B : laid b (A ++ c :: B) ->
  match B with [] => page_nano_owned | d :: _ => d.2 end <> c.2 ->
  exists b', merge_phy_page_range b (pos 0 A) = Some b' /\ same b b'.
Proof.
  intros H Hne; pose proof (chunk_bounds _ _ _ _ _ H eq_refl) as (Hp & Hl & Ht & Hst & E1 & E2 & E3).
  rewrite <- (next_status _ _ _ _ H) in Hne; set (s := pos 0 A) in *; pose proof total_val as TV.
  destruct (decide (page_transaction <= c.2)) as [Hk|Hk]; [apply stuck_merge; rewrite ?E1; lia|].
  unfold merge_phy_page_range; rewrite sge_small by lia; rewrite (proj2 (Z.leb_gt _ _)) by lia.
  rewrite slot_in, lock_entry_in by lia; cbn [mbind option_bind]; rewrite E1, status_small by lia.
  bk; rewrite ent_upd_eq; cbn [len set_status]; rewrite E2, (proj2 (Z.eqb_neq _ 0)) by lia.
  bk; rewrite lock_entry_in by lia; cbn [mbind option_bind]; rewrite ent_upd_ne by lia.
  rewrite (proj2 (Z.eqb_neq _ _)) by done; cbn [negb]; bk.
  eexists; split; [reflexivity|]; intros j; rewrite !ent_upd; repeat case_decide; subst; try lia; try done.
  - rewrite <- E1; by destruct (ent b s).
  - by destruct (ent b (s + c.1)).
Qed.

(** *** The statuses of the pages *)

Lemma flat_app A B : flat (A ++ B) = flat A ++ flat B.
Proof. unfold flat; by rewrite fmap_app, join_app. Qed.

Lemma flat_cons c B : flat (c :: B) = replicate (Z.to_nat c.1) c.2 ++ flat B.
Proof. done. Qed.

Lemma flat_split l n (st : Z) : 0 < n < l -> flat [(n, st); (l - n, st)] = flat [(l, st)].
Proof.
  intros; rewrite !flat_cons; cbn [fst snd]; change (flat []) with (@nil Z); rewrite !app_nil_r, <- replicate_add.
  f_equal; lia.
Qed.

Lemma flat_merge l1 l2 (st : Z) : 0 < l1 -> 0 < l2 -> flat [(l1 + l2, st)] = flat [(l1, st); (l2, st)].
Proof. intros; rewrite <- (flat_split (l1 + l2) l1) by lia; do 3 f_equal; f_equal; lia. Qed.

Lemma flat_length b cs p s : seg b p s cs -> Z.of_nat (length (flat cs)) = pos s cs - s.
Proof.
  revert p s; induction cs as [|c cs IH]; cbn [seg pos]; intros p s H; [cbn; lia|].
  destruct H as [(Hl & _) H]; rewrite flat_cons, length_app, length_replicate, Nat2Z.inj_add, (IH _ _ H); lia.
Qed.

(** The abstraction: the book is well formed, its pages have the statuses [F],
    and the last page is not one of the nanokernel. *)
Definition book_ok (b : book_t) (F : list Z) : Prop :=
  exists cs, laid b cs /\ flat cs = F /\ last F <> Some page_nano_owned.

Lemma book_ok_same b b' F : same b b' -> book_ok b F -> book_ok b' F.
Proof. intros Hs (cs & H & E); exists cs; split; [by eapply laid_same|done]. Qed.

Lemma flat_last A c : 0 < c.1 -> last (flat (A ++ [c])) = Some c.2.
Proof.
  intros H; rewrite flat_app, flat_cons; change (flat []) with (@nil Z); rewrite app_nil_r.
  destruct (Z.to_nat c.1) as [|k] eqn:E; [lia|].
  rewrite <- Nat.add_1_r, replicate_add, app_assoc; apply last_snoc.
Qed.

Lemma split_book b F i n : book_ok b F -> 0 <= i < TOTAL_PHY_PAGES -> 0 < n < 2 ^ 63 ->
  exists b', split_phy_page_range b i n = Some b' /\ book_ok b' F.
Proof.
  intros (cs & H & <- & HL) Hi Hn; destruct (decide (len (ent b i) <= n)) as [Hle|Hgt].
  { destruct (split_noop _ _ i n H Hi) as (b' & E & Hs); [lia|done|].
    exists b'; split; [done|]; eapply book_ok_same; [done|by exists cs]. }
  destruct (page_cases _ _ _ H Hi) as [(A & [l st] & B & -> & <-)|[E _]]; [|lia].
  destruct (chunk_bounds _ _ _ _ _ H eq_refl) as (_ & Hl & _ & Hst & E1 & E & _); cbn in *.
  destruct (decide (page_transaction <= st)) as [Hk|Hk].
  { destruct (stuck_split b (pos 0 A) n) as (b' & E' & Hs'); [lia|rewrite E1; lia|].
    exists b'; split; [done|]; eapply book_ok_same; [done|by exists (A ++ (l, st) :: B)]. }
  destruct (split_laid _ _ _ _ _ n H) as (b' & E' & H'); [lia|lia|].
  exists b'; split; [done|]; exists (A ++ (n, st) :: (l - n, st) :: B); split_and!; try done.
  rewrite !flat_app; f_equal; change (?a :: ?c :: B) with ([a; c] ++ B); change ((l, st) :: B) with ([(l, st)] ++ B).
  by rewrite !flat_app, flat_split by lia.
Qed.

Lemma merge_book b F i : book_ok b F -> 0 <= i < TOTAL_PHY_PAGES ->
  exists b', merge_phy_page_range b i = Some b' /\ book_ok b' F.
Proof.
  intros (cs & H & <- & HL) Hi; pose proof (page_cases _ _ _ H Hi) as [(A & [l1 st] & B & -> & <-)|[E _]].
  2:{ destruct (merge_hole _ _ i H Hi E) as (b' & E' & Hs).
      exists b'; split; [done|]; eapply book_ok_same; [done|by exists cs]. }
  destruct (decide (match B with [] => page_nano_owned | d :: _ => d.2 end = st)) as [Heq|Hne].
  - destruct B as [|[l2 st2] B]; cbn in Heq; subst.
    { destruct (chunk_bounds _ _ _ _ _ H eq_refl) as (_ & Hl & _); by rewrite flat_last in HL. }
    destruct (decide (page_transaction <= st)) as [Hk|Hk].
    { pose proof (chunk_bounds _ _ _ _ _ H eq_refl) as (_ & _ & _ & Hst & E1 & _); cbn in *.
      destruct (stuck_merge b (pos 0 A)) as (b' & E' & Hs'); [lia|rewrite E1; lia|].
      exists b'; split; [done|]; eapply book_ok_same; [done|by exists (A ++ (l1, st) :: (l2, st) :: B)]. }
    destruct (merge_laid _ _ _ _ _ _ H) as (b' & E' & H'); [lia|].
    exists b'; split; [done|]; exists (A ++ (l1 + l2, st) :: B); split_and!; try done.
    apply tail_app in H as [_ ([(? & _) [(? & _) _]] & _)]; cbn in *.
    rewrite !flat_app; f_equal; change (?a :: ?c :: B) with ([a; c] ++ B); change (?a :: B) with ([a] ++ B).
    by rewrite !flat_app, flat_merge by lia.
  - destruct (merge_differ _ _ _ _ H Hne) as (b' & E' & Hs).
    exists b'; split; [done|]; eapply book_ok_same; [done|by exists (A ++ (l1, st) :: B)].
Qed.

(** *** Changing the status of a chunk *)

Definition set_range (F : list Z) (i l st : Z) : list Z :=
  take (Z.to_nat i) F ++ replicate (Z.to_nat l) st ++ drop (Z.to_nat (i + l)) F.

Lemma flat_prefix b A C : laid b (A ++ C) -> length (flat A) = Z.to_nat (pos 0 A).
Proof. intros H; apply tail_app in H as [H _]; pose proof (flat_length _ _ _ _ H); lia. Qed.

Lemma flat_set_range b A l st st' B : laid b (A ++ (l, st) :: B) ->
  flat (A ++ (l, st') :: B) = set_range (flat (A ++ (l, st) :: B)) (pos 0 A) l st'.
Proof.
  intros H; pose proof (chunk_bounds _ _ _ _ _ H eq_refl) as (Hp & Hl & _); cbn in *.
  unfold set_range; rewrite !flat_app, !flat_cons; cbn [fst snd].
  rewrite Z2Nat.inj_add, <- drop_drop, <- (flat_prefix _ _ _ H), take_app_length, drop_app_length by lia.
  by rewrite drop_app_length' by (by rewrite length_replicate).
Qed.

Lemma flat_range_get b A l st B p : laid b (A ++ (l, st) :: B) -> pos 0 A <= p < pos 0 A + l ->
  flat (A ++ (l, st) :: B) !! Z.to_nat p = Some st.
Proof.
  intros H Hp; pose proof (chunk_bounds _ _ _ _ _ H eq_refl) as (H0 & Hl & _); cbn in *.
  rewrite flat_app, flat_cons, lookup_app_r by (rewrite (flat_prefix _ _ _ H); lia); rewrite (flat_prefix _ _ _ H); cbn.
  rewrite lookup_app_l by (rewrite length_replicate; lia); apply lookup_replicate_2; lia.
Qed.

Lemma restatus_laid b b' A l st st' B : laid b (A ++ (l, st) :: B) -> 0 <= st' < top_status ->
  (forall j, ent b' j = if decide (pos 0 A = j) then set_status st' (ent b j) else ent b j) ->
  laid b' (A ++ (l, st') :: B).
Proof.
  intros H Hst Hb; pose proof (chunk_bounds _ _ _ _ _ H eq_refl) as (Hp & Hl & Ht & _); cbn in *.
  apply tail_app in H as [HA H]; apply tail_app; split.
  { eapply seg_frame, HA; intros i Hi; rewrite Hb, decide_False by lia; done. }
  destruct H as ([(_ & _ & H1 & H2 & H3 & Hi) HB] & Hpos & Hsen); cbn in *; unfold tail; cbn; split_and!; try done.
  - unfold chunk_at; cbn; rewrite Hb, decide_True by done; split_and!; try done; try lia.
    intros i Hi'; rewrite Hb, decide_False by lia; auto.
  - eapply seg_frame, HB; intros i Hi'; rewrite Hb, decide_False by lia; done.
  - rewrite Hb, decide_False by lia; done.
Qed.

Lemma set_range_last F i l st : 0 <= i -> 0 < l -> i + l <= Z.of_nat (length F) -> st <> page_nano_owned ->
  last F <> Some page_nano_owned -> last (set_range F i l st) <> Some page_nano_owned.
Proof.
  intros Hi Hl Hle Hst HF; unfold set_range; rewrite app_assoc, last_app.
  destruct (last (drop _ F)) as [x|] eqn:E.
  - intros [= ->]; apply HF; rewrite <- (take_drop (Z.to_nat (i + l)) F), last_app, E; done.
  - rewrite last_app; destruct (Z.to_nat l) as [|k] eqn:El; [lia|].
    destruct (last (replicate (S k) st)) as [y|] eqn:Ey.
    + apply last_Some_elem_of, elem_of_replicate in Ey as [-> _]; congruence.
    + apply last_None in Ey; done.
Qed.

Lemma flat_length_laid b cs : laid b cs -> Z.of_nat (length (flat cs)) = TOTAL_PHY_PAGES.
Proof. intros (H & <- & _); rewrite (flat_length _ _ _ _ H); lia. Qed.

Lemma restatus_book b b' A l st st' B : laid b (A ++ (l, st) :: B) ->
  last (flat (A ++ (l, st) :: B)) <> Some page_nano_owned ->
  0 <= st' < top_status -> st' <> page_nano_owned ->
  (forall j, ent b' j = if decide (pos 0 A = j) then set_status st' (ent b j) else ent b j) ->
  book_ok b' (set_range (flat (A ++ (l, st) :: B)) (pos 0 A) l st').
Proof.
  intros H HL Hst Hn Hb; exists (A ++ (l, st') :: B); pose proof (chunk_bounds _ _ _ _ _ H eq_refl) as (Hp & Hl & Ht & _).
  cbn in *; split_and!; [by eapply restatus_laid|by eapply flat_set_range|].
  apply set_range_last; try done; rewrite (flat_length_laid _ _ H); lia.
Qed.

(** *** Handing out pages *)

(** The statuses that may become the status the call gives. *)
Definition may_take (io : bool) (st : Z) : Prop :=
  if io then st = page_io_unused \/ st = page_io_system else st = page_unused \/ st = page_system_owned.

Definition taken (io : bool) : Z := if io then page_io_system else page_system_owned.

Lemma mask_may_take io st : 0 <= st < top_status ->
  (Z.land (Z.shiftl 1 (Z.land st 63)) (status_mask io) =? 0) = false -> may_take io st.
Proof.
  pose proof top_ok; unfold page_screwed_the_pooch in *; intros Hst E.
  assert (st ∈ seqZ 0 13) as He by (apply elem_of_seqZ; lia).
  repeat (apply elem_of_cons in He as [->|He]; [destruct io; vm_compute in E |- *; try discriminate; tauto|]).
  by apply elem_of_nil in He.
Qed.

Lemma get_phy_book rep b F i cached n io : book_ok b F -> 0 <= i < TOTAL_PHY_PAGES ->
  exists b' r, get_phy_page rep b i cached n io = Some (b', r) /\
    (r = NoCap /\ b' = b \/
     r = (let base := i * 4096 + (if cached then PHY_MEM_START_CACHED else PHY_MEM_START_UNCACHED) in
          if rep base (n * 4096) then Cap (mk_cap base (n * 4096) io) else BoundsFault) /\
     0 < n /\ i + n <= TOTAL_PHY_PAGES /\ len (ent b i) = n /\
     (exists st, may_take io st /\ forall p, i <= p < i + n -> F !! Z.to_nat p = Some st) /\
     book_ok b' (set_range F i n (taken io))).
Proof.
  intros (cs & H & <- & HL) Hi; pose proof total_val as TV; unfold get_phy_page.
  destruct (n =? 0) eqn:En; [eauto 6|apply Z.eqb_neq in En].
  rewrite sge_small by lia; rewrite (proj2 (Z.leb_gt _ _)), slot_in by lia; bk.
  destruct (Z.land _ _ =? 0) eqn:Em; [eauto 6|].
  destruct (len (ent b i) =? n) eqn:El; cbn [negb]; [apply Z.eqb_eq in El|eauto 6].
  pose proof (page_cases _ _ _ H Hi) as [(A & [l st] & B & -> & <-)|[E _]]; [|lia].
  pose proof (chunk_bounds _ _ _ _ _ H eq_refl) as (Hp & Hl & Ht & Hst & E1 & E2 & E3); cbn in *.
  rewrite E2 in El; subst l; rewrite E1 in Em; do 2 eexists; split; [reflexivity|right].
  split_and!; try done; try lia.
  - unfold PHY_PAGE_SIZE_BITS, PHY_MEM_START_UNCACHED, PHY_MEM_START_CACHED; rewrite !Z.shiftl_mul_pow2 by lia.
    change (2 ^ 12) with 4096; rewrite (wrap_small 64 (pos 0 A * 4096)), (wrap_small 64 (n * 4096)) by (unfold in_range; lia).
    rewrite wrap_small by (unfold in_range; destruct cached; lia); by destruct cached.
  - exists st; split; [by apply mask_may_take|]; intros p Hpp; by eapply flat_range_get.
  - unfold taken; eapply restatus_book; try done; [apply live_top; by destruct io|by destruct io|].
    intros j; rewrite ent_upd; case_decide; by subst.
Qed.

(** *** Zeroing *)

Lemma store_zeros_spec m a w : store_zeros m a !! w = if decide (a / CAP_SIZE <= w < a / CAP_SIZE + 16) then None else m !! w.
Proof.
  unfold store_zeros, UNROLL_FACTOR; set (k := a / CAP_SIZE); change (seqZ 0 16) with [0;1;2;3;4;5;6;7;8;9;10;11;12;13;14;15].
  cbn [fold_left]; case_decide as D.
  - repeat match goal with |- context [delete (k + ?c) _ !! w] =>
      destruct (decide (k + c = w)) as [<-|]; [by rewrite lookup_delete_eq|rewrite lookup_delete_ne by done] end.
    exfalso; lia.
  - by rewrite !lookup_delete_ne by lia.
Qed.

Lemma do_zero_spec n m o : 0 <= o -> o mod 256 = 0 -> (0 < n)%nat -> o + Z.of_nat n * 256 < 2 ^ 36 ->
  exists m', do_zero_page n m (PHY_MEM_START_CACHED + o) (PHY_MEM_START_CACHED + (o + Z.of_nat n * 256)) = Some m' /\
    forall w, m' !! w = if decide (o / 16 <= w < o / 16 + Z.of_nat n * 16) then None else m !! w.
Proof.
  revert m o; induction n as [|n IH]; intros m o Ho Hm Hn Hb; [lia|]; cbn [do_zero_page].
  set (m1 := store_zeros m _).
  assert (forall w, m1 !! w = if decide (o / 16 <= w < o / 16 + 16) then None else m !! w) as H1.
  { intros w; unfold m1; rewrite store_zeros_spec; unfold CAP_SIZE.
    replace (PHY_MEM_START_CACHED + o - PHY_MEM_START_CACHED) with o by lia; by rewrite wrap_small by (unfold in_range; lia). }
  change (CAP_SIZE * UNROLL_FACTOR) with 256.
  rewrite (wrap_small 64 (PHY_MEM_START_CACHED + o + 256)) by (unfold in_range, PHY_MEM_START_CACHED in *; lia).
  destruct n as [|n].
  - rewrite (proj2 (Z.eqb_eq _ _)) by lia; exists m1; split; [done|]; intros w; rewrite H1; do 2 case_decide; lia || done.
  - rewrite (proj2 (Z.eqb_neq _ _)) by lia; cbn [negb].
    destruct (IH m1 (o + 256)) as (m' & E & Hw); [lia| |lia|lia|].
    { rewrite <- Z.add_mod_idemp_r, Z.mod_same, Z.add_0_r by lia; done. }
    exists m'; split.
    { rewrite <- E; f_equal; lia. }
    intros w; rewrite Hw, H1; assert ((o + 256) / 16 = o / 16 + 16) as ->
      by (replace (o + 256) with (o + 16 * 16) by lia; by rewrite Z.div_add by lia).
    repeat case_decide; lia || done.
Qed.

(** The words of a page: page [p] holds the words [256 p] to [256 p + 255]. *)
Definition page_of (w : Z) : Z := w / 256.

Lemma zero_dirty s A l B : laid (the_book s) (A ++ (l, page_dirty) :: B) ->
  exists s', zero_page_range s (pos 0 A) = Some s' /\ laid (the_book s') (A ++ (l, page_unused) :: B) /\
    forall w, memory s' !! w = if decide (pos 0 A <= page_of w < pos 0 A + l) then None else memory s !! w.
Proof.
  destruct s as [b m]; cbn [the_book memory]; intros H; pose proof total_val as TV.
  pose proof (chunk_bounds _ _ _ _ _ H eq_refl) as (Hp & Hl & Ht & _ & E1 & E2 & E3); cbn in *; unfold zero_page_range; cbn [the_book memory].
  rewrite sge_small by lia; rewrite (proj2 (Z.leb_gt _ _)), slot_in, lock_entry_in by lia; cbn [mbind option_bind].
  rewrite E1, status_small, Z.eqb_refl by done; cbn [negb]; bk; rewrite ent_upd_eq; cbn [len set_status].
  rewrite E2; unfold PHY_PAGE_SIZE_BITS; rewrite !Z.shiftl_mul_pow2 by lia; change (2 ^ 12) with 4096.
  rewrite (wrap_small 64 (_ * 4096)), (wrap_small 64 (_ + _ * 4096)), (wrap_small 64 (_ * 4096)), wrap_small
    by (unfold in_range, PHY_MEM_START_CACHED in *; lia).
  set (o := pos 0 A * 4096).
  destruct (do_zero_spec (Z.to_nat (l * 16)) m o) as (m' & E & Hw); [lia| |lia|lia|].
  { unfold o; replace (pos 0 A * 4096) with (pos 0 A * 16 * 256) by lia; by apply Z.mod_mul. }
  replace (PHY_MEM_START_CACHED + o + l * 4096) with (PHY_MEM_START_CACHED + (o + Z.of_nat (Z.to_nat (l * 16)) * 256)) by lia.
  rewrite E; cbn [mbind option_bind]; eexists; split; [reflexivity|]; cbn [the_book memory]; split.
  - eapply restatus_laid; [done|by apply live_top|]; intros j; rewrite !ent_upd; repeat case_decide; subst; try done.
  - intros w; rewrite Hw; assert (o / 16 = pos 0 A * 256) as ->
      by (unfold o; symmetry; apply Z.div_unique with 0; lia).
    unfold page_of; pose proof (Z.div_mod w 256 ltac:(lia)); pose proof (Z.mod_pos_bound w 256 ltac:(lia)).
    repeat case_decide; try done; exfalso; lia.
Qed.

Lemma zero_book s F i : book_ok (the_book s) F -> 0 <= i < TOTAL_PHY_PAGES ->
  exists s', zero_page_range s i = Some s' /\
    (memory s' = memory s /\ book_ok (the_book s') F \/
     exists l, 0 < l /\ i + l <= TOTAL_PHY_PAGES /\ (forall p, i <= p < i + l -> F !! Z.to_nat p = Some page_dirty) /\
       book_ok (the_book s') (set_range F i l page_unused) /\
       forall w, memory s' !! w = if decide (i <= page_of w < i + l) then None else memory s !! w).
Proof.
  intros (cs & H & <- & HL) Hi; pose proof total_val as TV; pose proof (status_range _ _ _ H Hi) as Hst.
  destruct (decide (status (ent (the_book s) i) = page_dirty)) as [Ed|Ed].
  - pose proof (page_cases _ _ _ H Hi) as [(A & [l st] & B & -> & <-)|[_ E]]; [|by rewrite E in Ed].
    pose proof (chunk_bounds _ _ _ _ _ H eq_refl) as (Hp & Hl & Ht & _ & E1 & _); cbn in *; rewrite E1 in Ed; subst st.
    destruct (zero_dirty s A l B H) as (s' & E & H' & Hm); exists s'; split; [done|right; exists l].
    split_and!; try done; [intros p Hpp; by eapply flat_range_get|].
    exists (A ++ (l, page_unused) :: B); pose proof (flat_set_range _ _ _ _ page_unused _ H) as HF; split_and!; try done.
    apply set_range_last; try done; rewrite (flat_length_laid _ _ H); lia.
  - destruct (decide (page_transaction <= status (ent (the_book s) i))) as [Hk|Hk].
    { destruct (stuck_zero s i) as (s' & E & Hs & Em); [done|lia|].
      exists s'; split; [done|left; split; [done|]]; eapply book_ok_same; [done|by exists cs]. }
    unfold zero_page_range; rewrite sge_small by lia; rewrite (proj2 (Z.leb_gt _ _)), slot_in, lock_entry_in by lia; cbn [mbind option_bind].
    rewrite status_small, (proj2 (Z.eqb_neq _ _)) by (done || lia); cbn [negb]; bk; eexists; split; [reflexivity|left]; cbn; split; [done|].
    eapply book_ok_same; [|by exists cs]; intros j; by apply lock_unlock.
Qed.

(** ** Sequences of calls *)

(** The status of the chunk that holds a page. *)
Fixpoint walk (n : nat) (b : book_t) (s p : Z) : Z :=
  match n with
  | O => page_unused
  | S n => if p <? s + len (ent b s) then status (ent b s) else walk n b (s + len (ent b s)) p
  end.

Definition page_status (b : book_t) (p : Z) : Z := walk (Z.to_nat (p + 1)) b 0 p.

(** The calls of the system. *)
Inductive call : Type :=
  | Split (pagen new_len : Z)
  | Merge (pagen : Z)
  | Zero (pagen : Z)
  | GetPhy (page_n : Z) (cached : bool) (npages : Z) (io : bool).

Definition exec (rep : Z -> Z -> bool) (s : phys) (c : call) : option phys :=
  match c with
  | Split i n => b ← split_phy_page_range (the_book s) i n; Some (mk_phys b (memory s))
  | Merge i => b ← merge_phy_page_range (the_book s) i; Some (mk_phys b (memory s))
  | Zero i => zero_page_range s i
  | GetPhy i cached n io => r ← get_phy_page rep (the_book s) i cached n io; Some (mk_phys r.1 (memory s))
  end.

(** Both windows show the same memory. *)
Definition cap_covers (c : phy_cap) (page : Z) : bool :=
  let o := (cap_base c - PHY_MEM_START_UNCACHED) mod 2 ^ 36 in (o <=? page * 4096) && (page * 4096 <? o + cap_length c).

(** The system makes calls and keeps the capabilities [get_phy_page] returns.
    Software stores a word of 16 bytes through any of them; the processor
    refuses a store that none of them covers, which then has no effect. *)
Inductive action : Type :=
  | Call (c : call)
  | Store (word value : Z).

Definition act (rep : Z -> Z -> bool) (s : phys * list phy_cap) (a : action) : option (phys * list phy_cap) :=
  match a with
  | Call (GetPhy i cached n io) =>
      '(b, r) ← get_phy_page rep (the_book s.1) i cached n io;
      Some (mk_phys b (memory s.1), match r with Cap c => [c] | _ => [] end ++ s.2)
  | Call c => p ← exec rep s.1 c; Some (p, s.2)
  | Store w v => Some (if existsb (fun c => cap_covers c (page_of w)) s.2 then (mk_phys (the_book s.1) (<[w := v]> (memory s.1)), s.2) else s)
  end.

Fixpoint run_acts (rep : Z -> Z -> bool) (s : phys * list phy_cap) (l : list action) : option (phys * list phy_cap) :=
  match l with [] => Some s | a :: l => s ← act rep s a; run_acts rep s l end.

(** At boot: the book, and a capability to the [a0] bytes of the system. *)
Definition boot_phys (a0 : Z) (m : mem_t) : phys * list phy_cap :=
  (mk_phys (init_book a0) m, [mk_cap (PHY_MEM_START_CACHED + IO_SIZE + NANO_SIZE) a0 false]).

(** Arguments that are not negative as signed numbers, with no empty split. *)
Definition args_ok (c : call) : Prop :=
  match c with
  | Split i n => 0 <= i < 2 ^ 63 /\ 0 < n < 2 ^ 63
  | Merge i | Zero i => 0 <= i < 2 ^ 63
  | GetPhy i _ n _ => 0 <= i < 2 ^ 63
  end.

Definition act_ok (a : action) : Prop := match a with Call c => args_ok c | Store _ _ => True end.

(** The moves of one page. *)
Definition page_move (st st' : Z) : Prop :=
  st' = st \/ (exists io, may_take io st /\ st' = taken io) \/ (st = page_dirty /\ st' = page_unused).

Definition pages_step : list Z -> list Z -> Prop := Forall2 page_move.

(** No data in unused pages. *)
Definition clean (F : list Z) (m : mem_t) : Prop :=
  forall w, F !! Z.to_nat (page_of w) = Some page_unused -> 0 <= page_of w -> m !! w = None.

Definition phys_ok (s : phys) (F : list Z) : Prop := book_ok (the_book s) F /\ clean F (memory s).

Lemma walk_seg b q cs : forall n s p, seg b q s cs -> s <= p < pos s cs -> p - s < Z.of_nat n ->
  flat cs !! Z.to_nat (p - s) = Some (walk n b s p).
Proof.
  revert q; induction cs as [|c cs IH]; cbn [seg pos]; intros q n s p H Hp Hn; [lia|].
  destruct H as [(Hl & _ & E1 & E2 & _) H]; destruct n as [|n]; [lia|]; cbn [walk]; rewrite flat_cons, E2.
  destruct (p <? s + c.1) eqn:E; [apply Z.ltb_lt in E|apply Z.ltb_ge in E].
  - rewrite lookup_app_l by (rewrite length_replicate; lia); rewrite E1; apply lookup_replicate_2; lia.
  - rewrite lookup_app_r by (rewrite length_replicate; lia); rewrite length_replicate.
    rewrite <- (IH s n (s + c.1) p) by (done || lia); f_equal; lia.
Qed.

Lemma page_status_flat b F p : book_ok b F -> 0 <= p < TOTAL_PHY_PAGES -> F !! Z.to_nat p = Some (page_status b p).
Proof.
  intros (cs & (H & Hpos & _) & <- & _) Hp; replace (Z.to_nat p) with (Z.to_nat (p - 0)) by (f_equal; lia).
  apply (walk_seg b 0 cs); [done|lia|lia].
Qed.

Lemma book_length b F : book_ok b F -> Z.of_nat (length F) = TOTAL_PHY_PAGES.
Proof. intros (cs & H & <- & _); by eapply flat_length_laid. Qed.

Lemma set_range_lookup F i l st (k : nat) : 0 <= i -> 0 < l -> i + l <= Z.of_nat (length F) ->
  set_range F i l st !! k = if decide (i <= Z.of_nat k < i + l) then Some st else F !! k.
Proof.
  intros Hi Hl Hle; unfold set_range; case_decide as D.
  - rewrite lookup_app_r by (rewrite length_take; lia); rewrite length_take, lookup_app_l by (rewrite length_replicate; lia).
    apply lookup_replicate_2; lia.
  - destruct (decide (Z.of_nat k < i)).
    + by rewrite lookup_app_l, lookup_take_lt by (rewrite ?length_take; lia).
    + rewrite lookup_app_r, lookup_app_r by (rewrite ?length_take, ?length_replicate; lia).
      rewrite length_take, length_replicate, lookup_drop; f_equal; lia.
Qed.

Lemma set_range_length F i l st : 0 <= i -> 0 < l -> i + l <= Z.of_nat (length F) -> length (set_range F i l st) = length F.
Proof. intros; unfold set_range; rewrite !length_app, length_take, length_replicate, length_drop; lia. Qed.

Lemma set_range_step F i l st st' : 0 <= i -> 0 < l -> i + l <= Z.of_nat (length F) ->
  (forall p, i <= p < i + l -> F !! Z.to_nat p = Some st) -> page_move st st' -> pages_step F (set_range F i l st').
Proof.
  intros Hi Hl Hle HF Hm; apply Forall2_same_length_lookup; split; [by rewrite set_range_length|].
  intros k x y Hx Hy; rewrite set_range_lookup in Hy by done; case_decide; [|left; congruence].
  specialize (HF (Z.of_nat k) ltac:(lia)); rewrite Nat2Z.id in HF; by simplify_eq.
Qed.

Lemma clean_range F m m' i l st : 0 <= i -> 0 < l -> i + l <= Z.of_nat (length F) -> clean F m ->
  (forall w, m' !! w = if decide (i <= page_of w < i + l) then (if decide (st = page_unused) then None else m !! w) else m !! w) ->
  clean (set_range F i l st) m'.
Proof.
  intros Hi Hl Hle Hc Hm w Hw H0; rewrite set_range_lookup in Hw by done; rewrite Hm; rewrite Z2Nat.id in Hw by done.
  case_decide; [simplify_eq; by rewrite decide_True|by apply Hc].
Qed.

Lemma pages_step_refl F : pages_step F F.
Proof. apply Forall2_same_length_lookup; split; [done|]; intros; left; congruence. Qed.

Lemma in_or_out i : 0 <= i < 2 ^ 63 -> sge i TOTAL_PHY_PAGES = true \/ 0 <= i < TOTAL_PHY_PAGES.
Proof.
  intros; destruct (decide (i < TOTAL_PHY_PAGES)); [right; lia|left]; rewrite total_val in *.
  rewrite sge_small by lia; apply Z.leb_le; lia.
Qed.

Lemma exec_ok rep s F c : phys_ok s F -> args_ok c ->
  exists s' F', exec rep s c = Some s' /\ phys_ok s' F' /\ pages_step F F'.
Proof.
  intros [Hb Hc] Ha; pose proof (book_length _ _ Hb) as HL; pose proof (pages_step_refl F) as HR.
  destruct c as [i n|i|i|i cached n io]; cbn [exec args_ok] in *.
  - destruct (in_or_out i) as [E|Hi]; [lia| |].
    + exists s, F; unfold split_phy_page_range; rewrite E; by destruct s.
    + destruct (split_book _ _ i n Hb Hi) as (b' & -> & Hb'); [lia|]; by eexists _, F.
  - destruct (in_or_out i) as [E|Hi]; [lia| |].
    + exists s, F; unfold merge_phy_page_range; rewrite E; by destruct s.
    + destruct (merge_book _ _ i Hb Hi) as (b' & -> & Hb'); by eexists _, F.
  - destruct (in_or_out i) as [E|Hi]; [lia| |].
    + exists s, F; unfold zero_page_range; by rewrite E.
    + destruct (zero_book _ _ i Hb Hi) as (s' & -> & [[Em Hb']|(l & Hl & Hle & HF & Hb' & Hm)]).
      * exists s', F; split_and!; [done|split; [done|by rewrite Em]|done].
      * exists s', (set_range F i l page_unused); split_and!; [done|split; [done|]|].
        -- eapply clean_range; try done; lia.
        -- eapply set_range_step; try done; try lia; by right; right.
  - destruct (in_or_out i) as [E|Hi]; [lia| |].
    + exists s, F; unfold get_phy_page; rewrite E; destruct (n =? 0), s; by split_and!.
    + destruct (get_phy_book rep _ _ i cached n io Hb Hi) as (b' & r & -> & [[-> ->]|(_ & Hn & Hle & _ & (st & Hst & HF) & Hb')]).
      * exists s, F; by destruct s.
      * eexists _, (set_range F i n (taken io)); split_and!; [reflexivity|split; [done|]|]; cbn [memory fst].
        -- eapply clean_range; try done; try lia; intros w; destruct io; cbn; by case_decide.
        -- eapply set_range_step; try done; try lia; right; left; eauto.
Qed.

(** A capability covers only pages that were handed to the system; these do
    not move any more. *)
Definition owned (st : Z) : Prop := st = page_system_owned \/ st = page_io_system.

Definition held (F : list Z) (c : phy_cap) : Prop := forall p, cap_covers c p = true -> 0 <= p /\ exists st, F !! Z.to_nat p = Some st /\ owned st.

Lemma held_step F F' c : pages_step F F' -> held F c -> held F' c.
Proof.
  intros HS Hc p Hp; destruct (Hc p Hp) as (H0 & st & Hst & Ho); split; [done|]; destruct (Forall2_lookup_l _ _ _ _ _ HS Hst) as (st' & Hst' & Hm).
  exists st'; split; [done|]; destruct Hm as [->|[(io & _ & ->)|[Hd _]]]; [done|unfold owned, taken; destruct io; auto|].
  subst st; by destruct Ho.
Qed.

Lemma cap_covers_range i n (cached io : bool) p : 0 <= i -> 0 < n -> i + n <= TOTAL_PHY_PAGES ->
  cap_covers (mk_cap (i * 4096 + (if cached then PHY_MEM_START_CACHED else PHY_MEM_START_UNCACHED)) (n * 4096) io) p = true -> i <= p < i + n.
Proof.
  rewrite total_val; intros Hi Hn Hle; unfold cap_covers; cbn [cap_base cap_length].
  assert ((i * 4096 + (if cached then PHY_MEM_START_CACHED else PHY_MEM_START_UNCACHED) - PHY_MEM_START_UNCACHED) mod 2 ^ 36 = i * 4096) as ->.
  { symmetry; destruct cached; [apply Z.mod_unique with 1|apply Z.mod_unique with 0]; unfold PHY_MEM_START_CACHED, PHY_MEM_START_UNCACHED; lia. }
  rewrite andb_true_iff, Z.leb_le, Z.ltb_lt; lia.
Qed.

Definition acts_ok (s : phys * list phy_cap) (F : list Z) : Prop := phys_ok s.1 F /\ Forall (held F) s.2.

Lemma acts_step s F p F' : acts_ok s F -> phys_ok p F' -> pages_step F F' -> acts_ok (p, s.2) F'.
Proof. intros [_ HC] HP HS; split; [done|]; eapply Forall_impl; [exact HC|]; intros c; by apply held_step. Qed.

Lemma get_act_ok rep s F i cached n io : acts_ok s F -> args_ok (GetPhy i cached n io) ->
  exists s' F', act rep s (Call (GetPhy i cached n io)) = Some s' /\ acts_ok s' F' /\ pages_step F F'.
Proof.
  intros Hs Hi; pose proof Hs as [[Hb Hc] HC]; pose proof (book_length _ _ Hb) as HL; pose proof (pages_step_refl F) as HR; cbn [act]; destruct s as [[b m] cs]; cbn [fst snd the_book memory] in *.
  destruct (in_or_out i Hi) as [E|Hi']; [unfold get_phy_page; rewrite E; exists (mk_phys b m, cs), F; destruct (n =? 0); done|].
  destruct (get_phy_book rep b F i cached n io Hb Hi') as (b' & r & -> & [[-> ->]|(Er & Hn & Hle & _ & (st & Hst & HF) & Hb')]); cbn [mbind option_bind]; [by exists (mk_phys b m, cs), F|].
  assert (HS : pages_step F (set_range F i n (taken io))) by (eapply set_range_step; try done; try lia; right; left; eauto).
  eexists _, (set_range F i n (taken io)); split; [reflexivity|split; [|done]]; split; cbn [fst snd].
  - split; [done|]; eapply clean_range; try done; try lia; intros w; destruct io; cbn; by case_decide.
  - apply Forall_app; split; [|eapply Forall_impl; [exact HC|]; intros c; by apply held_step]; subst r; cbv zeta; destruct_if; [|done]; apply Forall_singleton; intros p Hcov.
    apply cap_covers_range in Hcov; [|lia..]; split; [lia|]; exists (taken io); rewrite set_range_lookup, decide_True by lia; split; [done|]; unfold owned, taken; destruct io; auto.
Qed.

Lemma act_run rep s F a : acts_ok s F -> act_ok a -> exists s' F', act rep s a = Some s' /\ acts_ok s' F' /\ pages_step F F'.
Proof.
  intros Hs Ha; pose proof Hs as [HP HC]; destruct a as [c|w v]; cbn [act_ok] in Ha.
  - destruct c; try by apply get_act_ok.
    all: destruct (exec_ok rep s.1 F _ HP Ha) as (p & F' & E & HP' & HS); exists (p, s.2), F'; cbn [act]; rewrite E; split; [done|split; [by eapply acts_step|done]].
  - cbn [act]; destruct (existsb _ _) eqn:Ex; [|exists s, F; split; [done|split; [done|apply pages_step_refl]]]; eexists _, F; split; [reflexivity|split; [|apply pages_step_refl]].
    split; [|done]; destruct HP as [Hb Hc]; split; [done|]; intros x Hx H0; cbn [fst memory]; destruct (decide (w = x)) as [->|]; [|rewrite lookup_insert_ne by done; by apply Hc].
    apply existsb_exists in Ex as (c & Hin & Hcov); rewrite Forall_forall in HC; destruct (HC c ltac:(by apply list_elem_of_In) _ Hcov) as (_ & st & Hst & Ho); rewrite Hx in Hst; injection Hst as <-; by destruct Ho.
Qed.

Lemma run_acts_ok rep l : forall s F, acts_ok s F -> Forall act_ok l ->
  exists s' F', run_acts rep s l = Some s' /\ acts_ok s' F' /\ rtc pages_step F F'.
Proof.
  induction l as [|a l IH]; intros s F H Ha; [by exists s, F|].
  apply Forall_cons in Ha as [Hc Ha]; destruct (act_run rep s F a H Hc) as (s1 & F1 & E & H1 & HS).
  destruct (IH s1 F1 H1 Ha) as (s' & F' & E' & H' & HS').
  exists s', F'; cbn; rewrite E; cbn; split_and!; [done|done|by eapply rtc_l].
Qed.

Lemma rtc_pages F F' p st : rtc pages_step F F' -> F !! p = Some st -> exists st', F' !! p = Some st' /\ rtc page_move st st'.
Proof.
  intros H; revert st; induction H as [F|F F1 F' H1 _ IH]; intros st Hp; [by exists st|].
  destruct (Forall2_lookup_l _ _ _ _ _ H1 Hp) as (x & Hx & Hm); destruct (IH x Hx) as (y & Hy & Hr).
  exists y; split; [done|by eapply rtc_l].
Qed.

(** *** The book at boot *)

Definition boot_chunks (a0 : Z) : list chunk :=
  let sys := Z.shiftr a0 PHY_PAGE_SIZE_BITS in
  [(0x80000, page_io_unused); (0x4000, page_nano_owned); (sys, page_system_owned); (0x3c000 - sys, page_dirty)].

Lemma init_book_laid a0 : 4096 <= a0 < PHY_RAM_SIZE - NANO_SIZE -> laid (init_book a0) (boot_chunks a0).
Proof.
  change (PHY_RAM_SIZE - NANO_SIZE) with 1006632960; intros Ha; unfold init_book, boot_chunks.
  change (Z.shiftr IO_SIZE PHY_PAGE_SIZE_BITS) with 0x80000; change (Z.shiftr NANO_SIZE PHY_PAGE_SIZE_BITS) with 0x4000.
  change (Z.shiftr (PHY_RAM_SIZE - NANO_SIZE) PHY_PAGE_SIZE_BITS) with 0x3c000; unfold PHY_PAGE_SIZE_BITS.
  rewrite Z.shiftr_div_pow2 by lia; change (2 ^ 12) with 4096.
  assert (1 <= a0 / 4096 < 245760) as Hs by (split; [apply Z.div_le_lower_bound|apply Z.div_lt_upper_bound]; lia).
  set (sys := a0 / 4096) in *; clearbody sys; rewrite wrap_small by (unfold in_range; lia).
  assert (forall i, ent ∅ i = mk_page_t 0 0 0 0) as H0 by done.
  unfold laid, tail; rewrite total_val; cbn [seg pos lastp fst snd]; unfold chunk_at; cbn [fst snd]; unfold page_transaction.
  unfold sentinel; split_and!; try done; try (by apply live_top); try lia; try (intros i Hi; split);
    (repeat (rewrite ent_upd; case_decide; try (exfalso; lia)); rewrite H0; cbn; done || lia).
Qed.

Lemma last_chunk cs A c b : cs = A ++ [c] -> laid b cs -> last (flat cs) = Some c.2.
Proof. intros -> H; apply flat_last; by destruct (chunk_bounds _ _ _ _ _ H eq_refl) as (_ & ? & _). Qed.

Lemma elem_of_flat x cs : x ∈ flat cs -> exists c, c ∈ cs /\ x = c.2.
Proof.
  intros H; apply list_elem_of_join in H as (l & Hx & Hl); apply list_elem_of_fmap in Hl as (c & -> & Hl).
  apply elem_of_replicate in Hx as [Hx _]; eauto.
Qed.

Lemma boot_ok a0 m : 4096 <= a0 < PHY_RAM_SIZE - NANO_SIZE -> phys_ok (mk_phys (init_book a0) m) (flat (boot_chunks a0)).
Proof.
  intros Ha; pose proof (init_book_laid a0 Ha) as HL; split.
  - exists (boot_chunks a0); split_and!; [done..|].
    rewrite (last_chunk (boot_chunks a0) (take 3 (boot_chunks a0)) _ _ eq_refl HL); done.
  - intros w Hw _; apply list_elem_of_lookup_2, elem_of_flat in Hw as (c & Hl & Hx); exfalso; revert Hx.
    unfold boot_chunks in Hl; repeat (apply elem_of_cons in Hl as [->|Hl]; [done|]); by apply elem_of_nil in Hl.
Qed.

Lemma boot_acts_ok a0 m : 4096 <= a0 < PHY_RAM_SIZE - NANO_SIZE -> a0 mod 4096 = 0 -> acts_ok (boot_phys a0 m) (flat (boot_chunks a0)).
Proof.
  intros Ha Hal; split; [by apply boot_ok|]; apply Forall_singleton; intros p Hcov; pose proof (init_book_laid a0 Ha) as HL.
  pose proof (Z.div_mod a0 4096 ltac:(lia)); assert (1 <= a0 / 4096) by (apply Z.div_le_lower_bound; lia); assert (0x84000 <= p < 0x84000 + a0 / 4096) as Hpr.
  { apply (cap_covers_range 0x84000 (a0 / 4096) true false p); [lia|lia| |].
    - change (PHY_RAM_SIZE - NANO_SIZE) with 1006632960 in Ha; rewrite total_val; lia.
    - replace (a0 / 4096 * 4096) with a0 by lia; exact Hcov. }
  split; [lia|]; exists page_system_owned; split; [|by left].
  assert (boot_chunks a0 = [(0x80000, page_io_unused); (0x4000, page_nano_owned)] ++ (a0 / 4096, page_system_owned) :: [(0x3c000 - a0 / 4096, page_dirty)]) as EB.
  { unfold boot_chunks; by rewrite Z.shiftr_div_pow2 by (unfold PHY_PAGE_SIZE_BITS; lia). }
  rewrite EB in *; eapply flat_range_get; [exact HL|]; cbn [pos fst snd]; lia.
Qed.

(** ** Unchecked arguments *)

(** An empty split leaves a chunk of length zero, and a page number that is
    negative as a signed number reaches outside of the book. *)
Lemma split_empty b A l st B : laid b (A ++ (l, st) :: B) -> st < page_transaction ->
  exists b', split_phy_page_range b (pos 0 A) 0 = Some b' /\ len (ent b' (pos 0 A)) = 0.
Proof.
  intros H Hlive; pose proof (chunk_bounds _ _ _ _ _ H eq_refl) as (Hp & Hl & Ht & Hst & E1 & E2 & E3); cbn in *.
  set (s := pos 0 A) in *; pose proof total_val as TV.
  unfold split_phy_page_range; rewrite sge_small by lia; rewrite (proj2 (Z.leb_gt _ _)) by lia.
  rewrite slot_in, lock_entry_in by lia; cbn [mbind option_bind]; rewrite E1, status_small by lia.
  bk; rewrite ent_upd_eq; cbn [len set_status]; rewrite E2, sge_small, (proj2 (Z.leb_gt _ _)) by lia.
  bk; eexists; split; [reflexivity|]; by ents.
Qed.

End Layout.
