(* ===== verification/Pmem.v ===== *)
(** * Physical memory management (cherios/core/memmgt/src/pmem.c)

    The memory manager's searches over the page book, on top of the
    nanokernel calls of Book.v.  [None] is a failed assertion, an access
    outside of the book or a search that runs out of steps; the theorems show
    that none of them happens.  [CRepresentableAlignmentMask] is an instruction
    of the processor and a parameter. *)

From S2P Require Import Prelude Book.

(** [assert_int_ex] compares signed numbers, [assert] those of the source. *)
Definition assert (c : bool) : option unit := if c then Some tt else None.

Definition PMEM_PRECISE : Z := 1.
Definition PMEM_ALLOW_GREATER : Z := 2.
Definition PMEM_BACKWARDS : Z := 4.

Definition flag (flags f : Z) : bool := negb (Z.land flags f =? 0).

(** Enough steps for a walk over the book. *)
Definition fuel : nat := Z.to_nat (TOTAL_PHY_PAGES + 1).
#[global] Arguments fuel : simpl never.

(** ** Checking the book *)

Fixpoint check_loop (n : nat) (b : book_t) (pagen ppagen : Z) : option Z :=
  if pagen <? BOOK_END then
    match n with
    | O => None
    | S n =>
        e ← bget b pagen;
        _ ← assert (negb (len e =? 0));
        _ ← (if negb (ppagen =? u64 (-1)) then assert (prev e =? ppagen) else Some tt);
        check_loop n b (u64 (pagen + len e)) pagen
    end
  else Some pagen.

Definition pmem_check_book (b : book_t) : option unit :=
  pagen ← check_loop fuel b 0 (u64 (-1));
  assert (pagen =? BOOK_END).

(** ** Merging *)

Definition pmem_try_merge_after (b : book_t) (page_n : Z) : option (book_t * bool) :=
  e ← bget b page_n;
  let after := u64 (page_n + len e) in
  same ← (if negb (after =? BOOK_END) then a ← bget b after; Some (status e =? status a) else Some false);
  if same : bool then
    b ← merge_phy_page_range b page_n;
    a ← bget b after;
    _ ← assert (len a =? 0);
    Some (b, true)
  else Some (b, false).

Definition pmem_try_merge (b : book_t) (page_n : Z) : option (book_t * Z) :=
  _ ← assert (page_n <? TOTAL_PHY_PAGES);
  e ← bget b page_n;
  let before := prev e in
  let after := u64 (page_n + len e) in
  f ← bget b before;
  '(b, page_n) ← (if status f =? status e then
                    b ← merge_phy_page_range b before;
                    e ← bget b page_n;
                    Some (b, if len e =? 0 then before else page_n)
                  else Some (b, page_n));
  e ← bget b page_n;
  same ← (if negb (after =? BOOK_END) then a ← bget b after; Some (status e =? status a) else Some false);
  b ← (if same : bool then merge_phy_page_range b page_n else Some b);
  Some (b, page_n).

Fixpoint condense_loop (n : nat) (b : book_t) (pagen prv prev_status : Z) : option book_t :=
  if pagen =? BOOK_END then Some b
  else
    match n with
    | O => None
    | S n =>
        e ← bget b pagen;
        '(b, prv, prev_status) ← (if status e =? prev_status then
                                    b ← merge_phy_page_range b prv; Some (b, prv, prev_status)
                                  else Some (b, pagen, status e));
        condense_loop n b (u64 (pagen + len e)) prv prev_status
    end.

Definition pmem_condense_book (b : book_t) : option book_t :=
  e ← bget b 0;
  condense_loop fuel b (len e) 0 (status e).

(** ** Splitting *)

Definition pmem_break_page_to (b : book_t) (page_n l : Z) : option book_t :=
  _ ← assert (negb (sge 0 l));
  _ ← assert (negb (sge l TOTAL_PHY_PAGES));
  e ← bget b page_n;
  if len e =? l then Some b
  else if (l <? len e) && negb (l =? 0) then split_phy_page_range b page_n l
  else None.

Fixpoint valid_loop (n : nat) (b : book_t) (page_n search_index : Z) : option Z :=
  match n with
  | O => None
  | S n =>
      e ← bget b search_index;
      if u64 (len e + search_index) <? page_n then valid_loop n b page_n (u64 (search_index + len e))
      else Some search_index
  end.

Definition pmem_get_valid_page_entry (b : book_t) (page_n : Z) : option (book_t * Z) :=
  _ ← assert (negb (sge page_n TOTAL_PHY_PAGES));
  e ← bget b page_n;
  if negb (len e =? 0) then Some (b, page_n)
  else
    search_index ← valid_loop fuel b page_n 0;
    b ← pmem_break_page_to b search_index (u64 (page_n - search_index));
    Some (b, page_n).

(** ** Searching *)

Fixpoint find_loop (n : nat) (b : book_t) (required_len required_type imask : Z) (backwards : bool)
    (search_index : Z) : option Z :=
  if search_index =? (if backwards then 0 else BOOK_END) then Some search_index
  else
    match n with
    | O => None
    | S n =>
        e ← bget b search_index;
        let rounded_index := Z.land (u64 (search_index + imask)) (u64 (Z.lnot imask)) in
        if negb (status e =? required_type) || (len e <? u64 (required_len + (rounded_index - search_index)))
        then find_loop n b required_len required_type imask backwards
               (if backwards then prev e else u64 (search_index + len e))
        else Some search_index
    end.

Section Precision.

Context (CRepresentableAlignmentMask : Z -> Z).

(** The length rounded up and the mask of the alignment. *)
Definition round_cheri_length (length : Z) : Z * Z :=
  let mask_high := CRepresentableAlignmentMask length in
  let mask_low := u64 (Z.lnot mask_high) in
  (Z.land (u64 (length + mask_low)) mask_high, mask_low).

Definition pmem_find_page_type (b : book_t) (required_len required_type flags search_from : Z) : option (book_t * Z) :=
  let precise := flag flags PMEM_PRECISE in
  let allow_greater := flag flags PMEM_ALLOW_GREATER in
  let backwards := flag flags PMEM_BACKWARDS in
  _ ← assert (negb (precise && allow_greater));
  let bytes := u64 (Z.shiftl required_len PHY_PAGE_SIZE_BITS) in
  let pr := if precise then round_cheri_length bytes else (bytes, 0) in
  let imask := Z.shiftr pr.2 PHY_PAGE_SIZE_BITS in
  let required_len := Z.shiftr pr.1 PHY_PAGE_SIZE_BITS in
  search_index ← find_loop fuel b required_len required_type imask backwards search_from;
  if search_index =? (if backwards then 0 else BOOK_END) then Some (b, BOOK_END)
  else if allow_greater then Some (b, search_index)
  else
    e ← bget b search_index;
    let rounded_index :=
      if backwards then u64 (Z.land (u64 (search_index + len e)) (u64 (Z.lnot imask)) - required_len)
      else Z.land (u64 (search_index + imask)) (u64 (Z.lnot imask)) in
    b ← (if negb (rounded_index =? search_index)
         then pmem_break_page_to b search_index (u64 (rounded_index - search_index)) else Some b);
    e ← bget b rounded_index;
    b ← (if negb (len e =? required_len) then pmem_break_page_to b rounded_index required_len else Some b);
    Some (b, rounded_index).

(** ** Handing out physical memory *)

Definition PHY_PAGE_SIZE : Z := Z.shiftl 1 PHY_PAGE_SIZE_BITS.

Definition align_up_to (size align : Z) : Z :=
  let mask := align - 1 in
  Z.land (u64 (size + mask)) (u64 (Z.lnot mask)).

Fixpoint merge_after_loop (n : nat) (b : book_t) (page_n page_len : Z) : option book_t :=
  match n with
  | O => None
  | S n =>
      '(b, merged) ← pmem_try_merge_after b page_n;
      if merged : bool then
        e ← bget b page_n;
        if page_len <=? len e then Some b else merge_after_loop n b page_n page_len
      else Some b
  end.

(** What the caller finds in [result]: null, a bounded capability, bounds set
    on the variable [pair] that was never written, or the exception of the
    nanokernel. *)
Inductive phys_cap_result : Type :=
  | NullCaps
  | PhysCap (base length : Z) (io : bool)
  | Uninitialised
  | NanoFault.

(** The end of the function, with the pages found. *)
Definition hand_out (representable : Z -> Z -> bool) (b : book_t) (page_n page_len base length : Z) (io cached : bool) :
    option (book_t * phys_cap_result) :=
  '(b, out) ← get_phy_page representable b page_n cached page_len io;
  match out with
  | BoundsFault => Some (b, NanoFault)
  | _ =>
      '(b, _) ← pmem_try_merge b page_n;
      let offset := u64 (base - u64 (Z.shiftl page_n PHY_PAGE_SIZE_BITS)) in
      Some (b, match out with
               | Cap c => PhysCap (if negb (base =? 0) && negb (offset =? 0) then u64 (cap_base c + offset)
                                   else cap_base c) length (cap_io c)
               | _ => Uninitialised
               end)
  end.

Definition get_physical_capability (representable : Z -> Z -> bool) (b : book_t) (base length : Z) (io cached : bool) :
    option (book_t * phys_cap_result) :=
  let page_n := Z.shiftr base PHY_PAGE_SIZE_BITS in
  let page_len :=
    Z.shiftr (align_up_to (u64 (length + base - u64 (Z.shiftl page_n PHY_PAGE_SIZE_BITS))) PHY_PAGE_SIZE) PHY_PAGE_SIZE_BITS in
  '(b, found) ←
    (if base =? 0 then
       '(b, page_n) ← pmem_find_page_type b page_len page_unused PMEM_PRECISE 0;
       Some (b, if page_n =? BOOK_END then None else Some page_n)
     else
       '(b, page_n) ← pmem_get_valid_page_entry b page_n;
       e ← bget b page_n;
       b ← (if len e <? page_len then merge_after_loop fuel b page_n page_len else Some b);
       e ← bget b page_n;
       if len e <? page_len then Some (b, None)
       else
         b ← (if page_len <? len e then pmem_break_page_to b page_n page_len else Some b);
         Some (b, Some page_n));
  match found with
  | None => Some (b, NullCaps)
  | Some page_n => hand_out representable b page_n page_len base length io cached
  end.

End Precision.

(** ** The cleaner *)

(** One turn of the loop of [clean_loop]: the state of the loop, and whether
    the thread waits for a notification first. *)
Record cleaner := mk_cleaner { cl_page : Z; cleaned_any : bool }.

Definition clean_turn (s : phys) (c : cleaner) : option (phys * cleaner * bool) :=
  e ← bget (the_book s) (cl_page c);
  let restart := (cl_page c =? BOOK_END) || (len e =? 0) in
  let waits := (cl_page c =? BOOK_END) && negb (cleaned_any c) in
  let c := if restart then mk_cleaner 0 false else c in
  e ← bget (the_book s) (cl_page c);
  '(s, any) ← (if status e =? page_dirty then s ← zero_page_range s (cl_page c); Some (s, true)
               else Some (s, cleaned_any c));
  e ← bget (the_book s) (cl_page c);
  Some (s, mk_cleaner (u64 (cl_page c + len e)) any, restart && waits).

(** ** Masks and rounding *)

Lemma land_wrap x y : in_range 64 x -> Z.land x (u64 y) = Z.land x y.
Proof.
  intros H; unfold wrap; rewrite <- !Z.land_ones by lia.
  rewrite (Z.land_comm y), Z.land_assoc, Z.land_ones by lia; by rewrite Z.mod_small.
Qed.

Lemma mask_off x j : in_range 64 x -> 0 <= j -> Z.land x (u64 (Z.lnot (2 ^ j - 1))) = x - x mod 2 ^ j.
Proof. intros; rewrite land_wrap by done; by apply land_lnot_ones. Qed.

Lemma align_up_to_spec size k : 0 <= k <= 63 -> 0 <= size < 2 ^ 63 -> align_up_to size (2 ^ k) = (size + (2 ^ k - 1)) / 2 ^ k * 2 ^ k.
Proof.
  intros Hk Hs; assert (0 < 2 ^ k <= 2 ^ 63) by (split; [apply Z.pow_pos_nonneg|apply Z.pow_le_mono_r]; lia).
  unfold align_up_to; rewrite wrap_small by (unfold in_range; lia).
  rewrite mask_off by (unfold in_range; lia); pose proof (Z.div_mod (size + (2 ^ k - 1)) (2 ^ k) ltac:(lia)); lia.
Qed.

(** The first multiple of [2 ^ j] not below [x]. *)
Definition up (j x : Z) : Z := (x + (2 ^ j - 1)) / 2 ^ j * 2 ^ j.

Lemma up_spec j x : 0 <= j -> x <= up j x < x + 2 ^ j /\ up j x mod 2 ^ j = 0.
Proof.
  intros Hj; assert (0 < 2 ^ j) by (apply Z.pow_pos_nonneg; lia); unfold up.
  pose proof (Z.div_mod (x + (2 ^ j - 1)) (2 ^ j) ltac:(lia)); pose proof (Z.mod_pos_bound (x + (2 ^ j - 1)) (2 ^ j) ltac:(lia)).
  split; [lia|by apply Z.mod_mul; lia].
Qed.

Lemma up_mask j x : 0 <= j -> 0 <= x -> x + 2 ^ j <= 2 ^ 64 ->
  Z.land (u64 (x + (2 ^ j - 1))) (u64 (Z.lnot (2 ^ j - 1))) = up j x.
Proof.
  intros Hj Hx Hb; assert (0 < 2 ^ j) by (apply Z.pow_pos_nonneg; lia); unfold up.
  rewrite wrap_small, mask_off by (unfold in_range; lia).
  pose proof (Z.div_mod (x + (2 ^ j - 1)) (2 ^ j) ltac:(lia)); lia.
Qed.

Lemma up_0 x : up 0 x = x.
Proof. unfold up; change (2 ^ 0) with 1; rewrite Z.div_1_r; lia. Qed.

Section PrecisionProofs.

Context (CRAM : Z -> Z).

(** The instruction gives the mask of an alignment; for a length of [2 ^ 50]
    bytes at most, of at most [2 ^ 50]. *)
Definition cram_ok : Prop := forall l, 0 <= l <= 2 ^ 50 -> exists k, 0 <= k <= 50 /\ CRAM l = 2 ^ 64 - 2 ^ k.

(** The number of pages asked for and the alignment in pages. *)
Lemma round_pages l : cram_ok -> 0 < l <= 2 ^ 38 ->
  exists j, 0 <= j <= 38 /\ Z.shiftr (round_cheri_length CRAM (u64 (Z.shiftl l PHY_PAGE_SIZE_BITS))).2 12 = 2 ^ j - 1 /\
    Z.shiftr (round_cheri_length CRAM (u64 (Z.shiftl l PHY_PAGE_SIZE_BITS))).1 12 = up j l.
Proof.
  intros Hc Hl; unfold PHY_PAGE_SIZE_BITS; rewrite Z.shiftl_mul_pow2, wrap_small by (unfold in_range; lia).
  destruct (Hc (l * 2 ^ 12)) as (k & Hk & E); [lia|]; unfold round_cheri_length; rewrite E; cbn [fst snd].
  assert (0 < 2 ^ k <= 2 ^ 50) as Hp by (split; [apply Z.pow_pos_nonneg|apply Z.pow_le_mono_r]; lia).
  assert (u64 (Z.lnot (2 ^ 64 - 2 ^ k)) = 2 ^ k - 1) as ->.
  { unfold Z.lnot, wrap; symmetry; apply Z.mod_unique with (-1); lia. }
  assert (2 ^ 64 - 2 ^ k = u64 (Z.lnot (2 ^ k - 1))) as ->.
  { unfold Z.lnot, wrap; apply Z.mod_unique with (-1); lia. }
  rewrite up_mask, !Z.shiftr_div_pow2 by lia.
  exists (Z.max 0 (k - 12)); split; [lia|]; destruct (decide (k <= 12)).
  - assert (2 ^ k <= 2 ^ 12) by (apply Z.pow_le_mono_r; lia).
    rewrite Z.max_l, up_0 by lia; split; [apply Z.div_small; lia|].
    destruct (up_spec k (l * 2 ^ 12)) as [Hu _]; [lia|]; symmetry; apply Z.div_unique with (up k (l * 2 ^ 12) - l * 2 ^ 12); lia.
  - rewrite Z.max_r by lia; assert (2 ^ k = 2 ^ (k - 12) * 2 ^ 12) as Ek by (rewrite <- Z.pow_add_r by lia; f_equal; lia).
    assert (0 < 2 ^ (k - 12)) by (apply Z.pow_pos_nonneg; lia); split.
    + rewrite Ek; symmetry; apply Z.div_unique with (2 ^ 12 - 1); lia.
    + unfold up; rewrite Ek, !Z.mul_assoc, Z.div_mul by lia; f_equal.
      replace (l * 2 ^ 12 + (2 ^ (k - 12) * 2 ^ 12 - 1)) with ((2 ^ 12 - 1) + (l + (2 ^ (k - 12) - 1)) * 2 ^ 12) by lia.
      rewrite (Z.mul_comm (2 ^ (k - 12))), <- Z.div_div, Z.div_add by lia; done.
Qed.

End PrecisionProofs.

(** ** Chunks *)

(** The memory manager works on books with only live chunks. *)
Lemma live_chunks_ok : page_transaction <= page_transaction <= page_screwed_the_pooch + 1.
Proof. unfold page_transaction, page_screwed_the_pooch; lia. Qed.

#[local] Instance live_chunks : StatusBound := {| top_status := page_transaction; top_ok := live_chunks_ok |}.

Lemma chunk_live b A c B : laid b (A ++ c :: B) -> 0 <= c.2 < page_transaction.
Proof. intros H; by destruct (chunk_bounds _ _ _ _ _ H eq_refl) as (_ & _ & _ & ? & _). Qed.

Lemma chunks_length b cs : laid b cs -> Z.of_nat (length cs) <= TOTAL_PHY_PAGES.
Proof.
  intros (H & <- & _); assert (forall p s, seg b p s cs -> s + Z.of_nat (length cs) <= pos s cs) as G; [|by specialize (G _ _ H); lia].
  clear H; induction cs as [|c cs IH]; cbn [seg pos length]; intros p s H; [lia|].
  destruct H as [(Hl & _) H]; specialize (IH _ _ H); lia.
Qed.

Lemma pos_snoc A c : pos 0 (A ++ [c]) = pos 0 A + c.1.
Proof. by rewrite pos_app. Qed.

Lemma cons_snoc {X} (A : list X) c B : A ++ c :: B = (A ++ [c]) ++ B.
Proof. by rewrite <- app_assoc. Qed.

Lemma u64_pos b A c B : laid b (A ++ c :: B) -> u64 (pos 0 A + c.1) = pos 0 (A ++ [c]).
Proof.
  intros H; pose proof (chunk_bounds _ _ _ _ _ H eq_refl) as (? & ? & ? & _).
  rewrite pos_snoc; apply u64_in; lia.
Qed.

Lemma bget_chunk b A c B : laid b (A ++ c :: B) -> exists e, bget b (pos 0 A) = Some e /\ status e = c.2 /\ len e = c.1 /\ prev e = lastp 0 0 A.
Proof.
  intros H; pose proof (chunk_bounds _ _ _ _ _ H eq_refl) as (? & ? & ? & ? & ? & ? & ?).
  exists (ent b (pos 0 A)); rewrite bget_in by lia; done.
Qed.

Lemma pos_end b A : laid b A -> pos 0 A = TOTAL_PHY_PAGES.
Proof. by intros (_ & ? & _). Qed.

Lemma pos_lt b A c B : laid b (A ++ c :: B) -> 0 <= pos 0 A < TOTAL_PHY_PAGES.
Proof. intros H; pose proof (chunk_bounds _ _ _ _ _ H eq_refl); lia. Qed.

(** The check of the source accepts every well-formed book. *)
Lemma check_loop_ok b B : forall A n p, laid b (A ++ B) -> (length B <= n)%nat ->
  p = (match A with [] => u64 (-1) | _ => lastp 0 0 A end) -> check_loop n b (pos 0 A) p = Some TOTAL_PHY_PAGES.
Proof.
  induction B as [|c B IH]; intros A n p H Hn Hp.
  { rewrite app_nil_r in H; rewrite (pos_end _ _ H); destruct n; cbn [check_loop]; by rewrite Z.ltb_irrefl. }
  destruct n as [|n]; [cbn in Hn; lia|]; cbn [check_loop]; pose proof (pos_lt _ _ _ _ H) as Hlt.
  rewrite (proj2 (Z.ltb_lt _ _)) by (unfold BOOK_END; lia).
  destruct (bget_chunk _ _ _ _ H) as (e & -> & E1 & E2 & E3); cbn [mbind option_bind]; rewrite E2, E3.
  pose proof (chunk_bounds _ _ _ _ _ H eq_refl) as (_ & Hl & _); rewrite (proj2 (Z.eqb_neq c.1 0)) by lia; cbn [negb assert mbind option_bind].
  rewrite (u64_pos _ _ _ _ H).
  assert ((if negb (p =? u64 (-1)) then assert (lastp 0 0 A =? p) else Some tt) = Some tt) as ->.
  { destruct A; subst p; [done|]; rewrite Z.eqb_refl; by case_match. }
  cbn [mbind option_bind]; apply IH; [by rewrite <- cons_snoc|cbn in Hn; lia|].
  rewrite lastp_app; by destruct A.
Qed.

Lemma fuel_enough b cs : laid b cs -> (length cs < fuel)%nat.
Proof. intros H; pose proof (chunks_length _ _ H); unfold fuel; lia. Qed.

Lemma check_book_ok b cs : laid b cs -> pmem_check_book b = Some tt.
Proof.
  intros H; unfold pmem_check_book; change 0 with (pos 0 []).
  rewrite (check_loop_ok b cs []); [cbn; by rewrite Z.eqb_refl|done|pose proof (fuel_enough _ _ H); lia|done].
Qed.

(** *** Splitting a chunk *)

Definition cut (l n st : Z) (B : list chunk) : list chunk := if decide (n = l) then B else (l - n, st) :: B.

Lemma flat_cut A l n st B : 0 < n <= l -> flat (A ++ (n, st) :: cut l n st B) = flat (A ++ (l, st) :: B).
Proof.
  intros; unfold cut; case_decide; [by subst|]; rewrite !flat_app; f_equal.
  change (?a :: ?c :: B) with ([a; c] ++ B); change ((l, st) :: B) with ([(l, st)] ++ B).
  by rewrite !flat_app, flat_split by lia.
Qed.

Lemma break_laid b A l st B n : laid b (A ++ (l, st) :: B) -> 0 < n <= l -> n < TOTAL_PHY_PAGES ->
  exists b', pmem_break_page_to b (pos 0 A) n = Some b' /\ laid b' (A ++ (n, st) :: cut l n st B).
Proof.
  intros H Hn Ht; pose proof total_val; unfold pmem_break_page_to.
  rewrite !sge_small, !(proj2 (Z.leb_gt _ _)) by lia; cbn [negb assert mbind option_bind].
  destruct (bget_chunk _ _ _ _ H) as (e & -> & E1 & E2 & E3); cbn in E2 |- *; rewrite E2; unfold cut.
  case_decide; [subst; rewrite Z.eqb_refl; eauto|].
  rewrite (proj2 (Z.eqb_neq _ _)), (proj2 (Z.ltb_lt _ _)), (proj2 (Z.eqb_neq n 0)) by lia; cbn [negb andb].
  apply split_laid; [done|by apply chunk_live in H as [_ H]|lia].
Qed.

(** ** Searching *)

Section Search.

Context (b : book_t) (cs : list chunk) (rl rt j : Z).
Context (HL : laid b cs) (Hrl : 0 < rl < 2 ^ 40) (Hj : 0 <= j <= 38) (Hrt : rt <> page_nano_owned).

(** A chunk at page [s] has the type, and room for the pages once aligned. *)
Definition fits (s : Z) (c : chunk) : Prop := c.2 = rt /\ rl + (up j s - s) <= c.1.

Lemma fits_test s c : 0 <= s <= TOTAL_PHY_PAGES -> 0 <= c.1 <= TOTAL_PHY_PAGES ->
  negb (c.2 =? rt) || (c.1 <? u64 (rl + (Z.land (u64 (s + (2 ^ j - 1))) (u64 (Z.lnot (2 ^ j - 1))) - s))) = false <-> fits s c.
Proof.
  intros Hs Hc; assert (0 < 2 ^ j <= 2 ^ 38) by (split; [apply Z.pow_pos_nonneg|apply Z.pow_le_mono_r]; lia).
  rewrite total_val in *; rewrite up_mask by lia; destruct (up_spec j s) as [Hu _]; [lia|].
  rewrite wrap_small by (unfold in_range; lia); unfold fits.
  rewrite orb_false_iff, negb_false_iff, Z.eqb_eq, Z.ltb_ge; tauto.
Qed.

Lemma find_forward B : forall A n, cs = A ++ B -> (length B <= n)%nat ->
  exists r, find_loop n b rl rt (2 ^ j - 1) false (pos 0 A) = Some r /\
    (r = BOOK_END /\ (forall B1 c B2, B = B1 ++ c :: B2 -> ~ fits (pos 0 (A ++ B1)) c) \/
     exists B1 c B2, B = B1 ++ c :: B2 /\ r = pos 0 (A ++ B1) /\ fits r c /\ forall X d Y, B1 = X ++ d :: Y -> ~ fits (pos 0 (A ++ X)) d).
Proof.
  induction B as [|c B IH]; intros A n E Hn.
  { rewrite app_nil_r in E; subst; rewrite (pos_end _ _ HL); exists BOOK_END; destruct n; cbn [find_loop]; rewrite Z.eqb_refl;
      (split; [done|left; split; [done|]]; intros [|? ?] ? ? ?; done). }
  destruct n as [|n]; [cbn in Hn; lia|]; cbn [find_loop]; rewrite E in HL; pose proof (pos_lt _ _ _ _ HL).
  rewrite (proj2 (Z.eqb_neq _ BOOK_END)) by (unfold BOOK_END; lia).
  destruct (bget_chunk _ _ _ _ HL) as (e & -> & E1 & E2 & E3); cbn [mbind option_bind]; rewrite E1, E2.
  pose proof (chunk_bounds _ _ _ _ _ HL eq_refl) as (_ & Hl & Hle & _).
  pose proof (fits_test (pos 0 A) c ltac:(lia) ltac:(lia)) as HF; destruct (negb _ || _).
  - rewrite (u64_pos _ _ _ _ HL); destruct (IH (A ++ [c]) n) as (r & -> & Hr); [by rewrite <- cons_snoc|cbn in Hn; lia|].
    exists r; split; [done|]; destruct Hr as [[-> Hno]|(B1 & d & B2 & -> & -> & Hf & Hno)].
    + left; split; [done|]; intros [|x B1] d B2 HB; cbn in HB; simplify_eq.
      * rewrite app_nil_r; intros HF'; by apply HF in HF'.
      * rewrite (cons_snoc A x B1); by eapply Hno.
    + right; exists (c :: B1), d, B2; rewrite (cons_snoc A c B1); split_and!; try done.
      intros [|x X] d' Y HB; cbn in HB; simplify_eq; [rewrite app_nil_r; intros HF'; by apply HF in HF'|rewrite (cons_snoc A x X); by eapply Hno].
  - eexists; split; [done|right]; exists [], c, B; rewrite app_nil_r; split_and!; try done; [by apply HF|by intros [|? ?]].
Qed.

Lemma pos_snoc_last A a : lastp 0 0 (A ++ [a]) = pos 0 A.
Proof. by rewrite lastp_app. Qed.

Lemma find_backward A : forall C n, cs = A ++ C -> (length A < n)%nat ->
  exists r, find_loop n b rl rt (2 ^ j - 1) true (pos 0 A) = Some r /\
    (r = 0 /\ (forall A1 c C1, cs = A1 ++ c :: C1 -> (length A1 <= length A)%nat -> A1 <> [] -> ~ fits (pos 0 A1) c) \/
     exists A1 c C1, cs = A1 ++ c :: C1 /\ r = pos 0 A1 /\ r <= pos 0 A /\ A1 <> [] /\ fits r c).
Proof.
  induction A as [|a A IH] using rev_ind; intros C n E Hn.
  { destruct n; cbn; (eexists; split; [done|left; split; [done|]]; intros [|? ?] ? ? ? ? ?; cbn in *; [done|lia]). }
  destruct n as [|n]; [lia|]; cbn [find_loop]; pose proof (seg_pos b 0 0 A) as Hp.
  assert (0 <= pos 0 A /\ 0 < a.1 /\ pos 0 (A ++ [a]) <= TOTAL_PHY_PAGES) as (Hp0 & Ha & Hle).
  { pose proof HL as HL'; rewrite E, <- cons_snoc in HL'; pose proof (chunk_bounds _ _ _ _ _ HL' eq_refl); rewrite pos_snoc; lia. }
  rewrite pos_snoc in Hle |- *; rewrite (proj2 (Z.eqb_neq _ 0)), bget_in by lia; cbn [mbind option_bind].
  assert (prev (ent b (pos 0 A + a.1)) = pos 0 A) as ->.
  { pose proof HL as HL'; rewrite E in HL'; apply tail_app in HL' as [_ HL']; rewrite pos_snoc, pos_snoc_last in HL'.
    destruct C as [|c C]; cbn in HL'; [destruct HL' as (_ & Hpos & _ & _ & ?); cbn in Hpos; by rewrite Hpos|].
    destruct HL' as [[(_ & _ & _ & _ & ? & _) _] _]; done. }
  pose proof (fits_test (pos 0 A + a.1) (len (ent b (pos 0 A + a.1)), status (ent b (pos 0 A + a.1)))) as HF; cbn [fst snd] in HF.
  assert (forall A1 c C1, cs = A1 ++ c :: C1 -> length A1 = length (A ++ [a]) -> C = c :: C1) as Hsplit.
  { intros A1 c C1 E' HA; rewrite E in E'; apply app_inj_1 in E' as [_ ->]; done. }
  destruct (negb _ || _).
  - destruct (IH ([a] ++ C) n) as (r & -> & Hr); [by rewrite app_assoc|rewrite length_app in Hn; cbn in Hn; lia|].
    exists r; split; [done|]; destruct Hr as [[-> Hno]|(A1 & c & C1 & ? & ? & ? & ?)]; [left|right; exists A1, c, C1; split_and!; tauto || lia].
    split; [done|]; intros A1 c C1 E' HA1 Hne; destruct (decide (length A1 = length (A ++ [a]))) as [HA|]; [|apply (Hno _ _ _ E'); [rewrite length_app in *; cbn in *; lia|done]].
    specialize (Hsplit _ _ _ E' HA); subst C; rewrite E in E'; apply app_inj_1 in E' as [<- _]; [|done].
    pose proof HL as HL'; rewrite E in HL'; pose proof (chunk_bounds _ _ _ _ _ HL' eq_refl) as (? & ? & ? & _ & E1 & E2 & _).
    rewrite pos_snoc in *; rewrite E1, E2 in HF; intros Hf; assert (0 <= c.1 <= TOTAL_PHY_PAGES) by lia.
    destruct c; destruct (HF ltac:(lia) ltac:(lia)) as [_ G]; by specialize (G Hf).
  - eexists; split; [done|right]; destruct C as [|c C].
    { exfalso; rewrite app_nil_r in E; pose proof HL as (_ & Hpos & Hs & Hlen & _); rewrite E, pos_snoc in Hpos.
      rewrite Hpos, Hs, Hlen in HF; destruct (HF ltac:(lia) ltac:(rewrite total_val; lia)) as [[G _] _]; [done|by apply Hrt]. }
    exists (A ++ [a]), c, C; rewrite pos_snoc; split_and!; try done; [by destruct A|].
    pose proof HL as HL'; rewrite E in HL'; pose proof (chunk_bounds _ _ _ _ _ HL' eq_refl) as (? & ? & ? & _ & E1 & E2 & _).
    rewrite pos_snoc in *; rewrite E1, E2 in HF; apply HF; [lia|lia|done].
Qed.

End Search.

(** The book says that the pages have the statuses [F] and that a chunk of
    [l] pages of status [st] starts at page [r]. *)
Definition chunk_is (b : book_t) (F : list Z) (r l st : Z) : Prop :=
  exists A B, laid b (A ++ (l, st) :: B) /\ flat (A ++ (l, st) :: B) = F /\ pos 0 A = r.

(** Cutting [l] pages from page [r] on out of a chunk. *)
Lemma carve b F s l st r n : chunk_is b F s l st -> s <= r -> 0 < n -> r + n <= s + l ->
  exists b1 b2, (if negb (r =? s) then pmem_break_page_to b s (u64 (r - s)) else Some b) = Some b1 /\
    (e ← bget b1 r; if negb (len e =? n) then pmem_break_page_to b1 r n else Some b1) = Some b2 /\
    chunk_is b2 F r n st.
Proof.
  intros (A & B & HL & <- & <-) Hr Hn Hle; pose proof (chunk_bounds _ _ _ _ _ HL eq_refl) as (H0 & Hl & Ht & _); cbn in *.
  pose proof total_val as TV.
  assert (exists b1 A1 l1 B1, (if negb (r =? pos 0 A) then pmem_break_page_to b (pos 0 A) (u64 (r - pos 0 A)) else Some b) = Some b1 /\
    laid b1 (A1 ++ (l1, st) :: B1) /\ pos 0 A1 = r /\ flat (A1 ++ (l1, st) :: B1) = flat (A ++ (l, st) :: B) /\ n <= l1)
    as (b1 & A1 & l1 & B1 & -> & HL1 & <- & HF1 & Hl1).
  { destruct (r =? pos 0 A) eqn:E; [apply Z.eqb_eq in E; subst; exists b, A, l, B; split_and!; try done; lia|apply Z.eqb_neq in E].
    rewrite u64_in by lia; destruct (break_laid _ _ _ _ _ (r - pos 0 A) HL) as (b1 & -> & HL1); [lia|lia|].
    pose proof (flat_cut A l (r - pos 0 A) st B ltac:(lia)) as Hc; unfold cut in *; rewrite decide_False in * by lia.
    eexists b1, (A ++ [(r - pos 0 A, st)]), _, B; split_and!; [done|by rewrite <- cons_snoc|rewrite pos_snoc; cbn; lia|by rewrite <- cons_snoc|lia]. }
  exists b1; pose proof (chunk_bounds _ _ _ _ _ HL1 eq_refl) as (H01 & _ & Ht1 & _); cbn in *.
  destruct (bget_chunk _ _ _ _ HL1) as (e & -> & _ & E2 & _); cbn in E2 |- *; rewrite E2.
  destruct (l1 =? n) eqn:E; cbn [negb]; [apply Z.eqb_eq in E; subst; exists b1; split_and!; [done..|by exists A1, B1]|apply Z.eqb_neq in E].
  destruct (break_laid _ _ _ _ _ n HL1) as (b2 & -> & HL2); [lia|lia|].
  exists b2; split_and!; [done..|]; exists A1, (cut l1 n st B1); split_and!; [done| |done]; rewrite flat_cut by lia; done.
Qed.

(** The last aligned place for [rl] pages in a chunk they fit in. *)
Lemma last_place j rl s l : 0 <= j -> rl mod 2 ^ j = 0 -> rl + (up j s - s) <= l ->
  s <= s + l - (s + l) mod 2 ^ j - rl /\ (s + l - (s + l) mod 2 ^ j - rl) mod 2 ^ j = 0 /\
  s + l - (s + l) mod 2 ^ j <= s + l.
Proof.
  intros Hj Hrl Hf; assert (0 < 2 ^ j) by (apply Z.pow_pos_nonneg; lia).
  destruct (up_spec j s Hj) as [Hu Hm]; pose proof (Z.mod_pos_bound (s + l) (2 ^ j) ltac:(lia)).
  apply Z.mod_divide in Hrl as [p Hp], Hm as [q Hq]; [|lia..]; pose proof (Z.div_mod (s + l) (2 ^ j) ltac:(lia)) as Hd.
  set (m := (s + l) / 2 ^ j) in *; assert (p + q <= m) by (apply Z.lt_succ_r, (Z.mul_lt_mono_pos_r (2 ^ j)); lia).
  assert (s + l - (s + l) mod 2 ^ j - rl = (m - p) * 2 ^ j) as -> by lia; split_and!; [|by apply Z.mod_mul; lia|lia].
  assert (q * 2 ^ j <= (m - p) * 2 ^ j) by (apply Z.mul_le_mono_nonneg_r; lia); lia.
Qed.

(** The chunks a search looks at: all from the start on, or all from the start
    down but the first. *)
Definition searched (backwards : bool) (from : Z) (A : list chunk) : Prop :=
  if backwards then pos 0 A <= from /\ A <> [] else from <= pos 0 A.

Lemma pos_mono b A A' B B' : laid b (A ++ B) -> A ++ B = A' ++ B' -> pos 0 A' <= pos 0 A -> (length A' <= length A)%nat.
Proof.
  intros H E Hp; destruct (decide (length A' <= length A)%nat); [done|exfalso].
  assert (exists c D, A' = A ++ c :: D) as (c & D & ->).
  { apply app_eq_inv in E as [(k & -> & ->)|(k & -> & ->)]; [rewrite length_app in *; lia|].
    destruct k as [|c D]; [rewrite app_nil_r in *; lia|by exists c, D]. }
  rewrite <- app_assoc in E; apply app_inv_head in E; subst B; apply tail_app in H as [_ H]; cbn in H.
  destruct H as ([(Hc & _) Hs] & _); rewrite pos_app in Hp; cbn in Hp; apply seg_app in Hs as [Hs _]; pose proof (seg_pos _ _ _ _ Hs); lia.
Qed.

Lemma find_loop_ok b cs rl rt j backwards A B : laid b cs -> 0 < rl < 2 ^ 40 -> 0 <= j <= 38 -> rt <> page_nano_owned -> cs = A ++ B ->
  exists r, find_loop fuel b rl rt (2 ^ j - 1) backwards (pos 0 A) = Some r /\
    ((r =? (if backwards then 0 else BOOK_END)) = true /\
      (forall A1 c B1, cs = A1 ++ c :: B1 -> searched backwards (pos 0 A) A1 -> ~ fits rl rt j (pos 0 A1) c) \/
     (r =? (if backwards then 0 else BOOK_END)) = false /\
      exists A1 c B1, cs = A1 ++ c :: B1 /\ searched backwards (pos 0 A) A1 /\ r = pos 0 A1 /\ fits rl rt j r c).
Proof.
  intros HL Hrl Hj Hrt ->; pose proof (fuel_enough _ _ HL) as Hf; rewrite length_app in Hf; destruct backwards.
  - destruct (find_backward b _ rl rt j HL Hrl Hj Hrt A B fuel eq_refl ltac:(lia)) as (r & -> & [[-> Hno]|(A1 & c & C1 & E & -> & Hle & Hne & Hfit)]);
      (eexists; split; [done|]).
    + left; split; [done|]; intros A1 c B1 E [Hs Hne]; eapply Hno; [done| |done]; by eapply pos_mono.
    + right; assert (laid b (A1 ++ c :: C1)) as HL1 by (by rewrite <- E).
      split; [|by exists A1, c, C1].
      apply Z.eqb_neq; destruct A1 as [|a A1]; [done|]; pose proof (seg_pos b a.1 a.1 A1) as Hp.
        apply tail_app in HL1 as [[(Ha & _) Hs] _]; cbn in *; pose proof (seg_pos _ _ _ _ Hs); lia.
  - destruct (find_forward b _ rl rt j HL Hrl Hj B A fuel eq_refl ltac:(lia)) as (r & -> & [[-> Hno]|(B1 & c & B2 & -> & -> & Hfit & _)]);
      (eexists; split; [done|]).
    + left; split; [apply Z.eqb_refl|]; intros A1 c B1 E Hs; cbn in Hs.
      assert (length A <= length A1)%nat as Hlen by (rewrite E in HL; by eapply (pos_mono b A1 A)).
      apply app_eq_inv in E as [(k & -> & E)|(k & -> & ->)]; [|by eapply Hno].
      destruct k as [|x k]; [|rewrite length_app in Hlen; cbn in Hlen; lia].
      rewrite app_nil_r in *; cbn in E; subst B; specialize (Hno [] c B1 eq_refl); by rewrite app_nil_r in Hno.
    + right; split; [apply Z.eqb_neq; rewrite app_assoc in HL; pose proof (pos_lt _ _ _ _ HL); unfold BOOK_END; lia|].
      exists (A ++ B1), c, B2; split_and!; [by rewrite app_assoc| |done|done].
      cbn; rewrite pos_app; apply tail_app in HL as [_ (Hs & _)]; apply seg_app in Hs as [Hs _]; by eapply seg_pos.
Qed.

(** The answer of a search for [L] pages of type [rt] from page [from] on, with
    pages in groups of [2 ^ j]. *)
Definition find_answer (b : book_t) (cs : list chunk) (L rt j flags from : Z) (b' : book_t) (r : Z) : Prop :=
  (r = BOOK_END /\ b' = b /\
     forall A c B, cs = A ++ c :: B -> searched (flag flags PMEM_BACKWARDS) from A -> ~ fits (up j L) rt j (pos 0 A) c) \/
  (flag flags PMEM_ALLOW_GREATER = true /\ b' = b /\ exists l, chunk_is b (flat cs) r l rt /\ L <= l) \/
  (flag flags PMEM_ALLOW_GREATER = false /\ chunk_is b' (flat cs) r (up j L) rt /\ r mod 2 ^ j = 0).

Lemma find_page_ok CRAM b cs A B L rt flags : cram_ok CRAM -> laid b cs -> cs = A ++ B -> 0 < L <= 2 ^ 38 ->
  rt <> page_nano_owned -> flag flags PMEM_PRECISE && flag flags PMEM_ALLOW_GREATER = false ->
  exists j b' r, 0 <= j <= 38 /\ pmem_find_page_type CRAM b L rt flags (pos 0 A) = Some (b', r) /\
    2 ^ j - 1 = (if flag flags PMEM_PRECISE then Z.shiftr (round_cheri_length CRAM (L * 4096)).2 12 else 0) /\
    find_answer b cs L rt j flags (pos 0 A) b' r.
Proof.
  intros HC HL E HLr Hrt Hfl; pose proof total_val as TV; unfold pmem_find_page_type; rewrite Hfl; cbn [negb assert mbind option_bind].
  assert (u64 (Z.shiftl L PHY_PAGE_SIZE_BITS) = L * 4096) as Eb
    by (unfold PHY_PAGE_SIZE_BITS; rewrite Z.shiftl_mul_pow2 by lia; apply wrap_small; unfold in_range; lia).
  set (pr := if flag flags PMEM_PRECISE then _ else _).
  assert (exists j, 0 <= j <= 38 /\ Z.shiftr pr.2 PHY_PAGE_SIZE_BITS = 2 ^ j - 1 /\ Z.shiftr pr.1 PHY_PAGE_SIZE_BITS = up j L /\
    2 ^ j - 1 = (if flag flags PMEM_PRECISE then Z.shiftr (round_cheri_length CRAM (L * 4096)).2 12 else 0)) as (j & Hj & -> & -> & Hal).
  { unfold pr; destruct (flag flags PMEM_PRECISE).
    - destruct (round_pages CRAM L HC HLr) as (j & Hj & E1 & E2); exists j; rewrite Eb in E1, E2 |- *; by rewrite <- E1.
    - exists 0; rewrite Eb; cbn [fst snd]; unfold PHY_PAGE_SIZE_BITS; rewrite up_0, !Z.shiftr_div_pow2 by lia.
      change (2 ^ 12) with 4096; by rewrite Z.div_mul by lia. }
  destruct (up_spec j L ltac:(lia)) as [Hu Hum]; assert (0 < 2 ^ j <= 2 ^ 38) by (split; [apply Z.pow_pos_nonneg|apply Z.pow_le_mono_r]; lia).
  clear pr; destruct (find_loop_ok b cs (up j L) rt j (flag flags PMEM_BACKWARDS) A B HL) as (s & -> & Hs); [lia|lia|done|done|].
  cbn [mbind option_bind]; destruct Hs as [[-> Hno]|(-> & A1 & c & B1 & E1 & _ & -> & Hfit)].
  { exists j; do 2 eexists; split_and!; [lia..|done|done|]; by left. }
  rewrite E1 in HL; pose proof (chunk_bounds _ _ _ _ _ HL eq_refl) as (H0 & Hl & Ht & _); destruct c as [l st], Hfit as [Est Hroom]; cbn in *; subst st.
  assert (chunk_is b (flat cs) (pos 0 A1) l rt) as HC1 by (exists A1, B1; by rewrite E1).
  destruct (up_spec j (pos 0 A1) ltac:(lia)) as [Hu1 Hum1].
  destruct (flag flags PMEM_ALLOW_GREATER) eqn:Eg.
  { exists j, b, (pos 0 A1); split_and!; [lia..|done|done|]; right; left; split_and!; [done..|]; exists l; split; [done|lia]. }
  destruct (bget_chunk _ _ _ _ HL) as (e & -> & _ & El & _); cbn [mbind option_bind fst] in *; rewrite El.
  assert (exists r, (if flag flags PMEM_BACKWARDS then u64 (Z.land (u64 (pos 0 A1 + l)) (u64 (Z.lnot (2 ^ j - 1))) - up j L)
      else Z.land (u64 (pos 0 A1 + (2 ^ j - 1))) (u64 (Z.lnot (2 ^ j - 1)))) = r /\ pos 0 A1 <= r /\ r + up j L <= pos 0 A1 + l /\ r mod 2 ^ j = 0)
    as (r & -> & Hr1 & Hr2 & Hr3).
  { destruct (flag flags PMEM_BACKWARDS); eexists; (split; [done|]).
    - destruct (last_place j (up j L) (pos 0 A1) l) as (P1 & P2 & P3); [lia|done|done|].
      rewrite (u64_in (pos 0 A1 + l)), mask_off by (unfold in_range; lia); rewrite u64_in by lia; split_and!; [lia|lia|done].
    - rewrite up_mask by lia; split_and!; [lia|lia|done]. }
  destruct (carve b _ _ _ _ r (up j L) HC1) as (b1 & b2 & -> & E2 & HC2); [lia|lia|lia|]; cbn [mbind option_bind].
  destruct (bget b1 r) as [e1|]; [|done]; cbn [mbind option_bind] in E2 |- *; rewrite E2; cbn [mbind option_bind].
  exists j, b2, r; split_and!; [lia..|done|done|]; right; right; by split_and!.
Qed.

(** ** Merging *)

(** A chunk takes in the next one when they have the same status. *)
Definition absorb (c : chunk) (B : list chunk) : list chunk :=
  match B with
  | d :: B' => if decide (d.2 = c.2) then (c.1 + d.1, c.2) :: B' else c :: B
  | [] => [c]
  end.

Definition not_nano (cs : list chunk) : Prop := last (flat cs) <> Some page_nano_owned.

Lemma flat_absorb b A c B : laid b (A ++ c :: B) -> flat (A ++ absorb c B) = flat (A ++ c :: B).
Proof.
  intros H; destruct B as [|d B]; [done|]; cbn; case_decide as E; [|done]; destruct c as [l1 st], d as [l2 st2]; cbn in *; subst st2.
  apply tail_app in H as [_ ([(? & _) [(? & _) _]] & _)]; cbn in *.
  rewrite !flat_app; f_equal; change (?a :: ?c :: B) with ([a; c] ++ B); change (?a :: B) with ([a] ++ B).
  by rewrite !flat_app, flat_merge by lia.
Qed.

Lemma merge_absorb b A c B : laid b (A ++ c :: B) -> not_nano (A ++ c :: B) ->
  exists b', merge_phy_page_range b (pos 0 A) = Some b' /\ laid b' (A ++ absorb c B).
Proof.
  intros H HN; destruct B as [|d B]; cbn.
  - destruct (merge_differ _ _ _ _ H) as (b' & E & Hs); cbn.
    + intros E; apply HN; rewrite E; apply flat_last; by destruct (chunk_bounds _ _ _ _ _ H eq_refl) as (_ & ? & _).
    + exists b'; split; [done|by eapply laid_same].
  - destruct c as [l1 st], d as [l2 st2]; cbn; case_decide as E; [subst; apply merge_laid; [done|by apply chunk_live in H as [_ H]]|].
    destruct (merge_differ _ _ _ _ H) as (b' & E' & Hs); [done|]; exists b'; split; [done|by eapply laid_same].
Qed.

(** Status and length of the entry after a chunk. *)
Lemma after_entry b A c B : laid b (A ++ c :: B) -> exists e, bget b (pos 0 A + c.1) = Some e /\
  status e = match B with [] => page_nano_owned | d :: _ => d.2 end /\
  (pos 0 A + c.1 =? BOOK_END) = match B with [] => true | _ => false end.
Proof.
  intros H; pose proof (chunk_bounds _ _ _ _ _ H eq_refl) as (? & ? & ? & _); exists (ent b (pos 0 A + c.1)).
  rewrite bget_in by lia; split_and!; [done|by apply next_status|].
  destruct B as [|d B]; [apply Z.eqb_eq; rewrite <- pos_snoc; by eapply pos_end|apply Z.eqb_neq].
  rewrite cons_snoc in H; pose proof (pos_lt _ _ _ _ H) as HP; rewrite pos_snoc in HP; unfold BOOK_END; lia.
Qed.

(** The entry of a chunk that has been merged into the one before. *)
Lemma absorbed_entry b' A (c d : chunk) B : laid b' (A ++ (c.1 + d.1, c.2) :: B) -> 0 < c.1 -> 0 < d.1 ->
  exists e, bget b' (pos 0 A + c.1) = Some e /\ len e = 0 /\ status e = page_unused.
Proof.
  intros H Hc Hd; pose proof (chunk_bounds _ _ _ _ _ H eq_refl) as (? & ? & ? & _); cbn in *; exists (ent b' (pos 0 A + c.1)).
  rewrite bget_in by lia; split; [done|].
  apply tail_app in H as [_ ([(_ & _ & _ & _ & _ & Hh) _] & _)]; cbn in Hh; apply Hh; lia.
Qed.

Lemma try_merge_after_ok b A c B : laid b (A ++ c :: B) -> not_nano (A ++ c :: B) ->
  exists b', pmem_try_merge_after b (pos 0 A) = Some (b', match B with d :: _ => bool_decide (d.2 = c.2) | [] => false end) /\
    laid b' (A ++ absorb c B).
Proof.
  intros H HN; unfold pmem_try_merge_after; destruct (bget_chunk _ _ _ _ H) as (e & -> & E1 & E2 & _); cbn [mbind option_bind].
  pose proof (chunk_bounds _ _ _ _ _ H eq_refl) as (? & Hl & ? & _); rewrite E1, E2, u64_in by lia.
  destruct (after_entry _ _ _ _ H) as (a & -> & Ea & ->); cbn [mbind option_bind].
  destruct B as [|d B]; cbn [negb mbind option_bind]; [by exists b|]; rewrite Ea.
  destruct (decide (d.2 = c.2)) as [Ed|Ed].
  - rewrite Ed, Z.eqb_refl, bool_decide_true by done; cbn [mbind option_bind].
    destruct (merge_absorb _ _ _ _ H HN) as (b' & -> & H'); cbn [mbind option_bind]; pose proof H' as H''.
    cbn in H'; rewrite decide_True in H' by done.
    assert (0 < d.1) as Hd by (rewrite cons_snoc in H; by destruct (chunk_bounds _ _ _ _ _ H eq_refl) as (_ & ? & _)).
    destruct (absorbed_entry _ _ _ _ _ H') as (x & -> & Ex & _); [done|done|]; cbn [mbind option_bind]; rewrite Ex; by exists b'.
  - rewrite (proj2 (Z.eqb_neq _ _)), bool_decide_false by done; exists b; split; [done|]; cbn; by rewrite decide_False.
Qed.

(** *** Condensing the book *)

Fixpoint squash (c : chunk) (B : list chunk) : list chunk :=
  match B with
  | [] => [c]
  | d :: B => if decide (d.2 = c.2) then squash (c.1 + d.1, c.2) B else c :: squash d B
  end.

Lemma condense_ok b B : forall A c n, laid b (A ++ c :: B) -> not_nano (A ++ c :: B) -> (length B <= n)%nat ->
  exists b', condense_loop n b (pos 0 A + c.1) (pos 0 A) c.2 = Some b' /\ laid b' (A ++ squash c B) /\
    flat (A ++ squash c B) = flat (A ++ c :: B).
Proof.
  revert b; induction B as [|d B IH]; intros b A c n H HN Hn; destruct (after_entry _ _ _ _ H) as (e & Ee & Es & EB).
  { exists b; destruct n; cbn [condense_loop]; by rewrite EB. }
  destruct n as [|n]; [cbn in Hn; lia|]; cbn [condense_loop squash]; rewrite EB, Ee; cbn [mbind option_bind]; rewrite Es.
  assert (laid b ((A ++ [c]) ++ d :: B)) as H' by (by rewrite <- cons_snoc).
  pose proof (u64_pos _ _ _ _ H') as Eu; destruct (bget_chunk _ _ _ _ H') as (e' & Ee' & _ & El & _).
  rewrite pos_snoc in Ee', Eu; simplify_eq; rewrite El, Eu, !pos_snoc.
  destruct (decide (d.2 = c.2)) as [Ed|Ed].
  - rewrite Ed, Z.eqb_refl; destruct (merge_absorb _ _ _ _ H HN) as (b1 & -> & H1); cbn [mbind option_bind].
    pose proof (flat_absorb _ _ _ _ H) as HF; cbn in H1, HF; rewrite decide_True in H1, HF by done.
    destruct (IH b1 A (c.1 + d.1, c.2) n H1) as (b' & E' & HL & HF'); [unfold not_nano in *; by rewrite HF|cbn in Hn; lia|].
    exists b'; split_and!; [|done|congruence]; rewrite <- E'; cbn; f_equal; lia.
  - rewrite (proj2 (Z.eqb_neq _ _)) by done; cbn [mbind option_bind].
    destruct (IH b (A ++ [c]) d n H') as (b' & E' & HL & HF); [by rewrite <- cons_snoc|cbn in Hn; lia|].
    rewrite pos_snoc in E'; exists b'; split_and!; [done|by rewrite cons_snoc|by rewrite (cons_snoc A c (squash d B)), (cons_snoc A c (d :: B))].
Qed.

(** A condensed book has no two neighbours of the same status. *)
Fixpoint alternating (cs : list chunk) : Prop :=
  match cs with
  | c :: ((d :: _) as cs') => c.2 <> d.2 /\ alternating cs'
  | _ => True
  end.

Lemma squash_head c B : exists l D, squash c B = (l, c.2) :: D.
Proof.
  revert c; induction B as [|d B IH]; intros c; cbn; [exists c.1, []; by destruct c|].
  case_decide; [apply (IH (c.1 + d.1, c.2))|exists c.1; eexists; by destruct c].
Qed.

Lemma squash_alternating c B : alternating (squash c B).
Proof.
  revert c; induction B as [|d B IH]; intros c; cbn; [done|]; case_decide; [apply IH|].
  destruct (squash_head d B) as (l & D & E); specialize (IH d); rewrite E in IH |- *; split; [cbn; congruence|done].
Qed.

Lemma condense_book_ok b cs : laid b cs -> not_nano cs ->
  exists b' cs', pmem_condense_book b = Some b' /\ laid b' cs' /\ flat cs' = flat cs /\ alternating cs'.
Proof.
  intros H HN; destruct cs as [|c B]; [destruct H as (_ & Hp & _); by rewrite total_val in Hp|].
  destruct (bget_chunk b [] c B H) as (e & Ee & E1 & E2 & _); unfold pmem_condense_book; cbn in Ee; rewrite Ee; cbn [mbind option_bind].
  pose proof (fuel_enough _ _ H) as Hf; destruct (condense_ok b B [] c fuel H HN) as (b' & E & HL & HF); [cbn in Hf; lia|].
  cbn [pos] in E; rewrite Z.add_0_l in E; rewrite E1, E2, E; exists b', (squash c B); split_and!; [done..|apply squash_alternating].
Qed.

(** ** Entries inside of chunks *)

Lemma page_in b cs p : laid b cs -> 0 <= p < TOTAL_PHY_PAGES -> exists A c B, cs = A ++ c :: B /\ pos 0 A <= p < pos 0 A + c.1.
Proof.
  intros (H & <- & _); assert (forall q s, seg b q s cs -> s <= p < pos s cs ->
    exists A c B, cs = A ++ c :: B /\ pos s A <= p < pos s A + c.1) as G; [|intros Hp; by apply (G 0 0)].
  clear H; induction cs as [|c cs IH]; cbn [seg pos]; intros q s H Hp; [lia|]; destruct H as [Hc H].
  destruct (decide (p < s + c.1)); [exists [], c, cs; cbn; split; [done|lia]|].
  destruct (IH _ _ H) as (A & d & B & -> & HA); [lia|]; by exists (c :: A), d, B.
Qed.

Lemma valid_loop_ok b p B : forall A c C n, laid b (A ++ B ++ c :: C) -> pos 0 (A ++ B) < p < pos 0 (A ++ B) + c.1 ->
  (length B < n)%nat -> valid_loop n b p (pos 0 A) = Some (pos 0 (A ++ B)).
Proof.
  induction B as [|d B IH]; intros A c C n H Hp Hn; destruct n as [|n]; [lia| |lia|]; cbn [valid_loop].
  - rewrite app_nil_r in *; destruct (bget_chunk _ _ _ _ H) as (e & -> & _ & E2 & _); cbn [mbind option_bind]; rewrite E2.
    pose proof (chunk_bounds _ _ _ _ _ H eq_refl) as (? & ? & ? & _); rewrite u64_in by lia; by rewrite (proj2 (Z.ltb_ge _ _)) by lia.
  - cbn [app] in H; destruct (bget_chunk _ _ _ _ H) as (e & -> & _ & E2 & _); cbn [mbind option_bind]; rewrite E2.
    rewrite (Z.add_comm d.1), (u64_pos _ _ _ _ H).
    assert (pos 0 (A ++ [d]) <= pos 0 (A ++ d :: B)) as Hle.
    { rewrite (cons_snoc A d B), (pos_app _ (A ++ [d])); rewrite (cons_snoc A d) in H; apply tail_app in H as [_ (Hs & _)].
      apply seg_app in Hs as [Hs _]; by eapply seg_pos. }
    rewrite (proj2 (Z.ltb_lt _ _)) by lia; rewrite (cons_snoc A d B) in Hp |- *; eapply IH; [by rewrite <- cons_snoc|done|cbn in Hn; lia].
Qed.

Lemma valid_entry_ok b F p : book_ok b F -> 0 <= p < TOTAL_PHY_PAGES ->
  exists b' l st, pmem_get_valid_page_entry b p = Some (b', p) /\ chunk_is b' F p l st.
Proof.
  intros (cs & H & <- & HN) Hp; pose proof total_val as TV; destruct (page_in _ _ _ H Hp) as (A & [l st] & B & -> & Hin).
  unfold pmem_get_valid_page_entry; rewrite sge_small, (proj2 (Z.leb_gt _ _)), bget_in by lia; cbn [negb assert mbind option_bind].
  pose proof (chunk_bounds _ _ _ _ _ H eq_refl) as (H0 & Hl & Ht & _ & _ & E2 & _); cbn in *.
  destruct (decide (p = pos 0 A)) as [->|Hne].
  { rewrite E2, (proj2 (Z.eqb_neq _ _)) by lia; exists b, l, st; split; [done|by exists A, B]. }
  assert (len (ent b p) = 0) as ->.
  { apply tail_app in H as [_ ([(_ & _ & _ & _ & _ & Hh) _] & _)]; apply Hh; cbn; lia. }
  cbn [Z.eqb negb]; pose proof (fuel_enough _ _ H) as Hf; rewrite length_app in Hf.
  pose proof (valid_loop_ok b p A [] (l, st) B fuel H ltac:(cbn; lia) ltac:(lia)) as EV; cbn [pos app] in EV.
  rewrite EV; cbn [mbind option_bind]; rewrite u64_in by lia.
  destruct (break_laid _ _ _ _ _ (p - pos 0 A) H) as (b' & -> & H'); [lia|lia|]; cbn [mbind option_bind].
  pose proof (flat_cut A l (p - pos 0 A) st B ltac:(lia)) as HF; unfold cut in *; rewrite decide_False in * by lia.
  exists b', (l - (p - pos 0 A)), st; split; [done|]; exists (A ++ [(p - pos 0 A, st)]), B.
  rewrite <- cons_snoc, pos_snoc; split_and!; [done|done|cbn; lia].
Qed.

Lemma chunk_merge b F p l st : chunk_is b F p l st -> last F <> Some page_nano_owned ->
  exists b' l', merge_phy_page_range b p = Some b' /\ chunk_is b' F p l' st /\ l <= l'.
Proof.
  intros (A & B & H & <- & <-) HN; destruct (merge_absorb _ _ _ _ H HN) as (b' & -> & H').
  pose proof (flat_absorb _ _ _ _ H) as HF; destruct B as [|d B]; cbn in *.
  - exists b', l; split_and!; [done|by exists A, []|lia].
  - assert (0 < d.1) by (rewrite cons_snoc in H; by destruct (chunk_bounds _ _ _ _ _ H eq_refl) as (_ & ? & _)).
    case_decide; [exists b', (l + d.1)|exists b', l]; (split_and!; [done| |lia]); eexists A, _; by split_and!.
Qed.

Lemma chunk_entry b F p l st : chunk_is b F p l st ->
  exists e, bget b p = Some e /\ status e = st /\ len e = l /\ 0 <= p /\ 0 < l /\ p + l <= TOTAL_PHY_PAGES.
Proof.
  intros (A & B & H & _ & <-); destruct (bget_chunk _ _ _ _ H) as (e & E & E1 & E2 & _); exists e.
  pose proof (chunk_bounds _ _ _ _ _ H eq_refl) as (? & ? & ? & _); done.
Qed.

(** The merge with the chunk before. *)
Lemma merge_before_ok b F p l st e : chunk_is b F p l st -> last F <> Some page_nano_owned -> bget b p = Some e ->
  exists f b1 p1 l1, bget b (prev e) = Some f /\
    (if status f =? status e then
       b ← merge_phy_page_range b (prev e); x ← bget b p; Some (b, if len x =? 0 then prev e else p)
     else Some (b, p)) = Some (b1, p1) /\
    chunk_is b1 F p1 l1 st /\ p1 <= p /\ p + l <= p1 + l1.
Proof.
  intros HC HN Ee; pose proof HC as (A & B & H & HF & Hp); destruct (bget_chunk _ _ _ _ H) as (e' & Ee' & E1 & E2 & E3).
  rewrite Hp, Ee in Ee'; injection Ee' as <-; cbn in *; rewrite E1, E3.
  destruct A as [|a A _] using rev_ind.
  - cbn in Hp; subst p; cbn [lastp]; exists e; destruct (chunk_merge _ _ _ _ _ HC HN) as (b1 & l1 & Em & HC1 & Hl1).
    destruct (chunk_entry _ _ _ _ _ HC1) as (x & Ex & _ & El & _ & Hl & _); exists b1, 0, l1; split_and!; [done| |done|lia|lia].
    rewrite E1, Z.eqb_refl, Em; cbn [mbind option_bind]; rewrite Ex; cbn; rewrite El, (proj2 (Z.eqb_neq _ _)) by lia; done.
  - rewrite pos_snoc_last, <- cons_snoc in *; destruct (bget_chunk _ _ _ _ H) as (f & Ef & F1 & F2 & _); exists f; rewrite F1, Ef.
    rewrite pos_snoc in Hp; destruct (a.2 =? st) eqn:Ea; [apply Z.eqb_eq in Ea|exists b, p, l; split_and!; [done..|lia]].
    rewrite <- HF in HN; destruct (merge_absorb _ _ _ _ H HN) as (b1 & -> & H1); pose proof (flat_absorb _ _ _ _ H) as HF1.
    cbn in H1, HF1; rewrite decide_True in H1, HF1 by done; pose proof (chunk_bounds _ _ _ _ _ H eq_refl) as (_ & Ha & _).
    assert (0 < l) as Hl by (destruct (chunk_entry _ _ _ _ _ HC); tauto).
    destruct (absorbed_entry b1 A a (l, st) B H1) as (x & Ex & Elx & _); [done|done|]; rewrite Hp in Ex; cbn [mbind option_bind].
    rewrite Ex; cbn; rewrite Elx; exists b1, (pos 0 A), (a.1 + l); split_and!; [done..| |lia|lia].
    exists A, B; rewrite <- Ea; split_and!; [done|congruence|done].
Qed.

Lemma try_merge_ok b F p l st : chunk_is b F p l st -> last F <> Some page_nano_owned ->
  exists b' p' l', pmem_try_merge b p = Some (b', p') /\ chunk_is b' F p' l' st /\ p' <= p /\ p + l <= p' + l'.
Proof.
  intros HC HN; destruct (chunk_entry _ _ _ _ _ HC) as (e & Ee & E1 & E2 & H0 & Hl & Ht); unfold pmem_try_merge.
  rewrite (proj2 (Z.ltb_lt _ _)) by lia; cbn [assert mbind option_bind]; rewrite Ee; cbn [mbind option_bind]; rewrite E2, u64_in by lia.
  destruct (merge_before_ok _ _ _ _ _ _ HC HN Ee) as (f & b1 & p1 & l1 & -> & EB & HC1 & Hp1 & Hl1).
  cbn [mbind option_bind] in EB |- *; rewrite EB; clear EB; cbn [mbind option_bind].
  destruct (chunk_entry _ _ _ _ _ HC1) as (x & -> & _); cbn [mbind option_bind].
  rewrite bget_in by lia; destruct (chunk_merge _ _ _ _ _ HC1 HN) as (b2 & l2 & Em & HC2 & Hl2).
  destruct (negb _); cbn [mbind option_bind]; [destruct (_ =? _)|]; rewrite ?Em; cbn [mbind option_bind];
    [exists b2, p1, l2|exists b1, p1, l1|exists b1, p1, l1]; (split_and!; [done|done|lia|lia]).
Qed.

(** ** Handing out physical memory *)

Lemma merge_after_ok b B : forall l st A n m, laid b (A ++ (l, st) :: B) -> not_nano (A ++ (l, st) :: B) -> (length B < n)%nat ->
  exists b' l' B', merge_after_loop n b (pos 0 A) m = Some b' /\ laid b' (A ++ (l', st) :: B') /\
    flat (A ++ (l', st) :: B') = flat (A ++ (l, st) :: B) /\
    (m <= l' \/ match B' with d :: _ => d.2 <> st | [] => True end).
Proof.
  revert b; induction B as [|d B IH]; intros b l st A n m H HN Hn; (destruct n as [|n]; [cbn in Hn; lia|]); cbn [merge_after_loop];
    destruct (try_merge_after_ok _ _ _ _ H HN) as (b1 & -> & H1); pose proof (flat_absorb _ _ _ _ H) as HF; cbn in H1, HF |- *.
  - exists b1, l, []; split_and!; try done; by right.
  - destruct (decide (d.2 = st)) as [Ed|Ed]; [rewrite bool_decide_true by done|rewrite bool_decide_false by done].
    2:{ exists b1, l, (d :: B); split_and!; try done; by right. }
    destruct (bget_chunk _ _ _ _ H1) as (e & -> & _ & E2 & _); cbn in E2 |- *; rewrite E2.
    destruct (m <=? l + d.1) eqn:Em; [apply Z.leb_le in Em; exists b1, (l + d.1), B; split_and!; try done; by left|].
    destruct (IH b1 (l + d.1) st A n m H1) as (b' & l' & B' & -> & HL & HF' & Hm); [unfold not_nano in *; by rewrite HF|cbn in Hn; lia|].
    exists b', l', B'; split_and!; try done; congruence.
Qed.

Definition range_all (F : list Z) (i n st : Z) : Prop := forall p, i <= p < i + n -> F !! Z.to_nat p = Some st.

Lemma chunk_range b F p l st : chunk_is b F p l st -> range_all F p l st.
Proof. intros (A & B & H & <- & <-) q Hq; by eapply flat_range_get. Qed.

Lemma chunk_book b F p l st : chunk_is b F p l st -> last F <> Some page_nano_owned -> book_ok b F.
Proof. intros (A & B & H & <- & _) HN; by exists (A ++ (l, st) :: B). Qed.

(** The chunk at a page grows to [n] pages, or some page after it differs. *)
Lemma grow_ok b F p l st n : chunk_is b F p l st -> last F <> Some page_nano_owned -> p + n <= TOTAL_PHY_PAGES ->
  exists b' l', (if l <? n then merge_after_loop fuel b p n else Some b) = Some b' /\ chunk_is b' F p l' st /\
    (n <= l' \/ l' < n /\ ~ range_all F p n st).
Proof.
  intros HC HN Hle; destruct (l <? n) eqn:E; [|apply Z.ltb_ge in E; exists b, l; split_and!; [done..|by left]].
  destruct HC as (A & B & H & <- & <-); pose proof (fuel_enough _ _ H) as Hf; rewrite length_app in Hf; cbn in Hf.
  destruct (merge_after_ok b B l st A fuel n H HN) as (b' & l' & B' & -> & HL & HF & Hm); [lia|].
  exists b', l'; split_and!; [done|by exists A, B'|].
  destruct (decide (n <= l')); [by left|right; split; [lia|]]; intros HR; destruct Hm as [|Hm]; [done|].
  pose proof (chunk_bounds _ _ _ _ _ HL eq_refl) as (? & ? & ? & _); cbn in *.
  destruct B' as [|d B']; [pose proof (pos_end _ _ HL) as He; rewrite pos_snoc in He; cbn in He; lia|].
  specialize (HR (pos 0 A + l') ltac:(lia)); rewrite <- HF, cons_snoc in HR; rewrite cons_snoc in HL.
  destruct d as [ld sd]; rewrite (flat_range_get _ _ _ _ _ (pos 0 A + l') HL) in HR; [cbn in Hm; congruence|].
  rewrite pos_snoc; pose proof (chunk_bounds _ _ _ _ _ HL eq_refl) as (_ & Hd & _); cbn in *; lia.
Qed.

Lemma mask_not_taken io st : 0 <= st < page_transaction -> ~ may_take io st ->
  (Z.land (Z.shiftl 1 (Z.land st 63)) (status_mask io) =? 0) = true.
Proof.
  intros Hst Hn; destruct (_ =? 0) eqn:E; [done|]; by apply mask_may_take in E.
Qed.

Lemma mask_taken io st : may_take io st -> (Z.land (Z.shiftl 1 (Z.land st 63)) (status_mask io) =? 0) = false.
Proof. destruct io; intros [-> | ->]; done. Qed.

Definition phys_start (cached : bool) : Z := if cached then PHY_MEM_START_CACHED else PHY_MEM_START_UNCACHED.

Section Physical.

Context (rep : Z -> Z -> bool) (io cached : bool).

Definition cap_for (p n : Z) : phy_result :=
  let base := p * 4096 + phys_start cached in
  if rep base (n * 4096) then Cap (mk_cap base (n * 4096) io) else BoundsFault.

Lemma get_phy_taken b F p n st : chunk_is b F p n st -> last F <> Some page_nano_owned -> may_take io st ->
  exists b', get_phy_page rep b p cached n io = Some (b', cap_for p n) /\
    chunk_is b' (set_range F p n (taken io)) p n (taken io) /\ last (set_range F p n (taken io)) <> Some page_nano_owned.
Proof.
  intros HC HN Hm; destruct (chunk_entry _ _ _ _ _ HC) as (e & Ee & E1 & E2 & H0 & Hn & Ht); pose proof (chunk_book _ _ _ _ _ HC HN) as Hb.
  pose proof total_val as TV; destruct (get_phy_book rep b F p cached n io Hb) as (b' & r & E & Hr); [lia|].
  destruct Hr as [[-> ->]|(-> & _ & _ & _ & _ & Hb')].
  { exfalso; revert E; unfold get_phy_page; rewrite (proj2 (Z.eqb_neq n 0)), sge_small, (proj2 (Z.leb_gt _ _)), slot_in by lia.
    rewrite Ee; cbn [mbind option_bind]; rewrite E1, mask_taken, E2, Z.eqb_refl, bput_in by (done || lia).
    cbn [negb mbind option_bind]; intros E'; injection E' as _ E'; revert E'; by destruct (rep _ _). }
  exists b'; split; [done|]; pose proof Hb' as (_ & _ & _ & HN'); split; [|done].
  revert E; unfold get_phy_page; rewrite (proj2 (Z.eqb_neq n 0)), sge_small, (proj2 (Z.leb_gt _ _)), slot_in by lia.
  rewrite Ee; cbn [mbind option_bind]; rewrite E1, mask_taken, E2, Z.eqb_refl, bput_in by (done || lia); cbn [negb mbind option_bind].
  intros [= <- _]; destruct HC as (A & B & H & <- & <-); exists A, B.
  split_and!; [|by eapply flat_set_range|done]; eapply restatus_laid; [done|by destruct io|].
  intros j; rewrite ent_upd; unfold taken; case_decide; by subst.
Qed.

Lemma get_phy_refused b F p n l st : chunk_is b F p l st -> last F <> Some page_nano_owned -> l <> n \/ ~ may_take io st ->
  get_phy_page rep b p cached n io = Some (b, NoCap).
Proof.
  intros HC HN Hm; destruct (chunk_entry _ _ _ _ _ HC) as (e & Ee & E1 & E2 & H0 & Hn & Ht); pose proof total_val as TV; unfold get_phy_page.
  destruct (n =? 0); [done|]; rewrite sge_small, (proj2 (Z.leb_gt _ _)), slot_in, Ee by lia; cbn [mbind option_bind]; rewrite E1, E2.
  destruct (_ =? 0) eqn:E; [done|]; destruct Hm as [Hm|Hm]; [by rewrite (proj2 (Z.eqb_neq _ _)) by done|].
  assert (0 <= st < page_transaction) as Hst.
  { destruct HC as (A & B & H & _ & <-); by apply chunk_live in H. }
  by rewrite mask_not_taken in E.
Qed.

End Physical.

(** The number of pages a range of bytes touches. *)
Definition pages_for (base length : Z) : Z := (base mod 4096 + length + 4095) / 4096.

Lemma page_len_ok base length : 0 <= base -> 0 < length -> base + length <= 2 ^ 50 ->
  Z.shiftr (align_up_to (u64 (length + base - u64 (Z.shiftl (Z.shiftr base PHY_PAGE_SIZE_BITS) PHY_PAGE_SIZE_BITS))) PHY_PAGE_SIZE)
    PHY_PAGE_SIZE_BITS = pages_for base length /\
  Z.shiftr base PHY_PAGE_SIZE_BITS = base / 4096 /\ u64 (Z.shiftl (base / 4096) PHY_PAGE_SIZE_BITS) = base / 4096 * 4096.
Proof.
  intros Hb Hl Hle; unfold PHY_PAGE_SIZE_BITS; rewrite Z.shiftr_div_pow2, !Z.shiftl_mul_pow2, Z.shiftr_div_pow2 by lia.
  change (2 ^ 12) with 4096; pose proof (Z.div_mod base 4096 ltac:(lia)); pose proof (Z.mod_pos_bound base 4096 ltac:(lia)).
  rewrite (wrap_small 64 (base / 4096 * 4096)), wrap_small by (unfold in_range; lia); split_and!; try done.
  change PHY_PAGE_SIZE with (2 ^ 12); rewrite align_up_to_spec by lia; change (2 ^ 12) with 4096; rewrite Z.div_mul by lia.
  unfold pages_for; f_equal; lia.
Qed.

Lemma pages_for_bound base length : 0 <= base -> 0 < length -> base + length <= TOTAL_PHY_PAGES * 4096 ->
  0 < pages_for base length /\ base / 4096 + pages_for base length <= TOTAL_PHY_PAGES.
Proof.
  rewrite total_val; intros Hb Hl Hle; unfold pages_for.
  pose proof (Z.div_mod base 4096 ltac:(lia)); pose proof (Z.mod_pos_bound base 4096 ltac:(lia)).
  split; [apply Z.div_str_pos; lia|]; rewrite <- Z.div_add_l by lia.
  apply Z.lt_succ_r, Z.div_lt_upper_bound; lia.
Qed.

Section PhysicalCapability.

Context (CRAM : Z -> Z) (rep : Z -> Z -> bool) (io cached : bool) (HCR : cram_ok CRAM).

(** All pages of the range have one status that the caller may take. *)
Definition takeable (F : list Z) (i n : Z) : Prop := exists st, may_take io st /\ range_all F i n st.

(** From the chunk of exactly [n] pages to the answer. *)
Lemma taken_finish_ok b F p n l st base length : chunk_is b F p l st -> last F <> Some page_nano_owned ->
  (base = 0 \/ p = base / 4096 /\ 0 < base) -> 0 <= base < 2 ^ 40 ->
  exists b' r,
    hand_out rep b p n base length io cached = Some (b', r) /\
    (l = n /\ may_take io st /\ book_ok b' (set_range F p n (taken io)) /\
       r = (if rep (p * 4096 + phys_start cached) (n * 4096)
            then PhysCap ((if base =? 0 then p * 4096 else base) + phys_start cached) length io else NanoFault) \/
     (l <> n \/ ~ may_take io st) /\ book_ok b' F /\ r = Uninitialised).
Proof.
  intros HC HN Hp Hb; destruct (chunk_entry _ _ _ _ _ HC) as (e & _ & _ & _ & H0 & Hl & Ht); rewrite total_val in Ht.
  unfold hand_out; assert (Decision (may_take io st)) as D by (unfold may_take; destruct io; apply _).
  destruct (decide (l = n /\ may_take io st)) as [[-> Hm]|Hm].
  - destruct (get_phy_taken rep io cached _ _ _ _ _ HC HN Hm) as (b' & -> & HC' & HN'); cbn [mbind option_bind]; unfold cap_for.
    destruct (try_merge_ok _ _ _ _ _ HC' HN') as (b2 & p2 & l2 & -> & HC2 & _); destruct (rep _ _); cbn [mbind option_bind cap_base cap_io].
    + do 2 eexists; split; [reflexivity|left]; split_and!; try done; [by eapply chunk_book|]; f_equal.
      destruct (base =? 0) eqn:E0; [done|apply Z.eqb_neq in E0]; destruct Hp as [?|[-> _]]; [done|]; cbn [negb andb].
      pose proof (Z.div_mod base 4096 ltac:(lia)); pose proof (Z.mod_pos_bound base 4096 ltac:(lia)).
      unfold PHY_PAGE_SIZE_BITS; rewrite Z.shiftl_mul_pow2 by lia; change (2 ^ 12) with 4096.
      rewrite (wrap_small 64 (base / 4096 * 4096)), (wrap_small 64 (base - _)) by (unfold in_range; lia).
      destruct (_ =? 0) eqn:Eo; cbn [negb]; [apply Z.eqb_eq in Eo; lia|].
      rewrite wrap_small by (unfold in_range, phys_start, PHY_MEM_START_CACHED, PHY_MEM_START_UNCACHED; destruct cached; lia); lia.
    + do 2 eexists; split; [reflexivity|left]; split_and!; try done; by eapply chunk_book.
  - assert (l <> n \/ ~ may_take io st) as Hm' by (destruct (decide (l = n)); tauto).
    rewrite (get_phy_refused rep io cached _ _ _ n _ _ HC HN Hm'); cbn [mbind option_bind].
    destruct (try_merge_ok _ _ _ _ _ HC HN) as (b2 & p2 & l2 & -> & HC2 & _); cbn [mbind option_bind].
    do 2 eexists; split; [reflexivity|right]; split_and!; try done; by eapply chunk_book.
Qed.

Lemma physical_at b F base length : book_ok b F -> 0 < base -> 0 < length -> base + length <= TOTAL_PHY_PAGES * 4096 ->
  let i := base / 4096 in let n := pages_for base length in
  exists b' r, get_physical_capability CRAM rep b base length io cached = Some (b', r) /\
    (takeable F i n /\ book_ok b' (set_range F i n (taken io)) /\
       r = (if rep (i * 4096 + phys_start cached) (n * 4096) then PhysCap (base + phys_start cached) length io else NanoFault) \/
     ~ takeable F i n /\ book_ok b' F /\ (r = NullCaps \/ r = Uninitialised)).
Proof.
  intros Hb H0 Hl Hle i n; destruct (pages_for_bound base length) as [Hn Hin]; [lia..|]; fold i n in Hn, Hin.
  destruct (page_len_ok base length) as (E1 & E2 & E3); [lia|lia|rewrite total_val in Hle; lia|].
  unfold get_physical_capability; rewrite E1, E2, (proj2 (Z.eqb_neq _ _)) by lia; fold i n.
  pose proof (Z.div_pos base 4096 ltac:(lia) ltac:(lia)) as Hi; fold i in Hi; pose proof Hb as (_ & _ & _ & HN).
  destruct (valid_entry_ok b F i Hb) as (b1 & l & st & -> & HC); [lia|]; cbn [mbind option_bind].
  destruct (chunk_entry _ _ _ _ _ HC) as (e & -> & _ & El & _); cbn [mbind option_bind]; rewrite El.
  destruct (grow_ok _ _ _ _ _ n HC HN Hin) as (b2 & l2 & -> & HC2 & Hl2); cbn [mbind option_bind].
  destruct (chunk_entry _ _ _ _ _ HC2) as (e2 & -> & _ & El2 & _ & Hpos & Ht); cbn [mbind option_bind]; rewrite El2.
  assert (forall st', range_all F i n st' -> st' = st) as Hst.
  { intros st' HR; pose proof (chunk_range _ _ _ _ _ HC2 i ltac:(lia)); specialize (HR i ltac:(lia)); congruence. }
  destruct Hl2 as [Hl2|[Hl2 HR]].
  2:{ rewrite (proj2 (Z.ltb_lt _ _)) by lia; cbn [mbind option_bind]; do 2 eexists; split; [reflexivity|right]; split_and!; [|by eapply chunk_book|by left].
      intros (st' & _ & HR'); specialize (Hst _ HR'); by subst. }
  rewrite (proj2 (Z.ltb_ge _ _)) by lia.
  assert (exists b3, (if n <? l2 then pmem_break_page_to b2 i n else Some b2) = Some b3 /\ chunk_is b3 F i n st) as (b3 & -> & HC3).
  { destruct (n <? l2) eqn:E; [apply Z.ltb_lt in E|apply Z.ltb_ge in E; exists b2; split; [done|]; by replace n with l2 by lia].
    destruct HC2 as (A & B & H & <- & HA); rewrite <- HA in *; destruct (break_laid _ _ _ _ _ n H) as (b3 & -> & H3); [lia|lia|].
    exists b3; split; [done|]; exists A, (cut l2 n st B); rewrite flat_cut by lia; done. }
  cbn [mbind option_bind]; destruct (taken_finish_ok b3 F i n n st base length HC3 HN) as (b' & r & EF & Hr); [right; done|rewrite total_val in *; lia|].
  rewrite EF; exists b', r; split; [done|].
  destruct Hr as [(_ & Hm & Hb' & ->)|([?|Hm] & Hb' & ->)]; [left|done|right].
  - rewrite (proj2 (Z.eqb_neq base 0)) by lia; split_and!; [|done..]; exists st; split; [done|by eapply chunk_range].
  - split_and!; [|done|by right]; intros (st' & Hm' & HR); specialize (Hst _ HR); by subst.
Qed.

Lemma physical_any b cs length : laid b cs -> not_nano cs -> 0 < length <= 2 ^ 50 - 4096 ->
  let n := pages_for 0 length in
  exists j b' r, 0 <= j /\ 2 ^ j - 1 = Z.shiftr (round_cheri_length CRAM (n * 4096)).2 12 /\
    get_physical_capability CRAM rep b 0 length io cached = Some (b', r) /\
    (r = NullCaps /\ b' = b /\ (forall A c B, cs = A ++ c :: B -> ~ fits (up j n) page_unused j (pos 0 A) c) \/
     exists i, i mod 2 ^ j = 0 /\ range_all (flat cs) i (up j n) page_unused /\
       (up j n = n /\ io = false /\ book_ok b' (set_range (flat cs) i n page_system_owned) /\
          r = (if rep (i * 4096 + phys_start cached) (n * 4096) then PhysCap (i * 4096 + phys_start cached) length io else NanoFault) \/
        (up j n <> n \/ io = true) /\ book_ok b' (flat cs) /\ r = Uninitialised)).
Proof.
  intros H HN Hl n; destruct (page_len_ok 0 length) as (E1 & E2 & E3); [lia..|].
  unfold get_physical_capability; rewrite E1; cbn [Z.eqb]; fold n.
  assert (0 < n <= 2 ^ 38) as Hn by (unfold n, pages_for; rewrite Z.mod_0_l by lia; split; [apply Z.div_str_pos|apply Z.lt_succ_r, Z.div_lt_upper_bound]; lia).
  destruct (find_page_ok CRAM b cs [] cs n page_unused PMEM_PRECISE HCR H eq_refl Hn) as (j & b1 & i & Hj & Ef & Hal & HA); [done|done|].
  cbn [pos] in Ef; rewrite Ef; cbn [mbind option_bind]; destruct HA as [(-> & -> & Hno)|[(Hf & _)|(_ & HC & Hmod)]]; [|done|].
  - rewrite Z.eqb_refl; exists j, b, NullCaps; split_and!; [lia|done|done|left; split_and!; [done..|]].
    intros A c B E; eapply Hno; [done|cbn]; rewrite E in H; by destruct (chunk_bounds _ _ _ _ _ H eq_refl).
  - destruct (chunk_entry _ _ _ _ _ HC) as (e & _ & _ & _ & H0 & Hlu & Ht).
    rewrite (proj2 (Z.eqb_neq _ _)) by (unfold BOOK_END; lia).
    destruct (taken_finish_ok b1 _ i n _ page_unused 0 length HC HN) as (b' & r & EF & Hr); [by left|lia|].
    rewrite EF; exists j, b', r; split_and!; [lia|done|done|right; exists i].
    split_and!; [done|by eapply chunk_range|].
    destruct Hr as [(E & Hm & Hb' & ->)|(Hm & Hb' & ->)]; [left|right].
    + destruct io; [by destruct Hm|]; split_and!; done.
    + split_and!; try done; destruct Hm as [|Hm]; [by left|right]; destruct io; [done|exfalso; apply Hm; by left].
Qed.

End PhysicalCapability.

(** ** Cleaning *)

(** The loop of the kernel's boot over the book (cherios/kernel/src/init.c). *)
Fixpoint boot_clean (n : nat) (s : phys) (page_n : Z) : option phys :=
  match n with
  | O => None
  | S n =>
      e ← bget (the_book s) page_n;
      s ← (if status e =? page_dirty then zero_page_range s page_n else Some s);
      e ← bget (the_book s) page_n;
      let page_n := u64 (page_n + len e) in
      if negb (page_n =? BOOK_END) then boot_clean n s page_n else Some s
  end.

Fixpoint clean_turns (k : nat) (s : phys) (c : cleaner) : option (phys * cleaner) :=
  match k with
  | O => Some (s, c)
  | S k => '(s, c, _) ← clean_turn s c; clean_turns k s c
  end.

Definition cleaned (st : Z) : Z := if st =? page_dirty then page_unused else st.

Definition clean_chunk (c : chunk) : chunk := (c.1, cleaned c.2).

Lemma flat_clean cs : flat (clean_chunk <$> cs) = cleaned <$> flat cs.
Proof.
  induction cs as [|c cs IH]; [done|]; cbn [fmap list_fmap]; rewrite !flat_cons, fmap_app; f_equal; [|done].
  cbn [clean_chunk fst snd]; by rewrite fmap_replicate.
Qed.

(** Cleaning turns [A ++ B] into [A ++ B'] and leaves the data of the other
    pages alone. *)
Definition cleans (s : phys) (cs : list chunk) (s' : phys) (cs' : list chunk) : Prop :=
  laid (the_book s') cs' /\ clean (flat cs') (memory s') /\ not_nano cs' /\
  (forall p, flat cs !! p <> Some page_dirty -> flat cs' !! p = flat cs !! p) /\
  (forall w, 0 <= page_of w -> flat cs !! Z.to_nat (page_of w) <> Some page_dirty -> memory s' !! w = memory s !! w).

Lemma cleans_refl s cs : laid (the_book s) cs -> clean (flat cs) (memory s) -> not_nano cs -> cleans s cs s cs.
Proof. intros; unfold cleans; by split_and!. Qed.

Lemma cleans_trans s cs s1 cs1 s2 cs2 : cleans s cs s1 cs1 -> cleans s1 cs1 s2 cs2 -> cleans s cs s2 cs2.
Proof.
  intros (_ & _ & _ & F1 & M1) (H2 & C2 & N2 & F2 & M2); unfold cleans; split_and!; try done.
  - intros p Hp; rewrite F2; [by apply F1|]; by rewrite F1.
  - intros w Hw Hd; rewrite M2; [by apply M1|done|]; by rewrite F1.
Qed.

(** One chunk is cleaned. *)
Lemma clean_one s A c B : laid (the_book s) (A ++ c :: B) -> clean (flat (A ++ c :: B)) (memory s) -> not_nano (A ++ c :: B) ->
  exists s', (if c.2 =? page_dirty then zero_page_range s (pos 0 A) else Some s) = Some s' /\
    cleans s (A ++ c :: B) s' (A ++ clean_chunk c :: B).
Proof.
  intros H HC HN; unfold clean_chunk, cleaned; destruct c as [l st]; cbn; destruct (st =? page_dirty) eqn:E.
  2:{ exists s; split; [done|by apply cleans_refl]. }
  apply Z.eqb_eq in E; subst st; pose proof (chunk_bounds _ _ _ _ _ H eq_refl) as (Hp & Hl & Ht & _); cbn in *.
  destruct (zero_dirty _ _ _ _ H) as (s' & -> & H' & Hm); exists s'; split; [done|].
  pose proof (flat_length_laid _ _ H) as HL; pose proof (flat_set_range _ _ _ _ page_unused _ H) as HF; unfold cleans; split_and!; try done.
  - rewrite HF; eapply clean_range; try done; lia.
  - unfold not_nano; rewrite HF; apply set_range_last; try done; lia.
  - intros p Hd; rewrite HF, set_range_lookup by lia; case_decide; [|done]; exfalso; apply Hd.
    rewrite <- (Nat2Z.id p); by eapply flat_range_get.
  - intros w Hw Hd; rewrite Hm; case_decide; [|done]; exfalso; apply Hd; by eapply flat_range_get.
Qed.

Lemma clean_head s A c B s' : cleans s (A ++ c :: B) s' (A ++ clean_chunk c :: B) -> 0 < c.1 ->
  exists e, bget (the_book s') (pos 0 A) = Some e /\ u64 (pos 0 A + len e) = pos 0 (A ++ [clean_chunk c]).
Proof.
  intros (H & _) Hc; destruct (bget_chunk _ _ _ _ H) as (e & E & _ & El & _); exists e; split; [done|].
  rewrite El; by eapply u64_pos.
Qed.

Lemma boot_clean_ok B : forall s A c n, laid (the_book s) (A ++ c :: B) -> clean (flat (A ++ c :: B)) (memory s) ->
  not_nano (A ++ c :: B) -> (length B < n)%nat ->
  exists s', boot_clean n s (pos 0 A) = Some s' /\ cleans s (A ++ c :: B) s' (A ++ (clean_chunk <$> c :: B)).
Proof.
  induction B as [|d B IH]; intros s A c n H HC HN Hn; (destruct n as [|n]; [lia|]); cbn [boot_clean];
    destruct (bget_chunk _ _ _ _ H) as (e & -> & E1 & _ & _); cbn [mbind option_bind]; rewrite E1;
    destruct (clean_one _ _ _ _ H HC HN) as (s1 & -> & H1); cbn [mbind option_bind];
    pose proof (chunk_bounds _ _ _ _ _ H eq_refl) as (_ & Hc & _);
    destruct (clean_head _ _ _ _ _ H1 Hc) as (e1 & -> & E2); cbn [mbind option_bind]; rewrite E2; pose proof H1 as (HL1 & HC1 & HN1 & _).
  - rewrite (pos_end _ _ HL1), Z.eqb_refl; by exists s1.
  - rewrite cons_snoc in HL1, HC1, HN1; pose proof (pos_lt _ _ _ _ HL1) as Hlt.
    rewrite (proj2 (Z.eqb_neq _ _)) by (unfold BOOK_END; lia); cbn [negb].
    destruct (IH s1 _ _ n HL1 HC1 HN1) as (s' & -> & H2); [cbn in Hn; lia|]; exists s'; split; [done|].
    rewrite <- !cons_snoc in H2; by eapply cleans_trans.
Qed.

Lemma clean_turns_ok B : forall s A any, laid (the_book s) (A ++ B) -> clean (flat (A ++ B)) (memory s) -> not_nano (A ++ B) ->
  exists s' any', clean_turns (length B) s (mk_cleaner (pos 0 A) any) = Some (s', mk_cleaner BOOK_END any') /\
    cleans s (A ++ B) s' (A ++ (clean_chunk <$> B)).
Proof.
  induction B as [|c B IH]; intros s A any H HC HN; cbn [clean_turns length].
  { rewrite app_nil_r in *; exists s, any; rewrite (pos_end _ _ H); split; [done|]; cbn; rewrite app_nil_r; by apply cleans_refl. }
  unfold clean_turn; cbn [cl_page cleaned_any]; destruct (bget_chunk _ _ _ _ H) as (e & Ee & E1 & E2 & _); rewrite Ee; cbn [mbind option_bind].
  pose proof (chunk_bounds _ _ _ _ _ H eq_refl) as (_ & Hc & _); pose proof (pos_lt _ _ _ _ H) as Hlt.
  rewrite E2, (proj2 (Z.eqb_neq _ BOOK_END)), (proj2 (Z.eqb_neq c.1 0)) by (unfold BOOK_END; lia).
  cbn [orb andb cl_page cleaned_any]; rewrite Ee; cbn [mbind option_bind]; rewrite E1; destruct (clean_one _ _ _ _ H HC HN) as (s1 & Ez & H1).
  destruct (clean_head _ _ _ _ _ H1 Hc) as (e1 & Ee1 & Eu); pose proof H1 as (HL1 & HC1 & HN1 & _).
  rewrite cons_snoc in HL1, HC1, HN1.
  assert (exists any1, (if c.2 =? page_dirty then s ← zero_page_range s (pos 0 A); Some (s, true) else Some (s, any)) = Some (s1, any1)) as (any1 & EA).
  { destruct (c.2 =? page_dirty); [rewrite Ez; by eexists|injection Ez as <-; by eexists]. }
  cbn [mbind option_bind cl_page cleaned_any] in EA |- *; rewrite EA; cbn [mbind option_bind cl_page cleaned_any].
  rewrite Ee1; cbn [mbind option_bind]; rewrite Eu; destruct (IH s1 _ any1 HL1 HC1 HN1) as (s' & any' & -> & H2).
  exists s', any'; split; [done|]; rewrite <- !cons_snoc in H2; by eapply cleans_trans.
Qed.

(** ** A chunk of length zero *)

Lemma check_stuck b A : forall q s p n, seg b q s A -> 0 <= s -> pos s A < TOTAL_PHY_PAGES -> len (ent b (pos s A)) = 0 ->
  check_loop n b s p = None.
Proof.
  induction A as [|c A IH]; cbn [seg pos]; intros q s p n H Hs Ht Hl.
  - destruct n; cbn [check_loop]; rewrite (proj2 (Z.ltb_lt _ _)) by (unfold BOOK_END; lia); [done|].
    rewrite bget_in by lia; cbn [mbind option_bind]; by rewrite Hl.
  - destruct H as [(Hc & _ & _ & E2 & _) H]; pose proof (seg_pos _ _ _ _ H).
    destruct n; cbn [check_loop]; rewrite (proj2 (Z.ltb_lt _ _)) by (unfold BOOK_END; lia); [done|].
    rewrite bget_in by lia; cbn [mbind option_bind]; rewrite E2; destruct (assert (negb (c.1 =? 0))); [|done]; cbn [mbind option_bind].
    destruct (if negb (p =? u64 (-1)) then _ else _); [|done]; cbn [mbind option_bind].
    rewrite u64_in by lia; eapply IH; [done|lia|done|done].
Qed.

Lemma split_empty_seg b A l st B b' : laid b (A ++ (l, st) :: B) -> split_phy_page_range b (pos 0 A) 0 = Some b' -> seg b' 0 0 A.
Proof.
  intros H; pose proof (chunk_bounds _ _ _ _ _ H eq_refl) as (Hp & Hl & Ht & Hst & E1 & E2 & E3); cbn in *.
  pose proof total_val as TV; unfold split_phy_page_range; rewrite sge_small by lia; rewrite (proj2 (Z.leb_gt _ _)) by lia.
  rewrite slot_in, lock_entry_in by lia; cbn [mbind option_bind]; rewrite E1, status_small by (by apply (chunk_live _ _ _ _ H)).
  bk; rewrite ent_upd_eq; cbn [len set_status]; rewrite E2, sge_small, (proj2 (Z.leb_gt _ _)) by lia.
  bk; intros [= <-]; apply tail_app in H as [H _]; eapply seg_frame, H; intros i Hi; by ents.
Qed.

(** ** Properties *)

(** C10: from boot on, after any sequence of nanokernel page calls, with page
    numbers and lengths below 2^63 and no split at length 0, and of stores
    through the physical capabilities the calls gave out, the book passes the
    memory manager's own check, every page has only moved along the allowed
    transitions from its status at boot, no unused page holds data, and the
    capabilities given out cover pages the system owns, of the book, only. *)
Theorem page_book_invariant rep a0 m acts : 4096 <= a0 < PHY_RAM_SIZE - NANO_SIZE -> a0 mod 4096 = 0 -> Forall act_ok acts ->
  exists s caps, run_acts rep (boot_phys a0 m) acts = Some (s, caps) /\ pmem_check_book (the_book s) = Some tt /\
    (forall p, 0 <= p < TOTAL_PHY_PAGES -> rtc page_move (page_status (init_book a0) p) (page_status (the_book s) p)) /\
    (forall w, 0 <= page_of w < TOTAL_PHY_PAGES -> page_status (the_book s) (page_of w) = page_unused -> memory s !! w = None) /\
    (forall c p, c ∈ caps -> cap_covers c p = true -> 0 <= p < TOTAL_PHY_PAGES /\ owned (page_status (the_book s) p)).
Proof.
  intros Ha Hal Hc; pose proof (boot_acts_ok a0 m Ha Hal) as H0; destruct (run_acts_ok rep acts _ _ H0 Hc) as ([s caps] & F & E & [[Hb HC] HH] & HS).
  exists s, caps; cbn [fst snd] in *; split_and!; [done| | | |].
  - destruct Hb as (cs & HL & _); by eapply check_book_ok.
  - intros p Hp; destruct H0 as [[Hb0 _] _]; pose proof (page_status_flat _ _ _ Hb0 Hp) as E0; cbn in E0.
    destruct (rtc_pages _ _ _ _ HS E0) as (st & Ep & Hr); rewrite (page_status_flat _ _ _ Hb Hp) in Ep; by simplify_eq.
  - intros w Hw Eu; apply HC; [|lia]; by rewrite (page_status_flat _ _ _ Hb Hw), Eu.
  - intros c p Hin Hcov; rewrite Forall_forall in HH; destruct (HH c Hin p Hcov) as (Hp & st & Hst & Ho).
    pose proof (lookup_lt_Some _ _ _ Hst) as Hlt; pose proof (book_length _ _ Hb).
    assert (0 <= p < TOTAL_PHY_PAGES) as Hpr by (rewrite total_val in *; lia); split; [done|].
    rewrite (page_status_flat _ _ _ Hb Hpr) in Hst; by injection Hst as <-.
Qed.

Lemma page_book_invariant_witness :
  exists s caps, run_acts (fun _ _ => true) (boot_phys 0x100000 {[ 7 := 1 ]})
      [Call (Split 0x84100 2); Call (Zero 0x84100); Call (GetPhy 0x84100 true 2 false); Store (0x84100 * 256) 5; Store (0x84200 * 256) 5; Call (Merge 0x84000)] = Some (s, caps) /\
    memory s !! (0x84100 * 256) = Some 5 /\ memory s !! (0x84200 * 256) = None /\ pmem_check_book (the_book s) = Some tt /\
    (forall w, 0 <= page_of w < TOTAL_PHY_PAGES -> page_status (the_book s) (page_of w) = page_unused -> memory s !! w = None).
Proof.
  set (acts := [_; _; _; _; _; _]).
  destruct (page_book_invariant (fun _ _ => true) 0x100000 {[ 7 := 1 ]} acts) as (s & caps & E & Hk & _ & Hw & _).
  - split; vm_compute; congruence.
  - reflexivity.
  - repeat constructor; vm_compute; congruence.
  - exists s, caps; split; [exact E|].
    assert ((fun r => memory r.1 !! (0x84100 * 256)) <$> run_acts (fun _ _ => true) (boot_phys 0x100000 {[ 7 := 1 ]}) acts = Some (Some 5)) as E1 by (vm_compute; reflexivity).
    assert ((fun r => memory r.1 !! (0x84200 * 256)) <$> run_acts (fun _ _ => true) (boot_phys 0x100000 {[ 7 := 1 ]}) acts = Some None) as E2 by (vm_compute; reflexivity).
    rewrite E in E1, E2; cbn in E1, E2; split; [congruence|split; [congruence|split; [exact Hk|exact Hw]]].
Defined.

(** C11: a search for pages, in either direction, ends.  It answers that there
    are none only when no chunk it passes has room for them at the alignment
    CHERI needs; otherwise it answers with pages of that type, aligned, as a
    chunk of their own unless a longer one was allowed, and no page changes its
    status. *)
Theorem find_page_type_correct CRAM b cs A B L rt flags : cram_ok CRAM -> laid b cs -> not_nano cs -> cs = A ++ B ->
  0 < L <= 2 ^ 38 -> rt <> page_nano_owned -> flag flags PMEM_PRECISE && flag flags PMEM_ALLOW_GREATER = false ->
  exists j b' r, 0 <= j /\ pmem_find_page_type CRAM b L rt flags (pos 0 A) = Some (b', r) /\
    2 ^ j - 1 = (if flag flags PMEM_PRECISE then Z.shiftr (round_cheri_length CRAM (L * 4096)).2 12 else 0) /\
    book_ok b' (flat cs) /\
    (r = BOOK_END /\ (forall A' c B', cs = A' ++ c :: B' -> searched (flag flags PMEM_BACKWARDS) (pos 0 A) A' ->
                       ~ fits (up j L) rt j (pos 0 A') c) \/
     r < BOOK_END /\ range_all (flat cs) r (len (ent b' r)) rt /\ status (ent b' r) = rt /\
       if flag flags PMEM_ALLOW_GREATER then L <= len (ent b' r) else len (ent b' r) = up j L /\ r mod 2 ^ j = 0).
Proof.
  intros HC HL HN E HLr Hrt Hfl; destruct (find_page_ok CRAM b cs A B L rt flags HC HL E HLr Hrt Hfl) as (j & b' & r & Hj & Ef & Hal & HA).
  exists j, b', r; assert (forall x l st, chunk_is x (flat cs) r l st -> r < BOOK_END /\ book_ok x (flat cs) /\
    range_all (flat cs) r (len (ent x r)) st /\ status (ent x r) = st /\ len (ent x r) = l) as HCH.
  { intros x l st HCx; destruct (chunk_entry _ _ _ _ _ HCx) as (e & Ee & E1 & E2 & ? & ? & ?).
    rewrite bget_in in Ee by lia; injection Ee as <-; rewrite E2; split_and!; [unfold BOOK_END; lia|by eapply chunk_book|by eapply chunk_range|done..]. }
  split_and!; [lia|done|done| |]; destruct HA as [(-> & -> & Hno)|[(Eg & -> & l & HCl & Hl)|(Eg & HCl & Hm)]].
  - by exists cs.
  - by apply (HCH _ _ _ HCl).
  - by apply (HCH _ _ _ HCl).
  - by left.
  - right; rewrite Eg; destruct (HCH _ _ _ HCl) as (? & ? & ? & ? & El); split_and!; try done; by rewrite El.
  - right; rewrite Eg; destruct (HCH _ _ _ HCl) as (? & ? & ? & ? & ?); by split_and!.
Qed.

Lemma demo_boot : laid (init_book 0x100000) (boot_chunks 0x100000) /\ not_nano (boot_chunks 0x100000).
Proof.
  assert (4096 <= 0x100000 < PHY_RAM_SIZE - NANO_SIZE) as H by (split; vm_compute; congruence).
  split; [by apply init_book_laid|]; destruct (boot_ok 0x100000 ∅ H) as [(cs & _ & _ & HN) _]; exact HN.
Qed.

Lemma demo_cram : cram_ok (fun _ => 2 ^ 64 - 2 ^ 13).
Proof. intros l _; exists 13; split; [lia|done]. Qed.

Lemma find_page_type_correct_witness :
  exists j b' r, 0 <= j /\
    pmem_find_page_type (fun _ => 2 ^ 64 - 2 ^ 13) (init_book 0x100000) 3 page_dirty (PMEM_PRECISE + PMEM_BACKWARDS)
      (pos 0 (boot_chunks 0x100000)) = Some (b', r) /\ book_ok b' (flat (boot_chunks 0x100000)).
Proof.
  destruct demo_boot as [HL HN].
  destruct (find_page_type_correct (fun _ => 2 ^ 64 - 2 ^ 13) (init_book 0x100000) (boot_chunks 0x100000) (boot_chunks 0x100000) []
              3 page_dirty (PMEM_PRECISE + PMEM_BACKWARDS) demo_cram HL HN (eq_sym (app_nil_r _)) ltac:(lia) ltac:(discriminate) eq_refl)
    as (j & b' & r & Hj & E & _ & Hb & _).
  exists j, b', r; exact (conj Hj (conj E Hb)).
Defined.

(** C18: a request for physical memory.  At a given address it succeeds exactly
    when the pages it touches all have one status that may be taken; they and
    no others then belong to the system.  Without an address it takes unused
    pages at the alignment CHERI needs, or answers null when no chunk has room
    for them.  When the length the alignment asks for is not the length of the
    request, and when the pages at the address cannot be taken, the answer may
    be made of a variable that was never written. *)
Theorem physical_capability_correct CRAM rep io cached b cs base length : cram_ok CRAM -> laid b cs -> not_nano cs ->
  0 <= base -> 0 < length -> base + length <= TOTAL_PHY_PAGES * 4096 ->
  let i := base / 4096 in let n := pages_for base length in
  exists b' r, get_physical_capability CRAM rep b base length io cached = Some (b', r) /\
    if base =? 0 then
      exists j, 0 <= j /\ 2 ^ j - 1 = Z.shiftr (round_cheri_length CRAM (n * 4096)).2 12 /\
        (r = NullCaps /\ (forall A c B, cs = A ++ c :: B -> ~ fits (up j n) page_unused j (pos 0 A) c) \/
         exists i, i mod 2 ^ j = 0 /\ range_all (flat cs) i (up j n) page_unused /\
           if (up j n =? n) && negb io
           then book_ok b' (set_range (flat cs) i n page_system_owned) /\
                r = (if rep (i * 4096 + phys_start cached) (n * 4096) then PhysCap (i * 4096 + phys_start cached) length io else NanoFault)
           else book_ok b' (flat cs) /\ r = Uninitialised)
    else
      takeable io (flat cs) i n /\ book_ok b' (set_range (flat cs) i n (taken io)) /\
        r = (if rep (i * 4096 + phys_start cached) (n * 4096) then PhysCap (base + phys_start cached) length io else NanoFault) \/
      ~ takeable io (flat cs) i n /\ book_ok b' (flat cs) /\ (r = NullCaps \/ r = Uninitialised).
Proof.
  intros HC HL HN Hb Hl Hle i n; assert (book_ok b (flat cs)) as HB by (by exists cs).
  destruct (base =? 0) eqn:E; [apply Z.eqb_eq in E; subst base|apply Z.eqb_neq in E].
  - destruct (physical_any CRAM rep io cached HC b cs length HL HN) as (j & b' & r & Hj & Hal & Er & Hr); [rewrite total_val in Hle; lia|].
    exists b', r; split; [done|]; exists j; split_and!; [done..|].
    destruct Hr as [(-> & -> & Hno)|(i' & Hm & HR & Hr)]; [by left|right; exists i'; split_and!; [done..|]]; fold n in Hr.
    destruct Hr as [(-> & -> & Hb' & ->)|(Hu & Hb' & ->)]; [by rewrite Z.eqb_refl|].
    destruct Hu as [Hu| ->]; [by rewrite (proj2 (Z.eqb_neq _ _)) by done|by rewrite andb_false_r].
  - destruct (physical_at CRAM rep io cached b (flat cs) base length HB) as (b' & r & Er & Hr); [lia|lia|done|].
    by exists b', r.
Qed.

Lemma physical_capability_correct_witness :
  exists b' r, get_physical_capability (fun _ => 2 ^ 64 - 2 ^ 13) (fun _ _ => true) (init_book 0x100000) 0x1000 0x2000 true false = Some (b', r) /\
    (takeable true (flat (boot_chunks 0x100000)) 1 2 /\ book_ok b' (set_range (flat (boot_chunks 0x100000)) 1 2 page_io_system) /\
       r = PhysCap (0x1000 + PHY_MEM_START_UNCACHED) 0x2000 true \/
     ~ takeable true (flat (boot_chunks 0x100000)) 1 2 /\ book_ok b' (flat (boot_chunks 0x100000)) /\ (r = NullCaps \/ r = Uninitialised)).
Proof.
  destruct demo_boot as [HL HN].
  exact (physical_capability_correct (fun _ => 2 ^ 64 - 2 ^ 13) (fun _ _ => true) true false (init_book 0x100000) (boot_chunks 0x100000)
           0x1000 0x2000 demo_cram HL HN ltac:(lia) ltac:(lia) ltac:(vm_compute; congruence)).
Defined.

(** C19: the kernel's boot loop, and one round of the cleaner thread, turn every
    dirty page into an unused page without data and leave the status and the
    data of all other pages alone. *)
Theorem dirty_pages_cleaned s F any : phys_ok s F ->
  (exists s', boot_clean fuel s 0 = Some s' /\ phys_ok s' (cleaned <$> F)) /\
  (exists k s' any', clean_turns k s (mk_cleaner 0 any) = Some (s', mk_cleaner BOOK_END any') /\ phys_ok s' (cleaned <$> F) /\
     forall w, 0 <= page_of w -> F !! Z.to_nat (page_of w) <> Some page_dirty -> memory s' !! w = memory s !! w).
Proof.
  intros [(cs & HL & <- & HN) HC]; destruct cs as [|c B]; [destruct HL as (_ & Hp & _); by rewrite total_val in Hp|].
  pose proof (fuel_enough _ _ HL) as Hf; cbn in Hf; rewrite <- flat_clean; split.
  - destruct (boot_clean_ok B s [] c fuel HL HC HN) as (s' & E & (HL' & HC' & HN' & _)); [lia|].
    exists s'; split; [done|split; [|done]]; by exists (clean_chunk <$> c :: B).
  - destruct (clean_turns_ok (c :: B) s [] any HL HC HN) as (s' & any' & E & (HL' & HC' & HN' & _ & HM)).
    exists (length (c :: B)), s', any'; split_and!; [done|split; [|done]|done]; by exists (clean_chunk <$> c :: B).
Qed.

Lemma dirty_pages_cleaned_witness :
  exists s', boot_clean fuel (mk_phys (init_book 0x100000) ∅) 0 = Some s' /\ phys_ok s' (cleaned <$> flat (boot_chunks 0x100000)).
Proof.
  assert (4096 <= 0x100000 < PHY_RAM_SIZE - NANO_SIZE) as H by (split; vm_compute; congruence).
  exact (proj1 (dirty_pages_cleaned _ _ true (boot_ok 0x100000 ∅ H))).
Defined.

(** The RISC-V [split_phy_page_range] does not check its arguments as the
    MIPS one does: an empty split leaves a chunk of length zero, which the
    memory manager's check refuses, and the signed comparison lets the page
    number [2 ^ 64 - 1] through to an access outside of the book. *)
Theorem split_unchecked b F i l st : chunk_is b F i l st ->
  (exists b', split_phy_page_range b i 0 = Some b' /\ len (ent b' i) = 0 /\ pmem_check_book b' = None) /\
  (forall n, split_phy_page_range b (2 ^ 64 - 1) n = None).
Proof.
  intros (A & B & HL & _ & <-); split; [|done].
  destruct (split_empty _ _ _ _ _ HL (proj2 (chunk_live _ _ _ _ HL))) as (b' & E & El); exists b'; split_and!; [done..|].
  pose proof (split_empty_seg _ _ _ _ _ _ HL E) as Hs; pose proof (pos_lt _ _ _ _ HL).
  unfold pmem_check_book; by rewrite (check_stuck b' A 0 0 _ fuel Hs) by (done || lia).
Qed.

Lemma split_unchecked_witness :
  (exists b', split_phy_page_range (init_book 0x100000) 0 0 = Some b' /\ len (ent b' 0) = 0 /\ pmem_check_book b' = None) /\
  (forall n, split_phy_page_range (init_book 0x100000) (2 ^ 64 - 1) n = None).
Proof.
  apply (split_unchecked _ (flat (boot_chunks 0x100000)) 0 0x80000 page_io_unused).
  exists [], (drop 1 (boot_chunks 0x100000)); exact (conj (proj1 demo_boot) (conj eq_refl eq_refl)).
Defined.
