(* ===== verification/Adler32.v ===== *)
(** * Adler-32 (zlib/zlib/adler32.c)

    The checksum of a buffer and of a concatenation.  [w] is the width of
    [unsigned long]; the theorems hold for 32 bits and more.  A read past the
    end of the buffer is the result [None]. *)

From S2P Require Import Prelude.

Definition BASE : Z := 65521.
Definition NMAX : Z := 5552.

Section Adler.

Context (w : Z).

(** The two sums. *)
Abbreviation sums := (Z * Z)%type.

Definition DO1 (buf : list Z) (i : Z) (s : sums) : option sums :=
  b ← zget buf i;
  let adler := wrap w (s.1 + b) in
  Some (adler, wrap w (s.2 + adler)).
Definition DO2 (buf : list Z) (i : Z) (s : sums) : option sums := s ← DO1 buf i s; DO1 buf (i + 1) s.
Definition DO4 (buf : list Z) (i : Z) (s : sums) : option sums := s ← DO2 buf i s; DO2 buf (i + 2) s.
Definition DO8 (buf : list Z) (i : Z) (s : sums) : option sums := s ← DO4 buf i s; DO4 buf (i + 4) s.
Definition DO16 (buf : list Z) (pos : Z) (s : sums) : option sums := s ← DO8 buf pos s; DO8 buf (pos + 8) s.

Definition MOD (a : Z) : Z := a mod BASE.

(** [do DO16(buf), buf += 16 while (--n)]: the sums and the position. *)
Fixpoint blocks16 (n : nat) (buf : list Z) (pos : Z) (s : sums) : option (sums * Z) :=
  match n with
  | O => Some (s, pos)
  | S n => s ← DO16 buf pos s; blocks16 n buf (pos + 16) s
  end.

(** [while (len--) adler += *buf++, sum2 += adler]. *)
Fixpoint bytes1 (n : nat) (buf : list Z) (pos : Z) (s : sums) : option (sums * Z) :=
  match n with
  | O => Some (s, pos)
  | S n => s ← DO1 buf pos s; bytes1 n buf (pos + 1) s
  end.

(** [while (len >= NMAX)]. *)
Fixpoint nmax_loop (fuel : nat) (buf : list Z) (pos len : Z) (s : sums) : option (sums * Z * Z) :=
  if NMAX <=? len then
    match fuel with
    | O => None
    | S fuel =>
        let len := len - NMAX in
        '(s, pos) ← blocks16 (Z.to_nat (NMAX / 16)) buf pos s;
        nmax_loop fuel buf pos len (MOD s.1, MOD s.2)
    end
  else Some (s, pos, len).

Definition recombine (adler sum2 : Z) : Z := Z.lor adler (wrap w (Z.shiftl sum2 16)).

Definition adler32 (adler : Z) (buf : option (list Z)) (len : Z) : option Z :=
  let sum2 := Z.land (Z.shiftr adler 16) 0xffff in
  let adler := Z.land adler 0xffff in
  if len =? 1 then
    buf ← buf;
    b ← zget buf 0;
    let adler := wrap w (adler + b) in
    let adler := if BASE <=? adler then adler - BASE else adler in
    let sum2 := wrap w (sum2 + adler) in
    let sum2 := if BASE <=? sum2 then sum2 - BASE else sum2 in
    Some (recombine adler sum2)
  else
    match buf with
    | None => Some 1
    | Some buf =>
        if len <? 16 then
          '(s, _) ← bytes1 (Z.to_nat len) buf 0 (adler, sum2);
          let adler := if BASE <=? s.1 then s.1 - BASE else s.1 in
          Some (recombine adler (MOD s.2))
        else
          '(s, pos, len) ← nmax_loop (Z.to_nat (len / NMAX)) buf 0 len (adler, sum2);
          s ← (if negb (len =? 0) then
                 '(s, pos) ← blocks16 (Z.to_nat (len / 16)) buf pos s;
                 '(s, _) ← bytes1 (Z.to_nat (len mod 16)) buf pos s;
                 Some (MOD s.1, MOD s.2)
               else Some s);
          Some (recombine s.1 s.2)
    end.

(** [len2] is a signed 64-bit number, the sums are unsigned. *)
Definition adler32_combine (adler1 adler2 len2 : Z) : Z :=
  if len2 <? 0 then wrap w 0xffffffff
  else
    let rem := MOD len2 in
    let sum1 := Z.land adler1 0xffff in
    let sum2 := MOD (wrap w (rem * sum1)) in
    let sum1 := wrap w (sum1 + (Z.land adler2 0xffff + BASE - 1)) in
    let sum2 := wrap w (sum2 + (Z.land (Z.shiftr adler1 16) 0xffff + Z.land (Z.shiftr adler2 16) 0xffff + BASE - rem)) in
    let sum1 := if BASE <=? sum1 then sum1 - BASE else sum1 in
    let sum1 := if BASE <=? sum1 then sum1 - BASE else sum1 in
    let sum2 := if 2 * BASE <=? sum2 then sum2 - 2 * BASE else sum2 in
    let sum2 := if BASE <=? sum2 then sum2 - BASE else sum2 in
    recombine sum1 sum2.

(** ** The definition of the checksum *)

Definition adler_step (s : sums) (b : Z) : sums := let a := (s.1 + b) mod BASE in (a, (s.2 + a) mod BASE).

(** The checksum of a message, after the sums [s]. *)
Definition adler_sums (s : sums) (l : list Z) : sums := foldl adler_step s l.

Definition pack (s : sums) : Z := s.1 + 65536 * s.2.

Definition reduced (s : sums) : Prop := 0 <= s.1 < BASE /\ 0 <= s.2 < BASE.

(** ** Sums without reduction *)

Definition raw_step (s : sums) (b : Z) : sums := (s.1 + b, s.2 + (s.1 + b)).
Definition raw (s : sums) (l : list Z) : sums := foldl raw_step s l.

Definition modsums (s : sums) : sums := (MOD s.1, MOD s.2).

Lemma raw_mod l : forall s, modsums (raw s l) = adler_sums (modsums s) l.
Proof.
  induction l as [|b l IH]; intros s; [done|]; cbn; rewrite IH; f_equal; unfold modsums, adler_step, raw_step, MOD; cbn [fst snd].
  by rewrite Zplus_mod_idemp_l, Zplus_mod_idemp_l, Zplus_mod_idemp_r.
Qed.

Lemma modsums_reduced s : reduced s -> modsums s = s.
Proof. destruct s as [a b]; intros [Ha Hb]; unfold modsums, MOD; cbn in *; by rewrite !Z.mod_small. Qed.

Lemma adler_sums_reduced l : forall s, reduced s -> reduced (adler_sums s l).
Proof.
  induction l as [|b l IH]; intros s H; [done|]; apply IH; unfold reduced, adler_step, BASE; cbn [fst snd].
  split; apply Z.mod_pos_bound; lia.
Qed.

(** The sums after [n] bytes are at most those of [n] bytes 255. *)
Definition worst (s : sums) (n : Z) : Z := s.2 + n * s.1 + 255 * (n * (n + 1) / 2).

Lemma tri n : 0 <= n -> (n + 1) * (n + 2) / 2 = n * (n + 1) / 2 + (n + 1).
Proof. intros; replace ((n + 1) * (n + 2)) with (n * (n + 1) + (n + 1) * 2) by lia; by rewrite Z.div_add by lia. Qed.

Lemma worst_step s b n : 0 <= b < 256 -> 0 <= n -> worst (raw_step s b) n <= worst s (n + 1).
Proof.
  intros Hb Hn; unfold worst, raw_step; cbn [fst snd]; replace (n + 1 + 1) with (n + 2) by lia; rewrite tri by done.
  assert (n * b <= n * 255) by (apply Z.mul_le_mono_nonneg_l; lia); lia.
Qed.

Lemma worst_le s n : 0 <= s.1 -> 0 <= n -> s.2 <= worst s n.
Proof. intros; unfold worst; assert (0 <= n * (n + 1) / 2) by (apply Z.div_pos; nia); nia. Qed.

(** ** Loops as reads of a list *)

Definition fst_of (r : option (sums * Z)) : option sums := '(s, _) ← r; Some s.

Lemma bytes1_add m n : forall buf pos s, bytes1 (m + n) buf pos s = '(s, p) ← bytes1 m buf pos s; bytes1 n buf p s.
Proof.
  induction m as [|m IH]; intros; [done|]; cbn [Nat.add bytes1]; destruct (DO1 _ _ _); cbn [mbind option_bind]; [apply IH|done].
Qed.

Lemma bytes1_pos n : forall buf pos s s' p, bytes1 n buf pos s = Some (s', p) -> p = pos + Z.of_nat n.
Proof.
  induction n as [|n IH]; intros buf pos s s' p; cbn [bytes1]; [intros [= _ <-]; lia|].
  destruct (DO1 _ _ _); cbn [mbind option_bind]; [|done]; intros H; apply IH in H; lia.
Qed.

Lemma double_bytes1 n buf pos s (f : list Z -> Z -> sums -> option sums) :
  (forall p s, f buf p s = fst_of (bytes1 n buf p s)) ->
  (s ← f buf pos s; f buf (pos + Z.of_nat n) s) = fst_of (bytes1 (n + n) buf pos s).
Proof.
  intros Hf; rewrite Hf, bytes1_add; destruct (bytes1 n buf pos s) as [[s1 p]|] eqn:E; cbn [fst_of mbind option_bind]; [|done].
  apply bytes1_pos in E; subst p; by rewrite Hf.
Qed.

Lemma DO16_bytes1 buf pos s : DO16 buf pos s = fst_of (bytes1 16 buf pos s).
Proof.
  assert (forall p s, DO1 buf p s = fst_of (bytes1 1 buf p s)) as H1 by (intros p s0; cbn; by destruct (DO1 buf p s0)).
  assert (forall p s, DO2 buf p s = fst_of (bytes1 2 buf p s)) as H2 by (intros p s0; exact (double_bytes1 1 buf p s0 DO1 H1)).
  assert (forall p s, DO4 buf p s = fst_of (bytes1 4 buf p s)) as H4 by (intros p s0; exact (double_bytes1 2 buf p s0 DO2 H2)).
  assert (forall p s, DO8 buf p s = fst_of (bytes1 8 buf p s)) as H8 by (intros p s0; exact (double_bytes1 4 buf p s0 DO4 H4)).
  exact (double_bytes1 8 buf pos s DO8 H8).
Qed.

Lemma blocks16_bytes1 n : forall buf pos s, blocks16 n buf pos s = bytes1 (16 * n) buf pos s.
Proof.
  induction n as [|n IH]; intros; [done|]; replace (16 * S n)%nat with (16 + 16 * n)%nat by lia.
  rewrite bytes1_add; cbn [blocks16]; rewrite DO16_bytes1; destruct (bytes1 16 buf pos s) as [[s1 p]|] eqn:E; cbn [fst_of mbind option_bind]; [|done].
  apply bytes1_pos in E; subst p; by rewrite IH.
Qed.

Context (Hw : 32 <= w).

Lemma bytes1_raw l : forall pre post s, byte_list l -> 0 <= s.1 -> 0 <= s.2 -> worst s (Z.of_nat (length l)) < 2 ^ w ->
  bytes1 (length l) (pre ++ l ++ post) (Z.of_nat (length pre)) s = Some (raw s l, Z.of_nat (length (pre ++ l))).
Proof.
  induction l as [|b l IH]; intros pre post s Hl H1 H2 HW; [cbn; by rewrite app_nil_r|].
  apply Forall_cons in Hl as [Hb Hl]; cbn [length bytes1 app]; unfold DO1; rewrite zget_app_r by done; cbn [mbind option_bind].
  rewrite length_cons, Nat2Z.inj_succ, <- Z.add_1_r in HW; pose proof (worst_step s b (Z.of_nat (length l)) Hb ltac:(lia)) as HS.
  pose proof (worst_le (raw_step s b) (Z.of_nat (length l)) ltac:(cbn; lia) ltac:(lia)) as HL; cbn [raw_step fst snd] in HL.
  rewrite (wrap_small w (s.1 + b)), wrap_small by (unfold in_range; lia).
  specialize (IH (pre ++ [b]) post (raw_step s b) Hl ltac:(cbn; lia) ltac:(cbn; lia) ltac:(lia)).
  rewrite length_app, Nat2Z.inj_add in IH; change (Z.of_nat (length [b])) with 1 in IH; rewrite <- !app_assoc in IH; cbn [app] in IH.
  change (s.1 + b, s.2 + (s.1 + b)) with (raw_step s b); rewrite IH; do 3 f_equal; rewrite !length_app; cbn; lia.
Qed.

(** The bound of the source: [NMAX] is the largest number of bytes for which
    the sums fit in 32 bits. *)
Lemma nmax_fits s n : reduced s -> 0 <= n <= NMAX -> worst s n < 2 ^ 32.
Proof.
  intros [[? H1] [? H2]] Hn; unfold worst, NMAX, BASE in *.
  assert (n * (n + 1) / 2 <= 5552 * 5553 / 2) by (apply Z.div_le_mono; nia).
  change (5552 * 5553 / 2) with 15415128 in *; nia.
Qed.

Lemma pow_w : 2 ^ 32 <= 2 ^ w. Proof. apply Z.pow_le_mono_r; lia. Qed.

Lemma bytes1_block l pre post s : byte_list l -> reduced s -> Z.of_nat (length l) <= NMAX ->
  exists s', bytes1 (length l) (pre ++ l ++ post) (Z.of_nat (length pre)) s = Some (s', Z.of_nat (length (pre ++ l))) /\
    modsums s' = adler_sums s l /\ s' = raw s l.
Proof.
  intros Hl Hs Hn; exists (raw s l); pose proof (nmax_fits s (Z.of_nat (length l)) Hs ltac:(lia)); pose proof pow_w.
  destruct Hs as [? ?] eqn:E; rewrite bytes1_raw by (done || lia); split_and!; [done| |done].
  by rewrite raw_mod, modsums_reduced.
Qed.

Lemma adler_sums_app s l1 l2 : adler_sums s (l1 ++ l2) = adler_sums (adler_sums s l1) l2.
Proof. unfold adler_sums; by rewrite foldl_app. Qed.

Lemma byte_list_take n l : byte_list l -> byte_list (take n l). Proof. apply Forall_take. Qed.
Lemma byte_list_drop n l : byte_list l -> byte_list (drop n l). Proof. apply Forall_drop. Qed.

Lemma nmax_loop_ok q : forall l pre s, byte_list l -> reduced s -> Z.of_nat (length l) / NMAX = Z.of_nat q ->
  exists l1 l2, l = l1 ++ l2 /\ Z.of_nat (length l2) < NMAX /\
    nmax_loop q (pre ++ l) (Z.of_nat (length pre)) (Z.of_nat (length l)) s =
      Some (adler_sums s l1, Z.of_nat (length (pre ++ l1)), Z.of_nat (length l2)).
Proof.
  induction q as [|q IH]; intros l pre s Hl Hs Hq; cbn [nmax_loop]; unfold NMAX in *.
  - apply Z.div_small_iff in Hq as [Hq|Hq]; [|lia|lia]; rewrite (proj2 (Z.leb_gt _ _)) by lia.
    exists [], l; rewrite app_nil_r; split_and!; [done|lia|done].
  - assert (5552 <= Z.of_nat (length l)) as Hle by (pose proof (Z.mul_div_le (Z.of_nat (length l)) 5552 ltac:(lia)); lia).
    rewrite (proj2 (Z.leb_le _ _)) by lia; rewrite blocks16_bytes1.
    set (k := Z.to_nat 5552); replace (pre ++ l) with (pre ++ take k l ++ drop k l) by (by rewrite take_drop).
    assert (length (take k l) = k) as Hk by (rewrite length_take; unfold k; lia).
    replace (16 * Z.to_nat (5552 / 16))%nat with (length (take k l)) by (rewrite Hk; reflexivity).
    destruct (bytes1_block (take k l) pre (drop k l) s) as (s1 & -> & E1 & _); [by apply byte_list_take|done|unfold NMAX; rewrite Hk; done|].
    cbn [mbind option_bind]; change (MOD s1.1, MOD s1.2) with (modsums s1); rewrite E1.
    destruct (IH (drop k l) (pre ++ take k l) (adler_sums s (take k l))) as (l1 & l2 & E & Hl2 & EN).
    + by apply byte_list_drop.
    + by apply adler_sums_reduced.
    + rewrite length_drop, Nat2Z.inj_sub by (unfold k; lia); unfold k; rewrite Z2Nat.id by lia.
      replace (Z.of_nat (length l) - 5552) with (Z.of_nat (length l) + (-1) * 5552) by lia; rewrite Z.div_add by lia; lia.
    + exists (take k l ++ l1), l2; split_and!; [by rewrite <- app_assoc, <- E, take_drop|done|].
      rewrite adler_sums_app, (app_assoc pre (take k l) l1), (app_assoc pre (take k l) (drop k l)), <- EN.
      f_equal; rewrite length_drop; unfold k; lia.
Qed.


Lemma recombine_pack s : reduced s -> recombine s.1 s.2 = pack s.
Proof.
  intros [H1 H2]; pose proof pow_w; unfold recombine, pack, BASE in *; rewrite wrap_small, lor_shiftl by (rewrite ?Z.shiftl_mul_pow2 by lia; unfold in_range; lia).
  lia.
Qed.

Lemma unpack s : reduced s -> Z.land (pack s) 0xffff = s.1 /\ Z.land (Z.shiftr (pack s) 16) 0xffff = s.2.
Proof.
  intros [H1 H2]; unfold pack, BASE in *; change 0xffff with (Z.ones 16); rewrite !Z.land_ones, Z.shiftr_div_pow2 by lia; change (2 ^ 16) with 65536.
  rewrite (Z.mul_comm 65536), Z.mod_add, Z.div_add, Z.div_small, (Z.mod_small s.1), Z.mod_small by lia; done.
Qed.

Lemma small_mod a : 0 <= a < 2 * BASE -> (if BASE <=? a then a - BASE else a) = MOD a.
Proof.
  intros H; unfold MOD; destruct (Z.leb_spec BASE a); [|by rewrite Z.mod_small by lia].
  apply Z.mod_unique with 1; lia.
Qed.

Lemma raw_fst l : forall s, byte_list l -> s.1 <= (raw s l).1 <= s.1 + 255 * Z.of_nat (length l).
Proof.
  induction l as [|b l IH]; intros s Hl; [cbn; lia|]; apply Forall_cons in Hl as [Hb Hl].
  specialize (IH (raw_step s b) Hl); cbn [raw foldl length]; unfold raw in IH; cbn [raw_step fst] in IH; lia.
Qed.

Lemma adler32_ok s l : reduced s -> byte_list l -> Z.of_nat (length l) < 2 ^ 32 ->
  adler32 (pack s) (Some l) (Z.of_nat (length l)) = Some (pack (adler_sums s l)).
Proof.
  intros Hs Hl HL; unfold adler32; destruct (unpack s Hs) as [-> ->].
  pose proof (adler_sums_reduced l s Hs) as HR; pose proof pow_w as HP; destruct (Z.eqb_spec (Z.of_nat (length l)) 1) as [E1|E1].
  - destruct l as [|b [|]]; [done| |cbn in E1; lia]; apply Forall_cons in Hl as [Hl _]; cbn [mbind option_bind]; destruct Hs as [Ha Hb]; unfold BASE in Ha, Hb.
    change (zget [b] 0) with (Some b); cbn [mbind option_bind]; rewrite (wrap_small w (s.1 + b)), small_mod by (unfold in_range, BASE; lia).
    assert (0 <= MOD (s.1 + b) < BASE) as Hm by (apply Z.mod_pos_bound; done); unfold BASE in Hm.
    rewrite wrap_small, small_mod by (unfold in_range, BASE; lia).
    change (MOD (s.1 + b), MOD (s.2 + MOD (s.1 + b))) with (adler_step s b); f_equal; by apply (recombine_pack (adler_step s b)).
  - replace (s.1, s.2) with s by (by destruct s); destruct (Z.ltb_spec (Z.of_nat (length l)) 16) as [H16|H16].
    + destruct (bytes1_block l [] [] s Hl Hs) as (s' & E & E2 & E3); [unfold NMAX; lia|]; cbn [app length] in E; rewrite app_nil_r in E; change (Z.of_nat 0) with 0 in E.
      rewrite Nat2Z.id, E; cbn [mbind option_bind].
      pose proof (raw_fst l s Hl) as Hf; rewrite <- E3 in Hf; destruct Hs as [Ha _]; rewrite small_mod by (unfold BASE in *; lia).
      change (recombine (MOD s'.1) (MOD s'.2)) with (recombine (modsums s').1 (modsums s').2); by rewrite E2, recombine_pack.
    + destruct (nmax_loop_ok (Z.to_nat (Z.of_nat (length l) / NMAX)) l [] s Hl Hs) as (l1 & l2 & E & Hl2 & EN).
      { rewrite Z2Nat.id; [done|]; apply Z.div_pos; [lia|done]. }
      cbn [app length] in EN; change (Z.of_nat 0) with 0 in EN; rewrite EN; cbn [mbind option_bind].
      rewrite E, adler_sums_app in HR |- *; destruct (Z.eqb_spec (Z.of_nat (length l2)) 0) as [E0|E0]; cbn [negb].
      * destruct l2; [|cbn in E0; lia]; cbn [mbind option_bind]; by rewrite recombine_pack.
      * rewrite blocks16_bytes1; set (n := (16 * Z.to_nat (Z.of_nat (length l2) / 16))%nat).
        assert (n + Z.to_nat (Z.of_nat (length l2) mod 16) = length l2)%nat as Hn.
        { pose proof (Z.div_mod (Z.of_nat (length l2)) 16 ltac:(lia)); pose proof (Z.mod_pos_bound (Z.of_nat (length l2)) 16 ltac:(lia)).
          pose proof (Z.div_pos (Z.of_nat (length l2)) 16 ltac:(lia) ltac:(lia)); unfold n; lia. }
        pose proof (bytes1_add n (Z.to_nat (Z.of_nat (length l2) mod 16)) (l1 ++ l2) (Z.of_nat (length l1)) (adler_sums s l1)) as EA; rewrite Hn in EA.
        rewrite E in Hl; apply Forall_app in Hl as [Hl1 Hl2'].
        destruct (bytes1_block l2 l1 [] (adler_sums s l1) Hl2') as (s' & EB & E2 & _); [by apply adler_sums_reduced|lia|].
        rewrite app_nil_r in EB; rewrite EB in EA; destruct (bytes1 n _ _ _) as [[s1 p1]|]; [|done]; cbn [mbind option_bind] in EA |- *.
        rewrite <- EA; cbn [mbind option_bind]; change (MOD s'.1, MOD s'.2) with (modsums s'); by rewrite E2, recombine_pack.
Qed.

(** ** Concatenation *)

Lemma raw_shift l : forall s, raw s l = (s.1 + (raw (0, 0) l).1, s.2 + Z.of_nat (length l) * s.1 + (raw (0, 0) l).2).
Proof.
  induction l as [|b l IH]; intros s; [destruct s; cbn; f_equal; lia|]; cbn [raw foldl length]; unfold raw in IH.
  rewrite (IH (raw_step s b)), (IH (raw_step (0, 0) b)); cbn [raw_step fst snd]; f_equal; lia.
Qed.

Lemma adler_sums_closed s l : reduced s ->
  adler_sums s l = (MOD (s.1 + (raw (0, 0) l).1), MOD (s.2 + Z.of_nat (length l) * s.1 + (raw (0, 0) l).2)).
Proof. intros Hs; rewrite <- (modsums_reduced s Hs) at 1; by rewrite <- raw_mod, raw_shift. Qed.

Lemma three_mod a : 0 <= a < 3 * BASE ->
  (let b := if BASE <=? a then a - BASE else a in if BASE <=? b then b - BASE else b) = MOD a.
Proof.
  intros H; cbv zeta; destruct (Z.leb_spec BASE a); rewrite small_mod by lia; [|done].
  unfold MOD; replace (a - BASE) with (a + (-1) * BASE) by lia; by apply Z.mod_add.
Qed.

Lemma four_mod a : 0 <= a < 4 * BASE ->
  (let b := if 2 * BASE <=? a then a - 2 * BASE else a in if BASE <=? b then b - BASE else b) = MOD a.
Proof.
  intros H; cbv zeta; destruct (Z.leb_spec (2 * BASE) a); rewrite small_mod by lia; [|done].
  unfold MOD; replace (a - 2 * BASE) with (a + (-2) * BASE) by lia; by apply Z.mod_add.
Qed.

Lemma adler_start : reduced (1, 0). Proof. done. Qed.

Lemma combine_ok x y : adler32_combine (pack (adler_sums (1, 0) x)) (pack (adler_sums (1, 0) y)) (Z.of_nat (length y)) =
  pack (adler_sums (1, 0) (x ++ y)).
Proof.
  pose proof (adler_sums_reduced x _ adler_start) as Hx; pose proof (adler_sums_reduced y _ adler_start) as Hy.
  rewrite adler_sums_app, (adler_sums_closed (adler_sums (1, 0) x) y) by done; unfold adler32_combine.
  destruct (unpack _ Hx) as [-> ->], (unpack _ Hy) as [-> ->]; rewrite (proj2 (Z.ltb_ge _ _)) by lia.
  rewrite (adler_sums_closed (1, 0) y) in Hy |- * by done; cbn [fst snd] in Hy |- *; rewrite Z.mul_1_r, Z.add_0_l in *.
  set (n := Z.of_nat (length y)) in *; destruct (raw (0, 0) y) as [S1 S2]; destruct (adler_sums (1, 0) x) as [a b].
  destruct Hx as [Ha Hb], Hy as [Hc Hd]; cbn [fst snd] in *; pose proof pow_w as HP.
  assert (0 <= MOD n < BASE) as Hn by (apply Z.mod_pos_bound; done); unfold BASE in Ha, Hb, Hc, Hd, Hn.
  rewrite (wrap_small w (MOD n * a)) by (unfold in_range; nia).
  assert (0 <= MOD (MOD n * a) < 65521) as Hm by (apply Z.mod_pos_bound; done).
  rewrite !(wrap_small w) by (unfold in_range, BASE; lia).
  pose proof (three_mod (a + (MOD (1 + S1) + BASE - 1)) ltac:(unfold BASE; lia)) as E1; cbv zeta in E1; rewrite E1.
  pose proof (four_mod (MOD (MOD n * a) + (b + MOD (n + S2) + BASE - MOD n)) ltac:(unfold BASE; lia)) as E2; cbv zeta in E2; rewrite E2.
  assert (MOD (a + (MOD (1 + S1) + BASE - 1)) = MOD (a + S1)) as ->.
  { unfold MOD; replace (a + ((1 + S1) mod BASE + BASE - 1)) with ((a - 1 + (1 + S1) mod BASE) + 1 * BASE) by lia.
    rewrite Z.mod_add, Zplus_mod_idemp_r by done; f_equal; lia. }
  assert (MOD (MOD (MOD n * a) + (b + MOD (n + S2) + BASE - MOD n)) = MOD (b + n * a + S2)) as ->.
  { unfold MOD; replace ((n mod BASE * a) mod BASE + (b + (n + S2) mod BASE + BASE - n mod BASE))
      with ((n mod BASE * a) mod BASE + ((n + S2) mod BASE + (b - n mod BASE)) + 1 * BASE) by lia.
    rewrite Zmult_mod_idemp_l, Z.mod_add, Zplus_mod_idemp_l by done.
    rewrite <- (Zplus_mod_idemp_r ((n + S2) mod BASE + (b - n mod BASE))), Zplus_mod_idemp_l.
    replace (n + S2 + (b - n mod BASE)) with (n + S2 + b - n mod BASE) by lia; rewrite Zminus_mod_idemp_r, Zplus_mod_idemp_r; f_equal; lia. }
  apply (recombine_pack (MOD (a + S1), MOD (b + n * a + S2))); split; cbn; apply Z.mod_pos_bound; done.
Qed.

End Adler.

(** [adler32] is the Adler-32 checksum of the bytes, from any valid
    checksum on, whichever of its paths is taken; its sums fit in 32 bits
    between reductions, and [NMAX] is the largest block for which they do;
    [adler32_combine] gives the checksum of a concatenation from those of its
    parts. *)
Theorem adler32_correct w s x y : 32 <= w -> reduced s -> byte_list x -> Z.of_nat (length x) < 2 ^ 32 ->
  adler32 w (pack s) (Some x) (Z.of_nat (length x)) = Some (pack (adler_sums s x)) /\
  adler32_combine w (pack (adler_sums (1, 0) x)) (pack (adler_sums (1, 0) y)) (Z.of_nat (length y)) =
    pack (adler_sums (1, 0) (x ++ y)) /\
  worst s NMAX < 2 ^ 32 /\ 2 ^ 32 <= worst (BASE - 1, BASE - 1) (NMAX + 1).
Proof.
  intros Hw Hs Hx Hl; split_and!; [by apply adler32_ok|by apply combine_ok|by apply nmax_fits|by vm_compute].
Qed.

Lemma adler32_correct_witness :
  adler32 64 (pack (1, 0)) (Some [87; 105; 107; 105; 112; 101; 100; 105; 97]) 9 = Some 0x11e60398 /\
  adler32_combine 64 (pack (adler_sums (1, 0) [87; 105; 107; 105; 112; 101; 100; 105; 97])) (pack (adler_sums (1, 0) [255; 0])) 2 =
    pack (adler_sums (1, 0) ([87; 105; 107; 105; 112; 101; 100; 105; 97] ++ [255; 0])) /\
  worst (1, 0) NMAX < 2 ^ 32 /\ 2 ^ 32 <= worst (BASE - 1, BASE - 1) (NMAX + 1).
Proof.
  apply (adler32_correct 64 (1, 0) [87; 105; 107; 105; 112; 101; 100; 105; 97] [255; 0]);
    [lia|vm_compute; repeat split; congruence|repeat constructor; lia|vm_compute; reflexivity].
Defined.
