(* ===== verification/Inet.v ===== *)
(** * The Internet checksum of lwIP (lwip/src/core/inet_chksum.c)

    The checksum of a buffer at any address, of a chain of buffers, and with
    the IPv4 pseudo header.  [le] is the byte order of the machine; a buffer is
    its address and its bytes.  [LWIP_CHKSUM_ALGORITHM] is 2, as in
    cherios/system/lwip/include/lwipopts.h.  [BYTE_ORDER] is big-endian on every
    machine, as in cherios/system/lwip/include/arch/cc.h, so [lwip_htons] is the
    identity: right on MIPS, and wrong on the little-endian RISC-V target. *)

From S2P Require Import Prelude.

Section Inet.

Context (le : bool).

(** The 16-bit load of two bytes. *)
Definition load16 (a b : Z) : Z := if le then a + 256 * b else 256 * a + b.

Definition FOLD_U32T (u : Z) : Z := u32 (Z.shiftr u 16 + Z.land u 0xffff).

Definition SWAP_BYTES_IN_WORD (w : Z) : Z := Z.lor (Z.shiftl (Z.land w 0xff) 8) (Z.shiftr (Z.land w 0xff00) 8).

Definition lwip_htons (x : Z) : Z := x.

(** [while (len > 1)]: the sum and what is left. *)
Fixpoint sum_words (sum : Z) (l : list Z) : Z * list Z :=
  match l with
  | a :: b :: l => sum_words (u32 (sum + load16 a b)) l
  | _ => (sum, l)
  end.

Definition lwip_standard_chksum (dataptr : Z) (l : list Z) : Z :=
  let odd := Z.odd dataptr in
  let '(t1, l) := match odd, l with true, x :: l => (x, l) | _, _ => (0, l) end in
  let '(sum, rest) := sum_words 0 l in
  let t0 := match rest with x :: _ => x | [] => 0 end in
  let sum := u32 (sum + load16 t0 t1) in
  let sum := FOLD_U32T sum in
  let sum := FOLD_U32T sum in
  let sum := if odd then SWAP_BYTES_IN_WORD sum else sum in
  u16 sum.

Definition inet_chksum (dataptr : Z) (l : list Z) : Z := u16 (Z.lnot (lwip_standard_chksum dataptr l)).

Record pbuf := mk_pbuf { payload : Z; bytes : list Z }.

Definition pbuf_len (q : pbuf) : Z := Z.of_nat (length (bytes q)).

(** One turn of the loops over a chain. *)
Definition chksum_pbuf (st : Z * bool) (q : pbuf) : Z * bool :=
  let acc := u32 (st.1 + lwip_standard_chksum (payload q) (bytes q)) in
  let acc := FOLD_U32T acc in
  if negb (pbuf_len q mod 2 =? 0) then (SWAP_BYTES_IN_WORD acc, negb st.2) else (acc, st.2).

Definition inet_chksum_pbuf (p : list pbuf) : Z :=
  let '(acc, swapped) := foldl chksum_pbuf (0, false) p in
  let acc := if swapped : bool then SWAP_BYTES_IN_WORD acc else acc in
  u16 (Z.lnot (Z.land acc 0xffff)).

Definition inet_cksum_pseudo_base (p : list pbuf) (proto proto_len acc : Z) : Z :=
  let '(acc, swapped) := foldl chksum_pbuf (acc, false) p in
  let acc := if swapped : bool then SWAP_BYTES_IN_WORD acc else acc in
  let acc := u32 (acc + lwip_htons proto) in
  let acc := u32 (acc + lwip_htons proto_len) in
  let acc := FOLD_U32T acc in
  let acc := FOLD_U32T acc in
  u16 (Z.lnot (Z.land acc 0xffff)).

(** The sum of the halves of two addresses. *)
Definition addr_acc (src dest : Z) : Z :=
  let acc := Z.land src 0xffff in
  let acc := u32 (acc + Z.land (Z.shiftr src 16) 0xffff) in
  let acc := u32 (acc + Z.land dest 0xffff) in
  let acc := u32 (acc + Z.land (Z.shiftr dest 16) 0xffff) in
  FOLD_U32T (FOLD_U32T acc).

Definition inet_chksum_pseudo (p : list pbuf) (proto proto_len src dest : Z) : Z :=
  inet_cksum_pseudo_base p proto proto_len (addr_acc src dest).

(** The partial checksum; [None] is the failed assertion. *)
Fixpoint partial_loop (p : list pbuf) (chksum_len : Z) (st : Z * bool) : option (Z * bool) :=
  match p with
  | q :: p =>
      if 0 <? chksum_len then
        let chklen := if chksum_len <? pbuf_len q then chksum_len else pbuf_len q in
        let acc := u32 (st.1 + lwip_standard_chksum (payload q) (take (Z.to_nat chklen) (bytes q))) in
        let chksum_len := u16 (chksum_len - chklen) in
        if chksum_len <? 0x7fff then
          let acc := FOLD_U32T acc in
          partial_loop p chksum_len
            (if negb (pbuf_len q mod 2 =? 0) then (SWAP_BYTES_IN_WORD acc, negb st.2) else (acc, st.2))
        else None
      else Some st
  | [] => Some st
  end.

Definition inet_cksum_pseudo_partial_base (p : list pbuf) (proto proto_len chksum_len acc : Z) : option Z :=
  '(acc, swapped) ← partial_loop p chksum_len (acc, false);
  let acc := if swapped : bool then SWAP_BYTES_IN_WORD acc else acc in
  let acc := u32 (acc + lwip_htons proto) in
  let acc := u32 (acc + lwip_htons proto_len) in
  let acc := FOLD_U32T acc in
  let acc := FOLD_U32T acc in
  Some (u16 (Z.lnot (Z.land acc 0xffff))).

Definition inet_chksum_pseudo_partial (p : list pbuf) (proto proto_len chksum_len src dest : Z) : option Z :=
  inet_cksum_pseudo_partial_base p proto proto_len chksum_len (addr_acc src dest).

(** ** The definition of the checksum

    The one's complement sum of the 16-bit words of a message, the last one
    padded with a zero byte. *)

Fixpoint word_sum (l : list Z) : Z :=
  match l with
  | a :: b :: l => load16 a b + word_sum l
  | [a] => load16 a 0
  | [] => 0
  end.

Definition ones (s : Z) : Z := if s =? 0 then 0 else 1 + (s - 1) mod 65535.

Definition checksum (l : list Z) : Z := 65535 - ones (word_sum l).

(** ** One's complement arithmetic *)

(** Equality of sums in one's complement arithmetic: zero is only equal to
    itself. *)
Definition oc (s s' : Z) : Prop := s mod 65535 = s' mod 65535 /\ (s = 0 <-> s' = 0).

#[local] Instance oc_equiv : Equivalence oc.
Proof.
  split; [by intros s|intros s s' [H1 H2]; split; [done|tauto]|intros s s' s'' [H1 H2] [H3 H4]; split; [congruence|tauto]].
Qed.

(** [r] is the one's complement value of [s]. *)
Definition is_ones (r s : Z) : Prop := 0 <= r <= 65535 /\ oc r s.

Lemma ones_is s : 0 <= s -> is_ones (ones s) s.
Proof.
  intros H; unfold is_ones, oc, ones; destruct (Z.eqb_spec s 0) as [->|Hs]; [done|].
  pose proof (Z.mod_pos_bound (s - 1) 65535 ltac:(lia)); split_and!; [lia|lia| |lia].
  rewrite Zplus_mod_idemp_r; f_equal; lia.
Qed.

Lemma is_ones_eq r s : 0 <= s -> is_ones r s -> r = ones s.
Proof.
  intros Hs (Hr & Hm & Hz); pose proof (ones_is s Hs) as (Ho & Hm' & Hz'); rewrite <- Hm' in Hm.
  destruct (decide (s = 0)) as [E|E]; [rewrite (proj2 Hz E), (proj2 Hz' E); done|].
  assert (r <> 0) by tauto; assert (ones s <> 0) by tauto.
  pose proof (Z.div_mod r 65535 ltac:(lia)); pose proof (Z.div_mod (ones s) 65535 ltac:(lia)).
  pose proof (Z.mod_pos_bound r 65535 ltac:(lia)); nia.
Qed.

Lemma FOLD_spec s : 0 <= s < 2 ^ 32 -> FOLD_U32T s = s / 65536 + s mod 65536.
Proof.
  intros H; unfold FOLD_U32T; change 0xffff with (Z.ones 16); rewrite Z.land_ones, Z.shiftr_div_pow2 by lia; change (2 ^ 16) with 65536.
  apply wrap_small; pose proof (Z.mod_pos_bound s 65536 ltac:(lia)).
  assert (0 <= s / 65536 < 65536) by (split; [apply Z.div_pos|apply Z.div_lt_upper_bound]; lia); unfold in_range; lia.
Qed.

Lemma FOLD_mod s : 0 <= s < 2 ^ 32 -> 0 <= FOLD_U32T s <= 131070 /\ FOLD_U32T s mod 65535 = s mod 65535 /\ (FOLD_U32T s = 0 <-> s = 0) /\
  (s <= 131070 -> FOLD_U32T s <= 65535).
Proof.
  intros H; rewrite FOLD_spec by done; pose proof (Z.mod_pos_bound s 65536 ltac:(lia)); pose proof (Z.div_mod s 65536 ltac:(lia)).
  assert (0 <= s / 65536 < 65536) by (split; [apply Z.div_pos|apply Z.div_lt_upper_bound]; lia).
  split_and!; try lia.
  rewrite (Z.div_mod s 65536) at 3 by lia; replace (65536 * (s / 65536) + s mod 65536) with (s / 65536 + s mod 65536 + (s / 65536) * 65535) by lia.
  by rewrite Z.mod_add by lia.
Qed.

(** Folding twice gives the one's complement value. *)
Lemma fold2_ones s : 0 <= s < 2 ^ 32 -> is_ones (FOLD_U32T (FOLD_U32T s)) s.
Proof.
  intros H; destruct (FOLD_mod s H) as (H1 & H2 & H3 & _); destruct (FOLD_mod (FOLD_U32T s)) as (K1 & K2 & K3 & K4); [lia|].
  unfold is_ones, oc; split_and!; [lia|apply K4; lia|congruence|tauto..].
Qed.

(** One fold is enough for the sum of two values. *)
Lemma fold1_ones s : 0 <= s <= 131070 -> is_ones (FOLD_U32T s) s.
Proof. intros H; destruct (FOLD_mod s) as (H1 & H2 & H3 & H4); [lia|]; unfold is_ones, oc; split_and!; [lia|by apply H4; lia|done|tauto..]. Qed.

Lemma SWAP_spec w : 0 <= w < 65536 -> SWAP_BYTES_IN_WORD w = 256 * (w mod 256) + w / 256.
Proof.
  intros H; unfold SWAP_BYTES_IN_WORD; change 0xff with (Z.ones 8); rewrite Z.land_ones by lia.
  change 0xff00 with (Z.shiftl (Z.ones 8) 8); rewrite Z.shiftr_land, Z.shiftr_div_pow2 by lia.
  change (Z.shiftr (Z.shiftl (Z.ones 8) 8) 8) with (Z.ones 8); rewrite Z.land_ones by lia; change (2 ^ 8) with 256.
  assert (0 <= w / 256 < 256) by (split; [apply Z.div_pos|apply Z.div_lt_upper_bound]; lia).
  rewrite (Z.mod_small (w / 256)), Z.lor_comm, lor_shiftl by lia; change (2 ^ 8) with 256; lia.
Qed.

Lemma SWAP_ones w : 0 <= w <= 65535 -> is_ones (SWAP_BYTES_IN_WORD w) (256 * w).
Proof.
  intros H; rewrite SWAP_spec by lia; pose proof (Z.mod_pos_bound w 256 ltac:(lia)); pose proof (Z.div_mod w 256 ltac:(lia)).
  assert (0 <= w / 256 < 256) by (split; [apply Z.div_pos|apply Z.div_lt_upper_bound]; lia).
  unfold is_ones, oc; split_and!; try lia.
  replace (256 * w) with (256 * (w mod 256) + w / 256 + (w / 256) * 65535) by lia; by rewrite Z.mod_add by lia.
Qed.

Lemma oc_add a a' b b' : 0 <= a -> 0 <= a' -> 0 <= b -> 0 <= b' -> oc a a' -> oc b b' -> oc (a + b) (a' + b').
Proof.
  intros Ha Ha' Hb Hb' [H1 H2] [H3 H4]; split; [by rewrite Zplus_mod, H1, H3, <- Zplus_mod|].
  split; intros; assert (a = 0 <-> b = 0) by lia; lia.
Qed.

Lemma oc_256 a a' : oc a a' -> oc (256 * a) (256 * a').
Proof. intros [H1 H2]; split; [by rewrite Zmult_mod, H1, <- Zmult_mod|lia]. Qed.

Lemma oc_wrap a : 0 <= a -> oc (256 * (256 * a)) a.
Proof. intros H; split; [|lia]; replace (256 * (256 * a)) with (a + a * 65535) by lia; by rewrite Z.mod_add by lia. Qed.

Lemma is_ones_oc r s s' : oc s s' -> is_ones r s -> is_ones r s'.
Proof. intros H [H1 H2]; split; [done|by rewrite <- H]. Qed.

(** The weight of the first byte of a message. *)
Definition weight : Z := if le then 1 else 256.

Lemma word_sum_nonneg l : byte_list l -> 0 <= word_sum l.
Proof.
  induction l as [|x|x y l IH] using list_pair_ind; intros H; cbn; [lia| |].
  - apply Forall_cons in H as [H _]; unfold load16; destruct le; lia.
  - apply Forall_cons in H as [Hx H]; apply Forall_cons in H as [Hy H]; specialize (IH H); unfold load16; destruct le; lia.
Qed.

Lemma word_sum_cons l : forall x, 0 <= x < 256 -> byte_list l -> oc (word_sum (x :: l)) (weight * x + 256 * word_sum l).
Proof.
  induction l as [|b l IH]; intros x Hx H; [cbn; unfold load16, weight; destruct le; split; try f_equal; lia|].
  apply Forall_cons in H as [Hb H]; specialize (IH b Hb H); pose proof (word_sum_nonneg l H) as Hn.
  pose proof (word_sum_nonneg (b :: l) (Forall_cons_2 _ _ _ Hb H)) as Hn'.
  change (word_sum (x :: b :: l)) with (load16 x b + word_sum l); transitivity (weight * x + 256 * (weight * b + 256 * word_sum l)).
  - split; [|unfold load16, weight; destruct le; lia].
    unfold load16, weight; destruct le; [replace (1 * x + 256 * (1 * b + 256 * word_sum l)) with (x + 256 * b + word_sum l + word_sum l * 65535) by lia
      |replace (256 * x + 256 * (256 * b + 256 * word_sum l)) with (256 * x + b + word_sum l + (b + word_sum l) * 65535) by lia];
      by rewrite Z.mod_add by lia.
  - symmetry; apply oc_add; try (unfold weight; destruct le; lia); [reflexivity|by apply oc_256].
Qed.

(** A sum seen from a message that starts at an odd or even place. *)
Definition sw (n : nat) (a : Z) : Z := if Nat.odd n then 256 * a else a.

Lemma sw_odd n a : Nat.odd n = true -> sw n a = 256 * a. Proof. unfold sw; by intros ->. Qed.
Lemma sw_even n a : Nat.odd n = false -> sw n a = a. Proof. unfold sw; by intros ->. Qed.

Lemma sw_nonneg n a : 0 <= a -> 0 <= sw n a. Proof. unfold sw; destruct (Nat.odd n); lia. Qed.

Lemma oc_sw n a a' : oc a a' -> oc (sw n a) (sw n a'). Proof. unfold sw; destruct (Nat.odd n); [apply oc_256|done]. Qed.

Lemma sw_S n a : 0 <= a -> oc (256 * sw n a) (sw (S n) a).
Proof. intros H; unfold sw; rewrite Nat.odd_succ, <- Nat.negb_odd; destruct (Nat.odd n); cbn [negb]; [by apply oc_wrap|done]. Qed.

Lemma word_sum_app p : forall q, byte_list p -> byte_list q -> oc (word_sum (p ++ q)) (word_sum p + sw (length p) (word_sum q)).
Proof.
  induction p as [|x p IH]; intros q Hp Hq; [done|]; apply Forall_cons in Hp as [Hx Hp]; cbn [app length].
  pose proof (word_sum_nonneg p Hp); pose proof (word_sum_nonneg q Hq); pose proof (sw_nonneg (length p) (word_sum q) ltac:(lia)).
  pose proof (word_sum_nonneg (p ++ q) (Forall_app_2 _ _ _ Hp Hq)).
  assert (0 <= weight * x) by (unfold weight; destruct le; lia).
  rewrite word_sum_cons by (done || by apply Forall_app); transitivity (weight * x + 256 * (word_sum p + sw (length p) (word_sum q))).
  - apply oc_add; try lia; [reflexivity|by apply oc_256, IH].
  - replace (weight * x + 256 * (word_sum p + sw (length p) (word_sum q)))
      with (weight * x + 256 * word_sum p + 256 * sw (length p) (word_sum q)) by lia.
    pose proof (word_sum_nonneg (x :: p) (Forall_cons_2 _ _ _ Hx Hp)); pose proof (sw_nonneg (S (length p)) (word_sum q) ltac:(lia)).
    apply oc_add; try lia; [symmetry; by apply word_sum_cons|by apply sw_S].
Qed.

(** ** A buffer *)

Lemma load16_bound a b : 0 <= a < 256 -> 0 <= b < 256 -> 0 <= load16 a b <= 65535.
Proof. unfold load16; destruct le; lia. Qed.

Lemma load16_weight a b : load16 a b = load16 a 0 + load16 0 b /\ oc (256 * load16 0 b) (weight * b).
Proof.
  unfold load16, weight; destruct le; (split; [lia|split; [|lia]]); [|f_equal; lia].
  replace (256 * (0 + 256 * b)) with (1 * b + b * 65535) by lia; by rewrite Z.mod_add by lia.
Qed.

Lemma word_sum_bound l : byte_list l -> word_sum l <= 65535 * ((Z.of_nat (length l) + 1) / 2).
Proof.
  induction l as [|x|x y l IH] using list_pair_ind; intros H; cbn [word_sum length]; [done| |].
  - apply Forall_cons in H as [H _]; pose proof (load16_bound x 0 H ltac:(lia)); change ((Z.of_nat 1 + 1) / 2) with 1; lia.
  - apply Forall_cons in H as [Hx H]; apply Forall_cons in H as [Hy H]; specialize (IH H); pose proof (load16_bound x y Hx Hy).
    replace (Z.of_nat (S (S (length l))) + 1) with (Z.of_nat (length l) + 1 + 1 * 2) by lia; rewrite Z.div_add by lia; lia.
Qed.

Lemma sum_words_ok l : forall sum, byte_list l -> 0 <= sum -> sum + word_sum l < 2 ^ 32 ->
  exists s r, sum_words sum l = (s, r) /\ 0 <= s /\ s + load16 (match r with x :: _ => x | [] => 0 end) 0 = sum + word_sum l /\
    (forall x r', r = x :: r' -> 0 <= x < 256 /\ Nat.odd (length l) = true).
Proof.
  induction l as [|x|x y l IH] using list_pair_ind; intros sum H Hs HW; cbn [word_sum sum_words] in *.
  - exists sum, []; split_and!; [done|done| |done]; unfold load16; destruct le; lia.
  - apply Forall_cons in H as [Hx H]; exists sum, [x]; split_and!; [done|done|lia|]; intros ? ? [= <- _]; done.
  - apply Forall_cons in H as [Hx H]; apply Forall_cons in H as [Hy H]; pose proof (load16_bound x y Hx Hy); pose proof (word_sum_nonneg l H).
    rewrite wrap_small by (unfold in_range; lia); destruct (IH (sum + load16 x y) H) as (s & r & E & Hs' & Hr & HN); [lia|lia|].
    exists s, r; split_and!; [done|done|lia|]; intros z r' Er; by destruct (HN z r' Er).
Qed.

Lemma standard_even l : byte_list l -> word_sum l < 2 ^ 32 -> forall a, Z.odd a = false -> is_ones (lwip_standard_chksum a l) (word_sum l).
Proof.
  intros H HW a Ha; unfold lwip_standard_chksum; rewrite Ha; destruct (sum_words_ok l 0 H ltac:(lia) ltac:(lia)) as (s & r & -> & Hs & Hr & _).
  rewrite Hr, Z.add_0_l, (wrap_small 32) by (pose proof (word_sum_nonneg l H); unfold in_range; lia).
  pose proof (fold2_ones (word_sum l) ltac:(pose proof (word_sum_nonneg l H); lia)) as HF; pose proof HF as [HB _].
  by rewrite wrap_small by (unfold in_range; lia).
Qed.

(** The buffer may start at an odd address and have up to [0x20000] bytes. *)
Lemma standard_ok a l : byte_list l -> Z.of_nat (length l) <= 0x20000 -> is_ones (lwip_standard_chksum a l) (word_sum l).
Proof.
  intros H HL; assert (forall m, byte_list m -> Z.of_nat (length m) <= 0x20000 -> word_sum m < 2 ^ 32) as HB.
  { intros m Hm HLm; pose proof (word_sum_bound m Hm); assert ((Z.of_nat (length m) + 1) / 2 <= 65536) by (apply Z.lt_succ_r, Z.div_lt_upper_bound; lia); lia. }
  destruct (Z.odd a) eqn:Ea; [|by apply standard_even; auto]; unfold lwip_standard_chksum; rewrite Ea; destruct l as [|x l].
  { cbn [sum_words word_sum]; replace (load16 0 0) with 0 by (unfold load16; destruct le; lia).
    change (is_ones 0 0); split; [lia|reflexivity]. }
  apply Forall_cons in H as [Hx H]; cbn [length] in HL; assert (word_sum l < 2 ^ 32) as HWl by (apply HB; [done|lia]).
  destruct (sum_words_ok l 0 H ltac:(lia) ltac:(lia)) as (s & r & -> & Hs & Hr & HN).
  set (t0 := match r with x :: _ => x | [] => 0 end) in *; destruct (load16_weight t0 x) as [E1 E2].
  assert (s + load16 t0 x = word_sum l + load16 0 x) as -> by lia; pose proof (word_sum_nonneg l H) as Hn.
  pose proof (load16_bound 0 x ltac:(lia) Hx) as Hlx.
  assert (word_sum l + load16 0 x < 2 ^ 32) as Hlt.
  { pose proof (word_sum_bound l H); assert ((Z.of_nat (length l) + 1) / 2 <= 65536) by (apply Z.lt_succ_r, Z.div_lt_upper_bound; lia); lia. }
  rewrite (wrap_small 32) by (unfold in_range; lia); destruct (fold2_ones (word_sum l + load16 0 x)) as [HFB HF]; [lia|].
  set (f := FOLD_U32T _) in *; destruct (SWAP_ones f HFB) as [HSB HS]; rewrite wrap_small by (unfold in_range; lia); split; [done|].
  assert (0 <= weight * x) by (unfold weight; destruct le; lia).
  rewrite HS, word_sum_cons by done; transitivity (256 * (word_sum l + load16 0 x)); [by apply oc_256|].
  replace (256 * (word_sum l + load16 0 x)) with (256 * load16 0 x + 256 * word_sum l) by lia; apply oc_add; [lia..|done|done].
Qed.

(** ** A chain *)

Definition data (p : list pbuf) : list Z := mjoin (bytes <$> p).

Definition chain_ok (p : list pbuf) : Prop := Forall (fun q => byte_list (bytes q) /\ pbuf_len q < 65536) p.

Lemma data_bytes p : chain_ok p -> byte_list (data p).
Proof.
  induction p as [|q p IH]; intros H; [constructor|]; apply Forall_cons in H as [[Hq _] H]; apply Forall_app; split; [done|by apply IH].
Qed.

Lemma odd_len (l : list Z) : negb (Z.of_nat (length l) mod 2 =? 0) = Nat.odd (length l).
Proof.
  assert (forall n, Z.odd (Z.of_nat n) = Nat.odd n) as E.
  { induction n as [|n IH]; [done|]; by rewrite Nat2Z.inj_succ, Z.odd_succ, <- Z.negb_odd, Nat.odd_succ, <- Nat.negb_odd, IH. }
  rewrite Zmod_odd, E; by destruct (Nat.odd (length l)).
Qed.

Lemma sw_sw n m a : 0 <= a -> oc (sw n (sw m a)) (sw (n + m) a).
Proof.
  intros H; unfold sw; rewrite Nat.odd_add; destruct (Nat.odd n), (Nat.odd m); cbn [xorb]; try reflexivity; by apply oc_wrap.
Qed.

Lemma sw_add n a b : sw n (a + b) = sw n a + sw n b.
Proof. unfold sw; destruct (Nat.odd n); lia. Qed.

(** Adding the checksum of the bytes [b] at place [n]. *)
Lemma fold_step S n acc a b : 0 <= S -> byte_list b -> Z.of_nat (length b) <= 0x20000 -> is_ones acc (sw n S) ->
  is_ones (FOLD_U32T (u32 (acc + lwip_standard_chksum a b))) (sw n (S + sw n (word_sum b))).
Proof.
  intros HS HB HL [HA1 HA2]; pose proof (word_sum_nonneg _ HB) as HW; destruct (standard_ok a b HB HL) as [HC1 HC2].
  rewrite (wrap_small 32) by (unfold in_range; lia); set (c := lwip_standard_chksum _ _) in *.
  destruct (fold1_ones (acc + c)) as [HF1 HF2]; [lia|]; split; [done|]; pose proof (sw_nonneg n (word_sum b) HW).
  rewrite HF2, sw_add; apply oc_add; try lia; try (by repeat apply sw_nonneg); rewrite HC2, sw_sw by lia.
  unfold sw; rewrite Nat.odd_add, xorb_nilpotent; reflexivity.
Qed.

(** The sum of two pieces at place [n]. *)
Lemma place_app S n p q : 0 <= S -> byte_list p -> byte_list q ->
  oc (S + sw n (word_sum p) + sw (n + length p) (word_sum q)) (S + sw n (word_sum (p ++ q))).
Proof.
  intros HS Hp Hq; pose proof (word_sum_nonneg _ Hp); pose proof (word_sum_nonneg _ Hq); pose proof (word_sum_nonneg _ (Forall_app_2 _ _ _ Hp Hq)).
  rewrite <- Z.add_assoc; apply oc_add; try lia; [by apply Z.add_nonneg_nonneg; apply sw_nonneg|by apply sw_nonneg|reflexivity|].
  rewrite (oc_sw n _ _ (word_sum_app _ _ Hp Hq)), sw_add; apply oc_add; try (by repeat apply sw_nonneg); symmetry; by apply sw_sw.
Qed.

(** One buffer more: [acc] is the value of [sw n S], where [S] is the sum of
    the [n] bytes before. *)
Lemma chksum_pbuf_ok S n acc sw0 q : 0 <= S -> byte_list (bytes q) -> pbuf_len q < 65536 -> is_ones acc (sw n S) -> sw0 = Nat.odd n ->
  let r := chksum_pbuf (acc, sw0) q in let n' := (n + length (bytes q))%nat in
  is_ones r.1 (sw n' (S + sw n (word_sum (bytes q)))) /\ r.2 = Nat.odd n'.
Proof.
  intros HS HB HL HA ->; pose proof (word_sum_nonneg _ HB) as HW; unfold pbuf_len in HL.
  destruct (fold_step S n acc (payload q) (bytes q) HS HB ltac:(lia) HA) as [HF1 HF].
  unfold chksum_pbuf; cbn [fst snd]; unfold pbuf_len; rewrite odd_len; set (f := FOLD_U32T _) in *.
  pose proof (sw_nonneg n (word_sum (bytes q)) HW) as Hsn; cbn zeta; rewrite Nat.add_comm, Nat.odd_add.
  destruct (Nat.odd (length (bytes q))) eqn:Eo; cbn [fst snd]; (split; [split|]); try done.
  - by apply SWAP_ones.
  - destruct (SWAP_ones f HF1) as [_ ->]; rewrite (oc_256 _ _ HF), <- sw_sw, (sw_odd (length _)) by (done || lia); reflexivity.
  - rewrite HF, <- sw_sw, (sw_even (length _)) by (done || lia); reflexivity.
Qed.

Lemma chain_fold p : forall S n acc, 0 <= S -> chain_ok p -> is_ones acc (sw n S) ->
  let r := foldl chksum_pbuf (acc, Nat.odd n) p in let n' := (n + length (data p))%nat in
  is_ones r.1 (sw n' (S + sw n (word_sum (data p)))) /\ r.2 = Nat.odd n'.
Proof.
  induction p as [|q p IH]; intros S n acc HS HC HA; cbn [foldl].
  { cbn; rewrite Nat.add_0_r; replace (sw n 0) with 0 by (unfold sw; destruct (Nat.odd n); lia); by rewrite Z.add_0_r. }
  apply Forall_cons in HC as [[HB HL] HC]; pose proof (data_bytes p HC) as HD; pose proof (word_sum_nonneg _ HB) as HW; pose proof (word_sum_nonneg _ HD) as HWd.
  destruct (chksum_pbuf_ok S n acc (Nat.odd n) q HS HB HL HA eq_refl) as [H1 H2].
  destruct (chksum_pbuf (acc, Nat.odd n) q) as [acc1 sw1]; cbn [fst snd] in H1, H2; subst sw1; pose proof (sw_nonneg n (word_sum (bytes q)) HW) as Hsn.
  destruct (IH (S + sw n (word_sum (bytes q))) (n + length (bytes q))%nat acc1) as [H3 H4]; [lia|done|done|].
  change (data (q :: p)) with (bytes q ++ data p); rewrite length_app, Nat.add_assoc; split; [|done].
  eapply is_ones_oc, H3; apply oc_sw, place_app; [lia|done|done].
Qed.

(** The end of the loops: the last swap. *)
Lemma unswap acc n T : 0 <= T -> is_ones acc (sw n T) -> is_ones (if Nat.odd n then SWAP_BYTES_IN_WORD acc else acc) T.
Proof.
  intros HT HA; destruct (Nat.odd n) eqn:E; [|by rewrite sw_even in HA]; rewrite sw_odd in HA by done; destruct HA as [HB HA].
  eapply is_ones_oc, SWAP_ones, HB; rewrite (oc_256 _ _ HA); by apply oc_wrap.
Qed.

Lemma chain_value p S acc : 0 <= S -> chain_ok p -> is_ones acc S ->
  is_ones (let '(acc, swapped) := foldl chksum_pbuf (acc, false) p in if swapped : bool then SWAP_BYTES_IN_WORD acc else acc)
    (S + word_sum (data p)).
Proof.
  intros HS HC HA; destruct (chain_fold p S 0 acc HS HC HA) as [H1 H2]; cbn [Nat.odd Nat.even negb] in H1, H2.
  change (Nat.odd 0) with false in *; destruct (foldl _ _ p) as [r sw0]; cbn [fst snd] in *; subst sw0; apply unswap; [|done].
  pose proof (word_sum_nonneg _ (data_bytes p HC)); lia.
Qed.

Lemma complement r s : 0 <= s -> is_ones r s -> u16 (Z.lnot (Z.land r 0xffff)) = 65535 - ones s.
Proof.
  intros Hs HR; pose proof HR as [HB _]; apply is_ones_eq in HR; [|done]; subst r.
  change 0xffff with (Z.ones 16); rewrite Z.land_ones, Z.mod_small by lia; unfold Z.lnot, wrap.
  change (Z.ones 16) with 65535; symmetry; apply (Z.mod_unique _ _ (-1)); lia.
Qed.

Lemma pbuf_chksum_ok p : chain_ok p -> inet_chksum_pbuf p = checksum (data p).
Proof.
  intros HC; pose proof (chain_value p 0 0 ltac:(lia) HC ltac:(split; [lia|reflexivity])) as H; unfold inet_chksum_pbuf.
  destruct (foldl _ _ p) as [r sw0]; apply complement; [by apply word_sum_nonneg, data_bytes|done].
Qed.

Lemma buffer_chksum_ok a l : byte_list l -> Z.of_nat (length l) <= 0x20000 -> inet_chksum a l = checksum l.
Proof.
  intros H HL; pose proof (standard_ok a l H HL) as HS; unfold inet_chksum, checksum; pose proof HS as [HB _].
  rewrite <- (complement (lwip_standard_chksum a l)) by (done || by apply word_sum_nonneg).
  change 0xffff with (Z.ones 16); by rewrite Z.land_ones, Z.mod_small by lia.
Qed.

(** ** The pseudo header *)

Definition load32 (b0 b1 b2 b3 : Z) : Z := if le then load16 b0 b1 + 65536 * load16 b2 b3 else 65536 * load16 b0 b1 + load16 b2 b3.

Definition pseudo_header (src dest : Z * Z * Z * Z) (proto proto_len : Z) : list Z :=
  let '(s0, s1, s2, s3) := src in let '(d0, d1, d2, d3) := dest in
  [s0; s1; s2; s3; d0; d1; d2; d3; 0; proto; proto_len / 256; proto_len mod 256].

(** The header that is summed: the protocol and the length are in the byte
    order of the machine. *)
Definition machine_order (x : Z) : list Z := if le then [x mod 256; x / 256] else [x / 256; x mod 256].

Definition built_header (src dest : Z * Z * Z * Z) (proto proto_len : Z) : list Z :=
  let '(s0, s1, s2, s3) := src in let '(d0, d1, d2, d3) := dest in
  [s0; s1; s2; s3; d0; d1; d2; d3] ++ machine_order proto ++ machine_order proto_len.

Definition addr_ok (a : Z * Z * Z * Z) : Prop := let '(b0, b1, b2, b3) := a in byte_list [b0; b1; b2; b3].
Definition addr_word (a : Z * Z * Z * Z) : Z := let '(b0, b1, b2, b3) := a in load32 b0 b1 b2 b3.

Lemma halves b0 b1 b2 b3 : byte_list [b0; b1; b2; b3] ->
  Z.land (load32 b0 b1 b2 b3) 0xffff + Z.land (Z.shiftr (load32 b0 b1 b2 b3) 16) 0xffff = word_sum [b0; b1; b2; b3] /\
  0 <= Z.land (load32 b0 b1 b2 b3) 0xffff <= 65535 /\ 0 <= Z.land (Z.shiftr (load32 b0 b1 b2 b3) 16) 0xffff <= 65535.
Proof.
  intros H; repeat (apply Forall_cons in H as [? H]); pose proof (load16_bound b0 b1 ltac:(done) ltac:(done)); pose proof (load16_bound b2 b3 ltac:(done) ltac:(done)).
  change 0xffff with (Z.ones 16); rewrite !Z.land_ones, Z.shiftr_div_pow2 by lia; change (2 ^ 16) with 65536; change (Z.ones 16) with 65535; cbn [word_sum]; unfold load32.
  set (x := load16 b0 b1) in *; set (y := load16 b2 b3) in *; clearbody x y.
  assert (forall u v, 0 <= u <= 65535 -> 0 <= v <= 65535 -> (u + 65536 * v) mod 65536 = u /\ (u + 65536 * v) / 65536 mod 65536 = v) as G.
  { intros u v Hu Hv; rewrite (Z.mul_comm 65536), Z.mod_add, Z.div_add, (Z.mod_small u), (Z.div_small u) by lia; split; [done|]; rewrite Z.mod_small by lia; lia. }
  destruct le; [destruct (G x y) as [-> ->]; lia|]; rewrite (Z.add_comm (65536 * x)); destruct (G y x) as [-> ->]; lia.
Qed.

Lemma addr_acc_ok src dest : addr_ok src -> addr_ok dest ->
  let S := word_sum (let '(s0, s1, s2, s3) := src in [s0; s1; s2; s3]) + word_sum (let '(d0, d1, d2, d3) := dest in [d0; d1; d2; d3]) in
  is_ones (addr_acc (addr_word src) (addr_word dest)) S /\ 0 <= S <= 4 * 65535.
Proof.
  destruct src as [[[s0 s1] s2] s3], dest as [[[d0 d1] d2] d3]; intros H1 H2; unfold addr_ok, addr_word, addr_acc in *.
  destruct (halves _ _ _ _ H1) as (E1 & B1 & B1'), (halves _ _ _ _ H2) as (E2 & B2 & B2').
  set (a := Z.land (load32 s0 s1 s2 s3) 0xffff) in *; set (b := Z.land (Z.shiftr (load32 s0 s1 s2 s3) 16) 0xffff) in *.
  set (c := Z.land (load32 d0 d1 d2 d3) 0xffff) in *; set (d := Z.land (Z.shiftr (load32 d0 d1 d2 d3) 16) 0xffff) in *; clearbody a b c d.
  rewrite (wrap_small 32 (a + b)), (wrap_small 32 (a + b + c)), (wrap_small 32 (a + b + c + d)) by (unfold in_range; lia).
  rewrite <- E1, <- E2; split; [|lia].
  eapply is_ones_oc; [|apply fold2_ones; lia]; split; [f_equal; lia|lia].
Qed.

(** The last steps of the pseudo checksum. *)
Lemma pseudo_end v T proto proto_len : 0 <= T -> is_ones v T -> 0 <= proto < 256 -> 0 <= proto_len < 65536 ->
  u16 (Z.lnot (Z.land (FOLD_U32T (FOLD_U32T (u32 (u32 (v + lwip_htons proto) + lwip_htons proto_len)))) 0xffff)) =
  65535 - ones (proto + proto_len + T).
Proof.
  intros HT [HB HV] Hp Hl; unfold lwip_htons.
  rewrite (wrap_small 32 (v + proto)), (wrap_small 32 (v + proto + proto_len)) by (unfold in_range; lia).
  apply complement; [lia|]; eapply is_ones_oc, fold2_ones; [|lia].
  replace (v + proto + proto_len) with (proto + proto_len + v) by lia; apply oc_add; lia || done.
Qed.

Lemma word_sum_even A : forall B, Nat.odd (length A) = false -> word_sum (A ++ B) = word_sum A + word_sum B.
Proof.
  induction A as [|x|x y A IH] using list_pair_ind; intros B H; [done|done|]; cbn [app word_sum]; rewrite IH; [lia|done].
Qed.

Lemma machine_word x d : word_sum (machine_order x ++ d) = x + word_sum d.
Proof. unfold machine_order, load16; pose proof (Z.div_mod x 256 ltac:(lia)); destruct le eqn:E; cbn [app word_sum]; unfold load16; rewrite E; lia. Qed.

Abbreviation addr_sum a := (word_sum (let '(b0, b1, b2, b3) := a in [b0; b1; b2; b3])).

Lemma header_sum src dest proto proto_len d :
  word_sum (built_header src dest proto proto_len ++ d) = proto + proto_len + (addr_sum src + addr_sum dest + word_sum d).
Proof.
  destruct src as [[[s0 s1] s2] s3], dest as [[[d0 d1] d2] d3]; cbn [built_header].
  rewrite <- !app_assoc; cbn [app word_sum]; rewrite !machine_word; lia.
Qed.

Lemma pseudo_ok p proto proto_len src dest : chain_ok p -> addr_ok src -> addr_ok dest -> 0 <= proto < 256 -> 0 <= proto_len < 65536 ->
  inet_chksum_pseudo p proto proto_len (addr_word src) (addr_word dest) = checksum (built_header src dest proto proto_len ++ data p).
Proof.
  intros HC Hs Hd Hp Hl; destruct (addr_acc_ok src dest Hs Hd) as [HA HB]; unfold inet_chksum_pseudo, inet_cksum_pseudo_base, checksum.
  pose proof (chain_value p _ _ (proj1 HB) HC HA) as HV; rewrite header_sum; destruct (foldl _ _ p) as [r sw0].
  apply pseudo_end; [|done..]; pose proof (word_sum_nonneg _ (data_bytes p HC)); lia.
Qed.

(** *** Part of a chain *)

Definition holds (st : Z * bool) (T : Z) : Prop := is_ones st.1 (if st.2 then 256 * T else T).

Lemma holds_unswap st T : 0 <= T -> holds st T -> is_ones (if st.2 then SWAP_BYTES_IN_WORD st.1 else st.1) T.
Proof.
  destruct st as [acc [|]]; unfold holds; cbn [fst snd]; intros HT HA; [|done].
  apply (unswap acc 1 T HT); by rewrite sw_odd.
Qed.

Lemma partial_loop_ok p : forall S n acc k, 0 <= S -> chain_ok p -> is_ones acc (sw n S) -> 0 <= k < 0x7fff ->
  exists st, partial_loop p k (acc, Nat.odd n) = Some st /\ holds st (S + sw n (word_sum (take (Z.to_nat k) (data p)))).
Proof.
  induction p as [|q p IH]; intros S n acc k HS HC HA Hk; cbn [partial_loop].
  { eexists; split; [done|]; unfold holds; cbn [fst snd data]; change (data []) with (@nil Z); rewrite take_nil; cbn [word_sum].
    replace (sw n 0) with 0 by (unfold sw; destruct (Nat.odd n); lia); rewrite Z.add_0_r; unfold sw in HA; by destruct (Nat.odd n). }
  apply Forall_cons in HC as [[HB HL] HC]; pose proof (data_bytes p HC) as HD; change (data (q :: p)) with (bytes q ++ data p).
  destruct (Z.ltb_spec 0 k) as [H0|H0].
  2:{ assert (k = 0) as -> by lia; eexists; split; [done|]; unfold holds; cbn [fst snd]; rewrite take_0; cbn [word_sum].
      replace (sw n 0) with 0 by (unfold sw; destruct (Nat.odd n); lia); rewrite Z.add_0_r; unfold sw in HA; by destruct (Nat.odd n). }
  unfold pbuf_len in *; cbn [fst snd]; destruct (Z.ltb_spec k (Z.of_nat (length (bytes q)))) as [Hlt|Hge].
  - rewrite Z.sub_diag; change (u16 0) with 0; cbn [Z.ltb Z.compare].
    rewrite take_app_le by lia; set (b := take (Z.to_nat k) (bytes q)); assert (byte_list b) as Hb by (by apply Forall_take).
    assert (length b = Z.to_nat k) as Hbl by (unfold b; rewrite length_take; lia).
    pose proof (sw_nonneg n (word_sum b) (word_sum_nonneg _ Hb)) as Hsn.
    destruct (fold_step S n acc (payload q) b HS Hb ltac:(lia) HA) as [F1 HF]; set (f := FOLD_U32T _) in *.
    assert (forall st', partial_loop p 0 st' = Some st') as Hstop by (by intros st'; destruct p).
    rewrite Hstop; eexists; split; [done|]; unfold holds; destruct (negb _); cbn [fst snd].
    + eapply is_ones_oc, SWAP_ones, F1; rewrite (oc_256 _ _ HF); unfold sw at 1; destruct (Nat.odd n); cbn [negb]; [apply oc_wrap; lia|reflexivity].
    + split; [done|]; rewrite HF; unfold sw at 1; by destruct (Nat.odd n).
  - rewrite take_ge by lia; rewrite (wrap_small 16) by (unfold in_range; lia); rewrite (proj2 (Z.ltb_lt _ 0x7fff)) by lia.
    destruct (chksum_pbuf_ok S n acc (Nat.odd n) q HS HB HL HA eq_refl) as [H1 H2]; unfold chksum_pbuf, pbuf_len in H1, H2; cbn [fst snd] in H1, H2.
    destruct (if negb (Z.of_nat (length (bytes q)) mod 2 =? 0) then _ else _) as [acc1 sw1]; cbn [fst snd] in H1, H2; subst sw1.
    pose proof (word_sum_nonneg _ HB) as HW; pose proof (sw_nonneg n (word_sum (bytes q)) HW) as Hsn.
    destruct (IH (S + sw n (word_sum (bytes q))) (n + length (bytes q))%nat acc1 (k - Z.of_nat (length (bytes q)))) as (st & E & HH); [lia|done|done|lia|].
    exists st; split; [done|]; rewrite take_app_ge by lia; replace (Z.to_nat k - length (bytes q))%nat with (Z.to_nat (k - Z.of_nat (length (bytes q)))) by lia.
    set (d := take _ (data p)) in *; assert (byte_list d) as Hd by (by apply Forall_take).
    pose proof (place_app S n (bytes q) d HS HB Hd) as HO.
    unfold holds in *; destruct st as [a [|]]; cbn [fst snd] in *; eapply is_ones_oc, HH; [by apply oc_256|done].
Qed.

Lemma partial_ok p proto proto_len k src dest : chain_ok p -> addr_ok src -> addr_ok dest -> 0 <= proto < 256 -> 0 <= proto_len < 65536 ->
  0 <= k < 0x7fff ->
  inet_chksum_pseudo_partial p proto proto_len k (addr_word src) (addr_word dest) =
    Some (checksum (built_header src dest proto proto_len ++ take (Z.to_nat k) (data p))).
Proof.
  intros HC Hs Hd Hp Hl Hk; destruct (addr_acc_ok src dest Hs Hd) as [HA HB]; unfold inet_chksum_pseudo_partial, inet_cksum_pseudo_partial_base, checksum.
  destruct (partial_loop_ok p _ 0 _ k (proj1 HB) HC HA Hk) as (st & E & HH); change (Nat.odd 0) with false in E; rewrite E; cbn [mbind option_bind].
  assert (0 <= word_sum (take (Z.to_nat k) (data p))) as HW by (apply word_sum_nonneg, Forall_take; by apply data_bytes).
  change (sw 0 (word_sum (take (Z.to_nat k) (data p)))) with (word_sum (take (Z.to_nat k) (data p))) in HH.
  rewrite header_sum; destruct st as [a s]; f_equal; apply pseudo_end; [lia| |done|done].
  apply (holds_unswap (a, s)); [lia|done].
Qed.

(** ** The receiver *)

Lemma ones_small s : 0 < s -> ones s <= s.
Proof.
  intros H; unfold ones; destruct (Z.eqb_spec s 0); [lia|]; pose proof (Z.mod_le (s - 1) 65535 ltac:(lia) ltac:(lia)); lia.
Qed.

(** A message that carries its own checksum at an even place has checksum 0. *)
Lemma checksum_verifies A B c0 c1 : byte_list A -> byte_list B -> Nat.odd (length A) = false ->
  load16 c0 c1 = checksum (A ++ [0; 0] ++ B) -> checksum (A ++ [c0; c1] ++ B) = 0.
Proof.
  intros HA HB Ho Hc; unfold checksum in *; rewrite !word_sum_even in * by done; cbn [app word_sum] in *.
  replace (load16 0 0) with 0 in Hc by (unfold load16; destruct le; lia); rewrite Z.add_0_l in Hc; rewrite Hc.
  pose proof (word_sum_nonneg A HA); pose proof (word_sum_nonneg B HB); set (s := word_sum A + word_sum B) in *.
  match goal with |- 65535 - ones ?x = 0 => replace x with (s + 65535 - ones s) by (unfold s; lia) end.
  destruct (ones_is s ltac:(lia)) as (Ho1 & Ho2 & Ho3); cut (65535 = ones (s + 65535 - ones s)); [lia|].
  assert (65535 <= s + 65535 - ones s) by (destruct (decide (s = 0)) as [E|]; [rewrite (proj2 Ho3 E); lia|pose proof (ones_small s ltac:(lia)); lia]).
  apply is_ones_eq; [lia|]; split; [lia|split; [|lia]].
  change (65535 mod 65535) with 0; rewrite Zminus_mod, <- (Z.mul_1_l 65535) at 1; rewrite Z.mod_add, Ho2, Z.sub_diag by lia; done.
Qed.

End Inet.

(** ** The two byte orders *)

Lemma built_big src dest proto proto_len : 0 <= proto < 256 -> built_header false src dest proto proto_len = pseudo_header src dest proto proto_len.
Proof. intros H; destruct src as [[[s0 s1] s2] s3], dest as [[[d0 d1] d2] d3]; unfold built_header, machine_order; by rewrite (Z.div_small proto), (Z.mod_small proto) by lia. Qed.

Lemma ones_same x y : 0 <= x -> 0 <= y -> (x = 0 <-> y = 0) -> ones x = ones y <-> (x - y) mod 65535 = 0.
Proof.
  intros Hx Hy Hz; destruct (ones_is x Hx) as (B1 & M1 & Z1), (ones_is y Hy) as (B2 & M2 & Z2); rewrite Zminus_mod, <- M1, <- M2, <- Zminus_mod; split; [intros ->; by rewrite Z.sub_diag|].
  intros E; destruct (decide (x = 0)) as [E0|N0]; [rewrite (proj2 Z1 E0), (proj2 Z2 (proj1 Hz E0)); done|].
  assert (ones x <> 0) by tauto; assert (ones y <> 0) by tauto.
  apply Z.mod_divide in E as [q E]; [|lia]; nia.
Qed.

(** On a little-endian machine the sum is that of the pseudo header exactly for
    these lengths. *)
Lemma built_little src dest proto proto_len d : addr_ok src -> addr_ok dest -> byte_list d -> 0 <= proto < 256 -> 0 <= proto_len < 65536 ->
  checksum true (built_header true src dest proto proto_len ++ d) = checksum true (pseudo_header src dest proto proto_len ++ d) <->
  (proto + proto_len mod 256 - proto_len / 256) mod 257 = 0.
Proof.
  intros Hs Hd HB Hp Hl; unfold checksum; rewrite header_sum; set (lo := proto_len mod 256); set (hi := proto_len / 256).
  assert (E : proto_len = 256 * hi + lo) by (apply Z.div_mod; lia); assert (0 <= lo < 256) by (apply Z.mod_pos_bound; lia).
  assert (0 <= hi) by (apply Z.div_pos; lia).
  set (T := _ + word_sum true d); assert (HT : 0 <= T).
  { pose proof (word_sum_nonneg true d HB); destruct src as [[[s0 s1] s2] s3], dest as [[[d0 d1] d2] d3].
    pose proof (word_sum_nonneg true _ Hs); pose proof (word_sum_nonneg true _ Hd); unfold T; lia. }
  assert (Eh : word_sum true (pseudo_header src dest proto proto_len ++ d) = 256 * proto + (hi + 256 * lo) + T).
  { destruct src as [[[s0 s1] s2] s3], dest as [[[d0 d1] d2] d3]; unfold T; cbn [pseudo_header app word_sum]; unfold load16; fold lo hi; lia. }
  rewrite Eh; transitivity (ones (proto + proto_len + T) = ones (256 * proto + (hi + 256 * lo) + T)); [lia|].
  rewrite ones_same by lia; replace (_ - _) with (- (proto + lo - hi) * 255) by lia.
  change 65535 with (257 * 255); rewrite Z.mul_mod_distr_r by lia; split; intros Em.
  - rewrite <- (Z.opp_involutive (_ - _)); apply Z.mod_opp_l_z; lia.
  - rewrite Z.mod_opp_l_z by lia; lia.
Qed.

(** C32: the checksum routines compute the one's complement checksum of
    RFC 1071 on a machine of either byte order: of a buffer at an odd or even
    address with up to [0x20000] bytes, and of the bytes of a chain of buffers,
    each with fewer than 65536 bytes, whatever their lengths and addresses.
    With the IPv4 pseudo header, for all of a chain or for less than [0x7fff]
    bytes of it (more can fail an assertion), they do so on a big-endian
    machine; on a little-endian one the protocol and the length are summed with
    their bytes swapped, which gives the right checksum exactly when the
    protocol plus the low byte of the length less its high byte is a multiple of
    257.  A message that carries its checksum has checksum zero. *)
Theorem inet_checksum_correct le a l p proto proto_len k src dest A B c0 c1 :
  byte_list l -> Z.of_nat (length l) <= 0x20000 -> chain_ok p -> addr_ok src -> addr_ok dest ->
  0 <= proto < 256 -> 0 <= proto_len < 65536 -> 0 <= k < 0x7fff ->
  byte_list A -> byte_list B -> Nat.odd (length A) = false -> load16 le c0 c1 = checksum le (A ++ [0; 0] ++ B) ->
  let right c d := if le then c = checksum le (pseudo_header src dest proto proto_len ++ d) <-> (proto + proto_len mod 256 - proto_len / 256) mod 257 = 0
                   else c = checksum le (pseudo_header src dest proto proto_len ++ d) in
  inet_chksum le a l = checksum le l /\
  inet_chksum_pbuf le p = checksum le (data p) /\
  (let c := inet_chksum_pseudo le p proto proto_len (addr_word le src) (addr_word le dest) in
   c = checksum le (built_header le src dest proto proto_len ++ data p) /\ right c (data p)) /\
  (exists c, inet_chksum_pseudo_partial le p proto proto_len k (addr_word le src) (addr_word le dest) = Some c /\
     c = checksum le (built_header le src dest proto proto_len ++ take (Z.to_nat k) (data p)) /\ right c (take (Z.to_nat k) (data p))) /\
  checksum le (A ++ [c0; c1] ++ B) = 0.
Proof.
  intros Hl HL HC Hs Hd Hp Hpl Hk HA HB Ho Hc right.
  assert (Hr : forall d, byte_list d -> right (checksum le (built_header le src dest proto proto_len ++ d)) d).
  { intros d Hdb; unfold right; destruct le; [by apply built_little|by rewrite built_big]. }
  split_and!; [by apply buffer_chksum_ok|by apply pbuf_chksum_ok| | |by apply checksum_verifies].
  - cbv zeta; rewrite pseudo_ok by done; split; [done|]; by apply Hr, data_bytes.
  - rewrite partial_ok by done; eexists; split; [done|split; [done|]]; by apply Hr, Forall_take, data_bytes.
Qed.

(** On the big-endian machine, with a datagram in two buffers. *)
Lemma inet_checksum_correct_witness :
  inet_chksum false 1 [0x45; 0; 0; 0x73; 7] = checksum false [0x45; 0; 0; 0x73; 7] /\
  inet_chksum_pbuf false [mk_pbuf 0 [1; 2; 3]; mk_pbuf 5 [255; 255]] = checksum false [1; 2; 3; 255; 255] /\
  inet_chksum_pseudo false [mk_pbuf 0 [1; 2; 3]; mk_pbuf 5 [255; 255]] 17 5 (addr_word false (192, 168, 0, 1)) (addr_word false (10, 0, 2, 15)) =
    checksum false (pseudo_header (192, 168, 0, 1) (10, 0, 2, 15) 17 5 ++ [1; 2; 3; 255; 255]) /\
  inet_chksum_pseudo_partial false [mk_pbuf 0 [1; 2; 3]; mk_pbuf 5 [255; 255]] 17 5 4 (addr_word false (192, 168, 0, 1)) (addr_word false (10, 0, 2, 15)) =
    Some (checksum false (pseudo_header (192, 168, 0, 1) (10, 0, 2, 15) 17 5 ++ [1; 2; 3; 255])) /\
  inet_chksum_pseudo true [mk_pbuf 0 [1; 2; 3]; mk_pbuf 5 [255; 255]] 17 5 (addr_word true (192, 168, 0, 1)) (addr_word true (10, 0, 2, 15)) <>
    checksum true (pseudo_header (192, 168, 0, 1) (10, 0, 2, 15) 17 5 ++ [1; 2; 3; 255; 255]) /\
  checksum false ([9; 9] ++ [0xf2; 0xf1] ++ [4; 5]) = 0.
Proof.
  destruct (inet_checksum_correct false 1 [0x45; 0; 0; 0x73; 7] [mk_pbuf 0 [1; 2; 3]; mk_pbuf 5 [255; 255]] 17 5 4
           (192, 168, 0, 1) (10, 0, 2, 15) [9; 9] [4; 5] 0xf2 0xf1) as (H1 & H2 & [_ H3] & (c & H4 & _ & H5) & H6);
    [first [repeat constructor; vm_compute; congruence | vm_compute; reflexivity]..|].
  destruct (inet_checksum_correct true 1 [0x45; 0; 0; 0x73; 7] [mk_pbuf 0 [1; 2; 3]; mk_pbuf 5 [255; 255]] 17 5 4
           (192, 168, 0, 1) (10, 0, 2, 15) [9; 9] [4; 5] 0xf2 0xf1) as (_ & _ & [_ H7] & _);
    [first [repeat constructor; vm_compute; congruence | vm_compute; reflexivity]..|].
  split; [exact H1|split; [exact H2|split; [exact H3|split; [|split; [|exact H6]]]]].
  - rewrite H4, H5; reflexivity.
  - intros E; apply H7 in E; discriminate E.
Defined.
