(* ===== verification/Crc32.v ===== *)
(** * CRC-32 (zlib/zlib/crc32.c)

    The checksum byte by byte, four bytes at a time on little- and big-endian
    machines, and of a concatenation.  [le] is the byte order of the machine
    and [wide_ptr] says that a pointer is wider than [ptrdiff_t], as CHERI
    capabilities are.  A table access out of range and a read past the end of
    the buffer are the result [None]. *)

From S2P Require Import Prelude CrcTable.

Abbreviation xor := Z.lxor.

Definition table (k n : Z) : option Z := t ← zget crc_table k; zget t n.

(** ** Making the tables *)

Definition crc_poly : Z := foldl (fun p n => Z.lor p (Z.shiftl 1 (31 - n))) 0 [0; 1; 2; 4; 5; 7; 8; 10; 11; 12; 16; 22; 23; 26].

Definition ZSWAP32 (q : Z) : Z :=
  u32 (Z.land (Z.shiftr q 24) 0xff + Z.land (Z.shiftr q 8) 0xff00 + Z.shiftl (Z.land q 0xff00) 8 + Z.shiftl (Z.land q 0xff) 24).

(** [c = c & 1 ? poly ^ (c >> 1) : c >> 1]. *)
Definition crc_bit (c : Z) : Z := if Z.odd c then xor crc_poly (Z.shiftr c 1) else Z.shiftr c 1.

Fixpoint crc_bits (k : nat) (c : Z) : Z := match k with O => c | S k => crc_bits k (crc_bit c) end.

Definition make_table0 : list Z := crc_bits 8 <$> seqZ 0 256.

(** The table for one more zero byte: [crc_table[0][c & 0xff] ^ (c >> 8)]. *)
Definition next_table (t : list Z) : option (list Z) :=
  mapM (fun c => x ← zget make_table0 (Z.land c 0xff); Some (xor x (Z.shiftr c 8))) t.

Definition make_crc_table : option (list (list Z)) :=
  t1 ← next_table make_table0; t2 ← next_table t1; t3 ← next_table t2;
  let ts := [make_table0; t1; t2; t3] in
  Some (ts ++ map (map ZSWAP32) ts).

(** ** The checksum *)

Definition DO1 (crc b : Z) : option Z :=
  x ← table 0 (Z.land (xor crc b) 0xff);
  Some (xor x (Z.shiftr crc 8)).

Fixpoint do_bytes (step : Z -> Z -> option Z) (n : nat) (c : Z) (buf : list Z) : option (Z * list Z) :=
  match n, buf with
  | O, _ => Some (c, buf)
  | S n, b :: buf => c ← step c b; do_bytes step n c buf
  | S n, [] => None
  end.

Definition bytewise (crc : Z) (buf : list Z) (len : Z) : option Z :=
  let crc := xor crc 0xffffffff in
  '(crc, buf) ← do_bytes DO1 (8 * Z.to_nat (len / 8)) crc buf;
  '(crc, _) ← do_bytes DO1 (Z.to_nat (len mod 8)) crc buf;
  Some (xor crc 0xffffffff).

(** The four bytes of a word as the machine loads them. *)
Definition load32 (le : bool) (b0 b1 b2 b3 : Z) : Z :=
  if le then Z.lor (Z.lor b0 (Z.shiftl b1 8)) (Z.lor (Z.shiftl b2 16) (Z.shiftl b3 24))
  else Z.lor (Z.lor b3 (Z.shiftl b2 8)) (Z.lor (Z.shiftl b1 16) (Z.shiftl b0 24)).

Definition DOLIT4 (c w : Z) : option Z :=
  let c := xor c w in
  a ← table 3 (Z.land c 0xff); b ← table 2 (Z.land (Z.shiftr c 8) 0xff);
  d ← table 1 (Z.land (Z.shiftr c 16) 0xff); e ← table 0 (Z.shiftr c 24);
  Some (xor (xor (xor a b) d) e).

Definition DOBIG4 (c w : Z) : option Z :=
  let c := xor c w in
  a ← table 4 (Z.land c 0xff); b ← table 5 (Z.land (Z.shiftr c 8) 0xff);
  d ← table 6 (Z.land (Z.shiftr c 16) 0xff); e ← table 7 (Z.shiftr c 24);
  Some (xor (xor (xor a b) d) e).

Definition big1 (c b : Z) : option Z :=
  x ← table 4 (xor (Z.shiftr c 24) b);
  Some (xor x (u32 (Z.shiftl c 8))).

Fixpoint do_words (le : bool) (n : nat) (c : Z) (buf : list Z) : option (Z * list Z) :=
  match n, buf with
  | O, _ => Some (c, buf)
  | S n, b0 :: b1 :: b2 :: b3 :: buf =>
      c ← (if le then DOLIT4 else DOBIG4) c (load32 le b0 b1 b2 b3);
      do_words le n c buf
  | S n, _ => None
  end.

(** The bytes before the first aligned address. *)
Definition head_bytes (addr len : Z) : Z := Z.min len ((4 - Z.land addr 3) mod 4).

Definition by_four (le : bool) (step : Z -> Z -> option Z) (c addr : Z) (buf : list Z) (len : Z) : option Z :=
  let head := head_bytes addr len in
  '(c, buf) ← do_bytes step (Z.to_nat head) c buf;
  let len := len - head in
  '(c, buf) ← do_words le (8 * Z.to_nat (len / 32)) c buf;
  let len := len mod 32 in
  '(c, buf) ← do_words le (Z.to_nat (len / 4)) c buf;
  '(c, _) ← do_bytes step (Z.to_nat (len mod 4)) c buf;
  Some c.

Definition crc32_little (crc addr : Z) (buf : list Z) (len : Z) : option Z :=
  c ← by_four true DO1 (u32 (Z.lnot (u32 crc))) addr buf len;
  Some (u32 (Z.lnot c)).

Definition crc32_big (crc addr : Z) (buf : list Z) (len : Z) : option Z :=
  c ← by_four false big1 (u32 (Z.lnot (ZSWAP32 (u32 crc)))) addr buf len;
  Some (ZSWAP32 (u32 (Z.lnot c))).

Definition crc32 (le wide_ptr : bool) (crc addr : Z) (buf : option (list Z)) (len : Z) : option Z :=
  match buf with
  | None => Some 0
  | Some buf =>
      if negb wide_ptr then (if le then crc32_little crc addr buf len else crc32_big crc addr buf len)
      else bytewise crc buf len
  end.

(** ** Concatenation *)

Definition GF2_DIM : Z := 32.

(** [while (vec)]: [mat] may be read past its last row only by a vector of
    more than 32 bits. *)
Fixpoint gf2_matrix_times (mat : list Z) (vec : Z) (sum : Z) : option Z :=
  if vec =? 0 then Some sum
  else
    match mat with
    | [] => None
    | m :: mat => gf2_matrix_times mat (Z.shiftr vec 1) (if Z.odd vec then xor sum m else sum)
    end.

Definition gf2_matrix_square (mat : list Z) : option (list Z) := mapM (fun row => gf2_matrix_times mat row 0) mat.

(** The operator for one zero bit. *)
Definition odd_start : list Z := 0xedb88320 :: ((fun n => Z.shiftl 1 n) <$> seqZ 0 (GF2_DIM - 1)).

(** The loop: one turn per bit of [len2], with [even] and [odd] in turns. *)
Fixpoint combine_loop (fuel : nat) (mat : list Z) (crc1 len2 : Z) : option Z :=
  match fuel with
  | O => None
  | S fuel =>
      mat ← gf2_matrix_square mat;
      crc1 ← (if Z.odd len2 then gf2_matrix_times mat crc1 0 else Some crc1);
      let len2 := Z.shiftr len2 1 in
      if len2 =? 0 then Some crc1 else combine_loop fuel mat crc1 len2
  end.

Definition crc32_combine (crc1 crc2 len2 : Z) : option Z :=
  if len2 <=? 0 then Some crc1
  else
    even ← gf2_matrix_square odd_start;
    odd ← gf2_matrix_square even;
    crc1 ← combine_loop 64 odd crc1 len2;
    Some (xor crc1 crc2).

(** ** The definition of the checksum *)

(** One byte more in the shift register. *)
Definition crc_byte (c b : Z) : Z := crc_bits 8 (xor c b).

Definition crc_sum (crc : Z) (l : list Z) : Z := xor (foldl crc_byte (xor crc 0xffffffff) l) 0xffffffff.

(** ** The tables *)

Lemma tables_made : make_crc_table = Some crc_table.
Proof. vm_compute; reflexivity. Qed.

Lemma poly_val : crc_poly = 0xedb88320. Proof. reflexivity. Qed.

Definition is32 (c : Z) : Prop := 0 <= c < 2 ^ 32.

(** Entry [n] of table [k] is the register after [n] and [k] zero bytes. *)
Lemma table_entry k n : 0 <= k < 4 -> 0 <= n < 256 -> table k n = Some (crc_bits (8 * (Z.to_nat k + 1)) n) /\
  table (k + 4) n = Some (ZSWAP32 (crc_bits (8 * (Z.to_nat k + 1)) n)).
Proof.
  intros Hk Hn.
  assert (all_bytes_ok : forallb (fun k => forallb (fun n =>
      bool_decide (table k n = Some (crc_bits (8 * (Z.to_nat k + 1)) n)) &&
      bool_decide (table (k + 4) n = Some (ZSWAP32 (crc_bits (8 * (Z.to_nat k + 1)) n)))) (seqZ 0 256)) (seqZ 0 4) = true) by (vm_compute; reflexivity).
  rewrite forallb_forall in all_bytes_ok; specialize (all_bytes_ok k ltac:(apply list_elem_of_In, elem_of_seqZ; lia)).
  rewrite forallb_forall in all_bytes_ok; specialize (all_bytes_ok n ltac:(apply list_elem_of_In, elem_of_seqZ; lia)).
  apply andb_true_iff in all_bytes_ok as [H1 H2]; by apply bool_decide_eq_true in H1, H2.
Qed.

(** ** Linearity *)

Lemma shiftr_xor a b n : Z.shiftr (xor a b) n = xor (Z.shiftr a n) (Z.shiftr b n).
Proof. apply Z.shiftr_lxor. Qed.

Lemma odd_xor a b : Z.odd (xor a b) = xorb (Z.odd a) (Z.odd b).
Proof. by rewrite <- !Z.bit0_odd, Z.lxor_spec. Qed.

Lemma xor_comm4 a b c d : xor (xor a b) (xor c d) = xor (xor a c) (xor b d).
Proof. rewrite !Z.lxor_assoc; f_equal; rewrite <- !Z.lxor_assoc; f_equal; apply Z.lxor_comm. Qed.

Lemma xor_rev4 a b c d : xor (xor (xor a b) c) d = xor d (xor c (xor b a)).
Proof. rewrite Z.lxor_comm; f_equal; rewrite Z.lxor_comm; f_equal; apply Z.lxor_comm. Qed.

Lemma crc_bit_xor a b : crc_bit (xor a b) = xor (crc_bit a) (crc_bit b).
Proof.
  unfold crc_bit; rewrite odd_xor, shiftr_xor; set (x := Z.shiftr a 1); set (y := Z.shiftr b 1).
  destruct (Z.odd a), (Z.odd b); cbn [xorb].
  - by rewrite xor_comm4, Z.lxor_nilpotent, Z.lxor_0_l.
  - by rewrite Z.lxor_assoc.
  - rewrite <- !Z.lxor_assoc; f_equal; apply Z.lxor_comm.
  - done.
Qed.

Lemma crc_bits_xor k : forall a b, crc_bits k (xor a b) = xor (crc_bits k a) (crc_bits k b).
Proof. induction k as [|k IH]; intros; [done|]; cbn; by rewrite crc_bit_xor, IH. Qed.

Lemma crc_bits_add m n : forall c, crc_bits (m + n) c = crc_bits n (crc_bits m c).
Proof. induction m as [|m IH]; intros; [done|]; cbn; apply IH. Qed.

Lemma crc_bits_0 k : crc_bits k 0 = 0. Proof. induction k; [done|]; cbn; done. Qed.

Lemma crc_bits_shift k : forall x, crc_bits k (Z.shiftl x (Z.of_nat k)) = x.
Proof.
  induction k as [|k IH]; intros x; [apply Z.shiftl_0_r|]; cbn [crc_bits]; rewrite Nat2Z.inj_succ.
  assert (crc_bit (Z.shiftl x (Z.succ (Z.of_nat k))) = Z.shiftl x (Z.of_nat k)) as ->; [|apply IH].
  unfold crc_bit; rewrite <- Z.bit0_odd, Z.shiftl_spec_low by lia; rewrite Z.shiftr_shiftl_l by lia; f_equal; lia.
Qed.

Lemma low_high x n : 0 <= n -> 0 <= x -> x = xor (Z.land x (Z.ones n)) (Z.shiftl (Z.shiftr x n) n).
Proof.
  intros Hn Hx; pose proof (Z.pow_pos_nonneg 2 n ltac:(lia) Hn); rewrite Z.land_ones, lxor_shiftl, Z.shiftr_div_pow2 by (done || apply Z.mod_pos_bound; lia).
  pose proof (Z.div_mod x (2 ^ n) ltac:(lia)); lia.
Qed.

Lemma crc_bits_low_high k x : 0 <= x ->
  crc_bits k x = xor (crc_bits k (Z.land x (Z.ones (Z.of_nat k)))) (Z.shiftr x (Z.of_nat k)).
Proof. intros Hx; rewrite (low_high x (Z.of_nat k)) at 1 by lia; by rewrite crc_bits_xor, crc_bits_shift. Qed.

Lemma byte_land x : 0 <= Z.land x 0xff < 256.
Proof. change 0xff with (Z.ones 8); rewrite Z.land_ones by lia; apply Z.mod_pos_bound; lia. Qed.

Lemma shiftr_byte b : 0 <= b < 256 -> Z.shiftr b 8 = 0.
Proof. intros; rewrite Z.shiftr_div_pow2 by lia; by apply Z.div_small. Qed.

(** The step of the source is the step of the shift register. *)
Lemma DO1_byte c b : 0 <= c -> 0 <= b < 256 -> DO1 c b = Some (crc_byte c b).
Proof.
  intros Hc Hb; unfold DO1; destruct (table_entry 0 (Z.land (xor c b) 0xff)) as [-> _]; [lia|apply byte_land|]; cbn [mbind option_bind].
  unfold crc_byte; rewrite (crc_bits_low_high 8 (xor c b)) by (by apply Z.lxor_nonneg; lia).
  change (Z.of_nat 8) with 8; rewrite shiftr_xor, (shiftr_byte b), Z.lxor_0_r by done; done.
Qed.

Lemma crc_bit_32 c : is32 c -> is32 (crc_bit c).
Proof.
  intros Hc; assert (is32 (Z.shiftr c 1)) as Hs.
  { unfold is32 in *; rewrite Z.shiftr_div_pow2 by lia; split; [apply Z.div_pos; lia|apply Z.div_lt_upper_bound; lia]. }
  unfold crc_bit; destruct (Z.odd c); [|done]; apply (lxor_range 32); [lia|by vm_compute|done].
Qed.

Lemma crc_bits_32 k : forall c, is32 c -> is32 (crc_bits k c).
Proof. induction k as [|k IH]; intros c Hc; [done|]; by apply IH, crc_bit_32. Qed.

Lemma xor_32 a b : is32 a -> is32 b -> is32 (xor a b). Proof. apply (lxor_range 32); lia. Qed.

Lemma byte_32 b : 0 <= b < 256 -> is32 b. Proof. unfold is32; lia. Qed.

Lemma crc_byte_32 c b : is32 c -> 0 <= b < 256 -> is32 (crc_byte c b).
Proof. intros; by apply crc_bits_32, xor_32, byte_32. Qed.

Lemma not32 c : is32 c -> u32 (Z.lnot c) = xor c 0xffffffff /\ is32 (xor c 0xffffffff).
Proof.
  intros Hc; split; [|by apply xor_32]; change 0xffffffff with (Z.ones 32).
  rewrite <- (Z.mod_small c (2 ^ 32)) at 2 by done; unfold wrap; rewrite <- !Z.land_ones by lia.
  apply Z.bits_inj'; intros i Hi; rewrite Z.land_spec, Z.lnot_spec, Z.lxor_spec, Z.land_spec by done.
  by destruct (Z.testbit c i), (Z.testbit (Z.ones 32) i).
Qed.

(** ** Four bytes at a time *)

Lemma crc_byte_bits k x b : crc_byte (crc_bits k x) b = crc_bits (k + 8) (xor x (Z.shiftl b (Z.of_nat k))).
Proof. unfold crc_byte; by rewrite crc_bits_add, (crc_bits_xor k), crc_bits_shift. Qed.

Lemma crc_bits_peel k x : 0 <= x -> crc_bits (8 + k) x = xor (crc_bits (8 + k) (Z.land x 0xff)) (crc_bits k (Z.shiftr x 8)).
Proof.
  intros Hx; rewrite !crc_bits_add, (crc_bits_low_high 8 x) by done; change (Z.of_nat 8) with 8.
  by rewrite crc_bits_xor.
Qed.

(** The four bytes of a 32-bit number. *)
Definition mk4 (a b c d : Z) : Z := a + 256 * b + 65536 * c + 16777216 * d.

Definition bytes4 (a b c d : Z) : Prop := (0 <= a < 256 /\ 0 <= b < 256) /\ 0 <= c < 256 /\ 0 <= d < 256.

Lemma mk4_32 a b c d : bytes4 a b c d -> is32 (mk4 a b c d).
Proof. unfold bytes4, is32, mk4; lia. Qed.

Lemma is32_mk4 x : is32 x -> exists a b c d, x = mk4 a b c d /\ bytes4 a b c d.
Proof.
  unfold is32; intros H; exists (x mod 256), (x / 256 mod 256), (x / 256 / 256 mod 256), (x / 256 / 256 / 256); unfold mk4, bytes4.
  pose proof (Z.div_mod x 256 ltac:(lia)); pose proof (Z.div_mod (x / 256) 256 ltac:(lia)); pose proof (Z.div_mod (x / 256 / 256) 256 ltac:(lia)).
  pose proof (Z.mod_pos_bound x 256 ltac:(lia)); pose proof (Z.mod_pos_bound (x / 256) 256 ltac:(lia)); pose proof (Z.mod_pos_bound (x / 256 / 256) 256 ltac:(lia)).
  lia.
Qed.

Lemma mk4_xors a b c d : bytes4 a b c d -> mk4 a b c d = xor a (Z.shiftl (xor b (Z.shiftl (xor c (Z.shiftl d 8)) 8)) 8).
Proof. intros H; rewrite !lxor_shiftl by (unfold bytes4 in H; lia); unfold mk4; lia. Qed.

Lemma xor_byte a b : 0 <= a < 256 -> 0 <= b < 256 -> 0 <= xor a b < 256.
Proof. apply (lxor_range 8); lia. Qed.

Lemma mk4_xor a b c d a' b' c' d' : bytes4 a b c d -> bytes4 a' b' c' d' ->
  xor (mk4 a b c d) (mk4 a' b' c' d') = mk4 (xor a a') (xor b b') (xor c c') (xor d d').
Proof.
  intros H H'; assert (bytes4 (xor a a') (xor b b') (xor c c') (xor d d')) as H2 by (unfold bytes4 in *; split_and!; apply xor_byte; tauto).
  rewrite !mk4_xors by done; by rewrite xor_comm4, <- Z.shiftl_lxor, xor_comm4, <- Z.shiftl_lxor, xor_comm4, <- Z.shiftl_lxor.
Qed.

Lemma shiftr8 a y : 0 <= a < 256 -> Z.shiftr (a + 256 * y) 8 = y /\ Z.land (a + 256 * y) 0xff = a.
Proof.
  intros H; change 0xff with (Z.ones 8); rewrite Z.land_ones, Z.shiftr_div_pow2 by lia; change (2 ^ 8) with 256.
  by rewrite (Z.mul_comm 256), Z.div_add, Z.mod_add, Z.div_small, Z.mod_small by lia.
Qed.

Lemma mk4_parts a b c d : bytes4 a b c d ->
  Z.land (mk4 a b c d) 0xff = a /\ Z.shiftr (mk4 a b c d) 8 = mk4 b c d 0 /\
  Z.land (Z.shiftr (mk4 a b c d) 8) 0xff = b /\ Z.land (Z.shiftr (mk4 a b c d) 16) 0xff = c /\ Z.shiftr (mk4 a b c d) 24 = d.
Proof.
  intros [[Ha Hb] [Hc Hd]]; change 16 with (8 + 8); change 24 with (8 + (8 + 8)); rewrite <- !Z.shiftr_shiftr by lia.
  replace (mk4 a b c d) with (a + 256 * (b + 256 * (c + 256 * d))) by (unfold mk4; lia).
  destruct (shiftr8 a (b + 256 * (c + 256 * d)) Ha) as [-> ->], (shiftr8 b (c + 256 * d) Hb) as [-> ->], (shiftr8 c d Hc) as [-> ->].
  split_and!; try done; unfold mk4; lia.
Qed.

Lemma swap_mk4 a b c d : bytes4 a b c d -> ZSWAP32 (mk4 a b c d) = mk4 d c b a.
Proof.
  intros H; destruct (mk4_parts _ _ _ _ H) as (E0 & _ & E1 & E2 & E3); unfold ZSWAP32; rewrite E0, E3; destruct H as [[Ha Hb] [Hc Hd]].
  assert (forall x, Z.land x 0xff00 = 256 * Z.land (Z.shiftr x 8) 0xff) as E.
  { intros x; change 0xff00 with (Z.shiftl 0xff 8); rewrite <- (Z.mul_comm (Z.land _ _)); change 256 with (2 ^ 8); rewrite <- Z.shiftl_mul_pow2 by lia.
    apply Z.bits_inj'; intros i Hi; rewrite Z.land_spec; destruct (decide (i < 8)).
    - rewrite !Z.shiftl_spec_low by lia; apply andb_false_r.
    - rewrite !Z.shiftl_spec, Z.land_spec, Z.shiftr_spec by lia; do 2 f_equal; lia. }
  rewrite !E, E1, Z.shiftr_shiftr by lia; change (8 + 8) with 16; rewrite E2, !Z.shiftl_mul_pow2 by lia.
  change 0xff with (Z.ones 8); rewrite Z.land_ones, (Z.mod_small d) by lia; unfold mk4; rewrite wrap_small by (unfold in_range; lia); lia.
Qed.

Lemma shl_mk4 a b c d : bytes4 a b c d -> u32 (Z.shiftl (mk4 a b c d) 8) = mk4 0 a b c.
Proof.
  intros H; rewrite Z.shiftl_mul_pow2 by lia; unfold wrap; symmetry; apply Z.mod_unique with d; unfold mk4, bytes4 in *; lia.
Qed.

Lemma swap_xor x y : is32 x -> is32 y -> ZSWAP32 (xor x y) = xor (ZSWAP32 x) (ZSWAP32 y).
Proof.
  intros Hx Hy; destruct (is32_mk4 x Hx) as (a & b & c & d & -> & H), (is32_mk4 y Hy) as (a' & b' & c' & d' & -> & H').
  assert (bytes4 (xor a a') (xor b b') (xor c c') (xor d d')) as H2 by (unfold bytes4 in *; split_and!; apply xor_byte; tauto).
  rewrite mk4_xor, !swap_mk4 by done; symmetry; apply mk4_xor; unfold bytes4 in *; tauto.
Qed.

Lemma swap_32 x : is32 x -> is32 (ZSWAP32 x) /\ ZSWAP32 (ZSWAP32 x) = x.
Proof.
  intros Hx; destruct (is32_mk4 x Hx) as (a & b & c & d & -> & H); assert (bytes4 d c b a) by (unfold bytes4 in *; tauto).
  rewrite swap_mk4 by done; split; [by apply mk4_32|by apply swap_mk4].
Qed.

(** What four bytes do to the register. *)
Definition four (c b0 b1 b2 b3 : Z) : Z := crc_byte (crc_byte (crc_byte (crc_byte c b0) b1) b2) b3.

Lemma load32_mk4 b0 b1 b2 b3 : bytes4 b0 b1 b2 b3 ->
  load32 true b0 b1 b2 b3 = mk4 b0 b1 b2 b3 /\ load32 false b0 b1 b2 b3 = mk4 b3 b2 b1 b0.
Proof.
  intros [[H0 H1] [H2 H3]]; assert (forall a b c d, 0 <= a < 256 -> 0 <= b < 256 -> 0 <= c < 256 -> 0 <= d < 256 ->
    Z.lor (Z.lor a (Z.shiftl b 8)) (Z.lor (Z.shiftl c 16) (Z.shiftl d 24)) = mk4 a b c d) as E; [|by split; apply E].
  intros a b c d Ha Hb Hc Hd; replace (Z.lor (Z.shiftl c 16) (Z.shiftl d 24)) with (Z.shiftl (Z.lor c (Z.shiftl d 8)) 16)
    by (by rewrite Z.shiftl_lor, Z.shiftl_shiftl by lia); rewrite !lor_shiftl by (rewrite ?lor_shiftl by lia; lia); unfold mk4; lia.
Qed.

Lemma four_bits c b0 b1 b2 b3 : bytes4 b0 b1 b2 b3 -> four c b0 b1 b2 b3 = crc_bits 32 (xor c (mk4 b0 b1 b2 b3)).
Proof.
  intros H; unfold four; rewrite (mk4_xors _ _ _ _ H); change (crc_byte c b0) with (crc_bits 8 (xor c b0)); rewrite !crc_byte_bits.
  f_equal; rewrite !Z.shiftl_lxor, !Z.shiftl_shiftl by lia; by rewrite !Z.lxor_assoc.
Qed.

Lemma bits32_peel x : is32 x -> crc_bits 32 x =
  xor (crc_bits 32 (Z.land x 0xff)) (xor (crc_bits 24 (Z.land (Z.shiftr x 8) 0xff))
    (xor (crc_bits 16 (Z.land (Z.shiftr x 16) 0xff)) (crc_bits 8 (Z.shiftr x 24)))).
Proof.
  unfold is32; intros Hx; assert (forall n, 0 <= Z.shiftr x n) as Hs by (intros; apply Z.shiftr_nonneg; lia).
  pose proof (crc_bits_peel 24 x) as E1; pose proof (crc_bits_peel 16 (Z.shiftr x 8)) as E2; pose proof (crc_bits_peel 8 (Z.shiftr x 16)) as E3.
  cbn [Nat.add] in E1, E2, E3; rewrite E1, E2 by (lia || apply Hs); rewrite Z.shiftr_shiftr by lia; change (8 + 8) with 16.
  rewrite E3 by apply Hs; by rewrite Z.shiftr_shiftr by lia.
Qed.

Lemma table_at k n : 0 <= k < 4 -> 0 <= n < 256 -> table k n = Some (crc_bits (8 * (Z.to_nat k + 1)) n).
Proof. intros Hk Hn; by destruct (table_entry k n Hk Hn). Qed.

Lemma table_swap k n : 0 <= k < 4 -> 0 <= n < 256 -> table (k + 4) n = Some (ZSWAP32 (crc_bits (8 * (Z.to_nat k + 1)) n)).
Proof. intros Hk Hn; by destruct (table_entry k n Hk Hn). Qed.

Lemma DOLIT4_four c b0 b1 b2 b3 : is32 c -> bytes4 b0 b1 b2 b3 ->
  DOLIT4 c (load32 true b0 b1 b2 b3) = Some (four c b0 b1 b2 b3).
Proof.
  intros Hc H; destruct (load32_mk4 _ _ _ _ H) as [-> _]; rewrite four_bits by done; assert (is32 (xor c (mk4 b0 b1 b2 b3))) as Hx by (by apply xor_32, mk4_32).
  unfold DOLIT4; set (x := xor c _) in *; rewrite (bits32_peel x Hx); destruct (is32_mk4 x Hx) as (x0 & x1 & x2 & x3 & -> & HB).
  destruct (mk4_parts _ _ _ _ HB) as (-> & _ & -> & -> & ->); destruct HB as [[? ?] [? ?]].
  rewrite (table_at 3), (table_at 2), (table_at 1), (table_at 0) by lia; cbn [mbind option_bind]; by rewrite !Z.lxor_assoc.
Qed.

Lemma DOBIG4_four c b0 b1 b2 b3 : is32 c -> bytes4 b0 b1 b2 b3 ->
  DOBIG4 (ZSWAP32 c) (load32 false b0 b1 b2 b3) = Some (ZSWAP32 (four c b0 b1 b2 b3)).
Proof.
  intros Hc H; destruct (load32_mk4 _ _ _ _ H) as [_ ->]; rewrite four_bits by done; assert (is32 (xor c (mk4 b0 b1 b2 b3))) as Hx by (by apply xor_32, mk4_32).
  unfold DOBIG4; rewrite <- (swap_mk4 _ _ _ _ H), <- swap_xor by (done || by apply mk4_32); set (x := xor c _) in *; rewrite (bits32_peel x Hx).
  destruct (is32_mk4 x Hx) as (x0 & x1 & x2 & x3 & -> & HB); assert (bytes4 x3 x2 x1 x0) as HB' by (unfold bytes4 in *; tauto).
  destruct (mk4_parts _ _ _ _ HB) as (-> & _ & -> & -> & ->); rewrite swap_mk4 by done; destruct (mk4_parts _ _ _ _ HB') as (-> & _ & -> & -> & ->).
  destruct HB as [[? ?] [? ?]]; rewrite (table_swap 0), (table_swap 1), (table_swap 2), (table_swap 3) by lia; cbn [mbind option_bind]; f_equal.
  assert (forall k n, 0 <= n < 256 -> is32 (crc_bits k n)) as H32 by (intros; by apply crc_bits_32, byte_32).
  rewrite !swap_xor by (repeat apply xor_32; auto); apply xor_rev4.
Qed.

Lemma big1_byte c b : is32 c -> 0 <= b < 256 -> big1 (ZSWAP32 c) b = Some (ZSWAP32 (crc_byte c b)).
Proof.
  intros Hc Hb; destruct (is32_mk4 c Hc) as (c0 & c1 & c2 & c3 & -> & HB); assert (bytes4 c3 c2 c1 c0) as HB' by (unfold bytes4 in *; tauto).
  unfold big1; rewrite swap_mk4 by done; destruct (mk4_parts _ _ _ _ HB') as (_ & _ & _ & _ & ->); rewrite shl_mk4 by done.
  pose proof HB as [[H0 H1] [H2 H3]]; rewrite (table_swap 0) by (lia || by apply xor_byte); cbn [mbind option_bind]; f_equal.
  assert (xor (mk4 c0 c1 c2 c3) b = mk4 (xor c0 b) c1 c2 c3) as E.
  { replace b with (mk4 b 0 0 0) at 1 by (unfold mk4; lia); rewrite mk4_xor by (done || (unfold bytes4; lia)); by rewrite !Z.lxor_0_r. }
  assert (bytes4 (xor c0 b) c1 c2 c3) as H5 by (unfold bytes4 in *; split_and!; try tauto; by apply xor_byte).
  assert (bytes4 c1 c2 c3 0) as H6 by (unfold bytes4; lia).
  unfold crc_byte; rewrite E; pose proof (crc_bits_peel 0 (mk4 (xor c0 b) c1 c2 c3)) as E1; cbn [Nat.add] in E1.
  rewrite E1 by (apply mk4_32 in H5; unfold is32 in H5; lia); change (crc_bits 0 ?y) with y; destruct (mk4_parts _ _ _ _ H5) as (-> & -> & _).
  rewrite swap_xor by (first [by apply mk4_32|by apply crc_bits_32, byte_32, xor_byte]); by rewrite swap_mk4.
Qed.

Lemma foldl_crc_32 l : forall c, is32 c -> byte_list l -> is32 (foldl crc_byte c l).
Proof. induction l as [|b l IH]; intros c Hc Hl; [done|]; apply Forall_cons in Hl as [Hb Hl]; cbn; apply IH; [by apply crc_byte_32|done]. Qed.

Lemma foldl_take (l : list Z) a b c : foldl crc_byte (foldl crc_byte c (take a l)) (take b (drop a l)) = foldl crc_byte c (take (a + b) l).
Proof. by rewrite <- foldl_app, take_take_drop. Qed.

(** Both byte orders run the same loops on a register kept as [enc c]. *)
Section ByFour.
Context (le : bool) (step : Z -> Z -> option Z) (enc : Z -> Z).
Hypothesis Hstep : forall c b, is32 c -> 0 <= b < 256 -> step (enc c) b = Some (enc (crc_byte c b)).
Hypothesis Hword : forall c b0 b1 b2 b3, is32 c -> bytes4 b0 b1 b2 b3 ->
  (if le then DOLIT4 else DOBIG4) (enc c) (load32 le b0 b1 b2 b3) = Some (enc (four c b0 b1 b2 b3)).

Lemma do_bytes_take n : forall c l, is32 c -> byte_list l -> (n <= length l)%nat ->
  do_bytes step n (enc c) l = Some (enc (foldl crc_byte c (take n l)), drop n l).
Proof.
  induction n as [|n IH]; intros c [|b l] Hc Hl Hn; cbn in Hn; try done; try lia; apply Forall_cons in Hl as [Hb Hl].
  cbn [do_bytes take drop foldl]; rewrite Hstep by done; cbn [mbind option_bind]; apply IH; [by apply crc_byte_32|done|lia].
Qed.

Lemma do_words_take n : forall c l, is32 c -> byte_list l -> (4 * n <= length l)%nat ->
  do_words le n (enc c) l = Some (enc (foldl crc_byte c (take (4 * n) l)), drop (4 * n) l).
Proof.
  induction n as [|n IH]; intros c l Hc Hl Hn; [by destruct l|]; destruct l as [|b0 [|b1 [|b2 [|b3 l]]]]; cbn [length] in Hn; try lia.
  do 4 (apply Forall_cons in Hl as [? Hl]); replace (4 * S n)%nat with (S (S (S (S (4 * n))))) by lia.
  cbn [do_words take drop foldl]; rewrite Hword by (done || by split); cbn [mbind option_bind]; apply IH; [|done|lia].
  unfold four; by repeat apply crc_byte_32.
Qed.

Lemma by_four_ok c addr l len : is32 c -> byte_list l -> 0 <= len <= Z.of_nat (length l) ->
  by_four le step (enc c) addr l len = Some (enc (foldl crc_byte c (take (Z.to_nat len) l))).
Proof.
  intros Hc Hl Hlen; unfold by_four; set (h := head_bytes addr len).
  assert (0 <= h <= len) as Hh by (subst h; unfold head_bytes; pose proof (Z.mod_pos_bound (4 - Z.land addr 3) 4); lia).
  assert (forall n, byte_list (take n l) /\ byte_list (drop n l)) as HT by (intros; by split; [apply Forall_take|apply Forall_drop]).
  pose proof (Z.div_mod (len - h) 32); pose proof (Z.mod_pos_bound (len - h) 32).
  pose proof (Z.div_mod ((len - h) mod 32) 4); pose proof (Z.mod_pos_bound ((len - h) mod 32) 4).
  set (q := (len - h) / 32) in *; set (r := (len - h) mod 32) in *; set (q' := r / 4) in *; set (r' := r mod 4) in *.
  rewrite do_bytes_take by (done || lia); cbn [mbind option_bind].
  rewrite do_words_take by (rewrite ?length_drop; first [apply foldl_crc_32; [done|apply HT]|apply HT|lia]); cbn [mbind option_bind].
  rewrite foldl_take, drop_drop.
  rewrite do_words_take by (rewrite ?length_drop; first [apply foldl_crc_32; [done|apply HT]|apply HT|lia]); cbn [mbind option_bind].
  rewrite foldl_take, drop_drop.
  rewrite do_bytes_take by (rewrite ?length_drop; first [apply foldl_crc_32; [done|apply HT]|apply HT|lia]); cbn [mbind option_bind].
  rewrite foldl_take; do 4 f_equal; lia.
Qed.
End ByFour.

Lemma bytewise_ok crc l len : is32 crc -> byte_list l -> 0 <= len <= Z.of_nat (length l) ->
  bytewise crc l len = Some (crc_sum crc (take (Z.to_nat len) l)).
Proof.
  intros Hc Hl Hlen; unfold bytewise, crc_sum; destruct (not32 crc Hc) as [_ H]; set (c := xor crc _) in *.
  assert (forall c n m, is32 c -> byte_list m -> (n <= length m)%nat ->
    do_bytes DO1 n c m = Some (foldl crc_byte c (take n m), drop n m)) as D.
  { intros; apply (do_bytes_take DO1 (fun c => c)); try done; intros; apply DO1_byte; unfold is32 in *; lia. }
  pose proof (Z.div_mod len 8); pose proof (Z.mod_pos_bound len 8).
  rewrite D by (done || lia); cbn [mbind option_bind].
  rewrite D by (rewrite ?length_drop; first [apply foldl_crc_32; [done|by apply Forall_take]|by apply Forall_drop|lia]); cbn [mbind option_bind].
  rewrite foldl_take; do 4 f_equal; lia.
Qed.

Lemma crc32_little_ok crc addr l len : is32 crc -> byte_list l -> 0 <= len <= Z.of_nat (length l) ->
  crc32_little crc addr l len = Some (crc_sum crc (take (Z.to_nat len) l)).
Proof.
  intros Hc Hl Hlen; unfold crc32_little, crc_sum; rewrite (wrap_small 32 crc) by done; destruct (not32 crc Hc) as [-> H].
  rewrite (by_four_ok true DO1 (fun c => c)); try done.
  - cbn [mbind option_bind]; f_equal; by apply not32, foldl_crc_32, Forall_take.
  - intros; apply DO1_byte; unfold is32 in *; lia.
  - intros; by apply DOLIT4_four.
Qed.

Lemma crc32_big_ok crc addr l len : is32 crc -> byte_list l -> 0 <= len <= Z.of_nat (length l) ->
  crc32_big crc addr l len = Some (crc_sum crc (take (Z.to_nat len) l)).
Proof.
  intros Hc Hl Hlen; unfold crc32_big, crc_sum; rewrite (wrap_small 32 crc) by done; destruct (not32 crc Hc) as [_ H], (swap_32 crc Hc) as [Hs _].
  assert (is32 0xffffffff) as Hf by (unfold is32; lia); assert (ZSWAP32 0xffffffff = 0xffffffff) as Ef by reflexivity.
  destruct (not32 _ Hs) as [-> _]; rewrite <- Ef at 1; rewrite <- swap_xor by done.
  rewrite (by_four_ok false big1 ZSWAP32); try done; [|by intros; apply big1_byte|by intros; apply DOBIG4_four].
  cbn [mbind option_bind]; f_equal; set (f := foldl _ _ _); assert (is32 f) as Hfo by (by apply foldl_crc_32, Forall_take).
  destruct (swap_32 f Hfo) as [H1 H2], (not32 _ H1) as [-> H3]; rewrite swap_xor, H2, Ef by done; done.
Qed.

(** ** Operators on GF(2) vectors *)

Definition linear (f : Z -> Z) : Prop := forall a b, f (xor a b) = xor (f a) (f b).

Lemma linear_0 f : linear f -> f 0 = 0.
Proof. intros L; change 0 with (xor 0 0) at 1; rewrite L; apply Z.lxor_nilpotent. Qed.

(** The matrix of an operator: its value on every unit vector. *)
Definition rows_of (f : Z -> Z) (s n : Z) : list Z := (fun i => f (Z.shiftl 1 i)) <$> seqZ s n.

Lemma matrix_times_linear f n : linear f -> forall s vec sum, 0 <= s -> 0 <= vec < 2 ^ Z.of_nat n ->
  gf2_matrix_times (rows_of f s (Z.of_nat n)) vec sum = Some (xor sum (f (Z.shiftl vec s))).
Proof.
  intros L; induction n as [|n IH]; intros s vec sum Hs Hv.
  { assert (vec = 0) as -> by (change (2 ^ Z.of_nat 0) with 1 in Hv; lia); cbn; by rewrite Z.shiftl_0_l, linear_0, Z.lxor_0_r. }
  unfold rows_of; rewrite seqZ_cons by lia; cbn [fmap list_fmap gf2_matrix_times]; destruct (Z.eqb_spec vec 0) as [->|Hn].
  { by rewrite Z.shiftl_0_l, linear_0, Z.lxor_0_r. }
  replace (Z.pred (Z.of_nat (S n))) with (Z.of_nat n) by lia; change (_ <$> seqZ _ _) with (rows_of f (Z.succ s) (Z.of_nat n)).
  rewrite Nat2Z.inj_succ, Z.pow_succ_r in Hv by lia; rewrite IH; [|lia|rewrite Z.shiftr_div_pow2 by lia; change (2 ^ 1) with 2; split; [apply Z.div_pos|apply Z.div_lt_upper_bound]; lia].
  f_equal; rewrite (low_high vec 1) at 3 by lia; rewrite Z.shiftl_lxor, L, Z.shiftl_shiftl by lia; replace (1 + s) with (Z.succ s) by lia.
  rewrite <- Z.lxor_assoc; f_equal; rewrite Z.land_ones by lia; change (2 ^ 1) with 2; rewrite Zmod_odd.
  destruct (Z.odd vec); [done|]; by rewrite Z.shiftl_0_l, linear_0, Z.lxor_0_r.
Qed.

Definition mat_of (f : Z -> Z) : list Z := rows_of f 0 32.

Lemma mat_times f vec : linear f -> is32 vec -> gf2_matrix_times (mat_of f) vec 0 = Some (f vec).
Proof.
  intros L Hv; unfold mat_of; change 32 with (Z.of_nat 32); rewrite (matrix_times_linear f 32 L) by (done || lia).
  by rewrite Z.shiftl_0_r, Z.lxor_0_l.
Qed.

Lemma mat_square k : gf2_matrix_square (mat_of (crc_bits k)) = Some (mat_of (crc_bits (k + k))).
Proof.
  unfold gf2_matrix_square; apply mapM_Some, Forall2_fmap_l, Forall2_fmap_r, Forall_Forall2_diag, Forall_forall; intros i Hi%elem_of_seqZ.
  unfold compose; cbn beta; rewrite (mat_times (crc_bits k)), crc_bits_add; [done|exact (crc_bits_xor k)|]; apply crc_bits_32; rewrite Z.shiftl_1_l; unfold is32.
  split; [lia|apply Z.pow_lt_mono_r; lia].
Qed.

Lemma odd_start_mat : odd_start = mat_of (crc_bits 1).
Proof. vm_compute; reflexivity. Qed.

Lemma combine_loop_ok fuel : forall k c len, is32 c -> 0 < len < 2 ^ Z.of_nat fuel ->
  combine_loop fuel (mat_of (crc_bits k)) c len = Some (crc_bits (2 * k * Z.to_nat len) c).
Proof.
  induction fuel as [|fuel IH]; intros k c len Hc Hl; [change (2 ^ Z.of_nat 0) with 1 in Hl; lia|].
  cbn [combine_loop]; rewrite mat_square; cbn [mbind option_bind].
  set (c' := if Z.odd len then crc_bits (k + k) c else c).
  assert ((if Z.odd len then gf2_matrix_times (mat_of (crc_bits (k + k))) c 0 else Some c) = Some c') as ->.
  { subst c'; destruct (Z.odd len); [|done]; apply mat_times; [exact (crc_bits_xor _)|done]. }
  assert (is32 c') as Hc' by (subst c'; destruct (Z.odd len); [by apply crc_bits_32|done]).
  cbn [mbind option_bind]; rewrite Nat2Z.inj_succ, Z.pow_succ_r in Hl by lia; pose proof (Z.div2_odd len) as E; rewrite Z.div2_spec in E.
  assert (forall m, crc_bits m c' = crc_bits (m + (if Z.odd len then k + k else 0)) c) as E2.
  { intros m; subst c'; destruct (Z.odd len); [by rewrite (Nat.add_comm m), (crc_bits_add (k + k))|by rewrite Nat.add_0_r]. }
  set (h := Z.shiftr len 1) in *; destruct (Z.eqb_spec h 0) as [H0|Hn].
  - change c' with (crc_bits 0 c'); rewrite E2; do 2 f_equal; destruct (Z.odd len); cbn [Z.b2z] in E; lia.
  - assert (0 <= h) by (apply Z.shiftr_nonneg; lia); rewrite IH, E2 by (done || (destruct (Z.odd len); cbn [Z.b2z] in E; lia)); do 2 f_equal.
    replace (Z.to_nat len) with (2 * Z.to_nat h + (if Z.odd len then 1 else 0))%nat by (destruct (Z.odd len); cbn [Z.b2z] in E; lia).
    destruct (Z.odd len); lia.
Qed.

Lemma foldl_xor l : forall c d, foldl crc_byte (xor c d) l = xor (crc_bits (8 * length l) c) (foldl crc_byte d l).
Proof.
  induction l as [|b l IH]; intros c d; [done|]; cbn [foldl length]; unfold crc_byte at 2 4.
  rewrite Z.lxor_assoc, crc_bits_xor, IH; replace (8 * S (length l))%nat with (8 + 8 * length l)%nat by lia; by rewrite crc_bits_add.
Qed.

Lemma combine_zeros fuel start k c len : start = mat_of (crc_bits k) -> is32 c -> 0 < len < 2 ^ Z.of_nat fuel ->
  exists even odd, gf2_matrix_square start = Some even /\ gf2_matrix_square even = Some odd /\
  combine_loop fuel odd c len = Some (crc_bits (8 * (k * Z.to_nat len)) c).
Proof.
  intros -> Hc Hl; eexists _, _; split_and!; [apply mat_square|apply mat_square|]; rewrite combine_loop_ok by done; do 2 f_equal; lia.
Qed.

Lemma crc32_combine_ok crc x y : is32 crc -> byte_list x -> Z.of_nat (length y) < 2 ^ 63 ->
  crc32_combine (crc_sum crc x) (crc_sum 0 y) (Z.of_nat (length y)) = Some (crc_sum crc (x ++ y)).
Proof.
  intros Hc Hx Hy; unfold crc32_combine; destruct (Z.leb_spec (Z.of_nat (length y)) 0) as [H0|H0].
  { destruct y; [by rewrite app_nil_r|cbn in H0; lia]. }
  assert (is32 (crc_sum crc x)) as H1 by (apply not32, foldl_crc_32; [by apply not32|done]).
  destruct (combine_zeros 64 odd_start 1 (crc_sum crc x) (Z.of_nat (length y)) odd_start_mat H1 ltac:(lia)) as (e & o & E1 & E2 & E3).
  rewrite Nat2Z.id, Nat.mul_1_l in E3; rewrite E1; cbn [mbind option_bind]; rewrite E2; cbn [mbind option_bind]; rewrite E3; cbn [mbind option_bind]; f_equal.
  unfold crc_sum at 2 3; rewrite Z.lxor_0_l, foldl_app, <- Z.lxor_assoc, <- foldl_xor.
  unfold crc_sum; by rewrite Z.lxor_assoc, Z.lxor_nilpotent, Z.lxor_0_r.
Qed.

(** C31: the CRC-32 of every buffer is the shift-register value, on every
    path.  The tables in crc32.h are the ones [make_crc_table] computes.  For
    every start value, alignment and length within the buffer, the bytewise
    code and the four-byte code for little- and big-endian machines return
    the same checksum, that of shifting the message bit by bit through the
    polynomial.  No table access or read is out of bounds.  Checksums compose:
    a call continued with an earlier result, and [crc32_combine] of two
    separate checksums, give the checksum of the concatenation. *)
Theorem crc32_correct :
  make_crc_table = Some crc_table /\
  (forall le wide crc addr l len, is32 crc -> byte_list l -> 0 <= len <= Z.of_nat (length l) ->
     crc32 le wide crc addr (Some l) len = Some (crc_sum crc (take (Z.to_nat len) l)) /\
     is32 (crc_sum crc (take (Z.to_nat len) l))) /\
  (forall crc x y, crc_sum (crc_sum crc x) y = crc_sum crc (x ++ y)) /\
  (forall crc x y, is32 crc -> byte_list x -> Z.of_nat (length y) < 2 ^ 63 ->
     crc32_combine (crc_sum crc x) (crc_sum 0 y) (Z.of_nat (length y)) = Some (crc_sum crc (x ++ y))).
Proof.
  split_and!; [exact tables_made| | |exact crc32_combine_ok].
  - intros le wide crc addr l len Hc Hl Hlen; split; [|apply not32, foldl_crc_32; [by apply not32|by apply Forall_take]].
    destruct wide; [by apply bytewise_ok|]; destruct le; [by apply crc32_little_ok|by apply crc32_big_ok].
  - intros; unfold crc_sum; by rewrite foldl_app, Z.lxor_assoc, Z.lxor_nilpotent, Z.lxor_0_r.
Qed.

Definition check_msg : list Z := [0x31; 0x32; 0x33; 0x34; 0x35; 0x36; 0x37; 0x38; 0x39].

(** The check value of CRC-32, from an unaligned buffer. *)
Lemma crc32_correct_witness :
  crc32 true false 0 3 (Some check_msg) 9 = Some 0xcbf43926 /\ crc32 false false 0 2 (Some check_msg) 9 = Some 0xcbf43926 /\
  crc32_combine (crc_sum 0 (take 4 check_msg)) (crc_sum 0 (drop 4 check_msg)) 5 = Some 0xcbf43926.
Proof.
  destruct crc32_correct as (_ & H & _ & C); assert (is32 0) as H0 by (unfold is32; lia).
  assert (byte_list check_msg) as Hm by (unfold check_msg; repeat (constructor; [lia|]); constructor).
  split_and!.
  - exact (proj1 (H true false 0 3 check_msg 9 H0 Hm ltac:(vm_compute; intuition congruence))).
  - exact (proj1 (H false false 0 2 check_msg 9 H0 Hm ltac:(vm_compute; intuition congruence))).
  - exact (C 0 (take 4 check_msg) (drop 4 check_msg) H0 ltac:(by apply Forall_take) ltac:(done)).
Defined.
