(* ===== verification/Reserve.v ===== *)
(** * Reservations of the nanokernel
    (boot/nanokernel/src/platform/riscv/nano_kernel.S)

    Virtual memory is handed out by reservations.  A reservation is a metadata
    node of 16 bytes in front of the memory it stands for; a handle to it is a
    sealed capability to the node.  The model has the memory in 64-bit words
    and the calls with the registers' arithmetic.  The store-conditionals of a
    call succeed or fail as the list [sc] says; a call that still retries when
    the list ends has no result.  [exact base len] says whether bounds can be
    represented: [csetboundsexact] traps when they cannot. *)

From S2P Require Import Prelude.

Definition RES_META_SIZE : Z := 16.
Definition RES_LENGTH_SHIFT_HIGH : Z := 11.
Definition RES_LENGTH_SHIFT_LOW : Z := 4.
Definition RES_STATE_MASK : Z := 0xC000.
Definition RES_LOW_TERM_MASK : Z := 0x2000.
Definition RES_HIGH_TERM_MASK : Z := 0x1000.
Definition RES_SCALE_MASK : Z := 0x0FE0.
Definition RES_STATE_SHIFT : Z := 14.
Definition RES_SCALE_SHIFT : Z := 5.
Definition RES_STATE_IN_LENGTH_SHIFT : Z := 6 * 8.
Definition RES_SIMPLE_SHIFT : Z := 12.
Definition RES_SCALE_MAX : Z := 100 - 1.
Definition RES_SUBFIELD_BITMAP_OFFSET : Z := 8.
Definition RES_SUBFIELD_BITMAP_BITS : Z := 8 * 8.
Definition res_taken : Z := 1.

Definition VIRT_MEM_START : Z := 0x1000.
(** [MAX_VIRTUAL_PAGES] is 2^27 and [GIGA_MAPPINGS] is 64. *)
Definition VIRT_MEM_END : Z := Z.shiftl (2 ^ 27) 12 - Z.shiftl 64 30 * 2.
Definition VIRT_MEM_SIZE : Z := VIRT_MEM_END - VIRT_MEM_START.

(** ** Machine *)

Definition sll (x n : Z) : Z := u64 (Z.shiftl x n).
Definition srl (x n : Z) : Z := Z.shiftr x n.

Abbreviation mem := (gmap Z Z).
Definition ld (m : mem) (a : Z) : Z := default 0 (m !! a).
Definition sd (m : mem) (a v : Z) : mem := <[a := v]> m.

(** [camoswap.w]: the low half of the word. *)
Definition sw (m : mem) (a v : Z) : mem := sd m a (Z.lor (Z.land (ld m a) 0xffffffff00000000) (u32 v)).

(** A sealed handle: where the node is and the offset, which names a subfield. *)
Record res_t := mk_res { base : Z; off : Z }.

#[export] Instance res_t_eq : EqDecision res_t.
Proof. solve_decision. Defined.

(** [nano_er] clears the registers; a trap ends the call without a result. *)
Inductive nano_answer (A : Type) := Answer (x : A) | Refused | Trapped.
Arguments Answer {A} x.
Arguments Refused {A}.
Arguments Trapped {A}.

(** ** Taking a reservation *)

Definition res_length (w : Z) : Z := srl (sll w RES_LENGTH_SHIFT_HIGH) (RES_LENGTH_SHIFT_HIGH - RES_LENGTH_SHIFT_LOW).

Definition EXTRACT_SUB_LENGTH (w : Z) : Z :=
  let out := srl w (RES_STATE_IN_LENGTH_SHIFT + RES_SCALE_SHIFT) in
  let tmp := Z.land out 3 in
  let out := Z.land (srl out 2) 31 in
  if out =? 0 then sll tmp out else sll (Z.lor tmp 4) (out - 1).

(** From open to taken: the length, or an error. *)
Fixpoint take_normal (sc : list bool) (m : mem) (a : Z) : option (mem * option Z) :=
  match sc with
  | [] => None
  | ok :: sc =>
      let t1 := ld m a in
      if negb (srl t1 (RES_STATE_IN_LENGTH_SHIFT + RES_STATE_SHIFT) =? 0) then Some (m, None)
      else if ok : bool
      then Some (sd m a (Z.lor t1 (Z.shiftl res_taken (RES_STATE_IN_LENGTH_SHIFT + RES_STATE_SHIFT))), Some (res_length t1))
      else take_normal sc m a
  end.

(** The base and length of subfield [t3]. *)
Definition take_sub (m : mem) (a t0 t3 : Z) : mem * option (Z * Z) :=
  if RES_SUBFIELD_BITMAP_BITS <=? t3 then (m, None)
  else
    let t2 := sll 1 t3 in
    let t1 := ld m (a + RES_SUBFIELD_BITMAP_OFFSET) in
    let m := sd m (a + RES_SUBFIELD_BITMAP_OFFSET) (Z.lor t1 t2) in
    if negb (Z.land t1 t2 =? 0) then (m, None)
    else
      let w := ld m a in
      let t1 := EXTRACT_SUB_LENGTH w in
      let t2 := res_length w in
      let t3 := u64 (t3 * t1) in
      if t2 <? u64 (t3 + t1) then (m, None) else (m, Some (u64 (t0 + t3), t1)).

Definition take_make (exact : Z -> Z -> bool) (r : option (Z * Z)) : nano_answer (Z * Z) :=
  match r with
  | None => Refused
  | Some (b, len) => if exact b len then Answer (b, len) else Trapped
  end.

Definition rescap_take (exact : Z -> Z -> bool) (sc : list bool) (m : mem) (res : res_t) : option (mem * nano_answer (Z * Z)) :=
  let t0 := base res + RES_META_SIZE in
  if negb (off res =? 0) then
    let '(m, r) := take_sub m (base res) t0 (u64 (off res - 1)) in Some (m, take_make exact r)
  else
    '(m, len) ← take_normal sc m (base res);
    Some (m, take_make exact ((fun len => (t0, len)) <$> len)).

(** The length and base of a reservation or subfield. *)
Definition rescap_nfo (m : mem) (res : res_t) : Z * Z :=
  let a1 := base res + RES_META_SIZE in
  let t1 := ld m (base res) in
  if off res =? 0 then (res_length t1, a1)
  else
    let a0 := EXTRACT_SUB_LENGTH t1 in
    (a0, u64 (a1 + u64 (a0 * u64 (off res - 1)))).

(** ** Dividing a reservation *)

(** [t2] and [t3] of the assembly: the high terminator and the old length. *)
Fixpoint split_loop (sc : list bool) (m : mem) (a t4 : Z) : option (mem * option (Z * Z)) :=
  match sc with
  | [] => None
  | ok :: sc =>
      let t0 := ld m a in
      let t1 := srl t0 (RES_STATE_IN_LENGTH_SHIFT + RES_SIMPLE_SHIFT) in
      if negb (Z.land t1 (Z.shiftr RES_STATE_MASK RES_SIMPLE_SHIFT) =? 0) then Some (m, None)
      else
        let t2 := Z.land t1 (Z.shiftr RES_HIGH_TERM_MASK RES_SIMPLE_SHIFT) in
        let t3 := srl (sll t0 RES_LENGTH_SHIFT_HIGH) RES_LENGTH_SHIFT_HIGH in
        if t3 <=? t4 then Some (m, None)
        else
          let t1 := Z.land t1 (Z.shiftr RES_LOW_TERM_MASK RES_SIMPLE_SHIFT) in
          let t1 := sll t1 (RES_STATE_IN_LENGTH_SHIFT + RES_SIMPLE_SHIFT) in
          if ok : bool then Some (sd m a (Z.lor t1 t4), Some (t2, t3)) else split_loop sc m a t4
  end.

Definition rescap_split (sc : list bool) (m : mem) (res : res_t) (size : Z) : option (mem * nano_answer res_t) :=
  if negb (Z.land size (RES_META_SIZE - 1) =? 0) then Some (m, Refused)
  else if negb (off res =? 0) then Some (m, Refused)
  else
    let t4 := srl size RES_LENGTH_SHIFT_LOW in
    let a2 := u64 (base res + size + RES_META_SIZE) in
    '(m, r) ← split_loop sc m (base res) t4;
    match r with
    | None => Some (m, Refused)
    | Some (t2, t3) =>
        let t3 := u64 (u64 (t3 - t4) - Z.shiftr RES_META_SIZE RES_LENGTH_SHIFT_LOW) in
        let t3 := Z.lor t3 (sll t2 (RES_STATE_IN_LENGTH_SHIFT + RES_SIMPLE_SHIFT)) in
        Some (sd m a2 t3, Answer (mk_res a2 0))
    end.

(** The store-conditional is not retried: [ok] is its outcome. *)
Definition rescap_parent (ok : bool) (m : mem) (res : res_t) : mem * nano_answer res_t :=
  if negb (off res =? 0) then (m, Refused)
  else
    let t1 := ld m (base res) in
    if sll t1 RES_LENGTH_SHIFT_HIGH =? 0 then (m, Refused)
    else if negb (srl t1 (RES_STATE_IN_LENGTH_SHIFT + RES_STATE_SHIFT) =? 0) then (m, Refused)
    else
      let t3 := Z.shiftl res_taken (RES_STATE_IN_LENGTH_SHIFT + RES_STATE_SHIFT) in
      let m := if ok then sd m (base res) (Z.lor t3 t1) else m in
      let a0 := base res + RES_META_SIZE in
      let t1 := u64 (t1 - Z.shiftr RES_META_SIZE RES_LENGTH_SHIFT_LOW) in
      let t1 := Z.lor t1 (Z.shiftl (Z.lor RES_LOW_TERM_MASK RES_HIGH_TERM_MASK) RES_STATE_IN_LENGTH_SHIFT) in
      (sw m a0 t1, Answer (mk_res a0 0)).

Fixpoint splitsub_loop (sc : list bool) (m : mem) (a a1 : Z) : option (mem * bool) :=
  match sc with
  | [] => None
  | ok :: sc =>
      let t1 := ld m a in
      if negb (srl t1 (RES_STATE_IN_LENGTH_SHIFT + RES_STATE_SHIFT) =? 0) then Some (m, false)
      else if ok : bool then Some (sd m a (Z.lor t1 a1), true) else splitsub_loop sc m a a1
  end.

Definition rescap_splitsub (sc : list bool) (m : mem) (res : res_t) (scale : Z) : option (mem * nano_answer res_t) :=
  if negb (off res =? 0) then Some (m, Refused)
  else if RES_SCALE_MAX <? scale then Some (m, Refused)
  else
    let a1 := Z.lor (scale + 1) (Z.shiftl res_taken (RES_STATE_SHIFT - RES_SCALE_SHIFT)) in
    let a1 := sll (sll a1 RES_SCALE_SHIFT) RES_STATE_IN_LENGTH_SHIFT in
    '(m, done) ← splitsub_loop sc m (base res) a1;
    Some (m, if done : bool then Answer res else Refused).

Definition rescap_getsub (m : mem) (res : res_t) (index : Z) : nano_answer res_t :=
  if negb (off res =? 0) then Refused
  else if RES_SUBFIELD_BITMAP_BITS <=? index then Refused
  else
    let t1 := srl (ld m (base res)) (RES_STATE_IN_LENGTH_SHIFT + RES_SCALE_SHIFT) in
    if Z.land t1 (Z.shiftr RES_SCALE_MASK RES_SCALE_SHIFT) =? 0 then Refused
    else Answer (mk_res (base res) (index + 1)).

(** The first reservation covers all virtual memory; it is made once. *)
Definition make_first_reservation (m : mem) (made : Z) : mem * Z * nano_answer res_t :=
  if negb (made =? 0) then (m, Z.max made 1, Refused)
  else
    let t0 := Z.lor (Z.shiftl (Z.lor RES_LOW_TERM_MASK RES_HIGH_TERM_MASK) RES_STATE_IN_LENGTH_SHIFT)
      (Z.shiftr (VIRT_MEM_SIZE - RES_META_SIZE) RES_LENGTH_SHIFT_LOW) in
    (sd m VIRT_MEM_START t0, 1, Answer (mk_res VIRT_MEM_START 0)).

(** ** Any sequence of calls

    A handle cannot be forged: a call is made with handles that earlier calls
    returned.  A program may store to words that meet a range it was granted. *)

Inductive call :=
  | MakeFirst
  | Take (sc : list bool) (h : res_t)
  | Split (sc : list bool) (h : res_t) (size : Z)
  | Parent (ok : bool) (h : res_t)
  | Splitsub (sc : list bool) (h : res_t) (scale : Z)
  | Getsub (h : res_t) (index : Z)
  | Store (r : Z * Z) (x v : Z).

Record sys := mk_sys { s_mem : mem; s_made : Z; handles : list res_t; granted : list (Z * Z) }.

Definition boot : sys := mk_sys ∅ 0 [] [].

Definition got {A} (r : nano_answer A) : list A := match r with Answer x => [x] | _ => [] end.

Definition new_handle (s : sys) (m : mem) (r : nano_answer res_t) : sys := mk_sys m (s_made s) (got r ++ handles s) (granted s).

Definition call_handle (c : call) : option res_t :=
  match c with
  | MakeFirst | Store _ _ _ => None
  | Take _ h | Split _ h _ | Parent _ h | Splitsub _ h _ | Getsub h _ => Some h
  end.

Definition exec_call (exact : Z -> Z -> bool) (c : call) (s : sys) : option sys :=
  match c with
  | MakeFirst => let '(m, made, r) := make_first_reservation (s_mem s) (s_made s) in
      Some (mk_sys m made (got r ++ handles s) (granted s))
  | Take sc h => '(m, r) ← rescap_take exact sc (s_mem s) h; Some (mk_sys m (s_made s) (handles s) (got r ++ granted s))
  | Split sc h size => '(m, r) ← rescap_split sc (s_mem s) h (u64 size); Some (new_handle s m r)
  | Parent ok h => let '(m, r) := rescap_parent ok (s_mem s) h in Some (new_handle s m r)
  | Splitsub sc h scale => '(m, r) ← rescap_splitsub sc (s_mem s) h (u64 scale); Some (new_handle s m r)
  | Getsub h index => Some (new_handle s (s_mem s) (rescap_getsub (s_mem s) h (u64 index)))
  | Store r x v =>
      if bool_decide (r ∈ granted s) && (x mod 8 =? 0) && (x <? r.1 + r.2) && (r.1 <? x + 8)
      then Some (mk_sys (sd (s_mem s) x (u64 v)) (s_made s) (handles s) (granted s)) else Some s
  end.

Definition exec (exact : Z -> Z -> bool) (c : call) (s : sys) : option sys :=
  match call_handle c with
  | Some h => if bool_decide (h ∈ handles s) then exec_call exact c s else Some s
  | None => exec_call exact c s
  end.

Fixpoint run_calls (exact : Z -> Z -> bool) (cs : list call) (s : sys) : option sys :=
  match cs with
  | [] => Some s
  | c :: cs => s ← exec exact c s; run_calls exact cs s
  end.

(** ** What the memory holds

    From the start of virtual memory on there is one segment after the other,
    in units of 16 bytes: a node with the memory it stands for, the node of a
    reservation that was divided by [rescap_parent] (its children follow), or
    memory that is lost. *)

Inductive seg :=
  | SOpen (L : Z)
  | STaken (L : Z)
  | SSub (L k bm : Z)
  | SParent
  | SLost (L : Z).

Definition size (s : seg) : Z :=
  match s with SOpen L | STaken L | SSub L _ _ => 1 + L | SParent => 1 | SLost L => L end.

Fixpoint sizes (l : list seg) : Z := match l with [] => 0 | s :: l => size s + sizes l end.

(** State, terminators, scale and length in one word. *)
Definition enc (st t k L : Z) : Z := st * 2 ^ 62 + t * 2 ^ 60 + k * 2 ^ 53 + L.

Definition word_ok (w st k L : Z) : Prop := exists t, 0 <= t < 4 /\ 0 <= L < 2 ^ 53 /\ w = enc st t k L.

Definition sub_len (k : Z) : Z := EXTRACT_SUB_LENGTH (enc 0 0 k 0).

Definition seg_holds (m : mem) (p : Z) (s : seg) : Prop :=
  match s with
  | SOpen L => word_ok (ld m p) 0 0 L /\ (forall x, p + 8 <= x < p + 16 * (1 + L) -> ld m x = 0)
  | STaken L => word_ok (ld m p) res_taken 0 L
  | SSub L k bm => word_ok (ld m p) res_taken k L /\ 1 <= k <= 100 /\ ld m (p + 8) = bm /\ 0 <= bm < 2 ^ 64
  | SParent => exists L, word_ok (ld m p) res_taken 0 L
  | SLost L => 0 <= L
  end.

Fixpoint layout (m : mem) (p : Z) (l : list seg) : Prop :=
  match l with [] => True | s :: l => seg_holds m p s /\ layout m (p + 16 * size s) l end.

(** The nodes, and which of them have subfields. *)
Definition seg_nodes (p : Z) (s : seg) : list (Z * bool) :=
  match s with SLost _ => [] | SSub _ _ _ => [(p, true)] | _ => [(p, false)] end.

Fixpoint nodes (p : Z) (l : list seg) : list (Z * bool) :=
  match l with [] => [] | s :: l => seg_nodes p s ++ nodes (p + 16 * size s) l end.

Definition handle_ok (ns : list (Z * bool)) (h : res_t) : Prop :=
  exists b, (base h, b) ∈ ns /\ (off h = 0 \/ b = true /\ 1 <= off h <= 64).

(** The ranges that are out of the kernel's hands. *)
Definition sub_grant (p L k bm i : Z) : option (Z * Z) :=
  if Z.testbit bm i && ((i + 1) * sub_len k <=? 16 * L) then Some (p + 16 + i * sub_len k, sub_len k) else None.

Definition seg_grants (p : Z) (s : seg) : list (Z * Z) :=
  match s with
  | STaken L => [(p + 16, 16 * L)]
  | SSub L k bm => omap (sub_grant p L k bm) (seqZ 0 64)
  | _ => []
  end.

Fixpoint grants (p : Z) (l : list seg) : list (Z * Z) :=
  match l with [] => [] | s :: l => seg_grants p s ++ grants (p + 16 * size s) l end.

Definition disj (r r' : Z * Z) : Prop := r.1 + r.2 <= r'.1 \/ r'.1 + r'.2 <= r.1.

Fixpoint apart (g : list (Z * Z)) : Prop := match g with [] => True | r :: g => Forall (disj r) g /\ apart g end.

Record sys_ok (s : sys) (l : list seg) : Prop := mk_sys_ok {
  so_layout : layout (s_mem s) VIRT_MEM_START l;
  so_size : 16 * sizes l = VIRT_MEM_SIZE;
  so_handles : Forall (handle_ok (nodes VIRT_MEM_START l)) (handles s);
  so_granted : exists g, grants VIRT_MEM_START l ≡ₚ granted s ++ g
}.

(** ** Layouts *)

Lemma ld_sd_eq m a v : ld (sd m a v) a = v.
Proof. unfold ld, sd; by rewrite lookup_insert_eq. Qed.

Lemma ld_sd_ne m a b v : a <> b -> ld (sd m a v) b = ld m b.
Proof. intros; unfold ld, sd; by rewrite lookup_insert_ne. Qed.

Lemma size_pos m p s : seg_holds m p s -> 0 <= size s.
Proof. destruct s; cbn; [intros [(t & ?) _]|intros (t & ?)|intros [(t & ?) _]|intros _|intros]; lia. Qed.

Lemma sizes_app l l' : sizes (l ++ l') = sizes l + sizes l'.
Proof. induction l as [|s l IH]; cbn; lia. Qed.

Lemma sizes_pos m l : forall p, layout m p l -> 0 <= sizes l.
Proof. induction l as [|s l IH]; intros p H; cbn in *; [lia|]; destruct H as [H1%size_pos H2%IH]; lia. Qed.

Lemma layout_app m l l' : forall p, layout m p (l ++ l') <-> layout m p l /\ layout m (p + 16 * sizes l) l'.
Proof.
  induction l as [|s l IH]; intros p; cbn [app layout sizes]; [rewrite Z.mul_0_r, Z.add_0_r; tauto|].
  rewrite IH; replace (p + 16 * (size s + sizes l)) with (p + 16 * size s + 16 * sizes l) by lia; tauto.
Qed.

Lemma nodes_app l l' : forall p, nodes p (l ++ l') = nodes p l ++ nodes (p + 16 * sizes l) l'.
Proof.
  induction l as [|s l IH]; intros p; cbn [app nodes sizes]; [by rewrite Z.mul_0_r, Z.add_0_r|].
  rewrite IH, app_assoc; do 2 f_equal; lia.
Qed.

Lemma grants_app l l' : forall p, grants p (l ++ l') = grants p l ++ grants (p + 16 * sizes l) l'.
Proof.
  induction l as [|s l IH]; intros p; cbn [app grants sizes]; [by rewrite Z.mul_0_r, Z.add_0_r|].
  rewrite IH, app_assoc; do 2 f_equal; lia.
Qed.

(** A segment depends on its own memory only. *)
Lemma res_seg_frame m m' p s : (forall x, p <= x < p + 16 * size s -> ld m' x = ld m x) -> seg_holds m p s -> seg_holds m' p s.
Proof.
  intros E; destruct s as [L|L|L k bm| |L]; cbn [seg_holds size] in *.
  - intros [H Hz]; pose proof H as (t & _ & HL & _); rewrite E by lia; split; [done|]; intros; rewrite E by lia; apply Hz; lia.
  - intros H; pose proof H as (t & _ & HL & _); by rewrite E by lia.
  - intros [H Hz]; pose proof H as (t & _ & HL & _); by rewrite !E by lia.
  - by rewrite E by lia.
  - done.
Qed.

Lemma layout_frame m m' l : forall p, (forall x, p <= x < p + 16 * sizes l -> ld m' x = ld m x) -> layout m p l -> layout m' p l.
Proof.
  induction l as [|s l IH]; intros p E H; [done|]; cbn [layout sizes] in *; destruct H as [H1 H2].
  pose proof (size_pos _ _ _ H1); pose proof (sizes_pos _ _ _ H2).
  split; [apply (res_seg_frame m); [intros; apply E; lia|done]|apply IH; [intros; apply E; lia|done]].
Qed.

(** One segment is replaced by segments of the same size. *)
Lemma layout_change m m' p pre s post news : let q := p + 16 * sizes pre in
  (forall x, ~ q <= x < q + 16 * size s -> ld m' x = ld m x) -> sizes news = size s ->
  layout m p (pre ++ s :: post) -> layout m' q news -> layout m' p (pre ++ news ++ post).
Proof.
  intros q E Hs H Hn; rewrite layout_app in H; destruct H as [H1 H]; cbn [layout] in H; destruct H as [H2 H3].
  pose proof (size_pos _ _ _ H2); rewrite !layout_app; fold q; fold q in H3; split; [|split; [done|rewrite Hs]].
  - apply (layout_frame m); [intros; apply E; subst q; lia|done].
  - apply (layout_frame m); [intros; apply E; lia|done].
Qed.

(** ** Ranges *)

Lemma disj_sym r r' : disj r r' -> disj r' r.
Proof. unfold disj; tauto. Qed.

Lemma apart_app g g' : apart (g ++ g') <-> apart g /\ apart g' /\ Forall (fun r => Forall (disj r) g') g.
Proof.
  induction g as [|r g IH]; cbn [app apart]; [split; [intros; split_and!; done || constructor|tauto]|].
  rewrite Forall_app, Forall_cons, IH; tauto.
Qed.

Lemma apart_perm g g' : g ≡ₚ g' -> apart g -> apart g'.
Proof.
  induction 1 as [|r g g' P IH|r r' g|g1 g2 g3 _ IH1 _ IH2]; cbn [apart]; [done| | |tauto].
  - intros [H1 H2]; split; [by rewrite <- P|tauto].
  - rewrite !Forall_cons; intros [[H1 H2] [H3 H4]]; split_and!; try done; by apply disj_sym.
Qed.

Definition within (lo hi : Z) (r : Z * Z) : Prop := lo <= r.1 /\ 0 <= r.2 /\ r.1 + r.2 <= hi.

Lemma within_apart lo mid hi g g' : Forall (within lo mid) g -> Forall (within mid hi) g' -> apart g -> apart g' -> apart (g ++ g').
Proof.
  intros H H' A A'; apply apart_app; split_and!; try done; rewrite Forall_forall in H |- *; intros r Hr.
  rewrite Forall_forall in H' |- *; intros r' Hr'; left; destruct (H r Hr) as (_ & _ & ?), (H' r' Hr') as (? & _); lia.
Qed.

Lemma within_mono lo hi lo' hi' g : lo' <= lo -> hi <= hi' -> Forall (within lo hi) g -> Forall (within lo' hi') g.
Proof. intros ? ? H; eapply Forall_impl; [exact H|]; intros r (? & ? & ?); unfold within; lia. Qed.

Lemma sub_len_range k : 1 <= k <= 100 -> 1 <= sub_len k <= 2 ^ 27.
Proof.
  intros Hk; assert (forallb (fun k => (1 <=? sub_len k) && (sub_len k <=? 2 ^ 27)) (seqZ 1 100) = true) as H by (vm_compute; reflexivity).
  rewrite forallb_forall in H; specialize (H k ltac:(apply list_elem_of_In, elem_of_seqZ; lia)); zbool; lia.
Qed.

Lemma sub_grants p L k bm n : 1 <= k <= 100 -> forall s, 0 <= s ->
  let g := omap (sub_grant p L k bm) (seqZ s (Z.of_nat n)) in
  Forall (within (p + 16 + s * sub_len k) (p + 16 * (1 + L))) g /\ apart g.
Proof.
  intros Hk; pose proof (sub_len_range k Hk); induction n as [|n IH]; intros s Hs; cbn zeta; [by split|].
  rewrite seqZ_cons by lia; replace (Z.pred (Z.of_nat (S n))) with (Z.of_nat n) by lia; cbn [omap list_omap].
  pose proof (IH (Z.succ s) ltac:(lia)) as IH'; cbn zeta in IH'; destruct IH' as [IH1 IH2]; assert (sub_grant p L k bm s = if Z.testbit bm s && ((s + 1) * sub_len k <=? 16 * L) then Some (p + 16 + s * sub_len k, sub_len k) else None) as -> by done.
  destruct (Z.testbit bm s && ((s + 1) * sub_len k <=? 16 * L)) eqn:E.
  - apply andb_true_iff in E as [_ E%Z.leb_le]; split; [constructor; [unfold within; cbn; nia|eapply within_mono; [| |exact IH1]; nia]|cbn [apart]; split; [|done]].
    eapply Forall_impl; [exact IH1|]; intros r (? & _); left; cbn; nia.
  - split; [|done]; eapply within_mono; [| |exact IH1]; nia.
Qed.

Lemma seg_grants_ok m p s : seg_holds m p s -> Forall (within (p + 16) (p + 16 * size s)) (seg_grants p s) /\ apart (seg_grants p s).
Proof.
  destruct s as [L|L|L k bm| |L]; cbn [seg_holds seg_grants size]; try done.
  - intros (t & _ & HL & _); split; [|by repeat constructor]; repeat constructor; cbn; lia.
  - intros (_ & Hk & _); pose proof (sub_grants p L k bm 64 Hk 0 ltac:(lia)) as [H1 H2]; cbn zeta in *.
    rewrite Z.mul_0_l, Z.add_0_r in H1; split; [exact H1|exact H2].
Qed.

Lemma grants_ok m l : forall p, layout m p l -> Forall (within p (p + 16 * sizes l)) (grants p l) /\ apart (grants p l).
Proof.
  induction l as [|s l IH]; intros p H; cbn [grants layout sizes] in *; [by repeat constructor|]; destruct H as [H1 H2].
  destruct (seg_grants_ok _ _ _ H1) as [G1 A1], (IH _ H2) as [G2 A2]; pose proof (size_pos _ _ _ H1); pose proof (sizes_pos _ _ _ H2).
  replace (p + 16 * (size s + sizes l)) with (p + 16 * size s + 16 * sizes l) by lia; split.
  - apply Forall_app; split; [eapply within_mono; [| |exact G1]; lia|eapply within_mono; [| |exact G2]; lia].
  - eapply within_apart; [exact G1|exact G2|done|done].
Qed.

(** ** Nodes *)

Lemma node_split l : forall p a b, (a, b) ∈ nodes p l ->
  exists pre s post, l = pre ++ s :: post /\ a = p + 16 * sizes pre /\ seg_nodes a s = [(a, b)].
Proof.
  induction l as [|s l IH]; intros p a b H; cbn [nodes] in H; [by apply not_elem_of_nil in H|].
  apply elem_of_app in H as [H|(pre & s' & post & -> & -> & E)%IH].
  - exists [], s, l; split; [done|]; destruct s; cbn in *; try (by apply not_elem_of_nil in H);
      apply list_elem_of_singleton in H as [= -> ->]; split; [lia|done|lia|done|lia|done|lia|done].
  - exists (s :: pre), s', post; cbn [sizes app]; replace (p + 16 * (size s + sizes pre)) with (p + 16 * size s + 16 * sizes pre) by lia; done.
Qed.

Lemma seg_node_size m p s a b : seg_holds m p s -> seg_nodes p s = [(a, b)] -> a = p /\ 1 <= size s.
Proof. destruct s; cbn; intros H [= <- <-]; split; try lia; [destruct H as [(t & ?) _]|destruct H as (t & ?)|destruct H as [(t & ?) _]]; lia. Qed.

Lemma nodes_apart m l p a b r : layout m p l -> (a, b) ∈ nodes p l -> r ∈ grants p l -> disj (a, 16) r.
Proof.
  intros H (pre & s & post & -> & -> & E)%node_split Hr; rewrite layout_app in H; destruct H as [H1 [H2 H3]].
  destruct (seg_node_size _ _ _ _ _ H2 E) as [_ Hs]; rewrite grants_app in Hr; cbn [grants] in Hr.
  rewrite !elem_of_app in Hr; unfold disj; cbn [fst snd]; destruct Hr as [Hr|[Hr|Hr]].
  - destruct (grants_ok _ _ _ H1) as [G _]; rewrite Forall_forall in G; destruct (G _ Hr) as (? & ? & ?); lia.
  - destruct (seg_grants_ok _ _ _ H2) as [G _]; rewrite Forall_forall in G; destruct (G _ Hr) as (? & ? & ?); lia.
  - destruct (grants_ok _ _ _ H3) as [G _]; rewrite Forall_forall in G; destruct (G _ Hr) as (? & ? & ?); lia.
Qed.

Definition node_kept (s s' : seg) : Prop := forall q b, seg_nodes q s = [(q, b)] -> exists b', seg_nodes q s' = [(q, b')] /\ (b = true -> b' = true).

Lemma nodes_change p pre s post s' rest h : node_kept s s' -> size s' + sizes rest = size s ->
  handle_ok (nodes p (pre ++ s :: post)) h -> handle_ok (nodes p (pre ++ (s' :: rest) ++ post)) h.
Proof.
  intros K Hs (b & Hb & Ho); unfold handle_ok; rewrite nodes_app, elem_of_app in Hb; setoid_rewrite nodes_app.
  rewrite nodes_app; cbn [nodes sizes] in *; rewrite Hs; setoid_rewrite elem_of_app; destruct Hb as [Hb|Hb]; [eauto|].
  apply elem_of_app in Hb as [Hb|Hb]; [|exists b; split; [right; apply elem_of_app; by right|done]].
  assert (seg_nodes (p + 16 * sizes pre) s = [(base h, b)] /\ base h = p + 16 * sizes pre) as [E1 E2].
  { destruct s; cbn in *; try (by apply not_elem_of_nil in Hb); by apply list_elem_of_singleton in Hb as [= -> ->]. }
  rewrite E2 in *; destruct (K _ _ E1) as (b' & Eb & Hm); exists b'; split; [|destruct Ho as [|[]]; auto].
  right; apply elem_of_app; left; apply elem_of_app; left; rewrite Eb; by apply list_elem_of_singleton.
Qed.

(** ** The words of a node *)

Lemma srl_eq w n q r : 0 <= n -> w = 2 ^ n * q + r -> 0 <= r < 2 ^ n -> srl w n = q.
Proof. intros Hn E Hr; unfold srl; rewrite Z.shiftr_div_pow2 by done; symmetry; by apply Z.div_unique with r; [left|]. Qed.

Definition fields (st t k L : Z) : Prop := 0 <= st < 4 /\ 0 <= t < 4 /\ 0 <= k < 128 /\ 0 <= L < 2 ^ 53.

Lemma enc_parts st t k L : fields st t k L -> 0 <= enc st t k L < 2 ^ 64 /\ srl (enc st t k L) 62 = st /\
  srl (enc st t k L) 60 = 4 * st + t /\ srl (enc st t k L) 53 = 512 * st + 128 * t + k /\ sll (enc st t k L) 11 = L * 2 ^ 11.
Proof.
  unfold fields, enc; intros (Hst & Ht & Hk & HL); split_and!; try lia.
  - apply srl_eq with (t * 2 ^ 60 + k * 2 ^ 53 + L); lia.
  - apply srl_eq with (k * 2 ^ 53 + L); lia.
  - apply srl_eq with L; lia.
  - unfold sll, wrap; rewrite Z.shiftl_mul_pow2 by lia; symmetry; apply Z.mod_unique with (512 * st + 128 * t + k); lia.
Qed.

Lemma enc_length st t k L : fields st t k L -> res_length (enc st t k L) = 16 * L.
Proof.
  intros H; unfold res_length; destruct (enc_parts _ _ _ _ H) as (_ & _ & _ & _ & E); change RES_LENGTH_SHIFT_HIGH with 11.
  rewrite E; apply srl_eq with 0; change RES_LENGTH_SHIFT_LOW with 4; lia.
Qed.

Lemma land_ones_mod x n : 0 <= n -> Z.land x (2 ^ n - 1) = x mod 2 ^ n.
Proof. intros; rewrite <- Z.land_ones, Z.ones_equiv by done; f_equal; lia. Qed.

Lemma enc_sub_len st t k L : fields st t k L -> EXTRACT_SUB_LENGTH (enc st t k L) = sub_len k.
Proof.
  intros H; assert (fields 0 0 k 0) as H0 by (unfold fields in *; lia); unfold sub_len, EXTRACT_SUB_LENGTH.
  change (RES_STATE_IN_LENGTH_SHIFT + RES_SCALE_SHIFT) with 53; destruct (enc_parts _ _ _ _ H) as (_ & _ & _ & -> & _), (enc_parts _ _ _ _ H0) as (_ & _ & _ & -> & _).
  assert (Z.land (512 * st + 128 * t + k) 3 = Z.land (512 * 0 + 128 * 0 + k) 3) as ->.
  { change 3 with (2 ^ 2 - 1); rewrite !land_ones_mod by lia; change (2 ^ 2) with 4; rewrite <- (Z_mod_plus_full (512 * 0 + 128 * 0 + k) (128 * st + 32 * t) 4); f_equal; lia. }
  assert (Z.land (srl (512 * st + 128 * t + k) 2) 31 = Z.land (srl (512 * 0 + 128 * 0 + k) 2) 31) as ->; [|done].
  pose proof (Z.div_mod k 4 ltac:(lia)); pose proof (Z.mod_pos_bound k 4 ltac:(lia)).
  rewrite (srl_eq (512 * st + 128 * t + k) 2 (128 * st + 32 * t + k / 4) (k mod 4)), (srl_eq (512 * 0 + 128 * 0 + k) 2 (k / 4) (k mod 4)) by lia.
  change 31 with (2 ^ 5 - 1); rewrite !land_ones_mod by lia; change (2 ^ 5) with 32; rewrite <- (Z_mod_plus_full (k / 4) (4 * st + t) 32); f_equal; lia.
Qed.

(** Two words of which one has no bits below the others'. *)
Lemma lor_at n a b c : 0 <= n -> 0 <= a < 2 ^ n -> Z.lor (a + b * 2 ^ n) (c * 2 ^ n) = a + Z.lor b c * 2 ^ n.
Proof.
  intros Hn Ha; rewrite <- (Z.shiftl_mul_pow2 c) by done; rewrite <- (lor_shiftl a b n), <- Z.lor_assoc, <- Z.shiftl_lor by done; by apply lor_shiftl.
Qed.

Lemma enc_take t L : fields 0 t 0 L -> Z.lor (enc 0 t 0 L) (Z.shiftl res_taken 62) = enc 1 t 0 L /\ Z.lor (Z.shiftl res_taken 62) (enc 0 t 0 L) = enc 1 t 0 L.
Proof.
  unfold fields; intros H; rewrite (Z.lor_comm (Z.shiftl _ _)); assert (Z.lor (enc 0 t 0 L) (Z.shiftl res_taken 62) = enc 1 t 0 L) as ->; [|done].
  rewrite lor_shiftl by (unfold enc; lia); unfold enc, res_taken; lia.
Qed.

Lemma enc_splitsub t L k : fields 0 t 0 L -> 0 <= k < 128 ->
  Z.lor (enc 0 t 0 L) (sll (sll (Z.lor k (Z.shiftl res_taken 9)) 5) 48) = enc 1 t k L.
Proof.
  unfold fields; intros H Hk; rewrite (lor_shiftl k) by lia; unfold sll, wrap; rewrite !Z.shiftl_mul_pow2 by lia; change res_taken with 1.
  rewrite (Z.mod_small (_ * 2 ^ 5)) by lia; rewrite Z.mod_small by lia.
  replace (enc 0 t 0 L) with (L + t * 128 * 2 ^ 53) by (unfold enc; lia); replace ((k + 1 * 2 ^ 9) * 2 ^ 5 * 2 ^ 48) with ((k + 512) * 2 ^ 53) by lia.
  rewrite lor_at by lia; assert (Z.lor (t * 128) (k + 512) = 512 + t * 128 + k) as ->; [|unfold enc; lia].
  replace (t * 128) with (0 + t * 128) by lia; replace (k + 512) with (k + 4 * 2 ^ 7) by lia; rewrite Z.lor_comm.
  replace (0 + t * 128) with (t * 2 ^ 7) by lia; rewrite lor_at by lia.
  replace (Z.lor 4 t) with (t + 4); [lia|]; change 4 with (Z.shiftl 1 2); rewrite Z.lor_comm, lor_shiftl by lia; rewrite Z.shiftl_mul_pow2 by lia; lia.
Qed.

(** ** The calls *)

Lemma take_cases sc m a m' r : take_normal sc m a = Some (m', r) ->
  (srl (ld m a) 62 <> 0 /\ m' = m /\ r = None) \/
  (srl (ld m a) 62 = 0 /\ m' = sd m a (Z.lor (ld m a) (Z.shiftl res_taken 62)) /\ r = Some (res_length (ld m a))).
Proof.
  change 62 with (RES_STATE_IN_LENGTH_SHIFT + RES_STATE_SHIFT); induction sc as [|[] sc IH]; cbn [take_normal]; [done| |];
    destruct (Z.eqb_spec (srl (ld m a) (RES_STATE_IN_LENGTH_SHIFT + RES_STATE_SHIFT)) 0); cbn [negb]; auto; intros [= <- <-]; auto.
Qed.

Lemma splitsub_cases sc m a a1 m' r : splitsub_loop sc m a a1 = Some (m', r) ->
  (srl (ld m a) 62 <> 0 /\ m' = m /\ r = false) \/ (srl (ld m a) 62 = 0 /\ m' = sd m a (Z.lor (ld m a) a1) /\ r = true).
Proof.
  change 62 with (RES_STATE_IN_LENGTH_SHIFT + RES_STATE_SHIFT); induction sc as [|[] sc IH]; cbn [splitsub_loop]; [done| |];
    destruct (Z.eqb_spec (srl (ld m a) (RES_STATE_IN_LENGTH_SHIFT + RES_STATE_SHIFT)) 0); cbn [negb]; auto; intros [= <- <-]; auto.
Qed.

(** The words the two parts of a division get. *)
Definition split_low (w t4 : Z) : Z := Z.lor (sll (Z.land (srl w 60) 2) 60) t4.

Lemma split_cases sc m a t4 m' r : split_loop sc m a t4 = Some (m', r) ->
  let w := ld m a in let len := srl (sll w 11) 11 in
  ((Z.land (srl w 60) 12 <> 0 \/ len <= t4) /\ m' = m /\ r = None) \/
  (Z.land (srl w 60) 12 = 0 /\ t4 < len /\ m' = sd m a (split_low w t4) /\ r = Some (Z.land (srl w 60) 1, len)).
Proof.
  cbn zeta; change 60 with (RES_STATE_IN_LENGTH_SHIFT + RES_SIMPLE_SHIFT); change 11 with RES_LENGTH_SHIFT_HIGH.
  induction sc as [|[] sc IH]; cbn [split_loop]; [done| |];
    change (Z.shiftr RES_STATE_MASK RES_SIMPLE_SHIFT) with 12; change (Z.shiftr RES_HIGH_TERM_MASK RES_SIMPLE_SHIFT) with 1;
    change (Z.shiftr RES_LOW_TERM_MASK RES_SIMPLE_SHIFT) with 2;
    destruct (Z.eqb_spec (Z.land (srl (ld m a) (RES_STATE_IN_LENGTH_SHIFT + RES_SIMPLE_SHIFT)) 12) 0); cbn [negb]; [|intros [= <- <-]; auto| |intros [= <- <-]; auto];
    destruct (Z.leb_spec (srl (sll (ld m a) RES_LENGTH_SHIFT_HIGH) RES_LENGTH_SHIFT_HIGH) t4); try (intros [= <- <-]; auto); auto.
Qed.

(** With one successful store-conditional the loops end. *)
Lemma loops_end sc m a : true ∈ sc ->
  is_Some (take_normal sc m a) /\ (forall t4, is_Some (split_loop sc m a t4)) /\ (forall a1, is_Some (splitsub_loop sc m a a1)).
Proof.
  induction sc as [|ok sc IH]; [by intros ?%not_elem_of_nil|]; intros [E|H]%elem_of_cons.
  - subst ok; cbn [take_normal split_loop splitsub_loop]; split_and!; intros; repeat destruct_if; eauto.
  - destruct (IH H) as (H1 & H2 & H3); cbn [take_normal split_loop splitsub_loop]; split_and!; intros; repeat destruct_if; eauto.
Qed.

(** One segment changes: what has to be shown of the new ones. *)
Lemma change_ok s pre sg post s' rest m' made hs newg g : let q := VIRT_MEM_START + 16 * sizes pre in
  sys_ok s (pre ++ sg :: post) ->
  (forall x, ~ q <= x < q + 16 * size sg -> ld m' x = ld (s_mem s) x) ->
  layout m' q (s' :: rest) -> size s' + sizes rest = size sg -> node_kept sg s' ->
  Forall (handle_ok (nodes q (s' :: rest))) hs ->
  grants q (s' :: rest) ≡ₚ newg ++ g ++ seg_grants q sg ->
  sys_ok (mk_sys m' made (hs ++ handles s) (newg ++ granted s)) (pre ++ (s' :: rest) ++ post).
Proof.
  intros q [HL HS HH (g0 & HG)] E Hl Hs K Hh Hg; split; cbn [s_mem handles granted].
  - eapply layout_change; [exact E|exact Hs|exact HL|exact Hl].
  - rewrite <- HS, !sizes_app; cbn [sizes]; lia.
  - apply Forall_app; split; [|eapply Forall_impl; [exact HH|]; intros; by eapply nodes_change].
    eapply Forall_impl; [exact Hh|]; intros h (b & Hb & Ho); exists b; split; [|done].
    rewrite nodes_app, (nodes_app (s' :: rest)); apply elem_of_app; right; apply elem_of_app; by left.
  - exists (g ++ g0); rewrite grants_app, (grants_app (s' :: rest)); rewrite grants_app in HG; cbn [grants] in HG |- *; fold q; fold q in HG.
    change (seg_grants q s' ++ grants (q + 16 * size s') rest) with (grants q (s' :: rest)); rewrite Hg; cbn [sizes]; rewrite Hs.
    transitivity (newg ++ g ++ (grants VIRT_MEM_START pre ++ seg_grants q sg ++ grants (q + 16 * size sg) post)); [solve_Permutation|].
    rewrite HG; solve_Permutation.
Qed.

(** The segment a handle names. *)
Record handle_at (s : sys) (l : list seg) (h : res_t) (pre : list seg) (sg : seg) (post : list seg) (b : bool) : Prop := mk_handle_at {
  ha_split : l = pre ++ sg :: post;
  ha_base : base h = VIRT_MEM_START + 16 * sizes pre;
  ha_node : seg_nodes (base h) sg = [(base h, b)];
  ha_off : off h = 0 \/ b = true /\ 1 <= off h <= 64;
  ha_holds : seg_holds (s_mem s) (base h) sg;
  ha_room : VIRT_MEM_START <= base h /\ 1 <= size sg /\ base h + 16 * size sg <= VIRT_MEM_END
}.

Lemma handle_found s l h : sys_ok s l -> h ∈ handles s -> exists pre sg post b, handle_at s l h pre sg post b.
Proof.
  intros [HL HS HH _] Hh; rewrite Forall_forall in HH; destruct (HH _ Hh) as (b & Hb & Ho).
  apply node_split in Hb as (pre & sg & post & -> & E & N); exists pre, sg, post, b; rewrite layout_app in HL; destruct HL as (H1 & H2 & H3).
  rewrite <- E in H2, H3; split; try done; rewrite sizes_app in HS; cbn [sizes] in HS; unfold VIRT_MEM_SIZE in HS.
  pose proof (sizes_pos _ _ _ H1); pose proof (sizes_pos _ _ _ H3); destruct (seg_node_size _ _ _ _ _ H2 N); lia.
Qed.

Lemma state_cases m q sg b : seg_holds m q sg -> seg_nodes q sg = [(q, b)] ->
  (exists L t, sg = SOpen L /\ fields 0 t 0 L /\ ld m q = enc 0 t 0 L) \/ (srl (ld m q) 62 = 1 /\ Z.land (srl (ld m q) 60) 12 <> 0 /\ forall L, sg <> SOpen L).
Proof.
  assert (forall k L, word_ok (ld m q) res_taken k L -> 0 <= k < 128 -> srl (ld m q) 62 = 1 /\ Z.land (srl (ld m q) 60) 12 <> 0) as C.
  { intros k L (t & Ht & HL & ->) Hk; change res_taken with 1; destruct (enc_parts 1 t k L) as (_ & -> & -> & _); [unfold fields; lia|]; split; [done|].
    assert (t = 0 \/ t = 1 \/ t = 2 \/ t = 3) as [->|[->|[->| ->]]] by lia; done. }
  destruct sg as [L|L|L k bm| |L]; cbn [seg_holds seg_nodes]; intros H N.
  - destruct H as [(t & Ht & HL & E) _]; left; exists L, t; split_and!; [done|unfold fields; lia|done].
  - right; destruct (C _ _ H ltac:(lia)); done.
  - right; destruct H as [H [Hk _]], (C _ _ H ltac:(lia)); done.
  - right; destruct H as [L H], (C _ _ H ltac:(lia)); done.
  - discriminate N.
Qed.

Lemma sys_eta s : mk_sys (s_mem s) (s_made s) (handles s) (granted s) = s. Proof. by destruct s. Qed.

Lemma sd_outside m a v lo hi : lo <= a < hi -> forall x, ~ lo <= x < hi -> ld (sd m a v) x = ld m x.
Proof. intros Ha x Hx; apply ld_sd_ne; lia. Qed.

Lemma take_normal_ok exact sc s l h m' r : sys_ok s l -> h ∈ handles s -> off h = 0 ->
  take_normal sc (s_mem s) (base h) = Some (m', r) ->
  exists l', sys_ok (mk_sys m' (s_made s) (handles s) (got (take_make exact ((fun len => (base h + RES_META_SIZE, len)) <$> r)) ++ granted s)) l'.
Proof.
  intros Hs Hh Ho E; destruct (handle_found _ _ _ Hs Hh) as (pre & sg & post & b & [-> HB HN _ HO HR]).
  destruct (state_cases _ _ _ _ HO HN) as [(L & t & -> & HF & HW)|(HC & _)], (take_cases _ _ _ _ _ E) as [(H1 & -> & ->)|(H1 & -> & ->)].
  - destruct H1; rewrite HW; exact (proj1 (proj2 (enc_parts _ _ _ _ HF))).
  - exists (pre ++ [STaken L] ++ post); rewrite HW, (proj1 (enc_take _ _ HF)), enc_length by done; cbn [fmap option_fmap option_map take_make].
    apply (change_ok s pre (SOpen L) post (STaken L) [] _ _ [] _ (if exact (base h + RES_META_SIZE) (16 * L) then [] else [(base h + 16, 16 * L)])); [done| | |cbn; lia|by intros q ? [= <-]; exists false| |]; rewrite <- ?HB.
    + apply sd_outside; cbn [size] in *; lia.
    + cbn [layout seg_holds]; rewrite ld_sd_eq; unfold fields in HF; split; [exists t; split_and!; lia || done|done].
    + constructor.
    + cbn [grants seg_grants]; destruct (exact _ _); done.
  - rewrite sys_eta; by exists (pre ++ sg :: post).
  - rewrite HC in H1; done.
Qed.

Lemma omap_ext_in {A B} (f g : A -> option B) (l : list A) : (forall x, x ∈ l -> f x = g x) -> omap f l = omap g l.
Proof.
  induction l as [|x l IH]; intros H; [done|]; cbn [omap list_omap]; rewrite H by (by left); rewrite IH; [done|]; intros; apply H; by right.
Qed.

Lemma sub_grants_set p L k bm i : 0 <= i < 64 -> Z.testbit bm i = false ->
  omap (sub_grant p L k (Z.lor bm (2 ^ i))) (seqZ 0 64) ≡ₚ
  (if (i + 1) * sub_len k <=? 16 * L then [(p + 16 + i * sub_len k, sub_len k)] else []) ++ omap (sub_grant p L k bm) (seqZ 0 64).
Proof.
  intros Hi Hb; assert (forall j, 0 <= j -> Z.testbit (Z.lor bm (2 ^ i)) j = Z.testbit bm j || (i =? j)) as T.
  { intros j Hj; by rewrite Z.lor_spec, Z.pow2_bits_eqb by lia. }
  replace 64 with (i + (1 + (63 - i))) by lia; rewrite !seqZ_app, !omap_app by lia; change (seqZ (0 + i) 1) with [0 + i]; rewrite Z.add_0_l.
  rewrite (omap_ext_in (sub_grant p L k (Z.lor bm (2 ^ i))) (sub_grant p L k bm) (seqZ 0 i)),
    (omap_ext_in (sub_grant p L k (Z.lor bm (2 ^ i))) (sub_grant p L k bm) (seqZ (i + 1) (63 - i))) by
    (intros j Hj%elem_of_seqZ; unfold sub_grant; rewrite T by lia; replace (i =? j) with false by (symmetry; apply Z.eqb_neq; lia); by rewrite orb_false_r).
  assert (sub_grant p L k bm i = None) as E0 by (unfold sub_grant; by rewrite Hb).
  assert (sub_grant p L k (Z.lor bm (2 ^ i)) i = if (i + 1) * sub_len k <=? 16 * L then Some (p + 16 + i * sub_len k, sub_len k) else None) as E1
    by (unfold sub_grant; by rewrite T, Hb, Z.eqb_refl by lia).
  cbn [omap list_omap]; rewrite E0, E1; destruct (_ <=? _); cbn [app]; [by rewrite <- Permutation_middle|done].
Qed.

Lemma bit_test bm i : 0 <= i -> (Z.land bm (2 ^ i) =? 0) = negb (Z.testbit bm i).
Proof.
  intros Hi; destruct (Z.testbit bm i) eqn:T; cbn [negb]; [apply Z.eqb_neq|apply Z.eqb_eq].
  - intros E; apply (f_equal (fun z => Z.testbit z i)) in E; by rewrite Z.land_spec, Z.pow2_bits_true, T, Z.bits_0 in E.
  - apply Z.bits_inj'; intros j Hj; rewrite Z.land_spec, Z.pow2_bits_eqb, Z.bits_0 by done.
    destruct (Z.eqb_spec i j) as [<-|]; [by rewrite T|apply andb_false_r].
Qed.

Lemma lor_bit_range bm i : 0 <= i < 64 -> 0 <= bm < 2 ^ 64 -> 0 <= Z.lor bm (2 ^ i) < 2 ^ 64.
Proof.
  intros Hi Hb; split; [apply Z.lor_nonneg; lia|]; destruct (Z.eq_dec (Z.lor bm (2 ^ i)) 0) as [->|]; [done|].
  apply Z.log2_lt_pow2; [|rewrite Z.log2_lor, Z.log2_pow2 by lia; apply Z.max_lub_lt; [|lia]].
  - pose proof (proj2 (Z.lor_nonneg bm (2 ^ i)) ltac:(lia)); lia.
  - destruct (Z.eq_dec bm 0) as [->|]; [done|apply Z.log2_lt_pow2; lia].
Qed.

(** Setting bit [i] of the bitmap of a divided reservation. *)
Lemma sub_bit_ok s pre L k bm post i made newg g : let q := VIRT_MEM_START + 16 * sizes pre in
  sys_ok s (pre ++ SSub L k bm :: post) -> 0 <= i < 64 ->
  newg ++ g = (if Z.testbit bm i then [] else if (i + 1) * sub_len k <=? 16 * L then [(q + 16 + i * sub_len k, sub_len k)] else []) ->
  exists l', sys_ok (mk_sys (sd (s_mem s) (q + 8) (Z.lor bm (2 ^ i))) made (handles s) (newg ++ granted s)) l'.
Proof.
  intros q Hs Hi Hg; pose proof Hs as [HL _ _ _]; rewrite layout_app in HL; destruct HL as (_ & HO & _); fold q in HO; cbn [seg_holds] in HO.
  destruct HO as (HW & Hk & Hbm & Hr); pose proof HW as (t & _ & HL & _); exists (pre ++ [SSub L k (Z.lor bm (2 ^ i))] ++ post).
  apply (change_ok s pre (SSub L k bm) post (SSub L k (Z.lor bm (2 ^ i))) [] _ _ [] newg g); [done| | |cbn; lia|by intros ? ? [= <-]; exists true|constructor|]; fold q.
  - apply sd_outside; cbn [size]; lia.
  - cbn [layout seg_holds]; rewrite ld_sd_eq, ld_sd_ne by lia; split_and!; try done; try lia; by apply lor_bit_range.
  - cbn [grants seg_grants]; rewrite app_nil_r, app_assoc, Hg; destruct (Z.testbit bm i) eqn:T; [|by apply sub_grants_set].
    replace (Z.lor bm (2 ^ i)) with bm; [cbn [app]; apply Permutation_refl|]; apply Z.bits_inj'; intros j Hj; rewrite Z.lor_spec, Z.pow2_bits_eqb by lia.
    destruct (Z.eqb_spec i j) as [<-|]; [by rewrite T|by rewrite orb_false_r].
Qed.

Lemma take_sub_ok exact s l h m' r : sys_ok s l -> h ∈ handles s -> off h <> 0 ->
  take_sub (s_mem s) (base h) (base h + RES_META_SIZE) (u64 (off h - 1)) = (m', r) ->
  exists l', sys_ok (mk_sys m' (s_made s) (handles s) (got (take_make exact r) ++ granted s)) l'.
Proof.
  intros Hs Hh Ho E; destruct (handle_found _ _ _ Hs Hh) as (pre & sg & post & b & [-> HB HN [?|[-> Hoff]] HO HR]); [done|].
  destruct sg as [| |L k bm| |]; try discriminate HN; cbn [seg_holds] in HO; destruct HO as ((t & Ht & HL & HW) & Hk & Hbm & Hr).
  set (i := off h - 1) in *; assert (0 <= i < 64) as Hi by lia; rewrite (wrap_small 64 i) in E by (unfold in_range; lia).
  pose proof (sub_len_range k Hk) as Hl; assert (fields 1 t k L) as HF by (unfold fields; lia); unfold VIRT_MEM_START, VIRT_MEM_END in *.
  unfold take_sub in E; change RES_SUBFIELD_BITMAP_BITS with 64 in E; destruct (Z.leb_spec 64 i); [lia|]; change RES_SUBFIELD_BITMAP_OFFSET with 8 in E.
  assert (sll 1 i = 2 ^ i) as Es by (unfold sll; rewrite Z.shiftl_1_l; apply wrap_small; split; [lia|apply Z.pow_lt_mono_r; lia]).
  rewrite Es, Hbm, bit_test, negb_involutive, ld_sd_ne, HW, enc_sub_len, enc_length in E by (done || lia).
  assert (0 <= i * sub_len k < 2 ^ 34) as Hm by nia; rewrite (wrap_small 64 (i * _)), (wrap_small 64 (i * _ + _)) in E by (unfold in_range; lia).
  change (Z.shiftl (2 ^ 27) 12 - Z.shiftl 64 30 * 2) with (3 * 2 ^ 37) in HR; change RES_META_SIZE with 16 in *.
  destruct (Z.testbit bm i) eqn:T; [|destruct (Z.ltb_spec (16 * L) (i * sub_len k + sub_len k)) as [Hlt|Hge]]; injection E as <- <-; rewrite HB.
  - apply (sub_bit_ok s pre L k bm post i _ [] []); [done|done|by rewrite T].
  - apply (sub_bit_ok s pre L k bm post i _ [] []); [done|done|rewrite T; destruct (Z.leb_spec ((i + 1) * sub_len k) (16 * L)); [lia|done]].
  - cbn [size] in HR; unfold VIRT_MEM_START in *; rewrite (wrap_small 64 (_ + _)) by (unfold in_range; lia); cbn [take_make].
    apply (sub_bit_ok s pre L k bm post i _ (got (if exact (4096 + 16 * sizes pre + 16 + i * sub_len k) (sub_len k) then Answer (4096 + 16 * sizes pre + 16 + i * sub_len k, sub_len k) else Trapped))
      (if exact (4096 + 16 * sizes pre + 16 + i * sub_len k) (sub_len k) then [] else [(4096 + 16 * sizes pre + 16 + i * sub_len k, sub_len k)])); [done|done|].
    rewrite T; destruct (Z.leb_spec ((i + 1) * sub_len k) (16 * L)); [|lia]; by destruct (exact _ _).
Qed.

(** Dividing an open reservation into the words of two open ones. *)
Lemma split_words t L t4 : fields 0 t 0 L -> 0 <= t4 < L ->
  Z.land (srl (enc 0 t 0 L) 60) 12 = 0 /\ srl (sll (enc 0 t 0 L) 11) 11 = L /\
  (exists t', 0 <= t' < 4 /\ split_low (enc 0 t 0 L) t4 = enc 0 t' 0 t4) /\
  exists t', 0 <= t' < 4 /\ Z.lor (u64 (u64 (L - t4) - 1)) (sll (Z.land (srl (enc 0 t 0 L) 60) 1) 60) = enc 0 t' 0 (L - t4 - 1).
Proof.
  intros HF Ht; pose proof HF as (_ & Ht3 & _ & HL); unfold split_low; destruct (enc_parts _ _ _ _ HF) as (_ & _ & -> & _ & ->).
  assert (Z.land (4 * 0 + t) 12 = 0 /\ 0 <= Z.land (4 * 0 + t) 2 < 4 /\ 0 <= Z.land (4 * 0 + t) 1 < 4) as (H1 & H2 & H3).
  { assert (t = 0 \/ t = 1 \/ t = 2 \/ t = 3) as [->|[->|[->| ->]]] by lia; done. }
  set (a := Z.land _ 2) in *; set (b := Z.land _ 1) in *.
  assert (forall x, 0 <= x < 4 -> sll x 60 = Z.shiftl x 60) as Es by (intros; unfold sll; apply wrap_small; unfold in_range; rewrite Z.shiftl_mul_pow2 by lia; lia).
  split_and!; [done|by apply srl_eq with 0; lia| |].
  - exists a; split; [done|]; rewrite Es, Z.lor_comm, lor_shiftl by lia; unfold enc; lia.
  - exists b; split; [done|]; rewrite (wrap_small 64 (L - t4)), (wrap_small 64 (_ - 1)), Es, lor_shiftl by (unfold in_range; lia); unfold enc; lia.
Qed.

Lemma refused_ok s l : sys_ok s l -> exists l', sys_ok (new_handle s (s_mem s) Refused) l'.
Proof. intros H; exists l; unfold new_handle; cbn [got app]; by rewrite sys_eta. Qed.

Lemma split_ok sc s l h n m' r : sys_ok s l -> h ∈ handles s -> in_range 64 n -> rescap_split sc (s_mem s) h n = Some (m', r) ->
  exists l', sys_ok (new_handle s m' r) l'.
Proof.
  intros Hs Hh Hn E; unfold rescap_split in E; change (RES_META_SIZE - 1) with (2 ^ 4 - 1) in E; rewrite land_ones_mod in E by lia.
  destruct (Z.eqb_spec (n mod 2 ^ 4) 0) as [Hm|]; cbn [negb] in E; [|injection E as <- <-; by eapply refused_ok].
  destruct (Z.eqb_spec (off h) 0) as [Ho|]; cbn [negb] in E; [|injection E as <- <-; by eapply refused_ok].
  set (t4 := srl n RES_LENGTH_SHIFT_LOW) in E; assert (n = 16 * t4 /\ 0 <= t4) as [En Ht4].
  { subst t4; unfold srl; change RES_LENGTH_SHIFT_LOW with 4; rewrite Z.shiftr_div_pow2 by lia; change (2 ^ 4) with 16 in *.
    split; [pose proof (Z.div_mod n 16); lia|apply Z.div_pos; unfold in_range in Hn; lia]. }
  destruct (split_loop sc (s_mem s) (base h) t4) as [[m1 r1]|] eqn:EL; [|done]; cbn [mbind option_bind] in E.
  destruct (handle_found _ _ _ Hs Hh) as (pre & sg & post & b & [-> HB HN _ HO HR]).
  destruct (split_cases _ _ _ _ _ _ EL) as [(_ & -> & ->)|(Hst & Hlt & -> & ->)]; [injection E as <- <-; by eapply refused_ok|].
  destruct (state_cases _ _ _ _ HO HN) as [(L & t & -> & HF & HW)|(_ & HC & _)]; [|done].
  rewrite HW in *; pose proof (split_words t L t4 HF) as SW; assert (srl (sll (enc 0 t 0 L) 11) 11 = L) as EL11.
  { destruct (enc_parts _ _ _ _ HF) as (_ & _ & _ & _ & ->); by apply srl_eq with 0; unfold fields in HF; lia. }
  rewrite EL11 in *; destruct (SW ltac:(lia)) as (_ & _ & (ta & Hta & Ea) & (tb & Htb & Eb)).
  cbn [seg_holds] in HO; destruct HO as [_ HZ]; cbn [size] in HR; unfold VIRT_MEM_START, VIRT_MEM_END in HR; unfold fields in HF.
  change (Z.shiftr RES_META_SIZE RES_LENGTH_SHIFT_LOW) with 1 in E; change (RES_STATE_IN_LENGTH_SHIFT + RES_SIMPLE_SHIFT) with 60 in E; change RES_META_SIZE with 16 in E.
  rewrite Ea, Eb, (wrap_small 64 (_ + 16)) in E by (unfold in_range in *; change (Z.shiftl (2 ^ 27) 12 - Z.shiftl 64 30 * 2) with (3 * 2 ^ 37) in HR; lia).
  injection E as <- <-; exists (pre ++ (SOpen t4 :: [SOpen (L - t4 - 1)]) ++ post); unfold new_handle; cbn [got].
  apply (change_ok s pre (SOpen L) post (SOpen t4) [SOpen (L - t4 - 1)] _ _ [mk_res (base h + n + 16) 0] [] []); [done| | |cbn; lia|by intros ? ? [= <-]; exists false| |done]; rewrite <- HB.
  - intros x Hx; cbn [size] in Hx; rewrite !ld_sd_ne by lia; done.
  - cbn [layout seg_holds]; replace (base h + 16 * size (SOpen t4)) with (base h + n + 16) by (cbn; lia).
    rewrite ld_sd_ne, !ld_sd_eq by lia; split_and!; try done.
    + exists ta; split_and!; lia || done.
    + intros x Hx; rewrite !ld_sd_ne by lia; apply HZ; lia.
    + exists tb; split_and!; lia || done.
    + intros x Hx; rewrite !ld_sd_ne by lia; apply HZ; lia.
  - repeat constructor; exists false; split; [|by left]; cbn; replace (base h + 16 * (1 + t4)) with (base h + n + 16) by lia; set_solver.
Qed.

(** The word of the child: 32 bits of the length are stored. *)
Lemma parent_word t L : fields 0 t 0 L -> 0 < L ->
  u32 (Z.lor (u64 (enc 0 t 0 L - 1)) (Z.shiftl (Z.lor RES_LOW_TERM_MASK RES_HIGH_TERM_MASK) RES_STATE_IN_LENGTH_SHIFT)) = (L - 1) mod 2 ^ 32.
Proof.
  unfold fields; intros HF HL; change (Z.shiftl _ RES_STATE_IN_LENGTH_SHIFT) with (3 * 2 ^ 60).
  rewrite (wrap_small 64) by (unfold in_range, enc; lia); replace (enc 0 t 0 L - 1) with (L - 1 + t * 2 ^ 60) by (unfold enc; lia).
  rewrite lor_at by lia; unfold wrap; rewrite <- (Z_mod_plus_full (L - 1) (Z.lor t 3 * 2 ^ 28) (2 ^ 32)); f_equal; lia.
Qed.

(** What an open reservation becomes, and the answer. *)
Lemma parent_open m h t L : off h = 0 -> ld m (base h) = enc 0 t 0 L -> fields 0 t 0 L -> 0 < L -> ld m (base h + 16) = 0 ->
  forall ok, rescap_parent ok m h = (sd (if ok then sd m (base h) (enc 1 t 0 L) else m) (base h + 16) ((L - 1) mod 2 ^ 32), Answer (mk_res (base h + 16) 0)).
Proof.
  intros Ho HW HF HL HZ ok; unfold rescap_parent; rewrite Ho, HW; cbn [negb Z.eqb]; destruct (enc_parts _ _ _ _ HF) as (_ & Est & _ & _ & E11).
  change RES_LENGTH_SHIFT_HIGH with 11; change (RES_STATE_IN_LENGTH_SHIFT + RES_STATE_SHIFT) with 62; rewrite E11, Est; cbn [negb Z.eqb].
  destruct (Z.eqb_spec (L * 2 ^ 11) 0); [lia|]; rewrite (proj2 (enc_take _ _ HF)); change RES_META_SIZE with 16; change (Z.shiftr 16 RES_LENGTH_SHIFT_LOW) with 1.
  unfold sw; rewrite parent_word by done; do 2 f_equal; destruct ok; rewrite ?ld_sd_ne, HZ, Z.land_0_l, Z.lor_0_l by lia; done.
Qed.

Lemma parent_ok s l h m' r : sys_ok s l -> h ∈ handles s -> rescap_parent true (s_mem s) h = (m', r) -> exists l', sys_ok (new_handle s m' r) l'.
Proof.
  intros Hs Hh E; destruct (handle_found _ _ _ Hs Hh) as (pre & sg & post & b & [-> HB HN _ HO HR]).
  assert ((m', r) = (s_mem s, Refused) -> exists l', sys_ok (new_handle s m' r) l') as HR' by (intros [= -> ->]; by eapply refused_ok).
  destruct (Z.eq_dec (off h) 0) as [Ho|Ho]; [|unfold rescap_parent in E; apply Z.eqb_neq in Ho; rewrite Ho in E; by apply HR'].
  destruct (state_cases _ _ _ _ HO HN) as [(L & t & -> & HF & HW)|(HC & _ & _)].
  2: { unfold rescap_parent in E; rewrite Ho in E; change (RES_STATE_IN_LENGTH_SHIFT + RES_STATE_SHIFT) with 62 in E; rewrite HC in E; cbn [negb Z.eqb] in E.
       destruct (_ =? 0); by apply HR'. }
  destruct (Z.eq_dec L 0) as [->|HL].
  { unfold rescap_parent in E; rewrite Ho, HW in E; destruct (enc_parts _ _ _ _ HF) as (_ & _ & _ & _ & E11); change RES_LENGTH_SHIFT_HIGH with 11 in E; rewrite E11 in E; by apply HR'. }
  pose proof HF as (_ & Ht & _ & HL2); cbn [seg_holds] in HO; destruct HO as [_ HZ]; rewrite (parent_open _ _ t L) in E by (done || lia || (apply HZ; lia)).
  injection E as <- <-; set (L' := (L - 1) mod 2 ^ 32) in *; assert (0 <= L' <= L - 1 /\ L' < 2 ^ 32) as HL'.
  { subst L'; pose proof (Z.mod_pos_bound (L - 1) (2 ^ 32)); pose proof (Z.mod_le (L - 1) (2 ^ 32)); lia. }
  exists (pre ++ (SParent :: [SOpen L'; SLost (L - 1 - L')]) ++ post); unfold new_handle; cbn [got].
  apply (change_ok s pre (SOpen L) post SParent [SOpen L'; SLost (L - 1 - L')] _ _ [mk_res (base h + 16) 0] [] []); [done| | |cbn; lia|by intros ? ? [= <-]; exists false| |done]; rewrite <- HB; cbn [size].
  - intros x Hx; by rewrite !ld_sd_ne by lia.
  - cbn [layout seg_holds]; rewrite ld_sd_ne, ld_sd_eq by lia; replace (base h + 16 * size SParent) with (base h + 16) by (cbn; lia); rewrite ld_sd_eq.
    split_and!; try done; [exists L, t; split_and!; lia || done|exists 0; split_and!; lia || (unfold enc; lia)| |lia].
    intros x Hx; rewrite !ld_sd_ne by lia; apply HZ; lia.
  - repeat constructor; exists false; split; [|by left]; cbn; replace (base h + 16 * 1) with (base h + 16) by lia; set_solver.
Qed.

Lemma splitsub_ok sc s l h k m' r : sys_ok s l -> h ∈ handles s -> in_range 64 k -> rescap_splitsub sc (s_mem s) h k = Some (m', r) ->
  exists l', sys_ok (new_handle s m' r) l'.
Proof.
  intros Hs Hh Hk E; unfold rescap_splitsub in E; destruct (Z.eqb_spec (off h) 0) as [Ho|]; cbn [negb] in E; [|injection E as <- <-; by eapply refused_ok].
  destruct (Z.ltb_spec RES_SCALE_MAX k) as [|Hk2]; [injection E as <- <-; by eapply refused_ok|]; unfold in_range in Hk; change RES_SCALE_MAX with 99 in Hk2.
  change (RES_STATE_SHIFT - RES_SCALE_SHIFT) with 9 in E; change RES_SCALE_SHIFT with 5 in E; change RES_STATE_IN_LENGTH_SHIFT with 48 in E.
  destruct (splitsub_loop _ _ _ _) as [[m1 r1]|] eqn:EL; [|done]; cbn [mbind option_bind] in E; injection E as <- <-.
  destruct (handle_found _ _ _ Hs Hh) as (pre & sg & post & b & [-> HB HN _ HO HR]).
  destruct (splitsub_cases _ _ _ _ _ _ EL) as [(_ & -> & ->)|(Hst & -> & ->)]; [by eapply refused_ok|].
  destruct (state_cases _ _ _ _ HO HN) as [(L & t & -> & HF & HW)|(HC & _ & _)]; [|by rewrite HC in Hst].
  rewrite HW, enc_splitsub by (done || lia); cbn [seg_holds] in HO; destruct HO as [_ HZ]; unfold fields in HF.
  exists (pre ++ [SSub L (k + 1) 0] ++ post); unfold new_handle; cbn [got].
  apply (change_ok s pre (SOpen L) post (SSub L (k + 1) 0) [] _ _ [h] [] []); [done| | |cbn; lia|by intros ? ? [= <-]; exists true| |]; rewrite <- HB; cbn [size].
  - apply sd_outside; lia.
  - cbn [layout seg_holds]; rewrite ld_sd_eq, ld_sd_ne by lia; split_and!; try done; try lia; [exists t; split_and!; lia || done|apply HZ; lia].
  - repeat constructor; exists true; split; [cbn; set_solver|by left].
  - cbn [grants seg_grants]; rewrite app_nil_r; cbn [app]; rewrite (omap_ext_in _ (fun _ => None)); [|intros i _; unfold sub_grant; by rewrite Z.bits_0].
    induction (seqZ 0 64); done.
Qed.

Lemma getsub_ok s l h i : sys_ok s l -> h ∈ handles s -> in_range 64 i -> exists l', sys_ok (new_handle s (s_mem s) (rescap_getsub (s_mem s) h i)) l'.
Proof.
  intros Hs Hh Hi; unfold rescap_getsub; repeat (destruct_if; [by eapply refused_ok|]); zbool; change (RES_STATE_IN_LENGTH_SHIFT + RES_SCALE_SHIFT) with 53 in *.
  change (Z.shiftr RES_SCALE_MASK RES_SCALE_SHIFT) with (2 ^ 7 - 1) in *; rewrite land_ones_mod in * by lia.
  exists l; destruct (handle_found _ _ _ Hs Hh) as (pre & sg & post & b & [-> HB HN _ HO HR]); destruct Hs as [HL HS HH HG]; split; try done.
  unfold new_handle; cbn [handles got app]; constructor; [|done]; exists true; cbn [base off]; change RES_SUBFIELD_BITMAP_BITS with 64 in *; unfold in_range in Hi.
  split; [|right; lia]; assert (forall st L, word_ok (ld (s_mem s) (base h)) st 0 L -> 0 <= st < 4 -> False) as F.
  { intros st L (t & Ht & HL' & HW) Hst; destruct (enc_parts st t 0 L) as (_ & _ & _ & E53 & _); [unfold fields; lia|]; rewrite HW, E53 in *.
    replace (512 * st + 128 * t + 0) with ((4 * st + t) * 2 ^ 7) in * by lia; by rewrite Z_mod_mult in *. }
  rewrite nodes_app; apply elem_of_app; right; rewrite <- HB; cbn [nodes]; apply elem_of_app; left; destruct sg; cbn [seg_holds seg_nodes] in *.
  - exfalso; eapply F; [apply HO|lia].
  - exfalso; eapply F; [apply HO|by cbn].
  - by left.
  - destruct HO as [? HO]; exfalso; eapply F; [apply HO|by cbn].
  - discriminate HN.
Qed.

Lemma grant_split l : forall p r, r ∈ grants p l -> exists pre sg post, l = pre ++ sg :: post /\ r ∈ seg_grants (p + 16 * sizes pre) sg.
Proof.
  induction l as [|s l IH]; intros p r H; cbn [grants] in H; [by apply not_elem_of_nil in H|]; apply elem_of_app in H as [H|H].
  - exists [], s, l; split; [done|]; cbn [sizes]; by rewrite Z.mul_0_r, Z.add_0_r.
  - destruct (IH _ _ H) as (pre & sg & post & -> & Hr); exists (s :: pre), sg, post; split; [done|]; cbn [sizes].
    by replace (p + 16 * (size s + sizes pre)) with (p + 16 * size s + 16 * sizes pre) by lia.
Qed.

Lemma store_ok s l r x v : sys_ok s l -> r ∈ granted s -> x mod 8 = 0 -> r.1 - 8 < x < r.1 + r.2 ->
  exists l', sys_ok (mk_sys (sd (s_mem s) x v) (s_made s) (handles s) (granted s)) l'.
Proof.
  intros Hs Hr H8 Hx; pose proof Hs as [HL _ _ (g & HG)]; assert (r ∈ grants VIRT_MEM_START l) as Hg by (rewrite HG; apply elem_of_app; by left).
  apply grant_split in Hg as (pre & sg & post & -> & Hg); rewrite layout_app in HL; destruct HL as (_ & HO & _).
  set (q := VIRT_MEM_START + 16 * sizes pre) in *; destruct (seg_grants_ok _ _ _ HO) as [HW _]; rewrite Forall_forall in HW; destruct (HW _ Hg) as (H1 & H2 & H3).
  assert (q + 16 <= x < q + 16 * size sg) as Hq by (subst q; unfold VIRT_MEM_START in *; pose proof (Z.div_mod x 8 ltac:(lia)); lia).
  exists (pre ++ [sg] ++ post); apply (change_ok s pre sg post sg [] _ _ [] [] []); [done| | |cbn; lia|by intros ? b ?; exists b|constructor|]; fold q.
  - apply sd_outside; lia.
  - cbn [layout]; split; [|done]; destruct sg; cbn [seg_grants] in Hg; try (by apply not_elem_of_nil in Hg); cbn [seg_holds] in *; by rewrite !ld_sd_ne by lia.
  - cbn [grants app]; by rewrite app_nil_r.
Qed.

Lemma first_ok : exists l, sys_ok (mk_sys (sd ∅ VIRT_MEM_START (enc 0 3 0 ((VIRT_MEM_SIZE - 16) / 16))) 1 [mk_res VIRT_MEM_START 0] []) l.
Proof.
  exists [SOpen ((VIRT_MEM_SIZE - 16) / 16)]; split; cbn [s_mem handles granted layout seg_holds].
  - rewrite ld_sd_eq; split_and!; [exists 3; split_and!; done|intros x Hx; by rewrite ld_sd_ne by lia|done].
  - done.
  - repeat constructor; exists false; split; [cbn; set_solver|by left].
  - by exists [].
Qed.

(** Before and after the first reservation is made. *)
Definition inv (s : sys) : Prop := s = boot \/ s_made s = 1 /\ exists l, sys_ok s l.

Definition stored (c : call) : Prop := match c with Parent ok _ => ok = true | _ => True end.

Definition call_sc (c : call) : Prop := match c with Take sc _ | Split sc _ _ | Splitsub sc _ _ => true ∈ sc | _ => True end.

Lemma exec_call_ok exact c s s' l : sys_ok s l -> s_made s = 1 -> stored c -> (forall h, call_handle c = Some h -> h ∈ handles s) ->
  exec_call exact c s = Some s' -> s_made s' = 1 /\ exists l', sys_ok s' l'.
Proof.
  intros Hs Hm Hc Hh E; destruct c as [|sc h|sc h n|ok h|sc h k|h i|r x v]; cbn [exec_call call_handle stored] in *; try specialize (Hh _ eq_refl).
  - unfold make_first_reservation in E; rewrite Hm in E; cbn in E; injection E as <-; destruct s as [m mk hs g]; cbn [s_made s_mem handles granted] in *; subst mk; eauto.
  - unfold rescap_take in E; destruct (Z.eqb_spec (off h) 0) as [Ho|Ho]; cbn [negb] in E.
    + destruct (take_normal _ _ _) as [[m' r]|] eqn:EL; [|done]; cbn [mbind option_bind] in E; injection E as <-; split; [done|]; by eapply take_normal_ok.
    + destruct (take_sub _ _ _ _) as [m' r] eqn:EL; cbn [mbind option_bind] in E; injection E as <-; split; [done|]; by eapply take_sub_ok.
  - destruct (rescap_split _ _ _ _) as [[m' r]|] eqn:EL; [|done]; cbn [mbind option_bind] in E; injection E as <-; split; [done|]; eapply split_ok; eauto; apply wrap_range; lia.
  - subst ok; destruct (rescap_parent _ _ _) as [m' r] eqn:EL; injection E as <-; split; [done|]; by eapply parent_ok.
  - destruct (rescap_splitsub _ _ _ _) as [[m' r]|] eqn:EL; [|done]; cbn [mbind option_bind] in E; injection E as <-; split; [done|]; eapply splitsub_ok; eauto; apply wrap_range; lia.
  - injection E as <-; split; [done|]; eapply getsub_ok; eauto; apply wrap_range; lia.
  - destruct_if; injection E as <-; [|eauto]; zbool; split; [done|]; eapply (store_ok s l r); eauto; [by apply bool_decide_eq_true in H|lia].
Qed.

Lemma res_exec_ok exact c s s' : inv s -> stored c -> exec exact c s = Some s' -> inv s'.
Proof.
  intros Hi Hc E; unfold exec in E; destruct Hi as [->|[Hm [l Hs]]].
  - destruct c; cbn in E; try (injection E as <-; by left); right.
    injection E as <-; split; [done|]; exact first_ok.
  - destruct (call_handle c) as [h|] eqn:Eh; [destruct (bool_decide _) eqn:Eb; [|injection E as <-; by right; eauto]|]; right; eapply exec_call_ok; eauto; intros h' Eh'; [|congruence].
    assert (h' = h) as -> by congruence; by apply bool_decide_eq_true in Eb.
Qed.

Lemma res_run_ok exact cs : forall s s', inv s -> Forall stored cs -> run_calls exact cs s = Some s' -> inv s'.
Proof.
  induction cs as [|c cs IH]; intros s s' Hi Hc E; cbn [run_calls] in E; [by injection E as <-|]; apply Forall_cons in Hc as [H1 H2].
  destruct (exec exact c s) as [s1|] eqn:E1; [|done]; cbn [mbind option_bind] in E; eapply IH; [|done|done]; by eapply res_exec_ok.
Qed.

Lemma exec_returns exact c s : call_sc c -> is_Some (exec exact c s).
Proof.
  intros Hc; assert (is_Some (exec_call exact c s)) as H; [|unfold exec; destruct (call_handle c); [destruct (bool_decide _)|]; eauto].
  destruct c as [|sc h|sc h n|ok h|sc h k|h i|r x v]; cbn [exec_call call_sc] in *.
  - by destruct (make_first_reservation _ _) as [[? ?] ?].
  - unfold rescap_take; destruct (negb _); [destruct (take_sub _ _ _ _); by eexists|].
    destruct (loops_end sc (s_mem s) (base h) Hc) as ([[? ?] ->] & _); by eexists.
  - unfold rescap_split; repeat (destruct (negb _); [by eexists|]).
    destruct (loops_end sc (s_mem s) (base h) Hc) as (_ & H & _); destruct (H (srl (u64 n) RES_LENGTH_SHIFT_LOW)) as [[? [[? ?]|]] ->]; by eexists.
  - destruct (rescap_parent _ _ _); by eexists.
  - unfold rescap_splitsub; destruct (negb _); [by eexists|]; destruct (_ <? _); [by eexists|].
    destruct (loops_end sc (s_mem s) (base h) Hc) as (_ & _ & H); match goal with |- context [splitsub_loop _ _ _ ?a] => destruct (H a) as [[? ?] ->] end; by eexists.
  - by eexists.
  - destruct (_ && _); by eexists.
Qed.

(** Every reservation that is not open is refused, and nothing changes. *)
Lemma closed_refused exact sc m h n k ok : true ∈ sc -> off h = 0 -> n mod 16 = 0 -> srl (ld m (base h)) 62 <> 0 -> Z.land (srl (ld m (base h)) 60) 12 <> 0 ->
  rescap_take exact sc m h = Some (m, Refused) /\ rescap_split sc m h n = Some (m, Refused) /\
  rescap_parent ok m h = (m, Refused) /\ rescap_splitsub sc m h k = Some (m, Refused).
Proof.
  intros Hsc Ho Hn H62 H60; destruct (loops_end sc m (base h) Hsc) as (([m1 r1] & E1) & H2 & H3); split_and!.
  - unfold rescap_take; rewrite Ho; cbn [negb Z.eqb]; rewrite E1; cbn [mbind option_bind].
    by destruct (take_cases _ _ _ _ _ E1) as [(_ & -> & ->)|(? & _)].
  - unfold rescap_split; change (RES_META_SIZE - 1) with (2 ^ 4 - 1); rewrite land_ones_mod by lia; change (2 ^ 4) with 16; rewrite Hn, Ho; cbn [negb Z.eqb].
    destruct (H2 (srl n RES_LENGTH_SHIFT_LOW)) as [[m2 r2] E2]; rewrite E2; cbn [mbind option_bind].
    by destruct (split_cases _ _ _ _ _ _ E2) as [(_ & -> & ->)|(? & _)].
  - unfold rescap_parent; rewrite Ho, Z.eqb_refl; change (RES_STATE_IN_LENGTH_SHIFT + RES_STATE_SHIFT) with 62; apply Z.eqb_neq in H62; rewrite H62; cbn [negb]; destruct_if; reflexivity.
  - unfold rescap_splitsub; rewrite Ho; cbn [negb Z.eqb]; destruct (_ <? _); [done|]; match goal with |- context [splitsub_loop _ _ _ ?a] => destruct (H3 a) as [[m2 r2] E2]; rewrite E2 end.
    cbn [mbind option_bind]; by destruct (splitsub_cases _ _ _ _ _ _ E2) as [(_ & -> & ->)|(? & _)].
Qed.

Lemma nfo_plain m a st t L : ld m a = enc st t 0 L -> fields st t 0 L -> rescap_nfo m (mk_res a 0) = (16 * L, a + 16).
Proof. intros E HF; unfold rescap_nfo; cbn [off base Z.eqb]; by rewrite E, enc_length. Qed.

(** What [rescap_take] and [rescap_split] answer on an open reservation. *)
Lemma open_take exact sc m h t L : true ∈ sc -> off h = 0 -> ld m (base h) = enc 0 t 0 L -> fields 0 t 0 L ->
  rescap_take exact sc m h = Some (sd m (base h) (enc 1 t 0 L), take_make exact (Some (base h + 16, 16 * L))).
Proof.
  intros Hsc Ho HW HF; destruct (loops_end sc m (base h) Hsc) as (([m1 r1] & E1) & _); unfold rescap_take; rewrite Ho; cbn [negb Z.eqb]; rewrite E1; cbn [mbind option_bind].
  destruct (enc_parts _ _ _ _ HF) as (_ & E62 & _); destruct (take_cases _ _ _ _ _ E1) as [(H & _)|(_ & -> & ->)]; [by rewrite HW in H|].
  by rewrite HW, (proj1 (enc_take _ _ HF)), enc_length.
Qed.

(** What a split stores: the two halves. *)
Lemma open_split_mem sc m h t L n : true ∈ sc -> off h = 0 -> ld m (base h) = enc 0 t 0 L -> fields 0 t 0 L -> 0 <= n -> n mod 16 = 0 -> 0 <= base h < 2 ^ 62 ->
  if n <? 16 * L then
    exists ta tb, fields 0 ta 0 (n / 16) /\ fields 0 tb 0 (L - n / 16 - 1) /\
      rescap_split sc m h n = Some (sd (sd m (base h) (enc 0 ta 0 (n / 16))) (base h + 16 + n) (enc 0 tb 0 (L - n / 16 - 1)), Answer (mk_res (base h + 16 + n) 0))
  else rescap_split sc m h n = Some (m, Refused).
Proof.
  intros Hsc Ho HW HF Hn H16 Hb; pose proof HF as (_ & Ht & _ & HL); destruct (loops_end sc m (base h) Hsc) as (_ & H2 & _).
  set (t4 := srl n RES_LENGTH_SHIFT_LOW); assert (n / 16 = t4) as E16 by (subst t4; unfold srl; by rewrite Z.shiftr_div_pow2).
  assert (n = 16 * t4) as En by (pose proof (Z.div_mod n 16); lia); rewrite E16.
  assert (rescap_split sc m h n = '(m, r) ← split_loop sc m (base h) t4; match r with None => Some (m, Refused) | Some (t2, t3) =>
    Some (sd m (u64 (base h + n + 16)) (Z.lor (u64 (u64 (t3 - t4) - 1)) (sll t2 60)), Answer (mk_res (u64 (base h + n + 16)) 0)) end) as ->.
  { unfold rescap_split; change (RES_META_SIZE - 1) with (2 ^ 4 - 1); rewrite land_ones_mod by lia; change (2 ^ 4) with 16; by rewrite H16, Ho. }
  destruct (H2 t4) as [[m2 r2] E2]; rewrite E2; cbn [mbind option_bind]; assert (srl (sll (enc 0 t 0 L) 11) 11 = L) as E11.
  { destruct (enc_parts _ _ _ _ HF) as (_ & _ & _ & _ & ->); apply srl_eq with 0; lia. }
  pose proof (split_cases _ _ _ _ _ _ E2) as C; cbn zeta in C; rewrite HW, E11 in C; destruct (Z.ltb_spec n (16 * L)) as [Hlt|Hge].
  - destruct (split_words t L t4 HF ltac:(lia)) as (S1 & _ & (ta & Hta & Sa) & (tb & Htb & Sb)).
    destruct C as [([?|?] & _)|(_ & _ & -> & ->)]; [done|lia|]; rewrite Sa, Sb, (wrap_small 64) by (unfold in_range; lia).
    exists ta, tb; split; [unfold fields; lia|split; [unfold fields; lia|]]; by replace (base h + n + 16) with (base h + 16 + n) by lia.
  - destruct C as [(_ & -> & ->)|(_ & ? & _)]; [done|lia].
Qed.

Lemma open_split sc m h t L n : true ∈ sc -> off h = 0 -> ld m (base h) = enc 0 t 0 L -> fields 0 t 0 L -> 0 <= n -> n mod 16 = 0 -> 0 <= base h < 2 ^ 62 ->
  if n <? 16 * L then
    exists m' child, rescap_split sc m h n = Some (m', Answer child) /\ rescap_nfo m' h = (n, base h + 16) /\
      rescap_nfo m' child = (16 * L - n - 16, base h + 16 + n + 16)
  else rescap_split sc m h n = Some (m, Refused).
Proof.
  intros Hsc Ho HW HF Hn H16 Hb; pose proof (open_split_mem sc m h t L n Hsc Ho HW HF Hn H16 Hb) as H; destruct (n <? 16 * L); [|done].
  destruct H as (ta & tb & Fa & Fb & ->); eexists _, _; split; [done|]; assert (n = 16 * (n / 16)) as En by (pose proof (Z.div_mod n 16); lia).
  split; [destruct h as [a o]; cbn [off base] in *; subst o|].
  - rewrite (nfo_plain _ _ 0 ta (n / 16)); [f_equal; lia|by rewrite ld_sd_ne, ld_sd_eq by lia|done].
  - rewrite (nfo_plain _ _ 0 tb (L - n / 16 - 1)); [f_equal; lia|by rewrite ld_sd_eq|done].
Qed.


(** C9: memory is reserved once.  After any sequence of nanokernel calls with
    handles that earlier calls returned, and of stores by the programs that
    were granted memory, the ranges granted by [rescap_take] are pairwise
    disjoint, lie in virtual memory and do not meet the metadata of any
    reservation, whatever bounds the hardware can represent.  It is assumed
    that no store-conditional of [rescap_parent] fails.  Every call returns
    once one of its store-conditionals succeeds. *)
Theorem reservation_safety exact cs s : Forall stored cs -> run_calls exact cs boot = Some s ->
  apart (granted s) /\ Forall (within VIRT_MEM_START VIRT_MEM_END) (granted s) /\
  (forall h r, h ∈ handles s -> r ∈ granted s -> disj (base h, RES_META_SIZE) r) /\
  (forall c, call_sc c -> is_Some (exec exact c s)).
Proof.
  intros Hc E; assert (forall c, call_sc c -> is_Some (exec exact c s)) as HR by (intros; by apply exec_returns).
  destruct (res_run_ok exact cs boot s ltac:(by left) Hc E) as [->|(_ & l & [HL HS HH (g & HG)])]; [split_and!; [done|constructor|by intros h r ?%not_elem_of_nil|done]|].
  destruct (grants_ok _ _ _ HL) as [G1 G2]; rewrite HS in G1; replace (VIRT_MEM_START + VIRT_MEM_SIZE) with VIRT_MEM_END in G1 by (unfold VIRT_MEM_SIZE; lia).
  rewrite HG in G1; apply (apart_perm _ _ HG), apart_app in G2 as (G2 & _); apply Forall_app in G1 as [G1 _]; split_and!; try done.
  intros h r Hh Hr; rewrite Forall_forall in HH; destruct (HH _ Hh) as (b & Hb & _); eapply nodes_apart; [done|done|rewrite HG; apply elem_of_app; by left].
Qed.

(** C20: the answers for a reservation.  On an open reservation of [16 * L]
    bytes, [rescap_take] grants exactly the memory behind the node (or traps
    when the bounds cannot be represented), after which the reservation is not
    open; [rescap_split] makes two reservations of the lengths asked for when
    the second still has room for its node, and refuses otherwise;
    [rescap_parent] makes a child of which only 32 bits of the length, in
    units of 16 bytes, are kept.  Every call refuses a reservation that is not
    open and then changes nothing. *)
Theorem reservation_answers exact cs s l h : Forall stored cs -> run_calls exact cs boot = Some s -> h ∈ handles s -> off h = 0 -> true ∈ l ->
  let m := s_mem s in
  match rescap_nfo m h with (len, b) =>
    if srl (ld m (base h)) 62 =? 0 then
      (exists m', rescap_take exact l m h = Some (m', if exact b len then Answer (b, len) else Trapped) /\ srl (ld m' (base h)) 62 <> 0) /\
      (forall n, 0 <= n -> n mod 16 = 0 -> if n <? len then
         exists m' child, rescap_split l m h n = Some (m', Answer child) /\ rescap_nfo m' h = (n, b) /\ rescap_nfo m' child = (len - n - 16, b + n + 16)
       else rescap_split l m h n = Some (m, Refused)) /\
      (0 < len -> exists m' child, rescap_parent true m h = (m', Answer child) /\ rescap_nfo m' child = (16 * ((len / 16 - 1) mod 2 ^ 32), b + 16) /\ srl (ld m' (base h)) 62 <> 0)
    else forall n k ok, n mod 16 = 0 -> rescap_take exact l m h = Some (m, Refused) /\ rescap_split l m h n = Some (m, Refused) /\
      rescap_parent ok m h = (m, Refused) /\ rescap_splitsub l m h k = Some (m, Refused)
  end.
Proof.
  intros Hc E Hh Ho Hl m; destruct (res_run_ok exact cs boot s ltac:(by left) Hc E) as [->|(_ & ls & Hs)]; [by apply not_elem_of_nil in Hh|].
  destruct (handle_found _ _ _ Hs Hh) as (pre & sg & post & b & [-> HB HN _ HO HR]); fold m in HO.
  destruct (state_cases _ _ _ _ HO HN) as [(L & t & -> & HF & HW)|(HC & H12 & _)].
  2: { destruct (rescap_nfo m h); rewrite HC; cbn [Z.eqb]; intros; apply closed_refused; try done; by rewrite HC. }
  pose proof (enc_parts _ _ _ _ HF) as (_ & E62 & _); pose proof HF as (_ & Ht & _ & HL); assert (fields 1 t 0 L) as HF1 by (unfold fields; lia).
  destruct h as [a o]; cbn [off base] in *; subst o; rewrite (nfo_plain m a 0 t L HW HF), HW, E62; cbn [Z.eqb]; unfold VIRT_MEM_START, VIRT_MEM_END in HR; cbn [size] in HR.
  change (Z.shiftl (2 ^ 27) 12 - Z.shiftl 64 30 * 2) with (3 * 2 ^ 37) in HR; pose proof (enc_parts _ _ _ _ HF1) as (_ & E1 & _); split_and!.
  - eexists; split; [apply (open_take exact l m (mk_res a 0) t L); done|]; cbn [base]; rewrite ld_sd_eq, E1; done.
  - intros n Hn H16; exact (open_split l m (mk_res a 0) t L n Hl eq_refl HW HF Hn H16 ltac:(cbn [base]; lia)).
  - intros Hlen; destruct HO as [_ HZ]; eexists _, _; split; [apply (parent_open m (mk_res a 0) t L); [done|done|done|lia|apply HZ; cbn [base]; lia]|]; cbn [base].
    rewrite ld_sd_ne, ld_sd_eq, E1 by lia; split; [|done]; replace (16 * L / 16) with L by (apply Z.div_unique with 0; lia).
    pose proof (Z.mod_pos_bound (L - 1) (2 ^ 32)); rewrite (nfo_plain _ _ 0 0 ((L - 1) mod 2 ^ 32)); [done|rewrite ld_sd_eq; unfold enc; lia|unfold fields; lia].
Qed.

(** Two reservations are split off, one of them is divided into subfields. *)
Definition demo_calls : list call :=
  let h0 := mk_res 0x1000 0 in let h1 := mk_res 0x2010 0 in
  [MakeFirst; Split [false; true] h0 0x1000; Split [true] h1 0x400; Take [true] h0; Splitsub [true] h1 23; Getsub h1 2; Take [] (mk_res 0x2010 3);
   Store (0x1010, 0x1000) 0x1018 7; Take [true] h0; Parent true (mk_res 0x2420 0)].

Lemma reservation_safety_witness : exists s, run_calls (fun _ _ => true) demo_calls boot = Some s /\
  granted s = [(0x2120, 0x80); (0x1010, 0x1000)] /\ apart (granted s).
Proof.
  destruct (run_calls (fun _ _ => true) demo_calls boot) as [s|] eqn:E; [|vm_compute in E; discriminate E].
  exists s; split; [done|]; pose proof E as E'; vm_compute in E'; injection E' as Es; split; [by rewrite <- Es|].
  refine (proj1 (reservation_safety (fun _ _ => true) demo_calls s _ E)); repeat (constructor; [done|]); constructor.
Defined.

Lemma reservation_answers_witness : exists s, run_calls (fun _ _ => true) [MakeFirst] boot = Some s /\
  exists m' child, rescap_split [false; true] (s_mem s) (mk_res 0x1000 0) 0x1000 = Some (m', Answer child) /\ rescap_nfo m' (mk_res 0x1000 0) = (0x1000, 0x1010).
Proof.
  destruct (run_calls (fun _ _ => true) [MakeFirst] boot) as [s|] eqn:E; [|vm_compute in E; discriminate E].
  exists s; split; [done|]; pose proof E as E'; vm_compute in E'; injection E' as Es; assert (mk_res 0x1000 0 ∈ handles s) as Hh by (rewrite <- Es; by left).
  pose proof (reservation_answers (fun _ _ => true) [MakeFirst] s [false; true] (mk_res 0x1000 0) ltac:(by repeat constructor) E Hh eq_refl ltac:(right; by left)) as H.
  cbn zeta in H; assert (rescap_nfo (s_mem s) (mk_res 0x1000 0) = (VIRT_MEM_SIZE - 16, 0x1010)) as En by (rewrite <- Es; vm_compute; reflexivity).
  assert (srl (ld (s_mem s) 0x1000) 62 = 0) as E62 by (rewrite <- Es; vm_compute; reflexivity).
  rewrite En in H; cbn [base] in H; rewrite E62 in H; cbn [Z.eqb] in H; destruct H as (_ & H & _); specialize (H 0x1000 ltac:(lia) ltac:(done)).
  destruct (Z.ltb_spec 0x1000 (VIRT_MEM_SIZE - 16)) as [_|Hge]; [|exfalso; vm_compute in Hge; by apply Hge]; destruct H as (m' & child & H1 & H2 & _); eauto.
Defined.

Lemma run_cons exact c cs s s1 s' : exec exact c s = Some s1 -> run_calls exact cs s1 = Some s' -> run_calls exact (c :: cs) s = Some s'.
Proof. intros E H; cbn [run_calls]; by rewrite E. Qed.

Lemma exec_handle exact c s h s' : call_handle c = Some h -> h ∈ handles s -> exec_call exact c s = Some s' -> exec exact c s = Some s'.
Proof. intros E Hh H; unfold exec; by rewrite E, bool_decide_eq_true_2. Qed.

(** Two grants that overlap. *)
Lemma overlap_not_apart r r' g : r'.1 < r.1 + r.2 -> r.1 < r'.1 + r'.2 -> ~ apart (r :: r' :: g).
Proof. intros H1 H2 [H _]; apply Forall_cons in H as [H _]; unfold disj in H; lia. Qed.

(** C39: [rescap_parent] does not retry its store-conditional.  In every state
    that calls reach whose own stores succeeded, for every open reservation
    (not a field of a divided one) with room for a child that is not empty:
    when the store-conditional of its [rescap_parent] fails, the child is handed
    out, the reservation stays open, and taking both grants the memory of the
    child twice. *)
Theorem parent_store_lost exact cs s sc h len b : Forall stored cs -> run_calls exact cs boot = Some s -> h ∈ handles s -> off h = 0 -> true ∈ sc ->
  srl (ld (s_mem s) (base h)) 62 = 0 -> rescap_nfo (s_mem s) h = (len, b) ->
  let clen := 16 * ((len / 16 - 1) mod 2 ^ 32) in
  16 < len -> 0 < clen -> exact b len = true -> exact (b + 16) clen = true ->
  exists child s', run_calls exact [Parent false h; Take sc h; Take sc child] s = Some s' /\ granted s' = (b + 16, clen) :: (b, len) :: granted s /\ ~ apart (granted s').
Proof.
  intros Hc E Hh Ho Hsc Hopen En clen Hlen Hcl X1 X2; destruct (res_run_ok exact cs boot s ltac:(by left) Hc E) as [->|(_ & ls & Hs)]; [by apply not_elem_of_nil in Hh|].
  destruct (handle_found _ _ _ Hs Hh) as (pre & sg & post & b0 & [-> HB HN _ HO HR]); destruct (state_cases _ _ _ _ HO HN) as [(L & t & -> & HF & HW)|(HC & _)]; [|by rewrite HC in Hopen].
  destruct h as [a o]; cbn [off base] in *; subst o; set (m := s_mem s) in *; rewrite (nfo_plain m a 0 t L HW HF) in En; injection En as <- <-; destruct HO as [_ HZ]; pose proof HF as (_ & _ & _ & HL).
  assert (Ediv : 16 * L / 16 = L) by (symmetry; apply Z.div_unique with 0; lia); subst clen; rewrite Ediv in *; set (L' := (L - 1) mod 2 ^ 32) in *; set (child := mk_res (a + 16) 0); set (m1 := sd m (a + 16) L').
  assert (E1 : rescap_parent false m (mk_res a 0) = (m1, Answer child)) by (apply (parent_open m (mk_res a 0) t L); [done|done|done|lia|apply HZ; cbn [base]; lia]).
  assert (HF' : fields 0 0 0 L') by (unfold fields; pose proof (Z.mod_pos_bound (L - 1) (2 ^ 32)); lia).
  assert (W1 : ld m1 a = enc 0 t 0 L) by (unfold m1; rewrite ld_sd_ne by lia; done).
  pose proof (open_take exact sc m1 (mk_res a 0) t L Hsc eq_refl W1 HF) as E2; cbn [base take_make] in E2; rewrite X1 in E2; set (m2 := sd m1 a (enc 1 t 0 L)) in E2.
  assert (W2 : ld m2 (a + 16) = enc 0 0 0 L') by (unfold m2, m1; rewrite ld_sd_ne, ld_sd_eq by lia; unfold enc; lia).
  pose proof (open_take exact sc m2 child 0 L' Hsc eq_refl W2 HF') as E3; cbn [base child take_make] in E3; rewrite X2 in E3.
  exists child; eexists; split.
  - eapply run_cons; [eapply exec_handle; [done|exact Hh|cbn [exec_call]; fold m; rewrite E1; reflexivity]|].
    eapply run_cons; [eapply exec_handle; [done|right; exact Hh|cbn [exec_call new_handle s_mem]; rewrite E2; reflexivity]|].
    eapply run_cons; [eapply exec_handle; [done|by left|cbn [exec_call s_mem]; rewrite E3; reflexivity]|reflexivity].
  - split; [done|apply overlap_not_apart; cbn; lia].
Qed.

Lemma parent_store_lost_witness : exists s child s', run_calls (fun _ _ => true) [MakeFirst] boot = Some s /\
  run_calls (fun _ _ => true) [Parent false (mk_res VIRT_MEM_START 0); Take [true] (mk_res VIRT_MEM_START 0); Take [true] child] s = Some s' /\ ~ apart (granted s').
Proof.
  set (s := mk_sys (sd ∅ VIRT_MEM_START (enc 0 3 0 ((VIRT_MEM_SIZE - 16) / 16))) 1 [mk_res VIRT_MEM_START 0] []); assert (E : run_calls (fun _ _ => true) [MakeFirst] boot = Some s) by (by vm_compute).
  destruct (parent_store_lost (fun _ _ => true) [MakeFirst] s [true] (mk_res VIRT_MEM_START 0) (VIRT_MEM_SIZE - 16) (VIRT_MEM_START + 16)) as (child & s' & E' & _ & H);
    [by repeat constructor|exact E|by left|done|by left|by vm_compute|by vm_compute|by vm_compute|by vm_compute|done|done|]; exists s, child, s'; split; [exact E|split; [exact E'|exact H]].
Defined.
