(* ===== verification/PageTable.v ===== *)
(** * Page tables of the nanokernel
    (boot/nanokernel/src/platform/riscv/nano_kernel.S)

    The calls that make page tables and mappings, on the page book of [Book]
    and the physical memory the tables are in.  A handle to a table is a sealed
    capability: the address of the table in the cached window and its level.
    Page numbers and indices are 64-bit numbers.  The store-conditionals of a
    call succeed or fail as the lists [sc] say; a call that still retries when
    the list ends has no result.

    [translate] is the Sv39 translation of the RISC-V privileged architecture,
    for addresses in the lower half. *)

From S2P Require Import Prelude Book.

Definition PAGE_TABLE_ENT_PER_TABLE : Z := 512.
Definition PAGE_TABLE_ENT_BITS : Z := 3.
Definition PAGE_TABLE_ENT_SIZE : Z := 8.
Definition PHY_PAGE_SIZE : Z := 4096.
Definition VTABLE_LEVELS : Z := 3.
Definition RISCV_PTE_V : Z := 1.
Definition RISCV_PTE_R : Z := 2.
Definition RISCV_PTE_W : Z := 4.
Definition RISCV_PTE_X : Z := 8.
Definition RISCV_PTE_G : Z := 0x20.
Definition RISCV_PTE_A : Z := 0x40.
Definition RISCV_PTE_D : Z := 0x80.
Definition RISCV_PTE_CD : Z := 2 ^ 61.
Definition RISCV_PTE_CR : Z := 2 ^ 62.
Definition RISCV_PTE_CW : Z := 2 ^ 63.
Definition RISCV_PTE_PERM_SUB_TABLE : Z := RISCV_PTE_V.
Definition RISCV_PTE_TYPE_MASK : Z := foldr Z.lor 0 [RISCV_PTE_V; RISCV_PTE_X; RISCV_PTE_W; RISCV_PTE_R].
Definition RISCV_PTE_PERM_ALL : Z :=
  foldr Z.lor 0 [RISCV_PTE_V; RISCV_PTE_R; RISCV_PTE_W; RISCV_PTE_X; RISCV_PTE_G; RISCV_PTE_D; RISCV_PTE_A; RISCV_PTE_CD; RISCV_PTE_CR; RISCV_PTE_CW].
Definition RISCV_PTE_PFN_SHIFT : Z := 10.
Definition PTE_FLAGS_SYSTEM : Z := Z.ldiff RISCV_PTE_PERM_ALL RISCV_PTE_V.
Definition GIGA_MAPPINGS : Z := Z.shiftr 0x1000000000 30.

(** ** Table entries in memory

    Memory is in words of 16 bytes; an entry is half of one. *)

Definition half_load (w h : Z) : Z := u64 (Z.shiftr w (64 * h)).
Definition half_store (w h v : Z) : Z := if h =? 0 then Z.shiftl (Z.shiftr w 64) 64 + u64 v else u64 w + Z.shiftl (u64 v) 64.

Definition tload (m : mem_t) (a : Z) : Z :=
  let o := u64 (a - PHY_MEM_START_CACHED) in half_load (default 0 (m !! (o / 16))) (o / 8 mod 2).

Definition tstore (m : mem_t) (a v : Z) : mem_t :=
  let o := u64 (a - PHY_MEM_START_CACHED) in <[o / 16 := half_store (default 0 (m !! (o / 16))) (o / 8 mod 2) v]> m.

(** Load-reserved and store-conditional, expecting zero. *)
Fixpoint cas (sc : list bool) (m : mem_t) (a v : Z) : option (mem_t * bool) :=
  match sc with
  | [] => None
  | ok :: sc => if negb (tload m a =? 0) then Some (m, false) else if ok : bool then Some (tstore m a v, true) else cas sc m a v
  end.

Record ptable_t := mk_ptable { taddr : Z; level : Z }.

#[export] Instance ptable_t_eq : EqDecision ptable_t.
Proof. solve_decision. Defined.

(** ** The calls *)

Definition create_table (sc : list bool) (s : phys) (page_n : Z) (parent : ptable_t) (index : Z) : option (phys * option ptable_t) :=
  if negb ((level parent =? 0) || (level parent =? 1)) then Some (s, None)
  else if negb (index <? PAGE_TABLE_ENT_PER_TABLE) then Some (s, None)
  else if TOTAL_PHY_PAGES <=? page_n then Some (s, None)
  else
    let a1 := u64 (taddr parent + u64 (Z.shiftl index PAGE_TABLE_ENT_BITS)) in
    let a2 := Z.lor (u64 (Z.shiftl page_n RISCV_PTE_PFN_SHIFT)) RISCV_PTE_V in
    let a0 := u64 (u64 (Z.shiftl page_n PHY_PAGE_SIZE_BITS) + PHY_MEM_START_CACHED) in
    '(b, t2) ← lock_entry (the_book s) page_n;
    let undo (m : mem_t) := b ← bput b page_n (set_status t2); Some (mk_phys b m, None) in
    if negb (t2 =? page_unused) && negb (t2 =? page_ptable_free) then undo (memory s)
    else
      m ← (if t2 =? page_unused then Some (memory s) else do_zero_page 16 (memory s) a0 (u64 (a0 + PHY_PAGE_SIZE)));
      e ← bget b page_n;
      if negb (len e =? 1) then undo m
      else
        '(m, ok) ← cas sc m a1 a2;
        if negb ok then undo m
        else b ← bput b page_n (set_status page_ptable); Some (mk_phys b m, Some (mk_ptable a0 (level parent + 1))).

(** How a call to map ends.  [Wedged]: an entry was in use, and the pages are
    given up, or the table's bounds were left, and the call traps. *)
Inductive map_end := NotMapped | Mapped | Wedged.

(** [n] entries from [index] on; [a0] is the first of them. *)
Fixpoint set_mapping_loop (sc : Z -> list bool) (n : nat) (m : mem_t) (table index a0 : Z) : option (mem_t * option bool) :=
  match n with
  | O => Some (m, Some true)
  | S n =>
      if PAGE_TABLE_ENT_PER_TABLE <=? index then Some (m, None)
      else
        '(m, ok) ← cas (sc index) m (u64 (table + u64 (Z.shiftl index PAGE_TABLE_ENT_BITS))) a0;
        if negb ok then Some (m, Some false)
        else set_mapping_loop sc n m table (index + 1) (u64 (a0 + Z.shiftl 1 RISCV_PTE_PFN_SHIFT))
  end.

Definition create_mapping (sc : Z -> list bool) (s : phys) (page_n : Z) (table : ptable_t) (index_start index_stop flags : Z) : option (phys * map_end) :=
  if negb (level table =? 2) then Some (s, NotMapped)
  else if index_start =? index_stop then Some (s, NotMapped)
  else if negb (index_start <? PAGE_TABLE_ENT_PER_TABLE) then Some (s, NotMapped)
  else if TOTAL_PHY_PAGES <=? page_n then Some (s, NotMapped)
  else
    '(b, t2) ← lock_entry (the_book s) page_n;
    let undo := b ← bput b page_n (set_status t2); Some (mk_phys b (memory s), NotMapped) in
    if negb (t2 =? page_unused) then undo
    else
      e ← bget b page_n;
      if negb (u64 (index_stop - index_start) =? len e) then undo
      else
        let a4 := Z.land flags PTE_FLAGS_SYSTEM in
        let a0 := Z.lor (Z.lor (u64 (Z.shiftl page_n RISCV_PTE_PFN_SHIFT)) a4) RISCV_PTE_V in
        '(m, r) ← set_mapping_loop sc (Z.to_nat (len e)) (memory s) (taddr table) index_start a0;
        match r with
        | None => Some (mk_phys b m, Wedged)
        | Some false => b ← bput b page_n (set_status page_screwed_the_pooch); Some (mk_phys b m, Wedged)
        | Some true => b ← bput b page_n (set_status page_mapped); Some (mk_phys b m, Mapped)
        end.

(** A handle for the table an entry names; nothing for an empty entry, an
    error or a mapping. *)
Definition get_sub_table (m : mem_t) (table : ptable_t) (index : Z) : option ptable_t :=
  if VTABLE_LEVELS - 1 <=? u64 (level table) then None
  else if PAGE_TABLE_ENT_PER_TABLE <=? index then None
  else
    let a1 := tload m (u64 (taddr table + u64 (Z.shiftl index PAGE_TABLE_ENT_BITS))) in
    if a1 =? 0 then None
    else if negb (Z.land a1 RISCV_PTE_TYPE_MASK =? RISCV_PTE_PERM_SUB_TABLE) then None
    else
      let a0 := Z.shiftr a1 RISCV_PTE_PFN_SHIFT in
      let a0 := u64 (Z.shiftl a0 (64 - 3 * 9)) in
      let a0 := Z.shiftr a0 (64 - 3 * 9 - PHY_PAGE_SIZE_BITS) in
      Some (mk_ptable (u64 (a0 + PHY_MEM_START_CACHED)) (level table + 1)).

(** Boot: [top] is the page of the top table, which the nanokernel owns.  The
    gigapages of the physical window are mapped twice. *)
Fixpoint set_giga_start (n : nat) (m : mem_t) (t0 t2 : Z) : mem_t :=
  match n with
  | O => m
  | S n => set_giga_start n (tstore m t0 t2) (u64 (t0 + PAGE_TABLE_ENT_SIZE)) (u64 (t2 + Z.shiftl 1 (30 - PHY_PAGE_SIZE_BITS + RISCV_PTE_PFN_SHIFT)))
  end.

Definition set_giga (m : mem_t) (top : Z) : mem_t :=
  let t0 := PHY_MEM_START_CACHED + top * PHY_PAGE_SIZE + Z.shiftr (Z.land PHY_MEM_START_UNCACHED (2 ^ 39 - 1)) (9 + 9 + PHY_PAGE_SIZE_BITS - PAGE_TABLE_ENT_BITS) in
  let t1 := t0 + Z.shiftl GIGA_MAPPINGS PAGE_TABLE_ENT_BITS in
  let n := Z.to_nat GIGA_MAPPINGS in
  set_giga_start n (set_giga_start n m t0 RISCV_PTE_PERM_ALL) t1 RISCV_PTE_PERM_ALL.

Definition get_top_level_table (top : Z) : ptable_t := mk_ptable (PHY_MEM_START_CACHED + top * PHY_PAGE_SIZE) 0.

(** ** The hardware *)

Definition pte (m : mem_t) (page i : Z) : Z := tload m (PHY_MEM_START_CACHED + page * PHY_PAGE_SIZE + i * PAGE_TABLE_ENT_SIZE).

(** An entry that is writable but not readable is reserved: it faults like one
    that is not valid. *)
Definition pte_reserved (e : Z) : bool := Z.land e (RISCV_PTE_R + RISCV_PTE_W) =? RISCV_PTE_W.
Definition pte_valid (e : Z) : bool := Z.odd e && negb (pte_reserved e).
Definition pte_leaf (e : Z) : bool := negb (Z.land e (RISCV_PTE_R + RISCV_PTE_W + RISCV_PTE_X) =? 0).
Definition pte_pfn (e : Z) : Z := Z.shiftr e RISCV_PTE_PFN_SHIFT mod 2 ^ 44.

(** The index of an address at a level. *)
Definition vpn (va l : Z) : Z := va / 2 ^ (30 - 9 * l) mod 512.

(** The walk: the pages of the tables it reads, and the entry it ends with at
    its level, or a fault. *)
Fixpoint walk_table (n : nat) (m : mem_t) (page va l : Z) : list Z * option (Z * Z) :=
  let e := pte m page (vpn va l) in
  if negb (pte_valid e) then ([page], None)
  else if pte_leaf e then ([page], Some (e, l))
  else match n with
       | O => ([page], None)
       | S n => let '(ps, r) := walk_table n m (pte_pfn e) va (l + 1) in (page :: ps, r)
       end.

(** The physical page and the entry for a lower-half address.  A leaf above
    the last level maps a superpage. *)
Definition translate (m : mem_t) (top va : Z) : option (Z * Z) :=
  if (va <? 0) || (2 ^ 38 <=? va) then None
  else
    '(e, l) ← (walk_table 2 m top va 0).2;
    if negb (pte_pfn e mod 2 ^ (9 * (2 - l)) =? 0) then None else Some (pte_pfn e + va / 4096 mod 2 ^ (9 * (2 - l)), e).

Definition tables_of (m : mem_t) (top va : Z) : list Z := (walk_table 2 m top va 0).1.

(** ** The system

    The handles and the physical capabilities the system was given; neither
    can be forged.  Software stores through the translation or through a
    physical capability, a word of 16 bytes at a time. *)

Record vm := mk_vm { ph : phys; handles : list ptable_t; caps : list phy_cap }.

Inductive vcall : Type :=
  | VSplit (pagen new_len : Z)
  | VMerge (pagen : Z)
  | VZero (pagen : Z)
  | VGetPhy (page_n : Z) (cached : bool) (npages : Z) (io : bool)
  | VTop
  | VSub (table : ptable_t) (index : Z)
  | VTable (sc : list bool) (page_n : Z) (parent : ptable_t) (index : Z)
  | VMap (sc : Z -> list bool) (page_n : Z) (table : ptable_t) (index_start index_stop flags : Z)
  | VStore (va value : Z)
  | PStore (word value : Z).

Definition put_phys (v : vm) (s : phys) : vm := mk_vm s (handles v) (caps v).
Definition add_handle (v : vm) (h : option ptable_t) : vm := mk_vm (ph v) (option_list h ++ handles v) (caps v).
Definition store_word (s : phys) (w x : Z) : phys := mk_phys (the_book s) (<[w := x]> (memory s)).

Definition exec_vm (rep : Z -> Z -> bool) (top : Z) (v : vm) (c : vcall) : option vm :=
  let known h := bool_decide (h ∈ handles v) in
  match c with
  | VSplit i n => s ← exec rep (ph v) (Split i n); Some (put_phys v s)
  | VMerge i => s ← exec rep (ph v) (Merge i); Some (put_phys v s)
  | VZero i => s ← exec rep (ph v) (Zero i); Some (put_phys v s)
  | VGetPhy i cached n io =>
      '(b, r) ← get_phy_page rep (the_book (ph v)) i cached n io;
      Some (mk_vm (mk_phys b (memory (ph v))) (handles v) (match r with Cap c => [c] | _ => [] end ++ caps v))
  | VTop => Some (add_handle v (Some (get_top_level_table top)))
  | VSub h i => Some (if known h then add_handle v (get_sub_table (memory (ph v)) h i) else v)
  | VTable sc page_n h i =>
      if known h then '(s, r) ← create_table sc (ph v) page_n h i; Some (add_handle (put_phys v s) r) else Some v
  | VMap sc page_n h i j flags =>
      if known h then '(s, _) ← create_mapping sc (ph v) page_n h i j flags; Some (put_phys v s) else Some v
  | VStore va x =>
      Some match translate (memory (ph v)) top va with
           | Some (p, e) => if Z.testbit e 2 then put_phys v (store_word (ph v) (p * 256 + va mod 4096 / 16) x) else v
           | None => v
           end
  | PStore w x => Some (if existsb (fun c => cap_covers c (page_of w)) (caps v) then put_phys v (store_word (ph v) w x) else v)
  end.

Fixpoint run_vm (rep : Z -> Z -> bool) (top : Z) (v : vm) (cs : list vcall) : option vm :=
  match cs with [] => Some v | c :: cs => v ← exec_vm rep top v c; run_vm rep top v cs end.

(** 64-bit arguments; the range calls as in [Book]; store-conditionals that
    succeed in the end. *)
Definition vargs_ok (c : vcall) : Prop :=
  match c with
  | VSplit i n => args_ok (Split i n)
  | VMerge i => args_ok (Merge i)
  | VZero i => args_ok (Zero i)
  | VGetPhy i cached n io => args_ok (GetPhy i cached n io)
  | VTop => True
  | VSub _ i => 0 <= i < 2 ^ 64
  | VTable sc p _ i => true ∈ sc /\ 0 <= p < 2 ^ 64 /\ 0 <= i < 2 ^ 64
  | VMap sc p _ i j f => (forall k, true ∈ sc k) /\ 0 <= p < 2 ^ 64 /\ 0 <= i < 2 ^ 64 /\ 0 <= j < 2 ^ 64 /\ 0 <= f < 2 ^ 64
  | VStore _ _ => True
  | PStore _ _ => True
  end.

(** At boot the system has a capability to its unmanaged space, [a0] bytes. *)
Definition boot_vm (a0 : Z) (m : mem_t) (top : Z) : vm :=
  mk_vm (mk_phys (init_book a0) (set_giga m top)) [] [mk_cap (PHY_MEM_START_CACHED + IO_SIZE + NANO_SIZE) a0 false].

(** ** Entries *)

Definition ent_addr (p i : Z) : Z := PHY_MEM_START_CACHED + p * PHY_PAGE_SIZE + i * PAGE_TABLE_ENT_SIZE.

Lemma half_load_store w h h' v : (h = 0 \/ h = 1) -> (h' = 0 \/ h' = 1) -> 0 <= v < 2 ^ 64 ->
  half_load (half_store w h v) h' = if decide (h = h') then v else half_load w h'.
Proof.
  assert (forall a b, 0 <= b < 2 ^ 64 -> Z.shiftr (a * 2 ^ 64 + b) 64 = a) as Hhi.
  { intros a b Hb; rewrite Z.shiftr_div_pow2 by lia; rewrite Z.div_add_l by lia; rewrite Z.div_small; lia. }
  assert (forall a b, u64 (a * 2 ^ 64 + b) = u64 b) as Hlo.
  { intros a b; unfold wrap; rewrite Z.add_comm; by apply Z.mod_add. }
  assert (forall z, 0 <= u64 z < 2 ^ 64) as Hw by (intros; apply Z.mod_pos_bound; lia).
  intros [-> | ->] [-> | ->] Hv; unfold half_load, half_store; change (0 =? 0) with true; change (1 =? 0) with false; cbv iota;
    change (64 * 0) with 0; change (64 * 1) with 64; rewrite ?Z.shiftr_0_r, !Z.shiftl_mul_pow2 by lia.
  - rewrite decide_True, Hlo by done; rewrite !(wrap_small 64 v) by (unfold in_range; lia); done.
  - rewrite decide_False by done; rewrite Hhi; [done|apply Hw].
  - rewrite decide_False by done; rewrite Z.add_comm, Hlo; unfold wrap; by rewrite Z.mod_mod.
  - rewrite decide_True by done; rewrite Z.add_comm, Hhi by apply Hw; rewrite !(wrap_small 64 v) by (unfold in_range; lia); done.
Qed.

Lemma ent_offset p i : 0 <= p < TOTAL_PHY_PAGES -> 0 <= i < 512 ->
  let o := u64 (ent_addr p i - PHY_MEM_START_CACHED) in o / 16 = p * 256 + i / 2 /\ o / 8 mod 2 = i mod 2.
Proof.
  rewrite total_val; intros Hp Hi; unfold ent_addr, PHY_PAGE_SIZE, PAGE_TABLE_ENT_SIZE.
  replace (PHY_MEM_START_CACHED + p * 4096 + i * 8 - PHY_MEM_START_CACHED) with ((p * 512 + i) * 8) by lia.
  rewrite wrap_small by (unfold in_range; lia); cbv zeta; rewrite Z.div_mul by lia.
  change 16 with (8 * 2); rewrite <- Z.div_div, Z.div_mul by lia.
  replace (p * 512 + i) with (i + p * 256 * 2) by lia; rewrite Z.div_add, Z.mod_add by lia; lia.
Qed.

Lemma pte_eq m p i : 0 <= p < TOTAL_PHY_PAGES -> 0 <= i < 512 ->
  pte m p i = half_load (default 0 (m !! (p * 256 + i / 2))) (i mod 2).
Proof. intros Hp Hi; unfold pte, tload; fold (ent_addr p i); by destruct (ent_offset p i Hp Hi) as [-> ->]. Qed.

Lemma tstore_eq m p i v : 0 <= p < TOTAL_PHY_PAGES -> 0 <= i < 512 ->
  tstore m (ent_addr p i) v = <[p * 256 + i / 2 := half_store (default 0 (m !! (p * 256 + i / 2))) (i mod 2) v]> m.
Proof. intros Hp Hi; unfold tstore; by destruct (ent_offset p i Hp Hi) as [-> ->]. Qed.

Lemma page_of_ent p i : 0 <= i < 512 -> page_of (p * 256 + i / 2) = p.
Proof.
  intros Hi; unfold page_of; assert (0 <= i / 2 < 256) by (split; [apply Z.div_pos|apply Z.div_lt_upper_bound]; lia).
  symmetry; apply Z.div_unique with (i / 2); lia.
Qed.

Lemma pte_tstore m p i v q j : 0 <= p < TOTAL_PHY_PAGES -> 0 <= i < 512 -> 0 <= q < TOTAL_PHY_PAGES -> 0 <= j < 512 -> 0 <= v < 2 ^ 64 ->
  pte (tstore m (ent_addr p i) v) q j = if decide (p = q /\ i = j) then v else pte m q j.
Proof.
  intros Hp Hi Hq Hj Hv; rewrite tstore_eq, !pte_eq by done.
  pose proof (Z.div_mod i 2 ltac:(lia)); pose proof (Z.div_mod j 2 ltac:(lia)).
  pose proof (Z.mod_pos_bound i 2 ltac:(lia)); pose proof (Z.mod_pos_bound j 2 ltac:(lia)).
  pose proof (page_of_ent p i Hi) as E1; pose proof (page_of_ent q j Hj) as E2.
  destruct (decide (p * 256 + i / 2 = q * 256 + j / 2)) as [E|Hne].
  - rewrite E, lookup_insert_eq; cbn [default from_option id]; rewrite half_load_store by lia.
    rewrite E in E1; assert (p = q) by congruence; subst q; do 2 case_decide; done || lia.
  - rewrite lookup_insert_ne by done; rewrite decide_False; [done|]; intros [-> ->]; done.
Qed.

(** A page that is not written keeps its entries. *)
Lemma pte_frame m m' p i : 0 <= p < TOTAL_PHY_PAGES -> 0 <= i < 512 -> (forall w, page_of w = p -> m' !! w = m !! w) -> pte m' p i = pte m p i.
Proof. intros Hp Hi Hm; rewrite !pte_eq, Hm by (done || by apply page_of_ent); done. Qed.

Lemma pte_clear m p i : 0 <= p < TOTAL_PHY_PAGES -> 0 <= i < 512 -> (forall w, page_of w = p -> m !! w = None) -> pte m p i = 0.
Proof.
  intros Hp Hi Hm; rewrite pte_eq, Hm by (done || by apply page_of_ent); unfold half_load; cbn [default from_option].
  by rewrite Z.shiftr_0_l.
Qed.

Lemma tstore_page m p i v w : 0 <= p < TOTAL_PHY_PAGES -> 0 <= i < 512 -> page_of w <> p -> tstore m (ent_addr p i) v !! w = m !! w.
Proof. intros Hp Hi Hw; rewrite tstore_eq, lookup_insert_ne by (done || intros <-; by rewrite page_of_ent in Hw); done. Qed.

(** The address the code computes. *)
Lemma index_addr p i : 0 <= p < TOTAL_PHY_PAGES -> 0 <= i < 512 ->
  u64 (PHY_MEM_START_CACHED + p * PHY_PAGE_SIZE + u64 (Z.shiftl i PAGE_TABLE_ENT_BITS)) = ent_addr p i.
Proof.
  rewrite total_val; intros Hp Hi; unfold PAGE_TABLE_ENT_BITS, ent_addr, PHY_PAGE_SIZE, PAGE_TABLE_ENT_SIZE, PHY_MEM_START_CACHED.
  rewrite Z.shiftl_mul_pow2 by lia; change (2 ^ 3) with 8; rewrite (wrap_small 64 (i * 8)), wrap_small by (unfold in_range; lia); done.
Qed.

Lemma cas_spec sc m p i v : true ∈ sc -> 0 <= p < TOTAL_PHY_PAGES -> 0 <= i < 512 ->
  cas sc m (ent_addr p i) v = Some (if decide (pte m p i = 0) then (tstore m (ent_addr p i) v, true) else (m, false)).
Proof.
  intros Hsc Hp Hi; induction sc as [|ok sc IH]; [by apply elem_of_nil in Hsc|]; cbn [cas].
  change (tload m (ent_addr p i)) with (pte m p i); case_decide as D; rewrite ?D; [change (0 =? 0) with true|by rewrite (proj2 (Z.eqb_neq _ _))].
  cbn [negb]; destruct ok; [done|]; apply IH; by apply elem_of_cons in Hsc as [|].
Qed.

(** ** The entries the calls make *)

Definition sub_entry (q : Z) : Z := q * 1024 + 1.
Definition leaf_entry (flags q : Z) : Z := q * 1024 + Z.land flags PTE_FLAGS_SYSTEM + 1.

Lemma lor_plus a b : Z.land a b = 0 -> Z.lor a b = a + b.
Proof. intros H; by rewrite Z.add_nocarry_lxor, Z.lxor_lor. Qed.

(** The flags the system controls are the low ones, without the valid bit, and
    the top three. *)
Lemma flags_parts f : 0 <= f ->
  exists lo hi, Z.land f PTE_FLAGS_SYSTEM = lo * 2 + hi * 2 ^ 61 /\ 0 <= lo < 512 /\ 0 <= hi < 8.
Proof.
  intros Hf; set (a := Z.land f PTE_FLAGS_SYSTEM); assert (0 <= a) as Ha by (apply Z.land_nonneg; by left).
  assert (forall k, 0 <= k -> a mod 2 ^ k = Z.land f (Z.land PTE_FLAGS_SYSTEM (Z.ones k))) as Hm.
  { intros k Hk; unfold a; by rewrite <- Z.land_ones, Z.land_assoc by done. }
  assert (a mod 2 ^ 64 = a) as H64 by (rewrite Hm by lia; done).
  assert (a mod 2 ^ 61 = a mod 2 ^ 10) as H61 by (rewrite !Hm by lia; done).
  assert (a mod 2 ^ 1 = 0) as H1 by (rewrite Hm by lia; by rewrite (Z.land_0_r f : Z.land f (Z.land PTE_FLAGS_SYSTEM (Z.ones 1)) = 0)).
  pose proof (Z.mod_pos_bound a (2 ^ 64) ltac:(lia)); pose proof (Z.mod_pos_bound a (2 ^ 10) ltac:(lia)).
  pose proof (Z.div_mod a (2 ^ 61) ltac:(lia)) as D.
  exists (a mod 2 ^ 10 / 2), (a / 2 ^ 61); split_and!.
  - rewrite D at 1; rewrite H61; enough (a mod 2 ^ 10 = a mod 2 ^ 10 / 2 * 2) by lia.
    pose proof (Z.div_mod (a mod 2 ^ 10) 2 ltac:(lia)) as D2; enough (a mod 2 ^ 10 mod 2 = 0) by lia.
    change (2 ^ 10) with (2 * 512); rewrite Z.rem_mul_r by lia; rewrite Z.mul_comm, Z.mod_add by lia; by rewrite Z.mod_mod by lia.
  - apply Z.div_pos; lia.
  - apply Z.div_lt_upper_bound; lia.
  - by apply Z.div_pos.
  - apply Z.div_lt_upper_bound; lia.
Qed.

Lemma sub_make q : 0 <= q < TOTAL_PHY_PAGES -> Z.lor (u64 (Z.shiftl q RISCV_PTE_PFN_SHIFT)) RISCV_PTE_V = sub_entry q.
Proof.
  rewrite total_val; intros Hq; unfold RISCV_PTE_PFN_SHIFT, RISCV_PTE_V, sub_entry; rewrite Z.shiftl_mul_pow2 by lia; change (2 ^ 10) with 1024.
  rewrite wrap_small by (unfold in_range; lia); apply lor_plus.
  change 1 with (Z.ones 1) at 1; rewrite Z.land_ones by lia; replace (q * 1024) with (q * 512 * 2 ^ 1) by lia; by apply Z.mod_mul.
Qed.

Lemma pfn_flags q : 0 <= q < TOTAL_PHY_PAGES -> Z.land (q * 1024) PTE_FLAGS_SYSTEM = 0.
Proof.
  rewrite total_val; intros Hq; replace PTE_FLAGS_SYSTEM with (Z.shiftl 7 61 + 0xee) by done.
  assert (Z.land (q * 1024) (Z.shiftl 7 61) = 0) as H1.
  { apply Z.bits_inj'; intros n Hn; rewrite Z.land_spec, Z.bits_0; destruct (decide (n < 61)).
    - by rewrite Z.shiftl_spec_low, andb_false_r by lia.
    - rewrite Z.bits_above_log2; [done|lia|]; destruct (decide (q = 0)) as [->|]; [change (Z.log2 (0 * 1024)) with 0; lia|].
      apply Z.log2_lt_pow2; [lia|]; pose proof (Z.pow_le_mono_r 2 61 n ltac:(lia) ltac:(lia)); lia. }
  assert (Z.land (q * 1024) 0xee = 0) as H2.
  { replace 0xee with (Z.land (Z.ones 10) 0xee) by done; rewrite Z.land_assoc, Z.land_ones by lia.
    change 1024 with (2 ^ 10); by rewrite Z.mod_mul. }
  replace (Z.shiftl 7 61 + 0xee) with (Z.lor (Z.shiftl 7 61) 0xee) by done; by rewrite Z.land_lor_distr_r, H1, H2.
Qed.

Lemma leaf_make f q : 0 <= f -> 0 <= q < TOTAL_PHY_PAGES ->
  Z.lor (Z.lor (u64 (Z.shiftl q RISCV_PTE_PFN_SHIFT)) (Z.land f PTE_FLAGS_SYSTEM)) RISCV_PTE_V = leaf_entry f q.
Proof.
  intros Hf Hq; unfold RISCV_PTE_PFN_SHIFT, RISCV_PTE_V, leaf_entry; rewrite Z.shiftl_mul_pow2 by lia; change (2 ^ 10) with 1024.
  rewrite wrap_small by (unfold in_range; rewrite total_val in Hq; lia).
  rewrite (lor_plus (q * 1024)).
  2:{ rewrite (Z.land_comm f), Z.land_assoc, pfn_flags by done; apply Z.land_0_l. }
  destruct (flags_parts f Hf) as (lo & hi & -> & _); apply lor_plus.
  change 1 with (Z.ones 1) at 1; rewrite Z.land_ones by lia.
  replace (q * 1024 + (lo * 2 + hi * 2 ^ 61)) with ((q * 512 + lo + hi * 2 ^ 60) * 2 ^ 1) by lia; by apply Z.mod_mul.
Qed.

Lemma leaf_range f q : 0 <= f -> 0 <= q <= TOTAL_PHY_PAGES -> 0 < leaf_entry f q < 2 ^ 64 - 1024.
Proof. rewrite total_val; intros Hf Hq; unfold leaf_entry; destruct (flags_parts f Hf) as (lo & hi & -> & Hlo & Hhi); lia. Qed.

Lemma leaf_step f q : 0 <= f -> 0 <= q < TOTAL_PHY_PAGES -> u64 (leaf_entry f q + Z.shiftl 1 RISCV_PTE_PFN_SHIFT) = leaf_entry f (q + 1).
Proof.
  intros Hf Hq; pose proof (leaf_range f q Hf ltac:(lia)); change (Z.shiftl 1 RISCV_PTE_PFN_SHIFT) with 1024.
  rewrite wrap_small by (unfold in_range; lia); unfold leaf_entry; lia.
Qed.

Lemma pfn_leaf f q : 0 <= f -> 0 <= q < TOTAL_PHY_PAGES -> pte_pfn (leaf_entry f q) = q.
Proof.
  rewrite total_val; intros Hf Hq; unfold pte_pfn, leaf_entry, RISCV_PTE_PFN_SHIFT; destruct (flags_parts f Hf) as (lo & hi & -> & Hlo & Hhi).
  rewrite Z.shiftr_div_pow2 by lia.
  replace (q * 1024 + (lo * 2 + hi * 2 ^ 61) + 1) with ((lo * 2 + 1) + (q + hi * 2 ^ 7 * 2 ^ 44) * 2 ^ 10) by lia.
  rewrite Z.div_add, (Z.div_small (lo * 2 + 1)), Z.add_0_l, Z.mod_add by lia; apply Z.mod_small; lia.
Qed.

Lemma sub_range q : 0 <= q < TOTAL_PHY_PAGES -> 0 < sub_entry q < 2 ^ 64.
Proof. rewrite total_val; unfold sub_entry; lia. Qed.

Lemma sub_entry_fields q : 0 <= q < TOTAL_PHY_PAGES ->
  pte_pfn (sub_entry q) = q /\ pte_valid (sub_entry q) = true /\ pte_leaf (sub_entry q) = false /\
  Z.land (sub_entry q) RISCV_PTE_TYPE_MASK = RISCV_PTE_PERM_SUB_TABLE /\ Z.shiftr (sub_entry q) RISCV_PTE_PFN_SHIFT = q.
Proof.
  rewrite total_val; intros Hq; unfold pte_pfn, sub_entry, pte_valid, pte_reserved, pte_leaf, RISCV_PTE_PFN_SHIFT.
  assert (Z.shiftr (q * 1024 + 1) 10 = q) as E.
  { rewrite Z.shiftr_div_pow2 by lia; change (2 ^ 10) with 1024; rewrite Z.div_add_l, (Z.div_small 1) by lia; lia. }
  assert (forall k, 0 <= k < 16 -> Z.land (q * 1024 + 1) k = Z.land 1 k) as Hk.
  { intros k Hk; assert (Z.land (Z.ones 4) k = k) as Ek by (rewrite Z.land_comm, Z.land_ones, Z.mod_small by lia; done).
    rewrite <- Ek, !Z.land_assoc, !Z.land_ones by lia; f_equal; replace (q * 1024 + 1) with (1 + q * 64 * 2 ^ 4) by lia; by rewrite Z.mod_add. }
  split_and!; try done.
  - rewrite E; apply Z.mod_small; lia.
  - rewrite Hk by done; replace (q * 1024 + 1) with (2 * (q * 512) + 1) by lia; by rewrite Z.odd_add, Z.odd_mul.
  - rewrite Hk by done; done.
  - rewrite Hk by done; done.
Qed.

(** ** The invariant of the tables *)

Lemma any_status_ok : page_transaction <= page_screwed_the_pooch + 1 <= page_screwed_the_pooch + 1.
Proof. unfold page_transaction, page_screwed_the_pooch; lia. Qed.

(** Chunks with any status: a mapping may leave one locked or given up. *)
#[local] Instance any_status : StatusBound := {| top_status := page_screwed_the_pooch + 1; top_ok := any_status_ok |}.

Definition stat (F : list Z) (p st : Z) : Prop := 0 <= p /\ F !! Z.to_nat p = Some st.

(** The statuses of pages an entry may map. *)
Definition reach (st : Z) : Prop := st = page_mapped \/ page_transaction <= st.

Lemma stat_fun F p st st' : stat F p st -> stat F p st' -> st = st'.
Proof. intros [_ H] [_ H']; congruence. Qed.

Section Tables.

Context (top : Z).

(** The entries of the tables [T], page to level, apart from those of the
    gigapages. *)
Definition tslot (T : gmap Z Z) (p l i : Z) : Prop := T !! p = Some l /\ 0 <= i < 512 /\ ~ (p = top /\ 384 <= i).

Definition entry_ok (T : gmap Z Z) (F : list Z) (l e : Z) : Prop :=
  e = 0 \/ (exists q, l < 2 /\ e = sub_entry q /\ T !! q = Some (l + 1)) \/
  (exists q f st, l = 2 /\ 0 <= f /\ e = leaf_entry f q /\ 0 <= q < TOTAL_PHY_PAGES /\ stat F q st /\ reach st).

Definition table_page (F : list Z) (p : Z) : Prop := p = top /\ stat F p page_nano_owned \/ stat F p page_ptable.

Record tables_ok (T : gmap Z Z) (F : list Z) (m : mem_t) : Prop := {
  t_top : T !! top = Some 0;
  t_range p l : T !! p = Some l -> 0 <= p < TOTAL_PHY_PAGES /\ 0 <= l <= 2 /\ table_page F p;
  t_ent p l i : tslot T p l i -> entry_ok T F l (pte m p i);
  t_inj p l i p' l' i' : tslot T p l i -> tslot T p' l' i' -> pte m p i <> 0 -> pte m p' i' <> 0 ->
    pte_pfn (pte m p i) = pte_pfn (pte m p' i') -> p = p' /\ i = i';
  t_giga i : 384 <= i < 512 -> Z.land (pte m top i) 15 = 15
}.

Definition untargeted (T : gmap Z Z) (m : mem_t) (q : Z) : Prop :=
  forall p l i, tslot T p l i -> pte m p i <> 0 -> pte_pfn (pte m p i) <> q.

(** What an entry names: a table of the next level, or a mapped page. *)
Lemma entry_target T F m p l i : tables_ok T F m -> tslot T p l i -> pte m p i <> 0 ->
  let q := pte_pfn (pte m p i) in 0 <= q < TOTAL_PHY_PAGES /\
  (l < 2 /\ T !! q = Some (l + 1) /\ pte m p i = sub_entry q \/ l = 2 /\ exists st, stat F q st /\ reach st).
Proof.
  intros H Hs Hn; destruct (t_ent _ _ _ H _ _ _ Hs) as [E|[(q & Hl & E & Hq)|(q & f & st & Hl & Hf & E & Hq & Hst & Hr)]]; [done| |].
  - rewrite E; destruct (t_range _ _ _ H _ _ Hq) as (Hqr & _); destruct (sub_entry_fields q Hqr) as (-> & _); eauto.
  - rewrite E, pfn_leaf by done; eauto 6.
Qed.

Lemma table_not_reach T F m p l st : tables_ok T F m -> T !! p = Some l -> stat F p st -> ~ reach st.
Proof.
  intros H Hp Hs Hr; destruct (t_range _ _ _ H _ _ Hp) as (_ & _ & [[_ H1]|H1]); pose proof (stat_fun _ _ _ _ Hs H1); subst st;
    destruct Hr as [|Hr]; try done; by vm_compute in Hr.
Qed.

Lemma free_untargeted T F m q st : tables_ok T F m -> T !! q = None -> stat F q st -> ~ reach st -> untargeted T m q.
Proof.
  intros H Hq Hs Hr p l i Hsl Hn E; destruct (entry_target _ _ _ _ _ _ H Hsl Hn) as (_ & [(_ & HT & _)|(_ & st' & Hs' & Hr')]); rewrite E in *.
  - congruence.
  - by rewrite <- (stat_fun _ _ _ _ Hs Hs') in Hr'.
Qed.

(** Statuses may change as long as tables stay tables and mapped pages mapped. *)
Definition stat_keep (F F' : list Z) : Prop := forall p st, stat F p st ->
  ((p = top /\ st = page_nano_owned \/ st = page_ptable) -> stat F' p st) /\ (reach st -> exists st', stat F' p st' /\ reach st').

Lemma table_page_keep F F' p : stat_keep F F' -> table_page F p -> table_page F' p.
Proof. intros HF [[-> H]|H]; [left; split; [done|]|right]; apply (proj1 (HF _ _ H)); auto. Qed.

Lemma entry_ok_keep T T' F F' l e : (forall q, T !! q = Some (l + 1) -> T' !! q = Some (l + 1)) -> stat_keep F F' -> entry_ok T F l e -> entry_ok T' F' l e.
Proof.
  intros HT HF [->|[(q & Hl & E & Hq)|(q & f & st & Hl & Hf & E & Hq & Hst & Hr)]]; [by left|right; left; eauto 6|].
  destruct (proj2 (HF _ _ Hst) Hr) as (st' & Hst' & Hr'); right; right; by exists q, f, st'.
Qed.

Lemma tables_frame T F F' m m' : tables_ok T F m -> stat_keep F F' ->
  (forall p l i, T !! p = Some l -> 0 <= i < 512 -> pte m' p i = pte m p i) -> tables_ok T F' m'.
Proof.
  intros H HF Hm; split.
  - apply H.
  - intros p l Hp; destruct (t_range _ _ _ H _ _ Hp) as (? & ? & ?); split_and!; try lia; by eapply table_page_keep.
  - intros p l i Hs; rewrite (Hm _ l) by apply Hs; eapply entry_ok_keep, (t_ent _ _ _ H); done.
  - intros p l i p' l' i' Hs Hs'; rewrite (Hm p l), (Hm p' l') by (apply Hs || apply Hs'); by eapply (t_inj _ _ _ H).
  - intros i Hi; rewrite (Hm _ 0) by (apply H || lia); by apply H.
Qed.

(** One more entry, for a page no entry names. *)
Lemma entry_added T F m m' p l i e q : tables_ok T F m -> tslot T p l i -> untargeted T m q -> pte_pfn e = q ->
  (forall p' l' j, T !! p' = Some l' -> 0 <= j < 512 -> pte m' p' j = if decide (p = p' /\ i = j) then e else pte m p' j) ->
  forall p1 l1 i1 p2 l2 i2, tslot T p1 l1 i1 -> tslot T p2 l2 i2 -> pte m' p1 i1 <> 0 -> pte m' p2 i2 <> 0 ->
    pte_pfn (pte m' p1 i1) = pte_pfn (pte m' p2 i2) -> p1 = p2 /\ i1 = i2.
Proof.
  intros H Hs Hu He Hm p1 l1 i1 p2 l2 i2 H1 H2; rewrite (Hm p1 l1), (Hm p2 l2) by (apply H1 || apply H2).
  repeat case_decide; destruct_and?; subst; try done; intros Hn1 Hn2 E.
  - by destruct (Hu _ _ _ H2 Hn2).
  - by destruct (Hu _ _ _ H1 Hn1).
  - by eapply (t_inj _ _ _ H).
Qed.

Lemma leaf_added T F m m' p i q f st : tables_ok T F m -> tslot T p 2 i -> untargeted T m q -> 0 <= f -> 0 <= q < TOTAL_PHY_PAGES ->
  stat F q st -> reach st ->
  (forall p' l' j, T !! p' = Some l' -> 0 <= j < 512 -> pte m' p' j = if decide (p = p' /\ i = j) then leaf_entry f q else pte m p' j) ->
  tables_ok T F m'.
Proof.
  intros H Hs Hu Hf Hq Hst Hr Hm; split; [apply H|apply H| | |].
  - intros p' l' j Hs'; rewrite (Hm _ l') by apply Hs'; case_decide as D; [|by apply (t_ent _ _ _ H)].
    destruct D as [<- <-]; right; right; exists q, f, st; split_and!; try done; try lia; destruct Hs as [E _], Hs' as [E' _]; congruence.
  - eapply (entry_added T F m m' p 2 i (leaf_entry f q) q); try done; by apply pfn_leaf.
  - intros j Hj; rewrite (Hm _ 0) by (apply H || lia); rewrite decide_False; [by apply H|].
    intros [-> ->]; destruct Hs as (_ & _ & Hg); apply Hg; lia.
Qed.

Lemma table_added T F F' m m' p l i q st : tables_ok T F m -> tslot T p l i -> l < 2 -> T !! q = None -> stat F q st -> ~ reach st ->
  0 <= q < TOTAL_PHY_PAGES -> stat_keep F F' -> stat F' q page_ptable ->
  (forall p' l' j, T !! p' = Some l' -> 0 <= j < 512 -> pte m' p' j = if decide (p = p' /\ i = j) then sub_entry q else pte m p' j) ->
  (forall j, 0 <= j < 512 -> pte m' q j = 0) -> tables_ok (<[q := l + 1]> T) F' m'.
Proof.
  intros H Hs Hl Hq Hst Hr Hqr HF HF' Hm Hz; pose proof (free_untargeted _ _ _ _ _ H Hq Hst Hr) as Hu.
  assert (forall p' l', T !! p' = Some l' -> q <> p') as Hne by (intros p' l' Hp ->; congruence).
  assert (forall p1 l1 j, tslot (<[q := l + 1]> T) p1 l1 j -> pte m' p1 j <> 0 -> tslot T p1 l1 j) as Hold.
  { intros p1 l1 j (HT & Hj & Hg) Hn; destruct (decide (q = p1)) as [<-|]; [by rewrite Hz in Hn|].
    rewrite lookup_insert_ne in HT by done; exact (conj HT (conj Hj Hg)). }
  split.
  - rewrite lookup_insert_ne by (eapply Hne, H); apply H.
  - intros p' l' HT; destruct (decide (q = p')) as [<-|].
    + rewrite lookup_insert_eq in HT; simplify_eq; destruct (t_range _ _ _ H _ _ (proj1 Hs)) as (_ & ? & _); split_and!; try lia; by right.
    + rewrite lookup_insert_ne in HT by done; destruct (t_range _ _ _ H _ _ HT) as (? & ? & ?); split_and!; try lia; by eapply table_page_keep.
  - intros p' l' j Hs'; destruct (decide (pte m' p' j = 0)) as [E|E]; [by left|].
    pose proof (Hold _ _ _ Hs' E) as Hs1; rewrite (Hm _ l') by apply Hs1; case_decide as D.
    + destruct D as [<- <-]; assert (l' = l) as -> by (destruct Hs as [E1 _], Hs1 as [E2 _]; congruence).
      right; left; exists q; split_and!; [done|done|by rewrite lookup_insert_eq].
    + eapply entry_ok_keep, (t_ent _ _ _ H); [|done|done].
      intros q' Hq'; rewrite lookup_insert_ne by (by eapply Hne); done.
  - intros p1 l1 i1 p2 l2 i2 H1 H2 Hn1 Hn2; pose proof (Hold _ _ _ H1 Hn1); pose proof (Hold _ _ _ H2 Hn2).
    eapply (entry_added T F m m' p l i (sub_entry q) q); try done; by apply sub_entry_fields.
  - intros j Hj; rewrite (Hm _ 0) by (apply H || lia); rewrite decide_False; [by apply H|].
    intros [-> ->]; destruct Hs as (_ & _ & Hg); apply Hg; lia.
Qed.

End Tables.

(** ** The invariant of the system *)

Definition handle_ok (T : gmap Z Z) (h : ptable_t) : Prop :=
  exists p, taddr h = PHY_MEM_START_CACHED + p * PHY_PAGE_SIZE /\ T !! p = Some (level h).

(** Physical capabilities cover only pages handed to the system. *)
Definition cap_ok (F : list Z) (c : phy_cap) : Prop :=
  forall p, cap_covers c p = true -> exists st, stat F p st /\ owned st.

Record vm_ok (top : Z) (v : vm) (T : gmap Z Z) (F : list Z) : Prop := {
  v_phys : phys_ok (ph v) F;
  v_tables : tables_ok top T F (memory (ph v));
  v_handles : Forall (handle_ok T) (handles v);
  v_caps : Forall (cap_ok F) (caps v)
}.

(** The statuses a page can leave. *)
Definition movable (st : Z) : Prop := st = page_unused \/ st = page_ptable_free \/ st = page_io_unused \/ st = page_dirty.

Definition keeps (F F' : list Z) : Prop := forall p st, stat F p st -> ~ movable st -> stat F' p st.

Ltac not_movable := let H := fresh in intros H; unfold movable, page_unused, page_ptable_free, page_io_unused, page_dirty, page_nano_owned,
  page_ptable, page_mapped, page_transaction, page_system_owned, page_io_system in *; lia.

Lemma keeps_same F : keeps F F.
Proof. by intros p st H _. Qed.

Lemma keeps_stat top F F' : keeps F F' -> stat_keep top F F'.
Proof.
  intros H p st Hs; split.
  - intros [[_ ->]| ->]; apply H; try done; not_movable.
  - intros Hr; exists st; split; [apply H; [done|]|done]; destruct Hr as [-> |Hr]; not_movable.
Qed.

Lemma keeps_cap F F' c : keeps F F' -> cap_ok F c -> cap_ok F' c.
Proof.
  intros H Hc p Hcov; destruct (Hc p Hcov) as (st & Hs & Ho); exists st; split; [apply H; [done|]|done].
  destruct Ho as [->| ->]; not_movable.
Qed.

Lemma keeps_caps F F' cs : keeps F F' -> Forall (cap_ok F) cs -> Forall (cap_ok F') cs.
Proof. intros H HC; eapply Forall_impl; [exact HC|]; intros c; by apply keeps_cap. Qed.

Lemma stat_set_range F i l st p : 0 <= i -> 0 < l -> i + l <= Z.of_nat (length F) -> i <= p < i + l -> stat (set_range F i l st) p st.
Proof. intros; split; [lia|]; rewrite set_range_lookup by done; by rewrite decide_True by lia. Qed.

Lemma keeps_set_range F i l st st' : 0 <= i -> 0 < l -> i + l <= Z.of_nat (length F) ->
  (forall p, i <= p < i + l -> F !! Z.to_nat p = Some st) -> movable st \/ st = st' -> keeps F (set_range F i l st').
Proof.
  intros Hi Hl Hle HF Hm p s [Hp Hs] Hn; split; [done|]; rewrite set_range_lookup, Z2Nat.id by done; case_decide as D; [|done].
  rewrite HF in Hs by done; simplify_eq; destruct Hm as [Hm| ->]; done.
Qed.

(** The range calls. *)
Lemma range_call_ok top v T F s F' : vm_ok top v T F -> phys_ok s F' -> keeps F F' ->
  (forall w st, stat F (page_of w) st -> st <> page_dirty -> memory s !! w = memory (ph v) !! w) -> vm_ok top (put_phys v s) T F'.
Proof.
  intros [HP HT HH HC] HP' HK Hm; split; cbn; [done| |done|by eapply keeps_caps].
  eapply tables_frame; [done|by apply keeps_stat|]; intros p l i Hp Hi; destruct (t_range _ _ _ _ HT _ _ Hp) as (Hr & _ & Ht).
  apply pte_frame; [done|done|]; intros w Hw; destruct Ht as [[_ Ht]|Ht]; eapply Hm; rewrite ?Hw; done.
Qed.

Lemma vsplit_ok rep top v T F i n : vm_ok top v T F -> args_ok (Split i n) -> exists v', exec_vm rep top v (VSplit i n) = Some v' /\ vm_ok top v' T F.
Proof.
  intros H [Hi Hn]; pose proof (v_phys _ _ _ _ H) as [Hb Hc]; cbn [exec_vm exec]; destruct (in_or_out i Hi) as [E|Hi'].
  - unfold split_phy_page_range; rewrite E; eexists; split; [reflexivity|]; eapply range_call_ok; [done|by split|apply keeps_same|done].
  - destruct (split_book _ _ i n Hb Hi') as (b & -> & Hb'); [lia|]; eexists; split; [reflexivity|].
    eapply range_call_ok; [done|by split|apply keeps_same|done].
Qed.

Lemma merge_ok rep top v T F i : vm_ok top v T F -> args_ok (Merge i) -> exists v', exec_vm rep top v (VMerge i) = Some v' /\ vm_ok top v' T F.
Proof.
  intros H Hi; pose proof (v_phys _ _ _ _ H) as [Hb Hc]; cbn [exec_vm exec]; destruct (in_or_out i Hi) as [E|Hi'].
  - unfold merge_phy_page_range; rewrite E; eexists; split; [reflexivity|]; eapply range_call_ok; [done|by split|apply keeps_same|done].
  - destruct (merge_book _ _ i Hb Hi') as (b & -> & Hb'); eexists; split; [reflexivity|].
    eapply range_call_ok; [done|by split|apply keeps_same|done].
Qed.

Lemma zero_ok rep top v T F i : vm_ok top v T F -> args_ok (Zero i) ->
  exists v' F', exec_vm rep top v (VZero i) = Some v' /\ vm_ok top v' T F' /\ keeps F F'.
Proof.
  intros H Hi; pose proof (v_phys _ _ _ _ H) as [Hb Hc]; pose proof (book_length _ _ Hb) as HL; cbn [exec_vm exec]; destruct (in_or_out i Hi) as [E|Hi'].
  - unfold zero_page_range; rewrite E; eexists _, F; split_and!; [reflexivity| |apply keeps_same]; eapply range_call_ok; [done|by split|apply keeps_same|done].
  - destruct (zero_book _ _ i Hb Hi') as (s & -> & [[Em Hb']|(l & Hl & Hle & HF & Hb' & Hm)]); eexists.
    + exists F; split_and!; [reflexivity| |apply keeps_same]; eapply range_call_ok; [done|split; [done|by rewrite Em]|apply keeps_same|by rewrite Em].
    + assert (keeps F (set_range F i l page_unused)) as HK by (eapply keeps_set_range; try done; try lia; left; unfold movable; tauto).
      exists (set_range F i l page_unused); split_and!; [reflexivity| |done]; eapply range_call_ok; [done|split; [done|]|done|].
      * eapply clean_range; try done; lia.
      * intros w st [H0 Hw] Hd; rewrite Hm; case_decide; [|done]; rewrite HF in Hw by done; congruence.
Qed.

Lemma getphy_ok rep top v T F i cached n io : vm_ok top v T F -> args_ok (GetPhy i cached n io) ->
  exists v' F', exec_vm rep top v (VGetPhy i cached n io) = Some v' /\ vm_ok top v' T F' /\ keeps F F'.
Proof.
  intros [[Hb Hc] HT HH HC] Hi; pose proof (book_length _ _ Hb) as HL; cbn [exec_vm]; destruct (in_or_out i Hi) as [E|Hi'].
  { unfold get_phy_page; rewrite E; exists v, F; pose proof (keeps_same F); destruct (n =? 0), v as [[b m] hs cs]; by split_and!. }
  destruct (get_phy_book rep _ _ i cached n io Hb Hi') as (b & r & -> & [[-> ->]|(Er & Hn & Hle & _ & (st & Hst & HF) & Hb')]); cbn [mbind option_bind].
  { exists v, F; pose proof (keeps_same F); destruct v as [[b m] hs cs]; by split_and!. }
  assert (keeps F (set_range F i n (taken io))) as HK.
  { eapply keeps_set_range; try done; try lia; unfold movable, may_take, taken in *; destruct io, Hst as [->| ->]; tauto. }
  eexists _, (set_range F i n (taken io)); split_and!; [reflexivity| |done]; split; cbn.
  - split; [done|]; eapply clean_range; try done; try lia; intros w; destruct io; cbn; by case_decide.
  - eapply tables_frame; [done|by apply keeps_stat|done].
  - done.
  - apply Forall_app; split; [|by eapply keeps_caps]; subst r; cbv zeta; destruct_if; [|done]; apply Forall_singleton.
    intros p Hcov; apply cap_covers_range in Hcov; [|lia..]; exists (taken io); split; [apply stat_set_range; lia|].
    unfold owned, taken; destruct io; tauto.
Qed.

(** A new table page and the handle of it. *)
Lemma page_addr q : 0 <= q < TOTAL_PHY_PAGES ->
  u64 (u64 (Z.shiftl q PHY_PAGE_SIZE_BITS) + PHY_MEM_START_CACHED) = PHY_MEM_START_CACHED + q * PHY_PAGE_SIZE.
Proof.
  rewrite total_val; intros Hq; unfold PHY_PAGE_SIZE_BITS, PHY_PAGE_SIZE, PHY_MEM_START_CACHED; rewrite Z.shiftl_mul_pow2 by lia; change (2 ^ 12) with 4096.
  rewrite (wrap_small 64 (q * 4096)), wrap_small by (unfold in_range; lia); lia.
Qed.

Lemma zero_one m q : 0 <= q < TOTAL_PHY_PAGES ->
  exists m', do_zero_page 16 m (PHY_MEM_START_CACHED + q * PHY_PAGE_SIZE) (u64 (PHY_MEM_START_CACHED + q * PHY_PAGE_SIZE + PHY_PAGE_SIZE)) = Some m' /\
    forall w, m' !! w = if decide (page_of w = q) then None else m !! w.
Proof.
  rewrite total_val; unfold PHY_PAGE_SIZE; intros Hq; destruct (do_zero_spec 16 m (q * 4096)) as (m' & E & Hm); [lia| |lia|lia|].
  { replace (q * 4096) with (q * 16 * 256) by lia; by apply Z.mod_mul. }
  exists m'; split.
  - rewrite wrap_small by (unfold in_range, PHY_MEM_START_CACHED; lia).
    replace (PHY_MEM_START_CACHED + q * 4096 + 4096) with (PHY_MEM_START_CACHED + (q * 4096 + Z.of_nat 16 * 256)) by lia; exact E.
  - intros w; rewrite Hm; assert (q * 4096 / 16 = q * 256) as -> by (symmetry; apply Z.div_unique with 0; lia).
    unfold page_of; pose proof (Z.div_mod w 256 ltac:(lia)); pose proof (Z.mod_pos_bound w 256 ltac:(lia)).
    repeat case_decide; try done; exfalso; lia.
Qed.

(** A call that gives the page back leaves the book as it was. *)
Lemma unlock_book b F q st x : book_ok b F -> status (ent b q) = st -> book_ok (upd (upd b q (set_status x)) q (set_status st)) F.
Proof. intros Hb Hst; eapply book_ok_same; [|done]; intros j; by apply lock_unlock. Qed.

Lemma relock_book b A l st B x st' : laid b (A ++ (l, st) :: B) -> last (flat (A ++ (l, st) :: B)) <> Some page_nano_owned ->
  0 <= st' < top_status -> st' <> page_nano_owned ->
  book_ok (upd (upd b (pos 0 A) (set_status x)) (pos 0 A) (set_status st')) (set_range (flat (A ++ (l, st) :: B)) (pos 0 A) l st').
Proof.
  intros HL Hn Hst Hne; eapply restatus_book; [done..|]; intros j; rewrite !ent_upd; repeat case_decide; subst; done.
Qed.

Definition table_result (top : Z) (T : gmap Z Z) (F : list Z) (r : option (phys * option ptable_t)) : Prop :=
  exists s h T' F', r = Some (s, h) /\ phys_ok s F' /\ tables_ok top T' F' (memory s) /\ keeps F F' /\
    T ⊆ T' /\ Forall (handle_ok T') (option_list h).

(** Pages that are neither tables nor mapped may be written. *)
Lemma clean_write F m m' q st : clean F m -> stat F q st -> st <> page_unused -> (forall w, page_of w <> q -> m' !! w = m !! w) -> clean F m'.
Proof.
  intros Hc [_ Hs] Hn Hm w Hw H0; destruct (decide (page_of w = q)) as [<-|D]; [congruence|]; rewrite Hm by done; by apply Hc.
Qed.

Lemma tables_write top T F m m' q : tables_ok top T F m -> T !! q = None -> (forall w, page_of w <> q -> m' !! w = m !! w) -> tables_ok top T F m'.
Proof.
  intros HT Hq Hm; eapply tables_frame; [done|apply keeps_stat, keeps_same|]; intros p l i Hp Hi; apply pte_frame; [by eapply HT|done|].
  intros w Hw; apply Hm; rewrite Hw; congruence.
Qed.

Lemma not_table top T F m q st : tables_ok top T F m -> stat F q st -> st <> page_nano_owned -> st <> page_ptable -> T !! q = None.
Proof.
  intros HT Hs H1 H2; destruct (T !! q) as [l|] eqn:E; [|done]; exfalso.
  destruct (t_range _ _ _ _ HT _ _ E) as (_ & _ & [[_ H]|H]); pose proof (stat_fun _ _ _ _ Hs H); done.
Qed.

Lemma table_used top F p : table_page top F p -> exists st, stat F p st /\ st <> page_unused.
Proof. intros [[_ H]|H]; eauto. Qed.

(** The last part of [create_table]: page [q] is a free chunk of one page and
    holds zeros in [m1].  The store succeeds. *)
Lemma table_done top b m m1 T F A st B p l i x : let q := pos 0 A in let F' := set_range F q 1 page_ptable in
  laid b (A ++ (1, st) :: B) -> F = flat (A ++ (1, st) :: B) -> last F <> Some page_nano_owned -> clean F m -> tables_ok top T F m ->
  st = page_unused \/ st = page_ptable_free -> (forall w, m1 !! w = if decide (page_of w = q) then None else m !! w) ->
  T !! p = Some l -> l < 2 -> 0 <= i < 512 -> status (ent b q) = st -> pte m1 p i = 0 ->
  phys_ok (mk_phys (upd (upd b q (set_status x)) q (set_status page_ptable)) (tstore m1 (ent_addr p i) (sub_entry q))) F' /\
  tables_ok top (<[q := l + 1]> T) F' (tstore m1 (ent_addr p i) (sub_entry q)) /\ keeps F F' /\ T !! q = None /\ 0 <= q < TOTAL_PHY_PAGES.
Proof.
  intros q F' HL -> Hn Hc HT Hst Hm Hp Hl Hi Hs Dz; set (F := flat _) in *.
  pose proof (chunk_bounds _ _ _ _ _ HL eq_refl) as (H0 & _ & Ht & _); cbn in Ht; fold q in H0, Ht.
  pose proof (flat_length_laid _ _ HL) as HLen; fold F in HLen.
  assert (forall p, q <= p < q + 1 -> F !! Z.to_nat p = Some st) as HF by (intros; by eapply flat_range_get).
  assert (stat F q st) as HsF by (split; [done|apply HF; lia]).
  assert (T !! q = None) as HTq by (eapply not_table; [done|done|..]; destruct Hst as [-> | ->]; done).
  pose proof (t_range _ _ _ _ HT _ _ Hp) as (Hpr & _); assert (p <> q) as Hpq by (intros ->; congruence).
  assert (forall p' l' j, T !! p' = Some l' -> 0 <= j < 512 -> pte m1 p' j = pte m p' j) as Hold.
  { intros p' l' j Hp' Hj; apply pte_frame; [by eapply HT|done|]; intros w Hw; rewrite Hm, decide_False; [done|]; congruence. }
  assert (tables_ok top T F m1) as HT1 by (eapply tables_frame; [done|apply keeps_stat, keeps_same|done]).
  assert (keeps F F') as HK.
  { eapply keeps_set_range; [lia..|done|]; left; unfold movable; destruct Hst as [-> | ->]; tauto. }
  split_and!; [split| |done|done|lia|lia]; cbn [memory the_book].
  - apply relock_book; done.
  - destruct (table_used top F' p) as (sp & Hsp & Hnp).
    { eapply table_page_keep; [by apply keeps_stat|]; by destruct (t_range _ _ _ _ HT _ _ Hp) as (_ & _ & ?). }
    eapply (clean_write _ m1 _ p); [|done|done|intros w Hw; by apply tstore_page].
    eapply (clean_write _ m m1 q); [|apply stat_set_range; lia|done|].
    + eapply (clean_range F m); [lia..|done|]; intros w; by case_decide.
    + intros w Hw; by rewrite Hm, decide_False.
  - eapply (table_added top T F _ m1 _ p l i q st); [done| |done|done|done| |lia|by apply keeps_stat|apply stat_set_range; lia| |].
    + split_and!; [done|lia|lia|]; intros [-> Hg]; pose proof (t_giga _ _ _ _ HT1 i ltac:(lia)) as E; by rewrite Dz in E.
    + intros [->|Hr]; destruct Hst as [?|?]; try done; subst st; by vm_compute in Hr.
    + intros p' l' j Hp' Hj; apply pte_tstore; [done|done|by eapply HT|done|]; pose proof (sub_range q ltac:(lia)); lia.
    + intros j Hj; rewrite pte_tstore by (lia || pose proof (sub_range q ltac:(lia)); lia).
      rewrite decide_False by (intros [-> _]; done); apply pte_clear; [lia|done|]; intros w Hw; by rewrite Hm, decide_True.
Qed.

Lemma table_commit top sc b m m1 T F A st B p l i x : let q := pos 0 A in
  laid b (A ++ (1, st) :: B) -> F = flat (A ++ (1, st) :: B) -> last F <> Some page_nano_owned -> clean F m -> tables_ok top T F m ->
  st = page_unused \/ st = page_ptable_free -> (forall w, m1 !! w = if decide (page_of w = q) then None else m !! w) ->
  T !! p = Some l -> l < 2 -> 0 <= i < 512 -> true ∈ sc -> status (ent b q) = st ->
  table_result top T F
    ('(m2, ok) ← cas sc m1 (ent_addr p i) (sub_entry q);
     if negb ok then b' ← bput (upd b q (set_status x)) q (set_status st); Some (mk_phys b' m2, None)
     else b' ← bput (upd b q (set_status x)) q (set_status page_ptable);
          Some (mk_phys b' m2, Some (mk_ptable (PHY_MEM_START_CACHED + q * PHY_PAGE_SIZE) (l + 1)))).
Proof.
  intros q HL -> Hn Hc HT Hst Hm Hp Hl Hi Hsc Hs; set (F := flat _) in *.
  pose proof (chunk_bounds _ _ _ _ _ HL eq_refl) as (H0 & _ & Ht & _); cbn in Ht; fold q in H0, Ht.
  pose proof (t_range _ _ _ _ HT _ _ Hp) as (Hpr & _).
  rewrite cas_spec by done; case_decide as Dz; cbn [mbind option_bind negb]; rewrite bput_in by lia; cbn [mbind option_bind].
  - destruct (table_done top b m m1 T F A st B p l i x) as (HP & HT' & HK & HTq & _); [done..|].
    eexists _, _, (<[q := l + 1]> T), (set_range F q 1 page_ptable); split; [reflexivity|]; split_and!; [done..|by apply insert_subseteq|].
    apply Forall_singleton; exists q; cbn; by rewrite lookup_insert_eq.
  - assert (T !! q = None) as HTq.
    { eapply (not_table top T F m q st); [done|split; [done|eapply flat_range_get; [done|cbn; lia]]|..]; destruct Hst as [-> | ->]; done. }
    eexists _, _, T, F; split; [reflexivity|]; cbn [memory the_book]; split_and!; [split| |apply keeps_same|done|done].
    + cbn; apply unlock_book; [by exists (A ++ (1, st) :: B)|done].
    + cbn; intros w Hw H0w; rewrite Hm; case_decide; [done|by apply Hc].
    + eapply tables_write; [done|exact HTq|intros w Hw; by rewrite Hm, decide_False].
Qed.

Lemma table_refused top s T F : phys_ok s F -> tables_ok top T F (memory s) -> table_result top T F (Some (s, None)).
Proof. intros HP HT; exists s, None, T, F; split_and!; try done; apply keeps_same. Qed.

Lemma table_undone top b m T F q x st : book_ok b F -> clean F m -> tables_ok top T F m -> 0 <= q < TOTAL_PHY_PAGES -> status (ent b q) = st ->
  table_result top T F (b' ← bput (upd b q (set_status x)) q (set_status st); Some (mk_phys b' m, None)).
Proof.
  intros Hb Hc HT Hq Hs; rewrite bput_in by lia; cbn [mbind option_bind]; apply table_refused; [|done].
  split; [by apply unlock_book|done].
Qed.

Lemma create_table_ok top sc s T F page_n h i : phys_ok s F -> tables_ok top T F (memory s) -> handle_ok T h ->
  true ∈ sc -> 0 <= page_n < 2 ^ 64 -> 0 <= i < 2 ^ 64 -> table_result top T F (create_table sc s page_n h i).
Proof.
  intros HP HT (p & Ea & Hp) Hsc Hq Hi; pose proof HP as [Hb Hc]; unfold create_table, PAGE_TABLE_ENT_PER_TABLE.
  destruct (t_range _ _ _ _ HT _ _ Hp) as (Hpr & Hlr & _).
  destruct ((level h =? 0) || (level h =? 1)) eqn:El; cbn [negb]; [|by apply table_refused].
  destruct (i <? 512) eqn:Ei; cbn [negb]; [apply Z.ltb_lt in Ei|by apply table_refused].
  destruct (TOTAL_PHY_PAGES <=? page_n) eqn:Eq; [by apply table_refused|apply Z.leb_gt in Eq].
  rewrite page_addr, sub_make, Ea, index_addr, lock_entry_in by lia; cbn [mbind option_bind].
  assert (level h < 2) as Hl by (apply orb_true_iff in El as [E|E]; apply Z.eqb_eq in E; lia).
  destruct s as [b m]; cbn [the_book memory] in *; destruct Hb as (cs & HL & <- & Hn).
  assert (book_ok b (flat cs)) as Hb by (by exists cs).
  destruct (page_cases _ _ _ HL ltac:(split; [apply Hq|apply Eq])) as [(A & [l st] & B & -> & <-)|[E1 E2]].
  2:{ rewrite E2; cbn [Z.eqb negb andb]; change (page_unused =? page_unused) with true; cbn [negb andb mbind option_bind].
      rewrite bget_in by lia; cbn [mbind option_bind]; rewrite ent_upd_eq; cbn [len set_status]; rewrite E1; cbn [Z.eqb negb].
      apply table_undone; try done; lia. }
  pose proof (chunk_bounds _ _ _ _ _ HL eq_refl) as (H0 & Hl1 & Ht & Hst & E1 & E2 & _); cbn [fst snd] in *; rewrite E1.
  destruct (decide (st = page_unused \/ st = page_ptable_free)) as [Hf|Hf].
  2:{ rewrite !(proj2 (Z.eqb_neq st _)) by tauto; cbn [negb andb]; apply table_undone; try done; lia. }
  assert (negb (st =? page_unused) && negb (st =? page_ptable_free) = false) as -> by (destruct Hf as [-> | ->]; done).
  assert (exists m1, (if st =? page_unused then Some m else do_zero_page 16 m (PHY_MEM_START_CACHED + pos 0 A * PHY_PAGE_SIZE)
      (u64 (PHY_MEM_START_CACHED + pos 0 A * PHY_PAGE_SIZE + PHY_PAGE_SIZE))) = Some m1 /\
      forall w, m1 !! w = if decide (page_of w = pos 0 A) then None else m !! w) as (m1 & -> & Hm).
  { destruct Hf as [-> | ->]; [|by apply zero_one]; exists m; split; [done|]; intros w; case_decide as D; [|done].
    apply Hc; rewrite D; [|lia]; eapply flat_range_get; [done|lia]. }
  cbn [mbind option_bind]; rewrite bget_in by lia; cbn [mbind option_bind]; rewrite ent_upd_eq; cbn [len set_status]; rewrite E2.
  destruct (l =? 1) eqn:E; cbn [negb].
  - apply Z.eqb_eq in E; clear E2; subst l; eapply (table_commit top sc b m m1 T _ A st B p (level h) i); try done; lia.
  - assert (stat (flat (A ++ (l, st) :: B)) (pos 0 A) st) as Hs by (split; [done|eapply flat_range_get; [done|lia]]).
    apply table_undone; [done| | |lia|done].
    + intros w Hw H0w; rewrite Hm; case_decide; [done|by apply Hc].
    + eapply tables_write; [done| |intros w Hw; by rewrite Hm, decide_False].
      eapply not_table; [done|done|..]; destruct Hf as [-> | ->]; done.
Qed.

(** ** Mappings *)

Section Mapping.

Context (top : Z) (sc : Z -> list bool) (T : gmap Z Z) (F : list Z) (p f : Z).
Context (Hsc : forall k, true ∈ sc k) (Hp : T !! p = Some 2) (Hf : 0 <= f).

Lemma leaf_slot m i : tables_ok top T F m -> 0 <= i < 512 -> tslot top T p 2 i.
Proof. intros H Hi; split_and!; [done|lia|lia|]; intros [-> _]; rewrite (t_top _ _ _ _ H) in Hp; done. Qed.

Lemma leaf_stored m i q st : tables_ok top T F m -> 0 <= i < 512 -> 0 <= q < TOTAL_PHY_PAGES -> untargeted top T m q -> stat F q st -> reach st ->
  let m' := tstore m (ent_addr p i) (leaf_entry f q) in
  tables_ok top T F m' /\ (forall j, 0 <= j < 512 -> pte m' p j = if decide (i = j) then leaf_entry f q else pte m p j) /\
  (forall w, page_of w <> p -> m' !! w = m !! w) /\ (forall x, x <> q -> untargeted top T m x -> untargeted top T m' x).
Proof.
  intros H Hi Hq Hu Hst Hr m'; destruct (t_range _ _ _ _ H _ _ Hp) as (Hpr & _).
  assert (forall p' l' j, T !! p' = Some l' -> 0 <= j < 512 -> pte m' p' j = if decide (p = p' /\ i = j) then leaf_entry f q else pte m p' j) as Hm.
  { intros p' l' j Hp' Hj; apply pte_tstore; [done|done|by eapply H|done|]; pose proof (leaf_range f q Hf ltac:(lia)); lia. }
  split_and!.
  - eapply leaf_added; try done; by eapply leaf_slot.
  - intros j Hj; rewrite (Hm _ 2) by done; do 2 case_decide; tauto || done.
  - intros w Hw; by apply tstore_page.
  - intros x Hx Hux p' l' j Hs; rewrite (Hm _ l') by apply Hs; case_decide; [|by apply (Hux _ l')].
    intros _; rewrite pfn_leaf by done; congruence.
Qed.

Lemma set_mapping_ok n : forall m i q, tables_ok top T F m -> 0 <= i <= 512 -> 0 <= q -> q + Z.of_nat n <= TOTAL_PHY_PAGES ->
  (forall x, q <= x < q + Z.of_nat n -> untargeted top T m x /\ exists st, stat F x st /\ reach st) ->
  exists m' r, set_mapping_loop sc n m (PHY_MEM_START_CACHED + p * PHY_PAGE_SIZE) i (leaf_entry f q) = Some (m', r) /\
    tables_ok top T F m' /\ (forall w, page_of w <> p -> m' !! w = m !! w) /\
    (forall j, 0 <= j < 512 -> ~ i <= j < i + Z.of_nat n -> pte m' p j = pte m p j) /\
    (r = Some true <-> i + Z.of_nat n <= 512 /\ forall k, i <= k < i + Z.of_nat n -> pte m p k = 0) /\
    (r = Some true -> forall k, 0 <= k < Z.of_nat n -> pte m' p (i + k) = leaf_entry f (q + k)).
Proof.
  induction n as [|n IH]; intros m i q H Hi Hq Hle Hx; cbn [set_mapping_loop].
  { exists m, (Some true); split_and!; try done; [split; [split; [lia|]|done]|]; intros; lia. }
  unfold PAGE_TABLE_ENT_PER_TABLE; destruct (512 <=? i) eqn:E; [apply Z.leb_le in E|apply Z.leb_gt in E].
  { exists m, None; split_and!; try done; split; [done|lia]. }
  destruct (t_range _ _ _ _ H _ _ Hp) as (Hpr & _); rewrite index_addr, cas_spec by (done || lia); case_decide as D; cbn [mbind option_bind negb].
  2:{ exists m, (Some false); split_and!; try done; split; [done|]; intros [_ Hz]; destruct D; apply Hz; lia. }
  destruct (Hx q ltac:(lia)) as (Hu & st & Hst & Hr).
  destruct (leaf_stored m i q st H ltac:(lia) ltac:(lia) Hu Hst Hr) as (H1 & Hj & Hw & Hun); rewrite leaf_step by lia.
  destruct (IH _ (i + 1) (q + 1) H1 ltac:(lia) ltac:(lia) ltac:(lia)) as (m' & r & -> & H' & Hw' & Hlo & Hiff & Hset).
  { intros x Hxx; destruct (Hx x ltac:(lia)) as [Hux ?]; split; [apply Hun; [lia|done]|done]. }
  exists m', r; split_and!; try done.
  - intros w Hpw; by rewrite Hw', Hw.
  - intros j Hj0 Hjj; rewrite Hlo, Hj, decide_False by lia; done.
  - rewrite Hiff; split; intros [Hb Hz]; split; try lia; intros k Hk.
    + destruct (decide (i = k)) as [->|]; [done|]; rewrite <- (Hz k) by lia; rewrite Hj, decide_False by lia; done.
    + rewrite Hj, decide_False by lia; apply Hz; lia.
  - intros Er k Hk; destruct (decide (k = 0)) as [->|].
    + rewrite !Z.add_0_r, Hlo, Hj, decide_True by (done || lia); done.
    + replace (i + k) with (i + 1 + (k - 1)) by lia; rewrite Hset by (done || lia); f_equal; lia.
Qed.

End Mapping.

(** When a mapping is made: the pages are one unused chunk of the length of
    the range, the range is in the table and its entries are empty. *)
Definition can_map (s : phys) (page_n p i j : Z) : Prop :=
  i <> j /\ i < 512 /\ page_n < TOTAL_PHY_PAGES /\ status (ent (the_book s) page_n) = page_unused /\
  u64 (j - i) = len (ent (the_book s) page_n) /\ i + u64 (j - i) <= 512 /\ forall k, i <= k < i + u64 (j - i) -> pte (memory s) p k = 0.

Definition map_result (top : Z) (T : gmap Z Z) (F : list Z) (s : phys) (page_n p i j flags : Z) (res : option (phys * map_end)) : Prop :=
  exists s' r F', res = Some (s', r) /\ phys_ok s' F' /\ tables_ok top T F' (memory s') /\ keeps F F' /\
    (forall w, page_of w <> p -> memory s' !! w = memory s !! w) /\
    (forall k, 0 <= k < 512 -> ~ i <= k < i + u64 (j - i) -> pte (memory s') p k = pte (memory s) p k) /\
    (r = Mapped <-> can_map s page_n p i j) /\
    (r = Mapped -> forall k, 0 <= k < u64 (j - i) -> pte (memory s') p (i + k) = leaf_entry flags (page_n + k)).

Lemma map_refused top s T F page_n p i j flags : phys_ok s F -> tables_ok top T F (memory s) -> ~ can_map s page_n p i j ->
  map_result top T F s page_n p i j flags (Some (s, NotMapped)).
Proof. intros HP HT Hc; exists s, NotMapped, F; split_and!; try done; apply keeps_same. Qed.

Lemma map_undone top b m T F q x st p i j flags : book_ok b F -> clean F m -> tables_ok top T F m -> 0 <= q < TOTAL_PHY_PAGES -> status (ent b q) = st ->
  ~ can_map (mk_phys b m) q p i j ->
  map_result top T F (mk_phys b m) q p i j flags (b' ← bput (upd b q (set_status x)) q (set_status st); Some (mk_phys b' m, NotMapped)).
Proof.
  intros Hb Hc HT Hq Hs Hn; rewrite bput_in by lia; cbn [mbind option_bind]; eexists _, NotMapped, F; split; [reflexivity|].
  split_and!; try done; [|apply keeps_same]; split; [by apply unlock_book|done].
Qed.

Lemma stat_set_range_inv F i l st p s : 0 <= i -> 0 < l -> i + l <= Z.of_nat (length F) -> stat (set_range F i l st) p s ->
  i <= p < i + l /\ s = st \/ ~ i <= p < i + l /\ stat F p s.
Proof.
  intros Hi Hl Hle [H0 H]; rewrite set_range_lookup, Z2Nat.id in H by done; case_decide; simplify_eq; [by left|by right].
Qed.

(** Mapped pages may be given another such status. *)
Lemma tables_restat top T F m q l st : 0 <= q -> 0 < l -> q + l <= Z.of_nat (length F) -> reach st ->
  tables_ok top T (set_range F q l page_mapped) m -> tables_ok top T (set_range F q l st) m.
Proof.
  intros Hq Hl Hle Hr HT; eapply tables_frame; [done| |done]; intros p s Hs.
  destruct (stat_set_range_inv _ _ _ _ _ _ Hq Hl Hle Hs) as [[Hp ->]|[Hp Hs']]; split.
  - intros [[_ E]|E]; done.
  - intros _; exists st; split; [by apply stat_set_range|done].
  - intros _; split; [apply Hs'|]; rewrite set_range_lookup, Z2Nat.id, decide_False by (done || apply Hs'); apply Hs'.
  - intros Hrs; exists s; split; [|done]; split; [apply Hs'|]; rewrite set_range_lookup, Z2Nat.id, decide_False by (done || apply Hs'); apply Hs'.
Qed.

Section Commit.

Context (top : Z) (sc : Z -> list bool) (b : book_t) (m : mem_t) (T : gmap Z Z) (A : list chunk) (l : Z) (B : list chunk) (p i j flags : Z).
Abbreviation q := (pos 0 A).
Abbreviation F := (flat (A ++ (l, page_unused) :: B)).
Context (HL : laid b (A ++ (l, page_unused) :: B)) (Hn : last F <> Some page_nano_owned) (Hc : clean F m) (HT : tables_ok top T F m).
Context (Hsc : forall k, true ∈ sc k) (Hp : T !! p = Some 2) (Hi : 0 <= i < 512) (Hf : 0 <= flags) (Hij : i <> j) (Hl : u64 (j - i) = l).

Lemma commit_bounds : 0 <= q /\ 0 < l /\ q + l <= TOTAL_PHY_PAGES /\ Z.of_nat (length F) = TOTAL_PHY_PAGES /\
  forall x, q <= x < q + l -> F !! Z.to_nat x = Some page_unused.
Proof.
  pose proof (chunk_bounds _ _ _ _ _ HL eq_refl) as (H0 & Hl1 & Ht & _); cbn [fst snd] in *.
  split_and!; [done|done|done|by eapply flat_length_laid|]; intros; by eapply flat_range_get.
Qed.

Lemma commit_keeps st : keeps F (set_range F q l st).
Proof. destruct commit_bounds as (? & ? & ? & HLen & HF); eapply keeps_set_range; [lia..|exact HF|]; left; by left. Qed.

Lemma commit_loop : exists m' r,
  set_mapping_loop sc (Z.to_nat l) m (PHY_MEM_START_CACHED + p * PHY_PAGE_SIZE) i (leaf_entry flags q) = Some (m', r) /\
  tables_ok top T (set_range F q l page_mapped) m' /\ (forall w, page_of w <> p -> m' !! w = m !! w) /\
  (forall k, 0 <= k < 512 -> ~ i <= k < i + l -> pte m' p k = pte m p k) /\
  (r = Some true <-> can_map (mk_phys b m) q p i j) /\ (r = Some true -> forall k, 0 <= k < l -> pte m' p (i + k) = leaf_entry flags (q + k)).
Proof.
  destruct commit_bounds as (H0 & Hl1 & Ht & HLen & HF); pose proof (chunk_bounds _ _ _ _ _ HL eq_refl) as (_ & _ & _ & _ & E1 & E2 & _); cbn in E1, E2.
  assert (tables_ok top T (set_range F q l page_mapped) m) as HT1 by (eapply tables_frame; [exact HT|apply keeps_stat, commit_keeps|done]).
  destruct (set_mapping_ok top sc T _ p flags Hsc Hp Hf (Z.to_nat l) m i q HT1) as (m' & r & E & HT' & Hw & Ho & Hiff & Hset); [lia|lia|lia| |].
  { rewrite Z2Nat.id by lia; intros x Hx; assert (stat F x page_unused) as Hs by (split; [lia|by apply HF]); split.
    - eapply free_untargeted; [exact HT|eapply not_table; [exact HT|exact Hs|done|done]|done|]; intros [|Hr]; [done|by vm_compute in Hr].
    - exists page_mapped; split; [apply stat_set_range; lia|by left]. }
  rewrite Z2Nat.id in * by lia; exists m', r; split_and!; try done; rewrite Hiff; unfold can_map; cbn [the_book memory]; rewrite E1, E2, Hl.
  split; [intros [? ?]; split_and!; try done; lia|tauto].
Qed.

Lemma commit_clean m' st : st <> page_unused -> (forall w, page_of w <> p -> m' !! w = m !! w) -> clean (set_range F q l st) m'.
Proof.
  intros Hst Hw; destruct commit_bounds as (H0 & Hl1 & Ht & HLen & HF); destruct (table_used top (set_range F q l st) p) as (sp & Hsp & Hnp).
  { eapply table_page_keep; [apply keeps_stat, commit_keeps|]; by destruct (t_range _ _ _ _ HT _ _ Hp) as (_ & _ & ?). }
  eapply (clean_write _ m _ p); [|done|done|done]; eapply (clean_range F m); [lia..|done|]; intros w; case_decide; [by rewrite decide_False|done].
Qed.

(** The end of the call, with the status the chunk is left with. *)
Lemma map_commit : map_result top T F (mk_phys b m) q p i j flags
  ('(m', r) ← set_mapping_loop sc (Z.to_nat l) m (PHY_MEM_START_CACHED + p * PHY_PAGE_SIZE) i (leaf_entry flags q);
   match r with
   | None => Some (mk_phys (upd b q (set_status page_transaction)) m', Wedged)
   | Some false => b' ← bput (upd b q (set_status page_transaction)) q (set_status page_screwed_the_pooch); Some (mk_phys b' m', Wedged)
   | Some true => b' ← bput (upd b q (set_status page_transaction)) q (set_status page_mapped); Some (mk_phys b' m', Mapped)
   end).
Proof.
  destruct commit_bounds as (H0 & Hl1 & Ht & HLen & _); destruct commit_loop as (m' & r & -> & HT' & Hw & Hother & Hiff & Hset); cbn [mbind option_bind].
  assert (forall st b' o, reach st -> 0 <= st < top_status -> (forall x, ent b' x = if decide (q = x) then set_status st (ent b x) else ent b x) ->
    (o = Mapped <-> r = Some true) -> map_result top T F (mk_phys b m) q p i j flags (Some (mk_phys b' m', o))) as Hend.
  { intros st b' o Hr Hst Hb Ho; exists (mk_phys b' m'), o, (set_range F q l st); cbn [memory the_book]; split_and!; try done.
    - split; [|apply commit_clean; [|done]; destruct Hr as [->|Hr]; [done|by intros ->]]; eapply restatus_book; try done; destruct Hr as [->|Hr]; [done|by intros ->].
    - apply tables_restat; [lia..|done|done].
    - apply commit_keeps.
    - by rewrite Hl.
    - by rewrite Ho.
    - rewrite Ho, Hl; done. }
  destruct r as [[]|]; rewrite ?bput_in by lia; cbn [mbind option_bind].
  - apply (Hend page_mapped); [by left|done|intros x; rewrite !ent_upd; repeat case_decide; by subst|done].
  - apply (Hend page_screwed_the_pooch); [by right|done|intros x; rewrite !ent_upd; repeat case_decide; by subst|done].
  - apply (Hend page_transaction); [by right|done|intros x; rewrite !ent_upd; repeat case_decide; by subst|done].
Qed.

End Commit.

Lemma create_mapping_ok top sc s T F page_n h p i j flags : phys_ok s F -> tables_ok top T F (memory s) ->
  taddr h = PHY_MEM_START_CACHED + p * PHY_PAGE_SIZE -> T !! p = Some (level h) -> level h = 2 ->
  (forall k, true ∈ sc k) -> 0 <= page_n < 2 ^ 64 -> 0 <= i < 2 ^ 64 -> 0 <= j < 2 ^ 64 -> 0 <= flags < 2 ^ 64 ->
  map_result top T F s page_n p i j flags (create_mapping sc s page_n h i j flags).
Proof.
  intros HP HT Ea Hp Hl2 Hsc Hq Hi Hj Hfl; pose proof HP as [Hb Hc]; unfold create_mapping, PAGE_TABLE_ENT_PER_TABLE; rewrite Hl2 in *.
  change (2 =? 2) with true; cbn [negb].
  destruct (i =? j) eqn:Eij; [apply Z.eqb_eq in Eij; apply map_refused; [done|done|by intros [? _]]|apply Z.eqb_neq in Eij].
  destruct (i <? 512) eqn:Ei; cbn [negb]; [apply Z.ltb_lt in Ei|apply Z.ltb_ge in Ei; apply map_refused; [done|done|intros (_ & ? & _); lia]].
  destruct (TOTAL_PHY_PAGES <=? page_n) eqn:Eq; [apply Z.leb_le in Eq; apply map_refused; [done|done|intros (_ & _ & ? & _); lia]|apply Z.leb_gt in Eq].
  rewrite leaf_make, Ea, lock_entry_in by lia; cbn [mbind option_bind].
  destruct s as [b m]; cbn [the_book memory] in *; destruct Hb as (cs & HL & <- & Hn).
  assert (book_ok b (flat cs)) as Hb by (by exists cs).
  assert (0 < u64 (j - i)) as Hpos.
  { pose proof (Z.mod_pos_bound (j - i) (2 ^ 64) ltac:(lia)); destruct (decide (u64 (j - i) = 0)) as [E|]; [|unfold wrap in *; lia].
    apply Z.mod_divide in E as [k Hk]; [|lia]; exfalso; destruct (Z.lt_trichotomy k 0) as [|[->|]]; lia. }
  destruct (page_cases _ _ _ HL ltac:(split; [apply Hq|apply Eq])) as [(A & [l st] & B & -> & <-)|[E1 E2]].
  2:{ rewrite E2; change (page_unused =? page_unused) with true; cbn [negb]; rewrite bget_in by lia; cbn [mbind option_bind].
      rewrite ent_upd_eq; cbn [len set_status]; rewrite E1, (proj2 (Z.eqb_neq _ _)) by lia; cbn [negb].
      apply map_undone; [done|done|done|lia|done|]; intros (_ & _ & _ & _ & E & _); cbn [the_book] in E; lia. }
  pose proof (chunk_bounds _ _ _ _ _ HL eq_refl) as (H0 & Hl1 & Ht & Hst & E1 & E2 & _); cbn [fst snd] in *; rewrite E1.
  destruct (st =? page_unused) eqn:Es; cbn [negb].
  2:{ apply map_undone; [done|done|done|lia|done|]; intros (_ & _ & _ & E & _); cbn [the_book] in E; apply Z.eqb_neq in Es; congruence. }
  apply Z.eqb_eq in Es; assert (status (ent b (pos 0 A)) = page_unused) as E1' by congruence; clear E1; subst st; rewrite bget_in by lia; cbn [mbind option_bind]; rewrite ent_upd_eq; cbn [len set_status].
  rewrite E2; destruct (u64 (j - i) =? l) eqn:El; cbn [negb]; [apply Z.eqb_eq in El|apply Z.eqb_neq in El].
  2:{ apply map_undone; [done|done|done|lia|done|]; intros (_ & _ & _ & _ & E & _); cbn [the_book] in E; congruence. }
  eapply map_commit; try done; lia.
Qed.

(** The handle of a sub-table names the page of the entry. *)
Lemma sub_table_page top T F m h i h' p : tables_ok top T F m -> taddr h = PHY_MEM_START_CACHED + p * PHY_PAGE_SIZE -> T !! p = Some (level h) ->
  0 <= i < 2 ^ 64 -> get_sub_table m h i = Some h' ->
  exists q, 0 <= i < 512 /\ level h < 2 /\ tslot top T p (level h) i /\ pte m p i = sub_entry q /\ T !! q = Some (level h') /\
    taddr h' = PHY_MEM_START_CACHED + q * PHY_PAGE_SIZE /\ level h' = level h + 1.
Proof.
  intros HT Ea Hp Hi; destruct (t_range _ _ _ _ HT _ _ Hp) as (Hpr & Hl & _); unfold get_sub_table, PAGE_TABLE_ENT_PER_TABLE.
  rewrite wrap_small by (unfold in_range; lia); change (VTABLE_LEVELS - 1) with 2; destruct (2 <=? level h) eqn:El; [done|apply Z.leb_gt in El].
  destruct (512 <=? i) eqn:Ei; [done|apply Z.leb_gt in Ei]; rewrite Ea, index_addr by lia; change (tload m (ent_addr p i)) with (pte m p i).
  destruct (pte m p i =? 0) eqn:E0; [done|apply Z.eqb_neq in E0]; destruct (decide (p = top /\ 384 <= i)) as [[-> Hg]|Hg].
  { pose proof (t_giga _ _ _ _ HT i ltac:(lia)) as E; change RISCV_PTE_TYPE_MASK with 15; rewrite E; done. }
  assert (tslot top T p (level h) i) as Hs by (split_and!; done || lia).
  destruct (entry_target _ _ _ _ _ _ _ HT Hs E0) as (Hq & [(_ & HTq & E)|[? _]]); [|lia].
  set (q := pte_pfn _) in *; rewrite E; destruct (sub_entry_fields q Hq) as (_ & _ & _ & -> & ->); rewrite Z.eqb_refl; cbn [negb].
  intros [= <-]; exists q; cbn [taddr level]; split_and!; try done; try lia.
  rewrite total_val in Hq; unfold PHY_PAGE_SIZE_BITS, PHY_PAGE_SIZE; rewrite Z.shiftl_mul_pow2, Z.shiftr_div_pow2 by lia.
  rewrite (wrap_small 64 (q * _)) by (unfold in_range; lia); change (64 - 3 * 9) with 37; change (2 ^ (37 - 12)) with (2 ^ 25).
  replace (q * 2 ^ 37) with (q * 4096 * 2 ^ 25) by lia; rewrite Z.div_mul by lia.
  rewrite wrap_small by (unfold in_range, PHY_MEM_START_CACHED; lia); lia.
Qed.

Lemma sub_table_ok top T F m h i : tables_ok top T F m -> handle_ok T h -> 0 <= i < 2 ^ 64 -> Forall (handle_ok T) (option_list (get_sub_table m h i)).
Proof.
  intros HT (p & Ea & Hp) Hi; destruct (get_sub_table m h i) as [h'|] eqn:E; [|done]; apply Forall_singleton.
  destruct (sub_table_page _ _ _ _ _ _ _ _ HT Ea Hp Hi E) as (q & _ & _ & _ & _ & ? & ? & _); by exists q.
Qed.

(** ** Translation *)

Section Walk.

Context (top : Z) (T : gmap Z Z) (F : list Z) (m : mem_t) (HT : tables_ok top T F m).

Lemma vpn_range va l : 0 <= vpn va l < 512.
Proof. apply Z.mod_pos_bound; lia. Qed.

Lemma vpn_low va : 0 <= va < 2 ^ 38 -> vpn va 0 < 256.
Proof.
  intros Hva; unfold vpn; change (2 ^ (30 - 9 * 0)) with (2 ^ 30).
  assert (0 <= va / 2 ^ 30 < 256) by (split; [apply Z.div_pos|apply Z.div_lt_upper_bound]; lia); rewrite Z.mod_small; lia.
Qed.

Lemma walk_slot p l va : 0 <= va < 2 ^ 38 -> T !! p = Some l -> tslot top T p l (vpn va l).
Proof.
  intros Hva Hp; pose proof (vpn_range va l); split_and!; [done|lia|lia|]; intros [-> Hg].
  rewrite (t_top _ _ _ _ HT) in Hp; simplify_eq; pose proof (vpn_low va Hva); lia.
Qed.

(** The walk reads tables only, and ends at the last level. *)
Lemma walk_tables n : forall p l va, 0 <= va < 2 ^ 38 -> T !! p = Some l -> l + Z.of_nat n = 2 ->
  Forall (fun x => is_Some (T !! x)) (walk_table n m p va l).1 /\
  (forall e l', (walk_table n m p va l).2 = Some (e, l') -> l' = 2 /\ exists p', T !! p' = Some 2 /\ e = pte m p' (vpn va 2) /\ e <> 0).
Proof.
  induction n as [|n IH]; intros p l va Hva Hp Hl; cbn [walk_table]; pose proof (walk_slot p l va Hva Hp) as Hs.
  - assert (l = 2) as -> by lia.
    destruct (pte_valid _) eqn:Ev; cbn [negb]; [|split; [apply Forall_singleton; eauto|done]].
    destruct (pte_leaf _); (split; [apply Forall_singleton; eauto|]); cbn; [|done].
    intros e l' [= <- <-]; split; [done|]; exists p; split_and!; try done; intros E; by rewrite E in Ev.
  - destruct (pte_valid _) eqn:Ev; cbn [negb]; [|split; [apply Forall_singleton; eauto|done]].
    assert (pte m p (vpn va l) <> 0) as Hn by (intros E; by rewrite E in Ev).
    destruct (entry_target _ _ _ _ _ _ _ HT Hs Hn) as (Hq & [(_ & HTq & E)|[? _]]); [|lia].
    rewrite E; destruct (sub_entry_fields _ Hq) as (-> & _ & -> & _); destruct (IH _ _ va Hva HTq) as [IH1 IH2]; [lia|].
    destruct (walk_table n _ _ _ _) as [ps r]; cbn [fst snd] in *; split; [apply Forall_cons; eauto|done].
Qed.

(** Two walks that end with the same page are the same. *)
Lemma walk_inj n : forall p p' l va va' e e', 0 <= va < 2 ^ 38 -> 0 <= va' < 2 ^ 38 -> T !! p = Some l -> T !! p' = Some l -> l + Z.of_nat n = 2 ->
  (walk_table n m p va l).2 = Some (e, 2) -> (walk_table n m p' va' l).2 = Some (e', 2) -> pte_pfn e = pte_pfn e' ->
  p = p' /\ forall k, l <= k <= 2 -> vpn va k = vpn va' k.
Proof.
  induction n as [|n IH]; intros p p' l va va' e e' Hva Hva' Hp Hp' Hl; cbn [walk_table];
    pose proof (walk_slot p l va Hva Hp) as Hs; pose proof (walk_slot p' l va' Hva' Hp') as Hs';
    destruct (pte_valid (pte m p _)) eqn:Ev; cbn [negb]; try done; destruct (pte_valid (pte m p' _)) eqn:Ev'; cbn [negb]; try done;
    assert (pte m p (vpn va l) <> 0) as Hn by (intros E; by rewrite E in Ev);
    assert (pte m p' (vpn va' l) <> 0) as Hn' by (intros E; by rewrite E in Ev').
  - assert (l = 2) as -> by lia; destruct (pte_leaf (pte m p _)), (pte_leaf (pte m p' _)); cbn; try done; intros [= <-] [= <-] E.
    destruct (t_inj _ _ _ _ HT _ _ _ _ _ _ Hs Hs' Hn Hn' E) as [-> Ei]; split; [done|]; intros k Hk; assert (k = 2) as -> by lia; done.
  - destruct (entry_target _ _ _ _ _ _ _ HT Hs Hn) as (Hq & [(_ & HTq & E)|[? _]]); [|lia].
    destruct (entry_target _ _ _ _ _ _ _ HT Hs' Hn') as (Hq' & [(_ & HTq' & E')|[? _]]); [|lia].
    destruct (sub_entry_fields _ Hq) as (_ & _ & L & _), (sub_entry_fields _ Hq') as (_ & _ & L' & _); rewrite <- E in L; rewrite <- E' in L'; rewrite L, L'.
    specialize (IH (pte_pfn (pte m p (vpn va l))) (pte_pfn (pte m p' (vpn va' l))) (l + 1) va va' e e' Hva Hva' HTq HTq' ltac:(lia)).
    destruct (walk_table n _ _ va _) as [ps r], (walk_table n _ _ va' _) as [ps' r']; cbn [snd] in *; intros Er Er' Epfn.
    destruct (IH Er Er' Epfn) as [Ep Hk]; destruct (t_inj _ _ _ _ HT _ _ _ _ _ _ Hs Hs' Hn Hn' Ep) as [-> Ei]; split; [done|].
    intros k Hkk; destruct (decide (k = l)) as [->|]; [done|apply Hk; lia].
Qed.

(** The translation of an address names a mapped page. *)
Lemma translate_page va q e : translate m top va = Some (q, e) ->
  0 <= va < 2 ^ 38 /\ (walk_table 2 m top va 0).2 = Some (e, 2) /\ q = pte_pfn e /\ 0 <= q < TOTAL_PHY_PAGES /\ exists st, stat F q st /\ reach st.
Proof.
  unfold translate; destruct ((va <? 0) || (2 ^ 38 <=? va)) eqn:Eb; [done|apply orb_false_iff in Eb as [E1 E2]; apply Z.ltb_ge in E1; apply Z.leb_gt in E2].
  destruct (walk_tables 2 top 0 va ltac:(lia) (t_top _ _ _ _ HT) eq_refl) as [_ Hw]; destruct (walk_table 2 m top va 0).2 as [[e' l']|]; [|done].
  cbn [mbind option_bind]; destruct (Hw e' l' eq_refl) as (-> & p' & Hp' & -> & Hn); change (9 * (2 - 2)) with 0; change (2 ^ 0) with 1; rewrite !Z.mod_1_r.
  cbn [Z.eqb negb]; rewrite Z.add_0_r; intros [= <- <-].
  destruct (entry_target _ _ _ _ _ _ _ HT (walk_slot p' 2 va ltac:(lia) Hp') Hn) as (Hq & [[? _]|[_ Hst]]); [lia|]; split_and!; try done; lia.
Qed.

(** An address is its offset and its indices. *)
Lemma vpn_page va : 0 <= va < 2 ^ 38 -> va / 4096 = vpn va 0 * 2 ^ 18 + vpn va 1 * 2 ^ 9 + vpn va 2.
Proof.
  intros Hva; unfold vpn; change (2 ^ (30 - 9 * 0)) with (4096 * (512 * 512)); change (2 ^ (30 - 9 * 1)) with (4096 * 512); change (2 ^ (30 - 9 * 2)) with 4096.
  rewrite <- !Z.div_div by lia; set (x := va / 4096); assert (0 <= x < 2 ^ 26) by (split; [apply Z.div_pos|apply Z.div_lt_upper_bound]; lia).
  pose proof (Z.div_mod x 512 ltac:(lia)); pose proof (Z.div_mod (x / 512) 512 ltac:(lia)).
  rewrite (Z.mod_small (x / 512 / 512)); [lia|]; split; [repeat apply Z.div_pos; lia|repeat apply Z.div_lt_upper_bound; lia].
Qed.

Lemma translate_inj va va' q e e' : translate m top va = Some (q, e) -> translate m top va' = Some (q, e') -> va / 4096 = va' / 4096.
Proof.
  intros H H'; destruct (translate_page _ _ _ H) as (Hva & Hw & E & _), (translate_page _ _ _ H') as (Hva' & Hw' & E' & _).
  destruct (walk_inj 2 top top 0 va va' e e' Hva Hva' (t_top _ _ _ _ HT) (t_top _ _ _ _ HT) eq_refl Hw Hw' ltac:(congruence)) as [_ Hk].
  rewrite !vpn_page, !Hk by lia; done.
Qed.

End Walk.

(** ** Every call keeps the invariant *)

Lemma handle_mono T T' h : T ⊆ T' -> handle_ok T h -> handle_ok T' h.
Proof. intros HT (p & Ea & Hp); exists p; split; [done|by eapply lookup_weaken]. Qed.

Lemma handles_mono T T' hs : T ⊆ T' -> Forall (handle_ok T) hs -> Forall (handle_ok T') hs.
Proof. intros HT H; eapply Forall_impl; [exact H|]; intros h; by apply handle_mono. Qed.

(** A store to a page that is mapped or owned. *)
Lemma word_store_ok top v T F w x st : vm_ok top v T F -> stat F (page_of w) st -> reach st \/ owned st -> vm_ok top (put_phys v (store_word (ph v) w x)) T F.
Proof.
  intros [[Hb Hc] HT HH HC] Hs Hr.
  assert (st <> page_unused /\ st <> page_nano_owned /\ st <> page_ptable) as (H1 & H2 & H3).
  { unfold reach, owned, page_mapped, page_transaction, page_system_owned, page_io_system, page_unused, page_nano_owned, page_ptable in *; lia. }
  assert (forall y, page_of y <> page_of w -> <[w := x]> (memory (ph v)) !! y = memory (ph v) !! y) as Hm.
  { intros y Hy; apply lookup_insert_ne; by intros <-. }
  split; cbn [put_phys store_word ph handles caps memory the_book]; [split; [done|]| |done|done].
  - by eapply clean_write.
  - eapply tables_write; [done| |done]; by eapply not_table.
Qed.

Lemma translated_store_ok top v T F va x : vm_ok top v T F ->
  vm_ok top (match translate (memory (ph v)) top va with
             | Some (p, e) => if Z.testbit e 2 then put_phys v (store_word (ph v) (p * 256 + va mod 4096 / 16) x) else v
             | None => v
             end) T F.
Proof.
  intros H; destruct (translate _ _ _) as [[q e]|] eqn:E; [|done]; destruct (Z.testbit e 2); [|done].
  destruct (translate_page _ _ _ _ (v_tables _ _ _ _ H) _ _ _ E) as (_ & _ & _ & Hq & st & Hst & Hr).
  eapply word_store_ok; [done| |by left]; replace (page_of _) with q; [done|]; unfold page_of.
  pose proof (Z.mod_pos_bound va 4096 ltac:(lia)); apply Z.div_unique with (va mod 4096 / 16); [|lia].
  left; split; [apply Z.div_pos|apply Z.div_lt_upper_bound]; lia.
Qed.

Lemma exec_vm_ok rep top v T F c : vm_ok top v T F -> vargs_ok c -> exists v' T' F', exec_vm rep top v c = Some v' /\ vm_ok top v' T' F' /\ keeps F F'.
Proof.
  intros H Hc; pose proof (v_handles _ _ _ _ H) as HH; rewrite Forall_forall in HH.
  pose proof (keeps_same F) as HR; assert (exists v' T' F', Some v = Some v' /\ vm_ok top v' T' F' /\ keeps F F') as Hsame by (by exists v, T, F).
  destruct c as [i n|i|i|i cached n io| |h i|sc q h i|sc q h i j f|va x|w x]; cbn [vargs_ok] in Hc.
  - destruct (vsplit_ok rep _ _ _ _ _ _ H Hc) as (v' & E & H'); by exists v', T, F.
  - destruct (merge_ok rep _ _ _ _ _ H Hc) as (v' & E & H'); by exists v', T, F.
  - destruct (zero_ok rep _ _ _ _ _ H Hc) as (v' & F' & E & H' & HK); by exists v', T, F'.
  - destruct (getphy_ok rep _ _ _ _ _ _ _ _ H Hc) as (v' & F' & E & H' & HK); by exists v', T, F'.
  - eexists _, T, F; split_and!; [reflexivity| |done]; destruct H; split; try done; apply Forall_cons; split; [|done].
    exists top; split; [done|apply v_tables0].
  - cbn [exec_vm]; case_bool_decide as Hh; [|done]; eexists _, T, F; split_and!; [reflexivity| |done].
    pose proof (sub_table_ok _ _ _ _ _ i (v_tables _ _ _ _ H) (HH _ Hh) Hc) as Hn; destruct H; split; try done; by apply Forall_app.
  - cbn [exec_vm]; case_bool_decide as Hh; [|done]; destruct Hc as (Hsc & Hq & Hi).
    destruct (create_table_ok top sc (ph v) T F q h i) as (s & r & T' & F' & -> & HP & HT & HK & Hsub & Hr); try done; [apply H|apply H|by apply HH|].
    eexists _, T', F'; split_and!; [reflexivity| |done]; split; cbn; [done|done| |by eapply keeps_caps, H]; apply Forall_app; split; [done|by eapply handles_mono, H].
  - cbn [exec_vm]; case_bool_decide as Hh; [|done]; destruct Hc as (Hsc & Hq & Hi & Hj & Hf); destruct (HH _ Hh) as (p & Ea & Hp).
    destruct (decide (level h = 2)) as [Hl|Hl].
    + destruct (create_mapping_ok top sc (ph v) T F q h p i j f) as (s & r & F' & -> & HP & HT & HK & _); try done; [apply H|apply H|].
      eexists _, T, F'; split_and!; [reflexivity| |done]; split; cbn; [done|done|apply H|by eapply keeps_caps, H].
    + unfold create_mapping; rewrite (proj2 (Z.eqb_neq _ _)) by done; cbn; exists v, T, F; split_and!; [by destruct v|done|done].
  - eexists _, T, F; split_and!; [reflexivity| |done]; by apply translated_store_ok.
  - eexists _, T, F; split_and!; [reflexivity| |done]; destruct (existsb _ _) eqn:E; [|done]; apply existsb_exists in E as (c & Hin & Hcov).
    destruct (proj1 (List.Forall_forall _ _) (v_caps _ _ _ _ H) c Hin _ Hcov) as (st & Hs & Ho); eapply word_store_ok; [done|done|by right].
Qed.

Lemma run_vm_ok rep top cs : forall v T F, vm_ok top v T F -> Forall vargs_ok cs -> exists v' T' F', run_vm rep top v cs = Some v' /\ vm_ok top v' T' F' /\ keeps F F'.
Proof.
  induction cs as [|c cs IH]; intros v T F H Hc; [exists v, T, F; split_and!; try done; apply keeps_same|]; apply Forall_cons in Hc as [Hc Hcs].
  destruct (exec_vm_ok rep top v T F c H Hc) as (v1 & T1 & F1 & E & H1 & HK1); cbn [run_vm]; rewrite E.
  destruct (IH v1 T1 F1 H1 Hcs) as (v' & T' & F' & E' & H' & HK'); exists v', T', F'; split_and!; try done; intros p st Hs Hm; auto.
Qed.

(** ** Boot *)

Lemma giga_loop top n : forall m i t2, 0 <= top < TOTAL_PHY_PAGES -> 0 <= i -> i + Z.of_nat n <= 512 -> 0 <= t2 < 2 ^ 64 -> t2 mod 16 = 15 ->
  let m' := set_giga_start n m (ent_addr top i) t2 in
  forall j, 0 <= j < 512 -> (i <= j < i + Z.of_nat n -> Z.land (pte m' top j) 15 = 15) /\ (~ i <= j < i + Z.of_nat n -> pte m' top j = pte m top j).
Proof.
  induction n as [|n IH]; intros m i t2 Ht Hi Hle Hr H15 m' j Hj; unfold m'; cbn [set_giga_start]; [split; [lia|done]|].
  assert (u64 (ent_addr top i + PAGE_TABLE_ENT_SIZE) = ent_addr top (i + 1)) as ->.
  { rewrite total_val in Ht; unfold ent_addr, PAGE_TABLE_ENT_SIZE, PHY_PAGE_SIZE, PHY_MEM_START_CACHED; rewrite wrap_small by (unfold in_range; lia); lia. }
  destruct (IH (tstore m (ent_addr top i) t2) (i + 1) (u64 (t2 + Z.shiftl 1 (30 - PHY_PAGE_SIZE_BITS + RISCV_PTE_PFN_SHIFT))) Ht ltac:(lia) ltac:(lia)) with (j := j) as [H1 H2]; [| |done|].
  { apply Z.mod_pos_bound; lia. }
  { change (Z.shiftl 1 _) with (2 ^ 28); unfold wrap; change (2 ^ 64) with (16 * 2 ^ 60); rewrite Z.rem_mul_r by lia.
    replace (t2 + 2 ^ 28) with (t2 + 2 ^ 24 * 16) by lia; rewrite Z.mod_add by lia; rewrite Z.mul_comm, Z.mod_add, Z.mod_mod by lia; done. }
  assert (pte (tstore m (ent_addr top i) t2) top j = if decide (i = j) then t2 else pte m top j) as Hs.
  { rewrite pte_tstore by (done || lia); do 2 case_decide; tauto || done. }
  split; intros Hjj.
  - destruct (decide (i = j)) as [->|]; [|apply H1; lia]; rewrite H2 by lia; rewrite Hs, ?decide_True by done.
    change 15 with (Z.ones 4); rewrite Z.land_ones by lia; exact H15.
  - rewrite H2 by lia; by rewrite Hs, decide_False by lia.
Qed.

Lemma giga_pages top m : 0 <= top < TOTAL_PHY_PAGES -> forall j, 0 <= j < 512 ->
  (384 <= j -> Z.land (pte (set_giga m top) top j) 15 = 15) /\ (j < 384 -> pte (set_giga m top) top j = pte m top j).
Proof.
  intros Ht j Hj; unfold set_giga; cbv zeta.
  change (Z.shiftr _ (9 + 9 + PHY_PAGE_SIZE_BITS - PAGE_TABLE_ENT_BITS)) with (384 * PAGE_TABLE_ENT_SIZE).
  change (Z.shiftl GIGA_MAPPINGS PAGE_TABLE_ENT_BITS) with (64 * PAGE_TABLE_ENT_SIZE); change (Z.to_nat GIGA_MAPPINGS) with 64%nat.
  replace (PHY_MEM_START_CACHED + top * PHY_PAGE_SIZE + 384 * PAGE_TABLE_ENT_SIZE + 64 * PAGE_TABLE_ENT_SIZE) with (ent_addr top 448) by (unfold ent_addr; lia).
  fold (ent_addr top 384).
  assert (0 <= RISCV_PTE_PERM_ALL < 2 ^ 64 /\ RISCV_PTE_PERM_ALL mod 16 = 15) as [HA HB] by (split; [split; vm_compute; done|reflexivity]).
  destruct (giga_loop top 64 m 384 RISCV_PTE_PERM_ALL Ht ltac:(lia) ltac:(lia) HA HB j Hj) as [H1 H2].
  destruct (giga_loop top 64 (set_giga_start 64 m (ent_addr top 384) RISCV_PTE_PERM_ALL) 448 RISCV_PTE_PERM_ALL Ht ltac:(lia) ltac:(lia) HA HB j Hj) as [H3 H4].
  split; intros Hj'.
  - destruct (decide (448 <= j)); [apply H3; lia|]; rewrite H4 by lia; apply H1; lia.
  - rewrite H4, H2 by lia; done.
Qed.

Lemma nano_boot a0 p : 4096 <= a0 < PHY_RAM_SIZE - NANO_SIZE -> 0x80000 <= p < 0x84000 -> stat (flat (boot_chunks a0)) p page_nano_owned.
Proof.
  intros Ha Hp; pose proof (init_book_laid a0 Ha) as HL; split; [lia|].
  change (boot_chunks a0) with ([(0x80000, page_io_unused)] ++ (0x4000, page_nano_owned) :: drop 2 (boot_chunks a0)) in *.
  eapply flat_range_get; [exact HL|cbn [pos fst snd]; lia].
Qed.

Lemma boot_vm_ok a0 m top : 4096 <= a0 < PHY_RAM_SIZE - NANO_SIZE -> a0 mod 4096 = 0 -> 0x80000 <= top < 0x84000 ->
  (forall w, page_of w = top -> m !! w = None) -> vm_ok top (boot_vm a0 m top) {[top := 0]} (flat (boot_chunks a0)).
Proof.
  intros Ha Hal Ht Hm; assert (0 <= top < TOTAL_PHY_PAGES) as Htr by (rewrite total_val; lia).
  pose proof (init_book_laid a0 Ha) as HL; split; cbn [boot_vm ph handles caps memory].
  - by apply boot_ok.
  - pose proof (nano_boot a0 top Ha Ht) as Hs.
    assert (forall p l i, tslot top {[top := 0]} p l i -> p = top /\ l = 0 /\ pte (set_giga m top) p i = 0) as Hz.
    { intros p l i (Hp & Hi & Hg); apply lookup_singleton_Some in Hp as [<- <-]; split_and!; try done.
      destruct (giga_pages top m Htr i Hi) as [_ ->]; [by apply pte_clear|lia]. }
    split.
    + apply lookup_singleton_eq.
    + intros p l Hp; apply lookup_singleton_Some in Hp as [<- <-]; split_and!; try lia; by left.
    + intros p l i Hsl; left; by apply Hz in Hsl as (_ & _ & ?).
    + intros p l i p' l' i' Hsl _ Hn; by apply Hz in Hsl as (_ & _ & ?).
    + intros i Hi; apply giga_pages; lia.
  - done.
  - apply Forall_singleton; intros p Hcov; exists page_system_owned; split; [|by left].
    pose proof (Z.div_mod a0 4096 ltac:(lia)); assert (1 <= a0 / 4096) by (apply Z.div_le_lower_bound; lia).
    assert (0x84000 <= p < 0x84000 + a0 / 4096) as Hpr.
    { apply (cap_covers_range 0x84000 (a0 / 4096) true false p); [lia|lia| |].
      - change (PHY_RAM_SIZE - NANO_SIZE) with 1006632960 in Ha; rewrite total_val; lia.
      - replace (a0 / 4096 * 4096) with a0 by lia; exact Hcov. }
    assert (boot_chunks a0 = [(0x80000, page_io_unused); (0x4000, page_nano_owned)] ++ (a0 / 4096, page_system_owned) :: [(0x3c000 - a0 / 4096, page_dirty)]) as EB.
    { unfold boot_chunks; by rewrite Z.shiftr_div_pow2 by (unfold PHY_PAGE_SIZE_BITS; lia). }
    rewrite EB in *; split; [lia|]; eapply flat_range_get; [exact HL|]; cbn [pos fst snd]; lia.
Qed.

(** ** What a mapping does to the translation *)

(** The three entries of a walk. *)
Lemma translate_eq top T F m va : tables_ok top T F m -> 0 <= va < 2 ^ 38 ->
  translate m top va =
  let e0 := pte m top (vpn va 0) in
  if e0 =? 0 then None
  else let e1 := pte m (pte_pfn e0) (vpn va 1) in
       if e1 =? 0 then None
       else let e2 := pte m (pte_pfn e1) (vpn va 2) in if pte_valid e2 && pte_leaf e2 then Some (pte_pfn e2, e2) else None.
Proof.
  intros HT Hva; unfold translate; rewrite (proj2 (orb_false_iff _ _)) by (split; [apply Z.ltb_ge|apply Z.leb_gt]; lia).
  cbn [walk_table]; change (0 + 1) with 1; change (1 + 1) with 2; cbv zeta.
  pose proof (walk_slot top T F m HT top 0 va Hva (t_top _ _ _ _ HT)) as Hs0.
  destruct (pte m top (vpn va 0) =? 0) eqn:E0; [apply Z.eqb_eq in E0; by rewrite E0|apply Z.eqb_neq in E0].
  destruct (entry_target _ _ _ _ _ _ _ HT Hs0 E0) as (Hq & [(_ & HTq & E)|[? _]]); [|lia]; change (0 + 1) with 1 in HTq.
  set (p1 := pte_pfn (pte m top (vpn va 0))) in *; rewrite E; destruct (sub_entry_fields p1 Hq) as (_ & -> & -> & _); cbn [negb].
  pose proof (walk_slot top T F m HT p1 1 va Hva HTq) as Hs1.
  destruct (pte m p1 (vpn va 1) =? 0) eqn:E1; [apply Z.eqb_eq in E1; by rewrite E1|apply Z.eqb_neq in E1].
  destruct (entry_target _ _ _ _ _ _ _ HT Hs1 E1) as (Hq1 & [(_ & HTq1 & E')|[? _]]); [|lia].
  set (p2 := pte_pfn (pte m p1 (vpn va 1))) in *; rewrite E'; destruct (sub_entry_fields p2 Hq1) as (_ & -> & -> & _); cbn [negb].
  destruct (pte_valid (pte m p2 (vpn va 2))); cbn [negb andb snd mbind option_bind]; [|done].
  destruct (pte_leaf (pte m p2 (vpn va 2))); cbn [snd mbind option_bind]; [|done].
  change (9 * (2 - 2)) with 0; change (2 ^ 0) with 1; rewrite !Z.mod_1_r; cbn [Z.eqb negb]; by rewrite Z.add_0_r.
Qed.

(** The permission bits of a leaf are those of its flags. *)
Lemma leaf_perm f q k : 0 <= f -> 0 <= q < TOTAL_PHY_PAGES -> Z.land (Z.ones 10) k = k -> Z.land RISCV_PTE_V k = 0 -> Z.land PTE_FLAGS_SYSTEM k = k ->
  Z.land (leaf_entry f q) k = Z.land f k.
Proof.
  intros Hf Hq Hk Hv Hu; rewrite <- (leaf_make f q Hf Hq), !Z.land_lor_distr_l, Hv, Z.lor_0_r.
  unfold RISCV_PTE_PFN_SHIFT; rewrite Z.shiftl_mul_pow2, wrap_small by (unfold in_range; rewrite ?total_val in *; lia).
  rewrite <- Hk at 1; rewrite Z.land_assoc, Z.land_ones, Z.mod_mul, Z.land_0_l, Z.lor_0_l by lia.
  by rewrite <- Z.land_assoc, Hu.
Qed.

Lemma leaf_fields f q : 0 <= f -> 0 <= q < TOTAL_PHY_PAGES ->
  pte_valid (leaf_entry f q) = negb (pte_reserved f) /\ pte_leaf (leaf_entry f q) = pte_leaf f.
Proof.
  intros Hf Hq; split.
  - unfold pte_valid, pte_reserved; rewrite leaf_perm by done; unfold leaf_entry; destruct (flags_parts f Hf) as (lo & hi & -> & _).
    replace (q * 1024 + (lo * 2 + hi * 2 ^ 61) + 1) with (2 * (q * 512 + lo + hi * 2 ^ 60) + 1) by lia; by rewrite Z.odd_add, Z.odd_mul.
  - by unfold pte_leaf; rewrite leaf_perm.
Qed.


Lemma chunk_end b F q : book_ok b F -> 0 <= q < TOTAL_PHY_PAGES -> 0 < len (ent b q) -> q + len (ent b q) <= TOTAL_PHY_PAGES.
Proof.
  intros (cs & HL & _) Hq Hl; destruct (page_cases _ _ _ HL Hq) as [(A & c & B & -> & <-)|[E _]]; [|lia].
  by destruct (chunk_bounds _ _ _ _ _ HL eq_refl) as (_ & _ & Ht & _ & _ & -> & _).
Qed.

(** The page of a handle's table. *)
Definition handle_page (h : ptable_t) : Z := (taddr h - PHY_MEM_START_CACHED) / PHY_PAGE_SIZE.

Lemma handle_page_eq h p : taddr h = PHY_MEM_START_CACHED + p * PHY_PAGE_SIZE -> handle_page h = p.
Proof. intros E; unfold handle_page; rewrite E; replace (_ - _) with (p * PHY_PAGE_SIZE) by lia; by apply Z.div_mul. Qed.

(** The translation after the entries of the table at [i0], [i1] have changed. *)
Lemma translate_changed top T F F' m m' i0 i1 p1 p2 va : tables_ok top T F m -> tables_ok top T F' m' -> 0 <= va < 2 ^ 38 ->
  tslot top T top 0 i0 -> pte m top i0 = sub_entry p1 -> T !! p1 = Some 1 -> tslot top T p1 1 i1 -> pte m p1 i1 = sub_entry p2 -> T !! p2 = Some 2 ->
  (forall w, page_of w <> p2 -> m' !! w = m !! w) ->
  (vpn va 0 = i0 /\ vpn va 1 = i1 -> translate m' top va = (let e := pte m' p2 (vpn va 2) in if pte_valid e && pte_leaf e then Some (pte_pfn e, e) else None)) /\
  (~ (vpn va 0 = i0 /\ vpn va 1 = i1) \/ pte m' p2 (vpn va 2) = pte m p2 (vpn va 2) -> translate m' top va = translate m top va).
Proof.
  intros HT HT' Hva Hs0 E0 Hp1 Hs1 E1 Hp2 Hw; destruct (t_range _ _ _ _ HT _ _ Hp1) as (Hr1 & _), (t_range _ _ _ _ HT _ _ Hp2) as (Hr2 & _).
  assert (forall p l x, T !! p = Some l -> p <> p2 -> 0 <= x < 512 -> pte m' p x = pte m p x) as Hm.
  { intros p l x Hp Hne Hx; apply pte_frame; [by eapply HT|done|]; intros w <-; by apply Hw. }
  assert (top <> p2 /\ p1 <> p2) as [Ht2 H12] by (split; intros ->; rewrite ?(t_top _ _ _ _ HT) in *; congruence).
  destruct (sub_entry_fields p1 Hr1) as (F1 & _), (sub_entry_fields p2 Hr2) as (F2 & _); pose proof (sub_range p1 Hr1); pose proof (sub_range p2 Hr2).
  pose proof (vpn_range va 0); pose proof (vpn_range va 1); rewrite (translate_eq _ _ _ _ _ HT' Hva); cbv zeta; rewrite (Hm top 0) by (done || apply HT).
  split.
  - intros [-> ->]; rewrite E0, F1, (Hm p1 1), E1, F2, !(proj2 (Z.eqb_neq _ 0)) by (done || lia || apply Hs1); done.
  - intros Hor; rewrite (translate_eq _ _ _ _ _ HT Hva); cbv zeta.
    pose proof (walk_slot top T F m HT top 0 va Hva (t_top _ _ _ _ HT)) as Hv0.
    destruct (pte m top (vpn va 0) =? 0) eqn:Ez; [done|apply Z.eqb_neq in Ez].
    destruct (entry_target _ _ _ _ _ _ _ HT Hv0 Ez) as (Hq & [(_ & HTq & E)|[? _]]); [|lia]; change (0 + 1) with 1 in HTq.
    set (x1 := pte_pfn (pte m top (vpn va 0))) in *; pose proof (walk_slot top T F m HT x1 1 va Hva HTq) as Hv1.
    rewrite (Hm x1 1) by (done || intros ->; congruence); destruct (pte m x1 (vpn va 1) =? 0) eqn:Ez1; [done|apply Z.eqb_neq in Ez1].
    destruct (entry_target _ _ _ _ _ _ _ HT Hv1 Ez1) as (Hq1 & [(_ & HTq1 & E')|[? _]]); [|lia]; change (1 + 1) with 2 in HTq1.
    set (x2 := pte_pfn (pte m x1 (vpn va 1))) in *; enough (pte m' x2 (vpn va 2) = pte m x2 (vpn va 2)) as -> by done.
    destruct (decide (x2 = p2)) as [Ex|]; [|by eapply Hm; [|done|apply vpn_range]].
    destruct Hor as [Hor|Hor]; [destruct Hor|by rewrite Ex].
    assert (x1 = p1 /\ vpn va 1 = i1) as [Ex1 ->] by (eapply (t_inj _ _ _ _ HT); [done|done|done|rewrite E1; lia|]; fold x2; by rewrite E1, F2).
    split; [|done]; eapply (t_inj _ _ _ _ HT); [exact Hv0|exact Hs0|done|rewrite E0; lia|]; fold x1; by rewrite E0, F1.
Qed.

(** ** Properties *)

(** C4: from boot on, after any sequence of page and table calls of the system
    - with page numbers below 2^63 and no split at length 0 for the calls on the
    book, any 64-bit arguments for those on tables, and store-conditionals that
    succeed in the end - and of stores by software, all calls have returned; no
    two virtual pages share a physical page; a
    page software can reach, through the translation or a physical capability,
    is not one of the nanokernel and not a table of any translation; and a page
    reached through the translation is not covered by a physical capability. *)
Theorem memory_isolation rep a0 m top calls : 4096 <= a0 < PHY_RAM_SIZE - NANO_SIZE -> a0 mod 4096 = 0 -> 0x80000 <= top < 0x84000 ->
  (forall w, page_of w = top -> m !! w = None) -> Forall vargs_ok calls ->
  exists v, run_vm rep top (boot_vm a0 m top) calls = Some v /\
    (forall va va' q e e', translate (memory (ph v)) top va = Some (q, e) -> translate (memory (ph v)) top va' = Some (q, e') -> va / 4096 = va' / 4096) /\
    (forall va q e, translate (memory (ph v)) top va = Some (q, e) -> existsb (fun c => cap_covers c q) (caps v) = false) /\
    (forall q, (exists va e, translate (memory (ph v)) top va = Some (q, e)) \/ existsb (fun c => cap_covers c q) (caps v) = true ->
       ~ 0x80000 <= q < 0x84000 /\ forall va, 0 <= va < 2 ^ 38 -> q ∉ tables_of (memory (ph v)) top va).
Proof.
  intros Ha Hal Ht Hm Hc; destruct (run_vm_ok rep top calls _ _ _ (boot_vm_ok a0 m top Ha Hal Ht Hm) Hc) as (v & T & F & E & [HP HT HH HC] & HK).
  exists v; split; [done|]; split; [intros *; by eapply translate_inj|].
  assert (forall q, existsb (fun c => cap_covers c q) (caps v) = true -> exists st, stat F q st /\ owned st) as Hcap.
  { intros q Hex; apply existsb_exists in Hex as (c & Hin & Hcov); eapply (proj1 (List.Forall_forall _ _) HC); done. }
  split.
  - intros va q e Htr; destruct (translate_page _ _ _ _ HT _ _ _ Htr) as (_ & _ & _ & Hq & st & Hst & Hr); apply not_true_is_false; intros Hex.
    destruct (Hcap q Hex) as (st' & Hst' & Ho); rewrite (stat_fun _ _ _ _ Hst Hst') in Hr.
    unfold reach, owned, page_mapped, page_transaction, page_system_owned, page_io_system in *; lia.
  - intros q Hq; assert (exists st, stat F q st /\ st <> page_nano_owned /\ st <> page_ptable) as (st & Hst & H1 & H2).
    { destruct Hq as [(va & e & Htr)|Hex].
      - destruct (translate_page _ _ _ _ HT _ _ _ Htr) as (_ & _ & _ & _ & st & Hst & Hr); exists st; split; [done|].
        unfold reach, page_mapped, page_transaction, page_nano_owned, page_ptable in *; lia.
      - destruct (Hcap q Hex) as (st & Hst & Ho); exists st; split; [done|].
        unfold owned, page_system_owned, page_io_system, page_nano_owned, page_ptable in *; lia. }
    split.
    + intros Hn; apply H1; eapply stat_fun; [exact Hst|]; apply HK; [by apply nano_boot|not_movable].
    + intros va Hva Hin; destruct (walk_tables top T F (memory (ph v)) HT 2 top 0 va Hva (t_top _ _ _ _ HT) eq_refl) as [Hall _].
      rewrite Forall_forall in Hall; destruct (Hall _ Hin) as [l Hl]; by rewrite (not_table _ _ _ _ _ _ HT Hst H1 H2) in Hl.
Qed.

(** A run: pages are zeroed and split, a table is made at each level and four
    pages are mapped, and one of them is written through the mapping. *)
Definition demo_top : Z := 0x80001.

Definition demo_table (page level : Z) : ptable_t := mk_ptable (PHY_MEM_START_CACHED + page * PHY_PAGE_SIZE) level.

Definition demo_calls : list vcall :=
  [VSplit 0x84100 8; VZero 0x84100; VSplit 0x84100 1; VSplit 0x84101 1; VSplit 0x84102 4; VTop;
   VTable [false; true] 0x84100 (demo_table demo_top 0) 3; VTable [true] 0x84101 (demo_table 0x84100 1) 5].

Definition demo_map (k : Z) : vcall := VMap (fun _ => [true]) 0x84102 (demo_table 0x84101 2) k (k + 4) (RISCV_PTE_R + RISCV_PTE_W).

Definition demo_va : Z := 3 * 2 ^ 30 + 5 * 2 ^ 21 + 9 * 4096 + 32.

Definition demo_vm (cs : list vcall) : vm := default (mk_vm (mk_phys ∅ ∅) [] []) (run_vm (fun _ _ => true) demo_top (boot_vm 0x100000 ∅ demo_top) cs).

Lemma demo_args : Forall vargs_ok (demo_calls ++ [demo_map 7; VStore demo_va 77]).
Proof.
  repeat apply Forall_cons_2; try apply Forall_nil_2; cbn; rewrite ?total_val; try lia; split_and!; try lia; intros; rewrite ?elem_of_cons; auto; done.
Qed.

Lemma memory_isolation_witness :
  exists v, run_vm (fun _ _ => true) demo_top (boot_vm 0x100000 ∅ demo_top) (demo_calls ++ [demo_map 7; VStore demo_va 77]) = Some v /\
    fst <$> translate (memory (ph v)) demo_top demo_va = Some 0x84104 /\ memory (ph v) !! (0x84104 * 256 + 2) = Some 77 /\
    forall va va' q e e', translate (memory (ph v)) demo_top va = Some (q, e) -> translate (memory (ph v)) demo_top va' = Some (q, e') -> va / 4096 = va' / 4096.
Proof.
  destruct (memory_isolation (fun _ _ => true) 0x100000 ∅ demo_top (demo_calls ++ [demo_map 7; VStore demo_va 77])) as (v & E & H & _).
  - split; vm_compute; done.
  - reflexivity.
  - unfold demo_top; lia.
  - done.
  - apply demo_args.
  - exists v; split_and!; [exact E| | |exact H].
    + assert (fst <$> translate (memory (ph (demo_vm (demo_calls ++ [demo_map 7; VStore demo_va 77])))) demo_top demo_va = Some 0x84104) as Hd by (vm_compute; reflexivity).
      unfold demo_vm in Hd; rewrite E in Hd; exact Hd.
    + assert (memory (ph (demo_vm (demo_calls ++ [demo_map 7; VStore demo_va 77]))) !! (0x84104 * 256 + 2) = Some 77) as Hd by (vm_compute; reflexivity).
      unfold demo_vm in Hd; rewrite E in Hd; exact Hd.
Defined.

(** C21: [create_mapping] on the table at indices [i0] and [i1] makes the
    mapping exactly when the pages are one unused chunk of the length of the
    range, the range is in the table and its entries are empty.  Then the
    addresses of the range translate to the pages, with the flags the system
    controls (and fault when the flags give no access, or write without read),
    and no other translation changes. *)
Theorem mapping_translates rep a0 m top calls v i0 i1 h1 h2 sc page_n i j flags :
  4096 <= a0 < PHY_RAM_SIZE - NANO_SIZE -> a0 mod 4096 = 0 -> 0x80000 <= top < 0x84000 ->
  (forall w, page_of w = top -> m !! w = None) -> Forall vargs_ok calls -> run_vm rep top (boot_vm a0 m top) calls = Some v ->
  0 <= i0 < 2 ^ 64 -> 0 <= i1 < 2 ^ 64 -> get_sub_table (memory (ph v)) (get_top_level_table top) i0 = Some h1 ->
  get_sub_table (memory (ph v)) h1 i1 = Some h2 -> vargs_ok (VMap sc page_n h2 i j flags) ->
  exists s r, create_mapping sc (ph v) page_n h2 i j flags = Some (s, r) /\
    (r = Mapped <-> can_map (ph v) page_n (handle_page h2) i j) /\
    (r = Mapped -> forall va, 0 <= va < 2 ^ 38 ->
       translate (memory s) top va =
       let k := va / 4096 - (i0 * 2 ^ 18 + i1 * 2 ^ 9) in
       if decide (i <= k < j)
       then if negb (pte_reserved flags) && pte_leaf flags then Some (page_n + (k - i), leaf_entry flags (page_n + (k - i))) else None
       else translate (memory (ph v)) top va).
Proof.
  intros Ha Hal Ht Hm Hc E Hi0 Hi1 E1 E2 (Hsc & Hq & Hi & Hj & Hf).
  destruct (run_vm_ok rep top calls _ _ _ (boot_vm_ok a0 m top Ha Hal Ht Hm) Hc) as (v' & T & F & E' & [HP HT HH HC] & _).
  assert (v' = v) as -> by congruence; clear E'.
  destruct (sub_table_page top T F _ (get_top_level_table top) _ _ top HT eq_refl (t_top _ _ _ _ HT) Hi0 E1) as (p1 & Hb0 & _ & Hs0 & Ep1 & Hp1 & Ea1 & El1).
  destruct (sub_table_page top T F _ _ _ _ p1 HT Ea1 Hp1 Hi1 E2) as (p2 & Hb1 & _ & Hs1 & Ep2 & Hp2 & Ea2 & El2).
  cbn [level get_top_level_table] in *; rewrite El1 in *; change (0 + 1) with 1 in *; change (1 + 1) with 2 in *.
  rewrite (handle_page_eq h2 p2) by done.
  destruct (create_mapping_ok top sc (ph v) T F page_n h2 p2 i j flags) as (s & r & F' & -> & HP' & HT' & HK & Hw & Hother & Hiff & Hset); try done.
  exists s, r; split_and!; try done; intros -> va Hva; destruct (proj1 Hiff eq_refl) as (Hij & Hib & Hqb & _ & Hlen & Hend & _).
  assert (u64 (j - i) = j - i) as Eu.
  { unfold wrap in *; pose proof (Z.div_mod (j - i) (2 ^ 64) ltac:(lia)); pose proof (Z.mod_pos_bound (j - i) (2 ^ 64) ltac:(lia)); nia. }
  rewrite Eu in *; pose proof (vpn_page va Hva); pose proof (vpn_range va 0); pose proof (vpn_range va 1); pose proof (vpn_range va 2).
  rewrite El2 in Hp2; destruct (translate_changed top T F F' _ _ i0 i1 p1 p2 va HT HT' Hva Hs0 Ep1 Hp1 Hs1 Ep2 Hp2 Hw) as [Hin Hout]; cbv zeta.
  case_decide as D.
  - assert (vpn va 0 = i0 /\ vpn va 1 = i1 /\ vpn va 2 = va / 4096 - (i0 * 2 ^ 18 + i1 * 2 ^ 9)) as (V0 & V1 & V2) by lia.
    rewrite Hin by done; cbv zeta; rewrite V2; set (k := va / 4096 - _) in *.
    assert (page_n + (j - i) <= TOTAL_PHY_PAGES) as Hle by (rewrite Hlen; apply (chunk_end _ F); [apply HP|lia|lia]).
    pose proof (Hset eq_refl (k - i) ltac:(lia)) as Hk; replace (i + (k - i)) with k in Hk by lia; rewrite Hk.
    destruct (leaf_fields flags (page_n + (k - i))) as [-> ->]; [lia|lia|]; by rewrite pfn_leaf by lia.
  - apply Hout; destruct (decide (vpn va 0 = i0 /\ vpn va 1 = i1)) as [[V0 V1]|]; [right|by left]; apply Hother; [lia|]; intros Hr; apply D; lia.
Qed.

Lemma mapping_translates_witness :
  run_vm (fun _ _ => true) demo_top (boot_vm 0x100000 ∅ demo_top) demo_calls = Some (demo_vm demo_calls) /\
  can_map (ph (demo_vm demo_calls)) 0x84102 (handle_page (demo_table 0x84101 2)) 7 11 /\
  exists s r, create_mapping (fun _ => [true]) (ph (demo_vm demo_calls)) 0x84102 (demo_table 0x84101 2) 7 11 (RISCV_PTE_R + RISCV_PTE_W) = Some (s, r) /\
    (r = Mapped <-> can_map (ph (demo_vm demo_calls)) 0x84102 (handle_page (demo_table 0x84101 2)) 7 11).
Proof.
  assert (run_vm (fun _ _ => true) demo_top (boot_vm 0x100000 ∅ demo_top) demo_calls = Some (demo_vm demo_calls)) as E by (vm_compute; reflexivity).
  pose proof demo_args as HA; apply Forall_app in HA as [HA HM]; apply Forall_cons_1 in HM as [HM _].
  destruct (mapping_translates (fun _ _ => true) 0x100000 ∅ demo_top demo_calls (demo_vm demo_calls) 3 5 (demo_table 0x84100 1) (demo_table 0x84101 2)
              (fun _ => [true]) 0x84102 7 11 (RISCV_PTE_R + RISCV_PTE_W)) as (s & r & Er & Hiff & _).
  - split; vm_compute; done.
  - reflexivity.
  - unfold demo_top; lia.
  - done.
  - exact HA.
  - exact E.
  - lia.
  - lia.
  - vm_compute; reflexivity.
  - vm_compute; reflexivity.
  - exact HM.
  - split; [exact E|split; [|exists s, r; split; [exact Er|exact Hiff]]].
    assert (snd <$> create_mapping (fun _ => [true]) (ph (demo_vm demo_calls)) 0x84102 (demo_table 0x84101 2) 7 11 (RISCV_PTE_R + RISCV_PTE_W) = Some Mapped) as Hr
      by (vm_compute; reflexivity).
    apply Hiff; rewrite Er in Hr; cbn in Hr; congruence.
Defined.
