(* ===== verification/Vmem.v ===== *)
(** * Committing virtual memory (cherios/core/memmgt/src/vmem.c)

    The memory manager maps a page when an activation first touches it, or a
    range of pages on request.  It finds physical pages with the searches of
    Pmem.v and makes tables and mappings with the nanokernel calls of
    PageTable.v.  [None] is a failed assertion, a panic or a trap.  The
    functions run one at a time; the RISC-V build, in which a virtual page is
    one physical page.  [sc] gives the outcomes of the store-conditionals on
    each entry of each table.

    The system of the memory manager, its cleaner and the processor refines a
    virtual memory whose pages are private and zero when they appear. *)

From S2P Require Import Prelude Book Pmem PageTable.

(** ** Indices *)

Definition UNTRANSLATED_BITS : Z := PHY_PAGE_SIZE_BITS.
Definition PAGE_TABLE_BITS_PER_LEVEL : Z := PHY_PAGE_SIZE_BITS - PAGE_TABLE_ENT_BITS.
Definition L0_BITS : Z := PAGE_TABLE_BITS_PER_LEVEL.
Definition L1_BITS : Z := PAGE_TABLE_BITS_PER_LEVEL.
Definition L2_BITS : Z := PAGE_TABLE_BITS_PER_LEVEL.
Definition CHECKED_BITS : Z := 64 - L0_BITS - L1_BITS - L2_BITS - UNTRANSLATED_BITS.
Definition VIRT_PHY_PAGE_RATIO_BITS : Z := UNTRANSLATED_BITS - PHY_PAGE_SIZE_BITS.
Definition VIRT_PHY_PAGE_RATIO : Z := Z.shiftl 1 VIRT_PHY_PAGE_RATIO_BITS.

Definition L0_INDEX (addr : Z) : Z :=
  Z.shiftr (u64 (Z.shiftl addr CHECKED_BITS)) (CHECKED_BITS + L1_BITS + L2_BITS + UNTRANSLATED_BITS).
Definition L1_INDEX (addr : Z) : Z :=
  Z.shiftr (u64 (Z.shiftl addr (CHECKED_BITS + L0_BITS))) (CHECKED_BITS + L0_BITS + L2_BITS + UNTRANSLATED_BITS).
Definition L2_INDEX (addr : Z) : Z :=
  Z.shiftr (u64 (Z.shiftl addr (CHECKED_BITS + L0_BITS + L1_BITS))) (CHECKED_BITS + L0_BITS + L1_BITS + UNTRANSLATED_BITS).

Definition VTABLE_ENTRY_FREE : Z := 0.
Definition VTABLE_ENTRY_USED : Z := u64 (-2).
Definition TLB_FLAGS_DEFAULT : Z := RISCV_PTE_PERM_ALL.
Definition TLB_FLAGS_UNCACHED : Z := RISCV_PTE_PERM_ALL.
Definition PMEM_NONE : Z := 0.
Definition RES_META_SIZE : Z := 16.
Definition COMMIT_DMA : Z := 4.
Definition COMMIT_UNCACHED : Z := 8.

(** [get_read_only_table] gives the table itself; a load from it. *)
Definition entries (m : mem_t) (ro : ptable_t) (i : Z) : Z := tload m (u64 (taddr ro + u64 (i * PAGE_TABLE_ENT_SIZE))).

(** A null handle is refused by the nanokernel. *)
Definition sub_table (m : mem_t) (table : option ptable_t) (index : Z) : option ptable_t :=
  match table with Some h => get_sub_table m h index | None => None end.

Section Vmem.

Context (CRAM : Z -> Z) (sc : ptable_t -> Z -> list bool) (top : Z).

Definition vmem_create_table (s : phys) (parent : option ptable_t) (index : Z) : option (phys * option ptable_t) :=
  '(b, page) ← pmem_find_page_type CRAM (the_book s) 1 page_ptable_free PMEM_BACKWARDS BOOK_END;
  '(b, page) ← (if page =? BOOK_END then pmem_find_page_type CRAM b 1 page_unused PMEM_BACKWARDS BOOK_END else Some (b, page));
  if page =? BOOK_END then Some (mk_phys b (memory s), None)
  else
    e ← bget b page;
    _ ← assert ((status e =? page_ptable_free) || (status e =? page_unused));
    '(s, r) ← match parent with
              | Some h => create_table (sc h index) (mk_phys b (memory s)) page h index
              | None => Some (mk_phys b (memory s), None)
              end;
    e ← bget (the_book s) page;
    _ ← assert (status e =? page_ptable);
    '(b, _) ← pmem_try_merge (the_book s) page;
    h ← r;
    Some (mk_phys b (memory s), Some h).

(** The result is the return code. *)
Definition vmem_create_mapping (s : phys) (l2 : ptable_t) (index flags : Z) : option (phys * Z) :=
  '(b, page) ← pmem_find_page_type CRAM (the_book s) VIRT_PHY_PAGE_RATIO page_unused PMEM_NONE 0;
  if page =? BOOK_END then Some (mk_phys b (memory s), -1)
  else
    e ← bget b page;
    _ ← assert (status e =? page_unused);
    '(s, _) ← create_mapping (sc l2) (mk_phys b (memory s)) page l2 index (index + 1) flags;
    e ← bget (the_book s) page;
    _ ← assert (status e =? page_mapped);
    '(b, _) ← pmem_try_merge (the_book s) page;
    Some (mk_phys b (memory s), 0).

(** The table an entry names, made when there is none. *)
Definition need_table (s : phys) (parent : option ptable_t) (index : Z) : option (phys * option ptable_t) :=
  match sub_table (memory s) parent index with
  | Some h => Some (s, Some h)
  | None => vmem_create_table s parent index
  end.

(** The last step, the notification of the activation, is the message the
    kernel waits for.  The result says whether the page was mapped, was mapped
    already, or could not be. *)
Inductive commit_end := Committed | Spurious | NoPage.

Definition vmem_commit_vmem (s : phys) (addr : Z) : option (phys * commit_end) :=
  '(s, l1) ← need_table s (Some (get_top_level_table top)) (L0_INDEX addr);
  '(s, l2) ← need_table s l1 (L1_INDEX addr);
  ro ← l2;
  let ent := entries (memory s) ro (L2_INDEX addr) in
  if negb (ent =? VTABLE_ENTRY_FREE) then
    _ ← assert (negb (ent =? VTABLE_ENTRY_USED));
    Some (s, Spurious)
  else
    '(s, r) ← vmem_create_mapping s ro (L2_INDEX addr) TLB_FLAGS_DEFAULT;
    Some (s, if r =? 0 then Committed else NoPage).

(** ** Ranges *)

(** The loops over the entries of a table from [ndx] to [end_ndx]. *)
Fixpoint skip_used (n : nat) (m : mem_t) (ro : ptable_t) (ndx end_ndx : Z) : Z :=
  match n with
  | O => ndx
  | S n => if negb (ndx =? end_ndx) && negb (entries m ro ndx =? VTABLE_ENTRY_FREE) then skip_used n m ro (ndx + 1) end_ndx else ndx
  end.

Fixpoint skip_free (n : nat) (m : mem_t) (ro : ptable_t) (end_empty end_ndx : Z) : Z :=
  match n with
  | O => end_empty
  | S n => if negb (end_empty =? end_ndx) && (entries m ro end_empty =? VTABLE_ENTRY_FREE) then skip_free n m ro (end_empty + 1) end_ndx else end_empty
  end.

(** The variables of the function that live across the loops. *)
Record range_st := mk_range { r_phys : phys; phy_pagen : Z; in_block : Z; contig_base : Z }.

Definition with_phys (c : range_st) (s : phys) : range_st := mk_range s (phy_pagen c) (in_block c) (contig_base c).

(** A new block of physical pages, when the last one is used up. *)
Definition next_block (is_dma : bool) (pages_tmp : Z) (c : range_st) : option range_st :=
  if in_block c <? VIRT_PHY_PAGE_RATIO then
    _ ← assert (negb is_dma || (contig_base c =? 0));
    '(b, p) ← pmem_find_page_type CRAM (the_book (r_phys c)) (if is_dma then pages_tmp else VIRT_PHY_PAGE_RATIO) page_unused
                PMEM_ALLOW_GREATER (phy_pagen c);
    _ ← assert (negb (p =? BOOK_END));
    e ← bget b p;
    Some (mk_range (mk_phys b (memory (r_phys c))) p (len e) (if contig_base c =? 0 then p else u64 (-1)))
  else Some c.

(** The rest of a turn: the pages mapped are as many as are left of the block
    and of the empty entries; the mapping is merged with its neighbours. *)
Definition map_block (flags : Z) (l2 : ptable_t) (c : range_st) (ndx end_empty : Z) : option (range_st * Z) :=
  let phy_len := (end_empty - ndx) * VIRT_PHY_PAGE_RATIO in
  let phy_len := if in_block c <? phy_len then in_block c else phy_len in
  b ← (if negb (in_block c =? phy_len) then pmem_break_page_to (the_book (r_phys c)) (phy_pagen c) phy_len
       else Some (the_book (r_phys c)));
  let block_end_ndx := ndx + phy_len / VIRT_PHY_PAGE_RATIO in
  e ← bget b (phy_pagen c);
  _ ← assert (status e =? page_unused);
  '(s, _) ← create_mapping (sc l2) (mk_phys b (memory (r_phys c))) (phy_pagen c) l2 ndx block_end_ndx flags;
  e ← bget (the_book s) (phy_pagen c);
  _ ← assert (status e =? page_mapped);
  f ← bget (the_book s) (prev e);
  b ← (if status f =? page_mapped then merge_phy_page_range (the_book s) (prev e) else Some (the_book s));
  let in_block := in_block c - phy_len in
  let pagen := phy_pagen c + phy_len in
  e ← bget b pagen;
  '(b, pagen) ← (if (in_block =? 0) && (status e =? page_mapped) then
                   b ← merge_phy_page_range b (prev e);
                   Some (b, len e + pagen)
                 else Some (b, pagen));
  Some (mk_range (mk_phys b (memory s)) pagen in_block (contig_base c), block_end_ndx).

(** Maps the entries from [ndx] to [end_empty]. *)
Fixpoint commit_empty (n : nat) (is_dma : bool) (pages_tmp flags : Z) (l2 : ptable_t) (c : range_st) (ndx end_empty : Z) : option range_st :=
  if ndx =? end_empty then Some c
  else
    match n with
    | O => None
    | S n =>
        c ← next_block is_dma pages_tmp c;
        '(c, ndx) ← map_block flags l2 c ndx end_empty;
        commit_empty n is_dma pages_tmp flags l2 c ndx end_empty
    end.

(** The entries of one table from [ndx] to [end_ndx]. *)
Fixpoint commit_table (n : nat) (is_dma : bool) (pages_tmp flags : Z) (l2 : ptable_t) (c : range_st) (ndx end_ndx : Z) : option range_st :=
  match n with
  | O => None
  | S n =>
      let ndx := skip_used (Z.to_nat (end_ndx - ndx)) (memory (r_phys c)) l2 ndx end_ndx in
      if ndx =? end_ndx then Some c
      else
        let end_empty := skip_free (Z.to_nat (end_ndx - ndx)) (memory (r_phys c)) l2 ndx end_ndx in
        _ ← assert (negb is_dma || (end_empty =? end_ndx));
        c ← commit_empty (Z.to_nat (end_empty - ndx)) is_dma pages_tmp flags l2 c ndx end_empty;
        if end_empty + 1 <? end_ndx then commit_table n is_dma pages_tmp flags l2 c (end_empty + 1) end_ndx else Some c
  end.

(** The table at [l1_index] of [l1], from entry [ndx] on; with it the pages
    left. *)
Definition commit_turn (is_dma : bool) (flags : Z) (c : range_st) (l1 : option ptable_t) (l1_index ndx pages : Z) : option (range_st * Z) :=
  _ ← assert (pages mod VIRT_PHY_PAGE_RATIO =? 0);
  '(s, l2) ← need_table (r_phys c) l1 l1_index;
  ro ← l2;
  e ← bget (the_book s) (phy_pagen c);
  let in_block := if status e =? page_unused then len e else 0 in
  let end_ndx := ndx + pages / VIRT_PHY_PAGE_RATIO in
  let end_ndx := if PAGE_TABLE_ENT_PER_TABLE <? end_ndx then PAGE_TABLE_ENT_PER_TABLE else end_ndx in
  let rest := pages - (end_ndx - ndx) * VIRT_PHY_PAGE_RATIO in
  c ← commit_table (S (Z.to_nat (end_ndx - ndx))) is_dma pages flags ro (mk_range s (phy_pagen c) in_block (contig_base c)) ndx end_ndx;
  Some (c, rest).

(** One table after the other; [first] only in the first turn. *)
Fixpoint commit_tables (n : nat) (is_dma : bool) (flags : Z) (c : range_st) (l1 : option ptable_t) (l0_index l1_index ndx pages : Z)
    (first : bool) : option range_st :=
  match n with
  | O => None
  | S n =>
      let l1_index := u64 (l1_index + 1) in
      '(c, l1, l0_index, l1_index) ←
        (if (l1_index =? PAGE_TABLE_ENT_PER_TABLE) || first then
           let l0_index := u64 (l0_index + 1) in
           '(s, l1) ← need_table (r_phys c) (Some (get_top_level_table top)) l0_index;
           Some (with_phys c s, l1, l0_index, if first then l1_index else 0)
         else Some (c, l1, l0_index, l1_index));
      '(c, rest) ← commit_turn is_dma flags c l1 l1_index ndx pages;
      if rest =? 0 then Some c else commit_tables n is_dma flags c l1 l0_index l1_index 0 rest false
  end.

(** The result is the physical address of the first page, past the metadata of
    its reservation, when the pages are contiguous. *)
Definition vmem_commit_vmem_range (s : phys) (addr pages flags : Z) : option (phys * Z) :=
  let pages := u64 (Z.shiftl pages VIRT_PHY_PAGE_RATIO_BITS) in
  let is_dma := flag flags COMMIT_DMA in
  let tlb := if flag flags COMMIT_UNCACHED then TLB_FLAGS_UNCACHED else TLB_FLAGS_DEFAULT in
  c ← commit_tables (S (Z.to_nat pages)) is_dma tlb (mk_range s 0 0 0) None (u64 (L0_INDEX addr - 1)) (u64 (L1_INDEX addr - 1))
        (L2_INDEX addr) pages true;
  Some (r_phys c, u64 (u64 (Z.shiftl (contig_base c) PHY_PAGE_SIZE_BITS) + RES_META_SIZE)).

(** ** Looking at the tables *)

Definition get_l2_for_addr (m : mem_t) (vaddr : Z) : option ptable_t :=
  sub_table m (get_sub_table m (get_top_level_table top) (L0_INDEX vaddr)) (L1_INDEX vaddr).

Definition mapping_exists (m : mem_t) (vaddr : Z) : bool :=
  match get_l2_for_addr m vaddr with
  | None => false
  | Some l2 => let ent := entries m l2 (L2_INDEX vaddr) in negb ((ent =? 0) || (ent =? VTABLE_ENTRY_USED))
  end.

(** ** The system

    The memory manager commits pages, its cleaner takes turns, and software
    stores through the translation. *)

Inductive mm_op : Type :=
  | Commit (addr : Z)
  | CommitRange (addr pages flags : Z)
  | Clean
  | Store (va value : Z).

Record mm := mk_mm { mm_phys : phys; mm_cleaner : cleaner }.

Definition mm_step (v : mm) (op : mm_op) : option mm :=
  match op with
  | Commit addr => '(s, _) ← vmem_commit_vmem (mm_phys v) addr; Some (mk_mm s (mm_cleaner v))
  | CommitRange addr pages flags => '(s, _) ← vmem_commit_vmem_range (mm_phys v) addr pages flags; Some (mk_mm s (mm_cleaner v))
  | Clean => '(s, c, _) ← clean_turn (mm_phys v) (mm_cleaner v); Some (mk_mm s c)
  | Store va x =>
      Some match translate (memory (mm_phys v)) top va with
           | Some (p, e) =>
               if Z.testbit e 2 then mk_mm (store_word (mm_phys v) (p * 256 + va mod 4096 / 16) x) (mm_cleaner v) else v
           | None => v
           end
  end.

Fixpoint mm_run (v : mm) (ops : list mm_op) : option mm :=
  match ops with [] => Some v | op :: ops => v ← mm_step v op; mm_run v ops end.

End Vmem.

(** What [nano_kernel_init] and the loop at the start of the kernel leave. *)
Definition mm_boot (a0 : Z) (m : mem_t) (top : Z) : option mm :=
  s ← boot_clean fuel (mk_phys (init_book a0) (set_giga m top)) 0; Some (mk_mm s (mk_cleaner 0 true)).

(** A load through the translation. *)
Definition mm_load (top : Z) (v : mm) (va : Z) : option Z :=
  '(p, e) ← translate (memory (mm_phys v)) top va;
  if Z.testbit e 1 then Some (default 0 (memory (mm_phys v) !! (p * 256 + va mod 4096 / 16))) else None.
