(* ===== verification/VmemBook.v ===== *)
(** * Chunk boundaries of the page book

    Committing a range of pages keeps a place in the book across calls that
    split and merge chunks.  These lemmas say which boundaries the calls keep. *)

From S2P Require Import Prelude Book Pmem PageTable Vmem.

#[local] Existing Instance live_chunks.

(** ** Books with live chunks and with any *)

Lemma laid_bound (S1 S2 : StatusBound) b cs : @laid S1 b cs -> Forall (fun c => c.2 < @top_status S2) cs -> @laid S2 b cs.
Proof.
  intros (H & Hp & Hs) HF; split; [|by split]; clear Hp Hs; revert H.
  enough (forall p s, @seg S1 b p s cs -> @seg S2 b p s cs) by auto.
  induction HF as [|c cs Hc HF IH]; [done|]; intros p s [(H1 & H2 & H3) H]; split; [|by apply IH].
  split; [done|]; split; [lia|done].
Qed.

Lemma laid_any b cs : @laid live_chunks b cs -> @laid any_status b cs.
Proof.
  intros HL; eapply laid_bound; [exact HL|]; apply Forall_forall; intros c Hc; apply list_elem_of_split in Hc as (A & B & ->).
  pose proof (chunk_live _ _ _ _ HL) as [_ Hl]; cbn; unfold page_transaction, page_screwed_the_pooch in *; lia.
Qed.

Lemma book_any b F : @book_ok live_chunks b F -> @book_ok any_status b F.
Proof. intros (cs & HL & HF & HN); exists cs; split; [by apply laid_any|by split]. Qed.

Lemma phys_any s F : @phys_ok live_chunks s F -> @phys_ok any_status s F.
Proof. intros [H ?]; split; [by apply book_any|done]. Qed.

(** ** Boundaries *)

Definition starts (b : book_t) (p : Z) : Prop := 0 <= p <= TOTAL_PHY_PAGES /\ 0 < len (ent b p).

Lemma starts_laid b cs p : laid b cs -> starts b p <-> exists A B, cs = A ++ B /\ pos 0 A = p.
Proof.
  intros HL; split.
  - intros [Hp Hl]; destruct (decide (p = TOTAL_PHY_PAGES)) as [->|Hne].
    { exists cs, []; rewrite app_nil_r; split; [done|by eapply pos_end]. }
    destruct (page_cases _ _ p HL ltac:(lia)) as [(A & c & B & E & Ep)|[E _]]; [|lia]; by exists A, (c :: B).
  - intros (A & B & -> & <-); destruct B as [|c B].
    + rewrite app_nil_r in HL; pose proof HL as (_ & Hp & _ & Hs & _); unfold starts; rewrite Hp, Hs; split; [rewrite total_val|]; lia.
    + pose proof (chunk_bounds _ _ _ _ _ HL eq_refl) as (? & ? & ? & _ & _ & E & _); unfold starts; rewrite E; lia.
Qed.

(** A book has one layout. *)
Lemma laid_fun b cs cs' : laid b cs -> laid b cs' -> cs = cs'.
Proof.
  enough (forall p p' s, seg b p s cs -> seg b p' s cs' -> pos s cs = pos s cs' -> cs = cs') as HG.
  { intros (H1 & P1 & _) (H2 & P2 & _); eapply HG; [done|done|congruence]. }
  revert cs'; induction cs as [|[l st] cs IH]; intros [|[l' st'] cs'] p p' s H H' E; cbn in *; [done| | |].
  - destruct H' as [(? & _) H']; pose proof (seg_pos _ _ _ _ H'); cbn in *; lia.
  - destruct H as [(? & _) H]; pose proof (seg_pos _ _ _ _ H); cbn in *; lia.
  - destruct H as [(_ & _ & E1 & E2 & _) H], H' as [(_ & _ & E1' & E2' & _) H']; cbn in *; assert (l' = l) as -> by lia; assert (st' = st) as -> by lia.
    f_equal; by eapply IH.
Qed.

Lemma start_chunk b F p : book_ok b F -> starts b p -> p < TOTAL_PHY_PAGES -> chunk_is b F p (len (ent b p)) (status (ent b p)).
Proof.
  intros (cs & HL & HF & HN) [Hp Hl] Hlt; destruct (page_cases _ _ p HL ltac:(lia)) as [(A & [l st] & B & -> & Ep)|[E _]]; [|lia].
  subst p; pose proof (chunk_bounds _ _ _ _ _ HL eq_refl) as (_ & _ & _ & _ & -> & -> & _); by exists A, B.
Qed.

Lemma chunk_starts b F p l st : chunk_is b F p l st -> starts b p /\ starts b (p + l) /\ status (ent b p) = st /\ len (ent b p) = l /\ 0 < l.
Proof.
  intros (A & B & HL & HF & <-); pose proof (chunk_bounds _ _ _ _ _ HL eq_refl) as (? & Hl & ? & _ & -> & -> & _); split_and!; try done.
  - apply (starts_laid _ _ _ HL); by exists A, ((l, st) :: B).
  - apply (starts_laid _ _ _ HL); exists (A ++ [(l, st)]), B; by rewrite <- app_assoc, pos_snoc.
Qed.

(** The chunk before. *)
Lemma chunk_before b F p l st : chunk_is b F p l st -> 0 < p ->
  exists l0 st0, chunk_is b F (prev (ent b p)) l0 st0 /\ prev (ent b p) + l0 = p.
Proof.
  intros (A & B & HL & HF & <-) Hp; destruct (chunk_bounds _ _ _ _ _ HL eq_refl) as (_ & _ & _ & _ & _ & _ & ->).
  destruct A as [|[l0 st0] A _] using rev_ind; [cbn in Hp; lia|]; rewrite pos_snoc_last, pos_snoc.
  rewrite <- app_assoc in HL, HF; exists l0, st0; split; [by eexists A, _|done].
Qed.

(** ** Counting unused pages *)

Definition free (F : list Z) : Z := Z.of_nat (length (filter (fun st => st = page_unused) F)).

Lemma free_app F G : free (F ++ G) = free F + free G.
Proof. unfold free; rewrite filter_app, length_app; lia. Qed.

Lemma free_replicate n st : free (replicate n st) = if decide (st = page_unused) then Z.of_nat n else 0.
Proof.
  unfold free; case_decide as D; induction n as [|n IH]; cbn [replicate]; try done.
  - rewrite filter_cons_True by done; cbn [length]; lia.
  - by rewrite filter_cons_False.
Qed.

Lemma range_decompose F i l st : 0 <= i -> 0 < l -> i + l <= Z.of_nat (length F) -> range_all F i l st -> F = set_range F i l st.
Proof.
  intros Hi Hl Hle HF; apply list_eq; intros k; rewrite set_range_lookup by done; case_decide; [|done].
  rewrite <- (HF (Z.of_nat k)) by lia; by rewrite Nat2Z.id.
Qed.

Lemma free_set_range F i l st st' : 0 <= i -> 0 < l -> i + l <= Z.of_nat (length F) -> range_all F i l st -> st' <> page_unused ->
  free (set_range F i l st') = free F - (if decide (st = page_unused) then l else 0).
Proof.
  intros Hi Hl Hle HF Hn; rewrite (range_decompose F i l st) at 2 by done; unfold set_range; rewrite !free_app, !free_replicate.
  rewrite (decide_False (P := st' = _)) by done; case_decide; lia.
Qed.

Lemma free_some F : 0 < free F -> exists p, stat F p page_unused.
Proof.
  unfold free; intros H; destruct (filter _ F) as [|x G] eqn:E; [done|].
  assert (x ∈ filter (fun st => st = page_unused) F) as Hx by (rewrite E; by left).
  apply list_elem_of_filter in Hx as [-> Hx]; apply list_elem_of_lookup in Hx as [k Hk].
  exists (Z.of_nat k); split; [lia|by rewrite Nat2Z.id].
Qed.

Lemma free_pos F x : stat F x page_unused -> 0 < free F.
Proof.
  intros [_ Hx]; apply list_elem_of_lookup_2 in Hx; unfold free; destruct (filter _ F) eqn:E; [|cbn; lia].
  assert (page_unused ∈ filter (fun st => st = page_unused) F) as H by (by apply list_elem_of_filter); rewrite E in H; inversion H.
Qed.

(** ** One chunk of unused pages *)

(** All the unused pages are the chunk at [lo]. *)
Definition whole (b : book_t) (F : list Z) (lo : Z) : Prop := chunk_is b F lo (free F) page_unused.

Definition solid (b : book_t) (F : list Z) : Prop := 0 < free F -> exists lo, whole b F lo.

Lemma whole_inside b F lo x : whole b F lo -> stat F x page_unused -> lo <= x < lo + free F.
Proof.
  intros HC Hx; destruct (decide (lo <= x < lo + free F)) as [|Hn]; [done|exfalso]; pose proof (chunk_range _ _ _ _ _ HC) as HR.
  destruct (chunk_entry _ _ _ _ _ HC) as (_ & _ & _ & _ & H0 & Hl & Ht); pose proof HC as (A & B & HL & HF & _); pose proof (flat_length_laid _ _ HL) as Hlen.
  rewrite HF in Hlen; pose proof (free_set_range F lo (free F) page_unused page_mapped ltac:(lia) Hl ltac:(lia) HR ltac:(done)) as E; rewrite decide_True in E by done.
  assert (0 < free (set_range F lo (free F) page_mapped)); [|lia]; apply (free_pos _ x); destruct Hx as [Hx0 Hx]; split; [done|].
  rewrite set_range_lookup, decide_False by lia; done.
Qed.

Lemma laid_pos b A k Q : laid b (A ++ k ++ Q) -> pos 0 A <= pos 0 (A ++ k).
Proof. intros HL; rewrite pos_app; apply tail_app in HL as [_ (HL & _)]; apply seg_app in HL as [HL _]; by eapply seg_pos. Qed.

(** No boundary is inside of a chunk. *)
Lemma chunk_inside b F p l st x : chunk_is b F p l st -> starts b x -> p <= x < p + l -> x = p.
Proof.
  intros (A & B & HL & _ & <-) Hx Hr; apply (starts_laid _ _ _ HL) in Hx as (P & Q & E & <-); symmetry in E; apply app_eq_inv in E as [(k & -> & E)|(k & -> & E)].
  - destruct k as [|c k]; [by rewrite app_nil_r|]; injection E as <- ->; exfalso; rewrite cons_snoc in HL.
    pose proof (laid_pos _ (A ++ [(l, st)]) k Q HL) as Hle; rewrite pos_snoc, <- cons_snoc in Hle; cbn in Hle; lia.
  - rewrite <- app_assoc in HL; pose proof (laid_pos _ _ _ _ HL); lia.
Qed.

Lemma solid_chunk b F p l : solid b F -> chunk_is b F p l page_unused -> whole b F p /\ l = free F.
Proof.
  intros HS HC; destruct (chunk_starts _ _ _ _ _ HC) as (Hs & _ & _ & El & Hl); pose proof (chunk_range _ _ _ _ _ HC p ltac:(lia)) as Hp.
  assert (stat F p page_unused) as Hst by (split; [by destruct Hs; lia|done]); destruct (HS (free_pos _ _ Hst)) as [lo HW].
  pose proof (chunk_inside _ _ _ _ _ _ HW Hs (whole_inside _ _ _ _ HW Hst)) as ->; split; [done|].
  by destruct (chunk_starts _ _ _ _ _ HW) as (_ & _ & _ & <- & _).
Qed.

(** The unused pages beside the [n] pages at [q] of status [st] are the chunk
    at [lo]. *)
Definition beside (b : book_t) (F : list Z) (lo q n st : Z) : Prop :=
  let k := free F - (if decide (st = page_unused) then n else 0) in 0 < k -> lo <> q /\ chunk_is b F lo k page_unused.

(** ** Splitting *)

Lemma break_starts b F p l st n : chunk_is b F p l st -> 0 < n <= l -> n < TOTAL_PHY_PAGES ->
  exists b', pmem_break_page_to b p n = Some b' /\ chunk_is b' F p n st /\ (n < l -> chunk_is b' F (p + n) (l - n) st) /\
    forall x, starts b x -> starts b' x.
Proof.
  intros (A & B & HL & <- & <-) Hn Ht; destruct (break_laid _ _ _ _ _ n HL Hn Ht) as (b' & E & HL'); exists b'.
  pose proof (flat_cut A l n st B Hn) as HF; split_and!; [done|by eexists A, _| |].
  - intros Hlt; unfold cut in *; rewrite decide_False in * by lia; exists (A ++ [(n, st)]), B; rewrite <- !app_assoc, pos_snoc; done.
  - intros x; rewrite (starts_laid _ _ _ HL), (starts_laid _ _ _ HL'); unfold cut; case_decide as D; [by subst|].
    intros (P & Q & E' & <-); symmetry in E'; apply app_eq_inv in E' as [(k & -> & E')|(k & -> & E')].
    + destruct k as [|c k]; cbn in E'; [exists A, ((n, st) :: (l - n, st) :: B); by rewrite app_nil_r|].
      injection E' as <- ->; exists (A ++ (n, st) :: (l - n, st) :: k), Q; split; [by rewrite <- app_assoc|]; rewrite !pos_app; cbn; f_equal; lia.
    + exists P, (k ++ (n, st) :: (l - n, st) :: B); by rewrite <- app_assoc.
Qed.

Lemma break_chunks b F p l st n b' : chunk_is b F p l st -> 0 < n <= l -> n < TOTAL_PHY_PAGES -> pmem_break_page_to b p n = Some b' ->
  forall x lx sx, chunk_is b F x lx sx -> x <> p -> chunk_is b' F x lx sx.
Proof.
  intros (A & B & HL & HF & <-) Hn Ht E x lx sx (P & Q & HL2 & HF2 & <-) Hne; assert (A ++ (l, st) :: B = P ++ (lx, sx) :: Q) as EC by (by eapply laid_fun).
  clear HL2 HF2; destruct (break_laid _ _ _ _ _ n HL Hn Ht) as (b2 & E2 & HL'); assert (b2 = b') as -> by congruence.
  pose proof (flat_cut A l n st B Hn) as HF'; rewrite HF in HF'; symmetry in EC; apply app_eq_inv in EC as [(k & -> & EC)|(k & -> & EC)].
  - destruct k as [|y k]; [by rewrite app_nil_r in Hne|]; injection EC as <- ->; unfold cut in *; case_decide as D.
    + subst n; exists (A ++ (l, st) :: k), Q; rewrite <- app_assoc; by split_and!.
    + exists (A ++ (n, st) :: (l - n, st) :: k), Q; rewrite <- app_assoc; split_and!; [done|done|]; rewrite !pos_app; cbn; f_equal; lia.
  - destruct k as [|y k]; [by rewrite app_nil_r in Hne|]; injection EC as <- ->.
    exists P, (k ++ (n, st) :: cut l n st B); rewrite <- app_assoc in HL', HF'; by split_and!.
Qed.

(** Whatever is split, no boundary is lost. *)
Lemma break_any b F p n b' : book_ok b F -> in_range 64 n -> pmem_break_page_to b p n = Some b' ->
  book_ok b' F /\ forall x, starts b x -> starts b' x.
Proof.
  intros HB Hn; unfold pmem_break_page_to.
  destruct (sge 0 n) eqn:E1; [done|]; destruct (sge n TOTAL_PHY_PAGES) eqn:E2; [done|]; cbn [negb assert mbind option_bind].
  unfold bget, in_book; destruct ((0 <=? p) && (p <=? TOTAL_PHY_PAGES)) eqn:Ep; cbn [mbind option_bind]; [|done].
  apply andb_true_iff in Ep as [Ep1%Z.leb_le Ep2%Z.leb_le]; destruct (len (ent b p) =? n) eqn:El; [by intros [= <-]|].
  destruct ((n <? len (ent b p)) && negb (n =? 0)) eqn:En; [|done].
  apply andb_true_iff in En as [En1%Z.ltb_lt En2%negb_true_iff]; apply Z.eqb_neq in En2; intros Es; unfold in_range in Hn.
  assert (starts b p) as Hp by (split; lia); assert (p < TOTAL_PHY_PAGES) as Hlt.
  { destruct (decide (p = TOTAL_PHY_PAGES)) as [->|]; [|lia]; destruct HB as (cs & (_ & _ & _ & Hs & _) & _); lia. }
  pose proof (start_chunk _ _ _ HB Hp Hlt) as HC; pose proof (chunk_entry _ _ _ _ _ HC) as (_ & _ & _ & _ & _ & _ & Hle).
  destruct (break_starts _ _ _ _ _ n HC) as (b2 & E & HC' & _ & Hm); [lia|lia|].
  unfold pmem_break_page_to in E; rewrite E1, E2 in E; cbn [negb assert mbind option_bind] in E; rewrite bget_in in E by lia; cbn [mbind option_bind] in E.
  rewrite El, (proj2 (Z.ltb_lt _ _)), (proj2 (Z.eqb_neq n 0)) in E by lia; cbn [negb andb] in E.
  assert (b2 = b') as -> by congruence; split; [|done]; destruct HB as (? & _ & _ & HN); by eapply chunk_book.
Qed.

(** ** Merging *)

Lemma start_status b F x : book_ok b F -> starts b x -> x < TOTAL_PHY_PAGES -> stat F x (status (ent b x)).
Proof.
  intros HB Hx Hlt; pose proof (start_chunk _ _ _ HB Hx Hlt) as HC; destruct Hx; split; [lia|].
  apply (chunk_range _ _ _ _ _ HC); lia.
Qed.

(** A merge removes one boundary at most, after a page of the status merged. *)
Lemma merge_starts b F p l st : chunk_is b F p l st -> last F <> Some page_nano_owned ->
  exists b', merge_phy_page_range b p = Some b' /\ book_ok b' F /\ starts b' p /\ forall x, starts b x -> x <> p + l -> starts b' x.
Proof.
  intros HC HN; pose proof HC as (A & B & HL & HF & <-); rewrite <- HF in HN.
  destruct (merge_absorb _ _ _ _ HL HN) as (b' & E & HL'); pose proof (flat_absorb _ _ _ _ HL) as HF'.
  exists b'; split; [done|]; split; [exists (A ++ absorb (l, st) B); split_and!; [done|congruence|congruence]|].
  split; [apply (starts_laid _ _ _ HL'); by exists A, (absorb (l, st) B)|].
  intros x Hx Hne; apply (starts_laid _ _ _ HL) in Hx as (P & Q & E' & <-); apply (starts_laid _ _ _ HL').
  symmetry in E'; apply app_eq_inv in E' as [(k & -> & E')|(k & -> & E')].
  2:{ exists P, (k ++ absorb (l, st) B); by rewrite <- app_assoc. }
  destruct k as [|c k]; cbn in E'; [exists A, (absorb (l, st) B); by rewrite app_nil_r|]; injection E' as <- ->.
  destruct k as [|d k]; [by rewrite pos_snoc in Hne|]; cbn [app absorb]; case_decide as D.
  - exists (A ++ (l + d.1, st) :: k), Q; split; [by rewrite <- app_assoc|]; rewrite !pos_app; cbn; f_equal; lia.
  - exists (A ++ (l, st) :: d :: k), Q; by rewrite <- app_assoc.
Qed.

(** The other chunks are as before. *)
Lemma merge_chunks b F p l st b' : chunk_is b F p l st -> last F <> Some page_nano_owned -> merge_phy_page_range b p = Some b' ->
  forall x lx sx, chunk_is b F x lx sx -> x <> p -> x <> p + l -> chunk_is b' F x lx sx.
Proof.
  intros (A & B & HL & HF & <-) HN E x lx sx (P & Q & HL2 & HF2 & <-) Hne1 Hne2.
  assert (A ++ (l, st) :: B = P ++ (lx, sx) :: Q) as EC by (by eapply laid_fun); clear HL2 HF2; rewrite <- HF in HN |- *.
  destruct (merge_absorb _ _ _ _ HL HN) as (b2 & E2 & HL'); assert (b2 = b') as -> by congruence; pose proof (flat_absorb _ _ _ _ HL) as HF'.
  symmetry in EC; apply app_eq_inv in EC as [(k & -> & EC)|(k & -> & EC)].
  - destruct k as [|y k]; [by rewrite app_nil_r in Hne1|]; injection EC as <- ->; destruct k as [|d k]; [by rewrite pos_snoc in Hne2|].
    cbn [app absorb] in *; case_decide as D.
    + exists (A ++ (l + d.1, st) :: k), Q; rewrite <- app_assoc; split_and!; [done|done|]; rewrite !pos_app; cbn; f_equal; lia.
    + exists (A ++ (l, st) :: d :: k), Q; rewrite <- app_assoc; by split_and!.
  - destruct k as [|y k]; [by rewrite app_nil_r in Hne1|]; injection EC as <- ->.
    exists P, (k ++ absorb (l, st) B); rewrite <- app_assoc in HL', HF'; by split_and!.
Qed.

Lemma merge_others b F p l st b' : chunk_is b F p l st -> last F <> Some page_nano_owned -> merge_phy_page_range b p = Some b' ->
  forall x lx sx, chunk_is b F x lx sx -> sx <> st -> chunk_is b' F x lx sx.
Proof.
  intros HC HN E x lx sx Hx Hne; assert (x <> p) as Hxp.
  { intros ->; apply Hne; destruct (chunk_starts _ _ _ _ _ HC) as (_ & _ & <- & _), (chunk_starts _ _ _ _ _ Hx) as (_ & _ & <- & _); done. }
  destruct (decide (x = p + l)) as [Exl|]; [|by eapply (merge_chunks b F p l st)]; destruct (merge_starts _ _ _ _ _ HC HN) as (b2 & E2 & HB' & Hsp & Hs).
  assert (b2 = b') as -> by congruence; clear E2; pose proof HC as (A & B & HL & HF & Ep); pose proof Hx as (P & Q & HL2 & HF2 & Ex).
  assert (A ++ (l, st) :: B = P ++ (lx, sx) :: Q) as EC by (by eapply laid_fun); rewrite <- HF in HN.
  destruct (merge_absorb _ _ _ _ HL HN) as (b2 & E2 & HL'); rewrite Ep in E2; assert (b2 = b') as -> by congruence; pose proof (flat_absorb _ _ _ _ HL) as HF'.
  assert (absorb (l, st) B = (l, st) :: B) as EA; [|rewrite EA in HL'; exists P, Q; rewrite <- EC; by split_and!].
  destruct B as [|[l1 st1] B]; [done|]; cbn [absorb snd]; case_decide as D; [|done]; cbn in D; subst st1; exfalso.
  assert (chunk_is b F (p + l) l1 st) as H1 by (exists (A ++ [(l, st)]), B; rewrite <- cons_snoc, pos_snoc, Ep; by split_and!).
  rewrite Exl in Hx; destruct (chunk_starts _ _ _ _ _ H1) as (_ & _ & S1 & _), (chunk_starts _ _ _ _ _ Hx) as (_ & _ & S2 & _); congruence.
Qed.

Lemma merge_keeps b F i : book_ok b F -> starts b i -> i < TOTAL_PHY_PAGES ->
  exists b', merge_phy_page_range b i = Some b' /\ book_ok b' F /\ starts b' i /\
    (forall x, starts b x -> ~ stat F (x - 1) (status (ent b i)) -> starts b' x) /\
    forall x lx sx, chunk_is b F x lx sx -> sx <> status (ent b i) -> chunk_is b' F x lx sx.
Proof.
  intros HB Hi Hlt; pose proof (start_chunk _ _ _ HB Hi Hlt) as HC; pose proof HB as (_ & _ & _ & HN).
  destruct (merge_starts _ _ _ _ _ HC HN) as (b' & E & HB' & Hs & Hx); exists b'; split_and!; try done; [|by eapply merge_others].
  intros x Hst Hno; apply Hx; [done|]; intros ->; apply Hno; destruct Hi as [Hi Hl]; split; [lia|].
  apply (chunk_range _ _ _ _ _ HC); lia.
Qed.

(** The chunk before a boundary, the first one being before itself. *)
Lemma prev_starts b F p : book_ok b F -> starts b p -> p < TOTAL_PHY_PAGES -> starts b (prev (ent b p)) /\ prev (ent b p) <= p.
Proof.
  intros HB Hp Hlt; pose proof (start_chunk _ _ _ HB Hp Hlt) as HC; destruct (decide (p = 0)) as [->|Hne].
  - destruct HC as (A & B & HL & _ & E); pose proof (chunk_bounds _ _ _ _ _ HL eq_refl) as (_ & _ & _ & _ & _ & _ & E3); rewrite E in E3.
    destruct A as [|a A]; [cbn in E3; rewrite E3; split; [done|lia]|].
    apply tail_app in HL as [[(Ha & _) Hs] _]; cbn in *; pose proof (seg_pos _ _ _ _ Hs); lia.
  - pose proof Hp as [? _]; destruct (chunk_before _ _ _ _ _ HC ltac:(lia)) as (l0 & st0 & HC0 & E).
    destruct (chunk_starts _ _ _ _ _ HC0) as (? & _ & _ & _ & ?); split; [done|lia].
Qed.

Lemma try_merge_starts b F p : book_ok b F -> starts b p -> p < TOTAL_PHY_PAGES ->
  exists b' p', pmem_try_merge b p = Some (b', p') /\ book_ok b' F /\
    (forall x, starts b x -> ~ stat F (x - 1) (status (ent b p)) -> starts b' x) /\
    forall x lx sx, chunk_is b F x lx sx -> sx <> status (ent b p) -> chunk_is b' F x lx sx.
Proof.
  intros HB Hp Hlt; unfold pmem_try_merge; rewrite (proj2 (Z.ltb_lt _ _)) by done; cbn [assert mbind option_bind].
  pose proof (prev_starts _ _ _ HB Hp Hlt) as [Hq Hle]; pose proof Hp as [Hp0 Hpl]; pose proof Hq as [Hq0 _].
  pose proof (start_status _ _ _ HB Hp Hlt) as Hst; rewrite !bget_in by lia; cbn [mbind option_bind].
  set (st := status (ent b p)) in *; pose proof (start_status _ _ _ HB Hq ltac:(lia)) as Hsq.
  assert (exists b1 p1, (if status (ent b (prev (ent b p))) =? st then
       b0 ← merge_phy_page_range b (prev (ent b p)); e ← bget b0 p; Some (b0, if len e =? 0 then prev (ent b p) else p)
     else Some (b, p)) = Some (b1, p1) /\ book_ok b1 F /\ starts b1 p1 /\ stat F p1 st /\ p1 < TOTAL_PHY_PAGES /\
     (forall x, starts b x -> ~ stat F (x - 1) st -> starts b1 x) /\ forall x lx sx, chunk_is b F x lx sx -> sx <> st -> chunk_is b1 F x lx sx)
    as (b1 & p1 & E & HB1 & Hp1 & Hst1 & Hlt1 & Hm1 & Hc1).
  { destruct (_ =? st) eqn:E; [apply Z.eqb_eq in E|by exists b, p].
    destruct (merge_keeps _ _ _ HB Hq ltac:(lia)) as (b1 & -> & HB1 & Hs1 & Hm1 & Hc1); rewrite E in Hm1, Hc1; cbn [mbind option_bind].
    rewrite bget_in by lia; cbn [mbind option_bind]; destruct (len (ent b1 p) =? 0) eqn:El.
    - exists b1, (prev (ent b p)); rewrite E in Hsq.
      refine (conj eq_refl (conj HB1 (conj Hs1 (conj Hsq (conj _ (conj Hm1 Hc1)))))); lia.
    - apply Z.eqb_neq in El; exists b1, p; refine (conj eq_refl (conj HB1 (conj (conj _ _) (conj Hst (conj Hlt (conj Hm1 Hc1)))))); [lia|].
      destruct HB1 as (cs & HL1 & _); destruct (page_cases _ _ p HL1 ltac:(lia)) as [(A & c & B & -> & <-)|[? _]]; [|lia].
      pose proof (chunk_bounds _ _ _ _ _ HL1 eq_refl) as (_ & ? & _ & _ & _ & -> & _); done. }
  rewrite bget_in by lia; cbn [mbind option_bind] in E |- *; rewrite E; cbn [mbind option_bind]; clear E; pose proof Hp1 as [Hp10 _].
  pose proof (chunk_entry _ _ _ _ _ (start_chunk _ _ _ HB Hp Hlt)) as (_ & _ & _ & _ & _ & _ & Hend).
  rewrite (u64_in (p + _)), !bget_in by lia; cbn [mbind option_bind].
  destruct (merge_keeps _ _ _ HB1 Hp1 ltac:(lia)) as (b2 & Em & HB2 & _ & Hm2 & Hc2).
  rewrite (stat_fun _ _ _ _ (start_status _ _ _ HB1 Hp1 Hlt1) Hst1) in *.
  destruct (negb _); cbn [mbind option_bind]; [destruct (_ =? _)|]; rewrite ?Em; cbn [mbind option_bind];
    [exists b2, p1|exists b1, p1|exists b1, p1]; (split_and!; [done|done| |]); auto.
Qed.

(** The merges after a mapping: with the chunk before, and of the chunk
    before with the one at a boundary. *)
Lemma merge_before b F p l st : chunk_is b F p l st -> 0 < p -> last F <> Some page_nano_owned ->
  exists b', merge_phy_page_range b (prev (ent b p)) = Some b' /\ book_ok b' F /\ (forall x, starts b x -> x <> p -> starts b' x) /\
    forall x lx sx, chunk_is b F x lx sx -> p < x -> chunk_is b' F x lx sx.
Proof.
  intros HC Hp HN; destruct (chunk_before _ _ _ _ _ HC Hp) as (l0 & st0 & HC0 & E).
  destruct (merge_starts _ _ _ _ _ HC0 HN) as (b' & Em & HB & _ & Hs); exists b'; split_and!; [done|done| |].
  - intros x Hx Hne; apply Hs; [done|lia].
  - intros x lx sx Hx Hlt; destruct (chunk_starts _ _ _ _ _ HC0) as (_ & _ & _ & _ & ?); eapply (merge_chunks _ _ _ _ _ _ HC0 HN Em); [done|lia|lia].
Qed.

Lemma merge_left b F p l st : chunk_is b F p l st -> 0 < p -> last F <> Some page_nano_owned ->
  exists b', (f ← bget b (prev (ent b p)); if status f =? page_mapped then merge_phy_page_range b (prev (ent b p)) else Some b) = Some b' /\
    book_ok b' F /\ (forall x, starts b x -> x <> p -> starts b' x) /\ forall x lx sx, chunk_is b F x lx sx -> p < x -> chunk_is b' F x lx sx.
Proof.
  intros HC Hp HN; pose proof (chunk_book _ _ _ _ _ HC HN) as HB; destruct (chunk_starts _ _ _ _ _ HC) as (Hs & _).
  destruct (chunk_entry _ _ _ _ _ HC) as (_ & _ & _ & _ & _ & ? & ?); destruct (prev_starts _ _ _ HB Hs ltac:(lia)) as [[Hr _] _].
  rewrite bget_in by lia; cbn [mbind option_bind]; destruct (_ =? _); [by eapply merge_before|by exists b].
Qed.

(** ** Searching *)

Section Finding.

Context (CRAM : Z -> Z) (HCR : cram_ok CRAM).

Lemma find_starts b F L rt flags from b' r : book_ok b F -> flag flags PMEM_PRECISE = false ->
  pmem_find_page_type CRAM b L rt flags from = Some (b', r) -> forall x, starts b x -> starts b' x.
Proof.
  intros HB Hp; unfold pmem_find_page_type; rewrite Hp; cbn [andb negb assert mbind option_bind fst snd].
  destruct (find_loop _ _ _ _ _ _ _) as [i|]; cbn [mbind option_bind]; [|done].
  destruct (i =? _); [by intros [= <- <-]|]; destruct (flag flags PMEM_ALLOW_GREATER); [by intros [= <- <-]|].
  destruct (bget b i) as [e|]; cbn [mbind option_bind]; [|done]; set (r0 := if flag flags PMEM_BACKWARDS then _ else _).
  assert (forall x b0 F' i n b1, book_ok b0 F' -> in_range 64 n -> (if x : bool then pmem_break_page_to b0 i n else Some b0) = Some b1 ->
    book_ok b1 F' /\ forall x, starts b0 x -> starts b1 x) as Hif.
  { intros [] b0 F' i0 n b1 HB0 Hn E; [by eapply break_any|]; by injection E as <-. }
  assert (forall z, in_range 64 (u64 z)) as Hu by (intros; apply Z.mod_pos_bound; lia).
  destruct (if negb (r0 =? i) then _ else _) as [b1|] eqn:E1; cbn [mbind option_bind]; [|done].
  destruct (Hif _ _ _ _ _ _ HB (Hu _) E1) as [HB1 Hm1].
  destruct (bget b1 r0) as [e1|]; cbn [mbind option_bind]; [|done].
  destruct (if negb (len e1 =? _) then _ else _) as [b2|] eqn:E2; cbn [mbind option_bind]; [|done].
  intros [= <- <-] x Hx; eapply (Hif _ _ _ _ _ _ HB1); [|exact E2|by apply Hm1].
  pose proof (Hu (Z.shiftl L PHY_PAGE_SIZE_BITS)) as Hr; unfold in_range, PHY_PAGE_SIZE_BITS in *; rewrite Z.shiftr_div_pow2 by lia.
  split; [apply Z.div_pos; lia|apply Z.div_lt_upper_bound; lia].
Qed.

(** What is left of the chunk a page is taken from, and the other chunks. *)
Lemma find_kept b F rt flags A B b' r : laid b (A ++ B) -> flat (A ++ B) = F -> rt <> page_nano_owned -> flags = PMEM_BACKWARDS \/ flags = PMEM_NONE ->
  pmem_find_page_type CRAM b 1 rt flags (pos 0 A) = Some (b', r) -> r <> BOOK_END ->
  exists i l, chunk_is b F i l rt /\ (forall x lx sx, chunk_is b F x lx sx -> x <> i -> chunk_is b' F x lx sx) /\
    (1 < l -> chunk_is b' F (if flag flags PMEM_BACKWARDS then i else i + 1) (l - 1) rt) /\ r = if flag flags PMEM_BACKWARDS then i + l - 1 else i.
Proof.
  intros HL HF Hrt Hfl; unfold pmem_find_page_type.
  assert (flag flags PMEM_PRECISE = false /\ flag flags PMEM_ALLOW_GREATER = false) as [-> ->] by (destruct Hfl as [-> | ->]; done).
  cbn [andb negb assert mbind option_bind fst snd]; change (Z.shiftr (u64 (Z.shiftl 1 PHY_PAGE_SIZE_BITS)) PHY_PAGE_SIZE_BITS) with 1.
  change (Z.shiftr 0 PHY_PAGE_SIZE_BITS) with (2 ^ 0 - 1).
  destruct (find_loop_ok b _ 1 rt 0 (flag flags PMEM_BACKWARDS) A B HL ltac:(lia) ltac:(lia) Hrt eq_refl) as (i & -> & Hi); cbn [mbind option_bind].
  destruct Hi as [[-> _]|(-> & A1 & [l st] & B1 & E1 & _ & -> & [Est Hroom])]; [by intros [= <- <-]|]; cbn in Est; subst st.
  rewrite E1 in HL, HF; assert (chunk_is b F (pos 0 A1) l rt) as HC by (by exists A1, B1); set (i := pos 0 A1) in *; clearbody i.
  destruct (chunk_starts _ _ _ _ _ HC) as ([Hi _] & _ & _ & El & Hl); destruct (chunk_entry _ _ _ _ _ HC) as (_ & _ & _ & _ & _ & _ & Ht).
  pose proof total_val as TV; rewrite bget_in by lia; cbn [mbind option_bind]; rewrite El.
  change (2 ^ 0 - 1) with 0; change (u64 (Z.lnot 0)) with (Z.ones 64).
  assert (forall z, in_range 64 z -> Z.land z (Z.ones 64) = z) as Hland by (intros z Hz; rewrite Z.land_ones by lia; by apply Z.mod_small).
  rewrite (u64_in (i + l)), (u64_in (i + 0)), !Hland by (unfold in_range; lia); rewrite Z.add_0_r, (u64_in (i + l - 1)) by lia.
  destruct (flag flags PMEM_BACKWARDS) eqn:Eb.
  - destruct (i + l - 1 =? i) eqn:E; [apply Z.eqb_eq in E|apply Z.eqb_neq in E]; cbn [negb mbind option_bind].
    + replace (i + l - 1) with i by lia; rewrite bget_in by lia; cbn [mbind option_bind]; rewrite El, (proj2 (Z.eqb_eq l 1)) by lia; cbn [negb mbind option_bind].
      intros [= <- <-] _; exists i, l; split_and!; [done|done|lia|lia].
    + rewrite u64_in by lia; replace (i + l - 1 - i) with (l - 1) by lia; destruct (break_starts _ _ _ _ _ (l - 1) HC) as (b1 & Eb1 & HC1 & HC2 & _); [lia|lia|].
      specialize (HC2 ltac:(lia)); replace (l - (l - 1)) with 1 in HC2 by lia; replace (i + (l - 1)) with (i + l - 1) in HC2 by lia.
      rewrite Eb1; cbn [mbind option_bind]; rewrite bget_in by lia; cbn [mbind option_bind]; destruct (chunk_starts _ _ _ _ _ HC2) as (_ & _ & _ & -> & _).
      cbn [Z.eqb negb mbind option_bind]; change (1 =? 1) with true; cbn [negb mbind option_bind].
      intros [= <- <-] _; exists i, l; split; [done|]; split; [|done]; intros x lx sx Hx Hne; eapply break_chunks; [exact HC| | |exact Eb1|done|done]; lia.
  - rewrite Z.eqb_refl; cbn [negb mbind option_bind]; rewrite bget_in by lia; cbn [mbind option_bind]; rewrite El.
    destruct (l =? 1) eqn:E; [apply Z.eqb_eq in E|apply Z.eqb_neq in E]; cbn [negb mbind option_bind].
    + intros [= <- <-] _; exists i, l; split_and!; [done|done|lia|done].
    + destruct (break_starts _ _ _ _ _ 1 HC) as (b1 & Eb1 & _ & HC2 & _); [lia|lia|]; rewrite Eb1; cbn [mbind option_bind].
      intros [= <- <-] _; exists i, l; split; [done|]; split; [|split; [done|done]]; intros x lx sx Hx Hne; eapply break_chunks; [exact HC| | |exact Eb1|done|done]; lia.
Qed.

(** One page, from either end. *)
Lemma find_one b F rt flags from st0 : book_ok b F -> rt <> page_nano_owned -> stat F 0 st0 -> st0 <> rt ->
  flags = PMEM_BACKWARDS /\ from = BOOK_END \/ flags = PMEM_NONE /\ from = 0 ->
  exists b' r, pmem_find_page_type CRAM b 1 rt flags from = Some (b', r) /\
    (r = BOOK_END /\ b' = b /\ (forall p, ~ stat F p rt) \/
     0 <= r < TOTAL_PHY_PAGES /\ (r =? BOOK_END) = false /\ chunk_is b' F r 1 rt /\ (forall x, starts b x -> starts b' x) /\
       forall lo, whole b F lo -> beside b' F (if flag flags PMEM_BACKWARDS then lo else if decide (rt = page_unused) then lo + 1 else lo) r 1 rt).
Proof.
  intros HB Hrt H0 Hne Hfl; pose proof HB as (cs & HL & HF & HN).
  assert (exists A B, cs = A ++ B /\ pos 0 A = from) as (A & B & EC & Ep).
  { destruct Hfl as [[_ ->]|[_ ->]]; [exists cs, []; rewrite app_nil_r; split; [done|by eapply pos_end]|by exists [], cs]. }
  assert (flag flags PMEM_PRECISE = false /\ flag flags PMEM_ALLOW_GREATER = false) as [Hf1 Hf2] by (destruct Hfl as [[-> _]|[-> _]]; done).
  destruct (find_page_ok CRAM b cs A B 1 rt flags HCR HL EC) as (j & b' & r & Hj & E & Hj0 & HA); [lia|done|by rewrite Hf1|].
  rewrite Ep in E, HA; rewrite Hf1 in Hj0; assert (j = 0) as ->.
  { destruct (decide (j = 0)); [done|]; assert (2 ^ 1 <= 2 ^ j) by (apply Z.pow_le_mono_r; lia); lia. }
  exists b', r; split; [done|]; destruct HA as [(-> & -> & Hno)|[(Hg & _)|(_ & HC & _)]]; [left|congruence|right].
  - split; [done|split; [done|]]; intros p [Hp Hs]; rewrite <- HF in Hs.
    destruct (page_in b cs p HL) as (A1 & c & B1 & E1 & Hpc).
    { split; [done|]; rewrite <- (flat_length_laid _ _ HL); apply lookup_lt_Some in Hs; lia. }
    pose proof HL as HL1; rewrite E1 in HL1, Hs; destruct c as [l st]; cbn in Hpc; rewrite (flat_range_get _ _ _ _ _ _ HL1 Hpc) in Hs.
    injection Hs as ->; pose proof (chunk_bounds _ _ _ _ _ HL1 eq_refl) as (Hp0 & Hl & Hle & _); apply (Hno _ _ _ E1).
    + assert (A1 <> []) as HA1.
      { intros ->; apply Hne; eapply stat_fun; [exact H0|]; split; [done|]; rewrite <- HF, E1.
        by eapply (flat_range_get _ [] _ _ _ 0 HL1); cbn in *; lia. }
      cbn [fst] in *; destruct Hfl as [[-> ->]|[-> ->]]; [|exact Hp0].
      change (pos 0 A1 <= TOTAL_PHY_PAGES /\ A1 <> []); split; [lia|done].
    + split; [done|]; rewrite !up_0; cbn in *; lia.
  - rewrite up_0, HF in HC; pose proof (chunk_entry _ _ _ _ _ HC) as (_ & _ & _ & _ & ? & _ & ?).
    assert (r <> BOOK_END) as Hre by (unfold BOOK_END; lia).
    split; [lia|]; split; [by apply Z.eqb_neq|]; split; [done|]; split; [by eapply find_starts|]; intros lo HW; rewrite EC in HL, HF; rewrite <- Ep in E.
    destruct (find_kept b F rt flags A B b' r HL HF Hrt) as (i & l & HCi & Hk & Hl & Er); [destruct Hfl as [[-> _]|[-> _]]; auto|done|done|].
    unfold beside; cbv zeta; destruct (decide (rt = page_unused)) as [->|Hu].
    + destruct (solid_chunk _ _ _ _ (fun _ => ex_intro _ lo HW) HCi) as [HWi ->]; destruct (chunk_starts _ _ _ _ _ HWi) as (Hsi & _ & _ & _ & Hli).
      assert (i = lo) as -> by (eapply (chunk_inside _ _ _ _ _ _ HW Hsi), whole_inside; [done|]; split; [by destruct Hsi; lia|]; apply (chunk_range _ _ _ _ _ HWi); lia).
      intros Hk1; specialize (Hl ltac:(lia)); destruct (flag flags PMEM_BACKWARDS); (split; [lia|done]).
    + rewrite Z.sub_0_r; intros _; assert (lo <> i) as Hlo.
      { intros ->; apply Hu; destruct (chunk_starts _ _ _ _ _ HW) as (_ & _ & <- & _), (chunk_starts _ _ _ _ _ HCi) as (_ & _ & <- & _); done. }
      assert (chunk_is b' F lo (free F) page_unused) as HW' by (by apply Hk); destruct (flag flags PMEM_BACKWARDS); (split; [|done]); intros ->; apply Hu;
        destruct (chunk_starts _ _ _ _ _ HW') as (_ & _ & <- & _), (chunk_starts _ _ _ _ _ HC) as (_ & _ & <- & _); done.
Qed.

(** The first chunk of [n] unused pages from a boundary on. *)
Lemma find_first b F n p : book_ok b F -> starts b p -> 0 < n <= 2 ^ 38 ->
  exists r, pmem_find_page_type CRAM b n page_unused PMEM_ALLOW_GREATER p = Some (b, r) /\
    (r = BOOK_END /\ (n = 1 -> forall x, p <= x -> ~ stat F x page_unused) /\ (forall x l, chunk_is b F x l page_unused -> p <= x -> l < n) \/
     p <= r < TOTAL_PHY_PAGES /\ (r =? BOOK_END) = false /\ (exists l, chunk_is b F r l page_unused /\ n <= l) /\
       (n = 1 -> forall x, p <= x < r -> ~ stat F x page_unused)).
Proof.
  intros HB Hp Hn; pose proof HB as (cs & HL & HF & HN); apply (starts_laid _ _ _ HL) in Hp as (A & B & -> & <-); unfold pmem_find_page_type.
  change (flag PMEM_ALLOW_GREATER PMEM_PRECISE) with false; change (flag PMEM_ALLOW_GREATER PMEM_ALLOW_GREATER) with true.
  change (flag PMEM_ALLOW_GREATER PMEM_BACKWARDS) with false; cbn [andb negb assert mbind option_bind fst snd].
  unfold PHY_PAGE_SIZE_BITS; rewrite Z.shiftr_0_l, Z.shiftl_mul_pow2, wrap_small, Z.shiftr_div_pow2, Z.div_mul by (unfold in_range; lia).
  pose proof (fuel_enough _ _ HL) as Hf; rewrite length_app in Hf.
  destruct (find_forward b _ n page_unused 0 HL ltac:(lia) ltac:(lia) B A fuel eq_refl ltac:(lia)) as (r & E & Hr).
  change (2 ^ 0 - 1) with 0 in E; rewrite E; cbn [mbind option_bind]; clear E.
  assert (forall B0 c B1 x, B = B0 ++ c :: B1 -> pos 0 (A ++ B0) <= x < pos 0 (A ++ B0) + c.1 -> stat F x page_unused ->
    n = 1 -> fits n page_unused 0 (pos 0 (A ++ B0)) c) as Hfit.
  { intros B0 [l st] B1 x -> Hx [Hx0 Hs] ->; rewrite <- HF, app_assoc in Hs; rewrite app_assoc in HL; cbn in Hx.
    rewrite (flat_range_get _ _ _ _ _ x HL Hx) in Hs; injection Hs as ->; split; [done|]; rewrite up_0; cbn; lia. }
  assert (forall x, pos 0 A <= x -> stat F x page_unused -> exists B0 c B1, B = B0 ++ c :: B1 /\ pos 0 (A ++ B0) <= x < pos 0 (A ++ B0) + c.1) as Hin.
  { intros x Hx [Hx0 Hs]; rewrite <- HF in Hs; destruct (page_in b _ x HL) as (A1 & c & B1 & E1 & Hpc).
    { split; [done|]; rewrite <- (flat_length_laid _ _ HL); apply lookup_lt_Some in Hs; lia. }
    apply app_eq_inv in E1 as [(k & -> & E1)|(k & -> & ->)]; [|by exists k, c, B1].
    destruct k as [|d k]; [rewrite app_nil_r in *; exists [], c, B1; rewrite app_nil_r; by destruct B; simplify_eq/=|].
    injection E1 as <- ->; exfalso; rewrite <- app_assoc in HL; pose proof (chunk_bounds _ _ _ _ _ HL eq_refl) as (_ & Hc & _).
    change ((c :: k) ++ B) with (c :: (k ++ B)) in HL; rewrite cons_snoc in HL; apply tail_app in HL as [_ HL]; rewrite !pos_app in *; cbn [pos] in *.
    destruct HL as (HL & _); apply seg_app in HL as [HL _]; pose proof (seg_pos _ _ _ _ HL); lia. }
  destruct Hr as [[-> Hno]|(B1 & c & B2 & -> & -> & Hc & Hno)].
  - rewrite Z.eqb_refl; exists BOOK_END; split; [done|left]; split; [done|]; split.
    + intros Hn1 x Hx Hs; destruct (Hin x Hx Hs) as (B0 & c & B1 & EB & Hxc); by eapply Hno, Hfit.
    + intros x l HC Hx; destruct (decide (l < n)) as [|Hln]; [done|exfalso]; destruct (chunk_starts _ _ _ _ _ HC) as (Hsx & _ & _ & _ & Hl).
      assert (stat F x page_unused) as Hst by (split; [by destruct Hsx; lia|apply (chunk_range _ _ _ _ _ HC); lia]).
      destruct (Hin x Hx Hst) as (B0 & [l1 st1] & B1 & EB & Hxc); eapply (Hno B0 (l1, st1) B1 EB).
      assert (chunk_is b F (pos 0 (A ++ B0)) l1 st1) as HC1 by (exists (A ++ B0), B1; rewrite EB, app_assoc in HL, HF; by split_and!); cbn in Hxc.
      rewrite (chunk_inside _ _ _ _ _ _ HC1 Hsx Hxc) in HC; destruct (chunk_starts _ _ _ _ _ HC) as (_ & _ & S1 & L1 & _), (chunk_starts _ _ _ _ _ HC1) as (_ & _ & S2 & L2 & _).
      split; [cbn; congruence|]; rewrite up_0; cbn; lia.
  - assert (laid b ((A ++ B1) ++ c :: B2)) as HL1 by (by rewrite <- app_assoc); pose proof (chunk_bounds _ _ _ _ _ HL1 eq_refl) as (Hp0 & Hl & Hle & _).
    rewrite (proj2 (Z.eqb_neq _ _)) by (unfold BOOK_END; lia); eexists; split; [done|right]; destruct c as [l st], Hc as [Est Hroom]; cbn in Est; subst st.
    assert (pos 0 A <= pos 0 (A ++ B1)).
    { rewrite pos_app; apply tail_app in HL as [_ (HL & _)]; apply seg_app in HL as [HL _]; by eapply seg_pos. }
    rewrite up_0 in Hroom; cbn in *; split_and!; [lia|lia|apply Z.eqb_neq; unfold BOOK_END; lia| |].
    + exists l; split; [exists (A ++ B1), B2; by rewrite <- app_assoc in *|lia].
    + intros Hn1 x Hx Hs; destruct (Hin x ltac:(lia) Hs) as (B0 & c & B3 & EB & Hxc); apply app_eq_inv in EB as [(k & -> & EB)|(k & -> & EB)].
      * destruct k as [|d k]; [rewrite app_nil_r in *; lia|]; injection EB as <- ->; eapply Hno; [done|].
        eapply (Hfit B0 c (k ++ (l, page_unused) :: B2)); [by rewrite <- app_assoc|done..].
      * rewrite app_assoc, pos_app in Hxc; rewrite app_assoc in HL; apply tail_app in HL as [_ (HL & _)].
        rewrite EB in HL; apply seg_app in HL as [HL _]; pose proof (seg_pos _ _ _ _ HL); lia.
Qed.

End Finding.
