(* ===== verification/VmemCommit.v ===== *)
(** * Committing one page

    The invariant of the memory manager's state, what the creation of a table
    and of a mapping do to the translation, and the commit of one page. *)

From S2P Require Import Prelude Book Pmem PageTable Vmem VmemBook.

#[local] Existing Instance live_chunks.

(** ** The invariant *)

Record mm_ok (top : Z) (s : phys) (T : gmap Z Z) (F : list Z) : Prop := {
  ok_phys : phys_ok s F;
  ok_tables : tables_ok top T F (memory s);
  ok_leaf p i : T !! p = Some 2 -> 0 <= i < 512 ->
    pte (memory s) p i = 0 \/ exists q, 0 <= q < TOTAL_PHY_PAGES /\ pte (memory s) p i = leaf_entry TLB_FLAGS_DEFAULT q;
  ok_io : exists st, stat F 0 st /\ (st = page_io_unused \/ st = page_io_system);
  ok_clean x : ~ stat F x page_dirty
}.

(** The pages beside those whose status changes are one chunk still. *)
Lemma whole_restatus b F q n st st' lo b' : beside b F lo q n st -> chunk_is b F q n st -> st' <> page_unused -> book_ok b' (set_range F q n st') ->
  (forall x, x <> q -> ent b' x = ent b x) -> 0 < free (set_range F q n st') -> whole b' (set_range F q n st') lo.
Proof.
  intros HB HC Hst HB' He; destruct (chunk_entry _ _ _ _ _ HC) as (_ & _ & _ & _ & Hq & Hn & Ht); pose proof HC as (A & B & HL & HF & _).
  pose proof (flat_length_laid _ _ HL) as Hlen; rewrite HF in Hlen; unfold whole.
  rewrite (free_set_range F q n st st') by (done || lia || by eapply chunk_range); intros Hk; destruct (HB Hk) as [Hne HW].
  destruct (chunk_starts _ _ _ _ _ HW) as ([Hlo Hl] & _ & E1 & E2 & _); destruct (chunk_entry _ _ _ _ _ HW) as (_ & _ & _ & _ & _ & ? & Hlt).
  pose proof (start_chunk _ _ lo HB') as HW'; rewrite (He lo Hne), E1, E2 in HW'; apply HW'; [|lia]; split; [done|]; by rewrite (He lo Hne).
Qed.

(** A handle to the table at page [p], of level [l]. *)
Definition table_at (T : gmap Z Z) (h : ptable_t) (p l : Z) : Prop :=
  h = mk_ptable (PHY_MEM_START_CACHED + p * PHY_PAGE_SIZE) l /\ T !! p = Some l.

(** ** What the handles say *)

Lemma sub_table_eq top T F m h p l i : tables_ok top T F m -> table_at T h p l -> l < 2 -> 0 <= i < 512 -> ~ (p = top /\ 384 <= i) ->
  get_sub_table m h i = if pte m p i =? 0 then None else Some (mk_ptable (PHY_MEM_START_CACHED + pte_pfn (pte m p i) * PHY_PAGE_SIZE) (l + 1)).
Proof.
  intros HT [-> Hp] Hl Hi Hg; destruct (t_range _ _ _ _ HT _ _ Hp) as (Hpr & Hl0 & _); unfold get_sub_table, PAGE_TABLE_ENT_PER_TABLE; cbn [taddr level].
  rewrite wrap_small by (unfold in_range; lia); change (VTABLE_LEVELS - 1) with 2; rewrite !(proj2 (Z.leb_gt _ _)), index_addr by lia.
  change (tload m (ent_addr p i)) with (pte m p i); destruct (pte m p i =? 0) eqn:E0; [done|apply Z.eqb_neq in E0].
  assert (tslot top T p l i) as Hs by (split_and!; done || lia).
  destruct (entry_target _ _ _ _ _ _ _ HT Hs E0) as (Hq & [(_ & HTq & E)|[? _]]); [|lia].
  set (q := pte_pfn _) in *; rewrite E; destruct (sub_entry_fields q Hq) as (_ & _ & _ & -> & ->); rewrite Z.eqb_refl; cbn [negb].
  do 2 f_equal; rewrite total_val in Hq; unfold PHY_PAGE_SIZE_BITS, PHY_PAGE_SIZE; rewrite Z.shiftl_mul_pow2, Z.shiftr_div_pow2 by lia.
  rewrite (wrap_small 64 (q * _)) by (unfold in_range; lia); change (64 - 3 * 9) with 37; change (2 ^ (37 - 12)) with (2 ^ 25).
  replace (q * 2 ^ 37) with (q * 4096 * 2 ^ 25) by lia; rewrite Z.div_mul by lia.
  rewrite wrap_small by (unfold in_range, PHY_MEM_START_CACHED; lia); lia.
Qed.

Lemma entries_eq m T F top h p l i : tables_ok top T F m -> table_at T h p l -> 0 <= i < 512 -> entries m h i = pte m p i.
Proof.
  intros HT [-> Hp] Hi; destruct (t_range _ _ _ _ HT _ _ Hp) as (Hpr & _); unfold entries; cbn [taddr].
  change (i * PAGE_TABLE_ENT_SIZE) with (i * 2 ^ 3); rewrite <- Z.shiftl_mul_pow2 by lia; change 3 with PAGE_TABLE_ENT_BITS; by rewrite index_addr.
Qed.

(** ** A new table *)

Section NewTable.

Context (top : Z) (s : phys) (T : gmap Z Z) (F : list Z) (h : ptable_t) (p l i q st : Z) (sc : list bool).
Context (H : mm_ok top s T F) (Hh : table_at T h p l) (Hl : l < 2) (Hi : 0 <= i < 512) (He : pte (memory s) p i = 0).
Context (HC : chunk_is (the_book s) F q 1 st) (Hst : st = page_unused \/ st = page_ptable_free) (Hsc : true ∈ sc).

(** What [create_table] leaves. *)
Record new_table (s' : phys) : Prop := {
  nt_ok : mm_ok top s' (<[q := l + 1]> T) (set_range F q 1 page_ptable);
  nt_q : T !! q = None;
  nt_starts x : starts (the_book s) x -> starts (the_book s') x;
  nt_book x : x <> q -> ent (the_book s') x = ent (the_book s) x;
  nt_status : starts (the_book s') q /\ status (ent (the_book s') q) = page_ptable;
  nt_entry p' l' j : T !! p' = Some l' -> 0 <= j < 512 ->
    pte (memory s') p' j = if decide (p = p' /\ i = j) then sub_entry q else pte (memory s) p' j;
  nt_empty j : 0 <= j < 512 -> pte (memory s') q j = 0;
  nt_words w : page_of w <> p -> page_of w <> q -> memory s' !! w = memory s !! w
}.

Lemma create_table_new : exists s', create_table sc s q h i = Some (s', Some (mk_ptable (PHY_MEM_START_CACHED + q * PHY_PAGE_SIZE) (l + 1))) /\ new_table s'.
Proof.
  destruct H as [[Hb Hc] HT HLf HIO HDr]; destruct HC as (A & B & HL & HF & Hq), Hh as [-> Hp]; pose proof Hb as (_ & _ & _ & HN).
  destruct (t_range _ _ _ _ HT _ _ Hp) as (Hpr & Hl0 & _); pose proof (chunk_bounds _ _ _ _ _ HL eq_refl) as (H0 & _ & Ht & _ & E1 & E2 & _).
  cbn [fst snd] in *; rewrite Hq in *; clear HC Hh H.
  pose proof (laid_any _ _ HL) as HLa.
  assert (exists m1, (if st =? page_unused then Some (memory s) else do_zero_page 16 (memory s) (PHY_MEM_START_CACHED + q * PHY_PAGE_SIZE)
      (u64 (PHY_MEM_START_CACHED + q * PHY_PAGE_SIZE + PHY_PAGE_SIZE))) = Some m1 /\
      forall w, m1 !! w = if decide (page_of w = q) then None else memory s !! w) as (m1 & Em & Hm).
  { destruct Hst as [-> | ->]; [|apply zero_one; lia]; exists (memory s); split; [done|]; intros w; case_decide as D; [|done].
    apply Hc; rewrite D; [|lia]; rewrite <- HF; eapply flat_range_get; [done|lia]. }
  assert (T !! q = None) as HTq.
  { eapply (not_table top T F _ q st HT); [split; [lia|rewrite <- HF; eapply flat_range_get; [done|lia]]|..]; destruct Hst as [-> | ->]; done. }
  assert (p <> q) as Hpq by (intros ->; congruence).
  assert (pte m1 p i = 0) as Hz.
  { rewrite <- He; apply pte_frame; [done|done|]; intros w Hw; rewrite Hm, decide_False; [done|]; congruence. }
  set (m2 := tstore m1 (ent_addr p i) (sub_entry q)); set (b2 := upd (upd (the_book s) q (set_status (Z.max st page_transaction))) q (set_status page_ptable)).
  exists (mk_phys b2 m2); split.
  { unfold create_table, PAGE_TABLE_ENT_PER_TABLE; cbn [taddr level].
    assert ((l =? 0) || (l =? 1) = true) as -> by (apply orb_true_iff; rewrite !Z.eqb_eq; lia); cbn [negb].
    rewrite (proj2 (Z.ltb_lt i 512)), (proj2 (Z.leb_gt TOTAL_PHY_PAGES q)) by lia; cbn [negb].
    rewrite page_addr, sub_make, index_addr, lock_entry_in by lia; cbn [mbind option_bind]; rewrite E1.
    assert (negb (st =? page_unused) && negb (st =? page_ptable_free) = false) as -> by (destruct Hst as [-> | ->]; done).
    rewrite Em; cbn [mbind option_bind]; rewrite bget_in by lia; cbn [mbind option_bind]; rewrite ent_upd_eq; cbn [len set_status]; rewrite E2.
    change (1 =? 1) with true; cbn [negb]; rewrite cas_spec by done; rewrite decide_True by done; cbn [mbind option_bind negb].
    rewrite bput_in by lia; done. }
  pose proof (table_done top (the_book s) (memory s) m1 T F A st B p l i (Z.max st page_transaction)) as HD; rewrite Hq in HD.
  destruct HD as ([_ Hc'] & HT' & HK & _ & Hqr); [exact HLa|by rewrite HF|done..|].
  assert (forall j, ent b2 j = if decide (q = j) then set_status page_ptable (ent (the_book s) j) else ent (the_book s) j) as Hent.
  { intros j; unfold b2; rewrite !ent_upd; repeat case_decide; subst; done. }
  assert (forall x, len (ent b2 x) = len (ent (the_book s) x)) as Hlen by (intros x; rewrite Hent; case_decide; done).
  assert (forall p' l' j, T !! p' = Some l' -> 0 <= j < 512 -> pte m2 p' j = if decide (p = p' /\ i = j) then sub_entry q else pte (memory s) p' j) as Hpte.
  { intros p' l' j Hp' Hj; pose proof (sub_range q Hqr); destruct (t_range _ _ _ _ HT _ _ Hp') as (Hpr' & _); unfold m2; rewrite pte_tstore by lia.
    case_decide; [done|]; apply pte_frame; [done|done|]; intros w Hw; rewrite Hm, decide_False; [done|]; congruence. }
  assert (forall j, 0 <= j < 512 -> pte m2 q j = 0) as Hqe.
  { intros j Hj; pose proof (sub_range q Hqr); unfold m2; rewrite pte_tstore, decide_False by (lia || tauto).
    apply pte_clear; [lia|done|]; intros w Hw; by rewrite Hm, decide_True. }
  split; cbn [memory the_book]; try done.
  - split; cbn [memory the_book]; [split; [|done]|done| | |].
    + rewrite <- HF, <- Hq; eapply (restatus_book (the_book s)); [done|by rewrite HF|done|done|]; by rewrite Hq.
    + intros p' j Hp' Hj; destruct (decide (q = p')) as [<-|Hne]; [left; by apply Hqe|]; rewrite lookup_insert_ne in Hp' by done.
      rewrite (Hpte p' 2) by done; rewrite decide_False; [by apply HLf|]; intros [-> _]; rewrite Hp in Hp'; injection Hp'; lia.
    + destruct HIO as (st0 & [_ Hs0] & Hor); exists st0; split; [|done]; split; [done|].
      assert (q <> 0) as Hq0.
      { intros E0; rewrite <- HF in Hs0; rewrite (flat_range_get _ _ _ _ _ 0 HL) in Hs0 by lia; injection Hs0 as ->; destruct Hst as [-> | ->], Hor; done. }
      pose proof (book_length _ _ Hb); rewrite set_range_lookup, decide_False by lia; done.
    + intros x Hx; pose proof (book_length _ _ Hb); apply stat_set_range_inv in Hx as [[_ ?]|[_ Hx]]; [done|by eapply HDr|lia..].
  - intros x [Hx Hlx]; split; [done|by rewrite Hlen].
  - intros x Hx; by rewrite Hent, decide_False.
  - split; [split; [lia|rewrite Hlen, E2; lia]|]; by rewrite Hent, decide_True.
  - intros w Hw1 Hw2; unfold m2; rewrite tstore_page by done; by rewrite Hm, decide_False.
Qed.

End NewTable.

(** ** What happens to the translation *)

(** The pages from [a] to [b] that were not mapped are now, to empty pages
    placed as [pl] says; nothing else changes, and mapped pages keep their
    contents. *)
Definition grows (top : Z) (pl : Z -> Z -> Prop) (a b : Z) (m m' : mem_t) : Prop := forall va, 0 <= va < 2 ^ 38 ->
  match translate m top va with
  | Some (q, e) => translate m' top va = Some (q, e) /\ forall w, page_of w = q -> m' !! w = m !! w
  | None =>
      if decide (a <= va / 4096 < b)
      then exists q, translate m' top va = Some (q, leaf_entry TLB_FLAGS_DEFAULT q) /\ pl (va / 4096) q /\ forall w, page_of w = q -> m' !! w = None
      else translate m' top va = None
  end.

Lemma grows_refl top pl a m : grows top pl a a m m.
Proof. intros va Hva; destruct (translate m top va) as [[q e]|] eqn:E; [done|]; by rewrite decide_False by lia. Qed.

Lemma grows_trans top pl a b c m m1 m2 : a <= b <= c -> grows top pl a b m m1 -> grows top pl b c m1 m2 -> grows top pl a c m m2.
Proof.
  intros Habc H1 H2 va Hva; specialize (H1 va Hva); specialize (H2 va Hva); destruct (translate m top va) as [[q e]|].
  - destruct H1 as [E1 Hw1]; rewrite E1 in H2; destruct H2 as [E2 Hw2]; split; [done|]; intros w Hw; rewrite Hw2, Hw1 by done; done.
  - destruct (decide (a <= va / 4096 < b)) as [D1|D1].
    + destruct H1 as (q & E1 & Hpl & Hw1); rewrite E1 in H2; destruct H2 as [E2 Hw2]; rewrite decide_True by lia.
      exists q; split_and!; [done|done|]; intros w Hw; rewrite Hw2, Hw1 by done; done.
    + rewrite H1 in H2; destruct (decide (b <= va / 4096 < c)); [rewrite decide_True by lia; done|by rewrite decide_False by lia].
Qed.

(** Pages that are mapped already can be added to the range. *)
Lemma grows_skip top pl a b c m m' : a <= b <= c -> grows top pl a b m m' -> (forall va, 0 <= va < 2 ^ 38 -> b <= va / 4096 < c -> translate m top va <> None) ->
  grows top pl a c m m'.
Proof.
  intros Habc H Hin va Hva; specialize (H va Hva); specialize (Hin va Hva); destruct (translate m top va) as [[q e]|]; [done|].
  destruct (decide (a <= va / 4096 < b)), (decide (a <= va / 4096 < c)); try done; [lia|]; exfalso; apply Hin; [lia|done].
Qed.

Lemma grows_weaken top (pl pl' : Z -> Z -> Prop) a b m m' : (forall v q, a <= v < b -> pl v q -> pl' v q) -> grows top pl a b m m' -> grows top pl' a b m m'.
Proof.
  intros Hpl H va Hva; specialize (H va Hva); destruct (translate m top va) as [[q e]|]; [done|]; case_decide; [|done].
  destruct H as (q & E & Hq & Hw); exists q; split_and!; auto.
Qed.

(** A page that is mapped is no table and not free. *)
Lemma translate_mapped top T F m va q e : tables_ok top T F m -> translate m top va = Some (q, e) ->
  0 <= q < TOTAL_PHY_PAGES /\ T !! q = None /\ exists st, stat F q st /\ reach st.
Proof.
  intros HT E; destruct (translate_page _ _ _ _ HT _ _ _ E) as (_ & _ & _ & Hq & st & Hst & Hr); split_and!; [lia..| |eauto].
  destruct (T !! q) as [l|] eqn:El; [|done]; exfalso; by eapply table_not_reach.
Qed.

(** A new table maps nothing. *)
Lemma translate_new_table top T F F' m m' p l i q va : tables_ok top T F m -> tables_ok top (<[q := l + 1]> T) F' m' -> 0 <= va < 2 ^ 38 ->
  T !! p = Some l -> T !! q = None -> pte m p i = 0 ->
  (forall p' l' j, T !! p' = Some l' -> 0 <= j < 512 -> pte m' p' j = if decide (p = p' /\ i = j) then sub_entry q else pte m p' j) ->
  (forall j, 0 <= j < 512 -> pte m' q j = 0) -> translate m' top va = translate m top va.
Proof.
  intros HT HT' Hva Hp Hq He Hpte Hz; rewrite (translate_eq _ _ _ _ _ HT Hva), (translate_eq _ _ _ _ _ HT' Hva); cbv zeta.
  destruct (t_range _ _ _ _ HT' q (l + 1)) as (Hqr & _ & _); [by rewrite lookup_insert_eq|].
  destruct (sub_entry_fields q Hqr) as (Eq & _); pose proof (sub_range q Hqr) as Hsr.
  pose proof (vpn_range va 0); pose proof (vpn_range va 1); pose proof (vpn_range va 2).
  rewrite (Hpte top 0) by (done || apply HT); case_decide as D.
  { destruct D as [-> ->]; rewrite He, (proj2 (Z.eqb_neq (sub_entry q) 0)), Eq, Hz by lia; done. }
  destruct (pte m top (vpn va 0) =? 0) eqn:E0; [done|apply Z.eqb_neq in E0].
  pose proof (walk_slot top T F m HT top 0 va Hva (t_top _ _ _ _ HT)) as Hs0.
  destruct (entry_target _ _ _ _ _ _ _ HT Hs0 E0) as (_ & [(_ & HT1 & _)|[? _]]); [|lia]; change (0 + 1) with 1 in HT1.
  rewrite (Hpte _ 1) by done; case_decide as D1.
  { destruct D1 as [D1 D2]; rewrite <- D1, <- D2, He, (proj2 (Z.eqb_neq (sub_entry q) 0)), Eq, Hz by lia; done. }
  destruct (pte m (pte_pfn (pte m top (vpn va 0))) (vpn va 1) =? 0) eqn:E1; [done|apply Z.eqb_neq in E1].
  pose proof (walk_slot top T F m HT _ 1 va Hva HT1) as Hs1.
  destruct (entry_target _ _ _ _ _ _ _ HT Hs1 E1) as (_ & [(_ & HT2 & _)|[? _]]); [|lia]; change (1 + 1) with 2 in HT2.
  rewrite (Hpte _ 2) by done; rewrite decide_False; [done|]; intros [D3 D4]; rewrite <- D4, <- D3 in *.
  destruct (t_range _ _ _ _ HT' q (l + 1)) as (_ & Hlr & _); [by rewrite lookup_insert_eq|]; rewrite HT2 in Hp; injection Hp; lia.
Qed.

Lemma new_table_grows top s T F p l i q st s' pl a : mm_ok top s T F -> T !! p = Some l -> pte (memory s) p i = 0 -> stat F q st -> ~ reach st ->
  new_table top s T F p l i q s' -> grows top pl a a (memory s) (memory s').
Proof.
  intros H Hp He Hs Hr HN va Hva; destruct H as [_ HT _ _ _], HN as [[_ HT' _ _ _] Hq _ _ _ Hpte Hz Hw].
  rewrite (translate_new_table top T F _ _ _ p l i q va HT HT' Hva Hp Hq He Hpte Hz).
  destruct (translate (memory s) top va) as [[x e]|] eqn:E; [|by rewrite decide_False by lia].
  split; [done|]; intros w <-; destruct (translate_mapped _ _ _ _ _ _ _ HT E) as (_ & HTx & st' & Hst' & Hr').
  apply Hw; [intros Ew; by rewrite Ew, Hp in HTx|]; intros Ew; rewrite Ew in Hst'; rewrite (stat_fun _ _ _ _ Hs Hst') in Hr; done.
Qed.

Section Tables.

Context (CRAM : Z -> Z) (sc : ptable_t -> Z -> list bool) (top : Z).
Context (HCR : cram_ok CRAM) (Hsc : forall h i, true ∈ sc h i).

(** What making [n] tables does to the pages: unused pages go, mapped pages
    stay, and so do the boundaries after mapped pages. *)
Record tabled (n : Z) (s : phys) (F : list Z) (s' : phys) (F' : list Z) : Prop := {
  tb_unused x : stat F' x page_unused -> stat F x page_unused;
  tb_mapped x : stat F x page_mapped -> stat F' x page_mapped;
  tb_table x : stat F x page_unused \/ stat F x page_ptable -> stat F' x page_unused \/ stat F' x page_ptable;
  tb_free : free F - n <= free F';
  tb_starts x : starts (the_book s) x -> x = 0 \/ stat F (x - 1) page_mapped -> starts (the_book s') x;
  tb_whole lo : whole (the_book s) F lo -> 0 < free F' -> whole (the_book s') F' lo
}.

Lemma tabled_refl s F : tabled 0 s F s F.
Proof. split; try done; lia. Qed.

Lemma tabled_trans n n' s F s1 F1 s2 F2 : tabled n s F s1 F1 -> tabled n' s1 F1 s2 F2 -> tabled (n + n') s F s2 F2.
Proof.
  intros [A1 A2 A5 A3 A4 A6] [B1 B2 B5 B3 B4 B6]; split; auto; [lia| |].
  - intros x Hx Hor; apply B4; [by apply A4|]; destruct Hor; auto.
  - intros lo HW Hf; apply B6, Hf; apply A6; [done|]; destruct (free_some _ Hf) as [x Hx]; by apply (free_pos _ x), B1.
Qed.

Lemma tabled_le n n' s F s' F' : n <= n' -> tabled n s F s' F' -> tabled n' s F s' F'.
Proof. intros Hn [A1 A2 A5 A3 A4 A6]; split; auto; lia. Qed.

(** A new book for the same pages. *)
Lemma mm_ok_book s T F b : mm_ok top s T F -> book_ok b F -> mm_ok top (mk_phys b (memory s)) T F.
Proof. intros [[_ Hc] HT HL HI HD] Hb; split; cbn [memory the_book]; try done; by split. Qed.

Lemma stat_ranged F q n st x y : 0 <= q -> 0 < n -> q + n <= Z.of_nat (length F) ->
  stat (set_range F q n st) x y <-> (q <= x < q + n /\ y = st \/ ~ q <= x < q + n /\ stat F x y).
Proof.
  intros Hq Hn Hle; unfold stat; split.
  - intros [Hx E]; rewrite set_range_lookup in E by lia; rewrite Z2Nat.id in E by lia; case_decide; [left; split; [lia|congruence]|right; split; [lia|done]].
  - intros [[Hx ->]|[Hne [Hx E]]]; (split; [lia|]); rewrite set_range_lookup, Z2Nat.id by lia; [by rewrite decide_True by lia|by rewrite decide_False by lia].
Qed.

Lemma stat_restat F q st st' x y : stat F q st -> stat (set_range F q 1 st') x y <-> (x = q /\ y = st' \/ x <> q /\ stat F x y).
Proof.
  intros [Hq Hs]; assert (q + 1 <= Z.of_nat (length F)) by (apply lookup_lt_Some in Hs; lia); rewrite stat_ranged by lia.
  split; intros [[? ?]|[? ?]]; [left|right|left|right]; (split; [lia|done]).
Qed.

(** A free page for a table: one that was a table before, or an unused one. *)
Lemma table_page_found s T F : mm_ok top s T F -> 0 < free F ->
  exists b page st, (st = page_unused \/ st = page_ptable_free) /\ chunk_is b F page 1 st /\ (page =? BOOK_END) = false /\
    (forall x, starts (the_book s) x -> starts b x) /\ (forall lo, whole (the_book s) F lo -> beside b F lo page 1 st) /\
    ('(b, page) ← pmem_find_page_type CRAM (the_book s) 1 page_ptable_free PMEM_BACKWARDS BOOK_END;
     if page =? BOOK_END then pmem_find_page_type CRAM b 1 page_unused PMEM_BACKWARDS BOOK_END else Some (b, page)) = Some (b, page).
Proof.
  intros [[Hb _] _ _ (st0 & Hs0 & Hor) _] Hf.
  destruct (find_one CRAM HCR (the_book s) F page_ptable_free PMEM_BACKWARDS BOOK_END st0) as (b & r & -> & Hr);
    [done|done|done|by destruct Hor as [-> | ->]|by left|]; cbn [mbind option_bind].
  destruct Hr as [(-> & -> & _)|(_ & E & HC & Hm & Hbs)]; [rewrite Z.eqb_refl|rewrite E; exists b, r, page_ptable_free; split_and!; auto].
  destruct (find_one CRAM HCR (the_book s) F page_unused PMEM_BACKWARDS BOOK_END st0) as (b & r & -> & Hr);
    [done|done|done|by destruct Hor as [-> | ->]|by left|].
  destruct Hr as [(_ & _ & Hno)|(_ & E & HC & Hm & Hbs)]; [destruct (free_some F Hf) as [x Hx]; by apply Hno in Hx|].
  exists b, r, page_unused; split_and!; auto.
Qed.

(** A table made for an empty entry. *)
Record made (s : phys) (T : gmap Z Z) (F : list Z) (p l i : Z) (pl : Z -> Z -> Prop) (a n : Z) (q : Z) (s' : phys) (T' : gmap Z Z) (F' : list Z) : Prop := {
  md_ok : mm_ok top s' T' F';
  md_sub : T ⊆ T';
  md_q : T' !! q = Some (l + 1);
  md_entry : pte (memory s') p i = sub_entry q;
  md_other p' l' j : T !! p' = Some l' -> 0 <= j < 512 -> pte (memory s) p' j <> 0 -> pte (memory s') p' j = pte (memory s) p' j;
  md_grows : grows top pl a a (memory s) (memory s');
  md_tabled : tabled n s F s' F'
}.

Lemma vmem_create_table_ok s T F h p l i pl a : mm_ok top s T F -> table_at T h p l -> l < 2 -> 0 <= i < 512 -> pte (memory s) p i = 0 -> 0 < free F ->
  exists s' q F', vmem_create_table CRAM sc s (Some h) i = Some (s', Some (mk_ptable (PHY_MEM_START_CACHED + q * PHY_PAGE_SIZE) (l + 1))) /\
    made s T F p l i pl a 1 q s' (<[q := l + 1]> T) F'.
Proof.
  intros H Hh Hl Hi He Hf; destruct (table_page_found s T F H Hf) as (b & q & st & Hst & HC & Eq & Hm & Hbs & E); unfold vmem_create_table.
  destruct (pmem_find_page_type CRAM (the_book s) 1 page_ptable_free PMEM_BACKWARDS BOOK_END) as [[b0 q0]|]; cbn [mbind option_bind] in E |- *; [|done].
  rewrite E; cbn [mbind option_bind]; rewrite Eq; clear E Eq.
  assert (book_ok b F) as Hb by (pose proof (ok_phys _ _ _ _ H) as [(_ & _ & _ & HN) _]; by eapply chunk_book).
  pose proof (mm_ok_book _ _ _ _ H Hb) as H1; destruct (chunk_entry _ _ _ _ _ HC) as (e & Ee & E1 & _ & Hq0 & _ & Hqe).
  rewrite Ee; cbn [mbind option_bind]; rewrite E1.
  assert ((st =? page_ptable_free) || (st =? page_unused) = true) as -> by (destruct Hst as [-> | ->]; done); cbn [assert mbind option_bind].
  destruct (create_table_new top _ T F h p l i q st (sc h i) H1 Hh Hl Hi He HC Hst (Hsc h i)) as (s' & -> & HN); cbn [mbind option_bind].
  pose proof HN as [Hok HTq Hns Hnb [Hqs Hqst] Hpte Hz Hw]; cbn [the_book memory] in *; pose proof Hqs as [Hqr _].
  rewrite bget_in by lia; cbn [mbind option_bind]; rewrite Hqst; cbn [Z.eqb assert mbind option_bind]; change (page_ptable =? page_ptable) with true; cbn [assert mbind option_bind].
  pose proof (ok_phys _ _ _ _ Hok) as [Hb' _]; destruct (try_merge_starts _ _ q Hb' Hqs ltac:(lia)) as (b2 & p2 & -> & Hb2 & Hm2 & Hc2); cbn [mbind option_bind].
  assert (stat F q st) as Hsq by (split; [lia|apply (chunk_range _ _ _ _ _ HC); lia]).
  assert (~ reach st) as Hr by (unfold reach, page_mapped, page_transaction, page_unused, page_ptable_free in *; lia).
  eexists (mk_phys b2 (memory s')), q, _; split; [reflexivity|]; split; cbn [memory the_book].
  - by apply mm_ok_book.
  - by apply insert_subseteq.
  - by rewrite lookup_insert_eq.
  - destruct Hh as [_ Hp]; rewrite (Hpte p l) by done; by rewrite decide_True.
  - intros p' l' j Hp' Hj Hn; rewrite (Hpte p' l') by done; rewrite decide_False; [done|]; intros [-> ->]; done.
  - eapply (new_table_grows top (mk_phys b (memory s)) T F p l i q st s'); try done; apply Hh.
  - rewrite Hqst in Hm2, Hc2; split; cbn [the_book].
    + intros x Hx; apply (stat_restat F q st _ _ _ Hsq) in Hx as [[_ ?]|[_ ?]]; done.
    + intros x Hx; apply (stat_restat F q st _ _ _ Hsq); right; split; [|done]; intros ->; apply Hr; left; by eapply stat_fun.
    + intros x Hx; destruct (decide (x = q)) as [->|Hne]; [right; apply (stat_restat F q st _ _ _ Hsq); by left|].
      destruct Hx as [Hx|Hx]; [left|right]; apply (stat_restat F q st _ _ _ Hsq); by right.
    + pose proof (book_length _ _ Hb); rewrite (free_set_range F q 1 st) by (done || lia || apply (chunk_range _ _ _ _ _ HC)); case_decide; lia.
    + intros x Hx Hor; apply Hm2; [by apply Hns, Hm|]; rewrite (stat_restat F q st _ _ _ Hsq); intros [[Ex _]|[_ Hp']].
      * destruct Hor as [->|Hx']; [lia|]; rewrite Ex in Hx'; apply Hr; left; by eapply stat_fun.
      * destruct Hor as [->|Hx']; [destruct Hp'; lia|]; pose proof (stat_fun _ _ _ _ Hp' Hx'); done.
    + intros lo HW Hf'; apply Hc2; [|done]; eapply whole_restatus; [by apply Hbs|exact HC|done|exact Hb'|exact Hnb|exact Hf'].
Qed.

(** The table an entry names, made or not. *)
Lemma need_table_ok s T F h p l i pl a : mm_ok top s T F -> table_at T h p l -> l < 2 -> 0 <= i < 512 -> ~ (p = top /\ 384 <= i) -> 0 < free F ->
  exists s' q T' F', need_table CRAM sc s (Some h) i = Some (s', Some (mk_ptable (PHY_MEM_START_CACHED + q * PHY_PAGE_SIZE) (l + 1))) /\
    made s T F p l i pl a 1 q s' T' F'.
Proof.
  intros H Hh Hl Hi Hg Hf; pose proof (ok_tables _ _ _ _ H) as HT; unfold need_table, sub_table.
  rewrite (sub_table_eq _ _ _ _ _ _ _ _ HT Hh Hl Hi Hg); destruct (pte (memory s) p i =? 0) eqn:E; [apply Z.eqb_eq in E|apply Z.eqb_neq in E].
  - destruct (vmem_create_table_ok s T F h p l i pl a H Hh Hl Hi E Hf) as (s' & q & F' & E' & HM); by exists s', q, (<[q := l + 1]> T), F'.
  - assert (tslot top T p l i) as Hs by (split_and!; [apply Hh|lia|lia|done]).
    destruct (entry_target _ _ _ _ _ _ _ HT Hs E) as (_ & [(_ & HTq & Ee)|[? _]]); [|lia].
    eexists s, _, T, F; split; [reflexivity|]; split; try done; [apply grows_refl|apply (tabled_le 0); [lia|apply tabled_refl]].
Qed.

End Tables.

(** ** Indices of an address *)

Lemma index_split a k n : 0 <= a -> 0 <= n -> 0 <= k -> k + n <= 64 -> Z.shiftr (u64 (Z.shiftl a k)) (k + n) = a mod 2 ^ (64 - k) / 2 ^ n.
Proof.
  intros Ha Hn Hk Hb; rewrite Z.shiftl_mul_pow2, Z.shiftr_div_pow2 by lia; unfold wrap.
  replace (2 ^ 64) with (2 ^ (64 - k) * 2 ^ k) by (rewrite <- Z.pow_add_r by lia; f_equal; lia).
  assert (0 < 2 ^ k /\ 0 < 2 ^ n) as [? ?] by (split; apply Z.pow_pos_nonneg; lia).
  rewrite Z.mul_mod_distr_r by (try apply Z.pow_nonzero; lia); rewrite Z.add_comm, Z.pow_add_r, (Z.mul_comm (2 ^ n)), <- Z.div_div by lia.
  by rewrite Z.div_mul by lia.
Qed.

Lemma mod_div_pow a m n : 0 <= n <= m -> a mod 2 ^ m / 2 ^ n = a / 2 ^ n mod 2 ^ (m - n).
Proof.
  intros H; assert (0 < 2 ^ n /\ 0 < 2 ^ (m - n)) as [? ?] by (split; apply Z.pow_pos_nonneg; lia).
  replace (2 ^ m) with (2 ^ n * 2 ^ (m - n)) by (rewrite <- Z.pow_add_r by lia; f_equal; lia).
  rewrite Z.rem_mul_r by lia; rewrite (Z.mul_comm (2 ^ n)), Z.div_add by lia; rewrite Z.div_small; [lia|]; apply Z.mod_pos_bound; lia.
Qed.

Lemma index_vpn addr : 0 <= addr -> L0_INDEX addr = vpn addr 0 /\ L1_INDEX addr = vpn addr 1 /\ L2_INDEX addr = vpn addr 2.
Proof.
  intros Ha; split_and!; [change (Z.shiftr (u64 (Z.shiftl addr 25)) (25 + 30) = addr / 2 ^ 30 mod 2 ^ 9)|
    change (Z.shiftr (u64 (Z.shiftl addr 34)) (34 + 21) = addr / 2 ^ 21 mod 2 ^ 9)|
    change (Z.shiftr (u64 (Z.shiftl addr 43)) (43 + 12) = addr / 2 ^ 12 mod 2 ^ 9)]; by rewrite index_split, mod_div_pow by lia.
Qed.

(** ** A new mapping *)

(** The pages of the tables for the indices [i0] and [i1]. *)
Definition leaf_path (top : Z) (T : gmap Z Z) (m : mem_t) (i0 i1 p : Z) : Prop := exists p1,
  tslot top T top 0 i0 /\ pte m top i0 = sub_entry p1 /\ T !! p1 = Some 1 /\ tslot top T p1 1 i1 /\ pte m p1 i1 = sub_entry p /\ T !! p = Some 2.

(** The tables above the leaves are the same. *)
Definition upper (T : gmap Z Z) (m m' : mem_t) : Prop := forall x l k, T !! x = Some l -> l < 2 -> 0 <= k < 512 -> pte m' x k = pte m x k.

Lemma upper_trans T m m1 m2 : upper T m m1 -> upper T m1 m2 -> upper T m m2.
Proof. intros H1 H2 x l k Hx Hl Hk; rewrite (H2 x l), (H1 x l) by done; done. Qed.

Definition vbase (i0 i1 : Z) : Z := i0 * 2 ^ 18 + i1 * 2 ^ 9.

Lemma flags_ok : 0 <= TLB_FLAGS_DEFAULT < 2 ^ 64 /\ negb (pte_reserved TLB_FLAGS_DEFAULT) && pte_leaf TLB_FLAGS_DEFAULT = true.
Proof. split; vm_compute; done. Qed.

(** The translation of the addresses of one table. *)
Lemma path_translate top T F m i0 i1 p va : tables_ok top T F m -> leaf_path top T m i0 i1 p -> 0 <= va < 2 ^ 38 -> vpn va 0 = i0 -> vpn va 1 = i1 ->
  translate m top va = let e := pte m p (vpn va 2) in if pte_valid e && pte_leaf e then Some (pte_pfn e, e) else None.
Proof.
  intros HT (p1 & _ & E0 & H1 & _ & E1 & H2) Hva <- <-; rewrite (translate_eq _ _ _ _ _ HT Hva); cbv zeta.
  destruct (t_range _ _ _ _ HT _ _ H1) as (Hr1 & _), (t_range _ _ _ _ HT _ _ H2) as (Hr2 & _).
  destruct (sub_entry_fields p1 Hr1) as (F1 & _), (sub_entry_fields p Hr2) as (F2 & _); pose proof (sub_range p1 Hr1); pose proof (sub_range p Hr2).
  by rewrite E0, F1, E1, F2, !(proj2 (Z.eqb_neq _ 0)) by lia.
Qed.

Section NewMapping.

Context (top : Z) (s : phys) (T : gmap Z Z) (F : list Z) (h : ptable_t) (i0 i1 p i q n : Z) (sc : Z -> list bool).
Context (H : mm_ok top s T F) (Hpath : leaf_path top T (memory s) i0 i1 p) (Hh : table_at T h p 2).
Context (HC : chunk_is (the_book s) F q n page_unused) (Hi : 0 <= i) (Hin : i + n <= 512) (Hsc : forall k, true ∈ sc k).
Context (He : forall k, i <= k < i + n -> pte (memory s) p k = 0).

Record new_mapping (s' : phys) : Prop := {
  nm_ok : mm_ok top s' T (set_range F q n page_mapped);
  nm_book x : ent (the_book s') x = if decide (q = x) then set_status page_mapped (ent (the_book s) x) else ent (the_book s) x;
  nm_path : leaf_path top T (memory s') i0 i1 p;
  nm_other k : 0 <= k < 512 -> ~ i <= k < i + n -> pte (memory s') p k = pte (memory s) p k;
  nm_upper : upper T (memory s) (memory s');
  nm_grows : grows top (fun v x => x = q + (v - (vbase i0 i1 + i))) (vbase i0 i1 + i) (vbase i0 i1 + i + n) (memory s) (memory s')
}.

Lemma mapping_grows m' : tables_ok top T (set_range F q n page_mapped) m' -> leaf_path top T m' i0 i1 p ->
  (forall w, page_of w <> p -> m' !! w = memory s !! w) -> (forall k, 0 <= k < 512 -> ~ i <= k < i + n -> pte m' p k = pte (memory s) p k) ->
  (forall k, 0 <= k < n -> pte m' p (i + k) = leaf_entry TLB_FLAGS_DEFAULT (q + k)) ->
  grows top (fun v x => x = q + (v - (vbase i0 i1 + i))) (vbase i0 i1 + i) (vbase i0 i1 + i + n) (memory s) m'.
Proof.
  intros HT' Hpath' Hw Ho Hset; destruct H as [[Hb Hc] HT _ _ _], Hh as [_ Hp]; destruct (chunk_entry _ _ _ _ _ HC) as (_ & _ & _ & _ & H0 & Hn & Ht).
  pose proof (chunk_range _ _ _ _ _ HC) as HF; pose proof flags_ok as [Hfl Hleaf].
  assert (forall va q' e, translate (memory s) top va = Some (q', e) -> forall w, page_of w = q' -> m' !! w = memory s !! w) as Hkeep.
  { intros va q' e Etr w <-; destruct (translate_mapped _ _ _ _ _ _ _ HT Etr) as (_ & HTx & _); apply Hw; intros Ew; rewrite Ew in HTx; congruence. }
  intros va Hva; pose proof (vpn_page va Hva) as Hvp; pose proof (vpn_range va 0); pose proof (vpn_range va 1); pose proof (vpn_range va 2).
  assert (0 <= i0 < 512 /\ 0 <= i1 < 512) as [Hi0 Hi1] by (destruct Hpath as (p1 & (_ & ? & _) & _ & _ & (_ & ? & _) & _); done).
  unfold vbase; destruct (decide (vpn va 0 = i0 /\ vpn va 1 = i1)) as [[V0 V1]|V].
  - rewrite (path_translate top T F (memory s) i0 i1 p va), (path_translate top T _ m' i0 i1 p va HT') by done; cbv zeta.
    destruct (decide (i <= vpn va 2 < i + n)) as [D|D].
    + rewrite (He (vpn va 2) D); change (pte_valid 0 && pte_leaf 0) with false; cbv iota; rewrite decide_True by lia.
      pose proof (Hset (vpn va 2 - i) ltac:(lia)) as Hk; replace (i + (vpn va 2 - i)) with (vpn va 2) in Hk by lia; rewrite Hk.
      destruct (leaf_fields TLB_FLAGS_DEFAULT (q + (vpn va 2 - i))) as [-> ->]; [lia|lia|]; rewrite Hleaf; cbn [andb]; rewrite pfn_leaf by lia.
      eexists; split; [reflexivity|]; split; [lia|]; intros w Ew.
      assert (F !! Z.to_nat (page_of w) = Some page_unused) as Hun by (apply HF; lia).
      rewrite Hw; [apply Hc; [done|lia]|]; intros Ewp.
      assert (stat F p page_unused) as Hsp by (rewrite <- Ewp; split; [lia|done]).
      rewrite (not_table _ _ _ _ _ _ HT Hsp) in Hp by done; done.
    + rewrite Ho by (done || lia); pose proof (path_translate top T F (memory s) i0 i1 p va HT Hpath Hva V0 V1) as Ept; cbv zeta in Ept; rewrite <- Ept.
      destruct (translate (memory s) top va) as [[x e]|] eqn:Etr; [split; [done|by eapply Hkeep]|by rewrite decide_False by lia].
  - destruct Hpath as (p1 & Hs0 & P0 & HP1 & Hs1 & P1 & HP2).
    destruct (translate_changed top T F _ _ _ i0 i1 p1 p va HT HT' Hva Hs0 P0 HP1 Hs1 P1 HP2 Hw) as [_ ->]; [|by left].
    destruct (translate (memory s) top va) as [[x e]|] eqn:Etr; [split; [done|by eapply Hkeep]|by rewrite decide_False by lia].
Qed.

Lemma create_mapping_new : exists s', create_mapping sc s q h i (i + n) TLB_FLAGS_DEFAULT = Some (s', Mapped) /\ new_mapping s'.
Proof.
  destruct H as [[Hb Hc] HT HLf HIO HDr]; destruct HC as (A & B & HL & HF & Hq), Hh as [Eh Hp]; pose proof Hb as (_ & _ & _ & HN); pose proof flags_ok as [Hfl Hleaf].
  pose proof (t_range _ _ _ _ HT _ _ Hp) as (Hpr & _); pose proof (chunk_bounds _ _ _ _ _ HL eq_refl) as (H0 & Hn & Ht & _ & E1 & E2 & _).
  cbn [fst snd] in *; rewrite Hq in *; pose proof (book_length _ _ Hb) as HLen.
  assert (u64 (i + n - i) = n) as Eu by (replace (i + n - i) with n by lia; apply wrap_small; unfold in_range; lia).
  pose proof (laid_any _ _ HL) as HLa.
  pose proof (commit_loop top sc (the_book s) (memory s) T A n B p i (i + n) TLB_FLAGS_DEFAULT HLa) as HCL.
  pose proof (commit_clean top (the_book s) (memory s) T A n B p HLa) as HCC; rewrite Hq, HF in HCL, HCC.
  destruct HCL as (m' & r & EL & HT' & Hw & Ho & Hiff & Hset); [done|done|done|lia|lia|lia|done|].
  assert (r = Some true) as ->.
  { apply Hiff; unfold can_map; cbn [the_book memory]; rewrite Eu, E1, E2; split_and!; try done; lia. }
  set (b2 := upd (upd (the_book s) q (set_status (Z.max page_unused page_transaction))) q (set_status page_mapped)).
  assert (forall x, ent b2 x = if decide (q = x) then set_status page_mapped (ent (the_book s) x) else ent (the_book s) x) as Hent.
  { intros x; unfold b2; rewrite !ent_upd; repeat case_decide; subst; done. }
  exists (mk_phys b2 m'); split.
  { unfold create_mapping, PAGE_TABLE_ENT_PER_TABLE; rewrite Eh; cbn [taddr level]; change (2 =? 2) with true; cbn [negb].
    rewrite (proj2 (Z.eqb_neq i (i + n))), (proj2 (Z.ltb_lt i 512)), (proj2 (Z.leb_gt TOTAL_PHY_PAGES q)) by lia; cbn [negb].
    rewrite leaf_make, lock_entry_in by lia; cbn [mbind option_bind]; rewrite E1; change (page_unused =? page_unused) with true; cbn [negb].
    rewrite bget_in by lia; cbn [mbind option_bind]; rewrite ent_upd_eq; cbn [len set_status]; rewrite E2, Eu, Z.eqb_refl; cbn [negb].
    rewrite EL; cbn [mbind option_bind]; rewrite bput_in by lia; done. }
  assert (leaf_path top T m' i0 i1 p) as Hpath'.
  { destruct Hpath as (p1 & Hs0 & P0 & H1 & Hs1 & P1 & H2); exists p1.
    assert (top <> p /\ p1 <> p) as [Htp H1p] by (split; intros ->; rewrite ?(t_top _ _ _ _ HT) in *; congruence).
    destruct (t_range _ _ _ _ HT _ _ H1) as (Hr1 & _), (t_range _ _ _ _ HT _ _ (t_top _ _ _ _ HT)) as (Hrt & _).
    rewrite (pte_frame (memory s) m' top i0), (pte_frame (memory s) m' p1 i1); try done; try apply Hs0; try apply Hs1; intros w <-; by apply Hw. }
  split; cbn [the_book memory]; try done.
  - split; cbn [the_book memory]; [split|done| | |].
    + rewrite <- HF, <- Hq; eapply (restatus_book (the_book s)); [done|by rewrite HF|done|done|]; by rewrite Hq.
    + by apply HCC.
    + intros p' k Hp' Hk; destruct (decide (p' = p)) as [->|Hne].
      * destruct (decide (i <= k < i + n)) as [D|D]; [|rewrite Ho by done; by apply HLf].
        right; exists (q + (k - i)); split; [lia|]; rewrite <- Hset by (done || lia); f_equal; lia.
      * destruct (t_range _ _ _ _ HT _ _ Hp') as (Hpr' & _); rewrite (pte_frame (memory s) m' p' k) by (done || intros w <-; by apply Hw); by apply HLf.
    + destruct HIO as (st0 & [_ Hs0] & Hor); exists st0; split; [|done]; split; [done|].
      rewrite set_range_lookup, decide_False; try done; try lia; intros D.
      rewrite <- HF in Hs0; rewrite (flat_range_get _ _ _ _ _ 0 HL) in Hs0 by lia; injection Hs0 as <-; by destruct Hor.
    + intros x Hx; apply stat_set_range_inv in Hx as [[_ ?]|[_ Hx]]; [done|by eapply HDr|lia..].
  - intros x l k Hx Hl Hk; destruct (t_range _ _ _ _ HT _ _ Hx) as (Hxr & _); apply pte_frame; [done|done|].
    intros w Hxw; apply Hw; intros Ew; assert (x = p) as Exp by congruence; rewrite Exp in Hx; rewrite Hp in Hx; injection Hx; lia.
  - apply mapping_grows; [done..|]; by apply Hset.
Qed.

End NewMapping.

(** ** The commit of a page *)

Definition anywhere (v q : Z) : Prop := True.

Lemma path_mapped top s T F i0 i1 p va : mm_ok top s T F -> leaf_path top T (memory s) i0 i1 p -> 0 <= va < 2 ^ 38 -> vpn va 0 = i0 -> vpn va 1 = i1 ->
  translate (memory s) top va = None <-> pte (memory s) p (vpn va 2) = 0.
Proof.
  intros [_ HT HL _ _] Hpath Hva V0 V1; rewrite (path_translate top T F _ i0 i1 p va) by done; cbv zeta; destruct Hpath as (p1 & _ & _ & _ & _ & _ & Hp).
  destruct (HL p (vpn va 2) Hp (vpn_range va 2)) as [->|(q & Hq & ->)]; [done|]; pose proof flags_ok as [Hf Hlf].
  destruct (leaf_fields TLB_FLAGS_DEFAULT q) as [-> ->]; [lia|lia|]; rewrite Hlf; cbn [andb]; pose proof (leaf_range TLB_FLAGS_DEFAULT q); split; [done|lia].
Qed.

Section CommitPage.

Context (CRAM : Z -> Z) (sc : ptable_t -> Z -> list bool) (top : Z).
Context (HCR : cram_ok CRAM) (Hsc : forall h i, true ∈ sc h i).

Definition l1_path (T : gmap Z Z) (m : mem_t) (i0 p1 : Z) : Prop := tslot top T top 0 i0 /\ pte m top i0 = sub_entry p1 /\ T !! p1 = Some 1.

Lemma tslot_sub T T' p l i : T ⊆ T' -> tslot top T p l i -> tslot top T' p l i.
Proof. intros HS [Hp ?]; split; [by eapply lookup_weaken|done]. Qed.

(** The table at the first level. *)
Lemma need_l1 s T F i0 pl a : mm_ok top s T F -> 0 <= i0 < 384 -> 0 < free F ->
  exists s' p1 T' F', need_table CRAM sc s (Some (get_top_level_table top)) i0 = Some (s', Some (mk_ptable (PHY_MEM_START_CACHED + p1 * PHY_PAGE_SIZE) 1)) /\
    mm_ok top s' T' F' /\ l1_path T' (memory s') i0 p1 /\ grows top pl a a (memory s) (memory s') /\ tabled 1 s F s' F'.
Proof.
  intros H Hi Hf; pose proof (t_top _ _ _ _ (ok_tables _ _ _ _ H)) as Ht.
  destruct (need_table_ok CRAM sc top HCR Hsc s T F (get_top_level_table top) top 0 i0 pl a) as (s' & p1 & T' & F' & E & [Hok HS Hq He _ Hg Htb]);
    [done|by split|lia|lia|lia|done|]; exists s', p1, T', F'; split; [done|]; split; [done|].
  split; [|done]; split; [|done]; split; [by eapply lookup_weaken|lia].
Qed.

(** The table at the second level. *)
Lemma need_l2 s T F i0 i1 p1 pl a : mm_ok top s T F -> l1_path T (memory s) i0 p1 -> 0 <= i1 < 512 -> 0 < free F ->
  exists s' p2 T' F', need_table CRAM sc s (Some (mk_ptable (PHY_MEM_START_CACHED + p1 * PHY_PAGE_SIZE) 1)) i1 =
      Some (s', Some (mk_ptable (PHY_MEM_START_CACHED + p2 * PHY_PAGE_SIZE) 2)) /\
    mm_ok top s' T' F' /\ l1_path T' (memory s') i0 p1 /\ leaf_path top T' (memory s') i0 i1 p2 /\ grows top pl a a (memory s) (memory s') /\ tabled 1 s F s' F'.
Proof.
  intros H (Hs0 & E0 & Hp1) Hi Hf; pose proof (ok_tables _ _ _ _ H) as HT; pose proof (t_top _ _ _ _ HT) as Ht; destruct (t_range _ _ _ _ HT _ _ Hp1) as (Hr1 & _).
  assert (p1 <> top) as Hne by (intros ->; congruence).
  destruct (need_table_ok CRAM sc top HCR Hsc s T F (mk_ptable (PHY_MEM_START_CACHED + p1 * PHY_PAGE_SIZE) 1) p1 1 i1 pl a)
    as (s' & p2 & T' & F' & E & [Hok HS Hq He Ho Hg Htb]); [done|by split|lia|lia|tauto|done|]; exists s', p2, T', F'.
  assert (pte (memory s') top i0 = sub_entry p1) as E0'.
  { rewrite <- E0; apply (Ho top 0); [done|apply Hs0|]; rewrite E0; pose proof (sub_range p1 Hr1); lia. }
  assert (l1_path T' (memory s') i0 p1) as HP by (split_and!; [by eapply tslot_sub|done|by eapply lookup_weaken]).
  split; [done|]; split; [done|]; split; [done|]; split; [|done]; destruct HP as (HP1 & HP2 & HP3); exists p1.
  split; [done|]; split; [done|]; split; [done|]; split; [split; [done|tauto]|done].
Qed.

Lemma vmem_create_mapping_ok s T F i0 i1 p i : mm_ok top s T F -> leaf_path top T (memory s) i0 i1 p -> 0 <= i < 512 -> pte (memory s) p i = 0 -> 0 < free F ->
  exists s' F', vmem_create_mapping CRAM sc s (mk_ptable (PHY_MEM_START_CACHED + p * PHY_PAGE_SIZE) 2) i TLB_FLAGS_DEFAULT = Some (s', 0) /\ mm_ok top s' T F' /\
    grows top anywhere (vbase i0 i1 + i) (vbase i0 i1 + i + 1) (memory s) (memory s') /\ free F' = free F - 1 /\
    (solid (the_book s) F -> solid (the_book s') F').
Proof.
  intros H Hpath Hi He Hf; pose proof (ok_io _ _ _ _ H) as (st0 & Hs0 & Hor); unfold vmem_create_mapping; change VIRT_PHY_PAGE_RATIO with 1.
  destruct (find_one CRAM HCR (the_book s) F page_unused PMEM_NONE 0 st0) as (b & r & -> & Hr);
    [apply H|done|done|by destruct Hor as [-> | ->]|by right|]; cbn [mbind option_bind].
  destruct Hr as [(_ & _ & Hno)|(Hrr & -> & HC & _ & Hbs)]; [destruct (free_some F Hf) as [x Hx]; by apply Hno in Hx|].
  pose proof (ok_phys _ _ _ _ H) as [Hb0 _]; assert (book_ok b F) as Hb by (destruct Hb0 as (_ & _ & _ & HN); by eapply chunk_book).
  pose proof (mm_ok_book top _ _ _ _ H Hb) as H1; destruct (chunk_starts _ _ _ _ _ HC) as (_ & _ & E1 & _); rewrite bget_in by lia; cbn [mbind option_bind].
  rewrite E1; change (page_unused =? page_unused) with true; cbn [assert mbind option_bind].
  destruct (create_mapping_new top (mk_phys b (memory s)) T F (mk_ptable (PHY_MEM_START_CACHED + p * PHY_PAGE_SIZE) 2) i0 i1 p i r 1
    (sc (mk_ptable (PHY_MEM_START_CACHED + p * PHY_PAGE_SIZE) 2))) as (s' & -> & HN); try done; try lia.
  { split; [done|]; by destruct Hpath as (p1 & _ & _ & _ & _ & _ & ?). }
  { intros k Hk; by replace k with i by lia. }
  destruct HN as [Hok Hbk _ _ _ Hg]; cbn [mbind option_bind the_book memory] in *; rewrite bget_in by lia; cbn [mbind option_bind].
  rewrite Hbk, decide_True by done; change (status (set_status page_mapped (ent b r)) =? page_mapped) with true; cbn [assert mbind option_bind].
  pose proof (ok_phys _ _ _ _ Hok) as [Hb' _]; destruct (try_merge_starts (the_book s') _ r Hb') as (b2 & p2 & -> & Hb2 & _ & Hc2); [|lia|].
  { split; [lia|]; rewrite Hbk, decide_True by done; cbn [len set_status]; by destruct (chunk_starts _ _ _ _ _ HC) as ([_ ?] & _). }
  cbn [mbind option_bind]; eexists (mk_phys b2 (memory s')), _; split; [reflexivity|]; split; [by apply mm_ok_book|].
  split; [eapply grows_weaken; [|exact Hg]; done|]; pose proof (book_length _ _ Hb); split.
  - rewrite (free_set_range F r 1 page_unused) by (done || lia || apply (chunk_range _ _ _ _ _ HC)); by rewrite decide_True.
  - intros HS Hf'; destruct (HS Hf) as [lo HW]; exists (lo + 1); apply Hc2; [|by rewrite Hbk, decide_True].
    eapply whole_restatus; [by apply (Hbs lo)|exact HC|done|exact Hb'| |exact Hf']; intros x Hx; by rewrite Hbk, decide_False.
Qed.

Lemma vpn_vbase va : 0 <= va < 2 ^ 38 -> va / 4096 = vbase (vpn va 0) (vpn va 1) + vpn va 2.
Proof. apply vpn_page. Qed.

Lemma same_page va va' : 0 <= va < 2 ^ 38 -> 0 <= va' < 2 ^ 38 -> va / 4096 = va' / 4096 -> vpn va 0 = vpn va' 0 /\ vpn va 1 = vpn va' 1 /\ vpn va 2 = vpn va' 2.
Proof.
  intros H H' E; rewrite !vpn_page in E by done; pose proof (vpn_range va 1); pose proof (vpn_range va 2); pose proof (vpn_range va' 1); pose proof (vpn_range va' 2); lia.
Qed.

Lemma commit_page_ok s T F addr : mm_ok top s T F -> 3 <= free F -> 0 <= addr < 2 ^ 38 ->
  exists s' T' F', vmem_commit_vmem CRAM sc top s addr = Some (s', match translate (memory s) top addr with Some _ => Spurious | None => Committed end) /\
    mm_ok top s' T' F' /\ grows top anywhere (addr / 4096) (addr / 4096 + 1) (memory s) (memory s') /\ free F - 3 <= free F' /\
    (solid (the_book s) F -> solid (the_book s') F').
Proof.
  intros H Hf Ha; destruct (index_vpn addr ltac:(lia)) as (EI0 & EI1 & EI2); unfold vmem_commit_vmem; rewrite EI0, EI1, EI2.
  pose proof (vpn_low addr Ha) as V0l; pose proof (vpn_range addr 0) as V0r; pose proof (vpn_range addr 1) as V1r; pose proof (vpn_range addr 2) as V2r.
  destruct (need_l1 s T F (vpn addr 0) anywhere (addr / 4096) H) as (s1 & p1 & T1 & F1 & -> & H1 & HP1 & Hg1 & Ht1); [lia|lia|]; cbn [mbind option_bind].
  pose proof (tb_free _ _ _ _ _ Ht1) as Hf1.
  destruct (need_l2 s1 T1 F1 (vpn addr 0) (vpn addr 1) p1 anywhere (addr / 4096) H1 HP1) as (s2 & p2 & T2 & F2 & -> & H2 & _ & HP2 & Hg2 & Ht2); [lia|lia|].
  pose proof (tb_free _ _ _ _ _ Ht2) as Hf2; cbn [mbind option_bind].
  assert (grows top anywhere (addr / 4096) (addr / 4096) (memory s) (memory s2)) as Hg by (eapply grows_trans; [|done|done]; lia).
  assert (T2 !! p2 = Some 2) as Hp2 by (by destruct HP2 as (? & _ & _ & _ & _ & _ & ?)).
  rewrite (entries_eq _ T2 F2 top _ p2 2) by (done || apply H2); change VTABLE_ENTRY_FREE with 0.
  pose proof (path_mapped top s2 T2 F2 _ _ p2 addr H2 HP2 Ha eq_refl eq_refl) as Hiff.
  assert (translate (memory s) top addr = translate (memory s2) top addr) as Etr.
  { specialize (Hg addr Ha); destruct (translate (memory s) top addr) as [[x e]|]; [by destruct Hg as [-> _]|]; by rewrite decide_False in Hg by lia. }
  assert (solid (the_book s) F -> solid (the_book s2) F2) as HS.
  { intros HS Hf2'; destruct (HS ltac:(lia)) as [lo HW]; exists lo; by apply (tb_whole _ _ _ _ _ (tabled_trans _ _ _ _ _ _ _ _ Ht1 Ht2)). }
  rewrite Etr; destruct (pte (memory s2) p2 (vpn addr 2) =? 0) eqn:E0; [apply Z.eqb_eq in E0|apply Z.eqb_neq in E0]; cbn [negb].
  - rewrite (proj2 Hiff E0).
    destruct (vmem_create_mapping_ok s2 T2 F2 (vpn addr 0) (vpn addr 1) p2 (vpn addr 2)) as (s' & F' & -> & H' & Hg' & Hf' & HS'); [done|done|lia|done|lia|].
    cbn [mbind option_bind]; exists s', T2, F'; split; [done|]; split; [done|]; rewrite <- vpn_vbase in Hg' by done; split; [eapply grows_trans; [|exact Hg|exact Hg']; lia|]; split; [lia|auto].
  - destruct (ok_leaf _ _ _ _ H2 p2 (vpn addr 2) Hp2) as [?|(q & Hq & Eq)]; [done|done|]; pose proof flags_ok as [Hfl _].
    assert ((pte (memory s2) p2 (vpn addr 2) =? VTABLE_ENTRY_USED) = false) as ->.
    { apply Z.eqb_neq; rewrite Eq; pose proof (leaf_range TLB_FLAGS_DEFAULT q); change VTABLE_ENTRY_USED with (2 ^ 64 - 2); lia. }
    cbn [negb assert mbind option_bind]; exists s2, T2, F2; split; [|split; [done|split; [|split; [lia|done]]]].
    + destruct (translate (memory s2) top addr) as [[? ?]|] eqn:E; [done|]; by destruct (E0 (proj1 Hiff eq_refl)).
    + eapply grows_trans; [|exact Hg|]; [lia|]; eapply grows_skip; [|apply grows_refl|]; [lia|].
      intros va Hva Hpg; destruct (same_page va addr Hva Ha ltac:(lia)) as (V0 & V1 & V2).
      intros E; apply (path_mapped top s2 T2 F2 _ _ p2 va H2 HP2 Hva V0 V1) in E; rewrite V2 in E; done.
Qed.

End CommitPage.
