(* ===== verification/VmemRange.v ===== *)
(** * Committing a range of pages

    The loops of [vmem_commit_vmem_range]: blocks of physical pages are taken
    from the book one after the other and mapped into the empty entries of one
    table after the other.  Without [COMMIT_DMA] the range is mapped whenever
    there are enough pages; with it the call may give up, and when it does not
    the pages are contiguous. *)

From S2P Require Import Prelude Book Pmem PageTable Vmem VmemBook VmemCommit.

#[local] Existing Instance live_chunks.

Section Range.

Context (CRAM : Z -> Z) (sc : ptable_t -> Z -> list bool) (top : Z).
Context (HCR : cram_ok CRAM) (Hsc : forall h i, true ∈ sc h i).

(** The range starts at virtual page [V] and has [N] pages. *)
Context (dma : bool) (V N : Z).

(** ** The place in the book *)

Record place (c : range_st) (T : gmap Z Z) (F : list Z) : Prop := {
  pl_ok : mm_ok top (r_phys c) T F;
  pl_start : starts (the_book (r_phys c)) (phy_pagen c);
  pl_before : phy_pagen c = 0 \/ stat F (phy_pagen c - 1) page_mapped;
  pl_first : dma = false -> forall x, stat F x page_unused -> phy_pagen c <= x
}.

Definition block_ok (c : range_st) (F : list Z) : Prop :=
  in_block c = 0 \/ chunk_is (the_book (r_phys c)) F (phy_pagen c) (in_block c) page_unused.

(** With DMA, at virtual page [v]: no block has been chosen, or the rest of the
    block is where the rest of the range goes. *)
Definition dma_ok (c : range_st) (F : list Z) (v : Z) : Prop := dma = true ->
  contig_base c = 0 /\ phy_pagen c = 0 /\ v = V \/
  contig_base c <> 0 /\ (v < V + N -> phy_pagen c = contig_base c + (v - V) /\
    forall x, phy_pagen c <= x < contig_base c + N -> stat F x page_unused \/ stat F x page_ptable).

(** Where the pages of the range are put. *)
Definition put (c : range_st) (v q : Z) : Prop := dma = true -> q = contig_base c + (v - V).

Definition same_base (c c' : range_st) : Prop := dma = true -> contig_base c <> 0 -> contig_base c' = contig_base c.

(** The unused pages are one chunk, which with DMA is the block chosen; and
    there is something left of the block. *)
Definition firm (c : range_st) (F : list Z) : Prop :=
  solid (the_book (r_phys c)) F /\ (dma = true -> contig_base c <> 0 -> 0 < free F -> whole (the_book (r_phys c)) F (phy_pagen c)).

Definition lively (c : range_st) (F : list Z) : Prop := dma = true -> contig_base c <> 0 -> 0 < free F -> 0 < in_block c.

(** A block of unused pages to map at virtual page [v]. *)
Lemma next_block_ok c T F pages_tmp v : place c T F -> block_ok c F -> dma_ok c F v -> V <= v < V + N -> (dma = false -> 0 < free F) ->
  (dma = true -> contig_base c = 0 -> pages_tmp = N) -> 0 < N <= 2 ^ 38 ->
  match next_block CRAM dma pages_tmp c with
  | None => dma = true /\ (firm c F -> lively c F -> V + N - v <= free F -> False)
  | Some c' => r_phys c' = r_phys c /\ chunk_is (the_book (r_phys c)) F (phy_pagen c') (in_block c') page_unused /\
      (dma = false -> forall x, stat F x page_unused -> phy_pagen c' <= x) /\ same_base c c' /\
      (dma = true -> contig_base c' <> 0 /\ phy_pagen c' = contig_base c' + (v - V) /\
         forall x, phy_pagen c' <= x < contig_base c' + N -> stat F x page_unused \/ stat F x page_ptable)
  end.
Proof.
  intros [Hok Hst Hbf Hfi] Hbl Hdma Hv Hf Hpt HN; pose proof (ok_phys _ _ _ _ Hok) as [Hb _]; unfold next_block; change VIRT_PHY_PAGE_RATIO with 1.
  pose proof (ok_io _ _ _ _ Hok) as (st0 & Hs0 & Hio).
  assert (forall x l, chunk_is (the_book (r_phys c)) F x l page_unused -> x <> 0) as Hpos.
  { intros x l HC ->; destruct (chunk_starts _ _ _ _ _ HC) as (_ & _ & _ & _ & Hl); pose proof (chunk_range _ _ _ _ _ HC 0 ltac:(lia)) as Hu.
    destruct Hs0 as [_ Hs0]; rewrite Hu in Hs0; injection Hs0 as <-; by destruct Hio. }
  destruct (in_block c <? 1) eqn:E1; [apply Z.ltb_lt in E1|apply Z.ltb_ge in E1].
  2:{ destruct Hbl as [Hbl|HC]; [lia|]; split; [done|]; split; [done|]; split; [done|]; split; [done|]; intros Hd.
      destruct (Hdma Hd) as [(_ & E0 & _)|[E0 Hr]]; [by destruct (Hpos _ _ HC)|split; [done|apply Hr; lia]]. }
  destruct (negb dma || (contig_base c =? 0)) eqn:Ed; cbn [assert mbind option_bind].
  2:{ apply orb_false_iff in Ed as [Ed%negb_false_iff Ec%Z.eqb_neq]; split; [done|]; intros _ HLv Hfe; specialize (HLv Ed Ec ltac:(lia)); lia. }
  assert (0 < (if dma then pages_tmp else 1) <= 2 ^ 38) as Hn.
  { destruct dma; [|lia]; cbn in Ed; apply Z.eqb_eq in Ed; rewrite Hpt by done; lia. }
  destruct (find_first CRAM (the_book (r_phys c)) F _ (phy_pagen c) Hb Hst Hn) as (r & -> & Hr); cbn [mbind option_bind].
  destruct Hr as [(-> & Hno & Hnl)|(Hrr & Er & (l & HC & Hl) & Hmin)].
  { rewrite Z.eqb_refl; cbn [negb assert mbind option_bind]; destruct dma eqn:Edm.
    { split; [done|]; intros [HS _] _ Hfe; cbn in Ed; apply Z.eqb_eq in Ed; destruct (Hdma Edm) as [(_ & Ep & Ev)|[? _]]; [|done].
      destruct (HS ltac:(lia)) as [lo HW]; destruct (chunk_starts _ _ _ _ _ HW) as ([? _] & _); specialize (Hnl _ _ HW ltac:(lia)); rewrite Hpt in Hnl by done; lia. }
    exfalso; destruct (free_some F (Hf eq_refl)) as [x Hx]; eapply (Hno eq_refl x); [by apply Hfi|done]. }
  pose proof Hst as [Hst0 _]; rewrite Er; cbn [negb assert mbind option_bind]; rewrite bget_in by lia; cbn [mbind option_bind in_block phy_pagen contig_base r_phys].
  destruct (chunk_starts _ _ _ _ _ HC) as (_ & _ & _ & -> & _); split; [by destruct (r_phys c)|]; split; [done|]; split.
  { intros Hd x Hx; rewrite Hd in Hmin; destruct (decide (r <= x)); [done|]; exfalso; eapply (Hmin eq_refl x); [|done]; split; [by apply Hfi|lia]. }
  split; [intros Hd Hc0; rewrite Hd in Ed; cbn in Ed; by apply Z.eqb_eq in Ed|].
  intros Hd; rewrite Hd in Ed, Hl; cbn in Ed; apply Z.eqb_eq in Ed; rewrite Ed; change (0 =? 0) with true; cbv iota; split; [by eapply Hpos|].
  destruct (Hdma Hd) as [(_ & _ & ->)|[? _]]; [|done]; split; [lia|]; intros x Hx; left; split; [lia|]; rewrite Hpt in Hl by done.
  apply (chunk_range _ _ _ _ _ HC); lia.
Qed.

(** One block mapped from virtual page [v] on. *)
Record mapped_block (c : range_st) (T : gmap Z Z) (F : list Z) (i0 i1 p ndx : Z) (n : Z) (c' : range_st) (F' : list Z) : Prop := {
  mb_place : place c' T F';
  mb_block : block_ok c' F';
  mb_path : leaf_path top T (memory (r_phys c')) i0 i1 p;
  mb_other k : 0 <= k < 512 -> ~ ndx <= k < ndx + n -> pte (memory (r_phys c')) p k = pte (memory (r_phys c)) p k;
  mb_upper : upper T (memory (r_phys c)) (memory (r_phys c'));
  mb_grows : grows top (put c') (vbase i0 i1 + ndx) (vbase i0 i1 + ndx + n) (memory (r_phys c)) (memory (r_phys c'));
  mb_free : free F' = free F - n;
  mb_dma : dma_ok c' F' (vbase i0 i1 + ndx + n);
  mb_base : same_base c c';
  mb_firm : firm c F -> lively c F -> firm c' F' /\ lively c' F'
}.

(** The chunk to map, cut to its length. *)
Lemma cut_block b F q l n : chunk_is b F q l page_unused -> 0 < n <= l -> n <= 512 -> last F <> Some page_nano_owned ->
  exists b', (if negb (l =? n) then pmem_break_page_to b q n else Some b) = Some b' /\ book_ok b' F /\ chunk_is b' F q n page_unused /\
    (n < l -> chunk_is b' F (q + n) (l - n) page_unused).
Proof.
  intros HC Hn Hs HN; destruct (l =? n) eqn:E; cbn [negb]; [apply Z.eqb_eq in E; subst n|].
  - exists b; split_and!; [done|by eapply chunk_book|done|lia].
  - destruct (break_starts _ _ _ _ _ n HC) as (b' & -> & HC1 & HC2 & _); [lia|rewrite total_val; lia|]; exists b'; split_and!; try done; by eapply chunk_book.
Qed.

(** Past the pages mapped: the rest of the block, or the next chunk, or the
    one after it when the next one is mapped already. *)
Lemma after_block b F q n rest : book_ok b F -> starts b (q + n) -> 0 < q + n -> stat F (q + n - 1) page_mapped -> 0 <= rest ->
  (0 < rest -> chunk_is b F (q + n) rest page_unused) ->
  exists b' q', (e ← bget b (q + n); if (rest =? 0) && (status e =? page_mapped) then b ← merge_phy_page_range b (prev e); Some (b, len e + (q + n)) else Some (b, q + n)) = Some (b', q') /\
    book_ok b' F /\ starts b' q' /\ stat F (q' - 1) page_mapped /\ (0 < rest -> q' = q + n /\ chunk_is b' F (q + n) rest page_unused) /\
    (rest = 0 -> q + n <= q' /\ forall x, q + n <= x < q' -> stat F x page_mapped) /\ (q' <> q + n -> stat F (q + n) page_mapped).
Proof.
  intros HB Hs Hp Hm Hr HC; pose proof Hs as [Hs0 Hl]; rewrite bget_in by lia; cbn [mbind option_bind].
  destruct ((rest =? 0) && _) eqn:E.
  2:{ exists b, (q + n); split; [done|]; split; [done|]; split; [done|]; split; [done|]; split; [by intros; split; [|apply HC]|].
      split; [intros; split; [lia|intros; lia]|intros; lia]. }
  apply andb_true_iff in E as [E1%Z.eqb_eq E2%Z.eqb_eq]; assert (q + n < TOTAL_PHY_PAGES) as Hlt.
  { destruct (decide (q + n = TOTAL_PHY_PAGES)) as [Eq|]; [|lia]; rewrite Eq in E2; destruct HB as (cs & (_ & _ & Hst & _) & _); by rewrite Hst in E2. }
  pose proof (start_chunk _ _ _ HB Hs Hlt) as HC1; rewrite E2 in HC1; pose proof HB as (_ & _ & _ & HN).
  destruct (merge_before _ _ _ _ _ HC1 Hp HN) as (b' & -> & HB' & Hs' & _); cbn [mbind option_bind]; pose proof (chunk_range _ _ _ _ _ HC1) as HR.
  destruct (chunk_starts _ _ _ _ _ HC1) as (_ & Hs1 & _); rewrite Z.add_comm.
  exists b', (q + n + len (ent b (q + n))); split; [done|]; split; [done|]; split; [|split; [|split; [lia|split]]].
  - apply Hs'; [done|lia].
  - split; [lia|]; apply HR; lia.
  - intros _; split; [lia|]; intros x Hx; split; [lia|]; apply HR; lia.
  - intros _; split; [lia|]; apply HR; lia.
Qed.

Lemma map_block_ok c T F i0 i1 p ndx e : mm_ok top (r_phys c) T F -> leaf_path top T (memory (r_phys c)) i0 i1 p ->
  chunk_is (the_book (r_phys c)) F (phy_pagen c) (in_block c) page_unused -> (dma = false -> forall x, stat F x page_unused -> phy_pagen c <= x) ->
  (dma = true -> contig_base c <> 0 /\ phy_pagen c = contig_base c + (vbase i0 i1 + ndx - V) /\
     forall x, phy_pagen c <= x < contig_base c + N -> stat F x page_unused \/ stat F x page_ptable) ->
  0 <= ndx < e -> e <= 512 -> (forall k, ndx <= k < e -> pte (memory (r_phys c)) p k = 0) ->
  exists c' n F', map_block sc TLB_FLAGS_DEFAULT (mk_ptable (PHY_MEM_START_CACHED + p * PHY_PAGE_SIZE) 2) c ndx e = Some (c', ndx + n) /\ 0 < n <= e - ndx /\
    mapped_block c T F i0 i1 p ndx n c' F'.
Proof.
  intros Hok Hpath HC Hfi Hdma Hnd He Hz; pose proof (ok_phys _ _ _ _ Hok) as [Hb _]; pose proof Hb as (_ & _ & _ & HN).
  destruct (chunk_entry _ _ _ _ _ HC) as (_ & _ & _ & _ & Hq0 & Hl & Hle); pose proof (book_length _ _ Hb) as HLen.
  unfold map_block; change VIRT_PHY_PAGE_RATIO with 1; rewrite Z.mul_1_r; set (n := if in_block c <? e - ndx then in_block c else e - ndx).
  assert (0 < n <= in_block c /\ n <= e - ndx) as [Hn Hne] by (unfold n; destruct (in_block c <? e - ndx) eqn:E; [apply Z.ltb_lt in E|apply Z.ltb_ge in E]; lia).
  clearbody n; rewrite Z.div_1_r; set (q := phy_pagen c) in *.
  destruct (cut_block _ _ _ _ n HC Hn ltac:(lia) HN) as (b1 & -> & Hb1 & HC1 & HR1); cbn [mbind option_bind].
  destruct (chunk_starts _ _ _ _ _ HC1) as (Hsq & Hsn & E1 & E2 & _); rewrite bget_in by lia; cbn [mbind option_bind]; rewrite E1.
  change (page_unused =? page_unused) with true; cbn [assert mbind option_bind].
  destruct (create_mapping_new top (mk_phys b1 (memory (r_phys c))) T F (mk_ptable (PHY_MEM_START_CACHED + p * PHY_PAGE_SIZE) 2) i0 i1 p ndx q n
    (sc (mk_ptable (PHY_MEM_START_CACHED + p * PHY_PAGE_SIZE) 2))) as (s' & -> & [Hok' Hbk Hpath' Hoth Hup Hg]); try done; try lia.
  { by apply mm_ok_book. }
  { split; [done|]; by destruct Hpath as (p1 & _ & _ & _ & _ & _ & ?). }
  { intros k Hk; apply Hz; lia. }
  cbn [mbind option_bind the_book memory] in *; rewrite bget_in by lia; cbn [mbind option_bind]; set (F' := set_range F q n page_mapped) in *.
  assert (forall x, len (ent (the_book s') x) = len (ent b1 x)) as Hlen by (intros x; rewrite Hbk; case_decide; done).
  assert (forall x, starts b1 x -> starts (the_book s') x) as Hst by (intros x [? ?]; split; [done|by rewrite Hlen]).
  assert (status (ent (the_book s') q) = page_mapped) as Eq by (rewrite Hbk, decide_True; done); rewrite Eq.
  change (page_mapped =? page_mapped) with true; cbn [assert mbind option_bind].
  pose proof (ok_phys _ _ _ _ Hok') as [Hb' _]; pose proof Hb' as (_ & _ & _ & HN'); pose proof (start_chunk _ _ q Hb' (Hst _ Hsq) ltac:(lia)) as HC'.
  assert (0 < q) as Hq.
  { destruct (ok_io _ _ _ _ Hok) as (st0 & [_ Hs0] & Hio); destruct (decide (q = 0)) as [E0|]; [|lia].
    pose proof (chunk_range _ _ _ _ _ HC 0 ltac:(lia)) as Hu; rewrite Hu in Hs0; injection Hs0 as <-; by destruct Hio. }
  destruct (merge_left _ _ _ _ _ HC' Hq HN') as (b2 & EB & Hb2 & Hs2 & Hc2); destruct (bget (the_book s') (prev (ent (the_book s') q))) as [f|]; [|done].
  cbn [mbind option_bind] in EB |- *; rewrite EB; cbn [mbind option_bind]; clear EB.
  assert (forall x y, stat F' x y <-> (q <= x < q + n /\ y = page_mapped \/ ~ q <= x < q + n /\ stat F x y)) as HS by (intros; apply stat_ranged; lia).
  destruct (after_block b2 F' q n (in_block c - n)) as (b3 & q' & EB & Hb3 & Hs3 & Hm3 & Hr3 & Hj3 & Hj3'); [done|apply Hs2; [by apply Hst|lia]|lia| |lia| |].
  { apply HS; left; split; [lia|done]. }
  { intros Hr; apply Hc2; [|lia]; specialize (HR1 ltac:(lia)); destruct (chunk_starts _ _ _ _ _ HR1) as (Hs & _ & E3 & E4 & _).
    pose proof (start_chunk _ _ _ Hb' (Hst _ Hs)) as HX; rewrite Hbk, decide_False in HX by lia; rewrite E3, E4 in HX; apply HX.
    destruct (chunk_entry _ _ _ _ _ HR1) as (_ & _ & _ & _ & _ & ? & ?); lia. }
  destruct (bget b2 (q + n)) as [e2|]; [|done]; cbn [mbind option_bind] in EB |- *; rewrite EB; cbn [mbind option_bind].
  eexists _, n, F'; split; [reflexivity|]; split; [lia|]; split; cbn [r_phys phy_pagen in_block contig_base memory]; try done.
  - split; cbn [r_phys phy_pagen the_book]; [by apply mm_ok_book|done|by right|].
    intros Hd x Hx; apply HS in Hx as [[_ ?]|[Hx1 Hx]]; [done|]; specialize (Hfi Hd x Hx); destruct (decide (in_block c - n = 0)) as [Ez|Ez].
    + destruct (Hj3 Ez) as [Hle' Hmm]; destruct (decide (q' <= x)); [done|]; exfalso; pose proof (Hmm x ltac:(lia)) as Hmx.
      apply HS in Hmx as [[? _]|[_ Hmx]]; [lia|]; pose proof (stat_fun _ _ _ _ Hmx Hx); done.
    + destruct (Hr3 ltac:(lia)) as [-> _]; lia.
  - unfold block_ok; cbn; destruct (decide (in_block c - n = 0)); [by left|right]; destruct (Hr3 ltac:(lia)) as [-> ?]; done.
  - eapply grows_weaken; [|exact Hg]; intros v x Hv ->; unfold put; cbn; intros Hd; destruct (Hdma Hd) as (_ & -> & _); lia.
  - unfold F'; rewrite (free_set_range F q n page_unused); [by rewrite decide_True|lia|lia|lia|by eapply chunk_range|done].
  - unfold dma_ok; cbn; intros Hd; destruct (Hdma Hd) as (Hc0 & Epp & Hrest); right; split; [done|]; intros Hlt.
    assert (q' = q + n) as ->.
    { destruct (decide (in_block c - n = 0)) as [Ez|Ez]; [|by destruct (Hr3 ltac:(lia)) as [? _]]; destruct (decide (q' = q + n)) as [|Hj]; [done|exfalso].
      apply Hj3' in Hj; apply HS in Hj as [[? _]|[_ Hj]]; [lia|]; destruct (Hrest (q + n) ltac:(lia)) as [Hu|Hu]; pose proof (stat_fun _ _ _ _ Hu Hj); done. }
    split; [lia|]; intros x Hx; destruct (Hrest x ltac:(lia)); [left|right]; apply HS; right; (split; [lia|done]).
  - intros [HSo _] _; destruct (solid_chunk _ _ _ _ HSo HC) as [_ El]; assert (0 < free F' -> whole b3 F' q' /\ 0 < in_block c - n) as HW.
    { unfold F', whole; rewrite (free_set_range F q n page_unused), decide_True, <- El by (done || lia || by eapply chunk_range); intros Hr.
      destruct (Hr3 Hr) as [-> ?]; done. }
    split; [split; [intros Hp; eexists; by apply HW|intros _ _ Hp; by apply HW]|intros _ _ Hp; by apply HW].
Qed.

(** ** The loops *)

Lemma put_keep c1 c' F1 v a b m m' : dma_ok c1 F1 v -> V < v -> same_base c1 c' -> grows top (put c1) a b m m' -> grows top (put c') a b m m'.
Proof.
  intros Hd Hv Hb; apply grows_weaken; intros x q _ Hp Ed; rewrite (Hp Ed), Hb; [done|done|].
  destruct (Hd Ed) as [(_ & _ & ?)|[? _]]; [lia|done].
Qed.

Lemma mapped_trans c T F i0 i1 p ndx n n' c1 F1 c' F' : V <= vbase i0 i1 + ndx -> 0 < n -> 0 <= n' ->
  mapped_block c T F i0 i1 p ndx n c1 F1 -> mapped_block c1 T F1 i0 i1 p (ndx + n) n' c' F' -> mapped_block c T F i0 i1 p ndx (n + n') c' F'.
Proof.
  intros HV Hn Hn' [A1 A2 A3 A4 AU A5 A6 A7 A8 A9] [B1 B2 B3 B4 BU B5 B6 B7 B8 B9]; split; try done.
  - intros k Hk Hno; rewrite B4, A4 by lia; done.
  - by eapply upper_trans.
  - rewrite !Z.add_assoc in *; eapply grows_trans; [|eapply put_keep; [exact A7|lia|done|exact A5]|exact B5]; lia.
  - lia.
  - by rewrite !Z.add_assoc in *.
  - intros Hd Hc; rewrite B8, A8; try done; rewrite A8; done.
  - intros HF HL; destruct (A9 HF HL); auto.
Qed.

Lemma mapped_none c T F i0 i1 p ndx : place c T F -> block_ok c F -> leaf_path top T (memory (r_phys c)) i0 i1 p -> dma_ok c F (vbase i0 i1 + ndx) ->
  mapped_block c T F i0 i1 p ndx 0 c F.
Proof. intros; split; try done; [rewrite Z.add_0_r; apply grows_refl|lia|by rewrite Z.add_0_r]. Qed.

Lemma commit_empty_ok T i0 i1 p pages_tmp e n : forall c F ndx, place c T F -> block_ok c F -> leaf_path top T (memory (r_phys c)) i0 i1 p ->
  dma_ok c F (vbase i0 i1 + ndx) -> 0 <= ndx <= e -> e <= 512 -> e - ndx <= Z.of_nat n -> (forall k, ndx <= k < e -> pte (memory (r_phys c)) p k = 0) ->
  (dma = false -> e - ndx <= free F) -> (dma = true -> contig_base c = 0 -> pages_tmp = N) -> V <= vbase i0 i1 + ndx -> vbase i0 i1 + e <= V + N -> 0 < N <= 2 ^ 38 ->
  match commit_empty CRAM sc n dma pages_tmp TLB_FLAGS_DEFAULT (mk_ptable (PHY_MEM_START_CACHED + p * PHY_PAGE_SIZE) 2) c ndx e with
  | None => dma = true /\ (firm c F -> lively c F -> V + N - (vbase i0 i1 + ndx) <= free F -> False)
  | Some c' => exists F', mapped_block c T F i0 i1 p ndx (e - ndx) c' F'
  end.
Proof.
  induction n as [|n IH]; intros c F ndx Hpl Hbl Hpa Hdm Hnd He Hfu Hz Hfr Hpt HV HVN HN; cbn [commit_empty].
  { rewrite (proj2 (Z.eqb_eq ndx e)) by lia; exists F; replace (e - ndx) with 0 by lia; by apply mapped_none. }
  destruct (ndx =? e) eqn:E; [apply Z.eqb_eq in E; exists F; replace (e - ndx) with 0 by lia; by apply mapped_none|apply Z.eqb_neq in E].
  pose proof (next_block_ok c T F pages_tmp (vbase i0 i1 + ndx) Hpl Hbl Hdm ltac:(lia)) as HB; destruct (next_block _ _ _ _) as [c1|]; cbn [mbind option_bind].
  2:{ apply HB; [intros Hd; specialize (Hfr Hd); lia|done|done]. }
  destruct HB as (Ep & HC & Hfi & Hsb & Hd1); [intros Hd; specialize (Hfr Hd); lia|done|done|].
  rewrite <- Ep in HC, Hpa, Hz; pose proof (pl_ok _ _ _ Hpl) as Hok; rewrite <- Ep in Hok.
  destruct (map_block_ok c1 T F i0 i1 p ndx e Hok Hpa HC Hfi Hd1 ltac:(lia) He Hz) as (c2 & n2 & F2 & -> & Hn2 & HM); cbn [mbind option_bind].
  assert (mapped_block c T F i0 i1 p ndx n2 c2 F2) as HM'.
  { destruct HM as [A1 A2 A3 A4 AU A5 A6 A7 A8 A9]; rewrite Ep in A4, AU, A5; split; try done.
    - intros Hd Hc; rewrite A8, (Hsb Hd Hc); try done; by apply Hd1.
    - intros [HSo _] _; apply A9; [split; [by rewrite Ep|intros _ _ _; eapply solid_chunk; [by rewrite Ep|done]]|intros _ _ _].
      by destruct (chunk_starts _ _ _ _ _ HC) as (_ & _ & _ & _ & ?). }
  destruct HM' as [A1 A2 A3 A4 AU A5 A6 A7 A8 A9].
  specialize (IH c2 F2 (ndx + n2) A1 A2 A3); rewrite Z.add_assoc in IH; specialize (IH A7 ltac:(lia) He ltac:(lia)).
  assert (forall k, ndx + n2 <= k < e -> pte (memory (r_phys c2)) p k = 0) as Hz2.
  { intros k Hk; rewrite A4 by lia; rewrite <- (Hz k) by lia; by rewrite Ep. }
  assert (dma = true -> contig_base c2 = 0 -> pages_tmp = N) as Hpt2.
  { intros Hd Hc; apply Hpt; [done|]; destruct (decide (contig_base c = 0)); [done|]; rewrite A8 in Hc; done. }
  specialize (IH Hz2 ltac:(intros Hd; specialize (Hfr Hd); lia) Hpt2 ltac:(lia) HVN HN); destruct (commit_empty _ _ _ _ _ _ _ _ _) as [c3|].
  2:{ destruct IH as [Hd IH]; split; [done|]; intros HF HL Hfe; destruct (A9 HF HL) as [HF2 HL2]; apply (IH HF2 HL2); lia. }
  destruct IH as [F3 HM3]; exists F3; replace (e - ndx) with (n2 + (e - (ndx + n2))) by lia; eapply mapped_trans; [done|lia|lia|by split|done].
Qed.

(** The scans of a table. *)
Lemma skip_used_spec m h e n : forall ndx, ndx <= e -> e - ndx <= Z.of_nat n ->
  let r := skip_used n m h ndx e in ndx <= r <= e /\ (forall k, ndx <= k < r -> entries m h k <> 0) /\ (r = e \/ entries m h r = 0).
Proof.
  induction n as [|n IH]; intros ndx Hle Hn; cbn [skip_used].
  { split_and!; [lia|lia|intros; lia|left; lia]. }
  change VTABLE_ENTRY_FREE with 0; destruct (negb (ndx =? e) && negb (entries m h ndx =? 0)) eqn:E.
  - apply andb_true_iff in E as [E1%negb_true_iff E2%negb_true_iff]; apply Z.eqb_neq in E1, E2.
    destruct (IH (ndx + 1) ltac:(lia) ltac:(lia)) as (H1 & H2 & H3); split; [lia|]; split; [|done].
    intros k Hk; destruct (decide (k = ndx)) as [->|]; [done|apply H2; lia].
  - split; [lia|]; split; [intros; lia|]; apply andb_false_iff in E as [E|E]; apply negb_false_iff, Z.eqb_eq in E; auto.
Qed.

Lemma skip_free_spec m h e n : forall ndx, ndx <= e -> e - ndx <= Z.of_nat n ->
  let r := skip_free n m h ndx e in ndx <= r <= e /\ (forall k, ndx <= k < r -> entries m h k = 0) /\ (r = e \/ entries m h r <> 0).
Proof.
  induction n as [|n IH]; intros ndx Hle Hn; cbn [skip_free].
  { split_and!; [lia|lia|intros; lia|left; lia]. }
  change VTABLE_ENTRY_FREE with 0; destruct (negb (ndx =? e) && (entries m h ndx =? 0)) eqn:E.
  - apply andb_true_iff in E as [E1%negb_true_iff E2%Z.eqb_eq]; apply Z.eqb_neq in E1.
    destruct (IH (ndx + 1) ltac:(lia) ltac:(lia)) as (H1 & H2 & H3); split; [lia|]; split; [|done].
    intros k Hk; destruct (decide (k = ndx)) as [->|]; [done|apply H2; lia].
  - split; [lia|]; split; [intros; lia|]; apply andb_false_iff in E as [E|E]; [apply negb_false_iff in E; apply Z.eqb_eq in E|apply Z.eqb_neq in E]; auto.
Qed.

Lemma used_mapped s T F i0 i1 p a b : mm_ok top s T F -> leaf_path top T (memory s) i0 i1 p -> 0 <= a -> b <= 512 ->
  (forall k, a <= k < b -> pte (memory s) p k <> 0) -> forall va, 0 <= va < 2 ^ 38 -> vbase i0 i1 + a <= va / 4096 < vbase i0 i1 + b -> translate (memory s) top va <> None.
Proof.
  intros H Hpath Ha Hb Hu va Hva Hr; assert (0 <= i0 < 512 /\ 0 <= i1 < 512) as [Hi0 Hi1] by (destruct Hpath as (p1 & (_ & ? & _) & _ & _ & (_ & ? & _) & _); done).
  rewrite vpn_vbase in Hr by done; unfold vbase in Hr; pose proof (vpn_range va 0); pose proof (vpn_range va 1); pose proof (vpn_range va 2).
  assert (vpn va 0 = i0 /\ vpn va 1 = i1) as [V0 V1] by lia; rewrite V0, V1 in Hr.
  intros E; apply (path_mapped top s T F i0 i1 p va H Hpath Hva V0 V1) in E; eapply Hu; [|exact E]; lia.
Qed.

(** What is kept of a table's loop. *)
Record mapped_table (c : range_st) (T : gmap Z Z) (F : list Z) (i0 i1 p a b : Z) (c' : range_st) (F' : list Z) : Prop := {
  mt_place : place c' T F';
  mt_block : block_ok c' F';
  mt_path : leaf_path top T (memory (r_phys c')) i0 i1 p;
  mt_upper : upper T (memory (r_phys c)) (memory (r_phys c'));
  mt_grows : grows top (put c') (vbase i0 i1 + a) (vbase i0 i1 + b) (memory (r_phys c)) (memory (r_phys c'));
  mt_free : free F - (b - a) <= free F';
  mt_dma : dma_ok c' F' (vbase i0 i1 + b);
  mt_base : same_base c c';
  mt_firm : firm c F -> lively c F -> firm c' F' /\ lively c' F'
}.

Lemma put_any pl c a b m m' : dma = false -> grows top pl a b m m' -> grows top (put c) a b m m'.
Proof. intros Hd; apply grows_weaken; intros v q _ _ Hd'; congruence. Qed.

Lemma dma_any c F v : dma = false -> dma_ok c F v.
Proof. intros Hd Hd'; congruence. Qed.

Lemma commit_table_ok T i0 i1 p pages_tmp e n : forall c F ndx, place c T F -> block_ok c F -> leaf_path top T (memory (r_phys c)) i0 i1 p ->
  dma_ok c F (vbase i0 i1 + ndx) -> 0 <= ndx <= e -> e <= 512 -> e - ndx < Z.of_nat n ->
  (dma = true -> forall k, ndx <= k < e -> pte (memory (r_phys c)) p k = 0) ->
  (dma = false -> e - ndx <= free F) -> (dma = true -> contig_base c = 0 -> pages_tmp = N) -> V <= vbase i0 i1 + ndx -> vbase i0 i1 + e <= V + N -> 0 < N <= 2 ^ 38 ->
  match commit_table CRAM sc n dma pages_tmp TLB_FLAGS_DEFAULT (mk_ptable (PHY_MEM_START_CACHED + p * PHY_PAGE_SIZE) 2) c ndx e with
  | None => dma = true /\ (firm c F -> lively c F -> V + N - (vbase i0 i1 + ndx) <= free F -> False)
  | Some c' => exists F', mapped_table c T F i0 i1 p ndx e c' F'
  end.
Proof.
  induction n as [|n IH]; intros c F ndx Hpl Hbl Hpa Hdm Hnd He Hfu Hz Hfr Hpt HV HVN HN; [lia|]; cbn [commit_table].
  set (h := mk_ptable _ 2) in *; pose proof (pl_ok _ _ _ Hpl) as Hok; pose proof (ok_tables _ _ _ _ Hok) as HT.
  assert (T !! p = Some 2) as Hp by (by destruct Hpa as (? & _ & _ & _ & _ & _ & ?)).
  assert (forall k, 0 <= k < 512 -> entries (memory (r_phys c)) h k = pte (memory (r_phys c)) p k) as Hent by (intros; by eapply (entries_eq _ T F top _ p 2)).
  pose proof (skip_used_spec (memory (r_phys c)) h e (Z.to_nat (e - ndx)) ndx ltac:(lia) ltac:(lia)) as HS.
  cbv zeta in HS; set (a := skip_used _ _ _ _ _) in *; destruct HS as (Ha & Hused & Hend); clearbody a.
  assert (dma = true -> a = ndx) as Hda.
  { intros Hd; destruct (decide (a = ndx)); [done|]; exfalso; eapply (Hused ndx ltac:(lia)); rewrite Hent by lia; apply Hz; [done|lia]. }
  assert (grows top (put c) (vbase i0 i1 + ndx) (vbase i0 i1 + a) (memory (r_phys c)) (memory (r_phys c))) as Hg0.
  { eapply grows_skip; [|apply grows_refl|]; [lia|]; eapply used_mapped; [done|done|lia|lia|]; intros k Hk; rewrite <- Hent by lia; apply Hused; lia. }
  destruct (a =? e) eqn:Ea; [apply Z.eqb_eq in Ea|apply Z.eqb_neq in Ea].
  { subst a; exists F; split; try done; [lia|]; destruct dma eqn:Ed; [|by apply dma_any]; by rewrite Hda. }
  destruct Hend as [?|Hfa]; [done|].
  pose proof (skip_free_spec (memory (r_phys c)) h e (Z.to_nat (e - a)) a ltac:(lia) ltac:(lia)) as HS.
  cbv zeta in HS; set (b := skip_free _ _ _ _ _) in *; destruct HS as (Hb & Hfree & Hbend); clearbody b.
  destruct (negb dma || (b =? e)) eqn:Ed; cbn [assert mbind option_bind].
  2:{ apply orb_false_iff in Ed as [Ed%negb_false_iff Eb%Z.eqb_neq]; destruct Hbend as [?|Hub]; [done|]; destruct Hub; rewrite Hent by lia; apply Hz; [done|lia]. }
  pose proof (commit_empty_ok T i0 i1 p pages_tmp b (Z.to_nat (b - a)) c F a Hpl Hbl Hpa) as HC; fold h in HC.
  specialize (HC ltac:(destruct dma eqn:Ed'; [by rewrite Hda|by apply dma_any]) ltac:(lia) ltac:(lia) ltac:(lia)).
  specialize (HC ltac:(intros k Hk; rewrite <- Hent by lia; by apply Hfree) ltac:(intros Hd; specialize (Hfr Hd); lia) Hpt ltac:(lia) ltac:(lia) HN).
  destruct (commit_empty _ _ _ _ _ _ _ _ _) as [c1|]; cbn [mbind option_bind].
  2:{ destruct HC as [Hd HC]; split; [done|]; by rewrite <- (Hda Hd). }
  destruct HC as [F1 [A1 A2 A3 A4 AU A5 A6 A7 A8 A9]]; replace (vbase i0 i1 + a + (b - a)) with (vbase i0 i1 + b) in * by lia.
  assert (grows top (put c1) (vbase i0 i1 + ndx) (vbase i0 i1 + b) (memory (r_phys c)) (memory (r_phys c1))) as Hg1.
  { destruct dma eqn:Ed'; [by rewrite Hda in A5|]; eapply grows_trans; [|apply (put_any (put c)); [done|exact Hg0]|exact A5]; lia. }
  destruct (decide (b = e)) as [->|Hbe].
  { rewrite (proj2 (Z.ltb_ge _ _)) by lia; exists F1; split; try done; lia. }
  destruct Hbend as [?|Hub]; [done|]; assert (dma = false) as Hd.
  { destruct dma; [|done]; cbn in Ed; apply Z.eqb_eq in Ed; done. }
  assert (grows top (put c1) (vbase i0 i1 + ndx) (vbase i0 i1 + (b + 1)) (memory (r_phys c)) (memory (r_phys c1))) as Hg2.
  { eapply grows_trans; [|exact Hg1|eapply grows_skip; [|apply grows_refl|]]; [lia|lia|]; eapply (used_mapped _ T F1); [apply A1|done|lia|lia|].
    intros k Hk; assert (k = b) as -> by lia; rewrite A4 by lia; by rewrite <- Hent by lia. }
  destruct (b + 1 <? e) eqn:El; [apply Z.ltb_lt in El|apply Z.ltb_ge in El].
  2:{ exists F1; split; try done; [|lia|by apply dma_any]; by replace e with (b + 1) by lia. }
  specialize (IH c1 F1 (b + 1) A1 A2 A3 (dma_any _ _ _ Hd) ltac:(lia) He ltac:(lia)); specialize (IH ltac:(congruence) ltac:(intros _; specialize (Hfr Hd); lia)).
  specialize (IH ltac:(congruence) ltac:(lia) HVN HN); destruct (commit_table _ _ _ _ _ _ _ _ _) as [c2|]; [|by destruct IH; congruence].
  destruct IH as [F2 [B1 B2 B3 BU B5 B6 B7 B8 B9]]; exists F2; split; try done; [by eapply upper_trans| |lia|congruence|].
  2:{ intros HF HL; destruct (A9 HF HL); auto. }
  eapply grows_trans; [|apply (put_any (put c1)); [done|exact Hg2]|exact B5]; lia.
Qed.

(** ** One table after the other *)

Lemma tabled_place c T F n s' T' F' : place c T F -> tabled n (r_phys c) F s' F' -> mm_ok top s' T' F' -> place (with_phys c s') T' F'.
Proof.
  intros [H1 H2 H3 H4] [B1 B2 B3 B4 B5] Hok; split; cbn [r_phys phy_pagen with_phys]; [done|by apply B5|destruct H3; auto|by intros Hd x Hx; apply H4, B1].
Qed.

Lemma tabled_dma c F n s' F' v : dma_ok c F v -> tabled n (r_phys c) F s' F' -> dma_ok (with_phys c s') F' v.
Proof.
  intros HD [_ _ HT _ _] Hd; destruct (HD Hd) as [?|[Hc Hr]]; [by left|right; split; [done|]]; intros Hv; destruct (Hr Hv) as [Hp Hx]; split; [done|].
  intros x Hxr; by apply HT, Hx.
Qed.

Lemma tabled_firm c F n s' F' : firm c F -> tabled n (r_phys c) F s' F' -> firm (with_phys c s') F'.
Proof.
  intros [HS HD] HT; pose proof (tb_whole _ _ _ _ _ HT) as HW; assert (0 < free F' -> 0 < free F) as Hf.
  { intros Hf; destruct (free_some _ Hf) as [x Hx]; by apply (free_pos _ x), (tb_unused _ _ _ _ _ HT). }
  split; cbn [r_phys phy_pagen contig_base with_phys]; [|auto]; intros Hp; destruct (HS (Hf Hp)) as [lo ?]; exists lo; auto.
Qed.

(** The rest of the range has no pages yet, where that matters. *)
Definition unmapped (m : mem_t) (v : Z) : Prop := dma = true -> forall va, 0 <= va < 2 ^ 38 -> v <= va / 4096 < V + N -> translate m top va = None.

Lemma unmapped_grows pl m m' a v : unmapped m v -> a <= v -> grows top pl a v m m' -> unmapped m' v.
Proof. intros HU Ha HG Hd va Hva Hr; specialize (HG va Hva); rewrite (HU Hd va Hva Hr) in HG; by rewrite decide_False in HG by lia. Qed.

Lemma unmapped_le m v v' : unmapped m v -> v <= v' -> unmapped m v'.
Proof. intros HU Hv Hd va Hva Hr; apply HU; [done|done|lia]. Qed.

Lemma block_reread c T F : place c T F -> exists e, bget (the_book (r_phys c)) (phy_pagen c) = Some e /\
  let c' := mk_range (r_phys c) (phy_pagen c) (if status e =? page_unused then len e else 0) (contig_base c) in block_ok c' F /\ (firm c F -> lively c' F).
Proof.
  intros [Hok Hs _ _]; pose proof (ok_phys _ _ _ _ Hok) as [Hb _]; pose proof Hs as [Hr _]; rewrite bget_in by lia; eexists; split; [reflexivity|].
  split; [|intros [_ HD] Hd Hc Hf; cbn [in_block contig_base] in *; by destruct (chunk_starts _ _ _ _ _ (HD Hd Hc Hf)) as (_ & _ & -> & -> & ?)].
  unfold block_ok; cbn [in_block r_phys phy_pagen]; destruct (_ =? page_unused) eqn:E; [right|by left]; apply Z.eqb_eq in E.
  assert (phy_pagen c < TOTAL_PHY_PAGES) as Hlt.
  { destruct (decide (phy_pagen c = TOTAL_PHY_PAGES)) as [Eq|]; [|lia]; rewrite Eq in E; destruct Hb as (cs & (_ & _ & Hst & _) & _); by rewrite Hst in E. }
  pose proof (start_chunk _ _ _ Hb Hs Hlt) as HC; by rewrite E in HC.
Qed.

Lemma vbase_addr i0 i1 k : 0 <= i0 < 256 -> 0 <= i1 < 512 -> 0 <= k < 512 ->
  let va := (vbase i0 i1 + k) * 4096 in 0 <= va < 2 ^ 38 /\ va / 4096 = vbase i0 i1 + k /\ vpn va 0 = i0 /\ vpn va 1 = i1 /\ vpn va 2 = k.
Proof.
  intros H0 H1 Hk va; assert (0 <= va < 2 ^ 38) as Hva by (unfold va, vbase; lia); assert (va / 4096 = vbase i0 i1 + k) as Ev by (unfold va; by rewrite Z.div_mul).
  split; [done|]; split; [done|]; pose proof (vpn_vbase va Hva) as E; rewrite Ev in E; unfold vbase in E.
  pose proof (vpn_range va 0); pose proof (vpn_range va 1); pose proof (vpn_range va 2); lia.
Qed.

(** What a turn leaves: [k] more pages of the range from [v] on. *)
Record turned (c : range_st) (F : list Z) (i0 p1 v k : Z) (c' : range_st) (T' : gmap Z Z) (F' : list Z) : Prop := {
  tn_place : place c' T' F';
  tn_path : l1_path top T' (memory (r_phys c')) i0 p1;
  tn_grows : grows top (put c') v (v + k) (memory (r_phys c)) (memory (r_phys c'));
  tn_free : free F - 1 - k <= free F';
  tn_dma : dma_ok c' F' (v + k);
  tn_base : same_base c c';
  tn_firm : firm c F -> firm c' F'
}.

Lemma commit_turn_ok c T F i0 i1 p1 ndx R : place c T F -> l1_path top T (memory (r_phys c)) i0 p1 -> dma_ok c F (vbase i0 i1 + ndx) ->
  unmapped (memory (r_phys c)) (vbase i0 i1 + ndx) -> 0 <= i0 < 256 -> 0 <= i1 < 512 -> 0 <= ndx < 512 -> 0 < R -> vbase i0 i1 + ndx + R = V + N ->
  V <= vbase i0 i1 + ndx -> V + N <= 2 ^ 26 -> 0 < N <= 2 ^ 38 -> R < free F -> (dma = true -> contig_base c = 0 -> R = N) ->
  let k := Z.min (512 - ndx) R in
  match commit_turn CRAM sc dma TLB_FLAGS_DEFAULT c (Some (mk_ptable (PHY_MEM_START_CACHED + p1 * PHY_PAGE_SIZE) 1)) i1 ndx R with
  | None => dma = true /\ ~ firm c F
  | Some (c', rest) => rest = R - k /\ exists T' F', turned c F i0 p1 (vbase i0 i1 + ndx) k c' T' F'
  end.
Proof.
  intros Hpl Hl1 Hdm Hun Hi0 Hi1 Hnd HR HE HV HVN HN Hf Hpt k; unfold commit_turn; change VIRT_PHY_PAGE_RATIO with 1; change PAGE_TABLE_ENT_PER_TABLE with 512.
  rewrite Z.mod_1_r, Z.div_1_r, Z.mul_1_r; change (0 =? 0) with true; cbn [assert mbind option_bind].
  destruct (need_l2 CRAM sc top HCR Hsc (r_phys c) T F i0 i1 p1 (put c) (vbase i0 i1 + ndx) (pl_ok _ _ _ Hpl) Hl1 Hi1 ltac:(lia))
    as (s & p & T1 & F1 & -> & Hok & Hl1' & Hpath & Hg & Htb); cbn [mbind option_bind].
  pose proof (tabled_place _ _ _ _ _ _ _ Hpl Htb Hok) as Hpl'; pose proof (tabled_dma _ _ _ _ _ _ Hdm Htb) as Hdm'; pose proof (tb_free _ _ _ _ _ Htb) as Hf1.
  destruct (block_reread _ _ _ Hpl') as (e & Ee & Hbl & Hlv); cbn [r_phys phy_pagen contig_base with_phys] in Ee, Hbl, Hlv; rewrite Ee; cbn [mbind option_bind].
  set (ib := if status e =? page_unused then len e else 0) in *; clearbody ib; set (ee := if 512 <? ndx + R then 512 else ndx + R).
  assert (ee = ndx + k) as -> by (unfold ee, k; destruct (512 <? ndx + R) eqn:E; [apply Z.ltb_lt in E|apply Z.ltb_ge in E]; lia).
  assert (0 < k /\ ndx + k <= 512 /\ k <= R) as (Hk0 & Hk1 & Hk2) by (unfold k; lia); clearbody k; replace (ndx + k - ndx) with k by lia.
  set (c1 := mk_range s (phy_pagen c) ib (contig_base c)).
  assert (place c1 T1 F1) as Hplc by (by destruct Hpl'; split); assert (dma_ok c1 F1 (vbase i0 i1 + ndx)) as Hdmc by exact Hdm'.
  pose proof (unmapped_grows _ _ _ _ _ Hun (Z.le_refl _) Hg) as Hun'.
  assert (dma = true -> forall j, ndx <= j < ndx + k -> pte (memory (r_phys c1)) p j = 0) as Hz.
  { intros Hd j Hj; destruct (vbase_addr i0 i1 j Hi0 Hi1 ltac:(lia)) as (Hva & Ev & V0 & V1 & V2); set (va := (vbase i0 i1 + j) * 4096) in *.
    pose proof (path_mapped top s T1 F1 i0 i1 p va Hok Hpath Hva V0 V1) as Hiff; rewrite V2 in Hiff; apply Hiff, Hun'; [done|done|lia]. }
  pose proof (commit_table_ok T1 i0 i1 p R (ndx + k) (S (Z.to_nat k)) c1 F1 ndx Hplc Hbl Hpath Hdmc ltac:(lia) Hk1 ltac:(lia) Hz ltac:(lia) Hpt HV ltac:(lia) HN) as HC.
  assert (firm c F -> firm c1 F1 /\ lively c1 F1) as HFm.
  { intros HF; pose proof (tabled_firm _ _ _ _ _ HF Htb) as HF'; split; [exact HF'|by apply Hlv]. }
  destruct (commit_table _ _ _ _ _ _ _ _ _) as [c'|]; cbn [mbind option_bind].
  2:{ destruct HC as [Hd HC]; split; [done|]; intros HF; destruct (HFm HF); apply HC; [done|done|lia]. }
  split; [lia|]; destruct HC as [F' [A1 A2 A3 AU A5 A6 A7 A8 A9]]; rewrite Z.add_assoc in A5, A7; exists T1, F'; split; try done.
  - destruct Hl1' as (Hs & E0 & Hp); split; [done|]; split; [|done]; rewrite (AU top 0); [done|apply Hs|lia|lia].
  - eapply grows_trans; [|eapply (grows_weaken top (put c)); [|exact Hg]|exact A5]; [lia|intros; lia].
  - lia.
  - intros HF; destruct (HFm HF); by apply A9.
Qed.

(** What the loop leaves: the range from [v] on is mapped, at the cost of [d]
    pages at most. *)
Record ranged (c : range_st) (F : list Z) (v d : Z) (c' : range_st) (T' : gmap Z Z) (F' : list Z) : Prop := {
  rn_place : place c' T' F';
  rn_grows : grows top (put c') v (V + N) (memory (r_phys c)) (memory (r_phys c'));
  rn_dma : dma_ok c' F' (V + N);
  rn_base : same_base c c';
  rn_free : free F - d <= free F';
  rn_firm : firm c F -> firm c' F'
}.

Lemma ranged_trans c F c1 F1 v v' d d' c' T' F' : V < v' -> v <= v' <= V + N -> free F - d <= free F1 -> (firm c F -> firm c1 F1) -> dma_ok c1 F1 v' -> same_base c c1 ->
  grows top (put c1) v v' (memory (r_phys c)) (memory (r_phys c1)) -> ranged c1 F1 v' d' c' T' F' -> ranged c F v (d + d') c' T' F'.
Proof.
  intros Hv Hvv Hfr Hfm Hd Hb Hg [A1 A2 A3 A4 A5 A6]; split; [done| |done| |lia|auto].
  - eapply grows_trans; [exact Hvv|eapply put_keep; [exact Hd|lia|done|exact Hg]|exact A2].
  - intros Ed Hc; rewrite A4, Hb; try done; rewrite Hb; done.
Qed.

Lemma ranged_le c F v d d' c' T' F' : d <= d' -> ranged c F v d c' T' F' -> ranged c F v d' c' T' F'.
Proof. intros Hd [A1 A2 A3 A4 A5 A6]; split; try done; lia. Qed.

Lemma next_l1 c T F i0 v : place c T F -> dma_ok c F v -> unmapped (memory (r_phys c)) v -> 0 <= i0 < 384 -> 0 < free F ->
  exists s p1 T' F', need_table CRAM sc (r_phys c) (Some (get_top_level_table top)) i0 = Some (s, Some (mk_ptable (PHY_MEM_START_CACHED + p1 * PHY_PAGE_SIZE) 1)) /\
    place (with_phys c s) T' F' /\ l1_path top T' (memory s) i0 p1 /\ dma_ok (with_phys c s) F' v /\ unmapped (memory s) v /\ free F - 1 <= free F' /\ (firm c F -> firm (with_phys c s) F') /\
    forall d c' T'' F'', ranged (with_phys c s) F' v d c' T'' F'' -> v <= V + N -> ranged c F v (1 + d) c' T'' F''.
Proof.
  intros Hpl Hdm Hun Hi Hf.
  destruct (need_l1 CRAM sc top HCR Hsc (r_phys c) T F i0 (put c) v (pl_ok _ _ _ Hpl) Hi Hf) as (s & p1 & T' & F' & E & Hok & Hl1 & Hg & Htb).
  exists s, p1, T', F'; split; [done|]; split; [by eapply tabled_place|]; split; [done|]; split; [by eapply tabled_dma|].
  split; [by eapply unmapped_grows|]; split; [apply Htb|]; split; [intros HF; by eapply tabled_firm|].
  intros d c' T'' F'' [A1 A2 A3 A4 A5 A6] Hv; split; try done; [|pose proof (tb_free _ _ _ _ _ Htb); lia|intros HF; by eapply A6, tabled_firm].
  eapply grows_trans; [|eapply (grows_weaken top (put c)); [|exact Hg]|exact A2]; [lia|intros; lia].
Qed.

Lemma turns_ok n : forall c T F i0 i1 p1 ndx R, place c T F -> l1_path top T (memory (r_phys c)) i0 p1 -> dma_ok c F (vbase i0 i1 + ndx) ->
  unmapped (memory (r_phys c)) (vbase i0 i1 + ndx) -> 0 <= i0 < 256 -> 0 <= i1 < 512 -> 0 <= ndx < 512 -> 0 < R <= Z.of_nat (S n) -> vbase i0 i1 + ndx + R = V + N ->
  V <= vbase i0 i1 + ndx -> V + N <= 2 ^ 26 -> 0 < N <= 2 ^ 38 -> R + 2 * ((ndx + R + 511) / 512) <= free F + 1 -> (dma = true -> contig_base c = 0 -> R = N) ->
  match '(c, rest) ← commit_turn CRAM sc dma TLB_FLAGS_DEFAULT c (Some (mk_ptable (PHY_MEM_START_CACHED + p1 * PHY_PAGE_SIZE) 1)) i1 ndx R;
        if rest =? 0 then Some c
        else commit_tables CRAM sc top n dma TLB_FLAGS_DEFAULT c (Some (mk_ptable (PHY_MEM_START_CACHED + p1 * PHY_PAGE_SIZE) 1)) i0 i1 0 rest false with
  | None => dma = true /\ ~ firm c F
  | Some c' => exists T' F', ranged c F (vbase i0 i1 + ndx) (R + 2 * ((ndx + R + 511) / 512) - 1) c' T' F'
  end.
Proof.
  induction n as [|n IH]; intros c T F i0 i1 p1 ndx R Hpl Hl1 Hdm Hun Hi0 Hi1 Hnd HR HE HV HVN HN Hf Hpt;
    assert (1 <= (ndx + R + 511) / 512) as Hq by (apply Z.div_le_lower_bound; lia);
    pose proof (commit_turn_ok c T F i0 i1 p1 ndx R Hpl Hl1 Hdm Hun Hi0 Hi1 Hnd ltac:(lia) HE HV HVN HN ltac:(lia) Hpt) as HC; cbv zeta in HC;
    destruct (commit_turn _ _ _ _ _ _ _ _ _) as [[c1 rest]|]; cbn [mbind option_bind]; try done; destruct HC as [-> (T1 & F1 & [A1 A2 A3 A4 A5 A6 A7])];
    set (k := Z.min (512 - ndx) R) in *; (destruct (R - k =? 0) eqn:Er; [apply Z.eqb_eq in Er|apply Z.eqb_neq in Er]);
    try (replace (vbase i0 i1 + ndx + k) with (V + N) in * by lia; exists T1, F1; split; try done; lia).
  { exfalso; unfold k in Er; lia. }
  assert (k = 512 - ndx /\ k < R) as [Ek HkR] by (unfold k in Er |- *; lia); clearbody k; cbn [commit_tables]; change PAGE_TABLE_ENT_PER_TABLE with 512.
  assert (unmapped (memory (r_phys c1)) (vbase i0 i1 + ndx + k)) as Hun1 by (eapply unmapped_grows; [eapply unmapped_le; [exact Hun|lia]| |exact A3]; lia).
  assert (dma = true -> contig_base c1 = 0 -> R - k = N) as Hpt1.
  { intros Hd Hc0; destruct (A5 Hd) as [(_ & _ & ?)|[? _]]; [lia|done]. }
  assert ((ndx + R + 511) / 512 = (0 + (R - k) + 511) / 512 + 1) as Eq.
  { replace (ndx + R + 511) with (0 + (R - k) + 511 + 1 * 512) by lia; by rewrite Z.div_add. }
  rewrite (wrap_small 64 (i1 + 1)) by (unfold in_range; lia); cbn [orb]; rewrite orb_false_r; destruct (i1 + 1 =? 512) eqn:E1; [apply Z.eqb_eq in E1|apply Z.eqb_neq in E1].
  - assert (vbase i0 i1 + ndx + k = vbase (i0 + 1) 0 + 0) as Ev by (unfold vbase; lia); rewrite Ev in A3, A5, Hun1.
    assert (0 <= i0 + 1 < 256) as Hi0' by (unfold vbase in *; lia); rewrite (wrap_small 64 (i0 + 1)) by (unfold in_range; lia).
    destruct (next_l1 c1 T1 F1 (i0 + 1) (vbase (i0 + 1) 0 + 0) A1 A5 Hun1) as (s & p2 & T2 & F2 & -> & B1 & B2 & B3 & B4 & B5 & B6 & B7);
      [lia|lia|]; cbn [mbind option_bind].
    specialize (IH (with_phys c1 s) T2 F2 (i0 + 1) 0 p2 0 (R - k) B1 B2 B3 B4 Hi0' ltac:(lia) ltac:(lia) ltac:(lia) ltac:(lia) ltac:(lia) HVN HN ltac:(lia) Hpt1).
    destruct (mbind _ _) as [c2|]; [|by destruct IH as [? IH]; split; [done|]; auto]; destruct IH as (T' & F' & HRg); exists T', F'.
    rewrite Eq; eapply ranged_le; [|eapply (ranged_trans c F c1 F1 _ _ (1 + k)); [..|exact A5|exact A6|exact A3|apply B7; [exact HRg|]]]; try done; lia.
  - cbn [mbind option_bind]; assert (vbase i0 i1 + ndx + k = vbase i0 (i1 + 1) + 0) as Ev by (unfold vbase; lia); rewrite Ev in A3, A5, Hun1.
    specialize (IH c1 T1 F1 i0 (i1 + 1) p1 0 (R - k) A1 A2 A5 Hun1 Hi0 ltac:(lia) ltac:(lia) ltac:(lia) ltac:(lia) ltac:(lia) HVN HN ltac:(lia) Hpt1).
    destruct (mbind _ _) as [c2|]; [|by destruct IH as [? IH]; split; [done|]; auto]; destruct IH as (T' & F' & HRg); exists T', F'.
    rewrite Eq; eapply ranged_le; [|eapply (ranged_trans c F c1 F1 _ _ (1 + k)); [..|exact A5|exact A6|exact A3|exact HRg]]; try done; lia.
Qed.

Lemma first_index x : 0 <= x < 2 ^ 64 -> u64 (u64 (x - 1) + 1) = x.
Proof. intros Hx; rewrite wrap_add_l by lia; replace (x - 1 + 1) with x by lia; by apply wrap_small. Qed.

Lemma commit_tables_ok n c T F i0 i1 ndx : place c T F -> dma_ok c F V -> unmapped (memory (r_phys c)) V -> vbase i0 i1 + ndx = V ->
  0 <= i0 < 256 -> 0 <= i1 < 512 -> 0 <= ndx < 512 -> 0 < N <= Z.of_nat n -> V + N <= 2 ^ 26 -> N + 2 * ((ndx + N + 511) / 512) <= free F ->
  match commit_tables CRAM sc top n dma TLB_FLAGS_DEFAULT c None (u64 (i0 - 1)) (u64 (i1 - 1)) ndx N true with
  | None => dma = true /\ ~ firm c F
  | Some c' => exists T' F', ranged c F V (N + 2 * ((ndx + N + 511) / 512)) c' T' F'
  end.
Proof.
  intros Hpl Hdm Hun EV Hi0 Hi1 Hnd HN HVN Hf; destruct n as [|n]; [lia|]; cbn [commit_tables]; rewrite orb_true_r, !first_index by lia.
  assert (1 <= (ndx + N + 511) / 512) as Hq by (apply Z.div_le_lower_bound; lia); unfold vbase in EV.
  destruct (next_l1 c T F i0 V Hpl Hdm Hun) as (s & p1 & T1 & F1 & -> & B1 & B2 & B3 & B4 & B5 & B6 & B7); [lia|lia|]; cbn [mbind option_bind].
  pose proof (turns_ok n (with_phys c s) T1 F1 i0 i1 p1 ndx N) as HT; replace (vbase i0 i1 + ndx) with V in HT by (unfold vbase; lia).
  specialize (HT B1 B2 B3 B4 Hi0 Hi1 Hnd HN ltac:(lia) ltac:(lia) HVN ltac:(lia) ltac:(lia) ltac:(done)).
  destruct (mbind _ _) as [c2|]; [|by destruct HT as [? HT]; split; [done|]; auto]; destruct HT as (T' & F' & HRg); exists T', F'.
  eapply ranged_le; [|apply B7; [exact HRg|]]; lia.
Qed.

End Range.

(** ** The range *)

Section CommitRange.

Context (CRAM : Z -> Z) (sc : ptable_t -> Z -> list bool) (top : Z).
Context (HCR : cram_ok CRAM) (Hsc : forall h i, true ∈ sc h i).

(** With DMA, page [v] of a range from [V] is where the address returned says. *)
Definition at_address (dma : bool) (V r v q : Z) : Prop := dma = true -> r = (q - (v - V)) * PHY_PAGE_SIZE + RES_META_SIZE.

Lemma place_first dma s T F : mm_ok top s T F -> place top dma (mk_range s 0 0 0) T F.
Proof.
  intros H; split; cbn [r_phys phy_pagen]; [done| |by left|by intros _ x [? _]].
  destruct (ok_phys _ _ _ _ H) as [(cs & HL & _) _]; apply (starts_laid _ _ _ HL); by exists [], cs.
Qed.

Lemma base_address m m' T F dma V N c : tables_ok top T F m' -> 0 <= V -> 0 < N -> V + N <= 2 ^ 26 -> unmapped top dma V N m V ->
  grows top (put dma V c) V (V + N) m m' ->
  grows top (at_address dma V (u64 (u64 (Z.shiftl (contig_base c) PHY_PAGE_SIZE_BITS) + RES_META_SIZE))) V (V + N) m m'.
Proof.
  intros HT HV HN HVN HU HG; eapply grows_weaken; [|exact HG]; intros v q Hv Hp Hd; rewrite (Hp Hd).
  assert (0 <= V * 4096 < 2 ^ 38 /\ V * 4096 / 4096 = V) as [Hva Ev] by (rewrite Z.div_mul; lia).
  specialize (HG (V * 4096) Hva); rewrite (HU Hd _ Hva), decide_True in HG by lia; destruct HG as (q0 & Etr & Hq0 & _).
  specialize (Hq0 Hd); rewrite Ev in Hq0; destruct (translate_mapped _ _ _ _ _ _ _ HT Etr) as (Hr & _); rewrite total_val in Hr.
  rewrite Z.shiftl_mul_pow2 by (unfold PHY_PAGE_SIZE_BITS; lia); unfold RES_META_SIZE, PHY_PAGE_SIZE, PHY_PAGE_SIZE_BITS.
  rewrite (wrap_small 64 (contig_base c * _)), wrap_small by (unfold in_range; lia); lia.
Qed.

Lemma commit_range_ok s T F addr pages flags : mm_ok top s T F -> 0 <= addr -> 0 < pages -> addr / 4096 + pages <= 2 ^ 26 ->
  pages + 2 * (pages / 512 + 2) <= free F -> let dma := flag flags COMMIT_DMA in let V := addr / 4096 in unmapped top dma V pages (memory s) V ->
  match vmem_commit_vmem_range CRAM sc top s addr pages flags with
  | None => dma = true /\ ~ solid (the_book s) F
  | Some (s', r) => exists T' F', mm_ok top s' T' F' /\ grows top (at_address dma V r) V (V + pages) (memory s) (memory s') /\
      free F - (pages + 2 * (pages / 512 + 2)) <= free F' /\ (solid (the_book s) F -> solid (the_book s') F')
  end.
Proof.
  intros H Ha Hp HVN Hf dma V HU; unfold vmem_commit_vmem_range; change VIRT_PHY_PAGE_RATIO_BITS with 0; rewrite Z.shiftl_0_r.
  assert (0 <= V) as HV by (apply Z.div_pos; lia); fold V in HVN; rewrite (wrap_small 64 pages) by (unfold in_range; lia); fold dma.
  assert ((if flag flags COMMIT_UNCACHED then TLB_FLAGS_UNCACHED else TLB_FLAGS_DEFAULT) = TLB_FLAGS_DEFAULT) as -> by (by destruct (flag flags COMMIT_UNCACHED)).
  assert (0 <= addr < 2 ^ 38) as Hva by (pose proof (Z.div_mod addr 4096); pose proof (Z.mod_pos_bound addr 4096); unfold V in HVN; lia).
  destruct (index_vpn addr Ha) as (-> & -> & ->); pose proof (vpn_low addr Hva); pose proof (vpn_range addr 0); pose proof (vpn_range addr 1); pose proof (vpn_range addr 2).
  assert ((vpn addr 2 + pages + 511) / 512 <= pages / 512 + 2) as Hq.
  { replace (pages / 512 + 2) with ((pages + 2 * 512) / 512) by (by rewrite Z.div_add); apply Z.div_le_mono; [lia|]. lia. }
  pose proof (commit_tables_ok CRAM sc top HCR Hsc dma V pages (S (Z.to_nat pages)) (mk_range s 0 0 0) T F (vpn addr 0) (vpn addr 1) (vpn addr 2)) as HC.
  specialize (HC (place_first dma s T F H) ltac:(intros _; by left) HU (eq_sym (vpn_vbase addr Hva)) ltac:(lia) ltac:(lia) ltac:(lia) ltac:(lia) HVN ltac:(lia)).
  assert (solid (the_book s) F -> firm dma (mk_range s 0 0 0) F) as HFm by (intros HS; split; [exact HS|by intros _ Hc]).
  destruct (commit_tables _ _ _ _ _ _ _ _ _ _ _ _ _) as [c'|]; cbn [mbind option_bind]; [|by destruct HC as [? HC]; split; [done|]; auto].
  destruct HC as (T' & F' & [A1 A2 A3 A4 A5 A6]); exists T', F'; split; [apply A1|]; split; [eapply base_address; try done; apply (pl_ok _ _ _ _ _ A1)|].
  split; [lia|]; intros HS; apply A6; auto.
Qed.

End CommitRange.
