(* ===== verification/VmemSpec.v ===== *)
(** * The virtual memory

    What the memory manager promises: pages appear when they are committed,
    empty; a page holds what was stored to it and nothing else; and a range
    committed for DMA is contiguous in physical memory.  The system of Vmem.v,
    started at boot, implements this as long as there are pages, whatever the
    order of commits, stores and turns of the cleaner. *)

From S2P Require Import Prelude Book Pmem PageTable Vmem VmemBook VmemCommit VmemRange.

#[local] Existing Instance live_chunks.

(** ** The specification *)

(** The committed pages, each with the words stored to it; other words are
    zero. *)
Abbreviation vspace := (gmap Z (gmap Z Z)).

Definition spec_commit (A : vspace) (p : Z) : vspace := match A !! p with Some _ => A | None => <[p := ∅]> A end.

Definition spec_step (A : vspace) (op : mm_op) : vspace :=
  match op with
  | Commit addr => spec_commit A (addr / 4096)
  | CommitRange addr pages _ => foldl spec_commit A (seqZ (addr / 4096) pages)
  | Clean => A
  | Store va x => alter (insert (va mod 4096 / 16) x) (va / 4096) A
  end.

Definition spec_run (A : vspace) (ops : list mm_op) : vspace := foldl spec_step A ops.

Definition spec_load (A : vspace) (va : Z) : option Z := ws ← A !! (va / 4096); Some (default 0 (ws !! (va mod 4096 / 16))).

(** Addresses of the lower half of the address space; a range for DMA has no
    page yet. *)
Definition op_ok (A : vspace) (op : mm_op) : bool :=
  match op with
  | Commit addr => (0 <=? addr) && (addr <? 2 ^ 38)
  | CommitRange addr pages flags =>
      (0 <=? addr) && (0 <? pages) && (addr / 4096 + pages <=? 2 ^ 26) &&
      (negb (flag flags COMMIT_DMA) || forallb (fun p => bool_decide (A !! p = None)) (seqZ (addr / 4096) pages))
  | Clean | Store _ _ => true
  end.

Fixpoint ops_ok (A : vspace) (ops : list mm_op) : bool :=
  match ops with [] => true | op :: ops => op_ok A op && ops_ok (spec_step A op) ops end.

(** The pages an operation needs: the pages themselves and tables for them. *)
Definition cost (op : mm_op) : Z :=
  match op with
  | Commit _ => 3
  | CommitRange _ pages _ => pages + 2 * (pages / 512 + 2)
  | Clean | Store _ _ => 0
  end.

Definition total_cost (ops : list mm_op) : Z := foldr (fun op n => cost op + n) 0 ops.

Lemma cost_nonneg A op : op_ok A op = true -> 0 <= cost op.
Proof.
  destruct op as [|addr pages flags| |]; cbn; try lia; rewrite !andb_true_iff; intros [[[_ H%Z.ltb_lt] _] _]; pose proof (Z.div_pos pages 512); lia.
Qed.

Lemma total_nonneg ops : forall A, ops_ok A ops = true -> 0 <= total_cost ops.
Proof.
  induction ops as [|op ops IH]; intros A; [done|]; cbn [ops_ok total_cost foldr]; intros [H1 H2]%andb_true_iff.
  apply cost_nonneg in H1; apply IH in H2; unfold total_cost in H2; lia.
Qed.

Lemma spec_commit_lookup A p q : spec_commit A p !! q = match A !! q with Some ws => Some ws | None => if decide (p = q) then Some ∅ else None end.
Proof.
  unfold spec_commit; destruct (A !! p) eqn:E.
  - destruct (A !! q) eqn:Eq; [done|]; by rewrite decide_False by congruence.
  - case_decide as D; [subst; by rewrite lookup_insert_eq, E|]; rewrite lookup_insert_ne by done; by destruct (A !! q).
Qed.

Lemma spec_range_lookup a q n : forall A, foldl spec_commit A (seqZ a n) !! q =
  match A !! q with Some ws => Some ws | None => if decide (a <= q < a + n) then Some ∅ else None end.
Proof.
  destruct (decide (0 <= n)) as [Hn|Hn].
  2:{ intros A; rewrite seqZ_nil by lia; cbn; destruct (A !! q); [done|]; by rewrite decide_False by lia. }
  revert a; pattern n; apply natlike_ind; [| |done].
  - intros a A; rewrite seqZ_nil by lia; cbn; destruct (A !! q); [done|]; by rewrite decide_False by lia.
  - clear n Hn; intros n Hn IH a A; rewrite seqZ_cons by lia; cbn [foldl]; rewrite Z.pred_succ, IH, spec_commit_lookup; destruct (A !! q); [done|].
    repeat case_decide; try done; lia.
Qed.

(** ** Translations *)

(** The walk to a leaf entry. *)
Lemma translate_walk top T F m va : tables_ok top T F m -> 0 <= va < 2 ^ 38 -> translate m top va <> None ->
  exists p, T !! p = Some 2 /\ translate m top va = let e := pte m p (vpn va 2) in Some (pte_pfn e, e).
Proof.
  intros HT Hva; rewrite (translate_eq _ _ _ _ _ HT Hva); cbv zeta; pose proof (walk_slot top T F m HT top 0 va Hva (t_top _ _ _ _ HT)) as Hs0.
  destruct (pte m top (vpn va 0) =? 0) eqn:E0; [done|apply Z.eqb_neq in E0].
  destruct (entry_target _ _ _ _ _ _ _ HT Hs0 E0) as (_ & [(_ & HT1 & _)|[? _]]); [|lia]; pose proof (walk_slot top T F m HT _ 1 va Hva HT1) as Hs1.
  destruct (pte m _ (vpn va 1) =? 0) eqn:E1; [done|apply Z.eqb_neq in E1].
  destruct (entry_target _ _ _ _ _ _ _ HT Hs1 E1) as (_ & [(_ & HT2 & _)|[? _]]); [|lia]; destruct (_ && _); [|done]; intros _; by eexists.
Qed.

Lemma translate_frame top T F F' m m' va : tables_ok top T F m -> tables_ok top T F' m' -> 0 <= va < 2 ^ 38 ->
  (forall p l i, T !! p = Some l -> 0 <= i < 512 -> pte m' p i = pte m p i) -> translate m' top va = translate m top va.
Proof.
  intros HT HT' Hva Hm; rewrite (translate_eq _ _ _ _ _ HT Hva), (translate_eq _ _ _ _ _ HT' Hva); cbv zeta; pose proof (vpn_range va) as Hr.
  pose proof (walk_slot top T F m HT top 0 va Hva (t_top _ _ _ _ HT)) as Hs0; rewrite (Hm top 0) by (apply HT || apply Hr).
  destruct (pte m top (vpn va 0) =? 0) eqn:E0; [done|apply Z.eqb_neq in E0].
  destruct (entry_target _ _ _ _ _ _ _ HT Hs0 E0) as (_ & [(_ & HT1 & _)|[? _]]); [|lia]; pose proof (walk_slot top T F m HT _ 1 va Hva HT1) as Hs1.
  rewrite (Hm _ 1) by (done || apply Hr); destruct (pte m _ (vpn va 1) =? 0) eqn:E1; [done|apply Z.eqb_neq in E1].
  destruct (entry_target _ _ _ _ _ _ _ HT Hs1 E1) as (_ & [(_ & HT2 & _)|[? _]]); [|lia]; by rewrite (Hm _ 2) by (done || apply Hr).
Qed.

(** Every translation is one the manager made, for loads and stores. *)
Lemma translate_leaf top s T F va q e : mm_ok top s T F -> translate (memory s) top va = Some (q, e) ->
  0 <= va < 2 ^ 38 /\ 0 <= q < TOTAL_PHY_PAGES /\ e = leaf_entry TLB_FLAGS_DEFAULT q.
Proof.
  intros H E; pose proof (ok_tables _ _ _ _ H) as HT; destruct (translate_page _ _ _ _ HT _ _ _ E) as (Hva & _ & _ & Hq & _); split; [done|]; split; [done|].
  destruct (translate_walk _ _ _ _ va HT Hva) as (p & Hp & E'); [by rewrite E|]; rewrite E' in E; cbv zeta in E; injection E as Eq <-.
  destruct (ok_leaf _ _ _ _ H p (vpn va 2) Hp (vpn_range va 2)) as [E0|(x & Hx & E0)]; rewrite E0 in *.
  - rewrite (translate_eq _ _ _ _ _ HT Hva) in E'; cbv zeta in E'; destruct (_ =? 0); [done|]; destruct (_ =? 0); [done|].
    destruct (_ && _) eqn:Ev; [|done]; injection E' as _ E'; rewrite E' in Ev; done.
  - pose proof flags_ok as [Hf _]; rewrite pfn_leaf in Eq by lia; by subst.
Qed.

Lemma leaf_perms q : Z.testbit (leaf_entry TLB_FLAGS_DEFAULT q) 1 = true /\ Z.testbit (leaf_entry TLB_FLAGS_DEFAULT q) 2 = true.
Proof.
  unfold leaf_entry; set (k := Z.land TLB_FLAGS_DEFAULT PTE_FLAGS_SYSTEM); vm_compute in k; subst k.
  assert (forall i, 0 <= i < 3 -> forall C, Z.testbit (q * 1024 + C + 1) i = Z.testbit ((C + 1) mod 2 ^ 3) i) as H.
  { intros i Hi C; rewrite <- (Z.mod_pow2_bits_low _ 3) by lia; f_equal; replace (q * 1024 + C + 1) with (C + 1 + q * 128 * 2 ^ 3) by lia; by rewrite Z.mod_add. }
  by rewrite !H by lia.
Qed.

(** A load sees the word of the page. *)
Lemma load_eq top s T F c va : mm_ok top s T F ->
  mm_load top (mk_mm s c) va = match translate (memory s) top va with Some (q, _) => Some (default 0 (memory s !! (q * 256 + va mod 4096 / 16))) | None => None end.
Proof.
  intros H; unfold mm_load; cbn [mm_phys]; destruct (translate (memory s) top va) as [[q e]|] eqn:E; cbn [mbind option_bind]; [|done].
  destruct (translate_leaf _ _ _ _ _ _ _ H E) as (_ & _ & ->); by destruct (leaf_perms q) as [-> _].
Qed.

Lemma page_word q va : page_of (q * 256 + va mod 4096 / 16) = q.
Proof.
  unfold page_of; assert (0 <= va mod 4096 / 16 < 256) by (pose proof (Z.mod_pos_bound va 4096 ltac:(lia)); split; [apply Z.div_pos|apply Z.div_lt_upper_bound]; lia).
  rewrite Z.add_comm, Z.div_add, Z.div_small by lia; lia.
Qed.

(** ** Refinement *)

Section Refinement.

Context (CRAM : Z -> Z) (sc : ptable_t -> Z -> list bool) (top : Z).
Context (HCR : cram_ok CRAM) (Hsc : forall h i, true ∈ sc h i).

(** Loads agree; [k] pages are left. *)
Record implements (k : Z) (v : mm) (A : vspace) : Prop := {
  im_state : exists T F, mm_ok top (mm_phys v) T F /\ solid (the_book (mm_phys v)) F /\ k <= free F;
  im_cleaner : 0 <= cl_page (mm_cleaner v) <= TOTAL_PHY_PAGES;
  im_low p ws : A !! p = Some ws -> 0 <= p < 2 ^ 26;
  im_load va : 0 <= va < 2 ^ 38 -> mm_load top v va = spec_load A va
}.

(** The committed pages are those with a translation. *)
Lemma committed_iff k v A va : implements k v A -> 0 <= va < 2 ^ 38 -> translate (memory (mm_phys v)) top va = None <-> A !! (va / 4096) = None.
Proof.
  intros [(T & F & H & _) _ _ Hl] Hva; specialize (Hl va Hva); destruct v as [s c]; rewrite (load_eq _ _ T F) in Hl by done; cbn [mm_phys] in *.
  unfold spec_load in Hl; destruct (translate (memory s) top va) as [[q e]|], (A !! (va / 4096)); done.
Qed.

Lemma grows_load k s c A s' T' F' pl a b A' : implements k (mk_mm s c) A -> mm_ok top s' T' F' -> grows top pl a b (memory s) (memory s') ->
  (forall p, A' !! p = match A !! p with Some ws => Some ws | None => if decide (a <= p < b) then Some ∅ else None end) ->
  forall va, 0 <= va < 2 ^ 38 -> mm_load top (mk_mm s' c) va = spec_load A' va.
Proof.
  intros HI H' HG HA va Hva; pose proof (committed_iff _ _ _ _ HI Hva) as Hiff; destruct HI as [(T & F & H & _) _ _ Hl]; specialize (Hl va Hva); specialize (HG va Hva).
  cbn [mm_phys] in *; rewrite (load_eq _ _ T F) in Hl by done; rewrite (load_eq _ _ T' F') by done; unfold spec_load in *; rewrite HA.
  destruct (translate (memory s) top va) as [[q e]|] eqn:E.
  - destruct HG as [-> Hw]; rewrite Hw by apply page_word; destruct (A !! (va / 4096)); done.
  - rewrite (proj1 Hiff eq_refl); case_decide; [|by rewrite HG]; destruct HG as (q & -> & _ & Hw); by rewrite Hw by apply page_word.
Qed.

Lemma commit_refined k v A addr : implements k v A -> 3 <= k -> 0 <= addr < 2 ^ 38 ->
  exists v', mm_step CRAM sc top v (Commit addr) = Some v' /\ implements (k - 3) v' (spec_step A (Commit addr)).
Proof.
  intros HI Hk Ha; pose proof HI as [(T & F & H & HS & Hf) Hc Hlow _]; destruct v as [s c]; cbn [mm_phys mm_cleaner] in *.
  destruct (commit_page_ok CRAM sc top HCR Hsc s T F addr H ltac:(lia) Ha) as (s' & T' & F' & E & H' & HG & Hf' & HS').
  assert (forall p, spec_step A (Commit addr) !! p =
    match A !! p with Some ws => Some ws | None => if decide (addr / 4096 <= p < addr / 4096 + 1) then Some ∅ else None end) as HA.
  { intros p; cbn [spec_step]; rewrite spec_commit_lookup; destruct (A !! p); [done|]; repeat case_decide; try done; lia. }
  cbn [mm_step mm_phys mm_cleaner]; rewrite E; cbn [mbind option_bind]; eexists; split; [reflexivity|]; split; cbn [mm_phys mm_cleaner]; [|done| |by eapply grows_load].
  - exists T', F'; split; [done|]; split; [auto|lia].
  - intros p ws; rewrite HA; destruct (A !! p) eqn:Ep; [intros _; by eapply Hlow|]; case_decide; [|done]; intros _.
    assert (0 <= addr / 4096 < 2 ^ 26) by (split; [apply Z.div_pos|apply Z.div_lt_upper_bound]; lia); lia.
Qed.

(** The conditions on a range. *)
Lemma range_args k v A addr pages flags : implements k v A -> op_ok A (CommitRange addr pages flags) = true ->
  0 <= addr /\ 0 < pages /\ addr / 4096 + pages <= 2 ^ 26 /\
  unmapped top (flag flags COMMIT_DMA) (addr / 4096) pages (memory (mm_phys v)) (addr / 4096).
Proof.
  intros HI; cbn [op_ok]; rewrite !andb_true_iff, Z.leb_le, Z.ltb_lt, Z.leb_le; intros [[[H1 H2] H3] H4]; split_and!; try done.
  intros Hd va Hva Hr; apply (committed_iff _ _ _ _ HI Hva); rewrite Hd in H4; cbn [negb orb] in H4.
  rewrite forallb_forall in H4; eapply bool_decide_eq_true, H4, list_elem_of_In, elem_of_seqZ; lia.
Qed.

Lemma range_refined k v A addr pages flags : implements k v A -> cost (CommitRange addr pages flags) <= k -> op_ok A (CommitRange addr pages flags) = true ->
  exists s' r, vmem_commit_vmem_range CRAM sc top (mm_phys v) addr pages flags = Some (s', r) /\
    implements (k - cost (CommitRange addr pages flags)) (mk_mm s' (mm_cleaner v)) (spec_step A (CommitRange addr pages flags)) /\
    grows top (at_address (flag flags COMMIT_DMA) (addr / 4096) r) (addr / 4096) (addr / 4096 + pages) (memory (mm_phys v)) (memory s').
Proof.
  intros HI Hk Hop; destruct (range_args _ _ _ _ _ _ HI Hop) as (Ha & Hp & Hr & HU); pose proof HI as [(T & F & H & HS & Hf) Hc Hlow _]; destruct v as [s c].
  cbn [mm_phys mm_cleaner cost] in *; pose proof (commit_range_ok CRAM sc top HCR Hsc s T F addr pages flags H Ha Hp Hr ltac:(lia) HU) as HC.
  destruct (vmem_commit_vmem_range _ _ _ _ _ _ _) as [[s' r]|]; [|by destruct HC]; destruct HC as (T' & F' & H' & HG & Hf' & HS').
  exists s', r; split; [done|]; split; [|done]; split; cbn [mm_phys mm_cleaner]; [|done| |].
  - exists T', F'; split; [done|]; split; [auto|lia].
  - intros p ws; cbn [spec_step]; rewrite spec_range_lookup; destruct (A !! p) eqn:Ep; [intros _; by eapply Hlow|]; case_decide; [|done]; intros _.
    assert (0 <= addr / 4096) by (apply Z.div_pos; lia); lia.
  - eapply grows_load; [exact HI|done|done|]; intros p; cbn [spec_step]; by rewrite spec_range_lookup.
Qed.

(** With no dirty page the cleaner goes round the book. *)
Lemma clean_refined k v A : implements k v A -> exists v', mm_step CRAM sc top v Clean = Some v' /\ implements k v' A.
Proof.
  intros [(T & F & H & HS & Hf) Hc Hlow Hl]; destruct v as [s c]; cbn [mm_phys mm_cleaner] in *; pose proof (ok_phys _ _ _ _ H) as [HB _].
  cbn [mm_step mm_phys mm_cleaner]; unfold clean_turn; rewrite bget_in by lia; cbn [mbind option_bind]; set (r := _ || _).
  assert (starts (the_book s) (cl_page (if r then mk_cleaner 0 false else c)) /\ cl_page (if r then mk_cleaner 0 false else c) < TOTAL_PHY_PAGES) as [Hs Hlt].
  { destruct r eqn:Er; cbn [cl_page].
    - destruct HB as (cs & HL & _); split; [apply (starts_laid _ _ _ HL); by exists [], cs|by rewrite total_val].
    - apply orb_false_iff in Er as [E1%Z.eqb_neq E2%Z.eqb_neq]; unfold BOOK_END in E1; assert (cl_page c < TOTAL_PHY_PAGES) by lia; split; [|done]; split; [lia|].
      destruct HB as (cs & HL & _); destruct (page_cases _ _ (cl_page c) HL ltac:(lia)) as [(A0 & c0 & B0 & -> & <-)|[? _]]; [|lia].
      by destruct (chunk_bounds _ _ _ _ _ HL eq_refl) as (_ & ? & _ & _ & _ & -> & _). }
  set (c1 := if r then _ else _) in *; pose proof Hs as [Hr _]; rewrite bget_in by lia; cbn [mbind option_bind]; pose proof (start_status _ _ _ HB Hs Hlt) as Hst.
  destruct (status (ent (the_book s) (cl_page c1)) =? page_dirty) eqn:Ed.
  { apply Z.eqb_eq in Ed; rewrite Ed in Hst; by destruct (ok_clean _ _ _ _ H _ Hst). }
  cbn [mbind option_bind]; rewrite bget_in by lia; cbn [mbind option_bind]; eexists; split; [reflexivity|].
  pose proof (chunk_entry _ _ _ _ _ (start_chunk _ _ _ HB Hs Hlt)) as (_ & _ & _ & _ & _ & ? & ?).
  split; cbn [mm_phys mm_cleaner cl_page]; [by exists T, F|rewrite u64_in; lia|done|done].
Qed.

(** A store reaches one word of one page. *)
Lemma store_word_ok s T F va q e x : mm_ok top s T F -> translate (memory s) top va = Some (q, e) ->
  let s' := store_word s (q * 256 + va mod 4096 / 16) x in
  mm_ok top s' T F /\ forall va', 0 <= va' < 2 ^ 38 -> translate (memory s') top va' = translate (memory s) top va'.
Proof.
  intros H E s'; pose proof (ok_tables _ _ _ _ H) as HT; destruct (translate_mapped _ _ _ _ _ _ _ HT E) as (Hq & HTq & st & Hst & Hre).
  assert (forall w, page_of w <> q -> memory s' !! w = memory s !! w) as Hw.
  { intros w Hw; unfold s', store_word; cbn [memory]; rewrite lookup_insert_ne; [done|]; intros <-; by rewrite page_word in Hw. }
  assert (forall p l i, T !! p = Some l -> 0 <= i < 512 -> pte (memory s') p i = pte (memory s) p i) as Hpte.
  { intros p l i Hp Hi; apply pte_frame; [by eapply HT|done|]; intros w Hpw; apply Hw; rewrite Hpw; congruence. }
  pose proof (tables_write _ _ _ _ (memory s') _ HT HTq Hw) as HT'; split; [|intros; by eapply translate_frame].
  destruct H as [[HB HC] _ HLf HIO HD]; split; try done.
  - split; [done|]; intros w Hu Hw0; rewrite Hw; [by apply HC|]; intros Ew; rewrite Ew in Hu; destruct Hst as [_ Hst]; rewrite Hst in Hu; injection Hu as ->.
    unfold reach, page_mapped, page_transaction, page_unused in Hre; lia.
  - intros p i Hp Hi; rewrite (Hpte p 2) by done; by apply HLf.
Qed.

Lemma store_refined k v A va x : implements k v A -> exists v', mm_step CRAM sc top v (Store va x) = Some v' /\ implements k v' (spec_step A (Store va x)).
Proof.
  intros HI; pose proof HI as [(T & F & H & HS & Hf) Hc Hlow Hl]; destruct v as [s c]; cbn [mm_phys mm_cleaner] in *; cbn [mm_step mm_phys mm_cleaner spec_step].
  assert (forall p ws, alter (insert (va mod 4096 / 16) x) (va / 4096) A !! p = Some ws -> 0 <= p < 2 ^ 26) as Hlow'.
  { intros p ws; rewrite lookup_alter; case_decide; [|by apply Hlow]; destruct (A !! p) eqn:Ep; [intros _; by eapply Hlow|by simplify_option_eq]. }
  eexists; split; [reflexivity|]; destruct (translate (memory s) top va) as [[q e]|] eqn:E.
  - destruct (translate_leaf _ _ _ _ _ _ _ H E) as (Hva & Hq & ->); destruct (leaf_perms q) as [_ ->]; destruct (store_word_ok s T F va q _ x H E) as [H' Ht].
    split; cbn [mm_phys mm_cleaner]; [by exists T, F|done|done|]; intros va' Hva'; specialize (Hl va' Hva').
    rewrite (load_eq _ _ T F) in Hl by done; rewrite (load_eq _ _ T F), Ht by done; unfold spec_load in *; rewrite lookup_alter.
    destruct (translate (memory s) top va') as [[q' e']|] eqn:E'; cbn [store_word memory].
    + case_decide as D; [rewrite <- D in Hl|].
      * assert (q' = q) as ->.
        { destruct (same_page va va' Hva Hva' D) as (V0 & V1 & V2); pose proof (ok_tables _ _ _ _ H) as HT; rewrite (translate_eq _ _ _ _ _ HT Hva) in E.
          rewrite (translate_eq _ _ _ _ _ HT Hva'), <- V0, <- V1, <- V2, E in E'; congruence. }
        destruct (A !! (va / 4096)) as [ws|]; cbn [fmap option_fmap option_map mbind option_bind] in *; [|done]; rewrite lookup_insert.
        rewrite lookup_insert; repeat case_decide; try done; lia.
      * rewrite lookup_insert_ne; [done|]; intros Ew; apply D; apply (f_equal page_of) in Ew; rewrite !page_word in Ew; subst q'.
        eapply (translate_inj _ _ _ _ (ok_tables _ _ _ _ H)); done.
    + case_decide as D; [rewrite <- D in *|done]; destruct (same_page va va' Hva Hva' D) as (V0 & V1 & V2); destruct (A !! (va / 4096)); done.
  - assert (alter (insert (va mod 4096 / 16) x) (va / 4096) A = A) as ->; [|by split; [exists T, F|..]].
    destruct (decide (0 <= va < 2 ^ 38)) as [Hva|Hva].
    + apply (committed_iff _ _ _ _ HI Hva) in E; apply map_eq; intros p; rewrite lookup_alter; case_decide; [subst; by rewrite E|done].
    + apply map_eq; intros p; rewrite lookup_alter; case_decide as D; [|done]; destruct (A !! (va / 4096)) eqn:Ep; [|by rewrite <- D, Ep].
      apply Hlow in Ep; exfalso; apply Hva; pose proof (Z.div_mod va 4096 ltac:(lia)); pose proof (Z.mod_pos_bound va 4096 ltac:(lia)); lia.
Qed.

Lemma step_refined k v A op : implements k v A -> cost op <= k -> op_ok A op = true ->
  exists v', mm_step CRAM sc top v op = Some v' /\ implements (k - cost op) v' (spec_step A op).
Proof.
  intros HI Hk Hop; destruct op as [addr|addr pages flags| |va x].
  - cbn [op_ok] in Hop; rewrite andb_true_iff, Z.leb_le, Z.ltb_lt in Hop; by apply commit_refined.
  - destruct (range_refined k v A addr pages flags HI Hk Hop) as (s' & r & E & HI' & _); cbn [mm_step]; rewrite E; by eexists.
  - cbn [cost spec_step]; rewrite Z.sub_0_r; by apply clean_refined.
  - cbn [cost]; rewrite Z.sub_0_r; by apply store_refined.
Qed.

Lemma run_refined ops : forall k v A, implements k v A -> total_cost ops <= k -> ops_ok A ops = true ->
  exists v', mm_run CRAM sc top v ops = Some v' /\ implements (k - total_cost ops) v' (spec_run A ops).
Proof.
  induction ops as [|op ops IH]; intros k v A HI Hk Hop.
  { exists v; split; [done|]; cbn [total_cost foldr]; by rewrite Z.sub_0_r. }
  cbn [ops_ok] in Hop; apply andb_true_iff in Hop as [Hop Hops]; pose proof (total_nonneg ops _ Hops) as Hn; pose proof (cost_nonneg _ _ Hop) as Hn'.
  change (total_cost (op :: ops)) with (cost op + total_cost ops) in *; destruct (step_refined k v A op HI ltac:(lia) Hop) as (v1 & E & H1).
  cbn [mm_run]; rewrite E; cbn [mbind option_bind]; rewrite Z.sub_add_distr; apply IH; [done|lia|done].
Qed.

End Refinement.

(** ** Boot *)

Definition boot_pages (a0 : Z) : Z := 0x3c000 - a0 / 4096.

Section Boot.

Context (a0 : Z) (m : mem_t) (top : Z) (Ha : 4096 <= a0 < PHY_RAM_SIZE - NANO_SIZE) (Hal : a0 mod 4096 = 0) (Ht : 0x80000 <= top < 0x84000).
Context (Hm : forall w, page_of w = top -> m !! w = None).

(** The chunks at boot, before and after the kernel's loop. *)
Definition held : list chunk := [(0x80000, page_io_unused); (0x4000, page_nano_owned); (a0 / 4096, page_system_owned)].

Lemma boot_held : boot_chunks a0 = held ++ [(boot_pages a0, page_dirty)].
Proof. unfold boot_chunks; by rewrite Z.shiftr_div_pow2 by (unfold PHY_PAGE_SIZE_BITS; lia). Qed.

Lemma boot_cleaned : exists s, boot_clean fuel (mk_phys (init_book a0) (set_giga m top)) 0 = Some s /\
  cleans (mk_phys (init_book a0) (set_giga m top)) (boot_chunks a0) s (held ++ [(boot_pages a0, page_unused)]).
Proof.
  pose proof (init_book_laid a0 Ha) as HL; destruct (boot_ok a0 (set_giga m top) Ha) as [(cs & _ & HF & HN) HC]; pose proof (fuel_enough _ _ HL) as Hf.
  destruct (boot_clean_ok (tl (boot_chunks a0)) (mk_phys (init_book a0) (set_giga m top)) [] (0x80000, page_io_unused) fuel HL HC) as (s & E & HCl).
  - exact HN.
  - cbn in Hf |- *; lia.
  - exists s; split; [exact E|]; rewrite boot_held in HCl |- *; exact HCl.
Qed.

Lemma free_held : free (flat (held ++ [(boot_pages a0, page_unused)])) = Z.of_nat (Z.to_nat (boot_pages a0)).
Proof.
  rewrite flat_app, free_app; unfold flat at 2; cbn [fmap list_fmap mjoin list_join app fst snd]; rewrite app_nil_r, free_replicate, decide_True by done.
  enough (free (flat held) = 0) by lia; unfold held, flat; cbn [fmap list_fmap mjoin list_join app fst snd]; by rewrite !free_app, !free_replicate, !decide_False.
Qed.

Section Cleaned.

Context (s : phys) (F : list Z) (m0 : mem_t) (E0 : m0 = set_giga m top) (EF : F = flat (held ++ [(boot_pages a0, page_unused)])).
Context (HC : cleans (mk_phys (init_book a0) m0) (boot_chunks a0) s (held ++ [(boot_pages a0, page_unused)])).

Lemma held_stat x st : st <> page_dirty -> stat (flat (boot_chunks a0)) x st -> stat F x st.
Proof. intros Hd [Hx Hs]; destruct HC as (_ & _ & _ & HK & _); split; [done|]; rewrite EF, HK; congruence. Qed.

Lemma boot_io : stat F 0 page_io_unused.
Proof.
  apply held_stat; [done|]; pose proof (init_book_laid a0 Ha) as HL; split; [done|]; rewrite boot_held in *.
  apply (flat_range_get _ [] _ _ _ 0 HL); split; [done|]; reflexivity.
Qed.

Lemma boot_no_dirty x : ~ stat F x page_dirty.
Proof.
  intros [_ Hx]; rewrite EF in Hx; apply list_elem_of_lookup_2, elem_of_flat in Hx as (c & Hc & Hx); unfold held in Hc; cbn [app] in Hc.
  repeat (apply elem_of_cons in Hc as [->|Hc]; [done|]); by apply elem_of_nil in Hc.
Qed.

Lemma boot_top w : page_of w = top -> memory s !! w = m0 !! w.
Proof.
  intros Hw; destruct (nano_boot a0 top Ha Ht) as [_ Hn]; destruct HC as (_ & _ & _ & _ & HM); cbn [memory] in HM; apply HM; rewrite Hw; [lia|].
  rewrite Hn; by intros [= ?].
Qed.

Lemma boot_tables : tables_ok top {[top := 0]} F (memory s).
Proof.
  destruct (boot_vm_ok a0 m top Ha Hal Ht Hm) as [_ HT _ _]; unfold boot_vm in HT; rewrite <- E0 in HT; cbn [ph memory] in HT; eapply tables_frame; [exact HT| |].
  - apply keeps_stat; intros p st Hs Hmv; apply held_stat; [|done]; intros ->; apply Hmv; unfold movable; tauto.
  - intros p l i Hp Hi; apply lookup_singleton_Some in Hp as [<- _]; apply pte_frame; [rewrite total_val; lia|done|exact boot_top].
Qed.

Lemma boot_mm_ok : mm_ok top s {[top := 0]} F.
Proof.
  destruct HC as (HL & Hcl & HN & _); unfold not_nano in HN; rewrite <- EF in Hcl, HN; split.
  - split; [|exact Hcl]; exists (held ++ [(boot_pages a0, page_unused)]); exact (conj HL (conj (eq_sym EF) HN)).
  - exact boot_tables.
  - intros p i Hp; by apply lookup_singleton_Some in Hp as [_ ?].
  - exists page_io_unused; split; [exact boot_io|by left].
  - exact boot_no_dirty.
Qed.

Lemma boot_unmapped va : 0 <= va < 2 ^ 38 -> translate (memory s) top va = None.
Proof.
  intros Hva; rewrite (translate_eq _ _ _ _ _ boot_tables Hva); cbv zeta; pose proof (vpn_low va Hva); pose proof (vpn_range va 0) as Hv.
  assert (0 <= top < TOTAL_PHY_PAGES) as Htr by (rewrite total_val; lia).
  rewrite (pte_frame m0 (memory s) top (vpn va 0) Htr Hv boot_top), E0; destruct (giga_pages top m Htr (vpn va 0) Hv) as [_ E]; rewrite E by lia.
  by rewrite (pte_clear m top (vpn va 0) Htr Hv Hm).
Qed.

End Cleaned.

Lemma boot_implements : exists v, mm_boot a0 m top = Some v /\ implements top (boot_pages a0) v ∅.
Proof.
  destruct boot_cleaned as (s & E & HC); unfold mm_boot; remember (flat (held ++ [(boot_pages a0, page_unused)])) as F eqn:EF.
  remember (set_giga m top) as m0 eqn:E0; pose proof (boot_mm_ok s F m0 E0 EF HC) as Hok.
  assert (0 < boot_pages a0) as Hpos by (change (PHY_RAM_SIZE - NANO_SIZE) with 1006632960 in Ha; unfold boot_pages; pose proof (Z.div_lt_upper_bound a0 4096 0x3c000); lia).
  pose proof free_held as Hfr; rewrite <- EF, Z2Nat.id in Hfr by lia.
  exists (mk_mm s (mk_cleaner 0 true)); rewrite E; split; [done|]; split; cbn [mm_phys mm_cleaner cl_page]; [|rewrite total_val; lia|done|].
  - exists {[top := 0]}, F; split; [done|]; split; [|lia]; intros _; exists (pos 0 held); unfold whole; rewrite Hfr.
    exists held, []; exact (conj (proj1 HC) (conj (eq_sym EF) eq_refl)).
  - intros va Hva; by rewrite (load_eq _ _ _ _ _ _ Hok), (boot_unmapped s F m0 E0 EF HC va Hva).
Qed.

End Boot.

(** ** What the tables say *)

Lemma mapping_exists_eq top s T F va : mm_ok top s T F -> 0 <= va < 2 ^ 38 ->
  mapping_exists top (memory s) va = match translate (memory s) top va with Some _ => true | None => false end.
Proof.
  intros H Hva; pose proof (ok_tables _ _ _ _ H) as HT; destruct (index_vpn va ltac:(lia)) as (E0 & E1 & E2); unfold mapping_exists, get_l2_for_addr; rewrite E0, E1, E2.
  pose proof (vpn_low va Hva); pose proof (vpn_range va 0) as R0; pose proof (vpn_range va 1) as R1; pose proof (vpn_range va 2) as R2; rewrite (translate_eq _ _ _ _ _ HT Hva).
  rewrite (sub_table_eq top T F _ _ top 0) by (try split; done || lia || apply HT); cbv zeta; pose proof (walk_slot top T F _ HT top 0 va Hva (t_top _ _ _ _ HT)) as Hs0.
  destruct (pte (memory s) top (vpn va 0) =? 0) eqn:Z0; [done|apply Z.eqb_neq in Z0].
  destruct (entry_target _ _ _ _ _ _ _ HT Hs0 Z0) as (_ & [(_ & HT1 & _)|[? _]]); [|lia]; change (0 + 1) with 1 in *; set (p1 := pte_pfn _) in *.
  assert (p1 <> top) as Hne by (intros ->; rewrite (t_top _ _ _ _ HT) in HT1; done); pose proof (walk_slot top T F _ HT p1 1 va Hva HT1) as Hs1.
  cbn [sub_table]; rewrite (sub_table_eq top T F _ _ p1 1) by (done || lia || tauto || by split).
  destruct (pte (memory s) p1 (vpn va 1) =? 0) eqn:Z1; [done|apply Z.eqb_neq in Z1].
  destruct (entry_target _ _ _ _ _ _ _ HT Hs1 Z1) as (_ & [(_ & HT2 & _)|[? _]]); [|lia]; change (1 + 1) with 2 in *; set (p2 := pte_pfn (pte _ p1 _)) in *.
  rewrite (entries_eq _ T F top _ p2 2) by (done || by split); destruct (ok_leaf _ _ _ _ H p2 (vpn va 2) HT2 R2) as [->|(q & Hq & ->)]; [done|].
  pose proof flags_ok as [Hf Hlf]; destruct (leaf_fields TLB_FLAGS_DEFAULT q) as [-> ->]; [lia|lia|]; rewrite Hlf; cbn [andb].
  pose proof (leaf_range TLB_FLAGS_DEFAULT q ltac:(lia) ltac:(lia)); change VTABLE_ENTRY_USED with (2 ^ 64 - 2).
  apply negb_true_iff, orb_false_iff; split; apply Z.eqb_neq; lia.
Qed.

(** ** Properties *)

(** A run on a machine with 256 pages: a page is touched and written, a range
    over two tables is committed around a page that is there already. *)
Definition demo_ops : list mm_op :=
  [Commit 0x200000; Store 0x200010 7; CommitRange 0x1fe000 4 0; Clean; Store 0x1ff008 9; Commit 0x200018; Store 0x700000 1].

Section Properties.

Context (CRAM : Z -> Z) (sc : ptable_t -> Z -> list bool) (a0 : Z) (m : mem_t) (top : Z).

(** A boot: [a0] bytes belong to the system, the top-level table is one of the
    nanokernel's pages and empty, and store-conditionals succeed in the end. *)
Definition boots : Prop := cram_ok CRAM /\ (forall h i, true ∈ sc h i) /\ 4096 <= a0 < PHY_RAM_SIZE - NANO_SIZE /\ a0 mod 4096 = 0 /\
  0x80000 <= top < 0x84000 /\ forall w, page_of w = top -> m !! w = None.

Definition boot_run (ops : list mm_op) : option mm := v ← mm_boot a0 m top; mm_run CRAM sc top v ops.

Lemma boot_refined ops : boots -> ops_ok ∅ ops = true -> total_cost ops <= boot_pages a0 ->
  exists v, boot_run ops = Some v /\ implements top (boot_pages a0 - total_cost ops) v (spec_run ∅ ops).
Proof.
  intros (HCR & Hsc & Ha & Hal & Ht & Hm) Hop Hc; destruct (boot_implements a0 m top Ha Hal Ht Hm) as (v0 & E & HI); unfold boot_run; rewrite E; cbn [mbind option_bind].
  by apply run_refined.
Qed.

(** C5: from boot on, as long as there are pages, every commit of a page or of
    a range, every turn of the cleaner and every store through the translation
    goes through, and what software sees is the abstract virtual memory: a page
    can be loaded from when it has been committed, a word is what was stored to
    it last, or zero when nothing was; [mapping_exists] tells the committed
    pages. *)
Theorem virtual_memory_refined ops : boots -> ops_ok ∅ ops = true -> total_cost ops <= boot_pages a0 ->
  exists v, boot_run ops = Some v /\ forall va, 0 <= va < 2 ^ 38 ->
    mm_load top v va = spec_load (spec_run ∅ ops) va /\
    mapping_exists top (memory (mm_phys v)) va = bool_decide (is_Some (spec_run ∅ ops !! (va / 4096))).
Proof.
  intros HB Hop Hc; destruct (boot_refined ops HB Hop Hc) as (v & E & HI); exists v; split; [done|]; intros va Hva; split; [by apply HI|].
  pose proof (committed_iff _ _ _ _ va HI Hva) as Hiff; destruct HI as [(T & F & H & _) _ _ _]; rewrite (mapping_exists_eq _ _ _ _ _ H Hva).
  destruct (translate _ _ _), (spec_run ∅ ops !! (va / 4096)) eqn:Es; symmetry.
  - by apply bool_decide_eq_true.
  - discriminate (proj2 Hiff eq_refl).
  - discriminate (proj1 Hiff eq_refl).
  - apply bool_decide_eq_false; intros []; done.
Qed.

(** C6: a commit for DMA of a range that has no page yet, after any run, goes
    through while there are pages; the physical pages are contiguous, the
    address returned is that of the first one past the metadata of its
    reservation, the pages are empty, and no other translation changes. *)
Theorem dma_contiguous ops addr pages flags : boots -> ops_ok ∅ ops = true -> flag flags COMMIT_DMA = true ->
  op_ok (spec_run ∅ ops) (CommitRange addr pages flags) = true -> total_cost ops + cost (CommitRange addr pages flags) <= boot_pages a0 ->
  exists v s' base, boot_run ops = Some v /\
    vmem_commit_vmem_range CRAM sc top (mm_phys v) addr pages flags = Some (s', base * PHY_PAGE_SIZE + RES_META_SIZE) /\
    forall va, 0 <= va < 2 ^ 38 ->
      let k := va / 4096 - addr / 4096 in
      if decide (0 <= k < pages)
      then translate (memory s') top va = Some (base + k, leaf_entry TLB_FLAGS_DEFAULT (base + k)) /\ forall w, page_of w = base + k -> memory s' !! w = None
      else translate (memory s') top va = translate (memory (mm_phys v)) top va.
Proof.
  intros HB Hop Hd Hok Hc; pose proof (cost_nonneg _ _ Hok) as Hn; destruct (boot_refined ops HB Hop ltac:(lia)) as (v & E & HI).
  pose proof HB as (HCR & Hsc & _); destruct (range_refined CRAM sc top HCR Hsc _ v _ addr pages flags HI ltac:(lia) Hok) as (s' & r & Er & _ & HG).
  destruct (range_args _ _ _ _ _ _ _ HI Hok) as (Ha & Hp & Hr & HU); assert (0 <= addr / 4096) as HV by (apply Z.div_pos; lia); rewrite Hd in *.
  assert (0 <= addr / 4096 * 4096 < 2 ^ 38 /\ addr / 4096 * 4096 / 4096 = addr / 4096) as [Hva0 Ev0] by (rewrite Z.div_mul; lia).
  pose proof (HG _ Hva0) as HG0; rewrite (HU eq_refl _ Hva0), Ev0, decide_True in HG0 by lia; destruct HG0 as (base & _ & Hb & _).
  exists v, s', base; split; [done|]; split; [rewrite Er, (Hb eq_refl); do 3 f_equal; lia|]; intros va Hva k; specialize (HG va Hva).
  assert (forall q, at_address true (addr / 4096) r (va / 4096) q -> q = base + k) as Hq.
  { intros q Hq; specialize (Hq eq_refl); rewrite (Hb eq_refl) in Hq; unfold PHY_PAGE_SIZE, RES_META_SIZE, k in *; lia. }
  destruct (decide (0 <= k < pages)) as [D|D]; unfold k in D.
  - rewrite (HU eq_refl va Hva), decide_True in HG by lia; destruct HG as (q & Et & Hat & Hw); by rewrite (Hq q Hat) in *.
  - destruct (translate (memory (mm_phys v)) top va) as [[q e]|]; [by destruct HG|]; by rewrite decide_False in HG by lia.
Qed.

End Properties.

Lemma demo_boots : boots (fun _ => 2 ^ 64 - 2 ^ 13) (fun _ _ => [true]) 0x3bf00000 ∅ demo_top.
Proof.
  split; [apply demo_cram|]; split; [intros; by left|]; split; [split; vm_compute; congruence|]; split; [reflexivity|]; split; [unfold demo_top; lia|].
  intros w _; apply lookup_empty.
Qed.

Lemma virtual_memory_refined_witness :
  exists v, boot_run (fun _ => 2 ^ 64 - 2 ^ 13) (fun _ _ => [true]) 0x3bf00000 ∅ demo_top demo_ops = Some v /\
    mm_load demo_top v 0x200018 = Some 7 /\ mm_load demo_top v 0x1ff000 = Some 9 /\ mm_load demo_top v 0x201ff0 = Some 0 /\ mm_load demo_top v 0x202000 = None /\
    mapping_exists demo_top (memory (mm_phys v)) 0x1fe000 = true.
Proof.
  destruct (virtual_memory_refined (fun _ => 2 ^ 64 - 2 ^ 13) (fun _ _ => [true]) 0x3bf00000 ∅ demo_top demo_ops demo_boots) as (v & E & H).
  - vm_compute; reflexivity.
  - vm_compute; congruence.
  - exists v; split; [exact E|]; rewrite (proj1 (H 0x200018 ltac:(lia))), (proj1 (H 0x1ff000 ltac:(lia))), (proj1 (H 0x201ff0 ltac:(lia))), (proj1 (H 0x202000 ltac:(lia))).
    rewrite (proj2 (H 0x1fe000 ltac:(lia))); vm_compute; repeat split.
Defined.

Lemma dma_contiguous_witness : exists v s' base,
  boot_run (fun _ => 2 ^ 64 - 2 ^ 13) (fun _ _ => [true]) 0x3bf00000 ∅ demo_top demo_ops = Some v /\
  vmem_commit_vmem_range (fun _ => 2 ^ 64 - 2 ^ 13) (fun _ _ => [true]) demo_top (mm_phys v) 0x3fd000 7 COMMIT_DMA = Some (s', base * PHY_PAGE_SIZE + RES_META_SIZE) /\
  fst <$> translate (memory s') demo_top 0x3ff123 = Some (base + 2) /\ fst <$> translate (memory s') demo_top 0x400123 = Some (base + 3).
Proof.
  destruct (dma_contiguous (fun _ => 2 ^ 64 - 2 ^ 13) (fun _ _ => [true]) 0x3bf00000 ∅ demo_top demo_ops 0x3fd000 7 COMMIT_DMA demo_boots)
    as (v & s' & base & E & Ec & H).
  - vm_compute; reflexivity.
  - reflexivity.
  - vm_compute; reflexivity.
  - vm_compute; congruence.
  - exists v, s', base; split; [exact E|]; split; [exact Ec|]; pose proof (H 0x3ff123 ltac:(lia)) as H1; pose proof (H 0x400123 ltac:(lia)) as H2.
    cbv zeta in H1, H2; change (0x3ff123 / 4096 - 0x3fd000 / 4096) with 2 in H1; change (0x400123 / 4096 - 0x3fd000 / 4096) with 3 in H2.
    rewrite decide_True in H1, H2 by lia; rewrite (proj1 H1), (proj1 H2); split; reflexivity.
Defined.
