(* ===== verification/Mmap.v ===== *)
(** * The directory of virtual memory (cherios/core/memmgt/src/mmap.c)

    The memory manager keeps a descriptor for each range of virtual pages: the
    open ranges it can hand out, the ranges that are allocated and who claims
    them, and the freed ones.  Descriptors are in tables that mirror the page
    tables: a range is at the index its first page has, in a table deep enough
    for it to be alone at its index.  Open and freed ranges are on doubly linked
    pools; the claims of an owner, a mop, are a doubly linked list through the
    ranges.  A descriptor moves when its table is made one level deeper, and
    the lists through it are mended.

    A pointer to a descriptor is the number of its table and its index; a
    pointer to a claim is that and the number of the slot.  The slots of the
    claims and the links of the pools share their memory, as in the source: the
    links of the pools are the first three words of slot 0.  [None] is a failed
    assertion, a panic, a trap, a pointer used as one of another type, or a call
    that does not return.  The nanokernel and the other activations are the
    class [Nano]. *)

From S2P Require Import Prelude Pmem PageTable Vmem.

Definition MAX_VIRTUAL_PAGES : Z := Z.shiftl 1 27.
Definition MAX_CLAIMERS : nat := 4.
Definition PAGE_POOL_FREE_SMALL : Z := 0.
Definition PAGE_POOL_FREE_LARGE : Z := 1.
Definition PAGE_POOL_TOMB : Z := 2.
Definition POOL_LARGE_THRESHOLD : Z := Z.shiftl 1 26.
Definition MIN_REVOKE : Z := 0x20000.
(** A table is 512 descriptors of 336 bytes, four counters and a pointer. *)
Definition DESC_ALLOC_N_PER_POOL : Z := 0x1000 * PHY_PAGE_SIZE / 172080.
Definition CHECK_PASS : Z := 2.
Definition VISIT_CONT : Z := 1.
Definition VISIT_DONE : Z := 0.

Definition MEM_OK : Z := 0.
Definition MEM_BAD_MOP : Z := -1.
Definition MEM_BAD_BASE : Z := -2.
Definition MEM_REQUEST_NONE_FOUND : Z := -3.
Definition MEM_CLAIM_NOT_IN_USE : Z := -4.
Definition MEM_CLAIM_FREED : Z := -5.
Definition MEM_CLAIM_CLAIM_LIMIT : Z := -6.
Definition MEM_REQUEST_UNAVAILABLE : Z := -7.
Definition MEM_CLAIM_OVERFLOW : Z := -8.

Definition ALIGN_TOP : Z := 1.
Definition COMMIT_NOW : Z := 2.
Definition EXACT_SIZE : Z := 0x10.
Definition REPRESENTABLE : Z := 0x20.

Definition NDX (n lvl : Z) : Z := Z.land (Z.shiftr n (PAGE_TABLE_BITS_PER_LEVEL * (2 - lvl))) (PAGE_TABLE_ENT_PER_TABLE - 1).

(** What the directory asks of the nanokernel and of the other activations of
    the memory manager.  [rescap_nfo] is base and length. *)
Class Nano (W R : Type) := {
  rescap_split : W -> R -> Z -> option (W * option R);
  rescap_parent : W -> R -> option (W * option R);
  rescap_merge : W -> R -> R -> option W;
  rescap_revoke_start : W -> R -> option (W * Z);
  rescap_nfo : W -> R -> Z * Z;
  revoke : W -> option W;
  vmem_free_single : W -> Z -> option W;
  vmem_free_range : W -> Z -> Z -> option W;
  vmem_commit_range : W -> Z -> Z -> Z -> option (W * Z);
  translate_address : W -> Z -> Z;
  new_desc_chunk : W -> option W;
  representable_mask : Z -> Z
}.

(** ** State *)

Abbreviation dref := (Z * Z)%type.
Abbreviation claimer_link_t := (dref * Z)%type.

(** A word of the union. *)
Inductive word := Null | Mop (m : Z) | Claim (l : claimer_link_t) | Desc (r : dref) | Num (n : Z).

#[export] Instance word_eq : EqDecision word.
Proof. solve_decision. Defined.

Record claimer_t := mk_claimer { owner : word; cl_next : word; cl_prev : word; n_claims : Z }.

Inductive allocation_type_t := free_node | open_node | allocation_node | internal_node | tomb_node.

#[export] Instance allocation_type_eq : EqDecision allocation_type_t.
Proof. solve_decision. Defined.

Record vpage_range_desc_t {R : Type} := mk_desc {
  tracking : list claimer_t; sub_table : option Z; reservation : option R; start : Z; d_length : Z; d_prev : Z;
  allocated_length : Z; allocation_type : allocation_type_t; claims_used : Z }.
Arguments vpage_range_desc_t : clear implicits.

Inductive mop_state := active | reclaiming | dead.

Record mop_internal_t := mk_mop {
  mop_first : option claimer_link_t; mop_last : option claimer_link_t; parent_mop : option Z; child_mop : option Z;
  next_sibling_mop : option Z; prev_sibling_mop : option Z; allocated_pages : Z; allocated_ranges : Z; state : mop_state }.

(** Mops are named by their addresses; [tables] is how many tables there are
    besides the root, [pool_n] how many of them are in the last chunk. *)
Record dir {W R : Type} := mk_dir {
  heap : gmap (Z * Z) (vpage_range_desc_t R); pool_heads : list (option dref); mops : gmap Z mop_internal_t; tables : Z; pool_n : Z; free_tables : list Z;
  being_revoked : option dref; world : W }.
Arguments dir : clear implicits.

Definition no_claim : claimer_t := mk_claimer Null Null Null 0.
Definition no_tracking : list claimer_t := replicate MAX_CLAIMERS no_claim.

Definition set_owner x c := mk_claimer x (cl_next c) (cl_prev c) (n_claims c).
Definition set_next x c := mk_claimer (owner c) x (cl_prev c) (n_claims c).
Definition set_cprev x c := mk_claimer (owner c) (cl_next c) x (n_claims c).
Definition set_n x c := mk_claimer (owner c) (cl_next c) (cl_prev c) x.

Definition set_ends f l o := mk_mop f l (parent_mop o) (child_mop o) (next_sibling_mop o) (prev_sibling_mop o) (allocated_pages o) (allocated_ranges o) (state o).
Definition set_account p r o := mk_mop (mop_first o) (mop_last o) (parent_mop o) (child_mop o) (next_sibling_mop o) (prev_sibling_mop o) p r (state o).
Definition set_family p c n q o := mk_mop (mop_first o) (mop_last o) p c n q (allocated_pages o) (allocated_ranges o) (state o).
Definition mop0 : mop_internal_t := mk_mop None None None None None None 0 0 active.

Section State.

Context {W R : Type}.

Abbreviation desc := (vpage_range_desc_t R).
Abbreviation dir := (dir W R).

Definition desc0 : desc := mk_desc R no_tracking None None 0 0 0 0 free_node 0.

Definition set_tracking x (d : desc) := mk_desc R x (sub_table d) (reservation d) (start d) (d_length d) (d_prev d) (allocated_length d) (allocation_type d) (claims_used d).
Definition set_sub x (d : desc) := mk_desc R (tracking d) x (reservation d) (start d) (d_length d) (d_prev d) (allocated_length d) (allocation_type d) (claims_used d).
Definition set_res x (d : desc) := mk_desc R (tracking d) (sub_table d) x (start d) (d_length d) (d_prev d) (allocated_length d) (allocation_type d) (claims_used d).
Definition set_start x (d : desc) := mk_desc R (tracking d) (sub_table d) (reservation d) x (d_length d) (d_prev d) (allocated_length d) (allocation_type d) (claims_used d).
Definition set_length x (d : desc) := mk_desc R (tracking d) (sub_table d) (reservation d) (start d) x (d_prev d) (allocated_length d) (allocation_type d) (claims_used d).
Definition set_prev x (d : desc) := mk_desc R (tracking d) (sub_table d) (reservation d) (start d) (d_length d) x (allocated_length d) (allocation_type d) (claims_used d).
Definition set_allocated x (d : desc) := mk_desc R (tracking d) (sub_table d) (reservation d) (start d) (d_length d) (d_prev d) x (allocation_type d) (claims_used d).
Definition set_type x (d : desc) := mk_desc R (tracking d) (sub_table d) (reservation d) (start d) (d_length d) (d_prev d) (allocated_length d) x (claims_used d).
Definition set_used x (d : desc) := mk_desc R (tracking d) (sub_table d) (reservation d) (start d) (d_length d) (d_prev d) (allocated_length d) (allocation_type d) x.

Definition set_heap h (d : dir) := mk_dir W R h (pool_heads d) (mops d) (tables d) (pool_n d) (free_tables d) (being_revoked d) (world d).
Definition set_pools x (d : dir) := mk_dir W R (heap d) x (mops d) (tables d) (pool_n d) (free_tables d) (being_revoked d) (world d).
Definition set_mops x (d : dir) := mk_dir W R (heap d) (pool_heads d) x (tables d) (pool_n d) (free_tables d) (being_revoked d) (world d).
Definition set_tables x y z (d : dir) := mk_dir W R (heap d) (pool_heads d) (mops d) x y z (being_revoked d) (world d).
Definition set_revoked x (d : dir) := mk_dir W R (heap d) (pool_heads d) (mops d) (tables d) (pool_n d) (free_tables d) x (world d).
Definition set_world x (d : dir) := mk_dir W R (heap d) (pool_heads d) (mops d) (tables d) (pool_n d) (free_tables d) (being_revoked d) x.

(** ** The monad *)

Definition M (A : Type) : Type := dir -> option (A * dir).

#[global] Instance M_ret : MRet M := fun A x d => Some (x, d).
#[global] Instance M_bind : MBind M := fun A B f m d => match m d with Some (x, d) => f x d | None => None end.

Definition gets {A} (f : dir -> A) : M A := fun d => Some (f d, d).
Definition modify (f : dir -> dir) : M unit := fun d => Some (tt, f d).
Definition lift {A} (x : option A) : M A := fun d => match x with Some x => Some (x, d) | None => None end.
Definition massert (b : bool) : M unit := fun d => if b then Some (tt, d) else None.

(** A call out of the directory. *)
Definition wcall {A} (f : W -> option (W * A)) : M A :=
  fun d => match f (world d) with Some (w, x) => Some (x, set_world w d) | None => None end.
Definition wrun (f : W -> option W) : M unit :=
  fun d => match f (world d) with Some w => Some (tt, set_world w d) | None => None end.

Definition at_ (h : gmap (Z * Z) desc) (r : dref) : desc := default desc0 (h !! r).
Definition dget (r : dref) : M desc := gets (fun d => at_ (heap d) r).
Definition dput (r : dref) (f : desc -> desc) : M unit := modify (fun d => set_heap (<[r := f (at_ (heap d) r)]> (heap d)) d).
Definition mget (m : Z) : M mop_internal_t := x ← gets (fun d => mops d !! m); lift x.
Definition mput (m : Z) (f : mop_internal_t -> mop_internal_t) : M unit := x ← mget m; modify (fun d => set_mops (<[m := f x]> (mops d)) d).

Definition is_type (t : allocation_type_t) (d : desc) : bool := bool_decide (allocation_type d = t).

(** The first page after the range. *)
Definition stop (x : desc) : Z := u64 (start x + d_length x).

(** ** The union *)

Definition as_link (x : word) : option (option claimer_link_t) :=
  match x with Null => Some None | Claim l => Some (Some l) | _ => None end.
Definition as_desc (x : word) : option (option dref) :=
  match x with Null => Some None | Desc r => Some (Some r) | _ => None end.
Definition as_num (x : word) : option Z :=
  match x with Null => Some 0 | Num n => Some n | _ => None end.
Definition as_mop (x : word) : option Z :=
  match x with Mop m => Some m | _ => None end.
Definition of_link (l : option claimer_link_t) : word := match l with Some l => Claim l | None => Null end.
Definition of_desc (r : option dref) : word := match r with Some r => Desc r | None => Null end.

Definition claim_at (r : dref) (i : Z) : M claimer_t := x ← dget r; lift (zget (tracking x) i).
Definition put_claim (r : dref) (i : Z) (f : claimer_t -> claimer_t) : M unit :=
  x ← dget r;
  c ← lift (zget (tracking x) i);
  l ← lift (zput (tracking x) i (f c));
  dput r (set_tracking l).

Definition chain_next (r : dref) : M (option dref) := c ← claim_at r 0; lift (as_desc (owner c)).
Definition chain_prev (r : dref) : M (option dref) := c ← claim_at r 0; lift (as_desc (cl_next c)).
Definition pool_id (r : dref) : M Z := c ← claim_at r 0; lift (as_num (cl_prev c)).
Definition put_chain_next (r : dref) (x : option dref) : M unit := put_claim r 0 (set_owner (of_desc x)).
Definition put_chain_prev (r : dref) (x : option dref) : M unit := put_claim r 0 (set_next (of_desc x)).
Definition put_pool_id (r : dref) (i : Z) : M unit := put_claim r 0 (set_cprev (Num i)).

End State.

Section Mmap.

Context {W R : Type} `{!Nano W R}.

Abbreviation desc := (vpage_range_desc_t R).
Abbreviation M := (@M W R).

(** ** Tables *)

Definition desc_table_alloc : M Z :=
  fl ← gets free_tables;
  n ← gets tables;
  k ← gets pool_n;
  match fl with
  | t :: fl => _ ← modify (set_tables n k fl); mret t
  | [] =>
      k ← (if k =? DESC_ALLOC_N_PER_POOL then _ ← wrun new_desc_chunk; mret 0 else mret k);
      _ ← modify (set_tables (n + 1) (k + 1) []);
      mret (n + 1)
  end.

Definition desc_table_free (t : Z) : M unit :=
  n ← gets tables;
  k ← gets pool_n;
  fl ← gets free_tables;
  modify (set_tables n k (t :: fl)).

(** ** Pools *)

Definition pool_get (pool : Z) : M (option dref) := l ← gets pool_heads; lift (zget l pool).
Definition pool_put (pool : Z) (x : option dref) : M unit := l ← gets pool_heads; l ← lift (zput l pool x); modify (set_pools l).

Definition on_pool (x : desc) : bool := is_type open_node x || is_type tomb_node x.
Definition assert_pool (r : dref) : M unit := x ← dget r; massert (on_pool x).

(** The assignments to what [PREV_FIXUP] and [NEXT_FIXUP] point to. *)
Definition prev_fixup (r : dref) (x : option dref) : M unit :=
  p ← chain_prev r;
  match p with
  | Some q => put_chain_next q x
  | None => i ← pool_id r; pool_put (i - 1) x
  end.

Definition next_fixup (r : dref) (x : option dref) : M unit :=
  n ← chain_next r;
  match n with
  | Some q => put_chain_prev q x
  | None => mret tt
  end.

Definition remove_from_pool (r : dref) : M unit :=
  _ ← assert_pool r;
  i ← pool_id r;
  _ ← massert (negb (i =? 0));
  n ← chain_next r;
  _ ← prev_fixup r n;
  p ← chain_prev r;
  _ ← next_fixup r p;
  put_pool_id r 0.

Definition add_to_pool (r : dref) (pool : Z) : M unit :=
  _ ← assert_pool r;
  h ← pool_get pool;
  _ ← put_chain_next r h;
  _ ← put_chain_prev r None;
  h ← pool_get pool;
  _ ← match h with Some q => put_chain_prev q (Some r) | None => mret tt end;
  _ ← put_pool_id r (pool + 1);
  pool_put pool (Some r).

Definition add_after_desc (p r : dref) : M unit :=
  _ ← assert_pool r;
  _ ← assert_pool p;
  i ← pool_id p;
  _ ← massert (negb (i =? 0));
  _ ← put_pool_id r i;
  n ← chain_next p;
  _ ← put_chain_next r n;
  _ ← put_chain_prev r (Some p);
  _ ← put_chain_next p (Some r);
  next_fixup r (Some r).

Definition fixup_desc_chain (r : dref) : M unit :=
  _ ← assert_pool r;
  i ← pool_id r;
  if i =? 0 then mret tt
  else _ ← prev_fixup r (Some r); next_fixup r (Some r).

(** ** Finding descriptors *)

Definition root : Z := 0.

Definition page_addr (page_n : Z) : Z := u64 (Z.shiftl page_n UNTRANSLATED_BITS).

Definition hard_index (page_n : Z) : M (option dref) :=
  if page_n =? MAX_VIRTUAL_PAGES then mret None
  else
    let l := (root, L0_INDEX (page_addr page_n)) in
    x ← dget l;
    if negb (is_type internal_node x) then mret (Some l)
    else
      t ← lift (sub_table x);
      let l := (t, L1_INDEX (page_addr page_n)) in
      x ← dget l;
      if negb (is_type internal_node x) then mret (Some l)
      else
        t ← lift (sub_table x);
        mret (Some (t, L2_INDEX (page_addr page_n))).

(** [None] for a null pointer that is used. *)
Definition hard_index_parent (page_n : Z) (child : dref) : M (option dref) :=
  if page_n =? MAX_VIRTUAL_PAGES then mret None
  else
    let l := (root, L0_INDEX (page_addr page_n)) in
    x ← dget l;
    if negb (is_type internal_node x) then mret None
    else
      t ← lift (sub_table x);
      let parent := l in
      let l := (t, L1_INDEX (page_addr page_n)) in
      x ← dget l;
      if negb (is_type internal_node x) then _ ← massert (bool_decide (l = child)); mret (Some parent)
      else
        t ← lift (sub_table x);
        let parent := l in
        let l := (t, L2_INDEX (page_addr page_n)) in
        _ ← massert (bool_decide (l = child));
        mret (Some parent).

(** The loop over the nodes of a table up to the one with [page_n]. *)
Fixpoint soft_walk (n : nat) (tbl lvl page_n ndx : Z) : M Z :=
  x ← dget (tbl, ndx);
  if stop x <? page_n then
    match n with
    | O => lift None
    | S n => soft_walk n tbl lvl page_n (NDX (stop x) lvl)
    end
  else mret ndx.

Fixpoint soft_loop (n : nat) (page_n tbl lvl ndx fast_ndx : Z) (indexs : list Z) : M (dref * list Z) :=
  match n with
  | O => lift None
  | S n =>
      x ← dget (tbl, fast_ndx);
      ndx ← (if d_length x =? 0 then soft_walk 512 tbl lvl page_n ndx
             else if page_n <? start x then mret (NDX (d_prev x) lvl)
             else mret fast_ndx);
      let indexs := <[Z.to_nat lvl := ndx]> indexs in
      x ← dget (tbl, ndx);
      if negb (is_type internal_node x) then mret ((tbl, ndx), indexs)
      else
        t ← lift (sub_table x);
        soft_loop n page_n t (lvl + 1) (NDX (start x) (lvl + 1)) (NDX page_n (lvl + 1)) indexs
  end.

(** The descriptor and the indices on the way to it. *)
Definition soft_index (page_n : Z) : M (dref * list Z) := soft_loop 3 page_n root 0 0 (NDX page_n 0) [0; 0; 0].

Definition path_of (page_n : Z) : list Z := [NDX page_n 0; NDX page_n 1; NDX page_n 2].

(** ** Claims *)

(** The last slot that satisfies [p]. *)
Definition last_slot {A} (p : A -> bool) (l : list A) : option Z :=
  fold_left (fun r ic => if p ic.2 then Some (Z.of_nat ic.1) else r) (imap pair l) None.

(** The last slot of the owner, or else the last free one. *)
Definition claim_slot (l : list claimer_t) (m : Z) : option Z :=
  match last_slot (fun c => bool_decide (owner c = Mop m)) l with
  | Some i => Some i
  | None => last_slot (fun c => bool_decide (owner c = Null)) l
  end.

Definition find_free_claim_index (r : dref) (m : Z) : M (option Z) :=
  x ← dget r;
  _ ← massert (is_type allocation_node x);
  mret (claim_slot (tracking x) m).

Definition claim_node (m : Z) (r : dref) (i times : Z) : M unit :=
  x ← dget r;
  _ ← massert (is_type allocation_node x);
  c ← claim_at r i;
  _ ← massert (bool_decide (owner c = Null));
  o ← mget m;
  let old_last := mop_last o in
  _ ← put_claim r i (fun c => set_n times (set_owner (Mop m) c));
  _ ← dput r (fun x => set_used (u8 (claims_used x + 1)) x);
  _ ← match mop_first o with
      | None =>
          _ ← mput m (set_ends (Some (r, i)) (Some (r, i)));
          put_claim r i (set_cprev Null)
      | Some _ =>
          _ ← mput m (fun o => set_ends (mop_first o) (Some (r, i)) o);
          '(q, j) ← lift old_last;
          _ ← put_claim q j (set_next (Claim (r, i)));
          put_claim r i (set_cprev (of_link old_last))
      end;
  _ ← put_claim r i (set_next Null);
  x ← dget r;
  mput m (fun o => set_account (u64 (allocated_pages o + d_length x)) (u64 (allocated_ranges o + 1)) o).

(** The assignments to the link before a claim and to the one after it. *)
Definition before_claim (m : Z) (p : option claimer_link_t) (x : option claimer_link_t) : M unit :=
  match p with
  | None => mput m (fun o => set_ends x (mop_last o) o)
  | Some (q, j) => put_claim q j (set_next (of_link x))
  end.

Definition after_claim (m : Z) (n : option claimer_link_t) (x : option claimer_link_t) : M unit :=
  match n with
  | None => mput m (fun o => set_ends (mop_first o) x o)
  | Some (q, j) => put_claim q j (set_cprev (of_link x))
  end.

Definition release_claim (r : dref) (i : Z) : M unit :=
  x ← dget r;
  _ ← massert (is_type allocation_node x);
  c ← claim_at r i;
  m ← lift (as_mop (owner c));
  p ← lift (as_link (cl_prev c));
  n ← lift (as_link (cl_next c));
  _ ← before_claim m p n;
  c ← claim_at r i;
  n ← lift (as_link (cl_next c));
  p ← lift (as_link (cl_prev c));
  _ ← after_claim m n p;
  _ ← dput r (fun x => set_used (u8 (claims_used x - 1)) x);
  _ ← put_claim r i (set_owner Null);
  x ← dget r;
  mput m (fun o => set_account (u64 (allocated_pages o - d_length x)) (u64 (allocated_ranges o - 1)) o).

Definition transfer_slot (i : Z) (r free_desc : dref) (alloc_fix : Z) : M unit :=
  c ← claim_at r i;
  if bool_decide (owner c = Null) then mret tt
  else
    m ← lift (as_mop (owner c));
    _ ← claim_node m free_desc i (n_claims c);
    mput m (fun o => set_account (u64 (allocated_pages o - alloc_fix)) (allocated_ranges o) o).

(** One slot after the other, from [i] on. *)
Fixpoint transfer_slots (n : nat) (i : Z) (r free_desc : dref) (alloc_fix : Z) : M unit :=
  match n with
  | O => mret tt
  | S n => _ ← transfer_slot i r free_desc alloc_fix; transfer_slots n (i + 1) r free_desc alloc_fix
  end.

Definition transfer_claims (r free_desc : dref) : M unit :=
  x ← dget free_desc;
  transfer_slots MAX_CLAIMERS 0 r free_desc (d_length x).

Definition fixup_slot (i : Z) (r : dref) : M unit :=
  c ← claim_at r i;
  if bool_decide (owner c = Null) then mret tt
  else
    m ← lift (as_mop (owner c));
    p ← lift (as_link (cl_prev c));
    n ← lift (as_link (cl_next c));
    _ ← before_claim m p (Some (r, i));
    after_claim m n (Some (r, i)).

Fixpoint fixup_slots (n : nat) (i : Z) (r : dref) : M unit :=
  match n with
  | O => mret tt
  | S n => _ ← fixup_slot i r; fixup_slots n (i + 1) r
  end.

Definition fixup_claims (r : dref) : M unit :=
  x ← dget r;
  _ ← massert (is_type allocation_node x);
  fixup_slots MAX_CLAIMERS 0 r.

(** ** Splitting *)

Definition leaf_to_internal (r : dref) (transfer_to_index : Z) : M dref :=
  x ← dget r;
  _ ← massert (negb (is_type internal_node x));
  t ← desc_table_alloc;
  let s := (t, transfer_to_index) in
  br ← gets being_revoked;
  _ ← (if bool_decide (br = Some r) then modify (set_revoked (Some s)) else mret tt);
  _ ← dput s (fun _ => x);
  _ ← dput r (fun x => set_type internal_node (set_allocated 0 (set_res None (set_sub (Some t) x))));
  _ ← (if is_type allocation_node x then fixup_claims s
       else if on_pool x then
         _ ← massert (negb (is_type open_node x) || bool_decide (is_Some (reservation x)));
         fixup_desc_chain s
       else mret tt);
  _ ← dput r (set_tracking no_tracking);
  mret s.

Record split_res := mk_split { sp_res : option R; sp_type : allocation_type_t; transfer_from : option dref }.

(** The result is the new descriptor. *)
Fixpoint push_in_index (n : nat) (page_n prv len tbl lvl : Z) (sp : split_res) : M dref :=
  match n with
  | O => lift None
  | S n =>
      let r := (tbl, NDX page_n lvl) in
      x ← dget r;
      if d_length x =? 0 then
        _ ← dput r (fun x => set_allocated 0 (set_type (sp_type sp) (set_res (sp_res sp) (set_length len (set_prev prv (set_start page_n x))))));
        _ ← match sp_type sp with
            | allocation_node => from ← lift (transfer_from sp); transfer_claims from r
            | open_node | tomb_node =>
                _ ← massert (negb (bool_decide (sp_type sp = open_node)) || bool_decide (is_Some (sp_res sp)));
                from ← lift (transfer_from sp);
                i ← pool_id from;
                if i =? 0 then mret tt else add_after_desc from r
            | free_node | internal_node => mret tt
            end;
        mret r
      else
        let new_length := u64 (start x + d_length x - page_n) in
        _ ← (if is_type internal_node x then mret tt else _ ← leaf_to_internal r (NDX (start x) (lvl + 1)); mret tt);
        x ← dget r;
        t ← lift (sub_table x);
        out ← push_in_index n page_n prv len t (lvl + 1) sp;
        _ ← dput r (fun x => set_length new_length (set_start page_n x));
        mret out
  end.

(** The reservation, type and node the new part comes from. *)
Definition split_leaf (l : dref) (x : desc) (length1 : Z) (sp : split_res) : M split_res :=
  match allocation_type x with
  | allocation_node => mret (mk_split (sp_res sp) allocation_node (Some l))
  | open_node =>
      r ← lift (reservation x);
      r ← wcall (fun w => rescap_split w r (u64 (page_addr length1 - RES_META_SIZE)));
      _ ← massert (bool_decide (is_Some r));
      mret (mk_split r open_node (Some l))
  | _ => lift None
  end.

(** What [index_result] and [split_res] hold is passed along; the new
    descriptor is there unless [out_of_parent]. *)
Fixpoint split_index (n : nat) (page_n tbl lvl : Z) (out_of_parent : bool) (ix : dref * list Z) (sp : split_res) :
    M ((dref * list Z) * split_res * option dref) :=
  match n with
  | O => lift None
  | S n =>
      left ← lift (zget ix.2 lvl);
      let middle := NDX page_n lvl in
      let l := (tbl, left) in
      x ← dget l;
      let length1 := u64 (page_n - start x) in
      let length2 := u64 (d_length x - length1) in
      _ ← massert (negb (length1 =? 0));
      _ ← massert (negb (length2 =? 0));
      if out_of_parent || negb (left =? middle) then
        let right_pagen := stop x in
        _ ← dput l (set_length length1);
        '(ix, sp) ←
          (if is_type internal_node x then
             t ← lift (sub_table x);
             '(ix, sp, _) ← split_index n page_n t (lvl + 1) true ix (mk_split (sp_res sp) internal_node (Some l));
             mret (ix, sp)
           else sp ← split_leaf l x length1 sp; mret (ix, sp));
        if out_of_parent then mret (ix, sp, None)
        else
          _ ← (if right_pagen =? MAX_VIRTUAL_PAGES then mret tt
               else
                 q ← hard_index right_pagen;
                 q ← lift q;
                 dput q (set_prev page_n));
          from ← lift (transfer_from sp);
          y ← dget from;
          out ← push_in_index (S n) page_n (start y) length2 tbl lvl sp;
          mret (ix, sp, Some out)
      else
        ix ← (if is_type internal_node x then mret ix
              else
                let new_ndx := NDX (start x) (lvl + 1) in
                s ← leaf_to_internal l new_ndx;
                mret (s, <[Z.to_nat (lvl + 1) := new_ndx]> ix.2));
        x ← dget l;
        t ← lift (sub_table x);
        split_index n page_n t (lvl + 1) false ix sp
  end.

Definition size_node (page_n npages : Z) (ix : dref * list Z) : M (dref * list Z) :=
  let sp := mk_split None free_node None in
  x ← dget ix.1;
  '(ix, sp) ← (if start x <? page_n then
                 '(_, sp, out) ← split_index 3 page_n root 0 false ix sp;
                 out ← lift out;
                 mret ((out, path_of page_n), sp)
               else mret (ix, sp));
  x ← dget ix.1;
  if npages <? d_length x then
    '(ix, _, _) ← split_index 3 (u64 (page_n + npages)) root 0 false ix sp;
    mret ix
  else mret ix.

(** ** Freeing *)

Fixpoint pull_up_node (n : nat) (child : dref) : M dref :=
  match n with
  | O => lift None
  | S n =>
      c ← dget child;
      _ ← massert (negb (is_type internal_node c));
      p ← hard_index_parent (start c) child;
      match p with
      | None => mret child
      | Some parent =>
          y ← dget parent;
          if negb (start y =? start c) || negb (d_length y =? d_length c) then mret child
          else
            _ ← massert (is_type internal_node y);
            _ ← dput parent (fun _ => c);
            _ ← (if is_type allocation_node c then fixup_claims parent
                 else if on_pool c then fixup_desc_chain parent
                 else mret tt);
            _ ← dput child (fun c => set_length 0 (set_type free_node c));
            t ← lift (sub_table y);
            _ ← desc_table_free t;
            pull_up_node n parent
      end
  end.

(** The internal nodes on the way to [page_n], at the first level and at the
    second, changed by [f]. *)
Definition downward (page_n : Z) (f : desc -> option desc) : M unit :=
  let l := (root, L0_INDEX (page_addr page_n)) in
  x ← dget l;
  if negb (is_type internal_node x) then mret tt
  else
    y ← lift (f x);
    _ ← dput l (fun _ => y);
    t ← lift (sub_table x);
    let l := (t, L1_INDEX (page_addr page_n)) in
    x ← dget l;
    if negb (is_type internal_node x) then mret tt
    else y ← lift (f x); dput l (fun _ => y).

Definition downward_correct_end (page_n new_end : Z) : M unit :=
  downward page_n (fun x =>
    if stop x <? new_end then
      let n := u64 (d_length x + (new_end - stop x)) in
      if n =? 0xFFFF7E8 then None else Some (set_length n x)
    else Some x).

Definition downward_correct_start (page_n new_start : Z) : M unit :=
  let adjust := u64 (new_start - page_n) in
  downward page_n (fun x =>
    Some (if start x =? page_n then set_length (u64 (d_length x - adjust)) (set_start new_start x) else x)).

Definition merge_index (l r : dref) (next : option dref) : M dref :=
  br ← gets being_revoked;
  if bool_decide (br = Some l) || bool_decide (br = Some r) then mret r
  else
    x ← dget l;
    y ← dget r;
    if negb (is_type tomb_node x && is_type tomb_node y) then mret r
    else if negb (allocated_length y =? 0) && (allocated_length x =? 0) then mret r
    else
      _ ← dput l (fun x => set_allocated (u64 (allocated_length x + allocated_length y)) (set_length (u64 (d_length x + d_length y)) x));
      _ ← match next with Some q => dput q (set_prev (start x)) | None => mret tt end;
      _ ← remove_from_pool r;
      _ ← dput r (fun y => set_type free_node (set_length 0 y));
      _ ← (if allocated_length y =? 0 then mret tt
           else a ← lift (reservation x); b ← lift (reservation y); wrun (fun w => rescap_merge w a b));
      _ ← (if d_length x =? 1 then mret tt else wrun (fun w => vmem_free_single w (page_addr (u64 (start y - 1)))));
      _ ← (if d_length y =? 1 then mret tt else wrun (fun w => vmem_free_single w (page_addr (start y))));
      x ← dget l;
      _ ← downward_correct_end (start x) (stop x);
      _ ← downward_correct_start (start y) (stop y);
      _ ← match next with
          | Some q => if bool_decide (br = Some q) then mret tt else _ ← pull_up_node 3 q; mret tt
          | None => mret tt
          end;
      pull_up_node 3 l.

Definition revoke_start (r : dref) : M unit :=
  x ← dget r;
  _ ← massert (is_type tomb_node x);
  _ ← massert (allocated_length x =? d_length x);
  _ ← modify (set_revoked (Some r));
  res ← lift (reservation x);
  nfo ← gets (fun d => rescap_nfo (world d) res);
  _ ← massert (u64 (nfo.1 - RES_META_SIZE) =? page_addr (start x));
  _ ← massert (u64 (nfo.2 + RES_META_SIZE) =? page_addr (d_length x));
  result ← wcall (fun w => rescap_revoke_start w res);
  _ ← massert (result =? 0);
  _ ← wrun (fun w => vmem_free_single w (page_addr (start x)));
  if d_length x =? 1 then mret tt else wrun (fun w => vmem_free_single w (u64 (page_addr (start x) + page_addr (d_length x) - 1))).

(** The last of the longest of the freed ranges from [r] on. *)
Fixpoint longest_tomb (n : nat) (r to_revoke : option dref) (max : Z) : M (option dref) :=
  match r with
  | None => mret to_revoke
  | Some q =>
      match n with
      | O => lift None
      | S n =>
          x ← dget q;
          next ← chain_next q;
          if (max <=? allocated_length x) && (d_length x =? allocated_length x)
          then longest_tomb n next (Some q) (allocated_length x)
          else longest_tomb n next to_revoke max
      end
  end.

Definition find_something_to_revoke (hint : option dref) : M unit :=
  br ← gets being_revoked;
  match br with
  | Some _ => mret tt
  | None =>
      to_revoke ←
        match hint with
        | Some r =>
            x ← dget r;
            mret (if (MIN_REVOKE <=? allocated_length x) && (d_length x =? allocated_length x) then Some r else None)
        | None =>
            h ← pool_get PAGE_POOL_TOMB;
            n ← gets (fun d => size (heap d));
            longest_tomb (S n) h None (MIN_REVOKE - 1)
        end;
      match to_revoke with
      | None => mret tt
      | Some r => _ ← remove_from_pool r; _ ← revoke_start r; wrun revoke
      end
  end.

Definition free_desc (r : dref) : M dref :=
  x ← dget r;
  _ ← (if 3 <=? d_length x then wrun (fun w => vmem_free_range w (page_addr (u64 (start x + 1))) (d_length x - 2)) else mret tt);
  _ ← dput r (set_type tomb_node);
  _ ← add_to_pool r PAGE_POOL_TOMB;
  p ← hard_index (d_prev x);
  n ← hard_index (stop x);
  p ← lift p;
  r ← merge_index p r n;
  x ← dget r;
  n ← hard_index (stop x);
  r ← match n with
      | None => mret r
      | Some n =>
          y ← dget n;
          nn ← hard_index (stop y);
          m ← merge_index r n nn;
          mret (if bool_decide (m = n) then r else m)
      end;
  _ ← find_something_to_revoke (Some r);
  mret r.

(** ** Visitors *)

Definition visit_claim_check (r : dref) (m times : Z) : M Z :=
  x ← dget r;
  match allocation_type x with
  | open_node => mret MEM_CLAIM_NOT_IN_USE
  | tomb_node => mret MEM_CLAIM_FREED
  | _ =>
      i ← find_free_claim_index r m;
      match i with
      | None => mret MEM_CLAIM_CLAIM_LIMIT
      | Some i =>
          c ← claim_at r i;
          mret (if u64 (n_claims c + times) <? n_claims c then MEM_CLAIM_OVERFLOW else CHECK_PASS)
      end
  end.

Definition visit_request_check (r : dref) (page_n npages : Z) : M Z :=
  x ← dget r;
  mret (if negb (is_type open_node x) then
          if (page_n =? 0) && negb (stop x =? MAX_VIRTUAL_PAGES) then VISIT_CONT else MEM_REQUEST_NONE_FOUND
        else if u64 (d_length x - (page_n - start x)) <? npages then VISIT_CONT
        else CHECK_PASS).

Definition visit_free_check (r : dref) (m times : Z) : M Z :=
  x ← dget r;
  if negb (is_type allocation_node x) then mret VISIT_CONT
  else
    i ← find_free_claim_index r m;
    match i with
    | None => mret VISIT_CONT
    | Some i =>
        c ← claim_at r i;
        mret (if bool_decide (owner c = Mop m) then CHECK_PASS else VISIT_CONT)
    end.

Definition visit_claim (r : dref) (m times : Z) : M dref :=
  i ← find_free_claim_index r m;
  i ← lift i;
  c ← claim_at r i;
  _ ← (if bool_decide (owner c = Mop m)
       then put_claim r i (fun c => set_n (u64 (n_claims c + times)) c)
       else claim_node m r i times);
  mret r.

Definition visit_free (r : dref) (m times : Z) : M dref :=
  i ← find_free_claim_index r m;
  i ← lift i;
  c ← claim_at r i;
  let rem_claims := if n_claims c <=? times then 0 else n_claims c - times in
  _ ← put_claim r i (set_n rem_claims);
  if rem_claims =? 0 then
    _ ← release_claim r i;
    x ← dget r;
    if claims_used x =? 0 then free_desc r else mret r
  else mret r.

(** ** Claims and releases *)

Definition align_up_to (size align : Z) : Z := Z.land (u64 (size + (align - 1))) (u64 (Z.lnot (align - 1))).

Definition ALIGN_PAGE_REQUEST (base length : Z) : Z * Z :=
  let page_n := Z.shiftr base UNTRANSLATED_BITS in
  (page_n, u64 (Z.shiftr (align_up_to (u64 (base + length)) PHY_PAGE_SIZE) UNTRANSLATED_BITS - page_n)).

(** The loop ends: each turn but the last moves on by a page or more. *)
Fixpoint claim_loop (n : nat) (visitf : dref -> Z -> Z -> M dref) (checkf : dref -> Z -> Z -> M Z)
    (page_n npages times m : Z) (ix : dref * list Z) : M Z :=
  match n with
  | O => lift None
  | S n =>
      check ← checkf ix.1 m times;
      if check <=? VISIT_DONE then mret check
      else
        r ← (if check =? CHECK_PASS then ix ← size_node page_n npages ix; visitf ix.1 m times else mret ix.1);
        x ← dget r;
        if u64 (page_n + npages) <=? stop x then mret MEM_OK
        else
          let npages := u64 (npages - (stop x - page_n)) in
          q ← hard_index (stop x);
          q ← lift q;
          claim_loop n visitf checkf (stop x) npages times m (q, path_of (stop x))
  end.

Definition mem_claim_or_release (base length times m : Z) (visitf : dref -> Z -> Z -> M dref) (checkf : dref -> Z -> Z -> M Z) : M Z :=
  let '(page_n, npages) := ALIGN_PAGE_REQUEST base length in
  if npages =? 0 then mret 0
  else if page_n =? 0 then mret MEM_BAD_BASE
  else
    ix ← soft_index page_n;
    claim_loop (Z.to_nat npages) visitf checkf page_n npages times m ix.

(** The mop behind a handle: [None] for a handle that does not unseal, or a mop
    that is not mapped or not active. *)
Definition unseal_mop (mop_sealed : option Z) : M (option Z) :=
  match mop_sealed with
  | None => mret None
  | Some m =>
      o ← gets (fun d => mops d !! m);
      mret (match o with Some (mk_mop _ _ _ _ _ _ _ _ active) => Some m | _ => None end)
  end.

Definition mem_claim (base length times : Z) (mop_sealed : option Z) : M Z :=
  m ← unseal_mop mop_sealed;
  match m with
  | None => mret MEM_BAD_MOP
  | Some m => mem_claim_or_release base length times m visit_claim visit_claim_check
  end.

Definition mem_release (base length times : Z) (mop_sealed : option Z) : M Z :=
  m ← unseal_mop mop_sealed;
  match m with
  | None => mret MEM_BAD_MOP
  | Some m => mem_claim_or_release base length times m visit_free visit_free_check
  end.

(** ** Requests *)

Definition LARGE_PAGES : Z := Z.shiftr POOL_LARGE_THRESHOLD UNTRANSLATED_BITS.

Definition adjust_desc_pool (r : option dref) : M unit :=
  match r with
  | None => mret tt
  | Some r =>
      x ← dget r;
      _ ← massert (is_type open_node x);
      i ← pool_id r;
      if (u64 (i - 1) =? PAGE_POOL_FREE_LARGE) && (d_length x <? LARGE_PAGES)
      then _ ← remove_from_pool r; add_to_pool r PAGE_POOL_FREE_SMALL
      else mret tt
  end.

(** The first fit from [r] on: the page and the way to its range. *)
Fixpoint search_pools (n : nat) (dma : bool) (npages align_mask : Z) (r : option dref) : M (Z * (dref * list Z)) :=
  match n, r with
  | S n, Some r =>
      x ← dget r;
      _ ← massert (is_type open_node x);
      _ ← massert (negb (d_length x =? 0));
      let search_page_n := if dma then u64 (start x + 1) else start x in
      let offset := Z.land (u64 (- (search_page_n + npages))) align_mask in
      if u64 (npages + offset) <=? d_length x then mret (u64 (search_page_n + offset), (r, path_of (start x)))
      else
        next ← chain_next r;
        i ← pool_id r;
        q ← (if bool_decide (next = None) && (u64 (i - 1) =? PAGE_POOL_FREE_SMALL) then pool_get PAGE_POOL_FREE_LARGE else mret next);
        search_pools n dma npages align_mask q
  | _, _ => lift None
  end.

Definition search_start (npages : Z) : M (option dref) :=
  if LARGE_PAGES <=? npages then pool_get PAGE_POOL_FREE_LARGE
  else
    h ← pool_get PAGE_POOL_FREE_SMALL;
    match h with None => pool_get PAGE_POOL_FREE_LARGE | Some _ => mret h end.

(** The range: where a base is given the one with it, or else the first fit. *)
Definition find_range (req_base page_n npages align_mask : Z) (dma : bool) : M (Z + Z * (dref * list Z)) :=
  if req_base =? 0 then
    h ← search_start npages;
    n ← gets (fun d => size (heap d));
    r ← search_pools (S n) dma npages align_mask h;
    mret (inr r)
  else
    ix ← soft_index page_n;
    check ← visit_request_check ix.1 page_n npages;
    let check := if check =? VISIT_CONT then MEM_REQUEST_UNAVAILABLE else check in
    mret (if check <=? VISIT_DONE then inl check else inr (page_n, ix)).

(** The physical address that goes to [phy_base]. *)
Definition commit_request (page_n npages flags : Z) : M (option Z) :=
  if negb (flag flags COMMIT_DMA) && negb (flag flags COMMIT_NOW) then mret None
  else if 1 <? npages then
    let commit_off := if flag flags COMMIT_DMA then 0 else 1 in
    contig_base ← wcall (fun w => vmem_commit_range w (page_addr (u64 (page_n + commit_off))) (npages - commit_off) flags);
    mret (Some contig_base)
  else
    a ← gets (fun d => translate_address (world d) (page_addr page_n));
    mret (Some (u64 (a + RES_META_SIZE))).

(** A page left over before a range for DMA is given up. *)
Definition drop_single (page_n npages flags : Z) : M unit :=
  if flag flags COMMIT_DMA && (1 <? npages) then
    r ← hard_index (u64 (page_n - 1));
    match r with
    | None => mret tt
    | Some r =>
        x ← dget r;
        if (d_length x =? 1) && is_type open_node x then
          _ ← dput r (set_allocated 1);
          _ ← remove_from_pool r;
          _ ← free_desc r;
          mret tt
        else mret tt
    end
  else mret tt.

(** From the pools to the claims of its owner. *)
Definition take_range (r : dref) (m : Z) : M (option R) :=
  p ← chain_prev r;
  n ← chain_next r;
  _ ← remove_from_pool r;
  _ ← adjust_desc_pool p;
  _ ← adjust_desc_pool n;
  x ← dget r;
  _ ← dput r (set_allocated (d_length x));
  _ ← massert (is_type open_node x);
  _ ← dput r (fun x => set_tracking (map (set_owner Null) (tracking x)) (set_type allocation_node x));
  _ ← visit_claim r m 1;
  mret (reservation x).

(** The part of the reservation that is handed out. *)
Definition trim (result : option R) (page_n npages req_base req_length flags : Z) : M (option R) :=
  let base := u64 (page_addr page_n + 2 * RES_META_SIZE) in
  let length := u64 (page_addr npages - 2 * RES_META_SIZE) in
  result ← lift result;
  if negb (req_base =? 0) then
    if base <? req_base then
      let bytes_too_many := req_base - base in
      q ← wcall (fun w => rescap_split w result (u64 (bytes_too_many - RES_META_SIZE)));
      q ← lift q;
      let length := u64 (length - bytes_too_many) in
      _ ← (if req_length <? length then _ ← wcall (fun w => rescap_split w q length); mret tt else mret tt);
      mret (Some q)
    else mret (Some result)
  else if flag flags EXACT_SIZE && (req_length <? length) then
    wcall (fun w => rescap_split w result (u64 (length - req_length - RES_META_SIZE)))
  else mret (Some result).

(** An error, or the reservation and the physical address. *)
Definition mem_request (mop_sealed : option Z) (base length flags : Z) : M (Z + option R * option Z) :=
  m ← unseal_mop mop_sealed;
  match m with
  | None => mret (inl MEM_BAD_MOP)
  | Some m =>
      if negb (Z.land base (RES_META_SIZE - 1) =? 0) then mret (inl MEM_BAD_BASE)
      else
        let '(page_n, npages) := ALIGN_PAGE_REQUEST (if base =? 0 then base else u64 (base - 2 * RES_META_SIZE)) (u64 (length + 2 * RES_META_SIZE)) in
        _ ← massert (negb (flag flags ALIGN_TOP));
        let mask_high := representable_mask length in
        let mask_low := u64 (Z.lnot mask_high) in
        _ ← massert (negb (flag flags REPRESENTABLE) || (Z.land (u64 (length + mask_low)) mask_high =? length));
        let align_mask := if flag flags REPRESENTABLE then Z.shiftr mask_low UNTRANSLATED_BITS else 0 in
        let npages := if npages =? 0 then 1 else npages in
        let flags := if flag flags COMMIT_DMA && (npages =? 1) then Z.lor (Z.land flags (Z.lnot COMMIT_DMA)) COMMIT_NOW else flags in
        let dma := flag flags COMMIT_DMA in
        found ← find_range base page_n (if dma then npages + 1 else npages) align_mask dma;
        match found with
        | inl e => mret (inl e)
        | inr (page_n, ix) =>
            phy_base ← commit_request page_n npages flags;
            ix ← size_node page_n npages ix;
            _ ← drop_single page_n npages flags;
            result ← take_range ix.1 m;
            result ← lift result;
            result ← wcall (fun w => rescap_parent w result);
            result ← trim result page_n npages base length flags;
            mret (inr (result, phy_base))
        end
  end.

(** ** Mops *)

Definition MOP_SIZE : Z := 144.
Definition first_mop : Z := -1.
Definition mmap_mop : Z := -2.

Definition claim_mop (m : Z) : M Z := mem_claim_or_release m MOP_SIZE 1 mmap_mop visit_claim visit_claim_check.

(** [new_mop] is the address of the space taken, [None] if it was not taken;
    the error codes are those of [MAKE_ER]. *)
Definition MEM_MAKEMOP_BAD_SPACE : Z := -11.
Definition MEM_BAD_MOP_CANT_CLAIM : Z := -9.

Definition mem_makemop (new_mop mop_sealed : option Z) : M (Z + Z) :=
  m ← unseal_mop mop_sealed;
  match m, new_mop with
  | None, _ => mret (inl MEM_BAD_MOP)
  | Some _, None => mret (inl MEM_MAKEMOP_BAD_SPACE)
  | Some m, Some q =>
      c ← claim_mop q;
      if negb (c =? MEM_OK) then mret (inl MEM_BAD_MOP_CANT_CLAIM)
      else
        o ← mget m;
        _ ← modify (fun d => set_mops (<[q := set_family (Some m) None (child_mop o) None mop0]> (mops d)) d);
        _ ← match child_mop o with
            | None => mret tt
            | Some c => mput c (fun o => set_family (parent_mop o) (child_mop o) (next_sibling_mop o) (Some q) o)
            end;
        _ ← mput m (fun o => set_family (parent_mop o) (Some q) (next_sibling_mop o) (prev_sibling_mop o) o);
        mret (inr q)
  end.

(** ** The start *)

(** The sentinel, and the rest of virtual memory. *)
Definition init_desc (big_res : R) : M unit :=
  l1 ← desc_table_alloc;
  l2 ← desc_table_alloc;
  _ ← dput (root, 0) (fun x => set_res (Some big_res) (set_length MAX_VIRTUAL_PAGES (set_start 0 (set_sub (Some l1) (set_type internal_node x)))));
  _ ← dput (l1, 0) (fun x => set_res (Some big_res) (set_length MAX_VIRTUAL_PAGES (set_start 0 (set_sub (Some l2) (set_type internal_node x)))));
  _ ← dput (l2, 0) (fun x => set_prev 0 (set_length 1 (set_start 0 (set_allocated 1 (set_type allocation_node x)))));
  _ ← dput (l2, 1) (fun x => set_res (Some big_res) (set_prev 0 (set_length (MAX_VIRTUAL_PAGES - 1) (set_start 1 (set_type open_node x)))));
  add_to_pool (l2, 1) PAGE_POOL_FREE_LARGE.

Definition init_dir (w : W) (big_res : R) : option (dir W R) :=
  match init_desc big_res (mk_dir W R ∅ (replicate 3 None) {[first_mop := mop0; mmap_mop := mop0]} 0 DESC_ALLOC_N_PER_POOL [] None w) with
  | Some (_, d) => Some d
  | None => None
  end.

(** The nanokernel has revoked the freed range and gives it back. *)
Definition revoke_finish (res : R) : M unit :=
  br ← gets being_revoked;
  r ← lift br;
  nfo ← gets (fun d => rescap_nfo (world d) res);
  x ← dget r;
  _ ← massert (Z.shiftr (u64 (nfo.1 - RES_META_SIZE)) UNTRANSLATED_BITS =? start x);
  _ ← massert (Z.shiftr (u64 (nfo.2 + RES_META_SIZE)) UNTRANSLATED_BITS =? d_length x);
  _ ← dput r (fun x => set_type open_node (set_res (Some res) x));
  _ ← put_pool_id r 0;
  _ ← modify (set_revoked None);
  now_free ← pull_up_node 3 r;
  y ← dget now_free;
  _ ← massert (bool_decide (is_Some (reservation y)));
  x ← dget r;
  _ ← add_to_pool now_free (if LARGE_PAGES <=? d_length x then PAGE_POOL_FREE_LARGE else PAGE_POOL_FREE_SMALL);
  find_something_to_revoke None.
End Mmap.
