(* ===== verification/MmapList.v ===== *)
(** * The lists of the directory

    Doubly linked lists in general, and that the operations of Mmap.v on the
    pools and on the claims of a mop do to the lists what their names say.  A
    list is given by the keys of its nodes; each lemma says which node joins or
    leaves, and that the rest of the state stays as it is. *)

From S2P Require Import Prelude Pmem PageTable Vmem Mmap.

(** ** Doubly linked lists *)

Definition hd_or {K} (l : list K) (q : option K) : option K := match l with x :: _ => Some x | [] => q end.
Definition last_or {K} (l : list K) (p : option K) : option K := match last l with Some x => Some x | None => p end.

Section Dll.

Context {K : Type} `{!EqDecision K}.

Implicit Types (lk : K -> option (option K * option K)) (l : list K) (p q : option K).

(** The nodes [l] in their order, between [p] and [q]; [lk] gives the links of
    a node, backwards and forwards. *)
Fixpoint dseg lk p l q : Prop :=
  match l with
  | [] => True
  | x :: l => lk x = Some (p, hd_or l q) /\ dseg lk (Some x) l q
  end.

Lemma dseg_app lk l l' : forall p q, dseg lk p (l ++ l') q <-> dseg lk p l (hd_or l' q) /\ dseg lk (last_or l p) l' q.
Proof.
  induction l as [|x l IH]; intros p q; cbn; [tauto|].
  rewrite IH; replace (last_or (x :: l) p) with (last_or l (Some x)) by (unfold last_or; rewrite last_cons; by destruct (last l)).
  replace (hd_or (l ++ l') q) with (hd_or l (hd_or l' q)) by (by destruct l); tauto.
Qed.

Lemma dseg_ext lk lk' l : forall p q, (forall x, x ∈ l -> lk' x = lk x) -> dseg lk p l q -> dseg lk' p l q.
Proof.
  induction l as [|x l IH]; intros p q Hx; cbn; [done|]; intros [H1 H2]; split; [rewrite Hx; [done|left]|].
  apply IH; [intros y Hy; apply Hx; by right|done].
Qed.

Lemma dseg_lk lk l : forall p q x, dseg lk p l q -> x ∈ l -> is_Some (lk x).
Proof.
  induction l as [|y l IH]; intros p q x; cbn; [intros _ H; by apply not_elem_of_nil in H|].
  intros [H1 H2] [->|Hx]%elem_of_cons; [by rewrite H1|by eapply IH].
Qed.

(** The links of a node with other nodes around it. *)
Lemma dseg_mid lk l1 x l2 p q : dseg lk p (l1 ++ x :: l2) q -> lk x = Some (last_or l1 p, hd_or l2 q).
Proof. rewrite dseg_app; cbn; tauto. Qed.

(** The last node before a change points elsewhere. *)
Lemma dseg_left lk lk' l : forall p q q', NoDup l ->
  (forall x u v, x ∈ l -> lk x = Some (u, v) -> lk' x = Some (u, if decide (last l = Some x) then q' else v)) ->
  dseg lk p l q -> dseg lk' p l q'.
Proof.
  induction l as [|x l IH]; intros p q q' Hnd Hx; cbn; [done|]; intros [H1 H2]; apply NoDup_cons in Hnd as [Hn Hnd].
  assert (Hl : l = [] \/ (exists y, last l = Some y) /\ last (x :: l) = last l) by (destruct l as [|y l]; [by left|right]; cbn [last];
    split; [destruct (last (y :: l)) eqn:E; eauto; by apply last_None in E|done]).
  split.
  - rewrite (Hx x _ _ ltac:(left) H1); do 2 f_equal; destruct Hl as [->|[[y Hy] Hl]]; cbn; [by rewrite decide_True|].
    rewrite decide_False; [destruct l; done|]; rewrite Hl, Hy; intros [= ->]; by apply last_Some_elem_of in Hy.
  - eapply IH; [done| |done]; intros y u v Hy Hl'; rewrite (Hx y u v) by (by right || done); do 2 f_equal.
    destruct Hl as [->|[_ ->]]; [by apply not_elem_of_nil in Hy|done].
Qed.

(** The first node after it, too. *)
Lemma dseg_right lk lk' l p p' q : NoDup l ->
  (forall x u v, x ∈ l -> lk x = Some (u, v) -> lk' x = Some (if decide (head l = Some x) then p' else u, v)) ->
  dseg lk p l q -> dseg lk' p' l q.
Proof.
  destruct l as [|x l]; [done|]; intros [Hn Hnd]%NoDup_cons Hx; cbn; intros [H1 H2]; split.
  - rewrite (Hx x _ _ ltac:(left) H1); cbn; by rewrite decide_True.
  - eapply dseg_ext; [|done]; intros y Hy; destruct (dseg_lk _ _ _ _ y H2 Hy) as [[u v] E].
    rewrite (Hx y u v) by (by right || done); cbn; rewrite decide_False by congruence; done.
Qed.

(** The nodes [m] in the middle of a list give way to [m']. *)
Lemma dseg_splice lk lk' l1 m l2 m' : NoDup (l1 ++ m ++ l2) -> dseg lk None (l1 ++ m ++ l2) None ->
  (forall x u v, x ∈ l1 -> lk x = Some (u, v) -> lk' x = Some (u, if decide (last l1 = Some x) then hd_or (m' ++ l2) None else v)) ->
  (forall x u v, x ∈ l2 -> lk x = Some (u, v) -> lk' x = Some (if decide (head l2 = Some x) then last_or m' (last_or l1 None) else u, v)) ->
  dseg lk' (last_or l1 None) m' (hd_or l2 None) -> dseg lk' None (l1 ++ m' ++ l2) None.
Proof.
  intros (Hn1 & _ & (_ & _ & Hn2)%NoDup_app)%NoDup_app Hd H1 H2 Hm.
  rewrite !dseg_app in Hd |- *; destruct Hd as (Ha & _ & Hb); split_and!; [by eapply dseg_left|done|by eapply dseg_right].
Qed.

End Dll.

(** ** The monad *)

Lemma list_insert_alter' {A} (f : A -> A) (l : list A) (i : nat) (x : A) : l !! i = Some x -> <[i := f x]> l = alter f i l.
Proof.
  intros Hx; apply list_eq; intros j; rewrite list_lookup_alter; case_decide; subst.
  - rewrite list_lookup_insert_eq by (by eapply lookup_lt_Some); by rewrite Hx.
  - by rewrite list_lookup_insert_ne.
Qed.

Section Run.

Context {W R : Type}.

Abbreviation M := (@M W R).
Abbreviation desc := (vpage_range_desc_t R).

Lemma bind_run {A B} (m : M A) (f : A -> M B) d x d' z : m d = Some (x, d') -> f x d' = z -> (m ≫= f) d = z.
Proof. intros E <-; unfold mbind, M_bind; by rewrite E. Qed.

Lemma assert_run b (d : dir W R) : b = true -> massert b d = Some (tt, d).
Proof. by intros ->. Qed.

Lemma lift_run {A} (x : option A) (d : dir W R) y : x = Some y -> lift x d = Some (y, d).
Proof. by intros ->. Qed.

(** *** Descriptors *)

Definition upd (h : gmap (Z * Z) desc) (r : dref) (f : desc -> desc) : gmap (Z * Z) desc := <[r := f (at_ h r)]> h.

Lemma at_upd h r f r' : at_ (upd h r f) r' = if decide (r' = r) then f (at_ h r) else at_ h r'.
Proof. unfold at_ at 1, upd; case_decide; subst; [by rewrite lookup_insert_eq|by rewrite lookup_insert_ne by done]. Qed.

Lemma at_upd_eq h r f : at_ (upd h r f) r = f (at_ h r).
Proof. by rewrite at_upd, decide_True. Qed.

Lemma at_upd_ne h r f r' : r' <> r -> at_ (upd h r f) r' = at_ h r'.
Proof. intros; by rewrite at_upd, decide_False. Qed.

Lemma dput_run r f (d : dir W R) : dput r f d = Some (tt, set_heap (upd (heap d) r f) d).
Proof. done. Qed.

(** Four slots everywhere. *)
Definition four (h : gmap (Z * Z) desc) : Prop := forall r, List.length (tracking (at_ h r)) = 4%nat.

Definition slot (h : gmap (Z * Z) desc) (r : dref) (i : Z) : claimer_t := default no_claim (zget (tracking (at_ h r)) i).

(** Slot [i] of a descriptor changed. *)
Definition on_slot (i : Z) (f : claimer_t -> claimer_t) (x : desc) : desc :=
  set_tracking (alter f (Z.to_nat i) (tracking x)) x.

Lemma slot_get h r i : four h -> 0 <= i < 4 -> zget (tracking (at_ h r)) i = Some (slot h r i).
Proof. intros H Hi; unfold slot; destruct (zget_is_Some (tracking (at_ h r)) i) as [c ->]; [rewrite H; lia|done]. Qed.

Lemma claim_at_run r i (d : dir W R) : four (heap d) -> 0 <= i < 4 -> claim_at r i d = Some (slot (heap d) r i, d).
Proof. intros H Hi; unfold claim_at; eapply bind_run; [done|]; by apply lift_run, slot_get. Qed.

Lemma put_claim_run r i f (d : dir W R) : four (heap d) -> 0 <= i < 4 ->
  put_claim r i f d = Some (tt, set_heap (upd (heap d) r (on_slot i f)) d).
Proof.
  intros H Hi; unfold put_claim; do 3 (eapply bind_run; [first [done|apply lift_run; by apply slot_get|apply lift_run, zput_is_Some; rewrite H; lia]|]).
  rewrite dput_run; do 3 f_equal; unfold upd, on_slot; do 2 f_equal; apply list_insert_alter'.
  rewrite <- (slot_get _ _ _ H Hi); unfold zget; by rewrite (proj2 (Z.leb_le 0 i)) by lia.
Qed.

(** A descriptor without its slots. *)
Definition bare (x : desc) : desc := set_tracking [] x.

Lemma slot_upd h r i f r' j : four h -> 0 <= i < 4 -> 0 <= j < 4 ->
  slot (upd h r (on_slot i f)) r' j = if decide (r' = r /\ j = i) then f (slot h r i) else slot h r' j.
Proof.
  intros H Hi Hj; unfold slot at 1; rewrite at_upd; destruct (decide (r' = r)) as [->|]; [|rewrite decide_False by naive_solver; done].
  cbn; unfold zget; rewrite (proj2 (Z.leb_le 0 j)), list_lookup_alter by lia; pose proof (slot_get h r j H Hj) as Ej; unfold zget in Ej.
  rewrite (proj2 (Z.leb_le 0 j)) in Ej by lia; destruct (decide (j = i)) as [->|].
  - rewrite !decide_True by done; by rewrite Ej.
  - rewrite !decide_False by (lia || naive_solver); by rewrite Ej.
Qed.

Lemma slot_upd_other h r f r' j : (r' = r -> tracking (f (at_ h r)) = tracking (at_ h r)) -> slot (upd h r f) r' j = slot h r' j.
Proof. intros H; unfold slot; rewrite at_upd; case_decide; subst; [by rewrite H|done]. Qed.

Lemma four_upd h r i f : four h -> four (upd h r (on_slot i f)).
Proof. intros H q; rewrite at_upd; case_decide; [cbn; rewrite length_alter|]; by rewrite H. Qed.

Lemma bare_upd h r i f q : bare (at_ (upd h r (on_slot i f)) q) = bare (at_ h q).
Proof. rewrite at_upd; case_decide; by subst. Qed.

(** A change of a slot that leaves a claim alone. *)
Definition mild (c c' : claimer_t) : Prop := n_claims c' = n_claims c /\ (owner c' = owner c \/ forall m, owner c' <> Mop m).

Lemma mild_trans c c' c'' : mild c c' -> mild c' c'' -> mild c c''.
Proof. intros [A1 A2] [B1 B2]; split; [congruence|]; destruct B2 as [->|B2]; [|by right]; destruct A2; auto. Qed.

(** From [h] to [h'] only the slots in [S] have changed, and no claim with them. *)
Record only (S : dref -> Z -> Prop) (h h' : gmap (Z * Z) desc) : Prop := mk_only {
  on_four : four h'; on_bare : forall q, bare (at_ h' q) = bare (at_ h q);
  on_slots : forall q i, 0 <= i < 4 -> ~ S q i -> slot h' q i = slot h q i;
  on_mild : forall q i, 0 <= i < 4 -> mild (slot h q i) (slot h' q i) }.

Lemma only_refl S h : four h -> only S h h.
Proof. intros H; split; try done; intros; split; auto. Qed.

Lemma only_trans S h h' h'' : only S h h' -> only S h' h'' -> only S h h''.
Proof.
  intros [A1 A2 A3 A4] [B1 B2 B3 B4]; split; [done|intros; by rewrite B2| |intros; eapply mild_trans; eauto].
  intros; rewrite B3, A3 by done; done.
Qed.

Lemma only_mono (S S' : dref -> Z -> Prop) h h' : (forall q i, S q i -> S' q i) -> only S h h' -> only S' h h'.
Proof. intros HS [A1 A2 A3 A4]; split; [done..| |done]; intros; apply A3; [done|]; naive_solver. Qed.

Lemma only_upd (S : dref -> Z -> Prop) h r i f : four h -> 0 <= i < 4 -> S r i -> (forall c, mild c (f c)) -> only S h (upd h r (on_slot i f)).
Proof.
  intros H Hi HS Hf; split; [by apply four_upd|apply bare_upd| |].
  - intros q j Hj Hn; rewrite slot_upd by done; rewrite decide_False; [done|]; by intros [-> ->].
  - intros q j Hj; rewrite slot_upd by done; case_decide as E; [destruct E as [-> ->]; apply Hf|split; auto].
Qed.

Lemma bare_type (x y : desc) : bare x = bare y -> allocation_type x = allocation_type y.
Proof. by intros [= ]. Qed.

(** *** Pools *)

(** The links of a descriptor on a pool, and the number of its pool. *)
Definition links (c : claimer_t) : option (option dref * option dref) :=
  match as_desc (cl_next c), as_desc (owner c) with Some p, Some n => Some (p, n) | _, _ => None end.
Definition plk (h : gmap (Z * Z) desc) (r : dref) := links (slot h r 0).
Definition pid (h : gmap (Z * Z) desc) (r : dref) : option Z := as_num (cl_prev (slot h r 0)).

Definition kind (j : nat) : allocation_type_t := match j with 2%nat => tomb_node | _ => open_node end.

Record pools (h : gmap (Z * Z) desc) (hs : list (option dref)) (P : list (list dref)) : Prop := mk_pools {
  pl_heads : hs = map head P; pl_three : List.length P = 3%nat;
  pl_nodup : forall j l, P !! j = Some l -> NoDup l;
  pl_seg : forall j l, P !! j = Some l -> dseg (plk h) None l None;
  pl_node : forall j l r, P !! j = Some l -> r ∈ l -> pid h r = Some (Z.of_nat j + 1) /\ allocation_type (at_ h r) = kind j }.

Lemma links_inv c p n : links c = Some (p, n) -> as_desc (cl_next c) = Some p /\ as_desc (owner c) = Some n.
Proof. unfold links; destruct (as_desc (cl_next c)), (as_desc (owner c)); naive_solver. Qed.

Lemma as_desc_of x : as_desc (of_desc x) = Some x.
Proof. by destruct x. Qed.

(** The assignments to the links. *)
Definition nxt h (p : option dref) (x : option dref) := match p with Some q => upd h q (on_slot 0 (set_owner (of_desc x))) | None => h end.
Definition prv h (n : option dref) (x : option dref) := match n with Some q => upd h q (on_slot 0 (set_next (of_desc x))) | None => h end.
Definition pin h (r : dref) (i : Z) := upd h r (on_slot 0 (set_cprev (Num i))).

Lemma slot_nxt h p x q i : four h -> 0 <= i < 4 -> slot (nxt h p x) q i = if decide (p = Some q /\ i = 0) then set_owner (of_desc x) (slot h q 0) else slot h q i.
Proof.
  intros H Hi; destruct p as [r|]; cbn; [rewrite slot_upd by (done || lia)|by rewrite decide_False by naive_solver].
  destruct (decide (q = r /\ i = 0)) as [[-> ->]|Hn]; [by rewrite decide_True|by rewrite decide_False by naive_solver].
Qed.

Lemma slot_prv h p x q i : four h -> 0 <= i < 4 -> slot (prv h p x) q i = if decide (p = Some q /\ i = 0) then set_next (of_desc x) (slot h q 0) else slot h q i.
Proof.
  intros H Hi; destruct p as [r|]; cbn; [rewrite slot_upd by (done || lia)|by rewrite decide_False by naive_solver].
  destruct (decide (q = r /\ i = 0)) as [[-> ->]|Hn]; [by rewrite decide_True|by rewrite decide_False by naive_solver].
Qed.

Lemma slot_pin h r x q i : four h -> 0 <= i < 4 -> slot (pin h r x) q i = if decide (r = q /\ i = 0) then set_cprev (Num x) (slot h q 0) else slot h q i.
Proof.
  intros H Hi; unfold pin; rewrite slot_upd by (done || lia).
  destruct (decide (q = r /\ i = 0)) as [[-> ->]|Hn]; [by rewrite decide_True|by rewrite decide_False by naive_solver].
Qed.

Lemma four_nxt h p x : four h -> four (nxt h p x).
Proof. destruct p; [apply four_upd|done]. Qed.
Lemma four_prv h p x : four h -> four (prv h p x).
Proof. destruct p; [apply four_upd|done]. Qed.
Lemma four_pin h r x : four h -> four (pin h r x).
Proof. apply four_upd. Qed.

Lemma only_nxt (S : dref -> Z -> Prop) h p x : four h -> (forall q, p = Some q -> S q 0) -> only S h (nxt h p x).
Proof. intros H HS; destruct p; [apply only_upd; [done|lia|auto|intros c; split; [done|right; by destruct x]]|by apply only_refl]. Qed.
Lemma only_prv (S : dref -> Z -> Prop) h p x : four h -> (forall q, p = Some q -> S q 0) -> only S h (prv h p x).
Proof. intros H HS; destruct p; [apply only_upd; [done|lia|auto|intros c; split; auto]|by apply only_refl]. Qed.
Lemma only_pin (S : dref -> Z -> Prop) h r x : four h -> S r 0 -> only S h (pin h r x).
Proof. intros H HS; apply only_upd; [done|lia|done|intros c; split; auto]. Qed.

Hint Resolve four_nxt four_prv four_pin : core.

Lemma chain_next_run r n (d : dir W R) : four (heap d) -> as_desc (owner (slot (heap d) r 0)) = Some n -> chain_next r d = Some (n, d).
Proof. intros H E; unfold chain_next; eapply bind_run; [by apply claim_at_run|]; by apply lift_run. Qed.
Lemma chain_prev_run r n (d : dir W R) : four (heap d) -> as_desc (cl_next (slot (heap d) r 0)) = Some n -> chain_prev r d = Some (n, d).
Proof. intros H E; unfold chain_prev; eapply bind_run; [by apply claim_at_run|]; by apply lift_run. Qed.
Lemma pool_id_run r i (d : dir W R) : four (heap d) -> pid (heap d) r = Some i -> pool_id r d = Some (i, d).
Proof. intros H E; unfold pool_id; eapply bind_run; [by apply claim_at_run|]; by apply lift_run. Qed.
Lemma put_next_run q x (d : dir W R) : four (heap d) -> put_chain_next q x d = Some (tt, set_heap (nxt (heap d) (Some q) x) d).
Proof. intros H; by apply put_claim_run. Qed.
Lemma put_prev_run q x (d : dir W R) : four (heap d) -> put_chain_prev q x d = Some (tt, set_heap (prv (heap d) (Some q) x) d).
Proof. intros H; by apply put_claim_run. Qed.
Lemma put_id_run q x (d : dir W R) : four (heap d) -> put_pool_id q x d = Some (tt, set_heap (pin (heap d) q x) d).
Proof. intros H; by apply put_claim_run. Qed.

End Run.

#[export] Hint Resolve four_nxt four_prv four_pin : core.

Section Pools.

Context {W R : Type}.

Implicit Types (h : gmap (Z * Z) (vpage_range_desc_t R)) (d : dir W R) (P : list (list dref)).

Lemma set_heap_id (d : dir W R) : set_heap (heap d) d = d.
Proof. by destruct d. Qed.
Lemma set_pools_id (d : dir W R) : set_pools (pool_heads d) d = d.
Proof. by destruct d. Qed.

Lemma pool_put_run (j : nat) x (d : dir W R) : (j < List.length (pool_heads d))%nat -> pool_put (Z.of_nat j) x d = Some (tt, set_pools (<[j := x]> (pool_heads d)) d).
Proof. intros Hj; unfold pool_put; do 2 (eapply bind_run; [first [done|apply lift_run, zput_is_Some; lia]|]); by rewrite Nat2Z.id. Qed.

(** The node before points to [x]. *)
Lemma prev_fixup_run r x p (j : nat) (d : dir W R) : four (heap d) -> (j < List.length (pool_heads d))%nat ->
  as_desc (cl_next (slot (heap d) r 0)) = Some p -> pid (heap d) r = Some (Z.of_nat j + 1) ->
  prev_fixup r x d = Some (tt, set_pools (match p with None => <[j := x]> (pool_heads d) | Some _ => pool_heads d end) (set_heap (nxt (heap d) p x) d)).
Proof.
  intros H Hj Hp Hi; unfold prev_fixup; eapply bind_run; [by apply chain_prev_run|]; destruct p as [q|].
  - rewrite put_next_run by done; by destruct d.
  - eapply bind_run; [by apply pool_id_run|]; replace (Z.of_nat j + 1 - 1) with (Z.of_nat j) by lia.
    rewrite pool_put_run by done; by destruct d.
Qed.

Lemma next_fixup_run r x n (d : dir W R) : four (heap d) -> as_desc (owner (slot (heap d) r 0)) = Some n ->
  next_fixup r x d = Some (tt, set_heap (prv (heap d) n x) d).
Proof.
  intros H Hn; unfold next_fixup; eapply bind_run; [by apply chain_next_run|]; destruct n as [q|]; [by apply put_prev_run|by destruct d].
Qed.

Lemma on_pool_kind (x : vpage_range_desc_t R) j : allocation_type x = kind j -> on_pool x = true.
Proof. unfold on_pool, is_type; intros ->; destruct j as [|[|[|]]]; done. Qed.

Lemma assert_pool_run r j (d : dir W R) : allocation_type (at_ (heap d) r) = kind j -> assert_pool r d = Some (tt, d).
Proof. intros E; unfold assert_pool; eapply bind_run; [done|]; by eapply assert_run, on_pool_kind. Qed.

Lemma plk_nxt h p a x u v : four h -> plk h x = Some (u, v) -> plk (nxt h p a) x = Some (u, if decide (p = Some x) then a else v).
Proof.
  intros H [E1 E2]%links_inv; unfold plk, links; rewrite slot_nxt by (done || lia); destruct (decide (p = Some x)).
  - rewrite decide_True by done; cbn [owner cl_next set_owner]; by rewrite E1, as_desc_of.
  - rewrite decide_False by naive_solver; by rewrite E1, E2.
Qed.

Lemma plk_prv h p a x u v : four h -> plk h x = Some (u, v) -> plk (prv h p a) x = Some (if decide (p = Some x) then a else u, v).
Proof.
  intros H [E1 E2]%links_inv; unfold plk, links; rewrite slot_prv by (done || lia); destruct (decide (p = Some x)).
  - rewrite decide_True by done; cbn [owner cl_next set_next]; by rewrite E2, as_desc_of.
  - rewrite decide_False by naive_solver; by rewrite E1, E2.
Qed.

Lemma plk_around h p a n b x u v : four h -> plk h x = Some (u, v) ->
  plk (prv (nxt h p a) n b) x = Some (if decide (n = Some x) then b else u, if decide (p = Some x) then a else v).
Proof. intros H E; apply plk_prv; [auto|by apply plk_nxt]. Qed.

Lemma plk_pin h r i x : four h -> plk (pin h r i) x = plk h x.
Proof. intros H; unfold plk, links; rewrite slot_pin by (done || lia); by destruct (decide _) as [[-> _]|]. Qed.

Lemma pid_nxt h p a x : four h -> pid (nxt h p a) x = pid h x.
Proof. intros H; unfold pid; rewrite slot_nxt by (done || lia); by destruct (decide _) as [[-> _]|]. Qed.
Lemma pid_prv h p a x : four h -> pid (prv h p a) x = pid h x.
Proof. intros H; unfold pid; rewrite slot_prv by (done || lia); by destruct (decide _) as [[-> _]|]. Qed.
Lemma pid_pin h r i x : four h -> pid (pin h r i) x = if decide (r = x) then Some i else pid h x.
Proof. intros H; unfold pid; rewrite slot_pin by (done || lia); destruct (decide (r = x)); [by rewrite decide_True|by rewrite decide_False by naive_solver]. Qed.

Hint Rewrite pid_nxt pid_prv pid_pin plk_pin using auto : pool.

(** Other descriptors do not matter. *)
Lemma pools_ext h h' hs P : (forall j l q, P !! j = Some l -> q ∈ l -> slot h' q 0 = slot h q 0 /\ allocation_type (at_ h' q) = allocation_type (at_ h q)) ->
  pools h hs P -> pools h' hs P.
Proof.
  intros Hf [H1 H2 H3 H4 H5]; split; [done..| |].
  - intros j l Hj; eapply dseg_ext; [|by eapply H4]; intros q Hq; unfold plk; by rewrite (proj1 (Hf j l q Hj Hq)).
  - intros j l q Hj Hq; destruct (Hf j l q Hj Hq) as [E1 E2]; unfold pid; rewrite E1, E2; by apply (H5 j l).
Qed.

(** List [j] becomes [l']; the nodes of the others stay. *)
Lemma pools_set h h' hs P j l l' : pools h hs P -> P !! j = Some l ->
  (forall k m q, P !! k = Some m -> k <> j -> q ∈ m -> slot h' q 0 = slot h q 0 /\ allocation_type (at_ h' q) = allocation_type (at_ h q)) ->
  NoDup l' -> dseg (plk h') None l' None -> (forall r, r ∈ l' -> pid h' r = Some (Z.of_nat j + 1) /\ allocation_type (at_ h' r) = kind j) ->
  pools h' (map head (<[j := l']> P)) (<[j := l']> P).
Proof.
  intros [Hh H3 Hn Hs Ho] Hl Hf Hn' Hs' Ho'; pose proof (lookup_lt_Some _ _ _ Hl) as Hlt.
  assert (Hne : forall k, ~ (j = k /\ (j < List.length P)%nat) -> k <> j) by naive_solver.
  split; [done|by rewrite length_insert|..]; intros k m; rewrite list_lookup_insert; case_decide as E.
  - naive_solver.
  - apply Hn.
  - naive_solver.
  - intros Hk; eapply dseg_ext; [|by eapply Hs]; intros q Hq; unfold plk; by rewrite (proj1 (Hf k m q Hk (Hne k E) Hq)).
  - intros q [= <-] Hq; destruct E as [<- _]; by apply Ho'.
  - intros q Hk Hq; destruct (Hf k m q Hk (Hne k E) Hq) as [F1 F2]; unfold pid; rewrite F1, F2; by apply (Ho k m).
Qed.

Lemma pools_update h h' hs P j l l' (S : list dref) : pools h hs P -> P !! j = Some l ->
  only (fun q i => i = 0 /\ q ∈ S) h h' -> (forall q, q ∈ S -> forall k m, P !! k = Some m -> q ∈ m -> k = j) ->
  NoDup l' -> dseg (plk h') None l' None -> (forall r, r ∈ l' -> pid h' r = Some (Z.of_nat j + 1) /\ allocation_type (at_ h r) = kind j) ->
  pools h' (map head (<[j := l']> P)) (<[j := l']> P).
Proof.
  intros Hp Hl [O1 O2 O3] HS Hn' Hs' Ho'; eapply pools_set; [done..| |done|done|].
  - intros k m q Hk Hne Hq; split; [apply O3; [lia|]; intros [_ Hin]; by apply Hne, (HS q Hin k m)|by apply bare_type].
  - intros q Hq; rewrite (bare_type _ _ (O2 q)); by apply Ho'.
Qed.

Lemma pools_unique h hs P j k l m q : pools h hs P -> P !! j = Some l -> P !! k = Some m -> q ∈ l -> q ∈ m -> k = j.
Proof. intros Hp Hj Hk Hl Hm; destruct (pl_node _ _ _ Hp _ _ _ Hj Hl), (pl_node _ _ _ Hp _ _ _ Hk Hm); simplify_eq; lia. Qed.

Lemma last_or_elem {K} (l : list K) x : last_or l None = Some x -> x ∈ l.
Proof. unfold last_or; destruct (last l) eqn:E; [|done]; intros [= <-]; by apply last_Some_elem_of. Qed.
Lemma hd_or_elem {K} (l : list K) x : hd_or l None = Some x -> x ∈ l.
Proof. destruct l; [done|]; intros [= <-]; left. Qed.
Lemma last_or_none {K} (l : list K) : last_or l None = None -> l = [].
Proof. unfold last_or; destruct (last l) eqn:E; [done|]; intros _; by apply last_None in E. Qed.
Lemma last_or_last {K} (l : list K) : last_or l None = last l.
Proof. unfold last_or; by destruct (last l). Qed.
Lemma hd_or_head {K} (l : list K) : hd_or l None = head l.
Proof. by destruct l. Qed.

Lemma last_cons_or {K} (a : K) l : exists z, last_or (a :: l) None = Some z.
Proof. unfold last_or; destruct (last (a :: l)) eqn:E; eauto; by apply last_None in E. Qed.

Lemma heads_insert (P : list (list dref)) j l : map head (<[j := l]> P) = <[j := head l]> (map head P).
Proof. apply list_fmap_insert. Qed.

(** *** Removing *)

Lemma remove_run d P j l1 r l2 : four (heap d) -> pools (heap d) (pool_heads d) P -> P !! j = Some (l1 ++ r :: l2) ->
  exists h', remove_from_pool r d = Some (tt, set_pools (map head (<[j := l1 ++ l2]> P)) (set_heap h' d)) /\
    pools h' (map head (<[j := l1 ++ l2]> P)) (<[j := l1 ++ l2]> P) /\
    only (fun q i => i = 0 /\ q ∈ l1 ++ r :: l2) (heap d) h' /\ pid h' r = Some 0.
Proof.
  intros H4 Hp Hj; pose proof (pl_seg _ _ _ Hp _ _ Hj) as Hd; pose proof (pl_nodup _ _ _ Hp _ _ Hj) as Hnd.
  destruct (pl_node _ _ _ Hp _ _ r Hj) as [Hi Ht]; [set_solver|].
  destruct (links_inv _ _ _ (dseg_mid _ _ _ _ _ _ Hd)) as [Hpv Hnx].
  assert (Hlt : (j < List.length (pool_heads d))%nat) by (rewrite (pl_heads _ _ _ Hp), length_map; by eapply lookup_lt_Some).
  remember (last_or l1 None) as p eqn:Ep; remember (hd_or l2 None) as n eqn:En.
  assert (Hpr : p <> Some r) by (rewrite Ep; intros E%last_or_elem; apply NoDup_app in Hnd as (_ & Hx & _); apply (Hx r E); left).
  assert (Hnr : n <> Some r) by (rewrite En; intros E%hd_or_elem; apply NoDup_app in Hnd as (_ & _ & [Hx _]%NoDup_cons); done).
  set (h1 := nxt (heap d) p n); set (h2 := prv h1 n p); set (h3 := pin h2 r 0).
  assert (S1 : slot h1 r 0 = slot (heap d) r 0) by (unfold h1; rewrite slot_nxt by (done || lia); by rewrite decide_False by naive_solver).
  assert (Ho : only (fun q i => i = 0 /\ q ∈ l1 ++ r :: l2) (heap d) h3).
  { assert (forall q, p = Some q \/ n = Some q -> q ∈ l1 ++ r :: l2) by (rewrite Ep, En; intros q [E%last_or_elem|E%hd_or_elem]; set_solver).
    eapply only_trans; [eapply only_trans; [apply only_nxt|apply only_prv]|apply only_pin]; unfold h2, h1; auto; set_solver. }
  exists h3; split_and!.
  - unfold remove_from_pool; eapply bind_run; [by eapply assert_pool_run|]; eapply bind_run; [by apply pool_id_run|].
    eapply bind_run; [apply assert_run; by rewrite (proj2 (Z.eqb_neq _ _)) by lia|].
    eapply bind_run; [by apply chain_next_run|]; eapply bind_run; [by eapply prev_fixup_run|].
    eapply bind_run; [apply (chain_prev_run r p); [by apply four_nxt|]; change (as_desc (cl_next (slot h1 r 0)) = Some p); by rewrite S1|].
    eapply bind_run; [apply (next_fixup_run r p n); [by apply four_nxt|]; change (as_desc (owner (slot h1 r 0)) = Some n); by rewrite S1|].
    rewrite put_id_run by (cbn; auto); cbn; fold h1 h2 h3; do 2 f_equal; unfold set_heap, set_pools; cbn; f_equal.
    rewrite heads_insert, <- (pl_heads _ _ _ Hp); destruct l1 as [|a l1]; [cbn; rewrite Ep, En; cbn; by rewrite <- hd_or_head|].
    destruct (last_cons_or a l1) as [z Hz]; rewrite Ep, Hz; cbn; symmetry; apply list_insert_id.
    by rewrite (pl_heads _ _ _ Hp), list_lookup_fmap, Hj.
  - eapply pools_update; [done|done|exact Ho|intros q Hq k m Hk Hm; by eapply pools_unique|..].
    + apply NoDup_app in Hnd as (Hn1 & Hn2 & [_ Hn3]%NoDup_cons); apply NoDup_app; set_solver.
    + change (l1 ++ l2) with (l1 ++ [] ++ l2); eapply dseg_splice with (m := [r]); [done|exact Hd|..]; [| |done].
      * intros x u v Hx Hl; unfold h3, h2, h1; autorewrite with pool; rewrite (plk_around _ _ _ _ _ _ _ _ H4 Hl).
        rewrite decide_False by (rewrite En; intros E%hd_or_elem; apply NoDup_app in Hnd as (_ & Hy & _); apply (Hy x Hx); set_solver).
        by rewrite Ep, last_or_last, En.
      * intros x u v Hx Hl; unfold h3, h2, h1; autorewrite with pool; rewrite (plk_around _ _ _ _ _ _ _ _ H4 Hl).
        rewrite (decide_False (P := p = Some x)) by (rewrite Ep; intros E%last_or_elem; apply NoDup_app in Hnd as (_ & Hy & _); apply (Hy x E); set_solver).
        by rewrite En, hd_or_head, Ep.
    + intros x Hx; unfold h3, h2, h1; autorewrite with pool; rewrite decide_False; [apply (pl_node _ _ _ Hp _ _ x Hj); set_solver|].
      intros <-; apply NoDup_app in Hnd as (_ & Hy & [Hz _]%NoDup_cons); apply elem_of_app in Hx as [Hx|Hx]; [apply (Hy r Hx); left|done].
  - done.
  - unfold h3, h2, h1; autorewrite with pool; by rewrite decide_True.
Qed.

(** *** Adding *)

Lemma plk_fresh h r a b : four h -> plk (prv (nxt h (Some r) a) (Some r) b) r = Some (b, a).
Proof.
  intros H; unfold plk, links; rewrite slot_prv, decide_True by (auto; lia); cbn [owner cl_next set_next].
  rewrite slot_nxt, decide_True by (auto; lia); cbn [owner set_owner]; by rewrite !as_desc_of.
Qed.

Lemma pool_get_run d P j l : pool_heads d = map head P -> P !! j = Some l -> pool_get (Z.of_nat j) d = Some (head l, d).
Proof.
  intros Hp Hj; unfold pool_get; eapply bind_run; [done|]; apply lift_run; rewrite Hp; unfold zget.
  rewrite (proj2 (Z.leb_le 0 _)), Nat2Z.id by lia; by rewrite list_lookup_fmap, Hj.
Qed.

Definition off_pools P (r : dref) : Prop := forall j l, P !! j = Some l -> r ∉ l.

Lemma add_pool_run d P j l r : four (heap d) -> pools (heap d) (pool_heads d) P -> P !! j = Some l -> off_pools P r ->
  allocation_type (at_ (heap d) r) = kind j ->
  exists h', add_to_pool r (Z.of_nat j) d = Some (tt, set_pools (map head (<[j := r :: l]> P)) (set_heap h' d)) /\
    pools h' (map head (<[j := r :: l]> P)) (<[j := r :: l]> P) /\ only (fun q i => i = 0 /\ q ∈ r :: l) (heap d) h'.
Proof.
  intros H4 Hp Hj Hr Ht; pose proof (pl_seg _ _ _ Hp _ _ Hj) as Hd; pose proof (pl_nodup _ _ _ Hp _ _ Hj) as Hnd.
  assert (Hlt : (j < List.length (pool_heads d))%nat) by (rewrite (pl_heads _ _ _ Hp), length_map; by eapply lookup_lt_Some).
  remember (head l) as n eqn:En; assert (Hnr : n <> Some r) by (rewrite En, <- hd_or_head; intros E%hd_or_elem; by apply (Hr j l)).
  set (h2 := prv (nxt (heap d) (Some r) n) (Some r) None); set (h4 := pin (prv h2 n (Some r)) r (Z.of_nat j + 1)).
  assert (H42 : four h2) by (unfold h2; auto).
  assert (Ho : only (fun q i => i = 0 /\ q ∈ r :: l) (heap d) h4).
  { assert (forall q, n = Some q -> q ∈ l) by (rewrite En, <- hd_or_head; intros q; apply hd_or_elem).
    eapply only_trans; [eapply only_trans; [eapply only_trans; [apply only_nxt|apply only_prv]|apply only_prv]|apply only_pin]; unfold h2; auto; set_solver. }
  exists h4; split_and!; [..|done].
  - unfold add_to_pool; eapply bind_run; [by eapply assert_pool_run|]; eapply bind_run; [eapply pool_get_run; [exact (pl_heads _ _ _ Hp)|done]|]; rewrite <- En.
    eapply bind_run; [by apply put_next_run|]; eapply bind_run; [apply put_prev_run; by apply four_nxt|].
    eapply bind_run; [eapply (pool_get_run (set_heap h2 d)); [exact (pl_heads _ _ _ Hp)|done]|]; rewrite <- En.
    eapply bind_run; [instantiate (1 := set_heap (prv h2 n (Some r)) d); instantiate (1 := tt); destruct n as [q|]; [exact (put_prev_run q (Some r) (set_heap h2 d) H42)|by destruct d]|].
    eapply bind_run; [apply put_id_run; cbn; auto|]; rewrite pool_put_run by done.
    by rewrite heads_insert, <- (pl_heads _ _ _ Hp).
  - eapply pools_update; [done|done|exact Ho| |by apply NoDup_cons; split; [apply (Hr j)|]|..].
    + intros q [->|Hq]%elem_of_cons k m Hk Hm; [by destruct (Hr k m Hk)|by eapply pools_unique].
    + change (r :: l) with ([] ++ [r] ++ l); eapply dseg_splice with (m := []) (lk := plk (heap d)); [done|exact Hd|set_solver| |].
      * intros x u v Hx Hl; unfold h4, h2; autorewrite with pool; erewrite plk_prv by (auto; apply plk_around; eauto).
        assert (r <> x) by (intros ->; by apply (Hr j l)).
        rewrite (decide_False (P := Some r = Some x)) by congruence; cbn; by rewrite En, !(decide_False (P := Some r = Some x)) by congruence.
      * cbn; split; [|done]; unfold h4, h2; autorewrite with pool; erewrite plk_prv by (auto; by apply plk_fresh).
        rewrite decide_False by congruence; by rewrite hd_or_head, En.
    + intros x Hx; unfold h4, h2; autorewrite with pool; destruct (decide (r = x)) as [<-|]; [done|].
      apply (pl_node _ _ _ Hp _ _ x Hj); set_solver.
Qed.

Lemma add_after_run d P j l1 p l2 r : four (heap d) -> pools (heap d) (pool_heads d) P -> P !! j = Some (l1 ++ p :: l2) -> off_pools P r ->
  allocation_type (at_ (heap d) r) = kind j ->
  exists h', add_after_desc p r d = Some (tt, set_pools (map head (<[j := l1 ++ p :: r :: l2]> P)) (set_heap h' d)) /\
    pools h' (map head (<[j := l1 ++ p :: r :: l2]> P)) (<[j := l1 ++ p :: r :: l2]> P) /\ only (fun q i => i = 0 /\ q ∈ l1 ++ p :: r :: l2) (heap d) h'.
Proof.
  intros H4 Hp Hj Hr Ht; pose proof (pl_seg _ _ _ Hp _ _ Hj) as Hd; pose proof (pl_nodup _ _ _ Hp _ _ Hj) as Hnd.
  assert (Hrn : forall x, x ∈ l1 ++ p :: l2 -> x <> r) by (intros x Hx ->; by apply (Hr j _ Hj)).
  assert (Hpr : p <> r) by (apply Hrn; set_solver).
  destruct (pl_node _ _ _ Hp _ _ p Hj) as [Hi Htp]; [set_solver|]; destruct (links_inv _ _ _ (dseg_mid _ _ _ _ _ _ Hd)) as [Hpv Hnx].
  remember (hd_or l2 None) as n eqn:En; assert (Hn2 : forall q, n = Some q -> q ∈ l2) by (rewrite En; intros q; apply hd_or_elem).
  assert (Hnr : n <> Some r) by (intros E%Hn2; by apply (Hrn r); [set_solver|]).
  set (h1 := pin (heap d) r (Z.of_nat j + 1)); set (h3 := prv (nxt h1 (Some r) n) (Some r) (Some p)).
  assert (F1 : four h1) by (unfold h1; auto); assert (F3 : four h3) by (unfold h3; auto).
  assert (Ho : only (fun q i => i = 0 /\ q ∈ l1 ++ p :: r :: l2) (heap d) (prv (nxt h3 (Some p) (Some r)) n (Some r))).
  { eapply only_trans; [eapply only_trans; [eapply only_trans; [eapply only_trans; [apply only_pin|apply only_nxt]|apply only_prv]|apply only_nxt]|apply only_prv];
      unfold h3, h1; auto; set_solver. }
  assert (Hpos : pid h1 p = Some (Z.of_nat j + 1) /\ slot h1 p 0 = slot (heap d) p 0)
    by (unfold h1; split; [autorewrite with pool; by rewrite decide_False by done|rewrite slot_pin by (done || lia); by rewrite decide_False by naive_solver]).
  assert (Sr : slot (nxt h3 (Some p) (Some r)) r 0 = slot h3 r 0) by (rewrite slot_nxt by (done || lia); by rewrite decide_False by naive_solver).
  eexists; split_and!; [..|exact Ho].
  - unfold add_after_desc; eapply bind_run; [by eapply assert_pool_run|]; eapply bind_run; [by eapply assert_pool_run|].
    eapply bind_run; [by apply pool_id_run|]; eapply bind_run; [apply assert_run; by rewrite (proj2 (Z.eqb_neq _ _)) by lia|].
    eapply bind_run; [by apply put_id_run|]; eapply bind_run; [apply (chain_next_run p n (set_heap h1 d)); [done|]; change (as_desc (owner (slot h1 p 0)) = Some n); by rewrite (proj2 Hpos)|].
    eapply bind_run; [by apply (put_next_run r n (set_heap h1 d))|].
    eapply bind_run; [apply (put_prev_run r (Some p) (set_heap (nxt h1 (Some r) n) d)); exact (four_nxt _ _ _ F1)|].
    eapply bind_run; [by apply (put_next_run p (Some r) (set_heap h3 d))|].
    rewrite (next_fixup_run r (Some r) n); [|exact (four_nxt _ _ _ F3)|].
    + cbn; do 2 f_equal; unfold set_heap, set_pools; cbn; f_equal.
      rewrite heads_insert, <- (pl_heads _ _ _ Hp); symmetry; apply list_insert_id; rewrite (pl_heads _ _ _ Hp), list_lookup_fmap, Hj; by destruct l1.
    + change (as_desc (owner (slot (nxt h3 (Some p) (Some r)) r 0)) = Some n); rewrite Sr; unfold h3.
      eapply links_inv; apply (plk_fresh h1 r n (Some p) F1).
  - eapply pools_update; [done|done|exact Ho| |..].
    + intros q Hq k m Hk Hm; destruct (decide (q = r)) as [->|]; [by destruct (Hr k m Hk)|eapply (pools_unique _ _ P j k); [done|done|done| |done]; set_solver].
    + assert (r ∉ l1 ++ p :: l2) by (intros E; by apply (Hrn r)); apply NoDup_app in Hnd as (Ha & Hb & [Hc He]%NoDup_cons).
      apply NoDup_app; split_and!; [done|set_solver|apply NoDup_cons; split; [set_solver|apply NoDup_cons; set_solver]].
    + replace (l1 ++ p :: r :: l2) with ((l1 ++ [p]) ++ [r] ++ l2) by (by rewrite <- app_assoc).
      assert (Hnd' := Hnd); apply NoDup_app in Hnd' as (Ha & Hb & [Hc He]%NoDup_cons).
      eapply dseg_splice with (m := []) (lk := plk (heap d)); [by rewrite <- app_assoc|by rewrite <- app_assoc| | |].
      * intros x u v Hx Hl; rewrite (plk_around h3 _ _ _ _ x u v); [|done|].
        -- rewrite (decide_False (P := n = Some x)) by (intros E%Hn2; apply elem_of_app in Hx as [Hx| ->%list_elem_of_singleton]; set_solver).
           by rewrite last_snoc.
        -- unfold h3; rewrite (plk_around h1 _ _ _ _ x u v); [|done|unfold h1; by autorewrite with pool].
           by rewrite !decide_False by (intros [= ->]; apply (Hrn x); set_solver).
      * intros x u v Hx Hl; rewrite (plk_around h3 _ _ _ _ x u v); [|done|].
        -- rewrite (decide_False (P := Some p = Some x)) by (intros [= ->]; done); cbn; by rewrite En, hd_or_head.
        -- unfold h3; rewrite (plk_around h1 _ _ _ _ x u v); [|done|unfold h1; by autorewrite with pool].
           by rewrite !decide_False by (intros [= ->]; apply (Hrn x); set_solver).
      * split; [|done]; rewrite (plk_around h3 _ _ _ _ r (Some p) n); [|done|unfold h3; by apply plk_fresh].
        rewrite !decide_False by (done || congruence); unfold last_or; by rewrite last_snoc, En.
    + intros x Hx; unfold h3, h1; autorewrite with pool; destruct (decide (r = x)) as [<-|]; [done|].
      apply (pl_node _ _ _ Hp _ _ x Hj); set_solver.
Qed.

(** *** Moving *)

(** The node [r] has been copied to [s]; the node before it and the one after
    it still point to [r]. *)
Lemma fixup_run d h P j l1 r l2 s : four (heap d) -> pools h (pool_heads d) P -> P !! j = Some (l1 ++ r :: l2) -> off_pools P s ->
  (forall q, q <> r -> q <> s -> slot (heap d) q 0 = slot h q 0 /\ allocation_type (at_ (heap d) q) = allocation_type (at_ h q)) ->
  slot (heap d) s 0 = slot h r 0 -> allocation_type (at_ (heap d) s) = kind j ->
  exists h', fixup_desc_chain s d = Some (tt, set_pools (map head (<[j := l1 ++ s :: l2]> P)) (set_heap h' d)) /\
    pools h' (map head (<[j := l1 ++ s :: l2]> P)) (<[j := l1 ++ s :: l2]> P) /\ only (fun q i => i = 0 /\ q ∈ l1 ++ l2) (heap d) h'.
Proof.
  intros H4 Hp Hj Hs Hq Hsr Ht; pose proof (pl_seg _ _ _ Hp _ _ Hj) as Hd; pose proof (pl_nodup _ _ _ Hp _ _ Hj) as Hnd.
  assert (Hsn : forall x, x ∈ l1 ++ r :: l2 -> x <> s) by (intros x Hx ->; by apply (Hs j _ Hj)).
  destruct (pl_node _ _ _ Hp _ _ r Hj) as [Hi Htp]; [set_solver|]; pose proof (dseg_mid _ _ _ _ _ _ Hd) as Hlr; destruct (links_inv _ _ _ Hlr) as [Hpv Hnx].
  remember (hd_or l2 None) as n eqn:En; assert (Hn2 : forall q, n = Some q -> q ∈ l2) by (rewrite En; intros q; apply hd_or_elem).
  remember (last_or l1 None) as p eqn:Ep; assert (Hp1 : forall q, p = Some q -> q ∈ l1) by (rewrite Ep; intros q; apply last_or_elem).
  assert (Hlt : (j < List.length (pool_heads d))%nat) by (rewrite (pl_heads _ _ _ Hp), length_map; by eapply lookup_lt_Some).
  assert (Sp : slot (nxt (heap d) p (Some s)) s 0 = slot (heap d) s 0)
    by (rewrite slot_nxt by (done || lia); rewrite decide_False; [done|]; intros [E%Hp1 _]; apply (Hsn s); [set_solver|done]).
  set (h' := prv (nxt (heap d) p (Some s)) n (Some s)).
  assert (Ho : only (fun q i => i = 0 /\ q ∈ l1 ++ l2) (heap d) h') by (eapply only_trans; [apply only_nxt|apply only_prv]; auto; set_solver).
  assert (Hx : forall x u v, x ∈ l1 ++ l2 -> plk h x = Some (u, v) -> plk (heap d) x = Some (u, v)).
  { intros x u v Hx E; unfold plk; rewrite (proj1 (Hq x ltac:(intros ->; apply NoDup_app in Hnd as (_ & ? & [? _]%NoDup_cons); set_solver) ltac:(apply Hsn; set_solver))); done. }
  exists h'; split_and!; [..|done].
  - unfold fixup_desc_chain; eapply bind_run; [by eapply assert_pool_run|]; eapply bind_run; [apply pool_id_run; [done|]; unfold pid; rewrite Hsr; exact Hi|].
    rewrite (proj2 (Z.eqb_neq _ _)) by lia; eapply bind_run; [eapply (prev_fixup_run s (Some s) p j); [done|done|by rewrite Hsr|unfold pid; by rewrite Hsr]|].
    rewrite (next_fixup_run s (Some s) n); [|cbn; auto|change (as_desc (owner (slot (nxt (heap d) p (Some s)) s 0)) = Some n); by rewrite Sp, Hsr].
    unfold h'; do 2 f_equal; unfold set_heap, set_pools; cbn; f_equal; rewrite heads_insert, <- (pl_heads _ _ _ Hp).
    destruct l1 as [|a l1]; [by rewrite Ep|]; destruct (last_cons_or a l1) as [z Hz]; rewrite Ep, Hz; cbn; symmetry; apply list_insert_id.
    by rewrite (pl_heads _ _ _ Hp), list_lookup_fmap, Hj.
  - assert (Hnd' := Hnd); apply NoDup_app in Hnd' as (Ha & Hb & [Hc He]%NoDup_cons); eapply pools_set; [done|done| |..].
    + intros k m q Hk Hne Hm; assert (q <> r) by (intros ->; apply Hne; eapply (pools_unique _ _ P j k _ _ r); [done|exact Hj|exact Hk|set_solver|done]).
      assert (q <> s) by (intros ->; by apply (Hs k m)); destruct (Hq q) as [<- <-]; [done|done|]; split; [|by apply bare_type, on_bare with (1 := Ho)].
      apply (on_slots _ _ _ Ho); [lia|]; intros [_ Hin]; apply Hne; eapply (pools_unique _ _ P j k _ _ q); [done|exact Hj|exact Hk|set_solver|done].
    + apply NoDup_app; split_and!; [done|set_solver|apply NoDup_cons; split; [|done]; intros E; apply (Hsn s); set_solver].
    + change (l1 ++ s :: l2) with (l1 ++ [s] ++ l2); eapply dseg_splice with (m := [r]) (lk := plk h); [done|done| | |].
      * intros x u v Hx1 Hl; unfold h'; rewrite (plk_around _ _ _ _ _ x u v H4) by (apply Hx; [set_solver|done]).
        rewrite (decide_False (P := n = Some x)) by (intros E%Hn2; set_solver); by rewrite Ep, last_or_last.
      * intros x u v Hx1 Hl; unfold h'; rewrite (plk_around _ _ _ _ _ x u v H4) by (apply Hx; [set_solver|done]).
        rewrite (decide_False (P := p = Some x)) by (intros E%Hp1; set_solver); cbn; by rewrite En, hd_or_head.
      * split; [|done]; cbn [hd_or]; rewrite <- Ep, <- En; unfold h'; rewrite (plk_around _ _ _ _ _ s p n H4) by (unfold plk; by rewrite Hsr).
        rewrite !decide_False; [done|intros E%Hp1; apply (Hsn s); set_solver|intros E%Hn2; apply (Hsn s); set_solver].
    + intros x Hx1; rewrite (bare_type _ _ (on_bare _ _ _ Ho x)); unfold h'; autorewrite with pool.
      destruct (decide (x = s)) as [->|Hxs]; [split; [unfold pid; by rewrite Hsr|done]|].
      assert (Hin : x ∈ l1 ++ r :: l2) by set_solver; assert (x <> r) by (intros ->; set_solver).
      destruct (pl_node _ _ _ Hp _ _ x Hj Hin), (Hq x) as [F1 F2]; [done..|]; unfold pid; rewrite F1; split; [done|]; by rewrite F2.
Qed.

End Pools.
