(* ===== verification/MmapClaims.v ===== *)
(** * The claims of the directory

    The claims of a mop are a doubly linked list through the slots of the
    ranges it claims.  [claim_node] puts a claim at its end, [release_claim]
    takes one out, [fixup_claims] mends the lists when a descriptor has moved,
    and [transfer_claims] gives the new part of a split range the claims of the
    old. *)

From S2P Require Import Prelude Pmem PageTable Vmem Mmap MmapList.

Definition clinks (c : claimer_t) : option (option claimer_link_t * option claimer_link_t) :=
  match as_link (cl_prev c), as_link (cl_next c) with Some p, Some n => Some (p, n) | _, _ => None end.
Definition clk (S : dref -> Z -> claimer_t) (x : claimer_link_t) := clinks (S x.1 x.2).

(** [S] gives the slots; [C] the claims of each mop, in their order. *)
Record claims (S : dref -> Z -> claimer_t) (ms : gmap Z mop_internal_t) (C : gmap Z (list claimer_link_t)) : Prop := mk_claims {
  cm_mops : forall m, match ms !! m, C !! m with Some o, Some l => mop_first o = head l /\ mop_last o = last l | None, None => True | _, _ => False end;
  cm_nodup : forall m l, C !! m = Some l -> NoDup l;
  cm_seg : forall m l, C !! m = Some l -> dseg (clk S) None l None;
  cm_node : forall m l x, C !! m = Some l -> x ∈ l -> 0 <= x.2 < 4 /\ owner (S x.1 x.2) = Mop m;
  cm_all : forall m r i, 0 <= i < 4 -> owner (S r i) = Mop m -> exists l, C !! m = Some l /\ (r, i) ∈ l;
  cm_one : forall m r i j, 0 <= i < 4 -> 0 <= j < 4 -> owner (S r i) = Mop m -> owner (S r j) = Mop m -> i = j }.

Lemma clinks_inv c p n : clinks c = Some (p, n) -> as_link (cl_prev c) = Some p /\ as_link (cl_next c) = Some n.
Proof. unfold clinks; destruct (as_link (cl_prev c)), (as_link (cl_next c)); naive_solver. Qed.

Lemma as_link_of x : as_link (of_link x) = Some x.
Proof. by destruct x. Qed.

(** The claims of mop [m] become [l']; the slots of the others stay. *)
Lemma claims_set S S' ms C m l l' o' : claims S ms C -> C !! m = Some l ->
  (forall q i k, k <> m -> 0 <= i < 4 -> owner (S q i) = Mop k \/ owner (S' q i) = Mop k -> S' q i = S q i) ->
  NoDup l' -> dseg (clk S') None l' None -> (forall q i, (q, i) ∈ l' <-> 0 <= i < 4 /\ owner (S' q i) = Mop m) ->
  mop_first o' = head l' -> mop_last o' = last l' ->
  (forall r i j, 0 <= i < 4 -> 0 <= j < 4 -> owner (S' r i) = Mop m -> owner (S' r j) = Mop m -> i = j) ->
  claims S' (<[m := o']> ms) (<[m := l']> C).
Proof.
  intros [H1 H2 H3 H4 H5 H6] Hm Hf Hn Hs Hx Ho1 Ho2 Hone; split.
  - intros k; destruct (decide (k = m)) as [->|]; [by rewrite !lookup_insert_eq|rewrite !lookup_insert_ne by done; apply H1].
  - intros k y; destruct (decide (k = m)) as [->|]; [rewrite lookup_insert_eq; naive_solver|rewrite lookup_insert_ne by done; apply H2].
  - intros k y; destruct (decide (k = m)) as [->|]; [rewrite lookup_insert_eq; naive_solver|rewrite lookup_insert_ne by done].
    intros Hk; eapply dseg_ext; [|by eapply H3]; intros [q i] Hq; destruct (H4 _ _ _ Hk Hq) as [Hi Hw]; unfold clk; cbn in *; by rewrite (Hf q i k) by auto.
  - intros k y [q i]; destruct (decide (k = m)) as [->|]; [rewrite lookup_insert_eq; intros [= <-]; by rewrite Hx|rewrite lookup_insert_ne by done].
    intros Hk Hq; destruct (H4 _ _ _ Hk Hq) as [Hi Hw]; cbn in *; split; [done|]; by rewrite (Hf q i k) by auto.
  - intros k q i Hi; destruct (decide (k = m)) as [->|]; [intros Hw; exists l'; rewrite lookup_insert_eq; split; [done|]; by apply Hx|].
    intros Hw; rewrite lookup_insert_ne by done; apply H5; [done|]; by rewrite <- (Hf q i k) by auto.
  - intros k q i j Hi Hj; destruct (decide (k = m)) as [->|]; [apply Hone; done|].
    intros Hw Hw'; apply (H6 k q); [done..| |]; [by rewrite <- (Hf q i k) by auto|by rewrite <- (Hf q j k) by auto].
Qed.

(** Slots that no mop owns, before or after, do not matter. *)
Lemma claims_ext S S' ms C : (forall q i k, 0 <= i < 4 -> owner (S q i) = Mop k \/ owner (S' q i) = Mop k -> S' q i = S q i) -> claims S ms C -> claims S' ms C.
Proof.
  intros Hf [H1 H2 H3 H4 H5 H6]; split; [done|done|..].
  - intros k y Hk; eapply dseg_ext; [|by eapply H3]; intros [q i] Hq; destruct (H4 _ _ _ Hk Hq) as [Hi Hw]; unfold clk; cbn in *; by rewrite (Hf q i k) by auto.
  - intros k y [q i] Hk Hq; destruct (H4 _ _ _ Hk Hq) as [Hi Hw]; cbn in *; split; [done|]; by rewrite (Hf q i k) by auto.
  - intros k q i Hi Hw; apply H5; [done|]; by rewrite <- (Hf q i k) by auto.
  - intros k q i j Hi Hj Hw Hw'; apply (H6 k q); [done..| |]; [by rewrite <- (Hf q i k) by auto|by rewrite <- (Hf q j k) by auto].
Qed.

(** How often a claim is held is no part of the lists. *)
Lemma claims_n S S' ms C : (forall q i, 0 <= i < 4 -> set_n 0 (S' q i) = set_n 0 (S q i)) -> claims S ms C -> claims S' ms C.
Proof.
  intros E [H1 H2 H3 H4 H5 H6]; assert (Ho : forall q i, 0 <= i < 4 -> owner (S' q i) = owner (S q i)) by (intros q i Hi; specialize (E q i Hi); unfold set_n in E; by injection E).
  split; [done..| | | |].
  - intros m l Hl; eapply dseg_ext; [|by apply (H3 m)]; intros [q i] Hx; destruct (H4 m l _ Hl Hx) as [Hi _]; unfold clk, clinks; cbn; specialize (E q i Hi); unfold set_n in E; by injection E as _ -> ->.
  - intros m l [q i] Hl Hx; destruct (H4 m l _ Hl Hx) as [Hi Hw]; split; [done|]; cbn in *; by rewrite Ho.
  - intros m q i Hi; rewrite Ho by done; by apply H5.
  - intros m q i j Hi Hj; rewrite !Ho by done; by apply H6.
Qed.

Lemma claims_mop S ms C m l : claims S ms C -> C !! m = Some l -> exists o, ms !! m = Some o /\ mop_first o = head l /\ mop_last o = last l.
Proof. intros Hc Hl; pose proof (cm_mops _ _ _ Hc m) as H; rewrite Hl in H; destruct (ms !! m) as [o|]; [eauto|done]. Qed.

Lemma claims_list S ms C m o : claims S ms C -> ms !! m = Some o -> exists l, C !! m = Some l /\ mop_first o = head l /\ mop_last o = last l.
Proof. intros Hc Hl; pose proof (cm_mops _ _ _ Hc m) as H; rewrite Hl in H; destruct (C !! m) as [l|]; [eauto|done]. Qed.

Section Claims.

Context {W R : Type}.

Implicit Types (h : gmap (Z * Z) (vpage_range_desc_t R)) (d : dir W R).

Lemma mget_run m o d : mops d !! m = Some o -> mget m d = Some (o, d).
Proof. intros E; unfold mget; eapply bind_run; [done|]; by apply lift_run. Qed.

Lemma mput_run m o f d : mops d !! m = Some o -> mput m f d = Some (tt, set_mops (<[m := f o]> (mops d)) d).
Proof. intros E; unfold mput; eapply bind_run; [by apply mget_run|done]. Qed.

(** *** A claim joins *)

(** The slots when [(r, i)] has joined the claims of [m] after [p]. *)
Definition joined (S : dref -> Z -> claimer_t) (m : Z) (r : dref) (i times : Z) (p : option claimer_link_t) : dref -> Z -> claimer_t :=
  fun q j => if decide ((q, j) = (r, i)) then mk_claimer (Mop m) Null (of_link p) times
             else if decide (p = Some (q, j)) then set_next (Claim (r, i)) (S q j) else S q j.

Lemma joined_claims S ms C m l r i times o' : claims S ms C -> C !! m = Some l -> 0 <= i < 4 -> (forall k, owner (S r i) <> Mop k) ->
  (forall j, 0 <= j < 4 -> owner (S r j) <> Mop m) -> mop_first o' = head (l ++ [(r, i)]) -> mop_last o' = Some (r, i) ->
  claims (joined S m r i times (last l)) (<[m := o']> ms) (<[m := l ++ [(r, i)]]> C).
Proof.
  intros Hc Hm Hi Hno Hnm Ho1 Ho2; pose proof (cm_node _ _ _ Hc m l) as Hnode; pose proof (cm_nodup _ _ _ Hc m l Hm) as Hnd.
  assert (Hni : (r, i) ∉ l) by (intros E; destruct (Hnode _ Hm E) as [_ E']; by apply (Hno m)).
  assert (Hl : forall q j, last l = Some (q, j) -> owner (S q j) = Mop m) by (intros q j E; by apply (Hnode _ Hm (last_Some_elem_of _ _ E))).
  assert (Hown : forall q j, owner (joined S m r i times (last l) q j) = if decide ((q, j) = (r, i)) then Mop m else owner (S q j))
    by (intros q j; unfold joined; repeat case_decide; done).
  eapply claims_set; [done|done|..].
  - intros q j k Hk Hj; rewrite Hown; unfold joined; case_decide as E; [injection E as -> ->; intros [?|?]; [by apply Hno in H|congruence]|].
    intros Hw; rewrite decide_False; [done|]; intros E'; apply Hl in E'; rewrite E' in Hw; destruct Hw; congruence.
  - apply NoDup_app; split_and!; [done|set_solver|apply NoDup_singleton].
  - change (l ++ [(r, i)]) with (l ++ [(r, i)] ++ []); eapply dseg_splice with (m := []) (lk := clk S); [by rewrite !app_nil_r|rewrite !app_nil_r; by apply (cm_seg _ _ _ Hc m)| |set_solver|].
    + intros [q j] u v Hq [E1 E2]%clinks_inv; unfold clk, joined; cbn in *; rewrite decide_False by (intros E; by rewrite E in Hq).
      unfold clinks; destruct (decide (last l = Some (q, j))); [cbn; by rewrite E1|by rewrite E1, E2].
    + cbn; split; [|done]; unfold clk, joined; cbn; rewrite decide_True by done; unfold clinks; cbn; by rewrite as_link_of, last_or_last.
  - intros q j; rewrite elem_of_app, list_elem_of_singleton, Hown; case_decide as E; [injection E as -> ->; naive_solver|].
    split; [intros [Hq|?]; [by apply (Hnode _ Hm) in Hq|done]|]; intros [Hj Hw]; left.
    destruct (cm_all _ _ _ Hc m q j Hj Hw) as (l' & Hl' & Hin); by simplify_eq.
  - done.
  - by rewrite last_snoc.
  - intros q j k Hj Hk; rewrite !Hown; case_decide as E1; case_decide as E2; [naive_solver|..].
    + injection E1 as -> ->; intros _ Hw; by apply Hnm in Hw.
    + injection E2 as -> ->; intros Hw; by apply Hnm in Hw.
    + by apply (cm_one _ _ _ Hc m).
Qed.

(** The assignments to the links between claims. *)
Definition cnx h (p : option claimer_link_t) (x : option claimer_link_t) := match p with Some (q, j) => upd h q (on_slot j (set_next (of_link x))) | None => h end.
Definition cpv h (n : option claimer_link_t) (x : option claimer_link_t) := match n with Some (q, j) => upd h q (on_slot j (set_cprev (of_link x))) | None => h end.

Definition slot_ok (p : option claimer_link_t) : Prop := forall q j, p = Some (q, j) -> 0 <= j < 4.

Lemma slot_cnx h p x q j : four h -> slot_ok p -> 0 <= j < 4 -> slot (cnx h p x) q j = if decide (p = Some (q, j)) then set_next (of_link x) (slot h q j) else slot h q j.
Proof.
  intros H Hp Hj; destruct p as [[r i]|]; cbn; [rewrite slot_upd by (done || by apply (Hp r i))|by rewrite decide_False by done].
  destruct (decide (q = r /\ j = i)) as [[-> ->]|]; [by rewrite decide_True|rewrite decide_False by naive_solver; done].
Qed.

Lemma slot_cpv h p x q j : four h -> slot_ok p -> 0 <= j < 4 -> slot (cpv h p x) q j = if decide (p = Some (q, j)) then set_cprev (of_link x) (slot h q j) else slot h q j.
Proof.
  intros H Hp Hj; destruct p as [[r i]|]; cbn; [rewrite slot_upd by (done || by apply (Hp r i))|by rewrite decide_False by done].
  destruct (decide (q = r /\ j = i)) as [[-> ->]|]; [by rewrite decide_True|rewrite decide_False by naive_solver; done].
Qed.

Lemma four_cnx h p x : four h -> four (cnx h p x).
Proof. destruct p as [[]|]; [apply four_upd|done]. Qed.
Lemma four_cpv h p x : four h -> four (cpv h p x).
Proof. destruct p as [[]|]; [apply four_upd|done]. Qed.
Lemma bare_cnx h p x q : bare (at_ (cnx h p x) q) = bare (at_ h q).
Proof. destruct p as [[]|]; [apply bare_upd|done]. Qed.
Lemma bare_cpv h p x q : bare (at_ (cpv h p x) q) = bare (at_ h q).
Proof. destruct p as [[]|]; [apply bare_upd|done]. Qed.

Lemma four_used h r f : four h -> four (upd h r (fun x => set_used (f x) x)).
Proof. intros H q; rewrite at_upd; case_decide; apply H. Qed.

Lemma slot_used h r f q j : slot (upd h r (fun x => set_used (f x) x)) q j = slot h q j.
Proof. by apply slot_upd_other. Qed.

Lemma bare_used h r f q : bare (at_ (upd h r (fun x => set_used (f x) x)) q) = if decide (q = r) then set_used (f (at_ h r)) (bare (at_ h r)) else bare (at_ h q).
Proof. rewrite at_upd; by case_decide. Qed.

Hint Resolve four_cnx four_cpv four_used four_upd : core.

Lemma claim_node_run m r i times d C l o : four (heap d) -> claims (slot (heap d)) (mops d) C -> C !! m = Some l -> mops d !! m = Some o -> 0 <= i < 4 ->
  owner (slot (heap d) r i) = Null -> (forall j, 0 <= j < 4 -> owner (slot (heap d) r j) <> Mop m) -> allocation_type (at_ (heap d) r) = allocation_node ->
  let o' := set_account (u64 (allocated_pages o + d_length (at_ (heap d) r))) (u64 (allocated_ranges o + 1)) (set_ends (head (l ++ [(r, i)])) (Some (r, i)) o) in
  exists h', claim_node m r i times d = Some (tt, set_mops (<[m := o']> (mops d)) (set_heap h' d)) /\ four h' /\
    (forall q, bare (at_ h' q) = if decide (q = r) then set_used (u8 (claims_used (at_ (heap d) r) + 1)) (bare (at_ (heap d) r)) else bare (at_ (heap d) q)) /\
    (forall q j, 0 <= j < 4 -> slot h' q j = joined (slot (heap d)) m r i times (last l) q j) /\
    claims (slot h') (<[m := o']> (mops d)) (<[m := l ++ [(r, i)]]> C).
Proof.
  intros H4 Hc Hm Ho Hi Hnull Hnm Ht o'; destruct (claims_mop _ _ _ _ _ Hc Hm) as (o2 & Ho2 & Hf & Hl); simplify_eq/=.
  assert (Hlast : slot_ok (last l)) by (intros q j E%last_Some_elem_of; by apply (cm_node _ _ _ Hc m l _ Hm E)).
  assert (Hlr : last l <> Some (r, i)) by (intros E%last_Some_elem_of; destruct (cm_node _ _ _ Hc m l _ Hm E) as [_ E']; cbn in E'; congruence).
  set (h1 := upd (heap d) r (on_slot i (fun c => set_n times (set_owner (Mop m) c)))); set (h2 := upd h1 r (fun x => set_used (u8 (claims_used x + 1)) x)).
  set (h4 := upd (cnx h2 (last l) (Some (r, i))) r (on_slot i (set_cprev (of_link (last l))))); set (h5 := upd h4 r (on_slot i (set_next Null))).
  assert (F1 : four h1) by (unfold h1; auto); assert (F2 : four h2) by (unfold h2; auto).
  assert (F3 : four (cnx h2 (last l) (Some (r, i)))) by auto; assert (F4 : four h4) by (unfold h4; auto).
  assert (Hs : forall q j, 0 <= j < 4 -> slot h5 q j = joined (slot (heap d)) m r i times (last l) q j).
  { intros q j Hj; unfold h5; rewrite slot_upd by done; unfold h4; rewrite !slot_upd by done; rewrite !slot_cnx by done; unfold h2; rewrite !slot_used.
    unfold h1; rewrite !slot_upd by done; unfold joined; destruct (decide (q = r /\ j = i)) as [[-> ->]|Hne].
    - rewrite (decide_False (P := last l = Some (r, i))) by done; by do 3 (rewrite decide_True by done).
    - rewrite (decide_False (P := (q, j) = (r, i))) by naive_solver; done. }
  exists h5; split_and!; [|by unfold h5; auto| |done|].
  - unfold claim_node; eapply bind_run; [done|]; eapply bind_run; [apply assert_run; unfold is_type; by rewrite Ht|].
    eapply bind_run; [by apply claim_at_run|]; eapply bind_run; [apply assert_run; by rewrite Hnull|]; eapply bind_run; [by apply mget_run|].
    eapply bind_run; [by apply put_claim_run|]; eapply bind_run; [apply dput_run|].
    assert (Hb : bare (at_ h4 r) = set_used (u8 (claims_used (at_ (heap d) r) + 1)) (bare (at_ (heap d) r)))
      by (unfold h4; rewrite bare_upd, bare_cnx; unfold h2; rewrite bare_used, decide_True by done; unfold h1; rewrite at_upd_eq; done).
    set (o1 := set_ends (head (l ++ [(r, i)])) (Some (r, i)) o).
    eapply bind_run; [instantiate (1 := set_mops (<[m := o1]> (mops d)) (set_heap h4 d)); instantiate (1 := tt)|].
    + rewrite Hf, Hl; destruct l as [|[a b] l]; cbn [head].
      * eapply bind_run; [by apply mput_run|]; by rewrite put_claim_run.
      * eapply bind_run; [by apply mput_run|]; destruct (last ((a, b) :: l)) as [[q j]|] eqn:El; [|by apply last_None in El].
        eapply bind_run; [done|]; eapply bind_run; [apply put_claim_run; [done|by apply (Hlast q j)]|]; rewrite put_claim_run by (exact F3 || done).
        do 2 f_equal; unfold set_mops, set_heap; cbn; rewrite Hf; done.
    + eapply bind_run; [by apply (put_claim_run r i (set_next Null) (set_mops _ (set_heap h4 d)))|]; eapply bind_run; [done|].
      rewrite (mput_run m o1) by (cbn; by rewrite lookup_insert_eq); cbn; do 2 f_equal; unfold set_mops, set_heap; cbn; f_equal; rewrite insert_insert_eq; f_equal.
      unfold o', o1; do 3 f_equal. fold h5. transitivity (d_length (bare (at_ h5 r))); [done|]; unfold h5; rewrite bare_upd, Hb; done.
  - intros q; unfold h5; rewrite bare_upd; unfold h4; rewrite bare_upd, bare_cnx; unfold h2; rewrite bare_used; unfold h1; rewrite !bare_upd.
    case_decide; [|done]; by rewrite at_upd_eq.
  - eapply claims_ext; [|eapply (joined_claims _ _ _ m l r i times); [done..|by rewrite Hnull|done|done|done]].
    intros q j k Hj _; by apply Hs.
Qed.

(** *** Links *)

Lemma before_claim_run m p x d o : four (heap d) -> slot_ok p -> mops d !! m = Some o ->
  before_claim m p x d = Some (tt, set_mops (<[m := match p with None => set_ends x (mop_last o) o | Some _ => o end]> (mops d)) (set_heap (cnx (heap d) p x) d)).
Proof.
  intros H Hp Ho; destruct p as [[q j]|]; cbn; [rewrite put_claim_run by (done || by apply (Hp q j))|rewrite (mput_run m o) by done; by destruct d].
  rewrite insert_id by done; by destruct d.
Qed.

Lemma after_claim_run m p x d o : four (heap d) -> slot_ok p -> mops d !! m = Some o ->
  after_claim m p x d = Some (tt, set_mops (<[m := match p with None => set_ends (mop_first o) x o | Some _ => o end]> (mops d)) (set_heap (cpv (heap d) p x) d)).
Proof.
  intros H Hp Ho; destruct p as [[q j]|]; cbn; [rewrite put_claim_run by (done || by apply (Hp q j))|rewrite (mput_run m o) by done; by destruct d].
  rewrite insert_id by done; by destruct d.
Qed.

(** The ends of a list with [m'] in its middle, as the two assignments leave them. *)
Lemma ends_splice o l1 m l2 m' : mop_first o = head (l1 ++ m ++ l2) -> mop_last o = last (l1 ++ m ++ l2) ->
  let o1 := match last l1 with None => set_ends (hd_or (m' ++ l2) None) (mop_last o) o | Some _ => o end in
  match head l2 with None => set_ends (mop_first o1) (last_or m' (last l1)) o1 | Some _ => o1 end = set_ends (head (l1 ++ m' ++ l2)) (last (l1 ++ m' ++ l2)) o.
Proof.
  intros Hf Hl o1.
  assert (E : set_ends (match last l1 with None => head (m' ++ l2) | Some _ => mop_first o end) (match head l2 with None => last_or m' (last l1) | Some _ => mop_last o end) o =
    match head l2 with None => set_ends (mop_first o1) (last_or m' (last l1)) o1 | Some _ => o1 end).
  { unfold o1; destruct (last l1), (head l2); cbn; rewrite ?hd_or_head; by destruct o. }
  rewrite <- E; f_equal.
  - destruct l1 as [|a l1]; [done|]; destruct (last (a :: l1)) eqn:E1; [by rewrite Hf|by apply last_None in E1].
  - destruct l2 as [|a l2]; cbn [head]; [rewrite !app_nil_r, last_app; unfold last_or; by destruct (last m')|].
    rewrite Hl, !app_assoc, !(last_app_cons _ l2); done.
Qed.

(** The slots when the claim between [p] and [n] gives way to [x]. *)
Definition relink (S : dref -> Z -> claimer_t) (p n : option claimer_link_t) (x y : option claimer_link_t) : dref -> Z -> claimer_t :=
  fun q j => let c := if decide (p = Some (q, j)) then set_next (of_link x) (S q j) else S q j in
             if decide (n = Some (q, j)) then set_cprev (of_link y) c else c.

Lemma slot_relink h p n x y q j : four h -> slot_ok p -> slot_ok n -> 0 <= j < 4 -> slot (cpv (cnx h p x) n y) q j = relink (slot h) p n x y q j.
Proof. intros H Hp Hn Hj; rewrite slot_cpv, !slot_cnx by auto; done. Qed.

Lemma clk_relink S p n x y q j u v : clinks (S q j) = Some (u, v) ->
  clk (relink S p n x y) (q, j) = Some (if decide (n = Some (q, j)) then y else u, if decide (p = Some (q, j)) then x else v).
Proof. intros [E1 E2]%clinks_inv; unfold clk, relink, clinks; cbn; repeat case_decide; cbn; by rewrite ?E1, ?E2, ?as_link_of. Qed.

Lemma relink_owner S p n x y q j : owner (relink S p n x y q j) = owner (S q j) /\ n_claims (relink S p n x y q j) = n_claims (S q j).
Proof. unfold relink; repeat case_decide; done. Qed.

(** A claim leaves the list, or moves to another descriptor: [m'] is empty, or
    the claim in its new place. *)
Lemma splice_claims S S' ms C m l1 r i l2 m' o' : claims S ms C -> C !! m = Some (l1 ++ (r, i) :: l2) ->
  (forall q j, 0 <= j < 4 -> (q, j) <> (r, i) -> (q, j) ∉ m' ->
    S' q j = relink S (last l1) (head l2) (hd_or (m' ++ l2) None) (last_or m' (last_or l1 None)) q j) ->
  (forall k, owner (S' r i) <> Mop k) ->
  (m' = [] \/ exists s, m' = [(s, i)] /\ s <> r /\ S' s i = S r i /\ (forall k, owner (S s i) <> Mop k) /\ forall j, 0 <= j < 4 -> owner (S s j) <> Mop m) ->
  mop_first o' = head (l1 ++ m' ++ l2) -> mop_last o' = last (l1 ++ m' ++ l2) ->
  claims S' (<[m := o']> ms) (<[m := l1 ++ m' ++ l2]> C).
Proof.
  intros Hc Hm HS Hri Hm' Ho1 Ho2; pose proof (cm_node _ _ _ Hc m) as Hnode; pose proof (cm_nodup _ _ _ Hc m _ Hm) as Hnd.
  pose proof (cm_seg _ _ _ Hc m _ Hm) as Hseg; destruct (Hnode _ (r, i) Hm ltac:(set_solver)) as [Hi Hwi]; cbn in Hi, Hwi.
  assert (Hin : forall x, x ∈ m' -> x.2 = i /\ x.1 <> r /\ S' x.1 x.2 = S r i /\ (forall k, owner (S x.1 x.2) <> Mop k) /\ forall j, 0 <= j < 4 -> owner (S x.1 j) <> Mop m).
  { intros x Hx; destruct Hm' as [->|(s & -> & ? & ? & ? & ?)]; [by apply not_elem_of_nil in Hx|apply list_elem_of_singleton in Hx as ->; done]. }
  assert (Hl : forall x, x ∈ l1 ++ (r, i) :: l2 -> x ∉ m') by (intros x Hx Hx'; destruct (Hin x Hx') as (_ & _ & _ & Hk & _); by apply (Hk m), (Hnode _ _ Hm Hx)).
  assert (Hown : forall q j, 0 <= j < 4 -> (q, j) <> (r, i) -> (q, j) ∉ m' -> owner (S' q j) = owner (S q j)) by (intros; rewrite HS by done; apply relink_owner).
  assert (Hlk : forall x u v, x ∈ l1 ++ l2 -> clk S x = Some (u, v) -> clk S' x =
    Some (if decide (head l2 = Some x) then last_or m' (last_or l1 None) else u, if decide (last l1 = Some x) then hd_or (m' ++ l2) None else v)).
  { intros [q j] u v Hx E; assert (Hx' : (q, j) ∈ l1 ++ (r, i) :: l2) by set_solver; destruct (Hnode _ _ Hm Hx') as [Hj _].
    unfold clk at 1; cbn in Hj |- *; rewrite HS; [by apply (clk_relink S)|done| |by apply Hl].
    intros [= -> ->]; apply NoDup_app in Hnd as (_ & Hy & [Hz _]%NoDup_cons); apply elem_of_app in Hx as [Hx|Hx]; [apply (Hy _ Hx); left|done]. }
  assert (Hnd' := Hnd); apply NoDup_app in Hnd' as (Ha & Hb & [Hc' Hd]%NoDup_cons).
  eapply claims_set; [done|done|..|done|done|].
  - intros q j k Hk Hj Hw; destruct (decide ((q, j) = (r, i))) as [[= -> ->]|]; [destruct Hw as [Hw|Hw]; [congruence|by apply Hri in Hw]|].
    destruct (decide ((q, j) ∈ m')) as [Hx|Hx]; [destruct (Hin _ Hx) as (? & ? & E & Hk' & _); cbn in *; destruct Hw as [Hw|Hw]; [by apply Hk' in Hw|congruence]|].
    rewrite Hown in Hw by done; assert (Hq : forall y, y ∈ l1 ++ l2 -> y <> (q, j)) by (intros y Hy ->; destruct (Hnode _ (q, j) Hm ltac:(set_solver)) as [_ Hw']; cbn in Hw'; destruct Hw; congruence).
    rewrite HS by done; unfold relink; rewrite !decide_False; [done|..].
    + intros E%last_Some_elem_of; apply (Hq (q, j)); [set_solver|done].
    + intros E%head_Some_elem_of; apply (Hq (q, j)); [set_solver|done].
  - apply NoDup_app; split_and!; [done|set_solver|apply NoDup_app; split_and!; [|set_solver|done]].
    destruct Hm' as [->|(s & -> & _)]; [apply NoDup_nil_2|apply NoDup_singleton].
  - eapply dseg_splice with (m := [(r, i)]) (lk := clk S); [done|done|..].
    + intros x u v Hx E; rewrite (Hlk x u v) by (set_solver || done); rewrite (decide_False (P := head l2 = Some x)) by (intros F%head_Some_elem_of; set_solver); done.
    + intros x u v Hx E; rewrite (Hlk x u v) by (set_solver || done); rewrite (decide_False (P := last l1 = Some x)) by (intros F%last_Some_elem_of; set_solver); done.
    + destruct Hm' as [->|(s & -> & _ & Es & _)]; [done|]; cbn; split; [|done]; unfold clk; cbn; rewrite Es.
      apply (dseg_mid (clk S) _ (r, i)) in Hseg; exact Hseg.
  - intros q j; rewrite !elem_of_app; destruct (decide ((q, j) ∈ m')) as [Hx|Hx].
    + destruct (Hin _ Hx) as (E1 & _ & E2 & _); cbn in *; rewrite E2, E1; naive_solver.
    + destruct (decide ((q, j) = (r, i))) as [[= -> ->]|Hne]; [split; [intros [?|[?|?]]; [set_solver..]|intros [_ Hw]; by apply Hri in Hw]|].
      split; [intros Hy|intros [Hj Hw]].
      * destruct (Hnode _ (q, j) Hm ltac:(set_solver)) as [Hj Hw]; cbn in *; split; [done|]; by rewrite Hown.
      * rewrite Hown in Hw by done; destruct (cm_all _ _ _ Hc m q j Hj Hw) as (l & E & Hy); simplify_eq; set_solver.
  - assert (Ht : forall q j, 0 <= j < 4 -> owner (S' q j) = Mop m -> (q, j) ∈ m' \/ (q, j) <> (r, i) /\ (q, j) ∉ m' /\ owner (S q j) = Mop m).
    { intros q j Hj Hw; destruct (decide ((q, j) ∈ m')); [by left|right]; assert ((q, j) <> (r, i)) by (intros [= -> ->]; by apply Hri in Hw); by rewrite Hown in Hw. }
    intros q j k Hj Hk [H1|(H1 & H1' & H1'')]%Ht [H2|(H2 & H2' & H2'')]%Ht; try done.
    + destruct (Hin _ H1), (Hin _ H2); cbn in *; congruence.
    + destruct (Hin _ H1) as (_ & _ & _ & _ & F); by apply F in H2''.
    + destruct (Hin _ H2) as (_ & _ & _ & _ & F); by apply F in H1''.
    + by apply (cm_one _ _ _ Hc m q).
Qed.

(** *** A claim leaves *)

(** What is known of a claim on the list of its owner. *)
Lemma claim_facts S ms C m l1 r i l2 : claims S ms C -> C !! m = Some (l1 ++ (r, i) :: l2) ->
  0 <= i < 4 /\ owner (S r i) = Mop m /\ as_link (cl_prev (S r i)) = Some (last l1) /\ as_link (cl_next (S r i)) = Some (head l2) /\
  slot_ok (last l1) /\ slot_ok (head l2) /\ last l1 <> Some (r, i) /\ head l2 <> Some (r, i).
Proof.
  intros Hc Hm; destruct (cm_node _ _ _ Hc m _ (r, i) Hm ltac:(set_solver)) as [Hi Hw]; pose proof (cm_nodup _ _ _ Hc m _ Hm) as (Ha & Hb & [Hd _]%NoDup_cons)%NoDup_app.
  pose proof (dseg_mid _ _ _ _ _ _ (cm_seg _ _ _ Hc m _ Hm)) as [E1 E2]%clinks_inv; rewrite last_or_last in E1; rewrite hd_or_head in E2; cbn in *.
  split_and!; try (done || lia).
  - intros q j E%last_Some_elem_of; apply (cm_node _ _ _ Hc m _ (q, j) Hm); set_solver.
  - intros q j E%head_Some_elem_of; apply (cm_node _ _ _ Hc m _ (q, j) Hm); set_solver.
  - intros E%last_Some_elem_of; apply (Hb _ E); left.
  - intros E%head_Some_elem_of; done.
Qed.

Lemma release_claim_run d C m l1 r i l2 o : four (heap d) -> claims (slot (heap d)) (mops d) C -> C !! m = Some (l1 ++ (r, i) :: l2) -> mops d !! m = Some o ->
  allocation_type (at_ (heap d) r) = allocation_node ->
  let o' := set_account (u64 (allocated_pages o - d_length (at_ (heap d) r))) (u64 (allocated_ranges o - 1)) (set_ends (head (l1 ++ l2)) (last (l1 ++ l2)) o) in
  exists h', release_claim r i d = Some (tt, set_mops (<[m := o']> (mops d)) (set_heap h' d)) /\ four h' /\
    (forall q, bare (at_ h' q) = if decide (q = r) then set_used (u8 (claims_used (at_ (heap d) r) - 1)) (bare (at_ (heap d) r)) else bare (at_ (heap d) q)) /\
    (forall q j, 0 <= j < 4 -> slot h' q j = if decide ((q, j) = (r, i)) then set_owner Null (slot (heap d) r i) else relink (slot (heap d)) (last l1) (head l2) (head l2) (last l1) q j) /\
    claims (slot h') (<[m := o']> (mops d)) (<[m := l1 ++ l2]> C).
Proof.
  intros H4 Hc Hm Ho Ht o'; destruct (claim_facts _ _ _ _ _ _ _ _ Hc Hm) as (Hi & Hw & Hp & Hn & Hsp & Hsn & Np & Nn).
  destruct (claims_mop _ _ _ _ _ Hc Hm) as (o2 & Ho2 & Hf & Hl); simplify_eq/=.
  set (h1 := cnx (heap d) (last l1) (head l2)); set (h2 := cpv h1 (head l2) (last l1)); set (h3 := upd h2 r (fun x => set_used (u8 (claims_used x - 1)) x)).
  set (h4 := upd h3 r (on_slot i (set_owner Null))); assert (F1 : four h1) by (unfold h1; auto); assert (F2 : four h2) by (unfold h2; auto); assert (F3 : four h3) by (unfold h3; auto).
  assert (S1 : slot h1 r i = slot (heap d) r i) by (unfold h1; rewrite slot_cnx by done; by rewrite decide_False).
  assert (B2 : forall q, bare (at_ h2 q) = bare (at_ (heap d) q)) by (intros; unfold h2, h1; by rewrite bare_cpv, bare_cnx).
  assert (Hs : forall q j, 0 <= j < 4 -> slot h4 q j = if decide ((q, j) = (r, i)) then set_owner Null (slot (heap d) r i) else relink (slot (heap d)) (last l1) (head l2) (head l2) (last l1) q j).
  { intros q j Hj; unfold h4; rewrite slot_upd by done; unfold h3; rewrite !slot_used; unfold h2, h1; rewrite !slot_relink by done.
    destruct (decide (q = r /\ j = i)) as [[-> ->]|]; [rewrite (decide_True (P := (r, i) = (r, i))) by done|by rewrite (decide_False (P := (q, j) = (r, i))) by naive_solver].
    unfold relink; by rewrite !decide_False. }
  exists h4; split_and!; [|by unfold h4; auto| |done|].
  - unfold release_claim; eapply bind_run; [done|]; eapply bind_run; [apply assert_run; unfold is_type; by rewrite Ht|].
    eapply bind_run; [by apply claim_at_run|]; eapply bind_run; [apply lift_run; by rewrite Hw|]; eapply bind_run; [by apply lift_run|]; eapply bind_run; [by apply lift_run|].
    eapply bind_run; [by apply before_claim_run|]; eapply bind_run; [by apply claim_at_run|].
    eapply bind_run; [apply (lift_run (as_link (cl_next (slot h1 r i)))); by rewrite S1|]; eapply bind_run; [apply (lift_run (as_link (cl_prev (slot h1 r i)))); by rewrite S1|].
    eapply bind_run; [apply after_claim_run; [exact F1|done|cbn; by rewrite lookup_insert_eq]|].
    eapply bind_run; [apply dput_run|]; eapply bind_run; [by apply (put_claim_run r i (set_owner Null) (set_heap h3 _))|]; eapply bind_run; [done|].
    assert (Hlen : d_length (at_ h4 r) = d_length (at_ (heap d) r))
      by (transitivity (d_length (bare (at_ h4 r))); [done|]; unfold h4; rewrite bare_upd; unfold h3; rewrite bare_used, decide_True, B2 by done; done).
    erewrite mput_run by (cbn; by rewrite lookup_insert_eq); cbn [heap set_heap set_mops mops]; do 2 f_equal.
    pose proof (ends_splice o l1 [(r, i)] l2 [] Hf Hl) as E; cbn in E; rewrite hd_or_head in E; unfold last_or in E; cbn in E.
    fold h1 h2 h3 h4; rewrite Hlen; unfold set_mops, set_heap; cbn; f_equal; rewrite !insert_insert_eq; f_equal.
    unfold o'; rewrite <- E; destruct (last l1), (head l2); done.
  - intros q; unfold h4; rewrite bare_upd; unfold h3; rewrite bare_used; case_decide; [|done]; rewrite B2; f_equal.
    f_equal; f_equal. transitivity (claims_used (bare (at_ h2 r))); [done|by rewrite B2].
  - change (l1 ++ l2) with (l1 ++ [] ++ l2); eapply (splice_claims (slot (heap d))); [done|done|..|by left|done|done].
    + intros q j Hj Hne _; rewrite Hs by done; rewrite decide_False by done; unfold last_or; cbn; rewrite hd_or_head; by destruct (last l1).
    + intros k; rewrite Hs by done; by rewrite decide_True.
Qed.

(** *** A descriptor moves *)

(** Only the ends of the lists of the mops have changed. *)
Definition ends_only (ms ms' : gmap Z mop_internal_t) : Prop := forall m, set_ends None None <$> ms' !! m = set_ends None None <$> ms !! m.

(** Only the links between claims have changed. *)
Record relinked h h' : Prop := mk_relinked {
  rl_four : four h'; rl_bare : forall q, bare (at_ h' q) = bare (at_ h q);
  rl_owner : forall q j, 0 <= j < 4 -> owner (slot h' q j) = owner (slot h q j) /\ n_claims (slot h' q j) = n_claims (slot h q j);
  rl_same : forall q j, 0 <= j < 4 -> (forall m, owner (slot h q j) <> Mop m) -> slot h' q j = slot h q j }.

Lemma relinked_refl h : four h -> relinked h h.
Proof. done. Qed.

Lemma relinked_trans h h' h'' : relinked h h' -> relinked h' h'' -> relinked h h''.
Proof.
  intros [A1 A2 A3 A4] [B1 B2 B3 B4]; split; [done|intros; by rewrite B2|intros q j Hj; by rewrite !(proj1 (B3 q j Hj)), (proj2 (B3 q j Hj)); apply A3|].
  intros q j Hj Hn; rewrite B4, A4; [done..|]; intros m; rewrite A4; done.
Qed.

(** The claims counted, and the pages they are for. *)
Definition total (len : dref -> Z) (l : list claimer_link_t) : Z := foldr (fun x n => len x.1 + n) 0 l.
Definition acc (len : dref -> Z) (ms : gmap Z mop_internal_t) (C : gmap Z (list claimer_link_t)) : Prop :=
  forall m o l, ms !! m = Some o -> C !! m = Some l -> allocated_ranges o = u64 (Z.of_nat (List.length l)) /\ allocated_pages o = u64 (total len l).

Lemma acc_ext len len' ms C : (forall m l x, C !! m = Some l -> x ∈ l -> len' x.1 = len x.1) -> acc len ms C -> acc len' ms C.
Proof.
  intros Hl Ha m o l Ho Hc; destruct (Ha m o l Ho Hc) as [E1 E2]; split; [done|]; rewrite E2; f_equal; specialize (Hl m l).
  assert (H : forall x, x ∈ l -> len' x.1 = len x.1) by (intros; by apply Hl); clear -H; induction l as [|x l IH]; [done|].
  cbn; rewrite H by left; f_equal; apply IH; intros y Hy; apply H; by right.
Qed.

Lemma total_app len l l' : total len (l ++ l') = total len l + total len l'.
Proof. induction l as [|x l IH]; [done|]; cbn [total foldr app]; fold (total len (l ++ l')) (total len l); lia. Qed.

(** The slots while the claims of [r], which were [X], move to [s] and the first [k] have. *)
Definition moving (r s : dref) (X : Z -> claimer_t) (k : Z) h : dref -> Z -> claimer_t :=
  fun q j => if decide (q = s) then if j <? k then slot h s j else no_claim
             else if decide (q = r) then if j <? k then no_claim else X j else slot h q j.

(** Where the move stands: [X] were the slots of [r]. *)
Record mid_move (r s : dref) (X : Z -> claimer_t) (k : Z) h (ms : gmap Z mop_internal_t) (C : gmap Z (list claimer_link_t)) : Prop := mk_mid {
  mv_four : four h; mv_claims : claims (moving r s X k h) ms C;
  mv_todo : forall j, k <= j < 4 -> slot h s j = X j; mv_done : forall j, 0 <= j < k -> owner (slot h s j) = owner (X j) }.

(** What the move does to the rest. *)
Definition moved (r s : dref) h ms C h' ms' C' : Prop :=
  relinked h h' /\ ends_only ms ms' /\ forall len, len r = len s -> acc len ms C -> acc len ms' C'.

Lemma moves_trans r s h ms C h1 ms1 C1 h2 ms2 C2 : moved r s h ms C h1 ms1 C1 -> moved r s h1 ms1 C1 h2 ms2 C2 -> moved r s h ms C h2 ms2 C2.
Proof.
  intros (A1 & A2 & A3) (B1 & B2 & B3); split_and!; [by eapply relinked_trans|intros m; by rewrite B2, A2|auto].
Qed.

(** A slot nobody owns moves by itself. *)
Lemma mid_free r s X k h ms C : 0 <= k < 4 -> owner (X k) = Null -> mid_move r s X k h ms C -> mid_move r s X (k + 1) h ms C.
Proof.
  intros Hk Hnull [H4 Hc Hge Hlt]; split; [done| |intros; apply Hge; lia|].
  - eapply claims_ext; [|exact Hc]; unfold moving; intros q j i Hj; case_decide as Eq; [|case_decide as Eq'; [|done]].
    + destruct (decide (j = k)) as [->|]; [rewrite Z.ltb_irrefl, (proj2 (Z.ltb_lt _ _)) by lia; rewrite Hge, Hnull by lia; intros [?|?]; done|].
      by replace (j <? k + 1) with (j <? k) by (apply Bool.eq_iff_eq_true; rewrite !Z.ltb_lt; lia).
    + destruct (decide (j = k)) as [->|]; [rewrite Z.ltb_irrefl, (proj2 (Z.ltb_lt _ _)) by lia; rewrite Hnull; intros [?|?]; done|].
      by replace (j <? k + 1) with (j <? k) by (apply Bool.eq_iff_eq_true; rewrite !Z.ltb_lt; lia).
  - intros j Hj; destruct (decide (j = k)) as [->|]; [rewrite Hge by lia; done|apply Hlt; lia].
Qed.

(** The neighbours of a claim on the way are on other descriptors. *)
Lemma mid_apart r s X k h ms C m l1 l2 q j : 0 <= k < 4 -> s <> r -> mid_move r s X k h ms C ->
  (forall i j m, 0 <= i < 4 -> 0 <= j < 4 -> owner (X i) = Mop m -> owner (X j) = Mop m -> i = j) -> owner (X k) = Mop m ->
  C !! m = Some (l1 ++ (r, k) :: l2) -> (q, j) ∈ l1 ++ l2 -> q <> r /\ q <> s.
Proof.
  intros Hk Hsr [H4 Hc Hge Hlt] Hone Hm Hl Hin; destruct (cm_node _ _ _ Hc m _ (q, j) Hl ltac:(set_solver)) as [Hj Hw]; cbn in *; split; intros ->.
  - assert (j = k) as -> by (apply (cm_one _ _ _ Hc m r); [done..|]; apply (cm_node _ _ _ Hc m _ (r, k) Hl); set_solver).
    pose proof (cm_nodup _ _ _ Hc m _ Hl) as (_ & Hb & [Hd _]%NoDup_cons)%NoDup_app; set_solver.
  - unfold moving in Hw; rewrite decide_True in Hw by done; destruct (j <? k) eqn:E; [zbool|done].
    rewrite Hlt in Hw by lia; assert (j = k) by (by apply (Hone j k m)); lia.
Qed.

Lemma fixup_slot_run r s X k d C : 0 <= k < 4 -> s <> r -> mid_move r s X k (heap d) (mops d) C ->
  (forall j, 0 <= j < 4 -> owner (X j) = Null \/ exists m, owner (X j) = Mop m) ->
  (forall i j m, 0 <= i < 4 -> 0 <= j < 4 -> owner (X i) = Mop m -> owner (X j) = Mop m -> i = j) ->
  exists h' ms' C', fixup_slot k s d = Some (tt, set_mops ms' (set_heap h' d)) /\ moved r s (heap d) (mops d) C h' ms' C' /\ mid_move r s X (k + 1) h' ms' C'.
Proof.
  intros Hk Hsr Hmid HX Hone; pose proof Hmid as [H4 Hc Hge Hlt]; destruct (HX k Hk) as [Hnull|[m Hm]].
  { exists (heap d), (mops d), C; split_and!; [|done|by apply mid_free].
    unfold fixup_slot; eapply bind_run; [by apply claim_at_run|]; rewrite Hge, Hnull by lia; by destruct d. }
  set (S := moving r s X k (heap d)) in *; set (x := Some (s, k)).
  assert (Srk : S r k = X k) by (unfold S, moving; rewrite decide_False, decide_True, Z.ltb_irrefl by done; done).
  destruct (cm_all _ _ _ Hc m r k Hk) as (l & Hl & (l1 & l2 & ->)%list_elem_of_split); [by rewrite Srk|].
  destruct (claim_facts _ _ _ _ _ _ _ _ Hc Hl) as (_ & Hw & Hp & Hn & Hsp & Hsn & Np & Nn); rewrite Srk in Hp, Hn.
  destruct (claims_mop _ _ _ _ _ Hc Hl) as (o & Ho & Hf & Hla).
  assert (Hq : forall q j, last l1 = Some (q, j) \/ head l2 = Some (q, j) -> q <> r /\ q <> s /\ owner (slot (heap d) q j) = Mop m).
  { intros q j Hx; assert (Hin : (q, j) ∈ l1 ++ l2) by (destruct Hx as [E%last_Some_elem_of|E%head_Some_elem_of]; set_solver).
    destruct (mid_apart _ _ _ _ _ _ _ _ _ _ q j Hk Hsr Hmid Hone Hm Hl Hin); destruct (cm_node _ _ _ Hc m _ (q, j) Hl ltac:(set_solver)) as [_ Hw'].
    cbn in Hw'; unfold S, moving in Hw'; by rewrite !decide_False in Hw' by done. }
  set (h1 := cpv (cnx (heap d) (last l1) x) (head l2) x); assert (F1 : four h1) by (unfold h1; auto).
  assert (Hs1 : forall q j, 0 <= j < 4 -> slot h1 q j = relink (slot (heap d)) (last l1) (head l2) x x q j) by (intros; by apply slot_relink).
  assert (Hsame : forall T q j, q = r \/ q = s \/ (forall i, owner (slot (heap d) q j) <> Mop i) -> relink T (last l1) (head l2) x x q j = T q j).
  { intros T q j Hqq; unfold relink; rewrite !decide_False; [done|..]; intros E; destruct (Hq q j ltac:(auto)) as (? & ? & ?); naive_solver. }
  set (o' := set_ends (head (l1 ++ [(s, k)] ++ l2)) (last (l1 ++ [(s, k)] ++ l2)) o).
  exists h1, (<[m := o']> (mops d)), (<[m := l1 ++ [(s, k)] ++ l2]> C); split_and!.
  - unfold fixup_slot; eapply bind_run; [by apply claim_at_run|]; rewrite Hge by lia; rewrite bool_decide_eq_false_2 by (rewrite Hm; done).
    eapply bind_run; [apply lift_run; by rewrite Hm|]; eapply bind_run; [by apply lift_run|]; eapply bind_run; [by apply lift_run|].
    eapply bind_run; [by apply before_claim_run|]; rewrite (after_claim_run _ _ _ _ (match last l1 with None => set_ends x (mop_last o) o | Some _ => o end));
      [|cbn; auto|done|cbn; by rewrite lookup_insert_eq]; cbn [heap mops set_heap set_mops]; fold h1.
    do 2 f_equal; unfold set_mops, set_heap; cbn; f_equal; rewrite insert_insert_eq; f_equal.
    pose proof (ends_splice o l1 [(r, k)] l2 [(s, k)] Hf Hla) as Ee; cbn in Ee; exact Ee.
  - split_and!.
    + split; [done|intros; unfold h1; by rewrite bare_cpv, bare_cnx|intros; rewrite Hs1 by done; apply relink_owner|].
      intros q j Hj Hno; rewrite Hs1 by done; apply Hsame; auto.
    + intros i; destruct (decide (i = m)) as [->|]; [rewrite lookup_insert_eq, Ho; done|by rewrite lookup_insert_ne].
    + intros len Hlen Hacc i oi li; destruct (decide (i = m)) as [->|]; [|rewrite !lookup_insert_ne by done; apply Hacc].
      rewrite !lookup_insert_eq; intros [= <-] [= <-]; destruct (Hacc _ _ _ Ho Hl) as [A1 A2]; cbn [allocated_ranges allocated_pages set_ends o'].
      rewrite A1, A2, !length_app, !total_app; cbn; rewrite Hlen; done.
  - assert (Hrs : forall q j, 0 <= j < 4 -> q = r \/ q = s -> slot h1 q j = slot (heap d) q j) by (intros; rewrite Hs1 by done; apply Hsame; naive_solver).
    assert (Hless : forall j, j <> k -> (j <? k + 1) = (j <? k)) by (intros; apply Bool.eq_iff_eq_true; rewrite !Z.ltb_lt; lia).
    split; [done| |intros; rewrite Hrs by (lia || auto); apply Hge; lia|intros j Hj; rewrite Hrs by (lia || auto); destruct (decide (j = k)) as [->|]; [by rewrite Hge by lia|apply Hlt; lia]].
    eapply (splice_claims S); [done|done| | |right; exists s|done|done].
    + intros q j Hj Hne Hni; change (last_or [(s, k)] (last_or l1 None)) with x; cbn [hd_or app]; unfold moving at 1; case_decide as Eq; [|case_decide as Eq'].
      * subst q; rewrite Hless, Hrs, Hsame by (set_solver || auto); unfold S, moving; by rewrite decide_True.
      * subst q; rewrite Hless, Hsame by (set_solver || auto); unfold S, moving; by rewrite decide_False, decide_True.
      * rewrite Hs1 by done; unfold relink, S, moving; rewrite !(decide_False (P := q = s)), !(decide_False (P := q = r)) by done; done.
    + intros i; unfold moving; rewrite decide_False, decide_True, (proj2 (Z.ltb_lt _ _)) by (done || lia); done.
    + split_and!; [done|done| | |].
      * unfold moving; rewrite decide_True, (proj2 (Z.ltb_lt _ _)) by (done || lia); rewrite Hrs, Srk by auto; apply Hge; lia.
      * intros i; unfold S, moving; rewrite decide_True, Z.ltb_irrefl by done; done.
      * intros j Hj; unfold S, moving; rewrite decide_True by done; destruct (j <? k) eqn:E; [zbool|done].
        rewrite Hlt by lia; intros Hw'; assert (j = k) by (by apply (Hone j k m)); lia.
Qed.

Lemma fixup_slots_run r s X n : forall k d C, Z.of_nat n + k = 4 -> 0 <= k -> s <> r -> mid_move r s X k (heap d) (mops d) C ->
  (forall j, 0 <= j < 4 -> owner (X j) = Null \/ exists m, owner (X j) = Mop m) ->
  (forall i j m, 0 <= i < 4 -> 0 <= j < 4 -> owner (X i) = Mop m -> owner (X j) = Mop m -> i = j) ->
  exists h' ms' C', fixup_slots n k s d = Some (tt, set_mops ms' (set_heap h' d)) /\ moved r s (heap d) (mops d) C h' ms' C' /\ mid_move r s X 4 h' ms' C'.
Proof.
  induction n as [|n IH]; intros k d C Hk Hk0 Hsr Hm HX Hone.
  { exists (heap d), (mops d), C; replace k with 4 in Hm by lia; split_and!; [by destruct d| |done]; split_and!; try done; by apply relinked_refl, (mv_four _ _ _ _ _ _ _ Hm). }
  destruct (fixup_slot_run r s X k d C) as (h1 & ms1 & C1 & E1 & M1 & Hm1); [lia|done..|].
  destruct (IH (k + 1) (set_mops ms1 (set_heap h1 d)) C1) as (h2 & ms2 & C2 & E2 & M2 & Hm2); [lia|lia|done..|].
  exists h2, ms2, C2; split_and!; [eapply bind_run; [exact E1|exact E2]|by eapply moves_trans|done].
Qed.

Lemma fixup_claims_run r s d h C : s <> r -> four (heap d) -> allocation_type (at_ (heap d) s) = allocation_node ->
  (forall j, 0 <= j < 4 -> slot (heap d) s j = slot h r j) -> (forall j, 0 <= j < 4 -> owner (slot h r j) = Null \/ exists m, owner (slot h r j) = Mop m) ->
  (forall q j, 0 <= j < 4 -> q <> r -> q <> s -> slot (heap d) q j = slot h q j) -> (forall j m, 0 <= j < 4 -> owner (slot h s j) <> Mop m) ->
  claims (slot h) (mops d) C ->
  exists h' ms' C', fixup_claims s d = Some (tt, set_mops ms' (set_heap h' d)) /\ moved r s (heap d) (mops d) C h' ms' C' /\
    claims (fun q j => if decide (q = r) then no_claim else slot h' q j) ms' C'.
Proof.
  intros Hsr H4 Ht Hs HX Hq Hsn Hc.
  destruct (fixup_slots_run r s (slot h r) 4 0 d C) as (h' & ms' & C' & E & Hr & Hm); [done|lia|done| |done| |].
  - split; [done| |intros; apply Hs; lia|lia]; eapply claims_ext; [|exact Hc]; unfold moving; intros q j k Hj; destruct (decide (q = s)) as [->|].
    + rewrite (proj2 (Z.ltb_ge _ _)) by lia; intros [?|?]; [by destruct (Hsn j k)|done].
    + destruct (decide (q = r)) as [->|]; [by rewrite (proj2 (Z.ltb_ge _ _)) by lia|by rewrite Hq].
  - intros i j m Hi Hj; by apply (cm_one _ _ _ Hc).
  - exists h', ms', C'; split_and!; [|done|].
    + unfold fixup_claims; eapply bind_run; [done|]; eapply bind_run; [apply assert_run; unfold is_type; by rewrite Ht|exact E].
    + eapply claims_ext; [|exact (mv_claims _ _ _ _ _ _ _ Hm)]; unfold moving; intros q j k Hj _; rewrite (proj2 (Z.ltb_lt _ _)) by lia.
      destruct (decide (q = s)) as [->|]; [by rewrite decide_False|done].
Qed.

(** *** The claims of the new part of a range *)

Definition own1 (c : claimer_t) : Z := match owner c with Mop _ => 1 | _ => 0 end.

Fixpoint cnt (X : Z -> claimer_t) (n : nat) : Z := match n with O => 0 | S n => cnt X n + own1 (X (Z.of_nat n)) end.

Lemma cnt_range X n : 0 <= cnt X n <= Z.of_nat n.
Proof. induction n; cbn; [lia|]; unfold own1 at 1 2; destruct (owner _); lia. Qed.

(** While claims are transferred from [r], from slot [k] on: [lf] is still due
    to the accounts of their owners. *)
Definition due (S : dref -> Z -> claimer_t) (r : dref) (k m : Z) : Prop := exists j, k <= j < 4 /\ owner (S r j) = Mop m.
Definition acc_due (len : dref -> Z) (lf : Z) (S : dref -> Z -> claimer_t) (r : dref) (k : Z) (ms : gmap Z mop_internal_t) (C : gmap Z (list claimer_link_t)) : Prop :=
  forall m o l, ms !! m = Some o -> C !! m = Some l -> allocated_ranges o = u64 (Z.of_nat (List.length l)) /\
    exists x, allocated_pages o = u64 (total len l + x) /\ (due S r k m /\ x = lf \/ ~ due S r k m /\ x = 0).

(** Only the ends and the accounts have changed. *)
Definition book_only (ms ms' : gmap Z mop_internal_t) : Prop :=
  forall m, set_account 0 0 ∘ set_ends None None <$> ms' !! m = set_account 0 0 ∘ set_ends None None <$> ms !! m.

(** The slots of [f] are those of [r] up to [k], and the rest of them is free. *)
Record taking (S : dref -> Z -> claimer_t) (r f : dref) (k : Z) : Prop := mk_taking {
  tk_done : forall j, 0 <= j < k -> owner (S f j) = owner (S r j) /\ n_claims (S f j) = n_claims (S r j);
  tk_free : forall j, k <= j < 4 -> owner (S f j) = Null /\ n_claims (S f j) = 0;
  tk_from : forall j, 0 <= j < 4 -> owner (S r j) = Null /\ n_claims (S r j) = 0 \/ exists m, owner (S r j) = Mop m }.

(** The slots of the other descriptors: who owns them and how often. *)
Definition others (f : dref) h h' : Prop := forall q j, 0 <= j < 4 -> q <> f ->
  owner (slot h' q j) = owner (slot h q j) /\ n_claims (slot h' q j) = n_claims (slot h q j) /\ ((forall m, owner (slot h q j) <> Mop m) -> slot h' q j = slot h q j).

Lemma joined_others h h' m f k times C ms l : claims (slot h) ms C -> C !! m = Some l ->
  (forall q j, 0 <= j < 4 -> slot h' q j = joined (slot h) m f k times (last l) q j) -> others f h h'.
Proof.
  intros Hc Hl Hs q j Hj Hq; rewrite Hs by done; unfold joined; rewrite decide_False by congruence.
  case_decide as E; [|done]; split_and!; [done..|]; intros Hn; apply last_Some_elem_of in E; by destruct (Hn m), (cm_node _ _ _ Hc m l _ Hl E).
Qed.

(** Where the transfer stands. *)
Record mid_transfer (r f : dref) (k : Z) h (ms : gmap Z mop_internal_t) (C : gmap Z (list claimer_link_t)) : Prop := mk_mid_transfer {
  tr_four : four h; tr_claims : claims (slot h) ms C; tr_taking : taking (slot h) r f k;
  tr_type : allocation_type (at_ h f) = allocation_node; tr_used : claims_used (at_ h f) = cnt (slot h r) (Z.to_nat k) }.

(** What it does to the rest. *)
Definition transferred (r f : dref) (k k' : Z) h ms C h' ms' C' : Prop :=
  book_only ms ms' /\ others f h h' /\ (forall q, set_used 0 (bare (at_ h' q)) = set_used 0 (bare (at_ h q)) /\ (q <> f -> claims_used (at_ h' q) = claims_used (at_ h q))) /\
  forall len, acc_due len (len f) (slot h) r k ms C -> acc_due len (len f) (slot h') r k' ms' C'.

Lemma transferred_trans r f k k1 k2 h ms C h1 ms1 C1 h2 ms2 C2 :
  transferred r f k k1 h ms C h1 ms1 C1 -> transferred r f k1 k2 h1 ms1 C1 h2 ms2 C2 -> transferred r f k k2 h ms C h2 ms2 C2.
Proof.
  intros (A1 & A2 & A3 & A4) (B1 & B2 & B3 & B4); split_and!; [intros m; by rewrite B1, A1| | |auto].
  - intros q j Hj Hq; destruct (A2 q j Hj Hq) as (E1 & E2 & E3), (B2 q j Hj Hq) as (F1 & F2 & F3); split_and!; [congruence..|].
    intros Hn; rewrite F3, E3; [done..|]; intros m; rewrite E1; done.
  - intros q; destruct (A3 q) as [E1 E2], (B3 q) as [F1 F2]; split; [congruence|]; intros Hq; rewrite F2, E2 by done; done.
Qed.

Lemma cnt_ext X Y n : (forall j, 0 <= j < Z.of_nat n -> owner (X j) = owner (Y j)) -> cnt X n = cnt Y n.
Proof. induction n as [|n IH]; intros H; cbn; [done|]; rewrite IH by (intros; apply H; lia); unfold own1; by rewrite H by lia. Qed.

Lemma cnt_next X k : 0 <= k -> cnt X (Z.to_nat (k + 1)) = cnt X (Z.to_nat k) + own1 (X k).
Proof. intros Hk; replace (Z.to_nat (k + 1)) with (S (Z.to_nat k)) by lia; cbn [cnt]; by rewrite Z2Nat.id by lia. Qed.

(** A slot nobody owns. *)
Lemma transfer_free r f k h ms C : 0 <= k < 4 -> owner (slot h r k) = Null -> mid_transfer r f k h ms C ->
  transferred r f k (k + 1) h ms C h ms C /\ mid_transfer r f (k + 1) h ms C.
Proof.
  intros Hk Hn [H4 Hc [Td Tf Tr] Ht Hu]; split; [split_and!; try done|split; try done].
  - intros len Ha i o l Ho Hl; destruct (Ha i o l Ho Hl) as (B1 & x & B2 & B3); split; [done|]; exists x; split; [done|].
    assert (Hd : due (slot h) r (k + 1) i <-> due (slot h) r k i); [|by rewrite Hd].
    split; intros (j & Hj & Hw); exists j; split; try done; [lia|]; destruct (decide (j = k)) as [->|]; [congruence|lia].
  - split; [|intros; apply Tf; lia|done]; intros j Hj; destruct (decide (j = k)) as [->|]; [|apply Td; lia].
    destruct (Tf k ltac:(lia)) as [-> ->], (Tr k Hk) as [[-> ->]|[m E]]; [done|congruence].
  - rewrite Hu, cnt_next by lia; unfold own1; rewrite Hn; lia.
Qed.

(** The account of an owner after the transfer to [f]. *)
Lemma acc_due_step len S S' r f k m o l ms C pages : claims S ms C -> 0 <= k < 4 -> owner (S r k) = Mop m -> ms !! m = Some o -> C !! m = Some l -> r <> f ->
  (forall j, 0 <= j < 4 -> owner (S' r j) = owner (S r j)) -> pages = allocated_pages o ->
  acc_due len (len f) S r k ms C ->
  acc_due len (len f) S' r (k + 1) (<[m := set_account pages (u64 (allocated_ranges o + 1)) (set_ends (head (l ++ [(f, k)])) (Some (f, k)) o)]> ms) (<[m := l ++ [(f, k)]]> C).
Proof.
  intros Hc Hk Hm Ho Hl Hrf Hw -> Ha i oi li.
  assert (Hd : forall i, i <> m -> due S' r (k + 1) i <-> due S r k i).
  { intros i' Hi; split; intros (j & Hj & E); exists j; [rewrite Hw in E by lia; split; [lia|done]|].
    rewrite Hw by lia; split; [|done]; destruct (decide (j = k)) as [->|]; [congruence|lia]. }
  destruct (decide (i = m)) as [->|]; [|rewrite !lookup_insert_ne by done; intros Hoi Hli; destruct (Ha i oi li Hoi Hli) as (A1 & x & A2 & A3); split; [done|]; exists x; by rewrite Hd].
  rewrite !lookup_insert_eq; intros [= <-] [= <-]; destruct (Ha m o l Ho Hl) as (A1 & x & A2 & A3); cbn [allocated_ranges allocated_pages set_account set_ends]; split.
  - rewrite A1, length_app, wrap_add_l by lia; f_equal; cbn; lia.
  - exists 0; split; [|right; split; [|done]].
    + rewrite A2, total_app; cbn; destruct A3 as [[_ ->]|[A3 _]]; [f_equal; lia|destruct A3; exists k; split; [lia|done]].
    + intros (j & Hj & E); rewrite Hw in E by lia; assert (j = k) by (apply (cm_one _ _ _ Hc m r); [lia..|done|done]); lia.
Qed.

Lemma transfer_slot_run r f k d C : 0 <= k < 4 -> r <> f -> mid_transfer r f k (heap d) (mops d) C ->
  exists h' ms' C', transfer_slot k r f (d_length (at_ (heap d) f)) d = Some (tt, set_mops ms' (set_heap h' d)) /\
    transferred r f k (k + 1) (heap d) (mops d) C h' ms' C' /\ mid_transfer r f (k + 1) h' ms' C'.
Proof.
  intros Hk Hrf Hmid; pose proof Hmid as [H4 Hc [Td Tf Tr] Ht Hu]; destruct (Tr k Hk) as [[Hn _]|[m Hm]].
  { exists (heap d), (mops d), C; split; [|by apply transfer_free]; unfold transfer_slot; eapply bind_run; [by apply claim_at_run|]; rewrite Hn; by destruct d. }
  destruct (cm_all _ _ _ Hc m r k Hk Hm) as (l & Hl & _); destruct (claims_mop _ _ _ _ _ Hc Hl) as (o & Ho & Hf & Hla).
  assert (Hone : forall j, 0 <= j < 4 -> owner (slot (heap d) f j) <> Mop m).
  { intros j Hj Hw; destruct (decide (j < k)); [|by rewrite (proj1 (Tf j ltac:(lia))) in Hw].
    rewrite (proj1 (Td j ltac:(lia))) in Hw; assert (j = k) by (by apply (cm_one _ _ _ Hc m r)); lia. }
  destruct (claim_node_run m f k (n_claims (slot (heap d) r k)) d C l o) as (h1 & E1 & F1 & B1 & S1 & C1); try done; [apply Tf; lia|].
  set (o1 := set_account _ _ _) in E1, C1; pose proof (joined_others _ _ _ _ _ _ _ _ _ Hc Hl S1) as J1.
  set (o2 := set_account (u64 (allocated_pages o1 - d_length (at_ (heap d) f))) (allocated_ranges o1) o1).
  assert (Sf : forall j, 0 <= j < 4 -> slot h1 f j = if decide (j = k) then mk_claimer (Mop m) Null (of_link (last l)) (n_claims (slot (heap d) r k)) else slot (heap d) f j).
  { intros j Hj; rewrite S1 by done; unfold joined; destruct (decide (j = k)) as [->|]; [by rewrite decide_True|]; rewrite !decide_False; [done| |congruence].
    intros E%last_Some_elem_of; by destruct (Hone j Hj), (cm_node _ _ _ Hc m l _ Hl E). }
  assert (Hr : forall j, 0 <= j < 4 -> owner (slot h1 r j) = owner (slot (heap d) r j)) by (intros j Hj; apply (J1 r j Hj Hrf)).
  assert (Bf : forall q, bare (at_ h1 q) = if decide (q = f) then set_used (cnt (slot (heap d) r) (Z.to_nat (k + 1))) (bare (at_ (heap d) f)) else bare (at_ (heap d) q)).
  { intros q; rewrite B1; case_decide; [|done]; f_equal; rewrite Hu, cnt_next by lia; unfold own1; rewrite Hm.
    pose proof (cnt_range (slot (heap d) r) (Z.to_nat k)); apply wrap_small; unfold in_range; lia. }
  exists h1, (<[m := o2]> (mops d)), (<[m := l ++ [(f, k)]]> C); split_and!.
  - unfold transfer_slot; eapply bind_run; [by apply claim_at_run|]; rewrite bool_decide_eq_false_2 by (rewrite Hm; done).
    eapply bind_run; [apply lift_run; by rewrite Hm|]; eapply bind_run; [exact E1|]; rewrite (mput_run m o1) by (cbn; by rewrite lookup_insert_eq).
    do 2 f_equal; unfold set_mops, set_heap; cbn; f_equal; by rewrite insert_insert_eq.
  - split_and!; [|done| |].
    + intros i; destruct (decide (i = m)) as [->|]; [rewrite lookup_insert_eq, Ho; done|by rewrite lookup_insert_ne].
    + intros q; split; [rewrite Bf; by case_decide; subst|intros Hq; transitivity (claims_used (bare (at_ h1 q))); [done|]; by rewrite Bf, decide_False].
    + intros len Ha; eapply (acc_due_step len _ _ r f k m o l); try done; unfold o1; cbn.
      rewrite wrap_sub_l by lia; replace (allocated_pages o + _ - _) with (allocated_pages o) by lia.
      destruct (Ha m o l Ho Hl) as (_ & x & A2 & _); rewrite A2; apply wrap_wrap; lia.
  - split; [done| | |transitivity (allocation_type (bare (at_ h1 f))); [done|]; rewrite Bf, decide_True by done; done|].
    + eapply claims_ext; [|eapply (joined_claims _ _ _ m l f k); [done..|intros; rewrite (proj1 (Tf k ltac:(lia))); done|done|done|done]]; intros q j i Hj _; by apply S1.
    + split.
      * intros j Hj; rewrite Sf by lia; destruct (J1 r j ltac:(lia) Hrf) as (E2 & E3 & _); rewrite E2, E3.
        case_decide; [subst; by rewrite Hm|apply Td; lia].
      * intros j Hj; rewrite Sf, decide_False by lia; apply Tf; lia.
      * intros j Hj; destruct (J1 r j Hj Hrf) as (E2 & E3 & _); rewrite E2, E3; by apply Tr.
    + transitivity (claims_used (bare (at_ h1 f))); [done|]; rewrite Bf, decide_True by done; cbn; apply cnt_ext; intros j Hj; symmetry; apply Hr; lia.
Qed.

Lemma transfer_slots_run r f n : forall k d C, Z.of_nat n + k = 4 -> 0 <= k -> r <> f -> mid_transfer r f k (heap d) (mops d) C ->
  exists h' ms' C', transfer_slots n k r f (d_length (at_ (heap d) f)) d = Some (tt, set_mops ms' (set_heap h' d)) /\
    transferred r f k 4 (heap d) (mops d) C h' ms' C' /\ mid_transfer r f 4 h' ms' C'.
Proof.
  induction n as [|n IH]; intros k d C Hk Hk0 Hrf Hm.
  { exists (heap d), (mops d), C; replace k with 4 in * by lia; split_and!; [by destruct d| |done]; split_and!; done. }
  destruct (transfer_slot_run r f k d C) as (h1 & ms1 & C1 & E1 & M1 & Hm1); [lia|done..|].
  destruct (IH (k + 1) (set_mops ms1 (set_heap h1 d)) C1) as (h2 & ms2 & C2 & E2 & M2 & Hm2); [lia|lia|done..|].
  exists h2, ms2, C2; split_and!; [|by eapply transferred_trans|done]; eapply bind_run; [exact E1|].
  replace (d_length (at_ (heap d) f)) with (d_length (at_ h1 f)); [exact E2|]; destruct M1 as (_ & _ & M1 & _).
  transitivity (d_length (set_used 0 (bare (at_ h1 f)))); [done|]; by rewrite (proj1 (M1 f)).
Qed.

Lemma transfer_claims_run r f d C : r <> f -> mid_transfer r f 0 (heap d) (mops d) C ->
  exists h' ms' C', transfer_claims r f d = Some (tt, set_mops ms' (set_heap h' d)) /\
    transferred r f 0 4 (heap d) (mops d) C h' ms' C' /\ mid_transfer r f 4 h' ms' C'.
Proof. intros Hrf Hm; destruct (transfer_slots_run r f 4 0 d C) as (h' & ms' & C' & E & H'); [done..|]; exists h', ms', C'; split; [exact E|done]. Qed.

End Claims.
