(* ===== verification/MmapTree.v ===== *)
(** * The tables of the directory

    The descriptors are the leaves of a tree of tables.  [tree] says how a table
    and its place in the tree go together with the ranges: an entry with no
    range that starts in its part of memory is empty, one with one such range
    is that range, or else it is a table that sums up the ranges below it.  The
    ranges are given level by level, so that a change on the way through the
    levels is a change of one entry: [tree_set]. *)

From S2P Require Import Prelude Pmem PageTable Vmem Mmap MmapList MmapClaims.

(** ** Indices *)

(** The number of the part of memory at a level that a page is in. *)
Definition key (lv s : Z) : Z := s / 2 ^ (9 * (2 - lv)).

Lemma max_pages : MAX_VIRTUAL_PAGES = 2 ^ 27.
Proof. done. Qed.

Lemma NDX_key s lv : 0 <= lv <= 2 -> NDX s lv = key lv s mod 512.
Proof.
  intros Hl; unfold NDX, key; change PAGE_TABLE_BITS_PER_LEVEL with 9.
  change (PAGE_TABLE_ENT_PER_TABLE - 1) with (Z.ones 9); rewrite Z.land_ones, Z.shiftr_div_pow2 by lia; done.
Qed.

Lemma key_down s lv : 0 <= lv < 2 -> key (lv + 1) s / 512 = key lv s.
Proof.
  intros Hl; unfold key; rewrite Z.div_div by lia; f_equal; change 512 with (2 ^ 9); rewrite <- Z.pow_add_r by lia; f_equal; lia.
Qed.

Lemma key_sub s lv : 0 <= lv < 2 -> key (lv + 1) s = key lv s * 512 + NDX s (lv + 1).
Proof. intros Hl; rewrite NDX_key, <- (key_down s lv) by lia; pose proof (Z.div_mod (key (lv + 1) s) 512); lia. Qed.

Lemma key_root s : 0 <= s < 2 ^ 27 -> key 0 s = NDX s 0.
Proof. intros Hs; rewrite NDX_key by lia; symmetry; apply Z.mod_small; unfold key; change (2 ^ (9 * (2 - 0))) with 262144.
  split; [apply Z.div_pos; lia|apply Z.div_lt_upper_bound; lia].
Qed.

Lemma key_last s : key 2 s = s.
Proof. unfold key; cbn; apply Z.div_1_r. Qed.

Lemma key_mono lv s s' : 0 <= lv <= 2 -> s <= s' -> key lv s <= key lv s'.
Proof. intros Hl Hs; apply Z.div_le_mono; lia. Qed.

Lemma NDX_range s lv : 0 <= lv <= 2 -> 0 <= NDX s lv < 512.
Proof. intros Hl; rewrite NDX_key by done; by apply Z.mod_pos_bound. Qed.

Lemma page_addr_small s : 0 <= s < 2 ^ 52 -> page_addr s = s * 4096.
Proof. intros Hs; unfold page_addr; rewrite Z.shiftl_mul_pow2 by done; change (2 ^ UNTRANSLATED_BITS) with 4096; apply wrap_small; unfold in_range; lia. Qed.

Lemma index_NDX s : 0 <= s < 2 ^ 27 -> L0_INDEX (page_addr s) = NDX s 0 /\ L1_INDEX (page_addr s) = NDX s 1 /\ L2_INDEX (page_addr s) = NDX s 2.
Proof.
  intros Hs; rewrite page_addr_small, !NDX_key by lia; unfold L0_INDEX, L1_INDEX, L2_INDEX, key, wrap.
  rewrite !Z.shiftr_div_pow2, !Z.shiftl_mul_pow2 by done.
  change (2 ^ (CHECKED_BITS + L1_BITS + L2_BITS + UNTRANSLATED_BITS)) with (2 ^ 55); change (2 ^ (CHECKED_BITS + L0_BITS + L2_BITS + UNTRANSLATED_BITS)) with (2 ^ 55);
  change (2 ^ (CHECKED_BITS + L0_BITS + L1_BITS + UNTRANSLATED_BITS)) with (2 ^ 55); change (2 ^ CHECKED_BITS) with (2 ^ 25); change (2 ^ (CHECKED_BITS + L0_BITS)) with (2 ^ 34);
  change (2 ^ (CHECKED_BITS + L0_BITS + L1_BITS)) with (2 ^ 43); change (2 ^ (9 * (2 - 0))) with (2 ^ 18); change (2 ^ (9 * (2 - 1))) with (2 ^ 9); change (2 ^ (9 * (2 - 2))) with 1.
  change (2 ^ 27) with 134217728 in Hs; Z.to_euclidean_division_equations; lia.
Qed.

(** ** The tree *)

Section Tree.

Context {W R : Type}.

Abbreviation desc := (vpage_range_desc_t R).

Implicit Types (h : gmap (Z * Z) desc) (d : dir W R) (T : gmap Z (Z * Z)) (x : desc).

(** [T] gives the level of a table and the part of memory it is for; [ct] the
    end of the range that starts at a page, as the entries of a level see it. *)
Implicit Type ct : Z -> Z -> option Z.

Definition entry T (t i lv k : Z) : Prop := exists p, T !! t = Some (lv, p) /\ 0 <= i < 512 /\ k = p * 512 + i.

Definition node x : Prop := d_length x <> 0 /\ allocation_type x = internal_node.
Definition leaf x : Prop := d_length x <> 0 /\ allocation_type x <> internal_node.
Definition fin x : Z := start x + d_length x.

(** Range [s] up to [e] starts in part [k]. *)
Definition counted ct (lv k s e : Z) : Prop := ct lv s = Some e /\ key lv s = k.

Record sums ct (lv k : Z) x : Prop := mk_sums {
  sm_first : exists e, counted ct lv k (start x) e; sm_last : exists s, counted ct lv k s (fin x);
  sm_all : forall s e, counted ct lv k s e -> start x <= s /\ e <= fin x }.

Record entry_ok T ct (lv k : Z) x : Prop := mk_entry {
  en_empty : d_length x = 0 -> forall s e, ~ counted ct lv k s e;
  en_leaf : leaf x -> counted ct lv k (start x) (fin x) /\ forall s e, counted ct lv k s e -> s = start x;
  en_node : node x -> lv < 2 /\ (exists t, sub_table x = Some t /\ T !! t = Some (lv + 1, k)) /\ sums ct lv k x }.

Record tree h T ct : Prop := mk_tree {
  tr_root : T !! root = Some (0, 0);
  tr_level : forall t lv p, T !! t = Some (lv, p) -> 0 <= lv <= 2 /\ (lv = 0 -> p = 0);
  tr_inj : forall t t' v, T !! t = Some v -> T !! t' = Some v -> t = t';
  tr_up : forall t lv p, T !! t = Some (lv, p) -> lv <> 0 -> exists t' i', entry T t' i' (lv - 1) p /\ node (at_ h (t', i')) /\ sub_table (at_ h (t', i')) = Some t;
  tr_entry : forall t i lv k, entry T t i lv k -> entry_ok T ct lv k (at_ h (t, i));
  tr_bound : forall lv s e, ct lv s = Some e -> 0 <= s < e /\ e <= 2 ^ 27 }.

(** What the tree knows of a descriptor. *)
Definition form x : Z * Z * bool * option Z := (start x, d_length x, bool_decide (allocation_type x = internal_node), sub_table x).

Lemma form_eq x y : form x = form y ->
  start x = start y /\ d_length x = d_length y /\ sub_table x = sub_table y /\ (node x <-> node y) /\ (leaf x <-> leaf y) /\ fin x = fin y.
Proof.
  unfold form, node, leaf, fin; intros [= E1 E2 E3 E4]; rewrite E1, E2; repeat split; try tauto;
    repeat match goal with H : _ /\ _ |- _ => destruct H end; try done.
  all: repeat case_bool_decide; naive_solver.
Qed.

Lemma entry_fun T t i lv k lv' k' : entry T t i lv k -> entry T t i lv' k' -> lv = lv' /\ k = k'.
Proof. intros (p & E & Hi & ->) (p' & E' & _ & ->); by simplify_eq. Qed.

Lemma entry_inj h T ct t i t' i' lv k : tree h T ct -> entry T t i lv k -> entry T t' i' lv k -> (t, i) = (t', i').
Proof.
  intros Ht (p & E & Hi & ->) (p' & E' & Hi' & Hk); assert (p = p') as <- by lia; assert (i = i') as <- by lia.
  by rewrite (tr_inj _ _ _ Ht t t' _ E E').
Qed.

Lemma entry_level h T ct t i lv k : tree h T ct -> entry T t i lv k -> 0 <= lv <= 2 /\ 0 <= i < 512.
Proof. intros Ht (p & E & Hi & _); by destruct (tr_level _ _ _ Ht _ _ _ E). Qed.

(** The entry of a table that a page has. *)
Lemma entry_at T t s lv : 0 <= lv <= 2 -> T !! t = Some (lv, key lv s / 512) -> entry T t (NDX s lv) lv (key lv s).
Proof.
  intros Hl E; exists (key lv s / 512); split_and!; [done|by apply NDX_range..|]; rewrite NDX_key by done; pose proof (Z.div_mod (key lv s) 512); lia.
Qed.

Lemma key_top s : 0 <= s < 2 ^ 27 -> key 0 s / 512 = 0.
Proof. intros Hs; rewrite key_root by done; apply Z.div_small, NDX_range; lia. Qed.

Lemma root_entry h T ct s : tree h T ct -> 0 <= s < 2 ^ 27 -> entry T root (NDX s 0) 0 (key 0 s).
Proof. intros Ht Hs; apply entry_at; [lia|]; rewrite key_top by done; by apply (tr_root _ _ _ Ht). Qed.

(** From an entry that is a table to the entry in it. *)
Lemma sub_entry_at h T ct t s lv x : tree h T ct -> entry_ok T ct lv (key lv s) x -> 0 <= lv -> node x -> sub_table x = Some t -> entry T t (NDX s (lv + 1)) (lv + 1) (key (lv + 1) s) /\ lv < 2.
Proof.
  intros Ht He Hl Hn Hs; destruct (en_node _ _ _ _ _ He Hn) as (Hlt & (t' & Hs' & HT) & _); simplify_eq.
  split; [|done]; apply entry_at; [lia|]; by rewrite key_down by lia.
Qed.

(** Counted ranges have an entry that is not empty. *)
Lemma counted_entry T ct lv s e x : entry_ok T ct lv (key lv s) x -> ct lv s = Some e -> node x \/ leaf x /\ start x = s /\ fin x = e.
Proof.
  intros He E; destruct (decide (d_length x = 0)) as [E0|E0]; [by destruct (en_empty _ _ _ _ _ He E0 s e)|].
  destruct (decide (allocation_type x = internal_node)); [by left|right]; assert (Hl : leaf x) by done.
  destruct (en_leaf _ _ _ _ _ He Hl) as [[E1 E2] Hu]; assert (s = start x) as -> by (by apply (Hu s e)); split_and!; [done..|]; congruence.
Qed.

Lemma entry_ok_ext T ct ct' lv k x y : form x = form y -> (forall s, key lv s = k -> ct' lv s = ct lv s) -> entry_ok T ct lv k x -> entry_ok T ct' lv k y.
Proof.
  intros (E1 & E2 & E3 & En & El & E4)%form_eq Hc; assert (Hct : forall s e, counted ct' lv k s e <-> counted ct lv k s e) by (intros; unfold counted; split; intros [A B]; split; try done; [by rewrite <- Hc|by rewrite Hc]).
  intros [H1 H2 H3]; split.
  - rewrite <- E2; intros; rewrite Hct; by apply H1.
  - rewrite <- El; intros Hl; rewrite Hct, <- E1, <- E4; destruct (H2 Hl) as [A B]; split; [done|]; intros s e; rewrite Hct; apply B.
  - rewrite <- En, <- E3; intros Hn; destruct (H3 Hn) as (A & B & [[e C1] [s C2] C3]); split_and!; [done..|]; split; rewrite <- ?E1, <- ?E4; [exists e; by rewrite Hct|exists s; by rewrite Hct|].
    intros s' e'; rewrite Hct; apply C3.
Qed.

(** One entry, and what its level sees of its part, may change at a time. *)
Lemma tree_set h T ct ct' h' t i lv k : tree h T ct -> entry T t i lv k ->
  (forall q, q <> (t, i) -> form (at_ h' q) = form (at_ h q)) ->
  (forall t' i' l k' s, entry T t' i' l k' -> (t', i') <> (t, i) -> key l s = k' -> ct' l s = ct l s) ->
  (forall l s e, ct' l s = Some e -> 0 <= s < e /\ e <= 2 ^ 27) ->
  (node (at_ h (t, i)) -> node (at_ h' (t, i)) /\ sub_table (at_ h' (t, i)) = sub_table (at_ h (t, i))) ->
  entry_ok T ct' lv k (at_ h' (t, i)) -> tree h' T ct'.
Proof.
  intros [H1 H2 H3 H4 H5 H6] He Hf Hc Hb Hn Hx; split; [done..| | |done].
  - intros u l p E Hl; destruct (H4 u l p E Hl) as (t' & i' & A1 & A2 & A3); exists t', i'; split; [done|].
    destruct (decide ((t', i') = (t, i))) as [[= -> ->]|Hne]; [destruct (Hn A2) as [B1 B2]; by rewrite B2|].
    destruct (form_eq _ _ (Hf _ Hne)) as (_ & _ & -> & -> & _); done.
  - intros u j l p E; destruct (decide ((u, j) = (t, i))) as [[= -> ->]|Hne]; [by destruct (entry_fun _ _ _ _ _ _ _ E He) as [-> ->]|].
    eapply entry_ok_ext; [symmetry; by apply Hf| |by apply H5]; intros s Hs; by eapply Hc.
Qed.

Lemma tree_form h h' T ct : (forall q, form (at_ h' q) = form (at_ h q)) -> tree h T ct -> tree h' T ct.
Proof.
  intros Hf [H1 H2 H3 H4 H5 H6]; split; [done..| | |done].
  - intros u l p E Hl; destruct (H4 u l p E Hl) as (t' & i' & A1 & A2 & A3); exists t', i'; split; [done|].
    destruct (form_eq _ _ (Hf (t', i'))) as (_ & _ & -> & -> & _); done.
  - intros u j l p E; eapply entry_ok_ext; [symmetry; by apply Hf|done|by apply H5].
Qed.

Lemma tree_ct h T ct ct' : (forall t i l k s, entry T t i l k -> key l s = k -> ct' l s = ct l s) -> (forall l s e, ct' l s = Some e -> 0 <= s < e /\ e <= 2 ^ 27) ->
  tree h T ct -> tree h T ct'.
Proof.
  intros Hc Hb [H1 H2 H3 H4 H5 H6]; split; [done..| |done]; intros u j l p E; eapply entry_ok_ext; [done| |by apply H5]; intros s Hs; by eapply Hc.
Qed.

(** ** Finding a range by its first page *)

(** [r] is the descriptor of the range from [s] to [e]. *)
Definition leaf_at h T (s e : Z) (r : dref) : Prop := leaf (at_ h r) /\ start (at_ h r) = s /\ fin (at_ h r) = e /\ exists lv, entry T r.1 r.2 lv (key lv s).

Lemma leaf_at_form h h' T s e r : form (at_ h' r) = form (at_ h r) -> leaf_at h T s e r -> leaf_at h' T s e r.
Proof. intros (E1 & _ & _ & _ & El & E2)%form_eq (B1 & B2 & B3 & B4); split; [by apply El|]; by rewrite E1, E2. Qed.

Lemma entry_mono T T' t i lv k : T ⊆ T' -> entry T t i lv k -> entry T' t i lv k.
Proof. intros HT (p & E & H); exists p; split; [by eapply lookup_weaken|done]. Qed.

Lemma leaf_at_mono h T T' s e r : T ⊆ T' -> leaf_at h T s e r -> leaf_at h T' s e r.
Proof. intros HT (B1 & B2 & B3 & lv & B4); split_and!; [apply B1..|done|done|]; exists lv; by eapply entry_mono. Qed.

Definition full ct (s e : Z) : Prop := forall lv, 0 <= lv <= 2 -> ct lv s = Some e.

(** One step down. *)
Lemma descend h T ct t lv s e : tree h T ct -> 0 <= lv -> entry T t (NDX s lv) lv (key lv s) -> full ct s e ->
  leaf_at h T s e (t, NDX s lv) /\ is_type internal_node (at_ h (t, NDX s lv)) = false \/
  node (at_ h (t, NDX s lv)) /\ is_type internal_node (at_ h (t, NDX s lv)) = true /\ lv < 2 /\
    exists t', sub_table (at_ h (t, NDX s lv)) = Some t' /\ entry T t' (NDX s (lv + 1)) (lv + 1) (key (lv + 1) s).
Proof.
  intros Ht Hl He Hf; pose proof (tr_entry _ _ _ Ht _ _ _ _ He) as Hx; destruct (entry_level _ _ _ _ _ _ _ Ht He) as [Hl2 _]; unfold is_type.
  destruct (counted_entry _ _ _ _ _ _ Hx (Hf lv Hl2)) as [Hn|(Hlf & E1 & E2)]; [right|left].
  - destruct (en_node _ _ _ _ _ Hx Hn) as (Hlt & (t' & Hs & _) & _); destruct (sub_entry_at _ _ _ _ _ _ _ Ht Hx Hl Hn Hs).
    split_and!; [apply Hn..|by rewrite (proj2 Hn)|done|eauto].
  - split; [split_and!; try done; [apply Hlf..|by exists lv]|]; apply bool_decide_eq_false_2, Hlf.
Qed.

Lemma hard_index_run d T ct s e : tree (heap d) T ct -> full ct s e -> 0 <= s < 2 ^ 27 -> exists r, hard_index s d = Some (Some r, d) /\ leaf_at (heap d) T s e r.
Proof.
  intros Ht Hf Hs; destruct (index_NDX s Hs) as (E0 & E1 & E2); unfold hard_index; rewrite (proj2 (Z.eqb_neq _ _)), E0, E1, E2 by (rewrite max_pages; lia).
  destruct (descend _ _ _ _ 0 s e Ht ltac:(lia) (root_entry _ _ _ s Ht Hs) Hf) as [[Hl Ei]|(_ & Ei & _ & t1 & Es & He)].
  { eexists; split; [|exact Hl]; eapply bind_run; [done|]; cbn beta; by rewrite Ei. }
  change (0 + 1) with 1 in He; destruct (descend _ _ _ _ 1 s e Ht ltac:(lia) He Hf) as [[Hl Ei1]|(_ & Ei1 & _ & t2 & Es1 & He1)].
  { eexists; split; [|exact Hl]; eapply bind_run; [done|]; cbn beta; rewrite Ei; eapply bind_run; [by apply lift_run|]; eapply bind_run; [done|]; cbn beta; by rewrite Ei1. }
  change (1 + 1) with 2 in He1; destruct (descend _ _ _ _ 2 s e Ht ltac:(lia) He1 Hf) as [[Hl Ei2]|(_ & _ & ? & _)]; [|lia].
  eexists; split; [|exact Hl]; eapply bind_run; [done|]; cbn beta; rewrite Ei; eapply bind_run; [by apply lift_run|]; eapply bind_run; [done|]; cbn beta; rewrite Ei1.
  eapply bind_run; [by apply lift_run|done].
Qed.

(** Above an entry are tables. *)
Lemma parent h T ct t i lv s : tree h T ct -> entry T t i lv (key lv s) -> lv <> 0 ->
  exists t' i', entry T t' i' (lv - 1) (key (lv - 1) s) /\ node (at_ h (t', i')) /\ sub_table (at_ h (t', i')) = Some t.
Proof.
  intros Ht He Hl; destruct (entry_level _ _ _ _ _ _ _ Ht He) as [Hl2 _]; destruct He as (p & E & Hi & Hk); destruct (tr_up _ _ _ Ht _ _ _ E Hl) as (t' & i' & He' & Hn).
  exists t', i'; split; [|done]; replace (key (lv - 1) s) with p; [done|]; pose proof (key_down s (lv - 1) ltac:(lia)) as Hd.
  replace (lv - 1 + 1) with lv in Hd by lia; rewrite <- Hd, Hk; apply Z.div_unique with i; lia.
Qed.

Lemma ancestors h T ct t i lv l s : tree h T ct -> entry T t i lv (key lv s) -> 0 <= l < lv -> exists t' i', entry T t' i' l (key l s) /\ node (at_ h (t', i')).
Proof.
  intros Ht He Hl; destruct (entry_level _ _ _ _ _ _ _ Ht He) as [Hl2 _]; destruct (parent _ _ _ _ _ _ _ Ht He ltac:(lia)) as (t1 & i1 & He1 & Hn1 & _).
  destruct (decide (l = lv - 1)) as [->|]; [eauto|]; assert (lv = 2) as -> by lia; assert (l = 0) as -> by lia; cbn in He1.
  destruct (parent _ _ _ _ _ _ _ Ht He1 ltac:(lia)) as (t2 & i2 & He2 & Hn2 & _); eauto.
Qed.

(** There is one descriptor for a range. *)
Lemma leaf_at_level h T ct s e e' r r' lv lv' : tree h T ct -> leaf_at h T s e r -> leaf_at h T s e' r' -> entry T r.1 r.2 lv (key lv s) -> entry T r'.1 r'.2 lv' (key lv' s) -> lv <= lv' -> r = r'.
Proof.
  intros Ht (Hl & _ & _ & _) _ He He' Hle; destruct (decide (lv = lv')) as [<-|]; [destruct r, r'; by apply (entry_inj h T ct _ _ _ _ lv (key lv s))|].
  destruct (ancestors _ _ _ _ _ _ lv _ Ht He') as (t1 & i1 & He1 & Hn1); [split; [apply (entry_level _ _ _ _ _ _ _ Ht He)|lia]|].
  rewrite (surjective_pairing r) in Hl; rewrite (entry_inj _ _ _ _ _ _ _ _ _ Ht He He1) in Hl; destruct Hl, Hn1; done.
Qed.

Lemma leaf_at_fun h T ct s e e' r r' : tree h T ct -> leaf_at h T s e r -> leaf_at h T s e' r' -> r = r'.
Proof.
  intros Ht H1 H2; pose proof H1 as (_ & _ & _ & lv & E1); pose proof H2 as (_ & _ & _ & lv' & E2); destruct (decide (lv <= lv')).
  - by apply (leaf_at_level h T ct s e e' r r' lv lv').
  - symmetry; apply (leaf_at_level h T ct s e' e r' r lv' lv); auto; lia.
Qed.

(** ** The search by page *)

(** The way to the first page of a range, as far as level [lv]. *)
Definition way (s lv : Z) (ixs : list Z) : Prop := List.length ixs = 3%nat /\ forall l, 0 <= l <= lv -> zget ixs l = Some (NDX s l).

Lemma way_path s : way s 2 (path_of s).
Proof. split; [done|]; intros l Hl; assert (l = 0 \/ l = 1 \/ l = 2) as [->|[->| ->]] by lia; done. Qed.

Lemma way_le s lv lv' ixs : lv' <= lv -> way s lv ixs -> way s lv' ixs.
Proof. intros Hl [H1 H2]; split; [done|]; intros; apply H2; lia. Qed.

Lemma way_next s lv ixs : -1 <= lv < 2 -> way s lv ixs -> way s (lv + 1) (<[Z.to_nat (lv + 1) := NDX s (lv + 1)]> ixs).
Proof.
  intros Hlv [H1 H2]; split; [by rewrite length_insert|]; intros l Hl; unfold zget; rewrite (proj2 (Z.leb_le 0 l)) by lia.
  destruct (decide (l = lv + 1)) as [->|]; [rewrite list_lookup_insert_eq by lia; done|rewrite list_lookup_insert_ne by lia].
  specialize (H2 l ltac:(lia)); unfold zget in H2; by rewrite (proj2 (Z.leb_le 0 l)) in H2 by lia.
Qed.

Lemma soft_loop_run T ct s e n : forall d t lv ndx ixs, tree (heap d) T ct -> full ct s e -> 0 <= lv -> Z.of_nat n + lv = 3 -> entry T t (NDX s lv) lv (key lv s) -> way s (lv - 1) ixs ->
  exists r ixs', soft_loop n s t lv ndx (NDX s lv) ixs d = Some ((r, ixs'), d) /\ leaf_at (heap d) T s e r /\ exists l, entry T r.1 r.2 l (key l s) /\ way s l ixs'.
Proof.
  induction n as [|n IH]; intros d t lv ndx ixs Ht Hf Hl Hn He Hw; [destruct (entry_level _ _ _ _ _ _ _ Ht He); lia|].
  pose proof (tr_entry _ _ _ Ht _ _ _ _ He) as Hx; assert (Hlv : 0 <= lv <= 2) by (by destruct (entry_level _ _ _ _ _ _ _ Ht He)).
  assert (Hgo : forall {B} (f : Z -> M B) z, f (NDX s lv) d = z -> ((if d_length (at_ (heap d) (t, NDX s lv)) =? 0 then soft_walk 512 t lv s ndx
             else if s <? start (at_ (heap d) (t, NDX s lv)) then mret (NDX (d_prev (at_ (heap d) (t, NDX s lv))) lv)
             else mret (NDX s lv)) ≫= f) d = z).
  { intros B f z Hz; eapply bind_run; [|exact Hz]; destruct (counted_entry _ _ _ _ _ _ Hx (Hf lv Hlv)) as [[Hn1 Hn2]|((Hn1 & Hn2) & E1 & E2)]; rewrite (proj2 (Z.eqb_neq _ _)) by done.
    - destruct (en_node _ _ _ _ _ Hx (conj Hn1 Hn2)) as (_ & _ & [_ _ Ha]); destruct (Ha s e) as [Hs _]; [split; [by apply Hf|done]|]; by rewrite (proj2 (Z.ltb_ge _ _)).
    - by rewrite E1, Z.ltb_irrefl. }
  pose proof (way_next s (lv - 1) ixs ltac:(lia) Hw) as Hw'; replace (lv - 1 + 1) with lv in Hw' by lia.
  cbn [soft_loop]; destruct (descend _ _ _ _ lv s e Ht Hl He Hf) as [[Hleaf Ei]|(_ & Ei & Hlt & t1 & Es & He1)].
  - eexists _, _; split; [|split; [exact Hleaf|exists lv; split; [exact He|exact Hw']]].
    eapply bind_run; [done|]; apply Hgo; eapply bind_run; [done|]; cbn beta; rewrite Ei; done.
  - destruct (IH d t1 (lv + 1) (NDX (start (at_ (heap d) (t, NDX s lv))) (lv + 1)) (<[Z.to_nat lv := NDX s lv]> ixs)) as (r & ixs' & E & Hr); [done|done|lia|lia|done|by replace (lv + 1 - 1) with lv by lia|].
    exists r, ixs'; split; [|exact Hr]; eapply bind_run; [done|]; apply Hgo; eapply bind_run; [done|]; cbn beta; rewrite Ei; cbn [negb].
    eapply bind_run; [by apply lift_run|exact E].
Qed.

Lemma soft_index_run d T ct s e : tree (heap d) T ct -> full ct s e -> 0 <= s < 2 ^ 27 ->
  exists r ixs, soft_index s d = Some ((r, ixs), d) /\ leaf_at (heap d) T s e r /\ exists l, entry T r.1 r.2 l (key l s) /\ way s l ixs.
Proof.
  intros Ht Hf Hs; apply (soft_loop_run T ct s e); try done; [by eapply root_entry|]; split; [done|]; lia.
Qed.

End Tree.
