(* ===== verification/MmapInv.v ===== *)
(** * The invariant of the directory

    What holds of the directory between two operations, with the abstract state
    beside it: [I] gives for each range, by its first page, its end, its type,
    its reservation and who claims it.  The first operation shown to keep the
    invariant is [leaf_to_internal], which makes a table out of a range: it
    moves a descriptor, mends the lists through it, and leaves [I] alone. *)

From S2P Require Import Prelude Pmem PageTable Vmem Mmap MmapList MmapClaims MmapTree.

(** ** What the nanokernel promises

    [covers w r a b]: [r] is an open reservation with its node at [a], for the
    memory up to [b].  A parent is asked for less than 64 GiB, as its child
    keeps 32 bits of the length. *)
Class NanoLaws (W R : Type) `{!Nano W R} := {
  covers : W -> R -> Z -> Z -> Prop;
  chunks : W -> nat;
  covers_pos : forall w r a b, covers w r a b -> a + 16 <= b;
  split_law : forall w r a b n, covers w r a b -> 0 <= n -> n mod 16 = 0 -> a + 32 + n <= b ->
    exists w' q, rescap_split w r n = Some (w', Some q) /\ covers w' r a (a + 16 + n) /\ covers w' q (a + 16 + n) b /\ chunks w' = chunks w /\
      forall r' a' b', covers w r' a' b' -> b' <= a \/ b <= a' -> covers w' r' a' b';
  parent_law : forall w r a b, covers w r a b -> a + 32 <= b <= a + 2 ^ 36 ->
    exists w' q, rescap_parent w r = Some (w', Some q) /\ covers w' q (a + 16) b /\ chunks w' = chunks w /\
      forall r' a' b', covers w r' a' b' -> b' <= a \/ b <= a' -> covers w' r' a' b';
  chunk_law : forall w n, chunks w = S n ->
    exists w', new_desc_chunk w = Some w' /\ chunks w' = n /\ forall r a b, covers w r a b -> covers w' r a b
}.

Section Inv.

Context {W R : Type} `{!Nano W R} `{!NanoLaws W R}.

Abbreviation desc := (vpage_range_desc_t R).

Implicit Types (h : gmap (Z * Z) desc) (d : dir W R) (T : gmap Z (Z * Z)) (x : desc) (P : list (list dref)) (C : gmap Z (list claimer_link_t)) (A : Z -> Z) (ct : Z -> Z -> option Z).

(** ** The abstract state *)

Record info := mk_info { i_end : Z; i_type : allocation_type_t; i_res : option R; i_alloc : Z; i_prev : Z; i_own : list (option (Z * Z)) }.

Definition own (c : claimer_t) : option (Z * Z) := match owner c with Mop m => Some (m, n_claims c) | _ => None end.
Definition owns h (r : dref) : list (option (Z * Z)) := map (fun i => own (slot h r i)) [0; 1; 2; 3].
Definition info_of h (r : dref) : info :=
  let x := at_ h r in mk_info (fin x) (allocation_type x) (reservation x) (allocated_length x) (d_prev x) (owns h r).

Implicit Type I : gmap Z info.

Definition is_leaf h T (r : dref) : Prop := leaf (at_ h r) /\ exists lv k, entry T r.1 r.2 lv k.

(** The slots of a descriptor, as its type has them. *)
Definition slots_ok h (r : dref) : Prop :=
  claims_used (at_ h r) = cnt (slot h r) 4 /\
  match allocation_type (at_ h r) with
  | open_node => is_Some (reservation (at_ h r)) /\ forall i, 0 <= i < 4 -> n_claims (slot h r i) = 0 /\ (forall m, owner (slot h r i) <> Mop m) /\ (i <> 0 -> owner (slot h r i) = Null)
  | allocation_node => forall i, 0 <= i < 4 -> owner (slot h r i) = Null /\ n_claims (slot h r i) = 0 \/ exists m, owner (slot h r i) = Mop m
  | _ => False
  end.

Definition blank h (r : dref) : Prop :=
  allocation_type (at_ h r) = free_node /\ claims_used (at_ h r) = 0 /\ forall i, 0 <= i < 4 -> owner (slot h r i) = Null /\ n_claims (slot h r i) = 0.

(** The first pages of the address space have a reservation; the rest has none. *)
Definition VIRT_END : Z := Z.shiftl MAX_VIRTUAL_PAGES 12 - Z.shiftl 64 30 * 2.

Record ok d ct A I T P C : Prop := mk_ok {
  ok_four : four (heap d); ok_tree : tree (heap d) T ct; ok_pools : pools (heap d) (pool_heads d) P; ok_claims : claims (slot (heap d)) (mops d) C;
  ok_acc : acc (fun r => A (start (at_ (heap d) r))) (mops d) C;
  ok_view : forall r, is_leaf (heap d) T r -> I !! start (at_ (heap d) r) = Some (info_of (heap d) r);
  ok_slots : forall r, is_leaf (heap d) T r -> slots_ok (heap d) r;
  ok_open : forall r, is_leaf (heap d) T r -> allocation_type (at_ (heap d) r) = open_node -> exists j l, P !! j = Some l /\ r ∈ l;
  ok_listed : forall j l r, P !! j = Some l -> r ∈ l -> is_leaf (heap d) T r;
  ok_claimed : forall r i m, 0 <= i < 4 -> owner (slot (heap d) r i) = Mop m -> is_leaf (heap d) T r /\ allocation_type (at_ (heap d) r) = allocation_node;
  ok_blank : forall r, d_length (at_ (heap d) r) = 0 -> blank (heap d) r;
  ok_known : forall t v, T !! t = Some v -> 0 <= t <= tables d;
  ok_fresh : forall t i, tables d < t -> at_ (heap d) (t, i) = desc0;
  ok_free : free_tables d = [] /\ being_revoked d = None; ok_pool_n : pool_n d <= DESC_ALLOC_N_PER_POOL;
  ok_world : forall s i, I !! s = Some i -> i_type i = open_node -> exists r, i_res i = Some r /\ covers (world d) r (s * 4096) (Z.min (i_end i * 4096) VIRT_END) }.

(** How many tables there is room for. *)
Definition room d : Z := Z.of_nat (chunks (world d)) * DESC_ALLOC_N_PER_POOL + (DESC_ALLOC_N_PER_POOL - pool_n d).

(** A new table: the world may have changed. *)
Lemma alloc_run d : free_tables d = [] -> 0 < room d -> pool_n d <= DESC_ALLOC_N_PER_POOL ->
  exists w n, desc_table_alloc d = Some (tables d + 1, set_tables (tables d + 1) n [] (set_world w d)) /\ n <= DESC_ALLOC_N_PER_POOL /\
    Z.of_nat (chunks w) * DESC_ALLOC_N_PER_POOL + (DESC_ALLOC_N_PER_POOL - n) = room d - 1 /\ forall r a b, covers (world d) r a b -> covers w r a b.
Proof.
  intros Hf Hr Hn; unfold desc_table_alloc; unfold room in *; change DESC_ALLOC_N_PER_POOL with 97 in *; destruct (pool_n d =? 97) eqn:E; zbool.
  - destruct (chunks (world d)) as [|n] eqn:Ec; [lia|]; destruct (chunk_law (world d) n Ec) as (w & Ew & Ec' & Hw); exists w, 1; split_and!; [|lia|rewrite Ec'; lia|done].
    do 3 (eapply bind_run; [done|]); cbn beta; rewrite Hf, (proj2 (Z.eqb_eq _ _) E); eapply bind_run; [eapply bind_run; [unfold wrun; by rewrite Ew|done]|].
    eapply bind_run; [done|]; done.
  - exists (world d), (pool_n d + 1); split_and!; [|lia|lia|done].
    do 3 (eapply bind_run; [done|]); cbn beta; rewrite Hf, (proj2 (Z.eqb_neq _ _) E); do 2 (eapply bind_run; [done|]); by destruct d.
Qed.

(** ** Changes of links *)

(** The slots of [s] in [h'] are those of [r] in [h], whatever the links. *)
Definition same_slots h (r : dref) h' (s : dref) : Prop := forall i, 0 <= i < 4 -> n_claims (slot h' s i) = n_claims (slot h r i) /\
  (owner (slot h' s i) = owner (slot h r i) \/
   i = 0 /\ allocation_type (at_ h r) = open_node /\ (forall m, owner (slot h r i) <> Mop m) /\ forall m, owner (slot h' s i) <> Mop m).

Lemma same_owner h r h' s i m : same_slots h r h' s -> 0 <= i < 4 -> owner (slot h' s i) = Mop m <-> owner (slot h r i) = Mop m.
Proof. intros H Hi; destruct (H i Hi) as [_ [->|(_ & _ & H1 & H2)]]; naive_solver. Qed.

Lemma same_own h r h' s i : same_slots h r h' s -> 0 <= i < 4 -> own (slot h' s i) = own (slot h r i) /\ own1 (slot h' s i) = own1 (slot h r i).
Proof.
  intros H Hi; unfold own, own1; destruct (H i Hi) as [-> [->|(_ & _ & H1 & H2)]]; [done|].
  destruct (owner (slot h r i)), (owner (slot h' s i)); try done; naive_solver.
Qed.

Lemma same_owns h r h' s : same_slots h r h' s -> owns h' s = owns h r /\ cnt (slot h' s) 4 = cnt (slot h r) 4.
Proof.
  intros H; unfold owns; cbn [map cnt]; change (Z.of_nat 0) with 0; change (Z.of_nat 1) with 1; change (Z.of_nat 2) with 2; change (Z.of_nat 3) with 3.
  destruct (same_own _ _ _ _ 0 H ltac:(lia)) as [-> ->], (same_own _ _ _ _ 1 H ltac:(lia)) as [-> ->], (same_own _ _ _ _ 2 H ltac:(lia)) as [-> ->].
  by destruct (same_own _ _ _ _ 3 H ltac:(lia)) as [-> ->].
Qed.

Lemma bare_fields x y : bare x = bare y ->
  form x = form y /\ allocation_type x = allocation_type y /\ reservation x = reservation y /\ claims_used x = claims_used y /\ start x = start y /\ d_length x = d_length y /\
  d_prev x = d_prev y /\ allocated_length x = allocated_length y.
Proof. unfold bare, form; intros [= -> -> -> -> -> -> -> ->]; done. Qed.

Lemma same_info h r h' s : bare (at_ h' s) = bare (at_ h r) -> same_slots h r h' s -> info_of h' s = info_of h r.
Proof.
  intros (_ & F1 & F2 & _ & E1 & E2 & F3 & F4)%bare_fields Hs; unfold info_of, fin; by rewrite (proj1 (same_owns _ _ _ _ Hs)), E1, E2, F1, F2, F3, F4.
Qed.

Lemma same_slots_ok h r h' s : bare (at_ h' s) = bare (at_ h r) -> same_slots h r h' s -> slots_ok h r -> slots_ok h' s.
Proof.
  intros Hb Hs [H1 H2]; destruct (bare_fields _ _ Hb) as (_ & Et & Er & Eu & _); split; [by rewrite Eu, H1, (proj2 (same_owns _ _ _ _ Hs))|].
  rewrite Et; destruct (allocation_type (at_ h r)) eqn:E; try done.
  - destruct H2 as [H2 H3]; split; [by rewrite Er|]; intros i Hi; destruct (H3 i Hi) as (A & B & D), (Hs i Hi) as [-> Ho]; split_and!; [done| |].
    + intros m; destruct Ho as [->|(_ & _ & _ & Ho)]; auto.
    + intros Hi0; destruct Ho as [->|(? & _)]; auto; lia.
  - intros i Hi; destruct (Hs i Hi) as [-> [->|(_ & ? & _)]]; [auto|congruence].
Qed.

(** A descriptor is its slots and the rest. *)
Lemma four_list (l : list claimer_t) : List.length l = 4%nat -> l = map (fun i => default no_claim (zget l i)) [0; 1; 2; 3].
Proof. destruct l as [|a [|b [|c [|e [|]]]]]; done. Qed.

Lemma at_eq h h' r s : four h -> four h' -> bare (at_ h' s) = bare (at_ h r) -> (forall i, 0 <= i < 4 -> slot h' s i = slot h r i) -> at_ h' s = at_ h r.
Proof.
  intros H H' Hb Hs; assert (Et : tracking (at_ h' s) = tracking (at_ h r)).
  { rewrite (four_list _ (H' s)), (four_list _ (H r)); cbn [map]; fold (slot h' s 0) (slot h' s 1) (slot h' s 2) (slot h' s 3); rewrite !Hs by lia; done. }
  destruct (at_ h' s), (at_ h r); unfold bare, set_tracking in Hb; cbn in *; congruence.
Qed.

(** ** A descriptor moves *)

(** The descriptor [x] of [r] is now at [s], and [r] is a table. *)
Record shifted h T (r : dref) (t i lv k : Z) h' : Prop := mk_shifted {
  sh_four : four h';
  sh_new : bare (at_ h' (t, i)) = bare (at_ h r) /\ same_slots h r h' (t, i);
  sh_old : form (at_ h' r) = (start (at_ h r), d_length (at_ h r), true, Some t) /\ forall j, 0 <= j < 4 -> slot h' r j = no_claim;
  sh_rest : forall q, q <> r -> q <> (t, i) -> bare (at_ h' q) = bare (at_ h q) /\ same_slots h q h' q /\ (~ leaf (at_ h q) -> forall j, 0 <= j < 4 -> slot h' q j = slot h q j) }.

Lemma shifted_tree h T ct r t lv k h' : let x := at_ h r in tree h T ct -> entry T r.1 r.2 lv k -> leaf x -> lv < 2 ->
  (forall s, key lv s = k -> ct (lv + 1) s = if decide (s = start x) then Some (fin x) else None) ->
  T !! t = None -> (forall i, at_ h (t, i) = desc0) -> shifted h T r t (NDX (start x) (lv + 1)) lv k h' -> tree h' (<[t := (lv + 1, k)]> T) ct.
Proof.
  intros x Ht He Hl Hlv Hct Hnew Hd0 [_ [Hb _] [Hf _] Hq]; pose proof (tr_entry _ _ _ Ht _ _ _ _ He) as Hx; rewrite <- surjective_pairing in Hx; destruct (entry_level _ _ _ _ _ _ _ Ht He) as [Hlv0 _].
  destruct (en_leaf _ _ _ _ _ Hx Hl) as [[Hc Hk] Hu]; fold x in Hc, Hk, Hu.
  assert (Hrt : r.1 <> t) by (intros E; destruct He as (p & E' & _); congruence).
  assert (Hform : forall q, q <> r -> q.1 <> t -> form (at_ h' q) = form (at_ h q)) by (intros q Hqr Hqt; apply bare_fields, Hq; [done|]; intros ->; done).
  assert (Hent : forall u j l m, entry (<[t := (lv + 1, k)]> T) u j l m -> u = t /\ l = lv + 1 /\ 0 <= j < 512 /\ m = k * 512 + j \/ u <> t /\ entry T u j l m).
  { intros u j l m (p & E & Hj & ->); destruct (decide (u = t)) as [->|]; [left; rewrite lookup_insert_eq in E; by simplify_eq|right; rewrite lookup_insert_ne in E by done; split; [done|by exists p]]. }
  assert (Hlift : forall u j l m, entry T u j l m -> entry (<[t := (lv + 1, k)]> T) u j l m).
  { intros u j l m (p & E & Hj & Hm); exists p; rewrite lookup_insert_ne by congruence; done. }
  assert (Hnode : forall q, node (at_ h q) -> q <> r) by (intros q [_ Hn] ->; by destruct Hl).
  split.
  - rewrite lookup_insert_ne by (intros ->; by rewrite (tr_root _ _ _ Ht) in Hnew); apply Ht.
  - intros u l p; destruct (decide (u = t)) as [->|]; [rewrite lookup_insert_eq; intros [= <- <-]; lia|rewrite lookup_insert_ne by done; apply Ht].
  - assert (Hno : forall u, T !! u = Some (lv + 1, k) -> False).
    { intros u E; destruct (tr_up _ _ _ Ht u _ _ E ltac:(lia)) as (t' & i' & He' & Hn & _); replace (lv + 1 - 1) with lv in He' by lia.
      apply (Hnode _ Hn); rewrite (surjective_pairing r); by apply (entry_inj _ _ _ _ _ _ _ _ _ Ht He' He). }
    intros u u' v; destruct (decide (u = t)) as [->|], (decide (u' = t)) as [->|]; rewrite ?lookup_insert_eq, ?lookup_insert_ne by done; [done|..].
    + intros [= <-] E; by destruct (Hno u').
    + intros E [= <-]; by destruct (Hno u).
    + by apply (tr_inj _ _ _ Ht).
  - intros u l p; destruct (decide (u = t)) as [->|].
    + rewrite lookup_insert_eq; intros [= <- <-] _; exists r.1, r.2; replace (lv + 1 - 1) with lv by lia; rewrite <- surjective_pairing.
      split_and!; [by apply Hlift| |unfold form in Hf; congruence]; destruct Hl as [Hl0 _]; unfold form in Hf; injection Hf as F1 F2 F3 F4.
      split; [by rewrite F2|by apply bool_decide_eq_true_1 in F3].
    + rewrite lookup_insert_ne by done; intros E Hl0; destruct (tr_up _ _ _ Ht u l p E Hl0) as (t' & i' & He' & Hn & Es); exists t', i'.
      assert (Hti : t' <> t) by (intros ->; destruct He' as (p' & ? & _); congruence).
      destruct (form_eq _ _ (Hform (t', i') (Hnode _ Hn) Hti)) as (_ & _ & -> & -> & _); split_and!; [by apply Hlift|done..].
  - intros u j l m [(-> & -> & Hj & ->)|[Hu' He']]%Hent.
    + assert (Hcnt : forall s e, counted ct (lv + 1) (k * 512 + j) s e -> s = start x /\ e = fin x /\ j = NDX (start x) (lv + 1)).
      { intros s e [E1 E2]; assert (Hs : key lv s = k) by (rewrite <- (key_down s lv) by lia; rewrite E2; symmetry; apply Z.div_unique with j; lia).
        rewrite (Hct s Hs) in E1; case_decide; [|done]; subst s; split_and!; [done|congruence|]; rewrite key_sub, Hs in E2 by lia; lia. }
      destruct (decide (j = NDX (start x) (lv + 1))) as [->|Hne].
      * destruct (form_eq _ _ (proj1 (bare_fields _ _ Hb))) as (E1 & E2 & _ & En & El & E3); fold x in E1, E2, En, El, E3; split.
        -- rewrite E2; by destruct Hl.
        -- intros _; rewrite E1, E3; split; [|intros s e Hs; apply (Hcnt s e Hs)]; split; [rewrite Hct by done; by rewrite decide_True|rewrite key_sub, Hk by lia; done].
        -- rewrite En; intros [_ Hn]; by destruct Hl.
      * assert (Ez : form (at_ h' (t, j)) = form desc0) by (rewrite <- (Hd0 j); apply bare_fields, Hq; [intros E; apply Hrt; by rewrite <- E|congruence]).
        destruct (form_eq _ _ Ez) as (_ & E2 & _ & En & El & _); split; [intros _ s e Hs; apply Hcnt in Hs; naive_solver|rewrite El; intros [? _]; done|rewrite En; intros [? _]; done].
    + destruct (decide ((u, j) = r)) as [<-|Hne].
      * cbn in He; destruct (entry_fun _ _ _ _ _ _ _ He He') as [<- <-]; injection Hf as F1 F2 F3 F4; apply bool_decide_eq_true_1 in F3.
        split; [rewrite F2; by destruct Hl|intros [_ ?]; congruence|intros _]; split; [done|split; [exists t; by rewrite lookup_insert_eq|]].
        assert (Efin : fin (at_ h' (u, j)) = fin x) by (unfold fin; by rewrite F1, F2); split.
        -- rewrite F1; by exists (fin x).
        -- rewrite Efin; by exists (start x).
        -- intros s e Hs; assert (s = start x) as -> by (by apply (Hu s e)); rewrite F1, Efin; destruct Hs as [Hs _]; rewrite Hc in Hs; injection Hs as <-; split; apply Z.le_refl.
      * assert (Hx' := tr_entry _ _ _ Ht _ _ _ _ He'); destruct (form_eq _ _ (Hform (u, j) Hne Hu')) as (E1 & E2 & E3 & En & El & E4).
        pose proof (entry_ok_ext T ct ct l m _ _ (eq_sym (Hform (u, j) Hne Hu')) ltac:(done) Hx') as [A1 A2 A3]; split; [done..|].
        intros Hn; destruct (A3 Hn) as (B1 & (t' & B2 & B3) & B4); split_and!; [done| |done]; exists t'; split; [done|].
        rewrite lookup_insert_ne by congruence; done.
  - apply Ht.
Qed.

Lemma shifted_leaf h T r t i lv k h' q : T !! t = None -> (forall j, at_ h (t, j) = desc0) -> leaf (at_ h r) -> shifted h T r t i lv k h' ->
  is_leaf h' (<[t := (lv + 1, k)]> T) q -> q = (t, i) \/ q <> r /\ q <> (t, i) /\ is_leaf h T q.
Proof.
  intros Hn Hd Hl [_ _ [Hf _] Hq] [Hlq (l & m & p & E & Hj & Hm)]; destruct (decide (q = (t, i))) as [|Hs]; [by left|right].
  destruct (decide (q = r)) as [->|Hr].
  { destruct Hlq as [_ Hlq]; injection Hf as _ _ F _; by apply bool_decide_eq_true_1 in F. }
  destruct (Hq q Hr Hs) as (Hb & _); destruct (form_eq _ _ (proj1 (bare_fields _ _ Hb))) as (_ & _ & _ & _ & El & _); rewrite El in Hlq; split_and!; [done..|].
  split; [done|]; destruct (decide (q.1 = t)) as [Et|Et]; [|rewrite lookup_insert_ne in E by done; exists l, m, p; done].
  rewrite (surjective_pairing q), Et, Hd in Hlq; by destruct Hlq.
Qed.

(** The leaves that were there still are. *)
Lemma shifted_leaf_back h T r t i lv k h' q : T !! t = None -> shifted h T r t i lv k h' -> q <> r -> q <> (t, i) -> is_leaf h T q -> is_leaf h' (<[t := (lv + 1, k)]> T) q.
Proof.
  intros Hn [_ _ _ Hq] Hr Hs [Hl (l & m & p & E & Hj & Hm)]; destruct (Hq q Hr Hs) as (Hb & _).
  destruct (form_eq _ _ (proj1 (bare_fields _ _ Hb))) as (_ & _ & _ & _ & El & _); split; [by rewrite El|]; exists l, m, p; split; [|done].
  rewrite lookup_insert_ne by congruence; done.
Qed.

(** Where a descriptor is now. *)
Definition mv (r s q : dref) : dref := if decide (q = r) then s else q.

Lemma shifted_ok d ct A I T P C r lv k h' w n hd ms P' C' : let x := at_ (heap d) r in let t := tables d + 1 in let i := NDX (start x) (lv + 1) in
  ok d ct A I T P C -> entry T r.1 r.2 lv k -> leaf x -> lv < 2 ->
  (forall s, key lv s = k -> ct (lv + 1) s = if decide (s = start x) then Some (fin x) else None) ->
  shifted (heap d) T r t i lv k h' -> pools h' hd P' -> claims (slot h') ms C' -> acc (fun q => A (start (at_ h' q))) ms C' ->
  (forall j l' q, P' !! j = Some l' -> q ∈ l' -> exists l, P !! j = Some l /\ (q = (t, i) /\ r ∈ l \/ q <> r /\ q ∈ l)) ->
  (forall j l q, P !! j = Some l -> q ∈ l -> exists l', P' !! j = Some l' /\ mv r (t, i) q ∈ l') ->
  (forall q a b, covers (world d) q a b -> covers w q a b) -> n <= DESC_ALLOC_N_PER_POOL ->
  ok (set_pools hd (set_mops ms (set_heap h' (set_tables t n [] (set_world w d))))) ct A I (<[t := (lv + 1, k)]> T) P' C'.
Proof.
  intros x t i Hok He Hl Hlv Hct Hsh HP HC HA Hin1 Hin2 Hw Hpn; pose proof Hok as [O1 O2 O3 O4 O5 O6 O7 O8 O9 O10 O11 O12 O13 O14 _ O15].
  assert (Ht0 : T !! t = None) by (destruct (T !! t) eqn:E; [apply O12 in E; unfold t in E; lia|done]).
  assert (Hd0 : forall j, at_ (heap d) (t, j) = desc0) by (intros; apply O13; unfold t; lia).
  assert (Hrt : r.1 <> t) by (intros E; destruct He as (p & E' & _); congruence).
  assert (Hrl : is_leaf (heap d) T r) by (split; [done|by exists lv, k]).
  assert (Hsl : is_leaf h' (<[t := (lv + 1, k)]> T) (t, i)).
  { split; [destruct (form_eq _ _ (proj1 (bare_fields _ _ (proj1 (sh_new _ _ _ _ _ _ _ _ Hsh))))) as (_ & _ & _ & _ & -> & _); done|].
    exists (lv + 1), (k * 512 + i), k; split_and!; [by rewrite lookup_insert_eq|apply NDX_range..|done]; destruct (entry_level _ _ _ _ _ _ _ O2 He); lia. }
  pose proof (fun q => shifted_leaf _ _ _ _ _ _ _ _ q Ht0 Hd0 Hl Hsh) as Hleaf; pose proof (fun q => shifted_leaf_back _ _ _ _ _ _ _ _ q Ht0 Hsh) as Hback.
  destruct Hsh as [S1 [S2 S2'] S3 S4] eqn:Esh; clear Esh.
  assert (Hcase : forall q, is_leaf h' (<[t := (lv + 1, k)]> T) q -> exists q0, is_leaf (heap d) T q0 /\ q = mv r (t, i) q0 /\ bare (at_ h' q) = bare (at_ (heap d) q0) /\ same_slots (heap d) q0 h' q).
  { intros q [->|(A1 & A2 & A3)]%Hleaf; [exists r; unfold mv; by rewrite decide_True|exists q; unfold mv; rewrite decide_False by done].
    destruct (S4 q A1 A2) as (B1 & B2 & _); done. }
  split; cbn; try done.
  - by eapply (shifted_tree (heap d)).
  - intros q (q0 & B1 & _ & B2 & B3)%Hcase; rewrite (same_info _ _ _ _ B2 B3), (proj1 (proj2 (proj2 (proj2 (proj2 (bare_fields _ _ B2)))))); by apply O6.
  - intros q (q0 & B1 & _ & B2 & B3)%Hcase; eapply same_slots_ok; [done..|by apply O7].
  - intros q (q0 & B1 & -> & B2 & B3)%Hcase Hty; destruct (O8 q0 B1) as (j & l & E1 & E2); [by rewrite <- (bare_type _ _ B2)|].
    destruct (Hin2 j l q0 E1 E2) as (l' & ? & ?); by exists j, l'.
  - intros j l q E1 E2; destruct (Hin1 j l q E1 E2) as (l0 & E3 & [[-> _]|[E4 E5]]); [done|]; apply Hback; [done| |by eapply O9].
    intros ->; destruct (O9 j l0 _ E3 E5) as [Hz _]; rewrite Hd0 in Hz; by destruct Hz.
  - intros q j m Hj Ho; destruct (decide (q = r)) as [->|Hr]; [by rewrite (proj2 S3) in Ho by done|]; destruct (decide (q = (t, i))) as [->|Hs].
    + rewrite (same_owner _ _ _ _ _ _ S2' Hj) in Ho; destruct (O10 _ _ _ Hj Ho); split; [done|]; by rewrite (bare_type _ _ S2).
    + destruct (S4 q Hr Hs) as (B1 & B2 & _); rewrite (same_owner _ _ _ _ _ _ B2 Hj) in Ho; destruct (O10 _ _ _ Hj Ho); rewrite (bare_type _ _ B1); split; [by apply Hback|done].
  - intros q Hz; destruct (decide (q = r)) as [->|Hr]; [destruct S3 as [E _]; injection E as _ E _ _; destruct Hl as [Hl0 _]; destruct Hl0; unfold x; congruence|]; destruct (decide (q = (t, i))) as [->|Hs].
    + destruct Hsl as [[? _] _]; done.
    + destruct (S4 q Hr Hs) as (B1 & _ & B3); destruct (bare_fields _ _ B1) as (_ & Ety & _ & Eu & _ & El & _); rewrite El in Hz; destruct (O11 q Hz) as (A1 & A2 & A3).
      unfold blank; rewrite Ety, Eu; split_and!; [done..|]; intros j Hj; rewrite B3 by (done || intros [? _]; done); by apply A3.
  - intros u v; destruct (decide (u = t)) as [->|]; [intros _; pose proof (O12 _ _ (tr_root _ _ _ O2)); unfold t, root in *; lia|].
    rewrite lookup_insert_ne by done; intros E%O12; unfold t; lia.
  - intros u j Hu; assert (Hz : at_ (heap d) (u, j) = desc0) by (apply O13; unfold t in Hu; lia); assert (Hr : (u, j) <> r) by (intros <-; destruct He as (p & E & _); apply O12 in E; cbn in E; unfold t in Hu; lia).
    destruct (S4 (u, j) Hr) as (B1 & _ & B3); [intros [= E _]; lia|]; rewrite <- Hz; apply at_eq; [done..|]; apply B3; rewrite Hz; intros [? _]; done.
  - split; [done|apply O14].
  - intros s0 i0 E1 E2; destruct (O15 s0 i0 E1 E2) as (q & ? & ?); eauto.
Qed.

(** The heap when the descriptor of [r] has been copied to [s] and [r] made a table. *)
Definition copied h (r s : dref) (t : Z) := upd (upd h s (fun _ => at_ h r)) r (fun x => set_type internal_node (set_allocated 0 (set_res None (set_sub (Some t) x)))).

Lemma copied_at h r s t q : r <> s -> at_ (copied h r s t) q = if decide (q = r) then set_type internal_node (set_allocated 0 (set_res None (set_sub (Some t) (at_ h r)))) else if decide (q = s) then at_ h r else at_ h q.
Proof. intros Hrs; unfold copied; rewrite !at_upd; repeat case_decide; subst; done. Qed.

Lemma copied_slot h r s t q i : r <> s -> slot (copied h r s t) q i = if decide (q = s) then slot h r i else slot h q i.
Proof. intros Hrs; unfold slot; rewrite copied_at by done; repeat case_decide; subst; done. Qed.

Lemma copied_four h r s t : r <> s -> four h -> four (copied h r s t).
Proof. intros Hrs H q; rewrite copied_at by done; repeat case_decide; apply H. Qed.

Lemma copied_bare h r s t q : r <> s -> q <> r -> bare (at_ (copied h r s t) q) = if decide (q = s) then bare (at_ h r) else bare (at_ h q).
Proof. intros Hrs Hq; rewrite copied_at by done; repeat case_decide; done. Qed.

(** The slots of the table are cleared at the end. *)
Definition cleared h (r : dref) := upd h r (set_tracking no_tracking).

Lemma cleared_four h r : four h -> four (cleared h r).
Proof. intros H q; unfold cleared; rewrite at_upd; case_decide; [done|apply H]. Qed.

Lemma cleared_slot h r q i : 0 <= i < 4 -> slot (cleared h r) q i = if decide (q = r) then no_claim else slot h q i.
Proof.
  intros Hi; unfold slot, cleared; rewrite at_upd; case_decide; [|done]; cbn.
  assert (i = 0 \/ i = 1 \/ i = 2 \/ i = 3) as [->|[->|[->| ->]]] by lia; done.
Qed.

Lemma cleared_bare h r q : bare (at_ (cleared h r) q) = bare (at_ h q).
Proof. unfold cleared; rewrite at_upd; case_decide; by subst. Qed.

(** From the copy on, mending the lists changes links only. *)
Lemma mended_shifted h T r t i lv k h3 : r <> (t, i) -> four h3 -> (forall q, bare (at_ h3 q) = bare (at_ (copied h r (t, i) t) q)) ->
  same_slots h r h3 (t, i) -> (forall q, q <> r -> q <> (t, i) -> same_slots h q h3 q /\ (~ leaf (at_ h q) -> forall j, 0 <= j < 4 -> slot h3 q j = slot h q j)) ->
  shifted h T r t i lv k (cleared h3 r).
Proof.
  intros Hrs H4 Hb Hs Hq; assert (Hslot : forall q j, q <> r -> 0 <= j < 4 -> slot (cleared h3 r) q j = slot h3 q j) by (intros q j ? ?; rewrite cleared_slot by done; by rewrite decide_False).
  split; [by apply cleared_four|..].
  - split; [rewrite cleared_bare, Hb, copied_bare by done; by rewrite decide_True|]; intros j Hj; rewrite Hslot by done; by apply Hs.
  - split; [|intros j Hj; rewrite cleared_slot by done; by rewrite decide_True].
    rewrite (proj1 (bare_fields _ _ (eq_trans (cleared_bare h3 r r) (Hb r)))), copied_at by done; by rewrite decide_True.
  - intros q Hr Hs'; destruct (Hq q Hr Hs') as [A B]; split_and!; [rewrite cleared_bare, Hb, copied_bare by done; by rewrite decide_False| |].
    + intros j Hj; rewrite Hslot by done; by apply A.
    + intros Hl j Hj; rewrite Hslot by done; by apply B.
Qed.

Lemma slot_desc0 h s i : at_ h s = desc0 -> 0 <= i < 4 -> slot h s i = no_claim.
Proof. intros Hs Hi; unfold slot; rewrite Hs; assert (i = 0 \/ i = 1 \/ i = 2 \/ i = 3) as [->|[->|[->| ->]]] by lia; done. Qed.

(** The lists are mended: what [leaf_to_internal] needs of it. *)
Definition mended d A P C (r s : dref) (t : Z) h3 hd ms P' C' : Prop :=
  let h := heap d in let h4 := cleared h3 r in
  four h3 /\ (forall q, bare (at_ h3 q) = bare (at_ (copied h r s t) q)) /\ same_slots h r h3 s /\
  (forall q, q <> r -> q <> s -> same_slots h q h3 q /\ (~ leaf (at_ h q) -> forall j, 0 <= j < 4 -> slot h3 q j = slot h q j)) /\
  pools h4 hd P' /\ claims (slot h4) ms C' /\ acc (fun q => A (start (at_ h4 q))) ms C' /\ ends_only (mops d) ms.

(** The claims keep their ranges. *)
Lemma acc_copied d ct A I T P C r s t h3 : ok d ct A I T P C -> r <> s -> at_ (heap d) s = desc0 -> (forall q, bare (at_ h3 q) = bare (at_ (copied (heap d) r s t) q)) ->
  acc (fun q => A (start (at_ (cleared h3 r) q))) (mops d) C /\ start (at_ (cleared h3 r) r) = start (at_ (cleared h3 r) s).
Proof.
  intros Hok Hrs Hs Hb; assert (Hst : forall q, start (at_ (cleared h3 r) q) = start (at_ (copied (heap d) r s t) q)).
  { intros q; pose proof (bare_fields _ _ (eq_trans (cleared_bare h3 r q) (Hb q))) as (_ & _ & _ & _ & E & _); exact E. }
  split.
  - eapply acc_ext; [|apply Hok]; intros m l [q j] Hm Hq; cbn; rewrite Hst, copied_at by done; destruct (decide (q = r)) as [->|]; [done|]; rewrite decide_False; [done|].
    intros ->; destruct (cm_node _ _ _ (ok_claims _ _ _ _ _ _ _ Hok) _ _ _ Hm Hq) as [Hj Ho]; destruct (ok_claimed _ _ _ _ _ _ _ Hok _ _ _ Hj Ho) as [[[Hl _] _] _]; cbn [fst] in Hl; by rewrite Hs in Hl.
  - rewrite !Hst, !copied_at by done; rewrite decide_True by done; by rewrite decide_False, decide_True by congruence.
Qed.

Lemma mend_alloc d d2 ct A I T P C r s t : ok d ct A I T P C -> is_leaf (heap d) T r -> allocation_type (at_ (heap d) r) = allocation_node -> r <> s -> at_ (heap d) s = desc0 ->
  heap d2 = copied (heap d) r s t -> mops d2 = mops d ->
  exists h3 ms C', fixup_claims s d2 = Some (tt, set_mops ms (set_heap h3 d2)) /\ mended d A P C r s t h3 (pool_heads d) ms P C'.
Proof.
  intros Hok Hr Hty Hrs Hs E2 Em; pose proof (ok_slots _ _ _ _ _ _ _ Hok r Hr) as [_ Hsl]; rewrite Hty in Hsl; set (h := heap d) in *.
  destruct (fixup_claims_run r s d2 h C) as (h3 & ms & C' & E & (M1 & M2 & M3) & Hc); rewrite ?E2, ?Em in *.
  { congruence. } { apply copied_four; [done|apply Hok]. } { rewrite copied_at by done; by rewrite decide_False, decide_True by congruence. }
  { intros j Hj; rewrite copied_slot by done; by rewrite decide_True. } { intros j Hj; destruct (Hsl j Hj) as [[? _]|?]; auto. }
  { intros q j Hj Hqr Hqs; rewrite copied_slot by done; by rewrite decide_False. } { intros j m Hj; by rewrite slot_desc0. } { apply Hok. }
  exists h3, ms, C'; split; [done|]; destruct M1 as [R1 R2 R3 R4]; destruct (acc_copied d ct A I T P C r s t h3 Hok Hrs Hs R2) as [Hacc Hst].
  assert (Hq : forall q j, 0 <= j < 4 -> q <> s -> (forall m, owner (slot h q j) <> Mop m) -> slot h3 q j = slot h q j).
  { intros q j Hj Hqs Hn; rewrite R4; [rewrite copied_slot by done; by rewrite decide_False|done|]; intros m; rewrite copied_slot by done; rewrite decide_False by done; apply Hn. }
  assert (Hsame : forall q, q <> r -> same_slots h (if decide (q = s) then r else q) h3 q).
  { intros q Hqr j Hj; destruct (R3 q j Hj) as [A1 A2]; rewrite A1, A2, copied_slot by done; case_decide; auto. }
  split_and!; [done|done| |..].
  - specialize (Hsame s ltac:(congruence)); by rewrite decide_True in Hsame.
  - intros q Hqr Hqs; specialize (Hsame q Hqr); rewrite decide_False in Hsame by done; split; [done|]; intros Hl j Hj; apply Hq; [done..|].
    intros m Ho; destruct (ok_claimed _ _ _ _ _ _ _ Hok _ _ _ Hj Ho) as [[? _] _]; done.
  - eapply pools_ext; [|apply Hok]; intros j l q Hj Hin; destruct (ok_listed _ _ _ _ _ _ _ Hok _ _ _ Hj Hin) as [Hl _]; destruct (pl_node _ _ _ (ok_pools _ _ _ _ _ _ _ Hok) _ _ _ Hj Hin) as [Hp Ht].
    fold h in Hl, Ht; assert (q <> r) by (intros ->; rewrite Hty in Ht; destruct j as [|[|[|]]]; done); assert (q <> s) by (intros ->; rewrite Hs in Hl; by destruct Hl).
    split; [rewrite cleared_slot by lia; rewrite decide_False by done; apply Hq; [lia|done|]|].
    + intros m Ho; destruct (ok_claimed _ _ _ _ _ _ _ Hok q 0 m ltac:(lia) Ho) as [_ E']; fold h in E'; rewrite E' in Ht; destruct j as [|[|[|]]]; done.
    + rewrite (bare_type _ _ (eq_trans (cleared_bare h3 r q) (R2 q))), copied_at by done; by rewrite !decide_False.
  - eapply claims_ext; [|exact Hc]; intros q j m Hj _; by rewrite cleared_slot.
  - apply M3; [by rewrite Hst|done].
  - done.
Qed.

Lemma mend_open d d2 ct A I T P C r s t : ok d ct A I T P C -> is_leaf (heap d) T r -> allocation_type (at_ (heap d) r) = open_node -> r <> s -> at_ (heap d) s = desc0 ->
  heap d2 = copied (heap d) r s t -> mops d2 = mops d -> pool_heads d2 = pool_heads d ->
  exists h3 hd P' j l1 l2, fixup_desc_chain s d2 = Some (tt, set_pools hd (set_heap h3 d2)) /\ mended d A P C r s t h3 hd (mops d) P' C /\
    P !! j = Some (l1 ++ r :: l2) /\ P' = <[j := l1 ++ s :: l2]> P.
Proof.
  intros Hok Hr Hty Hrs Hs E2 Em Eh; set (h := heap d) in *; destruct (ok_open _ _ _ _ _ _ _ Hok r Hr Hty) as (j & l & Hj & (l1 & l2 & ->)%list_elem_of_split).
  pose proof (ok_pools _ _ _ _ _ _ _ Hok) as Hp; fold h in Hp; assert (Hoff : off_pools P s) by (intros j' l' Hj' Hin; destruct (ok_listed _ _ _ _ _ _ _ Hok _ _ _ Hj' Hin) as [[Hl _] _]; fold h in Hl; by rewrite Hs in Hl).
  assert (Hty2 : allocation_type (at_ h r) = kind j) by (eapply (pl_node _ _ _ Hp); [exact Hj|set_solver]).
  destruct (fixup_run d2 h P j l1 r l2 s) as (h3 & E & Hp' & [O1 O2 O3 O4]); rewrite ?E2, ?Eh in *.
  { apply copied_four; [done|apply Hok]. } { done. } { done. } { done. }
  { intros q Hqr Hqs; rewrite copied_slot, copied_at by done; by rewrite !decide_False. } { rewrite copied_slot by done; by rewrite decide_True. }
  { rewrite copied_at by done; rewrite decide_False, decide_True by congruence; done. }
  exists h3, (map head (<[j := l1 ++ s :: l2]> P)), (<[j := l1 ++ s :: l2]> P), j, l1, l2; split_and!; [done| |done|done].
  destruct (acc_copied d ct A I T P C r s t h3 Hok Hrs Hs O2) as [Hacc Hst].
  assert (Hmem : forall q, q ∈ l1 ++ l2 -> q <> r /\ q <> s /\ is_leaf h T q /\ allocation_type (at_ h q) = open_node /\ forall m, owner (slot h q 0) <> Mop m).
  { intros q Hq; assert (Hq' : q ∈ l1 ++ r :: l2) by set_solver; pose proof (ok_listed _ _ _ _ _ _ _ Hok _ _ _ Hj Hq') as Hl; destruct (pl_node _ _ _ Hp _ _ _ Hj Hq') as [_ Ht].
    split_and!; [intros ->; pose proof (pl_nodup _ _ _ Hp _ _ Hj) as (_ & Hb & [Hc _]%NoDup_cons)%NoDup_app; set_solver|intros ->; by apply (Hoff j _ Hj)|done|congruence|].
    intros m Ho; destruct (ok_claimed _ _ _ _ _ _ _ Hok q 0 m ltac:(lia) Ho) as [_ E']; fold h in E'; congruence. }
  assert (Hq : forall q i, 0 <= i < 4 -> q ∉ l1 ++ l2 \/ i <> 0 -> slot h3 q i = slot h (if decide (q = s) then r else q) i).
  { intros q i Hi Hn; rewrite O3; [rewrite copied_slot by done; by case_decide|done|]; intros [-> Hin]; by destruct Hn. }
  assert (Hsn : s ∉ l1 ++ l2) by (intros H; by destruct (Hmem s H) as (_ & ? & _)).
  split_and!; [done|done| |..].
  - intros i Hi; rewrite Hq by auto; rewrite decide_True by done; auto.
  - intros q Hqr Hqs; split.
    + intros i Hi; destruct (O4 q i Hi) as [A1 A2]; rewrite A1; destruct (decide (q ∈ l1 ++ l2 /\ i = 0)) as [[Hin ->]|Hn].
      * destruct (Hmem q Hin) as (_ & _ & _ & B1 & B2); rewrite copied_slot by done; rewrite decide_False by done; split; [done|].
        rewrite copied_slot in A2 by done; rewrite decide_False in A2 by done; destruct A2 as [->|A2]; auto.
      * rewrite Hq by (destruct (decide (q ∈ l1 ++ l2)); naive_solver); rewrite copied_slot, !decide_False by done; auto.
    + intros Hl i Hi; rewrite Hq; [by rewrite decide_False|done|left; intros Hin; by destruct (Hmem q Hin) as (_ & _ & [? _] & _)].
  - eapply pools_ext; [|exact Hp']; intros j' l' q Hj' Hin; assert (Hqr : q <> r).
    { intros ->; destruct (decide (j' = j)) as [->|]; [rewrite list_lookup_insert_eq in Hj' by (by eapply lookup_lt_Some); injection Hj' as <-; apply elem_of_app in Hin as [Hin|[?|Hin]%elem_of_cons]; [|done|]; destruct (Hmem r ltac:(set_solver)); done|].
      rewrite list_lookup_insert_ne in Hj' by done; apply n; eapply (pools_unique _ _ P j j' _ _ r); [done|done|done|set_solver|done]. }
    split; [rewrite cleared_slot by lia; by rewrite decide_False|]; apply bare_type, cleared_bare.
  - eapply claims_ext; [|apply Hok]; intros q i m Hi Ho; fold h; rewrite cleared_slot in Ho |- * by done; destruct (decide (q = r)) as [->|Hqr].
    + destruct Ho as [Ho|?]; [|done]; destruct (ok_claimed _ _ _ _ _ _ _ Hok _ _ _ Hi Ho) as [_ E']; fold h in E'; congruence.
    + destruct (decide (q = s)) as [->|Hqs].
      * assert (Ho' : owner (slot h r i) = Mop m) by (destruct Ho as [Ho|Ho]; [fold h in Ho; by rewrite slot_desc0 in Ho|by rewrite Hq, decide_True in Ho by auto]).
        destruct (ok_claimed _ _ _ _ _ _ _ Hok _ _ _ Hi Ho') as [_ E']; fold h in E'; congruence.
      * destruct (decide (q ∈ l1 ++ l2 /\ i = 0)) as [[Hin ->]|Hn]; [|rewrite Hq by (destruct (decide (q ∈ l1 ++ l2)); naive_solver); by rewrite decide_False].
        destruct (Hmem q Hin) as (_ & _ & _ & _ & B2); destruct Ho as [Ho|Ho]; [by apply B2 in Ho|].
        destruct (O4 q 0 Hi) as [_ [A2|A2]]; [rewrite copied_slot, decide_False in A2 by done; rewrite A2 in Ho; by apply B2 in Ho|by apply A2 in Ho].
  - done.
  - done.
Qed.

(** A pool with [s] in the place of [r]. *)
Lemma swapped h hs P j l1 r l2 s : pools h hs P -> P !! j = Some (l1 ++ r :: l2) -> let P' := <[j := l1 ++ s :: l2]> P in
  (forall i l' q, P' !! i = Some l' -> q ∈ l' -> exists l, P !! i = Some l /\ (q = s /\ r ∈ l \/ q <> r /\ q ∈ l)) /\
  (forall i l q, P !! i = Some l -> q ∈ l -> exists l', P' !! i = Some l' /\ mv r s q ∈ l').
Proof.
  intros Hp Hj P'; assert (Hlt : (j < List.length P)%nat) by (by eapply lookup_lt_Some).
  assert (Hin : r ∈ l1 ++ r :: l2) by (apply elem_of_app; right; left).
  assert (Hne : forall i l, P !! i = Some l -> i <> j -> r ∉ l) by (intros i l Hi Hij Hr; apply Hij; by eapply (pools_unique _ _ P j i _ _ r)).
  split; intros i l q Hi Hq; unfold P' in *; destruct (decide (i = j)) as [->|Hij].
  - rewrite list_lookup_insert_eq in Hi by done; injection Hi as <-; eexists; split; [exact Hj|]; pose proof (pl_nodup _ _ _ Hp _ _ Hj) as (_ & Hb & [Hc _]%NoDup_cons)%NoDup_app.
    clear -Hq Hb Hc Hin; apply elem_of_app in Hq as [Hq|[->|Hq]%elem_of_cons]; [right|left; done|right]; split; try (intros ->; set_solver); set_solver.
  - rewrite list_lookup_insert_ne in Hi by done; exists l; split; [done|]; right; split; [|done]; intros ->; by apply (Hne i l).
  - rewrite list_lookup_insert_eq by done; eexists; split; [done|]; rewrite Hj in Hi; injection Hi as <-; clear -Hq; unfold mv; case_decide; set_solver.
  - rewrite list_lookup_insert_ne by done; exists l; split; [done|]; unfold mv; rewrite decide_False; [done|]; intros ->; by apply (Hne i l).
Qed.

(** *** A range becomes a table *)

Lemma leaf_to_internal_ok d ct A I T P C r lv k : let x := at_ (heap d) r in let t := tables d + 1 in let i := NDX (start x) (lv + 1) in
  ok d ct A I T P C -> 0 < room d -> entry T r.1 r.2 lv k -> leaf x -> lv < 2 ->
  (forall s, key lv s = k -> ct (lv + 1) s = if decide (s = start x) then Some (fin x) else None) ->
  exists d' P' C', leaf_to_internal r i d = Some ((t, i), d') /\ ok d' ct A I (<[t := (lv + 1, k)]> T) P' C' /\ T !! t = None /\
    shifted (heap d) T r t i lv k (heap d') /\ room d' = room d - 1 /\ (forall q a b, covers (world d) q a b -> covers (world d') q a b) /\ ends_only (mops d) (mops d').
Proof.
  intros x t i Hok Hroom He Hl Hlv Hct; destruct (ok_free _ _ _ _ _ _ _ Hok) as [Hfree Hrev].
  destruct (alloc_run d Hfree Hroom (ok_pool_n _ _ _ _ _ _ _ Hok)) as (w & n & Ealloc & Hn & Hr & Hw); fold t in Ealloc.
  assert (Ht0 : T !! t = None) by (destruct (T !! t) eqn:E; [apply (ok_known _ _ _ _ _ _ _ Hok) in E; unfold t in E; lia|done]).
  assert (Hd0 : forall j, at_ (heap d) (t, j) = desc0) by (intros; apply (ok_fresh _ _ _ _ _ _ _ Hok); unfold t; lia).
  assert (Hrl : is_leaf (heap d) T r) by (split; [done|by exists lv, k]); assert (Hrs : r <> (t, i)) by (intros E; destruct Hl as [Hl _]; apply Hl; unfold x; by rewrite E, Hd0).
  set (d1 := set_tables t n [] (set_world w d)); set (d2 := set_heap (copied (heap d) r (t, i) t) d1).
  assert (Hrun : forall h3 hd ms, (if is_type allocation_node x then fixup_claims (t, i)
       else if on_pool x then _ ← massert (negb (is_type open_node x) || bool_decide (is_Some (reservation x))); fixup_desc_chain (t, i)
       else mret tt) d2 = Some (tt, set_pools hd (set_mops ms (set_heap h3 d2))) ->
     leaf_to_internal r i d = Some ((t, i), set_pools hd (set_mops ms (set_heap (cleared h3 r) d1)))).
  { intros h3 hd ms E; unfold leaf_to_internal; eapply bind_run; [done|]; eapply bind_run; [apply assert_run; unfold is_type; by rewrite bool_decide_eq_false_2 by apply Hl|].
    eapply bind_run; [exact Ealloc|]; eapply bind_run; [done|]; cbn beta; change (being_revoked (set_tables t n [] (set_world w d))) with (being_revoked d); rewrite Hrev.
    eapply bind_run; [done|]; eapply bind_run; [apply dput_run|]; eapply bind_run; [apply dput_run|]; eapply bind_run; [exact E|]; eapply bind_run; [apply dput_run|]; done. }
  assert (Hfin : forall h3 hd ms P' C', mended d A P C r (t, i) t h3 hd ms P' C' ->
     (forall j l' q, P' !! j = Some l' -> q ∈ l' -> exists l, P !! j = Some l /\ (q = (t, i) /\ r ∈ l \/ q <> r /\ q ∈ l)) ->
     (forall j l q, P !! j = Some l -> q ∈ l -> exists l', P' !! j = Some l' /\ mv r (t, i) q ∈ l') ->
     let d' := set_pools hd (set_mops ms (set_heap (cleared h3 r) d1)) in ok d' ct A I (<[t := (lv + 1, k)]> T) P' C' /\ T !! t = None /\
       shifted (heap d) T r t i lv k (heap d') /\ room d' = room d - 1 /\ (forall q a b, covers (world d) q a b -> covers (world d') q a b) /\ ends_only (mops d) (mops d')).
  { intros h3 hd ms P' C' (M1 & M2 & M3 & M4 & M5 & M6 & M7 & M8) Hin1 Hin2 d'; pose proof (mended_shifted (heap d) T r t i lv k h3 Hrs M1 M2 M3 M4) as Hsh.
    split_and!; [|done|done|exact Hr|done|done]; by eapply shifted_ok. }
  destruct (allocation_type x) eqn:Hty; unfold is_type, on_pool, is_type in Hrun; rewrite Hty in Hrun; cbn [bool_decide decide orb] in Hrun;
    pose proof (ok_slots _ _ _ _ _ _ _ Hok r Hrl) as [_ Hsl]; fold x in Hsl; rewrite Hty in Hsl; try done.
  - destruct (mend_open d d2 ct A I T P C r (t, i) t) as (h3 & hd & P' & j & l1 & l2 & E & Hm & Hj & ->); try done.
    exists (set_pools hd (set_mops (mops d) (set_heap (cleared h3 r) d1))), (<[j := l1 ++ (t, i) :: l2]> P), C; split.
    + apply Hrun; change (bool_decide (open_node = allocation_node)) with false; cbn iota; change (bool_decide (open_node = open_node)) with true; cbn [orb negb].
      eapply bind_run; [apply assert_run; by rewrite bool_decide_eq_true_2 by apply Hsl|]; rewrite E; by destruct d.
    + destruct (swapped _ _ P j l1 r l2 (t, i) (ok_pools _ _ _ _ _ _ _ Hok) Hj) as [S1 S2]; by apply Hfin.
  - destruct (mend_alloc d d2 ct A I T P C r (t, i) t) as (h3 & ms & C' & E & Hm); try done.
    exists (set_pools (pool_heads d) (set_mops ms (set_heap (cleared h3 r) d1))), P, C'; split; [apply Hrun; rewrite bool_decide_eq_true_2 by done; rewrite E; by destruct d|].
    assert (Hnot : forall j l, P !! j = Some l -> r ∉ l).
    { intros j l Hj Hin; destruct (pl_node _ _ _ (ok_pools _ _ _ _ _ _ _ Hok) _ _ _ Hj Hin) as [_ E']; fold x in E'; rewrite Hty in E'; destruct j as [|[|[|]]]; done. }
    apply Hfin; [done|..]; intros j l q Hj Hq; exists l; (split; [done|]).
    + right; split; [intros ->; by apply (Hnot j l)|done].
    + unfold mv; rewrite decide_False; [done|]; intros ->; by apply (Hnot j l).
Qed.

End Inv.
