(* ===== verification/MmapSplit.v ===== *)
(** * Splitting a range

    [split_index] cuts a range in two at a page.  The range from [s0] to [e0]
    is shortened, on the way down to it in each table that sums it up; the new
    range from [page] is pushed in at its own place, and on the way back in each
    table that sums it up.  Level by level this is one of three changes of an
    entry, the lemmas [both_set], [short_set] and [new_set]. *)

From S2P Require Import Prelude Pmem PageTable Vmem Mmap MmapList MmapClaims MmapTree MmapInv.

Section Split.

Context {W R : Type} `{!Nano W R} `{!NanoLaws W R}.

Abbreviation desc := (vpage_range_desc_t R).

Implicit Types (h : gmap (Z * Z) desc) (d : dir W R) (T : gmap Z (Z * Z)) (x : desc) (P : list (list dref)) (C : gmap Z (list claimer_link_t)) (A : Z -> Z) (ct : Z -> Z -> option Z)
  (I : gmap Z (@info R)).

(** ** The ranges *)

Definition ends I : Z -> Z -> option Z := fun _ s => i_end <$> I !! s.
Definition lens I : Z -> Z := fun s => match I !! s with Some i => i_end i - s | None => 0 end.

(** The ranges cover the pages, one after the other. *)
Record tiled I : Prop := mk_tiled {
  ti_range : forall s i, I !! s = Some i -> 0 <= s < i_end i /\ i_end i <= 2 ^ 27;
  ti_first : is_Some (I !! 0);
  ti_next : forall s i, I !! s = Some i -> i_end i = 2 ^ 27 \/ exists i', I !! i_end i = Some i' /\ i_prev i' = s;
  ti_apart : forall s i s' i', I !! s = Some i -> I !! s' = Some i' -> s < s' -> i_end i <= s' }.

Lemma full_ends I s i : I !! s = Some i -> full (ends I) s (i_end i).
Proof. intros E lv _; unfold ends; by rewrite E. Qed.

(** ** The levels during a split *)

Section Levels.

Variables (I : gmap Z (@info R)) (s0 page e0 : Z).
Hypothesis (Hti : tiled I) (Hi0 : exists i0, I !! s0 = Some i0 /\ i_end i0 = e0) (Hpage : s0 < page < e0).

(** [L]: at this level the range is already short; [N]: the new one is there. *)
Definition cut (L N : Z -> bool) : Z -> Z -> option Z := fun l s =>
  if decide (s = s0) then Some (if L l then page else e0) else if decide (s = page) then if N l then Some e0 else None else ends I l s.

Lemma s0_range : 0 <= s0 /\ e0 <= 2 ^ 27.
Proof. destruct Hi0 as (i0 & E & <-); destruct (ti_range _ Hti _ _ E); lia. Qed.

Lemma page_new : I !! page = None.
Proof. destruct Hi0 as (i0 & E & Ee); destruct (I !! page) eqn:E'; [|done]; pose proof (ti_apart _ Hti _ _ _ _ E E' ltac:(lia)); lia. Qed.

Lemma cut_bound L N l s e : cut L N l s = Some e -> 0 <= s < e /\ e <= 2 ^ 27.
Proof.
  pose proof s0_range; unfold cut; case_decide; [destruct (L l); intros [= <-]; subst; lia|]; case_decide; [destruct (N l); intros [= <-]; subst; lia|].
  unfold ends; destruct (I !! s) as [i|] eqn:E; intros [= <-]; by apply (ti_range _ Hti).
Qed.

Lemma cut_none : forall l s, cut (fun _ => false) (fun _ => false) l s = ends I l s.
Proof.
  intros l s; unfold cut; destruct Hi0 as (i0 & E & Ee); case_decide; [subst s; unfold ends; rewrite E; cbn; congruence|]; case_decide; [subst s; unfold ends; by rewrite page_new|done].
Qed.

(** The other ranges are before the one that is cut, or after it. *)
Lemma cut_other L N l s e : cut L N l s = Some e -> s <> s0 -> s <> page -> s < s0 /\ e <= s0 \/ e0 <= s.
Proof.
  unfold cut; intros E H1 H2; rewrite !decide_False in E by done; unfold ends in E; destruct (I !! s) as [i|] eqn:Ei; cbn in E; [injection E as <-|done].
  destruct Hi0 as (i0 & E0 & <-); destruct (decide (s < s0)); [left; split; [done|by apply (ti_apart _ Hti _ _ _ _ Ei E0)]|right; apply (ti_apart _ Hti _ _ _ _ E0 Ei); lia].
Qed.

Definition at_level (l : Z) (F : Z -> bool) : Z -> bool := fun l' => (l' =? l) || F l'.

Lemma cut_same L N l k (HL HN : bool) l' s : l' <> l \/ key l s <> k -> (key l s0 <> k -> HL = false) -> (key l page <> k -> HN = false) ->
  cut (if HL then at_level l L else L) (if HN then at_level l N else N) l' s = cut L N l' s.
Proof.
  intros Hd H1 H2; assert (Hf : forall F, l' <> l -> at_level l F l' = F l') by (intros F Hl; unfold at_level; by rewrite (proj2 (Z.eqb_neq _ _) Hl)).
  unfold cut; case_decide as E1; [subst s|case_decide as E2; [subst s|done]].
  - destruct HL; [|done]; destruct Hd as [Hd|Hd]; [by rewrite Hf|by apply H1 in Hd].
  - destruct HN; [|done]; destruct Hd as [Hd|Hd]; [by rewrite Hf|by apply H2 in Hd].
Qed.

Lemma set_at_level F l : at_level l F l = true.
Proof. unfold at_level; by rewrite Z.eqb_refl. Qed.

(** A table above both: nothing changes. *)
Lemma both_ok T L N l x : 0 <= l <= 2 -> key l page = key l s0 -> L l = false -> N l = false -> node x ->
  entry_ok T (cut L N) l (key l s0) x -> entry_ok T (cut (at_level l L) (at_level l N)) l (key l s0) x.
Proof.
  intros Hl Hk HL HN Hn He; destruct (en_node _ _ _ _ _ He Hn) as (A1 & A2 & [[e1 [B1 B1']] [s2 [B2 B2']] B3]).
  split; [intros; by destruct Hn|intros [_ ?]; by destruct Hn|intros _; split_and!; [done..|]].
  assert (H0 : counted (cut L N) l (key l s0) s0 e0) by (split; [unfold cut; by rewrite decide_True, HL|done]); destruct (B3 _ _ H0) as [C1 C2].
  assert (Hs : forall s, s <> s0 -> s <> page -> cut (at_level l L) (at_level l N) l s = cut L N l s) by (intros; unfold cut; by rewrite !decide_False).
  assert (Hs0 : cut (at_level l L) (at_level l N) l s0 = Some page) by (unfold cut; rewrite decide_True by done; by rewrite set_at_level).
  assert (Hsp : cut (at_level l L) (at_level l N) l page = Some e0) by (unfold cut; rewrite decide_False, decide_True by (done || lia); by rewrite set_at_level).
  split.
  - destruct (decide (start x = s0)) as [E|E]; [exists page; rewrite E; done|exists e1; split; [|done]; rewrite Hs; [done|done|intros F; rewrite F in B1; unfold cut in B1; by rewrite decide_False, decide_True, HN in B1 by (done || lia)]].
  - destruct (decide (s2 = s0)) as [->|E]; [exists page; split; [rewrite Hsp; unfold cut in B2; by rewrite decide_True, HL in B2|done]|exists s2; split; [|done]; rewrite Hs; [done|done|intros ->; unfold cut in B2; by rewrite decide_False, decide_True, HN in B2 by (done || lia)]].
  - intros s e [E1 E2]; destruct (decide (s = s0)) as [->|]; [rewrite Hs0 in E1; simplify_eq; lia|]; destruct (decide (s = page)) as [->|]; [rewrite Hsp in E1; simplify_eq; lia|].
    apply B3; split; [by rewrite <- Hs|done].
Qed.

(** On the way to the range that is cut. *)
Lemma short_ok T L N l x : 0 <= l <= 2 -> key l page <> key l s0 -> L l = false -> d_length x <> 0 ->
  entry_ok T (cut L N) l (key l s0) x -> start x <= s0 /\ entry_ok T (cut (at_level l L) N) l (key l s0) (set_length (page - start x) x).
Proof.
  intros Hl Hk HL Hd He; assert (H0 : cut L N l s0 = Some e0) by (unfold cut; by rewrite decide_True, HL).
  assert (Hs : forall s, s <> s0 -> cut (at_level l L) N l s = cut L N l s) by (intros; unfold cut; by rewrite !(decide_False (P := s = s0))).
  assert (Hs0 : cut (at_level l L) N l s0 = Some page) by (unfold cut; rewrite decide_True by done; by rewrite set_at_level).
  assert (Hfin : fin (set_length (page - start x) x) = page) by (unfold fin; cbn; lia).
  pose proof (key_mono l s0 page Hl ltac:(lia)) as Hmono.
  assert (Hbefore : forall s e, cut L N l s = Some e -> key l s = key l s0 -> s <> s0 -> e <= s0).
  { intros s e E Ek Hne; destruct (decide (s = page)) as [->|Hp]; [done|]; destruct (cut_other _ _ _ _ _ E Hne Hp) as [?|?]; [lia|].
    pose proof (key_mono l page s Hl ltac:(lia)); lia. }
  destruct (counted_entry _ _ _ _ _ _ He H0) as [Hn|(Hlf & E1 & E2)].
  - destruct (en_node _ _ _ _ _ He Hn) as (A1 & A2 & [[e1 [B1 B1']] _ B3]); destruct (B3 s0 e0 (conj H0 eq_refl)) as [C1 C2]; split; [done|].
    split; [cbn; lia|intros [_ ?]; by destruct Hn|intros _; split_and!; [done..|]]; split; rewrite ?Hfin; cbn.
    + destruct (decide (start x = s0)) as [E|E]; [exists page; by rewrite E|exists e1; split; [by rewrite Hs|done]].
    + by exists s0.
    + intros s e [E1 E2]; destruct (decide (s = s0)) as [->|Hne]; [rewrite Hs0 in E1; simplify_eq; lia|]; rewrite Hs in E1 by done.
      pose proof (Hbefore s e E1 E2 Hne); destruct (B3 s e (conj E1 E2)); lia.
  - rewrite E1; split; [lia|]; destruct (en_leaf _ _ _ _ _ He Hlf) as [_ Hu]; split; [cbn; lia|intros _|intros [_ ?]; by destruct Hlf].
    rewrite <- E1 at 2 3; rewrite Hfin; cbn; rewrite E1; split; [done|]; intros s e [F1 F2]; destruct (decide (s = s0)) as [->|Hne]; [done|].
    rewrite <- E1; apply (Hu s e); split; [by rewrite <- Hs|done].
Qed.

(** On the way to the new range. *)
Lemma new_ok T L N l x : 0 <= l <= 2 -> key l page <> key l s0 -> N l = false -> node x ->
  entry_ok T (cut L N) l (key l page) x -> page < fin x /\ entry_ok T (cut L (at_level l N)) l (key l page) (set_length (fin x - page) (set_start page x)).
Proof.
  intros Hl Hk HN Hn He; destruct (en_node _ _ _ _ _ He Hn) as (A1 & A2 & [[e1 [B1 B1']] [s2 [B2 B2']] B3]).
  assert (Hs : forall s, s <> page -> cut L (at_level l N) l s = cut L N l s) by (intros s Hne; unfold cut; case_decide; [done|by rewrite !(decide_False (P := s = page))]).
  assert (Hsp : cut L (at_level l N) l page = Some e0) by (unfold cut; rewrite decide_False, decide_True by (done || lia); by rewrite set_at_level).
  pose proof (key_mono l s0 page Hl ltac:(lia)) as Hmono.
  assert (Hafter : forall s e, cut L N l s = Some e -> key l s = key l page -> s <> page /\ e0 <= s).
  { intros s e E Ek; assert (s <> page) by (intros ->; unfold cut in E; by rewrite decide_False, decide_True, HN in E by (done || lia)); split; [done|].
    assert (s <> s0) by (intros ->; lia); destruct (cut_other _ _ _ _ _ E) as [?|?]; [done|done| |done]; pose proof (key_mono l s s0 Hl ltac:(lia)); lia. }
  destruct (Hafter _ _ B2 B2') as [C1 C2]; pose proof (cut_bound _ _ _ _ _ B2) as [C3 _].
  assert (Hfin : fin (set_length (fin x - page) (set_start page x)) = fin x) by (unfold fin; cbn; lia).
  split; [lia|]; split; [cbn; lia|intros [_ ?]; by destruct Hn|intros _; split_and!; [done..|]]; split; rewrite ?Hfin; cbn.
  - by exists e0.
  - exists s2; split; [by rewrite Hs|done].
  - intros s e [E1 E2]; destruct (decide (s = page)) as [->|Hne]; [rewrite Hsp in E1; simplify_eq; lia|]; rewrite Hs in E1 by done.
    destruct (Hafter _ _ E1 E2); destruct (B3 s e (conj E1 E2)); lia.
Qed.

(** The new range at its place. *)
Lemma place_ok T L N l x (y : desc) : 0 <= l <= 2 -> key l page <> key l s0 -> N l = false -> d_length x = 0 -> start y = page -> d_length y = e0 - page -> allocation_type y <> internal_node ->
  entry_ok T (cut L N) l (key l page) x -> entry_ok T (cut L (at_level l N)) l (key l page) y.
Proof.
  intros Hl Hk HN Hd E1 E2 E3 He; assert (Hs : forall s, s <> page -> cut L (at_level l N) l s = cut L N l s) by (intros s Hne; unfold cut; case_decide; [done|by rewrite !(decide_False (P := s = page))]).
  assert (Hsp : cut L (at_level l N) l page = Some e0) by (unfold cut; rewrite decide_False, decide_True by (done || lia); by rewrite set_at_level).
  assert (Hfin : fin y = e0) by (unfold fin; rewrite E1, E2; lia); split; [rewrite E2; lia| |intros [_ ?]; done].
  intros _; rewrite E1, Hfin; split; [done|]; intros s e [F1 F2]; destruct (decide (s = page)) as [->|Hne]; [done|]; rewrite Hs in F1 by done.
  by destruct (en_empty _ _ _ _ _ He Hd s e).
Qed.

(** *** The changes of the tree *)

Lemma cut_agree h T ct t i l k (HL HN : bool) L N t' i' l' k' s : tree h T ct -> entry T t i l k -> entry T t' i' l' k' -> (t', i') <> (t, i) -> key l' s = k' ->
  (key l s0 <> k -> HL = false) -> (key l page <> k -> HN = false) -> cut (if HL then at_level l L else L) (if HN then at_level l N else N) l' s = cut L N l' s.
Proof.
  intros Ht He He' Hne Hs H1 H2; eapply cut_same; [|done|done]; destruct (decide (l' = l)) as [->|]; [right|by left].
  intros <-; apply Hne; by rewrite (entry_inj _ _ _ _ _ _ _ _ _ Ht He' ltac:(subst; exact He)).
Qed.

Lemma both_set h T L N t i l : tree h T (cut L N) -> entry T t i l (key l s0) -> key l page = key l s0 -> L l = false -> N l = false -> node (at_ h (t, i)) ->
  tree h T (cut (at_level l L) (at_level l N)).
Proof.
  intros Ht He Hk HL HN Hn; eapply tree_set; [done|exact He|done| |intros *; apply cut_bound|done|].
  - intros *; intros; by eapply (cut_agree _ _ _ _ _ _ _ true true).
  - apply both_ok; try done; [by eapply entry_level|by apply Ht].
Qed.

Lemma short_set h T L N t i l h' : tree h T (cut L N) -> entry T t i l (key l s0) -> key l page <> key l s0 -> L l = false -> d_length (at_ h (t, i)) <> 0 ->
  (forall q, q <> (t, i) -> form (at_ h' q) = form (at_ h q)) -> form (at_ h' (t, i)) = form (set_length (page - start (at_ h (t, i))) (at_ h (t, i))) ->
  start (at_ h (t, i)) <= s0 /\ tree h' T (cut (at_level l L) N).
Proof.
  intros Ht He Hk HL Hd Hf Hx; destruct (short_ok T L N l (at_ h (t, i))) as [Hs Hok]; [by eapply entry_level|done..|by apply Ht|].
  split; [done|]; destruct (form_eq _ _ Hx) as (E1 & E2 & E3 & En & El & _); eapply tree_set; [done|exact He|done| |intros *; apply cut_bound| |].
  - intros *; intros; eapply (cut_agree _ _ _ _ _ _ _ true false); try done; by intros [].
  - intros [_ Hn]; rewrite En, E3; split; [split; [cbn; lia|done]|done].
  - eapply entry_ok_ext; [by symmetry|done|done].
Qed.

Lemma new_set h T L N t i l h' : tree h T (cut L N) -> entry T t i l (key l page) -> key l page <> key l s0 -> N l = false -> node (at_ h (t, i)) ->
  (forall q, q <> (t, i) -> form (at_ h' q) = form (at_ h q)) -> form (at_ h' (t, i)) = form (set_length (fin (at_ h (t, i)) - page) (set_start page (at_ h (t, i)))) ->
  page < fin (at_ h (t, i)) /\ tree h' T (cut L (at_level l N)).
Proof.
  intros Ht He Hk HN Hn Hf Hx; destruct (new_ok T L N l (at_ h (t, i))) as [Hs Hok]; [by eapply entry_level|done..|by apply Ht|].
  split; [done|]; destruct (form_eq _ _ Hx) as (E1 & E2 & E3 & En & El & _); eapply tree_set; [done|exact He|done| |intros *; apply cut_bound| |].
  - intros *; intros; eapply (cut_agree _ _ _ _ _ _ _ false true); try done; by intros [].
  - intros [_ Hn']; rewrite En, E3; split; [split; [cbn; lia|done]|done].
  - eapply entry_ok_ext; [by symmetry|done|done].
Qed.

Lemma place_set h T L N t i l h' : tree h T (cut L N) -> entry T t i l (key l page) -> key l page <> key l s0 -> N l = false -> d_length (at_ h (t, i)) = 0 ->
  (forall q, q <> (t, i) -> form (at_ h' q) = form (at_ h q)) -> start (at_ h' (t, i)) = page -> d_length (at_ h' (t, i)) = e0 - page -> allocation_type (at_ h' (t, i)) <> internal_node ->
  tree h' T (cut L (at_level l N)).
Proof.
  intros Ht He Hk HN Hd Hf E1 E2 E3; eapply tree_set; [done|exact He|done| |intros *; apply cut_bound|intros [? _]; done|].
  - intros *; intros; eapply (cut_agree _ _ _ _ _ _ _ false true); try done; by intros [].
  - eapply (place_ok T L N l (at_ h (t, i))); try done; [by eapply entry_level|by apply Ht].
Qed.

End Levels.

(** ** Changes of one descriptor *)

Lemma leaf_is_at h T ct r : tree h T ct -> is_leaf h T r -> leaf_at h T (start (at_ h r)) (fin (at_ h r)) r.
Proof.
  intros Ht [Hl (lv & k & He)]; split_and!; [apply Hl..|done|done|]; exists lv; pose proof (tr_entry _ _ _ Ht _ _ _ _ He) as Hx; rewrite <- surjective_pairing in Hx.
  destruct (en_leaf _ _ _ _ _ Hx Hl) as [[_ <-] _]; done.
Qed.

Lemma leaf_unique h T ct r r' : tree h T ct -> is_leaf h T r -> is_leaf h T r' -> start (at_ h r) = start (at_ h r') -> r = r'.
Proof. intros Ht H1 H2 E; eapply (leaf_at_fun h T ct); [done|by eapply leaf_is_at|rewrite E; by eapply leaf_is_at]. Qed.

(** A table is set to sum up something else. *)
Lemma ok_node d ct ct' A I T P C r f : ok d ct A I T P C -> node (at_ (heap d) r) -> r.1 <= tables d ->
  let x := at_ (heap d) r in tracking (f x) = tracking x -> d_length (f x) <> 0 -> allocation_type (f x) = internal_node ->
  tree (upd (heap d) r f) T ct' -> ok (set_heap (upd (heap d) r f) d) ct' A I T P C.
Proof.
  intros [O1 O2 O3 O4 O5 O6 O7 O8 O9 O10 O11 O12 O13 O14 O15 O16] [Hn1 Hn2] Hr x E1 E2 E3 Ht.
  assert (Hat : forall q, q <> r -> at_ (upd (heap d) r f) q = at_ (heap d) q) by (intros; by apply at_upd_ne).
  assert (Hr' : at_ (upd (heap d) r f) r = f x) by apply at_upd_eq.
  assert (Hslot : forall q i, slot (upd (heap d) r f) q i = slot (heap d) q i) by (intros; by apply slot_upd_other).
  assert (Hleaf : forall q, is_leaf (upd (heap d) r f) T q -> q <> r /\ is_leaf (heap d) T q).
  { intros q [Hl He]; assert (q <> r) by (intros ->; rewrite Hr' in Hl; by destruct Hl); split; [done|]; rewrite Hat in Hl by done; done. }
  assert (Hback : forall q, is_leaf (heap d) T q -> is_leaf (upd (heap d) r f) T q).
  { intros q [Hl He]; assert (q <> r) by (intros ->; by destruct Hl); split; [by rewrite Hat|done]. }
  assert (Howns : forall q, owns (upd (heap d) r f) q = owns (heap d) q) by (intros q; unfold owns; cbn [map]; by rewrite !Hslot).
  assert (Hclaimed : forall q i m, 0 <= i < 4 -> owner (slot (heap d) q i) = Mop m -> q <> r) by (intros q i m Hi Ho ->; destruct (O10 r i m Hi Ho) as [[[_ ?] _] _]; done).
  split; cbn; try done.
  - intros q; rewrite at_upd; case_decide; [fold x; rewrite E1|]; apply O1.
  - eapply pools_ext; [|done]; intros j l q Hj Hq; rewrite Hslot, Hat; [done|]; intros ->; by destruct (O9 _ _ _ Hj Hq) as [[_ ?] _].
  - eapply claims_ext; [|done]; intros; by rewrite Hslot.
  - eapply acc_ext; [|done]; intros m l [q j] Hm Hq; cbn; rewrite Hat; [done|]; destruct (cm_node _ _ _ O4 _ _ _ Hm Hq); by eapply Hclaimed.
  - intros q [Hq Hl]%Hleaf; unfold info_of; rewrite Howns, Hat by done; by apply O6.
  - intros q [Hq Hl]%Hleaf; destruct (O7 q Hl) as [A1 A2]; unfold slots_ok; rewrite Hat by done; split.
    + rewrite A1; apply cnt_ext; intros; by rewrite Hslot.
    + destruct (allocation_type (at_ (heap d) q)); try done; [destruct A2 as [A2 A3]; split; [done|]|]; intros i Hi; rewrite Hslot; auto.
  - intros q [Hq Hl]%Hleaf; rewrite Hat by done; by apply O8.
  - intros j l q Hj Hq; by eapply Hback, O9.
  - intros q i m Hi; rewrite Hslot; intros Ho; destruct (O10 q i m Hi Ho); rewrite Hat by (by eapply Hclaimed); split; [by apply Hback|done].
  - intros q; destruct (decide (q = r)) as [->|Hq]; [by rewrite Hr'|]; rewrite Hat by done; intros Hz; destruct (O11 q Hz) as (A1 & A2 & A3); unfold blank; rewrite Hat by done; split_and!; [done..|].
    intros i Hi; rewrite Hslot; by apply A3.
  - intros t i Hti; rewrite Hat by (intros <-; cbn in Hr; lia); by apply O13.
Qed.

(** Every open range has its reservation. *)
Definition backed (w : W) I : Prop := forall s i, I !! s = Some i -> i_type i = open_node -> exists r, i_res i = Some r /\ covers w r (s * 4096) (Z.min (i_end i * 4096) VIRT_END).

Lemma slots_ok_ext h h' r : (claims_used (at_ h' r) = claims_used (at_ h r) /\ allocation_type (at_ h' r) = allocation_type (at_ h r) /\ reservation (at_ h' r) = reservation (at_ h r) /\
  forall i, 0 <= i < 4 -> slot h' r i = slot h r i) -> slots_ok h r -> slots_ok h' r.
Proof.
  intros (E1 & E2 & E3 & E4) [H1 H2]; unfold slots_ok; rewrite E1, E2, E3; split; [rewrite H1; apply cnt_ext; intros; by rewrite E4|].
  destruct (allocation_type (at_ h r)); try done; [destruct H2 as [H2 H3]; split; [done|]|]; intros i Hi; rewrite E4 by done; auto.
Qed.

(** One range changes, or there is a new one: of the others at most the links do. *)
Definition kept h h' (r : dref) : Prop := forall q, q <> r -> bare (at_ h' q) = bare (at_ h q) /\ same_slots h q h' q /\ (~ leaf (at_ h q) -> forall j, 0 <= j < 4 -> slot h' q j = slot h q j).

Definition pooled (P P' : list (list dref)) (r : dref) : Prop :=
  (forall j l q, P' !! j = Some l -> q ∈ l -> q = r \/ exists j' l', P !! j' = Some l' /\ q ∈ l') /\
  (forall j l q, P !! j = Some l -> q ∈ l -> q <> r -> exists j' l', P' !! j' = Some l' /\ q ∈ l').

Definition steady d d' : Prop := tables d' = tables d /\ pool_n d' = pool_n d /\ free_tables d' = free_tables d /\ being_revoked d' = being_revoked d.

Lemma ok_step d d' ct ct' A A' I T P P' C C' r : ok d ct A I T P C -> let h := heap d in let h' := heap d' in
  four h' -> tree h' T ct' -> pools h' (pool_heads d') P' -> claims (slot h') (mops d') C' -> acc (fun q => A' (start (at_ h' q))) (mops d') C' ->
  kept h h' r -> is_leaf h' T r -> slots_ok h' r -> pooled P P' r -> (allocation_type (at_ h' r) = open_node -> exists j l, P' !! j = Some l /\ r ∈ l) ->
  steady d d' -> backed (world d') (<[start (at_ h' r) := info_of h' r]> I) ->
  ok d' ct' A' (<[start (at_ h' r) := info_of h' r]> I) T P' C'.
Proof.
  intros [O1 O2 O3 O4 O5 O6 O7 O8 O9 O10 O11 O12 O13 O14 O15 O16] h h' Hf Ht Hp Hc Ha Hk Hr Hs [Hin1 Hin2] Ho (S1 & S2 & S3 & S4) Hw.
  assert (Hb : forall q, q <> r -> form (at_ h' q) = form (at_ h q) /\ allocation_type (at_ h' q) = allocation_type (at_ h q) /\ claims_used (at_ h' q) = claims_used (at_ h q) /\
    start (at_ h' q) = start (at_ h q) /\ d_length (at_ h' q) = d_length (at_ h q)) by (intros q Hq; destruct (bare_fields _ _ (proj1 (Hk q Hq))) as (? & ? & _ & ? & ? & ? & _); done).
  assert (Hleaf : forall q, q <> r -> is_leaf h' T q <-> is_leaf h T q) by (intros q Hq; unfold is_leaf; destruct (form_eq _ _ (proj1 (Hb q Hq))) as (_ & _ & _ & _ & -> & _); done).
  split; try done; rewrite ?S1, ?S2, ?S3, ?S4; try done.
  - intros q Hl; destruct (decide (q = r)) as [->|Hq]; [apply lookup_insert_eq|]; rewrite lookup_insert_ne by (intros E; apply Hq; symmetry; by eapply (leaf_unique h' T ct')).
    destruct (Hk q Hq) as (B1 & B2 & _); fold h'; rewrite (same_info _ _ _ _ B1 B2), (proj1 (proj2 (proj2 (proj2 (Hb q Hq))))); by apply O6, Hleaf.
  - intros q Hl; destruct (decide (q = r)) as [->|Hq]; [done|]; destruct (Hk q Hq) as (B1 & B2 & _); eapply same_slots_ok; [done..|by apply O7, Hleaf].
  - intros q Hl Hty; destruct (decide (q = r)) as [->|Hq]; [by apply Ho|]; destruct (O8 q) as (j & l & E1 & E2); [by apply Hleaf|rewrite <- Hty; symmetry; by apply Hb|by eapply Hin2].
  - intros j l q E1 E2; destruct (decide (q = r)) as [->|Hq]; [done|]; apply Hleaf; [done|]; destruct (Hin1 j l q E1 E2) as [?|(j' & l' & E3 & E4)]; [done|by eapply O9].
  - intros q i m Hi Ho'; destruct (decide (q = r)) as [->|Hq].
    + split; [done|]; destruct Hs as [_ Hs]; fold h' in Hs |- *; destruct (allocation_type (at_ h' r)); try done; destruct Hs as [_ Hs]; by destruct (Hs i Hi) as (_ & Hn & _), (Hn m).
    + destruct (Hk q Hq) as (_ & B2 & _); apply (same_owner _ _ _ _ _ _ B2 Hi) in Ho'; destruct (O10 q i m Hi Ho') as [F1 F2]; split; [by apply Hleaf|rewrite <- F2; by apply Hb].
  - intros q Hz; destruct (decide (q = r)) as [->|Hq]; [by destruct Hr as [[? _] _]|]; destruct (Hb q Hq) as (_ & B2 & B3 & _ & B4); fold h' in Hz; rewrite B4 in Hz; destruct (O11 q Hz) as (A1 & A2 & A3).
    unfold blank; fold h'; rewrite B2, B3; split_and!; [done..|]; intros j Hj; destruct (Hk q Hq) as (_ & _ & E); rewrite E; [by apply A3|by intros [? _]|done].
  - intros t i Hti; pose proof (O13 t i Hti) as Hz; assert (Hq : (t, i) <> r) by (intros <-; destruct Hr as [_ (? & ? & ? & E & _)]; apply O12 in E; cbn in E; lia).
    destruct (Hk _ Hq) as (B1 & _ & B3); rewrite <- Hz; apply at_eq; [done..|]; apply B3; fold h in Hz; rewrite Hz; intros [? _]; done.
Qed.

(** A range gets another end or another range before it. *)
Lemma ok_leaf d ct ct' A I T P C r f w : ok d ct A I T P C -> is_leaf (heap d) T r -> let x := at_ (heap d) r in let h' := upd (heap d) r f in
  tracking (f x) = tracking x -> claims_used (f x) = claims_used x -> allocation_type (f x) = allocation_type x -> reservation (f x) = reservation x -> start (f x) = start x ->
  d_length (f x) <> 0 -> tree h' T ct' -> backed w (<[start x := info_of h' r]> I) -> ok (set_world w (set_heap h' d)) ct' A (<[start x := info_of h' r]> I) T P C.
Proof.
  intros Hok Hr x h' E1 E2 E3 E4 E5 E6 Ht Hw; assert (Hr' : at_ h' r = f x) by apply at_upd_eq.
  assert (Hslot : forall q i, slot h' q i = slot (heap d) q i) by (intros; by apply slot_upd_other).
  assert (Hst : forall q, start (at_ h' q) = start (at_ (heap d) q) /\ allocation_type (at_ h' q) = allocation_type (at_ (heap d) q)).
  { intros q; unfold h'; rewrite at_upd; case_decide; [subst q; done|done]. }
  assert (Estart : start x = start (at_ h' r)) by (by rewrite Hr'); rewrite Estart in Hw |- *; eapply ok_step; try exact Hok; try done; cbn.
  - intros q; unfold h'; rewrite at_upd; case_decide; [fold x; rewrite E1|]; apply Hok.
  - eapply pools_ext; [|apply Hok]; intros j l q Hj Hq; by rewrite Hslot, (proj2 (Hst q)).
  - eapply claims_ext; [|apply Hok]; intros; by rewrite Hslot.
  - eapply acc_ext; [|apply Hok]; intros m l q Hm Hq; cbn; by rewrite (proj1 (Hst q.1)).
  - intros q Hq; unfold same_slots; split_and!; [unfold h'; by rewrite at_upd_ne|intros i Hi; rewrite Hslot; auto|intros; apply Hslot].
  - destruct Hr as [Hl He]; split; [rewrite Hr'; split; [done|rewrite E3; apply Hl]|done].
  - eapply (slots_ok_ext (heap d)); [|by apply (ok_slots _ _ _ _ _ _ _ Hok)]; rewrite Hr'; split_and!; [done..|]; intros; by rewrite Hslot.
  - split; [|intros; by eauto]; intros; right; by eauto.
  - rewrite (proj2 (Hst r)); by apply (ok_open _ _ _ _ _ _ _ Hok).
Qed.

Lemma ok_ct d ct ct' A I T P C : (forall l s, ct l s = ct' l s) -> ok d ct A I T P C -> ok d ct' A I T P C.
Proof.
  intros E [O1 O2 O3 O4 O5 O6 O7 O8 O9 O10 O11 O12 O13 O14 O15 O16]; split; try done; eapply tree_ct; [|intros l s e; rewrite <- E; apply O2|exact O2]; intros; by rewrite E.
Qed.

Lemma tree_cut h T I s0 page e0 L L' N N' : tree h T (cut I s0 page e0 L N) -> (forall l t i k, entry T t i l k -> (L' l = L l \/ key l s0 <> k) /\ (N' l = N l \/ key l page <> k)) ->
  (forall l s e, cut I s0 page e0 L' N' l s = Some e -> 0 <= s < e /\ e <= 2 ^ 27) -> tree h T (cut I s0 page e0 L' N').
Proof.
  intros Ht Hf Hb; eapply tree_ct; [|done|done]; intros t i l k s He Hs; unfold cut; destruct (Hf l t i k He) as [H1 H2].
  case_decide; [subst s; destruct H1 as [->|?]; congruence|]; case_decide; [subst s; destruct H2 as [->|?]; congruence|done].
Qed.

(** ** The parts of a split *)

Section Cut.

Variables (I : gmap Z (@info R)) (s0 page e0 : Z) (i0 : @info R).
Hypothesis (Hti : tiled I) (E0 : I !! s0 = Some i0) (Ee : i_end i0 = e0) (Hpage : s0 < page < e0) (Hv : i_type i0 = open_node -> page * 4096 + 16 <= VIRT_END).

Abbreviation cutI := (cut I s0 page e0).

Definition set_end (e : Z) (i : @info R) : @info R := mk_info e (i_type i) (i_res i) (i_alloc i) (i_prev i) (i_own i).

Let Hi0 : exists i0, I !! s0 = Some i0 /\ i_end i0 = e0 := ex_intro _ i0 (conj E0 Ee).

Lemma key_split l l' : 0 <= l <= l' -> l' <= 2 -> key l page <> key l s0 -> key l' page <> key l' s0.
Proof.
  intros Hl Hl' Hk; assert (l' = l \/ l' = l + 1 \/ l' = l + 1 + 1) as [->|[->| ->]] by lia; [done|..]; intros E; apply Hk; rewrite <- !(key_down _ l) by lia; f_equal; [done|].
  rewrite <- !(key_down _ (l + 1)) by lia; by rewrite E.
Qed.

(** From level [lv] on. *)
Definition from (lv : Z) (F : Z -> bool) : Z -> bool := fun l => (lv <=? l) || F l.

Lemma from_next lv F l : from (lv + 1) (at_level lv F) l = from lv F l.
Proof. unfold from, at_level; destruct (lv + 1 <=? l) eqn:E1, (lv <=? l) eqn:E2, (l =? lv) eqn:E3; zbool; cbn; try done; lia. Qed.

(** Nothing of the tree is below the leaf. *)
Lemma tree_from h T L N lv lf r : tree h T (cutI (at_level lf L) N) -> leaf_at h T s0 page r -> entry T r.1 r.2 lf (key lf s0) ->
  (forall l, lv <= l < lf -> L l = true) -> lv <= lf -> tree h T (cutI (from lv L) N).
Proof.
  intros Ht Hl He HL Hlv; eapply tree_cut; [done| |intros *; by eapply cut_bound]; intros l t i k He'; split; [|by left]; destruct (decide (l <= lf)).
  - left; unfold from, at_level; destruct (lv <=? l) eqn:E1; zbool; cbn; [|rewrite (proj2 (Z.eqb_neq _ _)) by lia; done].
    destruct (decide (l = lf)) as [->|]; [by rewrite Z.eqb_refl|rewrite HL by lia; symmetry; apply orb_true_r].
  - right; intros <-; destruct (entry_level _ _ _ _ _ _ _ Ht He) as [? _]; destruct (ancestors _ _ _ _ _ _ lf _ Ht He') as (t1 & i1 & He1 & [_ Hn]); [lia|].
    destruct Hl as ([_ Hl] & _); apply Hl; rewrite (surjective_pairing r), (entry_inj _ _ _ _ _ _ _ _ _ Ht He He1); done.
Qed.

(** *** The old range *)

(** What [split_res] has for the new one. *)
Definition cut_res (w : W) (sp sp' : @split_res R) (r0 : dref) : Prop :=
  sp_type sp' = i_type i0 /\ transfer_from sp' = Some r0 /\
  match i_type i0 with open_node => exists q, sp_res sp' = Some q /\ covers w q (page * 4096) (Z.min (e0 * 4096) VIRT_END) | _ => sp_res sp' = sp_res sp end.

Lemma short_leaf_run d L N A T P C r0 sp lf : ok d (cutI L N) A I T P C -> leaf_at (heap d) T s0 e0 r0 -> entry T r0.1 r0.2 lf (key lf s0) ->
  key lf page <> key lf s0 -> L lf = false ->
  let d1 := set_heap (upd (heap d) r0 (set_length (page - s0))) d in
  exists w sp', split_leaf r0 (at_ (heap d) r0) (page - s0) sp d1 = Some (sp', set_world w d1) /\
    ok (set_world w d1) (cutI (at_level lf L) N) A (<[s0 := set_end page i0]> I) T P C /\ cut_res w sp sp' r0 /\ chunks w = chunks (world d).
Proof.
  intros Hok Hl He Hk HL d1; pose proof Hl as (Hlf & Est & Efin & _); set (x := at_ (heap d) r0) in *; pose proof (s0_range I s0 page e0 Hti Hi0 Hpage) as Hr.
  assert (Hleaf : is_leaf (heap d) T r0) by (split; [done|by exists lf, (key lf s0)]).
  assert (Hinfo : info_of (heap d) r0 = i0) by (pose proof (ok_view _ _ _ _ _ _ _ Hok r0 Hleaf) as E; fold x in E; rewrite Est, E0 in E; by injection E).
  assert (Hty : allocation_type x = i_type i0) by (by rewrite <- Hinfo); assert (Hres : reservation x = i_res i0) by (by rewrite <- Hinfo).
  pose proof (ok_slots _ _ _ _ _ _ _ Hok r0 Hleaf) as [_ Hsl]; fold x in Hsl.
  destruct (short_set I s0 page e0 Hti Hi0 Hpage (heap d) T L N r0.1 r0.2 lf (upd (heap d) r0 (set_length (page - s0)))) as [_ Ht]; rewrite <- ?surjective_pairing in *; try done.
  { apply Hok. } { apply Hlf. } { intros q Hq; by rewrite at_upd_ne. } { rewrite at_upd_eq; fold x; by rewrite Est. }
  assert (Hinfo' : info_of (upd (heap d) r0 (set_length (page - s0))) r0 = set_end page i0).
  { rewrite <- Hinfo; unfold info_of, owns; rewrite at_upd_eq; cbn [map]; rewrite !slot_upd_other by done; unfold set_end; cbn; f_equal; unfold fin; cbn; fold x; lia. }
  assert (Hgo : forall w, backed w (<[s0 := set_end page i0]> I) -> ok (set_world w d1) (cutI (at_level lf L) N) A (<[s0 := set_end page i0]> I) T P C).
  { intros w Hb; pose proof (ok_leaf d (cutI L N) (cutI (at_level lf L) N) A I T P C r0 (set_length (page - s0)) w Hok Hleaf) as H; cbv zeta in H; fold x in H; rewrite Est, Hinfo' in H.
    apply H; try done; cbn; lia. }
  assert (Hother : forall s i, I !! s = Some i -> s <> s0 -> i_end i <= s0 \/ e0 <= s).
  { intros s i Ei Hne; destruct (decide (s < s0)); [left; by apply (ti_apart _ Hti _ _ _ _ Ei E0)|right; rewrite <- Ee; apply (ti_apart _ Hti _ _ _ _ E0 Ei); lia]. }
  unfold split_leaf; rewrite Hty; rewrite Hty in Hsl; destruct (i_type i0) eqn:Et; try done.
  - destruct Hsl as [[rr Hrr] _]; destruct (ok_world _ _ _ _ _ _ _ Hok s0 i0 E0 Et) as (rr' & Hrr' & Hcov); rewrite Hres in Hrr; assert (rr' = rr) as -> by congruence.
    assert (VIRT_END <= 2 ^ 39) by (vm_compute; done); rewrite Ee in Hcov.
    destruct (split_law (world d) rr _ _ ((page - s0) * 4096 - 16) Hcov) as (w & q & Es & C1 & C2 & C3 & C4); [lia| |specialize (Hv eq_refl); lia|].
    { replace ((page - s0) * 4096 - 16) with (((page - s0) * 256 - 1) * 16) by lia; by apply Z.mod_mul. }
    replace (s0 * 4096 + 16 + ((page - s0) * 4096 - 16)) with (page * 4096) in * by lia.
    exists w, (mk_split (Some q) open_node (Some r0)); unfold cut_res; rewrite Et; split_and!; [| |done|done|by exists q|done].
    + unfold split_leaf; eapply bind_run; [apply lift_run; by rewrite Hres|]; eapply bind_run.
      { unfold wcall; change (world d1) with (world d); rewrite page_addr_small by lia; change RES_META_SIZE with 16; rewrite wrap_small by (unfold in_range; lia); by rewrite Es. }
      eapply bind_run; [by apply assert_run|done].
    + apply Hgo; intros s i Ei Ety; destruct (decide (s = s0)) as [->|Hne]; [rewrite lookup_insert_eq in Ei; injection Ei as <-; exists rr; split; [exact Hrr|]|].
      * cbn; replace (Z.min (page * 4096) VIRT_END) with (page * 4096); [done|]; specialize (Hv eq_refl); lia.
      * rewrite lookup_insert_ne in Ei by done; destruct (ok_world _ _ _ _ _ _ _ Hok s i Ei Ety) as (r' & ? & ?); exists r'; split; [done|]; apply C4; [done|]; destruct (Hother s i Ei Hne); lia.
  - exists (world d), (mk_split (sp_res sp) allocation_node (Some r0)); unfold cut_res; rewrite Et; split_and!; [by destruct d| |done|done|done|done].
    apply Hgo; intros s i Ei Ety; destruct (decide (s = s0)) as [->|Hne]; [rewrite lookup_insert_eq in Ei; injection Ei as <-; cbn in Ety; congruence|].
    rewrite lookup_insert_ne in Ei by done; by apply (ok_world _ _ _ _ _ _ _ Hok).
Qed.

(** The part of [split_index] that shortens the range, after its own entry. *)
Definition part (n : nat) (lv : Z) (l : dref) x (length1 : Z) (ix : dref * list Z) (sp : @split_res R) : @M W R ((dref * list Z) * @split_res R) :=
  if is_type internal_node x then
    t ← lift (sub_table x);
    '(ix, sp, _) ← split_index n page t (lv + 1) true ix (mk_split (sp_res sp) internal_node (Some l));
    mret (ix, sp)
  else sp ← split_leaf l x length1 sp; mret (ix, sp).

(** What stays as it is when only lengths and the world change. *)
Definition still d d' : Prop := mops d' = mops d /\ tables d' = tables d /\ pool_n d' = pool_n d /\ chunks (world d') = chunks (world d).

(** The numbers of a split, as they are without wrapping. *)
Lemma cut_lengths T L N lv x : entry_ok T (cutI L N) lv (key lv s0) x -> L lv = false -> d_length x <> 0 -> start x <= s0 ->
  u64 (page - start x) = page - start x /\ u64 (d_length x - (page - start x)) = fin x - page /\ page < fin x /\ 0 <= start x /\ stop x = fin x /\ fin x <= 2 ^ 27.
Proof.
  intros He HL Hd Hs; pose proof (s0_range I s0 page e0 Hti Hi0 Hpage) as Hr.
  assert (H0 : cutI L N lv s0 = Some e0) by (unfold cut; by rewrite decide_True, HL).
  assert (Hb : forall s e, cutI L N lv s = Some e -> 0 <= s < e /\ e <= 2 ^ 27) by (intros *; by eapply cut_bound).
  assert (Hx : 0 <= start x /\ e0 <= fin x <= 2 ^ 27).
  { destruct (counted_entry _ _ _ _ _ _ He H0) as [Hn|(_ & E1 & E2)]; [|lia]; destruct (en_node _ _ _ _ _ He Hn) as (_ & _ & [[e1 [B1 _]] [s2 [B2 _]] B3]).
    destruct (B3 s0 e0 (conj H0 eq_refl)), (Hb _ _ B1), (Hb _ _ B2); lia. }
  unfold stop, fin in *; rewrite !wrap_small by (unfold in_range; lia); lia.
Qed.

Lemma short_facts d L N A T P C lv t r0 lf : ok d (cutI L N) A I T P C -> 0 <= lv -> entry T t (NDX s0 lv) lv (key lv s0) -> leaf_at (heap d) T s0 e0 r0 -> entry T r0.1 r0.2 lf (key lf s0) ->
  key lv page <> key lv s0 -> L lv = false -> let l := (t, NDX s0 lv) in let x := at_ (heap d) l in
  d_length x <> 0 /\ start x <= s0 /\ lv <= lf /\ (node x /\ lv < 2 \/ l = r0 /\ lv = lf /\ leaf x /\ start x = s0).
Proof.
  intros Hok Hlv He Hr0 Hlf Hk HL l x; pose proof (ok_tree _ _ _ _ _ _ _ Hok) as Ht; pose proof (tr_entry _ _ _ Ht _ _ _ _ He) as Hx; fold l x in Hx; destruct (entry_level _ _ _ _ _ _ _ Ht He) as [Hlv2 Hi].
  assert (H0 : cutI L N lv s0 = Some e0) by (unfold cut; by rewrite decide_True, HL); assert (Hd : d_length x <> 0) by (intros E; by destruct (en_empty _ _ _ _ _ Hx E s0 e0)).
  destruct (short_ok I s0 page e0 Hti Hi0 Hpage T L N lv x ltac:(lia) Hk HL Hd Hx) as [Hs _]; destruct (entry_level _ _ _ _ _ _ _ Ht Hlf) as [Hlf2 _].
  split_and!; [done..| |].
  - destruct (decide (lv <= lf)); [done|]; destruct (ancestors _ _ _ _ _ _ lf _ Ht He) as (t1 & i1 & He1 & [_ Hn1]); [lia|].
    destruct Hr0 as ([_ Hr0] & _); destruct Hr0; by rewrite (surjective_pairing r0), (entry_inj _ _ _ _ _ _ _ _ _ Ht Hlf He1).
  - destruct (counted_entry _ _ _ _ _ _ Hx H0) as [Hnode|(Hlx & E1 & E2)]; [left; split; [done|by destruct (en_node _ _ _ _ _ Hx Hnode)]|right].
    assert (l = r0) as El by (eapply (leaf_at_fun (heap d) T); [exact Ht|split_and!; [apply Hlx..|exact E1|exact E2|by exists lv]|exact Hr0]).
    split_and!; [done| |apply Hlx..|done]; rewrite <- El in Hlf; by destruct (entry_fun _ _ _ _ _ _ _ Hlf He).
Qed.

(** What of the forms is left alone by an update. *)
Lemma form_upd h r f q : q <> r -> form (at_ (upd h r f) q) = form (at_ h q).
Proof. intros; by rewrite at_upd_ne. Qed.

(** The result of shortening the range from level [lv] on. *)
Definition shortened d L N A T P C lv sp r0 d' sp' : Prop :=
  ok d' (cutI (from lv L) N) A (<[s0 := set_end page i0]> I) T P C /\ cut_res (world d') sp sp' r0 /\ still d d' /\ leaf_at (heap d') T s0 page r0.

Lemma short_run n : forall lv d L N A T P C t sp r0 lf ix, Z.of_nat n + lv = 2 -> 0 <= lv -> ok d (cutI L N) A I T P C -> entry T t (NDX s0 lv) lv (key lv s0) ->
  leaf_at (heap d) T s0 e0 r0 -> entry T r0.1 r0.2 lf (key lf s0) -> way s0 lf ix.2 -> key lv page <> key lv s0 -> (forall l, lv <= l -> L l = false) ->
  let l := (t, NDX s0 lv) in let x := at_ (heap d) l in
  exists d' sp', part n lv l x (page - start x) ix sp (set_heap (upd (heap d) l (set_length (page - start x))) d) = Some ((ix, sp'), d') /\ shortened d L N A T P C lv sp r0 d' sp'.
Proof.
  induction n as [n IH] using lt_wf_ind; intros lv d L N A T P C t sp r0 lf ix Hn Hlv Hok He Hr0 Hlf Hw Hk HL l x.
  pose proof (ok_tree _ _ _ _ _ _ _ Hok) as Ht; destruct (short_facts d L N A T P C lv t r0 lf) as (Hd & Hs & Hle & Hcase); [done..|by apply HL; lia|]; fold l x in Hd, Hs, Hcase; unfold part.
  destruct Hcase as [[Hnode Hlv2]|(El & <- & Hlx & Est)].
  - destruct n as [|n]; [lia|]; unfold is_type; rewrite bool_decide_eq_true_2 by apply Hnode.
    destruct (en_node _ _ _ _ _ (tr_entry _ _ _ Ht _ _ _ _ He) Hnode) as (_ & (t1 & Es & _) & _); destruct (sub_entry_at _ _ _ _ _ _ _ Ht (tr_entry _ _ _ Ht _ _ _ _ He) Hlv Hnode Es) as [He1 _].
    set (h1 := upd (heap d) l (set_length (page - start x))); set (d1 := set_heap h1 d).
    destruct (short_set I s0 page e0 Hti Hi0 Hpage (heap d) T L N t (NDX s0 lv) lv h1) as [_ Ht1]; try done; [by apply HL; lia|intros q Hq; by apply form_upd|unfold h1; by rewrite at_upd_eq|].
    assert (Hlr : l <> r0) by (intros El; destruct Hr0 as ([_ Hr0] & _); apply Hr0; rewrite <- El; apply Hnode).
    assert (Hok1 : ok d1 (cutI (at_level lv L) N) A I T P C).
    { eapply ok_node; try done; [|cbn; lia|apply Hnode]; destruct He as (p & E & _); by destruct (ok_known _ _ _ _ _ _ _ Hok _ _ E). }
    assert (Hr1 : leaf_at h1 T s0 e0 r0) by (destruct Hr0 as (B1 & B2 & B3 & B4); unfold leaf_at, h1; by rewrite !at_upd_ne by done).
    assert (HL1 : forall l0, lv + 1 <= l0 -> at_level lv L l0 = false) by (intros l0 Hl0; unfold at_level; rewrite (proj2 (Z.eqb_neq _ _)) by lia; by rewrite HL by lia).
    pose proof (key_split lv (lv + 1) ltac:(lia) ltac:(lia) Hk) as Hk1.
    destruct (IH n ltac:(lia) (lv + 1) d1 (at_level lv L) N A T P C t1 (mk_split (sp_res sp) internal_node (Some l)) r0 lf ix) as (d' & sp' & Er & Hok' & Hres & Hst & Hr'); try done; [lia|lia|].
    destruct (short_facts d1 (at_level lv L) N A T P C (lv + 1) t1 r0 lf) as (Hd1 & Hs1 & Hle1 & _); try done; [lia|by apply HL1; lia|].
    destruct (cut_lengths T (at_level lv L) N (lv + 1) (at_ (heap d1) (t1, NDX s0 (lv + 1)))) as (N1 & N2 & N3 & N4 & _); [by apply Ht1|by apply HL1; lia|done|done|].
    exists d', sp'; split; [|split_and!; [|done..]].
    + eapply bind_run; [by apply lift_run|]; eapply bind_run; [|instantiate (2 := (ix, sp', None)); done]; cbn [split_index]; eapply bind_run; [apply lift_run, Hw; lia|]; eapply bind_run; [done|]; cbn beta zeta.
      rewrite N1, N2; do 2 (eapply bind_run; [apply assert_run; rewrite (proj2 (Z.eqb_neq _ _)); [done|lia]|]); cbn [orb]; eapply bind_run; [apply dput_run|].
      eapply bind_run; [exact Er|]; done.
    + eapply ok_ct; [|exact Hok']; intros l0 s; unfold cut; by rewrite from_next.
  - unfold is_type; rewrite bool_decide_eq_false_2, Est by apply Hlx; destruct (short_leaf_run d L N A T P C r0 sp lv) as (w & sp' & Er & Hok' & Hres & Hch); [done..|apply HL; lia|].
    exists (set_world w (set_heap (upd (heap d) r0 (set_length (page - s0))) d)), sp'; rewrite <- El in Er |- *.
    assert (Hr1 : leaf_at (upd (heap d) l (set_length (page - s0))) T s0 page l).
    { unfold leaf_at, leaf, fin; rewrite at_upd_eq; fold x; cbn [d_length set_length allocation_type start]; rewrite Est; split_and!; [lia|apply Hlx|done|lia|by exists lv; rewrite El]. }
    split; [eapply bind_run; [exact Er|done]|]; split; [|split; [by rewrite El|split; [by split_and!|done]]].
    destruct Hok' as [O1 O2 O3 O4 O5 O6 O7 O8 O9 O10 O11 O12 O13 O14 O15 O16]; rewrite <- El in *; split; try done.
    cbn in O2 |- *; apply (tree_from _ _ _ _ lv lv l); [done|done|exact He|lia|lia].
Qed.

End Cut.

End Split.
