(* ===== verification/MmapPush.v ===== *)
(** * The new part of a range that is split

    [push_in_index] puts the second part of a split range at its own place, and
    gives it the claims of the first part or a place on its pool. *)

From S2P Require Import Prelude Pmem PageTable Vmem Mmap MmapList MmapClaims MmapTree MmapInv MmapSplit.

(** ** Accounts *)

(** The part [lf] of the length of [r] is not counted any more. *)
Lemma total_due len len' lf r (l : list claimer_link_t) : NoDup l -> (forall x y, x ∈ l -> y ∈ l -> x.1 = r -> y.1 = r -> x = y) ->
  (forall x, x ∈ l -> x.1 <> r -> len' x.1 = len x.1) -> len r = len' r + lf ->
  (exists j, (r, j) ∈ l) /\ total len l = total len' l + lf \/ (forall j, (r, j) ∉ l) /\ total len l = total len' l.
Proof.
  intros Hnd Hone Hlen Hr; induction l as [|[q j] l IH]; [right; split; [intros j Hj; by apply elem_of_nil in Hj|done]|]; apply NoDup_cons in Hnd as [Hq Hnd].
  cbn [total foldr fst]; fold (total len l) (total len' l); destruct IH as [[[j' Hj'] E]|[Hj' E]]; [done|intros; apply Hone; (done || by right)|intros; apply Hlen; (done || by right)|..].
  - left; split; [exists j'; by right|]; rewrite E; destruct (decide (q = r)) as [->|Hne]; [|pose proof (Hlen (q, j) ltac:(left) Hne) as Hq'; cbn in Hq'; lia].
    destruct Hq; rewrite (Hone (r, j) (r, j')); (done || by (left || right)).
  - destruct (decide (q = r)) as [->|Hne]; [left; split; [exists j; left|lia]|right; pose proof (Hlen (q, j) ltac:(left) Hne) as Hq'; cbn in Hq'; split; [|lia]].
    intros i [?|Hi]%elem_of_cons; [congruence|by apply (Hj' i)].
Qed.

Lemma acc_split len len' lf S r ms C : claims S ms C -> acc len ms C -> (forall m l x, C !! m = Some l -> x ∈ l -> x.1 <> r -> len' x.1 = len x.1) -> len r = len' r + lf ->
  acc_due len' lf S r 0 ms C.
Proof.
  intros Hc Ha Hlen Hr m o l Ho Hl; destruct (Ha m o l Ho Hl) as [E1 E2]; split; [done|].
  assert (Hone : forall x y, x ∈ l -> y ∈ l -> x.1 = r -> y.1 = r -> x = y).
  { intros [q i] [q' j] Hx Hy Ex Ey; cbn in Ex, Ey; subst q q'; destruct (cm_node _ _ _ Hc _ _ _ Hl Hx) as [Hi Hwi], (cm_node _ _ _ Hc _ _ _ Hl Hy) as [Hj Hwj]; f_equal; by apply (cm_one _ _ _ Hc m r). }
  destruct (total_due len len' lf r l (cm_nodup _ _ _ Hc _ _ Hl) Hone (fun x => Hlen m l x Hl) Hr) as [[[j Hj] E]|[Hj E]].
  - exists lf; split; [by rewrite E2, E|left; split; [|done]]; destruct (cm_node _ _ _ Hc _ _ _ Hl Hj) as [? ?]; by exists j.
  - exists 0; rewrite Z.add_0_r; split; [by rewrite E2, E|right; split; [|done]]; intros (j & Hj' & Hw); destruct (cm_all _ _ _ Hc m r j ltac:(lia) Hw) as (l' & Hl' & Hin); apply (Hj j); congruence.
Qed.

Lemma acc_due_end len lf S r ms C : acc_due len lf S r 4 ms C -> acc len ms C.
Proof.
  intros Ha m o l Ho Hl; destruct (Ha m o l Ho Hl) as (E1 & x & E2 & [[(j & ? & _) _]|[_ ->]]); [lia|]; split; [done|by rewrite Z.add_0_r in E2].
Qed.

Lemma cnt_none X : (forall i m, 0 <= i < 4 -> owner (X i) <> Mop m) -> cnt X 4 = 0.
Proof.
  intros H; assert (Hz : forall i, 0 <= i < 4 -> own1 (X i) = 0) by (intros i Hi; unfold own1; pose proof (fun m => H i m Hi) as Hn; destruct (owner (X i)); naive_solver).
  cbn [cnt]; rewrite !Hz by lia; done.
Qed.

Section Push.

Context {W R : Type} `{!Nano W R} `{!NanoLaws W R}.

Abbreviation desc := (vpage_range_desc_t R).

Implicit Types (h : gmap (Z * Z) desc) (d : dir W R) (T : gmap Z (Z * Z)) (x : desc) (P : list (list dref)) (C : gmap Z (list claimer_link_t)) (A : Z -> Z) (J : gmap Z (@info R)) (sp : @split_res R).

Lemma owns_none h r : (forall i m, 0 <= i < 4 -> owner (slot h r i) <> Mop m) -> owns h r = replicate 4 None.
Proof.
  intros H; assert (Hz : forall i, 0 <= i < 4 -> own (slot h r i) = None) by (intros i Hi; unfold own; pose proof (fun m => H i m Hi) as Hn; destruct (owner (slot h r i)); naive_solver).
  unfold owns; cbn [map]; rewrite !Hz by lia; done.
Qed.

Lemma used_bare (x y : desc) : set_used 0 (bare x) = set_used 0 (bare y) -> claims_used x = claims_used y -> bare x = bare y.
Proof. destruct x, y; unfold bare, set_used, set_tracking; cbn; by intros [=] ->; subst. Qed.

Lemma others_same f h h' q : others f h h' -> q <> f -> same_slots h q h' q.
Proof. intros Ho Hq i Hi; destruct (Ho q i Hi Hq) as (-> & -> & _); auto. Qed.

Lemma owns_eq h r h' s : (forall i, 0 <= i < 4 -> owner (slot h' s i) = owner (slot h r i) /\ n_claims (slot h' s i) = n_claims (slot h r i)) -> owns h' s = owns h r.
Proof. intros H; apply same_owns; intros i Hi; destruct (H i Hi); auto. Qed.

Variables (I : gmap Z (@info R)) (s0 page e0 : Z) (i0 : @info R).
Hypothesis (Hti : tiled I) (E0 : I !! s0 = Some i0) (Ee : i_end i0 = e0) (Hpage : s0 < page < e0).

Abbreviation cutI := (cut I s0 page e0).

Let Hi0 : exists i0, I !! s0 = Some i0 /\ i_end i0 = e0 := ex_intro _ i0 (conj E0 Ee).

(** The new part, and the lengths after it is there. *)
Definition fresh_part sp x : desc := set_allocated 0 (set_type (sp_type sp) (set_res (sp_res sp) (set_length (e0 - page) (set_prev s0 (set_start page x))))).
Definition part_info sp : @info R := mk_info e0 (i_type i0) (sp_res sp) 0 s0 (i_own i0).
Definition part_lens A : Z -> Z := fun s => if decide (s = s0) then page - s0 else if decide (s = page) then e0 - page else A s.

(** Where [r] is placed. *)
Definition placed d lv N L A J T (t : Z) sp (r0 : dref) d' P' C' : Prop :=
  let r := (t, NDX page lv) in
  ok d' (cutI L (at_level lv N)) (part_lens A) (<[page := part_info sp]> J) T P' C' /\ steady d d' /\ world d' = world d /\ book_only (mops d) (mops d') /\
  (forall q, q <> r -> form (at_ (heap d') q) = form (at_ (heap d) q)) /\ leaf_at (heap d') T page e0 r /\ leaf_at (heap d') T s0 page r0.

Lemma place_done d d' L N A J T P P' C C' t lv sp r0 : let r := (t, NDX page lv) in let h := heap d in let h' := heap d' in
  ok d (cutI L N) A J T P C -> entry T t (NDX page lv) lv (key lv page) -> key lv page <> key lv s0 -> N lv = false -> d_length (at_ h r) = 0 -> leaf_at h T s0 page r0 ->
  sp_type sp = i_type i0 -> i_type i0 = open_node \/ i_type i0 = allocation_node ->
  four h' -> pools h' (pool_heads d') P' -> claims (slot h') (mops d') C' -> acc (fun q => part_lens A (start (at_ h' q))) (mops d') C' -> kept h h' r ->
  set_used 0 (bare (at_ h' r)) = set_used 0 (bare (fresh_part sp (at_ h r))) -> owns h' r = i_own i0 -> slots_ok h' r -> pooled P P' r ->
  (i_type i0 = open_node -> (exists j l, P' !! j = Some l /\ r ∈ l) /\ exists q, sp_res sp = Some q /\ covers (world d) q (page * 4096) (Z.min (e0 * 4096) VIRT_END)) ->
  steady d d' -> world d' = world d -> book_only (mops d) (mops d') -> placed d lv N L A J T t sp r0 d' P' C'.
Proof.
  intros r h h' Hok He Hk HN Hz Hr0 Est Hty Hf Hp Hc Ha Hkept Hbare Hown Hsl Hin Hopen Hst Hw Hm.
  assert (Hx : start (at_ h' r) = page /\ d_length (at_ h' r) = e0 - page /\ allocation_type (at_ h' r) = i_type i0 /\ info_of h' r = part_info sp).
  { unfold info_of, fin; rewrite Hown; unfold part_info; rewrite <- Est; unfold bare, fresh_part, set_used in Hbare; cbn in Hbare; injection Hbare as _ -> -> -> -> -> ->; split_and!; [done..|]; f_equal; lia. }
  destruct Hx as (X1 & X2 & X3 & X4); assert (Hni : allocation_type (at_ h' r) <> internal_node) by (rewrite X3; destruct Hty; congruence).
  assert (Hl : leaf (at_ h' r)) by (split; [rewrite X2; lia|done]).
  assert (Hform : forall q, q <> r -> form (at_ h' q) = form (at_ h q)) by (intros q Hq; apply bare_fields, Hkept; done).
  assert (Hr : r0 <> r) by (intros ->; destruct Hr0 as ([? _] & _); done).
  split; [|split; [done|split; [done|split; [done|split; [done|split]]]]].
  - assert (Hgo : ok d' (cutI L (at_level lv N)) (part_lens A) (<[start (at_ h' r) := info_of h' r]> J) T P' C'); [|by rewrite X1, X4 in Hgo]; eapply ok_step; try done.
    + eapply (place_set I s0 page e0 Hti Hi0 Hpage h); try done; apply Hok.
    + split; [done|by exists lv, (key lv page)].
    + fold h'; rewrite X3; intros Ho; by apply Hopen.
    + fold h'; rewrite X1, X4, Hw; intros s i Ei Ety; destruct (decide (s = page)) as [->|Hne]; [rewrite lookup_insert_eq in Ei; injection Ei as <-; by apply Hopen|].
      rewrite lookup_insert_ne in Ei by done; by apply (ok_world _ _ _ _ _ _ _ Hok).
  - split; [done|split; [done|split; [unfold fin; fold h' r; rewrite X1, X2; lia|by exists lv]]].
  - by eapply (leaf_at_form h); [apply Hform|].
Qed.

(** The new part is nowhere yet. *)
Lemma no_page_leaf d L N A J T P C t lv q : ok d (cutI L N) A J T P C -> entry T t (NDX page lv) lv (key lv page) -> (forall l, lv <= l -> N l = false) ->
  is_leaf (heap d) T q -> start (at_ (heap d) q) <> page.
Proof.
  intros Hok He HN [Hl (l & k & Hq)] Es; pose proof (ok_tree _ _ _ _ _ _ _ Hok) as Ht; pose proof (tr_entry _ _ _ Ht _ _ _ _ Hq) as Hx; rewrite <- surjective_pairing in Hx.
  destruct (en_leaf _ _ _ _ _ Hx Hl) as [[Hc Hk] _]; rewrite Es in Hc, Hk; subst k; destruct (decide (lv <= l)).
  - unfold cut in Hc; by rewrite decide_False, decide_True, HN in Hc by (done || lia).
  - destruct (entry_level _ _ _ _ _ _ _ Ht Hq) as [Hl0 _]; destruct (ancestors _ _ _ _ _ _ l _ Ht He) as (t1 & i1 & He1 & [_ Hn]); [lia|].
    destruct Hl as [_ Hl]; apply Hl; by rewrite (surjective_pairing q), (entry_inj _ _ _ _ _ _ _ _ _ Ht Hq He1).
Qed.

(** What is known of the place and of the first part. *)
Lemma place_facts d L N A J T P C t lv r0 : let r := (t, NDX page lv) in let h := heap d in
  ok d (cutI L N) A J T P C -> entry T t (NDX page lv) lv (key lv page) -> d_length (at_ h r) = 0 -> leaf_at h T s0 page r0 -> J !! s0 = Some (set_end page i0) -> (forall l, lv <= l -> N l = false) ->
  r0 <> r /\ blank h r /\ is_leaf h T r0 /\ slots_ok h r0 /\ allocation_type (at_ h r0) = i_type i0 /\ owns h r0 = i_own i0 /\ off_pools P r /\
  (forall q i m, 0 <= i < 4 -> owner (slot h q i) = Mop m -> q <> r0 -> start (at_ h q) <> s0 /\ start (at_ h q) <> page).
Proof.
  intros r h Hok He Hz Hr0 HJ HN; assert (Hr : is_leaf h T r0) by (destruct Hr0 as (B1 & _ & _ & lf & B2); split; [done|by exists lf, (key lf s0)]).
  assert (Hinfo : info_of h r0 = set_end page i0) by (pose proof (ok_view _ _ _ _ _ _ _ Hok r0 Hr) as E; fold h in E; destruct Hr0 as (_ & Es & _); rewrite Es, HJ in E; exact (eq_sym (inj Some _ _ E))).
  split; [intros ->; by destruct Hr as [[? _] _]|]; split; [by apply (ok_blank _ _ _ _ _ _ _ Hok)|]; split; [done|]; split; [by apply (ok_slots _ _ _ _ _ _ _ Hok)|]; split_and!.
  - transitivity (i_type (info_of h r0)); [done|by rewrite Hinfo].
  - transitivity (i_own (info_of h r0)); [done|by rewrite Hinfo].
  - intros j l Hj Hin; by destruct (ok_listed _ _ _ _ _ _ _ Hok _ _ _ Hj Hin) as [[? _] _].
  - intros q i m Hi Ho Hq; destruct (ok_claimed _ _ _ _ _ _ _ Hok q i m Hi Ho) as [Hl _]; split; intros Es.
    + apply Hq; eapply leaf_unique; [apply Hok|done|done|]; destruct Hr0 as (_ & E & _); fold h; congruence.
    + by eapply (no_page_leaf d L N A J T P C t lv q).
Qed.

(** The new part of an allocated range. *)
Lemma place_alloc d L N A J T P C t lv sp r0 : let r := (t, NDX page lv) in let h := heap d in
  ok d (cutI L N) A J T P C -> entry T t (NDX page lv) lv (key lv page) -> key lv page <> key lv s0 -> (forall l, lv <= l -> N l = false) -> d_length (at_ h r) = 0 ->
  leaf_at h T s0 page r0 -> J !! s0 = Some (set_end page i0) -> sp_type sp = i_type i0 -> i_type i0 = allocation_node -> A s0 = e0 - s0 ->
  exists d' C', transfer_claims r0 r (set_heap (upd h r (fresh_part sp)) d) = Some (tt, d') /\ placed d lv N L A J T t sp r0 d' P C'.
Proof.
  intros r h Hok He Hk HN Hz Hr0 HJ Hst Hty HA; destruct (place_facts d L N A J T P C t lv r0 Hok He Hz Hr0 HJ HN) as (Hne & (Bt & Bu & Bs) & Hl0 & Hsl0 & Ht0 & Hown & Hoff & Hother).
  fold r h in Hne, Bt, Bu, Bs, Hl0, Hsl0, Ht0, Hown, Hother; set (h1 := upd h r (fresh_part sp)); set (d1 := set_heap h1 d).
  assert (Hat : forall q, q <> r -> at_ h1 q = at_ h q) by (intros; by apply at_upd_ne); assert (Hatr : at_ h1 r = fresh_part sp (at_ h r)) by apply at_upd_eq.
  assert (Hslot : forall q i, slot h1 q i = slot h q i) by (intros; by apply slot_upd_other).
  assert (Hf1 : four h1) by (intros q; unfold h1; rewrite at_upd; case_decide; apply Hok); destruct Hsl0 as [Hu0 Hsl0]; rewrite Ht0, Hty in Hsl0.
  destruct (transfer_claims_run r0 r d1 C) as (h2 & ms2 & C2 & E & (T1 & T2 & T3 & T4) & [M1 M2 [K1 K2 K3] M4 M5]); [done| |].
  { change (heap d1) with h1; change (mops d1) with (mops d); split; [done|eapply claims_ext; [|apply Hok]; intros; by rewrite Hslot| |by rewrite Hatr; cbn; rewrite Hst|by rewrite Hatr].
    split; [lia|intros j Hj; rewrite Hslot; by apply Bs|intros j Hj; rewrite Hslot; by apply Hsl0]. }
  assert (Hb : forall q, q <> r -> bare (at_ h2 q) = bare (at_ h q)).
  { intros q Hq; destruct (T3 q) as [B1 B2]; rewrite <- (Hat q Hq); by apply used_bare; [|apply B2]. }
  assert (Hsh : forall q j, 0 <= j < 4 -> q <> r -> owner (slot h2 q j) = owner (slot h q j) /\ n_claims (slot h2 q j) = n_claims (slot h q j) /\ ((forall m, owner (slot h q j) <> Mop m) -> slot h2 q j = slot h q j)).
  { intros q j Hj Hq; destruct (T2 q j Hj Hq) as (A1 & A2 & A3); cbn in A1, A2, A3; rewrite Hslot in A1, A2, A3; done. }
  exists (set_mops ms2 (set_heap h2 d1)), C2; split; [exact E|]; eapply (place_done d _ L N A J T P P C C2 t lv sp r0); try done; change (heap (set_mops ms2 (set_heap h2 d1))) with h2; fold r h.
  - by apply HN.
  - by right.
  - eapply pools_ext; [|apply Hok]; intros j l q Hj Hin; destruct (ok_listed _ _ _ _ _ _ _ Hok _ _ _ Hj Hin) as [Hq _]; assert (q <> r) by (intros ->; by apply (Hoff j l)).
    split; [|by apply bare_type, Hb]; apply Hsh; [lia|done|]; intros m Ho; destruct (ok_claimed _ _ _ _ _ _ _ Hok q 0 m ltac:(lia) Ho) as [_ Ea].
    destruct (pl_node _ _ _ (ok_pools _ _ _ _ _ _ _ Hok) _ _ _ Hj Hin) as [_ Et]; fold h in Ea, Et; rewrite Ea in Et; destruct j as [|[|[|]]]; done.
  - apply (acc_due_end _ (part_lens A (start (at_ h2 r))) (slot h2) r0); apply (T4 (fun q => part_lens A (start (at_ h2 q)))).
    apply (acc_split (fun q => A (start (at_ h q)))); [eapply claims_ext; [|apply Hok]; intros; apply Hslot|apply Hok| |].
    + intros m l [q i] Hm Hq Hq0; cbn [fst] in *; destruct (cm_node _ _ _ (ok_claims _ _ _ _ _ _ _ Hok) _ _ _ Hm Hq) as [Hi Ho]; cbn [fst snd] in Hi, Ho; fold h in Ho.
      assert (q <> r) by (intros ->; rewrite (proj1 (Bs i Hi)) in Ho; done); destruct (Hother q i m Hi Ho Hq0) as [H1 H2]; destruct (bare_fields _ _ (Hb q ltac:(done))) as (_ & _ & _ & _ & -> & _).
      unfold part_lens; by rewrite !decide_False.
    + destruct (bare_fields _ _ (Hb r0 Hne)) as (_ & _ & _ & _ & -> & _); destruct Hr0 as (_ & -> & _); replace (start (at_ h2 r)) with page; [unfold part_lens; rewrite decide_True, decide_False, decide_True by lia; lia|].
      pose proof (proj1 (T3 r)) as Er; change (heap d1) with h1 in Er; rewrite Hatr in Er; unfold bare, set_used in Er; cbn in Er; by injection Er as _ _ -> _.
  - intros q Hq; split_and!; [by apply Hb|intros i Hi; destruct (Hsh q i Hi Hq) as (-> & -> & _); auto|].
    intros Hl j Hj; apply Hsh; [done..|]; intros m Ho; by destruct (ok_claimed _ _ _ _ _ _ _ Hok q j m Hj Ho) as [[? _] _].
  - rewrite (proj1 (T3 r)); change (heap d1) with h1; by rewrite Hatr.
  - rewrite <- Hown; apply owns_eq; intros i Hi; destruct (Hsh r0 i Hi Hne) as (<- & <- & _); apply K1; lia.
  - split; [rewrite M5; apply cnt_ext; intros; symmetry; apply K1; lia|rewrite M4]; intros i Hi; destruct (K1 i Hi) as [-> ->]; by apply K3.
  - split; [|intros; by eauto]; intros; right; by eauto.
  - congruence.
Qed.

(** The new part of an open range. *)
Lemma place_open d L N A J T P C t lv sp r0 : let r := (t, NDX page lv) in let h := heap d in
  ok d (cutI L N) A J T P C -> entry T t (NDX page lv) lv (key lv page) -> key lv page <> key lv s0 -> (forall l, lv <= l -> N l = false) -> d_length (at_ h r) = 0 ->
  leaf_at h T s0 page r0 -> J !! s0 = Some (set_end page i0) -> sp_type sp = i_type i0 -> i_type i0 = open_node ->
  (exists q, sp_res sp = Some q /\ covers (world d) q (page * 4096) (Z.min (e0 * 4096) VIRT_END)) ->
  exists d' P', (i ← pool_id r0; if i =? 0 then mret tt else add_after_desc r0 r) (set_heap (upd h r (fresh_part sp)) d) = Some (tt, d') /\ placed d lv N L A J T t sp r0 d' P' C.
Proof.
  intros r h Hok He Hk HN Hz Hr0 HJ Hst Hty Hres; destruct (place_facts d L N A J T P C t lv r0 Hok He Hz Hr0 HJ HN) as (Hne & (Bt & Bu & Bs) & Hl0 & Hsl0 & Ht0 & Hown & Hoff & Hother).
  fold r h in Hne, Bt, Bu, Bs, Hl0, Hsl0, Ht0, Hown, Hother; set (h1 := upd h r (fresh_part sp)); set (d1 := set_heap h1 d).
  assert (Hat : forall q, q <> r -> at_ h1 q = at_ h q) by (intros; by apply at_upd_ne); assert (Hatr : at_ h1 r = fresh_part sp (at_ h r)) by apply at_upd_eq.
  assert (Hslot : forall q i, slot h1 q i = slot h q i) by (intros; by apply slot_upd_other).
  assert (Hf1 : four h1) by (intros q; unfold h1; rewrite at_upd; case_decide; apply Hok); destruct Hsl0 as [Hu0 Hsl0]; rewrite Ht0, Hty in Hsl0; destruct Hsl0 as [_ Hsl0].
  destruct (ok_open _ _ _ _ _ _ _ Hok r0 Hl0) as (j & l & Hj & (l1 & l2 & ->)%list_elem_of_split); [fold h; congruence|].
  pose proof (ok_pools _ _ _ _ _ _ _ Hok) as Hp; fold h in Hp; destruct (pl_node _ _ _ Hp j _ r0 Hj ltac:(set_solver)) as [Hpid Hkind].
  assert (Hp1 : pools h1 (pool_heads d) P).
  { eapply pools_ext; [|exact Hp]; intros j' l' q Hj' Hin; rewrite Hslot, Hat; [done|]; intros ->; by apply (Hoff j' l'). }
  destruct (add_after_run d1 P j l1 r0 l2 r) as (h2 & E & Hp2 & [N1 N2 N3 N4]); try done; [by change (heap d1) with h1; rewrite Hatr; cbn; congruence|]; change (heap d1) with h1 in N2, N3, N4.
  set (P2 := <[j := l1 ++ r0 :: r :: l2]> P) in *; assert (Hjl : (j < List.length P)%nat) by (by eapply lookup_lt_Some).
  assert (Hmem : forall q, q ∈ l1 ++ r0 :: r :: l2 -> (forall m, owner (slot h q 0) <> Mop m) /\ (q <> r -> q ∈ l1 ++ r0 :: l2 /\ leaf (at_ h q) /\ allocation_type (at_ h q) = open_node)).
  { intros q Hq; destruct (decide (q = r)) as [->|Hqr]; [split; [intros m; by rewrite (proj1 (Bs 0 ltac:(lia)))|done]|]; assert (Hq' : q ∈ l1 ++ r0 :: l2) by (clear -Hq Hqr; set_solver).
    pose proof (ok_listed _ _ _ _ _ _ _ Hok _ _ _ Hj Hq') as Hl; destruct (pl_node _ _ _ Hp _ _ _ Hj Hq') as [_ Ht]; assert (Ho : allocation_type (at_ h q) = open_node) by congruence.
    split; [|intros _; split_and!; [done|apply Hl..|done]]; intros m Hm; destruct (ok_claimed _ _ _ _ _ _ _ Hok q 0 m ltac:(lia) Hm) as [_ Ea]; fold h in Ea; congruence. }
  assert (Hsl : forall q i, 0 <= i < 4 -> slot h2 q i = slot h q i \/ i = 0 /\ q ∈ l1 ++ r0 :: r :: l2 /\ n_claims (slot h2 q i) = n_claims (slot h q i) /\ forall m, owner (slot h2 q i) <> Mop m).
  { intros q i Hi; destruct (decide (i = 0 /\ q ∈ l1 ++ r0 :: r :: l2)) as [[-> Hq]|Hn]; [right|left; rewrite N3, Hslot; done]; split_and!; [done|done|by rewrite (proj1 (N4 q 0 Hi)), Hslot|].
    intros m; destruct (N4 q 0 Hi) as [_ [->|?]]; [rewrite Hslot; by apply Hmem|auto]. }
  assert (Hno : forall q i m, 0 <= i < 4 -> owner (slot h q i) = Mop m \/ owner (slot h2 q i) = Mop m -> slot h2 q i = slot h q i).
  { intros q i m Hi [Ho|Ho]; destruct (Hsl q i Hi) as [?|(-> & Hq & _ & Hn)]; try done; [by destruct (proj1 (Hmem q Hq) m)|by destruct (Hn m)]. }
  assert (Hr2 : forall i, 0 <= i < 4 -> n_claims (slot h2 r i) = 0 /\ (forall m, owner (slot h2 r i) <> Mop m) /\ (i <> 0 -> owner (slot h2 r i) = Null)).
  { intros i Hi; destruct (Bs i Hi) as [B1 B2], (Hsl r i Hi) as [->|(-> & _ & -> & Hn)]; [rewrite B1; done|done]. }
  exists (set_pools (map head P2) (set_heap h2 d1)), P2; split.
  { eapply bind_run; [by apply pool_id_run; [|unfold pid; change (heap d1) with h1; rewrite Hslot]|]; rewrite (proj2 (Z.eqb_neq _ _)) by lia; exact E. }
  eapply (place_done d _ L N A J T P P2 C C t lv sp r0); try done; change (heap (set_pools (map head P2) (set_heap h2 d1))) with h2; change (mops (set_pools (map head P2) (set_heap h2 d1))) with (mops d); fold r h.
  - by apply HN.
  - by left.
  - eapply claims_ext; [|apply Hok]; intros; by eapply Hno.
  - eapply acc_ext; [|apply Hok]; intros m l [q i] Hm Hq; cbn [fst]; destruct (cm_node _ _ _ (ok_claims _ _ _ _ _ _ _ Hok) _ _ _ Hm Hq) as [Hi Ho]; cbn [fst snd] in Hi, Ho; fold h in Ho.
    assert (q <> r) by (intros ->; rewrite (proj1 (Bs i Hi)) in Ho; done); assert (q <> r0) by (intros ->; by destruct (Hsl0 i Hi) as (_ & Hn & _), (Hn m)).
    destruct (Hother q i m Hi Ho ltac:(done)) as [H1 H2]; pose proof (N2 q) as B; rewrite Hat in B by done; destruct (bare_fields _ _ B) as (_ & _ & _ & _ & -> & _); unfold part_lens; by rewrite !decide_False.
  - intros q Hq; split_and!.
    + rewrite N2, Hat by done; done.
    + intros i Hi; destruct (Hsl q i Hi) as [->|(-> & Hin & -> & Hn)]; [auto|]; destruct (Hmem q Hin) as [B1 B2]; destruct (B2 Hq) as (_ & _ & B3); split; [done|right; by split_and!].
    + intros Hl i Hi; destruct (Hsl q i Hi) as [?|(_ & Hin & _)]; [done|]; by destruct (Hmem q Hin) as [_ B], (B Hq) as (_ & ? & _).
  - rewrite N2, Hatr; done.
  - rewrite <- Hown, !owns_none; [done|intros i m Hi; by apply Hsl0|intros i m Hi; by apply Hr2].
  - pose proof (N2 r) as B; rewrite Hatr in B; destruct (bare_fields _ _ B) as (_ & B1 & B2 & B3 & _); unfold slots_ok; rewrite B1, B2, B3; cbn [allocation_type fresh_part set_allocated set_type claims_used set_res set_length set_prev set_start reservation].
    rewrite Hst, Hty, Bu; split; [symmetry; apply cnt_none; intros i m Hi; by apply Hr2|]; split; [destruct Hres as (q & -> & _); done|done].
  - split; intros j' l' q Hj' Hin; unfold P2 in *; destruct (decide (j' = j)) as [->|Hjj].
    + rewrite list_lookup_insert_eq in Hj' by done; injection Hj' as <-; destruct (decide (q = r)) as [->|Hq]; [by left|right]; exists j, (l1 ++ r0 :: l2); split; [done|by apply Hmem].
    + rewrite list_lookup_insert_ne in Hj' by done; right; by eauto.
    + intros Hq; exists j, (l1 ++ r0 :: r :: l2); rewrite list_lookup_insert_eq by done; split; [done|]; rewrite Hj in Hj'; injection Hj' as <-; clear -Hin; set_solver.
    + intros Hq; exists j', l'; by rewrite list_lookup_insert_ne.
  - intros _; split; [|done]; exists j, (l1 ++ r0 :: r :: l2); split; [by apply list_lookup_insert_eq|set_solver].
Qed.

(** What [push_in_index] does with an empty place. *)
Lemma place_run d L N A J T P C t lv sp spx r0 : let r := (t, NDX page lv) in let h := heap d in
  ok d (cutI L N) A J T P C -> entry T t (NDX page lv) lv (key lv page) -> key lv page <> key lv s0 -> (forall l, lv <= l -> N l = false) -> d_length (at_ h r) = 0 ->
  leaf_at h T s0 page r0 -> J !! s0 = Some (set_end page i0) -> cut_res page e0 i0 (world d) spx sp r0 -> A s0 = e0 - s0 ->
  exists d' P' C', (match sp_type sp with
            | allocation_node => from ← lift (transfer_from sp); transfer_claims from r
            | open_node | tomb_node =>
                _ ← massert (negb (bool_decide (sp_type sp = open_node)) || bool_decide (is_Some (sp_res sp)));
                from ← lift (transfer_from sp);
                i ← pool_id from;
                if i =? 0 then mret tt else add_after_desc from r
            | free_node | internal_node => mret tt
            end) (set_heap (upd h r (fresh_part sp)) d) = Some (tt, d') /\ placed d lv N L A J T t sp r0 d' P' C'.
Proof.
  intros r h Hok He Hk HN Hz Hr0 HJ (Est & Etr & Hres) HA; destruct (place_facts d L N A J T P C t lv r0 Hok He Hz Hr0 HJ HN) as (_ & _ & _ & [_ Hsl] & Hty & _).
  rewrite Hty in Hsl; rewrite Est, Etr; destruct (i_type i0) eqn:Et; try done.
  - destruct (place_open d L N A J T P C t lv sp r0) as (d' & P' & E & Hpl); try done; [congruence|]; exists d', P', C; split; [|done].
    eapply bind_run; [apply assert_run; destruct Hres as (q & -> & _); done|]; eapply bind_run; [by apply lift_run|exact E].
  - destruct (place_alloc d L N A J T P C t lv sp r0) as (d' & C' & E & Hpl); try done; [congruence|]; exists d', P, C'; split; [|done].
    eapply bind_run; [by apply lift_run|exact E].
Qed.

(** *** On the way to the place *)

(** A range on the way becomes a table; a table stays as it is. *)
Definition opened d T (r : dref) d' T' : Prop :=
  T ⊆ T' /\ node (at_ (heap d') r) /\ start (at_ (heap d') r) = start (at_ (heap d) r) /\ d_length (at_ (heap d') r) = d_length (at_ (heap d) r) /\
  (forall q v, T !! q.1 = Some v -> q <> r -> form (at_ (heap d') q) = form (at_ (heap d) q)) /\ room d - 1 <= room d' /\
  (forall q a b, covers (world d) q a b -> covers (world d') q a b) /\ book_only (mops d) (mops d').

Lemma ends_book ms ms' : ends_only ms ms' -> book_only ms ms'.
Proof.
  intros H m; specialize (H m); destruct (ms !! m) as [o|], (ms' !! m) as [o'|]; cbn in *; try done; injection H as E1 E2 E3 E4 E5 E6 E7.
  unfold compose, set_account, set_ends; cbn; by rewrite E1, E2, E3, E4, E7.
Qed.

Lemma open_entry d ct A J T P C r lv k : let x := at_ (heap d) r in ok d ct A J T P C -> entry T r.1 r.2 lv k -> d_length x <> 0 -> (leaf x -> 0 < room d) ->
  (leaf x -> lv < 2 /\ forall s, key lv s = k -> ct (lv + 1) s = if decide (s = start x) then Some (fin x) else None) ->
  exists d' T' P' C', (if is_type internal_node x then mret tt else _ ← leaf_to_internal r (NDX (start x) (lv + 1)); mret tt) d = Some (tt, d') /\
    ok d' ct A J T' P' C' /\ opened d T r d' T'.
Proof.
  intros x Hok He Hd Hroom Hct; unfold is_type; case_bool_decide as Hi.
  - exists d, T, P, C; split; [done|split; [done|]]; split_and!; try done; lia.
  - destruct (Hct (conj Hd Hi)) as [Hlv Hc]; destruct (leaf_to_internal_ok d ct A J T P C r lv k Hok (Hroom (conj Hd Hi)) He (conj Hd Hi) Hlv Hc) as (d' & P' & C' & E & Hok' & HT & Hsh & Hr & Hw & Hm).
    exists d', (<[tables d + 1 := (lv + 1, k)]> T), P', C'; split; [eapply bind_run; [exact E|done]|split; [done|]]; destruct Hsh as [_ _ [Hf _] Hq]; fold x in Hf; unfold form in Hf; injection Hf as F1 F2 F3 F4.
    apply bool_decide_eq_true_1 in F3; split; [by apply insert_subseteq|]; split; [split; [by rewrite F2|done]|]; split_and!; [done|done| |lia|done|by apply ends_book].
    intros q v Hv Hne; apply bare_fields, Hq; [done|]; intros ->; cbn in Hv; congruence.
Qed.

(** Nothing of the tree is below the new part. *)
Lemma tree_new h T L N lv r : tree h T (cutI L (at_level lv N)) -> leaf_at h T page e0 r -> entry T r.1 r.2 lv (key lv page) -> tree h T (cutI L (from lv N)).
Proof.
  intros Ht Hl He; eapply tree_cut; [exact Ht| |intros *; by eapply cut_bound]; intros l t i k He'; split; [by left|]; unfold from, at_level; destruct (decide (l <= lv)).
  - left; destruct (lv <=? l) eqn:E1, (l =? lv) eqn:E2; zbool; cbn; (done || lia).
  - right; intros <-; destruct (entry_level _ _ _ _ _ _ _ Ht He) as [? _]; destruct (ancestors _ _ _ _ _ _ lv _ Ht He') as (t1 & i1 & He1 & [_ Hn]); [lia|].
    destruct Hl as ([_ Hl] & _); apply Hl; by rewrite (surjective_pairing r), (entry_inj _ _ _ _ _ _ _ _ _ Ht He He1).
Qed.

Lemma from_prev lv F l : at_level lv (from (lv + 1) F) l = from lv F l.
Proof. unfold from, at_level; destruct (lv + 1 <=? l) eqn:E1, (lv <=? l) eqn:E2, (l =? lv) eqn:E3; zbool; cbn; try done; lia. Qed.

Lemma ok_retree d ct ct' A J T P C : ok d ct A J T P C -> tree (heap d) T ct' -> ok d ct' A J T P C.
Proof. intros [O1 O2 O3 O4 O5 O6 O7 O8 O9 O10 O11 O12 O13 O14 O15 O16] Ht; by split. Qed.

(** The new part is there, from level [lv] on. *)
Definition pushed d lv L N A J T sp (r0 : dref) d' T' P' C' (out : dref) : Prop :=
  ok d' (cutI L (from lv N)) (part_lens A) (<[page := part_info sp]> J) T' P' C' /\ leaf_at (heap d') T' page e0 out /\ leaf_at (heap d') T' s0 page r0 /\ T ⊆ T' /\
  room d - (2 - lv) <= room d' /\ book_only (mops d) (mops d') /\ forall q l p, T !! q.1 = Some (l, p) -> l < lv -> form (at_ (heap d') q) = form (at_ (heap d) q).

(** A range on the way is one after the new part. *)
Lemma way_leaf d L N A J T P C t lv : let x := at_ (heap d) (t, NDX page lv) in ok d (cutI L N) A J T P C -> entry T t (NDX page lv) lv (key lv page) -> key lv page <> key lv s0 ->
  (forall l, lv <= l -> N l = false) -> leaf x -> lv < 2 /\ forall s, key lv s = key lv page -> cutI L N (lv + 1) s = if decide (s = start x) then Some (fin x) else None.
Proof.
  intros x Hok He Hk HN Hl; pose proof (ok_tree _ _ _ _ _ _ _ Hok) as Ht; destruct (en_leaf _ _ _ _ _ (tr_entry _ _ _ Ht _ _ _ _ He) Hl) as [[Hc Hk'] Hu]; fold x in Hc, Hk', Hu.
  assert (Hp : start x <> page) by (apply (no_page_leaf d L N A J T P C t lv (t, NDX page lv)); [done..|]; split; [done|by exists lv, (key lv page)]).
  assert (Hs0 : forall s, key lv s = key lv page -> s <> s0) by (intros s Hs ->; by apply Hk).
  split; [destruct (entry_level _ _ _ _ _ _ _ Ht He) as [? _]; destruct (decide (lv = 2)) as [->|]; [rewrite !key_last in Hk'; done|lia]|].
  intros s Hs; pose proof (Hs0 s Hs) as H1; pose proof (Hs0 _ Hk') as H2; unfold cut in Hc |- *; rewrite !decide_False in Hc by done; rewrite decide_False by done.
  destruct (decide (s = page)) as [->|Hsp]; [rewrite HN, decide_False by (done || lia); done|]; case_decide as E; [subst s; exact Hc|].
  unfold ends; destruct (I !! s) as [i|] eqn:Ei; [|done]; destruct E; apply (Hu s (i_end i)); split; [|done]; unfold cut; rewrite !decide_False by done; unfold ends; by rewrite Ei.
Qed.

Lemma push_run n : forall lv d L N A J T P C t sp spx r0, Z.of_nat n + lv = 3 -> 0 <= lv -> ok d (cutI L N) A J T P C -> entry T t (NDX page lv) lv (key lv page) ->
  key lv page <> key lv s0 -> (forall l, lv <= l -> N l = false) -> leaf_at (heap d) T s0 page r0 -> J !! s0 = Some (set_end page i0) -> cut_res page e0 i0 (world d) spx sp r0 -> A s0 = e0 - s0 ->
  2 - lv <= room d ->
  exists d' T' P' C' out, push_in_index n page s0 (e0 - page) t lv sp d = Some (out, d') /\ pushed d lv L N A J T sp r0 d' T' P' C' out.
Proof.
  induction n as [|n IH]; intros lv d L N A J T P C t sp spx r0 Hn Hlv Hok He Hk HN Hr0 HJ Hres HA Hroom; [destruct (entry_level _ _ _ _ _ _ _ (ok_tree _ _ _ _ _ _ _ Hok) He); lia|].
  set (r := (t, NDX page lv)); destruct (decide (d_length (at_ (heap d) r) = 0)) as [Hz|Hz].
  - destruct (place_run d L N A J T P C t lv sp spx r0) as (d' & P' & C' & E & Hok' & (S1 & S2 & S3 & S4) & Hw & Hm & Hf & Hl & Hl0); try done.
    exists d', T, P', C', r; split.
    + cbn [push_in_index]; eapply bind_run; [done|]; cbn beta; fold r; rewrite (proj2 (Z.eqb_eq _ _)) by done; eapply bind_run; [apply dput_run|]; eapply bind_run; [exact E|done].
    + split; [eapply ok_retree; [done|]; eapply (tree_new _ _ _ _ _ r); [apply Hok'|done|done]|]; split; [done|split; [done|split; [done|split]]].
      * unfold room in *; rewrite S2, Hw; lia.
      * split; [done|]; intros q l p Hq Hl'; apply Hf; intros ->; destruct He as (p' & E' & _); cbn in Hq; rewrite E' in Hq; injection Hq; lia.
  - destruct (open_entry d (cutI L N) A J T P C r lv (key lv page)) as (d1 & T1 & P1 & C1 & E1 & Hok1 & HT1 & Hn1 & Es1 & Ed1 & Hf1 & Hr1 & Hw1 & Hm1); try done.
    { intros Hl; destruct (way_leaf d L N A J T P C t lv) as [? _]; try done; lia. } { intros Hl; by apply (way_leaf d L N A J T P C t lv). }
    pose proof (ok_tree _ _ _ _ _ _ _ Hok1) as Ht1; pose proof (entry_mono _ _ _ _ _ _ HT1 He) as He1; pose proof (tr_entry _ _ _ Ht1 _ _ _ _ He1) as Hx1.
    destruct (en_node _ _ _ _ _ Hx1 Hn1) as (Hlv2 & (t1 & Esub & _) & [_ [sl [Hsl _]] _]); destruct (sub_entry_at _ _ _ _ _ _ _ Ht1 Hx1 Hlv Hn1 Esub) as [He2 _].
    assert (Hr0r : r0 <> r) by (intros ->; destruct Hr0 as (_ & _ & _ & lf & Hlf); destruct (entry_fun _ _ _ _ _ _ _ Hlf He) as [<- E]; by apply Hk).
    assert (Hr1' : leaf_at (heap d1) T1 s0 page r0).
    { eapply leaf_at_mono; [exact HT1|]; eapply leaf_at_form; [|exact Hr0]; destruct Hr0 as (_ & _ & _ & lf & p & Hp & _); by eapply Hf1. }
    destruct (IH (lv + 1) d1 L N A J T1 P1 C1 t1 sp spx r0) as (d2 & T2 & P2 & C2 & out & E2 & Hok2 & Hout & Hr2 & HT2 & Hroom2 & Hm2 & Hf2); try done; [lia|lia| |intros; apply HN; lia| |lia|].
    { apply (key_split s0 page lv); [lia|lia|done]. } { destruct Hres as (R1 & R2 & R3); split_and!; [done..|]; destruct (i_type i0); try done; destruct R3 as (q & ? & ?); eauto. }
    pose proof He1 as (pt & Ept & _); destruct (form_eq _ _ (Hf2 r lv pt Ept ltac:(lia))) as (G1 & G2 & _ & G3 & _ & G4).
    set (h3 := upd (heap d2) r (fun x => set_length (fin (at_ (heap d2) r) - page) (set_start page x))).
    destruct (new_set I s0 page e0 Hti Hi0 Hpage (heap d2) T2 L (from (lv + 1) N) t (NDX page lv) lv h3) as [Hfin Ht3].
    { apply Hok2. } { by eapply entry_mono. } { done. } { unfold from; rewrite HN, (proj2 (Z.leb_gt _ _)) by lia; done. } { by apply G3. } { intros q Hq; by apply form_upd. } { unfold h3, r; by rewrite at_upd_eq. }
    assert (Hn2 : node (at_ (heap d2) r)) by (by apply G3); assert (Hnl : forall s e q, leaf_at (heap d2) T2 s e q -> leaf_at h3 T2 s e q).
    { intros s e q Hq; eapply leaf_at_form; [|exact Hq]; apply form_upd; intros ->; destruct Hq as ([_ Hq] & _), Hn2; done. }
    assert (Hlen : u64 (start (at_ (heap d) r) + d_length (at_ (heap d) r) - page) = fin (at_ (heap d2) r) - page).
    { fold r in Hfin, Hsl; rewrite G4 in Hfin |- *; destruct (cut_bound I s0 page e0 Hti Hi0 Hpage _ _ _ _ _ Hsl) as [_ Hmax]; pose proof (s0_range I s0 page e0 Hti Hi0 Hpage).
      unfold fin in *; rewrite Es1, Ed1 in *; apply wrap_small; unfold in_range; lia. }
    exists (set_heap h3 d2), T2, P2, C2, out; split.
    + cbn [push_in_index]; eapply bind_run; [done|]; cbn beta; fold r; rewrite (proj2 (Z.eqb_neq _ _)) by done; eapply bind_run; [exact E1|]; eapply bind_run; [done|].
      eapply bind_run; [apply lift_run; exact Esub|]; eapply bind_run; [exact E2|]; eapply bind_run; [apply dput_run|]; by rewrite Hlen.
    + split; [|split; [by apply Hnl|split; [by apply Hnl|split; [by etransitivity|split; [|split]]]]].
      * eapply (ok_ct _ (cutI L (at_level lv (from (lv + 1) N)))); [intros l s; unfold cut; by rewrite from_prev|]; eapply ok_node; try done; [|cbn; fold r in Hfin; lia|apply Hn2].
        by destruct (ok_known _ _ _ _ _ _ _ Hok2 t (lv, pt)); [by eapply lookup_weaken|].
      * unfold room in *; cbn; lia.
      * intros m; cbn; by rewrite Hm2, Hm1.
      * intros q l p Hq Hl; assert (q <> r) by (intros ->; cbn in Hq; rewrite (lookup_weaken _ _ _ _ Hq HT1) in Ept; injection Ept; lia).
        change (heap (set_heap h3 d2)) with h3; unfold h3; rewrite form_upd by done; rewrite (Hf2 q l p) by (lia || by eapply lookup_weaken); by eapply Hf1.
Qed.

End Push.
