(* ===== verification/MmapCut.v ===== *)
(** * Ranges are split at a page

    [split_index] on a whole directory: the range from [s0] to [e0] becomes one
    up to [page] and one from [page] on, with the same owners, on the same pool;
    the range after them is told of the new one before it.  [size_node] cuts out
    a range. *)

From S2P Require Import Prelude Pmem PageTable Vmem Mmap MmapList MmapClaims MmapTree MmapInv MmapSplit MmapPush.

Section Cut.

Context {W R : Type} `{!Nano W R} `{!NanoLaws W R}.

Abbreviation desc := (vpage_range_desc_t R).

Implicit Types (h : gmap (Z * Z) desc) (d : dir W R) (T : gmap Z (Z * Z)) (x : desc) (P : list (list dref)) (C : gmap Z (list claimer_link_t)) (A : Z -> Z) (J : gmap Z (@info R)) (sp : @split_res R).

(** The range at [e] is told that the one before it starts at [page]. *)
Definition set_iprev (p : Z) (i : @info R) : @info R := mk_info (i_end i) (i_type i) (i_res i) (i_alloc i) p (i_own i).
Definition turned (e page : Z) J : gmap Z info := alter (set_iprev page) e J.

(** What a split makes of the ranges. *)
Definition cut_info J (s0 page : Z) (res : option R) : gmap Z info :=
  match J !! s0 with
  | Some i0 => <[page := mk_info (i_end i0) (i_type i0) res 0 s0 (i_own i0)]> (turned (i_end i0) page (<[s0 := set_end page i0]> J))
  | None => J
  end.

Section Range.

Variables (I : gmap Z (@info R)) (s0 page e0 : Z) (i0 : @info R).
Hypothesis (Hti : tiled I) (E0 : I !! s0 = Some i0) (Ee : i_end i0 = e0) (Hpage : s0 < page < e0) (Hv : i_type i0 = open_node -> page * 4096 + 16 <= VIRT_END).

Abbreviation cutI := (cut I s0 page e0).

Let Hi0 : exists i0, I !! s0 = Some i0 /\ i_end i0 = e0 := ex_intro _ i0 (conj E0 Ee).

Lemma cut_lookup res s : cut_info I s0 page res !! s =
  if decide (s = page) then Some (mk_info e0 (i_type i0) res 0 s0 (i_own i0)) else if decide (s = s0) then Some (set_end page i0) else
  if decide (s = e0) then set_iprev page <$> I !! s else I !! s.
Proof.
  unfold cut_info, turned; rewrite E0, Ee; destruct (decide (s = page)) as [->|H1]; [apply lookup_insert_eq|]; rewrite lookup_insert_ne by done.
  destruct (decide (s = s0)) as [->|H2]; [rewrite lookup_alter_ne by lia; apply lookup_insert_eq|]; destruct (decide (s = e0)) as [->|H3].
  - by rewrite lookup_alter_eq, lookup_insert_ne by done.
  - by rewrite lookup_alter_ne, lookup_insert_ne by done.
Qed.

Lemma cut_ends res l s : ends (cut_info I s0 page res) l s = cutI (fun _ => true) (fun _ => true) l s.
Proof.
  unfold cut, ends; rewrite cut_lookup; destruct (decide (s = page)) as [->|]; [by rewrite decide_False by lia|]; destruct (decide (s = s0)); [done|]; destruct (decide (s = e0)); [|done].
  by destruct (I !! s).
Qed.

Lemma cut_lens res s : lens (cut_info I s0 page res) s = part_lens s0 page e0 (lens I) s.
Proof.
  unfold lens, part_lens; rewrite cut_lookup; destruct (decide (s = page)) as [->|]; [by rewrite decide_False by lia|]; destruct (decide (s = s0)) as [->|]; [done|]; destruct (decide (s = e0)); [|done].
  by destruct (I !! s).
Qed.

(** The range at the cut and its neighbours are as they should be. *)
Lemma cut_tiled res : tiled (cut_info I s0 page res).
Proof.
  pose proof (s0_range I s0 page e0 Hti Hi0 Hpage) as Hr; assert (Hget : forall s i, cut_info I s0 page res !! s = Some i ->
    s = page /\ i_end i = e0 /\ i_prev i = s0 \/ s = s0 /\ i_end i = page /\ i_prev i = i_prev i0 \/
    exists i1, I !! s = Some i1 /\ s <> page /\ s <> s0 /\ i_end i = i_end i1 /\ i_prev i = (if decide (s = e0) then page else i_prev i1) /\ (i_end i1 <= s0 \/ e0 <= s)).
  { intros s i; rewrite cut_lookup; destruct (decide (s = page)); [intros [= <-]; auto|]; destruct (decide (s = s0)); [intros [= <-]; auto|].
    destruct (I !! s) as [i1|] eqn:E1; [|case_decide; done]; assert (Ho : i_end i1 <= s0 \/ e0 <= s).
    { destruct (decide (s < s0)); [left; by apply (ti_apart _ Hti _ _ _ _ E1 E0)|right; rewrite <- Ee; apply (ti_apart _ Hti _ _ _ _ E0 E1); lia]. }
    intros Hi; right; right; exists i1; case_decide; cbn in Hi; injection Hi as <-; split_and!; done. }
  assert (Hat : forall s i1, I !! s = Some i1 -> exists i, cut_info I s0 page res !! s = Some i /\ i_prev i = if decide (s = e0) then page else i_prev i1).
  { intros s i1 E1; rewrite cut_lookup; rewrite decide_False by (intros ->; by rewrite (page_new I s0 page e0 Hti Hi0 Hpage) in E1); rewrite E1; cbn.
    destruct (decide (s = s0)) as [->|]; [rewrite decide_False by lia; assert (i1 = i0) as -> by congruence; by exists (set_end page i0)|]; case_decide; eauto. }
  assert (Hrng : forall s i1, I !! s = Some i1 -> 0 <= s < i_end i1 /\ i_end i1 <= 2 ^ 27) by apply Hti; split.
  - intros s i [(-> & -> & _)|[(-> & -> & _)|(i1 & E1 & _ & _ & -> & _)]]%Hget; [lia|lia|by apply Hrng].
  - destruct (ti_first _ Hti) as [i1 E1]; destruct (Hat 0 i1 E1) as (i & -> & _); done.
  - intros s i [(-> & -> & _)|[(-> & -> & _)|(i1 & E1 & H1 & H2 & -> & _ & H3)]]%Hget.
    + destruct (ti_next _ Hti _ _ E0) as [?|(i1 & E1 & _)]; [left; congruence|right]; rewrite Ee in E1; destruct (Hat _ _ E1) as (i2 & E2 & Hp); exists i2; by rewrite decide_True in Hp.
    + right; rewrite cut_lookup, decide_True by done; by eexists.
    + destruct (ti_next _ Hti _ _ E1) as [?|(i2 & E2 & Hp)]; [by left|right]; destruct (Hat _ _ E2) as (i3 & E3 & Hp3); exists i3; split; [done|]; rewrite Hp3; case_decide as E; [|done].
      assert (s = s0); [|done]; destruct (Hrng _ _ E1); pose proof (ti_next _ Hti _ _ E0) as [?|(i4 & E4 & Hp4)]; [rewrite E in E2; apply Hrng in E2; lia|rewrite Ee, <- E in E4; congruence].
  - intros s i s' i' Hi Hi' Hlt; destruct (Hget _ _ Hi) as [(-> & -> & _)|[(-> & -> & _)|(i1 & E1 & H1 & H2 & -> & _ & H3)]], (Hget _ _ Hi') as [(-> & _)|[(-> & _)|(i2 & E2 & H4 & H5 & _ & _ & H6)]]; try lia.
    all: try pose proof (Hrng _ _ E1); try pose proof (Hrng _ _ E2); try lia; by apply (ti_apart _ Hti _ _ _ _ E1 E2).
Qed.

(** *** The range after *)

(** The entry on the way to the range ends where the range does. *)
Lemma short_fin T L N lv x : 0 <= lv <= 2 -> entry_ok T (cutI L N) lv (key lv s0) x -> key lv page <> key lv s0 -> L lv = false -> fin x = e0.
Proof.
  intros Hlv He Hk HL; assert (H0 : cutI L N lv s0 = Some e0) by (unfold cut; by rewrite decide_True, HL).
  destruct (counted_entry _ _ _ _ _ _ He H0) as [Hn|(_ & _ & ?)]; [|done]; destruct (en_node _ _ _ _ _ He Hn) as (_ & _ & [_ [s2 [B1 B2]] B3]); destruct (B3 s0 e0 (conj H0 eq_refl)) as [_ C2].
  destruct (decide (s2 = s0)) as [->|H1]; [congruence|]; destruct (decide (s2 = page)) as [->|H2]; [done|]; destruct (cut_other I s0 page e0 Hti Hi0 Hpage _ _ _ _ _ B1 H1 H2) as [?|?]; [lia|].
  pose proof (key_mono lv s0 page Hlv ltac:(lia)); pose proof (key_mono lv page s2 Hlv ltac:(lia)); lia.
Qed.

Lemma turn_run d L N A T P C r0 : ok d (cutI L N) A (<[s0 := set_end page i0]> I) T P C -> leaf_at (heap d) T s0 page r0 ->
  exists h', (if e0 =? MAX_VIRTUAL_PAGES then mret tt else q ← hard_index e0; q ← lift q; dput q (set_prev page)) d = Some (tt, set_heap h' d) /\
    ok (set_heap h' d) (cutI L N) A (turned e0 page (<[s0 := set_end page i0]> I)) T P C /\ leaf_at h' T s0 page r0 /\ at_ h' r0 = at_ (heap d) r0.
Proof.
  intros Hok Hr0; rewrite max_pages; set (J := <[s0 := set_end page i0]> I) in *; destruct (ti_next _ Hti _ _ E0) as [Em|(i1 & E1 & _)]; rewrite Ee in *.
  - rewrite (proj2 (Z.eqb_eq _ _)) by done; exists (heap d); split; [by destruct d|]; rewrite set_heap_id; split; [|done]; replace (turned e0 page J) with J; [done|].
    symmetry; apply alter_id; intros i Ei; unfold J in Ei; rewrite lookup_insert_ne in Ei by lia; destruct (ti_range _ Hti _ _ Ei); lia.
  - destruct (ti_range _ Hti _ _ E1) as [H1 H2]; rewrite (proj2 (Z.eqb_neq _ _)) by lia; pose proof (ok_tree _ _ _ _ _ _ _ Hok) as Ht.
    assert (Hfull : full (cutI L N) e0 (i_end i1)) by (intros l _; unfold cut; rewrite !decide_False by lia; unfold ends; by rewrite E1).
    destruct (hard_index_run d T _ e0 (i_end i1) Ht Hfull ltac:(lia)) as (q & Eq & Hq); set (h' := upd (heap d) q (set_prev page)); exists h'.
    assert (Hqr : q <> r0) by (intros ->; destruct Hq as (_ & F1 & _), Hr0 as (_ & F2 & _); lia).
    assert (Hat : at_ h' r0 = at_ (heap d) r0) by (apply at_upd_ne; congruence).
    assert (Hlq : is_leaf (heap d) T q) by (destruct Hq as (F1 & _ & _ & lf & F2); split; [done|by exists lf, (key lf e0)]).
    assert (EJ : J !! e0 = Some i1) by (unfold J; by rewrite lookup_insert_ne by lia).
    assert (Hinfo : info_of (heap d) q = i1) by (pose proof (ok_view _ _ _ _ _ _ _ Hok q Hlq) as E; destruct Hq as (_ & Es & _); rewrite Es, EJ in E; exact (eq_sym (inj Some _ _ E))).
    assert (Hinfo' : info_of h' q = set_iprev page i1).
    { rewrite <- Hinfo; unfold info_of, owns; unfold h' at 1; rewrite at_upd_eq; unfold h'; cbn [map]; rewrite !slot_upd_other by done; rewrite at_upd_eq; done. }
    assert (ET : turned e0 page J = <[e0 := set_iprev page i1]> J) by (unfold turned; apply map_eq; intros s; destruct (decide (s = e0)) as [->|]; [by rewrite lookup_alter_eq, lookup_insert_eq, EJ|by rewrite lookup_alter_ne, lookup_insert_ne by done]).
    split; [eapply bind_run; [exact Eq|]; eapply bind_run; [by apply lift_run|]; by rewrite dput_run|]; split; [|split; [by eapply leaf_at_form; [by rewrite Hat|]|done]].
    pose proof (ok_leaf d (cutI L N) (cutI L N) A J T P C q (set_prev page) (world d) Hok Hlq) as H; cbv zeta in H; fold h' in H; destruct Hq as (Hl & Es & _).
    rewrite Es, Hinfo', <- ET in H; replace (set_world (world d) (set_heap h' d)) with (set_heap h' d) in H by (by destruct d); apply H; try done; [apply Hl| |].
    + eapply tree_form; [|exact Ht]; intros q'; unfold h'; rewrite at_upd; case_decide; by subst.
    + rewrite ET; intros s i Ei Ety; destruct (decide (s = e0)) as [->|Hs]; [rewrite lookup_insert_eq in Ei; injection Ei as <-|rewrite lookup_insert_ne in Ei by done; by apply (ok_world _ _ _ _ _ _ _ Hok)].
      by apply (ok_world _ _ _ _ _ _ _ Hok e0 i1).
Qed.

(** *** The split *)

(** Levels above [lv] have been changed. *)
Definition below (lv : Z) : Z -> bool := fun l => l <? lv.

Lemma from_below lv l : from lv (below lv) l = true.
Proof. unfold from, below; destruct (lv <=? l) eqn:E; [done|]; zbool; cbn; apply Z.ltb_lt; lia. Qed.

Definition split_done d (lost : Z) (r0 : dref) sp' (out : dref) d' T' P' C' : Prop :=
  let I' := cut_info I s0 page (sp_res sp') in
  ok d' (ends I') (lens I') I' T' P' C' /\ leaf_at (heap d') T' s0 page r0 /\ leaf_at (heap d') T' page e0 out /\ room d - lost <= room d' /\ book_only (mops d) (mops d').

Lemma ok_lens d ct A A' J T P C : (forall s, A s = A' s) -> ok d ct A J T P C -> ok d ct A' J T P C.
Proof. intros E [O1 O2 O3 O4 O5 O6 O7 O8 O9 O10 O11 O12 O13 O14 O15 O16]; split; try done; eapply acc_ext; [|exact O5]; intros; symmetry; apply E. Qed.

(** Where the two parts go different ways. *)
Lemma branch_run n lv d T P C t sp r0 ixs lf : Z.of_nat n + lv = 2 -> 0 <= lv -> ok d (cutI (below lv) (below lv)) (lens I) I T P C ->
  entry T t (NDX s0 lv) lv (key lv s0) -> entry T t (NDX page lv) lv (key lv page) -> leaf_at (heap d) T s0 e0 r0 -> entry T r0.1 r0.2 lf (key lf s0) -> way s0 lf ixs ->
  key lv page <> key lv s0 -> 2 - lv <= room d ->
  exists d' T' P' C' sp' out, split_index (S n) page t lv false (r0, ixs) sp d = Some (((r0, ixs), sp', Some out), d') /\ split_done d (2 - lv) r0 sp' out d' T' P' C'.
Proof.
  intros Hn Hlv Hok He Hep Hr0 Hlf Hw Hk Hroom; set (F := below lv) in *; assert (HF : forall l, lv <= l -> F l = false) by (intros; apply Z.ltb_ge; lia).
  pose proof (ok_tree _ _ _ _ _ _ _ Hok) as Ht; destruct (entry_level _ _ _ _ _ _ _ Ht He) as [Hlv2 _]; set (l := (t, NDX s0 lv)); set (x := at_ (heap d) l).
  destruct (short_facts I s0 page e0 i0 Hti E0 Ee Hpage d F F (lens I) T P C lv t r0 lf) as (Hd & Hs & Hle & _); try done; [by apply HF; lia|]; fold l x in Hd, Hs.
  pose proof (tr_entry _ _ _ Ht _ _ _ _ He) as Hx; fold l x in Hx.
  destruct (cut_lengths I s0 page e0 i0 Hti E0 Ee Hpage T F F lv x Hx) as (N1 & N2 & N3 & N4 & N5 & _); [by apply HF; lia|done|done|]; pose proof (short_fin T F F lv x ltac:(lia) Hx Hk (HF lv ltac:(lia))) as Efin.
  destruct (short_run I s0 page e0 i0 Hti E0 Ee Hpage Hv n lv d F F (lens I) T P C t sp r0 lf (r0, ixs)) as (d1 & sp' & E1 & Hok1 & Hres & (S1 & S2 & S3 & S4) & Hr1); try done; fold l x in E1.
  destruct (turn_run d1 (from lv F) F (lens I) T P C r0 Hok1 Hr1) as (h2 & E2 & Hok2 & Hr2 & Hat2).
  destruct (push_run I s0 page e0 i0 Hti E0 Ee Hpage (S n) lv (set_heap h2 d1) (from lv F) F (lens I) (turned e0 page (<[s0 := set_end page i0]> I)) T P C t sp' sp r0)
    as (d' & T' & P' & C' & out & E3 & Hok' & Hout & Hr' & _ & Hroom' & Hm & _); try done; [lia| | |unfold room in *; cbn; rewrite S3, S4; lia|].
  { unfold turned; rewrite lookup_alter_ne by lia; apply lookup_insert_eq. } { unfold lens; by rewrite E0, Ee. }
  exists d', T', P', C', sp', out; split.
  - cbn [split_index]; eapply bind_run; [apply lift_run, Hw; lia|]; eapply bind_run; [done|]; cbn beta zeta; fold l x; rewrite N1, N2, N5, Efin.
    do 2 (eapply bind_run; [apply assert_run; rewrite (proj2 (Z.eqb_neq _ _)) by lia; done|]); replace (NDX s0 lv =? NDX page lv) with false.
    + cbn [orb negb]; eapply bind_run; [apply dput_run|]; eapply bind_run; [exact E1|]; eapply bind_run; [exact E2|]; eapply bind_run; [by apply lift_run, Hres|]; eapply bind_run; [done|]; cbn beta.
      change (heap (set_heap h2 d1)) with h2; destruct Hr2 as (_ & -> & _); eapply bind_run; [exact E3|done].
    + symmetry; apply Z.eqb_neq; intros En; apply Hk; destruct He as (p & Ep & _ & ->), Hep as (p' & Ep' & _ & ->); rewrite Ep in Ep'; injection Ep' as <-; lia.
  - unfold split_done; cbv zeta; split; [|split; [done|split; [done|split; [unfold room in *; cbn in Hroom'; rewrite S3, S4 in Hroom'; lia|intros m; by rewrite <- S1; apply Hm]]]].
    eapply ok_lens; [intros s; symmetry; by apply cut_lens|]; apply (ok_ct _ (cutI (from lv F) (from lv F))); [intros l' s; rewrite cut_ends; unfold cut, F; by rewrite !from_below|]; unfold cut_info; rewrite E0, Ee; exact Hok'.
Qed.

Lemma at_below lv l : at_level lv (below lv) l = below (lv + 1) l.
Proof. unfold at_level, below; destruct (l =? lv) eqn:E1, (l <? lv) eqn:E2, (l <? lv + 1) eqn:E3; zbool; cbn; try done; lia. Qed.

(** The range goes one table deeper, for both parts to have a place. *)
Lemma deeper d T P C t r0 ixs lf lv : let l := (t, NDX s0 lv) in let x := at_ (heap d) l in 0 <= lv < 2 -> ok d (cutI (below lv) (below lv)) (lens I) I T P C ->
  entry T t (NDX s0 lv) lv (key lv s0) -> leaf_at (heap d) T s0 e0 r0 -> entry T r0.1 r0.2 lf (key lf s0) -> way s0 lf ixs -> 1 <= room d ->
  exists d1 T1 P1 C1 r1 ixs1 lf1, (if is_type internal_node x then mret (r0, ixs) else
      s ← leaf_to_internal l (NDX (start x) (lv + 1)); mret (s, <[Z.to_nat (lv + 1) := NDX (start x) (lv + 1)]> ixs)) d = Some ((r1, ixs1), d1) /\
    ok d1 (cutI (below lv) (below lv)) (lens I) I T1 P1 C1 /\ T ⊆ T1 /\ node (at_ (heap d1) l) /\ leaf_at (heap d1) T1 s0 e0 r1 /\ entry T1 r1.1 r1.2 lf1 (key lf1 s0) /\ way s0 lf1 ixs1 /\
    room d - 1 <= room d1 /\ book_only (mops d) (mops d1).
Proof.
  intros l x Hlv Hok He Hr0 Hlf Hw Hroom; pose proof (ok_tree _ _ _ _ _ _ _ Hok) as Ht; pose proof (tr_entry _ _ _ Ht _ _ _ _ He) as Hx; fold l x in Hx.
  assert (HF : forall l', lv <= l' -> below lv l' = false) by (intros; apply Z.ltb_ge; lia).
  assert (H0 : cutI (below lv) (below lv) lv s0 = Some e0) by (unfold cut; by rewrite decide_True, HF by lia).
  destruct (counted_entry _ _ _ _ _ _ Hx H0) as [Hn|(Hl & Es & Ef)]; unfold is_type.
  - rewrite bool_decide_eq_true_2 by apply Hn; exists d, T, P, C, r0, ixs, lf; split; [done|]; split; [done|]; split; [done|]; split; [done|]; split; [done|]; split; [done|]; split; [done|]; split; [lia|done].
  - rewrite bool_decide_eq_false_2 by apply Hl; assert (l = r0) as El by (eapply (leaf_at_fun (heap d) T); [exact Ht|split_and!; [apply Hl..|exact Es|exact Ef|by exists lv]|exact Hr0]).
    destruct (leaf_to_internal_ok d _ (lens I) I T P C l lv (key lv s0) Hok ltac:(lia) He Hl ltac:(lia)) as (d1 & P1 & C1 & E1 & Hok1 & HT & [_ [Hb _] [Hf _] _] & Hr1 & _ & Hm).
    { destruct (en_leaf _ _ _ _ _ Hx Hl) as [_ Hu]; intros s Hs; fold x; rewrite Es, Ef; unfold cut; rewrite !HF by lia; case_decide; [done|]; case_decide; [done|].
      unfold ends; destruct (I !! s) as [i|] eqn:Ei; [|done]; assert (s = start x); [|congruence]; apply (Hu s (i_end i)); split; [|done]; unfold cut; rewrite !decide_False by done; unfold ends; by rewrite Ei. }
    fold x in E1, Hf, Hb; set (r1 := (tables d + 1, NDX (start x) (lv + 1))) in *; set (T1 := <[tables d + 1 := (lv + 1, key lv s0)]> T) in *.
    assert (He1 : entry T1 r1.1 r1.2 (lv + 1) (key (lv + 1) s0)) by (exists (key lv s0); cbn; rewrite Es; split_and!; [apply lookup_insert_eq|apply NDX_range; lia..|apply key_sub; lia]).
    exists d1, T1, P1, C1, r1, (<[Z.to_nat (lv + 1) := NDX (start x) (lv + 1)]> ixs), (lv + 1); split; [eapply bind_run; [exact E1|done]|]; split; [done|]; split; [by apply insert_subseteq|]; split.
    { unfold form in Hf; injection Hf as F1 F2 F3 F4; apply bool_decide_eq_true_1 in F3; split; [rewrite F2; apply Hl|done]. }
    destruct (form_eq _ _ (proj1 (bare_fields _ _ Hb))) as (G1 & _ & _ & _ & G2 & G3); fold r1 in G1, G2, G3; split; [split_and!; [apply G2, Hl..|by rewrite G1|by rewrite G3|by exists (lv + 1)]|].
    split; [done|]; split; [rewrite Es; apply way_next; [lia|]; destruct (entry_fun _ _ _ _ _ _ _ He ltac:(rewrite <- El in Hlf; exact Hlf)) as [-> _]; done|]; split; [lia|by apply ends_book].
Qed.

Lemma split_run n : forall lv d T P C t sp r0 ixs lf, Z.of_nat n + lv = 3 -> 0 <= lv -> ok d (cutI (below lv) (below lv)) (lens I) I T P C ->
  entry T t (NDX s0 lv) lv (key lv s0) -> entry T t (NDX page lv) lv (key lv page) -> leaf_at (heap d) T s0 e0 r0 -> entry T r0.1 r0.2 lf (key lf s0) -> way s0 lf ixs -> 2 - lv <= room d ->
  exists d' T' P' C' r1 ixs1 sp' out, split_index n page t lv false (r0, ixs) sp d = Some (((r1, ixs1), sp', Some out), d') /\ split_done d (2 - lv) r1 sp' out d' T' P' C'.
Proof.
  induction n as [|n IH]; intros lv d T P C t sp r0 ixs lf Hn Hlv Hok He Hep Hr0 Hlf Hw Hroom; [destruct (entry_level _ _ _ _ _ _ _ (ok_tree _ _ _ _ _ _ _ Hok) He); lia|].
  destruct (decide (key lv page = key lv s0)) as [Ek|Hk].
  2: { destruct (branch_run n lv d T P C t sp r0 ixs lf) as (d' & T' & P' & C' & sp' & out & E & H); try done; [lia|]; by exists d', T', P', C', r0, ixs, sp', out. }
  pose proof (ok_tree _ _ _ _ _ _ _ Hok) as Ht; destruct (entry_level _ _ _ _ _ _ _ Ht He) as [Hlv2 _]; assert (Hlt : lv < 2) by (destruct (decide (lv = 2)) as [->|]; [rewrite !key_last in Ek|]; lia).
  assert (HF : forall l', lv <= l' -> below lv l' = false) by (intros; apply Z.ltb_ge; lia); set (l := (t, NDX s0 lv)); set (x := at_ (heap d) l).
  pose proof (tr_entry _ _ _ Ht _ _ _ _ He) as Hx; fold l x in Hx; assert (Hlvf : lv <= lf).
  { destruct (decide (lv <= lf)); [done|]; destruct (entry_level _ _ _ _ _ _ _ Ht Hlf) as [? _]; destruct (ancestors _ _ _ _ _ _ lf _ Ht He) as (t1 & i1 & He1 & [_ Hn1]); [lia|].
    destruct Hr0 as ([_ Hr0] & _); destruct Hr0; by rewrite (surjective_pairing r0), (entry_inj _ _ _ _ _ _ _ _ _ Ht Hlf He1). }
  assert (Hin : d_length x <> 0 /\ start x <= s0).
  { assert (H0 : cutI (below lv) (below lv) lv s0 = Some e0) by (unfold cut; by rewrite decide_True, HF by lia).
    destruct (counted_entry _ _ _ _ _ _ Hx H0) as [Hnode|(Hl & -> & _)]; [split; [apply Hnode|]|split; [apply Hl|lia]]; destruct (en_node _ _ _ _ _ Hx Hnode) as (_ & _ & [_ _ B3]); by destruct (B3 s0 e0 (conj H0 eq_refl)). }
  destruct (cut_lengths I s0 page e0 i0 Hti E0 Ee Hpage T _ _ lv x Hx (HF lv ltac:(lia)) (proj1 Hin) (proj2 Hin)) as (N1 & N2 & N3 & N4 & _).
  destruct (deeper d T P C t r0 ixs lf lv ltac:(lia) Hok He Hr0 Hlf Hw ltac:(lia)) as (d1 & T1 & P1 & C1 & r1 & ixs1 & lf1 & E1 & Hok1 & HT1 & Hn1 & Hr1 & Hlf1 & Hw1 & Hroom1 & Hm1); fold l x in E1, Hn1.
  pose proof (ok_tree _ _ _ _ _ _ _ Hok1) as Ht1; pose proof (entry_mono _ _ _ _ _ _ HT1 He) as He1; pose proof (tr_entry _ _ _ Ht1 _ _ _ _ He1) as Hx1.
  destruct (en_node _ _ _ _ _ Hx1 Hn1) as (_ & (t1 & Esub & _) & _); destruct (sub_entry_at _ _ _ _ s0 _ _ Ht1 Hx1 Hlv Hn1 Esub) as [He2 _].
  destruct (sub_entry_at _ _ _ t1 page lv _ Ht1 ltac:(rewrite Ek; exact Hx1) Hlv Hn1 Esub) as [Hep2 _].
  assert (Hok2 : ok d1 (cutI (below (lv + 1)) (below (lv + 1))) (lens I) I T1 P1 C1).
  { apply (ok_ct _ (cutI (at_level lv (below lv)) (at_level lv (below lv)))); [intros l' s; unfold cut; by rewrite !at_below|]; eapply ok_retree; [exact Hok1|].
    eapply (both_set I s0 page e0 Hti Hi0 Hpage); try done; apply HF; lia. }
  destruct (IH (lv + 1) d1 T1 P1 C1 t1 sp r1 ixs1 lf1) as (d' & T' & P' & C' & r2 & ixs2 & sp' & out & E2 & H1 & H2 & H3 & H4 & H5); try done; [lia|lia|lia|].
  exists d', T', P', C', r2, ixs2, sp', out; split.
  - cbn [split_index]; eapply bind_run; [apply lift_run, Hw; lia|]; eapply bind_run; [done|]; cbn beta zeta; fold l x; rewrite N1, N2.
    do 2 (eapply bind_run; [apply assert_run; rewrite (proj2 (Z.eqb_neq _ _)) by lia; done|]); rewrite !NDX_key, Ek, Z.eqb_refl by lia; cbn [orb negb fst snd]; rewrite <- NDX_key by lia.
    eapply bind_run; [exact E1|]; eapply bind_run; [done|]; cbn beta; eapply bind_run; [apply lift_run; exact Esub|exact E2].
  - split; [done|]; split; [done|]; split; [done|]; split; [lia|]; intros m; by rewrite H5.
Qed.

End Range.

(** ** The whole directory *)

(** The directory is in order, and its ranges are those of [I]. *)
Definition good d (I : gmap Z (@info R)) T P C : Prop := ok d (ends I) (lens I) I T P C /\ tiled I.

(** Where a range is found, and the way to it. *)
Definition found d T (s e : Z) (ix : dref * list Z) : Prop := leaf_at (heap d) T s e ix.1 /\ exists lf, entry T ix.1.1 ix.1.2 lf (key lf s) /\ way s lf ix.2.

Lemma range_split_ok d I T P C s0 page i0 sp ix : good d I T P C -> I !! s0 = Some i0 -> s0 < page < i_end i0 -> (i_type i0 = open_node -> page * 4096 + 16 <= VIRT_END) ->
  found d T s0 (i_end i0) ix -> 2 <= room d ->
  exists d' T' P' C' ix' sp' out, split_index 3 page root 0 false ix sp d = Some ((ix', sp', Some out), d') /\ good d' (cut_info I s0 page (sp_res sp')) T' P' C' /\
    leaf_at (heap d') T' s0 page ix'.1 /\ leaf_at (heap d') T' page (i_end i0) out /\ room d - 2 <= room d' /\ book_only (mops d) (mops d').
Proof.
  intros [Hok Hti] E0 Hp Hv (Hr & lf & Hlf & Hw) Hroom; destruct ix as [r0 ixs]; cbn [fst snd] in *; destruct (ti_range _ Hti _ _ E0) as [Hs He].
  pose proof (ok_tree _ _ _ _ _ _ _ Hok) as Ht; destruct (split_run I s0 page (i_end i0) i0 Hti E0 eq_refl Hp Hv 3 0 d T P C root sp r0 ixs lf) as (d' & T' & P' & C' & r1 & ixs1 & sp' & out & E & H1 & H2 & H3 & H4 & H5); try done; [|eapply root_entry; [done|lia]..|].
  - eapply ok_retree; [exact Hok|]; eapply tree_ct; [|intros *; eapply cut_bound; [done|by exists i0|done]|exact Ht]; intros t i l k s Hl _; destruct (entry_level _ _ _ _ _ _ _ Ht Hl) as [Hl0 _].
    rewrite <- (cut_none I s0 page (i_end i0) Hti ltac:(by exists i0) Hp); unfold cut, below; by rewrite (proj2 (Z.ltb_ge _ _)) by lia.
  - exists d', T', P', C', (r1, ixs1), sp', out; split; [done|]; split; [split; [done|by eapply cut_tiled]|]; done.
Qed.

(** What [size_node] makes of the ranges. *)
Definition size_info (I : gmap Z (@info R)) (s page n : Z) (res1 res2 : option R) : gmap Z info :=
  let I1 := if s <? page then cut_info I s page res1 else I in
  match I1 !! page with
  | Some i => if page + n <? i_end i then cut_info I1 page (page + n) res2 else I1
  | None => I1
  end.

Lemma path_found d T s e r : leaf_at (heap d) T s e r -> (exists lf, entry T r.1 r.2 lf (key lf s) /\ lf <= 2) -> found d T s e (r, path_of s).
Proof. intros Hr (lf & Hlf & Hl); split; [done|]; exists lf; split; [done|]; eapply way_le; [exact Hl|apply way_path]. Qed.

Lemma leaf_found d I T P C s e r : good d I T P C -> leaf_at (heap d) T s e r -> found d T s e (r, path_of s).
Proof.
  intros [Hok _] Hr; apply path_found; [done|]; destruct Hr as (_ & _ & _ & lf & Hlf); exists lf; split; [done|]; destruct (entry_level _ _ _ _ _ _ _ (ok_tree _ _ _ _ _ _ _ Hok) Hlf) as [? _]; lia.
Qed.

Lemma size_run d I T P C s i page n ix : good d I T P C -> I !! s = Some i -> s <= page -> 0 < n -> page + n <= i_end i -> (i_type i = open_node -> (page + n) * 4096 + 16 <= VIRT_END) ->
  found d T s (i_end i) ix -> 4 <= room d ->
  exists d' T' P' C' ix' res1 res2, size_node page n ix d = Some (ix', d') /\ good d' (size_info I s page n res1 res2) T' P' C' /\ leaf_at (heap d') T' page (page + n) ix'.1 /\
    room d - 4 <= room d' /\ book_only (mops d) (mops d').
Proof.
  intros Hg E Hsp Hn He Hv Hf Hroom; destruct (ti_range _ (proj2 Hg) _ _ E) as [Hs Hmax]; set (sp := mk_split None free_node None : @split_res R).
  assert (H1 : exists d1 I1 T1 P1 C1 ix1 sp1 res1 i1, (if start (at_ (heap d) ix.1) <? page then '(_, sp, out) ← split_index 3 page root 0 false ix sp; out ← lift out; mret ((out, path_of page), sp) else mret (ix, sp)) d = Some ((ix1, sp1), d1) /\
    good d1 I1 T1 P1 C1 /\ I1 = (if s <? page then cut_info I s page res1 else I) /\ I1 !! page = Some i1 /\ i_end i1 = i_end i /\ i_type i1 = i_type i /\ found d1 T1 page (i_end i) ix1 /\ room d - 2 <= room d1 /\ book_only (mops d) (mops d1)).
  { pose proof Hf as ((_ & -> & _) & _); destruct (s <? page) eqn:Es; zbool.
    - destruct (range_split_ok d I T P C s page i sp ix Hg E) as (d' & T' & P' & C' & ix' & sp' & out & E1 & G1 & G2 & G3 & G4 & G5); [lia|intros Ho; specialize (Hv Ho); lia|done|lia|].
      exists d', (cut_info I s page (sp_res sp')), T', P', C', (out, path_of page), sp', (sp_res sp'), (mk_info (i_end i) (i_type i) (sp_res sp') 0 s (i_own i)).
      split; [eapply bind_run; [exact E1|]; eapply bind_run; [by apply lift_run|done]|]; split; [done|]; split; [done|]; split; [rewrite (cut_lookup I s page (i_end i) i E eq_refl) by lia; by rewrite decide_True|]; split; [done|]; split; [done|]; split; [by eapply leaf_found|done].
    - assert (page = s) as -> by lia; exists d, I, T, P, C, ix, sp, None, i; split; [done|]; split; [done|]; split; [done|]; split; [done|]; split; [done|]; split; [done|]; split; [done|]; split; [lia|done]. }
  destruct H1 as (d1 & I1 & T1 & P1 & C1 & ix1 & sp1 & res1 & i1 & E1 & Hg1 & EI & Ei1 & Eend & Ety & Hf1 & Hroom1 & Hm1).
  assert (Hlen : d_length (at_ (heap d1) ix1.1) = i_end i - page) by (destruct Hf1 as ((_ & F1 & F2 & _) & _); unfold fin in F2; lia).
  unfold size_node; fold sp; destruct (page + n <? i_end i) eqn:En; zbool.
  - destruct (range_split_ok d1 I1 T1 P1 C1 page (page + n) i1 sp1 ix1 Hg1 Ei1) as (d' & T' & P' & C' & ix' & sp' & out & E2 & G1 & G2 & G3 & G4 & G5); [lia|by rewrite Ety|by rewrite Eend|lia|].
    exists d', T', P', C', ix', res1, (sp_res sp'); split; [|split; [unfold size_info; rewrite <- EI, Ei1, Eend, (proj2 (Z.ltb_lt _ _)) by lia; done|split; [done|split; [lia|intros m; by rewrite G5]]]].
    eapply bind_run; [done|]; eapply bind_run; [exact E1|]; cbn beta iota; eapply bind_run; [done|]; cbn beta; rewrite Hlen, (proj2 (Z.ltb_lt _ _)) by lia.
    rewrite wrap_small by (unfold in_range; lia); eapply bind_run; [exact E2|done].
  - exists d1, T1, P1, C1, ix1, res1, None; split; [|split; [unfold size_info; rewrite <- EI, Ei1, Eend, (proj2 (Z.ltb_ge _ _)) by lia; done|split; [|split; [lia|done]]]].
    + eapply bind_run; [done|]; eapply bind_run; [exact E1|]; cbn beta iota; eapply bind_run; [done|]; cbn beta; rewrite Hlen, (proj2 (Z.ltb_ge _ _)) by lia; done.
    + destruct Hf1 as (F & _); by replace (page + n) with (i_end i) by lia.
Qed.

(** ** What a page is *)

(** The type and the owners of the range a page is in. *)
Definition status_of (i : @info R) : allocation_type_t * list (option (Z * Z)) := (i_type i, i_own i).
Definition page_is (I : gmap Z (@info R)) (p : Z) (v : allocation_type_t * list (option (Z * Z))) : Prop := exists s i, I !! s = Some i /\ s <= p < i_end i /\ v = status_of i.

Lemma tiled_one (I : gmap Z (@info R)) p s i s' i' : tiled I -> I !! s = Some i -> I !! s' = Some i' -> s <= p < i_end i -> s' <= p < i_end i' -> s = s'.
Proof.
  intros Hti E E' H H'; destruct (Z.lt_trichotomy s s') as [Hlt|[?|Hlt]]; [pose proof (ti_apart _ Hti _ _ _ _ E E' Hlt); lia|done|pose proof (ti_apart _ Hti _ _ _ _ E' E Hlt); lia].
Qed.

Lemma page_is_fun I p v v' : tiled I -> page_is I p v -> page_is I p v' -> v = v'.
Proof. intros Hti (s & i & E & H & ->) (s' & i' & E' & H' & ->); assert (s = s') as <- by (by eapply (tiled_one I p)); congruence. Qed.

(** A cut changes nothing for any page. *)
Lemma cut_pages I s0 page i0 res p v : tiled I -> I !! s0 = Some i0 -> s0 < page < i_end i0 -> page_is (cut_info I s0 page res) p v <-> page_is I p v.
Proof.
  intros Hti E0 Hp; split.
  - intros (s & i & E & H & ->); rewrite (cut_lookup I s0 page (i_end i0) i0 E0 eq_refl Hp) in E.
    destruct (decide (s = page)) as [->|]; [injection E as <-; exists s0, i0; cbn in H; split_and!; [done|lia|lia|done]|]; destruct (decide (s = s0)) as [->|]; [injection E as <-; exists s0, i0; cbn in H; split_and!; [done|lia|lia|done]|].
    destruct (decide (s = i_end i0)); [destruct (I !! s) as [i1|] eqn:E1; [|done]; injection E as <-|]; by eexists _, _.
  - intros (s & i & E & H & ->); pose proof (fun t => cut_lookup I s0 page (i_end i0) i0 E0 eq_refl Hp res t) as Hl; destruct (decide (s = s0)) as [->|Hs].
    + assert (i = i0) as -> by congruence; destruct (decide (p < page)); [exists s0, (set_end page i0); rewrite Hl, decide_False, decide_True by lia; split_and!; [done|lia|done|done]|].
      eexists page, _; rewrite Hl, decide_True by done; split_and!; [done|lia|cbn; lia|done].
    + assert (Hsp : s <> page) by (intros ->; by rewrite (page_new I s0 page (i_end i0) Hti ltac:(by exists i0) Hp) in E).
      destruct (decide (s = i_end i0)) as [Es|]; [exists s, (set_iprev page i)|exists s, i]; rewrite Hl, !(decide_False (P := s = page)), !(decide_False (P := s = s0)) by done; [rewrite decide_True, E by done|rewrite decide_False by done]; done.
Qed.

(** Another status for a range. *)
Lemma set_pages I s i i' p v : tiled I -> I !! s = Some i -> i_end i' = i_end i -> page_is (<[s := i']> I) p v <-> if decide (s <= p < i_end i) then v = status_of i' else page_is I p v.
Proof.
  intros Hti E Ee; case_decide as Hp; split.
  - intros (t & j & Ej & Hj & ->); destruct (decide (t = s)) as [->|Ht]; [rewrite lookup_insert_eq in Ej; by injection Ej as <-|rewrite lookup_insert_ne in Ej by done; by destruct Ht; eapply (tiled_one I p)].
  - intros ->; exists s, i'; rewrite lookup_insert_eq; split_and!; [done|lia|lia|done].
  - intros (t & j & Ej & Hj & ->); destruct (decide (t = s)) as [->|Ht]; [rewrite lookup_insert_eq in Ej; injection Ej as <-; lia|rewrite lookup_insert_ne in Ej by done; by exists t, j].
  - intros (t & j & Ej & Hj & ->); destruct (decide (t = s)) as [->|Ht]; [rewrite E in Ej; injection Ej as <-; lia|exists t, j; by rewrite lookup_insert_ne].
Qed.

(** The ranges of [I] start ranges of [J] too. *)
Definition starts (I J : gmap Z (@info R)) : Prop := forall s, is_Some (I !! s) -> is_Some (J !! s).

Lemma starts_refl I : starts I I.
Proof. by intros s. Qed.

Lemma starts_trans I J K : starts I J -> starts J K -> starts I K.
Proof. intros H1 H2 s Hs; by apply H2, H1. Qed.

Lemma starts_insert I s i : starts I (<[s := i]> I).
Proof. intros t Ht; apply lookup_insert_is_Some'; by right. Qed.

Lemma cut_starts I s0 page i0 res : I !! s0 = Some i0 -> s0 < page < i_end i0 -> starts I (cut_info I s0 page res).
Proof. intros E Hp s Hs; rewrite (cut_lookup I s0 page (i_end i0) i0 E eq_refl) by done; repeat case_decide; [by eexists|by eexists|by apply fmap_is_Some|done]. Qed.

(** A cut makes one range, and [size_node] at most two. *)
Lemma cut_new I s0 page i0 res t : I !! s0 = Some i0 -> s0 < page < i_end i0 -> is_Some (cut_info I s0 page res !! t) -> is_Some (I !! t) \/ t = page.
Proof.
  intros E Hp; rewrite (cut_lookup I s0 page (i_end i0) i0 E eq_refl) by done; destruct (decide (t = page)); [by right|]; left.
  destruct (decide (t = s0)) as [->|]; [by rewrite E|]; case_decide; [by apply fmap_is_Some in H|done].
Qed.

Lemma size_new I s i page n res1 res2 t : I !! s = Some i -> s <= page -> 0 < n -> page + n <= i_end i -> is_Some (size_info I s page n res1 res2 !! t) ->
  is_Some (I !! t) \/ t = page /\ s < page \/ t = page + n /\ page + n < i_end i.
Proof.
  intros E Hs Hn He; unfold size_info; set (I1 := if s <? page then _ else I).
  assert (Hn1 : forall u, is_Some (I1 !! u) -> is_Some (I !! u) \/ u = page /\ s < page).
  { unfold I1; intros u; destruct (s <? page) eqn:Esp; zbool; [|by left]; intros Hu; destruct (cut_new I s page i res1 u E ltac:(lia) Hu); auto. }
  assert (Hi1 : forall i1, I1 !! page = Some i1 -> i_end i1 = i_end i).
  { unfold I1; intros i1; destruct (s <? page) eqn:Esp; zbool; [|assert (page = s) as -> by lia; rewrite E; congruence].
    rewrite (cut_lookup I s page (i_end i) i E eq_refl), decide_True by (done || lia); by intros [= <-]. }
  destruct (I1 !! page) as [i1|] eqn:E1; [|intros Ht; destruct (Hn1 t Ht); auto]; rewrite (Hi1 i1) by done.
  destruct (page + n <? i_end i) eqn:En; zbool; [|intros Ht; destruct (Hn1 t Ht); auto].
  intros Ht; destruct (cut_new I1 page (page + n) i1 res2 t E1 ltac:(rewrite (Hi1 i1) by done; lia) Ht) as [Hu| ->]; [destruct (Hn1 t Hu); auto|auto].
Qed.

Lemma size_pages I s i page n res1 res2 : tiled I -> I !! s = Some i -> s <= page -> 0 < n -> page + n <= i_end i -> let J := size_info I s page n res1 res2 in
  tiled J /\ starts I J /\ (exists j, J !! page = Some j /\ i_end j = page + n /\ status_of j = status_of i) /\
  (page + n < i_end i -> exists j, J !! (page + n) = Some j /\ i_end j = i_end i /\ status_of j = status_of i) /\ forall p v, page_is J p v <-> page_is I p v.
Proof.
  intros Hti E Hs Hn He; cbv zeta; assert (H1 : exists I1 i1, I1 = (if s <? page then cut_info I s page res1 else I) /\ tiled I1 /\ starts I I1 /\ I1 !! page = Some i1 /\ i_end i1 = i_end i /\ status_of i1 = status_of i /\ forall p v, page_is I1 p v <-> page_is I p v).
  { destruct (s <? page) eqn:Esp; zbool; [|assert (page = s) as -> by lia; exists I, i; split_and!; (done || apply starts_refl)]; eexists _, _; split; [done|]; split; [by apply (cut_tiled I s page (i_end i) i); [..|lia]|]; split; [eapply cut_starts; [done|lia]|].
    split; [rewrite (cut_lookup I s page (i_end i) i E eq_refl) by lia; by rewrite decide_True|]; split; [done|]; split; [done|]; intros p v; apply cut_pages with i; [done..|lia]. }
  destruct H1 as (I1 & i1 & EI & Ht1 & Hs1 & E1 & Ee1 & Est1 & Hp1); unfold size_info; rewrite <- EI, E1, Ee1; destruct (page + n <? i_end i) eqn:En; zbool.
  - pose proof (cut_lookup I1 page (page + n) (i_end i1) i1 E1 eq_refl ltac:(lia)) as Hl; split; [by apply (cut_tiled I1 page (page + n) (i_end i1) i1); [..|lia]|split; [|split; [|split]]].
    + eapply starts_trans; [exact Hs1|]; eapply cut_starts; [done|lia].
    + exists (set_end (page + n) i1); rewrite Hl, decide_False, decide_True by lia; split_and!; done.
    + intros _; eexists; rewrite Hl, decide_True by done; split; [done|split; [exact Ee1|exact Est1]].
    + intros p v; rewrite (cut_pages I1 page (page + n) i1) by (done || lia); apply Hp1.
  - split; [done|split; [done|split; [|split; [lia|done]]]]; exists i1; split_and!; [done|lia|done].
Qed.

End Cut.
