(* ===== verification/MmapTake.v ===== *)
(** * A range leaves the pools

    Requests take a range off its pool, mend where its neighbours are listed
    ([adjust_desc_pool]) and make the range a claim of its new owner. *)

From S2P Require Import Prelude Pmem PageTable Vmem Mmap MmapList MmapClaims MmapTree MmapInv MmapSplit MmapPush MmapCut.

(** [q] is on some pool. *)
Definition listed (P : list (list dref)) (q : dref) : Prop := exists j l, P !! j = Some l /\ q ∈ l.

#[export] Instance listed_dec P q : Decision (listed P q).
Proof.
  refine (cast_if (decide (Exists (fun l => q ∈ l) P))).
  - abstract (match goal with H : Exists _ _ |- _ => apply Exists_exists in H as (l & (j & Hj)%list_elem_of_lookup_1 & Hq) end; by exists j, l).
  - abstract (intros (j & l & Hj & Hq); match goal with H : ~ Exists _ _ |- _ => apply H, Exists_exists end; exists l; split; [by eapply list_elem_of_lookup_2|done]).
Defined.

Lemma listed_set P j l l' q : P !! j = Some l -> listed (<[j := l']> P) q <-> q ∈ l' \/ exists j' m, j' <> j /\ P !! j' = Some m /\ q ∈ m.
Proof.
  intros Hj; assert (Hlt : (j < List.length P)%nat) by (by eapply lookup_lt_Some); split.
  - intros (j' & m & E & Hq); destruct (decide (j' = j)) as [->|]; [rewrite list_lookup_insert_eq in E by done; simplify_eq; by left|rewrite list_lookup_insert_ne in E by done; right; by exists j', m].
  - intros [Hq|(j' & m & Hne & E & Hq)]; [exists j, l'; by rewrite list_lookup_insert_eq|exists j', m; by rewrite list_lookup_insert_ne].
Qed.

(** ** The slot of a claim *)

Lemma last_slot_snoc {A} (p : A -> bool) l c : last_slot p (l ++ [c]) = if p c then Some (Z.of_nat (List.length l)) else last_slot p l.
Proof.
  unfold last_slot; rewrite imap_app, fold_left_app; cbn; replace (List.length l + 0)%nat with (List.length l) by lia; by destruct (p c).
Qed.

Lemma last_slot_some {A} (p : A -> bool) l i : last_slot p l = Some i -> exists c, zget l i = Some c /\ p c = true.
Proof.
  induction l as [|c l IH] using rev_ind; [done|]; rewrite last_slot_snoc; destruct (p c) eqn:E.
  - intros [= <-]; exists c; split; [|done]; unfold zget; rewrite (proj2 (Z.leb_le _ _)), Nat2Z.id by lia; by rewrite lookup_app_r, Nat.sub_diag by lia.
  - intros (c' & E1 & E2)%IH; exists c'; split; [|done]; unfold zget in *; destruct (0 <=? i); [|done]; rewrite lookup_app_l; [done|by eapply lookup_lt_Some].
Qed.

Lemma last_slot_none {A} (p : A -> bool) l c : last_slot p l = None -> c ∈ l -> p c = false.
Proof.
  induction l as [|a l IH] using rev_ind; [by intros _ ?%elem_of_nil|]; rewrite last_slot_snoc; destruct (p a) eqn:E; [done|].
  intros Hl [Hc| ->%list_elem_of_singleton]%elem_of_app; auto.
Qed.

Lemma last_slot_map {A B} (p : A -> bool) (q : B -> bool) (f : A -> B) l : (forall c, c ∈ l -> p c = q (f c)) -> last_slot p l = last_slot q (map f l).
Proof.
  induction l as [|c l IH] using rev_ind; intros H; [done|]; rewrite map_app; cbn [map]; rewrite !last_slot_snoc, length_map, H, IH by set_solver; done.
Qed.

(** The same for the owners of a range, and what a claim makes of them. *)
Definition own_slot (l : list (option (Z * Z))) (m : Z) : option Z :=
  match last_slot (fun x => match x with Some (k, _) => bool_decide (k = m) | None => false end) l with
  | Some i => Some i
  | None => last_slot (fun x => bool_decide (x = None)) l
  end.
Definition claim_own (l : list (option (Z * Z))) (m times : Z) : list (option (Z * Z)) :=
  match own_slot l m with
  | Some i => <[Z.to_nat i := Some (m, match zget l i with Some (Some (_, n)) => u64 (n + times) | _ => times end)]> l
  | None => l
  end.

(** The count of the claims with one more. *)
Lemma cnt_join X Y i : 0 <= i < 4 -> (forall j, 0 <= j < 4 -> j <> i -> owner (Y j) = owner (X j)) -> own1 (X i) = 0 -> own1 (Y i) = 1 -> cnt Y 4 = cnt X 4 + 1 /\ cnt X 4 <= 3.
Proof.
  intros Hi Hs Hx Hy; assert (Ho : forall j, 0 <= j < 4 -> j <> i -> own1 (Y j) = own1 (X j)) by (intros j Hj Hne; unfold own1; by rewrite Hs).
  assert (Hr : forall j, own1 (X j) <= 1) by (intros j; unfold own1; destruct (owner _); lia); cbn [cnt]; change (Z.of_nat 0) with 0; change (Z.of_nat 1) with 1; change (Z.of_nat 2) with 2; change (Z.of_nat 3) with 3.
  pose proof (Hr 0); pose proof (Hr 1); pose proof (Hr 2); pose proof (Hr 3).
  assert (i = 0 \/ i = 1 \/ i = 2 \/ i = 3) as [->|[->|[->| ->]]] by lia.
  - rewrite (Ho 1), (Ho 2), (Ho 3) by lia; lia.
  - rewrite (Ho 0), (Ho 2), (Ho 3) by lia; lia.
  - rewrite (Ho 0), (Ho 1), (Ho 3) by lia; lia.
  - rewrite (Ho 0), (Ho 1), (Ho 2) by lia; lia.
Qed.

Section Take.

Context {W R : Type} `{!Nano W R} `{!NanoLaws W R}.

Abbreviation desc := (vpage_range_desc_t R).

Implicit Types (h : gmap (Z * Z) desc) (d : dir W R) (T : gmap Z (Z * Z)) (x : desc) (P : list (list dref)) (C : gmap Z (list claimer_link_t)) (I : gmap Z (@info R)).

(** Without [r], the pools are as before. *)
Lemma removed_listed h hs P j l1 r l2 q : pools h hs P -> P !! j = Some (l1 ++ r :: l2) -> listed (<[j := l1 ++ l2]> P) q <-> listed P q /\ q <> r.
Proof.
  intros Hp Hj; rewrite (listed_set P j _ _ q Hj); pose proof (pl_nodup _ _ _ Hp _ _ Hj) as (_ & Hb & [Hc _]%NoDup_cons)%NoDup_app; split.
  - intros [Hq|(j' & m & Hne & E & Hq)].
    + split; [exists j, (l1 ++ r :: l2); split; [done|set_solver]|intros ->; set_solver].
    + split; [by exists j', m|]; intros ->; apply Hne; eapply (pools_unique _ _ P j j' _ _ r); try done; set_solver.
  - intros [(j' & m & E & Hq) Hne]; destruct (decide (j' = j)) as [->|]; [rewrite Hj in E; injection E as <-; left; set_solver|right; by exists j', m].
Qed.

Lemma adjust_run d P q : four (heap d) -> pools (heap d) (pool_heads d) P -> (forall q', q = Some q' -> listed P q' /\ allocation_type (at_ (heap d) q') = open_node) ->
  exists h' P', adjust_desc_pool q d = Some (tt, set_pools (map head P') (set_heap h' d)) /\ pools h' (map head P') P' /\ only (fun q i => i = 0 /\ listed P q) (heap d) h' /\
    forall q, listed P' q <-> listed P q.
Proof.
  intros H4 Hp Hq; destruct q as [q|]; [|exists (heap d), P; rewrite <- (pl_heads _ _ _ Hp); split_and!; try done; [by destruct d|by apply only_refl]].
  destruct (Hq q eq_refl) as [(j & l & Hj & Hin) Ht]; destruct (pl_node _ _ _ Hp j l q Hj Hin) as [Hid Hk]; assert (Hlt : (j < 3)%nat) by (rewrite <- (pl_three _ _ _ Hp); by eapply lookup_lt_Some).
  assert (Hsame : exists h' P', Some (tt, d) = Some (tt, set_pools (map head P') (set_heap h' d)) /\ pools h' (map head P') P' /\ only (fun q i => i = 0 /\ listed P q) (heap d) h' /\ forall q, listed P' q <-> listed P q).
  { exists (heap d), P; rewrite <- (pl_heads _ _ _ Hp); split_and!; try done; [by destruct d|by apply only_refl]. }
  assert (Hrun : forall z, (if (u64 (Z.of_nat j + 1 - 1) =? PAGE_POOL_FREE_LARGE) && (d_length (at_ (heap d) q) <? LARGE_PAGES) then _ ← remove_from_pool q; add_to_pool q PAGE_POOL_FREE_SMALL else mret tt) d = z -> adjust_desc_pool (Some q) d = z).
  { intros z Hz; unfold adjust_desc_pool; eapply bind_run; [done|]; eapply bind_run; [apply assert_run; unfold is_type; by rewrite Ht|]; eapply bind_run; [by apply pool_id_run|]; exact Hz. }
  rewrite (wrap_small 64 (Z.of_nat j + 1 - 1)) in Hrun by (unfold in_range; lia); destruct (Z.of_nat j + 1 - 1 =? PAGE_POOL_FREE_LARGE) eqn:Ej; cbn [andb] in Hrun; [|rewrite (Hrun _ eq_refl); exact Hsame].
  destruct (d_length (at_ (heap d) q) <? LARGE_PAGES); [|rewrite (Hrun _ eq_refl); exact Hsame]; unfold PAGE_POOL_FREE_LARGE in Ej; zbool; assert (j = 1%nat) as -> by lia.
  apply list_elem_of_split in Hin as (l1 & l2 & ->); destruct (remove_run d P 1 l1 q l2 H4 Hp Hj) as (h1 & E1 & Hp1 & Ho1 & _); set (P1 := <[1%nat := l1 ++ l2]> P) in *.
  destruct (lookup_lt_is_Some_2 P 0) as [l0 H0]; [rewrite (pl_three _ _ _ Hp); lia|]; assert (H01 : P1 !! 0%nat = Some l0) by (unfold P1; by rewrite list_lookup_insert_ne).
  assert (Hl1 : forall q', listed P1 q' <-> listed P q' /\ q' <> q) by (intros; by eapply removed_listed).
  destruct (add_pool_run (set_pools (map head P1) (set_heap h1 d)) P1 0 l0 q) as (h2 & E2 & Hp2 & Ho2); try done; [apply Ho1| |transitivity (allocation_type (at_ (heap d) q)); [apply bare_type, Ho1|done]|].
  { intros j' l' Hj' Hin; by destruct (Hl1 q) as [[_ ?] _]; [exists j', l'|]. }
  exists h2, (<[0%nat := q :: l0]> P1); split; [apply Hrun; eapply bind_run; [exact E1|]; exact E2|]; split; [done|]; split.
  - eapply only_trans; [eapply only_mono; [|exact Ho1]|eapply only_mono; [|exact Ho2]]; intros q' i [-> Hq']; (split; [done|]); [by exists 1%nat, (l1 ++ q :: l2)|].
    apply elem_of_cons in Hq' as [->|Hq']; [by apply Hq|by exists 0%nat, l0].
  - intros q'; rewrite (listed_set P1 0 l0 _ q' H01); split.
    + intros [[->|Hq']%elem_of_cons|(j' & m & _ & E & Hq')]; [by apply Hq|by exists 0%nat, l0|by apply Hl1; exists j', m].
    + intros Hq'; destruct (decide (q' = q)) as [->|Hne]; [left; left|]; destruct (Hl1 q') as [_ (j' & m & E & Hq2)]; [done|]; destruct (decide (j' = 0%nat)) as [->|]; [rewrite H01 in E; injection E as <-; left; by right|right; by exists j', m].
Qed.

(** ** A claim *)

(** Where a claim of [m] on [r] goes: its own slot, or one that is free. *)
Lemma claim_slot_at h r m i : four h -> claim_slot (tracking (at_ h r)) m = Some i ->
  0 <= i < 4 /\ (owner (slot h r i) = Mop m \/ owner (slot h r i) = Null /\ forall j, 0 <= j < 4 -> owner (slot h r j) <> Mop m).
Proof.
  intros H4; assert (Hget : forall i c, zget (tracking (at_ h r)) i = Some c -> 0 <= i < 4 /\ slot h r i = c).
  { intros k c E; assert (Hk : 0 <= k < 4) by (unfold zget in E; destruct (0 <=? k) eqn:E0; [|done]; apply lookup_lt_Some in E; rewrite H4 in E; zbool; lia); split; [done|]; unfold slot; by rewrite E. }
  unfold claim_slot; destruct (last_slot _ _) as [k|] eqn:E1.
  - intros [= <-]; apply last_slot_some in E1 as (c & [Hk <-]%Hget & Ho%bool_decide_eq_true_1); auto.
  - intros (c & [Hk <-]%Hget & Ho%bool_decide_eq_true_1)%last_slot_some; split; [done|]; right; split; [done|]; intros j Hj Hm.
    assert (Hin : slot h r j ∈ tracking (at_ h r)); [|pose proof (last_slot_none _ _ _ E1 Hin) as Hf; by apply bool_decide_eq_false_1 in Hf].
    pose proof (slot_get h r j H4 Hj) as Eg; unfold zget in Eg; destruct (0 <=? j); [by eapply list_elem_of_lookup_2|done].
Qed.

(** What a claim changes. *)
Definition claimed d C (r : dref) (m times i : Z) h' ms' C' : Prop := let h := heap d in
  four h' /\ claims (slot h') ms' C' /\ book_only (mops d) ms' /\ others r h h' /\ (forall q, q <> r -> bare (at_ h' q) = bare (at_ h q)) /\ set_used 0 (bare (at_ h' r)) = set_used 0 (bare (at_ h r)) /\
  (claims_used (at_ h r) = cnt (slot h r) 4 -> claims_used (at_ h' r) = cnt (slot h' r) 4) /\
  (forall j, 0 <= j < 4 -> j <> i -> owner (slot h' r j) = owner (slot h r j) /\ n_claims (slot h' r j) = n_claims (slot h r j)) /\
  owner (slot h' r i) = Mop m /\ n_claims (slot h' r i) = (if bool_decide (owner (slot h r i) = Mop m) then u64 (n_claims (slot h r i) + times) else times) /\
  forall len, len r = d_length (at_ h r) -> acc len (mops d) C -> acc len ms' C'.

Lemma find_run d r m i : allocation_type (at_ (heap d) r) = allocation_node -> claim_slot (tracking (at_ (heap d) r)) m = i -> find_free_claim_index r m d = Some (i, d).
Proof. intros Ht <-; unfold find_free_claim_index; eapply bind_run; [done|]; eapply bind_run; [apply assert_run; unfold is_type; by rewrite Ht|done]. Qed.

Lemma visit_claim_run d C r m times i : four (heap d) -> claims (slot (heap d)) (mops d) C -> is_Some (mops d !! m) -> allocation_type (at_ (heap d) r) = allocation_node ->
  claim_slot (tracking (at_ (heap d) r)) m = Some i -> exists h' ms' C', visit_claim r m times d = Some (r, set_mops ms' (set_heap h' d)) /\ claimed d C r m times i h' ms' C'.
Proof.
  intros H4 Hc [o Ho] Ht Hslot; set (h := heap d) in *; destruct (claim_slot_at h r m i H4 Hslot) as [Hi Hown]; pose proof (cm_mops _ _ _ Hc m) as Hm; rewrite Ho in Hm; destruct (C !! m) as [l|] eqn:El; [|done].
  destruct (decide (owner (slot h r i) = Mop m)) as [Hmine|Hnot].
  - set (h' := upd h r (on_slot i (fun c => set_n (u64 (n_claims c + times)) c))); assert (Hs : forall q j, 0 <= j < 4 -> slot h' q j = if decide (q = r /\ j = i) then set_n (u64 (n_claims (slot h r i) + times)) (slot h r i) else slot h q j) by (intros; by apply (slot_upd h r i (fun c => set_n (u64 (n_claims c + times)) c))).
    assert (Hcn : cnt (slot h' r) 4 = cnt (slot h r) 4) by (apply cnt_ext; intros j Hj; rewrite Hs by lia; case_decide as E; [destruct E as [_ ->]|]; done).
    exists h', (mops d), C; split.
    + unfold visit_claim; eapply bind_run; [by apply find_run|]; eapply bind_run; [by apply lift_run|]; eapply bind_run; [by apply claim_at_run|]; fold h; rewrite bool_decide_eq_true_2 by done.
      eapply bind_run; [by apply put_claim_run|]; by destruct d.
    + split; [by apply four_upd|]; split; [|split; [done|split; [|split; [intros; apply bare_upd|split; [by unfold h'; rewrite bare_upd|split; [|split; [|split; [|split]]]]]]]].
      * apply (claims_n (slot h)); [|done]; intros q j Hj; rewrite Hs by done; case_decide as E; [destruct E as [-> ->]|]; done.
      * intros q j Hj Hq; fold h; rewrite Hs by done; by rewrite decide_False by naive_solver.
      * intros E; transitivity (claims_used (bare (at_ h' r))); [done|]; unfold h' at 1; rewrite bare_upd, Hcn; exact E.
      * intros j Hj Hne; fold h; rewrite Hs by done; by rewrite decide_False by naive_solver.
      * rewrite Hs, decide_True by done; done.
      * fold h; rewrite Hs, decide_True by done; by rewrite bool_decide_eq_true_2.
      * done.
  - destruct Hown as [?|[Hnull Hno]]; [done|]; destruct (claim_node_run m r i times d C l o) as (h' & E & F4 & Fb & Fs & Fc); try done; fold h in Fb, Fs; set (o' := set_account _ _ _) in E, Fc.
    pose proof (joined_others _ _ _ _ _ _ _ _ _ Hc El Fs) as Hoth.
    assert (Hj : forall j, 0 <= j < 4 -> slot h' r j = if decide (j = i) then mk_claimer (Mop m) Null (of_link (last l)) times else slot h r j).
    { intros j Hj; rewrite Fs by done; unfold joined; destruct (decide (j = i)) as [->|]; [by rewrite decide_True|]; rewrite !decide_False; [done| |congruence].
      intros Ela%last_Some_elem_of; by destruct (Hno j Hj), (cm_node _ _ _ Hc m l _ El Ela). }
    destruct (cnt_join (slot h r) (slot h' r) i Hi) as [Hcn Hc3]; [intros j Hj' Hne; rewrite Hj by done; by rewrite decide_False|unfold own1; by rewrite Hnull|rewrite Hj by done; by rewrite decide_True|].
    exists h', (<[m := o']> (mops d)), (<[m := l ++ [(r, i)]]> C); split.
    + unfold visit_claim; eapply bind_run; [by apply find_run|]; eapply bind_run; [by apply lift_run|]; eapply bind_run; [by apply claim_at_run|]; fold h; rewrite bool_decide_eq_false_2 by done.
      eapply bind_run; [exact E|done].
    + split; [done|]; split; [done|]; split; [|split; [done|split; [intros q Hq; rewrite Fb; by rewrite decide_False|split; [by rewrite Fb, decide_True by done|split; [|split; [|split; [|split]]]]]]].
      * intros k; destruct (decide (k = m)) as [->|]; [rewrite lookup_insert_eq, Ho; done|by rewrite lookup_insert_ne].
      * intros Eu; transitivity (claims_used (bare (at_ h' r))); [done|]; rewrite Fb, decide_True by done; cbn [claims_used set_used]; fold h in Eu; rewrite Eu, Hcn; pose proof (cnt_range (slot h r) 4); apply wrap_small; unfold in_range; lia.
      * intros j Hj' Hne; fold h; rewrite Hj by done; by rewrite decide_False.
      * rewrite Hj, decide_True by done; done.
      * fold h; rewrite Hj, decide_True by done; by rewrite bool_decide_eq_false_2.
      * intros len Hlen Ha k ok lk; destruct (decide (k = m)) as [->|]; [|rewrite !lookup_insert_ne by done; apply Ha]; rewrite !lookup_insert_eq; intros [= <-] [= <-].
        destruct (Ha m o l Ho El) as [A1 A2]; unfold o'; cbn [allocated_ranges allocated_pages set_account]; rewrite A1, A2, length_app, total_app, !wrap_add_l by lia; split; f_equal; [cbn; lia|]; cbn [total foldr fst]; rewrite Hlen; fold h; lia.
Qed.

(** ** A claim on a directory in order *)

Definition set_iown (o : list (option (Z * Z))) (i : @info R) : @info R := mk_info (i_end i) (i_type i) (i_res i) (i_alloc i) (i_prev i) o.

Lemma tiled_set I s i i' : tiled I -> I !! s = Some i -> i_end i' = i_end i -> i_prev i' = i_prev i -> tiled (<[s := i']> I).
Proof.
  intros [H1 H2 H3 H4] Es Ee Ep.
  assert (Hget : forall t j, <[s := i']> I !! t = Some j -> exists j', I !! t = Some j' /\ i_end j = i_end j' /\ i_prev j = i_prev j').
  { intros t j; destruct (decide (t = s)) as [->|]; [rewrite lookup_insert_eq; intros [= <-]; by exists i|rewrite lookup_insert_ne by done; intros E; by exists j]. }
  assert (Hput : forall t j, I !! t = Some j -> exists j', <[s := i']> I !! t = Some j' /\ i_prev j' = i_prev j).
  { intros t j E; destruct (decide (t = s)) as [->|]; [rewrite lookup_insert_eq; exists i'; split; [done|congruence]|rewrite lookup_insert_ne by done; by exists j]. }
  split.
  - intros t j (j' & E & -> & _)%Hget; by apply H1.
  - destruct H2 as [j E]; destruct (Hput _ _ E) as (j' & -> & _); done.
  - intros t j (j' & E & -> & _)%Hget; destruct (H3 _ _ E) as [?|(k & Ek & Hk)]; [by left|right]; destruct (Hput _ _ Ek) as (k' & ? & ?); exists k'; split; [done|congruence].
  - intros t j t' j' (k & E & -> & _)%Hget (k' & E' & _)%Hget; by eapply H4.
Qed.

Lemma ends_set I s i i' l t : I !! s = Some i -> i_end i' = i_end i -> ends (<[s := i']> I) l t = ends I l t.
Proof. intros E Ee; unfold ends; destruct (decide (t = s)) as [->|]; [by rewrite lookup_insert_eq, E; cbn; rewrite Ee|by rewrite lookup_insert_ne]. Qed.

Lemma lens_set I s i i' t : I !! s = Some i -> i_end i' = i_end i -> lens (<[s := i']> I) t = lens I t.
Proof. intros E Ee; unfold lens; destruct (decide (t = s)) as [->|]; [by rewrite lookup_insert_eq, E, Ee|by rewrite lookup_insert_ne]. Qed.

(** The owners of a range, as its slots have them. *)
Lemma owns_map h r : four h -> owns h r = map own (tracking (at_ h r)).
Proof. intros H; rewrite (four_list _ (H r)) at 1; unfold owns; rewrite map_map; done. Qed.

Lemma claim_own_slot h r m : four h -> (forall i, 0 <= i < 4 -> owner (slot h r i) = Null /\ n_claims (slot h r i) = 0 \/ exists k, owner (slot h r i) = Mop k) ->
  claim_slot (tracking (at_ h r)) m = own_slot (owns h r) m.
Proof.
  intros H4 Hs; assert (Hc : forall c, c ∈ tracking (at_ h r) -> owner c = Null \/ exists k, owner c = Mop k).
  { intros c (j & Ej)%list_elem_of_lookup_1; pose proof (lookup_lt_Some _ _ _ Ej) as Hj; rewrite H4 in Hj; destruct (Hs (Z.of_nat j)) as [[E _]|[k E]]; [lia|left|right; exists k].
    all: unfold slot, zget in E; rewrite (proj2 (Z.leb_le _ _)), Nat2Z.id, Ej in E by lia; done. }
  rewrite owns_map by done; unfold claim_slot, own_slot; rewrite (last_slot_map _ (fun o => match o with Some (k, _) => bool_decide (k = m) | None => false end) own), (last_slot_map _ (fun o => bool_decide (o = None)) own); [done|..].
  - intros c Hin; unfold own; destruct (Hc c Hin) as [E|[k E]]; rewrite E; done.
  - intros c Hin; unfold own; destruct (Hc c Hin) as [E|[k E]]; rewrite E; [done|]; apply bool_decide_ext; naive_solver.
Qed.

Lemma owns_insert h h' r i o : 0 <= i < 4 -> (forall j, 0 <= j < 4 -> j <> i -> own (slot h' r j) = own (slot h r j)) -> own (slot h' r i) = o -> owns h' r = <[Z.to_nat i := o]> (owns h r).
Proof.
  intros Hi Hs <-; unfold owns; cbn [map]; assert (i = 0 \/ i = 1 \/ i = 2 \/ i = 3) as [->|[->|[->| ->]]] by lia.
  - by rewrite (Hs 1), (Hs 2), (Hs 3) by lia.
  - by rewrite (Hs 0), (Hs 2), (Hs 3) by lia.
  - by rewrite (Hs 0), (Hs 1), (Hs 3) by lia.
  - by rewrite (Hs 0), (Hs 1), (Hs 2) by lia.
Qed.

Lemma owns_get h r i : 0 <= i < 4 -> zget (owns h r) i = Some (own (slot h r i)).
Proof. intros Hi; assert (i = 0 \/ i = 1 \/ i = 2 \/ i = 3) as [->|[->|[->| ->]]] by lia; done. Qed.

(** The range of a descriptor that was found. *)
Lemma good_leaf d I T P C s i r : good d I T P C -> I !! s = Some i -> leaf_at (heap d) T s (i_end i) r -> is_leaf (heap d) T r /\ info_of (heap d) r = i /\ slots_ok (heap d) r /\ d_length (at_ (heap d) r) = lens I s.
Proof.
  intros [Hok _] E (Hl & Es & Ef & lf & He); assert (Hr : is_leaf (heap d) T r) by (split; [done|by exists lf, (key lf s)]); split; [done|].
  pose proof (ok_view _ _ _ _ _ _ _ Hok r Hr) as Ev; rewrite Es, E in Ev; split; [exact (eq_sym (inj Some _ _ Ev))|]; split; [by apply (ok_slots _ _ _ _ _ _ _ Hok)|]; unfold lens; rewrite E; unfold fin in Ef; lia.
Qed.

(** The owners of a range change. *)
Lemma owners_ok d I T P C s i r h' ms' C' o : let h := heap d in let d' := set_mops ms' (set_heap h' d) in
  good d I T P C -> I !! s = Some i -> i_type i = allocation_node -> leaf_at h T s (i_end i) r -> four h' -> claims (slot h') ms' C' -> others r h h' -> (forall q, q <> r -> bare (at_ h' q) = bare (at_ h q)) ->
  set_used 0 (bare (at_ h' r)) = set_used 0 (bare (at_ h r)) -> claims_used (at_ h' r) = cnt (slot h' r) 4 ->
  (forall j, 0 <= j < 4 -> owner (slot h' r j) = Null /\ n_claims (slot h' r j) = 0 \/ exists k, owner (slot h' r j) = Mop k) -> acc (fun q => lens I (start (at_ h q))) ms' C' -> owns h' r = o ->
  good d' (<[s := set_iown o i]> I) T P C' /\ (forall q, form (at_ h' q) = form (at_ h q)) /\ room d' = room d.
Proof.
  intros h d' Hg Es Hty Hr F4 Fc Fo Fb Fu Fn Hsl Fa Ho; pose proof Hg as [Hok Hti]; destruct (good_leaf d I T P C s i r Hg Es Hr) as (Hl & Hinfo & _ & Hlen); pose proof Hr as (_ & Est & _).
  assert (Ht : allocation_type (at_ h r) = allocation_node) by (rewrite <- Hty, <- Hinfo; done).
  assert (Hform : forall q, form (at_ h' q) = form (at_ h q) /\ start (at_ h' q) = start (at_ h q) /\ allocation_type (at_ h' q) = allocation_type (at_ h q)).
  { intros q; destruct (decide (q = r)) as [->|Hq]; [unfold bare, set_used in Fu; cbn in Fu; injection Fu as F1 F2 F3 F4' F5 F6 F7; unfold form; by rewrite F1, F3, F4', F7|]; destruct (bare_fields _ _ (Fb q Hq)) as (? & ? & _ & _ & ? & _); done. }
  assert (Hi' : info_of h' r = set_iown o i) by (rewrite <- Ho, <- Hinfo; unfold info_of, fin, set_iown; cbn [i_end i_type i_res i_alloc i_prev]; unfold bare, set_used in Fu; cbn in Fu; by injection Fu as F1 -> -> -> -> -> ->).
  split; [split; [|by eapply tiled_set]|split; [intros; apply Hform|done]].
  eapply ok_lens; [intros; symmetry; by eapply lens_set|]; apply (ok_ct _ (ends I)); [intros; symmetry; by eapply ends_set|].
  assert (Hb : start (at_ h' r) = s) by (by rewrite (proj1 (proj2 (Hform r)))); assert (Hgo : ok d' (ends I) (lens I) (<[start (at_ h' r) := info_of h' r]> I) T P C'); [|by rewrite Hi', Hb in Hgo].
  eapply (ok_step d d' (ends I) _ (lens I) _ I T P P C C' r Hok); try done; change (heap d') with h'; change (mops d') with ms'.
  - eapply tree_form; [|apply Hok]; intros; apply Hform.
  - eapply pools_ext; [|apply Hok]; intros j l q Hj Hin; destruct (pl_node _ _ _ (ok_pools _ _ _ _ _ _ _ Hok) _ _ _ Hj Hin) as [_ Et]; fold h in Et; assert (Hn : kind j <> allocation_node) by (by destruct j as [|[|[|]]]).
    split; [|by apply Hform]; apply Fo; [lia|intros ->; congruence|]; intros k' Hk; destruct (ok_claimed _ _ _ _ _ _ _ Hok q 0 k' ltac:(lia) Hk) as [_ Ea]; fold h in Ea; congruence.
  - eapply acc_ext; [|exact Fa]; intros; cbn beta; by rewrite (proj1 (proj2 (Hform _))).
  - intros q Hq; split_and!; [by apply Fb|by eapply others_same|]; intros Hnl j Hj; apply Fo; [done..|]; intros k' Hk; by destruct (ok_claimed _ _ _ _ _ _ _ Hok q j k' Hj Hk) as [[? _] _].
  - destruct Hl as [Hl He]; split; [|done]; destruct (form_eq _ _ (proj1 (Hform r))) as (_ & _ & _ & _ & El & _); by apply El.
  - split; [done|by rewrite (proj2 (proj2 (Hform r))), Ht].
  - split; [|intros; by eauto]; intros; right; by eauto.
  - rewrite (proj2 (proj2 (Hform r))), Ht; done.
  - rewrite Hb, Hi'; intros t j Ej Ety; destruct (decide (t = s)) as [->|Hne]; [rewrite lookup_insert_eq in Ej; injection Ej as <-; cbn in Ety; congruence|rewrite lookup_insert_ne in Ej by done; by apply (ok_world _ _ _ _ _ _ _ Hok)].
Qed.

Lemma claim_ok d I T P C s i r m times k : good d I T P C -> I !! s = Some i -> i_type i = allocation_node -> leaf_at (heap d) T s (i_end i) r -> is_Some (mops d !! m) -> own_slot (i_own i) m = Some k ->
  exists d' C', visit_claim r m times d = Some (r, d') /\ good d' (<[s := set_iown (claim_own (i_own i) m times) i]> I) T P C' /\
    (forall q, form (at_ (heap d') q) = form (at_ (heap d) q)) /\ room d' = room d /\ book_only (mops d) (mops d').
Proof.
  intros Hg Es Hty Hr Hm Hk; pose proof Hg as [Hok _]; destruct (good_leaf d I T P C s i r Hg Es Hr) as (_ & Hinfo & [Hu Hsl] & Hlen); pose proof Hr as (_ & Est & _).
  assert (Ht : allocation_type (at_ (heap d) r) = allocation_node) by (rewrite <- Hty, <- Hinfo; done); rewrite Ht in Hsl; pose proof (ok_four _ _ _ _ _ _ _ Hok) as H4.
  assert (Hown : owns (heap d) r = i_own i) by (rewrite <- Hinfo; done); pose proof (claim_own_slot (heap d) r m H4 Hsl) as Hslot; rewrite Hown, Hk in Hslot.
  destruct (visit_claim_run d C r m times k H4 (ok_claims _ _ _ _ _ _ _ Hok) Hm Ht Hslot) as (h' & ms' & C' & E & F4 & Fc & Fm & Fo & Fb & Fu & Fn & Fs & Fk & Fkn & Fa); destruct (claim_slot_at _ _ _ _ H4 Hslot) as [Hk4 Hkown].
  destruct (owners_ok d I T P C s i r h' ms' C' (claim_own (i_own i) m times)) as (G1 & G2 & G3); try done; [by apply Fn| | | |by eexists _, _].
  - intros j Hj; destruct (decide (j = k)) as [->|Hne]; [right; by exists m|]; destruct (Fs j Hj Hne) as [-> ->]; by apply Hsl.
  - apply (Fa (fun q => lens I (start (at_ (heap d) q)))); [by rewrite Est, Hlen|apply Hok].
  - unfold claim_own; rewrite Hk, <- Hown, owns_get by done; eapply owns_insert; [done|intros j Hj Hne; destruct (Fs j Hj Hne) as [A1 A2]; unfold own; by rewrite A1, A2|].
    unfold own at 1 2; rewrite Fk, Fkn; case_bool_decide as Eb; [by rewrite Eb|]; destruct Hkown as [?|[Hn _]]; [done|by rewrite Hn].
Qed.

End Take.
