(* ===== verification/MmapRequest.v ===== *)
(** * Requests

    A request finds an open range on the pools that fits, cuts the pages out of
    it and hands them to its owner. *)

From S2P Require Import Prelude Pmem PageTable Vmem Mmap MmapList MmapClaims MmapTree MmapInv MmapSplit MmapPush MmapCut MmapTake.

Section Request.

Context {W R : Type} `{!Nano W R} `{!NanoLaws W R}.

Abbreviation desc := (vpage_range_desc_t R).

Implicit Types (h : gmap (Z * Z) desc) (d : dir W R) (T : gmap Z (Z * Z)) (x : desc) (P : list (list dref)) (C : gmap Z (list claimer_link_t)) (I : gmap Z (@info R)).

(** ** Off the pools *)

Lemma unlink_run d ct A I T P C r : ok d ct A I T P C -> is_leaf (heap d) T r -> allocation_type (at_ (heap d) r) = open_node ->
  exists h' P', (forall B (k : @M W R B) z, k (set_pools (map head P') (set_heap h' d)) = z -> (p ← chain_prev r; n ← chain_next r; _ ← remove_from_pool r; _ ← adjust_desc_pool p; _ ← adjust_desc_pool n; k) d = z) /\
    pools h' (map head P') P' /\ only (fun q i => i = 0 /\ listed P q) (heap d) h' /\ forall q, listed P' q <-> listed P q /\ q <> r.
Proof.
  intros Hok Hr Hty; destruct (ok_open _ _ _ _ _ _ _ Hok r Hr Hty) as (j & l & Hj & (l1 & l2 & ->)%list_elem_of_split); pose proof (ok_four _ _ _ _ _ _ _ Hok) as H4; pose proof (ok_pools _ _ _ _ _ _ _ Hok) as Hp.
  pose proof (dseg_mid _ _ _ _ _ _ (pl_seg _ _ _ Hp j _ Hj)) as Hlk; apply links_inv in Hlk as [Hprev Hnext].
  destruct (remove_run d P j l1 r l2 H4 Hp Hj) as (h1 & E1 & Hp1 & Ho1 & _); set (P1 := <[j := l1 ++ l2]> P) in *; set (d1 := set_pools (map head P1) (set_heap h1 d)) in *.
  assert (Hl1 : forall q, listed P1 q <-> listed P q /\ q <> r) by (intros; by eapply removed_listed).
  assert (Hkind : kind j = open_node) by (rewrite <- Hty; symmetry; eapply (pl_node _ _ _ Hp j _ r Hj); apply elem_of_app; right; left).
  assert (Hin : forall q, q ∈ l1 ++ l2 -> listed P1 q /\ allocation_type (at_ h1 q) = open_node).
  { intros q Hq; assert (E : P1 !! j = Some (l1 ++ l2)) by (apply list_lookup_insert_eq; by eapply lookup_lt_Some); split; [by exists j, (l1 ++ l2)|]; rewrite <- Hkind; by apply (pl_node _ _ _ Hp1 j _ q E). }
  destruct (adjust_run d1 P1 (last_or l1 None)) as (h2 & P2 & E2 & Hp2 & Ho2 & Hl2); [apply Ho1|exact Hp1|intros q Hq; apply Hin; apply last_or_elem in Hq; set_solver|]; set (d2 := set_pools (map head P2) (set_heap h2 d1)) in *.
  destruct (adjust_run d2 P2 (hd_or l2 None)) as (h3 & P3 & E3 & Hp3 & Ho3 & Hl3); [apply Ho2|exact Hp2| |].
  { intros q Hq; apply hd_or_elem in Hq; destruct (Hin q ltac:(set_solver)) as [A1 A2]; split; [by apply Hl2|]; rewrite <- A2; apply bare_type, Ho2. }
  exists h3, P3; split_and!; [|done| |intros q; by rewrite Hl3, Hl2, Hl1].
  - intros B k z Hk; eapply bind_run; [by apply chain_prev_run|]; eapply bind_run; [by apply chain_next_run|]; eapply bind_run; [exact E1|]; eapply bind_run; [exact E2|]; eapply bind_run; [exact E3|]; exact Hk.
  - eapply only_trans; [eapply only_mono; [|exact Ho1]|eapply only_trans; [eapply only_mono; [|exact Ho2]|eapply only_mono; [|exact Ho3]]]; intros q i [-> Hq]; (split; [done|]).
    + by exists j, (l1 ++ r :: l2).
    + by apply Hl1.
    + by apply Hl1, Hl2.
Qed.

(** Links of pools are not those of claims. *)
Lemma listed_open d ct A I T P C q : ok d ct A I T P C -> listed P q -> is_leaf (heap d) T q /\ allocation_type (at_ (heap d) q) = open_node /\ forall m, owner (slot (heap d) q 0) <> Mop m.
Proof.
  intros Hok (j & l & Hj & Hin); pose proof (ok_listed _ _ _ _ _ _ _ Hok _ _ _ Hj Hin) as Hl; destruct (pl_node _ _ _ (ok_pools _ _ _ _ _ _ _ Hok) _ _ _ Hj Hin) as [_ Ht].
  pose proof (ok_slots _ _ _ _ _ _ _ Hok q Hl) as [_ Hs]; rewrite Ht in *; destruct j as [|[|[|j]]]; try done; cbn in Ht, Hs |- *; (split; [done|split; [done|]]); intros m; by apply (proj2 Hs 0).
Qed.

Lemma only_kept d ct A I T P C h' r : ok d ct A I T P C -> only (fun q i => i = 0 /\ listed P q) (heap d) h' ->
  kept (heap d) h' r /\ forall q i m, 0 <= i < 4 -> owner (slot (heap d) q i) = Mop m \/ owner (slot h' q i) = Mop m -> slot h' q i = slot (heap d) q i.
Proof.
  intros Hok [N1 N2 N3 N4]; pose proof (fun q => listed_open d ct A I T P C q Hok) as Hq; split; [intros q _; split; [done|split]|].
  - intros i Hi; destruct (N4 q i Hi) as [A1 A2]; split; [done|]; destruct (decide (i = 0 /\ listed P q)) as [[-> Hl]|Hn]; [|left; by rewrite N3]; destruct (Hq q Hl) as (_ & B1 & B2); destruct A2 as [A2|A2]; [by left|right; by split_and!].
  - intros Hl i Hi; apply N3; [done|]; intros [_ Hq']; by destruct (Hq q Hq') as [[? _] _].
  - intros q i m Hi Hm; apply N3; [done|]; intros [-> Hl]; destruct (Hq q Hl) as (_ & _ & B2); destruct Hm as [Hm|Hm]; [by apply B2 in Hm|]; destruct (N4 q 0 Hi) as [_ [E|E]]; [rewrite E in Hm; by apply B2 in Hm|by apply E in Hm].
Qed.

Lemma kept_trans h h' h'' r : kept h h' r -> kept h' h'' r -> kept h h'' r.
Proof.
  intros H1 H2 q Hq; destruct (H1 q Hq) as (A1 & A2 & A3), (H2 q Hq) as (B1 & B2 & B3); destruct (bare_fields _ _ A1) as (Af & At & _); split_and!; [congruence| |].
  - intros i Hi; destruct (A2 i Hi) as [C1 C2], (B2 i Hi) as [D1 D2]; split; [congruence|]; rewrite At in D2; destruct C2 as [C2|(E1 & E2 & E3 & E4)], D2 as [D2|(F1 & F2 & F3 & F4)]; [left; congruence|..]; right; split_and!; try done; intros m.
    + rewrite <- C2; apply F3.
    + rewrite D2; apply E4.
  - intros Hl j Hj; rewrite B3, A3; [done..| |done]; destruct (form_eq _ _ Af) as (_ & _ & _ & _ & -> & _); done.
Qed.

Lemma kept_upd h r f : kept h (upd h r f) r.
Proof. intros q Hq; unfold same_slots, slot; rewrite !at_upd_ne by done; auto. Qed.

(** The range as it is handed out. *)
Definition taken h (r : dref) : gmap (Z * Z) desc :=
  upd (upd h r (set_allocated (d_length (at_ h r)))) r (fun x => set_tracking (map (set_owner Null) (tracking x)) (set_type allocation_node x)).

Lemma taken_at h r q : at_ (taken h r) q = if decide (q = r) then set_tracking (map (set_owner Null) (tracking (at_ h r))) (set_type allocation_node (set_allocated (d_length (at_ h r)) (at_ h r))) else at_ h q.
Proof. unfold taken; rewrite at_upd; case_decide; [by rewrite at_upd_eq|by rewrite at_upd_ne]. Qed.

Lemma taken_slot h r q j : four h -> 0 <= j < 4 -> slot (taken h r) q j = if decide (q = r) then set_owner Null (slot h r j) else slot h q j.
Proof.
  intros H4 Hj; unfold slot at 1; rewrite taken_at; case_decide; [|done]; cbn [tracking set_tracking]; rewrite (four_list _ (H4 r)); unfold slot.
  assert (j = 0 \/ j = 1 \/ j = 2 \/ j = 3) as [->|[->|[->| ->]]] by lia; done.
Qed.

Lemma taken_claim h r m : four h -> claim_slot (tracking (at_ (taken h r) r)) m = Some 3.
Proof. intros H4; rewrite taken_at, decide_True by done; cbn [tracking set_tracking]; rewrite (four_list _ (H4 r)); done. Qed.

Definition take_info (i : @info R) (s m : Z) : @info R := mk_info (i_end i) allocation_node (i_res i) (i_end i - s) (i_prev i) [None; None; None; Some (m, 1)].

Lemma take_ok d I T P C s i r m : good d I T P C -> I !! s = Some i -> i_type i = open_node -> leaf_at (heap d) T s (i_end i) r -> is_Some (mops d !! m) ->
  exists d' P' C', take_range r m d = Some (i_res i, d') /\ good d' (<[s := take_info i s m]> I) T P' C' /\ world d' = world d /\ room d' = room d /\ book_only (mops d) (mops d').
Proof.
  intros Hg Es Hty Hr Hm; pose proof Hg as [Hok Hti]; destruct (good_leaf d I T P C s i r Hg Es Hr) as (Hl & Hinfo & [Hu Hsl] & Hlen); pose proof Hr as (_ & Est & Efin & _).
  assert (Ht : allocation_type (at_ (heap d) r) = open_node) by (rewrite <- Hty, <- Hinfo; done); rewrite Ht in Hsl; destruct Hsl as [_ Hsl]; pose proof (ok_four _ _ _ _ _ _ _ Hok) as H4.
  destruct (unlink_run d _ _ _ _ _ _ r Hok Hl Ht) as (h3 & P3 & Erun & Hp3 & Ho3 & Hl3); set (d3 := set_pools (map head P3) (set_heap h3 d)) in *; set (h5 := taken h3 r); set (d5 := set_heap h5 d3).
  destruct (only_kept d _ _ _ _ _ _ h3 r Hok Ho3) as [Hk3 Hc3]; pose proof Ho3 as [N1 N2 N3 N4]; destruct (bare_fields _ _ (N2 r)) as (_ & Y1 & Y2 & Y3 & Y4 & Y5 & Y6 & _).
  assert (Hr3 : forall j, 0 <= j < 4 -> n_claims (slot h3 r j) = 0) by (intros j Hj; rewrite (proj1 (N4 r j Hj)); by apply Hsl).
  assert (F5 : four h5) by (intros q; unfold h5; rewrite taken_at; case_decide; [cbn [tracking set_tracking]; rewrite length_map|]; apply N1).
  assert (S5 : forall q j, 0 <= j < 4 -> slot h5 q j = if decide (q = r) then set_owner Null (slot h3 r j) else slot h3 q j) by (intros; by apply taken_slot).
  assert (A5 : forall q, q <> r -> at_ h5 q = at_ h3 q) by (intros q Hq; unfold h5; rewrite taken_at; by rewrite decide_False).
  assert (R5 : at_ h5 r = set_tracking (map (set_owner Null) (tracking (at_ h3 r))) (set_type allocation_node (set_allocated (d_length (at_ h3 r)) (at_ h3 r)))) by (unfold h5; rewrite taken_at; by rewrite decide_True).
  assert (C5 : claims (slot h5) (mops d) C).
  { eapply claims_ext; [|apply Hok]; intros q j k Hj; rewrite S5 by done; case_decide as E; [subst q; intros [Ho|?]; [by destruct (Hsl j Hj) as (_ & Hn & _), (Hn k)|done]|]; by apply Hc3. }
  destruct (visit_claim_run d5 C r m 1 3) as (h' & ms' & C' & E & F4 & Fc & Fm & Fo & Fb & Fu & Fn & Fs & Fk & Fkn & Fa); [done|done|done|by change (heap d5) with h5; rewrite R5|by apply taken_claim|].
  change (heap d5) with h5 in *; change (mops d5) with (mops d) in *; set (d' := set_mops ms' (set_heap h' d5)).
  assert (H5r : forall j, 0 <= j < 4 -> owner (slot h5 r j) = Null /\ n_claims (slot h5 r j) = 0) by (intros j Hj; rewrite S5 by done; rewrite decide_True by done; split; [done|by apply Hr3]).
  assert (Ow' : owns h' r = [None; None; None; Some (m, 1)]).
  { assert (Hn : forall j, 0 <= j < 4 -> j <> 3 -> own (slot h' r j) = None) by (intros j Hj Hne; unfold own; by rewrite (proj1 (Fs j Hj Hne)), (proj1 (H5r j Hj))).
    unfold owns; cbn [map]; rewrite !Hn by lia; unfold own; rewrite Fk, Fkn; by rewrite (proj1 (H5r 3 ltac:(lia))). }
  assert (Hfr : start (at_ h' r) = s /\ d_length (at_ h' r) = i_end i - s /\ allocation_type (at_ h' r) = allocation_node /\ form (at_ h' r) = form (at_ (heap d) r) /\ info_of h' r = take_info i s m).
  { assert (Hres : reservation (at_ (heap d) r) = i_res i) by (by rewrite <- Hinfo); assert (Hprv : d_prev (at_ (heap d) r) = i_prev i) by (by rewrite <- Hinfo).
    assert (Hd : d_length (at_ (heap d) r) = i_end i - s) by (unfold lens in Hlen; by rewrite Es in Hlen); destruct (form_eq _ _ (proj1 (bare_fields _ _ (N2 r)))) as (_ & _ & Y7 & _).
    rewrite R5 in Fu; unfold bare, set_used in Fu; cbn in Fu; injection Fu as G1 G2 G3 G4 G5 G6 G7; unfold info_of, form, fin, take_info.
    rewrite G1, G2, G3, G4, G5, G6, G7, Ow', Y2, Y4, Y5, Y6, Y7, Est, Hd, Ht, Hres, Hprv; split_and!; try done; f_equal; lia. }
  destruct Hfr as (X1 & X2 & X3 & X4 & X5); assert (Hk' : kept (heap d) h' r).
  { eapply kept_trans; [exact Hk3|]; eapply kept_trans; [apply (kept_trans _ (upd h3 r (set_allocated (d_length (at_ h3 r))))); apply kept_upd|]; intros q Hq; split_and!; [by apply Fb|by eapply others_same|].
    intros Hnl j Hj; apply Fo; [done..|]; intros k Ho; rewrite S5, decide_False in Ho by done; rewrite (Hc3 q j k Hj (or_intror Ho)) in Ho; destruct (ok_claimed _ _ _ _ _ _ _ Hok q j k Hj Ho) as [[Hq' _] _].
    apply Hnl; rewrite A5 by done; destruct (form_eq _ _ (proj1 (bare_fields _ _ (N2 q)))) as (_ & _ & _ & _ & El & _); by apply El. }
  assert (Hform : forall q, form (at_ h' q) = form (at_ (heap d) q)) by (intros q; destruct (decide (q = r)) as [->|Hq]; [done|]; apply bare_fields, Hk'; done).
  assert (Hstart : forall q, start (at_ h' q) = start (at_ (heap d) q)) by (intros q; by destruct (form_eq _ _ (Hform q))).
  exists d', P3, C'; split; [|split; [split; [|by eapply tiled_set]|split; [done|split; [done|exact Fm]]]].
  { unfold take_range; apply Erun; eapply bind_run; [done|]; cbn beta; eapply bind_run; [apply dput_run|]; eapply bind_run; [apply assert_run; unfold is_type; change (heap d3) with h3; by rewrite Y1, Ht|].
    eapply bind_run; [apply dput_run|]; eapply bind_run; [exact E|]; change (heap d3) with h3; rewrite Y2; replace (i_res i) with (reservation (at_ (heap d) r)) by (by rewrite <- Hinfo); done. }
  eapply ok_lens; [intros; symmetry; by eapply lens_set|]; apply (ok_ct _ (ends I)); [intros; symmetry; by eapply ends_set|].
  assert (Hgo : ok d' (ends I) (lens I) (<[start (at_ h' r) := info_of h' r]> I) T P3 C'); [|by rewrite X5, X1 in Hgo].
  eapply (ok_step d d' (ends I) _ (lens I) _ I T P P3 C C' r Hok); try done; change (heap d') with h'; change (mops d') with ms'.
  - eapply tree_form; [exact Hform|apply Hok].
  - eapply pools_ext; [|exact Hp3]; intros j l q Hj Hin; destruct (proj1 (Hl3 q)) as [Hq Hqr]; [by exists j, l|]; destruct (listed_open d _ _ _ _ _ _ q Hok Hq) as (_ & _ & Hn).
    split; [|etransitivity; [apply bare_type, Fb; done|by rewrite A5]]; transitivity (slot h5 q 0); [|rewrite S5 by lia; by rewrite decide_False].
    apply Fo; [lia|done|]; intros k Ho; rewrite S5, decide_False in Ho by (done || lia); rewrite (Hc3 q 0 k ltac:(lia) (or_intror Ho)) in Ho; by apply Hn in Ho.
  - eapply acc_ext; [|apply (Fa (fun q => lens I (start (at_ (heap d) q)))); [|apply Hok]]; [intros; cbn beta; by rewrite Hstart|]; rewrite Est, <- Hlen, R5; cbn; by rewrite Y5.
  - destruct Hl as [Hl He]; split; [|done]; destruct (form_eq _ _ X4) as (_ & _ & _ & _ & El & _); by apply El.
  - split; [apply Fn|rewrite X3].
    + rewrite R5; cbn [claims_used set_tracking set_type set_allocated]; rewrite Y3, Hu; transitivity 0; [apply cnt_none; intros j k Hj; by apply Hsl|symmetry; apply cnt_none; intros j k Hj; by rewrite (proj1 (H5r j Hj))].
    + intros j Hj; destruct (decide (j = 3)) as [->|Hne]; [right; by exists m|left]; destruct (Fs j Hj Hne) as [-> ->]; by apply H5r.
  - split; [intros j l q Hj Hin; right; by apply Hl3; exists j, l|intros j l q Hj Hin Hq; apply Hl3; split; [by exists j, l|done]].
  - by rewrite X3.
  - rewrite X1, X5; intros t j Ej Ety; destruct (decide (t = s)) as [->|Hne]; [rewrite lookup_insert_eq in Ej; by injection Ej as <-|rewrite lookup_insert_ne in Ej by done; by apply (ok_world _ _ _ _ _ _ _ Hok)].
Qed.

(** ** First fit *)

(** How far into a range the pages start, for their end to be aligned. *)
Definition shift_by (mask n s : Z) : Z := Z.land (u64 (- (s + n))) mask.
Definition fit (mask n : Z) x : Prop := n + shift_by mask n (start x) <= d_length x.

Lemma shift_range mask n s : 0 <= mask < 2 ^ 52 -> 0 <= shift_by mask n s < 2 ^ 52.
Proof.
  intros Hm; unfold shift_by; rewrite <- (Z.mod_small mask (2 ^ 52)), <- Z.land_ones, Z.land_assoc, Z.land_ones by lia; by apply Z.mod_pos_bound.
Qed.

Definition the_fit d mask n (r : dref) : Z * (dref * list Z) := (start (at_ (heap d) r) + shift_by mask n (start (at_ (heap d) r)), (r, path_of (start (at_ (heap d) r)))).

(** One range of a pool, and on to the next one. *)
Lemma search_one d ct A I T P C j l1 r l2 mask n fuel : ok d ct A I T P C -> P !! j = Some (l1 ++ r :: l2) -> (j < 2)%nat -> 0 <= mask < 2 ^ 52 -> 0 < n < 2 ^ 27 ->
  let next := if bool_decide (hd_or l2 None = None) && bool_decide (j = 0%nat) then match P !! 1%nat with Some l => head l | None => None end else hd_or l2 None in
  fit mask n (at_ (heap d) r) /\ search_pools (S fuel) false n mask (Some r) d = Some (the_fit d mask n r, d) \/
  ~ fit mask n (at_ (heap d) r) /\ search_pools (S fuel) false n mask (Some r) d = search_pools fuel false n mask next d.
Proof.
  intros Hok Hj Hj2 Hm Hn next; pose proof (ok_pools _ _ _ _ _ _ _ Hok) as Hp; set (x := at_ (heap d) r) in *; assert (Hin : r ∈ l1 ++ r :: l2) by (apply elem_of_app; right; left).
  destruct (pl_node _ _ _ Hp _ _ _ Hj Hin) as [Hid Hk]; fold x in Hk; assert (Ht : allocation_type x = open_node) by (rewrite Hk; destruct j as [|[|]]; (done || lia)).
  destruct (ok_listed _ _ _ _ _ _ _ Hok _ _ _ Hj Hin) as [[Hd _] (lv & k & He)]; fold x in Hd; pose proof (dseg_mid _ _ _ _ _ _ (pl_seg _ _ _ Hp j _ Hj)) as Hlk; apply links_inv in Hlk as [_ Hnext].
  assert (Hs : 0 <= start x < 2 ^ 27).
  { pose proof (tr_entry _ _ _ (ok_tree _ _ _ _ _ _ _ Hok) _ _ _ _ He) as Hx; rewrite <- surjective_pairing in Hx; destruct (ok_listed _ _ _ _ _ _ _ Hok _ _ _ Hj Hin) as [Hl _]; destruct (en_leaf _ _ _ _ _ Hx Hl) as [[Hc _] _].
    fold x in Hc; destruct (tr_bound _ _ _ (ok_tree _ _ _ _ _ _ _ Hok) _ _ _ Hc); lia. }
  pose proof (shift_range mask n (start x) Hm) as Hsh; assert (Hstep : search_pools (S fuel) false n mask (Some r) d =
    if n + shift_by mask n (start x) <=? d_length x then Some (the_fit d mask n r, d) else search_pools fuel false n mask next d).
  { cbn [search_pools]; eapply bind_run; [done|]; fold x; eapply bind_run; [apply assert_run; unfold is_type; by rewrite Ht|]; eapply bind_run; [apply assert_run; by rewrite (proj2 (Z.eqb_neq _ _))|]; cbn beta zeta; fold (shift_by mask n (start x)).
    rewrite !wrap_small by (unfold in_range; lia); destruct (_ <=? _); [done|]; eapply bind_run; [apply chain_next_run; [apply Hok|exact Hnext]|]; eapply bind_run; [apply pool_id_run; [apply Hok|exact Hid]|].
    rewrite wrap_small by (unfold in_range; lia); unfold next; replace (Z.of_nat j + 1 - 1 =? PAGE_POOL_FREE_SMALL) with (bool_decide (j = 0%nat)) by (destruct j as [|[|]]; (done || lia)).
    destruct (bool_decide (hd_or l2 None = None) && bool_decide (j = 0%nat)); [|done]; destruct (lookup_lt_is_Some_2 P 1) as [l Hl]; [rewrite (pl_three _ _ _ Hp); lia|]; rewrite Hl.
    eapply bind_run; [apply (pool_get_run d P 1 l); [apply Hp|done]|done]. }
  rewrite Hstep; destruct (Z.leb_spec (n + shift_by mask n (start x)) (d_length x)); [left|right]; split; try done; unfold fit; lia.
Qed.

Lemma search_large d ct A I T P C mask n : ok d ct A I T P C -> 0 <= mask < 2 ^ 52 -> 0 < n < 2 ^ 27 -> forall l2 l1 fuel, P !! 1%nat = Some (l1 ++ l2) -> (List.length l2 <= fuel)%nat ->
  (exists r, r ∈ l2 /\ fit mask n (at_ (heap d) r)) -> exists r, r ∈ l2 /\ fit mask n (at_ (heap d) r) /\ search_pools fuel false n mask (head l2) d = Some (the_fit d mask n r, d).
Proof.
  intros Hok Hm Hn; induction l2 as [|r l2 IH]; intros l1 fuel Hj Hf (q & Hq & Hfit); [by apply elem_of_nil in Hq|]; destruct fuel as [|fuel]; [cbn in Hf; lia|].
  destruct (search_one d ct A I T P C 1 l1 r l2 mask n fuel Hok Hj ltac:(lia) Hm Hn) as [[F E]|[F E]]; [exists r; split_and!; [left|done|exact E]|].
  rewrite andb_false_r in E; destruct (IH (l1 ++ [r]) fuel) as (r' & Hr' & F' & E'); [by rewrite <- app_assoc|cbn in Hf; lia| |].
  - exists q; split; [|done]; apply elem_of_cons in Hq as [->|?]; [by destruct F|done].
  - exists r'; split_and!; [by right|done|]; cbn [head]; rewrite E; rewrite hd_or_head; exact E'.
Qed.

Lemma search_small d ct A I T P C mask n l : ok d ct A I T P C -> 0 <= mask < 2 ^ 52 -> 0 < n < 2 ^ 27 -> P !! 1%nat = Some l ->
  forall l2 l1 fuel, P !! 0%nat = Some (l1 ++ l2) -> l2 <> [] -> (List.length l2 + List.length l <= fuel)%nat ->
  (exists r, r ∈ l2 ++ l /\ fit mask n (at_ (heap d) r)) -> exists r, r ∈ l2 ++ l /\ fit mask n (at_ (heap d) r) /\ search_pools fuel false n mask (head l2) d = Some (the_fit d mask n r, d).
Proof.
  intros Hok Hm Hn Hl; induction l2 as [|r l2 IH]; intros l1 fuel Hj Hne Hf (q & Hq & Hfit); [done|]; destruct fuel as [|fuel]; [cbn in Hf; lia|]; cbn in Hf.
  destruct (search_one d ct A I T P C 0 l1 r l2 mask n fuel Hok Hj ltac:(lia) Hm Hn) as [[F E]|[F E]]; [exists r; split_and!; [left|done|exact E]|].
  rewrite andb_true_r, Hl in E; assert (Hq' : exists q, q ∈ l2 ++ l /\ fit mask n (at_ (heap d) q)).
  { exists q; split; [|done]; cbn in Hq; apply elem_of_cons in Hq as [->|?]; [by destruct F|done]. }
  destruct l2 as [|r2 l2].
  - destruct (search_large d ct A I T P C mask n Hok Hm Hn l [] fuel Hl) as (r' & Hr' & F' & E'); [cbn in Hf; lia|exact Hq'|]; exists r'; split_and!; [cbn; by right|done|]; cbn [head]; rewrite E; exact E'.
  - destruct (IH (l1 ++ [r]) fuel) as (r' & Hr' & F' & E'); [by rewrite <- app_assoc|done|cbn in *; lia|done|]; exists r'; split_and!; [by right|done|]; cbn [head]; rewrite E; exact E'.
Qed.

(** The pools are no longer than the heap. *)
Lemma pools_size d ct A I T P C l0 l1 : ok d ct A I T P C -> P !! 0%nat = Some l0 -> P !! 1%nat = Some l1 -> (List.length l0 + List.length l1 <= size (heap d))%nat.
Proof.
  intros Hok H0 H1; pose proof (ok_pools _ _ _ _ _ _ _ Hok) as Hp; rewrite <- length_app; assert (Hnd : NoDup (l0 ++ l1)).
  { apply NoDup_app; split_and!; [by apply (pl_nodup _ _ _ Hp 0)| |by apply (pl_nodup _ _ _ Hp 1)]; intros q Hq Hq'; pose proof (pools_unique _ _ P 0 1 _ _ q Hp H0 H1 Hq Hq'); done. }
  rewrite <- size_dom, <- (size_list_to_set (C := gset (Z * Z)) (l0 ++ l1)) by done; apply subseteq_size; intros q; rewrite elem_of_list_to_set; intros Hq.
  assert (Hl : is_leaf (heap d) T q) by (apply elem_of_app in Hq as [Hq|Hq]; [by apply (ok_listed _ _ _ _ _ _ _ Hok 0%nat l0)|by apply (ok_listed _ _ _ _ _ _ _ Hok 1%nat l1)]).
  apply elem_of_dom; destruct Hl as [[Hd _] _]; unfold at_ in Hd; destruct (heap d !! q) eqn:E; [done|]; by destruct Hd.
Qed.

(** A request that is not large looks at all open ranges. *)
Lemma find_run' d ct A I T P C mask n : ok d ct A I T P C -> 0 <= mask < 2 ^ 52 -> 0 < n < LARGE_PAGES -> (exists r, is_leaf (heap d) T r /\ allocation_type (at_ (heap d) r) = open_node /\ fit mask n (at_ (heap d) r)) ->
  exists r, is_leaf (heap d) T r /\ allocation_type (at_ (heap d) r) = open_node /\ fit mask n (at_ (heap d) r) /\ forall p, find_range 0 p n mask false d = Some (inr (the_fit d mask n r), d).
Proof.
  intros Hok Hm Hn (q & Hq & Hqt & Hqf); pose proof (ok_pools _ _ _ _ _ _ _ Hok) as Hp; assert (HL : LARGE_PAGES = 16384) by done.
  destruct (lookup_lt_is_Some_2 P 0) as [l0 H0]; [rewrite (pl_three _ _ _ Hp); lia|]; destruct (lookup_lt_is_Some_2 P 1) as [l1 H1]; [rewrite (pl_three _ _ _ Hp); lia|].
  pose proof (pools_size d ct A I T P C l0 l1 Hok H0 H1) as Hsz; assert (Hin : q ∈ l0 ++ l1).
  { destruct (ok_open _ _ _ _ _ _ _ Hok q Hq Hqt) as (j & l & Hj & Hl); destruct (pl_node _ _ _ Hp j l q Hj Hl) as [_ Hk]; rewrite Hqt in Hk; apply elem_of_app; destruct j as [|[|[|j]]]; [left; congruence|right; congruence|done|].
    apply lookup_lt_Some in Hj; rewrite (pl_three _ _ _ Hp) in Hj; lia. }
  assert (Hrun : exists r, r ∈ l0 ++ l1 /\ fit mask n (at_ (heap d) r) /\ search_pools (S (size (heap d))) false n mask (match head l0 with Some r => Some r | None => head l1 end) d = Some (the_fit d mask n r, d)).
  { destruct l0 as [|a l0]; [apply (search_large d ct A I T P C mask n Hok Hm ltac:(lia) l1 []); [done|cbn in *; lia|by exists q]|].
    apply (search_small d ct A I T P C mask n l1 Hok Hm ltac:(lia) H1 (a :: l0) []); [done|done|lia|by exists q]. }
  destruct Hrun as (r & Hr & Hf & E); exists r; destruct (listed_open d ct A I T P C r Hok) as (L1 & L2 & _); [apply elem_of_app in Hr as [?|?]; [by exists 0%nat, l0|by exists 1%nat, l1]|]; split_and!; [apply L1..|done|done|].
  intros p; unfold find_range; cbn [Z.eqb]; eapply bind_run; [unfold search_start; rewrite (proj2 (Z.leb_gt _ _)) by lia; eapply bind_run; [apply (pool_get_run d P 0 l0); [apply Hp|done]|]|].
  - instantiate (2 := match head l0 with Some r => Some r | None => head l1 end); destruct (head l0); [done|apply (pool_get_run d P 1 l1); [apply Hp|done]].
  - eapply bind_run; [done|]; cbn beta; eapply bind_run; [exact E|done].
Qed.

(** ** The request *)

Lemma align_page z : 0 <= z < 2 ^ 63 -> Z.shiftr (align_up_to z PHY_PAGE_SIZE) UNTRANSLATED_BITS = (z + 4095) / 4096.
Proof.
  intros Hz; unfold align_up_to; change PHY_PAGE_SIZE with 4096; change UNTRANSLATED_BITS with 12; change (u64 (Z.lnot (4096 - 1))) with (2 ^ 64 - 4096); rewrite Z.shiftr_land.
  change (Z.shiftr (2 ^ 64 - 4096) 12) with (Z.ones 52); rewrite Z.land_ones, Z.shiftr_div_pow2 by lia; change (2 ^ 12) with 4096; rewrite wrap_small by (unfold in_range; lia).
  replace (z + (4096 - 1)) with (z + 4095) by lia; apply Z.mod_small; split; [apply Z.div_pos; lia|apply Z.div_lt_upper_bound; lia].
Qed.

Lemma align_request b len : 0 <= b -> 0 <= len -> b + len < 2 ^ 63 -> ALIGN_PAGE_REQUEST b len = (b / 4096, (b + len + 4095) / 4096 - b / 4096).
Proof.
  intros Hb Hl Hs; unfold ALIGN_PAGE_REQUEST; rewrite (wrap_small 64 (b + len)), align_page by (unfold in_range; lia); change UNTRANSLATED_BITS with 12; rewrite Z.shiftr_div_pow2 by lia; change (2 ^ 12) with 4096.
  f_equal; apply wrap_small; unfold in_range; assert (b / 4096 <= (b + len + 4095) / 4096) by (apply Z.div_le_mono; lia); assert ((b + len + 4095) / 4096 < 2 ^ 64) by (apply Z.div_lt_upper_bound; lia).
  assert (0 <= b / 4096) by (apply Z.div_pos; lia); lia.
Qed.

(** The pages for [len] bytes and the two nodes of the reservations before them. *)
Definition pages_for (len : Z) : Z := (len + 32 + 4095) / 4096.

Lemma good_world d I T P C w : good d I T P C -> backed w I -> good (set_world w d) I T P C.
Proof. intros [[O1 O2 O3 O4 O5 O6 O7 O8 O9 O10 O11 O12 O13 O14 O15 O16] Hti] Hw; split; [|done]; by split. Qed.

Lemma trim_run d q page n len flags : covers (world d) q (page * 4096 + 16) ((page + n) * 4096) -> 0 <= page -> 0 < n -> page + n <= 2 ^ 27 -> 0 <= len -> n = pages_for len -> (flag flags EXACT_SIZE = true -> len mod 16 = 0) ->
  exists w q' a, trim (Some q) page n 0 len flags d = Some (Some q', set_world w d) /\ covers w q' a ((page + n) * 4096) /\ page * 4096 + 16 <= a /\ a + 16 + len <= (page + n) * 4096 /\
    (flag flags EXACT_SIZE = true -> a + 16 + len = (page + n) * 4096) /\ chunks w = chunks (world d) /\
    forall r a' b', covers (world d) r a' b' -> b' <= page * 4096 + 16 \/ (page + n) * 4096 <= a' -> covers w r a' b'.
Proof.
  intros Hc Hp Hn0 Hmax Hlen Hn Hal; assert (Hfit : len + 32 <= n * 4096) by (rewrite Hn; unfold pages_for; pose proof (Z.mod_pos_bound (len + 32 + 4095) 4096 ltac:(lia)); pose proof (Z.div_mod (len + 32 + 4095) 4096); lia).
  unfold trim; rewrite !page_addr_small by lia; change RES_META_SIZE with 16; rewrite (wrap_small 64 (n * 4096 - 2 * 16)) by (unfold in_range; lia); cbn [negb Z.eqb]; destruct (flag flags EXACT_SIZE && (len <? n * 4096 - 2 * 16)) eqn:E.
  - apply andb_true_iff in E as [Ef El]; zbool; specialize (Hal Ef).
    assert (Hmod : (n * 4096 - 2 * 16 - len - 16) mod 16 = 0) by (rewrite <- (Z.mod_add _ ((len + 48) / 16 * 2 - n * 256) 16) by lia; Z.to_euclidean_division_equations; lia).
    assert (Hge : 0 <= n * 4096 - 2 * 16 - len - 16) by (Z.to_euclidean_division_equations; lia).
    destruct (split_law (world d) q _ _ (n * 4096 - 2 * 16 - len - 16) Hc Hge Hmod) as (w & q' & Es & _ & C2 & C3 & C4); [lia|].
    exists w, q', (page * 4096 + 16 + 16 + (n * 4096 - 2 * 16 - len - 16)); split_and!; [|done|lia|lia|lia|done|].
    + eapply bind_run; [by apply lift_run|]; unfold wcall; rewrite wrap_small by (unfold in_range; lia); by rewrite Es.
    + intros; by eapply C4.
  - exists (world d), q, (page * 4096 + 16); split_and!; [by destruct d|done|lia|lia| |done|done].
    intros Ef; rewrite Ef in E; cbn in E; zbool; lia.
Qed.

Lemma good_at d I T P C s i : good d I T P C -> I !! s = Some i -> exists r, hard_index s d = Some (Some r, d) /\ leaf_at (heap d) T s (i_end i) r.
Proof. intros [Hok Hti] E; destruct (ti_range _ Hti _ _ E); eapply hard_index_run; [apply Hok|by apply full_ends|lia]. Qed.

Definition active_mop d (m : Z) : Prop := exists o, mops d !! m = Some o /\ state o = active.

Lemma unseal_run d m : active_mop d m -> unseal_mop (Some m) d = Some (Some m, d).
Proof. intros (o & Ho & Hs); unfold unseal_mop; eapply bind_run; [done|]; cbn beta; rewrite Ho; destruct o; cbn in Hs; by rewrite Hs. Qed.

(** How the end of the pages has to be aligned. *)
Definition end_mask (len flags : Z) : Z := if flag flags REPRESENTABLE then Z.shiftr (u64 (Z.lnot (representable_mask len))) UNTRANSLATED_BITS else 0.

Lemma end_mask_range len flags : 0 <= end_mask len flags < 2 ^ 52.
Proof.
  unfold end_mask; case_match; [|lia]; rewrite Z.shiftr_div_pow2 by done; change (2 ^ UNTRANSLATED_BITS) with 4096; pose proof (wrap_range 64 (Z.lnot (representable_mask len)) ltac:(lia)) as Hw; unfold in_range in Hw.
  split; [apply Z.div_pos; lia|apply Z.div_lt_upper_bound; lia].
Qed.

(** An open range with room for [n] pages. *)
Definition fits (I : gmap Z (@info R)) (mask n s : Z) : Prop := exists i, I !! s = Some i /\ i_type i = open_node /\ s + shift_by mask n s + n <= i_end i.

(** What a request may ask for: less than 64 MB, no commit, a length that is
    representable or a multiple of 16 where the flags need it. *)
Record asks (len flags : Z) : Prop := mk_asks {
  as_len : 0 <= len; as_small : pages_for len < LARGE_PAGES;
  as_flags : flag flags ALIGN_TOP = false /\ flag flags COMMIT_NOW = false /\ flag flags COMMIT_DMA = false;
  as_repr : flag flags REPRESENTABLE = true -> Z.land (u64 (len + u64 (Z.lnot (representable_mask len)))) (representable_mask len) = len;
  as_exact : flag flags EXACT_SIZE = true -> len mod 16 = 0 }.

(** The reservation that is handed out: for [len] bytes or more inside the pages. *)
Definition handed (w : W) (q : R) (page n len flags : Z) : Prop := exists a,
  covers w q a ((page + n) * 4096) /\ page * 4096 + 16 <= a /\ a + 16 + len <= (page + n) * 4096 /\ (flag flags EXACT_SIZE = true -> a + 16 + len = (page + n) * 4096).

(** A request, step by step. *)
Lemma request_steps d r s page n m len flags ix d2 d3 rr q w q' d5 : active_mop d m -> asks len flags -> n = pages_for len ->
  (forall p, find_range 0 p n (end_mask len flags) false d = Some (inr (page, (r, path_of s)), d)) -> size_node page n (r, path_of s) d = Some (ix, d2) -> take_range ix.1 m d2 = Some (Some rr, d3) ->
  rescap_parent (world d3) rr = Some (w, Some q) -> trim (Some q) page n 0 len flags (set_world w d3) = Some (Some q', d5) -> mem_request (Some m) 0 len flags d = Some (inr (Some q', None), d5).
Proof.
  intros Hm [Hlen Hsmall (Fa & Fn & Fd) Hrepr Hexact] -> Ef Es Et Ep Eq; assert (HL : LARGE_PAGES = 16384) by done; assert (Hn : 0 < pages_for len < LARGE_PAGES) by (split; [|done]; unfold pages_for; apply Z.div_str_pos; lia).
  assert (Hmax : len < 2 ^ 30) by (unfold pages_for in Hsmall; rewrite HL in Hsmall; pose proof (Z.mod_pos_bound (len + 32 + 4095) 4096 ltac:(lia)); pose proof (Z.div_mod (len + 32 + 4095) 4096); lia).
  unfold mem_request; eapply bind_run; [by apply unseal_run|]; cbn beta iota; change (negb (Z.land 0 (RES_META_SIZE - 1) =? 0)) with false; cbn beta iota; change (if 0 =? 0 then 0 else u64 (0 - 2 * RES_META_SIZE)) with 0.
  change (2 * RES_META_SIZE) with 32; rewrite (wrap_small 64 (len + 32)), align_request by (unfold in_range; lia); change (0 / 4096) with 0; rewrite Z.sub_0_r, Z.add_0_l; fold (pages_for len).
  eapply bind_run; [apply assert_run; by rewrite Fa|]; cbv zeta; eapply bind_run; [apply assert_run; destruct (flag flags REPRESENTABLE) eqn:Er; [|done]; cbn; apply Z.eqb_eq; auto|].
  rewrite (proj2 (Z.eqb_neq (pages_for len) 0)) by lia; rewrite Fd; cbn [andb]; rewrite Fd; eapply bind_run; [exact (Ef _)|]; cbn beta iota.
  eapply bind_run; [unfold commit_request; by rewrite Fd, Fn|]; eapply bind_run; [exact Es|]; eapply bind_run; [unfold drop_single; by rewrite Fd|]; eapply bind_run; [exact Et|].
  eapply bind_run; [by apply lift_run|]; eapply bind_run; [unfold wcall; by rewrite Ep|]; eapply bind_run; [exact Eq|done].
Qed.

Lemma request_run d I T P C m len flags : let n := pages_for len in let mask := end_mask len flags in good d I T P C -> active_mop d m -> asks len flags ->
  (exists s, fits I mask n s) -> (forall s, fits I mask n s -> (s + shift_by mask n s + n) * 4096 + 16 <= VIRT_END) -> 4 <= room d ->
  exists d' I' T' P' C' q s, let page := s + shift_by mask n s in
    mem_request (Some m) 0 len flags d = Some (inr (Some q, None), d') /\ fits I mask n s /\ good d' I' T' P' C' /\ handed (world d') q page n len flags /\
    starts I I' /\ (exists i', I' !! page = Some i' /\ i_end i' = page + n) /\
    (forall i, I !! s = Some i -> page + n < i_end i -> exists j, I' !! (page + n) = Some j /\ i_end j = i_end i /\ i_type j = open_node) /\
    (forall p v, page_is I' p v <-> if decide (page <= p < page + n) then v = (allocation_node, [None; None; None; Some (m, 1)]) else page_is I p v) /\ room d - 4 <= room d' /\ book_only (mops d) (mops d').
Proof.
  intros n mask Hg Hm Hasks (s1 & i1 & E1 & Ht1 & Hf1) Hv Hroom; pose proof Hg as [Hok Hti]; pose proof Hasks as [Hlen Hsmall _ _ Hexact]; assert (Hn : 0 < n < LARGE_PAGES) by (split; [|done]; unfold n, pages_for; apply Z.div_str_pos; lia).
  assert (HL : LARGE_PAGES = 16384) by done; pose proof (end_mask_range len flags) as Hmask; fold mask in Hmask.
  destruct (find_run' d _ _ _ _ _ _ mask n Hok Hmask Hn) as (r & Hr & Hrt & Hrf & Efind).
  { destruct (good_at d I T P C s1 i1 Hg E1) as (r & _ & Hr); destruct (good_leaf d I T P C s1 i1 r Hg E1 Hr) as (L1 & L2 & _ & L4); exists r; split; [done|]; split; [rewrite <- Ht1, <- L2; done|].
    unfold fit; destruct Hr as (_ & -> & _); rewrite L4; unfold lens; rewrite E1; lia. }
  set (s := start (at_ (heap d) r)) in *; pose proof (ok_view _ _ _ _ _ _ _ Hok r Hr) as Es; fold s in Es; set (i := info_of (heap d) r) in *; set (page := s + shift_by mask n s).
  assert (Hie : i_end i = s + d_length (at_ (heap d) r)) by done; assert (Hfit : fits I mask n s) by (exists i; unfold fit in Hrf; fold s in Hrf; split_and!; [done|done|lia]).
  specialize (Hv s Hfit); fold page in Hv; pose proof (shift_range mask n s Hmask) as Hsh; unfold fit in Hrf; fold s in Hrf; destruct (ti_range _ Hti _ _ Es) as [Hs0 Hs1].
  assert (Hfound : found d T s (i_end i) (r, path_of s)) by (eapply leaf_found; [exact Hg|by eapply (leaf_is_at (heap d) T); [apply Hok|]]).
  destruct (size_run d I T P C s i page n (r, path_of s) Hg Es) as (d2 & T2 & P2 & C2 & ix2 & res1 & res2 & E2 & Hg2 & Hl2 & Hroom2 & Hm2); [unfold page; lia|lia|unfold page; lia|done|done|done|].
  destruct (size_pages I s i page n res1 res2 Hti Es) as (Ht2 & Hst & (j & Ej & Eje & Ejs) & Htail & Hp2); [unfold page; lia|lia|unfold page; lia|]; set (J := size_info I s page n res1 res2) in *.
  assert (Hjt : i_type j = open_node) by (transitivity (i_type i); [by injection Ejs|done]).
  destruct (ok_world _ _ _ _ _ _ _ (proj1 Hg2) page j Ej Hjt) as (rr & Hrr & Hcov); rewrite Eje in Hcov; rewrite Z.min_l in Hcov by lia.
  destruct (take_ok d2 J T2 P2 C2 page j ix2.1 m Hg2 Ej Hjt) as (d3 & P3 & C3 & E3 & Hg3 & Hw3 & Hroom3 & Hm3); [by rewrite Eje| |].
  { destruct Hm as (o & Ho & _); specialize (Hm2 m); rewrite Ho in Hm2; destruct (mops d2 !! m); [by eexists|done]. }
  rewrite <- Hw3 in Hcov; destruct (parent_law (world d3) rr _ _ Hcov) as (w4 & q4 & E4 & Hc4 & Hch4 & Hk4); [lia|]; set (d4 := set_world w4 d3).
  destruct (trim_run d4 q4 page n len flags Hc4) as (w5 & q5 & a & E5 & Hc5 & Ha1 & Ha2 & Ha3 & Hch5 & Hk5); [unfold page; lia|lia|unfold page; lia|done|done|done|]; set (d5 := set_world w5 d4) in *.
  set (I3 := <[page := take_info j page m]> J) in *; exists d5, I3, T2, P3, C3, q5, s; cbv zeta; fold page; split; [|split; [done|split; [|split; [by exists a|split; [eapply starts_trans; [exact Hst|apply starts_insert]|split; [|split; [|split; [|split]]]]]]]].
  - rewrite Hrr in E3; by apply (request_steps d r s page n m len flags ix2 d2 d3 rr q4 w4 q5 d5).
  - assert (Hg5 : good (set_world w5 d3) I3 T2 P3 C3); [|exact Hg5]; apply good_world; [done|]; intros t k Ek Etk; destruct (ok_world _ _ _ _ _ _ _ (proj1 Hg3) t k Ek Etk) as (r' & ? & Hc); exists r'; split; [done|].
    assert (E3' : I3 !! page = Some (take_info j page m)) by apply lookup_insert_eq; assert (Htp : t <> page) by (intros ->; rewrite E3' in Ek; by injection Ek as <-).
    assert (Hap : i_end k <= page \/ page + n <= t) by (destruct (decide (t < page)); [left; by apply (ti_apart _ (proj2 Hg3) _ _ _ _ Ek E3')|right; pose proof (ti_apart _ (proj2 Hg3) _ _ _ _ E3' Ek ltac:(lia)) as H'; cbn in H'; lia]).
    apply Hk5; [apply Hk4; [done|lia]|lia].
  - exists (take_info j page m); split; [apply lookup_insert_eq|done].
  - intros i' Ei' Hlt; rewrite Es in Ei'; injection Ei' as <-; destruct (Htail Hlt) as (k & Ek & Eke & Eks); exists k; unfold I3; rewrite lookup_insert_ne by lia; split; [done|split; [done|]].
    transitivity (i_type i); [by injection Eks|done].
  - intros p v; unfold I3; rewrite (set_pages J page j) by done; rewrite Eje; case_decide; [done|apply Hp2].
  - unfold room in *; change (world d5) with w5; change (pool_n d5) with (pool_n d3); change (world d4) with w4 in Hch5; rewrite Hch5, Hch4; lia.
  - intros k; change (mops d5) with (mops d3); by rewrite Hm3, Hm2.
Qed.

End Request.
