(* ===== verification/MmapVisit.v ===== *)
(** * Claims and releases

    [mem_claim] and [mem_release] go from range to range and visit each; the
    last one is cut where the pages asked for end.  The loop is shown once, for
    a visitor that does what [vdo] says to the owners of a range. *)

From S2P Require Import Prelude Pmem PageTable Vmem Mmap MmapList MmapClaims MmapTree MmapInv MmapSplit MmapPush MmapCut MmapTake MmapRequest.

Section Visit.

Context {W R : Type} `{!Nano W R} `{!NanoLaws W R}.

Abbreviation desc := (vpage_range_desc_t R).
Abbreviation pstate := (allocation_type_t * list (option (Z * Z)))%type.

Implicit Types (h : gmap (Z * Z) desc) (d : dir W R) (T : gmap Z (Z * Z)) (P : list (list dref)) (C : gmap Z (list claimer_link_t)) (I : gmap Z (@info R)).

(** ** The loop *)

Section Loop.

Variables (visitf : dref -> Z -> Z -> @M W R dref) (checkf : dref -> Z -> Z -> @M W R Z) (m times : Z).
Variables (vcheck : pstate -> Z) (vdo : list (option (Z * Z)) -> list (option (Z * Z))) (vpre : list (option (Z * Z)) -> Prop).

Hypothesis (Hcheck : forall d I T P C s i r, good d I T P C -> I !! s = Some i -> leaf_at (heap d) T s (i_end i) r -> checkf r m times d = Some (vcheck (status_of i), d)).
Hypothesis (Hrange : forall v, vcheck v <= VISIT_DONE \/ vcheck v = VISIT_CONT \/ vcheck v = CHECK_PASS /\ v.1 = allocation_node).
Hypothesis (Hvisit : forall d I T P C s i r, good d I T P C -> is_Some (mops d !! m) -> I !! s = Some i -> leaf_at (heap d) T s (i_end i) r -> vcheck (status_of i) = CHECK_PASS -> vpre (i_own i) ->
  exists d' C', visitf r m times d = Some (r, d') /\ good d' (<[s := set_iown (vdo (i_own i)) i]> I) T P C' /\ (forall q, form (at_ (heap d') q) = form (at_ (heap d) q)) /\ room d' = room d /\ book_only (mops d) (mops d')).

(** What the visit makes of a page. *)
Definition vstep (v : pstate) : pstate := if vcheck v =? CHECK_PASS then (v.1, vdo v.2) else v.

Definition visited I (page q : Z) I' : Prop := starts I I' /\ forall p v, page_is I' p v <-> if decide (page <= p < q) then exists u, page_is I p u /\ v = vstep u else page_is I p v.

(** How the loop ends: all pages are visited, or a range is in the way. *)
Definition ended I (page n q res : Z) : Prop :=
  page <= q <= page + n /\ (res = MEM_OK /\ q = page + n \/ exists i, I !! q = Some i /\ q < page + n /\ res = vcheck (status_of i) /\ res <= VISIT_DONE).

Lemma visit_step I s i I1 : tiled I -> I !! s = Some i -> vcheck (status_of i) = CHECK_PASS -> I1 = <[s := set_iown (vdo (i_own i)) i]> I -> visited I s (i_end i) I1.
Proof.
  intros Hti E Hc ->; split; [apply starts_insert|]; intros p v; rewrite (set_pages I s i) by done; case_decide; [|done]; split.
  - intros ->; exists (status_of i); split; [by exists s, i|]; unfold vstep; by rewrite Hc.
  - intros (u & Hu & ->); rewrite (page_is_fun I p u (status_of i) Hti Hu) by (by exists s, i); unfold vstep; by rewrite Hc.
Qed.

Lemma skip_step I s i : tiled I -> I !! s = Some i -> vcheck (status_of i) = VISIT_CONT -> visited I s (i_end i) I.
Proof.
  intros Hti E Hc; split; [apply starts_refl|]; intros p v; case_decide; [|done]; split.
  - intros Hv; exists v; split; [done|]; rewrite (page_is_fun I p v (status_of i) Hti Hv) by (by exists s, i); unfold vstep; by rewrite Hc.
  - intros (u & Hu & ->); pose proof Hu as Hu'; rewrite (page_is_fun I p u (status_of i) Hti Hu) in Hu' |- * by (by exists s, i); unfold vstep; by rewrite Hc.
Qed.

Lemma visited_trans I I1 I2 page q1 q2 : page <= q1 <= q2 -> visited I page q1 I1 -> visited I1 q1 q2 I2 -> visited I page q2 I2.
Proof.
  intros Hq [S1 H1] [S2 H2]; split; [by eapply starts_trans|]; intros p v; rewrite (H2 p v); destruct (decide (q1 <= p < q2)).
  - rewrite (decide_True (P := page <= p < q2)) by lia; assert (Hu : forall u, page_is I1 p u <-> page_is I p u) by (intros u; rewrite (H1 p u); by rewrite decide_False by lia).
    split; intros (u & ? & ?); exists u; (split; [by apply Hu|done]).
  - rewrite (H1 p v); destruct (decide (page <= p < q1)); [by rewrite decide_True by lia|by rewrite decide_False by lia].
Qed.

Lemma visited_pages I J page q I' : starts I J -> (forall p v, page_is J p v <-> page_is I p v) -> visited J page q I' -> visited I page q I'.
Proof. intros Hs Hp [Hs' Hv]; split; [by eapply starts_trans|]; intros p v; rewrite (Hv p v); case_decide; [|apply Hp]; split; intros (u & ? & ?); exists u; (split; [by apply Hp|done]). Qed.

Lemma stop_fin d I T P C s i r : good d I T P C -> I !! s = Some i -> leaf_at (heap d) T s (i_end i) r -> stop (at_ (heap d) r) = i_end i.
Proof. intros [_ Hti] E (_ & E1 & E2 & _); destruct (ti_range _ Hti _ _ E); unfold fin in E2; unfold stop; rewrite wrap_small; [done|unfold in_range; lia]. Qed.

(** The range is visited, cut to size where it is the last one. *)
Lemma visit_one d I T P C s i ix n : good d I T P C -> is_Some (mops d !! m) -> I !! s = Some i -> found d T s (i_end i) ix -> 0 < n -> vcheck (status_of i) = CHECK_PASS -> vpre (i_own i) -> 4 <= room d ->
  exists d' I' T' P' C' r, (ix ← size_node s n ix; visitf ix.1 m times) d = Some (r, d') /\ good d' I' T' P' C' /\ stop (at_ (heap d') r) = Z.min (i_end i) (s + n) /\
    visited I s (Z.min (i_end i) (s + n)) I' /\ (i_end i <= s + n -> forall t, t <> s -> I' !! t = I !! t) /\ (i_end i <= s + n -> room d' = room d) /\ room d - 4 <= room d' /\ book_only (mops d) (mops d').
Proof.
  intros Hg Hm E Hf Hn Hc Hpre Hroom; pose proof Hf as (Hr & _); assert (Hty : i_type i = allocation_node) by (destruct (Hrange (status_of i)) as [H|[H|[_ H]]]; [rewrite Hc in H; by destruct H|rewrite Hc in H; discriminate H|exact H]).
  destruct (ti_range _ (proj2 Hg) _ _ E) as [Hs He]; destruct (decide (i_end i <= s + n)) as [Hle|Hgt].
  - destruct (Hvisit d I T P C s i ix.1 Hg Hm E Hr Hc Hpre) as (d' & C' & Ev & Hg' & Hform & Hroom' & Hb); set (I' := <[s := set_iown (vdo (i_own i)) i]> I) in *; exists d', I', T, P, C', ix.1; split_and!; try done; [| | |intros _ t Ht; by apply lookup_insert_ne|lia].
    + eapply bind_run; [|exact Ev]; unfold size_node; destruct Hr as (_ & Es & Efin & _); eapply bind_run; [done|]; cbn beta; rewrite Es, Z.ltb_irrefl; eapply bind_run; [done|]; cbn beta iota; eapply bind_run; [done|]; cbn beta.
      unfold fin in Efin; rewrite (proj2 (Z.ltb_ge _ _)) by lia; done.
    + rewrite Z.min_l by lia; apply (stop_fin d' I' T P C' s (set_iown (vdo (i_own i)) i)); [done|apply lookup_insert_eq|]; eapply leaf_at_form; [apply Hform|exact Hr].
    + rewrite Z.min_l by lia; by eapply visit_step; [apply Hg|..].
  - destruct (size_run d I T P C s i s n ix Hg E) as (d2 & T2 & P2 & C2 & ix2 & res1 & res2 & E2 & Hg2 & Hl2 & Hroom2 & Hm2); [lia|lia|lia|by rewrite Hty|done|lia|].
    destruct (size_pages I s i s n res1 res2 (proj2 Hg) E) as (Ht2 & Hst & (j & Ej & Eje & Ejs) & _ & Hp2); [lia..|]; set (J := size_info I s s n res1 res2) in *.
    assert (Eown : i_own j = i_own i) by (by injection Ejs); destruct (Hvisit d2 J T2 P2 C2 s j ix2.1 Hg2) as (d' & C' & Ev & Hg' & Hform & Hroom' & Hb); [|done|by rewrite Eje|by rewrite Ejs|by rewrite Eown|].
    { destruct Hm as [o Ho]; specialize (Hm2 m); rewrite Ho in Hm2; destruct (mops d2 !! m); [by eexists|done]. }
    set (I' := <[s := set_iown (vdo (i_own j)) j]> J) in *; exists d', I', T2, P2, C', ix2.1; rewrite Z.min_r by lia; split; [eapply bind_run; [exact E2|exact Ev]|]; split; [done|]; split; [|split; [|split; [lia|split; [lia|split; [lia|intros k; by rewrite Hb, Hm2]]]]].
    + rewrite <- Eje; apply (stop_fin d' I' T2 P2 C' s (set_iown (vdo (i_own j)) j)); [done|apply lookup_insert_eq|]; eapply leaf_at_form; [apply Hform|cbn; by rewrite Eje].
    + eapply visited_pages; [exact Hst|exact Hp2|]; rewrite <- Eje; eapply visit_step; [done|done|by rewrite Ejs|done].
Qed.

Lemma visit_any d I T P C page i ix n : good d I T P C -> is_Some (mops d !! m) -> I !! page = Some i -> found d T page (i_end i) ix -> 0 < n -> page + n <= 2 ^ 27 ->
  vcheck (status_of i) = VISIT_CONT \/ vcheck (status_of i) = CHECK_PASS -> (vcheck (status_of i) = CHECK_PASS -> vpre (i_own i)) -> 4 <= room d ->
  exists d1 I1 T1 P1 C1 r e1, (if vcheck (status_of i) =? CHECK_PASS then ix ← size_node page n ix; visitf ix.1 m times else mret ix.1) d = Some (r, d1) /\ good d1 I1 T1 P1 C1 /\ stop (at_ (heap d1) r) = e1 /\
    (page + n <= e1 /\ page + n <= i_end i \/ e1 = i_end i /\ i_end i < page + n /\ (forall t, t <> page -> I1 !! t = I !! t) /\ room d1 = room d) /\
    visited I page (Z.min (i_end i) (page + n)) I1 /\ room d - 4 <= room d1 /\ book_only (mops d) (mops d1).
Proof.
  intros Hg Hm E Hf Hn Hmax Hc Hpre Hroom; destruct (ti_range _ (proj2 Hg) _ _ E) as [Hs He]; destruct Hc as [Hc|Hc].
  - exists d, I, T, P, C, ix.1, (i_end i); rewrite Hc; split; [done|]; split; [done|]; split; [by eapply stop_fin; [..|apply Hf]|]; split; [destruct (decide (page + n <= i_end i)); [left|right]; split_and!; (done || lia)|]; split; [|split; [lia|done]].
    pose proof (skip_step I page i (proj2 Hg) E Hc) as [_ Hk]; split; [apply starts_refl|]; intros p v; specialize (Hk p v); destruct (decide (page <= p < Z.min (i_end i) (page + n))); [by rewrite decide_True in Hk by lia|done].
  - destruct (visit_one d I T P C page i ix n Hg Hm E Hf Hn Hc (Hpre Hc) Hroom) as (d1 & I1 & T1 & P1 & C1 & r & E1 & Hg1 & Est & Hv1 & Hsame & Hroom1 & Hroom1' & Hb); exists d1, I1, T1, P1, C1, r, (Z.min (i_end i) (page + n)); rewrite Hc.
    split; [done|]; split; [done|]; split; [done|]; split; [|done]; destruct (decide (page + n <= i_end i)); [left; lia|right; split_and!; [lia|lia|apply Hsame; lia|apply Hroom1; lia]].
Qed.

Lemma loop_run fuel : forall d I T P C page n ix i, good d I T P C -> is_Some (mops d !! m) -> I !! page = Some i -> found d T page (i_end i) ix -> 0 < n <= Z.of_nat fuel -> page + n <= 2 ^ 27 ->
  (forall p u, page <= p < page + n -> page_is I p u -> vcheck u = CHECK_PASS -> vpre u.2) -> 4 <= room d ->
  exists d' I' T' P' C' q res, claim_loop fuel visitf checkf page n times m ix d = Some (res, d') /\ good d' I' T' P' C' /\ ended I page n q res /\ visited I page q I' /\ room d - 4 <= room d' /\ book_only (mops d) (mops d').
Proof.
  induction fuel as [|fuel IH]; intros d I T P C page n ix i Hg Hm E Hf Hn Hmax Hpre Hroom; [lia|]; pose proof Hf as (Hr & _); destruct (ti_range _ (proj2 Hg) _ _ E) as [Hs He].
  pose proof (Hcheck d I T P C page i ix.1 Hg E Hr) as Ec; set (c := vcheck (status_of i)) in *; destruct (Hrange (status_of i)) as [Hc|Hc]; fold c in Hc.
  { exists d, I, T, P, C, page, c; split; [|split; [done|split; [|split; [|split; [lia|done]]]]].
    - cbn [claim_loop]; eapply bind_run; [exact Ec|]; by rewrite (proj2 (Z.leb_le _ _)).
    - split; [lia|right; exists i; split_and!; [done|lia|done|done]].
    - split; [apply starts_refl|]; intros p v; by rewrite decide_False by lia. }
  destruct (visit_any d I T P C page i ix n Hg Hm E Hf ltac:(lia) Hmax ltac:(tauto)) as (d1 & I1 & T1 & P1 & C1 & r & e1 & E1 & Hg1 & Est & Hcase & Hv1 & Hroom1 & Hb1); [|done|].
  { intros Hp; apply (Hpre page (status_of i)); [lia|exists page, i; split_and!; (done || lia)|done]. }
  fold c in E1; assert (Hrun : forall z, (x ← dget r; if u64 (page + n) <=? stop x then mret MEM_OK else
      q ← hard_index (stop x); q ← lift q; claim_loop fuel visitf checkf (stop x) (u64 (n - (stop x - page))) times m (q, path_of (stop x))) d1 = z -> claim_loop (S fuel) visitf checkf page n times m ix d = z).
  { intros z Hz; cbn [claim_loop]; eapply bind_run; [exact Ec|]; rewrite (proj2 (Z.leb_gt _ _)) by (change VISIT_DONE with 0; change VISIT_CONT with 1 in Hc; change CHECK_PASS with 2 in Hc; lia); eapply bind_run; [exact E1|exact Hz]. }
  destruct Hcase as [[Hle Hle']|(-> & Hlt & Hsame & Hroom1')].
  - exists d1, I1, T1, P1, C1, (page + n), MEM_OK; split; [|split; [done|split; [split; [lia|by left]|split; [by rewrite Z.min_r in Hv1 by lia|done]]]].
    apply Hrun; eapply bind_run; [done|]; cbn beta; rewrite Est, wrap_small, (proj2 (Z.leb_le _ _)) by (unfold in_range; lia); done.
  - rewrite Z.min_l in Hv1 by lia; destruct (ti_next _ (proj2 Hg) _ _ E) as [?|(i2 & E2 & _)]; [lia|]; assert (E2' : I1 !! i_end i = Some i2) by (by rewrite Hsame by lia).
    destruct (good_at d1 I1 T1 P1 C1 _ _ Hg1 E2') as (q2 & Eq & Hq2); destruct (IH d1 I1 T1 P1 C1 (i_end i) (n - (i_end i - page)) (q2, path_of (i_end i)) i2) as (d' & I' & T' & P' & C' & q & res & E' & Hg' & (Hq & Hend) & Hv' & Hroom' & Hb'); try done; [|by eapply leaf_found|lia|lia| |lia|].
    { destruct Hm as [o Ho]; specialize (Hb1 m); rewrite Ho in Hb1; destruct (mops d1 !! m); [by eexists|done]. }
    { intros p u Hp Hu; apply (Hpre p u); [lia|]; rewrite (proj2 Hv1 p u), decide_False in Hu by lia; done. }
    exists d', I', T', P', C', q, res; split; [|split; [done|split; [|split; [eapply visited_trans; [|exact Hv1|exact Hv']; lia|split; [lia|intros k; by rewrite Hb', Hb1]]]]].
    + apply Hrun; eapply bind_run; [done|]; cbn beta; rewrite Est, !wrap_small, (proj2 (Z.leb_gt _ _)) by (unfold in_range; lia); eapply bind_run; [exact Eq|]; eapply bind_run; [by apply lift_run|exact E'].
    + split; [lia|]; destruct Hend as [[? ?]|(j & Ej & ? & ? & ?)]; [left; split; [done|lia]|right]; exists j; rewrite Hsame in Ej by lia; split_and!; [done|lia|done|done].
Qed.

End Loop.

(** ** Claims *)

Definition held (l : list (option (Z * Z))) (k : Z) : Z := match zget l k with Some (Some (_, n)) => n | _ => 0 end.

(** What [mem_claim] says of a range. *)
Definition claim_check (m times : Z) (v : pstate) : Z :=
  match v.1 with
  | allocation_node =>
      match own_slot v.2 m with
      | None => MEM_CLAIM_CLAIM_LIMIT
      | Some k => if u64 (held v.2 k + times) <? held v.2 k then MEM_CLAIM_OVERFLOW else CHECK_PASS
      end
  | tomb_node => MEM_CLAIM_FREED
  | _ => MEM_CLAIM_NOT_IN_USE
  end.

(** The slot of a range for an owner, and how often it is held there. *)
Lemma slot_facts d I T P C s i r m : good d I T P C -> I !! s = Some i -> leaf_at (heap d) T s (i_end i) r ->
  allocation_type (at_ (heap d) r) = i_type i /\ (i_type i = open_node \/ i_type i = allocation_node) /\
  (i_type i = allocation_node -> claim_slot (tracking (at_ (heap d) r)) m = own_slot (i_own i) m /\ owns (heap d) r = i_own i /\
     forall k, 0 <= k < 4 -> n_claims (slot (heap d) r k) = held (i_own i) k).
Proof.
  intros Hg Es Hr; destruct (good_leaf d I T P C s i r Hg Es Hr) as (Hl & Hinfo & [Hu Hsl] & _); assert (Ht : allocation_type (at_ (heap d) r) = i_type i) by (rewrite <- Hinfo; done).
  assert (Hown : owns (heap d) r = i_own i) by (rewrite <- Hinfo; done); rewrite Ht in Hsl; split; [done|]; split; [destruct (i_type i); try done; auto|]; intros Ety; rewrite Ety in Hsl; pose proof (ok_four _ _ _ _ _ _ _ (proj1 Hg)) as H4.
  split; [rewrite <- Hown; by apply claim_own_slot|]; split; [done|]; intros k Hk; unfold held; rewrite <- Hown, owns_get by done; unfold own; destruct (Hsl k Hk) as [[-> ->]|[m' ->]]; done.
Qed.

Lemma claim_check_run m times d I T P C s i r : good d I T P C -> I !! s = Some i -> leaf_at (heap d) T s (i_end i) r -> visit_claim_check r m times d = Some (claim_check m times (status_of i), d).
Proof.
  intros Hg Es Hr; destruct (slot_facts d I T P C s i r m Hg Es Hr) as (Ht & Hty & Hal); pose proof (ok_four _ _ _ _ _ _ _ (proj1 Hg)) as H4; unfold visit_claim_check, claim_check; cbn [status_of fst snd].
  eapply bind_run; [done|]; cbn beta; rewrite Ht; destruct Hty as [Hty|Hty]; rewrite Hty; [done|]; destruct (Hal Hty) as (Hs & _ & Hn); eapply bind_run; [apply find_run; [congruence|exact Hs]|].
  destruct (own_slot (i_own i) m) as [k|] eqn:Ek; [|done]; destruct (claim_slot_at _ _ _ _ H4 Hs) as [Hk _]; eapply bind_run; [by apply claim_at_run|]; by rewrite Hn.
Qed.

Lemma claim_check_range m times v : claim_check m times v <= VISIT_DONE \/ claim_check m times v = VISIT_CONT \/ claim_check m times v = CHECK_PASS /\ v.1 = allocation_node.
Proof. unfold claim_check; destruct v.1; [left; done..| |left; done|left; done]; destruct (own_slot v.2 m); [case_match; [left; done|auto]|left; done]. Qed.

Lemma claim_visit_run m times d I T P C s i r : good d I T P C -> is_Some (mops d !! m) -> I !! s = Some i -> leaf_at (heap d) T s (i_end i) r -> claim_check m times (status_of i) = CHECK_PASS -> True ->
  exists d' C', visit_claim r m times d = Some (r, d') /\ good d' (<[s := set_iown (claim_own (i_own i) m times) i]> I) T P C' /\ (forall q, form (at_ (heap d') q) = form (at_ (heap d) q)) /\ room d' = room d /\ book_only (mops d) (mops d').
Proof.
  intros Hg Hm Es Hr Hc _; destruct (slot_facts d I T P C s i r m Hg Es Hr) as (_ & Hty & _); unfold claim_check in Hc; cbn [status_of fst snd] in Hc; destruct Hty as [Hty|Hty]; rewrite Hty in Hc; [done|].
  destruct (own_slot (i_own i) m) as [k|] eqn:Ek; [|done]; by eapply claim_ok.
Qed.

(** ** Releases *)

Definition release_check (m : Z) (v : pstate) : Z :=
  match v.1, own_slot v.2 m with
  | allocation_node, Some k => match zget v.2 k with Some (Some _) => CHECK_PASS | _ => VISIT_CONT end
  | _, _ => VISIT_CONT
  end.

Definition release_own (m times : Z) (l : list (option (Z * Z))) : list (option (Z * Z)) :=
  match own_slot l m with
  | Some k => <[Z.to_nat k := if held l k <=? times then None else Some (m, held l k - times)]> l
  | None => l
  end.

(** Somebody holds it still. *)
Definition still_held (l : list (option (Z * Z))) : Prop := exists x, Some x ∈ l.

Lemma release_check_run m times d I T P C s i r : good d I T P C -> I !! s = Some i -> leaf_at (heap d) T s (i_end i) r -> visit_free_check r m times d = Some (release_check m (status_of i), d).
Proof.
  intros Hg Es Hr; destruct (slot_facts d I T P C s i r m Hg Es Hr) as (Ht & Hty & Hal); pose proof (ok_four _ _ _ _ _ _ _ (proj1 Hg)) as H4; unfold visit_free_check, release_check; cbn [status_of fst snd].
  eapply bind_run; [done|]; cbn beta; unfold is_type; rewrite Ht; destruct Hty as [Hty|Hty]; rewrite Hty; [done|]; destruct (Hal Hty) as (Hs & Ho & _); cbn [negb bool_decide decide_rel allocation_type_eq]; change (bool_decide (allocation_node = allocation_node)) with true; cbn [negb].
  eapply bind_run; [apply find_run; [congruence|exact Hs]|]; destruct (own_slot (i_own i) m) as [k|] eqn:Ek; [|done]; destruct (claim_slot_at _ _ _ _ H4 Hs) as [Hk Hown]; eapply bind_run; [by apply claim_at_run|].
  rewrite <- Ho, owns_get by done; unfold own; destruct Hown as [E|[E _]]; rewrite E; [by rewrite bool_decide_eq_true_2|by rewrite bool_decide_eq_false_2].
Qed.

Lemma release_check_range m v : release_check m v <= VISIT_DONE \/ release_check m v = VISIT_CONT \/ release_check m v = CHECK_PASS /\ v.1 = allocation_node.
Proof. unfold release_check; right; destruct v.1; auto; destruct (own_slot v.2 m); auto; destruct (zget v.2 z) as [[|]|]; auto. Qed.

Lemma cnt_pos X j : 0 <= j < 4 -> (exists m, owner (X j) = Mop m) -> cnt X 4 <> 0.
Proof.
  intros Hj [m Hm]; assert (H1 : own1 (X j) = 1) by (unfold own1; by rewrite Hm); assert (Hr : forall j', 0 <= own1 (X j')) by (intros j'; unfold own1; destruct (owner (X j')); done).
  pose proof (Hr 0); pose proof (Hr 1); pose proof (Hr 2); pose proof (Hr 3); cbn [cnt]; change (Z.of_nat 0) with 0; change (Z.of_nat 1) with 1; change (Z.of_nat 2) with 2; change (Z.of_nat 3) with 3.
  assert (j = 0 \/ j = 1 \/ j = 2 \/ j = 3) as [->|[->|[->| ->]]] by lia; lia.
Qed.

(** A claim is given up, and others are left. *)
Lemma drop_run d1 C r m k o l1 l2 : four (heap d1) -> claims (slot (heap d1)) (mops d1) C -> C !! m = Some (l1 ++ (r, k) :: l2) -> mops d1 !! m = Some o -> allocation_type (at_ (heap d1) r) = allocation_node ->
  claims_used (at_ (heap d1) r) = cnt (slot (heap d1) r) 4 -> let h1 := heap d1 in
  exists h' ms' C', release_claim r k d1 = Some (tt, set_mops ms' (set_heap h' d1)) /\ four h' /\ claims (slot h') ms' C' /\ book_only (mops d1) ms' /\ others r h1 h' /\ (forall q, q <> r -> bare (at_ h' q) = bare (at_ h1 q)) /\
    set_used 0 (bare (at_ h' r)) = set_used 0 (bare (at_ h1 r)) /\ claims_used (at_ h' r) = cnt (slot h' r) 4 /\
    (forall j, 0 <= j < 4 -> j <> k -> owner (slot h' r j) = owner (slot h1 r j) /\ n_claims (slot h' r j) = n_claims (slot h1 r j)) /\ owner (slot h' r k) = Null /\ n_claims (slot h' r k) = n_claims (slot h1 r k) /\
    forall len, len r = d_length (at_ h1 r) -> acc len (mops d1) C -> acc len ms' C'.
Proof.
  intros H4 Hc Hl Ho Ht Hu h1; destruct (release_claim_run d1 C m l1 r k l2 o H4 Hc Hl Ho Ht) as (h' & E & F4 & Fb & Fs & Fc); fold h1 in Fb, Fs; set (o' := set_account _ _ _) in E, Fc; destruct (claim_facts _ _ _ _ _ _ _ _ Hc Hl) as (Hk & Hown & _); fold h1 in Hown.
  assert (Hnb : forall q j, last l1 = Some (q, j) \/ head l2 = Some (q, j) -> owner (slot h1 q j) = Mop m /\ (q, j) <> (r, k)).
  { pose proof (cm_nodup _ _ _ Hc _ _ Hl) as (_ & Hb & [Hd _]%NoDup_cons)%NoDup_app; intros q j [Hq|Hq]; [apply last_Some_elem_of in Hq|apply head_Some_elem_of in Hq]; (split; [apply (cm_node _ _ _ Hc m _ (q, j) Hl); set_solver|intros Ee; rewrite Ee in Hq; set_solver]). }
  assert (Hrel : forall q j, owner (relink (slot h1) (last l1) (head l2) (head l2) (last l1) q j) = owner (slot h1 q j) /\ n_claims (relink (slot h1) (last l1) (head l2) (head l2) (last l1) q j) = n_claims (slot h1 q j)) by (intros q j; unfold relink; repeat case_decide; done).
  assert (Hslot : forall q j, 0 <= j < 4 -> (q, j) <> (r, k) -> owner (slot h' q j) = owner (slot h1 q j) /\ n_claims (slot h' q j) = n_claims (slot h1 q j)) by (intros q j Hj Hne; rewrite Fs by done; rewrite decide_False by done; apply Hrel).
  assert (Ek : slot h' r k = set_owner Null (slot h1 r k)) by (rewrite Fs by done; by rewrite decide_True).
  destruct (cnt_join (slot h' r) (slot h1 r) k Hk) as [Hcn _]; [intros j Hj Hne; symmetry; apply Hslot; [done|congruence]|by rewrite Ek|unfold own1; by rewrite Hown|].
  exists h', (<[m := o']> (mops d1)), (<[m := l1 ++ l2]> C); split; [done|]; split; [done|]; split; [done|]; split; [|split; [|split; [|split; [|split; [|split; [|split; [|split]]]]]]].
  - intros k'; destruct (decide (k' = m)) as [->|]; [rewrite lookup_insert_eq, Ho; done|by rewrite lookup_insert_ne].
  - intros q j Hj Hq; destruct (Hslot q j Hj ltac:(congruence)) as [A1 A2]; split_and!; [done..|]; intros Hn; rewrite Fs by done; rewrite decide_False by congruence; unfold relink; rewrite !decide_False; [done|..].
    all: intros Eq; destruct (Hnb q j) as [B _]; [by auto|]; by destruct (Hn m).
  - intros q Hq; rewrite Fb; by rewrite decide_False.
  - rewrite Fb, decide_True by done; done.
  - transitivity (claims_used (bare (at_ h' r))); [done|]; rewrite Fb, decide_True by done; cbn [claims_used set_used]; fold h1 in Hu; rewrite Hu, Hcn; pose proof (cnt_range (slot h' r) 4); rewrite wrap_small; [lia|unfold in_range; lia].
  - intros j Hj Hne; apply Hslot; [done|congruence].
  - by rewrite Ek.
  - by rewrite Ek.
  - intros len Hlen Ha k' ok' lk; destruct (decide (k' = m)) as [->|]; [|rewrite !lookup_insert_ne by done; apply Ha]; rewrite !lookup_insert_eq; intros [= <-] [= <-].
    destruct (Ha m o _ Ho Hl) as [A1 A2]; unfold o'; cbn [allocated_ranges allocated_pages set_account]; rewrite A1, A2, !wrap_sub_l by lia; split; f_equal; [rewrite !length_app; cbn; lia|].
    rewrite !total_app; cbn [total foldr fst]; rewrite Hlen; fold h1; fold (total len l2); lia.
Qed.

Lemma release_visit_run m times d I T P C s i r : good d I T P C -> is_Some (mops d !! m) -> I !! s = Some i -> leaf_at (heap d) T s (i_end i) r -> release_check m (status_of i) = CHECK_PASS -> still_held (release_own m times (i_own i)) ->
  exists d' C', visit_free r m times d = Some (r, d') /\ good d' (<[s := set_iown (release_own m times (i_own i)) i]> I) T P C' /\ (forall q, form (at_ (heap d') q) = form (at_ (heap d) q)) /\ room d' = room d /\ book_only (mops d) (mops d').
Proof.
  intros Hg [o Hm] Es Hr Hc Hst; destruct (slot_facts d I T P C s i r m Hg Es Hr) as (Ht & Hty & Hal); pose proof Hg as [Hok _]; pose proof (ok_four _ _ _ _ _ _ _ Hok) as H4; unfold release_check in Hc; cbn [status_of fst snd] in Hc.
  destruct Hty as [Hty|Hty]; rewrite Hty in Hc; [done|]; destruct (Hal Hty) as (Hs & Ho & Hn); destruct (own_slot (i_own i) m) as [k|] eqn:Ek; [|done]; destruct (claim_slot_at _ _ _ _ H4 Hs) as [Hk Hown]; rewrite Hty in Ht.
  assert (Hmine : owner (slot (heap d) r k) = Mop m) by (destruct Hown as [?|[E _]]; [done|]; rewrite <- Ho, owns_get in Hc by done; unfold own in Hc; by rewrite E in Hc).
  destruct (good_leaf d I T P C s i r Hg Es Hr) as (_ & _ & [Hu Hsl] & Hlen); rewrite Ht in Hsl; pose proof Hr as (_ & Est & _); set (n := n_claims (slot (heap d) r k)); assert (En : held (i_own i) k = n) by (by rewrite <- Hn).
  set (rem := if n <=? times then 0 else n - times); set (h1 := upd (heap d) r (on_slot k (set_n rem))); set (d1 := set_heap h1 d).
  assert (S1 : forall q j, 0 <= j < 4 -> slot h1 q j = if decide (q = r /\ j = k) then set_n rem (slot (heap d) r k) else slot (heap d) q j) by (intros; by apply slot_upd).
  assert (C1 : claims (slot h1) (mops d) C) by (eapply claims_n; [|apply Hok]; intros q j Hj; rewrite S1 by done; case_decide as E; [destruct E as [-> ->]|]; done).
  assert (U1 : claims_used (at_ h1 r) = cnt (slot h1 r) 4).
  { transitivity (claims_used (bare (at_ h1 r))); [done|]; unfold h1 at 1; rewrite bare_upd; transitivity (cnt (slot (heap d) r) 4); [exact Hu|]; apply cnt_ext; intros j Hj; rewrite S1 by lia; case_decide as E; [destruct E as [_ ->]|]; done. }
  assert (Hrun : forall z, (if rem =? 0 then _ ← release_claim r k; x ← dget r; if claims_used x =? 0 then free_desc r else mret r else mret r) d1 = z -> visit_free r m times d = z).
  { intros z Hz; unfold visit_free; eapply bind_run; [by apply find_run|]; eapply bind_run; [by apply lift_run|]; eapply bind_run; [by apply claim_at_run|]; eapply bind_run; [by apply put_claim_run|]; exact Hz. }
  assert (Eown : release_own m times (i_own i) = <[Z.to_nat k := if rem =? 0 then None else Some (m, rem)]> (i_own i)).
  { unfold release_own; rewrite Ek, En; do 2 f_equal; unfold rem; destruct (n <=? times) eqn:E; [done|]; zbool; by rewrite (proj2 (Z.eqb_neq _ _)) by lia. }
  destruct (rem =? 0) eqn:Erem; zbool.
  - destruct (cm_all _ _ _ C1 m r k Hk) as (l & Hl & (l1 & l2 & ->)%list_elem_of_split); [rewrite S1 by done; by rewrite decide_True|].
    destruct (drop_run d1 C r m k o l1 l2) as (h' & ms' & C' & E & F4 & Fc & Fm & Fo & Fb & Fu & Fn & Fs & Fk & Fkn & Fa); try done; [by apply four_upd|transitivity (allocation_type (at_ (heap d) r)); [apply bare_type, bare_upd|done]|]; change (heap d1) with h1 in *.
    assert (Ow : owns h' r = release_own m times (i_own i)).
    { rewrite Eown, <- Ho; eapply owns_insert; [done| |unfold own; by rewrite Fk]; intros j Hj Hne; destruct (Fs j Hj Hne) as [A1 A2]; unfold own; rewrite A1, A2, S1 by done; by rewrite decide_False by naive_solver. }
    destruct (owners_ok d I T P C s i r h' ms' C' (release_own m times (i_own i))) as (G1 & G2 & G3); try done.
    + intros q j Hj Hq; destruct (Fo q j Hj Hq) as (A1 & A2 & A3); rewrite S1 in A1, A2, A3 by done; rewrite decide_False in A1, A2, A3 by naive_solver; done.
    + intros q Hq; rewrite Fb by done; apply bare_upd.
    + rewrite Fu; unfold h1; by rewrite bare_upd.
    + intros j Hj; destruct (decide (j = k)) as [->|Hne]; [left; split; [done|]; rewrite Fkn, S1 by done; by rewrite decide_True|]; destruct (Fs j Hj Hne) as [-> ->]; rewrite S1 by done; rewrite decide_False by naive_solver; by apply Hsl.
    + apply (Fa (fun q => lens I (start (at_ (heap d) q)))); [|apply Hok]; rewrite Est, <- Hlen; transitivity (d_length (bare (at_ h1 r))); [unfold h1; by rewrite bare_upd|done].
    + exists (set_mops ms' (set_heap h' d1)), C'; split; [|done]; apply Hrun; eapply bind_run; [exact E|]; eapply bind_run; [done|]; cbn beta; change (heap (set_mops ms' (set_heap h' d1))) with h'; rewrite (proj2 (Z.eqb_neq _ _)); [done|].
      rewrite Fn; destruct Hst as [[a b] (j & Hj)%list_elem_of_lookup_1]; rewrite <- Ow in Hj; pose proof (lookup_lt_Some _ _ _ Hj) as Hlt; assert (Hj4 : 0 <= Z.of_nat j < 4) by (cbn in Hlt; lia).
      apply (cnt_pos _ (Z.of_nat j) Hj4); pose proof (owns_get h' r (Z.of_nat j) Hj4) as Eg; unfold zget in Eg; rewrite (proj2 (Z.leb_le _ _)), Nat2Z.id, Hj in Eg by lia; injection Eg as Eg; unfold own in Eg; destruct (owner (slot h' r (Z.of_nat j))); naive_solver.
  - assert (Ow : owns h1 r = release_own m times (i_own i)).
    { rewrite Eown, <- Ho; eapply owns_insert; [done|intros j Hj Hne; rewrite S1 by done; by rewrite decide_False by naive_solver|]; rewrite S1 by done; rewrite decide_True by done; unfold own; cbn [owner set_n n_claims]; by rewrite Hmine. }
    destruct (owners_ok d I T P C s i r h1 (mops d) C (release_own m times (i_own i))) as (G1 & G2 & G3); try done.
    + by apply four_upd.
    + intros q j Hj Hq; rewrite S1 by done; by rewrite decide_False by naive_solver.
    + intros q Hq; apply bare_upd.
    + unfold h1; by rewrite bare_upd.
    + intros j Hj; rewrite S1 by done; case_decide as E; [right; exists m; done|by apply Hsl].
    + apply Hok.
    + exists (set_mops (mops d) (set_heap h1 d)), C; split; [|done]; apply Hrun; by destruct d.
Qed.

(** ** From the first page on *)

(** The pages of a request for some bytes. *)
Definition span (base len : Z) : Z := (base + len + 4095) / 4096 - base / 4096.

Lemma claim_release_run visitf checkf m times vcheck vdo (vpre : list (option (Z * Z)) -> Prop) d I T P C base len :
  (forall d I T P C s i r, good d I T P C -> I !! s = Some i -> leaf_at (heap d) T s (i_end i) r -> checkf r m times d = Some (vcheck (status_of i), d)) ->
  (forall v, vcheck v <= VISIT_DONE \/ vcheck v = VISIT_CONT \/ vcheck v = CHECK_PASS /\ v.1 = allocation_node) ->
  (forall d I T P C s i r, good d I T P C -> is_Some (mops d !! m) -> I !! s = Some i -> leaf_at (heap d) T s (i_end i) r -> vcheck (status_of i) = CHECK_PASS -> vpre (i_own i) ->
    exists d' C', visitf r m times d = Some (r, d') /\ good d' (<[s := set_iown (vdo (i_own i)) i]> I) T P C' /\ (forall q, form (at_ (heap d') q) = form (at_ (heap d) q)) /\ room d' = room d /\ book_only (mops d) (mops d')) ->
  let page := base / 4096 in let n := span base len in
  good d I T P C -> is_Some (mops d !! m) -> 4096 <= base -> 0 <= len -> base + len <= 2 ^ 39 -> 0 < n -> is_Some (I !! page) ->
  (forall p u, page <= p < page + n -> page_is I p u -> vcheck u = CHECK_PASS -> vpre u.2) -> 4 <= room d ->
  exists d' I' T' P' C' q res, mem_claim_or_release base len times m visitf checkf d = Some (res, d') /\ good d' I' T' P' C' /\ ended vcheck I page n q res /\ visited vcheck vdo I page q I' /\
    room d - 4 <= room d' /\ book_only (mops d) (mops d').
Proof.
  intros Hck Hrg Hvs page n Hg Hm Hb Hl Hmax Hn [i Ei] Hpre Hroom; destruct (ti_range _ (proj2 Hg) _ _ Ei) as [Hs He].
  destruct (soft_index_run d T (ends I) page (i_end i)) as (r & ixs & Es & Hr & lf & Hlf & Hw); [apply Hg|by apply full_ends|lia|]; assert (Hf : found d T page (i_end i) (r, ixs)) by (split; [done|by exists lf]).
  assert (Hmx : page + n <= 2 ^ 27) by (unfold page, n, span; assert ((base + len + 4095) / 4096 < 2 ^ 27 + 1) by (apply Z.div_lt_upper_bound; lia); lia); assert (Hp : 1 <= page) by (unfold page; apply Z.div_le_lower_bound; lia).
  destruct (loop_run visitf checkf m times vcheck vdo vpre Hck Hrg Hvs (Z.to_nat n) d I T P C page n (r, ixs) i) as (d' & I' & T' & P' & C' & q & res & E & H); try done; [lia|].
  exists d', I', T', P', C', q, res; split; [|done]; unfold mem_claim_or_release; rewrite align_request by lia; fold (span base len) page n; rewrite (proj2 (Z.eqb_neq n 0)), (proj2 (Z.eqb_neq page 0)) by lia.
  eapply bind_run; [exact Es|exact E].
Qed.

(** A claim adds to the count of its owner on each page, up to a range that
    cannot be claimed. *)
Lemma claim_run d I T P C m base len times : let page := base / 4096 in let n := span base len in
  good d I T P C -> is_Some (mops d !! m) -> 4096 <= base -> 0 <= len -> base + len <= 2 ^ 39 -> 0 < n -> is_Some (I !! page) -> 4 <= room d ->
  exists d' I' T' P' C' q res, mem_claim_or_release base len times m visit_claim visit_claim_check d = Some (res, d') /\ good d' I' T' P' C' /\ ended (claim_check m times) I page n q res /\
    visited (claim_check m times) (fun l => claim_own l m times) I page q I' /\ room d - 4 <= room d' /\ book_only (mops d) (mops d').
Proof.
  intros page n Hg Hm Hb Hl Hmax Hn Hi Hroom; apply (claim_release_run visit_claim visit_claim_check m times (claim_check m times) (fun l => claim_own l m times) (fun _ => True) d I T P C base len); try done.
  - intros; by eapply claim_check_run.
  - intros; apply claim_check_range.
  - intros; by eapply claim_visit_run.
Qed.

(** A release takes from the count, where others hold the pages still. *)
Lemma release_run d I T P C m base len times : let page := base / 4096 in let n := span base len in
  good d I T P C -> is_Some (mops d !! m) -> 4096 <= base -> 0 <= len -> base + len <= 2 ^ 39 -> 0 < n -> is_Some (I !! page) -> 4 <= room d ->
  (forall p u, page <= p < page + n -> page_is I p u -> release_check m u = CHECK_PASS -> still_held (release_own m times u.2)) ->
  exists d' I' T' P' C' q res, mem_claim_or_release base len times m visit_free visit_free_check d = Some (res, d') /\ good d' I' T' P' C' /\ ended (release_check m) I page n q res /\
    visited (release_check m) (release_own m times) I page q I' /\ room d - 4 <= room d' /\ book_only (mops d) (mops d').
Proof.
  intros page n Hg Hm Hb Hl Hmax Hn Hi Hroom Hpre; apply (claim_release_run visit_free visit_free_check m times (release_check m) (release_own m times) (fun l => still_held (release_own m times l)) d I T P C base len); try done.
  - intros; by eapply release_check_run.
  - intros; apply release_check_range.
  - intros; by eapply release_visit_run.
Qed.

End Visit.
