(* ===== verification/MmapBoot.v ===== *)
(** * The first directory

    [init_desc] leaves two tables under the root, a sentinel in page 0 and one
    open range for the rest of virtual memory.  That directory is in order. *)

From S2P Require Import Prelude Pmem PageTable Vmem Mmap MmapList MmapClaims MmapTree MmapInv MmapSplit MmapCut.

Section Boot.

Context {W R : Type} `{!Nano W R} `{!NanoLaws W R}.

Variables (w : W) (big_res : R).

Abbreviation desc := (vpage_range_desc_t R).

Definition boot_node (t : Z) : desc := mk_desc R no_tracking (Some t) (Some big_res) 0 MAX_VIRTUAL_PAGES 0 0 internal_node 0.
Definition boot_sentinel : desc := mk_desc R no_tracking None None 0 1 0 1 allocation_node 0.
Definition boot_open : desc := mk_desc R (mk_claimer Null Null (Num 2) 0 :: replicate 3 no_claim) None (Some big_res) 1 (MAX_VIRTUAL_PAGES - 1) 0 0 open_node 0.

Definition boot_heap : gmap (Z * Z) desc := {[ (0, 0) := boot_node 1; (1, 0) := boot_node 2; (2, 0) := boot_sentinel; (2, 1) := boot_open ]}.

Definition boot_dir : dir W R := mk_dir W R boot_heap [None; Some (2, 1); None] {[first_mop := mop0; mmap_mop := mop0]} 2 2 [] None w.

Lemma init_run w0 : new_desc_chunk w0 = Some w -> init_dir w0 big_res = Some boot_dir.
Proof.
  intros E; unfold init_dir; set (d0 := mk_dir W R _ _ _ _ _ _ _ _); assert (E1 : desc_table_alloc d0 = Some (1, set_tables 1 1 [] (set_world w d0))).
  { unfold desc_table_alloc; do 3 (eapply bind_run; [done|]); eapply bind_run; [eapply bind_run; [unfold wrun; cbn [world d0]; by rewrite E|done]|]; by eapply bind_run. }
  assert (init_desc big_res d0 = Some (tt, boot_dir)) as ->; [|done]; unfold init_desc; eapply bind_run; [exact E1|]; by vm_compute.
Qed.

Definition boot_info : gmap Z (@info R) := {[ 0 := mk_info 1 allocation_node None 1 0 [None; None; None; None]; 1 := mk_info (2 ^ 27) open_node (Some big_res) 0 0 [None; None; None; None] ]}.
Definition boot_tables : gmap Z (Z * Z) := {[ 0 := (0, 0); 1 := (1, 0); 2 := (2, 0) ]}.

Lemma boot_at r : at_ boot_heap r = if decide (r = (0, 0)) then boot_node 1 else if decide (r = (1, 0)) then boot_node 2 else if decide (r = (2, 0)) then boot_sentinel else
  if decide (r = (2, 1)) then boot_open else desc0.
Proof. unfold boot_heap, at_; repeat case_decide; subst; [by vm_compute..|]; by rewrite !lookup_insert_ne, lookup_singleton_ne by congruence. Qed.

Lemma boot_slot r i : 0 <= i < 4 -> slot boot_heap r i = if decide (r = (2, 1) /\ i = 0) then mk_claimer Null Null (Num 2) 0 else no_claim.
Proof.
  intros Hi; unfold slot; rewrite boot_at; assert (i = 0 \/ i = 1 \/ i = 2 \/ i = 3) as [->|[->|[->| ->]]] by lia; repeat case_decide; subst; naive_solver.
Qed.

Lemma boot_info_at s i : boot_info !! s = Some i -> s = 0 /\ i = mk_info 1 allocation_node None 1 0 [None; None; None; None] \/ s = 1 /\ i = mk_info (2 ^ 27) open_node (Some big_res) 0 0 [None; None; None; None].
Proof. unfold boot_info; rewrite !lookup_insert_Some, lookup_singleton_Some; naive_solver. Qed.

Lemma boot_table_at t v : boot_tables !! t = Some v -> v = (t, 0) /\ (t = 0 \/ t = 1 \/ t = 2).
Proof. unfold boot_tables; rewrite !lookup_insert_Some, lookup_singleton_Some; naive_solver. Qed.

Lemma boot_leaf r : is_leaf boot_heap boot_tables r -> r = (2, 0) \/ r = (2, 1).
Proof. intros [[Hl Ht] _]; rewrite boot_at in Hl, Ht; repeat case_decide; naive_solver. Qed.

Lemma boot_tiled : tiled boot_info.
Proof.
  split.
  - intros s i [[-> ->]|[-> ->]]%boot_info_at; cbn; lia.
  - by eexists.
  - intros s i [[-> ->]|[-> ->]]%boot_info_at; [right; by eexists|by left].
  - intros s i s' i' [[-> ->]|[-> ->]]%boot_info_at [[-> ->]|[-> ->]]%boot_info_at; cbn; lia.
Qed.

Lemma boot_counted lv k s e : 0 <= lv <= 2 -> counted (ends boot_info) lv k s e -> s = 0 /\ e = 1 /\ k = 0 \/ s = 1 /\ e = 2 ^ 27 /\ (lv < 2 /\ k = 0 \/ lv = 2 /\ k = 1).
Proof.
  intros Hlv [H1 <-]; unfold ends in H1; apply fmap_Some in H1 as (i & [[-> ->]|[-> ->]]%boot_info_at & ->); cbn [i_end]; assert (lv = 0 \/ lv = 1 \/ lv = 2) as [->|[->| ->]] by lia; vm_compute; naive_solver lia.
Qed.

Lemma boot_node_ok lv : lv = 0 \/ lv = 1 -> entry_ok boot_tables (ends boot_info) lv 0 (boot_node (lv + 1)).
Proof.
  intros Hlv; assert (Hk : key lv 0 = 0 /\ key lv 1 = 0) by (by destruct Hlv as [->| ->]); split; [done|by intros []|]; intros _; split; [lia|split].
  - exists (lv + 1); split; [done|]; by destruct Hlv as [->| ->].
  - split; [exists 1; split; [done|apply Hk]|exists 1; split; [done|apply Hk]|]; intros s e H; apply boot_counted in H; [|lia]; change (fin (boot_node (lv + 1))) with (2 ^ 27); cbn [start boot_node]; lia.
Qed.

Lemma boot_empty lv k : 0 <= lv <= 2 -> k <> 0 -> (k = 1 -> lv < 2) -> entry_ok boot_tables (ends boot_info) lv k (desc0 : desc).
Proof. intros Hlv Hk H1; split; [|by intros []|by intros []]; intros _ s e H%boot_counted; lia. Qed.

Lemma boot_tree : tree boot_heap boot_tables (ends boot_info).
Proof.
  split.
  - done.
  - intros t lv p [E Ht]%boot_table_at; simplify_eq; lia.
  - intros t t' v [-> _]%boot_table_at [E _]%boot_table_at; by simplify_eq.
  - intros t lv p [E Ht]%boot_table_at Hlv; simplify_eq; exists (t - 1), 0; destruct Ht as [->|[->| ->]]; [done|..]; (split; [by exists 0|done]).
  - intros t i lv k (p & [E Ht]%boot_table_at & Hi & ->); simplify_eq; rewrite boot_at; destruct Ht as [->|[->| ->]]; repeat case_decide; simplify_eq; try change (0 * 512 + 0) with 0; try change (0 * 512 + 1) with 1.
    + by apply (boot_node_ok 0); left.
    + assert (i <> 0) by congruence; apply boot_empty; lia.
    + by apply (boot_node_ok 1); right.
    + assert (i <> 0) by congruence; apply boot_empty; lia.
    + split; [done| |by intros []]; intros _; split; [done|]; intros s e Hc%boot_counted; cbn; lia.
    + split; [done| |by intros []]; intros _; split; [done|]; intros s e Hc%boot_counted; cbn; lia.
    + assert (i <> 0 /\ i <> 1) by (split; congruence); apply boot_empty; lia.
  - intros lv s e H; unfold ends in H; apply fmap_Some in H as (i & [[-> ->]|[-> ->]]%boot_info_at & ->); cbn; lia.
Qed.

Definition boot_pools : list (list dref) := [[]; [(2, 1)]; []].
Definition boot_claims : gmap Z (list claimer_link_t) := {[ first_mop := []; mmap_mop := [] ]}.

Lemma boot_claims_at m l : boot_claims !! m = Some l -> l = [].
Proof. unfold boot_claims; rewrite !lookup_insert_Some, lookup_singleton_Some; naive_solver. Qed.

Lemma boot_no_owner r i m : 0 <= i < 4 -> owner (slot boot_heap r i) <> Mop m.
Proof. intros Hi; rewrite boot_slot by done; by case_decide. Qed.

Lemma boot_pools_in j l r : boot_pools !! j = Some l -> r ∈ l -> j = 1%nat /\ r = (2, 1).
Proof. destruct j as [|[|[|j]]]; cbn; intros [= <-] Hr; [by apply elem_of_nil in Hr| |by apply elem_of_nil in Hr]; split; [done|]; by apply list_elem_of_singleton in Hr. Qed.

Lemma boot_pools_ok : pools boot_heap [None; Some (2, 1); None] boot_pools.
Proof.
  split; try done.
  - intros [|[|[|j]]] l; cbn; intros [= <-]; repeat constructor; set_solver.
  - by intros [|[|[|j]]] l; cbn; intros [= <-].
  - intros j l r Hl Hr; by destruct (boot_pools_in _ _ _ Hl Hr) as [-> ->].
Qed.

Lemma boot_claims_ok : claims (slot boot_heap) {[first_mop := mop0; mmap_mop := mop0]} boot_claims.
Proof.
  split.
  - intros m; unfold boot_claims; destruct (decide (m = first_mop)) as [->|]; [done|]; destruct (decide (m = mmap_mop)) as [->|]; [done|].
    by rewrite !lookup_insert_ne, !lookup_singleton_ne by done.
  - intros m l ->%boot_claims_at; constructor.
  - by intros m l ->%boot_claims_at.
  - intros m l x ->%boot_claims_at Hx; by apply elem_of_nil in Hx.
  - intros m r i Hi H; by apply boot_no_owner in H.
  - intros m r i j Hi _ H; by apply boot_no_owner in H.
Qed.

(** The directory is in order from the start. *)
Lemma boot_good : covers w big_res 4096 VIRT_END -> good boot_dir boot_info boot_tables boot_pools boot_claims.
Proof.
  intros Hw; split; [|apply boot_tiled]; unfold boot_dir; split; cbn [heap pool_heads mops tables pool_n free_tables being_revoked world].
  - intros r; rewrite boot_at; by repeat case_decide.
  - apply boot_tree.
  - apply boot_pools_ok.
  - apply boot_claims_ok.
  - intros m o l Ho ->%boot_claims_at; assert (o = mop0) as -> by (rewrite lookup_insert_Some, lookup_singleton_Some in Ho; naive_solver); done.
  - by intros r [->| ->]%boot_leaf.
  - intros r [->| ->]%boot_leaf; (split; [done|]); [change (allocation_type (at_ boot_heap (2, 0))) with allocation_node|change (allocation_type (at_ boot_heap (2, 1))) with open_node; split; [by eexists|]]; intros i Hi; rewrite !boot_slot by done; case_decide; naive_solver.
  - intros r [->| ->]%boot_leaf; [done|]; intros _; exists 1%nat, [(2, 1)]; split; [done|by apply list_elem_of_singleton].
  - intros j l r Hl Hr; destruct (boot_pools_in _ _ _ Hl Hr) as [-> ->]; split; [done|]; exists 2, 1; by exists 0.
  - intros r i m Hi H; by apply boot_no_owner in H.
  - intros r Hr; assert (Hd : r <> (2, 1)) by (intros ->; done); split; [|split]; [rewrite boot_at in Hr |- *; by repeat case_decide..|]; intros i Hi; rewrite boot_slot by done; by rewrite decide_False by naive_solver.
  - intros t v [_ Ht]%boot_table_at; lia.
  - intros t i Ht; rewrite boot_at; repeat case_decide; simplify_eq; lia || done.
  - done.
  - done.
  - intros s i [[-> ->]|[-> ->]]%boot_info_at; [done|]; intros _; by exists big_res.
Qed.

End Boot.
