(* ===== verification/MmapNano.v ===== *)
(** * The nanokernel's reservations under the directory

    The directory asks the nanokernel for reservations, and is proved against
    what [NanoLaws] promises.  Here the reservations are those of [Reserve]: a
    reservation covers the memory from its node to its end when the node is open
    and the rest of that memory is zero.  Splitting it and making it a parent
    then keep the promise, whether the store-conditional of the parent succeeds
    or not. *)

From S2P Require Import Prelude Pmem PageTable Reserve Vmem Mmap MmapList MmapClaims MmapTree MmapInv.

(** The memory with the nodes, and the chunks left for tables. *)
Record nano_world := mk_world { n_mem : gmap Z Z; n_chunks : nat }.

Definition answer {A} (r : nano_answer A) : option A := match r with Answer x => Some x | _ => None end.

(** What the directory calls besides: revocation, the pages, and which lengths a
    capability can have. *)
Record nano_rest := mk_rest {
  merge : nano_world -> res_t -> res_t -> option nano_world; revoke_begin : nano_world -> res_t -> option (nano_world * Z); revoke_all : nano_world -> option nano_world;
  free_single : nano_world -> Z -> option nano_world; free_range : nano_world -> Z -> Z -> option nano_world; commit_range : nano_world -> Z -> Z -> Z -> option (nano_world * Z);
  translate : nano_world -> Z -> Z; mask_for : Z -> Z }.

Section Nano.

Context (sc : list bool) (Hsc : true ∈ sc) (ok : bool) (rest : nano_rest).

Implicit Types (w : nano_world) (r : res_t).

#[export] Instance res_nano : Nano nano_world res_t := {|
  Mmap.rescap_split w r n := '(m, x) ← Reserve.rescap_split sc (n_mem w) r n; Some (mk_world m (n_chunks w), answer x);
  Mmap.rescap_parent w r := let '(m, x) := Reserve.rescap_parent ok (n_mem w) r in Some (mk_world m (n_chunks w), answer x);
  Mmap.rescap_merge := merge rest; rescap_revoke_start := revoke_begin rest; Mmap.rescap_nfo w r := let '(len, first) := Reserve.rescap_nfo (n_mem w) r in (first, len);
  revoke := revoke_all rest; vmem_free_single := free_single rest; vmem_free_range := free_range rest; vmem_commit_range := commit_range rest; translate_address := translate rest;
  new_desc_chunk w := match n_chunks w with O => None | S n => Some (mk_world (n_mem w) n) end;
  representable_mask := mask_for rest |}.

(** An open node at [a], with zeros up to [b]. *)
Definition open_for w r (a b : Z) : Prop :=
  r = mk_res a 0 /\ 0 <= a /\ b <= 2 ^ 39 /\ exists t L, fields 0 t 0 L /\ ld (n_mem w) a = enc 0 t 0 L /\ b = a + 16 * (1 + L) /\ forall x, a + 8 <= x < b -> ld (n_mem w) x = 0.

Lemma open_frame w w' lo hi r a b : (forall x, ~ lo <= x < hi -> ld (n_mem w') x = ld (n_mem w) x) -> b <= lo \/ hi <= a -> open_for w r a b -> open_for w' r a b.
Proof.
  intros Hm Hd (Er & Ha & Hb & t & L & HF & HW & EL & HZ); pose proof HF as (_ & _ & _ & HL); split; [done|split; [done|split; [done|]]]; exists t, L.
  split; [done|split; [rewrite Hm by lia; done|split; [done|]]]; intros x Hx; rewrite Hm by lia; by apply HZ.
Qed.

Lemma nano_split w r a b n : open_for w r a b -> 0 <= n -> n mod 16 = 0 -> a + 32 + n <= b ->
  exists w' q, Mmap.rescap_split w r n = Some (w', Some q) /\ open_for w' r a (a + 16 + n) /\ open_for w' q (a + 16 + n) b /\ n_chunks w' = n_chunks w /\
    forall r' a' b', open_for w r' a' b' -> b' <= a \/ b <= a' -> open_for w' r' a' b'.
Proof.
  intros (-> & Ha & Hb & t & L & HF & HW & EL & HZ) Hn H16 Hab; pose proof (open_split_mem sc (n_mem w) (mk_res a 0) t L n Hsc eq_refl HW HF Hn H16 ltac:(cbn; lia)) as H.
  rewrite (proj2 (Z.ltb_lt n (16 * L))) in H by lia; destruct H as (ta & tb & Fa & Fb & E); cbn [base] in E; set (m := sd _ _ _) in E; assert (En : n = 16 * (n / 16)) by (pose proof (Z.div_mod n 16); lia).
  assert (Hm : forall x, x <> a -> x <> a + 16 + n -> ld m x = ld (n_mem w) x) by (intros x ? ?; unfold m; by rewrite !ld_sd_ne by done).
  assert (H1 : ld m a = enc 0 ta 0 (n / 16)) by (unfold m; by rewrite ld_sd_ne, ld_sd_eq by lia); assert (H2 : ld m (a + 16 + n) = enc 0 tb 0 (L - n / 16 - 1)) by (unfold m; by rewrite ld_sd_eq).
  exists (mk_world m (n_chunks w)), (mk_res (a + 16 + n) 0); split; [|split; [|split; [|split; [done|]]]].
  - cbn [Mmap.rescap_split res_nano]; by rewrite E.
  - split; [done|split; [lia|split; [lia|]]]; exists ta, (n / 16); split; [done|split; [done|split; [lia|]]]; intros x Hx; cbn [n_mem]; rewrite Hm by lia; apply HZ; lia.
  - split; [done|split; [lia|split; [lia|]]]; exists tb, (L - n / 16 - 1); split; [done|split; [done|split; [lia|]]]; intros x Hx; cbn [n_mem]; rewrite Hm by lia; apply HZ; lia.
  - intros r' a' b' Ho Hd; apply (open_frame w _ a b); [|lia|done]; intros x Hx; apply Hm; lia.
Qed.

Lemma nano_parent w r a b : open_for w r a b -> a + 32 <= b <= a + 2 ^ 36 ->
  exists w' q, Mmap.rescap_parent w r = Some (w', Some q) /\ open_for w' q (a + 16) b /\ n_chunks w' = n_chunks w /\
    forall r' a' b', open_for w r' a' b' -> b' <= a \/ b <= a' -> open_for w' r' a' b'.
Proof.
  intros (-> & Ha & Hb & t & L & HF & HW & EL & HZ) Hab; pose proof (parent_open (n_mem w) (mk_res a 0) t L eq_refl HW HF ltac:(lia) (HZ (a + 16) ltac:(lia)) ok) as E; cbn [base] in E.
  rewrite Z.mod_small in E by lia; match type of E with _ = (?x, _) => set (m := x) in E end; assert (Hm : forall x, x <> a -> x <> a + 16 -> ld m x = ld (n_mem w) x) by (intros x ? ?; unfold m; destruct ok; by rewrite ?ld_sd_ne by done).
  exists (mk_world m (n_chunks w)), (mk_res (a + 16) 0); split; [cbn [Mmap.rescap_parent res_nano]; by rewrite E|split; [|split; [done|]]].
  - split; [done|split; [lia|split; [lia|]]]; exists 0, (L - 1); split; [unfold fields in *; lia|split; [cbn [n_mem]; unfold m; rewrite ld_sd_eq; unfold enc; lia|split; [lia|]]].
    intros x Hx; cbn [n_mem]; rewrite Hm by lia; apply HZ; lia.
  - intros r' a' b' Ho Hd; apply (open_frame w _ a b); [|lia|done]; intros x Hx; apply Hm; lia.
Qed.

#[export] Instance res_laws : NanoLaws nano_world res_t.
Proof.
  refine {| covers := open_for; chunks := n_chunks; split_law := nano_split; parent_law := nano_parent |}.
  - intros w r a b (_ & _ & _ & t & L & (_ & _ & _ & HL) & _ & -> & _); lia.
  - intros w n E; exists (mk_world (n_mem w) n); split; [cbn; by rewrite E|split; [done|]]; intros r a b H; exact H.
Defined.

(** The reservation of the first boot. *)
Lemma first_covers n : exists r m made, make_first_reservation ∅ 0 = (m, made, Answer r) /\ covers (mk_world m n) r VIRT_MEM_START VIRT_END.
Proof.
  exists (mk_res VIRT_MEM_START 0), (sd ∅ VIRT_MEM_START (enc 0 3 0 ((VIRT_MEM_SIZE - 16) / 16))), 1; split; [by vm_compute|].
  split; [done|split; [done|split; [done|]]]; exists 3, ((VIRT_MEM_SIZE - 16) / 16); split; [by vm_compute|split; [cbn [n_mem]; by rewrite ld_sd_eq|split; [done|]]].
  intros x Hx; cbn [n_mem]; rewrite ld_sd_ne by lia; done.
Qed.

End Nano.
