(* ===== verification/MmapSpec.v ===== *)
(** * What the memory manager promises

    The directory from outside: which pages are open, which are handed out, and
    who holds them how often.  Starting from the first directory, requests,
    claims, releases and new mops go through whenever [ready] says so, leave the
    directory in order, and change the pages as [effect] says; no page is handed
    out twice.  The last section shows where the lookup of a page that is not
    the first one of its range goes wrong. *)

From S2P Require Import Prelude Pmem PageTable Vmem Mmap MmapList MmapClaims MmapTree MmapInv MmapSplit MmapPush MmapCut MmapTake MmapRequest MmapVisit MmapBoot MmapNano.

Section Spec.

Context {W R : Type} `{!Nano W R} `{!NanoLaws W R}.

Implicit Types (d : dir W R) (I : gmap Z (@info R)) (g : list (Z * Z)).

(** ** Operations *)

Inductive op :=
  | Request (base len flags : Z)
  | Claim (base len times : Z)
  | Release (base len times : Z)
  | Makemop (space : option Z).

Inductive reply :=
  | Got (x : Z + option R * option Z)
  | Status (z : Z)
  | Made (x : Z + Z).

(** [h] is the handle of the mop the caller shows. *)
Definition exec_op (h : option Z) (o : op) : @M W R reply :=
  match o with
  | Request base len flags => x ← mem_request h base len flags; mret (Got x)
  | Claim base len times => x ← mem_claim base len times h; mret (Status x)
  | Release base len times => x ← mem_release base len times h; mret (Status x)
  | Makemop space => x ← mem_makemop space h; mret (Made x)
  end.

(** The mop behind the handle, if it may be used. *)
Definition holder d (h : option Z) : option Z :=
  m ← h; o ← mops d !! m; match state o with active => Some m | _ => None end.

(** ** When an operation may be called *)

(** The pages start with a range; [Release] is left to those who are not the
    last to hold a page. *)
Definition in_place I (base len : Z) : Prop :=
  0 <= base /\ 0 <= len /\ base + len <= 2 ^ 39 /\ (4096 <= base -> 0 < span base len -> is_Some (I !! (base / 4096))).

Definition ready d I (h : option Z) (o : op) : Prop :=
  4 <= room d /\ forall m, holder d h = Some m ->
  match o with
  | Request base len flags =>
      let mask := end_mask len flags in let n := pages_for len in
      base mod 16 <> 0 \/ base = 0 /\ asks len flags /\ (exists s, fits I mask n s) /\ forall s, fits I mask n s -> (s + shift_by mask n s + n) * 4096 + 16 <= VIRT_END
  | Claim base len _ => in_place I base len
  | Release base len times =>
      in_place I base len /\
      forall p u, base / 4096 <= p < base / 4096 + span base len -> page_is I p u -> release_check m u = CHECK_PASS -> still_held (release_own m times u.2)
  | Makemop space => forall q, space = Some q -> 4096 <= q /\ in_place I q MOP_SIZE /\ mops d !! q = None
  end.

(** ** What it does *)

Definition same_pages I I' : Prop := starts I I' /\ forall p v, page_is I' p v <-> page_is I p v.

(** The pages from [page] on, [n] of them, are visited up to the first that is
    refused. *)
Definition sweep vcheck vdo I (base len res : Z) I' : Prop :=
  if span base len =? 0 then res = MEM_OK /\ same_pages I I'
  else if base <? 4096 then res = MEM_BAD_BASE /\ same_pages I I'
  else exists q, ended vcheck I (base / 4096) (span base len) q res /\ visited vcheck vdo I (base / 4096) q I'.

(** What is behind page [p] in its range stays one open range. *)
Definition left_open I I' (p : Z) : Prop := forall s i, I !! s = Some i -> s < p < i_end i -> exists j, I' !! p = Some j /\ i_end j = i_end i /\ i_type j = open_node.

Definition effect d I (h : option Z) (o : op) (a : reply) d' I' g : Prop :=
  match holder d h, o with
  | None, Request _ _ _ => a = Got (inl MEM_BAD_MOP) /\ d' = d /\ I' = I /\ g = []
  | None, (Claim _ _ _ | Release _ _ _) => a = Status MEM_BAD_MOP /\ d' = d /\ I' = I /\ g = []
  | None, Makemop _ => a = Made (inl MEM_BAD_MOP) /\ d' = d /\ I' = I /\ g = []
  | Some m, Request base len flags =>
      if base mod 16 =? 0 then exists q page i s, let n := pages_for len in
        fits I (end_mask len flags) n s /\ page = s + shift_by (end_mask len flags) n s /\ a = Got (inr (Some q, None)) /\ g = [(page, n)] /\ 0 < n /\ handed (world d') q page n len flags /\
        (forall p, page <= p < page + n -> exists own, page_is I p (open_node, own)) /\
        starts I I' /\ I' !! page = Some i /\ i_end i = page + n /\ (left_open I I' (page + n)) /\
        forall p v, page_is I' p v <-> if decide (page <= p < page + n) then v = (allocation_node, [None; None; None; Some (m, 1)]) else page_is I p v
      else a = Got (inl MEM_BAD_BASE) /\ d' = d /\ I' = I /\ g = []
  | Some m, Claim base len times => exists res, a = Status res /\ g = [] /\ sweep (claim_check m times) (fun l => claim_own l m times) I base len res I'
  | Some m, Release base len times => exists res, a = Status res /\ g = [] /\ sweep (release_check m) (release_own m times) I base len res I'
  | Some m, Makemop None => a = Made (inl MEM_MAKEMOP_BAD_SPACE) /\ d' = d /\ I' = I /\ g = []
  | Some m, Makemop (Some q) => g = [] /\ exists res, sweep (claim_check mmap_mop 1) (fun l => claim_own l mmap_mop 1) I q MOP_SIZE res I' /\
      if res =? MEM_OK then a = Made (inr q) /\ holder d' (Some q) = Some q else a = Made (inl MEM_BAD_MOP_CANT_CLAIM)
  end.

(** Up to four tables are used, and who could call can call again. *)
Definition goes_on d d' : Prop := room d - 4 <= room d' /\ forall h m, holder d h = Some m -> holder d' h = Some m.

(** ** The directory is in order *)

(** The children of mops are mops, and the manager has one itself. *)
Definition kin (ms : gmap Z mop_internal_t) : Prop := is_Some (ms !! mmap_mop) /\ forall m o c, ms !! m = Some o -> child_mop o = Some c -> is_Some (ms !! c).

Definition inorder d I : Prop := (exists T P C, good d I T P C) /\ kin (mops d).

(** What can be reached from the first directory, with the pages handed out. *)
Inductive reached (w : W) (big_res : R) : list (Z * Z) -> dir W R -> gmap Z (@info R) -> Prop :=
  | reach_boot d : init_dir w big_res = Some d -> reached w big_res [] d (boot_info big_res)
  | reach_step g d I h o a d' I' g' : reached w big_res g d I -> ready d I h o -> exec_op h o d = Some (a, d') -> inorder d' I' -> effect d I h o a d' I' g' ->
      reached w big_res (g' ++ g) d' I'.

(** ** Lemmas *)

Lemma holder_run d h : unseal_mop h d = Some (holder d h, d).
Proof. destruct h as [m|]; [|done]; unfold unseal_mop; eapply bind_run; [done|]; cbn; destruct (mops d !! m) as [[]|]; [|done]; cbn; by destruct state. Qed.

Lemma holder_active d h m : holder d h = Some m -> h = Some m /\ active_mop d m.
Proof.
  unfold holder; destruct h as [m'|]; [cbn|done]; destruct (mops d !! m') as [o|] eqn:E; [cbn|done]; destruct (state o) eqn:Es; [|done..]; intros [= ->]; split; [done|]; by exists o.
Qed.

Lemma kin_book ms ms' : kin ms -> book_only ms ms' -> kin ms'.
Proof.
  intros [H1 H2] Hb; assert (Hs : forall m, is_Some (ms !! m) <-> is_Some (ms' !! m)) by (intros m; specialize (Hb m); rewrite !is_Some_alt; destruct (ms !! m), (ms' !! m); done).
  split; [by apply Hs|]; intros m o c Ho Hc; apply Hs; specialize (Hb m); rewrite Ho in Hb; destruct (ms !! m) as [o'|] eqn:E; [|done]; cbn in Hb; apply (H2 m o'); [done|].
  injection Hb as _ Hb _ _ _; congruence.
Qed.

Lemma inorder_book d I d' I' T P C : inorder d I -> good d' I' T P C -> book_only (mops d) (mops d') -> inorder d' I'.
Proof. intros [_ Hk] Hg Hb; split; [by exists T, P, C|by eapply kin_book]. Qed.

Lemma goes_on_refl d : goes_on d d.
Proof. split; [lia|done]. Qed.

Lemma goes_on_book d d' : room d - 4 <= room d' -> book_only (mops d) (mops d') -> goes_on d d'.
Proof.
  intros Hr Hb; split; [done|]; intros h m Hm; destruct (holder_active _ _ _ Hm) as [-> (o & Eo & Hs)]; specialize (Hb m); rewrite Eo in Hb; destruct (mops d' !! m) as [o'|] eqn:E; [|done].
  unfold holder; cbn; rewrite E; cbn; cbn in Hb; injection Hb as _ _ _ _ Hb; by rewrite Hb, Hs.
Qed.

Lemma goes_on_mop d q o' : (forall o, mops d !! q = Some o -> state o' = state o) -> goes_on d (set_mops (<[q := o']> (mops d)) d).
Proof.
  intros Hs; split; [change (room (set_mops (<[q := o']> (mops d)) d)) with (room d); lia|]; intros h m Hm; destruct (holder_active _ _ _ Hm) as [-> (o & Eo & Ha)]; unfold holder; cbn [mops set_mops mbind option_bind].
  destruct (decide (m = q)) as [->|]; [rewrite lookup_insert_eq; cbn; by rewrite (Hs o Eo), Ha|rewrite lookup_insert_ne, Eo by done; cbn; by rewrite Ha].
Qed.

Lemma same_refl I : same_pages I I.
Proof. split; [apply starts_refl|done]. Qed.

Lemma request_op d I h m base len flags : inorder d I -> ready d I h (Request base len flags) -> holder d h = Some m ->
  exists a d' I' g, exec_op h (Request base len flags) d = Some (a, d') /\ inorder d' I' /\ effect d I h (Request base len flags) a d' I' g /\ goes_on d d'.
Proof.
  intros Ho [Hroom Hr] Hh; destruct (holder_active _ _ _ Hh) as [-> Ha]; specialize (Hr m Hh) as Hr; unfold effect; rewrite Hh; destruct (base mod 16 =? 0) eqn:E; zbool.
  - destruct Hr as [Hr|(-> & Has & Hf & Hv)]; [lia|]; pose proof Ho as [(T & P & C & Hg) _].
    destruct (request_run d I T P C m len flags Hg Ha Has Hf Hv Hroom) as (d' & I' & T' & P' & C' & q & s & Er & (i & Ei & Et & Hi) & Hg' & Hh' & Hst & (i' & Ei' & Eie) & Htail & Hp & Hrm & Hb); set (page := s + _) in *.
    exists (Got (inr (Some q, None))), d', I', [(page, pages_for len)]; split; [|split; [by eapply inorder_book|split; [|by apply goes_on_book]]].
    + unfold exec_op; eapply bind_run; [exact Er|done].
    + pose proof (shift_range (end_mask len flags) (pages_for len) s (end_mask_range len flags)) as Hsh; assert (Hn : 0 < pages_for len) by (unfold pages_for; apply Z.div_str_pos; destruct Has; lia).
      exists q, page, i', s; split; [by exists i|split; [done|split; [done|split; [done|split; [done|split; [done|split; [|split; [done|split; [done|split; [done|split; [|done]]]]]]]]]]].
      * intros p Hp'; exists (i_own i), s, i; split; [done|split; [lia|unfold status_of; by rewrite Et]].
      * intros s' k Ek Hk; assert (s' = s) as -> by (apply (tiled_one I (page + pages_for len - 1) s' k s i); try done; [apply Hg|unfold page in *; lia|unfold page in *; lia]); apply Htail; [done|lia].
  - exists (Got (inl MEM_BAD_BASE)), d, I, []; split; [|split; [done|split; [done|apply goes_on_refl]]]; unfold exec_op; eapply bind_run; [|done]; unfold mem_request; eapply bind_run; [apply holder_run|]; rewrite Hh.
    change (RES_META_SIZE - 1) with (Z.ones 4); rewrite Z.land_ones by done; change (2 ^ 4) with 16; by rewrite (proj2 (Z.eqb_neq _ _) E).
Qed.

(** A loop over the pages, called by any of the operations. *)
Lemma sweep_run visitf checkf vcheck vdo d I base len times m : inorder d I -> in_place I base len -> 4 <= room d ->
  (4096 <= base -> 0 < span base len -> is_Some (I !! (base / 4096)) -> exists d' I' T' P' C' q res, mem_claim_or_release base len times m visitf checkf d = Some (res, d') /\ good d' I' T' P' C' /\
    ended vcheck I (base / 4096) (span base len) q res /\ visited vcheck vdo I (base / 4096) q I' /\ room d - 4 <= room d' /\ book_only (mops d) (mops d')) ->
  exists res d' I', mem_claim_or_release base len times m visitf checkf d = Some (res, d') /\ inorder d' I' /\ sweep vcheck vdo I base len res I' /\ room d - 4 <= room d' /\ book_only (mops d) (mops d').
Proof.
  intros Ho (Hb & Hl & Hmax & Hi) Hroom Hrun; unfold sweep; assert (Hn : 0 <= span base len) by (unfold span; assert (base / 4096 <= (base + len + 4095) / 4096) by (apply Z.div_le_mono; lia); lia).
  destruct (span base len =? 0) eqn:En; zbool; [|destruct (base <? 4096) eqn:Eb; zbool].
  - exists MEM_OK, d, I; split; [|split; [done|split; [split; [done|apply same_refl]|split; [lia|done]]]]; unfold mem_claim_or_release; rewrite align_request by lia; fold (span base len); by rewrite En.
  - exists MEM_BAD_BASE, d, I; split; [|split; [done|split; [split; [done|apply same_refl]|split; [lia|done]]]]; unfold mem_claim_or_release; rewrite align_request by lia; fold (span base len); rewrite (proj2 (Z.eqb_neq _ _) En), Z.div_small by lia; done.
  - destruct Hrun as (d' & I' & T' & P' & C' & q & res & E & Hg & He & Hv & Hrm & Hbk); [lia|lia|apply Hi; lia|]; exists res, d', I'; split; [done|split; [by eapply inorder_book|split; [by exists q|done]]].
Qed.

Lemma claim_op d I h m base len times : inorder d I -> ready d I h (Claim base len times) -> holder d h = Some m ->
  exists a d' I' g, exec_op h (Claim base len times) d = Some (a, d') /\ inorder d' I' /\ effect d I h (Claim base len times) a d' I' g /\ goes_on d d'.
Proof.
  intros Ho [Hroom Hr] Hh; destruct (holder_active _ _ _ Hh) as [-> (o & Em & _)]; specialize (Hr m Hh) as Hr; pose proof Ho as [(T & P & C & Hg) _].
  destruct (sweep_run visit_claim visit_claim_check (claim_check m times) (fun l => claim_own l m times) d I base len times m Ho Hr Hroom) as (res & d' & I' & E & Ho' & Hs & Hrm & Hb).
  - intros Hb Hn Hi; destruct Hr as (_ & Hl & Hmax & _); apply (claim_run d I T P C m base len times); done.
  - exists (Status res), d', I', []; split; [|split; [done|split; [unfold effect; rewrite Hh; by exists res|by apply goes_on_book]]].
    unfold exec_op; eapply bind_run; [|done]; unfold mem_claim; eapply bind_run; [apply holder_run|]; by rewrite Hh.
Qed.

Lemma release_op d I h m base len times : inorder d I -> ready d I h (Release base len times) -> holder d h = Some m ->
  exists a d' I' g, exec_op h (Release base len times) d = Some (a, d') /\ inorder d' I' /\ effect d I h (Release base len times) a d' I' g /\ goes_on d d'.
Proof.
  intros Ho [Hroom Hr] Hh; destruct (holder_active _ _ _ Hh) as [-> (o & Em & _)]; specialize (Hr m Hh) as [Hr Hpre]; pose proof Ho as [(T & P & C & Hg) _].
  destruct (sweep_run visit_free visit_free_check (release_check m) (release_own m times) d I base len times m Ho Hr Hroom) as (res & d' & I' & E & Ho' & Hs & Hrm & Hb).
  - intros Hb Hn Hi; destruct Hr as (_ & Hl & Hmax & _); apply (release_run d I T P C m base len times); done.
  - exists (Status res), d', I', []; split; [|split; [done|split; [unfold effect; rewrite Hh; by exists res|by apply goes_on_book]]].
    unfold exec_op; eapply bind_run; [|done]; unfold mem_release; eapply bind_run; [apply holder_run|]; by rewrite Hh.
Qed.

(** A mop that is new, or one whose relatives change. *)
Lemma good_mop d I T P C q o' l : good d I T P C -> default [] (C !! q) = l -> mop_first o' = head l /\ mop_last o' = last l ->
  (forall o, mops d !! q = Some o -> allocated_ranges o' = allocated_ranges o /\ allocated_pages o' = allocated_pages o) ->
  (mops d !! q = None -> allocated_ranges o' = 0 /\ allocated_pages o' = 0) ->
  good (set_mops (<[q := o']> (mops d)) d) I T P (<[q := l]> C).
Proof.
  intros [[O1 O2 O3 O4 O5 O6 O7 O8 O9 O10 O11 O12 O13 O14 O15 O16] Hti] <- Hends Hold Hnew; split; [|done]; split; try done; cbn [mops heap set_mops].
  - pose proof (cm_mops _ _ _ O4 q) as Hq; assert (HC : forall m l, <[q := default [] (C !! q)]> C !! m = Some l -> C !! m = Some l \/ l = []).
    { intros m l; destruct (decide (m = q)) as [->|]; [rewrite lookup_insert_eq; intros [= <-]; destruct (C !! q); auto|rewrite lookup_insert_ne by done; auto]. }
    destruct O4 as [C1 C2 C3 C4 C5 C6]; split; [..|done].
    + intros m; destruct (decide (m = q)) as [->|]; [by rewrite !lookup_insert_eq|rewrite !lookup_insert_ne by done; apply C1].
    + intros m l [H| ->]%HC; [by eapply C2|constructor].
    + intros m l [H| ->]%HC; [by eapply C3|done].
    + intros m l x [H| ->]%HC Hx; [by eapply C4|by apply elem_of_nil in Hx].
    + intros m r i Hi Hw; destruct (C5 m r i Hi Hw) as (l & El & Hl); exists l; split; [|done]; destruct (decide (m = q)) as [->|]; [by rewrite lookup_insert_eq, El|by rewrite lookup_insert_ne].
  - intros m o l Eo El; destruct (decide (m = q)) as [->|]; [|rewrite lookup_insert_ne in Eo by done; rewrite lookup_insert_ne in El by done; by apply (O5 m)]; rewrite lookup_insert_eq in Eo; rewrite lookup_insert_eq in El; injection Eo as <-; injection El as <-.
    pose proof (cm_mops _ _ _ O4 q) as Hq; destruct (mops d !! q) as [o|] eqn:E, (C !! q) as [l|] eqn:E'; try done; [destruct (Hold o eq_refl) as [-> ->]; by apply (O5 q)|by destruct Hnew as [-> ->]].
Qed.

(** The mop of [q] is changed where it exists already. *)
Lemma family_run d I m o f : inorder d I -> mops d !! m = Some o -> (forall o, mop_first (f o) = mop_first o /\ mop_last (f o) = mop_last o /\ allocated_ranges (f o) = allocated_ranges o /\ allocated_pages (f o) = allocated_pages o) ->
  (forall c, child_mop (f o) = Some c -> is_Some (mops d !! c)) -> state (f o) = state o -> let d' := set_mops (<[m := f o]> (mops d)) d in mput m f d = Some (tt, d') /\ inorder d' I /\ goes_on d d'.
Proof.
  intros [(T & P & C & Hg) [Hk1 Hk2]] Em Hf Hc Hst d'; split; [unfold mput; eapply bind_run; [|done]; unfold mget; eapply bind_run; [done|]; cbn beta; by rewrite Em|]; destruct (Hf o) as (F1 & F2 & F3 & F4); split; [split|apply goes_on_mop; intros o' Eo; rewrite Em in Eo; injection Eo as <-; done].
  - pose proof (cm_mops _ _ _ (ok_claims _ _ _ _ _ _ _ (proj1 Hg)) m) as Hq; rewrite Em in Hq; destruct (C !! m) as [l|] eqn:E; [|done].
    exists T, P, (<[m := l]> C); apply good_mop; [done|by rewrite E|rewrite F1, F2; apply Hq|intros o' Eo; rewrite Em in Eo; injection Eo as <-; done|congruence].
  - cbn [mops set_mops d']; split; [apply lookup_insert_is_Some'; auto|]; intros m' o' c; rewrite lookup_insert_Some; intros [[-> <-]|[_ Eo]] Ec; apply lookup_insert_is_Some'; right; [by apply Hc|by eapply Hk2].
Qed.

Lemma new_mop_run d I m q : inorder d I -> is_Some (mops d !! m) -> mops d !! q = None ->
  exists d', (o ← mget m;
    _ ← modify (fun d => set_mops (<[q := set_family (Some m) None (child_mop o) None mop0]> (mops d)) d);
    _ ← match child_mop o with None => mret tt | Some c => mput c (fun o => set_family (parent_mop o) (child_mop o) (next_sibling_mop o) (Some q) o) end;
    _ ← mput m (fun o => set_family (parent_mop o) (Some q) (next_sibling_mop o) (prev_sibling_mop o) o);
    mret (inr q : Z + Z)) d = Some (inr q, d') /\ inorder d' I /\ holder d' (Some q) = Some q /\ room d' = room d /\ forall h m, holder d h = Some m -> holder d' h = Some m.
Proof.
  intros Ho [o Em] Eq; pose proof Ho as [(T & P & C & Hg) [Hk1 Hk2]]; set (oq := set_family (Some m) None (child_mop o) None mop0); set (d1 := set_mops (<[q := oq]> (mops d)) d).
  assert (Hmq : m <> q) by congruence; assert (Ho1 : inorder d1 I).
  { split; [exists T, P, (<[q := []]> C); pose proof (cm_mops _ _ _ (ok_claims _ _ _ _ _ _ _ (proj1 Hg)) q) as Hq; rewrite Eq in Hq; apply good_mop; [done|by destruct (C !! q)|done|congruence|done]|].
    cbn [mops set_mops d1]; split; [apply lookup_insert_is_Some'; auto|]; intros m' o' c; rewrite lookup_insert_Some; intros [[-> <-]|[_ Eo]] Ec; [done|apply lookup_insert_is_Some'; right; by eapply Hk2]. }
  assert (H2 : exists d2, (match child_mop o with None => mret tt | Some c => mput c (fun o => set_family (parent_mop o) (child_mop o) (next_sibling_mop o) (Some q) o) end) d1 = Some (tt, d2) /\
    inorder d2 I /\ is_Some (mops d2 !! m) /\ mops d2 !! q = Some oq /\ room d2 = room d /\ forall h m, holder d1 h = Some m -> holder d2 h = Some m).
  { destruct (child_mop o) as [c|] eqn:Ec; [|exists d1; split; [done|split; [done|split; [|split; [by cbn; rewrite lookup_insert_eq|done]]]]; cbn; rewrite lookup_insert_ne by done; by eexists].
    destruct (Hk2 _ _ _ Em Ec) as [oc Eoc]; assert (c <> q) by congruence; assert (Eoc1 : mops d1 !! c = Some oc) by (cbn; by rewrite lookup_insert_ne).
    destruct (family_run d1 I c oc (fun o => set_family (parent_mop o) (child_mop o) (next_sibling_mop o) (Some q) o)) as (E1 & E2 & _ & E4); [done..| |done|].
    { intros c' Hc'; apply (proj2 (proj2 Ho1) c oc); [done|exact Hc']. }
    eexists; split; [exact E1|split; [exact E2|split; [cbn; apply lookup_insert_is_Some'; right; rewrite lookup_insert_ne by done; by eexists|split; [cbn; by rewrite lookup_insert_ne, lookup_insert_eq|done]]]]. }
  destruct H2 as (d2 & E2 & Ho2 & [o2 Em2] & Eq2 & Hr2 & Hh2); destruct (family_run d2 I m o2 (fun o => set_family (parent_mop o) (Some q) (next_sibling_mop o) (prev_sibling_mop o) o)) as (E3 & Ho3 & _ & Hh3); [done..| |done|].
  { intros c' [= <-]; by eexists. }
  assert (Hh1 : forall h m, holder d h = Some m -> holder d1 h = Some m) by (apply goes_on_mop; congruence).
  eexists; split; [|split; [exact Ho3|split; [unfold holder; cbn; by rewrite lookup_insert_ne, Eq2|split; [exact Hr2|auto]]]].
  eapply bind_run; [unfold mget; eapply bind_run; [done|]; cbn beta; by rewrite Em|]; eapply bind_run; [done|]; eapply bind_run; [exact E2|]; eapply bind_run; [exact E3|done].
Qed.

Lemma makemop_op d I h m space : inorder d I -> ready d I h (Makemop space) -> holder d h = Some m ->
  exists a d' I' g, exec_op h (Makemop space) d = Some (a, d') /\ inorder d' I' /\ effect d I h (Makemop space) a d' I' g /\ goes_on d d'.
Proof.
  intros Ho [Hroom Hr] Hh; destruct (holder_active _ _ _ Hh) as [-> (o & Em & Hact)]; specialize (Hr m Hh) as Hr; pose proof Ho as [(T & P & C & Hg) Hk]; unfold effect; rewrite Hh; destruct space as [q|].
  2: { exists (Made (inl MEM_MAKEMOP_BAD_SPACE)), d, I, []; split; [|split; [done|split; [done|apply goes_on_refl]]]; unfold exec_op; eapply bind_run; [|done]; unfold mem_makemop; eapply bind_run; [apply holder_run|]; by rewrite Hh. }
  destruct (Hr q eq_refl) as (Hq & Hin & Hnew); destruct (sweep_run visit_claim visit_claim_check (claim_check mmap_mop 1) (fun l => claim_own l mmap_mop 1) d I q MOP_SIZE 1 mmap_mop Ho Hin Hroom) as (res & d1 & I' & E & Ho' & Hs & Hrm & Hb).
  { intros Hb Hn Hi; destruct Hin as (_ & Hl & Hmax & _); apply (claim_run d I T P C mmap_mop q MOP_SIZE 1); try done; apply Hk. }
  destruct (res =? MEM_OK) eqn:Er; [|exists (Made (inl MEM_BAD_MOP_CANT_CLAIM)), d1, I', []; split; [|split; [done|split; [split; [done|exists res; by rewrite Er]|by apply goes_on_book]]]].
  2: { unfold exec_op; eapply bind_run; [|done]; unfold mem_makemop; eapply bind_run; [apply holder_run|]; rewrite Hh; eapply bind_run; [exact E|]; by rewrite Er. }
  destruct (new_mop_run d1 I' m q) as (d' & E' & Ho2 & Hh' & Hr' & Hon); [done|..].
  - pose proof (Hb m) as Hm; rewrite Em in Hm; destruct (mops d1 !! m); [done|discriminate].
  - pose proof (Hb q) as Hm; rewrite Hnew in Hm; by destruct (mops d1 !! q).
  - exists (Made (inr q)), d', I', []; split; [|split; [done|split; [split; [done|exists res; by rewrite Er]|]]].
    2: { split; [lia|]; intros h m' Hm; by apply Hon, (goes_on_book d d1). }
    unfold exec_op; eapply bind_run; [|done]; unfold mem_makemop; eapply bind_run; [apply holder_run|]; rewrite Hh; eapply bind_run; [exact E|]; rewrite Er; exact E'.
Qed.

(** ** Every operation *)

Lemma exec_op_ok d I h o : inorder d I -> ready d I h o -> exists a d' I' g, exec_op h o d = Some (a, d') /\ inorder d' I' /\ effect d I h o a d' I' g /\ goes_on d d'.
Proof.
  intros Ho Hr; destruct (holder d h) as [m|] eqn:Hh.
  - destruct o; [by eapply request_op|by eapply claim_op|by eapply release_op|by eapply makemop_op].
  - assert (Hu : unseal_mop h d = Some (None, d)) by (by rewrite holder_run, Hh); unfold effect; rewrite Hh; unfold exec_op, mem_request, mem_claim, mem_release, mem_makemop.
    destruct o; (eexists _, d, I, []; split; [eapply bind_run; [eapply bind_run; [exact Hu|done]|done]|split; [done|split; [by split|apply goes_on_refl]]]).
Qed.

Lemma boot_inorder w n big_res : chunks w = S n -> covers w big_res 4096 VIRT_END -> exists d, init_dir w big_res = Some d /\ inorder d (boot_info big_res).
Proof.
  intros Hn Hc; destruct (chunk_law w n Hn) as (w' & E & _ & Hw); exists (boot_dir w' big_res); split; [by apply init_run|]; split.
  - eexists _, _, _; apply boot_good, Hw, Hc.
  - split; [by eexists|]; cbn [mops boot_dir]; intros m o c; rewrite lookup_insert_Some, lookup_singleton_Some; naive_solver.
Qed.

Lemma reached_inorder w n big_res g d I : chunks w = S n -> covers w big_res 4096 VIRT_END -> reached w big_res g d I -> inorder d I.
Proof. intros Hn Hc [d0 E|]; [|done]; destruct (boot_inorder w n big_res Hn Hc) as (d1 & E1 & H); congruence. Qed.








(** ** The promises *)

(** C7: the memory manager keeps a book of pages.  With a reservation
    for virtual memory and room for a table, [init_dir] goes through.  After any
    sequence of calls that were [ready] - requests for less than 64 MB without
    commit flags, with no base or an unaligned one, that some open range fits;
    claims and releases that begin where a range starts, the releases leaving a
    holder on each page; new mops at the start of a range; all with any handle,
    and with room for four tables - the tables, pools, claim lists and accounts are in order, and every call
    that is [ready] returns, changes the pages as [effect] says, errors
    included, uses up to four tables and leaves every mop usable. *)
Theorem directory_refined w n big_res g d I : chunks w = S n -> covers w big_res 4096 VIRT_END -> reached w big_res g d I ->
  is_Some (init_dir w big_res) /\ inorder d I /\
  forall h o, ready d I h o -> exists a d' I' g', exec_op h o d = Some (a, d') /\ effect d I h o a d' I' g' /\ goes_on d d' /\ reached w big_res (g' ++ g) d' I'.
Proof.
  intros Hn Hc Hr; pose proof (reached_inorder w n big_res g d I Hn Hc Hr) as Ho; split; [|split; [done|]].
  - destruct (boot_inorder w n big_res Hn Hc) as (d0 & -> & _); by eexists.
  - intros h o Hrd; destruct (exec_op_ok d I h o Ho Hrd) as (a & d' & I' & g' & E & Ho' & He & Hon); exists a, d', I', g'; split; [done|split; [done|split; [done|]]]; by eapply reach_step.
Qed.


(** C22: a range is cut to size.  Where pages [page] to [page + n] are in
    one range, [size_node] returns a descriptor of exactly these pages, wherever
    in the tables it has to be; the directory stays in order, ranges still start
    where ranges started, with at most two new ones, at [page] and at
    [page + n], and no page changes its state or its owners.  There has to
    be room for four more tables, and pages of an open range have to end 16
    bytes before the end of the reserved memory. *)
Theorem range_sized d I T P C s i page n ix : good d I T P C -> I !! s = Some i -> s <= page -> 0 < n -> page + n <= i_end i -> (i_type i = open_node -> (page + n) * 4096 + 16 <= VIRT_END) ->
  found d T s (i_end i) ix -> 4 <= room d ->
  exists d' J T' P' C' ix', size_node page n ix d = Some (ix', d') /\ good d' J T' P' C' /\ leaf_at (heap d') T' page (page + n) ix'.1 /\ same_pages I J /\
    (exists j, J !! page = Some j /\ i_end j = page + n /\ status_of j = status_of i) /\ room d - 4 <= room d' /\ book_only (mops d) (mops d') /\
    (forall t, is_Some (J !! t) -> is_Some (I !! t) \/ t = page /\ s < page \/ t = page + n /\ page + n < i_end i).
Proof.
  intros Hg E Hs Hn He Hv Hf Hroom; destruct (size_run d I T P C s i page n ix Hg E Hs Hn He Hv Hf Hroom) as (d' & T' & P' & C' & ix' & res1 & res2 & E' & Hg' & Hl & Hr' & Hb).
  destruct (size_pages I s i page n res1 res2 (proj2 Hg) E Hs Hn He) as (_ & Hst & Hj & _ & Hp); eexists d', _, T', P', C', ix'; split_and!; try done.
  intros t; by apply (size_new I s i).
Qed.

End Spec.

(** ** On the nanokernel's reservations *)

Module Demo.

Definition rest : nano_rest :=
  mk_rest (fun w _ _ => Some w) (fun w _ => Some (w, 0)) Some (fun w _ => Some w) (fun w _ _ => Some w) (fun w _ _ _ => Some (w, 0)) (fun _ _ => 0) (fun _ => 2 ^ 64 - 1).

#[local] Instance nano : Nano nano_world Reserve.res_t := res_nano [true] true rest.
#[local] Instance laws : NanoLaws nano_world Reserve.res_t := res_laws [true] ltac:(left) true rest.

(** Memory with the first reservation, and its handle. *)
Definition first := Reserve.make_first_reservation ∅ 0.
Definition w0 : nano_world := mk_world first.1.1 3.
Definition r0 : Reserve.res_t := match first.2 with Reserve.Answer r => r | _ => Reserve.mk_res 0 0 end.

Lemma r0_covers : covers w0 r0 4096 VIRT_END.
Proof. destruct (first_covers [true] ltac:(left) true rest 3) as (r & m & made & E & H); unfold w0, r0, first; rewrite E; exact H. Qed.

Definition d0 : dir nano_world Reserve.res_t := boot_dir (mk_world first.1.1 2) r0.

Lemma d0_reached : reached w0 r0 [] d0 (boot_info r0).
Proof. constructor; by apply init_run. Qed.

Lemma asks_small len : 0 <= len < 2 ^ 20 -> asks len 0.
Proof. intros Hl; split; [lia| |done|done|done]; unfold pages_for; change LARGE_PAGES with 16384; apply Z.div_lt_upper_bound; lia. Qed.

Lemma no_shift len n s : shift_by (end_mask len 0) n s = 0.
Proof. change (end_mask len 0) with 0; unfold shift_by; apply Z.land_0_r. Qed.

Lemma d0_ready : ready d0 (boot_info r0) (Some first_mop) (Request 0 8000 0).
Proof.
  split; [by vm_compute|]; intros m _; right; split; [done|split; [by apply asks_small|split]].
  - exists 1; eexists; split; [done|split; [done|]]; rewrite no_shift; by vm_compute.
  - intros s (i & [[-> ->]|[-> ->]]%boot_info_at & Ht & _); [done|]; rewrite no_shift; by vm_compute.
Qed.





Lemma directory_refined_witness : exists g d I h o, ready d I h o /\ exists a d' I' g', exec_op h o d = Some (a, d') /\ effect d I h o a d' I' g' /\ goes_on d d' /\ reached w0 r0 (g' ++ g) d' I'.
Proof.
  exists [], d0, (boot_info r0), (Some first_mop), (Request 0 8000 0); split; [exact d0_ready|].
  exact (proj2 (proj2 (directory_refined w0 2 r0 [] d0 (boot_info r0) eq_refl r0_covers d0_reached)) (Some first_mop) (Request 0 8000 0) d0_ready).
Defined.


Lemma d0_good : good d0 (boot_info r0) boot_tables boot_pools boot_claims.
Proof. apply boot_good; exact r0_covers. Qed.

Lemma d0_found : found d0 boot_tables 1 (2 ^ 27) ((2, 1), path_of 1).
Proof. apply (leaf_found d0 (boot_info r0) boot_tables boot_pools boot_claims); [exact d0_good|]; split; [done|split; [done|split; [done|]]]; exists 2; by exists 0. Qed.

Lemma range_sized_witness : exists d' J T' P' C' ix', size_node 5 3 ((2, 1), path_of 1) d0 = Some (ix', d') /\ good d' J T' P' C' /\ leaf_at (heap d') T' 5 8 ix'.1 /\ same_pages (boot_info r0) J.
Proof.
  destruct (range_sized d0 (boot_info r0) boot_tables boot_pools boot_claims 1 (mk_info (2 ^ 27) open_node (Some r0) 0 0 [None; None; None; None]) 5 3 ((2, 1), path_of 1)) as (d' & J & T' & P' & C' & ix' & H1 & H2 & H3 & H4 & _).
  - exact d0_good.
  - reflexivity.
  - lia.
  - lia.
  - cbn [i_end]; lia.
  - intros _; by vm_compute.
  - exact d0_found.
  - by vm_compute.
  - exists d', J, T', P', C', ix'; split; [exact H1|split; [exact H2|split; [exact H3|exact H4]]].
Defined.

(** *** A page inside a range *)

(** The first page, the length and the owners of a descriptor. *)
Definition look (d : dir nano_world Reserve.res_t) (r : dref) : Z * Z * list (option (Z * Z)) := (start (at_ (heap d) r), d_length (at_ (heap d) r), owns (heap d) r).

(** The lookup of a page that does not start its range can find
    another range.  In the first directory a request for 2000 pages gets the
    pages from 1 to 2001.  [soft_index] finds their range for page 511 and the
    sentinel, page 0, for page 512.  A claim of page 512 succeeds, makes the
    sentinel 512 pages long, so that it overlaps the range handed out, and puts
    the claim on a third descriptor. *)
Theorem soft_index_astray : exists d1 q d2,
  mem_request (Some first_mop) 0 (2000 * 4096 - 100) 0 d0 = Some (inr (Some q, None), d1) /\
  look d1 (2, 0) = (0, 1, [None; None; None; None]) /\ look d1 (2, 1) = (1, 2000, [None; None; None; Some (first_mop, 1)]) /\
  option_map fst (soft_index 511 d1) = Some ((2, 1), [0; 0; 1]) /\ option_map fst (soft_index 512 d1) = Some ((2, 0), [0; 0; 0]) /\
  mem_claim (512 * 4096) 4096 1 (Some first_mop) d1 = Some (MEM_OK, d2) /\
  look d2 (2, 0) = (0, 512, [None; None; None; None]) /\ look d2 (2, 1) = (1, 2000, [None; None; None; Some (first_mop, 1)]) /\
  look d2 (3, 0) = (512, 1, [None; None; None; Some (first_mop, 1)]).
Proof.
  eexists _, _, _; split; [vm_compute; reflexivity|]; do 4 (split; [vm_compute; reflexivity|]); split; [vm_compute; reflexivity|]; by vm_compute.
Qed.

End Demo.
