(* ===== verification/Sha256.v ===== *)
(** * SHA-256 (FIPS 180-4)

    The reference for sha256/src/platform.  The constants are the ones the
    standard describes: the first bits of the fractional parts of square and
    cube roots of primes, computed here. *)

From S2P Require Import Prelude.

(** ** Constants *)

(** The largest [r] below [2 ^ n] with [r ^ k <= x]. *)
Fixpoint root (n : nat) (k x r : Z) : Z :=
  match n with
  | O => r
  | S n => let r' := r + 2 ^ Z.of_nat n in if r' ^ k <=? x then root n k x r' else root n k x r
  end.

Definition is_prime (p : Z) : bool := (2 <=? p) && forallb (fun d => negb (p mod d =? 0)) (seqZ 2 (p - 2)).

Definition primes : list Z := filter (fun p => is_prime p = true) (seqZ 0 312).

(** The first 32 bits of the fractional part of the [k]-th root of [p]. *)
Definition root_fraction (k p : Z) : Z := root 40 k (p * 2 ^ (32 * k)) 0 mod 2 ^ 32.

Definition K256 : list Z := root_fraction 3 <$> primes.
Definition H256 : list Z := root_fraction 2 <$> take 8 primes.

(** ** Functions on words *)

Definition rotr (n x : Z) : Z := Z.lor (Z.shiftr x n) (u32 (Z.shiftl x (32 - n))).
Definition Ch (x y z : Z) : Z := Z.lxor (Z.land x y) (Z.land (u32 (Z.lnot x)) z).
Definition Maj (x y z : Z) : Z := Z.lxor (Z.lxor (Z.land x y) (Z.land x z)) (Z.land y z).
Definition Sigma0 (x : Z) : Z := Z.lxor (Z.lxor (rotr 2 x) (rotr 13 x)) (rotr 22 x).
Definition Sigma1 (x : Z) : Z := Z.lxor (Z.lxor (rotr 6 x) (rotr 11 x)) (rotr 25 x).
Definition sigma0 (x : Z) : Z := Z.lxor (Z.lxor (rotr 7 x) (rotr 18 x)) (Z.shiftr x 3).
Definition sigma1 (x : Z) : Z := Z.lxor (Z.lxor (rotr 17 x) (rotr 19 x)) (Z.shiftr x 10).

(** ** Blocks *)

Record vars := mk_vars { va : Z; vb : Z; vc : Z; vd : Z; ve : Z; vf : Z; vg : Z; vh : Z }.

Definition round (s : vars) (k w : Z) : vars :=
  let T1 := u32 (vh s + Sigma1 (ve s) + Ch (ve s) (vf s) (vg s) + k + w) in
  let T2 := u32 (Sigma0 (va s) + Maj (va s) (vb s) (vc s)) in
  mk_vars (u32 (T1 + T2)) (va s) (vb s) (vc s) (u32 (vd s + T1)) (ve s) (vf s) (vg s).

Definition word (W : list Z) (t : Z) : Z := default 0 (W !! Z.to_nat t).

(** The word after the words [W]. *)
Definition next_word (W : list Z) : Z :=
  let t := Z.of_nat (length W) in
  u32 (sigma1 (word W (t - 2)) + word W (t - 7) + sigma0 (word W (t - 15)) + word W (t - 16)).

Definition extend (W : list Z) : list Z := W ++ [next_word W].

Definition schedule (M : list Z) : list Z := Nat.iter 48 extend M.

Definition add_vars (x y : vars) : vars :=
  mk_vars (u32 (va x + va y)) (u32 (vb x + vb y)) (u32 (vc x + vc y)) (u32 (vd x + vd y))
          (u32 (ve x + ve y)) (u32 (vf x + vf y)) (u32 (vg x + vg y)) (u32 (vh x + vh y)).

Definition compress (H : vars) (M : list Z) : vars :=
  add_vars H (fold_left (fun s '(k, w) => round s k w) (zip K256 (schedule M)) H).

(** ** Messages *)

Definition be_bytes (n : nat) (x : Z) : list Z := reverse ((fun i => Z.shiftr x (8 * Z.of_nat i) mod 2 ^ 8) <$> seq 0 n).
Definition be_value (l : list Z) : Z := fold_left (fun x b => x * 2 ^ 8 + b) l 0.

Fixpoint chunks {A} (n : nat) (k : nat) (l : list A) : list (list A) :=
  match n with O => [] | S n => take k l :: chunks n k (drop k l) end.

(** The padding: a one bit, zeros, and the length in bits. *)
Definition pad (msg : list Z) : list Z :=
  let l := Z.of_nat (length msg) in
  msg ++ 0x80 :: replicate (Z.to_nat ((55 - l) mod 64)) 0 ++ be_bytes 8 (8 * l).

Definition blocks (msg : list Z) : list (list Z) :=
  (fun b => be_value <$> chunks 16 4 b) <$> chunks (length msg / 64) 64 msg.

Definition init_vars : vars :=
  match H256 with
  | [a; b; c; d; e; f; g; h] => mk_vars a b c d e f g h
  | _ => mk_vars 0 0 0 0 0 0 0 0
  end.

Definition digest (H : vars) : list Z := mjoin (be_bytes 4 <$> [va H; vb H; vc H; vd H; ve H; vf H; vg H; vh H]).

Definition sha256_spec (msg : list Z) : list Z := digest (fold_left compress (blocks (pad msg)) init_vars).
