(* ===== verification/Sha256Mips.v ===== *)
(** * The MIPS SHA-256 routine (sha256/src/platform/mips/sha256.S)

    The routine keeps its whole state in registers: two 32-bit words to a
    64-bit register, the message window as a shift register of eight of them
    and the hash values permuted.  [copy] is the build for the nanokernel
    ([SHA_COPY]), which copies the input while it hashes it and can be given
    the first block in the registers of the window.

    One [let] per instruction; branch delay slots are executed where the
    processor executes them.  A 32-bit instruction takes the low half of its
    operands and extends the sign of its result.  [None] is a trap. *)

From S2P Require Import Prelude Sha256.

(** ** Instructions *)

Definition sext32 (x : Z) : Z := u64 (signed 32 (u32 x)).
Definition daddu (a b : Z) : Z := u64 (a + b).
Definition dsubu (a b : Z) : Z := u64 (a - b).
Definition dsll (x n : Z) : Z := u64 (Z.shiftl x n).
Definition dsrl (x n : Z) : Z := Z.shiftr x n.
Definition addu (a b : Z) : Z := sext32 (a + b).
Definition sll (x n : Z) : Z := sext32 (Z.shiftl x n).
Definition srl (x n : Z) : Z := sext32 (Z.shiftr (u32 x) n).
Definition bltz (x : Z) : bool := signed 64 x <? 0.
Definition bgtz (x : Z) : bool := 0 <? signed 64 x.

(** Big-endian doublewords of memory. *)
Definition cld (m : list Z) (a : Z) : option Z :=
  if (0 <=? a) && (a + 8 <=? Z.of_nat (length m)) then Some (be_value (take 8 (drop (Z.to_nat a) m))) else None.

Definition csd (m : list Z) (a x : Z) : option (list Z) :=
  if (0 <=? a) && (a + 8 <=? Z.of_nat (length m)) then Some (take (Z.to_nat a) m ++ be_bytes 8 x ++ drop (Z.to_nat a + 8) m) else None.

(** ** Macros *)

(** One row for each [.word] directive. *)
Definition k_words : list Z := mjoin
  [[0x428a2f98; 0x71374491; 0xb5c0fbcf; 0xe9b5dba5];
   [0x3956c25b; 0x59f111f1; 0x923f82a4; 0xab1c5ed5];
   [0xd807aa98; 0x12835b01; 0x243185be; 0x550c7dc3];
   [0x72be5d74; 0x80deb1fe; 0x9bdc06a7; 0xc19bf174];
   [0xe49b69c1; 0xefbe4786; 0x0fc19dc6; 0x240ca1cc];
   [0x2de92c6f; 0x4a7484aa; 0x5cb0a9dc; 0x76f988da];
   [0x983e5152; 0xa831c66d; 0xb00327c8; 0xbf597fc7];
   [0xc6e00bf3; 0xd5a79147; 0x06ca6351; 0x14292967];
   [0x27b70a85; 0x2e1b2138; 0x4d2c6dfc; 0x53380d13];
   [0x650a7354; 0x766a0abb; 0x81c2c92e; 0x92722c85];
   [0xa2bfe8a1; 0xa81a664b; 0xc24b8b70; 0xc76c51a3];
   [0xd192e819; 0xd6990624; 0xf40e3585; 0x106aa070];
   [0x19a4c116; 0x1e376c08; 0x2748774c; 0x34b0bcb5];
   [0x391c0cb3; 0x4ed8aa4a; 0x5b9cca4f; 0x682e6ff3];
   [0x748f82ee; 0x78a5636f; 0x84c87814; 0x8cc70208];
   [0x90befffa; 0xa4506ceb; 0xbef9a3f7; 0xc67178f2]].

(** [clwu] from the constants, at a byte offset. *)
Definition clwu (K : Z) : option Z := if (K <? 0) || negb (K mod 4 =? 0) then None else k_words !! Z.to_nat (K / 4).

Definition Mrotr (S V : Z) : Z :=
  let rot_tmp := srl S V in
  let D := sll S (32 - V) in
  Z.lor D rot_tmp.

Definition TRUNCATE32 (R : Z) : Z :=
  let R := dsll R 32 in
  dsrl R 32.

Definition VECTOR_ADD (A B mask : Z) : Z :=
  let tmp0 := Z.land A mask in
  let tmp1 := Z.land B mask in
  let A := addu A B in
  let tmp0 := daddu tmp0 tmp1 in
  let A := TRUNCATE32 A in
  Z.lor A tmp0.

(** The new value of [_dh]. *)
Definition HASH_ROUND (_ae _bf _cg _dh _k _wi : Z) : Z :=
  let tmp3 := _k in
  let tmp1 := Z.lxor _bf _cg in
  let tmp3 := daddu tmp3 _wi in
  let tmp0 := Mrotr _ae 6 in
  let tmp1 := Z.land tmp1 _ae in
  let tmp2 := Mrotr _ae 11 in
  let tmp1 := Z.lxor tmp1 _cg in
  let tmp0 := Z.lxor tmp0 tmp2 in
  let tmp3 := daddu tmp3 tmp1 in
  let tmp2 := Mrotr _ae 25 in
  let tmp3 := daddu tmp3 _dh in
  let tmp0 := Z.lxor tmp0 tmp2 in
  let tmp1 := dsrl _ae 32 in
  let tmp3 := daddu tmp3 tmp0 in
  let tmp0 := Mrotr tmp1 2 in
  let tmp2 := Mrotr tmp1 13 in
  let tmp1 := Mrotr tmp1 22 in
  let tmp0 := Z.lxor tmp0 tmp2 in
  let tmp2 := Z.lor _ae _bf in
  let tmp0 := Z.lxor tmp0 tmp1 in
  let tmp1 := Z.land _ae _bf in
  let _dh := dsrl _dh 32 in
  let tmp2 := Z.land tmp2 _cg in
  let _dh := daddu _dh tmp3 in
  let tmp2 := Z.lor tmp2 tmp1 in
  let tmp3 := daddu tmp3 tmp0 in
  let tmp2 := dsrl tmp2 32 in
  let tmp3 := daddu tmp3 tmp2 in
  let _dh := TRUNCATE32 _dh in
  let tmp3 := dsll tmp3 32 in
  Z.lor _dh tmp3.

(** The new value of [_w16_17]; [_w0_1] is clobbered. *)
Definition CALC_WINDOW (_w0_1 _w2_3 _w8_9 _w10_11 _w14_15 : Z) : Z :=
  let tmp1 := dsrl _w14_15 32 in
  let _w16_17 := Mrotr _w0_1 7 in
  let tmp0 := Mrotr tmp1 17 in
  let tmp2 := Mrotr tmp1 19 in
  let tmp1 := srl tmp1 10 in
  let tmp0 := Z.lxor tmp0 tmp2 in
  let tmp2 := Mrotr _w0_1 18 in
  let tmp0 := Z.lxor tmp0 tmp1 in
  let _w16_17 := Z.lxor _w16_17 tmp2 in
  let tmp2 := dsrl _w10_11 32 in
  let tmp1 := srl _w0_1 3 in
  let tmp2 := daddu tmp2 _w0_1 in
  let _w0_1 := dsrl _w0_1 32 in
  let _w16_17 := Z.lxor _w16_17 tmp1 in
  let _w0_1 := daddu _w0_1 _w8_9 in
  let _w16_17 := daddu _w16_17 tmp0 in
  let tmp1 := dsrl _w2_3 32 in
  let _w16_17 := daddu _w16_17 _w0_1 in
  let tmp0 := Mrotr tmp1 7 in
  let _w0_1 := Mrotr tmp1 18 in
  let tmp1 := srl tmp1 3 in
  let tmp0 := Z.lxor tmp0 _w0_1 in
  let _w0_1 := Mrotr _w14_15 17 in
  let tmp0 := Z.lxor tmp0 tmp1 in
  let tmp1 := Mrotr _w14_15 19 in
  let _w16_17 := dsll _w16_17 32 in
  let _w0_1 := Z.lxor _w0_1 tmp1 in
  let tmp1 := srl _w14_15 10 in
  let tmp2 := daddu tmp2 tmp0 in
  let _w0_1 := Z.lxor _w0_1 tmp1 in
  let tmp2 := daddu tmp2 _w0_1 in
  let tmp2 := TRUNCATE32 tmp2 in
  Z.lor _w16_17 tmp2.

(** ** The routine *)

(** The window: [w0_1], [w2_3], ..., [w14_15]. *)
Abbreviation window := (list Z).

(** Two hash values to a register: [h0_4] to [h3_7], or [ae] to [dh]. *)
Record regs := mk_regs { ae : Z; bf : Z; cg : Z; dh : Z }.

(** Four rounds; after them the registers are in place again. *)
Definition four_rounds (K : Z) (r : regs) (w0_1 w2_3 : Z) : option regs :=
  let '(mk_regs ae bf cg dh) := r in
  k0 ← clwu K; k1 ← clwu (K + 4); k2 ← clwu (K + 8); k3 ← clwu (K + 12);
  let tmp2 := dsrl w0_1 32 in
  let dh := HASH_ROUND ae bf cg dh k0 tmp2 in
  let cg := HASH_ROUND dh ae bf cg k1 w0_1 in
  let tmp2 := dsrl w2_3 32 in
  let bf := HASH_ROUND cg dh ae bf k2 tmp2 in
  let ae := HASH_ROUND bf cg dh ae k3 w2_3 in
  Some (mk_regs ae bf cg dh).

Fixpoint continue_chunk (n : nat) (ctr K : Z) (r : regs) (w : window) : option (Z * regs) :=
  match n, w with
  | S n, [w0_1; w2_3; w4_5; w6_7; w8_9; w10_11; w12_13; w14_15] =>
      r ← four_rounds K r w0_1 w2_3;
      let ctr := daddu ctr 4 in
      let tmp0 := Z.land ctr 63 in
      if tmp0 =? 0 then Some (ctr, r)
      else
        let tmp3 := w2_3 in
        let w2_3 := w6_7 in
        let w6_7 := w10_11 in
        let w10_11 := w14_15 in
        let w14_15 := w0_1 in
        let w0_1 := w4_5 in
        let w4_5 := w8_9 in
        let w8_9 := w12_13 in
        let K := K + 16 in
        if bgtz (u64 (tmp0 - 51)) then continue_chunk n ctr K r [w0_1; w2_3; w4_5; w6_7; w8_9; w10_11; w12_13; w14_15]
        else
          let w12_13 := CALC_WINDOW w14_15 tmp3 w4_5 w6_7 w10_11 in
          let w14_15 := CALC_WINDOW tmp3 w0_1 w6_7 w8_9 w12_13 in
          continue_chunk n ctr K r [w0_1; w2_3; w4_5; w6_7; w8_9; w10_11; w12_13; w14_15]
  | _, _ => None
  end.

(** The last [n] loads of [whole_chunk]. *)
Fixpoint load_words (copy : bool) (n : nat) (src : list Z) (ctr : Z) (w : window) (dst : list Z) : option (window * list Z) :=
  match n with
  | O => Some (w, dst)
  | S n =>
      x ← cld src (ctr + 8 * Z.of_nat n);
      dst ← (if copy then csd dst (ctr + 8 * Z.of_nat n) x else Some dst);
      load_words copy n src ctr (<[n := x]> w) dst
  end.

(** [tmp1] bytes are left.  The jumps into the two tables are taken only for a
    multiple of eight. *)
Definition load_chunk (copy : bool) (src : list Z) (len_arg ctr tmp1 : Z) (w : window) (dst : list Z) : option (window * list Z) :=
  let tmp0 := u64 (tmp1 - (0x40 - 1)) in
  if bgtz tmp0 then load_words copy 8 src ctr w dst
  else
    let w := replicate 7 0 ++ [dsll len_arg 3] in
    if bltz tmp1 then Some (w, dst)
    else if negb (tmp1 mod 8 =? 0) then None
    else
      let tmp3 := 2 ^ 63 in
      let w := <[Z.to_nat (tmp1 / 8) := tmp3]> w in
      load_words copy (Z.to_nat (tmp1 / 8)) src ctr w dst.

Definition high_mask : Z := 2 ^ 64 - 2 ^ 32.

Fixpoint process_chunk (fuel : nat) (copy : bool) (src : list Z) (len_arg ctr : Z) (h : regs) (w : window) (dst : list Z) : option (regs * list Z) :=
  match fuel with
  | O => None
  | S fuel =>
      '(ctr, r) ← continue_chunk 16 ctr 0 h w;
      let tmp2 := high_mask in
      let h := mk_regs (VECTOR_ADD (ae h) (ae r) tmp2) (VECTOR_ADD (bf h) (bf r) tmp2)
                       (VECTOR_ADD (cg h) (cg r) tmp2) (VECTOR_ADD (dh h) (dh r) tmp2) in
      let tmp1 := dsubu len_arg ctr in
      let tmp0 := daddu tmp1 (16 - 1) in
      if bltz tmp0 then Some (h, dst)
      else
        '(w, dst) ← load_chunk copy src len_arg ctr tmp1 w dst;
        process_chunk fuel copy src len_arg ctr h w dst
  end.

Definition hash_finish (h : regs) : list Z :=
  let tmp0 := high_mask in
  let tmp3 := 2 ^ 32 - 1 in
  let out_h0_1 := Z.land (ae h) tmp0 in
  let tmp1 := dsrl (bf h) 32 in
  let out_h2_3 := Z.land (cg h) tmp0 in
  let out_h0_1 := Z.lor out_h0_1 tmp1 in
  let tmp1 := dsrl (dh h) 32 in
  let out_h4_5 := dsll (ae h) 32 in
  let out_h2_3 := Z.lor out_h2_3 tmp1 in
  let tmp1 := Z.land (bf h) tmp3 in
  let out_h6_7 := dsll (cg h) 32 in
  let out_h4_5 := Z.lor out_h4_5 tmp1 in
  let tmp1 := Z.land (dh h) tmp3 in
  let out_h6_7 := Z.lor out_h6_7 tmp1 in
  [out_h0_1; out_h2_3; out_h4_5; out_h6_7].

Definition init_regs : regs := mk_regs 0x6a09e667510e527f 0xbb67ae859b05688c 0x3c6ef3721f83d9ab 0xa54ff53a5be0cd19.

(** The digest registers and the destination.  The top bit of the length says
    that the first block is in the window. *)
Definition sha256_regs (fuel : nat) (copy : bool) (src dst : list Z) (len_arg : Z) (w : window) : option (list Z * list Z) :=
  let ctr := 0 in
  let tmp1 := dsrl len_arg 63 in
  let tmp1 := dsll tmp1 63 in
  let loaded := negb (tmp1 =? 0) in
  let len_arg := Z.lxor len_arg tmp1 in
  '(w, dst) ← (if loaded then Some (w, dst) else load_chunk copy src len_arg ctr len_arg w dst);
  '(h, dst) ← process_chunk fuel copy src len_arg ctr init_regs w dst;
  Some (hash_finish h, dst).

Definition sha256_copy (fuel : nat) (src dst : list Z) (len_arg : Z) (w : window) : option (list Z * list Z) :=
  sha256_regs fuel true src dst len_arg w.

Definition sha256 (fuel : nat) (src dst : list Z) (len_arg : Z) : option (list Z) :=
  '(out, dst) ← sha256_regs fuel false src dst len_arg (replicate 8 0);
  match out with
  | [out_h0_1; out_h2_3; out_h4_5; out_h6_7] =>
      dst ← csd dst 0 out_h0_1; dst ← csd dst 8 out_h2_3; dst ← csd dst 16 out_h4_5; csd dst 24 out_h6_7
  | _ => None
  end.

(** ** Words in registers *)

(** Equal low halves. *)
Inductive eq32 (a b : Z) : Prop :=
  | low_eq (H : u32 a = u32 b).

Lemma eq32_low a b : eq32 a b <-> u32 a = u32 b.
Proof. split; [by intros []|by constructor]. Qed.

#[export] Instance eq32_equiv : Equivalence eq32.
Proof. split; [by constructor|by intros x y []; constructor|intros x y z [] []; constructor; congruence]. Qed.

#[export] Instance eq32_wrap : Proper (eq32 ==> eq) (wrap 32).
Proof. by intros a b []. Qed.

Lemma eq32_eq a b : a = b -> eq32 a b.
Proof. by intros ->. Qed.

#[export] Instance eq32_add : Proper (eq32 ==> eq32 ==> eq32) Z.add.
Proof. intros a a' [Ha] b b' [Hb]; constructor; unfold wrap in *; rewrite Z.add_mod, Ha, Hb, <- Z.add_mod by lia; done. Qed.

Ltac bits := apply Z.bits_inj'; let i := fresh "i" in intros i ?; repeat (rewrite ?Z.land_spec, ?Z.lor_spec, ?Z.lxor_spec);
  repeat match goal with |- context [Z.testbit ?x i] => destruct (Z.testbit x i) end; try done.

Lemma u32_land a b : u32 (Z.land a b) = Z.land (u32 a) (u32 b).
Proof. unfold wrap; rewrite <- !Z.land_ones by lia; bits. Qed.

Lemma u32_lor a b : u32 (Z.lor a b) = Z.lor (u32 a) (u32 b).
Proof. unfold wrap; rewrite <- !Z.land_ones by lia; bits. Qed.

Lemma u32_lxor a b : u32 (Z.lxor a b) = Z.lxor (u32 a) (u32 b).
Proof. unfold wrap; rewrite <- !Z.land_ones by lia; bits. Qed.

#[export] Instance eq32_land : Proper (eq32 ==> eq32 ==> eq32) Z.land.
Proof. intros a a' [Ha] b b' [Hb]; constructor; by rewrite !u32_land, Ha, Hb. Qed.

#[export] Instance eq32_lor : Proper (eq32 ==> eq32 ==> eq32) Z.lor.
Proof. intros a a' [Ha] b b' [Hb]; constructor; by rewrite !u32_lor, Ha, Hb. Qed.

#[export] Instance eq32_lxor : Proper (eq32 ==> eq32 ==> eq32) Z.lxor.
Proof. intros a a' [Ha] b b' [Hb]; constructor; by rewrite !u32_lxor, Ha, Hb. Qed.

Lemma eq32_u32 x : eq32 (u32 x) x.
Proof. constructor; apply wrap_wrap; lia. Qed.

Lemma eq32_u64 x : eq32 (u64 x) x.
Proof. constructor; unfold wrap; change (2 ^ 64) with (2 ^ 32 * 2 ^ 32); rewrite Z.rem_mul_r by lia; rewrite Z.mul_comm, Z.mod_add by lia; by rewrite Z.mod_mod by lia. Qed.

Lemma eq32_sext x : eq32 (sext32 x) x.
Proof.
  assert (forall a, eq32 (a - 2 ^ 32) a) as H.
  { intros a; constructor; unfold wrap; replace (a - 2 ^ 32) with (a + -1 * 2 ^ 32) by lia; by apply Z.mod_add. }
  unfold sext32; rewrite eq32_u64; unfold signed; destruct_if; rewrite ?H, !eq32_u32; done.
Qed.

Lemma eq32_daddu a b : eq32 (daddu a b) (a + b).
Proof. apply eq32_u64. Qed.

Lemma u32_range x : 0 <= u32 x < 2 ^ 32.
Proof. apply Z.mod_pos_bound; lia. Qed.

Lemma shiftr_range x n : 0 <= n -> 0 <= x < 2 ^ 32 -> 0 <= Z.shiftr x n < 2 ^ 32.
Proof.
  intros Hn Hx; rewrite Z.shiftr_div_pow2 by done; pose proof (Z.pow_pos_nonneg 2 n ltac:(lia) Hn).
  split; [apply Z.div_pos; lia|apply Z.div_lt_upper_bound; nia].
Qed.

Lemma eq32_srl x n : 0 <= n -> eq32 (srl x n) (Z.shiftr (u32 x) n).
Proof. intros; apply eq32_sext. Qed.

Lemma eq32_Mrotr x n : 0 < n < 32 -> eq32 (Mrotr x n) (rotr n (u32 x)).
Proof.
  intros Hn; unfold Mrotr, rotr, srl, sll; cbv zeta; rewrite !eq32_sext, Z.lor_comm.
  constructor; rewrite !u32_lor; f_equal; rewrite wrap_wrap by lia; rewrite !Z.shiftl_mul_pow2 by lia; unfold wrap; by rewrite Z.mul_mod_idemp_l by lia.
Qed.

Lemma rotr_range n x : 0 < n < 32 -> 0 <= x < 2 ^ 32 -> 0 <= rotr n x < 2 ^ 32.
Proof.
  intros Hn Hx; unfold rotr; rewrite <- (Z.mod_small (Z.shiftr x n) (2 ^ 32)) by (apply shiftr_range; lia).
  change (Z.shiftr x n mod 2 ^ 32) with (u32 (Z.shiftr x n)); rewrite <- u32_lor; apply u32_range.
Qed.

(** *** Two words in a register *)

Definition pack (a e : Z) : Z := a * 2 ^ 32 + e.

Definition w32 (x : Z) : Prop := 0 <= x < 2 ^ 32.

Lemma w32_u32 x : w32 (u32 x).
Proof. apply u32_range. Qed.

Lemma u32_w32 x : w32 x -> u32 x = x.
Proof. intros; by apply wrap_small. Qed.

Lemma pack_eq a a' e e' : a = a' -> e = e' -> pack a e = pack a' e'.
Proof. congruence. Qed.

Lemma u32_pack a e : w32 e -> u32 (pack a e) = e.
Proof. intros He; unfold pack, wrap; rewrite Z.add_comm, Z.mod_add by lia; by apply Z.mod_small. Qed.

Lemma eq32_pack a e : eq32 (pack a e) e.
Proof. constructor; unfold pack, wrap; rewrite Z.add_comm; by apply Z.mod_add. Qed.

Lemma dsrl_pack a e : w32 e -> dsrl (pack a e) 32 = a.
Proof. intros He; unfold dsrl, pack; rewrite Z.shiftr_div_pow2, Z.div_add_l, Z.div_small by (done || lia); lia. Qed.

Lemma TRUNCATE32_eq x : TRUNCATE32 x = u32 x.
Proof.
  unfold TRUNCATE32, dsll, dsrl; cbv zeta; rewrite Z.shiftl_mul_pow2, Z.shiftr_div_pow2 by lia; unfold wrap.
  change (2 ^ 64) with (2 ^ 32 * 2 ^ 32); rewrite Z.mul_mod_distr_r by lia; by apply Z.div_mul.
Qed.

Lemma dsll_eq x : dsll x 32 = Z.shiftl (u32 x) 32.
Proof.
  unfold dsll; rewrite !Z.shiftl_mul_pow2 by lia; unfold wrap.
  change (2 ^ 64) with (2 ^ 32 * 2 ^ 32); by rewrite Z.mul_mod_distr_r by lia.
Qed.

Lemma pack_low_high x y : Z.lor (TRUNCATE32 x) (dsll y 32) = pack (u32 y) (u32 x).
Proof. rewrite TRUNCATE32_eq, dsll_eq, lor_shiftl by (lia || apply u32_range); unfold pack; lia. Qed.

Lemma dsrl_land a e b f : w32 e -> w32 f -> dsrl (Z.land (pack a e) (pack b f)) 32 = Z.land a b.
Proof. intros He Hf; unfold dsrl; rewrite Z.shiftr_land; fold (dsrl (pack a e) 32) (dsrl (pack b f) 32); by rewrite !dsrl_pack. Qed.

Lemma dsrl_lor x y : dsrl (Z.lor x y) 32 = Z.lor (dsrl x 32) (dsrl y 32).
Proof. apply Z.shiftr_lor. Qed.

Lemma dsrl_land' x y : dsrl (Z.land x y) 32 = Z.land (dsrl x 32) (dsrl y 32).
Proof. apply Z.shiftr_land. Qed.

(** *** The functions of the standard *)

Lemma Ch_eq e f g : w32 e -> w32 f -> w32 g -> Z.lxor (Z.land (Z.lxor f g) e) g = Ch e f g.
Proof.
  intros He Hf Hg; unfold Ch; rewrite <- (u32_w32 g Hg) at 1 2 3; unfold wrap; rewrite <- !Z.land_ones by lia.
  apply Z.bits_inj'; intros i Hi; rewrite ?Z.lxor_spec, ?Z.land_spec, ?Z.lxor_spec, ?Z.land_spec, Z.lnot_spec by done.
  repeat match goal with |- context [Z.testbit ?x i] => destruct (Z.testbit x i) end; done.
Qed.

Lemma Maj_eq a b c : Z.lor (Z.land (Z.lor a b) c) (Z.land a b) = Maj a b c.
Proof. unfold Maj; bits. Qed.

Lemma rounds_w32 s k w : w32 (va (round s k w)) /\ w32 (ve (round s k w)).
Proof. split; apply w32_u32. Qed.

(** A round of the macro is one of the standard. *)
Lemma HASH_ROUND_eq a b c d e f g h k w wi : w32 a -> w32 e -> w32 f -> w32 g -> w32 h -> w32 b -> w32 c -> w32 d -> eq32 wi w ->
  HASH_ROUND (pack a e) (pack b f) (pack c g) (pack d h) k wi =
  let s := round (mk_vars a b c d e f g h) k w in pack (va s) (ve s).
Proof.
  intros Ha He Hf Hg Hh Hb Hc Hd Hw; unfold HASH_ROUND; cbv zeta; rewrite pack_low_high; unfold round; cbn [va vb vc vd ve vf vg vh].
  rewrite !dsrl_lor, !dsrl_land', !dsrl_lor, !dsrl_pack, Maj_eq by done.
  assert (eq32 (daddu (daddu (daddu (daddu k wi) (Z.lxor (Z.land (Z.lxor (pack b f) (pack c g)) (pack a e)) (pack c g))) (pack d h))
    (Z.lxor (Z.lxor (Mrotr (pack a e) 6) (Mrotr (pack a e) 11)) (Mrotr (pack a e) 25)))
    (u32 (h + Sigma1 e + Ch e f g + k + w))) as HT1.
  { rewrite !eq32_daddu, !eq32_Mrotr, !(u32_pack a e He), Hw, !eq32_pack, Ch_eq, eq32_u32 by (done || lia); unfold Sigma1.
    apply eq32_eq; lia. }
  assert (eq32 (Z.lxor (Z.lxor (Mrotr a 2) (Mrotr a 13)) (Mrotr a 22)) (Sigma0 a)) as HS0.
  { by rewrite !eq32_Mrotr, !(u32_w32 a Ha) by lia. }
  match type of HT1 with eq32 ?x _ => set (T1 := x) in *; clearbody T1 end.
  apply pack_eq; apply eq32_wrap; rewrite !eq32_daddu, HT1, ?HS0, !eq32_u32; apply eq32_eq; lia.
Qed.

Lemma CALC_WINDOW_eq x0 x1 x2 x3 x8 x9 x10 x11 x14 x15 : w32 x0 -> w32 x1 -> w32 x2 -> w32 x3 -> w32 x9 -> w32 x11 -> w32 x14 -> w32 x15 ->
  CALC_WINDOW (pack x0 x1) (pack x2 x3) (pack x8 x9) (pack x10 x11) (pack x14 x15) =
  pack (u32 (sigma1 x14 + x9 + sigma0 x1 + x0)) (u32 (sigma1 x15 + x10 + sigma0 x2 + x1)).
Proof.
  intros H0 H1 H2 H3 H9 H11 H14 H15; unfold CALC_WINDOW; cbv zeta; rewrite !dsrl_pack by done; rewrite Z.lor_comm, pack_low_high.
  apply pack_eq; apply eq32_wrap; rewrite !eq32_daddu, !eq32_Mrotr, !eq32_srl, !u32_pack, ?u32_w32 by (done || lia).
  - rewrite !eq32_pack; unfold sigma0, sigma1; apply eq32_eq; lia.
  - rewrite !eq32_pack; unfold sigma0, sigma1; apply eq32_eq; lia.
Qed.

Lemma land_high x : w32 (dsrl x 32) -> Z.land x high_mask = Z.shiftl (dsrl x 32) 32.
Proof.
  intros Hx; change high_mask with (Z.shiftl (Z.ones 32) 32); rewrite <- (Z.mod_small (dsrl x 32) (2 ^ 32)), <- Z.land_ones by (done || lia).
  unfold dsrl; apply Z.bits_inj'; intros i Hi; rewrite Z.land_spec; destruct (decide (i < 32)).
  - by rewrite !Z.shiftl_spec_low, andb_false_r by lia.
  - rewrite !Z.shiftl_spec, Z.land_spec, Z.shiftr_spec by lia; f_equal; f_equal; lia.
Qed.

Lemma VECTOR_ADD_eq a e b f : w32 a -> w32 e -> w32 b -> w32 f -> VECTOR_ADD (pack a e) (pack b f) high_mask = pack (u32 (a + b)) (u32 (e + f)).
Proof.
  intros Ha He Hb Hf; unfold VECTOR_ADD; cbv zeta; rewrite !land_high, !dsrl_pack by (by rewrite ?dsrl_pack).
  replace (daddu (Z.shiftl a 32) (Z.shiftl b 32)) with (dsll (a + b) 32).
  - rewrite pack_low_high; apply pack_eq; [done|]; apply eq32_wrap; unfold addu; by rewrite eq32_sext, !eq32_pack.
  - unfold daddu, dsll; f_equal; rewrite !Z.shiftl_mul_pow2 by lia; lia.
Qed.

(** ** Sixteen groups of four rounds *)

Definition packv (s : vars) : regs := mk_regs (pack (va s) (ve s)) (pack (vb s) (vf s)) (pack (vc s) (vg s)) (pack (vd s) (vh s)).

Definition vars_ok (s : vars) : Prop := w32 (va s) /\ w32 (vb s) /\ w32 (vc s) /\ w32 (vd s) /\ w32 (ve s) /\ w32 (vf s) /\ w32 (vg s) /\ w32 (vh s).

Fixpoint packw (X : list Z) : window := match X with x :: y :: X => pack x y :: packw X | _ => [] end.

Lemma round_ok s k w : vars_ok s -> vars_ok (round s k w).
Proof. intros (? & ? & ? & ? & ? & ? & ? & ?); unfold vars_ok, round; cbn; split_and!; try done; apply w32_u32. Qed.

Lemma clwu_eq K k : 0 <= K -> K mod 4 = 0 -> k_words !! Z.to_nat (K / 4) = Some k -> clwu K = Some k.
Proof. intros H0 H4 E; unfold clwu; rewrite (proj2 (Z.ltb_ge _ _)), H4 by done; done. Qed.

Lemma round_shift s k w : let s' := round s k w in
  vb s' = va s /\ vc s' = vb s /\ vd s' = vc s /\ vf s' = ve s /\ vg s' = vf s /\ vh s' = vg s.
Proof. done. Qed.

Lemma HASH_ROUND_step s k w wi : vars_ok s -> eq32 wi w ->
  HASH_ROUND (pack (va s) (ve s)) (pack (vb s) (vf s)) (pack (vc s) (vg s)) (pack (vd s) (vh s)) k wi = pack (va (round s k w)) (ve (round s k w)).
Proof. intros (? & ? & ? & ? & ? & ? & ? & ?) Hw; destruct s; by apply HASH_ROUND_eq. Qed.

Ltac step_round s k w wi H s' H' :=
  rewrite (HASH_ROUND_step s k w wi H) by (done || apply eq32_pack);
  pose proof (round_ok s k w H) as H'; destruct (round_shift s k w) as (<- & <- & <- & <- & <- & <-);
  set (s' := round s k w) in *; clearbody s'.

Lemma four_rounds_eq t s k0 k1 k2 k3 x0 x1 x2 x3 : vars_ok s -> w32 x0 -> w32 x1 -> w32 x2 -> w32 x3 ->
  take 4 (drop (4 * t) k_words) = [k0; k1; k2; k3] ->
  four_rounds (16 * Z.of_nat t) (packv s) (pack x0 x1) (pack x2 x3) = Some (packv (round (round (round (round s k0 x0) k1 x1) k2 x2) k3 x3)).
Proof.
  intros Hs H0 H1 H2 H3 HK.
  assert (forall j k, [k0; k1; k2; k3] !! j = Some k -> clwu (16 * Z.of_nat t + 4 * Z.of_nat j) = Some k) as Hk.
  { intros j k Hj; rewrite <- HK in Hj; pose proof (lookup_lt_Some _ _ _ Hj) as Hl; rewrite length_take in Hl.
    rewrite lookup_take_lt, lookup_drop in Hj by lia; apply clwu_eq; [lia| |].
    - replace (16 * Z.of_nat t + 4 * Z.of_nat j) with ((4 * Z.of_nat t + Z.of_nat j) * 4) by lia; by apply Z.mod_mul.
    - replace (16 * Z.of_nat t + 4 * Z.of_nat j) with ((4 * Z.of_nat t + Z.of_nat j) * 4) by lia; rewrite Z.div_mul by lia.
      rewrite <- Hj; f_equal; lia. }
  pose proof (Hk 0%nat k0 eq_refl) as K0; pose proof (Hk 1%nat k1 eq_refl) as K1; pose proof (Hk 2%nat k2 eq_refl) as K2; pose proof (Hk 3%nat k3 eq_refl) as K3.
  change (4 * Z.of_nat 0) with 0 in K0; change (4 * Z.of_nat 1) with 4 in K1; change (4 * Z.of_nat 2) with 8 in K2; change (4 * Z.of_nat 3) with 12 in K3.
  rewrite Z.add_0_r in K0; unfold four_rounds; cbn [packv]; rewrite K0, K1, K2, K3; cbn [mbind option_bind]; rewrite !dsrl_pack by done.
  step_round s k0 x0 x0 Hs s1 Hs1; step_round s1 k1 x1 (pack x0 x1) Hs1 s2 Hs2; step_round s2 k2 x2 x2 Hs2 s3 Hs3.
  rewrite (HASH_ROUND_step s3 k3 x3) by (done || apply eq32_pack); destruct (round_shift s3 k3 x3) as (E1 & E2 & E3 & E4 & E5 & E6).
  unfold packv; by rewrite E1, E2, E3, E4, E5, E6.
Qed.

(** *** The message schedule *)

Lemma extend_iter n M : length M = 16%nat ->
  length (Nat.iter n extend M) = (16 + n)%nat /\
  forall t, (16 <= t < 16 + n)%nat -> Nat.iter n extend M !! t = Some (next_word (take t (Nat.iter n extend M))).
Proof.
  intros HM; induction n as [|n [IHl IH]]; [split; [cbn; lia|intros; lia]|].
  set (V := Nat.iter n extend M) in *; change (Nat.iter (S n) extend M) with (V ++ [next_word V]); split; [rewrite length_app, IHl; cbn; lia|].
  intros t Ht; destruct (decide (t = 16 + n)%nat) as [->|].
  - rewrite <- IHl, take_app_length, lookup_app_r, Nat.sub_diag by lia; done.
  - rewrite lookup_app_l, take_app_le by lia; apply IH; lia.
Qed.

Lemma extend_rec n M t a b c d : length M = 16%nat -> (16 <= t < 16 + n)%nat -> let W := Nat.iter n extend M in
  W !! (t - 2)%nat = Some a -> W !! (t - 7)%nat = Some b -> W !! (t - 15)%nat = Some c -> W !! (t - 16)%nat = Some d ->
  W !! t = Some (u32 (sigma1 a + b + sigma0 c + d)).
Proof.
  intros HM Ht W Ha Hb Hc Hd; destruct (extend_iter n M HM) as [Hl H]; fold W in Hl, H; rewrite (H t Ht).
  assert (forall k x, (k <= 16)%nat -> (0 < k)%nat -> W !! (t - k)%nat = Some x -> word (take t W) (Z.of_nat t - Z.of_nat k) = x) as Hw.
  { intros k x Hk Hk0 Hx; unfold word; rewrite Z2Nat.inj_sub, !Nat2Z.id, lookup_take_lt, Hx by lia; done. }
  unfold next_word; rewrite length_take, Nat.min_l by lia.
  change 2 with (Z.of_nat 2); change 7 with (Z.of_nat 7); change 15 with (Z.of_nat 15); change 16 with (Z.of_nat 16).
  by rewrite (Hw 2%nat a), (Hw 7%nat b), (Hw 15%nat c), (Hw 16%nat d) by (done || lia).
Qed.

Lemma schedule_length M : length M = 16%nat -> length (schedule M) = 64%nat.
Proof. intros HM; unfold schedule; by destruct (extend_iter 48 M HM) as [-> _]. Qed.

Lemma schedule_rec M t a b c d : length M = 16%nat -> (16 <= t < 64)%nat -> schedule M !! (t - 2)%nat = Some a -> schedule M !! (t - 7)%nat = Some b ->
  schedule M !! (t - 15)%nat = Some c -> schedule M !! (t - 16)%nat = Some d -> schedule M !! t = Some (u32 (sigma1 a + b + sigma0 c + d)).
Proof. intros HM Ht; exact (extend_rec 48 M t a b c d HM Ht). Qed.

Lemma schedule_prefix M t : length M = 16%nat -> (t < 16)%nat -> schedule M !! t = M !! t.
Proof.
  intros HM Ht; unfold schedule; generalize 48%nat; intros n; induction n as [|n IH]; [done|].
  change (Nat.iter (S n) extend M) with (Nat.iter n extend M ++ [next_word (Nat.iter n extend M)]); rewrite lookup_app_l; [done|].
  destruct (extend_iter n M HM) as [-> _]; lia.
Qed.

#[local] Opaque schedule.

(** *** The loop over a chunk *)

Definition rounds (s : vars) (l : list (Z * Z)) : vars := fold_left (fun s '(k, w) => round s k w) l s.

Lemma rounds_ok l : forall s, vars_ok s -> vars_ok (rounds s l).
Proof. induction l as [|[k w] l IH]; intros s Hs; [done|]; apply IH, round_ok, Hs. Qed.

Lemma k_words_K256 : k_words = K256.
Proof. vm_compute; reflexivity. Qed.

Lemma four_of_drop {A} (l : list A) (k : nat) : (k + 4 <= length l)%nat ->
  exists a b c d, take 4 (drop k l) = [a; b; c; d] /\ drop k l = a :: b :: c :: d :: drop (k + 4) l.
Proof.
  intros Hk; rewrite <- (drop_drop l 4 k); assert (4 <= length (drop k l))%nat as Hl by (rewrite length_drop; lia).
  destruct (drop k l) as [|a [|b [|c [|d r]]]]; cbn in Hl; try lia; by exists a, b, c, d.
Qed.

Definition window_of (W : list Z) (g : nat) (X : list Z) : Prop :=
  length X = 16%nat /\ Forall w32 X /\ forall j, (j < 16)%nat -> (4 * g + j < 64)%nat -> X !! j = W !! (4 * g + j)%nat.

Lemma window_next M g x0 x1 x2 x3 x4 x5 x6 x7 x8 x9 x10 x11 x12 x13 x14 x15 : length M = 16%nat -> (g < 12)%nat ->
  window_of (schedule M) g [x0; x1; x2; x3; x4; x5; x6; x7; x8; x9; x10; x11; x12; x13; x14; x15] ->
  let x16 := u32 (sigma1 x14 + x9 + sigma0 x1 + x0) in let x17 := u32 (sigma1 x15 + x10 + sigma0 x2 + x1) in
  let x18 := u32 (sigma1 x16 + x11 + sigma0 x3 + x2) in let x19 := u32 (sigma1 x17 + x12 + sigma0 x4 + x3) in
  window_of (schedule M) (S g) [x4; x5; x6; x7; x8; x9; x10; x11; x12; x13; x14; x15; x16; x17; x18; x19].
Proof.
  intros HM Hg (_ & Hw & HX) x16 x17 x18 x19; set (X := [x0; x1; x2; x3; x4; x5; x6; x7; x8; x9; x10; x11; x12; x13; x14; x15]) in *.
  assert (forall j x, X !! j = Some x -> schedule M !! (4 * g + j)%nat = Some x) as HW.
  { intros j x Hj; rewrite <- Hj; symmetry; apply HX; [by apply lookup_lt_Some in Hj|apply lookup_lt_Some in Hj; cbn in Hj; lia]. }
  assert (forall t j a b c d, t = (4 * g + 16 + j)%nat -> (t < 64)%nat -> schedule M !! (4 * g + 14 + j)%nat = Some a -> schedule M !! (4 * g + 9 + j)%nat = Some b ->
    schedule M !! (4 * g + 1 + j)%nat = Some c -> schedule M !! (4 * g + j)%nat = Some d -> schedule M !! t = Some (u32 (sigma1 a + b + sigma0 c + d))) as HR.
  { intros t j a b c d -> Ht Ha Hb Hc Hd; apply schedule_rec; try done; [lia|..];
      [replace (_ - _)%nat with (4 * g + 14 + j)%nat by lia|replace (_ - _)%nat with (4 * g + 9 + j)%nat by lia|
       replace (_ - _)%nat with (4 * g + 1 + j)%nat by lia|replace (_ - _)%nat with (4 * g + j)%nat by lia]; done. }
  assert (schedule M !! (4 * g + 16)%nat = Some x16) as E16.
  { apply (HR _ 0%nat x14 x9 x1 x0); [lia|lia|..]; rewrite <- ?Nat.add_assoc; by apply HW. }
  assert (schedule M !! (4 * g + 17)%nat = Some x17) as E17.
  { apply (HR _ 1%nat x15 x10 x2 x1); [lia|lia|..]; rewrite <- ?Nat.add_assoc; by apply HW. }
  assert (schedule M !! (4 * g + 18)%nat = Some x18) as E18.
  { apply (HR _ 2%nat x16 x11 x3 x2); [lia|lia|..]; rewrite <- ?Nat.add_assoc; try done; by apply HW. }
  assert (schedule M !! (4 * g + 19)%nat = Some x19) as E19.
  { apply (HR _ 3%nat x17 x12 x4 x3); [lia|lia|..]; rewrite <- ?Nat.add_assoc; try done; by apply HW. }
  split_and!; [done| |].
  - apply (Forall_drop _ 4) in Hw; cbn in Hw; repeat (apply Forall_cons in Hw as [? Hw]); repeat (apply Forall_cons_2; [by apply w32_u32 || done|]); done.
  - intros j Hj _; replace (4 * S g + j)%nat with (4 * g + (4 + j))%nat by lia; symmetry.
    do 12 (destruct j as [|j]; [by apply HW|]); do 4 (destruct j as [|j]; [done|]); lia.
Qed.

Lemma window_skip M g x0 x1 x2 x3 x4 x5 x6 x7 x8 x9 x10 x11 x12 x13 x14 x15 : (12 <= g)%nat ->
  window_of (schedule M) g [x0; x1; x2; x3; x4; x5; x6; x7; x8; x9; x10; x11; x12; x13; x14; x15] ->
  window_of (schedule M) (S g) [x4; x5; x6; x7; x8; x9; x10; x11; x12; x13; x14; x15; x12; x13; x0; x1].
Proof.
  intros Hg (_ & Hw & HX); split_and!; [done| |].
  - repeat (apply Forall_cons in Hw as [? Hw]); repeat (apply Forall_cons_2; [done|]); done.
  - intros j Hj Hj4; assert (j < 12)%nat as Hj12 by lia; replace (4 * S g + j)%nat with (4 * g + (4 + j))%nat by lia.
    rewrite <- HX by lia; do 12 (destruct j as [|j]; [done|]); lia.
Qed.

Lemma list16 (X : list Z) : length X = 16%nat -> exists x0 x1 x2 x3 x4 x5 x6 x7 x8 x9 x10 x11 x12 x13 x14 x15,
  X = [x0; x1; x2; x3; x4; x5; x6; x7; x8; x9; x10; x11; x12; x13; x14; x15].
Proof.
  intros H; do 16 (destruct X as [|? X]; [done|]); destruct X; [|done]; by repeat eexists.
Qed.

(** [ctr] after a group. *)
Lemma ctr_step ctr g : 0 <= ctr < 2 ^ 64 - 64 -> ctr mod 64 = 4 * Z.of_nat g -> (g < 16)%nat ->
  daddu ctr 4 = ctr + 4 /\ Z.land (ctr + 4) 63 = (if decide (g = 15)%nat then 0 else 4 * Z.of_nat (S g)).
Proof.
  intros Hc Hm Hg; split; [apply wrap_small; unfold in_range; lia|].
  change 63 with (Z.ones 6); rewrite Z.land_ones by lia; change (2 ^ 6) with 64; rewrite Z.add_mod, Hm by lia; change (4 mod 64) with 4.
  case_decide; [by subst|]; rewrite Z.mod_small; lia.
Qed.

Lemma group_eq M g s x0 x1 x2 x3 X : length M = 16%nat -> (g < 16)%nat -> vars_ok s -> window_of (schedule M) g (x0 :: x1 :: x2 :: x3 :: X) ->
  exists s', four_rounds (16 * Z.of_nat g) (packv s) (pack x0 x1) (pack x2 x3) = Some (packv s') /\ vars_ok s' /\
    rounds s (drop (4 * g) (zip k_words (schedule M))) = rounds s' (drop (4 * S g) (zip k_words (schedule M))).
Proof.
  intros HM Hg Hs (_ & Hw & HX); pose proof (schedule_length M HM) as HL.
  destruct (four_of_drop k_words (4 * g)) as (k0 & k1 & k2 & k3 & EK & DK); [change (length k_words) with 64%nat; lia|].
  destruct (four_of_drop (schedule M) (4 * g)) as (y0 & y1 & y2 & y3 & _ & DW); [lia|].
  assert (forall j, (j < 4)%nat -> (x0 :: x1 :: x2 :: x3 :: X) !! j = [y0; y1; y2; y3] !! j) as Hy.
  { intros j Hj; rewrite HX by lia; rewrite <- lookup_drop, DW; do 4 (destruct j as [|j]; [done|]); lia. }
  assert (x0 = y0 /\ x1 = y1 /\ x2 = y2 /\ x3 = y3) as (-> & -> & -> & ->).
  { pose proof (Hy 0%nat ltac:(lia)) as [= H0]; pose proof (Hy 1%nat ltac:(lia)) as [= H1].
    pose proof (Hy 2%nat ltac:(lia)) as [= H2]; pose proof (Hy 3%nat ltac:(lia)) as [= H3]; by split_and!. }
  do 4 (apply Forall_cons in Hw as [? Hw]); rewrite (four_rounds_eq g s k0 k1 k2 k3) by done; eexists; split; [reflexivity|]; split; [by repeat apply round_ok|].
  replace (4 * S g)%nat with (4 * g + 4)%nat by lia; rewrite !zip_with_drop, DK, DW; done.
Qed.

Lemma signed_u64 x : - 2 ^ 63 <= x < 2 ^ 63 -> signed 64 (u64 x) = x.
Proof.
  intros Hx; unfold signed; rewrite wrap_wrap by lia; change (2 ^ (64 - 1)) with (2 ^ 63); destruct (decide (0 <= x)).
  - rewrite wrap_small by (unfold in_range; lia); by rewrite (proj2 (Z.ltb_lt _ _)) by lia.
  - assert (u64 x = x + 2 ^ 64) as -> by (unfold wrap; symmetry; apply Z.mod_unique with (-1); lia).
    rewrite (proj2 (Z.ltb_ge _ _)) by lia; lia.
Qed.

Lemma continue_chunk_eq M n : forall g ctr s X, length M = 16%nat -> (g + S n = 16)%nat -> 0 <= ctr /\ ctr + 4 * Z.of_nat (S n) < 2 ^ 64 - 64 -> ctr mod 64 = 4 * Z.of_nat g ->
  vars_ok s -> window_of (schedule M) g X ->
  continue_chunk (S n) ctr (16 * Z.of_nat g) (packv s) (packw X) =
  Some (ctr + 4 * Z.of_nat (S n), packv (rounds s (drop (4 * g) (zip k_words (schedule M))))).
Proof.
  induction n as [|n IH]; intros g ctr s X HM Hg Hctr Hm Hs HX; pose proof (list16 X (proj1 HX)) as (x0 & x1 & x2 & x3 & x4 & x5 & x6 & x7 & x8 & x9 & x10 & x11 & x12 & x13 & x14 & x15 & ->);
    destruct (group_eq M g s x0 x1 x2 x3 _ HM ltac:(lia) Hs HX) as (s' & E & Hs' & ER); destruct (ctr_step ctr g ltac:(lia) Hm ltac:(lia)) as [EC EL];
    rewrite ER; cbn [packw]; unfold continue_chunk; fold continue_chunk; rewrite E; cbn [mbind option_bind]; rewrite EC, EL.
  - rewrite decide_True by lia; cbn [Z.eqb]; rewrite drop_ge; [done|]; rewrite length_zip_with, (schedule_length M HM); cbn; lia.
  - rewrite decide_False by lia; rewrite (proj2 (Z.eqb_neq _ _)) by lia; unfold bgtz; rewrite signed_u64 by lia.
    replace (16 * Z.of_nat g + 16) with (16 * Z.of_nat (S g)) by lia.
    assert ((ctr + 4) mod 64 = 4 * Z.of_nat (S g)) as Hm' by (rewrite Z.add_mod, Hm by lia; change (4 mod 64) with 4; rewrite Z.mod_small; lia).
    replace (ctr + 4 * Z.of_nat (S (S n))) with (ctr + 4 + 4 * Z.of_nat (S n)) by lia.
    destruct (0 <? 4 * Z.of_nat (S g) - 51) eqn:Eb; [apply Z.ltb_lt in Eb|apply Z.ltb_ge in Eb].
    + apply (IH (S g) (ctr + 4) s' [x4; x5; x6; x7; x8; x9; x10; x11; x12; x13; x14; x15; x12; x13; x0; x1]); try done; try lia; eapply window_skip; [lia|exact HX].
    + pose proof (proj1 (proj2 HX)) as Hw; repeat (apply Forall_cons in Hw as [? Hw]).
      rewrite CALC_WINDOW_eq by done; rewrite CALC_WINDOW_eq by (done || apply w32_u32).
      refine (IH (S g) (ctr + 4) s' _ HM _ _ Hm' Hs' (window_next M g _ _ _ _ _ _ _ _ _ _ _ _ _ _ _ _ HM _ HX)); lia.
Qed.

(** ** A chunk *)

Lemma compress_ok H M : vars_ok (compress H M).
Proof. unfold compress, add_vars, vars_ok; cbn; split_and!; apply w32_u32. Qed.

Lemma window_start M : length M = 16%nat -> Forall w32 M -> window_of (schedule M) 0 M.
Proof. intros HM Hw; split_and!; [done|done|]; intros j Hj _; symmetry; by apply schedule_prefix. Qed.

Lemma chunk_eq H M ctr : vars_ok H -> length M = 16%nat -> Forall w32 M -> 0 <= ctr < 2 ^ 64 - 128 -> ctr mod 64 = 0 ->
  exists r, continue_chunk 16 ctr 0 (packv H) (packw M) = Some (ctr + 64, r) /\
    mk_regs (VECTOR_ADD (ae (packv H)) (ae r) high_mask) (VECTOR_ADD (bf (packv H)) (bf r) high_mask)
            (VECTOR_ADD (cg (packv H)) (cg r) high_mask) (VECTOR_ADD (dh (packv H)) (dh r) high_mask) = packv (compress H M).
Proof.
  intros HH HM Hw Hc Hm; pose proof (continue_chunk_eq M 15 0 ctr H M HM eq_refl) as E; change (16 * Z.of_nat 0) with 0 in E; rewrite E; clear E;
    [|change (4 * Z.of_nat 16) with 64; lia|done|done|by apply window_start].
  rewrite drop_0, k_words_K256; set (s := rounds H (zip K256 (schedule M))).
  assert (vars_ok s) as Hs by (by apply rounds_ok); eexists; split; [reflexivity|]; unfold compress; fold (rounds H (zip K256 (schedule M))); fold s.
  clearbody s; destruct HH as (? & ? & ? & ? & ? & ? & ? & ?), Hs as (? & ? & ? & ? & ? & ? & ? & ?); unfold packv; cbn [ae bf cg dh].
  by rewrite !VECTOR_ADD_eq by done.
Qed.

(** ** Bytes *)

Lemma be_value_app l r : be_value (l ++ r) = be_value l * 2 ^ (8 * Z.of_nat (length r)) + be_value r.
Proof.
  unfold be_value; rewrite fold_left_app; generalize (fold_left (fun x b => x * 2 ^ 8 + b) l 0); induction r as [|b r IH] using rev_ind; intros x; [cbn; lia|].
  rewrite !fold_left_app; cbn [fold_left]; rewrite IH, length_app; cbn [length]; rewrite Nat2Z.inj_add, Z.mul_add_distr_l, Z.pow_add_r by lia; lia.
Qed.

Lemma be_value_range l : byte_list l -> 0 <= be_value l < 2 ^ (8 * Z.of_nat (length l)).
Proof.
  induction l as [|b l IH] using rev_ind; intros H; [cbn; lia|]; apply Forall_app in H as [Hl Hb]; apply Forall_cons in Hb as [Hb _].
  specialize (IH Hl); rewrite be_value_app, length_app; cbn [length]; rewrite Nat2Z.inj_add, Z.mul_add_distr_l, Z.pow_add_r by lia.
  change (8 * Z.of_nat 1) with 8; change (be_value [b]) with (0 * 2 ^ 8 + b); change (2 ^ 8) with 256; cbv beta in Hb; lia.
Qed.

Lemma be_bytes_S n x : be_bytes (S n) x = (Z.shiftr x (8 * Z.of_nat n) mod 2 ^ 8) :: be_bytes n x.
Proof. unfold be_bytes; rewrite seq_S, fmap_app; cbn [fmap list_fmap]; by rewrite reverse_snoc. Qed.

Lemma be_bytes_length n x : length (be_bytes n x) = n.
Proof. unfold be_bytes; by rewrite length_reverse, length_fmap, length_seq. Qed.

Lemma be_bytes_byte n x : byte_list (be_bytes n x).
Proof. induction n as [|n IH]; [constructor|]; rewrite be_bytes_S; constructor; [apply Z.mod_pos_bound; lia|done]. Qed.

Lemma be_bytes_mod n x : be_bytes n (x mod 2 ^ (8 * Z.of_nat n)) = be_bytes n x.
Proof.
  assert (forall m, (n <= m)%nat -> be_bytes n (x mod 2 ^ (8 * Z.of_nat m)) = be_bytes n x) as H; [|by apply H].
  induction n as [|n IH]; intros m Hm; [done|]; rewrite !be_bytes_S, IH by lia; f_equal.
  rewrite <- !Z.land_ones by lia; apply Z.bits_inj'; intros i Hi; rewrite !Z.land_spec, !Z.shiftr_spec, Z.land_spec by done.
  rewrite !Z.testbit_ones_nonneg by lia; destruct (i <? 8) eqn:E; [|by rewrite !andb_false_r]; apply Z.ltb_lt in E.
  by rewrite (proj2 (Z.ltb_lt _ _)), andb_true_r by lia.
Qed.

Lemma be_bytes_value l : byte_list l -> be_bytes (length l) (be_value l) = l.
Proof.
  induction l as [|b l IH]; intros H; [done|]; apply Forall_cons in H as [Hb Hl]; cbn [length]; rewrite be_bytes_S.
  change (b :: l) with ([b] ++ l); rewrite be_value_app; change (be_value [b]) with (0 * 2 ^ 8 + b); rewrite Z.mul_0_l, Z.add_0_l.
  pose proof (be_value_range l Hl) as Hr; pose proof (Z.pow_pos_nonneg 2 (8 * Z.of_nat (length l)) ltac:(lia) ltac:(lia)); cbn [app]; f_equal.
  - rewrite Z.shiftr_div_pow2, Z.div_add_l, Z.div_small, Z.add_0_r by lia; apply Z.mod_small; change (2 ^ 8) with 256; lia.
  - rewrite <- be_bytes_mod, Z.add_comm, Z.mod_add, Z.mod_small by lia; by apply IH.
Qed.

Lemma be_value_bytes n x : be_value (be_bytes n x) = x mod 2 ^ (8 * Z.of_nat n).
Proof.
  induction n as [|n IH]; [cbn; by rewrite Z.mod_1_r|]; rewrite be_bytes_S; change (?b :: ?l) with ([b] ++ l).
  rewrite be_value_app, be_bytes_length, IH; change (be_value [?b]) with (0 * 2 ^ 8 + b); rewrite Z.mul_0_l, Z.add_0_l, Z.shiftr_div_pow2 by lia.
  replace (8 * Z.of_nat (S n)) with (8 * Z.of_nat n + 8) by lia; rewrite Z.pow_add_r, Z.rem_mul_r by lia; lia.
Qed.

(** ** Doublewords *)

Definition split2 (x : Z) : list Z := [x / 2 ^ 32; x mod 2 ^ 32].
Definition words_of (ds : list Z) : list Z := mjoin (split2 <$> ds).

Definition w64 (x : Z) : Prop := 0 <= x < 2 ^ 64.

Lemma packw_words ds : packw (words_of ds) = ds.
Proof.
  induction ds as [|x ds IH]; [done|]; change (words_of (x :: ds)) with (x / 2 ^ 32 :: x mod 2 ^ 32 :: words_of ds); cbn [packw]; rewrite IH; f_equal.
  unfold pack; pose proof (Z.div_mod x (2 ^ 32) ltac:(lia)); lia.
Qed.

Lemma words_of_w32 ds : Forall w64 ds -> Forall w32 (words_of ds).
Proof.
  induction 1 as [|x ds Hx _ IH]; [constructor|]; change (words_of (x :: ds)) with (x / 2 ^ 32 :: x mod 2 ^ 32 :: words_of ds).
  unfold w64 in Hx; repeat constructor; try done; try (apply Z.mod_pos_bound; lia); [apply Z.div_pos; lia|apply Z.div_lt_upper_bound; lia].
Qed.

Lemma words_of_length ds : length (words_of ds) = (2 * length ds)%nat.
Proof. induction ds as [|x ds IH]; [done|]; change (words_of (x :: ds)) with (x / 2 ^ 32 :: x mod 2 ^ 32 :: words_of ds); cbn; rewrite IH; lia. Qed.

Lemma split2_value l : byte_list l -> length l = 8%nat -> split2 (be_value l) = [be_value (take 4 l); be_value (take 4 (drop 4 l))].
Proof.
  intros Hb Hl; assert (take 4 (drop 4 l) = drop 4 l) as -> by (apply take_ge; rewrite length_drop; lia).
  rewrite <- (take_drop 4 l) at 1; rewrite be_value_app, length_drop, Hl; change (8 * Z.of_nat (8 - 4)) with 32; unfold split2.
  pose proof (be_value_range (drop 4 l) (Forall_drop _ 4 l Hb)) as Hr; rewrite length_drop, Hl in Hr; change (8 * Z.of_nat (8 - 4)) with 32 in Hr.
  rewrite Z.div_add_l, Z.div_small, Z.add_0_r by lia; f_equal; f_equal; rewrite Z.add_comm, Z.mod_add by lia; by apply Z.mod_small.
Qed.

Lemma chunk_words k : forall l, byte_list l -> length l = (8 * k)%nat -> be_value <$> chunks (2 * k) 4 l = words_of (be_value <$> chunks k 8 l).
Proof.
  induction k as [|k IH]; intros l Hb Hl; [done|]; replace (2 * S k)%nat with (S (S (2 * k))) by lia; cbn [chunks fmap list_fmap].
  change (words_of (?x :: ?r)) with (split2 x ++ words_of r).
  rewrite split2_value; [|by apply Forall_take|rewrite length_take; lia]; cbn [app].
  rewrite <- IH; [|by apply Forall_drop|rewrite length_drop; lia].
  rewrite take_take, drop_drop, !take_drop_commute, take_take; done.
Qed.

Lemma chunks_app {A} (a b k : nat) (l r : list A) : length l = (k * a)%nat -> chunks (a + b) k (l ++ r) = chunks a k l ++ chunks b k r.
Proof.
  revert l; induction a as [|a IH]; intros l Hl; cbn [chunks Nat.add app].
  - by destruct l; [|cbn in Hl; lia].
  - rewrite take_app_le, drop_app_le by lia; f_equal; apply IH; rewrite length_drop; lia.
Qed.

Lemma chunks_count {A} n k (l : list A) : length (chunks n k l) = n.
Proof. revert l; induction n as [|n IH]; intros l; cbn; auto. Qed.

Lemma chunks_lookup {A} n k (l : list A) i : (i < n)%nat -> chunks n k l !! i = Some (take k (drop (k * i) l)).
Proof.
  revert l i; induction n as [|n IH]; intros l i Hi; [lia|]; destruct i as [|i]; cbn; [by rewrite Nat.mul_0_r|].
  rewrite IH by lia; rewrite drop_drop; do 2 f_equal; f_equal; lia.
Qed.

(** ** Padding by doublewords *)

Definition pad_words (D : list Z) : list Z :=
  let m := length D in D ++ 2 ^ 63 :: replicate (8 * ((m + 9) / 8) - m - 2) 0 ++ [8 * (8 * Z.of_nat m)].

Lemma block_count m : (m + 2 <= 8 * ((m + 9) / 8))%nat /\ (8 * ((m + 9) / 8) < m + 10)%nat.
Proof. pose proof (Nat.div_mod_eq (m + 9) 8); pose proof (Nat.mod_upper_bound (m + 9) 8); lia. Qed.

Lemma pad_words_length D : length (pad_words D) = (8 * ((length D + 9) / 8))%nat.
Proof.
  unfold pad_words; pose proof (block_count (length D)) as [? _]; set (B := ((length D + 9) / 8)%nat) in *.
  rewrite length_app; cbn [length]; rewrite length_app, length_replicate; cbn [length]; lia.
Qed.

(** ** Loading *)

Definition dword (src : list Z) (a : nat) : Z := be_value (take 8 (drop a src)).

(** [dst'] is [dst] with the bytes from [a] to [b] copied from [src]. *)
Definition copied (src dst dst' : list Z) (a b : nat) : Prop :=
  forall i, dst' !! i = if decide (a <= i < b)%nat then src !! i else dst !! i.

Lemma cld_eq src a : (a + 8 <= length src)%nat -> cld src (Z.of_nat a) = Some (dword src a).
Proof. intros Ha; unfold cld; rewrite (proj2 (Z.leb_le _ _)), (proj2 (Z.leb_le _ _)), Nat2Z.id by lia; done. Qed.

Lemma csd_copied src dst a : byte_list src -> (a + 8 <= length src)%nat -> (a + 8 <= length dst)%nat ->
  exists dst', csd dst (Z.of_nat a) (dword src a) = Some dst' /\ copied src dst dst' a (a + 8) /\ length dst' = length dst.
Proof.
  intros Hb Ha Hd; unfold csd; rewrite (proj2 (Z.leb_le _ _)), (proj2 (Z.leb_le _ _)), Nat2Z.id by lia; eexists; split; [reflexivity|].
  assert (length (take 8 (drop a src)) = 8%nat) as H8 by (rewrite length_take, length_drop; lia).
  assert (be_bytes 8 (dword src a) = take 8 (drop a src)) as ->.
  { unfold dword; rewrite <- H8 at 1; apply be_bytes_value, Forall_take, Forall_drop, Hb. }
  split; [|rewrite !length_app, length_take, H8, length_drop; lia]; intros i; case_decide as D.
  - rewrite lookup_app_r by (rewrite length_take; lia); rewrite length_take, lookup_app_l, lookup_take_lt, lookup_drop by lia; f_equal; lia.
  - destruct (decide (i < a)%nat).
    + by rewrite lookup_app_l, lookup_take_lt by (rewrite ?length_take; lia).
    + rewrite lookup_app_r, lookup_app_r by (rewrite ?length_take; lia); rewrite length_take, H8, lookup_drop; f_equal; lia.
Qed.

Lemma copied_trans src d0 d1 d2 a b c : copied src d0 d1 b c -> copied src d1 d2 a b -> (a <= b <= c)%nat -> copied src d0 d2 a c.
Proof. intros H1 H2 Hle i; rewrite H2, H1; repeat case_decide; try done; lia. Qed.

Lemma copied_refl src d a : copied src d d a a.
Proof. intros i; by rewrite decide_False by lia. Qed.

(** What loading does to the destination. *)
Definition dst_step (copy : bool) (src dst dst' : list Z) (a b : nat) : Prop :=
  if copy then copied src dst dst' a b /\ length dst' = length dst else dst' = dst.

Lemma load_words_eq copy src n : forall ctr w dst, byte_list src -> (ctr + 8 * n <= length src)%nat -> (copy = true -> (ctr + 8 * n <= length dst)%nat) ->
  (n <= length w)%nat ->
  exists dst', load_words copy n src (Z.of_nat ctr) w dst = Some (((fun k => dword src (ctr + 8 * k)) <$> seq 0 n) ++ drop n w, dst') /\
    dst_step copy src dst dst' ctr (ctr + 8 * n).
Proof.
  induction n as [|n IH]; intros ctr w dst Hb Hs Hd Hw; cbn [load_words].
  { exists dst; split; [done|]; unfold dst_step; destruct copy; [split; [|done]; rewrite Nat.add_0_r; apply copied_refl|done]. }
  replace (Z.of_nat ctr + 8 * Z.of_nat n) with (Z.of_nat (ctr + 8 * n)) by lia; rewrite cld_eq by lia; cbn [mbind option_bind].
  set (x := dword src (ctr + 8 * n)).
  assert (exists d1, (if copy then csd dst (Z.of_nat (ctr + 8 * n)) x else Some dst) = Some d1 /\ dst_step copy src dst d1 (ctr + 8 * n) (ctr + 8 * S n)) as (d1 & -> & H1).
  { unfold dst_step; destruct copy; [|by exists dst]; specialize (Hd eq_refl); destruct (csd_copied src dst (ctr + 8 * n) Hb) as (d1 & E & Hc & Hl); [lia|lia|].
    exists d1; split; [done|]; by replace (ctr + 8 * S n)%nat with (ctr + 8 * n + 8)%nat by lia. }
  cbn [mbind option_bind]; destruct (IH ctr (<[n := x]> w) d1 Hb) as (d2 & E & H2); [lia| |rewrite length_insert; lia|].
  { intros ->; destruct H1 as [_ ->]; specialize (Hd eq_refl); lia. }
  rewrite E; exists d2; split.
  - f_equal; f_equal; rewrite seq_S, fmap_app, <- app_assoc; f_equal; cbn.
    rewrite (drop_S _ x n); [|rewrite list_lookup_insert_eq; [done|lia]]; by rewrite drop_insert_lt by lia.
  - unfold dst_step in *; destruct copy; [|congruence]; destruct H1 as [H1 L1], H2 as [H2 L2]; split; [|congruence].
    eapply copied_trans; [exact H1|exact H2|lia].
Qed.

Lemma dst_step_trans copy src dst d1 d2 a b c : (a <= b <= c)%nat -> dst_step copy src dst d1 a b -> dst_step copy src d1 d2 b c -> dst_step copy src dst d2 a c.
Proof.
  unfold dst_step; destruct copy; [|congruence]; intros Hle [H1 L1] [H2 L2]; split; [|congruence].
  intros k; rewrite H2, H1; repeat case_decide; try done; lia.
Qed.

Lemma dst_step_refl copy src dst a : dst_step copy src dst dst a a.
Proof. unfold dst_step; destruct copy; [split; [apply copied_refl|done]|done]. Qed.

Lemma chunks_fold n l H : fold_left compress (words_of <$> chunks (S n) 8 l) H =
  fold_left compress (words_of <$> chunks n 8 (drop 8 l)) (compress H (words_of (take 8 l))).
Proof. done. Qed.

Section Message.

Context (copy : bool) (src D : list Z) (m i0 : nat).
Context (HD : length D = m) (Hb : byte_list src) (Hsrc : (8 * m <= length src)%nat) (Hm : 8 * Z.of_nat m < 2 ^ 60).
Context (Hld : forall k, (8 * i0 <= k < m)%nat -> D !! k = Some (dword src (8 * k))).

Abbreviation len := (8 * Z.of_nat m).

(** The words of the message a chunk takes from memory. *)
Lemma message_words i n : (i0 <= i)%nat -> (8 * i + n <= m)%nat -> take n (drop (8 * i) D) = (fun k => dword src (64 * i + 8 * k)) <$> seq 0 n.
Proof.
  intros Hi Hn; apply list_eq; intros k; rewrite list_lookup_fmap; destruct (decide (k < n)%nat) as [Hk|Hk].
  - rewrite lookup_take_lt, lookup_drop, lookup_seq_lt, Hld by lia; cbn [fmap option_fmap option_map]; do 2 f_equal; lia.
  - rewrite lookup_take_ge, lookup_seq_ge by lia; done.
Qed.

Lemma load_words_message i n w dst : (i0 <= i)%nat -> (8 * i + n <= m)%nat -> (n <= length w)%nat -> (copy = true -> (8 * m <= length dst)%nat) ->
  exists dst', load_words copy n src (64 * Z.of_nat i) w dst = Some (take n (drop (8 * i) D) ++ drop n w, dst') /\
    dst_step copy src dst dst' (64 * i) (64 * i + 8 * n).
Proof.
  intros Hi Hn Hw Hd; rewrite message_words by done; replace (64 * Z.of_nat i) with (Z.of_nat (64 * i)) by lia.
  apply load_words_eq; [done|lia|intros Hc; specialize (Hd Hc); lia|done].
Qed.

Lemma load_chunk_eq i w dst : (i0 <= i < (m + 9) / 8)%nat -> length w = 8%nat -> (copy = true -> (8 * m <= length dst)%nat) ->
  exists dst', load_chunk copy src len (64 * Z.of_nat i) (u64 (len - 64 * Z.of_nat i)) w dst = Some (take 8 (drop (8 * i) (pad_words D)), dst') /\
    dst_step copy src dst dst' (Nat.min (64 * i) (8 * m)) (Nat.min (64 * (i + 1)) (8 * m)).
Proof.
  intros [Hi HB] Hw Hd; pose proof (block_count m) as [HB1 HB2]; unfold load_chunk, bgtz, bltz; cbv zeta.
  replace (u64 (u64 (len - 64 * Z.of_nat i) - (64 - 1))) with (u64 (len - 64 * Z.of_nat i - 63)) by (rewrite wrap_sub_l by lia; done).
  rewrite !signed_u64 by lia; assert (dsll len 3 = 8 * (8 * Z.of_nat m)) as ->.
  { unfold dsll; rewrite Z.shiftl_mul_pow2, wrap_small by (unfold in_range; lia); lia. }
  destruct (decide (8 * i + 8 <= m)%nat) as [Hwhole|Hpart].
  { rewrite (proj2 (Z.ltb_lt _ _)) by lia; destruct (load_words_message i 8 w dst Hi ltac:(lia) ltac:(lia) Hd) as (d & E & Hs); rewrite E; exists d; split.
    - rewrite (drop_ge w 8), app_nil_r by lia; unfold pad_words; rewrite drop_app_le, take_app_le by (rewrite ?length_drop; lia); done.
    - by replace (Nat.min (64 * i) (8 * m)) with (64 * i)%nat by lia; replace (Nat.min (64 * (i + 1)) (8 * m)) with (64 * i + 8 * 8)%nat by lia. }
  rewrite (proj2 (Z.ltb_ge _ _)) by lia; unfold pad_words; rewrite HD; set (L := 8 * (8 * Z.of_nat m)).
  destruct (decide (m < 8 * i)%nat) as [Hneg|Hpos].
  { rewrite (proj2 (Z.ltb_lt _ _)) by lia; exists dst; split.
    - assert (8 * ((m + 9) / 8) - m - 2 = 7)%nat as -> by lia.
      rewrite drop_app_ge by lia; rewrite HD; replace (8 * i - m)%nat with 1%nat by lia; done.
    - replace (Nat.min (64 * i) (8 * m)) with (8 * m)%nat by lia; replace (Nat.min (64 * (i + 1)) (8 * m)) with (8 * m)%nat by lia.
      unfold dst_step; destruct copy; [split; [apply copied_refl|done]|done]. }
  rewrite (proj2 (Z.ltb_ge _ _)) by lia; rewrite wrap_small by (unfold in_range; lia); set (j := (m - 8 * i)%nat).
  assert ((len - 64 * Z.of_nat i) mod 8 = 0) as ->.
  { replace (len - 64 * Z.of_nat i) with ((Z.of_nat m - 8 * Z.of_nat i) * 8) by lia; by apply Z.mod_mul. }
  assert (Z.to_nat ((len - 64 * Z.of_nat i) / 8) = j) as ->.
  { replace (len - 64 * Z.of_nat i) with (Z.of_nat j * 8) by lia; by rewrite Z.div_mul, Nat2Z.id. }
  change (0 =? 0) with true; cbn [negb].
  destruct (load_words_message i j (<[j := 2 ^ 63]> (replicate 7 0 ++ [L])) dst Hi ltac:(lia)) as (d & E & Hs); [rewrite length_insert; cbn; lia|done|].
  rewrite E; exists d; split.
  - do 2 f_equal; rewrite drop_app_le, take_app_ge by (rewrite ?length_drop; lia); rewrite length_drop, HD; fold j; f_equal; [rewrite take_ge; [done|rewrite length_drop; lia]|].
    destruct (decide (j = 7)%nat) as [->|]; [by replace (8 - 7)%nat with 1%nat by lia|].
    assert (8 * ((m + 9) / 8) - m - 2 = 6 - j)%nat as -> by lia.
    assert (j <= 6)%nat as Hj by lia; clear -Hj; do 7 (destruct j as [|j]; [done|]); lia.
  - replace (Nat.min (64 * i) (8 * m)) with (64 * i)%nat by lia; replace (Nat.min (64 * (i + 1)) (8 * m)) with (64 * i + 8 * j)%nat by lia; done.
Qed.

Context (H64 : Forall w64 (pad_words D)).

Lemma process_chunk_eq n : forall i H dst fuel, (i + S n = (m + 9) / 8)%nat -> (i0 <= S i)%nat -> vars_ok H -> (n < fuel)%nat ->
  (copy = true -> (8 * m <= length dst)%nat) ->
  exists dst', process_chunk fuel copy src len (64 * Z.of_nat i) (packv H) (take 8 (drop (8 * i) (pad_words D))) dst =
    Some (packv (fold_left compress (words_of <$> chunks (S n) 8 (drop (8 * i) (pad_words D))) H), dst') /\
    dst_step copy src dst dst' (Nat.min (64 * (i + 1)) (8 * m)) (8 * m).
Proof.
  pose proof (block_count m) as [HB1 HB2]; pose proof (pad_words_length D) as HL; rewrite HD in HL.
  induction n as [|n IH]; intros i H dst fuel HiB Hi0 HH Hf Hd; (destruct fuel as [|fuel]; [lia|]); cbn [process_chunk].
  all: set (P := take 8 (drop (8 * i) (pad_words D))); assert (length P = 8%nat) as HP by (unfold P; rewrite length_take, length_drop; lia).
  all: assert (Forall w64 P) as HPw by (by apply Forall_take, Forall_drop).
  all: destruct (chunk_eq H (words_of P) (64 * Z.of_nat i) HH) as (r & E & Ev); [by rewrite words_of_length, HP|by apply words_of_w32|lia|by rewrite Z.mul_comm, Z.mod_mul|].
  all: rewrite packw_words in E; rewrite E; cbn [mbind option_bind]; rewrite Ev; unfold bltz, dsubu, daddu; rewrite wrap_add_l, signed_u64 by lia.
  - rewrite (proj2 (Z.ltb_lt _ _)) by lia; exists dst; split; [by rewrite chunks_fold|].
    replace (Nat.min (64 * (i + 1)) (8 * m)) with (8 * m)%nat by lia; apply dst_step_refl.
  - rewrite (proj2 (Z.ltb_ge _ _)) by lia; replace (64 * Z.of_nat i + 64) with (64 * Z.of_nat (S i)) by lia.
    destruct (load_chunk_eq (S i) P dst ltac:(lia) HP Hd) as (d1 & -> & H1); cbn [mbind option_bind].
    destruct (IH (S i) (compress H (words_of P)) d1 fuel) as (d2 & E2 & H2); [lia|lia|apply compress_ok|lia| |].
    { intros Hc; specialize (Hd Hc); unfold dst_step in H1; rewrite Hc in H1; destruct H1 as [_ ->]; done. }
    rewrite E2; exists d2; split.
    + rewrite (chunks_fold (S n)), drop_drop; by replace (8 * i + 8)%nat with (8 * S i)%nat by lia.
    + replace (i + 1)%nat with (S i) by lia; eapply dst_step_trans; [|exact H1|exact H2]; lia.
Qed.

End Message.

(** ** The padded message *)

Lemma chunks_group n : forall l : list Z, length l = (64 * n)%nat ->
  chunks n 8 (be_value <$> chunks (8 * n) 8 l) = (fun b => be_value <$> chunks 8 8 b) <$> chunks n 64 l.
Proof.
  induction n as [|n IH]; intros l Hl; [done|].
  assert (chunks (8 * S n) 8 l = chunks 8 8 (take 64 l) ++ chunks (8 * n) 8 (drop 64 l)) as E.
  { rewrite <- (take_drop 64 l) at 1; replace (8 * S n)%nat with (8 + 8 * n)%nat by lia; apply chunks_app; rewrite length_take; lia. }
  change (chunks (S n) 64 l) with (take 64 l :: chunks n 64 (drop 64 l)); rewrite fmap_cons, <- IH by (rewrite length_drop; lia); rewrite E, fmap_app.
  set (a := be_value <$> chunks 8 8 (take 64 l)); set (c := be_value <$> chunks (8 * n) 8 (drop 64 l)).
  assert (length a = 8%nat) as Ha by (unfold a; by rewrite length_fmap, chunks_count).
  change (chunks (S n) 8 (a ++ c)) with (take 8 (a ++ c) :: chunks n 8 (drop 8 (a ++ c))); by rewrite take_app_length', drop_app_length'.
Qed.

Lemma blocks_words p n : byte_list p -> length p = (64 * n)%nat -> blocks p = words_of <$> chunks n 8 (be_value <$> chunks (8 * n) 8 p).
Proof.
  intros Hb Hl; unfold blocks; assert (length p / 64 = n)%nat as -> by (rewrite Hl, Nat.mul_comm; by apply Nat.div_mul); rewrite chunks_group, <- list_fmap_compose by done.
  apply list_eq; intros i; rewrite !list_lookup_fmap; destruct (decide (i < n)%nat) as [Hi|Hi].
  - rewrite chunks_lookup by done; cbn [fmap option_fmap option_map]; f_equal; unfold compose; apply (chunk_words 8).
    + by apply Forall_take, Forall_drop.
    + rewrite length_take, length_drop; lia.
  - by rewrite lookup_ge_None_2 by (rewrite chunks_count; lia).
Qed.

Lemma chunks_zeros n : be_value <$> chunks n 8 (replicate (8 * n) 0) = replicate n 0.
Proof.
  induction n as [|n IH]; [done|]; cbn [chunks fmap list_fmap]; rewrite take_replicate, drop_replicate, Nat.min_l by lia.
  replace (8 * S n - 8)%nat with (8 * n)%nat by lia; rewrite IH; done.
Qed.

Lemma pad_eq msg m : length msg = (8 * m)%nat -> 8 * Z.of_nat m < 2 ^ 60 ->
  length (pad msg) = (64 * ((m + 9) / 8))%nat /\ be_value <$> chunks (8 * ((m + 9) / 8)) 8 (pad msg) = pad_words (be_value <$> chunks m 8 msg).
Proof.
  intros Hl Hm; pose proof (block_count m) as [HB1 HB2]; set (B := ((m + 9) / 8)%nat) in *; unfold pad; rewrite Hl.
  assert (Z.to_nat ((55 - Z.of_nat (8 * m)) mod 64) = 7 + 8 * (8 * B - m - 2))%nat as ->.
  { assert ((55 - Z.of_nat (8 * m)) mod 64 = 64 * Z.of_nat B - 8 * Z.of_nat m - 9) as ->; [symmetry; apply Z.mod_unique with (- (Z.of_nat B - 1)); lia|lia]. }
  set (z := (8 * B - m - 2)%nat) in *; split.
  { rewrite length_app; cbn [length]; rewrite length_app, length_replicate, be_bytes_length; lia. }
  rewrite replicate_add; change (128 :: (replicate 7 0 ++ ?r) ++ ?t) with ((128 :: replicate 7 0) ++ r ++ t).
  replace (8 * B)%nat with (m + (1 + (z + 1)))%nat by lia; rewrite !chunks_app by (rewrite ?length_replicate; cbn; lia).
  rewrite !fmap_app, chunks_zeros; unfold pad_words; rewrite length_fmap, chunks_count; fold B z; f_equal.
  change (be_value <$> chunks 1 8 (128 :: replicate 7 0)) with [2 ^ 63]; cbn [app]; do 2 f_equal.
  cbn [chunks fmap list_fmap]; rewrite take_ge by (rewrite be_bytes_length; lia); rewrite be_value_bytes, Z.mod_small; [f_equal; lia|].
  change (2 ^ (8 * Z.of_nat 8)) with (2 ^ 64); lia.
Qed.

Lemma pad_bytes msg : byte_list msg -> byte_list (pad msg).
Proof.
  intros H; unfold pad; apply Forall_app; split; [done|]; apply Forall_cons; split; [lia|]; apply Forall_app; split; [|apply be_bytes_byte].
  apply Forall_replicate; lia.
Qed.

(** ** The result *)

Lemma init_regs_eq : init_regs = packv init_vars.
Proof. vm_compute; reflexivity. Qed.

Lemma init_vars_ok : vars_ok init_vars.
Proof. unfold vars_ok, w32; vm_compute; repeat split; done || (intros; discriminate). Qed.

Lemma land_low a e : w32 e -> Z.land (pack a e) (2 ^ 32 - 1) = e.
Proof. intros He; change (2 ^ 32 - 1) with (Z.ones 32); rewrite Z.land_ones by lia; by apply u32_pack. Qed.

Lemma lor_pack a b : w32 b -> Z.lor (Z.shiftl a 32) b = pack a b.
Proof. intros Hb; rewrite Z.lor_comm, lor_shiftl by (done || lia); unfold pack; lia. Qed.

Lemma hash_finish_eq H : vars_ok H -> hash_finish (packv H) = [pack (va H) (vb H); pack (vc H) (vd H); pack (ve H) (vf H); pack (vg H) (vh H)].
Proof.
  intros (? & ? & ? & ? & ? & ? & ? & ?); unfold hash_finish, packv; cbv zeta; cbn [ae bf cg dh].
  rewrite !land_high, !land_low, !dsll_eq, !u32_pack, !dsrl_pack by (done || by rewrite dsrl_pack); by rewrite !lor_pack.
Qed.

Lemma be_bytes_pack a b : w32 b -> be_bytes 8 (pack a b) = be_bytes 4 a ++ be_bytes 4 b.
Proof.
  intros Hb; assert (forall n, (n <= 4)%nat -> be_bytes n (pack a b) = be_bytes n b) as Hlo.
  { intros n Hn; rewrite <- (be_bytes_mod n (pack a b)), <- (be_bytes_mod n b); f_equal; unfold pack.
    replace (2 ^ 32) with (2 ^ (32 - 8 * Z.of_nat n) * 2 ^ (8 * Z.of_nat n)) by (rewrite <- Z.pow_add_r by lia; f_equal; lia).
    rewrite Z.mul_assoc, Z.add_comm; apply Z.mod_add; pose proof (Z.pow_pos_nonneg 2 (8 * Z.of_nat n)); lia. }
  assert (forall n, be_bytes (4 + n) (pack a b) = be_bytes n a ++ be_bytes 4 b) as Hhi; [|apply (Hhi 4%nat)].
  intros n; induction n as [|n IH]; [by rewrite Hlo|]; replace (4 + S n)%nat with (S (4 + n)) by lia; rewrite !be_bytes_S, IH; cbn [app]; do 2 f_equal.
  replace (8 * Z.of_nat (4 + n)) with (32 + 8 * Z.of_nat n) by lia; rewrite <- Z.shiftr_shiftr by lia; f_equal; by apply dsrl_pack.
Qed.

Lemma digest_eq H : vars_ok H -> mjoin (be_bytes 8 <$> hash_finish (packv H)) = digest H.
Proof.
  intros HH; rewrite hash_finish_eq by done; destruct HH as (? & ? & ? & ? & ? & ? & ? & ?); unfold digest; cbn [fmap list_fmap mjoin list_join].
  rewrite !be_bytes_pack by done; by rewrite <- !app_assoc.
Qed.

Lemma compress_fold l : forall H, vars_ok H -> vars_ok (fold_left compress l H).
Proof. induction l as [|M l IH]; intros H HH; [done|]; apply IH, compress_ok. Qed.

(** The run over a message whose doublewords are in memory from block [i0] on. *)
Lemma run_eq copy src msg m i0 dst fuel : (i0 <= 1)%nat -> byte_list src -> byte_list msg -> (8 * m <= length src)%nat -> length msg = (8 * m)%nat -> 8 * Z.of_nat m < 2 ^ 60 ->
  (forall k, (8 * i0 <= k < m)%nat -> take 8 (drop (8 * k) msg) = take 8 (drop (8 * k) src)) -> (m / 8 + 2 < fuel)%nat ->
  (copy = true -> (8 * m <= length dst)%nat) ->
  exists dst', process_chunk fuel copy src (8 * Z.of_nat m) 0 init_regs (take 8 (pad_words (be_value <$> chunks m 8 msg))) dst =
    Some (packv (fold_left compress (blocks (pad msg)) init_vars), dst') /\ dst_step copy src dst dst' (Nat.min 64 (8 * m)) (8 * m).
Proof.
  intros Hi0 Hbs Hbm Hs Hl Hm Hld Hf Hd; destruct (pad_eq msg m Hl Hm) as [HP E]; pose proof (block_count m) as [HB1 HB2].
  set (D := be_value <$> chunks m 8 msg) in *; assert (length D = m) as HD by (unfold D; by rewrite length_fmap, chunks_count).
  assert (Forall w64 (pad_words D)) as H64.
  { rewrite <- E; apply Forall_fmap, Forall_lookup; intros i x Hx; pose proof (lookup_lt_Some _ _ _ Hx) as Hi; rewrite chunks_count in Hi.
    rewrite chunks_lookup in Hx by done; simplify_eq; assert (byte_list (take 8 (drop (8 * i) (pad msg)))) as Hb by (by apply Forall_take, Forall_drop, pad_bytes).
    pose proof (be_value_range _ Hb) as Hr; rewrite length_take, length_drop, Nat.min_l in Hr by lia; exact Hr. }
  assert (m / 8 <= (m + 9) / 8 <= m / 8 + 2)%nat as HB3.
  { split; [apply Nat.Div0.div_le_mono; lia|]; transitivity ((m + 2 * 8) / 8)%nat; [apply Nat.Div0.div_le_mono; lia|rewrite Nat.div_add; lia]. }
  assert (exists n, (m + 9) / 8 = S n)%nat as [n HS] by (exists ((m + 9) / 8 - 1)%nat; lia).
  pose proof init_vars_ok as HV; destruct (process_chunk_eq copy src D m i0 HD Hbs Hs Hm) with (n := n) (i := 0%nat) (H := init_vars) (dst := dst) (fuel := fuel) as (d & Er & Hst); try done; try lia.
  { intros k Hk; unfold D; rewrite list_lookup_fmap, chunks_lookup by lia; cbn; f_equal; unfold dword; f_equal; by apply Hld. }
  exists d; split; [|exact Hst]; rewrite init_regs_eq, (blocks_words (pad msg) ((m + 9) / 8)), E by (done || by apply pad_bytes).
  change (64 * Z.of_nat 0) with 0 in Er; rewrite Nat.mul_0_r, drop_0, <- HS in Er; exact Er.
Qed.

Lemma copied_eq src dst dst' a b : copied src dst dst' a b -> length dst' = length dst -> (a <= b)%nat -> (b <= length src)%nat -> (b <= length dst)%nat ->
  dst' = take a dst ++ take (b - a) (drop a src) ++ drop b dst.
Proof.
  intros H Hl Hab Hs Hd; apply list_eq; intros i; rewrite H; case_decide.
  - rewrite lookup_app_r by (rewrite length_take; lia); rewrite length_take, lookup_app_l, lookup_take_lt, lookup_drop by (rewrite ?length_take, ?length_drop; lia).
    f_equal; lia.
  - destruct (decide (i < a)%nat).
    + by rewrite lookup_app_l, lookup_take_lt by (rewrite ?length_take; lia).
    + rewrite !lookup_app_r by (rewrite ?length_take, ?length_drop; lia); rewrite !length_take, length_drop, lookup_drop; f_equal; lia.
Qed.

Section Result.

Context (src : list Z) (m fuel : nat).
Context (Hb : byte_list src) (Hs : (8 * m <= length src)%nat) (Hm : 8 * Z.of_nat m < 2 ^ 60) (Hf : (m / 8 + 2 < fuel)%nat).

Lemma sha256_regs_eq copy dst w : length w = 8%nat -> (copy = true -> (8 * m <= length dst)%nat) ->
  exists out dst', sha256_regs fuel copy src dst (8 * Z.of_nat m) w = Some (out, dst') /\
    mjoin (be_bytes 8 <$> out) = sha256_spec (take (8 * m) src) /\ length out = 4%nat /\ dst_step copy src dst dst' 0 (8 * m).
Proof.
  intros Hw Hd; unfold sha256_regs, dsrl; rewrite Z.shiftr_div_pow2, Z.div_small by lia; change (dsll 0 63) with 0; change (0 =? 0) with true; cbn [negb].
  rewrite Z.lxor_0_r; set (msg := take (8 * m) src); assert (length msg = 8 * m)%nat as Hl by (unfold msg; rewrite length_take; lia).
  assert (forall k, (k < m)%nat -> take 8 (drop (8 * k) msg) = take 8 (drop (8 * k) src)) as Hms.
  { intros k Hk; unfold msg; rewrite !take_drop_commute, take_take; do 2 f_equal; lia. }
  pose proof (block_count m) as [HB1 HB2].
  destruct (load_chunk_eq copy src (be_value <$> chunks m 8 msg) m 0) with (i := 0%nat) (w := w) (dst := dst) as (d1 & E1 & H1); try done; try lia.
  { by rewrite length_fmap, chunks_count. }
  { intros k Hk; rewrite list_lookup_fmap, chunks_lookup by lia; cbn; f_equal; unfold dword; f_equal; apply Hms; lia. }
  replace (u64 (8 * Z.of_nat m - 64 * Z.of_nat 0)) with (8 * Z.of_nat m) in E1 by (rewrite wrap_small; unfold in_range; lia).
  change (64 * Z.of_nat 0) with 0 in E1; rewrite E1; cbn [mbind option_bind]; rewrite Nat.mul_0_r, drop_0.
  destruct (run_eq copy src msg m 0 d1 fuel) as (d2 & E2 & H2); try done; try lia.
  { by apply Forall_take. }
  { intros k Hk; apply Hms; lia. }
  { intros Hc; specialize (Hd Hc); rewrite Hc in H1; destruct H1 as [_ ->]; done. }
  rewrite E2; cbn [mbind option_bind]; eexists _, d2; split; [reflexivity|]; split; [apply digest_eq, compress_fold, init_vars_ok|]; split; [done|].
  eapply dst_step_trans; [|exact H1|exact H2]; lia.
Qed.

Lemma sha256_loaded_eq dst blk : byte_list blk -> length blk = 64%nat -> (8 <= m)%nat -> (8 * m <= length dst)%nat ->
  exists out dst', sha256_regs fuel true src dst (2 ^ 63 + 8 * Z.of_nat m) (be_value <$> chunks 8 8 blk) = Some (out, dst') /\
    mjoin (be_bytes 8 <$> out) = sha256_spec (blk ++ drop 64 (take (8 * m) src)) /\ dst_step true src dst dst' 64 (8 * m).
Proof.
  intros Hbb Hbl Hm8 Hd; unfold sha256_regs, dsrl; rewrite Z.shiftr_div_pow2 by lia.
  assert ((2 ^ 63 + 8 * Z.of_nat m) / 2 ^ 63 = 1) as -> by (symmetry; apply Z.div_unique with (8 * Z.of_nat m); lia).
  change (dsll 1 63) with (Z.shiftl 1 63); change (Z.shiftl 1 63 =? 0) with false; cbn [negb mbind option_bind].
  assert (Z.lxor (2 ^ 63 + 8 * Z.of_nat m) (Z.shiftl 1 63) = 8 * Z.of_nat m) as ->.
  { replace (2 ^ 63 + 8 * Z.of_nat m) with (Z.lxor (8 * Z.of_nat m) (Z.shiftl 1 63)) by (rewrite lxor_shiftl by lia; lia).
    by rewrite Z.lxor_assoc, Z.lxor_nilpotent, Z.lxor_0_r. }
  set (msg := blk ++ drop 64 (take (8 * m) src)).
  assert (length msg = 8 * m)%nat as Hl by (unfold msg; rewrite length_app, length_drop, length_take; lia).
  assert (be_value <$> chunks 8 8 blk = take 8 (pad_words (be_value <$> chunks m 8 msg))) as ->.
  { unfold pad_words; rewrite take_app_le by (rewrite length_fmap, chunks_count; lia); unfold msg.
    replace m with (8 + (m - 8))%nat at 1 by lia; rewrite chunks_app, fmap_app, take_app_length' by (done || by rewrite length_fmap, chunks_count); done. }
  destruct (run_eq true src msg m 1 dst fuel) as (d2 & E2 & H2); try done; try lia.
  { apply Forall_app; split; [done|]; by apply Forall_drop, Forall_take. }
  { intros k Hk; unfold msg; rewrite drop_app_ge, Hbl, drop_drop by lia; replace (64 + (8 * k - 64))%nat with (8 * k)%nat by lia.
    rewrite !take_drop_commute, take_take; do 2 f_equal; lia. }
  rewrite E2; cbn [mbind option_bind]; eexists _, d2; split; [reflexivity|]; split; [apply digest_eq, compress_fold, init_vars_ok|].
  by replace (Nat.min 64 (8 * m)) with 64%nat in H2 by lia.
Qed.

End Result.

(** Four stores of a doubleword. *)
Lemma store4 dst a b c d : (32 <= length dst)%nat ->
  (dst ← csd dst 0 a; dst ← csd dst 8 b; dst ← csd dst 16 c; csd dst 24 d) = Some (mjoin (be_bytes 8 <$> [a; b; c; d]) ++ drop 32 dst).
Proof.
  intros Hl; assert (forall pre x (r : list Z) n, length pre = n -> (8 <= length r)%nat -> csd (pre ++ r) (Z.of_nat n) x = Some ((pre ++ be_bytes 8 x) ++ drop 8 r)) as H.
  { intros pre x r n Hp Hr; unfold csd; rewrite length_app, (proj2 (Z.leb_le _ _)), (proj2 (Z.leb_le _ _)), Nat2Z.id by lia; cbn [andb].
    by rewrite take_app_length', drop_app_ge, <- app_assoc by lia; replace (n + 8 - length pre)%nat with 8%nat by lia. }
  change dst with ([] ++ dst) at 1; change 0 with (Z.of_nat 0); rewrite H by (done || lia); cbn [mbind option_bind].
  change 8 with (Z.of_nat 8); rewrite H by (rewrite ?length_app, ?be_bytes_length, ?length_drop; cbn; lia); cbn [mbind option_bind].
  change 16 with (Z.of_nat 16); rewrite H by (rewrite ?length_app, ?be_bytes_length, ?length_drop; cbn; lia); cbn [mbind option_bind].
  change 24 with (Z.of_nat 24); rewrite H by (rewrite ?length_app, ?be_bytes_length, ?length_drop; cbn; lia).
  rewrite !drop_drop; cbn [fmap list_fmap mjoin list_join app]; by rewrite app_nil_r, <- !app_assoc.
Qed.

(** ** Properties *)

(** C12: the MIPS assembly computes SHA-256.  For a message of any number of
    doublewords, [sha256] stores the digest of FIPS 180-4; [sha256_copy]
    returns it in registers and copies the message; and with the first block
    in the window it hashes that block and the rest of the memory.  The
    constants in the code are the roots of primes of the standard. *)
Theorem sha256_mips_correct src dst m fuel : byte_list src -> (8 * m <= length src)%nat -> 8 * Z.of_nat m < 2 ^ 60 -> (m / 8 + 2 < fuel)%nat ->
  ((32 <= length dst)%nat -> sha256 fuel src dst (8 * Z.of_nat m) = Some (sha256_spec (take (8 * m) src) ++ drop 32 dst)) /\
  ((8 * m <= length dst)%nat ->
   (forall w, length w = 8%nat -> exists out, sha256_copy fuel src dst (8 * Z.of_nat m) w = Some (out, take (8 * m) src ++ drop (8 * m) dst) /\
      mjoin (be_bytes 8 <$> out) = sha256_spec (take (8 * m) src)) /\
   (forall blk, byte_list blk -> length blk = 64%nat -> (8 <= m)%nat ->
      exists out, sha256_copy fuel src dst (2 ^ 63 + 8 * Z.of_nat m) (be_value <$> chunks 8 8 blk) =
        Some (out, take 64 dst ++ drop 64 (take (8 * m) src) ++ drop (8 * m) dst) /\
      mjoin (be_bytes 8 <$> out) = sha256_spec (blk ++ drop 64 (take (8 * m) src)))) /\
  k_words = K256 /\ init_regs = packv init_vars.
Proof.
  intros Hb Hs Hm Hf; split; [|split; [|split; [exact k_words_K256|exact init_regs_eq]]].
  - intros Hd; unfold sha256; destruct (sha256_regs_eq src m fuel Hb Hs Hm Hf false dst (replicate 8 0)) as (out & d & -> & Ho & Hl & ->); [done|done|].
    cbn [mbind option_bind]; destruct out as [|a [|b [|c [|d [|]]]]]; try done; rewrite store4, Ho by done; done.
  - intros Hd; split.
    + intros w Hw; destruct (sha256_regs_eq src m fuel Hb Hs Hm Hf true dst w Hw ltac:(done)) as (out & d & E & Ho & _ & [Hc Hl]).
      exists out; split; [|done]; unfold sha256_copy; rewrite E; do 2 f_equal; rewrite (copied_eq _ _ _ _ _ Hc Hl) by lia.
      by rewrite Nat.sub_0_r, drop_0.
    + intros blk Hbb Hbl Hm8; destruct (sha256_loaded_eq src m fuel Hb Hs Hm Hf dst blk Hbb Hbl Hm8 Hd) as (out & d & E & Ho & [Hc Hl]).
      exists out; split; [|done]; unfold sha256_copy; rewrite E; do 2 f_equal; rewrite (copied_eq _ _ _ _ _ Hc Hl) by lia.
      do 2 f_equal; rewrite take_drop_commute; do 2 f_equal; lia.
Qed.

Lemma sha256_mips_correct_witness :
  sha256 5 (replicate 56 0x61) (replicate 40 0) 56 = Some (sha256_spec (replicate 56 0x61) ++ replicate 8 0) /\
  take 4 (sha256_spec (replicate 56 0x61)) = [0xb3; 0x54; 0x39; 0xa4].
Proof.
  destruct (sha256_mips_correct (replicate 56 0x61) (replicate 40 0) 7 5) as (H & _); [apply Forall_replicate; lia|cbn; lia|lia|cbn; lia|].
  split; [exact (H ltac:(cbn; lia))|vm_compute; reflexivity].
Defined.
