(* ===== verification/Sha256Riscv.v ===== *)
(** * The RISC-V SHA-256 routine (sha256/src/platform/riscv/sha256.S)

    The routine [sha256_copy] of the nanokernel, which measures the code of a
    foundation while it copies it; the other build does not assemble, because
    it jumps to a label that only this one has.  It is written after the MIPS
    routine of [Sha256Mips], but on this processor [srl] and [sll] shift whole
    registers and memory is little-endian.

    One [let] per instruction, [None] is a trap. *)

From S2P Require Import Prelude Sha256 Sha256Mips.


(** ** Instructions *)

Definition srl (x n : Z) : Z := Z.shiftr x n.
Definition sll (x n : Z) : Z := u64 (Z.shiftl x n).
Definition srlw (x n : Z) : Z := sext32 (Z.shiftr (u32 x) n).
Definition add (a b : Z) : Z := u64 (a + b).
Definition sub (a b : Z) : Z := u64 (a - b).
Definition addw (a b : Z) : Z := sext32 (a + b).
Definition blt (a b : Z) : bool := signed 64 a <? signed 64 b.

(** Little-endian doublewords. *)
Definition cld (m : list Z) (a : Z) : option Z :=
  if (0 <=? a) && (a + 8 <=? Z.of_nat (length m)) then Some (be_value (reverse (take 8 (drop (Z.to_nat a) m)))) else None.

Definition csd (m : list Z) (a x : Z) : option (list Z) :=
  if (0 <=? a) && (a + 8 <=? Z.of_nat (length m)) then Some (take (Z.to_nat a) m ++ reverse (be_bytes 8 x) ++ drop (Z.to_nat a + 8) m) else None.

(** ** Macros *)

Definition Mrotr (S V : Z) : Z :=
  let rot_tmp := srl S V in
  let D := sll S (32 - V) in
  Z.lor D rot_tmp.

Definition TRUNCATE32 (R : Z) : Z :=
  let R := sll R 32 in
  srl R 32.

Definition VECTOR_ADD (A B mask : Z) : Z :=
  let tmp0 := Z.lxor A B in
  let A := Z.land A mask in
  let B := Z.land B mask in
  let tmp0 := Z.land tmp0 mask in
  let A := add A B in
  Z.lxor A tmp0.

Definition HASH_ROUND (_ae _bf _cg _dh _k _wi : Z) : Z :=
  let tmp3 := _k in
  let tmp1 := Z.lxor _bf _cg in
  let tmp3 := addw tmp3 _wi in
  let tmp0 := Mrotr _ae 6 in
  let tmp1 := Z.land tmp1 _ae in
  let tmp2 := Mrotr _ae 11 in
  let tmp1 := Z.lxor tmp1 _cg in
  let tmp0 := Z.lxor tmp0 tmp2 in
  let tmp3 := addw tmp3 tmp1 in
  let tmp2 := Mrotr _ae 25 in
  let tmp3 := addw tmp3 _dh in
  let tmp0 := Z.lxor tmp0 tmp2 in
  let tmp1 := srl _ae 32 in
  let tmp3 := addw tmp3 tmp0 in
  let tmp0 := Mrotr tmp1 2 in
  let tmp2 := Mrotr tmp1 13 in
  let tmp1 := Mrotr tmp1 22 in
  let tmp0 := Z.lxor tmp0 tmp2 in
  let tmp2 := Z.lor _ae _bf in
  let tmp0 := Z.lxor tmp0 tmp1 in
  let tmp1 := Z.land _ae _bf in
  let _dh := srl _dh 32 in
  let tmp2 := Z.land tmp2 _cg in
  let _dh := addw _dh tmp3 in
  let tmp2 := Z.lor tmp2 tmp1 in
  let tmp3 := addw tmp3 tmp0 in
  let tmp2 := srl tmp2 32 in
  let tmp3 := addw tmp3 tmp2 in
  let _dh := TRUNCATE32 _dh in
  let tmp3 := sll tmp3 32 in
  Z.lor _dh tmp3.

Definition CALC_WINDOW (_w0_1 _w2_3 _w8_9 _w10_11 _w14_15 : Z) : Z :=
  let tmp1 := srl _w14_15 32 in
  let _w16_17 := Mrotr _w0_1 7 in
  let tmp0 := Mrotr tmp1 17 in
  let tmp2 := Mrotr tmp1 19 in
  let tmp1 := srlw tmp1 10 in
  let tmp0 := Z.lxor tmp0 tmp2 in
  let tmp2 := Mrotr _w0_1 18 in
  let tmp0 := Z.lxor tmp0 tmp1 in
  let _w16_17 := Z.lxor _w16_17 tmp2 in
  let tmp2 := srl _w10_11 32 in
  let tmp1 := srl _w0_1 3 in
  let tmp2 := add tmp2 _w0_1 in
  let _w0_1 := srl _w0_1 32 in
  let _w16_17 := Z.lxor _w16_17 tmp1 in
  let _w0_1 := addw _w0_1 _w8_9 in
  let _w16_17 := addw _w16_17 tmp0 in
  let tmp1 := srl _w2_3 32 in
  let _w16_17 := addw _w16_17 _w0_1 in
  let tmp0 := Mrotr tmp1 7 in
  let _w0_1 := Mrotr tmp1 18 in
  let tmp1 := srl tmp1 3 in
  let tmp0 := Z.lxor tmp0 _w0_1 in
  let _w0_1 := Mrotr _w14_15 17 in
  let tmp0 := Z.lxor tmp0 tmp1 in
  let tmp1 := Mrotr _w14_15 19 in
  let _w16_17 := sll _w16_17 32 in
  let _w0_1 := Z.lxor _w0_1 tmp1 in
  let tmp1 := srl _w14_15 10 in
  let tmp2 := addw tmp2 tmp0 in
  let _w0_1 := Z.lxor _w0_1 tmp1 in
  let tmp2 := addw tmp2 _w0_1 in
  let tmp2 := TRUNCATE32 tmp2 in
  Z.lor _w16_17 tmp2.

(** ** The routine *)

Definition four_rounds (K : Z) (r : regs) (w0_1 w2_3 : Z) : option regs :=
  let '(mk_regs ae bf cg dh) := r in
  k0 ← clwu K; k1 ← clwu (K + 4); k2 ← clwu (K + 8); k3 ← clwu (K + 12);
  let tmp2 := srl w0_1 32 in
  let dh := HASH_ROUND ae bf cg dh k0 tmp2 in
  let cg := HASH_ROUND dh ae bf cg k1 w0_1 in
  let tmp2 := srl w2_3 32 in
  let bf := HASH_ROUND cg dh ae bf k2 tmp2 in
  let ae := HASH_ROUND bf cg dh ae k3 w2_3 in
  Some (mk_regs ae bf cg dh).

(** [K_CAP] is set to its start on every turn. *)
Fixpoint continue_chunk (n : nat) (ctr : Z) (r : regs) (w : window) : option (Z * regs) :=
  match n, w with
  | S n, [w0_1; w2_3; w4_5; w6_7; w8_9; w10_11; w12_13; w14_15] =>
      let K := 0 in
      r ← four_rounds K r w0_1 w2_3;
      let ctr := add ctr 4 in
      let tmp0 := Z.land ctr (0x40 - 1) in
      if tmp0 =? 0 then Some (ctr, r)
      else
        let tmp3 := w2_3 in
        let w2_3 := w6_7 in
        let w6_7 := w10_11 in
        let w10_11 := w14_15 in
        let w14_15 := w0_1 in
        let w0_1 := w4_5 in
        let w4_5 := w8_9 in
        let w8_9 := w12_13 in
        let tmp1 := 52 in
        if tmp1 <=? tmp0 then continue_chunk n ctr r [w0_1; w2_3; w4_5; w6_7; w8_9; w10_11; w12_13; w14_15]
        else
          let w12_13 := CALC_WINDOW w14_15 tmp3 w4_5 w6_7 w10_11 in
          let w14_15 := CALC_WINDOW tmp3 w0_1 w6_7 w8_9 w12_13 in
          continue_chunk n ctr r [w0_1; w2_3; w4_5; w6_7; w8_9; w10_11; w12_13; w14_15]
  | _, _ => None
  end.

(** The last [n] entries of the copy table; [pos] is how far [IN_CAP] and
    [OUT_CAP] have moved. *)
Fixpoint load_words (n : nat) (src : list Z) (pos : Z) (w : window) (dst : list Z) : option (window * list Z) :=
  match n with
  | O => Some (w, dst)
  | S n =>
      x ← cld src (pos + 8 * Z.of_nat n);
      dst ← csd dst (pos + 8 * Z.of_nat n) x;
      load_words n src pos (<[n := x]> w) dst
  end.

(** The window, the position and the destination, or [None] for the end. *)
Definition load_chunk (src : list Z) (len_arg ctr pos : Z) (w : window) (dst : list Z) : option (option (window * Z * list Z)) :=
  let tmp1 := sub len_arg ctr in
  let tmp0 := u64 (-16) in
  if blt tmp1 tmp0 then Some None
  else
    let tmp0 := 0x40 in
    if negb (blt tmp1 tmp0) then '(w, dst) ← load_words 8 src pos w dst; Some (Some (w, pos + 64, dst))
    else
      let w := replicate 7 0 ++ [sll len_arg 3] in
      if blt tmp1 0 then Some (Some (w, pos, dst))
      else if negb (tmp1 mod 8 =? 0) then None
      else
        let tmp3 := 2 ^ 63 in
        let w := <[Z.to_nat (tmp1 / 8) := tmp3]> w in
        '(w, dst) ← load_words (Z.to_nat (tmp1 / 8)) src pos w dst; Some (Some (w, pos + 64, dst)).

Fixpoint process_chunk (fuel : nat) (src : list Z) (len_arg ctr pos : Z) (h : regs) (w : window) (dst : list Z) : option (regs * list Z) :=
  match fuel with
  | O => None
  | S fuel =>
      '(ctr, r) ← continue_chunk 16 ctr h w;
      let tmp2 := high_mask in
      let h := mk_regs (VECTOR_ADD (ae h) (ae r) tmp2) (VECTOR_ADD (bf h) (bf r) tmp2)
                       (VECTOR_ADD (cg h) (cg r) tmp2) (VECTOR_ADD (dh h) (dh r) tmp2) in
      l ← load_chunk src len_arg ctr pos w dst;
      match l with
      | None => Some (h, dst)
      | Some (w, pos, dst) => process_chunk fuel src len_arg ctr pos h w dst
      end
  end.

Definition hash_finish (h : regs) : list Z :=
  let tmp0 := high_mask in
  let tmp3 := 2 ^ 32 - 1 in
  let out_h0_1 := Z.land (ae h) tmp0 in
  let tmp1 := srl (bf h) 32 in
  let out_h2_3 := Z.land (cg h) tmp0 in
  let out_h0_1 := Z.lor out_h0_1 tmp1 in
  let tmp1 := srl (dh h) 32 in
  let out_h4_5 := sll (ae h) 32 in
  let out_h2_3 := Z.lor out_h2_3 tmp1 in
  let tmp1 := Z.land (bf h) tmp3 in
  let out_h6_7 := sll (cg h) 32 in
  let out_h4_5 := Z.lor out_h4_5 tmp1 in
  let tmp1 := Z.land (dh h) tmp3 in
  let out_h6_7 := Z.lor out_h6_7 tmp1 in
  [out_h0_1; out_h2_3; out_h4_5; out_h6_7].

Definition sha256_copy (fuel : nat) (src dst : list Z) (len_arg : Z) (w : window) : option (list Z * list Z) :=
  let ctr := 0 in
  let tmp1 := srl len_arg 63 in
  let tmp1 := sll tmp1 63 in
  let len_arg := Z.lxor len_arg tmp1 in
  l ← (if negb (tmp1 =? 0) then Some (Some (w, 0, dst)) else load_chunk src len_arg ctr 0 w dst);
  match l with
  | None => Some (hash_finish init_regs, dst)
  | Some (w, pos, dst) =>
      '(h, dst) ← process_chunk fuel src len_arg ctr pos init_regs w dst;
      Some (hash_finish h, dst)
  end.

(** ** The run *)

Lemma four_rounds_some r w0_1 w2_3 : exists r', four_rounds 0 r w0_1 w2_3 = Some r'.
Proof. destruct r; unfold four_rounds; eexists; reflexivity. Qed.

Lemma list8 (w : window) : length w = 8%nat -> exists a b c d e f g h, w = [a; b; c; d; e; f; g; h].
Proof. intros H; do 8 (destruct w as [|? w]; [done|]); destruct w; [|done]; by repeat eexists. Qed.

Lemma continue_chunk_some n : forall g ctr r w, length w = 8%nat -> (g + S n = 16)%nat -> 0 <= ctr /\ ctr + 4 * Z.of_nat (S n) < 2 ^ 64 - 64 ->
  ctr mod 64 = 4 * Z.of_nat g -> exists r', continue_chunk (S n) ctr r w = Some (ctr + 4 * Z.of_nat (S n), r').
Proof.
  induction n as [|n IH]; intros g ctr r w Hw Hg Hc Hm; destruct (list8 w Hw) as (w0 & w1 & w2 & w3 & w4 & w5 & w6 & w7 & ->);
    destruct (four_rounds_some r w0 w1) as [r' E]; destruct (ctr_step ctr g ltac:(lia) Hm ltac:(lia)) as [EC EL];
    unfold continue_chunk; fold continue_chunk; rewrite E; cbn [mbind option_bind]; change (add ctr 4) with (daddu ctr 4); rewrite EC; change (64 - 1) with 63; rewrite EL.
  - rewrite decide_True by lia; by exists r'.
  - rewrite decide_False by lia; rewrite (proj2 (Z.eqb_neq _ _)) by lia.
    assert ((ctr + 4) mod 64 = 4 * Z.of_nat (S g)) as Hm' by (rewrite Z.add_mod, Hm by lia; change (4 mod 64) with 4; rewrite Z.mod_small; lia).
    replace (ctr + 4 * Z.of_nat (S (S n))) with (ctr + 4 + 4 * Z.of_nat (S n)) by lia.
    destruct (52 <=? 4 * Z.of_nat (S g)); refine (IH (S g) (ctr + 4) r' [_; _; _; _; _; _; _; _] eq_refl _ _ Hm'); lia.
Qed.

(** The sum of two packed registers loses the low words. *)
Lemma VECTOR_ADD_low A B : exists x, VECTOR_ADD A B high_mask = Z.shiftl x 32 /\ 0 <= x < 2 ^ 32.
Proof.
  assert (forall y, exists x, Z.land y high_mask = Z.shiftl x 32 /\ 0 <= x < 2 ^ 32) as H.
  { intros y; exists (Z.land (Z.shiftr y 32) (Z.ones 32)); split.
    - change high_mask with (Z.shiftl (Z.ones 32) 32); apply Z.bits_inj'; intros i Hi; rewrite Z.land_spec; destruct (decide (i < 32)).
      + by rewrite !Z.shiftl_spec_low, andb_false_r by lia.
      + rewrite !Z.shiftl_spec, Z.land_spec, Z.shiftr_spec by lia; f_equal; f_equal; lia.
    - rewrite Z.land_ones by lia; apply Z.mod_pos_bound; lia. }
  unfold VECTOR_ADD; cbv zeta; destruct (H A) as (a & -> & Ha), (H B) as (b & -> & Hb), (H (Z.lxor A B)) as (c & -> & Hc).
  exists (Z.lxor (u32 (a + b)) c); split.
  - rewrite Z.shiftl_lxor; f_equal; unfold add; rewrite <- dsll_eq; unfold dsll; f_equal; rewrite !Z.shiftl_mul_pow2 by lia; lia.
  - apply (lxor_range 32); [lia|apply u32_range|done].
Qed.

(** Hash values with nothing in the low words. *)
Definition low_clear (h : regs) : Prop := exists a b c d, h = mk_regs (Z.shiftl a 32) (Z.shiftl b 32) (Z.shiftl c 32) (Z.shiftl d 32).

Lemma sum_low_clear h r : low_clear (mk_regs (VECTOR_ADD (ae h) (ae r) high_mask) (VECTOR_ADD (bf h) (bf r) high_mask)
                                             (VECTOR_ADD (cg h) (cg r) high_mask) (VECTOR_ADD (dh h) (dh r) high_mask)).
Proof.
  destruct (VECTOR_ADD_low (ae h) (ae r)) as (a & -> & _), (VECTOR_ADD_low (bf h) (bf r)) as (b & -> & _),
    (VECTOR_ADD_low (cg h) (cg r)) as (c & -> & _), (VECTOR_ADD_low (dh h) (dh r)) as (d & -> & _); by exists a, b, c, d.
Qed.

Lemma finish_low_clear h : low_clear h -> exists a b, hash_finish h = [a; b; 0; 0].
Proof.
  intros (a & b & c & d & ->); unfold hash_finish; cbv zeta; cbn [ae bf cg dh]; do 2 eexists.
  assert (forall x, sll (Z.shiftl x 32) 32 = 0) as Hs.
  { intros x; unfold sll; rewrite !Z.shiftl_mul_pow2 by lia; unfold wrap; rewrite <- Z.mul_assoc; change (2 ^ 32 * 2 ^ 32) with (2 ^ 64); by apply Z.mod_mul. }
  assert (forall x, Z.land (Z.shiftl x 32) (2 ^ 32 - 1) = 0) as Hl.
  { intros x; change (2 ^ 32 - 1) with (Z.ones 32); rewrite Z.land_ones, Z.shiftl_mul_pow2 by lia; by apply Z.mod_mul. }
  by rewrite !Hs, !Hl.
Qed.

(** *** Copying *)

Lemma csd_cld src dst a : byte_list src -> (a + 8 <= length src)%nat -> (a + 8 <= length dst)%nat ->
  exists x dst', cld src (Z.of_nat a) = Some x /\ csd dst (Z.of_nat a) x = Some dst' /\ copied src dst dst' a (a + 8) /\ length dst' = length dst.
Proof.
  intros Hb Ha Hd; unfold cld, csd; rewrite !(proj2 (Z.leb_le _ _)), Nat2Z.id by lia; do 2 eexists; split; [reflexivity|]; split; [reflexivity|].
  set (l := take 8 (drop a src)); assert (length l = 8%nat) as H8 by (unfold l; rewrite length_take, length_drop; lia).
  assert (reverse (be_bytes 8 (be_value (reverse l))) = l) as ->.
  { rewrite <- H8, <- length_reverse, be_bytes_value; [apply reverse_involutive|]; apply Forall_reverse, Forall_take, Forall_drop, Hb. }
  destruct (csd_copied src dst a Hb Ha Hd) as (d & E & Hc & Hl); unfold Sha256Mips.csd, dword in E; rewrite !(proj2 (Z.leb_le _ _)), Nat2Z.id in E by lia; cbn [andb] in E.
  assert (be_bytes 8 (be_value (take 8 (drop a src))) = l) as El by (fold l; rewrite <- H8; apply be_bytes_value, Forall_take, Forall_drop, Hb).
  rewrite El in E; simplify_eq; done.
Qed.

Lemma load_words_copies src n : forall pos w dst, byte_list src -> (pos + 8 * n <= length src)%nat -> (pos + 8 * n <= length dst)%nat ->
  exists w' dst', load_words n src (Z.of_nat pos) w dst = Some (w', dst') /\ length w' = length w /\ copied src dst dst' pos (pos + 8 * n) /\ length dst' = length dst.
Proof.
  induction n as [|n IH]; intros pos w dst Hb Hs Hd; cbn [load_words].
  { exists w, dst; split_and!; try done; rewrite Nat.add_0_r; apply copied_refl. }
  replace (Z.of_nat pos + 8 * Z.of_nat n) with (Z.of_nat (pos + 8 * n)) by lia.
  destruct (csd_cld src dst (pos + 8 * n) Hb ltac:(lia) ltac:(lia)) as (x & d1 & E1 & E2 & H1 & L1); rewrite E1; cbn [mbind option_bind]; rewrite E2; cbn [mbind option_bind].
  destruct (IH pos (<[n := x]> w) d1 Hb ltac:(lia) ltac:(lia)) as (w' & d2 & E & Lw & H2 & L2); exists w', d2; split_and!; [done|by rewrite Lw, length_insert| |congruence].
  eapply copied_trans; [|exact H2|lia]; by replace (pos + 8 * S n)%nat with (pos + 8 * n + 8)%nat by lia.
Qed.

Section Run.

Context (src dst0 : list Z) (m : nat).
Context (Hb : byte_list src) (Hs : (8 * m <= length src)%nat) (Hd : (8 * m <= length dst0)%nat) (Hm : 8 * Z.of_nat m < 2 ^ 60).

Abbreviation len := (8 * Z.of_nat m).

(** What has been copied before block [i]. *)
Definition copied_to (i : nat) (dst : list Z) : Prop := copied src dst0 dst 0 (Nat.min (64 * i) (8 * m)) /\ length dst = length dst0.

Lemma load_chunk_some i pos w dst : length w = 8%nat -> copied_to i dst -> ((8 * i <= m)%nat -> pos = 64 * Z.of_nat i) -> (8 * i <= m + 10)%nat ->
  exists l, load_chunk src len (64 * Z.of_nat i) pos w dst = Some l /\
    match l with
    | None => (m + 2 < 8 * i)%nat
    | Some (w', pos', dst') => (8 * i <= m + 2)%nat /\ length w' = 8%nat /\ copied_to (S i) dst' /\ ((8 * S i <= m)%nat -> pos' = 64 * Z.of_nat (S i))
    end.
Proof.
  intros Hw [Hc Hl] Hpos Hi; unfold load_chunk, blt, sub; cbv zeta; rewrite !signed_u64 by lia; change (signed 64 64) with 64; change (signed 64 0) with 0.
  destruct (len - 64 * Z.of_nat i <? -16) eqn:E1; [apply Z.ltb_lt in E1; exists None; split; [done|lia]|apply Z.ltb_ge in E1].
  assert (forall n w, (8 * i + n <= m)%nat -> (n = m - 8 * i \/ n = 8)%nat -> length w = 8%nat -> (n <= 8)%nat ->
    exists w' d', load_words n src pos w dst = Some (w', d') /\ length w' = 8%nat /\ copied_to (S i) d') as Hld.
  { intros n v Hn Hn8 Hv Hle; rewrite Hpos by lia; replace (64 * Z.of_nat i) with (Z.of_nat (64 * i)) by lia.
    destruct (load_words_copies src n (64 * i) v dst Hb ltac:(lia) ltac:(lia)) as (w' & d' & E & Lw & H2 & L2); exists w', d'; split_and!; [done|lia|split; [|lia]].
    intros k; rewrite H2, Hc; repeat case_decide; try done; lia. }
  destruct (len - 64 * Z.of_nat i <? 64) eqn:E2; [apply Z.ltb_lt in E2|apply Z.ltb_ge in E2]; cbn [negb].
  2:{ destruct (Hld 8%nat w ltac:(lia) ltac:(lia) Hw ltac:(lia)) as (w' & d' & -> & Lw & Hc'); cbn [mbind option_bind]; eexists; split; [reflexivity|].
      split_and!; [lia|done|done|]; intros; rewrite Hpos by lia; lia. }
  destruct (len - 64 * Z.of_nat i <? 0) eqn:E3; [apply Z.ltb_lt in E3|apply Z.ltb_ge in E3].
  { eexists; split; [reflexivity|]; split_and!; [lia|done| |lia]; split; [|done]; intros k; rewrite Hc; repeat case_decide; try done; lia. }
  rewrite wrap_small by (unfold in_range; lia); replace (len - 64 * Z.of_nat i) with (Z.of_nat (m - 8 * i) * 8) by lia.
  rewrite Z.mod_mul, Z.div_mul, Nat2Z.id by lia; change (0 =? 0) with true; cbn [negb].
  destruct (Hld (m - 8 * i)%nat (<[(m - 8 * i)%nat := 2 ^ 63]> (replicate 7 0 ++ [sll len 3])) ltac:(lia) ltac:(lia) ltac:(by rewrite length_insert) ltac:(lia)) as (w' & d' & -> & Lw & Hc').
  cbn [mbind option_bind]; eexists; split; [reflexivity|]; split_and!; [lia|done|done|lia].
Qed.

Lemma process_chunk_some n : forall i pos h w dst fuel, length w = 8%nat -> copied_to (S i) dst -> ((8 * S i <= m)%nat -> pos = 64 * Z.of_nat (S i)) ->
  (8 * i <= m + 2)%nat -> (m + 2 < 8 * (i + n))%nat -> (n <= fuel)%nat ->
  exists h' dst', process_chunk fuel src len (64 * Z.of_nat i) pos h w dst = Some (h', dst') /\ low_clear h' /\ copied src dst0 dst' 0 (8 * m) /\ length dst' = length dst0.
Proof.
  induction n as [|n IH]; intros i pos h w dst fuel Hw Hc Hpos Hi Hn Hf; [lia|]; destruct fuel as [|fuel]; [lia|]; cbn [process_chunk].
  destruct (continue_chunk_some 15 0 (64 * Z.of_nat i) h w Hw eq_refl) as [r E]; [change (4 * Z.of_nat 16) with 64; lia|by rewrite Z.mul_comm, Z.mod_mul|].
  rewrite E; cbn [mbind option_bind]; replace (64 * Z.of_nat i + 4 * Z.of_nat 16) with (64 * Z.of_nat (S i)) by lia.
  destruct (load_chunk_some (S i) pos w dst Hw Hc Hpos ltac:(lia)) as (l & -> & Hl); cbn [mbind option_bind]; pose proof (sum_low_clear h r) as Hlow.
  destruct l as [[[w' pos'] dst']|].
  - destruct Hl as (Hi' & Lw & Hc' & Hpos'); apply (IH (S i)); try done; lia.
  - do 2 eexists; split; [reflexivity|]; split; [done|]; destruct Hc as [Hc Hle]; by replace (Nat.min (64 * S i) (8 * m)) with (8 * m)%nat in Hc by lia.
Qed.

End Run.

(** ** Properties *)

(** C36: the RISC-V [sha256_copy], which gives a foundation its identity, copies
    the message and returns, but its digest is not that of SHA-256: the sum at
    the end of a chunk clears the low words, so the second half of every digest
    is zero, whatever the message. *)
Theorem sha256_riscv_half_digest src dst m fuel w : byte_list src -> (8 * m <= length src)%nat -> (8 * m <= length dst)%nat -> 8 * Z.of_nat m < 2 ^ 60 ->
  length w = 8%nat -> (m / 8 + 2 <= fuel)%nat ->
  exists a b, sha256_copy fuel src dst (8 * Z.of_nat m) w = Some ([a; b; 0; 0], take (8 * m) src ++ drop (8 * m) dst).
Proof.
  intros Hb Hs Hd Hm Hw Hf; unfold sha256_copy, srl; rewrite Z.shiftr_div_pow2, Z.div_small by lia; change (sll 0 63) with 0; change (negb (0 =? 0)) with false.
  rewrite Z.lxor_0_r; cbv zeta.
  destruct (load_chunk_some src dst m Hb Hs Hd Hm 0 0 w dst) as (l & E & Hl); [done| |done|lia|].
  { split; [|done]; rewrite Nat.mul_0_r, Nat.min_0_l; apply copied_refl. }
  change (64 * Z.of_nat 0) with 0 in E; rewrite E; cbn [mbind option_bind]; destruct l as [[[w' pos] d]|]; [|lia]; destruct Hl as (_ & Lw & Hc & Hpos).
  destruct (process_chunk_some src dst m Hb Hs Hd Hm (m / 8 + 2) 0 pos init_regs w' d fuel) as (h & d' & E' & Hlow & Hc' & Hl'); try done; try lia.
  { pose proof (Nat.div_mod_eq m 8); pose proof (Nat.mod_upper_bound m 8); lia. }
  change (64 * Z.of_nat 0) with 0 in E'; rewrite E'; cbn [mbind option_bind]; destruct (finish_low_clear h Hlow) as (a & b & ->); exists a, b.
  do 2 f_equal; rewrite (copied_eq _ _ _ _ _ Hc' Hl') by lia; by rewrite Nat.sub_0_r, drop_0.
Qed.

Lemma sha256_riscv_half_digest_witness :
  (exists a b, sha256_copy 3 (replicate 16 7) (replicate 24 1) 16 (replicate 8 0) = Some ([a; b; 0; 0], replicate 16 7 ++ replicate 8 1)) /\
  drop 16 (sha256_spec (replicate 16 7)) <> replicate 16 0.
Proof.
  split; [|vm_compute; discriminate].
  exact (sha256_riscv_half_digest (replicate 16 7) (replicate 24 1) 2 3 (replicate 8 0) ltac:(apply Forall_replicate; lia) ltac:(cbn; lia) ltac:(cbn; lia) ltac:(lia) eq_refl ltac:(cbn; lia)).
Defined.
